(* ===== verification/_CoqProject ===== *)
-Q . S2P
Prelude.v
Causality.v
Events.v
EventStore.v
OfflineQueue.v
Conflicts.v
Sync.v
Links.v
RateLimit.v
Access.v
Presence.v
Broker.v
AuditLog.v
DeviceManager.v
Workspace.v
Domain.v
Context.v
DepGraph.v
Messaging.v
Cycles.v
CollabSession.v
Text.v
Glob.v
Bundle.v
AccessScope.v
MsgRoute.v
Kv.v
SessionRegistry.v
MobileRegistry.v
MobileServer.v
AcpSession.v
AcpFiles.v
AcpServer.v
CollabPolicy.v
CollabStore.v
CollabQuery.v
Squad.v
GoValue.v
MsgTypes.v
MsgConfig.v
MsgAuth.v
Normalizer.v
MsgLinks.v
MsgHistory.v
MsgRouter.v
MsgRuntime.v
Chat.v
Service.v
Probe.v
MsgPhone.v
MsgChat.v
MsgProviders.v
MsgHandler.v
Ticket.v
GoFS.v
ProfileData.v
Profile.v
ProfileGuard.v
Org.v
Secrets.v
Execution.v
Runs.v
ProtoStore.v
AgentProtocol.v
Adapter.v
AdapterExec.v
AdapterRun.v
Skills.v
SkillSecrets.v
