(* ===== verification/Prelude.v ===== *)
(** * Agent Profile System: verification library

    A shallow embedding of the core of hop.top/aps, with the theorems that make
    it correct.  The program manages agent profiles; its own logic is in the
    packages of src/internal/core:

    - multidevice: a workspace shared by several devices.  Devices are linked to
      a workspace with a role; they append events to a versioned log, queue
      events while offline, synchronize, detect and resolve conflicts, send
      heartbeats, and are subject to access control, rate limits and auditing.
    - collaboration: a workspace shared by several agents, with members and
      roles, shared context variables under access control, tasks sent between
      agents and ordered by dependency graphs, agent sessions, conflict policies,
      and a manager over the files of src/internal/storage.
    - session: the registry of running agent sessions, over a key-value table.
    - bundle and scope: capability bundles that a profile declares, and the
      access rules that profile, squads, workspace and bundles add up to.
    - msgroute: which profile and action a message from a sender goes to.
    - squad: teams of profiles, the contracts between them and their routing.
    - messenger (with src/internal/adapters/messenger): webhooks of message services,
      authenticated, normalized, routed to an action or a chat, answered, recorded.
    - chat: conversations of a profile with a model, and their transcripts.
    - services: definitions of message and ticket services, their validation, probes
      and delivery health; the webhooks of ticket services (src/internal/adapters/ticket).
    - profiles: the directories of profiles with their actions, bundles, secrets and
      trust, the reporting lines between them, and the commands run in their name.
    - protocol (with src/internal/adapters/agentprotocol): runs, threads and items of a
      store, and the HTTP routes over them.

    ** Files

    - [Prelude] (this file): results of fallible functions, 64-bit integers,
      time, string order, the order of map iterations, automation.
    - [Causality]: multidevice/causality.go.  Vector clocks are maps to integers
      at their width; [Compare], [Merge] and [Increment] as in the source.
    - [Events]: events.go and the resource extraction of event_store.go; files as
      their readers see them ([Doc], [Line], [LogFile]).
    - [EventStore]: event_store.go.  State: the log file and the index file.
    - [OfflineQueue]: offline_queue.go, with a first-in first-out specification.
    - [Conflicts]: conflict_detector.go, lww_resolver.go, resolution_manager.go,
      conflict_store.go.
    - [Sync]: sync_manager.go, composing the three files above.
    - [Links]: types.go, linker.go, storage.go, policies.go, LoadPolicy and
      SavePolicy of manager.go.
    - [RateLimit], [Access]: rate_limit.go and access_control.go.
    - [Presence]: presence.go.   - [Broker]: broker.go, publisher.go.
    - [AuditLog]: audit.go and the audit part of manager.go.
    - [DeviceManager]: manager.go, the composition of all of the above.
    - [Workspace]: collaboration/types.go, workspace.go.
    - [Domain]: the interface between the collaboration repositories and the
      third-party entity service in front of them.
    - [Context]: collaboration/context.go, context_service.go, over [Domain].
    - [DepGraph], [Cycles]: collaboration/task_dependency.go.
    - [Messaging]: collaboration/messaging.go, the task types of types.go, and
      LoadTasks and SaveTasks of src/internal/storage/collaboration.go.
    - [CollabSession]: collaboration/session.go, session_service.go, over [Domain].
    - [Text], [Glob]: what the source uses of the strings and path packages of Go;
      the matcher of path.Match with its meaning.
    - [Bundle]: bundle/types.go, registry.go, resolver.go; ExtractBundleNames of
      core/profile.go and ResolveBundlesForProfile of core/execution.go.
    - [AccessScope]: scope/scope.go, intersection.go; squad/scope.go.
    - [MsgRoute]: msgroute/senderkey.go, config.go, contacts.go, table.go,
      resolve.go.
    - [Kv]: the key-value tables of hop.top/kit and the steps on rows that the two
      registries share.
    - [SessionRegistry]: session/registry.go, kvstore.go.
    - [MobileRegistry]: adapter/mobile/registry.go, types.go.
    - [MobileServer]: adapter/mobile/server.go, token.go, pairing.go, as a machine on
      which pairing requests, connections and registry operations interleave.
    - [AcpSession]: src/internal/acp/session.go, permissions.go, capabilities.go.
    - [AcpFiles]: src/internal/acp/filesystem.go over a model of path/filepath.
    - [AcpServer]: src/internal/acp/server.go, terminal.go.
    - [CollabPolicy]: collaboration/conflict.go, resolution.go, over [Context],
      [Workspace] and [Cycles].
    - [CollabStore]: src/internal/storage/collaboration.go; manager.go and
      registry.go of collaboration, with an abstract manager as specification.
    - [CollabQuery]: audit.go, metrics.go, capability.go of collaboration.
    - [Squad]: the squad package, members as slices into a heap of arrays.
    - [GoValue]: integers and floats as text, decoded JSON values.
    - [MsgTypes]: messenger/types.go with the escaping of net/url; [MsgConfig]:
      errors.go, options and allow lists, core/allowed_senders.go, servicesecret.go.
    - [MsgAuth]: validation.go and the hooks of the providers; [MsgLinks]:
      link_store.go, manager.go; [MsgHistory]: history.go, history_sqlite.go.
    - [Normalizer], [MsgRouter]: normalizer.go and router.go of adapters/messenger;
      [MsgRuntime]: messenger/runtime.go, one pass as a trace of effects.
    - [Chat]: core/chat.
    - [Service], [Probe]: core/service.go, service_routing.go, service_probe.go.
    - [MsgPhone]: sms.go, whatsapp.go; [MsgProviders]: telegram_provider.go,
      slack_provider.go; [MsgChat]: chat_executor.go, options of handler.go.
    - [MsgHandler]: handler.go, composing the messenger files with [Service].
    - [Ticket]: src/internal/adapters/ticket, over [Service], [MsgRoute] and [MsgAuth].
    - [GoFS]: a tree of files and the operations of package os on it, each of which the
      environment may refuse; paths are lists of names.
    - [ProfileData]: the record of core/profile.go and its methods, profile_id.go,
      profile_uri.go, trust_ledger.go, env_overrides.go, profile_gitconfig.go.
    - [Profile]: the operations of profile.go, action.go and profile_bundle.go over
      [GoFS]; [ProfileGuard]: deletion against the session registry.
    - [Org]: core/org/graph.go, findings.go.
    - [Secrets]: core/config.go, secrets.go, secrets_optional.go.
    - [Execution]: core/execution.go, over [Profile], [Secrets] and [Bundle].
    - [Runs]: core/protocol/core.go and types.go, runs as a machine on which calls,
      processes, streams and cancellations interleave; [ProtoStore]: its store.
    - [AgentProtocol]: src/internal/adapters/agentprotocol, over [Runs], [ProtoStore]
      and [SessionRegistry].

    A method [M] of a type [T] is the definition [M], or [T_M] where the name
    alone would be ambiguous.  Methods take and return the state they change; a
    function returning [(T, error)] returns [Res]; a panic is [None] of an outer
    option.  What the source reads from its surroundings is an argument: the clock
    ([now]), generated ids, the order of a loop over a map, the faults of the
    file system, the time zone database.

    ** What the theorems show

    - Vector clocks: [Compare] decides the componentwise order and, in every run,
      happened-before; [Merge] is a least upper bound.
    - Event log: versions are consecutive and reads return what was stored; under
      file-system faults the log still only grows and versions never go back.
    - Offline queue: refinement to a FIFO.
    - Conflicts: detection, last-write-wins and resolution are characterised on
      every branch.
    - Synchronization: a fault-free sync stores the whole queue; what is kept and
      lost when it fails or returns early.
    - Access: the permission chain is equivalent to its declarative rules; a
      schedule is a window of minutes of listed days; over any interleaving of
      requests the grants of a device respect the token-bucket bound.
    - Presence: refinement to the map of last heartbeats.
    - Broker: no interleaving panics; delivery in order and, for a subscriber
      that keeps up, complete.
    - Audit: every decision leaves one entry; what both readers return, and that
      one of them does not end on malformed input.
    - Device life cycle end to end through the manager.
    - Collaboration: the membership and life-cycle invariant; protection of
      private variables and what their error messages give away; the mutation
      log as a chain; write conflicts; topological sorting and cycle detection
      are total, sound and complete; tasks move along their state machine; what
      unlocked sends lose and what pages past the end return; one active session
      per agent and workspace under every run.
    - Conflict policies: what each of them leaves in the context, in terms of the
      mutation log; the two detectors of write conflicts agree.
    - Storage and manager: refinement to a map of workspaces under every fault of
      a write; listings and their pages; audit records; the index of capabilities
      refines what each agent registered last; searches and metrics.
    - Session registry: the life of a session under every run, the sweep, and the
      migration of the file of earlier releases.
    - Mobile adapters: the life of an adapter under every run and table failure; a
      pairing code serves once; the limit on active adapters and what exceeds it; a
      paired device connects; a revoked one does not connect again; what stopping
      closes.
    - Agent client protocol: what a request changes needs permission and a checked
      path, on every run; the first rule that applies decides; line ranges and the
      panic among them; a written file reads back; the environment of a terminal;
      what stopping leaves open.
    - Bundles and scopes: the precedence of the environment, when a profile
      resolves, what the effective scope allows, and where it allows too much.
    - Message routing: every sender is routed by a table that loads; what routes
      match; the contact index; normal forms of sender keys.
    - Messages: which ones share a conversation; when a request is authentic and a
      message admitted; who owns a channel; what an action sees of the past; how a
      reply is retried and where it goes; what a webhook request may set off, and
      that an event is processed once.
    - Chats: transcripts only grow; services in chat mode never get an answer.
    - Services: round trip of their files, when they are valid, their health as a
      fold over recorded events, and that a probe passes where its lists are covered.
    - Tickets: the normal form of each source, and what a webhook request may run.
    - Profiles: operations touch only the profile they name, whatever fails; what is
      written loads back; when a profile may be deleted; git reads back the name and
      address that were configured; trust scores sum the ledger.
    - Reporting lines: every traversal ends, and the check reports exactly the cycles,
      self references, dangling references and unknown types.
    - Secrets and execution: the file backend is a map of plain secrets, and what a
      value that is not plain does; the environment of a command is the last entry of
      each key over layers in a fixed order.
    - Runs and the store: a run whose call has returned is final on every interleaving,
      and cancelling one by its id has no effect on how it ends; the store is a map, and
      its search panics on short keys.
    - Agent protocol: paths of identifiers reach the documented handlers, a created run
      stays as it was answered, streams end without their end event, threads read back.
    - Squads: routing is a stable ranking; members are isolated while squads share
      no array; the store holds valid contracts; what the checklist means.

    ** Parameters, bounds and fuel

    - Marshalling followed by the redacting writer of src/internal/logging, whose
      rules come from a third-party corpus, is the class [LineCodec] (events) or
      [AuditCodec] (audit entries); [KeepsEnvelope] and [KeepsDecision] say that a
      redacted line still unmarshals and keeps the fields other than the redacted
      text.  [plain_codec] and [plain_audit] are instances.
    - [domain.Service] of hop.top/kit is the class [DomainService] with the laws
      [ServiceLaws]; [plain_service] is the instance without a publisher.
    - [kv.Store] and [domain.StateMachine] of hop.top/kit are the classes [KvStore],
      with the laws [KvLaws], and [StateMachine]; [plain_kv] and [listed_machine]
      are instances.  The files that a route configuration names ([Files]), the
      lookup of binaries and the environment are arguments.
    - Tokens (golang-jwt) are [Jwt] with [JwtLaws], sha256 is [Digest], the files an
      agent reaches are [OsFiles] with [OsLaws]; [one_token], [text_digest] and
      [map_files] are instances.
    - Floats as text and their conversion beyond int64 are [Float64]; the environment,
      secrets, digests and parsers that authentication reads are [MsgEnv]; a provider
      under the runtime is [MessageProvider], whose instances are in [MsgHandler].
      JSON decoding, form parsing, HTTP clients, alias expansion and redaction are
      arguments.
    - The parser of secrets.env (godotenv) is [Dotenv], whose law speaks of plain entries
      only, with the instance [readDotenv_Dotenv]; the loader of the configuration, the
      other secret backends, the parser of profile URIs and the refusals of the system
      ([OsEnv]) are arguments.  YAML and JSON documents in files are their decoded values
      or the mark that they do not decode.
    - The multiplexer of net/http is modelled by its rules for method and path patterns
      in [AgentProtocol]; run and session ids that uuid makes are arguments, and a step
      that registers a run takes one that is not in the registry.
    - Text is a sequence of bytes; case folding and white space follow ASCII.
    - Loops that are not structural take fuel, and their theorems prove that a
      stated amount suffices: [kahn] and [dfs] as many rounds as there are tasks,
      [listLoop] one round per line and one more.
    - Integers that the code adds to or negates wrap at 64 bits ([wrap64]);
      [Time.Sub] saturates ([Sub]).  Counters that only count list elements are
      left unbounded.
    - Token counts of the rate limiter, relevance scores and context sizes are
      float64 in the source and exact here.

    ** Not modelled

    Mutexes (an operation that runs under a lock is one step here; [Send],
    [CreateSession] and [handlePair] are not, and are also given as their parts), the
    creation of directories outside the files over [GoFS], JSON syntax below the level of lines, texts of error
    messages where no operation depends on them, bus notifications (except those
    the session registry announces), and YAML syntax.

    Packages that are left out, and why: the command line and terminal interface
    (src/cmd, src/internal/cli, tui) parse arguments and render what the core returns;
    isolation and voice call the operating system and devices; opening databases,
    sockets and servers, transports and QR codes are calls of libraries; the archive of
    squads is a library's encoder; skills, agent cards (a2a) and directory services
    read documents and pass them on to SDKs that are not part of the repository; the
    adapter manager starts and stops processes. *)

From Stdlib Require Import ZArith Lia String Ascii.
From stdpp Require Import base option list gmap strings fin_maps sorting.

(** ** Results of fallible Go functions

    A Go function returning [(T, error)] is modelled by [Res E T]: the error
    values of a component are the constructors of its own type [E]. *)

Inductive Res (E A : Type) : Type :=
  | Ok (a : A)
  | Err (e : E).

Arguments Ok {E A} a.
Arguments Err {E A} e.

Definition is_ok {E A} (r : Res E A) : bool :=
  match r with Ok _ => true | Err _ => false end.

(** [r] with its error wrapped: [fmt.Errorf("...: %w", err)]. *)
Definition map_err {E F A} (f : E -> F) (r : Res E A) : Res F A :=
  match r with Ok a => Ok a | Err e => Err (f e) end.

(** ** Machine integers

    Go's [int] and [int64] are 64-bit two's complement values, kept here as
    [Z] with the wrap-around written where the source adds or negates. *)

Declare Scope go_scope.
Delimit Scope go_scope with go.
Open Scope Z_scope.

Definition min_int64 : Z := - 2 ^ 63.
Definition max_int64 : Z := 2 ^ 63 - 1.
Definition wrap64 (z : Z) : Z := (z + 2 ^ 63) mod 2 ^ 64 - 2 ^ 63.
Definition int64_range (z : Z) : Prop := min_int64 <= z <= max_int64.

Lemma wrap64_id z : int64_range z -> wrap64 z = z.
Proof.
  unfold int64_range, min_int64, max_int64, wrap64. intros H.
  rewrite Z.mod_small; lia.
Qed.

Lemma wrap64_range z : int64_range (wrap64 z).
Proof.
  unfold int64_range, min_int64, max_int64, wrap64.
  pose proof (Z.mod_pos_bound (z + 2 ^ 63) (2 ^ 64)). lia.
Qed.

(** ** Time

    A [time.Time] is its number of nanoseconds since Go's zero time, so
    [IsZero] is the test against 0.  [time.Duration] is an [int64] number of
    nanoseconds, and [Time.Sub] saturates at its bounds. *)

Definition IsZero (t : Z) : bool := t =? 0.
Definition After (t u : Z) : bool := u <? t.
Definition Before (t u : Z) : bool := t <? u.
Definition Sub (t u : Z) : Z := Z.max min_int64 (Z.min max_int64 (t - u)).

Definition Millisecond : Z := 1000000.
Definition Second : Z := 1000 * Millisecond.
Definition Minute : Z := 60 * Second.

(** Nanoseconds since 1970, as [time.Now().UnixNano()]. *)
Definition UnixNano (t : Z) : Z := wrap64 (t - 62135596800 * Second).

Lemma Sub_exact t u : int64_range (t - u) -> Sub t u = t - u.
Proof. unfold int64_range, Sub. lia. Qed.

(** ** Strings

    Go compares strings bytewise, as [String.compare] does. *)

Definition str_ltb (a b : string) : bool := String.ltb a b.

Lemma ascii_compare_lt a b : Ascii.compare a b = Lt <-> (N_of_ascii a < N_of_ascii b)%N.
Proof. unfold Ascii.compare. apply N.compare_lt_iff. Qed.

Lemma str_compare_trans a b c :
  String.compare a b = Lt -> String.compare b c = Lt -> String.compare a c = Lt.
Proof.
  revert b c. induction a as [|x a IH]; intros [|y b] [|z c]; simpl; try done.
  destruct (Ascii.compare x y) eqn:Exy; try done;
    destruct (Ascii.compare y z) eqn:Eyz; try done.
  - apply Ascii.compare_eq_iff in Exy as ->, Eyz as ->.
    unfold Ascii.compare. rewrite N.compare_refl. apply IH.
  - apply Ascii.compare_eq_iff in Exy as ->. by rewrite Eyz.
  - apply Ascii.compare_eq_iff in Eyz as ->. by rewrite Exy.
  - rewrite ascii_compare_lt in Exy, Eyz.
    assert (Ascii.compare x z = Lt) as ->; [apply ascii_compare_lt; lia | done].
Qed.

Lemma str_ltb_compare a b : str_ltb a b = true <-> String.compare a b = Lt.
Proof. unfold str_ltb, String.ltb. by destruct (String.compare a b). Qed.

Lemma str_compare_refl a : String.compare a a = Eq.
Proof.
  induction a as [|x a IH]; simpl; [done|].
  unfold Ascii.compare. by rewrite N.compare_refl.
Qed.

Lemma str_ltb_irrefl a : str_ltb a a = false.
Proof. unfold str_ltb, String.ltb. by rewrite str_compare_refl. Qed.

Lemma str_ltb_trans a b c :
  str_ltb a b = true -> str_ltb b c = true -> str_ltb a c = true.
Proof. rewrite !str_ltb_compare. apply str_compare_trans. Qed.

Lemma str_ltb_total a b : str_ltb a b = false -> a = b \/ str_ltb b a = true.
Proof.
  rewrite str_ltb_compare. unfold str_ltb, String.ltb.
  destruct (String.compare a b) eqn:E; try done; intros _.
  - left. by apply String.compare_eq_iff.
  - right. rewrite String.compare_antisym, E. done.
Qed.

(** The order of os.ReadDir and sort.Strings. *)
Definition str_le (a b : string) : Prop := str_ltb b a = false.

#[export] Instance str_le_dec a b : Decision (str_le a b).
Proof. unfold str_le. apply _. Defined.

#[export] Instance str_le_trans : Transitive str_le.
Proof.
  intros a b c Hab Hbc. unfold str_le in *. destruct (str_ltb c a) eqn:E; [|done]. exfalso.
  destruct (str_ltb_total _ _ Hab) as [->|H1]; [congruence|].
  pose proof (str_ltb_trans _ _ _ E H1). congruence.
Qed.

#[export] Instance str_le_total : Total str_le.
Proof.
  intros a b. unfold str_le. destruct (str_ltb b a) eqn:E; [|by left]. right.
  destruct (str_ltb a b) eqn:E'; [|done]. pose proof (str_ltb_trans _ _ _ E E') as H. by rewrite str_ltb_irrefl in H.
Qed.

Lemma sublist_StronglySorted {A} (R : relation A) (l k : list A) :
  l `sublist_of` k -> StronglySorted R k -> StronglySorted R l.
Proof.
  induction 1 as [|x l k Hs IH|x l k Hs IH]; intros Hk; [constructor|..];
    apply StronglySorted_inv in Hk as [Hk Hx]; [|auto].
  constructor; [auto|]. rewrite Forall_forall in *. intros y Hy. apply Hx. by eapply elem_of_sublist.
Qed.

(** ** Ranging over a Go map

    The order in which [range m] visits a map is unspecified and may differ
    from one loop to the next: a loop takes the order as an argument, and a
    theorem about it holds for every [o] with [ranges o m]. *)

Definition ranges {V} (o : list (string * V)) (m : gmap string V) : Prop :=
  o ≡ₚ map_to_list m.

Definition ranges_keys {V} (o : list string) (m : gmap string V) : Prop :=
  o ≡ₚ (map_to_list m).*1.

Lemma ranges_elem {V} (o : list (string * V)) m k v :
  ranges o m -> (k, v) ∈ o <-> m !! k = Some v.
Proof. intros ->. by rewrite elem_of_map_to_list. Qed.

Lemma ranges_keys_elem {V} o (m : gmap string V) k :
  ranges_keys o m -> k ∈ o <-> is_Some (m !! k).
Proof.
  intros ->. rewrite list_elem_of_fmap. split.
  - intros ([k' v] & -> & ?%elem_of_map_to_list). eauto.
  - intros [v ?%elem_of_map_to_list]. by exists (k, v).
Qed.

Lemma ranges_keys_NoDup {V} o (m : gmap string V) : ranges_keys o m -> NoDup o.
Proof. intros ->. apply NoDup_fst_map_to_list. Qed.

(** ** Slices *)

(** [items[len(items)-n:]] when there are more than [n] of them. *)
Definition last_n {A} (n : Z) (l : list A) : list A :=
  if bool_decide (n > 0) && bool_decide (Z.of_nat (length l) > n)
  then drop (Z.to_nat (Z.of_nat (length l) - n)) l else l.

Lemma last_n_length {A} n (l : list A) :
  n > 0 -> Z.of_nat (length (last_n n l)) = Z.min n (Z.of_nat (length l)).
Proof.
  intros Hn. unfold last_n. rewrite bool_decide_true by done. simpl.
  case_bool_decide; [rewrite length_drop|]; lia.
Qed.

Lemma last_n_suffix {A} n (l : list A) : last_n n l `suffix_of` l.
Proof.
  unfold last_n. case_match; [|done].
  eexists. symmetry. apply take_drop.
Qed.

Lemma filter_none {A} (P : A -> Prop) `{!forall x, Decision (P x)} (l : list A) :
  (forall x, x ∈ l -> ~ P x) -> filter P l = [].
Proof.
  induction l as [|x l IH]; intros Hl; [done|].
  rewrite filter_cons_False by (apply Hl; left). apply IH. intros y Hy. apply Hl. by right.
Qed.

Lemma filter_all {A} (P : A -> Prop) `{!forall x, Decision (P x)} (l : list A) :
  (forall x, x ∈ l -> P x) -> filter P l = l.
Proof.
  induction l as [|x l IH]; intros Hl; [done|].
  rewrite filter_cons_True by (apply Hl; left). f_equal. apply IH. intros y Hy. apply Hl. by right.
Qed.

(** ** Automation *)

Create HintDb aps discriminated.
#[export] Hint Resolve wrap64_id wrap64_range last_n_suffix : aps.

(** Case analysis on every [match] and [decide] of the goal. *)
Ltac go_cases := repeat (case_match || case_decide || case_bool_decide); simplify_eq/=.

(** Open a hypothesis that says how a call of the model returned. *)
Ltac go_inv H := repeat (case_match || case_decide || case_bool_decide); simplify_eq/=;
  try done.
