(* ===== verification/Causality.v ===== *)
(** * Vector clocks (src/internal/core/multidevice/causality.go)

    [VectorClock] and its operations, the order they define, and the theorem
    that the clocks of a run in which devices tick with [Increment] and learn
    of each other's events with [Merge] decide the happened-before relation. *)

From Stdlib Require Import ZArith Lia.
From stdpp Require Import base option list gmap strings fin_maps relations.
From S2P Require Import Prelude.

Open Scope Z_scope.

(** ** The clock and its operations *)

Record VectorClock : Type := mkVectorClock {
  Clocks : gmap string Z (* deviceID -> logical timestamp, an int64 *)
}.

Definition NewVectorClock : VectorClock := mkVectorClock ∅.

(** Reading an absent key of a Go map gives the zero value. *)
Definition Get (vc : VectorClock) (deviceID : string) : Z :=
  default 0 (Clocks vc !! deviceID).

Definition Increment (vc : VectorClock) (deviceID : string) : VectorClock :=
  mkVectorClock (<[deviceID := wrap64 (Get vc deviceID + 1)]> (Clocks vc)).

Definition Set_ (vc : VectorClock) (deviceID : string) (ts : Z) : VectorClock :=
  mkVectorClock (<[deviceID := ts]> (Clocks vc)).

(** The loop of [Merge] over the entries of the other clock. *)
Definition mergeEntry (vc : VectorClock) (entry : string * Z) : VectorClock :=
  let '(deviceID, otherTS) := entry in
  if bool_decide (otherTS > Get vc deviceID)
  then mkVectorClock (<[deviceID := otherTS]> (Clocks vc)) else vc.

#[global] Arguments mergeEntry : simpl never.

Definition mergeLoop (o : list (string * Z)) (vc : VectorClock) : VectorClock :=
  foldl mergeEntry vc o.

(** [other] is a pointer, [None] when it is nil. *)
Definition Merge (vc : VectorClock) (other : option VectorClock) : VectorClock :=
  match other with
  | None => vc
  | Some other => mergeLoop (map_to_list (Clocks other)) vc
  end.

(** The strings [Compare] returns. *)
Inductive Causal : Type := before | after | concurrent | equal.

#[export] Instance Causal_eq_dec : EqDecision Causal.
Proof. solve_decision. Defined.

Record Flags : Type := mkFlags { aBeforeB : bool; bBeforeA : bool; equalF : bool }.

Definition compareStep (a b : VectorClock) (f : Flags) (d : string) : Flags :=
  let av := Get a d in
  let bv := Get b d in
  mkFlags (if bool_decide (av > bv) then false else aBeforeB f)
          (if bool_decide (bv > av) then false else bBeforeA f)
          (if bool_decide (av = bv) then equalF f else false).

Definition compareLoop (a b : VectorClock) (devices : list string) : Causal :=
  let f := foldl (compareStep a b) (mkFlags true true true) devices in
  if equalF f then equal
  else if aBeforeB f then before
  else if bBeforeA f then after
  else concurrent.

Definition devicesOf (a b : VectorClock) : gset string :=
  dom (Clocks a) ∪ dom (Clocks b).

Definition Compare (a b : option VectorClock) : Causal :=
  match a, b with
  | Some a, Some b => compareLoop a b (elements (devicesOf a b))
  | _, _ => concurrent
  end.

Definition Copy (vc : VectorClock) : VectorClock :=
  mkVectorClock (list_to_map (map_to_list (Clocks vc))).

(** ** Clocks up to absent entries

    An absent entry and an entry 0 are the same timestamp to every operation:
    clocks are compared by what [Get] returns. *)

#[export] Instance VectorClock_equiv : Equiv VectorClock :=
  fun a b => forall d, Get a d = Get b d.

#[export] Instance VectorClock_equivalence : Equivalence (≡@{VectorClock}).
Proof.
  split.
  - done.
  - intros a b H d. by rewrite (H d).
  - intros a b c H1 H2 d. by rewrite (H1 d), (H2 d).
Qed.

(** [a] is at most [b] on every device. *)
Definition vle (a b : VectorClock) : Prop := forall d, Get a d <= Get b d.

(** No entry is negative: clocks built by [Increment] and [Merge] only. *)
Definition nonneg (a : VectorClock) : Prop := forall d, 0 <= Get a d.

Lemma Get_new d : Get NewVectorClock d = 0.
Proof. done. Qed.

Lemma Get_insert m d t d' :
  Get (mkVectorClock (<[d := t]> m)) d' = if decide (d = d') then t else Get (mkVectorClock m) d'.
Proof. unfold Get; simpl. rewrite lookup_insert. by case_decide. Qed.

Lemma Get_Increment vc d d' :
  Get (Increment vc d) d' = if decide (d = d') then wrap64 (Get vc d + 1) else Get vc d'.
Proof. apply Get_insert. Qed.

Lemma Get_mergeEntry vc d t d' :
  Get (mergeEntry vc (d, t)) d' = if decide (d = d') then Z.max (Get vc d) t else Get vc d'.
Proof.
  unfold mergeEntry. case_bool_decide; [rewrite Get_insert|]; case_decide; subst; try done; lia.
Qed.

Lemma Get_mergeLoop o vc d :
  NoDup o.*1 ->
  Get (mergeLoop o vc) d =
    match (list_to_map o : gmap string Z) !! d with
    | Some t => Z.max (Get vc d) t | None => Get vc d end.
Proof.
  revert vc. induction o as [|[k t] o IH]; intros vc Hnd; [done|].
  simpl in *. apply NoDup_cons in Hnd as [Hk Hnd].
  rewrite IH by done. rewrite Get_mergeEntry, lookup_insert.
  case_decide; subst; [|done].
  by rewrite not_elem_of_list_to_map_1.
Qed.

Lemma Get_Merge vc o d :
  Get (Merge vc (Some o)) d =
    match Clocks o !! d with Some t => Z.max (Get vc d) t | None => Get vc d end.
Proof.
  simpl. rewrite Get_mergeLoop by apply NoDup_fst_map_to_list.
  by rewrite list_to_map_to_list.
Qed.

Lemma Get_Merge_nonneg vc o d :
  nonneg vc -> Get (Merge vc (Some o)) d = Z.max (Get vc d) (Get o d).
Proof.
  intros Hn. rewrite Get_Merge. specialize (Hn d).
  unfold Get in *. destruct (Clocks o !! d); simpl; lia.
Qed.

Lemma Copy_id vc : Copy vc = vc.
Proof. destruct vc. unfold Copy; simpl. by rewrite list_to_map_to_list. Qed.

Lemma nonneg_new : nonneg NewVectorClock.
Proof. intros d. rewrite Get_new. done. Qed.

Lemma nonneg_Merge vc o : nonneg vc -> nonneg (Merge vc (Some o)).
Proof. intros H d. rewrite Get_Merge. specialize (H d). case_match; lia. Qed.

#[export] Hint Resolve nonneg_new nonneg_Merge : aps.

(** ** [Compare] decides the componentwise order *)

Lemma andb_guard (x : bool) (P Q R : Prop) `{!Decision P, !Decision Q, !Decision R} :
  (R <-> ~ P /\ Q) ->
  (if bool_decide P then false else x) && bool_decide Q = x && bool_decide R.
Proof.
  intros H. repeat case_bool_decide; rewrite ?andb_false_r, ?andb_true_r; tauto.
Qed.

Lemma compareLoop_flags a b devices f :
  foldl (compareStep a b) f devices =
    mkFlags (aBeforeB f && bool_decide (Forall (fun d => Get a d <= Get b d) devices))
            (bBeforeA f && bool_decide (Forall (fun d => Get b d <= Get a d) devices))
            (equalF f && bool_decide (Forall (fun d => Get a d = Get b d) devices)).
Proof.
  revert f. induction devices as [|d l IH]; intros [x y z]; simpl.
  - by rewrite !andb_true_r.
  - rewrite IH. simpl. f_equal.
    + apply andb_guard. rewrite Forall_cons. split; intros []; split; done || lia.
    + apply andb_guard. rewrite Forall_cons. split; intros []; split; done || lia.
    + repeat case_bool_decide; rewrite ?andb_false_r, ?andb_true_r; try done;
        rewrite Forall_cons in *; tauto.
Qed.

Lemma Get_outside a b d : d ∉ devicesOf a b -> Get a d = 0 /\ Get b d = 0.
Proof.
  unfold devicesOf, Get. rewrite not_elem_of_union, !not_elem_of_dom.
  by intros [-> ->].
Qed.

(** A relation that holds of two zeroes holds on every device once it holds on
    the devices the loop visits, whatever the order of the loop. *)
Lemma Forall_devices (R : Z -> Z -> Prop) a b devices :
  (forall d, d ∈ devices <-> d ∈ devicesOf a b) -> R 0 0 ->
  Forall (fun d => R (Get a d) (Get b d)) devices <-> forall d, R (Get a d) (Get b d).
Proof.
  intros Hdev H0. rewrite Forall_forall. split.
  - intros H d. destruct (decide (d ∈ devices)) as [Hin|Hin]; [by apply H|].
    apply (not_iff_compat (Hdev d)) in Hin. by destruct (Get_outside _ _ _ Hin) as [-> ->].
  - intros H d _. apply H.
Qed.

(** What each verdict means. *)
Definition causal_spec (a b : VectorClock) (c : Causal) : Prop :=
  match c with
  | equal => a ≡ b
  | before => vle a b /\ ~ vle b a
  | after => vle b a /\ ~ vle a b
  | concurrent => ~ vle a b /\ ~ vle b a
  end.

Lemma compareLoop_spec a b devices :
  (forall d, d ∈ devices <-> d ∈ devicesOf a b) ->
  causal_spec a b (compareLoop a b devices).
Proof.
  intros Hdev. unfold compareLoop. rewrite compareLoop_flags. simpl.
  assert (a ≡ b <-> vle a b /\ vle b a) as Hanti.
  { split; [intros H; split; intros d; rewrite (H d); done|].
    intros [H1 H2] d. specialize (H1 d). specialize (H2 d). lia. }
  pose proof (Forall_devices Z.le a b devices Hdev (Z.le_refl 0)) as H1.
  pose proof (Forall_devices (fun x y => y <= x) a b devices Hdev (Z.le_refl 0)) as H2.
  pose proof (Forall_devices eq a b devices Hdev eq_refl) as H3.
  fold (vle a b) in H1. fold (vle b a) in H2. fold (a ≡ b) in H3.
  repeat case_bool_decide; unfold causal_spec; tauto.
Qed.

(** The verdict is determined by its meaning: the order in which the loop
    visits the devices does not matter. *)
Lemma causal_spec_unique a b c c' :
  causal_spec a b c -> causal_spec a b c' -> c = c'.
Proof.
  intros H H'.
  assert (a ≡ b -> vle a b /\ vle b a) as Hrefl.
  { intros Heq. split; intros d; rewrite (Heq d); done. }
  destruct c, c'; simpl in *; tauto || (exfalso; tauto).
Qed.

Lemma Compare_spec a b : causal_spec a b (Compare (Some a) (Some b)).
Proof. apply compareLoop_spec. intros d. apply elem_of_elements. Qed.

Definition flip_causal (c : Causal) : Causal :=
  match c with before => after | after => before | c => c end.

Lemma causal_spec_flip a b c : causal_spec a b c -> causal_spec b a (flip_causal c).
Proof. destruct c; simpl; try tauto. by intros ->. Qed.

Lemma Compare_before_iff a b :
  Compare (Some a) (Some b) = before <-> vle a b /\ ~ vle b a.
Proof.
  split; [intros H; pose proof (Compare_spec a b) as Hs; by rewrite H in Hs|].
  intros H. eapply causal_spec_unique; [apply Compare_spec | exact H].
Qed.

#[export] Instance vle_preorder : PreOrder vle.
Proof.
  split; [intros a d; lia|].
  intros a b c H1 H2 d. specialize (H1 d). specialize (H2 d). lia.
Qed.

#[export] Instance vle_proper : Proper ((≡) ==> (≡) ==> iff) vle.
Proof.
  intros a a' Ha b b' Hb.
  split; intros H d; specialize (H d); specialize (Ha d); specialize (Hb d); lia.
Qed.

#[export] Instance Compare_proper :
  Proper ((≡) ==> (≡) ==> eq) (fun a b => Compare (Some a) (Some b)).
Proof.
  intros a a' Ha b b' Hb. apply (causal_spec_unique a b); [apply Compare_spec|].
  pose proof (Compare_spec a' b') as H.
  destruct (Compare (Some a') (Some b')); simpl in *; by rewrite Ha, Hb.
Qed.

#[export] Instance Get_proper : Proper ((≡) ==> eq ==> eq) Get.
Proof. intros a b H d _ <-. apply H. Qed.

#[export] Instance Increment_proper : Proper ((≡) ==> eq ==> (≡)) Increment.
Proof. intros a b H d _ <- d'. by rewrite !Get_Increment, (H d), (H d'). Qed.

(** [Compare] on two non-nil clocks decides their componentwise order:
    "equal" is agreement on every device (an absent entry reads 0), "before"
    and "after" are the strict orders, "concurrent" is incomparability; the
    verdict does not depend on the order in which the device set is ranged
    over, swapping the arguments swaps "before" and "after", and a nil clock
    is concurrent with everything. *)
Theorem Compare_decides_causal_order (a b : VectorClock) :
  causal_spec a b (Compare (Some a) (Some b)) /\
  (forall devices, devices ≡ₚ elements (devicesOf a b) ->
     compareLoop a b devices = Compare (Some a) (Some b)) /\
  Compare (Some b) (Some a) = flip_causal (Compare (Some a) (Some b)) /\
  (forall c, Compare None c = concurrent /\ Compare c None = concurrent).
Proof.
  split_and!.
  - apply Compare_spec.
  - intros devices Hp. eapply causal_spec_unique; [|apply Compare_spec].
    apply compareLoop_spec. intros d. by rewrite Hp, elem_of_elements.
  - eapply causal_spec_unique; [apply Compare_spec|].
    apply causal_spec_flip, Compare_spec.
  - by intros [c|].
Qed.

(** ** [Merge] is the least upper bound *)

Lemma vle_Merge_l a b : vle a (Merge a (Some b)).
Proof. intros d. rewrite Get_Merge. case_match; lia. Qed.

Lemma vle_Merge_r a b : nonneg a -> vle b (Merge a (Some b)).
Proof. intros H d. rewrite Get_Merge_nonneg by done. lia. Qed.

#[export] Hint Resolve vle_Merge_l vle_Merge_r : aps.

(** On clocks without negative entries [Merge] computes the least upper
    bound of the two clocks, so merging is commutative, associative and
    idempotent up to absent entries: devices that exchange clocks in any order
    and any number of times end with equal clocks; merging nil changes
    nothing. *)
Theorem Merge_is_lub (a b c : VectorClock) (Ha : nonneg a) (Hb : nonneg b) :
  (vle a (Merge a (Some b)) /\ vle b (Merge a (Some b))) /\
  (vle a c -> vle b c -> vle (Merge a (Some b)) c) /\
  Merge a (Some b) ≡ Merge b (Some a) /\
  Merge (Merge a (Some b)) (Some c) ≡ Merge a (Some (Merge b (Some c))) /\
  Merge a (Some a) ≡ a /\
  Merge a None = a.
Proof.
  split_and!; try done; auto with aps.
  - intros H1 H2 d. specialize (H1 d). specialize (H2 d).
    rewrite Get_Merge_nonneg by done. lia.
  - intros d. rewrite !Get_Merge_nonneg by auto with aps. lia.
  - intros d. rewrite !Get_Merge_nonneg by auto with aps. lia.
  - intros d. rewrite !Get_Merge_nonneg by auto with aps. lia.
Qed.

(** ** Clocks of a run decide happened-before

    A run is a sequence of actions of devices.  Every action stamps an event:
    the acting device merges the clock of an earlier event it has received, if
    any, then ticks its own entry, and the event carries a copy of the
    clock. *)

Inductive Act : Type :=
  | Local (d : string)
  | Receive (d : string) (src : nat).

Definition act_dev (a : Act) : string :=
  match a with Local d => d | Receive d _ => d end.

Record Run : Type := mkRun {
  devClock : gmap string VectorClock;
  stamped : list (string * VectorClock)
}.

Definition clockOf (r : Run) (d : string) : VectorClock :=
  default NewVectorClock (devClock r !! d).

Definition heard (r : Run) (a : Act) : option VectorClock :=
  match a with Local _ => None | Receive _ src => snd <$> stamped r !! src end.

Definition act_step (r : Run) (a : Act) : Run :=
  let d := act_dev a in
  let vc := Increment (Merge (clockOf r d) (heard r a)) d in
  mkRun (<[d := vc]> (devClock r)) (stamped r ++ [(d, Copy vc)]).

Definition run (tr : list Act) : Run := foldl act_step (mkRun ∅ []) tr.

(** Lamport's relation on the positions of a trace. *)
Inductive hb (tr : list Act) : nat -> nat -> Prop :=
  | hb_proc i j a b : (i < j)%nat -> tr !! i = Some a -> tr !! j = Some b ->
      act_dev a = act_dev b -> hb tr i j
  | hb_msg i j d : (i < j)%nat -> tr !! j = Some (Receive d i) -> hb tr i j
  | hb_trans i j k : hb tr i j -> hb tr j k -> hb tr i k.

#[local] Hint Constructors hb : aps.

Lemma hb_lt tr i j : hb tr i j -> (i < j < length tr)%nat.
Proof.
  induction 1 as [i j a b ? ? H2%lookup_lt_Some|i j d ? H2%lookup_lt_Some|]; lia.
Qed.

Lemma hb_app tr a i j : hb tr i j -> hb (tr ++ [a]) i j.
Proof.
  induction 1 as [i j x y Hlt Hi Hj Hd|i j d Hlt Hj|].
  - eapply hb_proc; [done | by apply lookup_app_l_Some | by apply lookup_app_l_Some | done].
  - eapply hb_msg; [done | by apply lookup_app_l_Some].
  - eauto with aps.
Qed.

Lemma hb_app_inv tr a i j : hb (tr ++ [a]) i j -> (j < length tr)%nat -> hb tr i j.
Proof.
  induction 1 as [i j x y Hlt Hi Hj Hd|i j d Hlt Hj|i j k H1 IH1 H2 IH2]; intros Hn.
  - rewrite lookup_app_l in Hi, Hj by lia. eauto with aps.
  - rewrite lookup_app_l in Hj by lia. eauto with aps.
  - apply hb_lt in H2. eapply hb_trans; [apply IH1 | apply IH2]; lia.
Qed.

(** The events the last action of [tr ++ [a]] directly follows. *)
Definition direct (tr : list Act) (a : Act) (k : nat) : Prop :=
  (exists b, tr !! k = Some b /\ act_dev b = act_dev a) \/
  ((k < length tr)%nat /\ exists d, a = Receive d k).

Lemma direct_hb tr a k : direct tr a k -> hb (tr ++ [a]) k (length tr).
Proof.
  intros [(b & Hk & Hd) | (Hk & d & ->)].
  - eapply hb_proc; [by eapply lookup_lt_Some | by apply lookup_app_l_Some | | done].
    by apply list_lookup_middle.
  - eapply hb_msg; [done|]. by apply list_lookup_middle.
Qed.

Lemma hb_last tr a i :
  hb (tr ++ [a]) i (length tr) <-> exists k, direct tr a k /\ (i = k \/ hb tr i k).
Proof.
  split.
  - remember (length tr) as n eqn:Hn. induction 1 as [i j x y Hlt Hi Hj Hd|i j d Hlt Hj|i j k H1 _ H2 IH2].
    + rewrite lookup_app_l in Hi by lia. subst j.
      rewrite list_lookup_middle in Hj by done. simplify_eq.
      exists i. split; [left; eauto | by left].
    + subst j. rewrite list_lookup_middle in Hj by done. simplify_eq.
      exists i. split; [right; eauto | by left].
    + destruct (IH2 Hn) as (k' & Hd & Hk). exists k'. split; [done|]. right.
      assert (hb tr i j). { eapply hb_app_inv; [done|]. apply hb_lt in H2. lia. }
      destruct Hk as [->|]; eauto with aps.
  - intros (k & Hd & [->|Hik]); [by apply direct_hb|].
    eapply hb_trans; [by apply hb_app | by apply direct_hb].
Qed.

(** The invariant of a run. *)
Record run_ok (tr : list Act) (r : Run) : Prop := mkRunOk {
  ro_len : length (stamped r) = length tr;
  ro_dev : forall i p c, stamped r !! i = Some (p, c) -> act_dev <$> tr !! i = Some p;
  ro_nonneg : forall p, nonneg (clockOf r p);
  ro_bound : forall p q, Get (clockOf r p) q <= Get (clockOf r q) q <= Z.of_nat (length tr);
  ro_pos : forall i p c, stamped r !! i = Some (p, c) -> 1 <= Get c p;
  ro_past : forall i p c, stamped r !! i = Some (p, c) -> vle c (clockOf r p);
  ro_cur : forall p, clockOf r p ≡ NewVectorClock \/ exists i, stamped r !! i = Some (p, clockOf r p);
  ro_hb_le : forall i j p c q e, stamped r !! i = Some (p, c) -> stamped r !! j = Some (q, e) ->
    hb tr i j -> vle c e;
  ro_le_hb : forall i j p c q e, stamped r !! i = Some (p, c) -> stamped r !! j = Some (q, e) ->
    Get c p <= Get e p -> i = j \/ hb tr i j
}.

Lemma ro_own tr r i p c q :
  run_ok tr r -> stamped r !! i = Some (p, c) -> Get c q <= Get (clockOf r q) q.
Proof.
  intros H Hi. pose proof (ro_past _ _ H _ _ _ Hi q). pose proof (ro_bound _ _ H p q). lia.
Qed.

Lemma run_ok_nil : run_ok [] (mkRun ∅ []).
Proof.
  split; simpl; try done; try (intros; unfold clockOf; simpl;
    rewrite ?lookup_empty, ?lookup_nil in *; simpl; rewrite ?Get_new; done || lia).
  intros p. left. unfold clockOf; simpl. by rewrite lookup_empty.
Qed.

(** The clock [W] of the new event, entry by entry. *)
Section step.
Context (tr : list Act) (r : Run) (a : Act).
Context (Hok : run_ok tr r) (Hlen : Z.of_nat (length tr) < max_int64).

Abbreviation p := (act_dev a).
Abbreviation M := (Merge (clockOf r p) (heard r a)).
Abbreviation W := (Increment M p).

Lemma heard_stamped v :
  heard r a = Some v -> exists s q, stamped r !! s = Some (q, v) /\ direct tr a s.
Proof.
  destruct a as [d|d s]; simpl; [done|].
  destruct (stamped r !! s) as [[q v']|] eqn:Hs; simpl; intros ?; simplify_eq.
  exists s, q. split; [done|]. right. split; [|eauto].
  rewrite <- (ro_len _ _ Hok). by eapply lookup_lt_Some.
Qed.

Lemma Get_M q :
  Get M q = match heard r a with
            | Some v => Z.max (Get (clockOf r p) q) (Get v q)
            | None => Get (clockOf r p) q end.
Proof.
  destruct (heard r a); [apply Get_Merge_nonneg, (ro_nonneg _ _ Hok) | done].
Qed.

Lemma Get_M_own : Get M p = Get (clockOf r p) p.
Proof.
  rewrite Get_M. destruct (heard r a) as [v|] eqn:Hh; [|done].
  destruct (heard_stamped v Hh) as (s & q & Hs & _).
  pose proof (ro_own _ _ _ _ _ p Hok Hs). lia.
Qed.

Lemma Get_M_le q : Get M q <= Get (clockOf r q) q.
Proof.
  rewrite Get_M. pose proof (ro_bound _ _ Hok p q).
  destruct (heard r a) as [v|] eqn:Hh; [|lia].
  destruct (heard_stamped v Hh) as (s & q' & Hs & _).
  pose proof (ro_own _ _ _ _ _ q Hok Hs). lia.
Qed.

Lemma Get_W q : Get W q = if decide (p = q) then Get (clockOf r p) p + 1 else Get M q.
Proof.
  rewrite Get_Increment, Get_M_own. case_decide; [|done].
  apply wrap64_id. unfold int64_range, min_int64.
  pose proof (ro_nonneg _ _ Hok p p). pose proof (ro_bound _ _ Hok p p). lia.
Qed.

Lemma clock_le_W : vle (clockOf r p) W.
Proof.
  intros q. rewrite Get_W. case_decide; [subst; lia|].
  rewrite Get_M. case_match; lia.
Qed.

Lemma direct_le_W k q c :
  direct tr a k -> stamped r !! k = Some (q, c) -> vle c W.
Proof.
  intros [(b & Hb & Hd) | (_ & d & Ha)] Hk x.
  - pose proof (ro_dev _ _ Hok _ _ _ Hk) as Hdev. rewrite Hb in Hdev. simpl in Hdev.
    simplify_eq. rewrite Hd in Hk.
    pose proof (ro_past _ _ Hok _ _ _ Hk x). pose proof (clock_le_W x). lia.
  - assert (heard r a = Some c) as Hh by (subst a; simpl; by rewrite Hk).
    rewrite Get_W. pose proof (ro_own _ _ _ _ _ x Hok Hk) as Hown.
    case_decide; [subst x; lia|]. rewrite Get_M, Hh. lia.
Qed.

Lemma clockOf_step q : clockOf (act_step r a) q = if decide (p = q) then W else clockOf r q.
Proof. unfold clockOf, act_step; simpl. rewrite lookup_insert. by case_decide. Qed.

Lemma stamped_step : stamped (act_step r a) = stamped r ++ [(p, W)].
Proof. unfold act_step; simpl. by rewrite Copy_id. Qed.

Lemma stamped_step_inv i q c :
  stamped (act_step r a) !! i = Some (q, c) ->
  (stamped r !! i = Some (q, c) /\ (i < length tr)%nat) \/ (i = length tr /\ q = p /\ c = W).
Proof.
  rewrite stamped_step. intros [Hi|[Hi He]]%lookup_app_Some.
  - left. split; [done|]. rewrite <- (ro_len _ _ Hok). by eapply lookup_lt_Some.
  - right. apply list_lookup_singleton_Some in He as [? ?]. simplify_eq.
    rewrite <- (ro_len _ _ Hok). split_and!; [lia|done|done].
Qed.

Lemma hb_le_W i q c :
  stamped r !! i = Some (q, c) -> hb (tr ++ [a]) i (length tr) -> vle c W.
Proof.
  intros Hi (k & Hd & Hik)%hb_last.
  assert (k < length tr)%nat as Hk.
  { destruct Hd as [(b & Hb & _)|[? _]]; [by eapply lookup_lt_Some | done]. }
  rewrite <- (ro_len _ _ Hok) in Hk. apply lookup_lt_is_Some in Hk as [[q' e] Hk].
  pose proof (direct_le_W _ _ _ Hd Hk) as HW.
  destruct Hik as [->|Hik]; [by simplify_eq|].
  intros x. pose proof (ro_hb_le _ _ Hok _ _ _ _ _ _ Hi Hk Hik x). specialize (HW x). lia.
Qed.

Lemma le_W_hb i q c :
  stamped r !! i = Some (q, c) -> Get c q <= Get W q -> hb (tr ++ [a]) i (length tr).
Proof.
  intros Hi Hle. apply hb_last. pose proof (ro_dev _ _ Hok _ _ _ Hi) as Hdev.
  rewrite Get_W in Hle. case_decide as Hpq.
  { exists i. split; [|by left]. left. destruct (tr !! i) as [b|]; simplify_eq/=. eauto. }
  pose proof (ro_pos _ _ Hok _ _ _ Hi) as Hpos.
  assert (Get c q <= Get (clockOf r p) q \/
          exists v, heard r a = Some v /\ Get c q <= Get v q) as [Hc|(v & Hv & Hc)].
  { rewrite Get_M in Hle. destruct (heard r a); [|auto].
    destruct (Z.max_spec (Get (clockOf r p) q) (Get v q)) as [[_ Hm]|[_ Hm]];
      rewrite Hm in Hle; eauto. }
  - destruct (ro_cur _ _ Hok p) as [Hnew|[l Hl]].
    { rewrite (Hnew q), Get_new in Hc. lia. }
    exists l. split; [|destruct (ro_le_hb _ _ Hok _ _ _ _ _ _ Hi Hl Hc); auto].
    left. pose proof (ro_dev _ _ Hok _ _ _ Hl). destruct (tr !! l) as [b|]; simplify_eq/=. eauto.
  - destruct (heard_stamped v Hv) as (s & q' & Hs & Hd).
    exists s. split; [done|]. destruct (ro_le_hb _ _ Hok _ _ _ _ _ _ Hi Hs Hc); auto.
Qed.

Lemma run_ok_step : run_ok (tr ++ [a]) (act_step r a).
Proof.
  split.
  - rewrite stamped_step, !length_app, (ro_len _ _ Hok). done.
  - intros i q c [[Hi Hlt]|(-> & -> & ->)]%stamped_step_inv.
    + rewrite lookup_app_l by done. by eapply ro_dev.
    + by rewrite list_lookup_middle by done.
  - intros q. rewrite clockOf_step. case_decide; [|apply (ro_nonneg _ _ Hok)].
    intros x. pose proof (clock_le_W x). pose proof (ro_nonneg _ _ Hok p x). lia.
  - intros q x. rewrite !clockOf_step, length_app. simpl.
    pose proof (ro_bound _ _ Hok q x). pose proof (ro_bound _ _ Hok p p).
    pose proof (Get_M_le x).
    repeat case_decide; subst; rewrite ?Get_W; repeat case_decide; try done; lia.
  - intros i q c [[Hi _]|(-> & -> & ->)]%stamped_step_inv; [by eapply ro_pos|].
    rewrite Get_W. rewrite decide_True by done. pose proof (ro_nonneg _ _ Hok p p). lia.
  - intros i q c [[Hi _]|(-> & -> & ->)]%stamped_step_inv x; rewrite clockOf_step.
    + pose proof (ro_past _ _ Hok _ _ _ Hi x). case_decide; [|done].
      subst. pose proof (clock_le_W x). lia.
    + by rewrite decide_True.
  - intros q. rewrite clockOf_step, stamped_step. case_decide; subst.
    + right. exists (length (stamped r)). by apply list_lookup_middle.
    + destruct (ro_cur _ _ Hok q) as [|[i Hi]]; [by left|].
      right. exists i. by apply lookup_app_l_Some.
  - intros i j q c q' e Hi Hj Hhb.
    apply stamped_step_inv in Hi as [[Hi Hil]|(-> & -> & ->)];
      apply stamped_step_inv in Hj as [[Hj Hjl]|(-> & -> & ->)].
    + eapply ro_hb_le; eauto using hb_app_inv.
    + by eapply hb_le_W.
    + apply hb_lt in Hhb. lia.
    + apply hb_lt in Hhb. lia.
  - intros i j q c q' e Hi Hj Hle.
    apply stamped_step_inv in Hi as [[Hi Hil]|(-> & -> & ->)];
      apply stamped_step_inv in Hj as [[Hj Hjl]|(-> & -> & ->)].
    + destruct (ro_le_hb _ _ Hok _ _ _ _ _ _ Hi Hj Hle); auto using hb_app.
    + right. by eapply le_W_hb.
    + rewrite Get_W in Hle. rewrite decide_True in Hle by done.
      pose proof (ro_own _ _ _ _ _ p Hok Hj). lia.
    + by left.
Qed.

End step.

Lemma run_ok_all tr : Z.of_nat (length tr) <= max_int64 -> run_ok tr (run tr).
Proof.
  unfold run. induction tr as [|a tr IH] using rev_ind; [intros; apply run_ok_nil|].
  rewrite length_app. simpl. intros H. rewrite foldl_snoc.
  apply run_ok_step; [apply IH|]; lia.
Qed.

(** C1: the clocks decide happened-before.  In every run of fewer than 2^63
    events in which each device ticks its entry and merges the clocks it
    receives, for any two events [Compare] answers "before" exactly when the
    first happened before the second, "after" in the converse case, "equal"
    only for an event and itself, and "concurrent" exactly for distinct events
    that are causally independent. *)
Theorem Compare_is_happened_before (tr : list Act) (i j : nat) (p q : string) (c e : VectorClock)
    (Hlen : Z.of_nat (length tr) <= max_int64)
    (Hi : stamped (run tr) !! i = Some (p, c)) (Hj : stamped (run tr) !! j = Some (q, e)) :
  match Compare (Some c) (Some e) with
  | before => hb tr i j
  | after => hb tr j i
  | equal => i = j
  | concurrent => i <> j /\ ~ hb tr i j /\ ~ hb tr j i
  end.
Proof.
  pose proof (run_ok_all tr Hlen) as Hok.
  assert (vle c e -> i = j \/ hb tr i j) as H1 by (intros H; eapply ro_le_hb; eauto).
  assert (vle e c -> j = i \/ hb tr j i) as H2 by (intros H; eapply ro_le_hb; eauto).
  assert (hb tr i j -> vle c e) as H3 by eauto using ro_hb_le.
  assert (hb tr j i -> vle e c) as H4 by eauto using ro_hb_le.
  pose proof (Compare_spec c e) as Hs.
  destruct (Compare (Some c) (Some e)); simpl in Hs.
  - destruct Hs as [Ha Hb]. destruct (H1 Ha) as [->|]; [|done].
    simplify_eq. done.
  - destruct Hs as [Ha Hb]. destruct (H2 Ha) as [->|]; [|done].
    simplify_eq. done.
  - destruct Hs as [Ha Hb]. split_and!; [|by intros ?%H3|by intros ?%H4].
    intros ->. simplify_eq. by apply Ha.
  - destruct H1 as [|H1']; [by rewrite Hs | done |].
    destruct H2 as [|H2']; [by rewrite Hs | done |].
    apply hb_lt in H1', H2'. lia.
Qed.

Lemma Compare_is_happened_before_witness :
  let tr := [Local "phone"; Local "laptop"; Receive "phone" 1] in
  let c0 := mkVectorClock {["phone" := 1]} in
  let c1 := mkVectorClock {["laptop" := 1]} in
  let c2 := mkVectorClock (<["phone" := 2]> {["laptop" := 1]}) in
  stamped (run tr) = [("phone", c0); ("laptop", c1); ("phone", c2)] /\
  Compare (Some c0) (Some c1) = concurrent /\ ~ hb tr 0 1 /\
  Compare (Some c1) (Some c2) = before /\ hb tr 1 2.
Proof.
  intros tr c0 c1 c2.
  assert (stamped (run tr) = [("phone", c0); ("laptop", c1); ("phone", c2)]) as E
    by (vm_compute; reflexivity).
  assert (Compare (Some c0) (Some c1) = concurrent) as H01 by (vm_compute; reflexivity).
  assert (Compare (Some c1) (Some c2) = before) as H12 by (vm_compute; reflexivity).
  assert (Z.of_nat (length tr) <= max_int64) as Hlen by (unfold max_int64; simpl; lia).
  pose proof (Compare_is_happened_before tr 0 1 "phone" "laptop" c0 c1 Hlen
    ltac:(by rewrite E) ltac:(by rewrite E)) as T01.
  pose proof (Compare_is_happened_before tr 1 2 "laptop" "phone" c1 c2 Hlen
    ltac:(by rewrite E) ltac:(by rewrite E)) as T12.
  rewrite H01 in T01. rewrite H12 in T12.
  destruct T01 as (_ & T01 & _). split_and!; assumption.
Defined.

Lemma Merge_is_lub_witness :
  let a := mkVectorClock {["phone" := 2]} in
  let b := mkVectorClock {["laptop" := 3]} in
  nonneg a /\ nonneg b /\ Merge a (Some b) ≡ Merge b (Some a).
Proof.
  assert (forall d t, 0 <= t -> nonneg (mkVectorClock {[d := t]})) as Hn.
  { intros d t Ht d'. unfold Get; simpl. rewrite lookup_singleton. case_decide; simpl; lia. }
  intros a b. assert (nonneg a /\ nonneg b) as [Ha Hb] by (split; apply Hn; lia).
  split_and!; [done | done | apply (Merge_is_lub a b a Ha Hb)].
Defined.
