(* ===== verification/Events.v ===== *)
(** * Workspace events (src/internal/core/multidevice/events.go)

    Events, their types and categories, the resource an event names, and the
    documents and lines in which the multi-device stores keep their data. *)

From Stdlib Require Import ZArith Lia String Ascii.
From stdpp Require Import base option list gmap strings fin_maps.
From S2P Require Import Prelude.

Open Scope Z_scope.

(** ** Event types *)

Abbreviation EventType := string.

Definition EventProfileCreated : EventType := "profile.created".
Definition EventProfileUpdated : EventType := "profile.updated".
Definition EventProfileDeleted : EventType := "profile.deleted".
Definition EventProfileConfigChanged : EventType := "profile.config_changed".
Definition EventActionCreated : EventType := "action.created".
Definition EventActionUpdated : EventType := "action.updated".
Definition EventActionDeleted : EventType := "action.deleted".
Definition EventActionExecuted : EventType := "action.executed".
Definition EventWorkspaceAccessed : EventType := "workspace.accessed".
Definition EventWorkspaceConfigChanged : EventType := "workspace.config_changed".
Definition EventDeviceLinked : EventType := "device.linked".
Definition EventDeviceUnlinked : EventType := "device.unlinked".
Definition EventDevicePermChanged : EventType := "device.permissions_changed".
Definition EventDevicePresenceChanged : EventType := "device.presence_changed".
Definition EventDeviceSyncFailed : EventType := "device.sync_failed".
Definition EventConflictDetected : EventType := "conflict.detected".
Definition EventConflictResolved : EventType := "conflict.resolved".

(** [strings.SplitN(e, ".", 2)[0]]: the text before the first dot. *)
Fixpoint Category (e : EventType) : string :=
  match e with
  | EmptyString => EmptyString
  | String c e' => if Ascii.eqb c "." then EmptyString else String c (Category e')
  end.

(** ** Events

    A payload value is nil, a string, or any other JSON value; the code looks
    at the latter only through the text [%v] prints for it, which stands for
    the value. *)

Inductive Value : Type :=
  | VNil
  | VString (s : string)
  | VOther (text : string).

Definition fmtV (v : Value) : string :=
  match v with VNil => "<nil>" | VString s => s | VOther t => t end.

#[export] Instance Value_eq_dec : EqDecision Value.
Proof. solve_decision. Defined.

(** A payload is a map that may be nil. *)
Abbreviation Payload := (option (gmap string Value)).

Record WorkspaceEvent : Type := mkEvent {
  ev_ID : string;
  ev_WorkspaceID : string;
  ev_DeviceID : string;
  ev_Timestamp : Z;
  ev_EventType : EventType;
  ev_Version : Z;
  ev_Payload : Payload;
  ev_CausedBy : string;
  ev_Signature : string
}.

#[export] Instance WorkspaceEvent_eq_dec : EqDecision WorkspaceEvent.
Proof. solve_decision. Defined.

(** The generated UUID and the clock are arguments. *)
Definition NewEvent (uuid : string) (now : Z) (workspaceID deviceID : string)
    (eventType : EventType) (payload : Payload) : WorkspaceEvent :=
  mkEvent ("evt-" +:+ uuid) workspaceID deviceID now eventType 0 payload "" "".

Definition set_Version (e : WorkspaceEvent) (v : Z) : WorkspaceEvent :=
  mkEvent (ev_ID e) (ev_WorkspaceID e) (ev_DeviceID e) (ev_Timestamp e) (ev_EventType e) v
    (ev_Payload e) (ev_CausedBy e) (ev_Signature e).

(** [event.DeviceID = deviceID; event.WorkspaceID = workspaceID]. *)
Definition attribute (e : WorkspaceEvent) (deviceID workspaceID : string) : WorkspaceEvent :=
  mkEvent (ev_ID e) workspaceID deviceID (ev_Timestamp e) (ev_EventType e) (ev_Version e)
    (ev_Payload e) (ev_CausedBy e) (ev_Signature e).

(** The fields other than the payload, which redaction may rewrite. *)
Definition same_envelope (e e' : WorkspaceEvent) : Prop :=
  ev_ID e' = ev_ID e /\ ev_WorkspaceID e' = ev_WorkspaceID e /\ ev_DeviceID e' = ev_DeviceID e /\
  ev_Timestamp e' = ev_Timestamp e /\ ev_EventType e' = ev_EventType e /\
  ev_Version e' = ev_Version e.

(** ** The resource of an event *)

Definition extractResourceFromEvent (event : WorkspaceEvent) : string :=
  match ev_Payload event with
  | None => ""
  | Some payload =>
      let category := Category (ev_EventType event) in
      let synthesized :=
        match payload !! "id" with
        | Some id => category +:+ ":" +:+ fmtV id
        | None => match payload !! "name" with
                  | Some name => category +:+ ":" +:+ fmtV name
                  | None => ""
                  end
        end in
      match payload !! "resource" with
      | Some (VString s) => if decide (s = "") then synthesized else s
      | _ => synthesized
      end
  end.

(** ** Files

    A JSON document as its reader sees it: absent, unreadable, text that does
    not unmarshal, or a value. *)

Inductive Doc (A : Type) : Type :=
  | Missing
  | Unreadable
  | Malformed
  | Parsed (a : A).

Arguments Missing {A}.
Arguments Unreadable {A}.
Arguments Malformed {A}.
Arguments Parsed {A} a.

(** A line of a JSON-lines file: its length in bytes, and the event it
    unmarshals to if it does. *)
Record Line : Type := mkLine {
  line_len : Z;
  line_event : option WorkspaceEvent
}.

Inductive LogFile : Type :=
  | LogMissing
  | LogUnreadable
  | LogLines (ls : list Line).

(** The lines an append adds to; a missing file is created empty. *)
Definition log_lines (f : LogFile) : list Line :=
  match f with LogLines ls => ls | _ => [] end.

(** Reading a log with [bufio.Scanner]: a line that does not fit the maximal
    token size ends the scan with [bufio.ErrTooLong]; empty lines and lines
    that do not unmarshal are skipped. *)
Definition scanLines (maxToken : Z) (ls : list Line) : option (list WorkspaceEvent) :=
  if forallb (fun l => line_len l <? maxToken) ls
  then Some (omap (fun l => if line_len l =? 0 then None else line_event l) ls)
  else None.

Lemma scanLines_app maxToken ls ls' :
  scanLines maxToken (ls ++ ls') =
    match scanLines maxToken ls, scanLines maxToken ls' with
    | Some a, Some b => Some (a ++ b) | _, _ => None end.
Proof.
  unfold scanLines. rewrite forallb_app, omap_app.
  by destruct (forallb _ ls), (forallb _ ls').
Qed.

(** What lands on disk for an event: [json.Marshal], the redacting writer of
    src/internal/logging (whose rules come from a third-party corpus) and the
    newline.  [None] is a marshalling error. *)
Class LineCodec : Type := persist : WorkspaceEvent -> option Line.

(** Redaction tags secrets in payloads: the line still unmarshals, and to an
    event with the same envelope. *)
Class KeepsEnvelope (C : LineCodec) : Prop := persist_keeps :
  forall e l, persist e = Some l ->
    0 < line_len l /\ exists e', line_event l = Some e' /\ same_envelope e e'.

(** A codec without redaction, for concrete runs: [weight] is the length of
    the marshalled event. *)
Definition plain_codec (weight : WorkspaceEvent -> Z) : LineCodec :=
  fun e => Some (mkLine (1 + Z.max 0 (weight e)) (Some e)).

#[export] Instance plain_codec_keeps weight : KeepsEnvelope (plain_codec weight).
Proof.
  intros e l H. unfold persist, plain_codec in H. simplify_eq/=.
  split; [lia|]. exists e. split; [done|]. repeat split.
Qed.
