(* ===== verification/EventStore.v ===== *)
(** * The event store (src/internal/core/multidevice/event_store.go)

    An append-only JSON-lines log with an index file that holds the latest
    version and the number of events. *)

From Stdlib Require Import ZArith Lia.
From stdpp Require Import base option list list_numbers gmap strings fin_maps sorting.
From S2P Require Import Prelude Events.

Open Scope Z_scope.

Record eventIndex : Type := mkIndex {
  LatestVersion : Z;
  EventCount : Z
}.

(** The events directory of a workspace. *)
Record EventStore : Type := mkEventStore {
  events_jsonl : LogFile;
  index_json : Doc eventIndex
}.

Definition NewEventStore : EventStore := mkEventStore LogMissing Missing.

(** The errors of the store. *)
Inductive StoreErr : Type :=
  | ErrCreateDir | ErrReadIndex | ErrParseIndex | ErrOpenEvents | ErrMarshalEvent
  | ErrWriteEvent | ErrUpdateIndex | ErrReadEvents | ErrEventNotFound (eventID : string).

(** What the operating system may refuse during a [Store].  Writing the index
    is [os.WriteFile]: when it fails the old index may have been truncated. *)
Inductive StoreFault : Type :=
  | FaultMkdir | FaultOpen | FaultWrite | FaultSaveIndex (truncated : bool).

#[export] Instance StoreFault_eq_dec : EqDecision StoreFault.
Proof. solve_decision. Defined.

Definition loadIndex (s : EventStore) : Res StoreErr eventIndex :=
  match index_json s with
  | Missing => Ok (mkIndex 0 0)
  | Unreadable => Err ErrReadIndex
  | Malformed => Err ErrParseIndex
  | Parsed idx => Ok idx
  end.

Definition saveIndex (s : EventStore) (idx : eventIndex) : EventStore :=
  mkEventStore (events_jsonl s) (Parsed idx).

Definition append_line (s : EventStore) (l : Line) : EventStore :=
  mkEventStore (LogLines (log_lines (events_jsonl s) ++ [l])) (index_json s).

(** [bufio.MaxScanTokenSize]: the scanner of the store keeps the default. *)
Definition MaxScanTokenSize : Z := 64 * 1024.

Definition readAllEvents (s : EventStore) : Res StoreErr (list WorkspaceEvent) :=
  match events_jsonl s with
  | LogMissing => Ok []
  | LogUnreadable => Err ErrReadEvents
  | LogLines ls => match scanLines MaxScanTokenSize ls with
                   | Some evs => Ok evs
                   | None => Err ErrReadEvents
                   end
  end.

Section store.
Context `{C : LineCodec}.

(** [Store] also stamps the event its caller holds: the result carries the
    event as the caller sees it afterwards. *)
Definition EventStore_Store (fault : option StoreFault) (s : EventStore) (event : WorkspaceEvent)
  : EventStore * WorkspaceEvent * Res StoreErr unit :=
  if decide (fault = Some FaultMkdir) then (s, event, Err ErrCreateDir) else
  match loadIndex s with
  | Err e => (s, event, Err e)
  | Ok idx =>
      let latest := wrap64 (LatestVersion idx + 1) in
      let event := set_Version event latest in
      if decide (fault = Some FaultOpen) then (s, event, Err ErrOpenEvents) else
      match events_jsonl s with
      | LogUnreadable => (s, event, Err ErrOpenEvents)
      | _ =>
          match persist event with
          | None => (mkEventStore (LogLines (log_lines (events_jsonl s))) (index_json s),
                     event, Err ErrMarshalEvent)
          | Some l =>
              if decide (fault = Some FaultWrite)
              then (mkEventStore (LogLines (log_lines (events_jsonl s))) (index_json s),
                    event, Err ErrWriteEvent) else
              let s' := append_line s l in
              match fault with
              | Some (FaultSaveIndex false) => (s', event, Err ErrUpdateIndex)
              | Some (FaultSaveIndex true) =>
                  (mkEventStore (events_jsonl s') Malformed, event, Err ErrUpdateIndex)
              | _ => (saveIndex s' (mkIndex latest (wrap64 (EventCount idx + 1))), event, Ok tt)
              end
          end
      end
  end.

End store.

Definition bind_read {A} (s : EventStore) (f : list WorkspaceEvent -> Res StoreErr A)
  : Res StoreErr A :=
  match readAllEvents s with Ok evs => f evs | Err e => Err e end.

Definition EventStore_GetByID (s : EventStore) (eventID : string) : Res StoreErr WorkspaceEvent :=
  bind_read s (fun events =>
    match list_find (fun e => ev_ID e = eventID) events with
    | Some (_, e) => Ok e
    | None => Err (ErrEventNotFound eventID)
    end).

Definition EventStore_GetRange (s : EventStore) (fromVersion toVersion : Z)
  : Res StoreErr (list WorkspaceEvent) :=
  bind_read s (fun events =>
    Ok (filter (fun e => ev_Version e >= fromVersion /\ ev_Version e <= toVersion) events)).

Definition EventStore_GetSince (s : EventStore) (timestamp : Z)
  : Res StoreErr (list WorkspaceEvent) :=
  bind_read s (fun events => Ok (filter (fun e => After (ev_Timestamp e) timestamp) events)).

Definition EventStore_GetLatestVersion (s : EventStore) : Res StoreErr Z :=
  match loadIndex s with Ok idx => Ok (LatestVersion idx) | Err e => Err e end.

Definition EventStore_Count (s : EventStore) : Res StoreErr Z :=
  match loadIndex s with Ok idx => Ok (EventCount idx) | Err e => Err e end.

Definition EventStore_QueryByResource (s : EventStore) (workspaceID resource : string)
  : Res StoreErr (list WorkspaceEvent) :=
  bind_read s (fun events =>
    Ok (filter (fun e => ev_WorkspaceID e = workspaceID /\
                         extractResourceFromEvent e = resource) events)).

(** ** Fault-free stores: versions are consecutive *)

(** [evs] is what the log holds, with versions 1 to [n]; the index agrees. *)
Definition log_ok (s : EventStore) (n : Z) (evs : list WorkspaceEvent) : Prop :=
  readAllEvents s = Ok evs /\ loadIndex s = Ok (mkIndex n n) /\
  ev_Version <$> evs = seqZ 1 n /\ 0 <= n.

Lemma log_ok_new : log_ok NewEventStore 0 [].
Proof. repeat split. lia. Qed.

Lemma log_ok_length s n evs : log_ok s n evs -> Z.of_nat (length evs) = n.
Proof.
  intros (_ & _ & Hv & Hn). apply (f_equal length) in Hv.
  rewrite length_fmap, length_seqZ in Hv. lia.
Qed.

Lemma readAllEvents_lines s evs :
  readAllEvents s = Ok evs <->
  events_jsonl s <> LogUnreadable /\ scanLines MaxScanTokenSize (log_lines (events_jsonl s)) = Some evs.
Proof.
  unfold readAllEvents. destruct (events_jsonl s) as [| |ls]; simpl.
  - change (scanLines _ []) with (Some (@nil WorkspaceEvent)).
    split; [intros [= <-] | intros [_ [= <-]]]; done.
  - split; [done | by intros [? _]].
  - destruct (scanLines _ ls); split; [by intros [= <-] | by intros [_ [= <-]] | done | by intros [_ ?]].
Qed.

Lemma readAllEvents_append s evs l e :
  readAllEvents s = Ok evs -> 0 < line_len l < MaxScanTokenSize -> line_event l = Some e ->
  readAllEvents (append_line s l) = Ok (evs ++ [e]).
Proof.
  rewrite !readAllEvents_lines. intros [_ H] Hl He. split; [done|].
  simpl. rewrite scanLines_app, H. unfold scanLines; simpl.
  rewrite (proj2 (Z.ltb_lt _ _)), (proj2 (Z.eqb_neq _ _)) by lia. simpl. by rewrite He.
Qed.

Section correctness.
Context `{C : LineCodec, K : !KeepsEnvelope C}.

(** The event marshals, whatever its version, to a line the store can read. *)
Definition fits (e : WorkspaceEvent) : Prop :=
  forall v, exists l, persist (set_Version e v) = Some l /\ line_len l < MaxScanTokenSize.

Lemma Store_log_ok s n evs e :
  log_ok s n evs -> n < max_int64 -> fits e ->
  exists s' e', EventStore_Store None s e = (s', set_Version e (n + 1), Ok tt) /\
    log_ok s' (n + 1) (evs ++ [e']) /\ same_envelope (set_Version e (n + 1)) e'.
Proof.
  intros (Hr & Hi & Hv & Hn) Hmax Hfit.
  destruct (Hfit (n + 1)) as (l & Hp & Hlen).
  destruct (persist_keeps _ _ Hp) as (Hpos & e' & He' & Henv).
  assert (wrap64 (n + 1) = n + 1) as Hw
    by (apply wrap64_id; unfold int64_range, min_int64, max_int64 in *; lia).
  unfold EventStore_Store. rewrite Hi. simpl. rewrite Hw, Hp.
  assert (events_jsonl s <> LogUnreadable) as Hu by (apply readAllEvents_lines in Hr; tauto).
  exists (saveIndex (append_line s l) (mkIndex (n + 1) (n + 1))), e'.
  split; [by destruct (events_jsonl s)|]. split; [|done].
  split_and!.
  - change (readAllEvents (append_line s l) = Ok (evs ++ [e'])).
    apply readAllEvents_append; [done|lia|done].
  - done.
  - rewrite fmap_app, Hv. simpl. destruct Henv as (_ & _ & _ & _ & _ & ->). simpl.
    rewrite seqZ_app by lia. f_equal. rewrite Z.add_comm. by rewrite seqZ_cons, seqZ_nil by lia.
  - lia.
Qed.

(** Storing a list of events, stopping at the first error. *)
Fixpoint store_all (s : EventStore) (es : list WorkspaceEvent) : EventStore * Res StoreErr unit :=
  match es with
  | [] => (s, Ok tt)
  | e :: es => match EventStore_Store None s e with
               | (s', _, Ok _) => store_all s' es
               | (s', _, Err err) => (s', Err err)
               end
  end.

Lemma store_all_log_ok s n evs es :
  log_ok s n evs -> n + Z.of_nat (length es) <= max_int64 -> Forall fits es ->
  exists s' new, store_all s es = (s', Ok tt) /\
    log_ok s' (n + Z.of_nat (length es)) (evs ++ new) /\
    Forall2 (fun e e' => same_envelope (set_Version e (ev_Version e')) e') es new.
Proof.
  revert s n evs. induction es as [|e es IH]; intros s n evs Hok Hmax Hfit; simpl in *.
  { exists s, []. rewrite Z.add_0_r, app_nil_r. auto. }
  apply Forall_cons in Hfit as [He Hes].
  destruct (Store_log_ok s n evs e) as (s1 & e1 & Hst & Hok1 & Henv); [done|lia|done|].
  rewrite Hst.
  destruct (IH s1 (n + 1) (evs ++ [e1])) as (s' & new & Hall & Hok' & Hnew); [done|lia|done|].
  exists s', (e1 :: new). rewrite Hall. split_and!; [done| |].
  - rewrite <- app_assoc in Hok'. simpl in Hok'.
    by replace (n + Z.of_nat (S (length es))) with (n + 1 + Z.of_nat (length es)) by lia.
  - constructor; [|done]. by destruct Henv as (?&?&?&?&?&?); repeat split.
Qed.

End correctness.

(** A fresh event store into which any events are stored, each marshalling
    to a line under 64 KiB, accepts all of them; reading it back then gives
    exactly these events, in order, with their envelopes unchanged and with
    versions 1, 2, ..., n, and the index reports n as latest version and
    count. *)
Theorem EventStore_versions_consecutive `{C : LineCodec} (K : KeepsEnvelope C)
    (es : list WorkspaceEvent)
    (Hfit : Forall fits es) (Hmax : Z.of_nat (length es) <= max_int64) :
  exists s evs, store_all NewEventStore es = (s, Ok tt) /\
    readAllEvents s = Ok evs /\
    Forall2 (fun e e' => same_envelope (set_Version e (ev_Version e')) e') es evs /\
    ev_Version <$> evs = seqZ 1 (Z.of_nat (length es)) /\
    EventStore_GetLatestVersion s = Ok (Z.of_nat (length es)) /\
    EventStore_Count s = Ok (Z.of_nat (length es)).
Proof.
  destruct (store_all_log_ok NewEventStore 0 [] es log_ok_new) as (s & evs & Hs & Hok & Henv);
    [lia|done|].
  rewrite Z.add_0_l in Hok. destruct Hok as (Hr & Hi & Hv & _).
  exists s, evs. unfold EventStore_GetLatestVersion, EventStore_Count. rewrite Hi.
  split_and!; done.
Qed.

(** ** Queries on a good log *)

Lemma filter_versions (evs : list WorkspaceEvent) a b :
  ev_Version <$> evs = seqZ 1 (Z.of_nat (length evs)) ->
  0 <= a -> b = Z.of_nat (length evs) ->
  filter (fun e => ev_Version e >= a + 1 /\ ev_Version e <= b) evs = drop (Z.to_nat a) evs.
Proof.
  intros Hv Ha ->.
  assert (forall i e, evs !! i = Some e -> ev_Version e = Z.of_nat i + 1) as Hlk.
  { intros i e Hi. assert ((ev_Version <$> evs) !! i = Some (ev_Version e)) as Hx
      by by rewrite list_lookup_fmap, Hi.
    rewrite Hv in Hx. apply lookup_seqZ in Hx. lia. }
  rewrite <- (take_drop (Z.to_nat a) evs) at 1. rewrite filter_app.
  rewrite filter_none, filter_all; [done| |].
  - intros e [i Hi]%list_elem_of_lookup. rewrite lookup_drop in Hi.
    pose proof (Hlk _ _ Hi). apply lookup_lt_Some in Hi. lia.
  - intros e [i Hi]%list_elem_of_lookup. apply lookup_take_Some in Hi as [Hi Hlt].
    pose proof (Hlk _ _ Hi). lia.
Qed.

(** On a log whose versions are 1..n (what fault-free stores build), a
    range query from a device's last seen version to the latest version returns
    exactly the suffix of events the device has not seen, in order, and nothing
    else. *)
Lemma GetRange_missed_suffix (s : EventStore) (n : Z) (evs : list WorkspaceEvent) (seen : Z)
    (Hok : log_ok s n evs) (Hseen : 0 <= seen) :
  EventStore_GetRange s (seen + 1) n = Ok (drop (Z.to_nat seen) evs).
Proof.
  pose proof (log_ok_length _ _ _ Hok) as Hlen. destruct Hok as (Hr & _ & Hv & _).
  unfold EventStore_GetRange, bind_read. rewrite Hr. f_equal.
  apply filter_versions; [by rewrite Hlen | done | done].
Qed.

(** ** Stores that may fail *)

Section faults.
Context `{C : LineCodec, K : !KeepsEnvelope C}.

Inductive store_step : EventStore -> EventStore -> Prop :=
  | store_step_intro fault s e s' e' r :
      EventStore_Store fault s e = (s', e', r) -> store_step s s'.

(** Every outcome of a [Store], as a relation: nothing is appended, or one
    line with the next version is, and then the index is saved, kept or
    truncated. *)
Lemma Store_cases fault s e s' e' r :
  EventStore_Store fault s e = (s', e', r) ->
  (log_lines (events_jsonl s') = log_lines (events_jsonl s) /\ index_json s' = index_json s) \/
  exists idx l, loadIndex s = Ok idx /\
    persist (set_Version e (wrap64 (LatestVersion idx + 1))) = Some l /\
    events_jsonl s' = LogLines (log_lines (events_jsonl s) ++ [l]) /\
    (index_json s' = index_json s \/ index_json s' = Malformed \/
     index_json s' = Parsed (mkIndex (wrap64 (LatestVersion idx + 1)) (wrap64 (EventCount idx + 1)))).
Proof.
  unfold EventStore_Store. case_decide; [intros; simplify_eq; auto|].
  destruct (loadIndex s) as [idx|] eqn:Hi; [|intros; simplify_eq; auto].
  case_decide; [intros; simplify_eq; auto|].
  destruct (events_jsonl s) as [| |ls] eqn:Hl; cycle 1.
  { intros; simplify_eq; rewrite Hl; auto. }
  all: destruct (persist _) as [l|] eqn:Hp; [|intros; simplify_eq/=; auto].
  all: case_decide; [intros; simplify_eq/=; auto|].
  all: destruct fault as [[| | |[]]|]; intros; simplify_eq/=; right; exists idx, l;
    rewrite ?Hl; simpl; split_and!; auto.
Qed.

Lemma Store_appends s s' :
  store_step s s' -> log_lines (events_jsonl s) `prefix_of` log_lines (events_jsonl s').
Proof.
  destruct 1 as [fault s e s' e' r H]. apply Store_cases in H as [[-> _]|(idx & l & _ & _ & -> & _)].
  - done.
  - by exists [l].
Qed.

Lemma Store_appends_star s s' :
  rtc store_step s s' -> log_lines (events_jsonl s) `prefix_of` log_lines (events_jsonl s').
Proof. induction 1; [done|]. etrans; [by apply Store_appends | done]. Qed.

(** The versions in the log, oldest first. *)
Definition log_versions (s : EventStore) : list Z :=
  omap (fun l => ev_Version <$> line_event l) (log_lines (events_jsonl s)).

(** The versions of the log are sorted and at most one ahead of the index. *)
Definition versions_inv (s : EventStore) : Prop :=
  Sorted Z.le (log_versions s) /\
  match loadIndex s with
  | Ok idx => 0 <= LatestVersion idx <= Z.of_nat (length (log_lines (events_jsonl s))) /\
              Forall (fun v => 1 <= v <= LatestVersion idx + 1) (log_versions s)
  | Err _ => True
  end.

Lemma Sorted_snoc_le (l : list Z) x :
  Sorted Z.le l -> Forall (fun v => v <= x) l -> Sorted Z.le (l ++ [x]).
Proof.
  intros Hs Hf. apply StronglySorted_Sorted, StronglySorted_app_2.
  - intros y z Hy ->%list_elem_of_singleton. rewrite Forall_forall in Hf. by apply Hf.
  - apply Sorted_StronglySorted; [intros ???; lia|done].
  - repeat constructor.
Qed.

Lemma versions_inv_step s s' :
  versions_inv s -> store_step s s' ->
  Z.of_nat (length (log_lines (events_jsonl s))) < max_int64 -> versions_inv s'.
Proof.
  intros [Hsort Hidx] Hstep Hlen. destruct Hstep as [fault s e s' e' r H].
  apply Store_cases in H as [[Hl Hi]|(idx & l & Hload & Hp & Hl & Hi)].
  { unfold versions_inv, log_versions, loadIndex. rewrite Hl, Hi. done. }
  rewrite Hload in Hidx. destruct Hidx as [[H0 H1] Hall].
  rewrite wrap64_id in Hp, Hi
    by (unfold int64_range, min_int64, max_int64 in *; lia).
  destruct (persist_keeps _ _ Hp) as (_ & e1 & He1 & (_&_&_&_&_&Hv)). simpl in Hv.
  assert (log_versions s' = log_versions s ++ [LatestVersion idx + 1]) as Hvs.
  { unfold log_versions. rewrite Hl. simpl. rewrite omap_app. simpl. by rewrite He1, <- Hv. }
  assert (length (log_lines (events_jsonl s')) = S (length (log_lines (events_jsonl s)))) as Hn.
  { rewrite Hl. simpl. rewrite length_app. simpl. lia. }
  split.
  - rewrite Hvs. apply Sorted_snoc_le; [done|].
    eapply Forall_impl; [exact Hall|]. simpl. lia.
  - rewrite Hvs, Hn. unfold loadIndex in *. destruct Hi as [->|[->| ->]]; simpl; [|done|].
    + rewrite Hload. split; [lia|]. apply Forall_app. split; [done|].
      repeat constructor; lia.
    + split; [lia|]. apply Forall_app. split; [|repeat constructor; lia].
      eapply Forall_impl; [exact Hall|]. simpl. lia.
Qed.

End faults.


(** An event whose stored line reaches 64 KiB is accepted by [Store], but
    from then on, whatever else is stored, every read of the log fails: the
    scanner of [readAllEvents] keeps bufio's default token limit, and
    [GetRange], [GetByID], [GetSince] and [QueryByResource] return its error. *)
Theorem oversized_event_blocks_reads `{C : LineCodec} (s s1 s' : EventStore)
    (e e1 : WorkspaceEvent) (l : Line)
    (Hstore : EventStore_Store None s e = (s1, e1, Ok tt))
    (Hp : persist e1 = Some l) (Hbig : MaxScanTokenSize <= line_len l)
    (Hlater : rtc store_step s1 s') :
  readAllEvents s' = Err ErrReadEvents /\
  (forall a b, EventStore_GetRange s' a b = Err ErrReadEvents) /\
  (forall id, EventStore_GetByID s' id = Err ErrReadEvents) /\
  (forall t, EventStore_GetSince s' t = Err ErrReadEvents) /\
  (forall w r, EventStore_QueryByResource s' w r = Err ErrReadEvents).
Proof.
  assert (exists ls, log_lines (events_jsonl s1) = ls ++ [l]) as [ls Hls].
  { unfold EventStore_Store in Hstore. simpl in Hstore.
    destruct (loadIndex s); simplify_eq/=.
    destruct (persist (set_Version e _)) eqn:Hp'; destruct (events_jsonl s) eqn:?; simplify_eq/=;
      eauto. }
  apply Store_appends_star in Hlater as [rest Hrest].
  assert (readAllEvents s' = Err ErrReadEvents) as Hread.
  { unfold readAllEvents. destruct (events_jsonl s') as [| |ls'] eqn:Hf; simpl in Hrest.
    - rewrite Hls in Hrest. by destruct ls.
    - done.
    - rewrite Hrest, Hls, !scanLines_app. unfold scanLines at 2. simpl.
      rewrite (proj2 (Z.ltb_ge _ _)) by done. simpl. by destruct (scanLines _ ls). }
  split; [done|].
  unfold EventStore_GetRange, EventStore_GetByID, EventStore_GetSince, EventStore_QueryByResource, bind_read.
  by rewrite Hread.
Qed.

(** Concrete events for the witnesses. *)
Definition sample_event (id device : string) (t : Z) (resource : string) : WorkspaceEvent :=
  mkEvent id "ws" device t EventProfileUpdated 0 (Some {["resource" := VString resource]}) "" "".

Definition small_codec : LineCodec := plain_codec (fun _ => 300).

Lemma small_fits e : @fits small_codec e.
Proof. intros v. eexists. split; [reflexivity|]. by vm_compute. Qed.

Lemma EventStore_versions_consecutive_witness :
  let es := [sample_event "a" "phone" 10 "r"; sample_event "b" "laptop" 20 "r"] in
  Forall (@fits small_codec) es /\
  exists s evs, @store_all small_codec NewEventStore es = (s, Ok tt) /\
    readAllEvents s = Ok evs /\ ev_Version <$> evs = [1; 2].
Proof.
  intros es. assert (Forall (@fits small_codec) es) as Hf by (repeat constructor; apply small_fits).
  split; [done|].
  destruct (@EventStore_versions_consecutive small_codec (plain_codec_keeps _) es Hf
    ltac:(by vm_compute)) as (s & evs & H1 & H2 & _ & H3 & _).
  exists s, evs. auto.
Defined.


Lemma oversized_event_blocks_reads_witness :
  let C := plain_codec (fun _ => 70000) in
  let e := sample_event "big" "phone" 10 "r" in
  exists s1, @EventStore_Store C None NewEventStore e = (s1, set_Version e 1, Ok tt) /\
    readAllEvents s1 = Err ErrReadEvents.
Proof.
  intros C e. eexists. split; [reflexivity|].
  eapply (@oversized_event_blocks_reads C NewEventStore _ _ e (set_Version e 1) _
    eq_refl eq_refl); [by vm_compute | apply rtc_refl].
Defined.
