(* ===== verification/OfflineQueue.v ===== *)
(** * The offline queue (src/internal/core/multidevice/offline_queue.go)

    Events a device records while it is offline, kept as JSON lines in a file
    of its own, and their refinement of a first-in first-out queue. *)

From Stdlib Require Import ZArith Lia.
From stdpp Require Import base option list gmap strings fin_maps.
From S2P Require Import Prelude Events.

Open Scope Z_scope.

(** The queue file of one device and workspace. *)
Abbreviation OfflineQueue := LogFile.

Definition NewOfflineQueue : OfflineQueue := LogMissing.

Inductive QueueErr : Type :=
  | ErrNilEvent | ErrQueueDir | ErrOpenQueue | ErrMarshalQueued | ErrWriteQueue
  | ErrReadQueue | ErrRemoveQueue.

Inductive QueueFault : Type := FaultQueueDir | FaultQueueOpen | FaultQueueWrite | FaultQueueRemove.

#[export] Instance QueueFault_eq_dec : EqDecision QueueFault.
Proof. solve_decision. Defined.

(** [scanner.Buffer(make([]byte, 0, 64*1024), 1024*1024)]. *)
Definition queueMaxToken : Z := 1024 * 1024.

Definition OfflineQueue_readAll (q : OfflineQueue) : Res QueueErr (list WorkspaceEvent) :=
  match q with
  | LogMissing => Ok []
  | LogUnreadable => Err ErrOpenQueue
  | LogLines ls => match scanLines queueMaxToken ls with
                   | Some evs => Ok evs
                   | None => Err ErrReadQueue
                   end
  end.

(** [os.Remove(path)] with "not exist" taken as success. *)
Definition remove_queue (fault : option QueueFault) (q : OfflineQueue) : OfflineQueue * Res QueueErr unit :=
  match q with
  | LogMissing => (LogMissing, Ok tt)
  | _ => if decide (fault = Some FaultQueueRemove) then (q, Err ErrRemoveQueue)
         else (LogMissing, Ok tt)
  end.

Section queue.
Context `{C : LineCodec}.

Definition OfflineQueue_Enqueue (fault : option QueueFault) (q : OfflineQueue)
    (event : option WorkspaceEvent) : OfflineQueue * Res QueueErr unit :=
  match event with
  | None => (q, Err ErrNilEvent)
  | Some event =>
      if decide (fault = Some FaultQueueDir) then (q, Err ErrQueueDir) else
      if decide (fault = Some FaultQueueOpen) then (q, Err ErrOpenQueue) else
      match q with
      | LogUnreadable => (q, Err ErrOpenQueue)
      | _ =>
          match persist event with
          | None => (LogLines (log_lines q), Err ErrMarshalQueued)
          | Some l =>
              if decide (fault = Some FaultQueueWrite)
              then (LogLines (log_lines q), Err ErrWriteQueue)
              else (LogLines (log_lines q ++ [l]), Ok tt)
          end
      end
  end.

End queue.

#[global] Arguments OfflineQueue_Enqueue : simpl never.

Definition OfflineQueue_Dequeue (fault : option QueueFault) (q : OfflineQueue)
  : OfflineQueue * Res QueueErr (list WorkspaceEvent) :=
  match OfflineQueue_readAll q with
  | Err e => (q, Err e)
  | Ok events => match remove_queue fault q with
                 | (q', Ok _) => (q', Ok events)
                 | (q', Err e) => (q', Err e)
                 end
  end.

Definition OfflineQueue_Peek (q : OfflineQueue) : Res QueueErr (list WorkspaceEvent) :=
  OfflineQueue_readAll q.

Definition OfflineQueue_Size (q : OfflineQueue) : Res QueueErr Z :=
  match OfflineQueue_readAll q with
  | Ok events => Ok (Z.of_nat (length events))
  | Err e => Err e
  end.

Definition OfflineQueue_Clear (fault : option QueueFault) (q : OfflineQueue)
  : OfflineQueue * Res QueueErr unit :=
  remove_queue fault q.

(** ** Refinement of an abstract queue *)

(** The abstract operations on the list of queued events. *)
Inductive QueueOp : Type :=
  | OpEnqueue (e : WorkspaceEvent) | OpDequeue | OpPeek | OpSize | OpClear.

Inductive QueueOut : Type :=
  | OutUnit | OutEvents (es : list WorkspaceEvent) | OutSize (n : Z).

Definition spec_step (l : list WorkspaceEvent) (op : QueueOp) : list WorkspaceEvent * QueueOut :=
  match op with
  | OpEnqueue e => (l ++ [e], OutUnit)
  | OpDequeue => ([], OutEvents l)
  | OpPeek => (l, OutEvents l)
  | OpSize => (l, OutSize (Z.of_nat (length l)))
  | OpClear => ([], OutUnit)
  end.

Fixpoint spec_run (l : list WorkspaceEvent) (ops : list QueueOp) : list WorkspaceEvent * list QueueOut :=
  match ops with
  | [] => (l, [])
  | op :: ops => let '(l1, o) := spec_step l op in
                 let '(l2, os) := spec_run l1 ops in (l2, o :: os)
  end.

Section refinement.
Context `{C : LineCodec}.

Definition to_out {A} (f : A -> QueueOut) (x : OfflineQueue * Res QueueErr A)
  : OfflineQueue * Res QueueErr QueueOut :=
  match x with
  | (q, Ok a) => (q, Ok (f a))
  | (q, Err e) => (q, Err e)
  end.

(** The concrete operations, with a possible fault of the system. *)
Definition queue_step (fault : option QueueFault) (q : OfflineQueue) (op : QueueOp)
  : OfflineQueue * Res QueueErr QueueOut :=
  match op with
  | OpEnqueue e => to_out (fun _ => OutUnit) (OfflineQueue_Enqueue fault q (Some e))
  | OpDequeue => to_out OutEvents (OfflineQueue_Dequeue fault q)
  | OpPeek => to_out OutEvents (q, OfflineQueue_Peek q)
  | OpSize => to_out OutSize (q, OfflineQueue_Size q)
  | OpClear => to_out (fun _ => OutUnit) (OfflineQueue_Clear fault q)
  end.

Fixpoint queue_run (q : OfflineQueue) (ops : list QueueOp)
  : OfflineQueue * list (Res QueueErr QueueOut) :=
  match ops with
  | [] => (q, [])
  | op :: ops => let '(q1, o) := queue_step None q op in
                 let '(q2, os) := queue_run q1 ops in (q2, o :: os)
  end.

(** [q] holds the events [l], as they come back from disk. *)
Definition queue_rep (q : OfflineQueue) (l : list WorkspaceEvent) : Prop :=
  OfflineQueue_readAll q = Ok l.

(** The event as it comes back from the queue file, if its line fits. *)
Definition reload (e : WorkspaceEvent) : option WorkspaceEvent :=
  match persist e with
  | Some l => if bool_decide (0 < line_len l < queueMaxToken) then line_event l else None
  | None => None
  end.

(** An operation as the abstract queue sees it: events pass through the codec. *)
Definition reload_op (op : QueueOp) : option QueueOp :=
  match op with
  | OpEnqueue e => OpEnqueue <$> reload e
  | op => Some op
  end.

Lemma reload_Some e e' :
  reload e = Some e' -> exists l, persist e = Some l /\ 0 < line_len l < queueMaxToken /\ line_event l = Some e'.
Proof.
  unfold reload. destruct (persist e) as [l|]; [|done]. case_bool_decide; [|done]. eauto.
Qed.

Lemma readAll_lines q l :
  queue_rep q l <-> q <> LogUnreadable /\ scanLines queueMaxToken (log_lines q) = Some l.
Proof.
  unfold queue_rep, OfflineQueue_readAll. destruct q as [| |ls]; simpl.
  - change (scanLines _ []) with (Some (@nil WorkspaceEvent)).
    split; [intros [= <-] | intros [_ [= <-]]]; done.
  - split; [done | by intros [? _]].
  - destruct (scanLines _ ls); split; [by intros [= <-] | by intros [_ [= <-]] | done | by intros [_ ?]].
Qed.

Lemma Enqueue_rep q l e e' :
  queue_rep q l -> reload e = Some e' ->
  exists q', OfflineQueue_Enqueue None q (Some e) = (q', Ok tt) /\ queue_rep q' (l ++ [e']).
Proof.
  intros Hq (ln & Hp & Hlen & He)%reload_Some. apply readAll_lines in Hq as [Hu Hs].
  exists (LogLines (log_lines q ++ [ln])). split.
  - unfold OfflineQueue_Enqueue. simpl. rewrite Hp. by destruct q.
  - apply readAll_lines. split; [done|]. simpl. rewrite scanLines_app, Hs.
    unfold scanLines. simpl.
    rewrite (proj2 (Z.ltb_lt _ _)), (proj2 (Z.eqb_neq _ _)) by lia. simpl. by rewrite He.
Qed.

Lemma queue_step_rep q l op op' :
  queue_rep q l -> reload_op op = Some op' ->
  exists q', queue_step None q op = (q', Ok (spec_step l op').2) /\ queue_rep q' (spec_step l op').1.
Proof.
  intros Hq Hop. destruct op as [e| | | |]; simplify_eq/=.
  - apply fmap_Some in Hop as (e' & He & ->).
    destruct (Enqueue_rep q l e e' Hq He) as (q' & -> & Hq'). by exists q'.
  - unfold OfflineQueue_Dequeue. rewrite Hq. simpl. by destruct q; exists LogMissing.
  - unfold OfflineQueue_Peek. rewrite Hq. by exists q.
  - unfold OfflineQueue_Size. rewrite Hq. by exists q.
  - by destruct q; exists LogMissing.
Qed.

Lemma queue_run_rep ops ops' q l :
  queue_rep q l -> mapM reload_op ops = Some ops' ->
  exists q', queue_run q ops = (q', Ok <$> (spec_run l ops').2) /\ queue_rep q' (spec_run l ops').1.
Proof.
  revert ops' q l. induction ops as [|op ops IH]; intros ops' q l Hq Hm; simpl in Hm.
  { injection Hm as <-. by exists q. }
  apply bind_Some in Hm as (op' & Hop & (ops1 & Hops & [= <-])%bind_Some).
  destruct (queue_step_rep q l op op' Hq Hop) as (q1 & Hs & Hq1). simpl. rewrite Hs.
  destruct (spec_step l op') as [l1 o] eqn:Hl1. simpl in *.
  destruct (IH ops1 q1 l1 Hq1 Hops) as (q2 & -> & Hq2).
  destruct (spec_run l1 ops1) as [l2 os]. by exists q2.
Qed.

(** A failing operation of the system never loses a queued event. *)
Lemma queue_step_fault fault q op q' e :
  queue_step fault q op = (q', Err e) -> OfflineQueue_readAll q' = OfflineQueue_readAll q.
Proof.
  assert (forall q, q <> LogUnreadable ->
    OfflineQueue_readAll (LogLines (log_lines q)) = OfflineQueue_readAll q) as Hre
    by (intros []; done).
  destruct op as [e0| | | |]; simpl.
  - unfold OfflineQueue_Enqueue. repeat (case_decide || case_match); intros; simplify_eq/=;
      done || by apply Hre.
  - unfold OfflineQueue_Dequeue, remove_queue. intros. go_cases; done.
  - intros. go_cases; done.
  - intros. go_cases; done.
  - unfold OfflineQueue_Clear, remove_queue. intros. go_cases; done.
Qed.

End refinement.

(** the offline queue file refines a first-in first-out queue.  For every
    sequence of operations in which each enqueued event marshals to a line
    under 1 MiB (as [reload_op] requires), the file-backed queue answers every
    operation without error and with what the abstract queue of the reloaded
    events answers: [Dequeue] hands out everything enqueued since the last
    removal, in order and once.  When the system fails an operation, the queue
    reads the same as before: no event is lost. *)
Theorem OfflineQueue_refines_fifo `{C : LineCodec} (ops ops' : list QueueOp)
    (Hm : mapM reload_op ops = Some ops') :
  (exists q', queue_run NewOfflineQueue ops = (q', Ok <$> (spec_run [] ops').2) /\
     OfflineQueue_Peek q' = Ok (spec_run [] ops').1) /\
  (forall fault q op q' e, queue_step fault q op = (q', Err e) ->
     OfflineQueue_Peek q' = OfflineQueue_Peek q).
Proof.
  split; [|intros; by eapply queue_step_fault].
  by apply queue_run_rep.
Qed.

Lemma OfflineQueue_refines_fifo_witness :
  let C := plain_codec (fun _ => 300) in
  let e i := mkEvent i "ws" "phone" 1 EventProfileUpdated 0 None "" "" in
  exists q', @queue_run C NewOfflineQueue [OpEnqueue (e "a"); OpEnqueue (e "b"); OpDequeue; OpDequeue; OpSize]
    = (q', [Ok OutUnit; Ok OutUnit; Ok (OutEvents [e "a"; e "b"]); Ok (OutEvents []); Ok (OutSize 0)]).
Proof.
  intros C e.
  set (ops := [OpEnqueue (e "a"); OpEnqueue (e "b"); OpDequeue; OpDequeue; OpSize]).
  assert (mapM (@reload_op C) ops = Some ops) as Hm by (vm_compute; reflexivity).
  destruct (@OfflineQueue_refines_fifo C ops ops Hm) as [(q' & Hrun & _) _].
  exists q'. rewrite Hrun. reflexivity.
Defined.
