(* ===== verification/Conflicts.v ===== *)
(** * Conflicts between devices
      (src/internal/core/multidevice/conflict_detector.go, lww_resolver.go,
       resolution_manager.go, conflict_store.go)

    Detection of concurrent modifications of a resource, last-write-wins and
    manual resolution, and the store of conflicts. *)

From Stdlib Require Import ZArith Lia.
From stdpp Require Import base option list gmap strings fin_maps pretty.
From S2P Require Import Prelude Events EventStore.

Open Scope Z_scope.

(** ** Data *)

Abbreviation ConflictType := string.
Definition ConflictConcurrentWrite : ConflictType := "concurrent_write".
Definition ConflictOrdering : ConflictType := "ordering".
Definition ConflictSemantic : ConflictType := "semantic".
Definition ConflictMetadata : ConflictType := "metadata".

Abbreviation ConflictStatus := string.
Definition ConflictPending : ConflictStatus := "pending".
Definition ConflictAutoResolved : ConflictStatus := "auto_resolved".
Definition ConflictManual : ConflictStatus := "manual".
Definition ConflictResolved : ConflictStatus := "resolved".

Record ConflictResolution : Type := mkResolution {
  cr_Strategy : string;
  cr_WinnerEvent : string;
  cr_Result : Payload;
  cr_ResolvedBy : string
}.

Record Conflict : Type := mkConflict {
  cf_ID : string;
  cf_WorkspaceID : string;
  cf_Type : ConflictType;
  cf_Status : ConflictStatus;
  cf_Resource : string;
  cf_Events : list WorkspaceEvent;
  cf_DetectedAt : Z;
  cf_ResolvedAt : option Z;
  cf_Resolution : option ConflictResolution
}.

Definition set_outcome (c : Conflict) (status : ConflictStatus) (at_ : option Z)
    (r : option ConflictResolution) : Conflict :=
  mkConflict (cf_ID c) (cf_WorkspaceID c) (cf_Type c) status (cf_Resource c) (cf_Events c)
    (cf_DetectedAt c) at_ r.

(** ** Detection *)

Definition concurrencyWindow : Z := 5 * Second.

(** [Time.Sub] saturates, and negating the least [int64] gives it back. *)
Definition absDiff (t u : Z) : Z :=
  let timeDiff := Sub t u in
  if timeDiff <? 0 then wrap64 (- timeDiff) else timeDiff.

Definition isOverlapping (a b : WorkspaceEvent) : bool :=
  if decide (ev_Version a = ev_Version b) then true
  else (absDiff (ev_Timestamp a) (ev_Timestamp b) <? concurrencyWindow)
       && bool_decide (ev_DeviceID a <> ev_DeviceID b).

Fixpoint classifyConflict (incoming : WorkspaceEvent) (existing : list WorkspaceEvent) : ConflictType :=
  match existing with
  | [] => ConflictConcurrentWrite
  | e :: existing =>
      if decide (Category (ev_EventType incoming) <> Category (ev_EventType e)) then ConflictSemantic
      else if decide (ev_EventType incoming = EventDevicePermChanged \/
                      ev_EventType incoming = EventWorkspaceConfigChanged) then ConflictMetadata
      else if decide (ev_Version e > ev_Version incoming) then ConflictOrdering
      else classifyConflict incoming existing
  end.

(** The stored events [Detect] gathers. *)
Definition conflicts_with (event stored : WorkspaceEvent) : Prop :=
  ev_DeviceID stored <> ev_DeviceID event /\
  (ev_Version stored >= ev_Version event \/ isOverlapping stored event = true).

#[export] Instance conflicts_with_dec event stored : Decision (conflicts_with event stored).
Proof. unfold conflicts_with. apply _. Defined.

Inductive DetectErr : Type := ErrDetectNil | ErrDetectQuery (e : StoreErr).

Definition ConflictDetector_Detect (now : Z) (store : EventStore) (event : option WorkspaceEvent)
  : Res DetectErr (option Conflict) :=
  match event with
  | None => Err ErrDetectNil
  | Some event =>
      let resource := extractResourceFromEvent event in
      if decide (resource = "") then Ok None else
      match EventStore_QueryByResource store (ev_WorkspaceID event) resource with
      | Err e => Err (ErrDetectQuery e)
      | Ok recentEvents =>
          let conflicting := filter (conflicts_with event) recentEvents in
          match conflicting with
          | [] => Ok None
          | _ => Ok (Some (mkConflict ("cnfl_" +:+ pretty (UnixNano now)) (ev_WorkspaceID event)
                       (classifyConflict event conflicting) ConflictPending resource
                       (conflicting ++ [event]) now None None))
          end
      end
  end.

(** ** Last write wins *)

Definition lwwStep (winner event : WorkspaceEvent) : WorkspaceEvent :=
  if After (ev_Timestamp event) (ev_Timestamp winner) then event
  else if decide (ev_Timestamp event = ev_Timestamp winner)
       then if str_ltb (ev_DeviceID winner) (ev_DeviceID event) then event else winner
       else winner.

Definition lwwWinner (e : WorkspaceEvent) (es : list WorkspaceEvent) : WorkspaceEvent :=
  foldl lwwStep e es.

Inductive LWWErr : Type := ErrLWWNil | ErrLWWNoEvents.

(** [Resolve] also writes the outcome into the conflict it is given. *)
Definition LWWResolver_Resolve (now : Z) (conflict : option Conflict)
  : Res LWWErr (ConflictResolution * Conflict) :=
  match conflict with
  | None => Err ErrLWWNil
  | Some conflict =>
      match cf_Events conflict with
      | [] => Err ErrLWWNoEvents
      | e :: es =>
          let winner := lwwWinner e es in
          let resolution := mkResolution "lww" (ev_ID winner) (ev_Payload winner) "auto" in
          Ok (resolution, set_outcome conflict ConflictAutoResolved (Some now) (Some resolution))
      end
  end.

(** ** The conflict store: one JSON document per conflict *)

Abbreviation ConflictStore := (gmap string (Doc Conflict)).

Inductive ConflictErr : Type :=
  | ErrConflictNil | ErrConflictsDir | ErrMarshalConflict | ErrWriteConflict
  | ErrConflictNotFound (id : string) | ErrReadConflict | ErrParseConflict
  | ErrDeleteConflict.

Inductive ConflictFault : Type :=
  | FaultConflictsDir | FaultMarshalConflict | FaultWriteConflict (truncated : bool).

#[export] Instance ConflictFault_eq_dec : EqDecision ConflictFault.
Proof. solve_decision. Defined.

Definition ConflictStore_Save (fault : option ConflictFault) (s : ConflictStore)
    (conflict : option Conflict) : ConflictStore * Res ConflictErr unit :=
  match conflict with
  | None => (s, Err ErrConflictNil)
  | Some c =>
      match fault with
      | Some FaultConflictsDir => (s, Err ErrConflictsDir)
      | Some FaultMarshalConflict => (s, Err ErrMarshalConflict)
      | Some (FaultWriteConflict false) => (s, Err ErrWriteConflict)
      | Some (FaultWriteConflict true) => (<[cf_ID c := Malformed]> s, Err ErrWriteConflict)
      | None => (<[cf_ID c := Parsed c]> s, Ok tt)
      end
  end.

Definition ConflictStore_Load (s : ConflictStore) (conflictID : string) : Res ConflictErr Conflict :=
  match s !! conflictID with
  | None | Some Missing => Err (ErrConflictNotFound conflictID)
  | Some Unreadable => Err ErrReadConflict
  | Some Malformed => Err ErrParseConflict
  | Some (Parsed c) => Ok c
  end.

Definition is_resolved_status (st : ConflictStatus) : bool :=
  bool_decide (st = ConflictResolved) || bool_decide (st = ConflictAutoResolved).

(** The directory is listed in the order [o]; unreadable and malformed files
    are skipped. *)
Definition ConflictStore_List (o : list (string * Doc Conflict)) (includeResolved : bool)
  : list Conflict :=
  omap (fun entry => match entry.2 with
                     | Parsed c => if negb includeResolved && is_resolved_status (cf_Status c)
                                   then None else Some c
                     | _ => None
                     end) o.

Definition ConflictStore_Delete (removeFails : bool) (s : ConflictStore) (conflictID : string)
  : ConflictStore * Res ConflictErr unit :=
  match s !! conflictID with
  | None | Some Missing => (s, Err (ErrConflictNotFound conflictID))
  | _ => if removeFails then (s, Err ErrDeleteConflict) else (delete conflictID s, Ok tt)
  end.

(** ** The resolution manager *)

Inductive ResolveErr : Type :=
  | ErrResolveNil | ErrAutoResolve (e : LWWErr) | ErrUnknownType (t : ConflictType)
  | ErrSaveConflict (e : ConflictErr) | ErrLoadConflict (e : ConflictErr)
  | ErrAlreadyResolved (id : string) | ErrUnknownStrategy (s : string).

(** The conflict after the dispatch on its type, before it is saved. *)
Definition dispatchConflict (now : Z) (c : Conflict) : Res ResolveErr Conflict :=
  if decide (cf_Type c = ConflictConcurrentWrite \/ cf_Type c = ConflictMetadata \/
             cf_Type c = ConflictOrdering)
  then match LWWResolver_Resolve now (Some c) with
       | Ok (resolution, c') => Ok (set_outcome c' (cf_Status c') (cf_ResolvedAt c') (Some resolution))
       | Err e => Err (ErrAutoResolve e)
       end
  else if decide (cf_Type c = ConflictSemantic)
  then Ok (set_outcome c ConflictManual (cf_ResolvedAt c) (cf_Resolution c))
  else Err (ErrUnknownType (cf_Type c)).

(** The result carries the conflict as the caller holds it afterwards. *)
Definition ResolutionManager_ResolveConflict (fault : option ConflictFault) (now : Z)
    (s : ConflictStore) (conflict : option Conflict)
  : ConflictStore * Res ResolveErr Conflict :=
  match conflict with
  | None => (s, Err ErrResolveNil)
  | Some c =>
      match dispatchConflict now c with
      | Err e => (s, Err e)
      | Ok c' => match ConflictStore_Save fault s (Some c') with
                 | (s', Ok _) => (s', Ok c')
                 | (s', Err e) => (s', Err (ErrSaveConflict e))
                 end
      end
  end.

Definition ResolutionManager_ResolveManually (fault : option ConflictFault) (now : Z)
    (s : ConflictStore) (conflictID strategy : string) (choice : Payload)
  : ConflictStore * Res ResolveErr unit :=
  match ConflictStore_Load s conflictID with
  | Err e => (s, Err (ErrLoadConflict e))
  | Ok c =>
      if is_resolved_status (cf_Status c) then (s, Err (ErrAlreadyResolved conflictID)) else
      let c' := set_outcome c ConflictResolved (Some now)
                  (Some (mkResolution strategy "" choice "manual")) in
      match ConflictStore_Save fault s (Some c') with
      | (s', Ok _) => (s', Ok tt)
      | (s', Err e) => (s', Err (ErrSaveConflict e))
      end
  end.

Definition ResolutionManager_ListConflicts (o : list (string * Doc Conflict))
    (includeResolved : bool) : list Conflict := ConflictStore_List o includeResolved.

Definition ResolutionManager_GetConflict (s : ConflictStore) (conflictID : string)
  : Res ConflictErr Conflict := ConflictStore_Load s conflictID.

(** ** What [Detect] reports *)

(** The events of the store that conflict with [event]. *)
Definition rival (evs : list WorkspaceEvent) (event stored : WorkspaceEvent) : Prop :=
  stored ∈ evs /\ ev_WorkspaceID stored = ev_WorkspaceID event /\
  extractResourceFromEvent stored = extractResourceFromEvent event /\
  conflicts_with event stored.

Definition gathered (evs : list WorkspaceEvent) (event : WorkspaceEvent) : list WorkspaceEvent :=
  filter (conflicts_with event)
    (filter (fun e => ev_WorkspaceID e = ev_WorkspaceID event /\
                      extractResourceFromEvent e = extractResourceFromEvent event) evs).

Lemma elem_of_gathered evs event e : e ∈ gathered evs event <-> rival evs event e.
Proof.
  unfold gathered, rival. rewrite !list_elem_of_filter. tauto.
Qed.

Lemma Detect_eq now store evs event :
  readAllEvents store = Ok evs ->
  ConflictDetector_Detect now store (Some event) =
    if decide (extractResourceFromEvent event = "") then Ok None else
    match gathered evs event with
    | [] => Ok None
    | l => Ok (Some (mkConflict ("cnfl_" +:+ pretty (UnixNano now)) (ev_WorkspaceID event)
                (classifyConflict event l) ConflictPending (extractResourceFromEvent event)
                (l ++ [event]) now None None))
    end.
Proof.
  intros Hr. unfold ConflictDetector_Detect, EventStore_QueryByResource, bind_read.
  rewrite Hr. case_decide; [done|]. fold (gathered evs event). by destruct (gathered evs event).
Qed.

(** What a reported conflict holds. *)
Lemma Detect_Some now store event c :
  ConflictDetector_Detect now store (Some event) = Ok (Some c) ->
  exists rivals, cf_Events c = rivals ++ [event] /\ rivals <> [] /\ cf_Type c = classifyConflict event rivals.
Proof.
  destruct (readAllEvents store) as [evs|e] eqn:Hr.
  - rewrite (Detect_eq _ _ _ _ Hr). case_decide; [done|].
    destruct (gathered evs event) as [|x l]; [done|]. intros [= <-]. by exists (x :: l).
  - unfold ConflictDetector_Detect, EventStore_QueryByResource, bind_read. rewrite Hr. by case_decide.
Qed.

(** [Detect] reports a conflict exactly when the event names a resource and
    the store holds an event of another device on the same resource and
    workspace whose version is not older or which overlaps it in time; the
    conflict lists exactly these events followed by the incoming one, and is
    pending.  Reading errors of the store are passed on, and a nil event is
    refused. *)
Theorem Detect_characterised (now : Z) (store : EventStore) (event : WorkspaceEvent) :
  match ConflictDetector_Detect now store (Some event) with
  | Ok None => extractResourceFromEvent event = "" \/
      exists evs, readAllEvents store = Ok evs /\ forall e, ~ rival evs event e
  | Ok (Some c) => extractResourceFromEvent event <> "" /\
      exists evs rivals, readAllEvents store = Ok evs /\
        cf_Events c = rivals ++ [event] /\ rivals <> [] /\
        (forall e, e ∈ rivals <-> rival evs event e) /\
        cf_Type c = classifyConflict event rivals /\ cf_Status c = ConflictPending /\
        cf_Resource c = extractResourceFromEvent event /\
        cf_WorkspaceID c = ev_WorkspaceID event
  | Err err => extractResourceFromEvent event <> "" /\
      exists e, readAllEvents store = Err e /\ err = ErrDetectQuery e
  end /\ ConflictDetector_Detect now store None = Err ErrDetectNil.
Proof.
  split; [|done]. destruct (readAllEvents store) as [evs|e] eqn:Hr.
  - rewrite (Detect_eq _ _ _ _ Hr). case_decide as Hres; [by left|].
    destruct (gathered evs event) as [|x l] eqn:Hg.
    + right. exists evs. split; [done|]. intros e He%elem_of_gathered. rewrite Hg in He. set_solver.
    + split; [done|]. exists evs, (x :: l). rewrite <- Hg. split_and!; try done.
      { by rewrite Hg. } intros e. apply elem_of_gathered.
  - unfold ConflictDetector_Detect, EventStore_QueryByResource, bind_read. rewrite Hr.
    case_decide; [by left|]. eauto.
Qed.

(** An event that has not been stored yet carries version 0, as
    [NewEvent] makes it.  Against a store whose versions start at 1 every
    earlier event of another device on the same resource then counts as a
    conflict, however long ago it was stored, and the type is decided by the
    oldest of them alone: semantic, metadata or ordering, never
    concurrent_write. *)
Theorem unversioned_events_always_conflict (now : Z) (store : EventStore) (evs : list WorkspaceEvent)
    (event : WorkspaceEvent)
    (Hr : readAllEvents store = Ok evs) (Hvers : Forall (fun e => 1 <= ev_Version e) evs)
    (Hnew : ev_Version event = 0) (Hres : extractResourceFromEvent event <> "") :
  (ConflictDetector_Detect now store (Some event) = Ok None <->
    (forall e, e ∈ evs -> ev_WorkspaceID e = ev_WorkspaceID event ->
       extractResourceFromEvent e = extractResourceFromEvent event ->
       ev_DeviceID e = ev_DeviceID event)) /\
  (forall c, ConflictDetector_Detect now store (Some event) = Ok (Some c) ->
     cf_Type c <> ConflictConcurrentWrite).
Proof.
  rewrite Forall_forall in Hvers. rewrite (Detect_eq _ _ _ _ Hr), decide_False by done.
  assert (forall e, e ∈ gathered evs event <->
    e ∈ evs /\ ev_WorkspaceID e = ev_WorkspaceID event /\
    extractResourceFromEvent e = extractResourceFromEvent event /\
    ev_DeviceID e <> ev_DeviceID event) as Hg.
  { intros e. rewrite elem_of_gathered. unfold rival, conflicts_with.
    split; [tauto|]. intros (He & ?). pose proof (Hvers e He).
    split_and!; try tauto. left. lia. }
  destruct (gathered evs event) as [|x l] eqn:Heq.
  - split; [|done]. split; [|done]. intros _ e He Hw Hre.
    destruct (decide (ev_DeviceID e = ev_DeviceID event)); [done|].
    assert (e ∈ []) by (apply Hg; tauto). set_solver.
  - assert (x ∈ x :: l) as Hx by left. apply Hg in Hx as (Hxin & Hxw & Hxr & Hxd).
    split.
    + split; [done|]. intros Hall. exfalso. by apply Hxd, Hall.
    + intros c [= <-]. simpl. pose proof (Hvers x Hxin).
      repeat case_decide; first [lia | intros Ht; discriminate Ht].
Qed.

(** When the stored event is more than the range of a [time.Duration]
    (292 years) older than the incoming one, as an event without a timestamp
    is, the saturated difference is the least int64, whose negation is itself:
    the two events count as overlapping although they are centuries apart. *)
Theorem overlap_of_distant_timestamps (a b : WorkspaceEvent)
    (Hfar : ev_Timestamp a - ev_Timestamp b <= min_int64)
    (Hdev : ev_DeviceID a <> ev_DeviceID b) :
  isOverlapping a b = true.
Proof.
  unfold isOverlapping. case_decide; [done|]. rewrite bool_decide_true by done.
  rewrite andb_true_r. unfold absDiff, Sub.
  replace (Z.max min_int64 (Z.min max_int64 (ev_Timestamp a - ev_Timestamp b))) with min_int64
    by (unfold min_int64, max_int64 in *; lia).
  done.
Qed.

(** Within the range of a duration the test is the distance in time. *)
Lemma isOverlapping_in_range a b :
  min_int64 < ev_Timestamp a - ev_Timestamp b <= max_int64 ->
  ev_Version a <> ev_Version b -> ev_DeviceID a <> ev_DeviceID b ->
  isOverlapping a b = true <-> Z.abs (ev_Timestamp a - ev_Timestamp b) < concurrencyWindow.
Proof.
  intros Hr Hv Hd. unfold isOverlapping. rewrite decide_False, bool_decide_true by done.
  rewrite andb_true_r, Z.ltb_lt. unfold absDiff.
  rewrite Sub_exact by (unfold int64_range; lia).
  destruct (Z.ltb_spec (ev_Timestamp a - ev_Timestamp b) 0).
  - rewrite wrap64_id by (unfold int64_range, min_int64, max_int64 in *; lia).
    by rewrite Z.abs_neq by lia.
  - by rewrite Z.abs_eq by lia.
Qed.

(** ** Last write wins picks the greatest (timestamp, device) *)

(** [e] is at most [w] in the order of the resolver. *)
Definition lww_le (e w : WorkspaceEvent) : Prop :=
  ev_Timestamp e < ev_Timestamp w \/
  (ev_Timestamp e = ev_Timestamp w /\ str_ltb (ev_DeviceID w) (ev_DeviceID e) = false).

Lemma lww_le_refl e : lww_le e e.
Proof. right. split; [done | apply str_ltb_irrefl]. Qed.

Lemma str_nlt_trans a b c :
  str_ltb b a = false -> str_ltb c b = false -> str_ltb c a = false.
Proof.
  intros H1 H2. destruct (str_ltb c a) eqn:H; [|done].
  destruct (str_ltb_total _ _ H1) as [->|H3]; [congruence|].
  rewrite (str_ltb_trans _ _ _ H H3) in H2. done.
Qed.

Lemma lww_le_trans e f g : lww_le e f -> lww_le f g -> lww_le e g.
Proof.
  intros [H1|[H1 H1']] [H2|[H2 H2']]; unfold lww_le; try (left; lia).
  right. split; [lia|]. by eapply str_nlt_trans.
Qed.

Lemma lww_le_antisym e f :
  lww_le e f -> lww_le f e -> ev_Timestamp e = ev_Timestamp f /\ ev_DeviceID e = ev_DeviceID f.
Proof.
  intros [H1|[H1 H1']] [H2|[H2 H2']]; try lia. split; [done|].
  destruct (str_ltb_total _ _ H1') as [|H]; congruence.
Qed.

Lemma lwwStep_max w e :
  (lwwStep w e = w \/ lwwStep w e = e) /\ lww_le w (lwwStep w e) /\ lww_le e (lwwStep w e).
Proof.
  unfold lwwStep, After, lww_le. destruct (Z.ltb_spec (ev_Timestamp w) (ev_Timestamp e)).
  { split_and!; [by right | by left | right; split; [done | apply str_ltb_irrefl]]. }
  case_decide as Ht.
  - destruct (str_ltb (ev_DeviceID w) (ev_DeviceID e)) eqn:Hlt.
    + split_and!; [by right| |right; split; [done | apply str_ltb_irrefl]].
      right. split; [done|]. destruct (str_ltb (ev_DeviceID e) (ev_DeviceID w)) eqn:H'; [|done].
      pose proof (str_ltb_trans _ _ _ Hlt H') as Hc. by rewrite str_ltb_irrefl in Hc.
    + split_and!; [by left | right; split; [done | apply str_ltb_irrefl] | by right].
  - split_and!; [by left | right; split; [done | apply str_ltb_irrefl] | left; lia].
Qed.

Lemma lwwWinner_max e es :
  lwwWinner e es ∈ e :: es /\ forall x, x ∈ e :: es -> lww_le x (lwwWinner e es).
Proof.
  unfold lwwWinner. revert e. induction es as [|f es IH]; intros e; simpl.
  - split; [left|]. intros x ->%list_elem_of_singleton. apply lww_le_refl.
  - destruct (IH (lwwStep e f)) as [Hin Hmax]. destruct (lwwStep_max e f) as (Hor & H1 & H2).
    split.
    + clear IH Hmax. destruct Hor as [Ho|Ho]; rewrite Ho in Hin |- *;
        apply elem_of_cons in Hin as [->|Hin]; rewrite !elem_of_cons; auto.
    + intros x Hx. assert (x = e \/ x = f \/ x ∈ es) as [->|[->|Hx']] by set_solver.
      * eapply lww_le_trans; [exact H1|]. apply Hmax. left.
      * eapply lww_le_trans; [exact H2|]. apply Hmax. left.
      * apply Hmax. by right.
Qed.

(** last-write-wins chooses one of the conflicting events, with the
    greatest timestamp and among those the greatest device ID; the choice does
    not depend on the order in which the events are listed, as long as no two
    of them share timestamp and device, so replicas that saw the events in
    different orders agree. *)
Theorem LWW_deterministic_maximum (now now' : Z) (c c' : Conflict) (e : WorkspaceEvent) (es : list WorkspaceEvent)
    (Hev : cf_Events c = e :: es) (Hperm : cf_Events c' ≡ₚ cf_Events c)
    (Hdistinct : forall x y, x ∈ cf_Events c -> y ∈ cf_Events c ->
       ev_Timestamp x = ev_Timestamp y -> ev_DeviceID x = ev_DeviceID y -> x = y) :
  exists w, w ∈ cf_Events c /\ (forall x, x ∈ cf_Events c -> lww_le x w) /\
    (exists d, LWWResolver_Resolve now (Some c) =
       Ok (mkResolution "lww" (ev_ID w) (ev_Payload w) "auto", d) /\ cf_Status d = ConflictAutoResolved) /\
    (exists d', LWWResolver_Resolve now' (Some c') =
       Ok (mkResolution "lww" (ev_ID w) (ev_Payload w) "auto", d')).
Proof.
  exists (lwwWinner e es). destruct (lwwWinner_max e es) as [Hin Hmax].
  unfold LWWResolver_Resolve. rewrite Hev in *. split_and!; [done|done|eauto|].
  destruct (cf_Events c') as [|e' es'] eqn:Hev'; [by apply Permutation_nil_cons in Hperm|].
  destruct (lwwWinner_max e' es') as [Hin' Hmax'].
  rewrite Hperm in Hin'.
  assert (lwwWinner e' es' = lwwWinner e es) as ->; [|eauto].
  destruct (lww_le_antisym (lwwWinner e' es') (lwwWinner e es)) as [Ht Hd].
  - by apply Hmax.
  - apply Hmax'. by rewrite Hperm.
  - by apply Hdistinct.
Qed.

(** ** Lifecycle of stored conflicts *)

Lemma Save_other fault s c s' r id :
  ConflictStore_Save fault s (Some c) = (s', r) -> id <> cf_ID c -> s' !! id = s !! id.
Proof.
  unfold ConflictStore_Save. intros H Hne.
  destruct fault as [[| |[]]|]; simplify_eq; try done; by rewrite lookup_insert_ne.
Qed.

Lemma Load_Save s c : ConflictStore_Load (<[cf_ID c := Parsed c]> s) (cf_ID c) = Ok c.
Proof. unfold ConflictStore_Load. by rewrite lookup_insert_eq. Qed.

Definition auto_type (t : ConflictType) : Prop :=
  t = ConflictConcurrentWrite \/ t = ConflictMetadata \/ t = ConflictOrdering.

Lemma dispatch_auto now c e es :
  auto_type (cf_Type c) -> cf_Events c = e :: es ->
  dispatchConflict now c =
    Ok (set_outcome c ConflictAutoResolved (Some now)
          (Some (mkResolution "lww" (ev_ID (lwwWinner e es)) (ev_Payload (lwwWinner e es)) "auto"))).
Proof.
  intros Ht He. unfold dispatchConflict. rewrite decide_True by done.
  unfold LWWResolver_Resolve. by rewrite He.
Qed.

Lemma dispatch_semantic now c :
  cf_Type c = ConflictSemantic ->
  dispatchConflict now c = Ok (set_outcome c ConflictManual (cf_ResolvedAt c) (cf_Resolution c)).
Proof. intros Ht. unfold dispatchConflict. by rewrite Ht. Qed.

Lemma dispatch_ID now c c' : dispatchConflict now c = Ok c' -> cf_ID c' = cf_ID c.
Proof.
  unfold dispatchConflict, LWWResolver_Resolve. intros H.
  repeat (case_decide || case_match); simplify_eq/=; done.
Qed.

(** Resolving a detected conflict settles it by its type.  Concurrent
    writes, metadata and ordering conflicts become auto_resolved with the
    last-write-wins winner, semantic ones become manual without a resolution,
    and an unknown type or an eventless conflict is an error that writes
    nothing.  The settled conflict is what [Load] then returns, and no other
    conflict of the store is touched, also when saving fails. *)
Theorem ResolveConflict_settles_by_type (fault : option ConflictFault) (now : Z) (s s' : ConflictStore)
    (c : Conflict) (r : Res ResolveErr Conflict)
    (H : ResolutionManager_ResolveConflict fault now s (Some c) = (s', r)) :
  (forall id, id <> cf_ID c -> s' !! id = s !! id) /\
  match r with
  | Ok c' =>
      ConflictStore_Load s' (cf_ID c) = Ok c' /\
      ((auto_type (cf_Type c) /\ exists e es, cf_Events c = e :: es /\
          c' = set_outcome c ConflictAutoResolved (Some now)
                 (Some (mkResolution "lww" (ev_ID (lwwWinner e es)) (ev_Payload (lwwWinner e es)) "auto"))) \/
       (cf_Type c = ConflictSemantic /\
          c' = set_outcome c ConflictManual (cf_ResolvedAt c) (cf_Resolution c)))
  | Err _ => is_Some fault \/
      (s' = s /\ ((auto_type (cf_Type c) /\ cf_Events c = []) \/
                  (~ auto_type (cf_Type c) /\ cf_Type c <> ConflictSemantic)))
  end.
Proof.
  unfold ResolutionManager_ResolveConflict in H.
  destruct (dispatchConflict now c) as [c'|e] eqn:Hd.
  - pose proof (dispatch_ID _ _ _ Hd) as Hid. split.
    { intros id Hne. rewrite <- Hid in Hne. case_match eqn:Hs; destruct r0; simplify_eq;
        by eapply Save_other. }
    destruct fault as [f|]; [destruct f as [| |[]]; simplify_eq/=; eauto|]. simplify_eq/=.
    split; [rewrite <- Hid; apply Load_Save|].
    destruct (decide (auto_type (cf_Type c))) as [Ha|Ha].
    + left. split; [done|]. destruct (cf_Events c) as [|e es] eqn:He.
      * unfold dispatchConflict in Hd. rewrite decide_True in Hd by done.
        unfold LWWResolver_Resolve in Hd. by rewrite He in Hd.
      * rewrite (dispatch_auto _ _ e es) in Hd by done. simplify_eq. eauto.
    + right. unfold dispatchConflict in Hd. rewrite decide_False in Hd by done.
      case_decide; [|done]. by simplify_eq.
  - simplify_eq. split; [done|]. right. split; [done|].
    unfold dispatchConflict in Hd. case_decide.
    + left. split; [done|]. unfold LWWResolver_Resolve in Hd. by destruct (cf_Events c).
    + right. by case_decide.
Qed.

(** Manual resolution is final.  It succeeds exactly on a stored conflict
    that is not already resolved or auto-resolved (absent a fault of the
    system), records the chosen strategy and values, and any later manual
    resolution of the same conflict is refused and leaves the store as it
    is. *)
Theorem ResolveManually_once (now now' : Z) (s : ConflictStore) (id strategy strategy' : string)
    (choice choice' : Payload) (c : Conflict)
    (Hload : ConflictStore_Load s id = Ok c) (Hid : cf_ID c = id) :
  if is_resolved_status (cf_Status c)
  then ResolutionManager_ResolveManually None now s id strategy choice = (s, Err (ErrAlreadyResolved id))
  else exists s', ResolutionManager_ResolveManually None now s id strategy choice = (s', Ok tt) /\
    ConflictStore_Load s' id =
      Ok (set_outcome c ConflictResolved (Some now) (Some (mkResolution strategy "" choice "manual"))) /\
    (forall fault, ResolutionManager_ResolveManually fault now' s' id strategy' choice' =
       (s', Err (ErrAlreadyResolved id))).
Proof.
  unfold ResolutionManager_ResolveManually. rewrite Hload.
  destruct (is_resolved_status (cf_Status c)); [done|]. simpl. subst id.
  eexists. split; [done|].
  set (c' := set_outcome c _ _ _). change (cf_ID c) with (cf_ID c'). rewrite Load_Save. done.
Qed.

(** ** Witnesses *)

Definition witness_store : EventStore :=
  mkEventStore (LogLines [mkLine 300 (Some (set_Version (sample_event "a" "phone" 1000 "doc") 1))])
    (Parsed (mkIndex 1 1)).

Definition witness_event : WorkspaceEvent := sample_event "b" "laptop" (1000 * Minute) "doc".

Lemma unversioned_events_always_conflict_witness :
  exists c, ConflictDetector_Detect 7 witness_store (Some witness_event) = Ok (Some c) /\
    cf_Type c = ConflictOrdering /\ cf_Type c <> ConflictConcurrentWrite.
Proof.
  eexists. split; [vm_compute; reflexivity|]. split; [reflexivity|].
  eapply (unversioned_events_always_conflict 7 witness_store _ witness_event eq_refl);
    [constructor; [by vm_compute | constructor] | reflexivity | vm_compute; discriminate | vm_compute; reflexivity].
Defined.

Lemma overlap_of_distant_timestamps_witness :
  let a := sample_event "a" "phone" 0 "doc" in
  let b := set_Version (sample_event "b" "laptop" (63900000000 * Second) "doc") 5 in
  isOverlapping a b = true.
Proof.
  intros a b. apply (overlap_of_distant_timestamps a b); vm_compute; discriminate.
Defined.

Definition witness_conflict (t : ConflictType) : Conflict :=
  mkConflict "cnfl_1" "ws" t ConflictPending "doc"
    [sample_event "a" "phone" 10 "doc"; sample_event "b" "laptop" 20 "doc"] 5 None None.

Lemma LWW_deterministic_maximum_witness :
  exists w d, LWWResolver_Resolve 9 (Some (witness_conflict ConflictOrdering)) =
    Ok (mkResolution "lww" (ev_ID w) (ev_Payload w) "auto", d) /\ ev_ID w = "b".
Proof.
  set (c := witness_conflict ConflictOrdering).
  destruct (LWW_deterministic_maximum 9 9 c c _ _ eq_refl (reflexivity _)) as (w & Hw & Hmax & (d & Hd & _) & _).
  - intros x y. unfold c; simpl. rewrite !elem_of_cons, !elem_of_nil.
    intros [->|[->|[]]] [->|[->|[]]]; intros Hts; vm_compute in Hts; done.
  - exists w, d. split; [exact Hd|].
    assert (w = sample_event "a" "phone" 10 "doc" \/ w = sample_event "b" "laptop" 20 "doc") as [->| ->].
    { unfold c in Hw; simpl in Hw. rewrite !elem_of_cons, !elem_of_nil in Hw. tauto. }
    + destruct (Hmax (sample_event "b" "laptop" 20 "doc")) as [H|[H _]]; [|done|done].
      unfold c; simpl. set_solver.
    + done.
Defined.

Lemma ResolveConflict_settles_by_type_witness :
  exists s' c', ResolutionManager_ResolveConflict None 9 ∅ (Some (witness_conflict ConflictSemantic)) = (s', Ok c') /\
    ConflictStore_Load s' "cnfl_1" = Ok c' /\ cf_Status c' = ConflictManual.
Proof.
  eexists _, _. split; [reflexivity|]. split; [|reflexivity].
  apply (ResolveConflict_settles_by_type None 9 ∅ _ (witness_conflict ConflictSemantic) (Ok _) eq_refl).
Defined.

Lemma ResolveManually_once_witness :
  let c := witness_conflict ConflictSemantic in
  let s : ConflictStore := {["cnfl_1" := Parsed c]} in
  exists s', ResolutionManager_ResolveManually None 9 s "cnfl_1" "manual" None = (s', Ok tt) /\
    ResolutionManager_ResolveManually None 10 s' "cnfl_1" "lww" None = (s', Err (ErrAlreadyResolved "cnfl_1")).
Proof.
  intros c s.
  destruct (ResolveManually_once 9 10 s "cnfl_1" "manual" "lww" None None c eq_refl eq_refl) as (s' & H1 & _ & H2).
  exists s'. split; [exact H1 | exact (H2 None)].
Defined.
