(* ===== verification/Sync.v ===== *)
(** * Device synchronization (src/internal/core/multidevice/sync_manager.go)

    A reconnecting device fetches what it missed and hands in its offline
    queue: each queued event is checked for conflicts, conflicts are resolved
    or escalated, and the event is appended to the event store. *)

From Stdlib Require Import ZArith Lia.
From stdpp Require Import base option list list_numbers gmap strings fin_maps.
From S2P Require Import Prelude Events EventStore OfflineQueue Conflicts.

Open Scope Z_scope.

(** ** State

    What a sync manager reads and writes of the workspace directory: the event
    store, the conflict store and the offline queue of every device. *)

Record SyncState : Type := mkSyncState {
  st_events : EventStore;
  st_conflicts : ConflictStore;
  st_queues : gmap string OfflineQueue
}.

Definition queueOf (st : SyncState) (deviceID : string) : OfflineQueue :=
  default NewOfflineQueue (st_queues st !! deviceID).

Definition set_queue (st : SyncState) (deviceID : string) (q : OfflineQueue) : SyncState :=
  mkSyncState (st_events st) (st_conflicts st) (<[deviceID := q]> (st_queues st)).

Record SyncResult : Type := mkSyncResult {
  EventsSynced : Z;
  EventsProcessed : Z;
  ConflictsDetected : Z;
  Conflicts : Z;
  AutoResolved : Z;
  ManualPending : Z;
  sr_LatestVersion : Z
}.

Inductive SyncErr : Type :=
  | ErrGettingVersion (e : StoreErr) | ErrGettingMissed (e : StoreErr) | ErrDequeuing (e : QueueErr)
  | ErrDetecting (eventID : string) (e : DetectErr)
  | ErrResolving (conflictID : string) (e : ResolveErr)
  | ErrStoring (eventID : string) (e : StoreErr).

(** The environment of a call: the clock when the i-th event is processed, and
    the faults of the system. *)
Record SyncEnv : Type := mkSyncEnv {
  clock : nat -> Z;
  dequeueFault : option QueueFault;
  saveFault : nat -> option ConflictFault;
  storeFault : nat -> option StoreFault
}.

Definition calm (env : SyncEnv) : Prop :=
  dequeueFault env = None /\ (forall i, saveFault env i = None) /\ (forall i, storeFault env i = None).

Section sync.
Context `{C : LineCodec}.

(** The counters the loop keeps. *)
Record Counters : Type := mkCounters { k_detected : Z; k_auto : Z; k_manual : Z }.

Definition countConflict (k : Counters) (status : ConflictStatus) : Counters :=
  let k := mkCounters (k_detected k + 1) (k_auto k) (k_manual k) in
  if decide (status = ConflictAutoResolved) then mkCounters (k_detected k) (k_auto k + 1) (k_manual k)
  else if decide (status = ConflictManual) then mkCounters (k_detected k) (k_auto k) (k_manual k + 1)
  else k.

(** One turn of the loop over offline events. *)
Definition syncEvent (env : SyncEnv) (i : nat) (st : SyncState) (k : Counters) (event : WorkspaceEvent)
  : SyncState * Res SyncErr Counters :=
  let storing st k :=
    match EventStore_Store (storeFault env i) (st_events st) event with
    | (s', _, Ok _) => (mkSyncState s' (st_conflicts st) (st_queues st), Ok k)
    | (s', _, Err e) => (mkSyncState s' (st_conflicts st) (st_queues st), Err (ErrStoring (ev_ID event) e))
    end in
  match ConflictDetector_Detect (clock env i) (st_events st) (Some event) with
  | Err e => (st, Err (ErrDetecting (ev_ID event) e))
  | Ok None => storing st k
  | Ok (Some conflict) =>
      match ResolutionManager_ResolveConflict (saveFault env i) (clock env i) (st_conflicts st)
              (Some conflict) with
      | (cs, Err e) => (mkSyncState (st_events st) cs (st_queues st), Err (ErrResolving (cf_ID conflict) e))
      | (cs, Ok conflict') =>
          storing (mkSyncState (st_events st) cs (st_queues st)) (countConflict k (cf_Status conflict'))
      end
  end.

Fixpoint syncLoop (env : SyncEnv) (i : nat) (st : SyncState) (k : Counters) (events : list WorkspaceEvent)
  : SyncState * Res SyncErr Counters :=
  match events with
  | [] => (st, Ok k)
  | event :: events =>
      match syncEvent env i st k event with
      | (st', Ok k') => syncLoop env (S i) st' k' events
      | (st', Err e) => (st', Err e)
      end
  end.

(** [if newLatest, err := GetLatestVersion(); err == nil { ... }]. *)
Definition newLatest (s : EventStore) (old : Z) : Z :=
  match EventStore_GetLatestVersion s with Ok v => v | Err _ => old end.

Definition SyncManager_InitiateSync (env : SyncEnv) (st : SyncState) (deviceID : string) (lastVersion : Z)
  : SyncState * Res SyncErr SyncResult :=
  match EventStore_GetLatestVersion (st_events st) with
  | Err e => (st, Err (ErrGettingVersion e))
  | Ok latestVersion =>
      if decide (lastVersion >= latestVersion)
      then (st, Ok (mkSyncResult 0 0 0 0 0 0 latestVersion)) else
      match EventStore_GetRange (st_events st) (wrap64 (lastVersion + 1)) latestVersion with
      | Err e => (st, Err (ErrGettingMissed e))
      | Ok missedEvents =>
          match OfflineQueue_Dequeue (dequeueFault env) (queueOf st deviceID) with
          | (q', Err e) => (set_queue st deviceID q', Err (ErrDequeuing e))
          | (q', Ok offlineEvents) =>
              let totalEvents := Z.of_nat (length missedEvents) + Z.of_nat (length offlineEvents) in
              match syncLoop env 0 (set_queue st deviceID q') (mkCounters 0 0 0) offlineEvents with
              | (st', Err e) => (st', Err e)
              | (st', Ok k) =>
                  (st', Ok (mkSyncResult totalEvents totalEvents (k_detected k) (k_detected k)
                              (k_auto k) (k_manual k) (newLatest (st_events st') latestVersion)))
              end
          end
      end
  end.

Definition SyncManager_GetMissedEvents (st : SyncState) (sinceVersion : Z)
  : Res SyncErr (list WorkspaceEvent) :=
  match EventStore_GetLatestVersion (st_events st) with
  | Err e => Err (ErrGettingVersion e)
  | Ok latestVersion =>
      if decide (sinceVersion >= latestVersion) then Ok [] else
      map_err ErrGettingMissed (EventStore_GetRange (st_events st) (wrap64 (sinceVersion + 1)) latestVersion)
  end.

Definition SyncManager_ProcessOfflineEvents (env : SyncEnv) (st : SyncState) (deviceID workspaceID : string)
    (events : list WorkspaceEvent) : SyncState * Res SyncErr SyncResult :=
  let n := Z.of_nat (length events) in
  match syncLoop env 0 st (mkCounters 0 0 0) ((fun e => attribute e deviceID workspaceID) <$> events) with
  | (st', Err e) => (st', Err e)
  | (st', Ok k) =>
      (st', Ok (mkSyncResult n n (k_detected k) (k_detected k) (k_auto k) (k_manual k)
                  (newLatest (st_events st') 0)))
  end.

End sync.

(** ** The loop stores every event *)

Lemma classify_types event existing :
  auto_type (classifyConflict event existing) \/ classifyConflict event existing = ConflictSemantic.
Proof.
  unfold auto_type. induction existing as [|e l IH]; simpl; [auto|].
  repeat case_decide; auto.
Qed.

(** A detected conflict is always settled, absent faults. *)
Lemma detected_settles now now' store event c cs :
  ConflictDetector_Detect now store (Some event) = Ok (Some c) ->
  exists cs' c', ResolutionManager_ResolveConflict None now' cs (Some c) = (cs', Ok c') /\
    (cf_Status c' = ConflictAutoResolved \/ cf_Status c' = ConflictManual).
Proof.
  intros Hd. destruct (Detect_Some _ _ _ _ Hd) as (rivals & Hev & Hne & Ht).
  unfold ResolutionManager_ResolveConflict.
  destruct (classify_types event rivals) as [Ha|Hs]; rewrite <- Ht in *.
  - destruct (cf_Events c) as [|e es] eqn:He; [by destruct rivals|].
    rewrite (dispatch_auto now' c e es Ha He). simpl. eauto.
  - rewrite (dispatch_semantic now' c Hs). simpl. eauto.
Qed.

Section loop.
Context `{C : LineCodec, K : !KeepsEnvelope C}.

(** Every conflict counted was settled one way or the other. *)
Definition balanced (k : Counters) : Prop := k_detected k = k_auto k + k_manual k.

Lemma countConflict_settled k status :
  balanced k -> status = ConflictAutoResolved \/ status = ConflictManual ->
  balanced (countConflict k status) /\ k_detected (countConflict k status) = k_detected k + 1.
Proof. unfold balanced. intros Hk [->| ->]; simpl; lia. Qed.

Lemma syncEvent_ok env i st k event n evs :
  calm env -> log_ok (st_events st) n evs -> n < max_int64 -> fits event -> balanced k ->
  exists st' k' e', syncEvent env i st k event = (st', Ok k') /\
    log_ok (st_events st') (n + 1) (evs ++ [e']) /\ same_envelope (set_Version event (n + 1)) e' /\
    st_queues st' = st_queues st /\ balanced k' /\ k_detected k <= k_detected k' <= k_detected k + 1.
Proof.
  intros (_ & Hsave & Hstore) Hok Hmax Hfit Hk. unfold syncEvent.
  destruct (Store_log_ok _ _ _ event Hok Hmax Hfit) as (s' & e' & Hst & Hok' & Henv).
  rewrite Hsave, Hstore.
  assert (exists evs', readAllEvents (st_events st) = Ok evs') as [evs' Hr]
    by (destruct Hok; eauto).
  pose proof (Detect_eq (clock env i) _ _ event Hr) as Hd.
  destruct (ConflictDetector_Detect (clock env i) (st_events st) (Some event)) as [[c|]|] eqn:HD.
  - destruct (detected_settles _ (clock env i) _ _ _ (st_conflicts st) HD) as (cs & c' & -> & Hstat).
    simpl. rewrite Hst. destruct (countConflict_settled k _ Hk Hstat) as [Hb Hc].
    eexists _, _, e'. split_and!; try done; lia.
  - simpl. rewrite Hst. eexists _, _, e'. split_and!; try done; lia.
  - exfalso. repeat (case_decide || case_match); done.
Qed.

Lemma syncLoop_ok env i st k events n evs :
  calm env -> log_ok (st_events st) n evs -> n + Z.of_nat (length events) <= max_int64 ->
  Forall fits events -> balanced k ->
  exists st' k' new, syncLoop env i st k events = (st', Ok k') /\
    log_ok (st_events st') (n + Z.of_nat (length events)) (evs ++ new) /\
    Forall2 (fun e e' => same_envelope (set_Version e (ev_Version e')) e') events new /\
    st_queues st' = st_queues st /\ balanced k' /\
    k_detected k <= k_detected k' <= k_detected k + Z.of_nat (length events).
Proof.
  revert i st k n evs. induction events as [|e es IH]; intros i st k n evs Hcalm Hok Hmax Hfit Hk; simpl in *.
  { exists st, k, []. rewrite Z.add_0_r, app_nil_r. split_and!; try done; lia. }
  apply Forall_cons in Hfit as [He Hes].
  destruct (syncEvent_ok env i st k e n evs Hcalm Hok) as (st1 & k1 & e1 & -> & Hok1 & Henv & Hq1 & Hk1 & Hc1);
    [lia|done|done|].
  destruct (IH (S i) st1 k1 (n + 1) (evs ++ [e1]) Hcalm Hok1) as (st' & k' & new & -> & Hok' & Hnew & Hq & Hk' & Hc');
    [lia|done|done|].
  exists st', k', (e1 :: new). split_and!; try done; try lia.
  - rewrite <- app_assoc in Hok'. simpl in Hok'.
    by replace (n + Z.of_nat (S (length es))) with (n + 1 + Z.of_nat (length es)) by lia.
  - constructor; [|done]. by destruct Henv as (?&?&?&?&?&?); repeat split.
  - by rewrite Hq.
Qed.

End loop.

Lemma log_ok_latest s n evs : log_ok s n evs -> EventStore_GetLatestVersion s = Ok n.
Proof. intros (_ & Hi & _ & _). unfold EventStore_GetLatestVersion. by rewrite Hi. Qed.

Lemma Dequeue_ok q l :
  queue_rep q l -> OfflineQueue_Dequeue None q = (LogMissing, Ok l).
Proof. intros Hq. unfold OfflineQueue_Dequeue. rewrite Hq. by destruct q. Qed.


(** A device that is up to date does not hand in its offline events: when
    its last version has reached the latest one, [InitiateSync] reports zero
    events and leaves the queue, the log and the conflicts as they are. *)
Theorem InitiateSync_up_to_date_skips_queue `{C : LineCodec} (env : SyncEnv) (st : SyncState)
    (deviceID : string) (lastVersion latest : Z)
    (Hlatest : EventStore_GetLatestVersion (st_events st) = Ok latest) (Hlast : latest <= lastVersion) :
  SyncManager_InitiateSync env st deviceID lastVersion =
    (st, Ok (mkSyncResult 0 0 0 0 0 0 latest)).
Proof.
  unfold SyncManager_InitiateSync. by rewrite Hlatest, decide_True by lia.
Qed.

(** Events handed in explicitly are attributed to the syncing device and
    workspace whatever they claimed, stored in order with the next versions,
    and counted; conflicts are all settled one way or the other. *)
Theorem ProcessOfflineEvents_attributes `{C : LineCodec} (K : KeepsEnvelope C) (env : SyncEnv)
    (st : SyncState) (deviceID workspaceID : string) (n : Z) (evs events : list WorkspaceEvent)
    (Hcalm : calm env) (Hok : log_ok (st_events st) n evs)
    (Hfit : Forall fits ((fun e => attribute e deviceID workspaceID) <$> events))
    (Hmax : n + Z.of_nat (length events) <= max_int64) :
  exists st' new r, SyncManager_ProcessOfflineEvents env st deviceID workspaceID events = (st', Ok r) /\
    log_ok (st_events st') (n + Z.of_nat (length events)) (evs ++ new) /\
    Forall2 (fun e e' => ev_ID e' = ev_ID e /\ ev_DeviceID e' = deviceID /\ ev_WorkspaceID e' = workspaceID)
      events new /\
    st_queues st' = st_queues st /\
    EventsProcessed r = Z.of_nat (length events) /\
    sr_LatestVersion r = n + Z.of_nat (length events) /\
    ConflictsDetected r = AutoResolved r + ManualPending r.
Proof.
  unfold SyncManager_ProcessOfflineEvents.
  destruct (syncLoop_ok env 0 st (mkCounters 0 0 0)
    ((fun e => attribute e deviceID workspaceID) <$> events) n evs)
    as (st' & k' & new & -> & Hok' & Hnew & Hqs & Hk' & Hc); try done.
  { by rewrite length_fmap. }
  rewrite length_fmap in Hok'. unfold newLatest. rewrite (log_ok_latest _ _ _ Hok').
  eexists st', new, _. split_and!; try done.
  apply Forall2_fmap_l in Hnew. eapply Forall2_impl; [exact Hnew|].
  intros e e' (-> & -> & -> & _). done.
Qed.

(** ** Failures during a sync *)

(** An error of the loop over the events. *)
Definition is_event_err (e : SyncErr) : Prop :=
  match e with ErrDetecting _ _ | ErrResolving _ _ | ErrStoring _ _ => True | _ => False end.

Lemma syncEvent_queues `{C : LineCodec} env i st k event st' r :
  syncEvent env i st k event = (st', r) -> st_queues st' = st_queues st /\
  (forall e, r = Err e -> is_event_err e).
Proof.
  unfold syncEvent. intros H.
  repeat case_match; simplify_eq/=; (split; [done|]); intros ? ?; by simplify_eq.
Qed.

Lemma syncLoop_queues `{C : LineCodec} env i st k events st' r :
  syncLoop env i st k events = (st', r) -> st_queues st' = st_queues st /\
  (forall e, r = Err e -> is_event_err e).
Proof.
  revert i st k. induction events as [|e es IH]; intros i st k; simpl.
  { intros; simplify_eq. done. }
  destruct (syncEvent env i st k e) as [st1 [k1|err]] eqn:H1; apply syncEvent_queues in H1 as [Hq He].
  - intros [Hq' He']%IH. split; [by rewrite Hq'|done].
  - intros; simplify_eq. split; [done|]. intros ? ?; simplify_eq. by apply He.
Qed.

(** What a failed sync does to the device's queue.  If reading the store
    fails nothing has happened yet, and if taking the queue fails it still
    reads as before; but a failure while detecting, resolving or storing one of
    the queued events comes after the queue file was removed: the queue is
    empty although the remaining events were never stored. *)
Theorem InitiateSync_failure_and_queue `{C : LineCodec} (env : SyncEnv) (st st' : SyncState)
    (deviceID : string) (lastVersion : Z) (e : SyncErr)
    (H : SyncManager_InitiateSync env st deviceID lastVersion = (st', Err e)) :
  match e with
  | ErrGettingVersion _ | ErrGettingMissed _ => st' = st
  | ErrDequeuing _ => OfflineQueue_Peek (queueOf st' deviceID) = OfflineQueue_Peek (queueOf st deviceID)
  | ErrDetecting _ _ | ErrResolving _ _ | ErrStoring _ _ =>
      OfflineQueue_Peek (queueOf st' deviceID) = Ok []
  end.
Proof.
  unfold SyncManager_InitiateSync in H.
  destruct (EventStore_GetLatestVersion _) as [latest|]; [|by simplify_eq].
  case_decide; [done|]. destruct (EventStore_GetRange _ _ _) as [missed|]; [|by simplify_eq].
  destruct (OfflineQueue_Dequeue _ _) as [q' [queued|err]] eqn:Hd.
  - destruct (syncLoop _ _ _ _ _) as [st1 [k|err]] eqn:Hl; simplify_eq.
    apply syncLoop_queues in Hl as [Hq He]. pose proof (He _ eq_refl) as Hcase.
    assert (OfflineQueue_Peek (queueOf st' deviceID) = Ok []) as Hp.
    { unfold queueOf. rewrite Hq. simpl. rewrite lookup_insert_eq. simpl.
      unfold OfflineQueue_Dequeue, remove_queue in Hd.
      repeat (case_match || case_decide); by simplify_eq. }
    by destruct e.
  - simplify_eq. unfold queueOf at 1. simpl. rewrite lookup_insert_eq. simpl.
    eapply (queue_step_fault (dequeueFault env) _ OpDequeue). simpl. by rewrite Hd.
Qed.

(** ** Witnesses *)

Definition calm_env : SyncEnv := mkSyncEnv (fun i => 100 + Z.of_nat i) None (fun _ => None) (fun _ => None).

Lemma calm_calm_env : calm calm_env.
Proof. done. Qed.

Definition queued_line (e : WorkspaceEvent) : Line := mkLine 300 (Some e).

Definition sync_state (queued : list Line) : SyncState :=
  mkSyncState witness_store ∅ {["laptop" := LogLines queued]}.

Lemma witness_store_ok :
  log_ok witness_store 1 [set_Version (sample_event "a" "phone" 1000 "doc") 1].
Proof. split_and!; vm_compute; done. Qed.


Lemma InitiateSync_up_to_date_skips_queue_witness :
  let st := sync_state [queued_line witness_event] in
  @SyncManager_InitiateSync small_codec calm_env st "laptop" 1 = (st, Ok (mkSyncResult 0 0 0 0 0 0 1)) /\
  OfflineQueue_Peek (queueOf st "laptop") = Ok [witness_event].
Proof.
  intros st. split; [|vm_compute; reflexivity].
  apply (@InitiateSync_up_to_date_skips_queue small_codec calm_env st "laptop" 1 1); [reflexivity | lia].
Defined.

Lemma ProcessOfflineEvents_attributes_witness :
  let st := sync_state [] in
  exists st' new r,
    @SyncManager_ProcessOfflineEvents small_codec calm_env st "laptop" "ws" [sample_event "x" "phone" 5 "doc"]
      = (st', Ok r) /\
    log_ok (st_events st') 2 ([set_Version (sample_event "a" "phone" 1000 "doc") 1] ++ new) /\
    EventsProcessed r = 1.
Proof.
  intros st.
  destruct (@ProcessOfflineEvents_attributes small_codec (plain_codec_keeps _) calm_env st "laptop" "ws" 1 _
    [sample_event "x" "phone" 5 "doc"] calm_calm_env witness_store_ok)
    as (st' & new & r & H1 & H2 & _ & _ & H3 & _).
  - constructor; [apply small_fits | constructor].
  - by vm_compute.
  - exists st', new, r. split_and!; [exact H1 | exact H2 | exact H3].
Defined.

(** Without any fault: the first queued event is too long for the store's
    scanner, the second one is then dropped. *)
Lemma InitiateSync_failure_and_queue_witness :
  let big_codec := plain_codec (fun e => if decide (ev_ID e = "big") then 70000 else 300) in
  let big := sample_event "big" "laptop" 50 "other" in
  let st := sync_state [queued_line big; queued_line witness_event] in
  exists st' e, @SyncManager_InitiateSync big_codec calm_env st "laptop" 0 = (st', Err e) /\
    OfflineQueue_Peek (queueOf st' "laptop") = Ok [] /\
    (ev_ID <$> omap line_event (log_lines (events_jsonl (st_events st')))) = ["a"; "big"].
Proof.
  intros big_codec big st. eexists _, (ErrDetecting _ _).
  split; [vm_compute; reflexivity|]. split; [|vm_compute; reflexivity].
  apply (@InitiateSync_failure_and_queue big_codec calm_env st _ "laptop" 0 (ErrDetecting "b" (ErrDetectQuery ErrReadEvents))).
  vm_compute. reflexivity.
Defined.
