(* ===== verification/Links.v ===== *)
(** * Device links, roles and workspace policies
      (src/internal/core/multidevice/types.go, linker.go, storage.go,
       policies.go and the policy part of manager.go) *)

From Stdlib Require Import ZArith Lia.
From stdpp Require Import base option list gmap strings fin_maps.
From S2P Require Import Prelude Events.

Open Scope Z_scope.

(** ** Roles and permissions *)

Abbreviation DeviceRole := string.
Definition RoleOwner : DeviceRole := "owner".
Definition RoleCollaborator : DeviceRole := "collaborator".
Definition RoleViewer : DeviceRole := "viewer".

Definition ValidRoles : list DeviceRole := [RoleOwner; RoleCollaborator; RoleViewer].

Definition IsValidRole (role : DeviceRole) : bool :=
  bool_decide (role = RoleOwner \/ role = RoleCollaborator \/ role = RoleViewer).

Abbreviation PresenceState := string.
Definition PresenceLinking : PresenceState := "linking".
Definition PresenceOnline : PresenceState := "online".
Definition PresenceAway : PresenceState := "away".
Definition PresenceOffline : PresenceState := "offline".
Definition PresenceUnlinked : PresenceState := "unlinked".

Record AccessSchedule : Type := mkSchedule {
  StartTime : string;
  EndTime : string;
  DaysOfWeek : list Z; (* 0 = Monday *)
  Timezone : string
}.

Record DevicePermissions : Type := mkPermissions {
  Role : DeviceRole;
  CanRead : bool;
  CanWrite : bool;
  CanExecute : bool;
  CanManage : bool;
  CanSync : bool;
  MaxIsolationTier : string;
  AllowedActions : list string;
  DeniedActions : list string;
  RateLimitPerMin : Z;
  AccessSchedule_ : option AccessSchedule
}.

Definition role_permissions (role : DeviceRole) (r w x m s : bool) : DevicePermissions :=
  mkPermissions role r w x m s "" [] [] 0 None.

Definition PermissionsForRole (role : DeviceRole) : DevicePermissions :=
  if decide (role = RoleOwner) then role_permissions RoleOwner true true true true true
  else if decide (role = RoleCollaborator)
  then role_permissions RoleCollaborator true true true false true
  else if decide (role = RoleViewer)
  then role_permissions RoleViewer true false false false true
  else role_permissions RoleViewer true false false false true.

(** ** Links *)

Record WorkspaceDeviceLink : Type := mkLink {
  lk_WorkspaceID : string;
  lk_DeviceID : string;
  lk_LinkedAt : Z;
  lk_LinkedBy : string;
  lk_Permissions : DevicePermissions;
  lk_Status : PresenceState;
  lk_LastEventID : string;
  lk_LastSyncAt : Z
}.

Definition set_permissions (l : WorkspaceDeviceLink) (p : DevicePermissions) : WorkspaceDeviceLink :=
  mkLink (lk_WorkspaceID l) (lk_DeviceID l) (lk_LinkedAt l) (lk_LinkedBy l) p (lk_Status l)
    (lk_LastEventID l) (lk_LastSyncAt l).

Definition set_last_sync (l : WorkspaceDeviceLink) (at_ : Z) (eventID : string) : WorkspaceDeviceLink :=
  mkLink (lk_WorkspaceID l) (lk_DeviceID l) (lk_LinkedAt l) (lk_LinkedBy l) (lk_Permissions l)
    (lk_Status l) eventID at_.

(** The files workspaces/<workspace>/devices/<device>.json. *)
Abbreviation LinkStore := (gmap (string * string) (Doc WorkspaceDeviceLink)).

Inductive LinkErr : Type :=
  | ErrWorkspaceIDRequired | ErrDeviceIDRequired | ErrInvalidRole (role : DeviceRole)
  | ErrAlreadyLinked (workspaceID deviceID : string)
  | ErrLinkNotFound (workspaceID deviceID : string) | ErrLinkRead | ErrLinkParse
  | ErrLinkSave | ErrLinkDelete.

(** [fails]: the system refuses to write the file. *)
Definition SaveLink (fails : bool) (s : LinkStore) (link : WorkspaceDeviceLink)
  : LinkStore * Res LinkErr unit :=
  if decide (lk_WorkspaceID link = "") then (s, Err ErrWorkspaceIDRequired) else
  if decide (lk_DeviceID link = "") then (s, Err ErrDeviceIDRequired) else
  if fails then (s, Err ErrLinkSave)
  else (<[(lk_WorkspaceID link, lk_DeviceID link) := Parsed link]> s, Ok tt).

Definition LoadLink (s : LinkStore) (workspaceID deviceID : string) : Res LinkErr WorkspaceDeviceLink :=
  match s !! (workspaceID, deviceID) with
  | None | Some Missing => Err (ErrLinkNotFound workspaceID deviceID)
  | Some Unreadable => Err ErrLinkRead
  | Some Malformed => Err ErrLinkParse
  | Some (Parsed link) => Ok link
  end.

Definition DeleteLink (fails : bool) (s : LinkStore) (workspaceID deviceID : string)
  : LinkStore * Res LinkErr unit :=
  match s !! (workspaceID, deviceID) with
  | None | Some Missing => (s, Err (ErrLinkNotFound workspaceID deviceID))
  | _ => if fails then (s, Err ErrLinkDelete) else (delete (workspaceID, deviceID) s, Ok tt)
  end.

(** The directory entries in the order they are listed; unreadable and
    malformed files are skipped. *)
Definition ListLinks (entries : list (string * string * Doc WorkspaceDeviceLink)) (workspaceID : string)
  : list WorkspaceDeviceLink :=
  omap (fun entry => if decide (entry.1.1 = workspaceID)
                     then match entry.2 with Parsed link => Some link | _ => None end
                     else None) entries.

(** ** The linker *)

Definition Linker_AttachDevice (now : Z) (fails : bool) (s : LinkStore)
    (workspaceID deviceID : string) (role : DeviceRole)
  : LinkStore * Res LinkErr WorkspaceDeviceLink :=
  if decide (workspaceID = "") then (s, Err ErrWorkspaceIDRequired) else
  if decide (deviceID = "") then (s, Err ErrDeviceIDRequired) else
  if negb (IsValidRole role) then (s, Err (ErrInvalidRole role)) else
  match LoadLink s workspaceID deviceID with
  | Ok _ => (s, Err (ErrAlreadyLinked workspaceID deviceID))
  | Err _ =>
      let link := mkLink workspaceID deviceID now deviceID (PermissionsForRole role)
                    PresenceLinking "" 0 in
      match SaveLink fails s link with
      | (s', Ok _) => (s', Ok link)
      | (s', Err e) => (s', Err e)
      end
  end.

Definition Linker_DetachDevice (fails : bool) (s : LinkStore) (workspaceID deviceID : string)
  : LinkStore * Res LinkErr unit :=
  if decide (workspaceID = "") then (s, Err ErrWorkspaceIDRequired) else
  if decide (deviceID = "") then (s, Err ErrDeviceIDRequired) else
  match LoadLink s workspaceID deviceID with
  | Err e => (s, Err e)
  | Ok _ => DeleteLink fails s workspaceID deviceID
  end.

Definition Linker_GetLink (s : LinkStore) (workspaceID deviceID : string)
  : Res LinkErr WorkspaceDeviceLink := LoadLink s workspaceID deviceID.

Definition Linker_UpdatePermissions (fails : bool) (s : LinkStore) (workspaceID deviceID : string)
    (perms : DevicePermissions) : LinkStore * Res LinkErr unit :=
  match LoadLink s workspaceID deviceID with
  | Err e => (s, Err e)
  | Ok link => SaveLink fails s (set_permissions link perms)
  end.

Definition Linker_SetRole (fails : bool) (s : LinkStore) (workspaceID deviceID : string)
    (role : DeviceRole) : LinkStore * Res LinkErr unit :=
  if negb (IsValidRole role) then (s, Err (ErrInvalidRole role)) else
  match LoadLink s workspaceID deviceID with
  | Err e => (s, Err e)
  | Ok link => SaveLink fails s (set_permissions link (PermissionsForRole role))
  end.

(** ** Policies *)

Abbreviation PolicyMode := string.
Definition PolicyAllowAll : PolicyMode := "allow-all".
Definition PolicyAllowList : PolicyMode := "allow-list".
Definition PolicyDenyList : PolicyMode := "deny-list".

Record Policy : Type := mkPolicy {
  pl_WorkspaceID : string;
  pl_Mode : PolicyMode;
  AllowDevices : list string;
  DenyDevices : list string
}.

Definition IsDeviceAllowed (p : Policy) (deviceID : string) : bool :=
  if decide (pl_Mode p = PolicyAllowAll) then true
  else if decide (pl_Mode p = PolicyAllowList) then bool_decide (deviceID ∈ AllowDevices p)
  else if decide (pl_Mode p = PolicyDenyList) then negb (bool_decide (deviceID ∈ DenyDevices p))
  else true.

Definition DefaultPolicy (workspaceID : string) : Policy :=
  mkPolicy workspaceID PolicyAllowAll [] [].

Inductive PolicyErr : Type := ErrPolicyRead | ErrPolicyParse.

(** The file workspaces/<workspace>/policy.json of each workspace. *)
Abbreviation PolicyStore := (gmap string (Doc Policy)).

Definition LoadPolicy (s : PolicyStore) (workspaceID : string) : Res PolicyErr Policy :=
  match s !! workspaceID with
  | None | Some Missing => Ok (mkPolicy workspaceID PolicyAllowAll [] [])
  | Some Unreadable => Err ErrPolicyRead
  | Some Malformed => Err ErrPolicyParse
  | Some (Parsed p) => Ok p
  end.

Definition SavePolicy (s : PolicyStore) (workspaceID : string) (policy : Policy) : PolicyStore :=
  <[workspaceID := Parsed policy]> s.

(** ** Links are kept under their own names *)

(** Every readable link file holds the link its name says. *)
Definition links_wf (s : LinkStore) : Prop :=
  forall w d link, s !! (w, d) = Some (Parsed link) ->
    w = lk_WorkspaceID link /\ d = lk_DeviceID link /\ w <> "" /\ d <> "".

Lemma LoadLink_Ok s w d link : LoadLink s w d = Ok link <-> s !! (w, d) = Some (Parsed link).
Proof. unfold LoadLink. split; intros H; repeat case_match; simplify_eq; done. Qed.

Lemma SaveLink_wf fails s link s' r : links_wf s -> SaveLink fails s link = (s', r) -> links_wf s'.
Proof.
  unfold SaveLink. intros Hwf H. repeat (case_decide || case_match); simplify_eq; try done.
  intros w d l. rewrite lookup_insert. case_decide; intros; simplify_eq; [done|]. by apply Hwf.
Qed.

Lemma SaveLink_Ok fails s link s' :
  SaveLink fails s link = (s', Ok tt) -> s' = <[(lk_WorkspaceID link, lk_DeviceID link) := Parsed link]> s.
Proof. unfold SaveLink. intros H. repeat (case_decide || case_match); by simplify_eq. Qed.

Lemma SaveLink_Err fails s link s' e : SaveLink fails s link = (s', Err e) -> s' = s.
Proof. unfold SaveLink. intros H. repeat (case_decide || case_match); by simplify_eq. Qed.

Inductive LinkOp : Type :=
  | OpAttach (now : Z) (w d : string) (role : DeviceRole)
  | OpDetach (w d : string)
  | OpUpdatePermissions (w d : string) (perms : DevicePermissions)
  | OpSetRole (w d : string) (role : DeviceRole).

Definition link_step (fails : bool) (s : LinkStore) (op : LinkOp) : LinkStore :=
  match op with
  | OpAttach now w d role => (Linker_AttachDevice now fails s w d role).1
  | OpDetach w d => (Linker_DetachDevice fails s w d).1
  | OpUpdatePermissions w d perms => (Linker_UpdatePermissions fails s w d perms).1
  | OpSetRole w d role => (Linker_SetRole fails s w d role).1
  end.

(** The link file an operation names. *)
Definition op_key (op : LinkOp) : string * string :=
  match op with
  | OpAttach _ w d _ | OpDetach w d | OpUpdatePermissions w d _ | OpSetRole w d _ => (w, d)
  end.

Lemma link_step_wf fails s op : links_wf s -> links_wf (link_step fails s op).
Proof.
  intros Hwf. destruct op as [now w d role|w d|w d perms|w d role]; simpl.
  - unfold Linker_AttachDevice. repeat case_decide; try done. case_match; [done|].
    case_match; [done|]. destruct (SaveLink _ _ _) as [s' []] eqn:Hs; by eapply SaveLink_wf.
  - unfold Linker_DetachDevice, DeleteLink. repeat (case_decide || case_match); try done.
    all: intros w' d' l; simpl; rewrite lookup_delete; case_decide; [done|]; apply Hwf.
  - unfold Linker_UpdatePermissions. case_match; [|done].
    destruct (SaveLink _ _ _) as [s' r] eqn:Hs. by eapply SaveLink_wf.
  - unfold Linker_SetRole. case_match; [done|]. case_match; [|done].
    destruct (SaveLink _ _ _) as [s' r] eqn:Hs. by eapply SaveLink_wf.
Qed.

Lemma link_step_frame fails s op k : links_wf s -> k <> op_key op -> link_step fails s op !! k = s !! k.
Proof.
  intros Hwf Hk. destruct op as [now w d role|w d|w d perms|w d role]; simpl in *.
  - unfold Linker_AttachDevice. repeat case_decide; try done. case_match; [done|].
    case_match; [done|]. destruct (SaveLink _ _ _) as [s' [[]|]] eqn:Hs; simpl.
    + apply SaveLink_Ok in Hs as ->. by rewrite lookup_insert_ne.
    + by apply SaveLink_Err in Hs as ->.
  - unfold Linker_DetachDevice, DeleteLink. repeat (case_decide || case_match); simpl;
      try done; by rewrite lookup_delete_ne.
  - unfold Linker_UpdatePermissions. case_match eqn:Hl; [|done].
    apply LoadLink_Ok, Hwf in Hl as (Hw & Hd & _).
    destruct (SaveLink _ _ _) as [s' [[]|]] eqn:Hs; simpl.
    + apply SaveLink_Ok in Hs as ->. simpl. rewrite lookup_insert_ne; [done|]. by rewrite <- Hw, <- Hd.
    + by apply SaveLink_Err in Hs as ->.
  - unfold Linker_SetRole. case_match; [done|]. case_match eqn:Hl; [|done].
    apply LoadLink_Ok, Hwf in Hl as (Hw & Hd & _).
    destruct (SaveLink _ _ _) as [s' [[]|]] eqn:Hs; simpl.
    + apply SaveLink_Ok in Hs as ->. simpl. rewrite lookup_insert_ne; [done|]. by rewrite <- Hw, <- Hd.
    + by apply SaveLink_Err in Hs as ->.
Qed.

(** Every operation of the linker, successful or not and whether or not
    the file system accepts the write, keeps each link file consistent with its
    name and touches at most the link of the workspace and device it was called
    for. *)
Theorem linker_operations_isolated (s : LinkStore) (ops : list (bool * LinkOp)) (Hwf : links_wf s) :
  let s' := foldl (fun s '(fails, op) => link_step fails s op) s ops in
  links_wf s' /\ forall k, k ∉ (op_key ∘ snd <$> ops) -> s' !! k = s !! k.
Proof.
  simpl. revert s Hwf. induction ops as [|[fails op] ops IH]; intros s Hwf; simpl; [done|].
  destruct (IH (link_step fails s op)) as [Hwf' Hf]; [by apply link_step_wf|].
  split; [done|]. intros k Hk. apply not_elem_of_cons in Hk as [Hne Hk].
  rewrite Hf by done. by apply link_step_frame.
Qed.

(** The life of a link.  Attaching an unlinked device with a valid role
    stores a link in state "linking" with exactly the permissions of the role;
    attaching it again is refused and changes nothing; changing the role
    replaces the permissions by those of the new role; detaching removes the
    link, after which it is not found. *)
Lemma link_lifecycle (now : Z) (s : LinkStore) (w d : string) (role role' : DeviceRole) (e : LinkErr)
    (Hw : w <> "") (Hd : d <> "") (Hrole : IsValidRole role = true) (Hrole' : IsValidRole role' = true)
    (Hfree : LoadLink s w d = Err e) :
  exists s1 link, Linker_AttachDevice now false s w d role = (s1, Ok link) /\
    LoadLink s1 w d = Ok link /\ lk_Status link = PresenceLinking /\
    lk_Permissions link = PermissionsForRole role /\
    (forall now', Linker_AttachDevice now' false s1 w d role' = (s1, Err (ErrAlreadyLinked w d))) /\
    (exists s2, Linker_SetRole false s1 w d role' = (s2, Ok tt) /\
       LoadLink s2 w d = Ok (set_permissions link (PermissionsForRole role'))) /\
    (exists s3, Linker_DetachDevice false s1 w d = (s3, Ok tt) /\
       LoadLink s3 w d = Err (ErrLinkNotFound w d) /\ s3 = delete (w, d) s).
Proof.
  set (link := mkLink w d now d (PermissionsForRole role) PresenceLinking "" 0).
  set (s1 := <[(w, d) := Parsed link]> s : LinkStore).
  assert (LoadLink s1 w d = Ok link) as Hl by (apply LoadLink_Ok, lookup_insert_eq).
  exists s1, link. split_and!; try done.
  - unfold Linker_AttachDevice. rewrite !decide_False, Hrole, Hfree by done. simpl.
    unfold SaveLink. simpl. by rewrite !decide_False by done.
  - intros now'. unfold Linker_AttachDevice. rewrite !decide_False, Hrole', Hl by done. done.
  - unfold Linker_SetRole. rewrite Hrole', Hl. simpl. unfold SaveLink. simpl.
    rewrite !decide_False by done. eexists. split; [done|]. apply LoadLink_Ok, lookup_insert_eq.
  - unfold Linker_DetachDevice. rewrite !decide_False, Hl by done.
    unfold DeleteLink, s1. rewrite lookup_insert_eq. eexists. split; [done|].
    split; [unfold LoadLink; by rewrite lookup_delete_eq|]. by rewrite delete_insert_eq.
Qed.

Lemma linker_operations_isolated_witness :
  let ops := [(false, OpAttach 1 "ws" "phone" RoleOwner); (false, OpAttach 2 "ws" "tv" RoleViewer);
              (true, OpSetRole "ws" "tv" RoleOwner); (false, OpDetach "ws" "phone")] in
  let s := foldl (fun s '(fails, op) => link_step fails s op) (∅ : LinkStore) ops in
  links_wf s /\ LoadLink s "ws" "phone" = Err (ErrLinkNotFound "ws" "phone") /\
  lk_Permissions <$> (match LoadLink s "ws" "tv" with Ok l => Some l | _ => None end)
    = Some (PermissionsForRole RoleViewer).
Proof.
  intros ops s. split; [|split; vm_compute; reflexivity].
  apply (linker_operations_isolated (∅ : LinkStore) ops). intros w d link H. by rewrite lookup_empty in H.
Defined.

