(* ===== verification/RateLimit.v ===== *)
(** * Rate limiting (src/internal/core/multidevice/rate_limit.go)

    Token buckets per device and workspace.  The source keeps tokens as
    float64; here they are exact, in units of one token per nanosecond of a
    minute: a token is [Minute] units, and a bucket of [limit] requests per
    minute gains [limit] units per nanosecond. *)

From Stdlib Require Import ZArith Lia.
From stdpp Require Import base option list gmap strings fin_maps sorting.
From S2P Require Import Prelude.

Open Scope Z_scope.

Record tokenBucket : Type := mkBucket {
  tokens : Z;     (* in units: Minute units are one token *)
  max_ : Z;       (* in units *)
  rate : Z;       (* units per nanosecond *)
  lastCheck : Z
}.

Definition tokenUnit : Z := Minute.

Definition refill (tb : tokenBucket) (now : Z) : tokenBucket :=
  let elapsed := Sub now (lastCheck tb) in
  if decide (elapsed <= 0) then tb
  else mkBucket (Z.min (tokens tb + elapsed * rate tb) (max_ tb)) (max_ tb) (rate tb) now.

Abbreviation RateLimiter := (gmap string tokenBucket).

Definition NewRateLimiter : RateLimiter := ∅.

Definition rateLimitKey (deviceID workspaceID : string) : string := deviceID +:+ ":" +:+ workspaceID.

(** The bucket of a key; it is created full, for the limit of the first call. *)
Definition getBucket (now : Z) (rl : RateLimiter) (key : string) (limit : Z) : tokenBucket :=
  default (mkBucket (limit * tokenUnit) (limit * tokenUnit) limit now) (rl !! key).

(** [time.Duration(deficit/bucket.rate*1000) * time.Millisecond]. *)
Definition retryAfter (tb : tokenBucket) : Z :=
  Z.quot (tokenUnit - tokens tb) (rate tb * Millisecond) * Millisecond.

(** The results are (allowed, remaining, retryAfter). *)
Definition RateLimiter_Check (now : Z) (rl : RateLimiter) (deviceID workspaceID : string) (limit : Z)
  : RateLimiter * (bool * Z * Z) :=
  if decide (limit <= 0) then (rl, (true, 0, 0)) else
  let key := rateLimitKey deviceID workspaceID in
  let bucket := refill (getBucket now rl key limit) now in
  let remaining := Z.quot (tokens bucket) tokenUnit in
  (<[key := bucket]> rl,
   if decide (remaining < 1) then (false, 0, retryAfter bucket) else (true, remaining, 0)).

Definition takeToken (tb : tokenBucket) : tokenBucket :=
  mkBucket (tokens tb - tokenUnit) (max_ tb) (rate tb) (lastCheck tb).

Definition RateLimiter_Consume (now : Z) (rl : RateLimiter) (deviceID workspaceID : string) (limit : Z)
  : RateLimiter * (bool * Z * Z) :=
  if decide (limit <= 0) then (rl, (true, 0, 0)) else
  let key := rateLimitKey deviceID workspaceID in
  let bucket := refill (getBucket now rl key limit) now in
  if decide (tokens bucket < tokenUnit)
  then (<[key := bucket]> rl, (false, 0, retryAfter bucket))
  else let bucket := takeToken bucket in
       (<[key := bucket]> rl, (true, Z.quot (tokens bucket) tokenUnit, 0)).

(** ** Well-formed buckets *)

Definition bucket_ok (limit : Z) (tb : tokenBucket) : Prop :=
  0 <= tokens tb <= max_ tb /\ max_ tb = limit * tokenUnit /\ rate tb = limit.

Lemma tokenUnit_pos : 0 < tokenUnit.
Proof. done. Qed.

Lemma takeToken_ok limit tb : bucket_ok limit tb -> tokenUnit <= tokens tb -> bucket_ok limit (takeToken tb).
Proof.
  intros (Ht & Hm & Hr) Hu. pose proof tokenUnit_pos. unfold bucket_ok, takeToken; simpl. lia.
Qed.

Lemma refill_ok limit tb now : 0 < limit -> bucket_ok limit tb -> bucket_ok limit (refill tb now).
Proof.
  intros Hl (Ht & Hm & Hr). unfold refill. case_decide; [done|].
  split_and!; simpl; try done; rewrite ?Hm, ?Hr in *; nia.
Qed.

Lemma getBucket_ok now rl key limit :
  0 < limit -> (forall tb, rl !! key = Some tb -> bucket_ok limit tb) ->
  bucket_ok limit (getBucket now rl key limit).
Proof.
  intros Hl H. unfold getBucket. destruct (rl !! key) as [tb|]; simpl; [by apply H|].
  pose proof tokenUnit_pos. split_and!; simpl; try done; nia.
Qed.

(** Tokens a bucket holds, less what it has gained since time 0. *)
Definition potential (tb : tokenBucket) : Z := tokens tb - lastCheck tb * rate tb.

Lemma refill_potential tb now : 0 <= rate tb -> potential (refill tb now) <= potential tb.
Proof.
  intros Hr. unfold refill, potential. case_decide as He; [done|]. simpl.
  assert (Sub now (lastCheck tb) <= now - lastCheck tb)
    by (unfold Sub, min_int64, max_int64 in *; lia).
  nia.
Qed.

Lemma refill_lastCheck tb now : lastCheck tb <= now -> lastCheck (refill tb now) = now.
Proof.
  intros H. unfold refill. case_decide as He; [|done].
  unfold Sub, min_int64, max_int64 in He. lia.
Qed.

Lemma refill_fields tb now : rate (refill tb now) = rate tb /\ max_ (refill tb now) = max_ tb.
Proof. unfold refill. by case_decide. Qed.

(** ** How many requests pass *)

(** The calls of one device in one workspace, at the given times. *)
Fixpoint consume_all (rl : RateLimiter) (d w : string) (limit : Z) (times : list Z) : RateLimiter * Z :=
  match times with
  | [] => (rl, 0)
  | now :: times =>
      let '(rl1, (ok, _, _)) := RateLimiter_Consume now rl d w limit in
      let '(rl2, n) := consume_all rl1 d w limit times in
      (rl2, (if ok then 1 else 0) + n)
  end.

Section bound.
Context (d w : string) (limit : Z) (Hlimit : 0 < limit).

Abbreviation key := (rateLimitKey d w).

(** One call: the bucket is well formed, its clock is [now], and the potential
    paid for the request if it passed. *)
Lemma Consume_step now rl tb :
  bucket_ok limit tb -> lastCheck tb <= now ->
  (rl !! key = Some tb \/ (rl !! key = None /\ tb = getBucket now rl key limit)) ->
  exists rl' tb' ok x y, RateLimiter_Consume now rl d w limit = (rl', (ok, x, y)) /\
    rl' !! key = Some tb' /\ bucket_ok limit tb' /\ lastCheck tb' = now /\
    potential tb' + (if ok : bool then tokenUnit else 0) <= potential (refill tb now).
Proof.
  intros Hok Hlast Htb. unfold RateLimiter_Consume. rewrite decide_False by lia.
  assert (getBucket now rl key limit = tb) as ->.
  { destruct Htb as [H|[_ H]]; [unfold getBucket; by rewrite H | done]. }
  pose proof (refill_ok limit tb now Hlimit Hok) as Hr.
  pose proof (refill_lastCheck tb now Hlast) as Hc.
  case_decide.
  - do 5 eexists. split; [done|]. rewrite lookup_insert_eq. split_and!; [done|done|done|lia].
  - do 5 eexists. split; [done|]. rewrite lookup_insert_eq.
    split_and!; try done; [by apply takeToken_ok; [|lia]|].
    unfold potential; cbn [tokens takeToken lastCheck rate max_]; lia.
Qed.

Lemma consume_all_potential times rl tb last :
  rl !! key = Some tb -> bucket_ok limit tb ->
  Sorted Z.le (lastCheck tb :: times) -> list.last (lastCheck tb :: times) = Some last ->
  (consume_all rl d w limit times).2 * tokenUnit <= potential tb + last * limit.
Proof.
  revert rl tb. induction times as [|now times IH]; intros rl tb Hrl Hok Hs Hlast.
  { simpl in *. simplify_eq. destruct Hok as (? & ? & Hr). unfold potential. rewrite Hr. lia. }
  apply Sorted_inv in Hs as [Hs Hh]. apply HdRel_inv in Hh.
  destruct (Consume_step now rl tb Hok Hh (or_introl Hrl))
    as (rl' & tb' & ok & x & y & HC & Hrl' & Hok' & Hc' & Hp).
  simpl. rewrite HC. destruct (consume_all rl' d w limit times) as [rl2 n] eqn:Hn.
  pose proof (IH rl' tb' Hrl' Hok') as IH'. rewrite Hn in IH'. simpl in *.
  rewrite Hc' in IH'. specialize (IH' Hs Hlast).
  pose proof (refill_potential tb now). destruct Hok as (_ & _ & Hr). rewrite Hr in *.
  destruct ok; lia.
Qed.

(** The first call of a block sees at most a full bucket. *)
Lemma consume_all_block first times rl last :
  (forall tb, rl !! key = Some tb -> bucket_ok limit tb /\ lastCheck tb <= first) ->
  Sorted Z.le (first :: times) -> list.last (first :: times) = Some last ->
  (consume_all rl d w limit (first :: times)).2 * tokenUnit <= limit * tokenUnit + (last - first) * limit.
Proof.
  intros Hrl Hs Hlast. set (tb := getBucket first rl key limit).
  assert (bucket_ok limit tb) as Hok by (apply getBucket_ok; [done | intros ? E; by destruct (Hrl _ E)]).
  assert (lastCheck tb <= first) as Hc.
  { unfold tb, getBucket. destruct (rl !! key) eqn:E; simpl; [by apply Hrl | lia]. }
  destruct (Consume_step first rl tb Hok Hc) as (rl' & tb' & ok & x & y & HC & Hrl' & Hok' & Hc' & Hp).
  { unfold tb, getBucket. destruct (rl !! key) eqn:E; auto. }
  cbn [consume_all]. rewrite HC.
  destruct (consume_all rl' d w limit times) as [rl2 n] eqn:Hn.
  pose proof (consume_all_potential times rl' tb' last Hrl' Hok') as Hb.
  rewrite Hn, Hc' in Hb. specialize (Hb Hs Hlast). simpl in *.
  pose proof (refill_ok limit tb first Hlimit Hok) as (Ht & Hm & Hr).
  pose proof (refill_lastCheck tb first Hc) as Hl.
  assert (potential (refill tb first) <= limit * tokenUnit - first * limit).
  { unfold potential. rewrite Hl, Hr. lia. }
  destruct ok; lia.
Qed.

Lemma consume_all_app rl times times' :
  consume_all rl d w limit (times ++ times') =
    let '(rl1, n) := consume_all rl d w limit times in
    let '(rl2, m) := consume_all rl1 d w limit times' in (rl2, n + m).
Proof.
  revert rl. induction times as [|t times IH]; intros rl; simpl.
  { by destruct (consume_all rl d w limit times'). }
  destruct (RateLimiter_Consume t rl d w limit) as [rl1 [[ok x] y]]. rewrite IH.
  destruct (consume_all rl1 d w limit times) as [rl2 n].
  destruct (consume_all rl2 d w limit times') as [rl3 m]. f_equal. lia.
Qed.

(** After any sorted sequence of calls the bucket is well formed and its clock
    is the time of the last call. *)
Lemma consume_all_ok times rl t0 :
  (forall tb, rl !! key = Some tb -> bucket_ok limit tb /\ lastCheck tb <= t0) ->
  Sorted Z.le (t0 :: times) ->
  forall tb, (consume_all rl d w limit times).1 !! key = Some tb ->
    bucket_ok limit tb /\ lastCheck tb <= default t0 (list.last times).
Proof.
  revert rl t0. induction times as [|now times IH]; intros rl t0 Hrl Hs; [done|].
  apply Sorted_inv in Hs as [Hs Hh]. apply HdRel_inv in Hh.
  set (tb := getBucket now rl key limit).
  assert (bucket_ok limit tb) as Hok by (apply getBucket_ok; [done | intros ? E; by destruct (Hrl _ E)]).
  destruct (Consume_step now rl tb Hok) as (rl' & tb' & ok & x & y & HC & Hrl' & Hok' & Hc' & _).
  { unfold tb, getBucket. destruct (rl !! key) eqn:E; simpl; [|lia].
    destruct (Hrl t eq_refl). lia. }
  { unfold tb, getBucket. destruct (rl !! key) eqn:E; auto. }
  cbn [consume_all]. rewrite HC. destruct (consume_all rl' d w limit times) as [rl2 n] eqn:Hn.
  simpl. intros tb2 Htb2.
  assert (forall tb3, rl' !! key = Some tb3 -> bucket_ok limit tb3 /\ lastCheck tb3 <= now) as Hrl2.
  { intros tb3 Htb3. simplify_eq. split; [done|lia]. }
  destruct (IH rl' now Hrl2 Hs tb2) as [H1 H2]; [by rewrite Hn|].
  split; [done|]. rewrite last_cons. by destruct (list.last times).
Qed.

End bound.

(** The token bucket limits bursts in every window.  Take any sequence of
    requests of a device at non-decreasing times and any consecutive block of
    it, from time [first] to time [last]: the number of requests of the block
    that are allowed is at most the limit per minute times one plus the
    duration of the block in minutes, however the requests before the block
    were spaced. *)
Lemma rate_limit_window_bound (d w : string) (limit : Z) (earlier block : list Z) (first last : Z)
    (Hlimit : 0 < limit) (Hsorted : Sorted Z.le (earlier ++ first :: block))
    (Hlast : list.last (first :: block) = Some last) :
  let rl := (consume_all NewRateLimiter d w limit earlier).1 in
  (consume_all rl d w limit (first :: block)).2 * Minute <= limit * (Minute + (last - first)).
Proof.
  simpl. change Minute with tokenUnit.
  assert (Sorted Z.le (first :: block)) as Hs.
  { clear Hlast. induction earlier as [|t l IH]; [done|]. apply IH. by apply Sorted_inv in Hsorted as [? _]. }
  set (rl := (consume_all NewRateLimiter d w limit earlier).1).
  enough (forall tb, rl !! rateLimitKey d w = Some tb -> bucket_ok limit tb /\ lastCheck tb <= first) as Hrl.
  { pose proof (consume_all_block d w limit Hlimit first block rl last Hrl Hs Hlast) as Hb.
    rewrite Z.mul_add_distr_l, (Z.mul_comm limit (last - first)). exact Hb. }
  apply Sorted_StronglySorted in Hsorted; [|intros ???; lia].
  destruct earlier as [|t0 l]; [by intros tb H|].
  assert (Sorted Z.le (t0 :: t0 :: l)) as Hs0.
  { apply StronglySorted_app in Hsorted as (_ & Hl & _). apply StronglySorted_Sorted in Hl.
    constructor; [done|]. by constructor. }
  intros tb Htb.
  destruct (consume_all_ok d w limit Hlimit (t0 :: l) NewRateLimiter t0) with (tb := tb) as [Hb Hc]; [|done|done|].
  { by intros ? H. }
  split; [done|]. etrans; [exact Hc|].
  destruct (list.last (t0 :: l)) as [x|] eqn:Hx; [simpl|by apply last_None in Hx].
  apply last_Some in Hx as [l' Hl']. rewrite Hl' in Hsorted.
  apply StronglySorted_app in Hsorted as (Hle & _). apply Hle; [|left].
  apply elem_of_app. right. left.
Qed.

(** ** The bound is reached *)

Lemma Consume_pass now rl d w limit tb n :
  0 < limit -> rl !! rateLimitKey d w = Some tb -> lastCheck tb = now -> tokens tb = n * tokenUnit -> 0 < n ->
  exists rl' y, RateLimiter_Consume now rl d w limit = (rl', (true, n - 1, y)) /\
    rl' !! rateLimitKey d w = Some (takeToken tb).
Proof.
  intros Hl Hrl Hc Ht Hn. unfold RateLimiter_Consume. rewrite decide_False by lia.
  assert (refill (getBucket now rl (rateLimitKey d w) limit) now = tb) as ->.
  { unfold getBucket. rewrite Hrl. simpl. unfold refill. rewrite decide_True; [done|].
    unfold Sub, min_int64, max_int64. lia. }
  pose proof tokenUnit_pos. rewrite decide_False by nia.
  eexists _, _. split; [|by rewrite lookup_insert_eq].
  repeat f_equal. unfold takeToken; cbn [tokens].
  replace (tokens tb - tokenUnit) with ((n - 1) * tokenUnit) by lia. by rewrite Z.quot_mul.
Qed.

(** A burst of as many requests as the bucket holds tokens. *)
Lemma consume_all_burst d w limit now n rl tb :
  0 < limit -> rl !! rateLimitKey d w = Some tb -> lastCheck tb = now ->
  tokens tb = Z.of_nat n * tokenUnit ->
  exists rl' tb', consume_all rl d w limit (replicate n now) = (rl', Z.of_nat n) /\
    rl' !! rateLimitKey d w = Some tb' /\ tokens tb' = 0 /\ lastCheck tb' = now /\
    max_ tb' = max_ tb /\ rate tb' = rate tb.
Proof.
  intros Hl. revert rl tb. induction n as [|n IH]; intros rl tb Hrl Hc Ht.
  { exists rl, tb. by split_and!; [| |lia|..]. }
  destruct (Consume_pass now rl d w limit tb (Z.of_nat (S n))) as (rl1 & y & HC & Hrl1); [done..|lia|].
  destruct (IH rl1 (takeToken tb) Hrl1) as (rl2 & tb2 & Hall & Hrl2 & Ht2 & Hc2 & Hm2 & Hr2);
    [done|unfold takeToken; cbn [tokens]; lia|].
  exists rl2, tb2. cbn [consume_all replicate]. rewrite HC, Hall.
  split_and!; [f_equal; lia|done..].
Qed.

(** Priming a call with the bucket it creates or refills changes nothing. *)
Lemma Consume_primed now rl d w limit tb :
  refill (getBucket now rl (rateLimitKey d w) limit) now = tb ->
  lastCheck tb = now ->
  RateLimiter_Consume now (<[rateLimitKey d w := tb]> rl) d w limit =
    if decide (limit <= 0) then (<[rateLimitKey d w := tb]> rl, (true, 0, 0))
    else RateLimiter_Consume now rl d w limit.
Proof.
  intros Htb Hc. unfold RateLimiter_Consume. case_decide; [done|]. rewrite Htb.
  assert (refill (getBucket now (<[rateLimitKey d w:=tb]> rl) (rateLimitKey d w) limit) now = tb) as ->.
  { unfold getBucket. rewrite lookup_insert_eq. simpl. unfold refill. rewrite decide_True; [done|].
    unfold Sub, min_int64, max_int64. lia. }
  case_decide; by rewrite insert_insert_eq.
Qed.

Lemma consume_all_primed now rl d w limit tb times :
  0 < limit -> refill (getBucket now rl (rateLimitKey d w) limit) now = tb -> lastCheck tb = now ->
  consume_all (<[rateLimitKey d w := tb]> rl) d w limit (now :: times) =
    consume_all rl d w limit (now :: times).
Proof.
  intros Hl Htb Hc. cbn [consume_all]. rewrite (Consume_primed _ _ _ _ _ tb) by done.
  by rewrite decide_False by lia.
Qed.

(** The limit is not a limit per sixty seconds.  A device with a limit of
    [n] requests per minute that sends [n] requests at once and [n] more one
    minute later has all [2 n] of them allowed, inside a window of sixty
    seconds. *)
Theorem rate_limit_double_burst (d w : string) (n : nat) (now : Z) (Hn : (0 < n)%nat) :
  (consume_all NewRateLimiter d w (Z.of_nat n) (replicate n now ++ replicate n (now + Minute))).2
    = 2 * Z.of_nat n.
Proof.
  assert (0 < Z.of_nat n) as Hl by lia. pose proof tokenUnit_pos as Hu.
  set (L := Z.of_nat n) in *. set (key := rateLimitKey d w).
  set (tb0 := mkBucket (L * tokenUnit) (L * tokenUnit) L now).
  assert (refill (getBucket now NewRateLimiter key L) now = tb0) as H0.
  { change (getBucket now NewRateLimiter key L) with tb0. unfold refill. rewrite decide_True; [done|].
    unfold Sub, min_int64, max_int64; simpl. lia. }
  rewrite consume_all_app.
  destruct (consume_all_burst d w L now n (<[key := tb0]> NewRateLimiter) tb0 Hl)
    as (rl1 & tb1 & Hall1 & Hrl1 & Ht1 & Hc1 & Hm1 & Hr1); [apply lookup_insert_eq|done..|].
  destruct n as [|k]; [lia|]. cbn [replicate] in Hall1 |- *.
  rewrite (consume_all_primed now _ d w L tb0) in Hall1 by done. rewrite Hall1.
  set (later := now + Minute). set (tb2 := mkBucket (L * tokenUnit) (L * tokenUnit) L later).
  assert (refill (getBucket later rl1 key L) later = tb2) as H2.
  { unfold getBucket, key. rewrite Hrl1. simpl. unfold refill. rewrite Hc1, Ht1, Hm1, Hr1.
    assert (Sub later now = Minute) as ->.
    { unfold later, Sub, min_int64, max_int64, Minute, Second, Millisecond. lia. }
    rewrite decide_False by (unfold Minute, Second, Millisecond; lia).
    unfold tb2, tb0; cbn [max_ rate]. f_equal. unfold tokenUnit. rewrite Z.mul_comm. lia. }
  destruct (consume_all_burst d w L later (S k) (<[key := tb2]> rl1) tb2 Hl)
    as (rl3 & tb3 & Hall3 & _); [apply lookup_insert_eq|done..|].
  cbn [replicate] in Hall3. rewrite (consume_all_primed later _ d w L tb2) in Hall3 by done.
  rewrite Hall3. simpl. unfold L. lia.
Qed.

Lemma rate_limit_double_burst_witness :
  (consume_all NewRateLimiter "d" "w" 5 (replicate 5 Second ++ replicate 5 (Second + Minute))).2 = 10.
Proof. exact (rate_limit_double_burst "d" "w" 5 Second ltac:(lia)). Defined.
