(* ===== verification/Access.v ===== *)
(** * Access control (src/internal/core/multidevice/access_control.go)

    The seven-step permission chain over the link store, the policy store and
    the rate limiter.  The time zone database of the system is a parameter:
    [localOffset t] is the offset of local time from UTC at the instant [t], and
    [LoadLocation name] the offsets of a named zone, if there is one. *)

From Stdlib Require Import ZArith Lia String Ascii.
From stdpp Require Import base option list gmap strings fin_maps pretty sorting.
From S2P Require Import Prelude Events Links RateLimit.

Open Scope Z_scope.

(** ** Formatting times *)

Definition Day : Z := 24 * 60 * Minute.

Definition digit (n : Z) : string := String (ascii_of_nat (Z.to_nat (48 + n))) "".

(** A number below 100 in two digits. *)
Definition twoDigits (n : Z) : string := digit (n / 10) +:+ digit (n mod 10).

(** The minute of the day of a wall-clock reading. *)
Definition minuteOfDay (t : Z) : Z := (t mod Day) / Minute.

(** [hh:mm] of a minute of the day. *)
Definition clock (m : Z) : string := twoDigits (m / 60) +:+ ":" +:+ twoDigits (m mod 60).

(** [t.Format("15:04")]. *)
Definition Format_15_04 (t : Z) : string := clock (minuteOfDay t).

(** [t.Weekday()]: Sunday is 0; the zero time is a Monday. *)
Definition Weekday (t : Z) : Z := (t / Day + 1) mod 7.

(** [d.Round(time.Second)] and its [String()], for [d >= 0]. *)
Definition roundSeconds (d : Z) : Z := (d + Second / 2) / Second.

Definition durationString (s : Z) : string :=
  let sec := pretty (s mod 60) +:+ "s" in
  let min := pretty (s / 60 mod 60) +:+ "m" +:+ sec in
  if decide (s < 60) then sec
  else if decide (s < 3600) then min
  else pretty (s / 3600) +:+ "h" +:+ min.

(** ** Denials *)

Record AccessDeniedError : Type := mkDenied {
  ad_DeviceID : string;
  ad_WorkspaceID : string;
  ad_Action : string;
  ad_Resource : string;
  ad_Reason : string;
  ad_Step : string;
  ad_Suggestion : string;
  ad_RetryAfter : Z
}.

Definition AccessDeniedError_Error (e : AccessDeniedError) : string :=
  let msg := "access denied: device=" +:+ ad_DeviceID e +:+ " workspace=" +:+ ad_WorkspaceID e
               +:+ " action=" +:+ ad_Action e in
  let msg := if decide (ad_Resource e = "") then msg else msg +:+ " resource=" +:+ ad_Resource e in
  let msg := msg +:+ " reason=" +:+ ad_Reason e +:+ " (step: " +:+ ad_Step e +:+ ")" in
  if decide (ad_Suggestion e = "") then msg else msg +:+ " suggestion=" +:+ ad_Suggestion e.

(** ** Roles and schedules *)

Definition lacks (perms : DevicePermissions) (action : string) : string :=
  "role '" +:+ Role perms +:+ "' does not have " +:+ action +:+ " permission".

(** [None] is the nil error. *)
Definition checkRolePermission (perms : DevicePermissions) (action : string) : option string :=
  if decide (action = "read") then if CanRead perms then None else Some (lacks perms "read")
  else if decide (action = "write") then if CanWrite perms then None else Some (lacks perms "write")
  else if decide (action = "execute") then if CanExecute perms then None else Some (lacks perms "execute")
  else if decide (action = "manage") then if CanManage perms then None else Some (lacks perms "manage")
  else if decide (action = "sync") then if CanSync perms then None else Some (lacks perms "sync")
  else None.

Record Zones : Type := mkZones {
  localOffset : Z -> Z;
  LoadLocation : string -> option (Z -> Z)
}.

(** The reading of the clock in the zone of the schedule. *)
Definition scheduleNow (z : Zones) (now : Z) (schedule : AccessSchedule) : Z :=
  if decide (Timezone schedule = "") then now + localOffset z now
  else match LoadLocation z (Timezone schedule) with
       | Some offset => now + offset now
       | None => now + localOffset z now
       end.

Definition isWithinSchedule (z : Zones) (now : Z) (schedule : AccessSchedule) : bool :=
  let now := scheduleNow z now schedule in
  let ourDay := (Weekday now + 6) mod 7 in
  if negb (bool_decide (DaysOfWeek schedule = [])) && negb (bool_decide (ourDay ∈ DaysOfWeek schedule))
  then false
  else if negb (bool_decide (StartTime schedule = "")) && negb (bool_decide (EndTime schedule = ""))
  then let currentTime := Format_15_04 now in
       if str_ltb currentTime (StartTime schedule) || negb (str_ltb currentTime (EndTime schedule))
       then false else true
  else true.

(** ** The chain *)

(** The two stores, the zones and the clock a call reads. *)
Record AccessEnv : Type := mkAccessEnv {
  ae_links : LinkStore;
  ae_policies : PolicyStore;
  ae_zones : Zones;
  ae_now : Z
}.

(** The schedule, when the current time is outside it. *)
Definition outsideSchedule (env : AccessEnv) (schedule : AccessSchedule) : option AccessSchedule :=
  if isWithinSchedule (ae_zones env) (ae_now env) schedule then None else Some schedule.

(** The result [None] is the nil error: access is granted. *)
Definition EvaluatePermission (env : AccessEnv) (rl : RateLimiter)
    (workspaceID deviceID action resource : string) : RateLimiter * option AccessDeniedError :=
  let deny step reason suggestion retry :=
    Some (mkDenied deviceID workspaceID action resource reason step suggestion retry) in
  match Linker_GetLink (ae_links env) workspaceID deviceID with
  | Err _ => (rl, deny "link_existence" "device is not linked to this workspace"
                    ("link the device first: aps workspace device attach " +:+ deviceID) 0)
  | Ok link =>
  if decide (lk_Status link = PresenceUnlinked) then
    (rl, deny "link_status" "device has been unlinked from this workspace"
           "re-link the device to restore access" 0) else
  if match LoadPolicy (ae_policies env) workspaceID with
     | Ok policy => negb (IsDeviceAllowed policy deviceID)
     | Err _ => false
     end then
    (rl, deny "policy" "device is not allowed by workspace policy"
           "contact the workspace owner to update the access policy" 0) else
  let perms := lk_Permissions link in
  match checkRolePermission perms action with
  | Some err => (rl, deny "role_permission" err
                       ("current role is '" +:+ Role perms
                          +:+ "'; request a role upgrade from the workspace owner") 0)
  | None =>
  if bool_decide (action ∈ DeniedActions perms) then
    (rl, deny "denied_actions" "action is explicitly denied"
           "contact the workspace owner to remove this action from the deny list" 0) else
  if negb (bool_decide (AllowedActions perms = [])) && negb (bool_decide (action ∈ AllowedActions perms)) then
    (rl, deny "allowed_actions" "action is not in the allowed actions list"
           "contact the workspace owner to add this action to the allow list" 0) else
  match AccessSchedule_ perms ≫= outsideSchedule env with
  | Some schedule =>
      (rl, deny "access_schedule"
             ("outside access schedule (" +:+ StartTime schedule +:+ "-" +:+ EndTime schedule +:+ ")")
             ("try again during allowed hours: " +:+ StartTime schedule +:+ "-" +:+ EndTime schedule) 0)
  | None =>
  if decide (RateLimitPerMin perms > 0) then
    match RateLimiter_Consume (ae_now env) rl deviceID workspaceID (RateLimitPerMin perms) with
    | (rl', (true, _, _)) => (rl', None)
    | (rl', (false, _, retryAfter)) =>
        (rl', deny "rate_limit" "rate limit exceeded"
                ("try again in " +:+ durationString (roundSeconds retryAfter)) retryAfter)
    end
  else (rl, None)
  end end end.

(** ** Clock readings as strings *)

Lemma str_compare_app a b c d :
  String.length a = String.length b ->
  String.compare (a +:+ c) (b +:+ d) =
    match String.compare a b with Eq => String.compare c d | o => o end.
Proof.
  revert b. induction a as [|x a IH]; intros [|y b]; simpl; try done.
  intros [= Hl]. rewrite IH by done. by destruct (Ascii.compare x y).
Qed.

Lemma twoDigits_compare x y :
  0 <= x < 100 -> 0 <= y < 100 -> String.compare (twoDigits x) (twoDigits y) = Z.compare x y.
Proof.
  set (check := fun a b => bool_decide (String.compare (twoDigits a) (twoDigits b) = Z.compare a b)).
  assert (forallb (fun a => forallb (check a) (seqZ 0 100)) (seqZ 0 100) = true) as Hall
    by (vm_compute; reflexivity).
  intros Hx Hy. rewrite forallb_forall in Hall.
  assert (forall z, 0 <= z < 100 -> In z (seqZ 0 100)) as Hin.
  { intros z Hz. apply list_elem_of_In, elem_of_seqZ. lia. }
  specialize (Hall x (Hin x Hx)). rewrite forallb_forall in Hall.
  specialize (Hall y (Hin y Hy)). by apply bool_decide_eq_true in Hall.
Qed.

Lemma twoDigits_length x : String.length (twoDigits x) = 2%nat.
Proof. done. Qed.

(** Comparing [hh:mm] strings is comparing minutes of the day. *)
Lemma clock_compare m m' :
  0 <= m < 1440 -> 0 <= m' < 1440 -> String.compare (clock m) (clock m') = Z.compare m m'.
Proof.
  intros Hm Hm'. unfold clock.
  pose proof (Z.div_mod m 60 ltac:(lia)). pose proof (Z.div_mod m' 60 ltac:(lia)).
  pose proof (Z.mod_pos_bound m 60 ltac:(lia)). pose proof (Z.mod_pos_bound m' 60 ltac:(lia)).
  rewrite !str_compare_app, !twoDigits_compare by (done || lia). simpl.
  destruct (Z.compare_spec (m / 60) (m' / 60));
    destruct (Z.compare_spec (m mod 60) (m' mod 60)); symmetry;
    rewrite ?Z.compare_eq_iff, ?Z.compare_lt_iff, ?Z.compare_gt_iff; lia.
Qed.

Lemma str_ltb_clock m m' :
  0 <= m < 1440 -> 0 <= m' < 1440 -> str_ltb (clock m) (clock m') = (m <? m').
Proof.
  intros Hm Hm'. unfold str_ltb, String.ltb, Z.ltb. by rewrite clock_compare.
Qed.

Lemma clock_nonempty m : clock m <> "".
Proof. done. Qed.

Lemma minuteOfDay_range t : 0 <= minuteOfDay t < 1440.
Proof.
  unfold minuteOfDay. pose proof (Z.mod_pos_bound t Day ltac:(done)) as H.
  split; [apply Z.div_pos; [lia|done]|]. apply Z.div_lt_upper_bound; [done|]. exact (proj2 H).
Qed.

Lemma ourDay_eq t : (Weekday t + 6) mod 7 = (t / Day) mod 7.
Proof.
  unfold Weekday. rewrite Zplus_mod_idemp_l.
  replace (t / Day + 1 + 6) with (t / Day + 1 * 7) by lia. by rewrite Z.mod_add.
Qed.

(** What a schedule admits.  With [hh:mm] bounds of minutes [s] and [e], a
    schedule admits the wall-clock time [t] of its zone exactly when the day
    (0 is Monday) is listed, or none is, and the minute of the day is in
    [s <= m < e].  A window that would cross midnight ([e <= s]) admits nothing. *)
Theorem schedule_is_clock_window (z : Zones) (now s e : Z) (days : list Z) (tz : string)
    (Hs : 0 <= s < 1440) (He : 0 <= e < 1440) :
  let schedule := mkSchedule (clock s) (clock e) days tz in
  let t := scheduleNow z now schedule in
  (isWithinSchedule z now schedule = true <->
     (days = [] \/ (t / Day) mod 7 ∈ days) /\ s <= minuteOfDay t < e) /\
  (e <= s -> isWithinSchedule z now schedule = false).
Proof.
  intros schedule t.
  enough (isWithinSchedule z now schedule = true <->
            (days = [] \/ (t / Day) mod 7 ∈ days) /\ s <= minuteOfDay t < e) as Hiff.
  { split; [done|]. intros Hse. apply not_true_is_false. rewrite Hiff. lia. }
  unfold isWithinSchedule. fold t. cbn [DaysOfWeek StartTime EndTime schedule].
  rewrite ourDay_eq. unfold Format_15_04.
  pose proof (minuteOfDay_range t) as Hm. rewrite !str_ltb_clock by done.
  rewrite !(bool_decide_false (clock _ = _)) by apply clock_nonempty.
  repeat case_bool_decide; simpl;
    destruct (Z.ltb_spec (minuteOfDay t) s), (Z.ltb_spec (minuteOfDay t) e); simpl;
    (split; [intros ?|intros [[?|?] ?]]; try done; try lia; auto).
Qed.

Lemma schedule_is_clock_window_witness :
  isWithinSchedule (mkZones (fun _ => 0) (fun _ => None)) (Day + 600 * Minute)
    (mkSchedule (clock 540) (clock 1020) [0; 1; 2; 3; 4] "") = true.
Proof.
  apply (schedule_is_clock_window (mkZones (fun _ => 0) (fun _ => None)) (Day + 600 * Minute)
           540 1020 [0; 1; 2; 3; 4] "" ltac:(lia) ltac:(lia)).
  split; [right; vm_compute; right; left | vm_compute; split; congruence].
Defined.

(** ** The chain, declaratively *)

Definition role_grants (perms : DevicePermissions) (action : string) : Prop :=
  (action = "read" -> CanRead perms = true) /\ (action = "write" -> CanWrite perms = true) /\
  (action = "execute" -> CanExecute perms = true) /\ (action = "manage" -> CanManage perms = true) /\
  (action = "sync" -> CanSync perms = true).

(** Steps 1 to 6 let the request through, for this link. *)
Definition rules_pass (env : AccessEnv) (workspaceID deviceID action : string)
    (link : WorkspaceDeviceLink) : Prop :=
  let perms := lk_Permissions link in
  (LoadLink (ae_links env) workspaceID deviceID = Ok link) /\
  lk_Status link <> PresenceUnlinked /\
  (forall p, LoadPolicy (ae_policies env) workspaceID = Ok p -> IsDeviceAllowed p deviceID = true) /\
  role_grants perms action /\
  (action ∉ DeniedActions perms) /\
  (AllowedActions perms = [] \/ action ∈ AllowedActions perms) /\
  (forall s, AccessSchedule_ perms = Some s -> isWithinSchedule (ae_zones env) (ae_now env) s = true).

(** Step 7 alone. *)
Definition rate_step (env : AccessEnv) (rl : RateLimiter) (workspaceID deviceID : string)
    (perms : DevicePermissions) : RateLimiter * bool :=
  if decide (RateLimitPerMin perms > 0)
  then let r := RateLimiter_Consume (ae_now env) rl deviceID workspaceID (RateLimitPerMin perms) in
       (r.1, r.2.1.1)
  else (rl, true).

Lemma checkRolePermission_None perms action :
  checkRolePermission perms action = None <-> role_grants perms action.
Proof.
  unfold checkRolePermission, role_grants. split.
  - intros H. split_and!; intros ->; simpl in H; by case_match.
  - intros (H1 & H2 & H3 & H4 & H5).
    repeat (case_decide; [by first [rewrite H1 by done | rewrite H2 by done | rewrite H3 by done
                                   | rewrite H4 by done | rewrite H5 by done]|]). done.
Qed.

(** The result of the chain, on every branch. *)
Lemma EvaluatePermission_cases env rl ws dev action res :
  (exists link, rules_pass env ws dev action link /\
     exists r, EvaluatePermission env rl ws dev action res
               = ((rate_step env rl ws dev (lk_Permissions link)).1, r) /\
       (r = None <-> (rate_step env rl ws dev (lk_Permissions link)).2 = true) /\
       (forall e, r = Some e -> ad_Step e = "rate_limit")) \/
  (~ (exists link, rules_pass env ws dev action link) /\
   exists e, EvaluatePermission env rl ws dev action res = (rl, Some e) /\
     ad_Step e <> "rate_limit" /\ ad_RetryAfter e = 0).
Proof.
  unfold EvaluatePermission, Linker_GetLink, rules_pass.
  destruct (LoadLink (ae_links env) ws dev) as [link|] eqn:Hlink;
    [|right; split; [by intros (l & ? & _) | eauto]].
  assert (forall P : WorkspaceDeviceLink -> Prop, ~ P link ->
            ~ exists l, (Ok link : Res LinkErr _) = Ok l /\ P l) as Hno
    by (intros P HP (l & [= <-] & ?); done).
  case_decide as Hstatus.
  { right. split; [|by eexists]. apply Hno. intros (H & _). done. }
  case_match eqn:Hpol.
  { right. split; [|by eexists]. apply Hno. intros (_ & Hp & _).
    destruct (LoadPolicy _ _) as [p|] eqn:E; [|done]. rewrite (Hp p eq_refl) in Hpol. done. }
  destruct (checkRolePermission _ _) eqn:Hrole.
  { right. split; [|by eexists]. apply Hno. intros (_ & _ & Hg & _).
    apply checkRolePermission_None in Hg. congruence. }
  apply checkRolePermission_None in Hrole.
  case_bool_decide as Hden.
  { right. split; [|by eexists]. apply Hno. intros (_ & _ & _ & H & _). done. }
  destruct (negb _ && negb _) eqn:Hall.
  { right. split; [|by eexists]. apply Hno. intros (_ & _ & _ & _ & H & _).
    revert Hall. repeat case_bool_decide; simpl; try done. by destruct H. }
  destruct (AccessSchedule_ (lk_Permissions link) ≫= outsideSchedule env) as [sch|] eqn:Hsch.
  { right. split; [|by eexists]. apply Hno. intros (_ & _ & _ & _ & _ & H).
    destruct (AccessSchedule_ _) as [s'|] eqn:E; [|done]. simpl in Hsch. unfold outsideSchedule in Hsch.
    by rewrite (H s' eq_refl) in Hsch. }
  left. exists link. split.
  - split_and!; try done.
    + intros p Hp. rewrite Hp in Hpol. by apply negb_false_iff.
    + revert Hall. repeat case_bool_decide; simpl; auto. done.
    + intros s Hs. rewrite Hs in Hsch. simpl in Hsch. unfold outsideSchedule in Hsch. by case_match.
  - unfold rate_step. destruct (decide (RateLimitPerMin _ > 0)); [|by exists None].
    destruct (RateLimiter_Consume _ _ _ _ _) as [rl' [[[] x] y]]; simpl; eexists; split_and!; try done.
    by intros e [= <-].
Qed.

(** the permission chain grants exactly what its rules allow.  A request is
    granted iff the device has a readable link that is not unlinked, a readable
    policy of the workspace (if any) admits the device, the role permits the
    action when it is one of the five known ones, the action is not denied and
    is in a non-empty allow list, the schedule admits the time, and the rate
    limiter has a token.  A token is taken only by requests that pass all the
    other steps: any denial of an earlier step leaves the limiter unchanged. *)
Theorem access_granted_iff (env : AccessEnv) (rl : RateLimiter) (ws dev action res : string) :
  ((EvaluatePermission env rl ws dev action res).2 = None <->
     exists link, rules_pass env ws dev action link /\
       (rate_step env rl ws dev (lk_Permissions link)).2 = true) /\
  (forall e, (EvaluatePermission env rl ws dev action res).2 = Some e -> ad_Step e <> "rate_limit" ->
     (EvaluatePermission env rl ws dev action res).1 = rl /\ ad_RetryAfter e = 0).
Proof.
  destruct (EvaluatePermission_cases env rl ws dev action res)
    as [(link & Hlink & r & -> & Hr & Hs)|(Hno & e & -> & Hs & Ha)]; simpl.
  - split.
    + rewrite Hr. split; [eauto|]. intros (l & Hl & ?). destruct Hlink as (H1 & _), Hl as (H2 & _).
      rewrite H1 in H2. by injection H2 as <-.
    + intros e He Hn. by apply Hs in He.
  - split; [|intros ? [= <-]; done]. split; [done|]. intros (l & Hl & _). destruct Hno. eauto.
Qed.

(** ** Rate limits over interleaved requests *)

Record Request : Type := mkRequest {
  rq_env : AccessEnv;
  rq_workspace : string;
  rq_device : string;
  rq_action : string;
  rq_resource : string
}.

Definition rq_time (r : Request) : Z := ae_now (rq_env r).

(** The requests one controller serves, in order, with their outcomes. *)
Fixpoint serve (rl : RateLimiter) (reqs : list Request) : RateLimiter * list bool :=
  match reqs with
  | [] => (rl, [])
  | r :: reqs =>
      let '(rl1, denied) := EvaluatePermission (rq_env r) rl (rq_workspace r) (rq_device r)
                              (rq_action r) (rq_resource r) in
      let '(rl2, outs) := serve rl1 reqs in
      (rl2, bool_decide (denied = None) :: outs)
  end.

(** How many requests of a device in a workspace were granted. *)
Fixpoint grants (d w : string) (reqs : list Request) (outs : list bool) : Z :=
  match reqs, outs with
  | r :: reqs, ok :: outs =>
      (if bool_decide (rq_device r = d) && bool_decide (rq_workspace r = w) && ok then 1 else 0)
      + grants d w reqs outs
  | _, _ => 0
  end.

Definition no_colon (s : string) : Prop := ":"%char ∉ String.list_ascii_of_string s.

Lemma rateLimitKey_inj d w d' w' :
  no_colon d -> no_colon d' -> rateLimitKey d w = rateLimitKey d' w' -> d = d' /\ w = w'.
Proof.
  unfold no_colon, rateLimitKey. revert d'.
  induction d as [|a d IH]; intros [|a' d']; simpl; rewrite ?elem_of_cons; intros Hd Hd' Hk;
    [by injection Hk|injection Hk as <- _; tauto|injection Hk as -> _; tauto|].
  injection Hk as -> Hk. by destruct (IH d') as [-> ->]; [tauto..|].
Qed.

Section limited.
Context (d w : string) (limit : Z) (Hlimit : 0 < limit) (Hd : no_colon d).

Abbreviation key := (rateLimitKey d w).

(** A request whose device id has no colon and whose link, if it is one of [d]
    in [w], carries the limit. *)
Definition limited_request (r : Request) : Prop :=
  no_colon (rq_device r) /\
  (rq_device r = d -> rq_workspace r = w ->
   forall link, LoadLink (ae_links (rq_env r)) w d = Ok link ->
     RateLimitPerMin (lk_Permissions link) = limit).

Lemma Consume_other now rl d' w' limit' :
  rateLimitKey d' w' <> key -> (RateLimiter_Consume now rl d' w' limit').1 !! key = rl !! key.
Proof.
  intros Hk. unfold RateLimiter_Consume.
  case_decide; [done|]. case_decide; simpl; by rewrite lookup_insert_ne.
Qed.

(** Only the bucket of the key matters. *)
Lemma Consume_local now rl rl' :
  rl !! key = rl' !! key ->
  (RateLimiter_Consume now rl d w limit).1 !! key = (RateLimiter_Consume now rl' d w limit).1 !! key /\
  (RateLimiter_Consume now rl d w limit).2 = (RateLimiter_Consume now rl' d w limit).2.
Proof.
  intros Hk. unfold RateLimiter_Consume, getBucket. rewrite Hk.
  case_decide; [done|]. case_decide; simpl; by rewrite !lookup_insert_eq.
Qed.

(** One request: either it is a call of the limiter for the key, granted when
    the call is, or it leaves the bucket alone and is not a grant of [d] in [w]. *)
Lemma EvaluatePermission_bucket r rl :
  limited_request r ->
  let out := EvaluatePermission (rq_env r) rl (rq_workspace r) (rq_device r) (rq_action r) (rq_resource r) in
  let counted := bool_decide (rq_device r = d) && bool_decide (rq_workspace r = w)
                   && bool_decide (out.2 = None) in
  (out.1 = (RateLimiter_Consume (ae_now (rq_env r)) rl d w limit).1 /\
   counted = (RateLimiter_Consume (ae_now (rq_env r)) rl d w limit).2.1.1) \/
  (out.1 !! key = rl !! key /\ counted = false).
Proof.
  intros (Hc & Hlim). simpl.
  destruct (EvaluatePermission_cases (rq_env r) rl (rq_workspace r) (rq_device r) (rq_action r) (rq_resource r))
    as [(link & Hpass & o & -> & Ho & _)|(_ & e & -> & _)]; simpl.
  2:{ right. split; [done|]. apply andb_false_r. }
  destruct (decide (rq_device r = d /\ rq_workspace r = w)) as [[Hrd Hrw]|Hne].
  - left. destruct Hpass as (Hload & _). rewrite Hrd, Hrw in *.
    specialize (Hlim eq_refl eq_refl link Hload). unfold rate_step in *. rewrite Hlim in *.
    rewrite decide_True in * by lia. simpl in *. split; [done|].
    rewrite !(bool_decide_true (_ = _)) by done. simpl.
    destruct (RateLimiter_Consume _ _ _ _ _) as [? [[[] ?] ?]]; simpl in *.
    + apply bool_decide_true. by apply Ho.
    + apply bool_decide_false. intros ?%Ho. done.
  - right. split.
    + unfold rate_step. case_decide; [|done]. simpl. apply Consume_other.
      intros Hk. apply Hne. by apply rateLimitKey_inj in Hk.
    + case_bool_decide; case_bool_decide; simpl; tauto.
Qed.

(** Serving requests is calling the limiter at the times of some of them. *)
Lemma serve_projects reqs rl rl' :
  Forall limited_request reqs -> rl !! key = rl' !! key ->
  exists ts, ts `sublist_of` (rq_time <$> reqs) /\
    (serve rl reqs).1 !! key = (consume_all rl' d w limit ts).1 !! key /\
    grants d w reqs (serve rl reqs).2 = (consume_all rl' d w limit ts).2.
Proof.
  revert rl rl'. induction reqs as [|r reqs IH]; intros rl rl' Hf Hk.
  { exists []. by split; [constructor|]. }
  apply Forall_cons in Hf as [Hr Hf].
  pose proof (EvaluatePermission_bucket r rl Hr) as Hb. simpl in Hb. cbn [serve].
  destruct (EvaluatePermission _ rl _ _ _ _) as [rl1 den]; simpl in Hb.
  destruct Hb as [[Hb1 Hb2]|[Hb1 Hb2]].
  - pose proof (Consume_local (ae_now (rq_env r)) rl rl' Hk) as [Hk1 Hk2].
    destruct (RateLimiter_Consume (ae_now (rq_env r)) rl' d w limit) as [rl1' [[ok x] y]] eqn:HC.
    destruct (IH rl1 rl1' Hf) as (ts & Hts & Hm & Hg); [by rewrite Hb1, Hk1|].
    exists (ae_now (rq_env r) :: ts). split; [by apply sublist_skip|]. cbn [consume_all]. rewrite HC.
    destruct (serve rl1 reqs) as [rl2 outs], (consume_all rl1' d w limit ts) as [rl2' n].
    simpl in *. split; [done|]. rewrite Hb2, Hg, Hk2. done.
  - destruct (IH rl1 rl' Hf) as (ts & Hts & Hm & Hg); [by rewrite Hb1|].
    exists ts. split; [by apply sublist_cons|].
    destruct (serve rl1 reqs) as [rl2 outs]. simpl in *. rewrite Hb2, Hg. split; [done|lia].
Qed.

End limited.

Lemma StronglySorted_range (a z x : Z) l :
  StronglySorted Z.le (a :: l) -> list.last (a :: l) = Some z -> x ∈ a :: l -> a <= x <= z.
Proof.
  intros Hs Hl Hx. split.
  - apply StronglySorted_inv in Hs as [_ Hf]. rewrite Forall_forall in Hf.
    apply elem_of_cons in Hx as [->|Hx]; [lia|auto].
  - apply last_Some in Hl as [k Hk]. rewrite Hk in Hs, Hx.
    apply StronglySorted_app in Hs as (Hle & _).
    apply elem_of_app in Hx as [Hx|Hx%list_elem_of_singleton]; [apply Hle; [done|left]|lia].
Qed.


Definition witness_zones : Zones := mkZones (fun _ => 0) (fun _ => None).

Definition witness_links : LinkStore :=
  {[ ("w", "d") := Parsed (mkLink "w" "d" 0 "d"
       (mkPermissions RoleViewer true false false false true "" [] [] 2 None) PresenceOnline "" 0);
     ("w", "e") := Parsed (mkLink "w" "e" 0 "e" (PermissionsForRole RoleOwner) PresenceOnline "" 0) ]}.

Definition witness_request (now : Z) (device action : string) : Request :=
  mkRequest (mkAccessEnv witness_links ∅ witness_zones now) "w" device action "".

