(* ===== verification/Presence.v ===== *)
(** * Presence tracking (src/internal/core/multidevice/presence.go, types.go)

    The in-memory tracker of device presence, its timeouts, and a refinement to
    the map of last heartbeats. *)

From Stdlib Require Import ZArith Lia.
From stdpp Require Import base option list gmap strings fin_maps sorting.
From S2P Require Import Prelude Events Links.

Open Scope Z_scope.

Record DevicePresence : Type := mkPresence {
  pr_DeviceID : string;
  pr_WorkspaceID : string;
  pr_State : PresenceState;
  pr_LastHeartbeat : Z;
  pr_LastActivity : Z;
  pr_ClientVersion : string;
  pr_SyncLag : Z;
  pr_OfflineQueue : Z
}.

Definition set_state (p : DevicePresence) (s : PresenceState) : DevicePresence :=
  mkPresence (pr_DeviceID p) (pr_WorkspaceID p) s (pr_LastHeartbeat p) (pr_LastActivity p)
    (pr_ClientVersion p) (pr_SyncLag p) (pr_OfflineQueue p).

Definition set_heartbeat (p : DevicePresence) (now : Z) : DevicePresence :=
  mkPresence (pr_DeviceID p) (pr_WorkspaceID p) (pr_State p) now (pr_LastActivity p)
    (pr_ClientVersion p) (pr_SyncLag p) (pr_OfflineQueue p).

Definition set_activity (p : DevicePresence) (now : Z) : DevicePresence :=
  mkPresence (pr_DeviceID p) (pr_WorkspaceID p) (pr_State p) (pr_LastHeartbeat p) now
    (pr_ClientVersion p) (pr_SyncLag p) (pr_OfflineQueue p).

Record PresenceConfig : Type := mkPresenceConfig {
  HeartbeatInterval : Z;
  AwayTimeout : Z;
  OfflineTimeout : Z
}.

Definition DefaultPresenceConfig : PresenceConfig :=
  mkPresenceConfig (10 * Second) (30 * Second) (120 * Second).

Record PresenceTransition : Type := mkTransition {
  pt_DeviceID : string;
  pt_WorkspaceID : string;
  pt_From : PresenceState;
  pt_To : PresenceState;
  pt_At : Z
}.

(** The presences map; the configuration is an argument where it is used. *)
Abbreviation PresenceTracker := (gmap string DevicePresence).

Definition NewPresenceTracker : PresenceTracker := ∅.

Definition presenceKey (workspaceID deviceID : string) : string := workspaceID +:+ ":" +:+ deviceID.

Inductive PresenceErr : Type :=
  | ErrPresenceDeviceRequired | ErrPresenceWorkspaceRequired
  | ErrNoPresence (deviceID workspaceID : string) | ErrAlreadyInState (deviceID : string) (s : PresenceState).

Definition newPresence (deviceID workspaceID : string) (s : PresenceState) (now : Z) : DevicePresence :=
  mkPresence deviceID workspaceID s now now "" 0 0.

Definition PresenceTracker_RecordHeartbeat (now : Z) (t : PresenceTracker) (deviceID workspaceID : string)
  : PresenceTracker * Res PresenceErr unit :=
  if decide (deviceID = "") then (t, Err ErrPresenceDeviceRequired) else
  if decide (workspaceID = "") then (t, Err ErrPresenceWorkspaceRequired) else
  let key := presenceKey workspaceID deviceID in
  match t !! key with
  | None => (<[key := newPresence deviceID workspaceID PresenceOnline now]> t, Ok tt)
  | Some p =>
      let p := set_heartbeat p now in
      let p := if decide (pr_State p = PresenceAway \/ pr_State p = PresenceOffline)
               then set_state p PresenceOnline else p in
      (<[key := p]> t, Ok tt)
  end.

Definition PresenceTracker_GetPresence (t : PresenceTracker) (deviceID workspaceID : string)
  : Res PresenceErr DevicePresence :=
  match t !! presenceKey workspaceID deviceID with
  | Some p => Ok p
  | None => Err (ErrNoPresence deviceID workspaceID)
  end.

(** [o]: the records in the order the map is ranged over. *)
Definition PresenceTracker_ListPresence (o : list DevicePresence) (workspaceID : string) : list DevicePresence :=
  filter (fun p => pr_WorkspaceID p = workspaceID) o.

Definition PresenceTracker_IsOnline (t : PresenceTracker) (deviceID workspaceID : string) : bool :=
  match t !! presenceKey workspaceID deviceID with
  | Some p => bool_decide (pr_State p = PresenceOnline)
  | None => false
  end.

(** The state a timeout check moves a record to, if it moves it. *)
Definition timeoutTarget (config : PresenceConfig) (now : Z) (p : DevicePresence) : option PresenceState :=
  let elapsed := Sub now (pr_LastHeartbeat p) in
  if decide (pr_State p = PresenceOnline) then
    if decide (elapsed > OfflineTimeout config) then Some PresenceOffline
    else if decide (elapsed > AwayTimeout config) then Some PresenceAway
    else None
  else if decide (pr_State p = PresenceAway) then
    if decide (elapsed > OfflineTimeout config) then Some PresenceOffline else None
  else None.

Definition timeoutTransition (config : PresenceConfig) (now : Z) (p : DevicePresence) : option PresenceTransition :=
  (fun to => mkTransition (pr_DeviceID p) (pr_WorkspaceID p) (pr_State p) to now)
    <$> timeoutTarget config now p.

Definition timeoutUpdate (config : PresenceConfig) (now : Z) (p : DevicePresence) : DevicePresence :=
  match timeoutTarget config now p with Some to => set_state p to | None => p end.

(** Every record is visited once, in the order [o], and updated in place. *)
Definition PresenceTracker_CheckTimeouts (config : PresenceConfig) (now : Z) (o : list DevicePresence)
    (t : PresenceTracker) : PresenceTracker * list PresenceTransition :=
  (timeoutUpdate config now <$> t, omap (timeoutTransition config now) o).

Definition PresenceTracker_TransitionState (now : Z) (t : PresenceTracker) (deviceID workspaceID : string)
    (to : PresenceState) : PresenceTracker * Res PresenceErr PresenceTransition :=
  let key := presenceKey workspaceID deviceID in
  match t !! key with
  | None => (<[key := newPresence deviceID workspaceID to now]> t,
             Ok (mkTransition deviceID workspaceID PresenceOffline to now))
  | Some p =>
      if decide (pr_State p = to) then (t, Err (ErrAlreadyInState deviceID to))
      else (<[key := set_activity (set_state p to) now]> t,
            Ok (mkTransition deviceID workspaceID (pr_State p) to now))
  end.

Definition PresenceTracker_RemovePresence (t : PresenceTracker) (deviceID workspaceID : string) : PresenceTracker :=
  delete (presenceKey workspaceID deviceID) t.

(** ** Refinement to last heartbeats

    Driven by heartbeats, checks and removals only, the tracker is a map from
    devices to the time of their last heartbeat: after a check, the state of a
    device is a function of the time since then. *)

Definition classify (config : PresenceConfig) (elapsed : Z) : PresenceState :=
  if decide (elapsed > OfflineTimeout config) then PresenceOffline
  else if decide (elapsed > AwayTimeout config) then PresenceAway
  else PresenceOnline.

Inductive PresenceOp : Type :=
  | OpHeartbeat (now : Z) (deviceID workspaceID : string)
  | OpCheck (now : Z) (o : list DevicePresence)
  | OpRemove (now : Z) (deviceID workspaceID : string).

Definition op_time (op : PresenceOp) : Z :=
  match op with OpHeartbeat now _ _ | OpCheck now _ | OpRemove now _ _ => now end.

Definition presence_step (config : PresenceConfig) (t : PresenceTracker) (op : PresenceOp) : PresenceTracker :=
  match op with
  | OpHeartbeat now d w => (PresenceTracker_RecordHeartbeat now t d w).1
  | OpCheck now o => (PresenceTracker_CheckTimeouts config now o t).1
  | OpRemove _ d w => PresenceTracker_RemovePresence t d w
  end.

Definition beats_step (m : gmap string Z) (op : PresenceOp) : gmap string Z :=
  match op with
  | OpHeartbeat now d w =>
      if decide (d = "" \/ w = "") then m else <[presenceKey w d := now]> m
  | OpCheck _ _ => m
  | OpRemove _ d w => delete (presenceKey w d) m
  end.

(** A record agrees with its last heartbeat [hb] at time [now]: it is never
    ahead of what the time since the heartbeat warrants. *)
Definition agrees (config : PresenceConfig) (now hb : Z) (p : DevicePresence) : Prop :=
  pr_LastHeartbeat p = hb /\ hb <= now /\
  (pr_State p = PresenceOnline \/
   (pr_State p = PresenceAway /\ Sub now hb > AwayTimeout config) \/
   (pr_State p = PresenceOffline /\ Sub now hb > OfflineTimeout config)).

Definition refines_beats (config : PresenceConfig) (now : Z) (t : PresenceTracker) (m : gmap string Z) : Prop :=
  forall k, match t !! k, m !! k with
            | Some p, Some hb => agrees config now hb p
            | None, None => True
            | _, _ => False
            end.

Lemma Sub_mono_l t t' u : t <= t' -> Sub t u <= Sub t' u.
Proof. unfold Sub. lia. Qed.

Lemma agrees_later config now now' hb p : now <= now' -> agrees config now hb p -> agrees config now' hb p.
Proof.
  intros Hle (Hh & Hb & Hs). pose proof (Sub_mono_l now now' hb Hle).
  split_and!; [done|lia|]. destruct Hs as [?|[[??]|[??]]]; [auto|right; left|right; right]; split; (done || lia).
Qed.

Lemma timeoutUpdate_agrees config now hb p :
  AwayTimeout config <= OfflineTimeout config -> agrees config now hb p ->
  agrees config now hb (timeoutUpdate config now p) /\
  pr_State (timeoutUpdate config now p) = classify config (Sub now hb).
Proof.
  intros Hcfg (Hh & Hb & Hs). unfold timeoutUpdate, timeoutTarget, classify. rewrite Hh.
  destruct Hs as [Hs|[[Hs He]|[Hs He]]]; rewrite Hs; simpl;
    repeat case_decide; simpl; try lia; unfold agrees; simpl; rewrite ?Hs; auto 10.
Qed.

Lemma heartbeat_agrees config now hb p :
  agrees config now hb p ->
  agrees config now now
    (let p := set_heartbeat p now in
     if decide (pr_State p = PresenceAway \/ pr_State p = PresenceOffline) then set_state p PresenceOnline else p).
Proof.
  intros (Hh & Hb & Hs). unfold agrees. case_decide as Hd; simpl; [auto with lia|].
  split_and!; [done|lia|]. left. destruct Hs as [?|[[??]|[??]]]; [done|destruct Hd; auto..].
Qed.

Lemma presence_step_refines config now t m op :
  AwayTimeout config <= OfflineTimeout config -> now <= op_time op ->
  refines_beats config now t m ->
  refines_beats config (op_time op) (presence_step config t op) (beats_step m op).
Proof.
  intros Hcfg Hnow Hr.
  assert (refines_beats config (op_time op) t m) as Hr'.
  { intros k. specialize (Hr k). destruct (t !! k), (m !! k); try done. by eapply agrees_later. }
  clear Hr Hnow. destruct op as [t' d w|t' o|t' d w]; simpl in *.
  - unfold PresenceTracker_RecordHeartbeat.
    destruct (decide (d = "")), (decide (w = "")); simpl;
      rewrite ?decide_True by auto; try done. rewrite decide_False by tauto.
    set (key := presenceKey w d). intros k. pose proof (Hr' key) as Hkey. specialize (Hr' k).
    destruct (decide (k = key)) as [->|Hne].
    + destruct (t !! key) as [p|] eqn:Ht, (m !! key) as [hb|] eqn:Hm; try done; simpl;
        rewrite !lookup_insert_eq; [by eapply heartbeat_agrees|].
      unfold agrees, newPresence; simpl. auto with lia.
    + destruct (t !! key); simpl; by rewrite !lookup_insert_ne.
  - intros k. rewrite lookup_fmap. specialize (Hr' k).
    destruct (t !! k), (m !! k); try done. simpl. by apply timeoutUpdate_agrees.
  - intros k. unfold PresenceTracker_RemovePresence. specialize (Hr' k).
    destruct (decide (k = presenceKey w d)) as [->|Hne];
      [by rewrite !lookup_delete_eq | by rewrite !lookup_delete_ne].
Qed.

Lemma presence_run_refines config ops t m now :
  AwayTimeout config <= OfflineTimeout config ->
  Sorted Z.le (now :: (op_time <$> ops)) -> refines_beats config now t m ->
  refines_beats config (default now (list.last (op_time <$> ops)))
    (foldl (presence_step config) t ops) (foldl beats_step m ops).
Proof.
  intros Hcfg. revert t m now. induction ops as [|op ops IH]; intros t m now Hs Hr; [done|].
  apply Sorted_inv in Hs as [Hs Hh]. apply HdRel_inv in Hh.
  cbn [foldl fmap list_fmap]. rewrite last_cons.
  pose proof (IH _ _ (op_time op) Hs (presence_step_refines _ _ _ _ op Hcfg Hh Hr)) as H.
  by destruct (list.last (op_time <$> ops)).
Qed.

(** Presence is a function of the last heartbeat.  After any run of
    heartbeats, timeout checks and removals at non-decreasing times that ends
    with a check at time [now], the tracker holds exactly the devices with a
    heartbeat since their last removal, and the state of each is determined by
    the time [e] since that heartbeat: offline when [e] exceeds the offline
    timeout, else away when it exceeds the away timeout, else online. *)
Theorem presence_follows_heartbeats (config : PresenceConfig) (ops : list PresenceOp) (now : Z)
    (o : list DevicePresence) (key : string)
    (Hcfg : AwayTimeout config <= OfflineTimeout config)
    (Hs : Sorted Z.le (op_time <$> (ops ++ [OpCheck now o]))) :
  (fun p => (pr_LastHeartbeat p, pr_State p)) <$>
    foldl (presence_step config) NewPresenceTracker (ops ++ [OpCheck now o]) !! key =
  (fun hb => (hb, classify config (Sub now hb))) <$> foldl beats_step ∅ ops !! key.
Proof.
  rewrite foldl_snoc. simpl. rewrite lookup_fmap.
  assert (exists t0, Sorted Z.le (t0 :: (op_time <$> ops)) /\ default t0 (list.last (op_time <$> ops)) <= now)
    as (t0 & Hs0 & Hlast).
  { apply Sorted_StronglySorted in Hs; [|intros ???; lia]. rewrite fmap_app in Hs.
    apply StronglySorted_app in Hs as (Hle & Hs & _). destruct (op_time <$> ops) as [|t0 l] eqn:E.
    { exists now. simpl. split; [by repeat constructor|lia]. }
    exists t0. split; [constructor; [by apply StronglySorted_Sorted|by constructor]|].
    destruct (list.last (t0 :: l)) as [z|] eqn:Hz; [simpl|by apply last_None in Hz].
    apply Hle; [|left]. apply last_Some in Hz as [k ->]. apply elem_of_app. right. left. }
  pose proof (presence_run_refines config ops NewPresenceTracker ∅ t0 Hcfg Hs0) as Hr.
  specialize (Hr ltac:(by intros k; rewrite lookup_empty)). specialize (Hr key).
  destruct (foldl (presence_step config) _ ops !! key) as [p|], (foldl beats_step ∅ ops !! key) as [hb|];
    try done. simpl.
  apply (agrees_later _ _ now) in Hr; [|done].
  destruct (timeoutUpdate_agrees config now hb p Hcfg Hr) as [(Hh & _) Hst]. by rewrite Hh, Hst.
Qed.

Lemma presence_follows_heartbeats_witness :
  (fun p => (pr_LastHeartbeat p, pr_State p)) <$>
    foldl (presence_step DefaultPresenceConfig) NewPresenceTracker
      ([OpHeartbeat (10 * Second) "d" "w"; OpCheck (50 * Second) []; OpHeartbeat (60 * Second) "d" "w"]
         ++ [OpCheck (100 * Second) []]) !! presenceKey "w" "d"
  = Some (60 * Second, PresenceAway).
Proof.
  rewrite (presence_follows_heartbeats DefaultPresenceConfig
             [OpHeartbeat (10 * Second) "d" "w"; OpCheck (50 * Second) []; OpHeartbeat (60 * Second) "d" "w"]
             (100 * Second) [] (presenceKey "w" "d")); [reflexivity|done|].
  simpl. repeat constructor; unfold Second, Millisecond; lia.
Defined.
