(* ===== verification/Broker.v ===== *)
(** * The event broker and publishers
      (src/internal/core/multidevice/broker.go, publisher.go)

    In-memory publish/subscribe over buffered Go channels.  Channels are shared
    objects: the broker holds their identities, and a heap holds the buffer of
    each and whether it is closed.  A send on a closed channel and a second
    close panic, which is the result [None]. *)

From Stdlib Require Import ZArith Lia.
From stdpp Require Import base option list list_numbers gmap strings fin_maps.
From S2P Require Import Prelude Events EventStore.

Open Scope Z_scope.

Definition subscriberBufferSize : nat := 64.

Record Chan : Type := mkChan {
  ch_buf : list WorkspaceEvent;
  ch_closed : bool
}.

(** [br_next] is the identity of the next channel made. *)
Record Broker : Type := mkBroker {
  br_subscribers : gmap string (list nat);
  br_chans : gmap nat Chan;
  br_next : nat
}.

Definition NewBroker : Broker := mkBroker ∅ ∅ 0.

Definition Subscribe (b : Broker) (channel : string) : Broker * nat :=
  let ch := br_next b in
  (mkBroker (<[channel := default [] (br_subscribers b !! channel) ++ [ch]]> (br_subscribers b))
     (<[ch := mkChan [] false]> (br_chans b)) (S ch), ch).

(** [close(sub)]. *)
Definition closeChan (chans : gmap nat Chan) (c : nat) : option (gmap nat Chan) :=
  match chans !! c with
  | Some (mkChan buf false) => Some (<[c := mkChan buf true]> chans)
  | _ => None
  end.

(** The loop over the subscribers: those equal to [ch] are closed, the others
    remain. *)
Fixpoint unsubscribeLoop (chans : gmap nat Chan) (ch : nat) (subs : list nat)
  : option (gmap nat Chan * list nat) :=
  match subs with
  | [] => Some (chans, [])
  | sub :: subs =>
      if decide (sub = ch)
      then closeChan chans sub ≫= fun chans => unsubscribeLoop chans ch subs
      else '(chans, remaining) ← unsubscribeLoop chans ch subs; Some (chans, sub :: remaining)
  end.

Definition Unsubscribe (b : Broker) (channel : string) (ch : nat) : option Broker :=
  match br_subscribers b !! channel with
  | None => Some b
  | Some subs =>
      '(chans, remaining) ← unsubscribeLoop (br_chans b) ch subs;
      Some (mkBroker (if decide (remaining = []) then delete channel (br_subscribers b)
                      else <[channel := remaining]> (br_subscribers b)) chans (br_next b))
  end.

(** [select { case ch <- event: default: }]. *)
Definition trySend (event : WorkspaceEvent) (chans : gmap nat Chan) (c : nat) : option (gmap nat Chan) :=
  match chans !! c with
  | Some (mkChan buf false) =>
      if decide (length buf < subscriberBufferSize)%nat
      then Some (<[c := mkChan (buf ++ [event]) false]> chans)
      else Some chans
  | _ => None
  end.

Fixpoint sendAll (event : WorkspaceEvent) (chans : gmap nat Chan) (subs : list nat)
  : option (gmap nat Chan) :=
  match subs with
  | [] => Some chans
  | c :: subs => trySend event chans c ≫= fun chans => sendAll event chans subs
  end.

Definition Broker_Publish (b : Broker) (channel : string) (event : WorkspaceEvent) : option Broker :=
  match br_subscribers b !! channel with
  | None => Some b
  | Some subs =>
      chans ← sendAll event (br_chans b) subs;
      Some (mkBroker (br_subscribers b) chans (br_next b))
  end.

Definition SubscriberCount (b : Broker) (channel : string) : Z :=
  Z.of_nat (length (default [] (br_subscribers b !! channel))).

Definition WorkspaceChannel (workspaceID : string) : string := "workspace:" +:+ workspaceID.
Definition DeviceChannel (workspaceID deviceID : string) : string :=
  "workspace:" +:+ workspaceID +:+ ":device:" +:+ deviceID.
Definition PresenceChannel (deviceID : string) : string := "device:" +:+ deviceID +:+ ":presence".

(** A consumer takes an event from its channel, if there is one. *)
Definition receive (b : Broker) (c : nat) : Broker * option WorkspaceEvent :=
  match br_chans b !! c with
  | Some (mkChan (e :: buf) closed) =>
      (mkBroker (br_subscribers b) (<[c := mkChan buf closed]> (br_chans b)) (br_next b), Some e)
  | _ => (b, None)
  end.

(** ** Publishers *)

Section publisher.
Context `{C : LineCodec}.

(** Storing stamps the version of the event that is broadcast. *)
Definition PublishEvent (fault : option StoreFault) (workspaceID : string) (s : EventStore) (b : Broker)
    (event : WorkspaceEvent) : option (EventStore * Broker * Res StoreErr unit) :=
  match EventStore_Store fault s event with
  | (s', _, Err e) => Some (s', b, Err e)
  | (s', event', Ok _) =>
      b1 ← Broker_Publish b (WorkspaceChannel workspaceID) event';
      b2 ← (if decide (ev_DeviceID event' = "") then Some b1
            else Broker_Publish b1 (DeviceChannel workspaceID (ev_DeviceID event')) event');
      Some (s', b2, Ok tt)
  end.

(** The entries of the caller's map override the base entry. *)
Definition PublishProfileUpdate (fault : option StoreFault) (uuid : string) (now : Z) (publisherWorkspace : string)
    (s : EventStore) (b : Broker) (workspaceID profileID : string) (changes : gmap string Value) :=
  PublishEvent fault publisherWorkspace s b
    (NewEvent uuid now workspaceID "" EventProfileUpdated
       (Some (changes ∪ {[ "profile_id" := VString profileID ]}))).

Definition PublishActionExecution (fault : option StoreFault) (uuid : string) (now : Z) (publisherWorkspace : string)
    (s : EventStore) (b : Broker) (workspaceID actionName : string) (result : gmap string Value) :=
  PublishEvent fault publisherWorkspace s b
    (NewEvent uuid now workspaceID "" EventActionExecuted
       (Some (result ∪ {[ "action_name" := VString actionName ]}))).

End publisher.

(** ** Well-formed brokers

    Subscribed channels are open, each is subscribed once and to one name only,
    and identities are fresh. *)

Definition open_chan (chans : gmap nat Chan) (c : nat) : Prop :=
  exists buf, chans !! c = Some (mkChan buf false).

Record broker_ok (b : Broker) : Prop := {
  ok_open : forall n subs, br_subscribers b !! n = Some subs ->
              NoDup subs /\ forall c, c ∈ subs -> open_chan (br_chans b) c;
  ok_once : forall n n' subs subs' c, br_subscribers b !! n = Some subs ->
              br_subscribers b !! n' = Some subs' -> c ∈ subs -> c ∈ subs' -> n = n';
  ok_fresh : forall c, is_Some (br_chans b !! c) -> (c < br_next b)%nat
}.

Definition push (e : WorkspaceEvent) (ch : Chan) : Chan :=
  if decide (length (ch_buf ch) < subscriberBufferSize)%nat then mkChan (ch_buf ch ++ [e]) (ch_closed ch) else ch.

Lemma sendAll_spec e subs chans :
  NoDup subs -> (forall c, c ∈ subs -> open_chan chans c) ->
  exists chans', sendAll e chans subs = Some chans' /\
    forall c, chans' !! c = if decide (c ∈ subs) then push e <$> chans !! c else chans !! c.
Proof.
  revert chans. induction subs as [|x subs IH]; intros chans Hnd Hopen.
  { exists chans. split; [done|]. intros c. case_decide as Hc; [by apply elem_of_nil in Hc|done]. }
  cbn [sendAll].
  apply NoDup_cons in Hnd as [Hx Hnd]. destruct (Hopen x ltac:(left)) as [buf Hbuf].
  assert (exists chans1, trySend e chans x = Some chans1 /\ chans1 !! x = push e <$> chans !! x /\
            forall c, c <> x -> chans1 !! c = chans !! c) as (chans1 & -> & Hx1 & Hne).
  { unfold trySend. rewrite Hbuf. unfold push. simpl. case_decide; eexists; (split; [done|]).
    - rewrite lookup_insert_eq. split; [done|]. intros c Hc. by rewrite lookup_insert_ne.
    - by rewrite Hbuf. }
  simpl. destruct (IH chans1 Hnd) as (chans2 & -> & H2).
  { intros c Hc. unfold open_chan. rewrite Hne; [apply Hopen; by right|]. by intros ->. }
  exists chans2. split; [done|]. intros c. rewrite H2.
  destruct (decide (c = x)) as [->|Hc].
  - rewrite decide_False by done. by rewrite decide_True by left.
  - rewrite Hne by done. destruct (decide (c ∈ subs)).
    + by rewrite decide_True by (by right).
    + rewrite decide_False; [done|]. rewrite elem_of_cons. tauto.
Qed.

Lemma unsubscribeLoop_spec ch subs chans :
  NoDup subs -> (forall c, c ∈ subs -> open_chan chans c) ->
  exists chans', unsubscribeLoop chans ch subs = Some (chans', filter (fun c => c <> ch) subs) /\
    forall c, c <> ch \/ ch ∉ subs -> chans' !! c = chans !! c.
Proof.
  revert chans. induction subs as [|x subs IH]; intros chans Hnd Hopen; simpl.
  { exists chans. by split. }
  apply NoDup_cons in Hnd as [Hx Hnd]. case_decide as Hxc.
  - subst x. rewrite filter_cons_False by tauto. destruct (Hopen ch ltac:(left)) as [buf Hbuf].
    unfold closeChan. rewrite Hbuf. simpl.
    destruct (IH (<[ch := mkChan buf true]> chans) Hnd) as (chans2 & -> & H2).
    { intros c Hc. unfold open_chan. rewrite lookup_insert_ne; [apply Hopen; by right|]. by intros ->. }
    exists chans2. split; [done|]. intros c [Hc|Hc]; [|destruct Hc; left].
    rewrite H2 by auto. by rewrite lookup_insert_ne.
  - rewrite filter_cons_True by done.
    destruct (IH chans Hnd) as (chans2 & -> & H2); [intros c Hc; apply Hopen; by right|].
    exists chans2. split; [done|]. intros c Hc. apply H2. destruct Hc as [?|Hc]; [auto|right].
    intros ?. apply Hc. by right.
Qed.

(** ** Runs *)

Inductive BrokerOp : Type :=
  | OpSubscribe (channel : string)
  | OpUnsubscribe (channel : string) (ch : nat)
  | OpPublish (channel : string) (event : WorkspaceEvent)
  | OpReceive (ch : nat).

(** The state after the step, and the event it delivers, with its channel. *)
Definition broker_step (b : Broker) (op : BrokerOp) : option (Broker * option (nat * WorkspaceEvent)) :=
  match op with
  | OpSubscribe n => Some ((Subscribe b n).1, None)
  | OpUnsubscribe n c => b' ← Unsubscribe b n c; Some (b', None)
  | OpPublish n e => b' ← Broker_Publish b n e; Some (b', None)
  | OpReceive c => let '(b', r) := receive b c in Some (b', (fun e => (c, e)) <$> r)
  end.

Fixpoint broker_run (b : Broker) (ops : list BrokerOp) : option (Broker * list (nat * WorkspaceEvent)) :=
  match ops with
  | [] => Some (b, [])
  | op :: ops =>
      '(b1, d) ← broker_step b op;
      '(b2, ds) ← broker_run b1 ops;
      Some (b2, option_list d ++ ds)
  end.

Lemma NewBroker_ok : broker_ok NewBroker.
Proof. split; simpl; intros *; by rewrite ?lookup_empty. Qed.

Lemma Subscribe_ok b n : broker_ok b -> broker_ok (Subscribe b n).1.
Proof.
  intros [Hopen Honce Hfresh]. unfold Subscribe.
  assert (forall n subs, br_subscribers b !! n = Some subs -> forall c, c ∈ subs -> (c < br_next b)%nat) as Hlt.
  { intros m subs Hm c Hc. destruct (Hopen m subs Hm) as [_ Ho]. apply Hfresh.
    destruct (Ho c Hc) as [buf ->]. eauto. }
  assert (forall m subs c, <[n:=default [] (br_subscribers b !! n) ++ [br_next b]]> (br_subscribers b) !! m = Some subs ->
            c ∈ subs -> (c = br_next b /\ m = n) \/ (exists old, br_subscribers b !! m = Some old /\ c ∈ old)) as Hin.
  { intros m subs c Hm Hc. destruct (decide (m = n)) as [->|Hne].
    - rewrite lookup_insert_eq in Hm. injection Hm as <-. apply elem_of_app in Hc as [Hc|Hc%list_elem_of_singleton]; [|auto].
      right. destruct (br_subscribers b !! n); simpl in Hc; [eauto|by apply elem_of_nil in Hc].
    - rewrite lookup_insert_ne in Hm by done. eauto. }
  split; simpl.
  - intros m subs Hm. split.
    + destruct (decide (m = n)) as [->|Hne].
      * rewrite lookup_insert_eq in Hm. injection Hm as <-. apply NoDup_app. split_and!.
        -- destruct (br_subscribers b !! n) eqn:E; simpl; [by apply (Hopen n)|constructor].
        -- intros c Hc ->%list_elem_of_singleton.
           destruct (br_subscribers b !! n) as [l|] eqn:E; simpl in Hc; [|by apply elem_of_nil in Hc].
           specialize (Hlt n l E _ Hc). lia.
        -- apply NoDup_singleton.
      * rewrite lookup_insert_ne in Hm by done. by apply (Hopen m).
    + intros c Hc. destruct (Hin m subs c Hm Hc) as [[-> _]|(old & Hold & Hco)].
      * exists []. by rewrite lookup_insert_eq.
      * destruct (Hopen m old Hold) as [_ Ho]. destruct (Ho c Hco) as [buf Hb]. exists buf.
        rewrite lookup_insert_ne; [done|]. specialize (Hlt m old Hold c Hco). lia.
  - intros m m' subs subs' c Hm Hm' Hc Hc'.
    destruct (Hin m subs c Hm Hc) as [[-> ->]|(old & Hold & Hco)];
      destruct (Hin m' subs' _ Hm' Hc') as [[? ->]|(old' & Hold' & Hco')]; [done|..].
    + specialize (Hlt _ _ Hold' _ Hco'). lia.
    + subst. specialize (Hlt _ _ Hold _ Hco). lia.
    + by eapply Honce.
  - intros c. destruct (decide (c = br_next b)) as [->|Hne]; [lia|].
    rewrite lookup_insert_ne by done. intros H%Hfresh. lia.
Qed.

(** A change of channels that keeps the domain and the open ones keeps a broker
    well formed, when no subscriber is added. *)
Lemma broker_ok_weaken b subs' chans' :
  broker_ok b ->
  (forall n l', subs' !! n = Some l' ->
     exists l, br_subscribers b !! n = Some l /\ NoDup l' /\ forall c, c ∈ l' -> c ∈ l /\ open_chan chans' c) ->
  (forall c, is_Some (chans' !! c) -> is_Some (br_chans b !! c)) ->
  broker_ok (mkBroker subs' chans' (br_next b)).
Proof.
  intros [Hopen Honce Hfresh] Hsub Hdom. split; simpl.
  - intros n l' Hl'. destruct (Hsub n l' Hl') as (l & _ & Hnd & Hc). split; [done|].
    intros c ?. by apply Hc.
  - intros n n' l1 l2 c H1 H2 Hc1 Hc2.
    destruct (Hsub n l1 H1) as (k1 & Hk1 & _ & Hi1), (Hsub n' l2 H2) as (k2 & Hk2 & _ & Hi2).
    apply (Honce n n' k1 k2 c); [done|done|by apply Hi1|by apply Hi2].
  - auto.
Qed.

Lemma Unsubscribe_ok b n c :
  broker_ok b ->
  exists b', Unsubscribe b n c = Some b' /\ broker_ok b' /\
    (forall n' c', (n' <> n \/ c' <> c) -> forall l, br_subscribers b !! n' = Some l -> c' ∈ l ->
       (exists l', br_subscribers b' !! n' = Some l' /\ c' ∈ l') /\ br_chans b' !! c' = br_chans b !! c').
Proof.
  intros Hok. pose proof Hok as [Hopen Honce Hfresh]. unfold Unsubscribe.
  destruct (br_subscribers b !! n) as [subs|] eqn:Hn; [|by eexists; eauto 10].
  destruct (Hopen n subs Hn) as [Hnd Ho].
  destruct (unsubscribeLoop_spec c subs (br_chans b) Hnd Ho) as (chans' & -> & Hch). simpl.
  set (rem := filter (fun x => x <> c) subs).
  set (subs' := if decide (rem = []) then delete n (br_subscribers b) else <[n := rem]> (br_subscribers b)).
  assert (forall m, m <> n -> subs' !! m = br_subscribers b !! m) as Hm.
  { intros m Hm. unfold subs'. case_decide; [by rewrite lookup_delete_ne | by rewrite lookup_insert_ne]. }
  assert (subs' !! n = if decide (rem = []) then None else Some rem) as Hsn.
  { unfold subs'. case_decide; [by rewrite lookup_delete_eq | by rewrite lookup_insert_eq]. }
  assert (forall m l x, br_subscribers b !! m = Some l -> x ∈ l -> (m <> n \/ x <> c) -> x <> c \/ c ∉ subs) as Hother.
  { intros m l x Hl Hx [Hne|Hne]; [|auto]. destruct (decide (x = c)) as [->|]; [|auto]. right.
    intros Hc. apply Hne. by eapply Honce. }
  eexists. split; [done|]. split.
  - apply broker_ok_weaken; [done| |].
    + intros m l' Hl'. destruct (decide (m = n)) as [->|Hne].
      * rewrite Hsn in Hl'. case_decide; [done|]. injection Hl' as <-. exists subs. split; [done|].
        split; [by apply NoDup_filter|]. intros x [Hx1 Hx2]%list_elem_of_filter. split; [done|].
        unfold open_chan. rewrite Hch by auto. by apply Ho.
      * rewrite Hm in Hl' by done. exists l'. destruct (Hopen m l' Hl') as [Hnd' Ho']. split_and!; [done|done|].
        intros x Hx. split; [done|]. unfold open_chan. rewrite Hch; [by apply Ho'|]. eapply Hother; eauto.
    + intros x. destruct (decide (x <> c \/ c ∉ subs)) as [H|H]; [by rewrite Hch|].
      intros _. assert (x = c /\ c ∈ subs) as [-> Hc].
      { destruct (decide (x = c)), (decide (c ∈ subs)); tauto. }
      destruct (Ho c Hc) as [buf ->]. eauto.
  - intros m x Hmx l Hl Hx. simpl. split; [|apply Hch; by eapply Hother].
    destruct (decide (m = n)) as [->|Hne]; [|rewrite Hm by done; eauto].
    rewrite Hn in Hl. injection Hl as <-. rewrite Hsn.
    assert (x ∈ rem) as Hr by (apply list_elem_of_filter; destruct Hmx; [done|auto]).
    rewrite decide_False; [eauto|]. intros E. rewrite E in Hr. by apply elem_of_nil in Hr.
Qed.

Lemma Publish_ok b n e :
  broker_ok b ->
  exists b', Broker_Publish b n e = Some b' /\ broker_ok b' /\ br_subscribers b' = br_subscribers b /\
    forall c, br_chans b' !! c = if decide (c ∈ default [] (br_subscribers b !! n))
                                then push e <$> br_chans b !! c else br_chans b !! c.
Proof.
  intros Hok. pose proof Hok as [Hopen Honce Hfresh]. unfold Broker_Publish.
  destruct (br_subscribers b !! n) as [subs|] eqn:Hn; simpl.
  2:{ exists b. by split_and!. }
  destruct (Hopen n subs Hn) as [Hnd Ho].
  destruct (sendAll_spec e subs (br_chans b) Hnd Ho) as (chans' & -> & Hch). simpl.
  eexists. split; [done|]. split; [|by split].
  apply broker_ok_weaken; [done| |].
  - intros m l Hl. exists l. destruct (Hopen m l Hl) as [Hnd' Ho']. split_and!; [done|done|].
    intros c Hc. split; [done|]. destruct (Ho' c Hc) as [buf Hb]. unfold open_chan. rewrite Hch, Hb.
    case_decide; [|eauto]. simpl. unfold push. simpl. case_decide; eauto.
  - intros c. rewrite Hch. case_decide; [|done]. by rewrite fmap_is_Some.
Qed.

Lemma receive_ok b c : broker_ok b -> broker_ok (receive b c).1.
Proof.
  intros Hok. pose proof Hok as [Hopen Honce Hfresh]. unfold receive.
  destruct (br_chans b !! c) as [[[|e buf] cl]|] eqn:Hc; simpl; try done.
  apply broker_ok_weaken; [done| |].
  - intros m l Hl. exists l. destruct (Hopen m l Hl) as [Hnd' Ho']. split_and!; [done|done|].
    intros x Hx. split; [done|]. destruct (Ho' x Hx) as [buf' Hb]. unfold open_chan.
    destruct (decide (x = c)) as [->|Hne]; [|rewrite lookup_insert_ne by done; eauto].
    rewrite Hc in Hb. injection Hb as <- ->. rewrite lookup_insert_eq. eauto.
  - intros x. destruct (decide (x = c)) as [->|Hne]; [rewrite Hc; eauto|by rewrite lookup_insert_ne].
Qed.

Lemma broker_step_ok b op : broker_ok b -> exists b' d, broker_step b op = Some (b', d) /\ broker_ok b'.
Proof.
  intros Hok. destruct op as [n|n c|n e|c]; simpl.
  - eexists _, _. split; [done|]. by apply Subscribe_ok.
  - destruct (Unsubscribe_ok b n c Hok) as (b' & -> & Hok' & _). simpl. eauto.
  - destruct (Publish_ok b n e Hok) as (b' & -> & Hok' & _). simpl. eauto.
  - pose proof (receive_ok b c Hok). destruct (receive b c) as [b' r]. eauto.
Qed.

Lemma broker_run_ok b ops : broker_ok b -> exists b' ds, broker_run b ops = Some (b', ds) /\ broker_ok b'.
Proof.
  revert b. induction ops as [|op ops IH]; intros b Hok; simpl; [eauto|].
  destruct (broker_step_ok b op Hok) as (b1 & d & -> & Hok1). simpl.
  destruct (IH b1 Hok1) as (b2 & ds & -> & Hok2). simpl. eauto.
Qed.

(** ** What a subscriber receives *)

(** The events published under a name. *)
Definition published (n : string) (ops : list BrokerOp) : list WorkspaceEvent :=
  omap (fun op => match op with OpPublish m e => if decide (m = n) then Some e else None | _ => None end) ops.

(** The events a channel has delivered. *)
Definition received (c : nat) (ds : list (nat * WorkspaceEvent)) : list WorkspaceEvent :=
  omap (fun d => if decide (d.1 = c) then Some d.2 else None) ds.

Definition buffer (b : Broker) (c : nat) : list WorkspaceEvent :=
  match br_chans b !! c with Some ch => ch_buf ch | None => [] end.

Definition subscribed (b : Broker) (n : string) (c : nat) : Prop :=
  exists l, br_subscribers b !! n = Some l /\ c ∈ l.

(** The subscriber reads often enough: its buffer is never full when an event
    is published under its name. *)
Definition keeps_up (b : Broker) (n : string) (c : nat) (ops : list BrokerOp) : Prop :=
  forall ops1 e ops2 b1 ds, ops = ops1 ++ OpPublish n e :: ops2 -> broker_run b ops1 = Some (b1, ds) ->
    (length (buffer b1 c) < subscriberBufferSize)%nat.

(** One step of a subscriber: what it has seen and holds grows by what is
    published, unless its buffer is full. *)
Lemma broker_step_subscriber b op n c :
  broker_ok b -> subscribed b n c -> op <> OpUnsubscribe n c ->
  exists b' d, broker_step b op = Some (b', d) /\ broker_ok b' /\ subscribed b' n c /\
    received c (option_list d) ++ buffer b' c =
      buffer b c ++ (if decide (length (buffer b c) < subscriberBufferSize)%nat then published n [op] else []) /\
    (length (buffer b c) <= subscriberBufferSize -> length (buffer b' c) <= subscriberBufferSize)%nat.
Proof.
  intros Hok (l & Hl & Hc) Hop. pose proof Hok as [Hopen Honce Hfresh].
  destruct (proj2 (Hopen n l Hl) c Hc) as [buf Hb].
  assert (buffer b c = buf) as Hbuf by (unfold buffer; by rewrite Hb).
  assert (forall b' : Broker, br_chans b' !! c = br_chans b !! c ->
            received c [] ++ buffer b' c = buffer b c ++ [] /\
            (length (buffer b c) <= subscriberBufferSize -> length (buffer b' c) <= subscriberBufferSize)%nat) as Hsame.
  { intros b' Hb'. unfold buffer. rewrite Hb', app_nil_r. done. }
  destruct op as [m|m x|m e|x]; simpl.
  - eexists _, _. split; [done|]. split; [by apply Subscribe_ok|]. split.
    + unfold subscribed, Subscribe; simpl. destruct (decide (m = n)) as [->|Hne].
      * rewrite lookup_insert_eq, Hl. eexists. split; [done|]. apply elem_of_app. by left.
      * rewrite lookup_insert_ne by done. eauto.
    + destruct (Hsame (Subscribe b m).1) as [H1 H2].
      { simpl. rewrite lookup_insert_ne; [done|]. assert (c < br_next b)%nat by (apply Hfresh; rewrite Hb; eauto). lia. }
      split; [|done]. simpl in *. by destruct (decide _).
  - destruct (Unsubscribe_ok b m x Hok) as (b' & -> & Hok' & Hkeep). simpl.
    destruct (Hkeep n c) with (l := l) as [Hs Hch]; [|done|done|].
    { destruct (decide (n = m)) as [->|]; [|auto]. right. intros ->. done. }
    destruct (Hsame b' Hch) as [H1 H2]. eexists _, _. split_and!; try done. simpl. by destruct (decide _).
  - destruct (Publish_ok b m e Hok) as (b' & -> & Hok' & Hsub & Hch). simpl.
    eexists _, _. split; [done|]. split; [done|]. split; [unfold subscribed; rewrite Hsub; eauto|].
    specialize (Hch c). destruct (decide (m = n)) as [->|Hne].
    + rewrite Hl in Hch. simpl in Hch. rewrite decide_True in Hch by done. rewrite Hb in Hch. simpl in Hch.
      unfold push in Hch. simpl in Hch.
      assert (buffer b' c = if decide (length buf < subscriberBufferSize)%nat then buf ++ [e] else buf) as ->.
      { unfold buffer. rewrite Hch. by case_decide. }
      rewrite Hbuf. case_decide; [|rewrite app_nil_r; auto]. rewrite length_app. simpl. split; [done|lia].
    + rewrite decide_False in Hch.
      2:{ intros Hin. destruct (br_subscribers b !! m) as [l'|] eqn:E; simpl in Hin; [|by apply elem_of_nil in Hin].
          apply Hne. by eapply Honce. }
      destruct (Hsame b' Hch) as [H1 H2]. simpl in *. split; [|done]. by destruct (decide _).
  - pose proof (receive_ok b x Hok) as Hok'. unfold receive in *.
    destruct (br_chans b !! x) as [[[|e0 buf0] cl]|] eqn:Hx; simpl in *;
      (eexists _, _; split; [done|]; split; [done|]; split; [by exists l|]).
    1,3: destruct (Hsame b eq_refl) as [H1 H2]; split; [|done]; simpl in *; by destruct (decide _).
    destruct (decide (x = c)) as [->|Hne].
    + rewrite Hb in Hx. injection Hx as -> <-. rewrite Hbuf. unfold buffer. simpl. rewrite lookup_insert_eq. simpl.
      split; [|lia]. destruct (decide (c = c)); [|done]. destruct (decide (_ < _)%nat); simpl; by rewrite app_nil_r.
    + match goal with |- context [mkBroker ?s ?ch ?k] => destruct (Hsame (mkBroker s ch k)) as [H1 H2] end.
      { simpl. by rewrite lookup_insert_ne. }
      split; [|done]. simpl in *. destruct (decide (x = c)); [done|]. by destruct (decide (_ < _)%nat).
Qed.

Lemma published_cons n op ops : published n (op :: ops) = published n [op] ++ published n ops.
Proof. unfold published. simpl. by destruct op; simpl; try done; case_decide. Qed.

Lemma received_app c ds ds' : received c (ds ++ ds') = received c ds ++ received c ds'.
Proof. unfold received. by rewrite omap_app. Qed.

Lemma broker_run_subscriber n c ops b :
  broker_ok b -> subscribed b n c -> (length (buffer b c) <= subscriberBufferSize)%nat ->
  OpUnsubscribe n c ∉ ops ->
  exists b' ds, broker_run b ops = Some (b', ds) /\
    (received c ds ++ buffer b' c) `sublist_of` (buffer b c ++ published n ops) /\
    (length (buffer b' c) <= subscriberBufferSize)%nat /\
    (keeps_up b n c ops -> received c ds ++ buffer b' c = buffer b c ++ published n ops).
Proof.
  revert b. induction ops as [|op ops IH]; intros b Hok Hsub Hlen Hops; cbn [broker_run].
  { eexists _, _. split; [done|]. simpl. by rewrite app_nil_r. }
  rewrite elem_of_cons in Hops.
  destruct (broker_step_subscriber b op n c Hok Hsub) as (b1 & d & Hstep & Hok1 & Hsub1 & Hseen & Hlen1);
    [intros ->; tauto|].
  rewrite Hstep. cbn [mbind option_bind].
  destruct (IH b1 Hok1 Hsub1 (Hlen1 Hlen)) as (b2 & ds & Hrun & Hsl & Hl2 & Hup); [tauto|].
  rewrite Hrun. cbn [mbind option_bind]. eexists _, _. split; [done|].
  rewrite received_app, <- app_assoc, (published_cons n op ops), (app_assoc (buffer b c)).
  split_and!; [|done|].
  - etrans; [apply sublist_app; [done|exact Hsl]|]. rewrite app_assoc, Hseen.
    apply sublist_app; [|done]. apply sublist_app; [done|]. case_decide; [done|apply sublist_nil_l].
  - intros Hkeep. rewrite Hup, app_assoc, Hseen.
    + case_decide as Hd; [done|].
      destruct op as [m|m x|m e|x]; try done. simpl. case_decide as Hm; [subst m|done].
      destruct Hd. apply (Hkeep [] e ops b []); done.
    + intros ops1 e ops2 b' ds' -> Hr. apply (Hkeep (op :: ops1) e ops2 b' (option_list d ++ ds')); [done|].
      simpl. rewrite Hstep. simpl. by rewrite Hr.
Qed.

(** C33: the broker neither panics nor reorders.  From an empty broker, any
    interleaving of subscriptions, publications, reads and unsubscriptions, also
    repeated ones or ones of channels that were never subscribed, runs without
    panic.  A channel subscribed to a name after any such run, and not
    unsubscribed in [ops], has received and buffered a subsequence of the events
    published under that name, in order, with at most 64 in its buffer; and all
    of them when its buffer is never full at a publication. *)
Theorem broker_delivers_in_order (before ops : list BrokerOp) (n : string) :
  exists b0 ds0, broker_run NewBroker before = Some (b0, ds0) /\
    let '(b1, c) := Subscribe b0 n in
    exists b2 ds, broker_run b1 ops = Some (b2, ds) /\
      (OpUnsubscribe n c ∉ ops ->
         (received c ds ++ buffer b2 c) `sublist_of` published n ops /\
         (length (buffer b2 c) <= subscriberBufferSize)%nat /\
         (keeps_up b1 n c ops -> received c ds ++ buffer b2 c = published n ops)).
Proof.
  destruct (broker_run_ok NewBroker before NewBroker_ok) as (b0 & ds0 & -> & Hok0).
  exists b0, ds0. split; [done|]. pose proof (Subscribe_ok b0 n Hok0) as Hok1.
  set (b1 := (Subscribe b0 n).1) in *. set (c := br_next b0).
  change (Subscribe b0 n) with (b1, c).
  assert (subscribed b1 n c) as Hsub.
  { unfold subscribed. simpl. rewrite lookup_insert_eq. eexists. split; [done|]. apply elem_of_app. right. left. }
  assert (buffer b1 c = []) as Hbuf by (unfold buffer; simpl; by rewrite lookup_insert_eq).
  destruct (broker_run_ok b1 ops Hok1) as (b2 & ds & Hrun & _). exists b2, ds. split; [done|]. intros Hops.
  destruct (broker_run_subscriber n c ops b1 Hok1 Hsub) as (b2' & ds' & Hrun' & H); [rewrite Hbuf; simpl; lia|done|].
  rewrite Hrun in Hrun'. injection Hrun' as <- <-. by rewrite Hbuf in H.
Qed.
