(* ===== verification/AuditLog.v ===== *)
(** * The audit log (src/internal/core/multidevice/audit.go and the audit part of
      manager.go)

    A JSON-lines file per workspace, appended by [Log] and read in two ways: by
    lines ([Query]) and by a stream of JSON values ([ListEntries]). *)

From Stdlib Require Import ZArith Lia.
From stdpp Require Import base option list gmap strings fin_maps.
From S2P Require Import Prelude EventStore.

Open Scope Z_scope.

Record AuditEntry : Type := mkAudit {
  au_Timestamp : Z;
  au_DeviceID : string;
  au_WorkspaceID : string;
  au_Action : string;
  au_Resource : string;
  au_Result : string;
  au_Reason : string
}.

#[export] Instance AuditEntry_eq_dec : EqDecision AuditEntry.
Proof. solve_decision. Defined.

(** What a line of the file holds: nothing, an entry, a JSON value that is not
    an entry, or text whose first token is no JSON; [closing] says that this
    text starts with [']'] or ['}']. *)
Inductive AuditText : Type :=
  | TextEmpty
  | TextEntry (e : AuditEntry)
  | TextOther
  | TextGarbage (closing : bool).

Record AuditLine : Type := mkAuditLine {
  al_len : Z;
  al_text : AuditText
}.

Inductive AuditFile : Type :=
  | AuditMissing
  | AuditUnreadable
  | AuditLines (ls : list AuditLine).

Definition audit_lines (f : AuditFile) : list AuditLine :=
  match f with AuditLines ls => ls | _ => [] end.

Inductive AuditErr : Type := ErrAuditOpen | ErrAuditMarshal | ErrAuditWrite | ErrAuditRead.

(** [json.Marshal], the redacting writer and the newline, for an entry. *)
Class AuditCodec : Type := persistEntry : AuditEntry -> option AuditLine.

(** Redaction tags secrets in the reason; the line stays an entry that agrees on
    every other field. *)
Definition same_decision (e e' : AuditEntry) : Prop :=
  au_Timestamp e' = au_Timestamp e /\ au_DeviceID e' = au_DeviceID e /\ au_WorkspaceID e' = au_WorkspaceID e /\
  au_Action e' = au_Action e /\ au_Resource e' = au_Resource e /\ au_Result e' = au_Result e.

Class KeepsDecision (C : AuditCodec) : Prop := persistEntry_keeps :
  forall e l, persistEntry e = Some l -> exists e', al_text l = TextEntry e' /\ same_decision e e'.

(** The defaults [Log] fills in. *)
Definition completed (now : Z) (workspaceID : string) (e : AuditEntry) : AuditEntry :=
  mkAudit (if IsZero (au_Timestamp e) then now else au_Timestamp e) (au_DeviceID e)
    (if decide (au_WorkspaceID e = "") then workspaceID else au_WorkspaceID e)
    (au_Action e) (au_Resource e) (au_Result e) (au_Reason e).

(** [fails]: the directory or the file cannot be created, or the write fails. *)
Definition AuditLogger_Log `{AuditCodec} (fails : bool) (now : Z) (workspaceID : string) (f : AuditFile)
    (entry : AuditEntry) : AuditFile * Res AuditErr unit :=
  match persistEntry (completed now workspaceID entry) with
  | None => (f, Err ErrAuditMarshal)
  | Some l =>
      if fails then (f, Err ErrAuditWrite) else
      match f with
      | AuditUnreadable => (f, Err ErrAuditOpen)
      | _ => (AuditLines (audit_lines f ++ [l]), Ok tt)
      end
  end.

(** ** Reading by lines *)

Record AuditFilters : Type := mkFilters {
  fl_DeviceID : string;
  fl_Action : string;
  fl_Result : string;
  fl_Since : Z;
  fl_Until : Z;
  fl_Limit : Z
}.

Definition matchesAuditFilters (entry : AuditEntry) (filters : AuditFilters) : bool :=
  if bool_decide (fl_DeviceID filters <> "") && bool_decide (au_DeviceID entry <> fl_DeviceID filters) then false
  else if bool_decide (fl_Action filters <> "") && bool_decide (au_Action entry <> fl_Action filters) then false
  else if bool_decide (fl_Result filters <> "") && bool_decide (au_Result entry <> fl_Result filters) then false
  else if negb (IsZero (fl_Since filters)) && Before (au_Timestamp entry) (fl_Since filters) then false
  else if negb (IsZero (fl_Until filters)) && After (au_Timestamp entry) (fl_Until filters) then false
  else true.

(** The scan loop, with the results so far. *)
Fixpoint queryLoop (filters : AuditFilters) (results : list AuditEntry) (ls : list AuditLine)
  : Res AuditErr (list AuditEntry) :=
  match ls with
  | [] => Ok results
  | l :: ls =>
      if decide (MaxScanTokenSize <= al_len l) then Err ErrAuditRead else
      match al_text l with
      | TextEntry entry =>
          if matchesAuditFilters entry filters then
            let results := results ++ [entry] in
            if decide (fl_Limit filters > 0 /\ Z.of_nat (length results) >= fl_Limit filters)
            then Ok results else queryLoop filters results ls
          else queryLoop filters results ls
      | _ => queryLoop filters results ls
      end
  end.

Definition AuditLogger_Query (filters : AuditFilters) (f : AuditFile) : Res AuditErr (list AuditEntry) :=
  match f with
  | AuditMissing => Ok []
  | AuditUnreadable => Err ErrAuditRead
  | AuditLines ls => queryLoop filters [] ls
  end.

(** ** Reading by JSON values

    [json.Decoder] keeps its position at a syntax error, which every later
    [Decode] reports again, while [More] only looks at the next byte: it stops at
    the end of the input and at a closing bracket. *)

Definition listed (since : Z) (device result action : string) (entry : AuditEntry) : bool :=
  if negb (IsZero since) && Before (au_Timestamp entry) since then false
  else if bool_decide (device <> "") && bool_decide (au_DeviceID entry <> device) then false
  else if bool_decide (result <> "") && bool_decide (au_Result entry <> result) then false
  else if bool_decide (action <> "") && bool_decide (au_Action entry <> action) then false
  else true.

(** [None]: the loop has not ended within [fuel] rounds. *)
Fixpoint listLoop (keep : AuditEntry -> bool) (fuel : nat) (entries : list AuditEntry) (ls : list AuditLine)
  : option (list AuditEntry) :=
  match fuel with
  | O => None
  | S fuel =>
      match ls with
      | [] => Some entries
      | l :: ls' =>
          match al_text l with
          | TextEmpty => listLoop keep fuel entries ls'
          | TextGarbage true => Some entries
          | TextGarbage false => listLoop keep fuel entries ls
          | TextOther => listLoop keep fuel entries ls'
          | TextEntry entry =>
              listLoop keep fuel (if keep entry then entries ++ [entry] else entries) ls'
          end
      end
  end.

Definition AuditLogger_ListEntries (fuel : nat) (since : Z) (device result action : string) (limit : Z)
    (f : AuditFile) : option (Res AuditErr (list AuditEntry)) :=
  match f with
  | AuditMissing => Some (Ok [])
  | AuditUnreadable => Some (Err ErrAuditRead)
  | AuditLines ls =>
      (fun entries => Ok (last_n limit entries)) <$> listLoop (listed since device result action) fuel [] ls
  end.

(** ** What the readers return *)

Definition entries_of (ls : list AuditLine) : list AuditEntry :=
  omap (fun l => match al_text l with TextEntry e => Some e | _ => None end) ls.

Definition no_garbage (ls : list AuditLine) : Prop :=
  Forall (fun l => forall b, al_text l <> TextGarbage b) ls.

(** The first [n] of a list, all of them when [n] is not positive. *)
Definition first_n {A} (n : Z) (l : list A) : list A := if decide (n > 0) then take (Z.to_nat n) l else l.

Lemma listLoop_reads keep ls fuel entries :
  no_garbage ls -> (length ls < fuel)%nat ->
  listLoop keep fuel entries ls = Some (entries ++ filter keep (entries_of ls)).
Proof.
  revert fuel entries. induction ls as [|l ls IH]; intros [|fuel] entries Hg Hf; simpl in *; try lia.
  { by rewrite app_nil_r. }
  apply Forall_cons in Hg as [Hl Hg]. unfold entries_of in *.
  destruct (al_text l) as [|e| |b] eqn:E; simpl; rewrite ?E; try (rewrite IH by (done || lia); done).
  - rewrite IH by (done || lia). destruct (keep e) eqn:Hk.
    + rewrite filter_cons_True; [by rewrite <- app_assoc|]. by rewrite Hk.
    + rewrite filter_cons_False; [done|]. rewrite Hk. by intros [].
  - by destruct (Hl b).
Qed.

Lemma listLoop_hangs keep fuel entries l ls ls' :
  al_text l = TextGarbage false -> no_garbage ls -> listLoop keep fuel entries (ls ++ l :: ls') = None.
Proof.
  intros Hl. revert entries ls. induction fuel as [|fuel IH]; intros entries ls Hg; [done|].
  destruct ls as [|x ls]; simpl.
  - rewrite Hl. apply (IH entries []). constructor.
  - apply Forall_cons in Hg as [Hx Hg]. destruct (al_text x) as [|e| |b] eqn:E; try by apply IH. by destruct (Hx b).
Qed.

Lemma queryLoop_reads filters ls results :
  Forall (fun l => al_len l < MaxScanTokenSize) ls ->
  (fl_Limit filters > 0 -> Z.of_nat (length results) < fl_Limit filters) ->
  queryLoop filters results ls =
    Ok (first_n (fl_Limit filters) (results ++ filter (fun e => matchesAuditFilters e filters) (entries_of ls))).
Proof.
  revert results. induction ls as [|l ls IH]; intros results Hlen Hlim; simpl.
  { rewrite app_nil_r. unfold first_n. case_decide; [|done]. rewrite take_ge; [done|]. specialize (Hlim H). lia. }
  apply Forall_cons in Hlen as [Hl Hlen]. rewrite decide_False by lia.
  destruct (al_text l) as [|e| |b] eqn:E; unfold entries_of; simpl; rewrite ?E; fold (entries_of ls);
    try (by rewrite IH).
  destruct (matchesAuditFilters e filters) eqn:Hm.
  2:{ rewrite filter_cons_False; [by rewrite IH|]. rewrite Hm. by intros []. }
  rewrite filter_cons_True by (by rewrite Hm).
  set (rest := filter _ (entries_of ls)).
  replace (results ++ e :: rest) with ((results ++ [e]) ++ rest) by (by rewrite <- app_assoc).
  case_decide as Hd.
  - unfold first_n. rewrite decide_True by tauto. rewrite length_app in Hd. simpl in Hd.
    rewrite take_app_length'; [reflexivity|]. rewrite length_app. simpl. specialize (Hlim (proj1 Hd)). lia.
  - rewrite IH; [done|done|]. intros Hpos. destruct (decide (Z.of_nat (length (results ++ [e])) < fl_Limit filters)); [done|].
    destruct Hd. split; lia.
Qed.

(** The two readers of an audit log.  On a log without garbage and with
    lines the scanner can hold, both end and agree with the entries of the file
    in order: [ListEntries] returns the last [limit] entries that match (all
    when the limit is not positive) after at most one round per line, and
    [Query], with the same filters, the first [limit]. *)
Theorem audit_readers_agree (ls : list AuditLine) (since limit : Z) (device result action : string)
    (fuel : nat) (Hg : no_garbage ls) (Hlen : Forall (fun l => al_len l < MaxScanTokenSize) ls)
    (Hfuel : (length ls < fuel)%nat) :
  let matching := filter (listed since device result action) (entries_of ls) in
  AuditLogger_ListEntries fuel since device result action limit (AuditLines ls) = Some (Ok (last_n limit matching)) /\
  AuditLogger_Query (mkFilters device action result since 0 limit) (AuditLines ls) = Ok (first_n limit matching).
Proof.
  intros matching. simpl. split.
  - by rewrite listLoop_reads.
  - rewrite queryLoop_reads; [|done|simpl; lia]. simpl. do 2 f_equal. apply list_filter_iff.
    intros e. unfold matchesAuditFilters, listed. simpl.
    repeat case_bool_decide; simpl; destruct (IsZero since), (Before (au_Timestamp e) since); simpl; done.
Qed.

Definition witness_entry (t : Z) (device : string) : AuditEntry := mkAudit t device "w" "read" "r" "allow" "".

Lemma audit_readers_agree_witness :
  let ls := [mkAuditLine 100 (TextEntry (witness_entry 1 "a")); mkAuditLine 90 (TextEntry (witness_entry 2 "b"));
             mkAuditLine 0 TextEmpty; mkAuditLine 100 (TextEntry (witness_entry 3 "a"))] in
  AuditLogger_ListEntries 5 0 "a" "" "" 1 (AuditLines ls) = Some (Ok [witness_entry 3 "a"]) /\
  AuditLogger_Query (mkFilters "a" "" "" 0 0 1) (AuditLines ls) = Ok [witness_entry 1 "a"].
Proof.
  intros ls. apply (audit_readers_agree ls 0 1 "a" "" "" 5); [| |simpl; lia].
  - by repeat constructor.
  - by repeat constructor.
Defined.

(** A malformed line makes [ListEntries] loop for ever.  When the log holds
    a line that is not JSON (and does not start with a closing bracket), such as
    one cut short, the loop over the decoder ends after no number of rounds,
    whatever the filters; [Query] skips such a line. *)
Theorem audit_listing_hangs (before after : list AuditLine) (bad : AuditLine) (fuel : nat)
    (since limit : Z) (device result action : string)
    (Hg : no_garbage before) (Hbad : al_text bad = TextGarbage false)
    (Hlen : Forall (fun l => al_len l < MaxScanTokenSize) (before ++ bad :: after)) :
  AuditLogger_ListEntries fuel since device result action limit (AuditLines (before ++ bad :: after)) = None /\
  AuditLogger_Query (mkFilters device action result since 0 limit) (AuditLines (before ++ bad :: after)) =
    AuditLogger_Query (mkFilters device action result since 0 limit) (AuditLines (before ++ after)).
Proof.
  simpl. split; [by rewrite listLoop_hangs|].
  apply Forall_app in Hlen as [Hb [Hx Ha]%Forall_cons].
  rewrite !queryLoop_reads; [|by apply Forall_app|simpl; lia|by apply Forall_app; split; [|constructor]|simpl; lia].
  unfold entries_of. rewrite !omap_app. simpl. by rewrite Hbad.
Qed.

Lemma audit_listing_hangs_witness :
  AuditLogger_ListEntries 1000 0 "" "" "" 10
    (AuditLines [mkAuditLine 100 (TextEntry (witness_entry 1 "a")); mkAuditLine 17 (TextGarbage false)]) = None.
Proof.
  apply (audit_listing_hangs [mkAuditLine 100 (TextEntry (witness_entry 1 "a"))] []
           (mkAuditLine 17 (TextGarbage false)) 1000 0 10 "" "" ""); [|done|]; by repeat constructor.
Defined.
