(* ===== verification/DeviceManager.v ===== *)
(** * The multi-device manager (src/internal/core/multidevice/manager.go)

    The entry point that composes links, presence, access control, publishing,
    synchronization, conflict resolution and auditing.  The per-workspace objects
    it caches (publishers, event stores, sync managers, resolution managers,
    audit loggers) keep no state but the files of the workspace, so the state is
    those files and the three in-memory components. *)

From Stdlib Require Import ZArith Lia.
From stdpp Require Import base option list list_numbers gmap strings fin_maps pretty.
From S2P Require Import Prelude Events EventStore OfflineQueue Conflicts Sync Links.
From S2P Require Import RateLimit Access Presence Broker AuditLog.

Open Scope Z_scope.

Record Manager : Type := mkManager {
  m_links : LinkStore;
  m_policies : PolicyStore;
  m_presenceFiles : gmap (string * string) (Doc DevicePresence);
  m_workspaces : gmap string SyncState;
  m_audit : gmap string AuditFile;
  m_tracker : PresenceTracker;
  m_limiter : RateLimiter;
  m_broker : Broker
}.

Definition NewSyncState : SyncState := mkSyncState NewEventStore ∅ ∅.

Definition workspaceOf (m : Manager) (w : string) : SyncState := default NewSyncState (m_workspaces m !! w).
Definition auditOf (m : Manager) (w : string) : AuditFile := default AuditMissing (m_audit m !! w).

Definition set_links (m : Manager) (l : LinkStore) : Manager :=
  mkManager l (m_policies m) (m_presenceFiles m) (m_workspaces m) (m_audit m) (m_tracker m) (m_limiter m) (m_broker m).
Definition set_presenceFiles (m : Manager) (f : gmap (string * string) (Doc DevicePresence)) : Manager :=
  mkManager (m_links m) (m_policies m) f (m_workspaces m) (m_audit m) (m_tracker m) (m_limiter m) (m_broker m).
Definition set_workspace (m : Manager) (w : string) (s : SyncState) : Manager :=
  mkManager (m_links m) (m_policies m) (m_presenceFiles m) (<[w := s]> (m_workspaces m)) (m_audit m)
    (m_tracker m) (m_limiter m) (m_broker m).
Definition set_audit (m : Manager) (w : string) (f : AuditFile) : Manager :=
  mkManager (m_links m) (m_policies m) (m_presenceFiles m) (m_workspaces m) (<[w := f]> (m_audit m))
    (m_tracker m) (m_limiter m) (m_broker m).
Definition set_tracker (m : Manager) (t : PresenceTracker) : Manager :=
  mkManager (m_links m) (m_policies m) (m_presenceFiles m) (m_workspaces m) (m_audit m) t (m_limiter m) (m_broker m).
Definition set_limiter (m : Manager) (rl : RateLimiter) : Manager :=
  mkManager (m_links m) (m_policies m) (m_presenceFiles m) (m_workspaces m) (m_audit m) (m_tracker m) rl (m_broker m).
Definition set_broker (m : Manager) (b : Broker) : Manager :=
  mkManager (m_links m) (m_policies m) (m_presenceFiles m) (m_workspaces m) (m_audit m) (m_tracker m) (m_limiter m) b.

Definition set_events (s : SyncState) (es : EventStore) : SyncState := mkSyncState es (st_conflicts s) (st_queues s).
Definition set_conflicts (s : SyncState) (cs : ConflictStore) : SyncState := mkSyncState (st_events s) cs (st_queues s).

(** The clock, generated id and faults of the system that a call meets. *)
Record CallEnv : Type := mkCallEnv {
  ce_now : Z;
  ce_uuid : string;
  ce_linkFails : bool;
  ce_storeFault : option StoreFault;
  ce_auditFails : bool;
  ce_fileFails : bool
}.

Section manager.
Context `{C : LineCodec, A : AuditCodec}.

(** [_ = pub.PublishEvent(event)]: errors are dropped, panics are not. *)
Definition publishTo (env : CallEnv) (m : Manager) (w : string) (event : WorkspaceEvent) : option Manager :=
  let ws := workspaceOf m w in
  '(es, b, _) ← PublishEvent (ce_storeFault env) w (st_events ws) (m_broker m) event;
  Some (set_broker (set_workspace m w (set_events ws es)) b).

(** [_ = logger.Log(entry)]. *)
Definition auditTo (env : CallEnv) (m : Manager) (w : string) (entry : AuditEntry) : Manager :=
  set_audit m w (AuditLogger_Log (ce_auditFails env) (ce_now env) w (auditOf m w) entry).1.

(** The outer result [None] is a panic. *)
Definition Manager_AttachDevice (env : CallEnv) (m : Manager) (workspaceID deviceID : string) (role : DeviceRole)
  : option (Manager * Res LinkErr WorkspaceDeviceLink) :=
  match Linker_AttachDevice (ce_now env) (ce_linkFails env) (m_links m) workspaceID deviceID role with
  | (links, Err e) => Some (set_links m links, Err e)
  | (links, Ok link) =>
      m1 ← publishTo env (set_links m links) workspaceID
             (NewEvent (ce_uuid env) (ce_now env) workspaceID deviceID EventDeviceLinked
                (Some {[ "role" := VString role ]}));
      Some (auditTo env m1 workspaceID (mkAudit 0 deviceID workspaceID "device.link" "" "allow" ""), Ok link)
  end.

Definition Manager_DetachDevice (env : CallEnv) (m : Manager) (workspaceID deviceID : string)
  : option (Manager * Res LinkErr unit) :=
  match Linker_DetachDevice (ce_linkFails env) (m_links m) workspaceID deviceID with
  | (links, Err e) => Some (set_links m links, Err e)
  | (links, Ok _) =>
      let m0 := set_tracker (set_links m links)
                  (PresenceTracker_RemovePresence (m_tracker m) deviceID workspaceID) in
      m1 ← publishTo env m0 workspaceID
             (NewEvent (ce_uuid env) (ce_now env) workspaceID deviceID EventDeviceUnlinked None);
      Some (auditTo env m1 workspaceID (mkAudit 0 deviceID workspaceID "device.unlink" "" "allow" ""), Ok tt)
  end.

End manager.

Definition Manager_GetDeviceLink (m : Manager) (workspaceID deviceID : string) : Res LinkErr WorkspaceDeviceLink :=
  Linker_GetLink (m_links m) workspaceID deviceID.

Definition Manager_UpdatePermissions (env : CallEnv) (m : Manager) (workspaceID deviceID : string)
    (perms : DevicePermissions) : Manager * Res LinkErr unit :=
  let '(links, r) := Linker_UpdatePermissions (ce_linkFails env) (m_links m) workspaceID deviceID perms in
  (set_links m links, r).

Definition Manager_SetRole (env : CallEnv) (m : Manager) (workspaceID deviceID : string) (role : DeviceRole)
  : Manager * Res LinkErr unit :=
  let '(links, r) := Linker_SetRole (ce_linkFails env) (m_links m) workspaceID deviceID role in
  (set_links m links, r).

(** ** Presence *)

Inductive HeartbeatErr : Type := ErrHeartbeat (e : PresenceErr) | ErrSavePresence.

Definition loadPresenceFile (m : Manager) (workspaceID deviceID : string) : option DevicePresence :=
  match m_presenceFiles m !! (workspaceID, deviceID) with Some (Parsed p) => Some p | _ => None end.

Definition savePresenceFile (env : CallEnv) (m : Manager) (workspaceID deviceID : string) (p : DevicePresence)
  : Manager * Res HeartbeatErr unit :=
  if ce_fileFails env then (m, Err ErrSavePresence)
  else (set_presenceFiles m (<[(workspaceID, deviceID) := Parsed p]> (m_presenceFiles m)), Ok tt).

Definition Manager_RecordHeartbeat (env : CallEnv) (m : Manager) (deviceID workspaceID : string)
  : Manager * Res HeartbeatErr unit :=
  match PresenceTracker_RecordHeartbeat (ce_now env) (m_tracker m) deviceID workspaceID with
  | (t, Err e) => (set_tracker m t, Err (ErrHeartbeat e))
  | (t, Ok _) =>
      let p := default (mkPresence deviceID workspaceID "" 0 0 "" 0 0) (loadPresenceFile m workspaceID deviceID) in
      savePresenceFile env (set_tracker m t) workspaceID deviceID
        (mkPresence (pr_DeviceID p) (pr_WorkspaceID p) PresenceOnline (ce_now env) (ce_now env)
           (pr_ClientVersion p) (pr_SyncLag p) (pr_OfflineQueue p))
  end.

(** The presence reported for a link: the record of the tracker, else the
    presence file, else what the link says. *)
Definition reportPresence (m : Manager) (workspaceID : string) (link : WorkspaceDeviceLink) : DevicePresence :=
  let from p := mkPresence (lk_DeviceID link) (lk_WorkspaceID link) (pr_State p) (pr_LastHeartbeat p)
                  (pr_LastActivity p) (pr_ClientVersion p) (pr_SyncLag p) (pr_OfflineQueue p) in
  match PresenceTracker_GetPresence (m_tracker m) (lk_DeviceID link) workspaceID with
  | Ok tracked => from tracked
  | Err _ =>
      match loadPresenceFile m workspaceID (lk_DeviceID link) with
      | Some pf => from pf
      | None => mkPresence (lk_DeviceID link) (lk_WorkspaceID link) (lk_Status link) (lk_LastSyncAt link)
                  (lk_LastSyncAt link) "" 0 0
      end
  end.

(** [entries]: the link files in directory order. *)
Definition Manager_GetDevicePresence (m : Manager) (entries : list (string * string * Doc WorkspaceDeviceLink))
    (workspaceID : string) : list DevicePresence :=
  reportPresence m workspaceID <$> ListLinks entries workspaceID.

(** ** Access *)

Definition Manager_CheckAccess `{AuditCodec} (env : CallEnv) (zones : Zones) (m : Manager)
    (workspaceID deviceID action resource : string) : Manager * option AccessDeniedError :=
  let '(rl, err) := EvaluatePermission (mkAccessEnv (m_links m) (m_policies m) zones (ce_now env)) (m_limiter m)
                      workspaceID deviceID action resource in
  let entry := match err with
               | Some ade => mkAudit 0 deviceID workspaceID action resource "deny" (ad_Reason ade)
               | None => mkAudit 0 deviceID workspaceID action resource "allow" ""
               end in
  (auditTo env (set_limiter m rl) workspaceID entry, err).

(** ** Synchronization, conflicts and events *)

Definition Manager_SyncDevice `{LineCodec} (env : CallEnv) (senv : SyncEnv) (m : Manager)
    (deviceID workspaceID : string) (lastVersion : Z) : Manager * Res SyncErr SyncResult :=
  match SyncManager_InitiateSync senv (workspaceOf m workspaceID) deviceID lastVersion with
  | (ws, Err e) => (set_workspace m workspaceID ws, Err e)
  | (ws, Ok result) =>
      let m := set_workspace m workspaceID ws in
      match Linker_GetLink (m_links m) workspaceID deviceID, EventStore_GetLatestVersion (st_events ws) with
      | Ok link, Ok latest =>
          (set_links m (SaveLink (ce_linkFails env) (m_links m)
                          (set_last_sync link (ce_now env) (pretty latest))).1, Ok result)
      | _, _ => (m, Ok result)
      end
  end.

(** [o]: the conflict files in directory order. *)
Definition Manager_ListConflicts (o : list (string * Doc Conflict)) (includeResolved : bool) : list Conflict :=
  ResolutionManager_ListConflicts o includeResolved.

Definition Manager_GetConflict (m : Manager) (workspaceID conflictID : string) : Res ConflictErr Conflict :=
  ResolutionManager_GetConflict (st_conflicts (workspaceOf m workspaceID)) conflictID.

Definition Manager_ResolveConflict (fault : option ConflictFault) (now : Z) (m : Manager)
    (workspaceID conflictID strategy choice : string) : Manager * Res ResolveErr unit :=
  let ws := workspaceOf m workspaceID in
  if decide (strategy = "lww") then
    match ResolutionManager_GetConflict (st_conflicts ws) conflictID with
    | Err e => (m, Err (ErrLoadConflict e))
    | Ok conflict =>
        match LWWResolver_Resolve now (Some conflict) with
        | Err e => (m, Err (ErrAutoResolve e))
        | Ok (_, conflict') =>
            let '(cs, r) := ConflictStore_Save fault (st_conflicts ws) (Some conflict') in
            (set_workspace m workspaceID (set_conflicts ws cs), map_err ErrSaveConflict r)
        end
    end
  else if decide (strategy = "manual") then
    let '(cs, r) := ResolutionManager_ResolveManually fault now (st_conflicts ws) conflictID strategy
                      (Some {[ "chosen_by" := VString choice ]}) in
    (set_workspace m workspaceID (set_conflicts ws cs), r)
  else (m, Err (ErrUnknownStrategy strategy)).

Definition Manager_GetEvents (m : Manager) (workspaceID : string) (since limit : Z)
  : Res StoreErr (list WorkspaceEvent) :=
  match EventStore_GetSince (st_events (workspaceOf m workspaceID)) since with
  | Ok events => Ok (last_n limit events)
  | Err e => Err e
  end.

(** ** Auditing *)

Section audited.
Context `{A : AuditCodec, K : !KeepsDecision A}.

(** Every entry marshals. *)
Definition audits_all : Prop := forall e, is_Some (persistEntry e).

Lemma Log_appends now w f e :
  audits_all -> f <> AuditUnreadable ->
  exists l e', AuditLogger_Log false now w f e = (AuditLines (audit_lines f ++ [l]), Ok tt) /\
    al_text l = TextEntry e' /\ same_decision (completed now w e) e'.
Proof.
  intros Hall Hf. destruct (Hall (completed now w e)) as [l Hl].
  destruct (persistEntry_keeps _ _ Hl) as (e' & He' & Hsame).
  exists l, e'. unfold AuditLogger_Log. rewrite Hl. by destruct f.
Qed.

End audited.

(** Every access decision is audited.  [CheckAccess] answers as the
    permission chain does, and appends exactly one line to the audit log of the
    workspace, an entry with the device, action, resource, the time and the
    decision; apart from the limiter nothing else of the manager changes. *)
Theorem CheckAccess_audited `{A : AuditCodec} (K : KeepsDecision A) (env : CallEnv) (zones : Zones) (m : Manager)
    (w d action resource : string)
    (Hall : audits_all) (Hfile : auditOf m w <> AuditUnreadable) (Hlog : ce_auditFails env = false)
    (Hnow : ce_now env <> 0) (Hw : w <> "") :
  let out := EvaluatePermission (mkAccessEnv (m_links m) (m_policies m) zones (ce_now env)) (m_limiter m)
               w d action resource in
  exists m' l e, Manager_CheckAccess env zones m w d action resource = (m', out.2) /\
    auditOf m' w = AuditLines (audit_lines (auditOf m w) ++ [l]) /\ al_text l = TextEntry e /\
    au_Timestamp e = ce_now env /\ au_DeviceID e = d /\ au_WorkspaceID e = w /\ au_Action e = action /\
    au_Resource e = resource /\
    (au_Result e = "allow" /\ out.2 = None \/ au_Result e = "deny" /\ is_Some out.2) /\
    m' = set_audit (set_limiter m out.1) w (auditOf m' w).
Proof.
  intros out. unfold Manager_CheckAccess. fold out.
  destruct out as [rl err] eqn:Hout.
  set (entry := match err with Some _ => _ | None => _ end).
  destruct (Log_appends (ce_now env) w (auditOf m w) entry Hall Hfile) as (l & e & Hl & He & Hs).
  unfold auditTo. rewrite Hlog. change (auditOf (set_limiter m rl) w) with (auditOf m w). rewrite Hl. simpl.
  eexists _, l, e. split; [done|].
  unfold auditOf; simpl. rewrite lookup_insert_eq. simpl.
  destruct Hs as (H1 & H2 & H3 & H4 & H5 & H6). rewrite H1, H2, H3, H4, H5, H6. unfold completed.
  destruct err; simpl; rewrite ?decide_False by done; split_and!; try done; eauto.
Qed.

(** ** The life of a device in a workspace *)

Section life.
Context `{C : LineCodec, K : !KeepsEnvelope C, A : AuditCodec, KA : !KeepsDecision A}.

(** A workspace of the manager whose log holds [evs] at version [n]. *)
Definition log_of (m : Manager) (w : string) (n : Z) (evs : list WorkspaceEvent) : Prop :=
  log_ok (st_events (workspaceOf m w)) n evs.

Lemma PublishEvent_ok w s b n evs e :
  broker_ok b -> log_ok s n evs -> n < max_int64 -> fits e ->
  exists s' b' e', PublishEvent None w s b e = Some (s', b', Ok tt) /\ broker_ok b' /\
    log_ok s' (n + 1) (evs ++ [e']) /\ same_envelope (set_Version e (n + 1)) e'.
Proof.
  intros Hb Hl Hn Hf. destruct (Store_log_ok s n evs e Hl Hn Hf) as (s' & e' & HS & Hl' & He').
  unfold PublishEvent. rewrite HS.
  destruct (Publish_ok b (WorkspaceChannel w) (set_Version e (n + 1)) Hb) as (b1 & -> & Hb1 & _). simpl.
  case_decide; [by eexists _, _, _|].
  destruct (Publish_ok b1 (DeviceChannel w (ev_DeviceID e)) (set_Version e (n + 1)) Hb1) as (b2 & -> & Hb2 & _).
  simpl. by eexists _, _, _.
Qed.

Lemma publishTo_ok env m w n evs e :
  ce_storeFault env = None -> broker_ok (m_broker m) -> log_of m w n evs -> n < max_int64 -> fits e ->
  exists m' e', publishTo env m w e = Some m' /\ broker_ok (m_broker m') /\ log_of m' w (n + 1) (evs ++ [e']) /\
    same_envelope (set_Version e (n + 1)) e' /\ m_links m' = m_links m /\ m_tracker m' = m_tracker m /\
    m_audit m' = m_audit m.
Proof.
  intros Hs Hb Hl Hn Hf. unfold publishTo. rewrite Hs.
  destruct (PublishEvent_ok w _ (m_broker m) n evs e Hb Hl Hn Hf) as (s' & b' & e' & -> & Hb' & Hl' & He').
  simpl. eexists _, e'. split; [done|]. split_and!; try done.
  unfold log_of, workspaceOf. simpl. by rewrite lookup_insert_eq.
Qed.

Lemma auditTo_ok env m w e :
  ce_auditFails env = false -> audits_all -> auditOf m w <> AuditUnreadable ->
  exists l e', auditOf (auditTo env m w e) w = AuditLines (audit_lines (auditOf m w) ++ [l]) /\
    al_text l = TextEntry e' /\ same_decision (completed (ce_now env) w e) e'.
Proof.
  intros Hf Hall Hu. destruct (Log_appends (ce_now env) w (auditOf m w) e Hall Hu) as (l & e' & Hl & He).
  exists l, e'. unfold auditTo. rewrite Hf, Hl. unfold auditOf; simpl. by rewrite lookup_insert_eq.
Qed.

Lemma Manager_AttachDevice_ok env m w d role n evs err :
  ce_storeFault env = None -> ce_auditFails env = false -> ce_linkFails env = false ->
  broker_ok (m_broker m) -> audits_all -> auditOf m w <> AuditUnreadable ->
  log_of m w n evs -> n < max_int64 -> (forall e, fits e) ->
  w <> "" -> d <> "" -> IsValidRole role = true -> LoadLink (m_links m) w d = Err err ->
  exists m' link e l a, Manager_AttachDevice env m w d role = Some (m', Ok link) /\
    LoadLink (m_links m') w d = Ok link /\ lk_Permissions link = PermissionsForRole role /\
    broker_ok (m_broker m') /\ log_of m' w (n + 1) (evs ++ [e]) /\
    ev_EventType e = EventDeviceLinked /\ ev_DeviceID e = d /\
    auditOf m' w = AuditLines (audit_lines (auditOf m w) ++ [l]) /\ al_text l = TextEntry a /\
    au_Action a = "device.link" /\ au_DeviceID a = d.
Proof.
  intros Hsf Haf Hlf Hb Hall Hu Hl Hn Hfit Hw Hd Hrole Hfree. unfold Manager_AttachDevice. rewrite Hlf.
  unfold Linker_AttachDevice. rewrite !decide_False, Hrole, Hfree by done. simpl.
  unfold SaveLink. simpl. rewrite !decide_False by done.
  set (link := mkLink w d (ce_now env) d (PermissionsForRole role) PresenceLinking "" 0).
  set (m0 := set_links m (<[(w, d) := Parsed link]> (m_links m))).
  set (ev := NewEvent _ _ _ _ _ _).
  destruct (publishTo_ok env m0 w n evs ev Hsf Hb Hl Hn (Hfit ev))
    as (m1 & e & -> & Hb1 & Hl1 & (_ & _ & Hdev & _ & Hty & _) & Hlinks & _ & Haud).
  cbn [mbind option_bind]. set (ae := mkAudit _ _ _ _ _ _ _).
  assert (auditOf m1 w = auditOf m w) as Hao by (unfold auditOf; by rewrite Haud).
  destruct (auditTo_ok env m1 w ae Haf Hall) as (l & a & Ha & Htext & (_ & Had & _ & Hact & _)); [by rewrite Hao|].
  rewrite Hao in Ha. eexists _, link, e, l, a. split; [done|].
  split_and!; try done. apply LoadLink_Ok. cbn [auditTo set_audit m_links]. rewrite Hlinks. apply lookup_insert_eq.
Qed.

Lemma Manager_DetachDevice_ok env m w d n evs link :
  ce_storeFault env = None -> ce_auditFails env = false -> ce_linkFails env = false ->
  broker_ok (m_broker m) -> audits_all -> auditOf m w <> AuditUnreadable ->
  log_of m w n evs -> n < max_int64 -> (forall e, fits e) ->
  w <> "" -> d <> "" -> LoadLink (m_links m) w d = Ok link ->
  exists m' e l a, Manager_DetachDevice env m w d = Some (m', Ok tt) /\
    LoadLink (m_links m') w d = Err (ErrLinkNotFound w d) /\
    m_tracker m' !! presenceKey w d = None /\
    broker_ok (m_broker m') /\ log_of m' w (n + 1) (evs ++ [e]) /\
    ev_EventType e = EventDeviceUnlinked /\ ev_DeviceID e = d /\
    auditOf m' w = AuditLines (audit_lines (auditOf m w) ++ [l]) /\ al_text l = TextEntry a /\
    au_Action a = "device.unlink" /\ au_DeviceID a = d.
Proof.
  intros Hsf Haf Hlf Hb Hall Hu Hl Hn Hfit Hw Hd Hlink. unfold Manager_DetachDevice. rewrite Hlf.
  unfold Linker_DetachDevice. rewrite !decide_False, Hlink by done.
  apply LoadLink_Ok in Hlink. unfold DeleteLink. rewrite Hlink.
  set (m0 := set_tracker _ _). set (ev := NewEvent _ _ _ _ _ _).
  destruct (publishTo_ok env m0 w n evs ev Hsf Hb Hl Hn (Hfit ev))
    as (m1 & e & -> & Hb1 & Hl1 & (_ & _ & Hdev & _ & Hty & _) & Hlinks & Htr & Haud).
  cbn [mbind option_bind]. set (ae := mkAudit _ _ _ _ _ _ _).
  assert (auditOf m1 w = auditOf m w) as Hao by (unfold auditOf; by rewrite Haud).
  destruct (auditTo_ok env m1 w ae Haf Hall) as (l & a & Ha & Htext & (_ & Had & _ & Hact & _)); [by rewrite Hao|].
  rewrite Hao in Ha. eexists _, e, l, a. split; [done|]. split_and!; try done.
  - unfold LoadLink. cbn [auditTo set_audit m_links]. rewrite Hlinks. simpl. by rewrite lookup_delete_eq.
  - cbn [auditTo set_audit m_tracker]. rewrite Htr. simpl. apply lookup_delete_eq.
Qed.

End life.

(** Attaching and detaching a device, end to end.  Without faults, attaching
    an unlinked device stores its link, appends a device.linked event with the
    next version and an audit entry; detaching it then removes link and presence
    record, appends the device.unlinked event with the version after and another
    audit entry; from then on every access of the device to the workspace is
    denied for want of a link.  Broadcasting never panics. *)
Theorem device_lifecycle `{C : LineCodec} (K : KeepsEnvelope C) `{A : AuditCodec} (KA : KeepsDecision A)
    (env env' : CallEnv) (m : Manager) (w d : string) (role : DeviceRole) (n : Z) (evs : list WorkspaceEvent)
    (err : LinkErr)
    (Henv : ce_storeFault env = None /\ ce_auditFails env = false /\ ce_linkFails env = false)
    (Henv' : ce_storeFault env' = None /\ ce_auditFails env' = false /\ ce_linkFails env' = false)
    (Hb : broker_ok (m_broker m)) (Hall : audits_all) (Hfit : forall e, fits e)
    (Haudit : auditOf m w <> AuditUnreadable) (Hlog : log_of m w n evs) (Hn : n + 1 < max_int64)
    (Hw : w <> "") (Hd : d <> "") (Hrole : IsValidRole role = true)
    (Hfree : LoadLink (m_links m) w d = Err err) :
  exists m1 link m2 e1 e2 l1 l2,
    Manager_AttachDevice env m w d role = Some (m1, Ok link) /\
    Manager_GetDeviceLink m1 w d = Ok link /\ lk_Permissions link = PermissionsForRole role /\
    Manager_DetachDevice env' m1 w d = Some (m2, Ok tt) /\
    log_of m2 w (n + 2) ((evs ++ [e1]) ++ [e2]) /\
    (ev_EventType e1, ev_DeviceID e1) = (EventDeviceLinked, d) /\
    (ev_EventType e2, ev_DeviceID e2) = (EventDeviceUnlinked, d) /\
    auditOf m2 w = AuditLines ((audit_lines (auditOf m w) ++ [l1]) ++ [l2]) /\
    PresenceTracker_IsOnline (m_tracker m2) d w = false /\
    forall env3 zones action resource,
      ad_Step <$> (Manager_CheckAccess env3 zones m2 w d action resource).2 = Some "link_existence".
Proof.
  destruct Henv as (Hs1 & Ha1 & Hl1), Henv' as (Hs2 & Ha2 & Hl2).
  destruct (Manager_AttachDevice_ok env m w d role n evs err)
    as (m1 & link & e1 & l1 & a1 & HA & Hlink & Hp & Hb1 & Hlog1 & Ht1 & Hd1 & Hau1 & _); try done; [lia|].
  destruct (Manager_DetachDevice_ok env' m1 w d (n + 1) (evs ++ [e1]) link)
    as (m2 & e2 & l2 & a2 & HD & Hnone & Htr & Hb2 & Hlog2 & Ht2 & Hd2 & Hau2 & _); try done; [by rewrite Hau1|].
  exists m1, link, m2, e1, e2, l1, l2. split_and!; try done.
  - by replace (n + 2) with (n + 1 + 1) by lia.
  - by rewrite Ht1, Hd1.
  - by rewrite Ht2, Hd2.
  - by rewrite Hau2, Hau1.
  - unfold PresenceTracker_IsOnline. by rewrite Htr.
  - intros env3 zones action resource. unfold Manager_CheckAccess, EvaluatePermission, Linker_GetLink.
    cbn [ae_links]. by rewrite Hnone.
Qed.

(** Choosing "lww" reopens a settled conflict.  A conflict that was resolved
    by hand is refused by a second manual resolution, but [ResolveConflict] with
    strategy "lww" overwrites it: the conflict becomes auto_resolved with the
    last writer's payload and the choice made by hand is gone. *)
Theorem lww_overrides_manual_resolution (now : Z) (m : Manager) (w id choice : string) (c : Conflict)
    (Hload : Manager_GetConflict m w id = Ok c) (Hid : cf_ID c = id)
    (Hres : cf_Status c = ConflictResolved) (Hev : cf_Events c <> []) :
  (exists m', Manager_ResolveConflict None now m w id "manual" choice = (m', Err (ErrAlreadyResolved id)) /\
     Manager_GetConflict m' w id = Ok c) /\
  exists m' e es, Manager_ResolveConflict None now m w id "lww" choice = (m', Ok tt) /\ cf_Events c = e :: es /\
    Manager_GetConflict m' w id =
      Ok (set_outcome c ConflictAutoResolved (Some now)
            (Some (mkResolution "lww" (ev_ID (lwwWinner e es)) (ev_Payload (lwwWinner e es)) "auto"))).
Proof.
  unfold Manager_GetConflict, ResolutionManager_GetConflict in *. split.
  - unfold Manager_ResolveConflict. simpl. unfold ResolutionManager_ResolveManually. rewrite Hload.
    unfold is_resolved_status. rewrite Hres. simpl. eexists. split; [done|].
    unfold workspaceOf at 1; simpl. by rewrite lookup_insert_eq.
  - destruct (cf_Events c) as [|e es] eqn:He; [done|].
    unfold Manager_ResolveConflict. simpl. unfold ResolutionManager_GetConflict. rewrite Hload, He. simpl.
    eexists _, e, es. split; [done|]. split; [done|].
    unfold workspaceOf at 1; simpl. rewrite lookup_insert_eq. simpl.
    rewrite <- Hid. apply (Load_Save _ (set_outcome c _ _ _)).
Qed.

(** ** Witnesses *)

Definition plain_audit : AuditCodec := fun e => Some (mkAuditLine 200 (TextEntry e)).

#[export] Instance plain_audit_keeps : KeepsDecision plain_audit.
Proof. intros e l [= <-]. by exists e. Qed.

Lemma plain_audit_all : @audits_all plain_audit.
Proof. intros e. by eexists. Qed.

Definition NewManager : Manager := mkManager ∅ ∅ ∅ ∅ ∅ NewPresenceTracker NewRateLimiter NewBroker.

Definition quiet_call (now : Z) : CallEnv := mkCallEnv now "u" false None false false.

Lemma CheckAccess_audited_witness :
  exists m' l e, @Manager_CheckAccess plain_audit (quiet_call 7) witness_zones NewManager "w" "d" "read" "r" =
    (m', Some (mkDenied "d" "w" "read" "r" "device is not linked to this workspace" "link_existence"
                 "link the device first: aps workspace device attach d" 0)) /\
    auditOf m' "w" = AuditLines [l] /\ al_text l = TextEntry e /\ au_Result e = "deny".
Proof.
  destruct (@CheckAccess_audited plain_audit plain_audit_keeps (quiet_call 7) witness_zones NewManager "w" "d" "read" "r"
              plain_audit_all ltac:(done) eq_refl ltac:(done) ltac:(done))
    as (m' & l & e & Heq & Hau & Ht & _ & _ & _ & _ & _ & [[_ Hn]|[Hr _]] & _); [done|].
  exists m', l, e. split; [exact Heq|]. done.
Defined.

Lemma device_lifecycle_witness :
  exists m1 link m2,
    @Manager_AttachDevice small_codec plain_audit (quiet_call 7) NewManager "w" "d" RoleViewer = Some (m1, Ok link) /\
    @Manager_DetachDevice small_codec plain_audit (quiet_call 8) m1 "w" "d" = Some (m2, Ok tt) /\
    ad_Step <$> (@Manager_CheckAccess plain_audit (quiet_call 9) witness_zones m2 "w" "d" "read" "r").2
      = Some "link_existence".
Proof.
  destruct (@device_lifecycle small_codec _ plain_audit plain_audit_keeps (quiet_call 7) (quiet_call 8) NewManager
              "w" "d" RoleViewer 0 [] (ErrLinkNotFound "w" "d"))
    as (m1 & link & m2 & e1 & e2 & l1 & l2 & HA & _ & _ & HD & _ & _ & _ & _ & _ & Hacc); try done.
  - apply NewBroker_ok.
  - apply plain_audit_all.
  - apply small_fits.
  - exists m1, link, m2. split; [exact HA|]. split; [exact HD|]. apply Hacc.
Defined.

Lemma lww_overrides_manual_resolution_witness :
  let c := mkConflict "c1" "w" ConflictSemantic ConflictResolved "doc" [witness_event] 1 (Some 2)
             (Some (mkResolution "manual" "" None "manual")) in
  let m := set_workspace NewManager "w" (mkSyncState NewEventStore {[ "c1" := Parsed c ]} ∅) in
  exists m', Manager_ResolveConflict None 3 m "w" "c1" "lww" "x" = (m', Ok tt).
Proof.
  intros c m. destruct (lww_overrides_manual_resolution 3 m "w" "c1" "x" c) as [_ (m' & e & es & H & _)];
    [by vm_compute|done|done|done|]. by exists m'.
Defined.
