(* ===== verification/Workspace.v ===== *)
(** * Collaboration workspaces (src/internal/core/collaboration/types.go, workspace.go)

    A workspace, its members and roles, and its life cycle. *)

From Stdlib Require Import ZArith Lia.
From stdpp Require Import base option list gmap strings fin_maps.
From S2P Require Import Prelude.

Open Scope Z_scope.

(** ** States, roles and configuration *)

Abbreviation WorkspaceState := string.
Definition StateCreating : WorkspaceState := "creating".
Definition StateActive : WorkspaceState := "active".
Definition StateClosing : WorkspaceState := "closing".
Definition StateArchived : WorkspaceState := "archived".

Definition ValidWorkspaceStates : list WorkspaceState := [StateCreating; StateActive; StateClosing; StateArchived].

(** [true]: no error. *)
Definition WorkspaceState_Validate (s : WorkspaceState) : bool :=
  bool_decide (s = StateCreating \/ s = StateActive \/ s = StateClosing \/ s = StateArchived).

Abbreviation AgentRole := string.
Definition RoleOwner : AgentRole := "owner".
Definition RoleContributor : AgentRole := "contributor".
Definition RoleObserver : AgentRole := "observer".

Definition ValidAgentRoles : list AgentRole := [RoleOwner; RoleContributor; RoleObserver].

Definition AgentRole_Validate (r : AgentRole) : bool :=
  bool_decide (r = RoleOwner \/ r = RoleContributor \/ r = RoleObserver).

Definition CanWrite (r : AgentRole) : bool := bool_decide (r = RoleOwner \/ r = RoleContributor).
Definition CanAdmin (r : AgentRole) : bool := bool_decide (r = RoleOwner).

Abbreviation ResolutionStrategy := string.
Definition StrategyPriority : ResolutionStrategy := "priority".

Record WorkspaceConfig : Type := mkConfig {
  cg_Name : string;
  cg_Description : string;
  cg_OwnerProfileID : string;
  cg_DefaultPolicy : ResolutionStrategy;
  cg_HeartbeatInterval : Z;
  cg_SessionTimeout : Z;
  cg_MaxAgents : Z
}.

Inductive WsErr : Type :=
  | ErrNameRequired | ErrOwnerRequired | ErrNotActive (state : WorkspaceState)
  | ErrAlreadyMember (profileID : string) | ErrCapacity (max : Z) | ErrNotMember (profileID : string)
  | ErrLastOwner | ErrInvalidAgentRole (r : AgentRole) | ErrInvalidState (s : WorkspaceState)
  | ErrTransition (from to : WorkspaceState) | ErrArchived.

(** Checks the required fields and fills in the defaults. *)
Definition WorkspaceConfig_Validate (c : WorkspaceConfig) : Res WsErr WorkspaceConfig :=
  if decide (cg_Name c = "") then Err ErrNameRequired else
  if decide (cg_OwnerProfileID c = "") then Err ErrOwnerRequired else
  Ok (mkConfig (cg_Name c) (cg_Description c) (cg_OwnerProfileID c)
        (if decide (cg_DefaultPolicy c = "") then StrategyPriority else cg_DefaultPolicy c)
        (if decide (cg_HeartbeatInterval c = 0) then 10 * Second else cg_HeartbeatInterval c)
        (if decide (cg_SessionTimeout c = 0) then 30 * Second else cg_SessionTimeout c)
        (if decide (cg_MaxAgents c = 0) then 50 else cg_MaxAgents c)).

Record AgentInfo : Type := mkAgent {
  ag_ProfileID : string;
  ag_DisplayName : string;
  ag_Role : AgentRole;
  ag_Capabilities : list string;
  ag_JoinedAt : Z;
  ag_LastSeen : Z;
  ag_SessionID : string;
  ag_Status : string;
  ag_Metadata : gmap string string
}.

Definition set_role (a : AgentInfo) (r : AgentRole) : AgentInfo :=
  mkAgent (ag_ProfileID a) (ag_DisplayName a) r (ag_Capabilities a) (ag_JoinedAt a) (ag_LastSeen a)
    (ag_SessionID a) (ag_Status a) (ag_Metadata a).

Definition set_status (a : AgentInfo) (status : string) (now : Z) : AgentInfo :=
  mkAgent (ag_ProfileID a) (ag_DisplayName a) (ag_Role a) (ag_Capabilities a) (ag_JoinedAt a) now
    (ag_SessionID a) status (ag_Metadata a).

Record PolicyConfig : Type := mkPolicyConfig {
  pc_Default : ResolutionStrategy;
  pc_Overrides : gmap string ResolutionStrategy
}.

Definition GetStrategy (p : PolicyConfig) (resource : string) : ResolutionStrategy :=
  default (pc_Default p) (pc_Overrides p !! resource).

(** ** The workspace; its context is a component of its own. *)

Record Workspace : Type := mkWorkspace {
  ws_ID : string;
  ws_Config : WorkspaceConfig;
  ws_State : WorkspaceState;
  ws_Agents : list AgentInfo;
  ws_Policy : PolicyConfig;
  ws_CreatedAt : Z;
  ws_UpdatedAt : Z
}.

Definition set_agents (ws : Workspace) (agents : list AgentInfo) (now : Z) : Workspace :=
  mkWorkspace (ws_ID ws) (ws_Config ws) (ws_State ws) agents (ws_Policy ws) (ws_CreatedAt ws) now.

Definition newAgent (now : Z) (profileID : string) (role : AgentRole) : AgentInfo :=
  mkAgent profileID "" role [] now now "" "online" ∅.

Definition NewWorkspace (uuid : string) (now : Z) (config : WorkspaceConfig) : Res WsErr Workspace :=
  match WorkspaceConfig_Validate config with
  | Err e => Err e
  | Ok config =>
      Ok (mkWorkspace uuid config StateActive [newAgent now (cg_OwnerProfileID config) RoleOwner]
            (mkPolicyConfig (cg_DefaultPolicy config) ∅) now now)
  end.

Definition HasAgent (ws : Workspace) (profileID : string) : bool :=
  bool_decide (profileID ∈ (ag_ProfileID <$> ws_Agents ws)).

Definition AddAgent (now : Z) (ws : Workspace) (profileID : string) (role : AgentRole)
  : Workspace * Res WsErr AgentInfo :=
  if decide (ws_State ws <> StateActive) then (ws, Err (ErrNotActive (ws_State ws))) else
  if decide (profileID ∈ (ag_ProfileID <$> ws_Agents ws)) then (ws, Err (ErrAlreadyMember profileID)) else
  if decide (cg_MaxAgents (ws_Config ws) > 0 /\ Z.of_nat (length (ws_Agents ws)) >= cg_MaxAgents (ws_Config ws))
  then (ws, Err (ErrCapacity (cg_MaxAgents (ws_Config ws)))) else
  let agent := newAgent now profileID role in
  (set_agents ws (ws_Agents ws ++ [agent]) now, Ok agent).

(** The first agent with the profile id, and its position. *)
Definition findAgent (agents : list AgentInfo) (profileID : string) : option (nat * AgentInfo) :=
  list_find (fun a => ag_ProfileID a = profileID) agents.

Definition ownerCount (agents : list AgentInfo) : Z :=
  Z.of_nat (length (filter (fun a => ag_Role a = RoleOwner) agents)).

Definition RemoveAgent (now : Z) (ws : Workspace) (profileID : string) : Workspace * Res WsErr unit :=
  match findAgent (ws_Agents ws) profileID with
  | None => (ws, Err (ErrNotMember profileID))
  | Some (idx, a) =>
      if decide (ag_Role a = RoleOwner /\ ownerCount (ws_Agents ws) <= 1) then (ws, Err ErrLastOwner)
      else (set_agents ws (take idx (ws_Agents ws) ++ drop (S idx) (ws_Agents ws)) now, Ok tt)
  end.

Definition GetAgent (ws : Workspace) (profileID : string) : Res WsErr AgentInfo :=
  match findAgent (ws_Agents ws) profileID with
  | Some (_, a) => Ok a
  | None => Err (ErrNotMember profileID)
  end.

Definition SetAgentRole (now : Z) (ws : Workspace) (profileID : string) (role : AgentRole)
  : Workspace * Res WsErr unit :=
  if negb (AgentRole_Validate role) then (ws, Err (ErrInvalidAgentRole role)) else
  match findAgent (ws_Agents ws) profileID with
  | None => (ws, Err (ErrNotMember profileID))
  | Some (i, a) =>
      if decide (ag_Role a = RoleOwner /\ role <> RoleOwner /\ ownerCount (ws_Agents ws) <= 1)
      then (ws, Err ErrLastOwner)
      else (set_agents ws (<[i := set_role a role]> (ws_Agents ws)) now, Ok tt)
  end.

Definition UpdateAgentStatus (now : Z) (ws : Workspace) (profileID status : string) : Workspace * Res WsErr unit :=
  match findAgent (ws_Agents ws) profileID with
  | None => (ws, Err (ErrNotMember profileID))
  | Some (i, a) =>
      (set_agents ws (<[i := set_status a status now]> (ws_Agents ws)) (ws_UpdatedAt ws), Ok tt)
  end.

Definition SetState (now : Z) (ws : Workspace) (state : WorkspaceState) : Workspace * Res WsErr unit :=
  if negb (WorkspaceState_Validate state) then (ws, Err (ErrInvalidState state)) else
  let go := (mkWorkspace (ws_ID ws) (ws_Config ws) state (ws_Agents ws) (ws_Policy ws) (ws_CreatedAt ws) now, Ok tt) in
  let stay := (ws, Err (ErrTransition (ws_State ws) state)) in
  if decide (ws_State ws = StateCreating) then
    if decide (state <> StateActive /\ state <> StateArchived) then stay else go
  else if decide (ws_State ws = StateActive) then
    if decide (state <> StateClosing /\ state <> StateArchived) then stay else go
  else if decide (ws_State ws = StateClosing) then
    if decide (state <> StateArchived) then stay else go
  else if decide (ws_State ws = StateArchived) then (ws, Err ErrArchived)
  else go.

Definition OnlineAgentCount (ws : Workspace) : Z :=
  Z.of_nat (length (filter (fun a => ag_Status a = "online") (ws_Agents ws))).

Definition IsOwner (ws : Workspace) (profileID : string) : bool :=
  existsb (fun a => bool_decide (ag_ProfileID a = profileID) && bool_decide (ag_Role a = RoleOwner)) (ws_Agents ws).

(** ** The invariant *)

Definition owners (agents : list AgentInfo) : list AgentInfo := filter (fun a => ag_Role a = RoleOwner) agents.

Record ws_ok (ws : Workspace) : Prop := {
  ok_unique : NoDup (ag_ProfileID <$> ws_Agents ws);
  ok_owner : 1 <= ownerCount (ws_Agents ws);
  ok_capacity : cg_MaxAgents (ws_Config ws) > 0 -> Z.of_nat (length (ws_Agents ws)) <= cg_MaxAgents (ws_Config ws);
  ok_state : ws_State ws ∈ ValidWorkspaceStates
}.

Inductive WsOp : Type :=
  | OpAddAgent (profileID : string) (role : AgentRole)
  | OpRemoveAgent (profileID : string)
  | OpSetAgentRole (profileID : string) (role : AgentRole)
  | OpUpdateAgentStatus (profileID status : string)
  | OpSetState (state : WorkspaceState).

(** The workspace after a call, and whether the call succeeded. *)
Definition ws_step (now : Z) (ws : Workspace) (op : WsOp) : Workspace * bool :=
  match op with
  | OpAddAgent p r => let x := AddAgent now ws p r in (x.1, is_ok x.2)
  | OpRemoveAgent p => let x := RemoveAgent now ws p in (x.1, is_ok x.2)
  | OpSetAgentRole p r => let x := SetAgentRole now ws p r in (x.1, is_ok x.2)
  | OpUpdateAgentStatus p s => let x := UpdateAgentStatus now ws p s in (x.1, is_ok x.2)
  | OpSetState s => let x := SetState now ws s in (x.1, is_ok x.2)
  end.

Lemma findAgent_Some agents p i a :
  findAgent agents p = Some (i, a) -> agents !! i = Some a /\ ag_ProfileID a = p.
Proof. intros (Hi & Hp & _)%list_find_Some. done. Qed.

Lemma ownerCount_app l k : ownerCount (l ++ k) = ownerCount l + ownerCount k.
Proof. unfold ownerCount. rewrite filter_app, length_app. lia. Qed.

Lemma ownerCount_cons a l : ownerCount (a :: l) = (if decide (ag_Role a = RoleOwner) then 1 else 0) + ownerCount l.
Proof.
  unfold ownerCount. case_decide; [rewrite filter_cons_True by done; simpl; lia | by rewrite filter_cons_False].
Qed.

Lemma ownerCount_split l i a :
  l !! i = Some a ->
  ownerCount l = (if decide (ag_Role a = RoleOwner) then 1 else 0) + ownerCount (take i l ++ drop (S i) l).
Proof.
  intros Hi. rewrite <- (take_drop_middle l i a Hi) at 1. rewrite !ownerCount_app, ownerCount_cons. lia.
Qed.

Lemma ownerCount_insert l i a b :
  l !! i = Some a ->
  ownerCount (<[i := b]> l) = ownerCount l - (if decide (ag_Role a = RoleOwner) then 1 else 0)
                              + (if decide (ag_Role b = RoleOwner) then 1 else 0).
Proof.
  intros Hi. pose proof (lookup_lt_Some _ _ _ Hi). rewrite insert_take_drop by done.
  rewrite (ownerCount_split l i a Hi), !ownerCount_app, ownerCount_cons. lia.
Qed.

Lemma ids_insert (l : list AgentInfo) i a b :
  l !! i = Some a -> ag_ProfileID b = ag_ProfileID a -> ag_ProfileID <$> <[i := b]> l = ag_ProfileID <$> l.
Proof.
  intros Hi Hb. rewrite list_fmap_insert, Hb. apply list_insert_id. by rewrite list_lookup_fmap, Hi.
Qed.

Lemma ws_step_ok now ws op : ws_ok ws -> ws_ok (ws_step now ws op).1.
Proof.
  intros Hok. pose proof Hok as [Hu Ho Hc Hs]. destruct op as [p r|p|p r|p s|s]; simpl.
  - unfold AddAgent. repeat (case_decide; [done|]). split; simpl; try done.
    + rewrite fmap_app. apply NoDup_app. split_and!; [done| |apply NoDup_singleton].
      intros x Hx ->%list_elem_of_singleton. done.
    + rewrite ownerCount_app. unfold ownerCount in *. lia.
    + intros Hm. rewrite length_app. simpl. lia.
  - unfold RemoveAgent. destruct (findAgent _ p) as [[i a]|] eqn:Hf; [|done].
    apply findAgent_Some in Hf as [Hi _]. case_decide as Hd; [done|]. simpl.
    pose proof (ownerCount_split _ i a Hi) as Hsplit.
    assert (length (take i (ws_Agents ws) ++ drop (S i) (ws_Agents ws)) <= length (ws_Agents ws))%nat as Hlen
      by (rewrite length_app, length_take, length_drop; lia).
    split; simpl; try done.
    + rewrite <- (take_drop_middle _ i a Hi), fmap_app, fmap_cons in Hu. rewrite fmap_app.
      apply NoDup_app in Hu as (Hu1 & Hu2 & Hu3). apply NoDup_cons in Hu3 as [_ Hu3]. apply NoDup_app.
      split_and!; [done| |done]. intros x Hx Hy. apply (Hu2 x Hx). by right.
    + destruct (decide (ag_Role a = RoleOwner)); [|lia].
      assert (~ ownerCount (ws_Agents ws) <= 1) by tauto. lia.
    + intros Hm. specialize (Hc Hm). lia.
  - unfold SetAgentRole. case_match; [done|]. destruct (findAgent _ p) as [[i a]|] eqn:Hf; [|done].
    apply findAgent_Some in Hf as [Hi _]. case_decide as Hd; [done|]. simpl. split; simpl; try done.
    + by rewrite (ids_insert _ _ a).
    + rewrite (ownerCount_insert _ i a) by done. simpl.
      destruct (decide (ag_Role a = RoleOwner)), (decide (r = RoleOwner)); try lia.
      assert (~ ownerCount (ws_Agents ws) <= 1) by tauto. lia.
    + by rewrite length_insert.
  - unfold UpdateAgentStatus. destruct (findAgent _ p) as [[i a]|] eqn:Hf; [|done].
    apply findAgent_Some in Hf as [Hi _]. simpl. split; simpl; try done.
    + by rewrite (ids_insert _ _ a).
    + rewrite (ownerCount_insert _ i a) by done. simpl. lia.
    + by rewrite length_insert.
  - unfold SetState. destruct (WorkspaceState_Validate s) eqn:Hv; [|done]. simpl.
    apply bool_decide_eq_true in Hv.
    assert (s ∈ ValidWorkspaceStates) by (unfold ValidWorkspaceStates; rewrite !elem_of_cons; tauto).
    repeat case_decide; simpl; done.
Qed.

(** ** The life cycle *)

Definition rank (s : WorkspaceState) : Z :=
  if decide (s = StateCreating) then 0 else if decide (s = StateActive) then 1
  else if decide (s = StateClosing) then 2 else 3.

Definition ws_run (ws : Workspace) (ops : list (Z * WsOp)) : Workspace :=
  foldl (fun ws '(now, op) => (ws_step now ws op).1) ws ops.

Lemma ws_run_ok ws ops : ws_ok ws -> ws_ok (ws_run ws ops).
Proof.
  revert ws. induction ops as [|[now op] ops IH]; intros ws Hok; simpl; [done|].
  apply IH. by apply ws_step_ok.
Qed.

Lemma NewWorkspace_ok uuid now config ws :
  NewWorkspace uuid now config = Ok ws -> ws_ok ws /\ ws_State ws = StateActive /\
    ag_ProfileID <$> owners (ws_Agents ws) = [cg_OwnerProfileID config].
Proof.
  unfold NewWorkspace, WorkspaceConfig_Validate. intros H.
  repeat (case_decide; [done|]). injection H as <-. split; [|done]. split; simpl.
  - apply NoDup_singleton.
  - done.
  - case_decide; lia.
  - right. left.
Qed.

(** A step never moves the state back, and adds members only when active. *)
Lemma ws_step_life now ws op :
  ws_State ws ∈ ValidWorkspaceStates ->
  rank (ws_State ws) <= rank (ws_State (ws_step now ws op).1) /\
  (ws_State ws <> StateActive ->
   forall p, p ∈ (ag_ProfileID <$> ws_Agents (ws_step now ws op).1) -> p ∈ (ag_ProfileID <$> ws_Agents ws)).
Proof.
  intros Hs. destruct op as [p r|p|p r|p s|s]; simpl.
  - unfold AddAgent. case_decide as Ha; [done|]. destruct (decide (ws_State ws <> StateActive)); [done|].
    repeat case_decide; (split; [done|by intros]).
  - unfold RemoveAgent. destruct (findAgent _ p) as [[i a]|] eqn:Hf; [|done]. case_decide; [done|].
    split; [done|]. intros _ q. simpl. rewrite !list_elem_of_fmap. intros (x & -> & Hx). exists x. split; [done|].
    apply findAgent_Some in Hf as [Hi _]. rewrite <- (take_drop_middle _ i a Hi).
    rewrite elem_of_app, elem_of_cons in *. tauto.
  - unfold SetAgentRole. case_match; [done|]. destruct (findAgent _ p) as [[i a]|] eqn:Hf; [|done].
    apply findAgent_Some in Hf as [Hi _]. case_decide; [done|]. split; [done|]. intros _ q. simpl.
    by rewrite (ids_insert _ _ a).
  - unfold UpdateAgentStatus. destruct (findAgent _ p) as [[i a]|] eqn:Hf; [|done].
    apply findAgent_Some in Hf as [Hi _]. split; [done|]. intros _ q. simpl. by rewrite (ids_insert _ _ a).
  - split.
    + unfold SetState. destruct (WorkspaceState_Validate s) eqn:Hv; [|done]. simpl.
      apply bool_decide_eq_true in Hv. unfold ValidWorkspaceStates in Hs.
      rewrite !elem_of_cons, elem_of_nil in Hs.
      destruct Hs as [E|[E|[E|[E|[]]]]]; rewrite !E; destruct Hv as [->|[->|[->| ->]]]; simpl;
        rewrite ?E; by vm_compute.
    + intros _ q. unfold SetState. case_match; [done|]. by repeat case_decide.
Qed.

Lemma ws_run_life ws ops :
  ws_ok ws ->
  rank (ws_State ws) <= rank (ws_State (ws_run ws ops)) /\
  (ws_State ws <> StateActive -> 1 <= rank (ws_State ws) ->
   forall p, p ∈ (ag_ProfileID <$> ws_Agents (ws_run ws ops)) -> p ∈ (ag_ProfileID <$> ws_Agents ws)).
Proof.
  revert ws. induction ops as [|[now op] ops IH]; intros ws Hok; simpl; [done|].
  destruct (ws_step_life now ws op (ok_state _ Hok)) as [Hr Hm].
  destruct (IH (ws_step now ws op).1 (ws_step_ok now ws op Hok)) as [Hr' Hm'].
  split; [lia|]. intros Hna H1 p Hp. apply Hm; [done|]. apply Hm'; [|lia|done].
  intros Ha. rewrite Ha in Hr. pose proof (ok_state _ Hok) as Hs. unfold ValidWorkspaceStates in Hs.
  rewrite !elem_of_cons, elem_of_nil in Hs.
  destruct Hs as [E|[E|[E|[E|[]]]]]; rewrite E in *; vm_compute in Hr, H1; done.
Qed.

(** the workspace invariant.  From a new workspace, after any sequence of
    calls, whether they succeed or fail, profile ids are unique, there is at
    least one owner, the member count respects the configured maximum, the state
    is a valid one and never moves back in the order creating, active, closing,
    archived; and once the workspace is no longer active, nobody joins it. *)
Theorem workspace_invariant (uuid : string) (now : Z) (config : WorkspaceConfig) (ws : Workspace)
    (ops1 ops2 : list (Z * WsOp)) (Hnew : NewWorkspace uuid now config = Ok ws) :
  let ws1 := ws_run ws ops1 in let ws2 := ws_run ws (ops1 ++ ops2) in
  ws_ok ws2 /\ rank (ws_State ws1) <= rank (ws_State ws2) /\
  (ws_State ws1 <> StateActive ->
   forall p, HasAgent ws2 p = true -> HasAgent ws1 p = true).
Proof.
  intros ws1 ws2. destruct (NewWorkspace_ok _ _ _ _ Hnew) as (Hok & Hst & _).
  assert (ws2 = ws_run ws1 ops2) as E2 by (unfold ws2, ws1, ws_run; by rewrite foldl_app).
  assert (ws_ok ws1) as Hok1 by (by apply ws_run_ok).
  destruct (ws_run_life ws ops1 Hok) as [Hr _]. rewrite Hst in Hr. change (rank StateActive) with 1 in Hr.
  destruct (ws_run_life ws1 ops2 Hok1) as [Hr2 Hm]. rewrite E2. split_and!; [by apply ws_run_ok|done|].
  intros Hna p. unfold HasAgent. rewrite !bool_decide_eq_true. by apply Hm.
Qed.

Lemma workspace_invariant_witness :
  let config := mkConfig "team" "" "alice" "" 0 0 2 in
  exists ws, NewWorkspace "u" 1 config = Ok ws /\
    ws_ok (ws_run ws ([(2, OpAddAgent "bob" RoleObserver); (3, OpAddAgent "carol" RoleObserver)]
                      ++ [(4, OpSetState StateArchived); (5, OpRemoveAgent "alice")])).
Proof.
  intros config. eexists. split; [reflexivity|].
  apply (workspace_invariant "u" 1 config _ [(2, OpAddAgent "bob" RoleObserver); (3, OpAddAgent "carol" RoleObserver)]
           [(4, OpSetState StateArchived); (5, OpRemoveAgent "alice")] eq_refl).
Defined.
