(* ===== verification/Domain.v ===== *)
(** * The entity service of hop.top/kit

    [domain.Service] is third-party code that the collaboration package puts in
    front of its in-memory repositories: it validates an entity, lets subscribers
    veto, and persists.  It is a parameter of the development, with its documented
    contract as laws; a repository and its validator, which are code of the
    package, are a record of operations. *)

From stdpp Require Import base option gmap strings fin_maps.
From S2P Require Import Prelude.

Inductive RepoErr : Type := ErrRepoConflict | ErrRepoNotFound.

(** A repository of entities by id, and the validator of the entity. *)
Record Repository (E : Type) : Type := mkRepository {
  rp_Create : gmap string E -> E -> gmap string E * Res RepoErr unit;
  rp_Update : gmap string E -> E -> gmap string E * Res RepoErr unit;
  rp_Delete : gmap string E -> string -> gmap string E * Res RepoErr unit;
  rp_Validate : E -> bool
}.

Arguments mkRepository {E} _ _ _ _.
Arguments rp_Create {E} _ _ _.
Arguments rp_Update {E} _ _ _.
Arguments rp_Delete {E} _ _ _.
Arguments rp_Validate {E} _ _.

(** The errors of the service: validation, a subscriber's veto, the repository. *)
Inductive SvcErr : Type := SvcInvalid | SvcVeto | SvcRepo (e : RepoErr).

Class DomainService (E : Type) : Type := {
  svc_Create : gmap string E -> E -> gmap string E * Res SvcErr unit;
  svc_Update : gmap string E -> E -> gmap string E * Res SvcErr unit;
  svc_Delete : gmap string E -> string -> gmap string E * Res SvcErr unit
}.

(** The contract: an operation that succeeds has validated the entity and done
    what the repository does; one that fails has changed nothing. *)
Class ServiceLaws {E : Type} (R : Repository E) (S : DomainService E) : Prop := {
  create_ok r e r' : svc_Create r e = (r', Ok tt) -> rp_Validate R e = true /\ rp_Create R r e = (r', Ok tt);
  create_err r e r' x : svc_Create r e = (r', Err x) -> r' = r;
  update_ok r e r' : svc_Update r e = (r', Ok tt) -> rp_Validate R e = true /\ rp_Update R r e = (r', Ok tt);
  update_err r e r' x : svc_Update r e = (r', Err x) -> r' = r;
  delete_ok r k r' : svc_Delete r k = (r', Ok tt) -> rp_Delete R r k = (r', Ok tt);
  delete_err r k r' x : svc_Delete r k = (r', Err x) -> r' = r
}.

(** The service without a publisher: nothing vetoes. *)
Definition persisted {E} (r : gmap string E) (out : gmap string E * Res RepoErr unit) : gmap string E * Res SvcErr unit :=
  match out with
  | (r', Ok _) => (r', Ok tt)
  | (_, Err e) => (r, Err (SvcRepo e))
  end.

Definition plain_service {E} (R : Repository E) : DomainService E := {|
  svc_Create r e := if rp_Validate R e then persisted r (rp_Create R r e) else (r, Err SvcInvalid);
  svc_Update r e := if rp_Validate R e then persisted r (rp_Update R r e) else (r, Err SvcInvalid);
  svc_Delete r k := persisted r (rp_Delete R r k)
|}.

#[export] Instance plain_service_laws {E} (R : Repository E) : ServiceLaws R (plain_service R).
Proof.
  split; simpl; unfold persisted; intros *; repeat case_match; simplify_eq; try done;
    intros [= <-]; repeat match goal with u : unit |- _ => destruct u end; done.
Qed.
