(* ===== verification/Context.v ===== *)
(** * Shared context of a workspace
      (src/internal/core/collaboration/context.go, context_service.go, and the
       context types of types.go)

    Key-value variables with access-control entries, per-variable visibility and
    a mutation log.  Writes go through [domain.Service] of hop.top/kit, a
    third-party package: it is a parameter, with its documented contract as laws.
    Notifications sent to the event bus after a write are left out. *)

From Stdlib Require Import ZArith Lia.
From stdpp Require Import base option list gmap strings fin_maps.
From S2P Require Import Prelude Workspace Domain.

Open Scope Z_scope.

(** ** Permissions *)

Abbreviation Permission := string.
Definition PermRead : Permission := "read".
Definition PermWrite : Permission := "write".
Definition PermDelete : Permission := "delete".
Definition PermAdmin : Permission := "admin".

Record ACLEntry : Type := mkACL {
  acl_Key : string;
  acl_Permissions : gmap AgentRole (list Permission)
}.

Definition DefaultACL (key : string) : ACLEntry :=
  mkACL key (<[RoleOwner := [PermRead; PermWrite; PermDelete; PermAdmin]]>
            (<[RoleContributor := [PermRead; PermWrite]]> {[ RoleObserver := [PermRead] ]})).

Definition HasPermission (a : ACLEntry) (role : AgentRole) (perm : Permission) : bool :=
  match acl_Permissions a !! role with
  | Some perms => bool_decide (perm ∈ perms)
  | None => false
  end.

(** ** Variables *)

Abbreviation ContextVisibility := string.
Definition VisibilityShared : ContextVisibility := "shared".
Definition VisibilityPrivate : ContextVisibility := "private".

Definition NormalizeVisibility (v : ContextVisibility) : ContextVisibility :=
  if decide (v = "") then VisibilityShared else v.

Record ContextVariable : Type := mkVar {
  cv_Key : string;
  cv_Value : string;
  cv_Version : Z;
  cv_UpdatedBy : string;
  cv_UpdatedAt : Z;
  cv_Visibility : ContextVisibility
}.

#[export] Instance ContextVariable_eq_dec : EqDecision ContextVariable.
Proof. solve_decision. Defined.

Definition EffectiveVisibility (v : ContextVariable) : ContextVisibility := NormalizeVisibility (cv_Visibility v).

Definition IsVisibleTo (v : ContextVariable) (profileID : string) : bool :=
  if decide (EffectiveVisibility v = VisibilityShared) then true
  else bool_decide (cv_UpdatedBy v = profileID).

Record ContextMutation : Type := mkMutation {
  mu_Key : string;
  mu_OldValue : string;
  mu_NewValue : string;
  mu_Version : Z;
  mu_AgentID : string;
  mu_Note : string;
  mu_Timestamp : Z
}.

(** ** The repository and the service in front of it *)

Abbreviation Repo := (gmap string ContextVariable).

Definition contextRepository_Create (r : Repo) (e : ContextVariable) : Repo * Res RepoErr unit :=
  match r !! cv_Key e with
  | Some _ => (r, Err ErrRepoConflict)
  | None => (<[cv_Key e := e]> r, Ok tt)
  end.

Definition contextRepository_Get (r : Repo) (id : string) : Res RepoErr ContextVariable :=
  match r !! id with Some v => Ok v | None => Err ErrRepoNotFound end.

(** [out]: the variables in the order the map is ranged over. *)
Definition contextRepository_List (out : list ContextVariable) (offset limit : Z) : list ContextVariable :=
  let n := Z.of_nat (length out) in
  if decide (offset > 0 /\ offset < n) then
    let out := drop (Z.to_nat offset) out in
    if decide (limit > 0 /\ limit < Z.of_nat (length out)) then take (Z.to_nat limit) out else out
  else if decide (offset >= n) then []
  else if decide (limit > 0 /\ limit < n) then take (Z.to_nat limit) out else out.

Definition contextRepository_Update (r : Repo) (e : ContextVariable) : Repo * Res RepoErr unit :=
  match r !! cv_Key e with
  | None => (r, Err ErrRepoNotFound)
  | Some _ => (<[cv_Key e := e]> r, Ok tt)
  end.

Definition contextRepository_Delete (r : Repo) (id : string) : Repo * Res RepoErr unit :=
  match r !! id with
  | None => (r, Err ErrRepoNotFound)
  | Some _ => (delete id r, Ok tt)
  end.

(** [true]: valid. *)
Definition contextValidator_Validate (v : ContextVariable) : bool :=
  if decide (cv_Key v = "") then false
  else if decide (cv_Version v < 1) then false
  else if decide (cv_UpdatedBy v = "") then false
  else true.

Definition contextRepository : Repository ContextVariable :=
  mkRepository contextRepository_Create contextRepository_Update contextRepository_Delete contextValidator_Validate.

(** The service without a publisher. *)
Abbreviation context_service := (plain_service contextRepository).

(** ** The context *)

Record WorkspaceContext : Type := mkContext {
  wc_variables : Repo;
  wc_mutations : list ContextMutation;
  wc_acls : gmap string ACLEntry
}.

Definition NewWorkspaceContext : WorkspaceContext := mkContext ∅ [] ∅.

(** Later variables of the list override earlier ones with the same key; nil
    acls are the empty map. *)
Definition NewWorkspaceContextFromState (variables : list ContextVariable) (acls : gmap string ACLEntry)
  : WorkspaceContext :=
  mkContext (foldl (fun r v => <[cv_Key v := v]> r) ∅ variables) [] acls.

Inductive CtxErr : Type :=
  | ErrVarNotFound (key : string) | ErrPermission (role : AgentRole) (perm : Permission) (key : string)
  | ErrCtxService (e : SvcErr).

Definition GetACL (wc : WorkspaceContext) (key : string) : ACLEntry := default (DefaultACL key) (wc_acls wc !! key).

Definition SetACL (wc : WorkspaceContext) (acl : ACLEntry) : WorkspaceContext :=
  mkContext (wc_variables wc) (wc_mutations wc) (<[acl_Key acl := acl]> (wc_acls wc)).

(** [true]: no error. *)
Definition checkPermission (wc : WorkspaceContext) (key : string) (role : AgentRole) (perm : Permission) : bool :=
  HasPermission (default (DefaultACL key) (wc_acls wc !! key)) role perm.

Section context.
Context `{S : DomainService ContextVariable}.

(** The options of the call amount to an optional visibility; [note] is the
    audit note of the Go context. *)
Definition SetWithContext (now : Z) (note : string) (wc : WorkspaceContext) (key value agentID : string)
    (role : AgentRole) (opt : option ContextVisibility) : WorkspaceContext * Res CtxErr ContextVariable :=
  let existing := wc_variables wc !! key in
  if match existing with Some e => negb (IsVisibleTo e agentID) | None => false end
  then (wc, Err (ErrVarNotFound key)) else
  if negb (checkPermission wc key role PermWrite) then (wc, Err (ErrPermission role PermWrite key)) else
  let version := match existing with Some e => wrap64 (cv_Version e + 1) | None => 1 end in
  let oldValue := match existing with Some e => cv_Value e | None => "" end in
  let visibility := match opt, existing with
                    | Some v, _ => v
                    | None, Some e => cv_Visibility e
                    | None, None => ""
                    end in
  let v := mkVar key value version agentID now visibility in
  match (match existing with
         | Some _ => svc_Update (wc_variables wc) v
         | None => svc_Create (wc_variables wc) v
         end) with
  | (r, Err e) => (mkContext r (wc_mutations wc) (wc_acls wc), Err (ErrCtxService e))
  | (r, Ok _) =>
      (mkContext r (wc_mutations wc ++ [mkMutation key oldValue value version agentID note now]) (wc_acls wc), Ok v)
  end.

Definition DeleteWithContext (now : Z) (note : string) (wc : WorkspaceContext) (key agentID : string)
    (role : AgentRole) : WorkspaceContext * Res CtxErr unit :=
  let existing := wc_variables wc !! key in
  if match existing with Some e => negb (IsVisibleTo e agentID) | None => false end
  then (wc, Err (ErrVarNotFound key)) else
  if negb (checkPermission wc key role PermDelete) then (wc, Err (ErrPermission role PermDelete key)) else
  match existing with
  | None => (wc, Err (ErrVarNotFound key))
  | Some e =>
      match svc_Delete (wc_variables wc) key with
      | (r, Err (SvcRepo ErrRepoNotFound)) => (mkContext r (wc_mutations wc) (wc_acls wc), Err (ErrVarNotFound key))
      | (r, Err x) => (mkContext r (wc_mutations wc) (wc_acls wc), Err (ErrCtxService x))
      | (r, Ok _) =>
          (mkContext r (wc_mutations wc ++
             [mkMutation key (cv_Value e) "" (wrap64 (cv_Version e + 1)) agentID note now]) (wc_acls wc), Ok tt)
      end
  end.

End context.

Definition Context_Get (wc : WorkspaceContext) (key : string) : option ContextVariable := wc_variables wc !! key.

Definition GetForProfile (wc : WorkspaceContext) (key profileID : string) : option ContextVariable :=
  match wc_variables wc !! key with
  | None => None
  | Some v => if bool_decide (profileID <> "") && negb (IsVisibleTo v profileID) then None else Some v
  end.

(** [all]: the variables in the order the map is ranged over. *)
Definition ListForProfile (all : list ContextVariable) (profileID : string) : list ContextVariable :=
  if decide (profileID = "") then all else filter (fun v => IsVisibleTo v profileID) all.

Definition MutationsForKey (wc : WorkspaceContext) (key : string) : list ContextMutation :=
  filter (fun m => mu_Key m = key) (wc_mutations wc).

(** ** Write conflicts *)

(** The mutations of the key from the newest back, up to the first one before
    the cutoff; the argument is the log reversed. *)
Fixpoint recentMutations (key : string) (cutoff : Z) (rev_log : list ContextMutation) : list ContextMutation :=
  match rev_log with
  | [] => []
  | m :: rest =>
      if decide (mu_Key m <> key) then recentMutations key cutoff rest
      else if Before (mu_Timestamp m) cutoff then []
      else m :: recentMutations key cutoff rest
  end.

Abbreviation ConflictType := string.
Definition ConflictWrite : ConflictType := "write".
Definition ConflictOrdering : ConflictType := "ordering".
Definition ConflictLock : ConflictType := "lock".
Definition ConflictCapability : ConflictType := "capability".

Record ConflictResolution : Type := mkResolution {
  rs_Strategy : ResolutionStrategy;
  rs_ResolvedBy : string;
  rs_Details : string;
  rs_Timestamp : Z
}.

(** A conflict, less its description text. *)
Record Conflict : Type := mkConflict {
  cn_ID : string;
  cn_WorkspaceID : string;
  cn_Type : ConflictType;
  cn_Resource : string;
  cn_AgentIDs : list string;
  cn_Resolution : option ConflictResolution;
  cn_DetectedAt : Z;
  cn_ResolvedAt : option Z
}.

Definition IsResolved (c : Conflict) : bool := bool_decide (is_Some (cn_Resolution c)).

(** [order]: ranging over the set of agents, a Go map. *)
Definition DetectWriteConflict (now : Z) (order : gset string -> list string) (wc : WorkspaceContext)
    (key : string) (window : Z) : option Conflict :=
  let recent := recentMutations key (now - window) (reverse (wc_mutations wc)) in
  if decide (length recent < 2)%nat then None else
  let agents : gset string := list_to_set (mu_AgentID <$> recent) in
  if decide (size agents < 2)%nat then None else
  Some (mkConflict "" "" ConflictWrite key (order agents) None now None).

(** ** Runs *)

Inductive CtxOp : Type :=
  | OpSet (now : Z) (note key value agentID : string) (role : AgentRole) (opt : option ContextVisibility)
  | OpDelete (now : Z) (note key agentID : string) (role : AgentRole)
  | OpSetACL (acl : ACLEntry).

Definition op_agent (op : CtxOp) : option string :=
  match op with OpSet _ _ _ _ a _ _ | OpDelete _ _ _ a _ => Some a | OpSetACL _ => None end.

Definition ctx_step `{DomainService ContextVariable} (wc : WorkspaceContext) (op : CtxOp) : WorkspaceContext :=
  match op with
  | OpSet now note key value a role opt => (SetWithContext now note wc key value a role opt).1
  | OpDelete now note key a role => (DeleteWithContext now note wc key a role).1
  | OpSetACL acl => SetACL wc acl
  end.

Section laws.
Context `{S : DomainService ContextVariable, L : !ServiceLaws contextRepository S}.

(** What a [Set] that succeeds has done. *)
Lemma Set_Ok now note wc key value a role opt wc' v :
  SetWithContext now note wc key value a role opt = (wc', Ok v) ->
  wc_variables wc' = <[key := v]> (wc_variables wc) /\ wc_acls wc' = wc_acls wc /\
  (forall e, wc_variables wc !! key = Some e -> IsVisibleTo e a = true) /\
  cv_Value v = value /\ cv_UpdatedBy v = a /\ cv_UpdatedAt v = now /\
  wc_mutations wc' = wc_mutations wc ++
    [mkMutation key (default "" (cv_Value <$> wc_variables wc !! key)) value (cv_Version v) a note now].
Proof.
  unfold SetWithContext. intros H. destruct (wc_variables wc !! key) as [e|] eqn:He; simpl in *.
  - destruct (IsVisibleTo e a) eqn:Hv; [|done]. simpl in H. case_match; [done|].
    destruct (svc_Update _ _) as [r [[]|x]] eqn:Hs; [|done]. injection H as <- <-.
    apply update_ok in Hs as [_ Hs]. simpl in Hs. unfold contextRepository_Update in Hs. simpl in Hs. rewrite He in Hs.
    injection Hs as <-. split_and!; try done. by intros e' [= <-].
  - case_match; [done|]. destruct (svc_Create _ _) as [r [[]|x]] eqn:Hs; [|done]. injection H as <- <-.
    apply create_ok in Hs as [_ Hs]. simpl in Hs. unfold contextRepository_Create in Hs. simpl in Hs. rewrite He in Hs.
    injection Hs as <-. by split_and!.
Qed.

Lemma Set_Err now note wc key value a role opt wc' x :
  SetWithContext now note wc key value a role opt = (wc', Err x) -> wc' = wc.
Proof.
  unfold SetWithContext. intros H. destruct wc as [vars muts acls]; simpl in *.
  destruct (vars !! key) as [e|] eqn:He; simpl in *.
  - case_match; [by injection H|]. case_match; [by injection H|].
    destruct (svc_Update _ _) as [r [[]|y]] eqn:Hs; [done|]. injection H as <- _. by apply update_err in Hs as ->.
  - case_match; [by injection H|].
    destruct (svc_Create _ _) as [r [[]|y]] eqn:Hs; [done|]. injection H as <- _. by apply create_err in Hs as ->.
Qed.

Lemma Delete_Ok now note wc key a role wc' :
  DeleteWithContext now note wc key a role = (wc', Ok tt) ->
  exists e, wc_variables wc !! key = Some e /\ IsVisibleTo e a = true /\
    wc_variables wc' = delete key (wc_variables wc) /\ wc_acls wc' = wc_acls wc /\
    wc_mutations wc' = wc_mutations wc ++
      [mkMutation key (cv_Value e) "" (wrap64 (cv_Version e + 1)) a note now].
Proof.
  unfold DeleteWithContext. intros H. destruct (wc_variables wc !! key) as [e|] eqn:He; simpl in *.
  2:{ by case_match. }
  destruct (IsVisibleTo e a) eqn:Hv; [|done]. simpl in H. case_match; [done|].
  destruct (svc_Delete _ _) as [r [[]|[]]] eqn:Hs; [|done..|by destruct e0].
  injection H as <-. apply delete_ok in Hs. simpl in Hs. unfold contextRepository_Delete in Hs. rewrite He in Hs.
  injection Hs as <-. by exists e.
Qed.

Lemma Delete_Err now note wc key a role wc' x :
  DeleteWithContext now note wc key a role = (wc', Err x) -> wc' = wc.
Proof.
  unfold DeleteWithContext. intros H. destruct wc as [vars muts acls]; simpl in *.
  destruct (vars !! key) as [e|] eqn:He; simpl in *.
  2:{ case_match; by injection H. }
  case_match; [by injection H|]. case_match; [by injection H|].
  destruct (svc_Delete _ _) as [r [[]|y]] eqn:Hs; [done|]. apply delete_err in Hs as ->.
  destruct y as [| |[]]; by injection H as <- _.
Qed.

End laws.

(** ** Private variables *)

(** A variable that only its writer [p] may see. *)
Definition private_to (p : string) (v : ContextVariable) : Prop :=
  EffectiveVisibility v <> VisibilityShared /\ cv_UpdatedBy v = p.

Lemma private_hidden p v q : private_to p v -> q <> p -> IsVisibleTo v q = false.
Proof.
  intros [Hv Hp] Hq. unfold IsVisibleTo. rewrite decide_False by done. rewrite bool_decide_false; [done|]. congruence.
Qed.

Lemma ctx_step_private `{S : DomainService ContextVariable} {L : ServiceLaws contextRepository S} p v key wc op :
  private_to p v -> wc_variables wc !! key = Some v -> op_agent op <> Some p ->
  wc_variables (ctx_step wc op) !! key = Some v.
Proof.
  intros Hpriv Hkey Hop. destruct op as [now note k value a role opt|now note k a role|acl]; simpl in *; [| |done].
  - destruct (SetWithContext _ _ _ _ _ _ _ _) as [wc' [w|x]] eqn:Hs; simpl.
    + apply Set_Ok in Hs as (-> & _ & Hvis & _). rewrite lookup_insert_ne; [done|]. intros ->.
      specialize (Hvis _ Hkey). rewrite (private_hidden p) in Hvis by (done || congruence). done.
    + by apply Set_Err in Hs as ->.
  - destruct (DeleteWithContext _ _ _ _ _ _) as [wc' [[]|x]] eqn:Hs; simpl.
    + apply Delete_Ok in Hs as (e & He & Hvis & -> & _). rewrite lookup_delete_ne; [done|]. intros ->.
      rewrite Hkey in He. injection He as <-. rewrite (private_hidden p) in Hvis by (done || congruence). done.
    + by apply Delete_Err in Hs as ->.
Qed.

(** C38: private variables belong to their writer.  Whatever writes, deletions and
    access-control changes other profiles perform, in any role, a private variable
    of profile [p] keeps its value, version and visibility; no other profile reads
    it by key or finds it in a listing; and each attempt of another profile to
    write or delete it is answered with "not found" and changes nothing. *)
Theorem private_variable_protected `{S : DomainService ContextVariable} (L : ServiceLaws contextRepository S) (p key : string) (v : ContextVariable)
    (wc : WorkspaceContext) (ops : list CtxOp)
    (Hpriv : private_to p v) (Hkey : wc_variables wc !! key = Some v)
    (Hops : Forall (fun op => op_agent op <> Some p) ops) :
  let wc' := foldl ctx_step wc ops in
  Context_Get wc' key = Some v /\
  (forall q, q <> p -> q <> "" -> GetForProfile wc' key q = None /\ forall all, v ∉ ListForProfile all q) /\
  (forall q now note value role opt, q <> p ->
     SetWithContext now note wc' key value q role opt = (wc', Err (ErrVarNotFound key)) /\
     DeleteWithContext now note wc' key q role = (wc', Err (ErrVarNotFound key))).
Proof.
  intros wc'. assert (wc_variables wc' !! key = Some v) as Hkey'.
  { unfold wc'. clear wc'. revert wc Hkey. induction Hops as [|op ops Hop Hops IH]; intros wc Hkey; simpl; [done|].
    apply IH. by eapply ctx_step_private. }
  split_and!; [done|..].
  - intros q Hq Hne. unfold GetForProfile, ListForProfile. rewrite Hkey'.
    rewrite bool_decide_true, (private_hidden p) by done. split; [done|]. intros all.
    rewrite decide_False, list_elem_of_filter, (private_hidden p) by done. by intros [[] _].
  - intros q now note value role opt Hq. unfold SetWithContext, DeleteWithContext. rewrite Hkey'.
    by rewrite (private_hidden p) by done.
Qed.

(** "not found" gives a hidden variable away.  Take a context with a private
    variable of [p] and the same context without it.  Another profile [q] reads
    the same in both, by key and by listing.  But a write to the key, in a role
    that may write, is refused as "not found" in the first and succeeds in the
    second, and a deletion in a role that may not delete is "not found" in the
    first and "permission denied" in the second. *)
Theorem hidden_variable_existence_leaks (p q key value : string) (v : ContextVariable) (wc : WorkspaceContext)
    (now : Z) (note : string) (writer deleter : AgentRole)
    (Hpriv : private_to p v) (Hkey : wc_variables wc !! key = Some v) (Hk : key <> "") (Hq : q <> p) (Hq' : q <> "")
    (Hw : checkPermission wc key writer PermWrite = true) (Hd : checkPermission wc key deleter PermDelete = false) :
  let without := mkContext (delete key (wc_variables wc)) (wc_mutations wc) (wc_acls wc) in
  (forall k, GetForProfile wc k q = GetForProfile without k q) /\
  (forall l l', l ≡ₚ (map_to_list (wc_variables wc)).*2 -> l' ≡ₚ (map_to_list (wc_variables without)).*2 ->
     ListForProfile l q ≡ₚ ListForProfile l' q) /\
  (@SetWithContext context_service now note wc key value q writer None).2 = Err (ErrVarNotFound key) /\
  is_ok (@SetWithContext context_service now note without key value q writer None).2 = true /\
  (@DeleteWithContext context_service now note wc key q deleter).2 = Err (ErrVarNotFound key) /\
  (@DeleteWithContext context_service now note without key q deleter).2 = Err (ErrPermission deleter PermDelete key).
Proof.
  intros without. pose proof (private_hidden p v q Hpriv Hq) as Hhid. split_and!.
  - intros k. unfold GetForProfile; simpl. destruct (decide (k = key)) as [->|Hne].
    + rewrite lookup_delete_eq, Hkey, Hhid. by rewrite bool_decide_true.
    + by rewrite lookup_delete_ne.
  - intros l l' Hl Hl'. unfold ListForProfile. rewrite !decide_False by done. rewrite Hl, Hl'. simpl.
    rewrite <- (map_to_list_delete _ _ _ Hkey). simpl.
    rewrite filter_cons_False; [done|]. rewrite Hhid. by intros [].
  - unfold SetWithContext. by rewrite Hkey, Hhid.
  - unfold SetWithContext. simpl. rewrite lookup_delete_eq. unfold checkPermission in *. simpl. rewrite Hw. simpl.
    unfold contextValidator_Validate, contextRepository_Create. simpl.
    rewrite !decide_False by done. by rewrite lookup_delete_eq.
  - unfold DeleteWithContext. by rewrite Hkey, Hhid.
  - unfold DeleteWithContext. simpl. rewrite lookup_delete_eq. unfold checkPermission in *. simpl. by rewrite Hd.
Qed.

(** ** The mutation log *)

(** Each mutation starts from the value the one before left. *)
Fixpoint chained (old : string) (ms : list ContextMutation) : Prop :=
  match ms with
  | [] => True
  | m :: ms => mu_OldValue m = old /\ chained (mu_NewValue m) ms
  end.

Definition final_value (old : string) (ms : list ContextMutation) : string :=
  match list.last ms with Some m => mu_NewValue m | None => old end.

(** The value under a key; that of an absent variable is the empty string. *)
Definition value_of (wc : WorkspaceContext) (key : string) : string :=
  default "" (cv_Value <$> wc_variables wc !! key).

Lemma chained_snoc old ms m : chained old (ms ++ [m]) <-> chained old ms /\ mu_OldValue m = final_value old ms.
Proof.
  revert old. induction ms as [|x ms IH]; intros old; simpl.
  { unfold final_value; simpl. tauto. }
  rewrite IH. unfold final_value. rewrite last_cons. destruct (list.last ms); tauto.
Qed.

Record log_inv (wc : WorkspaceContext) (key : string) : Prop := {
  inv_chain : chained "" (MutationsForKey wc key);
  inv_final : final_value "" (MutationsForKey wc key) = value_of wc key;
  inv_last v : wc_variables wc !! key = Some v ->
    exists m, list.last (MutationsForKey wc key) = Some m /\ mu_NewValue m = cv_Value v /\
      mu_Version m = cv_Version v /\ mu_AgentID m = cv_UpdatedBy v /\ mu_Timestamp m = cv_UpdatedAt v
}.

(** A new entry for one key, with the value it leaves. *)
Lemma log_inv_snoc wc wc' key m :
  log_inv wc key -> wc_mutations wc' = wc_mutations wc ++ [m] -> mu_Key m = key ->
  mu_OldValue m = value_of wc key -> mu_NewValue m = value_of wc' key ->
  (forall v, wc_variables wc' !! key = Some v ->
     mu_Version m = cv_Version v /\ mu_AgentID m = cv_UpdatedBy v /\ mu_Timestamp m = cv_UpdatedAt v) ->
  log_inv wc' key.
Proof.
  intros [Hc Hf _] Hm Hk Ho Hn Hv.
  assert (MutationsForKey wc' key = MutationsForKey wc key ++ [m]) as E.
  { unfold MutationsForKey. rewrite Hm, filter_app. by rewrite filter_cons_True. }
  split; rewrite E.
  - apply chained_snoc. split; [done|]. by rewrite Ho.
  - unfold final_value. by rewrite last_snoc.
  - intros v Hlook. exists m. rewrite last_snoc. split; [done|]. split; [|by apply Hv].
    rewrite Hn. unfold value_of. by rewrite Hlook.
Qed.

Lemma log_inv_other wc wc' key k m :
  log_inv wc key -> wc_mutations wc' = wc_mutations wc ++ [m] -> mu_Key m = k -> key <> k ->
  wc_variables wc' !! key = wc_variables wc !! key -> log_inv wc' key.
Proof.
  intros [Hc Hf Hl] Hm Hk Hne Hv.
  assert (MutationsForKey wc' key = MutationsForKey wc key) as E.
  { unfold MutationsForKey. rewrite Hm, filter_app, filter_cons_False by congruence. apply app_nil_r. }
  split; rewrite E; [done| |by rewrite Hv]. unfold value_of. by rewrite Hv.
Qed.

Lemma log_inv_step `{S : DomainService ContextVariable} {L : ServiceLaws contextRepository S} wc op key : log_inv wc key -> log_inv (ctx_step wc op) key.
Proof.
  intros Hi. destruct op as [now note k value a role opt|now note k a role|acl]; simpl; [| |by destruct Hi].
  - destruct (SetWithContext _ _ _ _ _ _ _ _) as [wc' [w|x]] eqn:Hs; simpl; [|by apply Set_Err in Hs as ->].
    apply Set_Ok in Hs as (Hvars & _ & _ & Hval & Hby & Hat & Hm).
    destruct (decide (key = k)) as [->|Hne].
    + eapply log_inv_snoc; [done|exact Hm|done|done| |]; unfold value_of; rewrite Hvars, lookup_insert_eq; simpl.
      * done.
      * by intros v [= <-].
    + eapply log_inv_other; [done|exact Hm|done|done|]. by rewrite Hvars, lookup_insert_ne.
  - destruct (DeleteWithContext _ _ _ _ _ _) as [wc' [[]|x]] eqn:Hs; simpl; [|by apply Delete_Err in Hs as ->].
    apply Delete_Ok in Hs as (e & He & _ & Hvars & _ & Hm).
    destruct (decide (key = k)) as [->|Hne].
    + eapply log_inv_snoc; [done|exact Hm|done| | |]; unfold value_of; rewrite ?Hvars, ?lookup_delete_eq, ?He; done.
    + eapply log_inv_other; [done|exact Hm|done|done|]. by rewrite Hvars, lookup_delete_ne.
Qed.

(** the mutation log accounts for every value.  After any run of writes,
    deletions and access-control changes on a new context, the log of each key is
    a chain from the empty value to the current one (each entry's old value is the
    new value of the entry before), and the last entry of a variable that exists
    records its version, writer and time. *)
Theorem mutation_log_replays `{S : DomainService ContextVariable} (L : ServiceLaws contextRepository S) (ops : list CtxOp) (key : string) :
  log_inv (foldl ctx_step NewWorkspaceContext ops) key.
Proof.
  enough (forall wc, log_inv wc key -> log_inv (foldl ctx_step wc ops) key) as H.
  { apply H. by split. }
  induction ops as [|op ops IH]; intros wc Hi; simpl; [done|]. apply IH. by apply log_inv_step.
Qed.

Lemma mutation_log_replays_witness :
  let ops := [OpSet 1 "" "k" "a" "alice" RoleOwner None; OpSet 2 "" "k" "b" "bob" RoleContributor None;
              OpDelete 3 "" "k" "bob" RoleContributor; OpDelete 4 "" "k" "alice" RoleOwner;
              OpSet 5 "" "k" "c" "bob" RoleContributor None] in
  let wc := foldl (@ctx_step context_service) NewWorkspaceContext ops in
  log_inv wc "k" /\ (mu_NewValue <$> MutationsForKey wc "k") = ["a"; "b"; ""; "c"].
Proof.
  intros ops wc. split; [apply (@mutation_log_replays context_service _ ops "k")|by vm_compute].
Defined.

(** ** Witnesses *)

Definition witness_private : ContextVariable := mkVar "notes" "secret" 1 "alice" 1 VisibilityPrivate.
Definition witness_context : WorkspaceContext := mkContext {[ "notes" := witness_private ]} [] ∅.

Lemma private_variable_protected_witness :
  Context_Get (foldl (@ctx_step context_service) witness_context
                 [OpSet 2 "" "notes" "x" "bob" RoleOwner (Some VisibilityShared);
                  OpDelete 3 "" "notes" "bob" RoleOwner]) "notes" = Some witness_private.
Proof.
  apply (@private_variable_protected context_service _ "alice" "notes" witness_private witness_context
           [OpSet 2 "" "notes" "x" "bob" RoleOwner (Some VisibilityShared); OpDelete 3 "" "notes" "bob" RoleOwner]).
  - by split.
  - done.
  - by repeat constructor.
Defined.

Lemma hidden_variable_existence_leaks_witness :
  (@SetWithContext context_service 2 "" witness_context "notes" "x" "bob" RoleContributor None).2
    = Err (ErrVarNotFound "notes").
Proof.
  apply (hidden_variable_existence_leaks "alice" "bob" "notes" "x" witness_private witness_context 2 ""
           RoleContributor RoleContributor); done.
Defined.

(** ** Write conflicts are two writers in the window *)

Lemma recentMutations_elem key cutoff rl m :
  (forall i j mi mj, (i <= j)%nat -> rl !! i = Some mi -> rl !! j = Some mj -> mu_Timestamp mj <= mu_Timestamp mi) ->
  m ∈ recentMutations key cutoff rl <-> m ∈ rl /\ mu_Key m = key /\ cutoff <= mu_Timestamp m.
Proof.
  intros Hs. induction rl as [|x rl IH]; simpl; [rewrite elem_of_nil; tauto|].
  assert (forall m', m' ∈ rl -> mu_Timestamp m' <= mu_Timestamp x) as Hx.
  { intros m' [j Hj]%list_elem_of_lookup_1. by apply (Hs 0%nat (S j)); [lia|..]. }
  assert (m ∈ recentMutations key cutoff rl <-> m ∈ rl /\ mu_Key m = key /\ cutoff <= mu_Timestamp m) as IH'.
  { apply IH. intros i j mi mj Hij Hi Hj. by apply (Hs (S i) (S j)); [lia|..]. }
  rewrite elem_of_cons. case_decide as Hk; [rewrite IH'; split; [tauto|intros ([->|?] & ? & ?); [done|tauto]]|].
  unfold Before. destruct (Z.ltb_spec (mu_Timestamp x) cutoff).
  - rewrite elem_of_nil. split; [done|]. intros ([->|Hm] & _ & ?); [lia|]. specialize (Hx m Hm). lia.
  - rewrite elem_of_cons, IH'. split; [|tauto]. intros [->|?]; [|tauto].
    split_and!; [auto|done|lia].
Qed.

Lemma size_two (X : gset string) : (2 <= size X)%nat <-> exists a b, a <> b /\ a ∈ X /\ b ∈ X.
Proof.
  split.
  - intros Hs. destruct (set_choose X) as [a Ha]; [intros E; rewrite E in Hs; rewrite size_empty in Hs; lia|].
    destruct (set_choose (X ∖ {[a]})) as [b Hb].
    + intros E. assert (size (X ∖ {[a]}) = 0)%nat as Hz by (by rewrite E, size_empty).
      rewrite size_difference, size_singleton in Hz by set_solver. lia.
    + apply elem_of_difference in Hb as [Hb Hab]. rewrite elem_of_singleton in Hab. by exists a, b.
  - intros (a & b & Hab & Ha & Hb). assert (size ({[a; b]} : gset string) <= size X)%nat by (apply subseteq_size; intros x; rewrite elem_of_union, !elem_of_singleton; by intros [->| ->]).
    rewrite size_union, !size_singleton in *; [lia|]. intros x. rewrite !elem_of_singleton. congruence.
Qed.

Lemma size_list_to_set_le (l : list string) : (size (list_to_set l : gset string) <= length l)%nat.
Proof.
  induction l as [|x l IH]; [done|]. rewrite list_to_set_cons. cbn [length].
  rewrite size_union_alt, size_singleton.
  assert (size (list_to_set l ∖ {[x]} : gset string) <= size (list_to_set l : gset string))%nat
    by (apply subseteq_size; by intros y [? _]%elem_of_difference).
  lia.
Qed.

(** A write conflict is two writers in the window.  On a log in time order,
    [DetectWriteConflict] reports a conflict exactly when two different agents
    have mutated the key at or after [now - window]; the conflict then names
    exactly the agents that have, each once. *)
Theorem DetectWriteConflict_iff (now window : Z) (order : gset string -> list string) (wc : WorkspaceContext)
    (key : string)
    (Horder : forall X, order X ≡ₚ elements X)
    (Hsorted : forall i j mi mj, (i <= j)%nat -> wc_mutations wc !! i = Some mi -> wc_mutations wc !! j = Some mj ->
                 mu_Timestamp mi <= mu_Timestamp mj) :
  let writer a := exists m, m ∈ wc_mutations wc /\ mu_Key m = key /\ now - window <= mu_Timestamp m /\ mu_AgentID m = a in
  (is_Some (DetectWriteConflict now order wc key window) <-> exists a b, a <> b /\ writer a /\ writer b) /\
  (forall c, DetectWriteConflict now order wc key window = Some c ->
     cn_Resource c = key /\ NoDup (cn_AgentIDs c) /\ forall a, a ∈ cn_AgentIDs c <-> writer a).
Proof.
  intros writer. unfold DetectWriteConflict.
  set (recent := recentMutations key (now - window) (reverse (wc_mutations wc))).
  set (agents := list_to_set (mu_AgentID <$> recent) : gset string).
  assert (forall i j mi mj, (i <= j)%nat -> reverse (wc_mutations wc) !! i = Some mi ->
            reverse (wc_mutations wc) !! j = Some mj -> mu_Timestamp mj <= mu_Timestamp mi) as Hrev.
  { intros i j mi mj Hij Hi Hj. apply reverse_lookup_Some in Hi as [Hi1 Hi2], Hj as [Hj1 Hj2].
    eapply Hsorted; [|exact Hj1|exact Hi1]. lia. }
  assert (forall a, a ∈ agents <-> writer a) as Hag.
  { intros a. unfold agents. rewrite elem_of_list_to_set, list_elem_of_fmap. split.
    - intros (m & -> & Hm). apply recentMutations_elem in Hm as (Hm & ? & ?); [|exact Hrev].
      exists m. rewrite elem_of_reverse in Hm. done.
    - intros (m & Hm & Hk & Ht & <-). exists m. split; [done|]. apply recentMutations_elem; [exact Hrev|].
      by rewrite elem_of_reverse. }
  assert (2 <= size agents -> 2 <= length recent)%nat as Hlen.
  { intros Hs. pose proof (size_list_to_set_le (mu_AgentID <$> recent)) as H. rewrite length_fmap in H.
    unfold agents in Hs. lia. }
  assert ((exists a b, a <> b /\ writer a /\ writer b) <-> (2 <= size agents)%nat) as Htwo.
  { rewrite size_two. by setoid_rewrite Hag. }
  rewrite Htwo. destruct (decide (length recent < 2)%nat) as [Hr|Hr].
  { split; [|done]. split; [by intros [? ?]|]. lia. }
  destruct (decide (size agents < 2)%nat) as [Hr2|Hr2].
  { split; [|done]. split; [by intros [? ?]|]. lia. }
  split; [split; [lia|by eexists]|]. intros c [= <-]. simpl. rewrite Horder.
  split_and!; [done|apply NoDup_elements|]. intros a. by rewrite Horder, elem_of_elements.
Qed.

Lemma DetectWriteConflict_iff_witness :
  let wc := mkContext ∅ [mkMutation "k" "" "a" 1 "alice" "" 10; mkMutation "j" "" "a" 1 "bob" "" 11;
                         mkMutation "k" "a" "b" 2 "bob" "" 12] ∅ in
  is_Some (DetectWriteConflict 13 elements wc "k" 5).
Proof.
  intros wc. apply (DetectWriteConflict_iff 13 5 elements wc "k").
  - done.
  - intros i j mi mj Hij Hi Hj.
    destruct i as [|[|[|i]]], j as [|[|[|j]]]; simplify_eq/=; lia.
  - exists "alice", "bob". split; [done|]. split.
    + eexists. split; [left|]. simpl. split_and!; [done|lia|done].
    + eexists. split; [right; right; left|]. simpl. split_and!; [done|lia|done].
Defined.
