(* ===== verification/DepGraph.v ===== *)
(** * Task dependencies (src/internal/core/collaboration/task_dependency.go)

    The dependency graph of tasks: topological sorting by Kahn's algorithm, with
    every loop over a Go map taking its order as an argument. *)

From Stdlib Require Import ZArith Lia.
From stdpp Require Import base option list gmap strings fin_maps fin_sets relations.
From S2P Require Import Prelude.

Open Scope Z_scope.

Abbreviation DependencyGraph := (gmap string (list string)).

Definition NewDependencyGraph : DependencyGraph := ∅.

(** The dependencies of a task; those of an absent one are nil. *)
Definition deps_of (g : DependencyGraph) (id : string) : list string := default [] (g !! id).

(** [if _, exists := dg.nodes[dep]; !exists { dg.nodes[dep] = nil }]. *)
Definition ensureNode (g : DependencyGraph) (dep : string) : DependencyGraph :=
  match g !! dep with Some _ => g | None => <[dep := []]> g end.

Definition AddTask (g : DependencyGraph) (taskID : string) (dependencies : list string) : DependencyGraph :=
  foldl ensureNode (<[taskID := dependencies]> g) dependencies.

Definition CanStart (g : DependencyGraph) (taskID : string) (completed : gmap string bool) : option bool :=
  match g !! taskID with
  | None => None
  | Some deps => Some (forallb (fun dep => default false (completed !! dep)) deps)
  end.

(** ** Kahn's algorithm *)

Abbreviation Degrees := (gmap string Z).

(** [inDegree[id]++] and the like; a missing entry counts as 0. *)
Definition bump (m : Degrees) (id : string) (k : Z) : Degrees := <[id := default 0 (m !! id) + k]> m.

Definition appendTo (m : gmap string (list string)) (k v : string) : gmap string (list string) :=
  <[k := default [] (m !! k) ++ [v]]> m.

(** The body of the loop that builds the reverse edges, for one task. *)
Definition buildTask (g : DependencyGraph) (st : gmap string (list string) * Degrees) (id : string)
  : gmap string (list string) * Degrees :=
  foldl (fun st dep => (appendTo st.1 dep id, bump st.2 id 1)) st (deps_of g id).

(** [o]: the keys of the graph in the order they are ranged over. *)
Definition buildEdges (g : DependencyGraph) (o : list string) : gmap string (list string) * Degrees :=
  foldl (buildTask g) (∅, (fun _ => 0) <$> g) o.

(** One round over the tasks that depend on the node just sorted. *)
Definition release (st : Degrees * list string) (downstream : string) : Degrees * list string :=
  let inDegree := bump st.1 downstream (-1) in
  (inDegree, if decide (inDegree !! downstream = Some 0) then st.2 ++ [downstream] else st.2).

(** The main loop; [None] when [fuel] rounds do not end it. *)
Fixpoint kahn (fuel : nat) (dependedBy : gmap string (list string)) (inDegree : Degrees)
    (queue sorted : list string) : option (list string) :=
  match queue with
  | [] => Some sorted
  | node :: queue =>
      match fuel with
      | O => None
      | S fuel =>
          let st := foldl release (inDegree, queue) (default [] (dependedBy !! node)) in
          kahn fuel dependedBy st.1 st.2 (sorted ++ [node])
      end
  end.

Inductive GraphErr : Type := ErrCircular.

(** [o] and [o']: the orders of the loops over the graph and over the degrees. *)
Definition TopologicalSort (fuel : nat) (g : DependencyGraph) (o o' : list string)
  : option (Res GraphErr (list string)) :=
  let '(dependedBy, inDegree) := buildEdges g o in
  let queue := filter (fun id => inDegree !! id = Some 0) o' in
  (fun sorted => if decide (length sorted = size g) then Ok sorted else Err ErrCircular)
    <$> kahn fuel dependedBy inDegree queue [].

(** ** Graphs built by [AddTask] are closed *)

Definition closed (g : DependencyGraph) : Prop := forall id dep, dep ∈ deps_of g id -> is_Some (g !! dep).

Lemma ensureNode_spec g dep :
  is_Some (ensureNode g dep !! dep) /\ (forall k, is_Some (g !! k) -> is_Some (ensureNode g dep !! k)) /\
  (forall k, deps_of (ensureNode g dep) k = deps_of g k).
Proof.
  unfold ensureNode, deps_of. destruct (g !! dep) eqn:E; [eauto|]. rewrite lookup_insert_eq. split_and!; [eauto|..].
  - intros k Hk. destruct (decide (k = dep)) as [->|]; [by rewrite lookup_insert_eq|by rewrite lookup_insert_ne].
  - intros k. destruct (decide (k = dep)) as [->|]; [by rewrite lookup_insert_eq, E|by rewrite lookup_insert_ne].
Qed.

Lemma ensureNodes_spec ds g :
  (forall d, d ∈ ds -> is_Some (foldl ensureNode g ds !! d)) /\
  (forall k, is_Some (g !! k) -> is_Some (foldl ensureNode g ds !! k)) /\
  (forall k, deps_of (foldl ensureNode g ds) k = deps_of g k).
Proof.
  revert g. induction ds as [|d ds IH]; intros g; simpl; [split_and!; [by intros ? ?%elem_of_nil|done|done]|].
  destruct (ensureNode_spec g d) as (H1 & H2 & H3), (IH (ensureNode g d)) as (I1 & I2 & I3). split_and!.
  - intros x [->|Hx]%elem_of_cons; auto.
  - auto.
  - intros k. by rewrite I3, H3.
Qed.

Lemma AddTask_closed g id ds : closed g -> closed (AddTask g id ds).
Proof.
  intros Hc. unfold AddTask. destruct (ensureNodes_spec ds (<[id := ds]> g)) as (H1 & H2 & H3).
  intros k d. rewrite H3. unfold deps_of. destruct (decide (k = id)) as [->|Hne].
  - rewrite lookup_insert_eq. simpl. apply H1.
  - rewrite lookup_insert_ne by done. intros Hd. apply H2.
    destruct (decide (d = id)) as [->|]; [by rewrite lookup_insert_eq|rewrite lookup_insert_ne by done]. by eapply Hc.
Qed.

(** The graph after adding tasks in order. *)
Definition graph_of (tasks : list (string * list string)) : DependencyGraph :=
  foldl (fun g '(id, ds) => AddTask g id ds) NewDependencyGraph tasks.

Lemma graph_of_closed tasks : closed (graph_of tasks).
Proof.
  unfold graph_of. assert (closed NewDependencyGraph) as H.
  { intros id d. unfold deps_of, NewDependencyGraph. rewrite lookup_empty. by intros ?%elem_of_nil. }
  revert H. generalize NewDependencyGraph. induction tasks as [|[id ds] tasks IH]; intros g Hg; simpl; [done|].
  apply IH. by apply AddTask_closed.
Qed.

(** ** Counting *)

(** How often an id occurs in a list. *)
Definition occ (x : string) (l : list string) : Z := Z.of_nat (length (filter (fun y => y = x) l)).

Lemma occ_nil x : occ x [] = 0.
Proof. done. Qed.

Lemma occ_cons x y l : occ x (y :: l) = (if decide (y = x) then 1 else 0) + occ x l.
Proof.
  unfold occ. case_decide; [rewrite filter_cons_True by done; simpl; lia | by rewrite filter_cons_False].
Qed.

Lemma occ_app x l k : occ x (l ++ k) = occ x l + occ x k.
Proof. unfold occ. rewrite filter_app, length_app. lia. Qed.

Lemma occ_nonneg x l : 0 <= occ x l.
Proof. unfold occ. lia. Qed.

Lemma occ_pos x l : x ∈ l <-> 0 < occ x l.
Proof.
  induction l as [|y l IH]; [rewrite elem_of_nil, occ_nil; lia|].
  rewrite elem_of_cons, occ_cons, IH. pose proof (occ_nonneg x l). case_decide; subst; [split; [lia|auto]|].
  split; [intros [->|?]; [done|lia]|intros ?; right; lia].
Qed.

Definition degree (m : Degrees) (id : string) : Z := default 0 (m !! id).

Lemma degree_bump m id k x : degree (bump m id k) x = degree m x + (if decide (x = id) then k else 0).
Proof.
  unfold degree, bump. case_decide as H; [subst; by rewrite lookup_insert_eq|].
  rewrite lookup_insert_ne by done. lia.
Qed.

(** What building the reverse edges of one task does. *)
Lemma buildTask_spec g st id :
  (forall n, occ n (deps_of g id) = 0 -> (buildTask g st id).1 !! n = st.1 !! n) /\
  (forall n x, occ x (default [] ((buildTask g st id).1 !! n)) =
     occ x (default [] (st.1 !! n)) + (if decide (x = id) then occ n (deps_of g id) else 0)) /\
  (forall x, degree (buildTask g st id).2 x =
     degree st.2 x + (if decide (x = id) then Z.of_nat (length (deps_of g id)) else 0)).
Proof.
  unfold buildTask. generalize (deps_of g id) as ds. intros ds. revert st. induction ds as [|d ds IH]; intros st; simpl.
  { split_and!; [done|intros n x; rewrite occ_nil; case_decide; lia|intros x; case_decide; lia]. }
  destruct (IH (appendTo st.1 d id, bump st.2 id 1)) as (H1 & H2 & H3). split_and!.
  - intros n. rewrite occ_cons. pose proof (occ_nonneg n ds). case_decide; [lia|]. intros Hn. rewrite H1 by lia. simpl.
    unfold appendTo. by rewrite lookup_insert_ne.
  - intros n x. rewrite H2. simpl. unfold appendTo. rewrite (occ_cons n d ds). destruct (decide (d = n)) as [->|Hne].
    + rewrite lookup_insert_eq. simpl. rewrite occ_app, occ_cons, occ_nil.
      destruct (decide (id = x)), (decide (x = id)); subst; try done; lia.
    + rewrite lookup_insert_ne by done. case_decide; lia.
  - intros x. rewrite H3. simpl. rewrite degree_bump. case_decide; lia.
Qed.

Lemma buildEdges_from g o st :
  NoDup o ->
  (forall n x, occ x (default [] ((foldl (buildTask g) st o).1 !! n)) =
     occ x (default [] (st.1 !! n)) + (if decide (x ∈ o) then occ n (deps_of g x) else 0)) /\
  (forall x, degree (foldl (buildTask g) st o).2 x =
     degree st.2 x + (if decide (x ∈ o) then Z.of_nat (length (deps_of g x)) else 0)).
Proof.
  revert st. induction o as [|id o IH]; intros st Hnd; cbn [foldl].
  { split; intros; (case_decide as H; [by apply elem_of_nil in H|lia]). }
  apply NoDup_cons in Hnd as [Hid Hnd]. destruct (IH (buildTask g st id) Hnd) as [H1 H2].
  destruct (buildTask_spec g st id) as (_ & B1 & B2). split.
  - intros n x. rewrite H1, B1. destruct (decide (x = id)) as [->|Hne].
    + rewrite decide_False by done. rewrite decide_True by left. lia.
    + destruct (decide (x ∈ o)); [rewrite decide_True by (by right); lia|].
      rewrite decide_False; [lia|]. rewrite elem_of_cons. tauto.
  - intros x. rewrite H2, B2. destruct (decide (x = id)) as [->|Hne].
    + rewrite decide_False by done. rewrite decide_True by left. lia.
    + destruct (decide (x ∈ o)); [rewrite decide_True by (by right); lia|].
      rewrite decide_False; [lia|]. rewrite elem_of_cons. tauto.
Qed.

(** Releasing a list of tasks: the degrees drop by their occurrences, and those
    that reach 0 are queued, once each. *)
Lemma release_spec l inDegree queue :
  (forall x, x ∈ l -> occ x l <= degree inDegree x) ->
  exists added, (foldl release (inDegree, queue) l).2 = queue ++ added /\ NoDup added /\
    (forall x, x ∈ added <-> x ∈ l /\ degree inDegree x = occ x l) /\
    (forall x, degree (foldl release (inDegree, queue) l).1 x = degree inDegree x - occ x l).
Proof.
  revert inDegree queue. induction l as [|y l IH]; intros inDegree queue Hge; simpl.
  { exists []. rewrite app_nil_r. split_and!; [done|constructor| |intros; rewrite occ_nil; lia].
    intros x. rewrite elem_of_nil. tauto. }
  set (deg1 := bump inDegree y (-1)).
  assert (forall x, degree deg1 x = degree inDegree x - (if decide (x = y) then 1 else 0)) as Hdeg1.
  { intros x. unfold deg1. rewrite degree_bump. case_decide; lia. }
  assert (forall x, x ∈ l -> occ x l <= degree deg1 x) as Hge1.
  { intros x Hx. rewrite Hdeg1. specialize (Hge x ltac:(by right)). rewrite occ_cons in Hge.
    destruct (decide (x = y)), (decide (y = x)); subst; try done; lia. }
  unfold release at 2. simpl. fold deg1.
  destruct (IH deg1 (if decide (deg1 !! y = Some 0) then queue ++ [y] else queue) Hge1) as (added & Hq & Hnd & Hin & Hd).
  assert (deg1 !! y = Some 0 <-> degree deg1 y = 0) as Hzero.
  { unfold degree, deg1, bump. rewrite lookup_insert_eq. simpl. split; [by intros [= ->]|by intros ->]. }
  exists (if decide (deg1 !! y = Some 0) then y :: added else added). split_and!.
  - rewrite Hq. case_decide; [by rewrite <- app_assoc|done].
  - case_decide as Hz; [|done]. constructor; [|done]. rewrite Hin. intros [Hy _].
    apply Hzero in Hz. specialize (Hge1 y Hy). apply occ_pos in Hy. lia.
  - intros x. rewrite elem_of_cons, occ_cons. specialize (Hin x). rewrite Hdeg1 in Hin.
    pose proof (occ_nonneg x l) as Hnn. pose proof (occ_pos x l) as Hpos.
    destruct (decide (x = y)) as [->|Hne].
    + rewrite (decide_True (P := y = y)) by done. rewrite Hdeg1, decide_True in Hzero by done.
      destruct (decide (deg1 !! y = Some 0)) as [Hz|Hz].
      * rewrite elem_of_cons. apply Hzero in Hz. specialize (Hge y ltac:(left)). rewrite occ_cons, decide_True in Hge by done.
        split; [intros _; split; [auto|lia]|auto].
      * rewrite Hin. split; [intros [? ?]; split; [auto|lia]|]. intros [_ Heq]. split; [|lia]. apply Hpos.
        assert (degree inDegree y - 1 <> 0) by tauto. lia.
    + rewrite (decide_False (P := y = x)) by congruence.
      assert (x ∈ (if decide (deg1 !! y = Some 0) then y :: added else added) <-> x ∈ added) as ->.
      { case_decide; [rewrite elem_of_cons|]; tauto. }
      rewrite Hin. replace (degree inDegree x - 0) with (degree inDegree x) by lia. tauto.
  - intros x. rewrite Hd, Hdeg1, occ_cons. destruct (decide (x = y)), (decide (y = x)); subst; try done; lia.
Qed.

(** ** The invariant of the main loop *)

(** The dependencies of a task that are not sorted yet, with repetitions. *)
Definition remaining (g : DependencyGraph) (sorted : list string) (x : string) : Z :=
  Z.of_nat (length (filter (fun d => d ∉ sorted) (deps_of g x))).

Lemma remaining_snoc g sorted n x :
  n ∉ sorted -> remaining g (sorted ++ [n]) x = remaining g sorted x - occ n (deps_of g x).
Proof.
  intros Hn. unfold remaining. induction (deps_of g x) as [|d ds IH]; [done|]. rewrite occ_cons.
  destruct (decide (d = n)) as [->|Hne].
  - rewrite filter_cons_False by (rewrite elem_of_app, list_elem_of_singleton; tauto).
    rewrite filter_cons_True by done. simpl. lia.
  - assert (d ∉ sorted ++ [n] <-> d ∉ sorted) as Hiff by (rewrite elem_of_app, list_elem_of_singleton; tauto).
    destruct (decide (d ∈ sorted)) as [Hd|Hd].
    + rewrite !filter_cons_False by tauto. lia.
    + rewrite !filter_cons_True by tauto. simpl. lia.
Qed.

Lemma remaining_occ g sorted n x : n ∉ sorted -> occ n (deps_of g x) <= remaining g sorted x.
Proof. intros Hn. pose proof (remaining_snoc g sorted n x Hn) as H. unfold remaining in *. lia. Qed.

Lemma remaining_zero g sorted x : remaining g sorted x = 0 <-> forall d, d ∈ deps_of g x -> d ∈ sorted.
Proof.
  unfold remaining. split.
  - intros H d Hd. destruct (decide (d ∈ sorted)); [done|]. exfalso.
    assert (d ∈ filter (fun d => d ∉ sorted) (deps_of g x)) as Hf by (by apply list_elem_of_filter).
    destruct (filter _ _); [by apply elem_of_nil in Hf|]. simpl in H. lia.
  - intros H. rewrite filter_none; [done|]. intros d Hd Hn. by apply Hn, H.
Qed.

(** Every task of a list comes after its dependencies. *)
Definition deps_first (g : DependencyGraph) (l : list string) : Prop :=
  forall i x d, l !! i = Some x -> d ∈ deps_of g x -> exists j, (j < i)%nat /\ l !! j = Some d.

Record kahn_inv (g : DependencyGraph) (inDegree : Degrees) (queue sorted : list string) : Prop := {
  ki_nodup : NoDup (sorted ++ queue);
  ki_nodes x : x ∈ sorted ++ queue -> is_Some (g !! x);
  ki_degree x : is_Some (g !! x) -> degree inDegree x = remaining g sorted x;
  ki_ready x : is_Some (g !! x) -> (x ∈ sorted ++ queue <-> remaining g sorted x = 0);
  ki_order : deps_first g sorted
}.

(** The reverse edges are those of the graph. *)
Definition reverses (g : DependencyGraph) (dependedBy : gmap string (list string)) : Prop :=
  forall n x, occ x (default [] (dependedBy !! n)) = occ n (deps_of g x).

Lemma deps_node g x d : d ∈ deps_of g x -> is_Some (g !! x).
Proof. unfold deps_of. destruct (g !! x); simpl; [eauto|by intros ?%elem_of_nil]. Qed.

Lemma kahn_inv_step g dependedBy inDegree n queue sorted :
  reverses g dependedBy -> kahn_inv g inDegree (n :: queue) sorted ->
  let st := foldl release (inDegree, queue) (default [] (dependedBy !! n)) in
  kahn_inv g st.1 st.2 (sorted ++ [n]).
Proof.
  intros Hrev [Hnd Hnodes Hdeg Hready Hord]. set (l := default [] (dependedBy !! n)).
  assert (n ∉ sorted) as Hns.
  { intros Hs. apply NoDup_app in Hnd as (_ & Hdis & _). apply (Hdis n Hs). left. }
  assert (forall x, x ∈ l <-> n ∈ deps_of g x) as Hl.
  { intros x. rewrite !occ_pos. unfold l. by rewrite Hrev. }
  assert (forall x, x ∈ l -> is_Some (g !! x)) as Hlg by (intros x Hx%Hl; by eapply deps_node).
  destruct (release_spec l inDegree queue) as (added & Hq & Hnda & Hadd & Hd).
  { intros x Hx. rewrite Hdeg by auto. unfold l. rewrite Hrev. by apply remaining_occ. }
  intros st. fold l in st. change (foldl release (inDegree, queue) l) with st in Hq, Hd. rewrite Hq.
  assert (forall x, x ∈ added <-> is_Some (g !! x) /\ remaining g sorted x <> 0 /\ remaining g (sorted ++ [n]) x = 0) as Hadd'.
  { intros x. rewrite Hadd, remaining_snoc by done. assert (occ x l = occ n (deps_of g x)) as -> by apply Hrev. split.
    - intros [Hx He]. split; [auto|]. rewrite Hdeg in He by auto. rewrite Hl, occ_pos in Hx. lia.
    - intros (Hx & Hne & Hz). rewrite Hdeg by done. split; [|lia]. apply Hl, occ_pos.
      pose proof (occ_nonneg n (deps_of g x)). lia. }
  assert (forall x, x ∈ (sorted ++ [n]) ++ queue ++ added <-> x ∈ sorted ++ n :: queue \/ x ∈ added) as Hmem.
  { intros x. rewrite !elem_of_app, !elem_of_cons, elem_of_nil. tauto. }
  split.
  - replace ((sorted ++ [n]) ++ queue ++ added) with ((sorted ++ n :: queue) ++ added)
      by (rewrite <- !app_assoc; done).
    apply NoDup_app. split_and!; [done| |done]. intros x Hx (Hg & Hne & _)%Hadd'. apply Hne. by apply Hready.
  - intros x [Hx|Hx]%Hmem; [auto|]. by apply Hadd' in Hx as [? _].
  - intros x Hx. rewrite Hd, Hdeg, remaining_snoc by done. unfold l. by rewrite Hrev.
  - intros x Hx. rewrite Hmem, Hready, Hadd' by done. rewrite remaining_snoc by done.
    pose proof (remaining_occ g sorted n x Hns). pose proof (occ_nonneg n (deps_of g x)).
    split; [intros [Hz|(_ & _ & Hz)]; lia|]. intros Hz.
    destruct (decide (remaining g sorted x = 0)); [auto|]. right. split_and!; [done|done|lia].
  - intros i x d Hi Hdx. apply lookup_app_Some in Hi as [Hi|[Hlen Hi]].
    + destruct (Hord i x d Hi Hdx) as (j & Hj & Hjd). exists j. split; [done|]. by apply lookup_app_l_Some.
    + apply list_lookup_singleton_Some in Hi as [Hi <-].
      assert (forall d, d ∈ deps_of g n -> d ∈ sorted) as Hz.
      { apply remaining_zero, Hready; [apply Hnodes|]; apply elem_of_app; right; left. }
      destruct (list_elem_of_lookup_1 _ _ (Hz d Hdx)) as [j Hj]. exists j.
      split; [apply lookup_lt_Some in Hj; lia|]. by apply lookup_app_l_Some.
Qed.

Lemma nodes_length (g : DependencyGraph) (l : list string) :
  NoDup l -> (forall x, x ∈ l -> is_Some (g !! x)) -> (length l <= size g)%nat.
Proof.
  intros Hnd Hl. rewrite <- (size_list_to_set (C := gset string) l Hnd), <- (size_dom (D := gset string)).
  apply subseteq_size. intros x. rewrite elem_of_list_to_set, elem_of_dom. apply Hl.
Qed.

Lemma kahn_total g dependedBy fuel inDegree queue sorted :
  reverses g dependedBy -> kahn_inv g inDegree queue sorted -> (size g <= fuel + length sorted)%nat ->
  exists res inDegree', kahn fuel dependedBy inDegree queue sorted = Some res /\ kahn_inv g inDegree' [] res.
Proof.
  intros Hrev. revert inDegree queue sorted. induction fuel as [|fuel IH]; intros inDegree [|n queue] sorted Hinv Hf;
    simpl; [eauto| |eauto|].
  - exfalso. pose proof (nodes_length g _ (ki_nodup _ _ _ _ Hinv) (ki_nodes _ _ _ _ Hinv)) as H.
    rewrite length_app in H. simpl in H. lia.
  - apply IH; [by apply kahn_inv_step|]. rewrite length_app. simpl. lia.
Qed.

(** ** Cycles *)

Definition depends (g : DependencyGraph) (x d : string) : Prop := d ∈ deps_of g x.

Definition acyclic (g : DependencyGraph) : Prop := forall x, ~ tc (depends g) x x.

Lemma depends_finite g x : closed g -> pred_finite (tc (depends g) x).
Proof.
  intros Hc. exists (elements (dom g)). intros y Hy. rewrite elem_of_elements, elem_of_dom.
  induction Hy as [x y Hxy|x y z _ _ IH]; [by eapply Hc|done].
Qed.

(** A finished loop that leaves a task unsorted has met a cycle. *)
Lemma unsorted_cyclic g inDegree sorted x :
  closed g -> kahn_inv g inDegree [] sorted -> acyclic g -> is_Some (g !! x) -> x ∈ sorted.
Proof.
  intros Hc [_ _ _ Hready _] Hac Hx. rewrite app_nil_r in Hready.
  assert (sn (depends g) x) as Hsn.
  { apply tc_finite_sn; [intros y; apply Hac|by apply depends_finite]. }
  revert Hx. induction Hsn as [x _ IH]. intros Hx. apply Hready; [done|]. apply remaining_zero.
  intros d Hd. apply IH; [done|]. by eapply Hc.
Qed.

Lemma deps_first_acyclic g l :
  closed g -> NoDup l -> (forall x, is_Some (g !! x) -> x ∈ l) -> deps_first g l -> acyclic g.
Proof.
  intros Hc Hnd Hall Hord x Hx.
  assert (forall a b, tc (depends g) a b -> exists i j, (j < i)%nat /\ l !! i = Some a /\ l !! j = Some b) as Hpos.
  { intros a b Hab. induction Hab as [a b Hab|a b c Hab _ (i & j & Hij & Hi & Hj)].
    - destruct (list_elem_of_lookup_1 l a) as [i Hi]; [apply Hall; by eapply deps_node|].
      destruct (Hord i a b Hi Hab) as (j & ? & ?). eauto.
    - destruct (list_elem_of_lookup_1 l a) as [k Hk]; [apply Hall; by eapply deps_node|].
      destruct (Hord k a b Hk Hab) as (i' & ? & Hi'). rewrite (NoDup_lookup l i i' b Hnd Hi Hi') in *.
      exists k, j. split; [lia|done]. }
  destruct (Hpos x x Hx) as (i & j & Hij & Hi & Hj). pose proof (NoDup_lookup l i j x Hnd Hi Hj). lia.
Qed.

(** ** Sorting *)

Lemma buildTask_keeps g st id x : is_Some (st.2 !! x) -> is_Some ((buildTask g st id).2 !! x).
Proof.
  unfold buildTask. generalize (deps_of g id) as ds. intros ds. revert st.
  induction ds as [|d ds IH]; intros st Hx; simpl; [done|]. apply IH. simpl. unfold bump.
  destruct (decide (x = id)) as [->|Hne]; [by rewrite lookup_insert_eq | by rewrite lookup_insert_ne].
Qed.

Lemma buildEdges_spec g o :
  ranges_keys o g -> reverses g (buildEdges g o).1 /\
  forall x, is_Some (g !! x) -> (buildEdges g o).2 !! x = Some (Z.of_nat (length (deps_of g x))).
Proof.
  intros Ho. pose proof (ranges_keys_NoDup _ _ Ho) as Hnd. unfold buildEdges.
  destruct (buildEdges_from g o (∅, (fun _ => 0) <$> g) Hnd) as [H1 H2].
  assert (forall x, x ∈ o <-> is_Some (g !! x)) as Hmem by (intros; by apply ranges_keys_elem).
  split.
  - intros n x. rewrite H1. simpl. rewrite lookup_empty. simpl. rewrite occ_nil. case_decide as Hx; [lia|].
    rewrite Hmem, <- eq_None_not_Some in Hx. unfold deps_of. by rewrite Hx.
  - intros x Hx. specialize (H2 x). unfold degree in H2. simpl in H2. rewrite lookup_fmap in H2.
    rewrite decide_True in H2 by (by apply Hmem).
    assert (is_Some ((foldl (buildTask g) (∅, (fun _ => 0) <$> g) o).2 !! x)) as [k Hk].
    { assert (is_Some ((∅ : gmap string (list string), (fun _ => 0) <$> g).2 !! x)) as Hs.
      { simpl. by rewrite lookup_fmap, fmap_is_Some. }
      revert Hs. clear. generalize (∅ : gmap string (list string), (fun _ : list string => 0) <$> g).
      induction o as [|id o IH]; intros st Hs; simpl; [done|]. apply IH. by apply buildTask_keeps. }
    rewrite Hk in *. simpl in H2. destruct Hx as [ds Hds]. rewrite Hds in H2. simpl in H2. f_equal. lia.
Qed.

Lemma kahn_inv_start g o o' :
  ranges_keys o g -> ranges_keys o' g ->
  kahn_inv g (buildEdges g o).2 (filter (fun id => (buildEdges g o).2 !! id = Some 0) o') [].
Proof.
  intros Ho Ho'. destruct (buildEdges_spec g o Ho) as [_ Hdeg].
  assert (forall x, is_Some (g !! x) -> remaining g [] x = Z.of_nat (length (deps_of g x))) as Hrem.
  { intros x Hx. unfold remaining. rewrite filter_all; [done|]. intros d _. apply not_elem_of_nil. }
  assert (forall x, x ∈ o' <-> is_Some (g !! x)) as Hmem by (intros; by apply ranges_keys_elem).
  split; simpl.
  - apply NoDup_filter. by eapply ranges_keys_NoDup.
  - intros x [_ Hx]%list_elem_of_filter. by apply Hmem.
  - intros x Hx. unfold degree. by rewrite Hdeg, Hrem.
  - intros x Hx. rewrite list_elem_of_filter, Hmem, Hdeg, Hrem by done. split; [by intros [[= ?] _]|].
    intros ->. done.
  - intros i x d Hi. by rewrite lookup_nil in Hi.
Qed.

(** C39: topological sorting is correct and complete.  On a graph built by
    [AddTask], whatever the orders in which Go ranges over its maps, and with as
    many rounds as there are tasks, [TopologicalSort] ends; it returns an order
    exactly when the graph is acyclic; the order lists every task once, and each
    task after all its dependencies. *)
Theorem TopologicalSort_correct (tasks : list (string * list string)) (o o' : list string) (fuel : nat)
    (Ho : ranges_keys o (graph_of tasks)) (Ho' : ranges_keys o' (graph_of tasks))
    (Hfuel : (size (graph_of tasks) <= fuel)%nat) :
  let g := graph_of tasks in
  (acyclic g /\ exists sorted, TopologicalSort fuel g o o' = Some (Ok sorted) /\
     NoDup sorted /\ (forall x, x ∈ sorted <-> is_Some (g !! x)) /\ deps_first g sorted) \/
  (~ acyclic g /\ TopologicalSort fuel g o o' = Some (Err ErrCircular)).
Proof.
  intros g. fold g in Ho, Ho', Hfuel. pose proof (graph_of_closed tasks) as Hc. fold g in Hc.
  destruct (buildEdges_spec g o Ho) as [Hrev _].
  pose proof (kahn_inv_start g o o' Ho Ho') as Hinv.
  destruct (kahn_total g _ fuel _ _ [] Hrev Hinv) as (res & deg & Hk & Hres); [simpl; lia|].
  unfold TopologicalSort. destruct (buildEdges g o) as [by_ deg0]. simpl in *. rewrite Hk. simpl.
  pose proof Hres as [Hnd Hnodes _ _ Hord]. rewrite app_nil_r in Hnd, Hnodes.
  assert (length res = size g <-> forall x, is_Some (g !! x) -> x ∈ res) as Hfull.
  { rewrite <- (size_list_to_set (C := gset string) res Hnd), <- (size_dom (D := gset string) g).
    assert (list_to_set res ⊆ (dom g : gset string)) as Hsub.
    { intros x. rewrite elem_of_list_to_set, elem_of_dom. apply Hnodes. }
    split.
    - intros Hsize x Hx. apply (elem_of_list_to_set (C := gset string)).
      rewrite (set_subseteq_size_eq _ _ Hsub); [by apply elem_of_dom|lia].
    - intros Hall. f_equal. apply (anti_symm (⊆)); [done|]. intros x. rewrite elem_of_dom, elem_of_list_to_set. apply Hall. }
  case_decide as Hlen.
  - left. pose proof (proj1 Hfull Hlen) as Hall. split; [by eapply deps_first_acyclic|].
    exists res. split_and!; try done. intros x. split; [apply Hnodes|apply Hall].
  - right. split; [|done]. intros Hac. apply Hlen, Hfull. intros x Hx. by eapply unsorted_cyclic.
Qed.

Lemma TopologicalSort_correct_witness :
  let tasks := [("deploy", ["test"; "build"]); ("test", ["build"]); ("build", [])] in
  let keys := ["test"; "build"; "deploy"] in
  TopologicalSort 3 (graph_of tasks) keys keys = Some (Ok ["build"; "test"; "deploy"]) /\
  acyclic (graph_of tasks).
Proof.
  intros tasks keys.
  assert (TopologicalSort 3 (graph_of tasks) keys keys = Some (Ok ["build"; "test"; "deploy"])) as E
    by (vm_compute; reflexivity).
  split; [exact E|].
  destruct (TopologicalSort_correct tasks keys keys 3) as [[H _]|[_ H]]; [..|exact H|congruence].
  1,2: unfold ranges_keys; vm_compute; solve_Permutation.
  vm_compute. lia.
Defined.
