(* ===== verification/Messaging.v ===== *)
(** * Inter-agent tasks (src/internal/core/collaboration/messaging.go, types.go and
      the task file of src/internal/storage/collaboration.go)

    Tasks are sent between agents, kept in one file per workspace, and move
    through a small state machine.  [Send] reads and writes the file without the
    router's lock, so its two halves are separate steps. *)

From Stdlib Require Import ZArith Lia.
From stdpp Require Import base option list gmap strings fin_maps relations.
From S2P Require Import Prelude Events.

Open Scope Z_scope.

Abbreviation TaskStatus := string.
Definition TaskSubmitted : TaskStatus := "submitted".
Definition TaskWorking : TaskStatus := "working".
Definition TaskCompleted : TaskStatus := "completed".
Definition TaskFailed : TaskStatus := "failed".
Definition TaskCancelled : TaskStatus := "cancelled".

(** [true]: no error. *)
Definition TaskStatus_Validate (s : TaskStatus) : bool :=
  bool_decide (s ∈ [TaskSubmitted; TaskWorking; TaskCompleted; TaskFailed; TaskCancelled]).

Definition IsTerminal (s : TaskStatus) : bool :=
  bool_decide (s = TaskCompleted \/ s = TaskFailed \/ s = TaskCancelled).

(** Raw JSON is kept as its text; [None] is nil. *)
Record TaskInfo : Type := mkTask {
  tk_ID : string;
  tk_WorkspaceID : string;
  tk_SenderID : string;
  tk_RecipientID : string;
  tk_Action : string;
  tk_Input : option string;
  tk_Output : option string;
  tk_Status : TaskStatus;
  tk_Error : string;
  tk_Dependencies : list string;
  tk_CreatedAt : Z;
  tk_UpdatedAt : Z;
  tk_CompletedAt : option Z;
  tk_Timeout : Z
}.

Record AuditEvent : Type := mkAuditEvent {
  ae_ID : string;
  ae_WorkspaceID : string;
  ae_Actor : string;
  ae_Event : string;
  ae_Resource : string;
  ae_Details : string;
  ae_Note : string;
  ae_Timestamp : Z
}.

(** ** The task file of each workspace *)

Abbreviation TaskStore := (gmap string (Doc (list TaskInfo))).

Inductive TaskErr : Type :=
  | ErrActionRequired | ErrRecipientRequired | ErrSenderRequired | ErrReadTasks | ErrParseTasks | ErrSaveTasks
  | ErrTaskNotFound (id : string) | ErrInvalidStatus (s : TaskStatus) | ErrTerminal (s : TaskStatus)
  | ErrUnknownStatus (s : TaskStatus) | ErrBadTransition (from to : TaskStatus).

(** A file that does not exist, or is empty, holds no tasks. *)
Definition LoadTasks (s : TaskStore) (workspaceID : string) : Res TaskErr (list TaskInfo) :=
  match s !! workspaceID with
  | None | Some Missing => Ok []
  | Some Unreadable => Err ErrReadTasks
  | Some Malformed => Err ErrParseTasks
  | Some (Parsed tasks) => Ok tasks
  end.

(** The file is replaced atomically: a failed write leaves the old one. *)
Definition SaveTasks (fails : bool) (s : TaskStore) (workspaceID : string) (tasks : list TaskInfo)
  : TaskStore * Res TaskErr unit :=
  if fails then (s, Err ErrSaveTasks) else (<[workspaceID := Parsed tasks]> s, Ok tt).

(** ** The router: its storage and its audit trail ([None] without an audit log) *)

Record MessageRouter : Type := mkRouter {
  mr_tasks : TaskStore;
  mr_audit : option (list AuditEvent)
}.

Definition record_event (mr : MessageRouter) (e : AuditEvent) : MessageRouter :=
  mkRouter (mr_tasks mr) ((fun l => l ++ [e]) <$> mr_audit mr).

(** The checks of [Send] and the task it creates. *)
Definition sendTask (uuid : string) (now : Z) (workspaceID : string) (task : TaskInfo) : Res TaskErr TaskInfo :=
  if decide (tk_Action task = "") then Err ErrActionRequired else
  if decide (tk_RecipientID task = "") then Err ErrRecipientRequired else
  if decide (tk_SenderID task = "") then Err ErrSenderRequired else
  Ok (mkTask uuid workspaceID (tk_SenderID task) (tk_RecipientID task) (tk_Action task) (tk_Input task)
        (tk_Output task) TaskSubmitted (tk_Error task) (tk_Dependencies task) now now (tk_CompletedAt task)
        (if decide (tk_Timeout task = 0) then 5 * Minute else tk_Timeout task)).

(** First half: the tasks read; any error counts as no tasks. *)
Definition sendLoad (mr : MessageRouter) (workspaceID : string) : list TaskInfo :=
  match LoadTasks (mr_tasks mr) workspaceID with Ok tasks => tasks | Err _ => [] end.

(** Second half: the tasks read before, with the new one, are written. *)
Definition sendSave (fails : bool) (auditID : string) (mr : MessageRouter) (workspaceID : string)
    (tasks : list TaskInfo) (task : TaskInfo) : MessageRouter * Res TaskErr TaskInfo :=
  match SaveTasks fails (mr_tasks mr) workspaceID (tasks ++ [task]) with
  | (s, Err e) => (mkRouter s (mr_audit mr), Err e)
  | (s, Ok _) =>
      (record_event (mkRouter s (mr_audit mr))
         (mkAuditEvent auditID workspaceID (tk_SenderID task) "task.create" (tk_ID task)
            (tk_SenderID task +:+ " -> " +:+ tk_RecipientID task +:+ ": " +:+ tk_Action task) "" (tk_CreatedAt task)),
       Ok task)
  end.

Definition Send (fails : bool) (uuid auditID : string) (now : Z) (mr : MessageRouter) (workspaceID : string)
    (task : TaskInfo) : MessageRouter * Res TaskErr TaskInfo :=
  match sendTask uuid now workspaceID task with
  | Err e => (mr, Err e)
  | Ok task => sendSave fails auditID mr workspaceID (sendLoad mr workspaceID) task
  end.

Definition findTask (tasks : list TaskInfo) (taskID : string) : option (nat * TaskInfo) :=
  list_find (fun t => tk_ID t = taskID) tasks.

Definition MessageRouter_Get (mr : MessageRouter) (workspaceID taskID : string) : Res TaskErr TaskInfo :=
  match LoadTasks (mr_tasks mr) workspaceID with
  | Err e => Err e
  | Ok tasks => match findTask tasks taskID with
                | Some (_, t) => Ok t
                | None => Err (ErrTaskNotFound taskID)
                end
  end.

(** ** Status transitions *)

(** [None]: no error. *)
Definition validateTransition (from to : TaskStatus) : option TaskErr :=
  if IsTerminal from then Some (ErrTerminal from) else
  let allowed :=
    if decide (from = TaskSubmitted) then Some [TaskWorking; TaskCancelled]
    else if decide (from = TaskWorking) then Some [TaskCompleted; TaskFailed; TaskCancelled]
    else None in
  match allowed with
  | None => Some (ErrUnknownStatus from)
  | Some l => if decide (to ∈ l) then None else Some (ErrBadTransition from to)
  end.

Definition set_task_status (now : Z) (status : TaskStatus) (output : option string) (t : TaskInfo) : TaskInfo :=
  mkTask (tk_ID t) (tk_WorkspaceID t) (tk_SenderID t) (tk_RecipientID t) (tk_Action t) (tk_Input t)
    (match output with Some _ => output | None => tk_Output t end) status (tk_Error t) (tk_Dependencies t)
    (tk_CreatedAt t) now (if IsTerminal status then Some now else tk_CompletedAt t) (tk_Timeout t).

Definition UpdateStatus (fails : bool) (auditID : string) (now : Z) (mr : MessageRouter)
    (workspaceID taskID : string) (status : TaskStatus) (output : option string)
  : MessageRouter * Res TaskErr unit :=
  if negb (TaskStatus_Validate status) then (mr, Err (ErrInvalidStatus status)) else
  match LoadTasks (mr_tasks mr) workspaceID with
  | Err e => (mr, Err e)
  | Ok tasks =>
      match findTask tasks taskID with
      | None => (mr, Err (ErrTaskNotFound taskID))
      | Some (idx, task) =>
          match validateTransition (tk_Status task) status with
          | Some e => (mr, Err e)
          | None =>
              let task' := set_task_status now status output task in
              match SaveTasks fails (mr_tasks mr) workspaceID (<[idx := task']> tasks) with
              | (s, Err e) => (mkRouter s (mr_audit mr), Err e)
              | (s, Ok _) =>
                  (record_event (mkRouter s (mr_audit mr))
                     (mkAuditEvent auditID workspaceID (tk_RecipientID task) ("task." +:+ status) taskID "" "" now),
                   Ok tt)
              end
          end
      end
  end.

Definition Cancel (fails : bool) (auditID : string) (now : Z) (mr : MessageRouter) (workspaceID taskID : string)
  : MessageRouter * Res TaskErr unit := UpdateStatus fails auditID now mr workspaceID taskID TaskCancelled None.

(** ** Listing *)

Record ListOptions : Type := mkListOptions {
  lo_Limit : Z;
  lo_Offset : Z;
  lo_Sort : string;
  lo_Reverse : bool;
  lo_Filters : gmap string string
}.

Definition matchTask (f : gmap string string) (t : TaskInfo) : bool :=
  match f !! "status" with Some s => bool_decide (tk_Status t = s) | None => true end &&
  match f !! "agent" with Some a => bool_decide (tk_SenderID t = a \/ tk_RecipientID t = a) | None => true end &&
  match f !! "action" with Some a => bool_decide (tk_Action t = a) | None => true end.

Definition filterTasks (tasks : list TaskInfo) (opts : ListOptions) : list TaskInfo :=
  if decide (size (lo_Filters opts) = 0%nat) then tasks
  else filter (fun t => matchTask (lo_Filters opts) t) tasks.

Definition paginate {A} (items : list A) (offset limit : Z) : list A :=
  let items := if decide (offset > 0 /\ offset < Z.of_nat (length items)) then drop (Z.to_nat offset) items else items in
  if decide (limit > 0 /\ limit < Z.of_nat (length items)) then take (Z.to_nat limit) items else items.

Definition MessageRouter_List (mr : MessageRouter) (workspaceID : string) (opts : ListOptions)
  : Res TaskErr (list TaskInfo) :=
  match LoadTasks (mr_tasks mr) workspaceID with
  | Err e => Err e
  | Ok tasks => Ok (paginate (filterTasks tasks opts) (lo_Offset opts) (lo_Limit opts))
  end.

(** ** The life of a task *)

Inductive TaskOp : Type :=
  | OpSend (fails : bool) (uuid auditID : string) (now : Z) (task : TaskInfo)
  | OpUpdate (fails : bool) (auditID : string) (now : Z) (taskID : string) (status : TaskStatus) (output : option string).

Definition task_step (w : string) (mr : MessageRouter) (op : TaskOp) : MessageRouter :=
  match op with
  | OpSend fails uuid auditID now task => (Send fails uuid auditID now mr w task).1
  | OpUpdate fails auditID now id status output => (UpdateStatus fails auditID now mr w id status output).1
  end.

(** The allowed moves. *)
Inductive moves : TaskStatus -> TaskStatus -> Prop :=
  | move_start : moves TaskSubmitted TaskWorking
  | move_drop : moves TaskSubmitted TaskCancelled
  | move_complete : moves TaskWorking TaskCompleted
  | move_fail : moves TaskWorking TaskFailed
  | move_cancel : moves TaskWorking TaskCancelled.

Lemma validateTransition_moves from to : validateTransition from to = None <-> moves from to.
Proof.
  unfold validateTransition, IsTerminal. split.
  - intros H. case_bool_decide as Ht; [done|]. repeat case_decide; try done; subst;
      match goal with H : _ ∈ _ |- _ => rewrite !elem_of_cons, elem_of_nil in H end;
      repeat match goal with H : _ \/ _ |- _ => destruct H as [->|H] end; try done; constructor.
  - by destruct 1.
Qed.

(** Who sent what to whom, which never changes. *)
Definition same_task (t t' : TaskInfo) : Prop :=
  tk_ID t' = tk_ID t /\ tk_SenderID t' = tk_SenderID t /\ tk_RecipientID t' = tk_RecipientID t /\
  tk_Action t' = tk_Action t /\ tk_Input t' = tk_Input t /\ tk_CreatedAt t' = tk_CreatedAt t.

(** Later versions of a task: the same task, moved along the machine. *)
Definition evolves (t t' : TaskInfo) : Prop :=
  same_task t t' /\ rtc moves (tk_Status t) (tk_Status t') /\ (IsTerminal (tk_Status t) = true -> t' = t).

Lemma terminal_stuck s s' : IsTerminal s = true -> ~ moves s s'.
Proof. intros H Hm. by destruct Hm. Qed.

#[export] Instance evolves_refl : Reflexive evolves.
Proof. intros t. by split_and!. Qed.

#[export] Instance evolves_trans : Transitive evolves.
Proof.
  intros t1 t2 t3 ((? & ? & ? & ? & ? & ?) & H12 & T12) ((? & ? & ? & ? & ? & ?) & H23 & T23).
  split_and!; [unfold same_task; split_and!; congruence|by etrans|].
  intros Ht. rewrite (T12 Ht) in *. by apply T23.
Qed.

Lemma task_step_keeps w mr op tasks :
  LoadTasks (mr_tasks mr) w = Ok tasks ->
  exists tasks', LoadTasks (mr_tasks (task_step w mr op)) w = Ok tasks' /\
    forall i t, tasks !! i = Some t -> exists t', tasks' !! i = Some t' /\ evolves t t'.
Proof.
  intros Hl.
  assert (exists tasks', LoadTasks (mr_tasks mr) w = Ok tasks' /\
            forall i t, tasks !! i = Some t -> exists t', tasks' !! i = Some t' /\ evolves t t') as Hsame.
  { exists tasks. split; [done|]. intros i t Hi. by exists t. }
  destruct op as [fails uuid aid now task|fails aid now id status output]; simpl.
  - unfold Send. destruct (sendTask uuid now w task) as [task'|]; simpl; [|exact Hsame].
    unfold sendSave, SaveTasks, sendLoad. rewrite Hl. destruct fails; simpl; [exact Hsame|].
    unfold LoadTasks, record_event; simpl. rewrite lookup_insert_eq. eexists. split; [done|]. intros i t Hi. exists t.
    split; [by apply lookup_app_l_Some|done].
  - unfold UpdateStatus. destruct (TaskStatus_Validate status); simpl; [|exact Hsame]. rewrite Hl.
    destruct (findTask tasks id) as [[idx task]|] eqn:Hf; simpl; [|exact Hsame].
    destruct (validateTransition _ _) eqn:Hv; simpl; [exact Hsame|].
    unfold SaveTasks. destruct fails; simpl; [exact Hsame|].
    apply validateTransition_moves in Hv. apply list_find_Some in Hf as (Hidx & _ & _).
    unfold LoadTasks, record_event; simpl. rewrite lookup_insert_eq. eexists. split; [done|]. intros i t Hi.
    destruct (decide (i = idx)) as [->|Hne].
    + rewrite Hidx in Hi. injection Hi as <-. exists (set_task_status now status output task).
      split; [by apply list_lookup_insert_eq, (lookup_lt_Some _ _ _ Hidx)|].
      split_and!; [by unfold same_task|by apply rtc_once|]. intros Ht. by apply terminal_stuck in Hv.
    + exists t. split; [by rewrite list_lookup_insert_ne|done].
Qed.

(** The life of a task.  While a workspace's task file is readable, any run of
    sends and status updates, whether they succeed, are refused or fail to write,
    keeps it readable and keeps every task in its place: sender, recipient, action
    and input stay, its status moves only along submitted to working or cancelled
    and working to completed, failed or cancelled, and a task in a final status
    never changes again. *)
Theorem task_lifecycle (w : string) (mr : MessageRouter) (tasks : list TaskInfo) (ops : list TaskOp)
    (Hl : LoadTasks (mr_tasks mr) w = Ok tasks) :
  exists tasks', LoadTasks (mr_tasks (foldl (task_step w) mr ops)) w = Ok tasks' /\
    forall i t, tasks !! i = Some t -> exists t', tasks' !! i = Some t' /\ evolves t t'.
Proof.
  revert mr tasks Hl. induction ops as [|op ops IH]; intros mr tasks Hl; simpl.
  { exists tasks. split; [done|]. intros i t Hi. by exists t. }
  destruct (task_step_keeps w mr op tasks Hl) as (tasks1 & Hl1 & H1).
  destruct (IH (task_step w mr op) tasks1 Hl1) as (tasks2 & Hl2 & H2). exists tasks2. split; [done|].
  intros i t Hi. destruct (H1 i t Hi) as (t1 & Hi1 & E1), (H2 i _ Hi1) as (t2 & Hi2 & E2).
  exists t2. split; [done|]. by etrans.
Qed.

(** ** Lost tasks *)

(** Tasks that [Send] loses.  Sent one after the other, two tasks are both
    kept.  But reading and writing are not one step: when two sends have both read
    the file before either writes, both report success and the first task is
    gone.  And a task file that cannot be parsed is replaced by one that holds the
    new task only. *)
Theorem Send_loses_tasks (mr : MessageRouter) (w : string) (tasks : list TaskInfo) (t1 t2 : TaskInfo)
    (a1 a2 : string) (Hl : LoadTasks (mr_tasks mr) w = Ok tasks) :
  let before := sendLoad mr w in
  let '(mr1, r1) := sendSave false a1 mr w before t1 in
  (let '(mr2, r2) := sendSave false a2 mr1 w (sendLoad mr1 w) t2 in
   LoadTasks (mr_tasks mr2) w = Ok (tasks ++ [t1; t2])) /\
  (let '(mr2, r2) := sendSave false a2 mr1 w before t2 in
   r1 = Ok t1 /\ r2 = Ok t2 /\ LoadTasks (mr_tasks mr2) w = Ok (tasks ++ [t2])) /\
  (forall bad, mr_tasks bad !! w = Some Malformed ->
     let '(mr3, r3) := sendSave false a1 bad w (sendLoad bad w) t1 in
     r3 = Ok t1 /\ LoadTasks (mr_tasks mr3) w = Ok [t1]).
Proof.
  unfold sendSave, SaveTasks, sendLoad, LoadTasks in *. simpl. unfold record_event. simpl.
  rewrite Hl, !lookup_insert_eq. simpl. rewrite <- app_assoc. split_and!; try done.
  intros bad Hbad. rewrite Hbad, lookup_insert_eq. done.
Qed.

(** ** Pages *)

(** Pages past the end start over.  Within the list, the page at offset
    [k * n] of size [n] holds the next [n] items, so the pages up to the end put
    together are the whole list; but an offset at or past the end is ignored, and
    the page is the first page again instead of an empty one. *)
Theorem pages_past_end_repeat {A} (items : list A) (n : Z) (Hn : 0 < n) :
  (forall k, 0 <= k -> k * n < Z.of_nat (length items) ->
     paginate items (k * n) n = take (Z.to_nat n) (drop (Z.to_nat (k * n)) items)) /\
  (forall offset, Z.of_nat (length items) <= offset -> paginate items offset n = paginate items 0 n).
Proof.
  split.
  - intros k Hk Hlt. unfold paginate. destruct (decide (k * n > 0 /\ _)) as [H|H].
    + destruct (decide (n > 0 /\ _)) as [H'|H']; [done|]. rewrite take_ge; [done|]. lia.
    + assert (k * n = 0) as -> by lia. simpl. rewrite drop_0.
      destruct (decide (n > 0 /\ _)) as [H'|H']; [done|]. rewrite take_ge; [done|]. lia.
  - intros offset Ho. unfold paginate. rewrite (decide_False (P := offset > 0 /\ _)) by lia.
    by rewrite (decide_False (P := 0 > 0 /\ _)) by lia.
Qed.

(** ** Witnesses *)

Definition witness_task (id : string) : TaskInfo :=
  mkTask id "w" "alice" "bob" "review" None None TaskSubmitted "" [] 1 1 None 0.

Definition witness_router : MessageRouter := mkRouter {[ "w" := Parsed [witness_task "t0"] ]} None.

Lemma task_lifecycle_witness :
  let mr := foldl (task_step "w") witness_router
              [OpUpdate false "a" 2 "t0" TaskWorking None; OpUpdate false "a" 3 "t0" TaskSubmitted None;
               OpUpdate false "a" 4 "t0" TaskCompleted (Some "ok"); OpUpdate false "a" 5 "t0" TaskCancelled None] in
  exists tasks', LoadTasks (mr_tasks mr) "w" = Ok tasks' /\
    exists t', tasks' !! 0%nat = Some t' /\ evolves (witness_task "t0") t'.
Proof.
  intros mr. destruct (task_lifecycle "w" witness_router [witness_task "t0"]
    [OpUpdate false "a" 2 "t0" TaskWorking None; OpUpdate false "a" 3 "t0" TaskSubmitted None;
     OpUpdate false "a" 4 "t0" TaskCompleted (Some "ok"); OpUpdate false "a" 5 "t0" TaskCancelled None] eq_refl)
    as (tasks' & Hl & H). exists tasks'. split; [exact Hl|]. by apply (H 0%nat).
Defined.

Lemma Send_loses_tasks_witness :
  let '(mr1, _) := sendSave false "a" witness_router "w" (sendLoad witness_router "w") (witness_task "t1") in
  let '(mr2, _) := sendSave false "b" mr1 "w" (sendLoad witness_router "w") (witness_task "t2") in
  LoadTasks (mr_tasks mr2) "w" = Ok [witness_task "t0"; witness_task "t2"].
Proof.
  exact (proj2 (proj2 (proj1 (proj2 (Send_loses_tasks witness_router "w" [witness_task "t0"]
           (witness_task "t1") (witness_task "t2") "a" "b" eq_refl))))).
Defined.

Lemma pages_past_end_repeat_witness : paginate [1; 2; 3] 4 2 = paginate [1; 2; 3] 0 2.
Proof. apply (pages_past_end_repeat [1; 2; 3] 2 ltac:(lia)). simpl. lia. Defined.
