(* ===== verification/Cycles.v ===== *)
(** * Cycle detection (src/internal/core/collaboration/task_dependency.go, DetectCycles)

    Depth-first search with colours and parent pointers, and the reconstruction of
    the cycle it finds. *)

From Stdlib Require Import ZArith Lia.
From stdpp Require Import base option list gmap strings fin_maps fin_sets relations.
From S2P Require Import Prelude DepGraph.

Open Scope Z_scope.

Definition white : Z := 0.
Definition gray : Z := 1.
Definition black : Z := 2.

Record DFS : Type := mkDFS {
  color : gmap string Z;
  parent : gmap string string
}.

(** A missing entry reads as the zero value, white. *)
Definition colorOf (st : DFS) (x : string) : Z := default white (color st !! x).

Definition set_color (st : DFS) (x : string) (c : Z) : DFS := mkDFS (<[x := c]> (color st)) (parent st).
Definition set_parent (st : DFS) (x p : string) : DFS := mkDFS (color st) (<[x := p]> (parent st)).

(** The loop over the dependencies of [node], given the recursive call; the
    result is the start of a cycle, or the empty string. *)
Fixpoint dfsLoop (rec : DFS -> string -> option (DFS * string)) (node : string) (st : DFS) (deps : list string)
  : option (DFS * string) :=
  match deps with
  | [] => Some (set_color st node black, "")
  | dep :: deps =>
      if decide (colorOf st dep = gray) then Some (set_parent st dep node, dep)
      else if decide (colorOf st dep = white) then
        match rec (set_parent st dep node) dep with
        | None => None
        | Some (st', cycleStart) =>
            if decide (cycleStart <> "") then Some (st', cycleStart) else dfsLoop rec node st' deps
        end
      else dfsLoop rec node st deps
  end.

(** [None] when the recursion is deeper than [fuel]. *)
Fixpoint dfs (fuel : nat) (g : DependencyGraph) (st : DFS) (node : string) : option (DFS * string) :=
  match fuel with
  | O => None
  | S fuel => dfsLoop (dfs fuel g) node (set_color st node gray) (deps_of g node)
  end.

(** The loop that follows the parents back to the start. *)
Fixpoint traceLoop (fuel : nat) (parent : gmap string string) (cycleStart current : string) (cycle : list string)
  : option (list string) :=
  match fuel with
  | O => None
  | S fuel =>
      let cycle := cycle ++ [current] in
      let current := default "" (parent !! current) in
      if decide (current = cycleStart) then Some (cycle ++ [current])
      else traceLoop fuel parent cycleStart current cycle
  end.

Definition reconstructCycle (fuel : nat) (parent : gmap string string) (cycleStart : string) : option (list string) :=
  reverse <$> traceLoop fuel parent cycleStart cycleStart [].

(** The outer loop over the tasks, in the order [o]; an inner [None] is the nil
    result. *)
Fixpoint detectLoop (fuel : nat) (g : DependencyGraph) (st : DFS) (o : list string)
  : option (option (list string)) :=
  match o with
  | [] => Some None
  | id :: o =>
      if decide (colorOf st id = white) then
        match dfs fuel g st id with
        | None => None
        | Some (st', cycleStart) =>
            if decide (cycleStart <> "") then Some <$> reconstructCycle fuel (parent st') cycleStart
            else detectLoop fuel g st' o
        end
      else detectLoop fuel g st o
  end.

Definition DetectCycles (fuel : nat) (g : DependencyGraph) (o : list string) : option (option (list string)) :=
  detectLoop fuel g (mkDFS ((fun _ => white) <$> g) ∅) o.

(** ** The search invariant

    The gray tasks are the current path, newest first: each is a dependency of the
    next and has it as its parent.  Black tasks only depend on black ones, and no
    infinite chain of dependencies starts at one. *)

Fixpoint linked (g : DependencyGraph) (st : DFS) (path : list string) : Prop :=
  match path with
  | x :: ((y :: _) as rest) => x ∈ deps_of g y /\ parent st !! x = Some y /\ linked g st rest
  | _ => True
  end.

Record dfs_inv (g : DependencyGraph) (path : list string) (st : DFS) : Prop := {
  di_nodup : NoDup path;
  di_nodes x : x ∈ path -> is_Some (g !! x);
  di_gray x : colorOf st x = gray <-> x ∈ path;
  di_linked : linked g st path;
  di_black x : colorOf st x = black -> forall d, d ∈ deps_of g x -> colorOf st d = black;
  di_done x : colorOf st x = black -> sn (depends g) x;
  di_color x : colorOf st x = white \/ colorOf st x = gray \/ colorOf st x = black
}.

(** What a search leaves in place: finished tasks and the parents along the path. *)
Definition dfs_keeps (path : list string) (st st' : DFS) : Prop :=
  (forall x, colorOf st x = black -> colorOf st' x = black) /\
  (forall x, x ∈ path -> parent st' !! x = parent st !! x).

(** A cycle recorded in the parents: from the start through [l] and back. *)
Definition recorded (g : DependencyGraph) (st : DFS) (start : string) (l : list string) : Prop :=
  NoDup (start :: l) /\ (forall x, x ∈ start :: l -> is_Some (g !! x)) /\
  linked g st (start :: l ++ [start]).

Lemma colorOf_set st x c y : colorOf (set_color st x c) y = if decide (y = x) then c else colorOf st y.
Proof.
  unfold colorOf, set_color; simpl. case_decide as H; [subst; by rewrite lookup_insert_eq | by rewrite lookup_insert_ne].
Qed.

Lemma linked_parents g st st' path :
  (forall x, x ∈ path -> parent st' !! x = parent st !! x) -> linked g st path -> linked g st' path.
Proof.
  induction path as [|x [|y path] IH]; [done..|]. intros Hp (Hd & Hx & Hl).
  cbn [linked]. split_and!; [done|by rewrite Hp by left|]. apply IH; [|exact Hl]. intros z Hz. apply Hp. by right.
Qed.

Lemma linked_app g st l x k : linked g st (l ++ x :: k) -> linked g st (l ++ [x]) /\ linked g st (x :: k).
Proof.
  induction l as [|y l IH]; [done|]. destruct l as [|z l]; simpl.
  - intros (Hd & Hp & Hl). by split_and!.
  - intros (Hd & Hp & Hl). destruct (IH Hl). by split_and!.
Qed.

(** Meeting a gray task closes the path into a cycle. *)
Lemma close_cycle g st node path dep :
  dfs_inv g (node :: path) st -> dep ∈ deps_of g node -> colorOf st dep = gray ->
  exists l, recorded g (set_parent st dep node) dep l.
Proof.
  intros [Hnd Hnodes Hgray Hlink _ _ _] Hdep Hg. apply Hgray in Hg.
  apply list_elem_of_split in Hg as (l & k & Hsplit). exists l. rewrite Hsplit in *.
  assert (dep ∉ l) as Hl by (intros H; apply NoDup_app in Hnd as (_ & Hdis & _); apply (Hdis dep H); left).
  split_and!.
  - apply NoDup_cons. split; [done|]. by apply NoDup_app in Hnd as [? _].
  - intros x Hx. apply Hnodes. rewrite elem_of_app, elem_of_cons. apply elem_of_cons in Hx. tauto.
  - apply linked_app in Hlink as [Hlink _].
    assert (linked g (set_parent st dep node) (l ++ [dep])) as Hl'.
    { clear -Hlink Hl. induction l as [|x [|y l] IH]; [done|..]; rewrite ?elem_of_cons in Hl; simpl in *;
        rewrite lookup_insert_ne by (intros ->; tauto); destruct Hlink as (? & ? & Hlink); split_and!; try done.
      apply IH; [by apply Hlink|]. rewrite elem_of_cons. tauto. }
    assert (head (l ++ [dep]) = Some node) as Hh.
    { destruct l; simpl in *; by injection Hsplit as <- _. }
    destruct (l ++ [dep]) as [|h t]; [done|]. injection Hh as ->.
    cbn [linked]. split_and!; [done|simpl; by rewrite lookup_insert_eq|exact Hl'].
Qed.

(** ** The search *)

(** How a search from [node] below [path] may end. *)
Definition dfs_post (g : DependencyGraph) (path : list string) (st : DFS) (node : string)
    (out : option (DFS * string)) : Prop :=
  exists st' r, out = Some (st', r) /\
    ((r = "" /\ dfs_inv g path st' /\ dfs_keeps path st st' /\ colorOf st' node = black) \/
     (r <> "" /\ exists l, recorded g st' r l)).

Lemma dfs_enter g path st node :
  dfs_inv g path st -> is_Some (g !! node) -> colorOf st node = white -> linked g st (node :: path) ->
  dfs_inv g (node :: path) (set_color st node gray).
Proof.
  intros [Hnd Hnodes Hgray _ Hbl Hdone Hcol] Hn Hw Hlink.
  assert (forall x, colorOf (set_color st node gray) x = black <-> colorOf st x = black) as Hblack.
  { intros x. rewrite colorOf_set. case_decide; [subst|done]. rewrite Hw. done. }
  split.
  - apply NoDup_cons. split; [|done]. rewrite <- Hgray, Hw. done.
  - intros x [->|Hx]%elem_of_cons; auto.
  - intros x. rewrite colorOf_set, elem_of_cons. case_decide; [tauto|]. rewrite Hgray. tauto.
  - by eapply linked_parents; [|exact Hlink].
  - intros x Hx d Hd. apply Hblack. apply Hblack in Hx. eauto.
  - intros x Hx. apply Hdone. by apply Hblack.
  - intros x. rewrite colorOf_set. case_decide; auto.
Qed.

Lemma dfs_leave g path st node :
  dfs_inv g (node :: path) st -> (forall d, d ∈ deps_of g node -> colorOf st d = black) ->
  dfs_inv g path (set_color st node black).
Proof.
  intros [Hnd Hnodes Hgray Hlink Hbl Hdone Hcol] Hdeps. apply NoDup_cons in Hnd as [Hnp Hnd].
  assert (forall x, colorOf st x = black -> colorOf (set_color st node black) x = black) as Hmono.
  { intros x Hx. rewrite colorOf_set. by case_decide. }
  split.
  - done.
  - intros x Hx. apply Hnodes. by right.
  - intros x. rewrite colorOf_set. case_decide as H; [subst; split; [done|tauto]|]. rewrite Hgray, elem_of_cons. tauto.
  - eapply (linked_parents g st); [done|]. destruct path; [done|]. by destruct Hlink as (_ & _ & ?).
  - intros x. rewrite colorOf_set. case_decide as H; [subst; auto|eauto].
  - intros x. rewrite colorOf_set. case_decide as H; [|auto]. intros _. subst. constructor. intros d Hd. by apply Hdone, Hdeps.
  - intros x. rewrite colorOf_set. case_decide; auto.
Qed.

Lemma dfs_set_parent g path st x p :
  dfs_inv g path st -> x ∉ path -> dfs_inv g path (set_parent st x p).
Proof.
  intros [Hnd Hnodes Hgray Hlink Hbl Hdone Hcol] Hx. split; try done.
  eapply linked_parents; [|exact Hlink]. intros y Hy. simpl. rewrite lookup_insert_ne; [done|]. by intros ->.
Qed.

Section search.
Context (g : DependencyGraph) (Hc : closed g) (Hne : g !! "" = None).

Lemma dfsLoop_spec rec path st node ds ds' st2 :
  (forall st3 dep, dfs_inv g (node :: path) st3 -> is_Some (g !! dep) -> colorOf st3 dep = white ->
     linked g st3 (dep :: node :: path) -> dfs_post g (node :: path) st3 dep (rec st3 dep)) ->
  deps_of g node = ds' ++ ds -> dfs_inv g (node :: path) st2 -> (forall d, d ∈ ds' -> colorOf st2 d = black) ->
  dfs_keeps path st st2 -> dfs_post g path st node (dfsLoop rec node st2 ds).
Proof.
  intros Hrec. revert ds' st2. induction ds as [|dep ds IH]; intros ds' st2 Hds Hinv Hdone [Kb Kp]; simpl.
  { rewrite app_nil_r in Hds. eexists _, _. split; [done|]. left.
    split_and!; [done|by apply dfs_leave; [|rewrite Hds]| |by rewrite colorOf_set, decide_True].
    split; [|done]. intros x Hx. rewrite colorOf_set. case_decide; [done|auto]. }
  assert (dep ∈ deps_of g node) as Hdep by (rewrite Hds; apply elem_of_app; right; left).
  assert (is_Some (g !! dep)) as Hnode by (by eapply Hc).
  destruct (decide (colorOf st2 dep = gray)) as [Hg|Hg].
  { eexists _, _. split; [done|]. right. split; [intros ->; rewrite Hne in Hnode; by destruct Hnode|].
    by eapply close_cycle. }
  destruct (decide (colorOf st2 dep = white)) as [Hw|Hw].
  - assert (dep ∉ node :: path) as Hout by (rewrite <- (di_gray _ _ _ Hinv), Hw; done).
    pose proof (dfs_set_parent g (node :: path) st2 dep node Hinv Hout) as Hinv'.
    destruct (Hrec (set_parent st2 dep node) dep Hinv' Hnode Hw)
      as (st4 & r & -> & [(-> & Hinv4 & [Kb4 Kp4] & Hb4)|(Hr & l & Hl)]).
    { cbn [linked]. split_and!; [done|simpl; by rewrite lookup_insert_eq|exact (di_linked _ _ _ Hinv')]. }
    + simpl. apply (IH (ds' ++ [dep])); [by rewrite <- app_assoc|done| |].
      * intros d [Hd|Hd%list_elem_of_singleton]%elem_of_app; [apply Kb4, Hdone, Hd|by subst].
      * split; [intros x Hx; apply Kb4, Kb, Hx|]. intros x Hx. rewrite Kp4 by (by right). simpl.
        rewrite lookup_insert_ne; [by apply Kp|]. intros ->. apply Hout. by right.
    + rewrite decide_True by done. eexists _, _. split; [done|]. right. eauto.
  - apply (IH (ds' ++ [dep])); [by rewrite <- app_assoc|done| |done].
    intros d [Hd|Hd%list_elem_of_singleton]%elem_of_app; [auto|]. subst.
    destruct (di_color _ _ _ Hinv dep) as [?|[?|?]]; done.
Qed.

Lemma dfs_spec fuel path st node :
  dfs_inv g path st -> is_Some (g !! node) -> colorOf st node = white -> linked g st (node :: path) ->
  (size g <= fuel + length path)%nat -> dfs_post g path st node (dfs fuel g st node).
Proof.
  revert path st node. induction fuel as [|fuel IH]; intros path st node Hinv Hn Hw Hlink Hf.
  { exfalso. pose proof (dfs_enter _ _ _ _ Hinv Hn Hw Hlink) as [Hnd Hnodes _ _ _ _ _].
    pose proof (nodes_length g _ Hnd Hnodes) as H. simpl in *. lia. }
  cbn [dfs]. apply (dfsLoop_spec (dfs fuel g) path st node (deps_of g node) []).
  - intros st3 dep Hi Hd Hwd Hl. apply IH; try done. simpl. lia.
  - done.
  - by apply dfs_enter.
  - by intros d Hd%elem_of_nil.
  - split; [|done]. intros x Hx. rewrite colorOf_set. case_decide; [subst; rewrite Hw in Hx|]; done.
Qed.

(** ** The trace and the outer loop *)

(** Each task of the list is a dependency of the one before it. *)
Fixpoint dep_path (l : list string) : Prop :=
  match l with
  | x :: ((y :: _) as rest) => y ∈ deps_of g x /\ dep_path rest
  | _ => True
  end.

Lemma dep_path_snoc l x y : dep_path (l ++ [x]) -> y ∈ deps_of g x -> dep_path ((l ++ [x]) ++ [y]).
Proof.
  induction l as [|a l IH]; [by simpl|]. destruct l as [|b l]; simpl in *; [tauto|].
  intros [Ha Hl] Hy. split; [done|]. by apply IH.
Qed.

Lemma linked_reverse st l : linked g st l -> dep_path (reverse l).
Proof.
  induction l as [|x l IH]; [done|]. destruct l as [|y l]; [done|]. intros (Hd & _ & Hl).
  specialize (IH Hl). rewrite (reverse_cons (y :: l) x), (reverse_cons l y) in *. by apply dep_path_snoc.
Qed.

Lemma traceLoop_spec st start cur l cycle fuel :
  linked g st (cur :: l ++ [start]) -> start ∉ l -> (length l < fuel)%nat ->
  traceLoop fuel (parent st) start cur cycle = Some (cycle ++ cur :: l ++ [start]).
Proof.
  revert cur cycle fuel. induction l as [|x l IH]; intros cur cycle [|fuel] Hl Hs Hf; simpl in *; try lia.
  - destruct Hl as (_ & -> & _). simpl. rewrite decide_True by done. by rewrite <- app_assoc.
  - destruct Hl as (_ & -> & Hl). simpl. rewrite elem_of_cons in Hs. rewrite decide_False by (intros ->; tauto).
    rewrite IH; [|exact Hl|tauto|lia]. by rewrite <- app_assoc.
Qed.

Lemma reconstruct_spec st start l fuel :
  recorded g st start l -> (size g <= fuel)%nat ->
  exists c, reconstructCycle fuel (parent st) start = Some (start :: c ++ [start]) /\ dep_path (start :: c ++ [start]).
Proof.
  intros (Hnd & Hnodes & Hl) Hf. pose proof (nodes_length g _ Hnd Hnodes) as Hlen. simpl in Hlen.
  apply NoDup_cons in Hnd as [Hs _]. unfold reconstructCycle.
  rewrite (traceLoop_spec st start start l [] fuel Hl Hs) by lia. exists (reverse l).
  assert (reverse (start :: l ++ [start]) = start :: reverse l ++ [start]) as E
    by (rewrite reverse_cons, reverse_app; done).
  split; [simpl; by rewrite E|]. rewrite <- E. by eapply linked_reverse.
Qed.

(** A round trip along dependencies. *)
Definition is_cycle (c : list string) : Prop :=
  exists start l, c = start :: l ++ [start] /\ dep_path c.

Lemma dep_path_tc x l y : dep_path (x :: l ++ [y]) -> tc (depends g) x y.
Proof.
  revert x. induction l as [|z l IH]; intros x; simpl; [by intros [Hd _]; apply tc_once|].
  intros [Hd Hp]. eapply tc_l; [exact Hd|]. by apply IH.
Qed.

Lemma sn_no_cycle x : sn (depends g) x -> ~ tc (depends g) x x.
Proof.
  intros Hsn. induction Hsn as [x _ IH]. intros Hx.
  inversion Hx as [? ? Hxx|? y ? Hxy Hyx]; subst; [by apply (IH x Hxx)|].
  apply (IH y Hxy). by eapply tc_r.
Qed.

Lemma detectLoop_spec fuel o st :
  (size g <= fuel)%nat -> dfs_inv g [] st -> (forall x, x ∈ o -> is_Some (g !! x)) ->
  exists out, detectLoop fuel g st o = Some out /\
    match out with
    | Some c => is_cycle c
    | None => forall x, x ∈ o \/ colorOf st x = black -> sn (depends g) x
    end.
Proof.
  intros Hf. revert st. induction o as [|id o IH]; intros st Hinv Hnodes; simpl.
  { exists None. split; [done|]. intros x [Hx%elem_of_nil|Hx]; [done|]. by apply (di_done _ _ _ Hinv). }
  assert (forall x, x ∈ o -> is_Some (g !! x)) as Hnodes' by (intros x Hx; apply Hnodes; by right).
  case_decide as Hw.
  - destruct (dfs_spec fuel [] st id Hinv (Hnodes id ltac:(left)) Hw I) as (st' & r & -> & [(-> & Hinv' & [Kb _] & Hb)|(Hr & l & Hl)]);
      [simpl; lia| |].
    + simpl. destruct (IH st' Hinv' Hnodes') as (out & -> & Hout). exists out. split; [done|].
      destruct out as [c|]; [done|]. intros x [[->|Hx]%elem_of_cons|Hx]; apply Hout; auto.
    + rewrite decide_True by done. destruct (reconstruct_spec st' r l fuel Hl Hf) as (c & -> & Hp).
      exists (Some (r :: c ++ [r])). split; [done|]. by exists r, c.
  - destruct (IH st Hinv Hnodes') as (out & -> & Hout). exists out. split; [done|].
    destruct out as [c|]; [done|]. intros x [[->|Hx]%elem_of_cons|Hx]; apply Hout; auto.
    right. destruct (di_color _ _ _ Hinv id) as [?|[Hg|?]]; [done| |done].
    by apply (di_gray _ _ _ Hinv), elem_of_nil in Hg.
Qed.

Lemma dfs_start_inv : dfs_inv g [] (mkDFS ((fun _ => white) <$> g) ∅).
Proof.
  assert (forall x, colorOf (mkDFS ((fun _ => white) <$> g) ∅) x = white) as Hw.
  { intros x. unfold colorOf; simpl. rewrite lookup_fmap. by destruct (g !! x). }
  split; try setoid_rewrite Hw; try done.
  - constructor.
  - by intros x ?%elem_of_nil.
  - intros x. rewrite elem_of_nil. done.
  - auto.
Qed.

End search.

(** Cycle detection is exact.  On a graph built by [AddTask] that has no task
    with an empty id, for every iteration order, and with as much fuel as there
    are tasks, [DetectCycles] ends: with nil exactly when the graph is acyclic, and
    otherwise with a real cycle, a list that starts and ends with the same task
    and in which every task depends on the next. *)
Theorem DetectCycles_exact (tasks : list (string * list string)) (o : list string) (fuel : nat)
    (Ho : ranges_keys o (graph_of tasks)) (Hne : graph_of tasks !! "" = None)
    (Hfuel : (size (graph_of tasks) <= fuel)%nat) :
  let g := graph_of tasks in
  (acyclic g /\ DetectCycles fuel g o = Some None) \/
  (~ acyclic g /\ exists c, DetectCycles fuel g o = Some (Some c) /\ is_cycle g c).
Proof.
  intros g. pose proof (graph_of_closed tasks) as Hc. fold g in Ho, Hne, Hfuel, Hc.
  assert (forall x, x ∈ o <-> is_Some (g !! x)) as Hmem by (intros; by apply ranges_keys_elem).
  destruct (detectLoop_spec g Hc Hne fuel o _ Hfuel (dfs_start_inv g)) as (out & Hout & Hcase);
    [by intros x ?%Hmem|].
  unfold DetectCycles. rewrite Hout. destruct out as [c|].
  - right. split; [|by exists c]. destruct Hcase as (start & l & -> & Hp). intros Hac.
    by apply (Hac start), (dep_path_tc g start l).
  - left. split; [|done]. intros x Hx. apply (sn_no_cycle g x); [|done]. apply Hcase. left. apply Hmem.
    inversion Hx as [? ? Hxy|? ? ? Hxy _]; subst; by eapply deps_node.
Qed.

Lemma DetectCycles_exact_witness :
  let tasks := [("a", ["b"]); ("b", ["c"]); ("c", ["a"]); ("d", ["a"])] in
  exists c, DetectCycles 4 (graph_of tasks) ["d"; "a"; "b"; "c"] = Some (Some c) /\ is_cycle (graph_of tasks) c.
Proof.
  intros tasks. destruct (DetectCycles_exact tasks ["d"; "a"; "b"; "c"] 4) as [[_ H]|[_ H]].
  - unfold ranges_keys. vm_compute. solve_Permutation.
  - by vm_compute.
  - vm_compute. lia.
  - by vm_compute in H.
  - exact H.
Defined.
