(* ===== verification/CollabSession.v ===== *)
(** * Agent sessions (src/internal/core/collaboration/session.go, session_service.go)

    Sessions of agents in workspaces, kept in memory behind [domain.Service]. *)

From Stdlib Require Import ZArith Lia.
From stdpp Require Import base option list gmap strings fin_maps.
From S2P Require Import Prelude Domain.

Open Scope Z_scope.

Abbreviation SessionState := string.
Definition SessionJoining : SessionState := "joining".
Definition SessionActive : SessionState := "active".
Definition SessionLeaving : SessionState := "leaving".
Definition SessionClosed : SessionState := "closed".

Record Session : Type := mkSession {
  se_ID : string;
  se_WorkspaceID : string;
  se_ProfileID : string;
  se_State : SessionState;
  se_JoinedAt : Z;
  se_LastSeen : Z;
  se_ExpiresAt : Z
}.

Definition set_session_state (s : Session) (st : SessionState) : Session :=
  mkSession (se_ID s) (se_WorkspaceID s) (se_ProfileID s) st (se_JoinedAt s) (se_LastSeen s) (se_ExpiresAt s).

(** ** The repository *)

Abbreviation Sessions := (gmap string Session).

Definition sessionRepository_Create (r : Sessions) (e : Session) : Sessions * Res RepoErr unit :=
  match r !! se_ID e with
  | Some _ => (r, Err ErrRepoConflict)
  | None => (<[se_ID e := e]> r, Ok tt)
  end.

Definition sessionRepository_Get (r : Sessions) (id : string) : Res RepoErr Session :=
  match r !! id with Some s => Ok s | None => Err ErrRepoNotFound end.

Definition sessionRepository_Update (r : Sessions) (e : Session) : Sessions * Res RepoErr unit :=
  match r !! se_ID e with
  | None => (r, Err ErrRepoNotFound)
  | Some _ => (<[se_ID e := e]> r, Ok tt)
  end.

Definition sessionRepository_Delete (r : Sessions) (id : string) : Sessions * Res RepoErr unit :=
  match r !! id with
  | None => (r, Err ErrRepoNotFound)
  | Some _ => (delete id r, Ok tt)
  end.

(** [out]: the sessions in the order Go iterates over the map. *)
Definition sessionRepository_List (out : list Session) (limit offset : Z) : list Session :=
  if decide (offset >= Z.of_nat (length out)) then []
  else let out := if decide (offset > 0) then drop (Z.to_nat offset) out else out in
       if decide (limit > 0 /\ limit < Z.of_nat (length out)) then take (Z.to_nat limit) out else out.

(** [true]: valid. *)
Definition sessionValidator_Validate (s : Session) : bool :=
  if decide (se_ID s = "") then false
  else if decide (se_WorkspaceID s = "") then false
  else if decide (se_ProfileID s = "") then false
  else bool_decide (se_State s ∈ [SessionJoining; SessionActive; SessionLeaving; SessionClosed]).

Definition sessionRepository : Repository Session :=
  mkRepository sessionRepository_Create sessionRepository_Update sessionRepository_Delete sessionValidator_Validate.

Definition is_active (w p : string) (s : Session) : Prop :=
  se_WorkspaceID s = w /\ se_ProfileID s = p /\ se_State s = SessionActive.

#[export] Instance is_active_dec w p s : Decision (is_active w p s).
Proof. unfold is_active. apply _. Defined.

Definition hasActiveSession (r : Sessions) (workspaceID profileID : string) : bool :=
  bool_decide (Exists (is_active workspaceID profileID) (map_to_list r).*2).

(** ** The manager *)

Inductive SessErr : Type :=
  | ErrNilSession | ErrDuplicateActive (profileID workspaceID : string) | ErrSessService (e : SvcErr) | ErrSessNotFound (id : string)
  | ErrSessNotActive (id : string) (st : SessionState) | ErrNoActive (profileID workspaceID : string).

Section manager.
Context `{S : DomainService Session}.

(** The check for an active session and the rest of [CreateSession] take the lock
    one after the other: [createStore] is what follows the check. *)
Definition createStore (now : Z) (uuid : string) (r : Sessions) (workspaceID profileID : string) (timeout : Z)
  : Sessions * Res SessErr Session :=
  let session := mkSession uuid workspaceID profileID SessionActive now now (now + timeout) in
  match svc_Create r session with
  | (r', Err e) => (r', Err (ErrSessService e))
  | (r', Ok _) =>
      match sessionRepository_Get r' uuid with
      | Ok got => (r', Ok got)
      | Err e => (r', Err (ErrSessService (SvcRepo e)))
      end
  end.

Definition CreateSession (now : Z) (uuid : string) (r : Sessions) (workspaceID profileID : string) (timeout : Z)
  : Sessions * Res SessErr Session :=
  if hasActiveSession r workspaceID profileID then (r, Err (ErrDuplicateActive profileID workspaceID))
  else createStore now uuid r workspaceID profileID timeout.

Definition persist_session (r : Sessions) (s : Session) : Sessions * Res SessErr unit :=
  match svc_Update r s with
  | (r', Err e) => (r', Err (ErrSessService e))
  | (r', Ok _) => (r', Ok tt)
  end.

Definition UpdateSession (r : Sessions) (s : option Session) : Sessions * Res SessErr unit :=
  match s with None => (r, Err ErrNilSession) | Some s => persist_session r s end.

Definition DeleteSession (r : Sessions) (sessionID : string) : Sessions * Res SessErr unit :=
  match svc_Delete r sessionID with
  | (r', Err e) => (r', Err (ErrSessService e))
  | (r', Ok _) => (r', Ok tt)
  end.

Definition Heartbeat (now : Z) (r : Sessions) (sessionID : string) (timeout : Z) : Sessions * Res SessErr unit :=
  match sessionRepository_Get r sessionID with
  | Err _ => (r, Err (ErrSessNotFound sessionID))
  | Ok s =>
      if decide (se_State s <> SessionActive) then (r, Err (ErrSessNotActive sessionID (se_State s))) else
      persist_session r (mkSession (se_ID s) (se_WorkspaceID s) (se_ProfileID s) (se_State s) (se_JoinedAt s)
                           now (now + timeout))
  end.

Definition CloseSession (r : Sessions) (sessionID : string) : Sessions * Res SessErr unit :=
  match sessionRepository_Get r sessionID with
  | Err _ => (r, Err (ErrSessNotFound sessionID))
  | Ok s => persist_session r (set_session_state s SessionClosed)
  end.

(** [all]: what is left of the listing the loop runs over. *)
Fixpoint expireLoop (now : Z) (workspaceID : string) (r : Sessions) (all : list Session)
  : Sessions * list string :=
  match all with
  | [] => (r, [])
  | s :: all =>
      if decide (se_WorkspaceID s = workspaceID /\ se_State s = SessionActive /\ After now (se_ExpiresAt s))
      then match svc_Update r (set_session_state s SessionClosed) with
           | (r', Err _) => expireLoop now workspaceID r' all
           | (r', Ok _) => let '(r'', expired) := expireLoop now workspaceID r' all in (r'', se_ProfileID s :: expired)
           end
      else expireLoop now workspaceID r all
  end.

(** The operations that list the sessions take the order [out] of the map's iteration. *)
Definition ExpireSessions (now : Z) (out : list Session) (r : Sessions) (workspaceID : string)
  : Sessions * list string := expireLoop now workspaceID r (sessionRepository_List out 0 0).

Fixpoint cleanupLoop (workspaceID : string) (r : Sessions) (all : list Session) : Sessions * Z :=
  match all with
  | [] => (r, 0)
  | s :: all =>
      if decide (se_WorkspaceID s = workspaceID /\ se_State s = SessionClosed)
      then match svc_Delete r (se_ID s) with
           | (r', Err _) => cleanupLoop workspaceID r' all
           | (r', Ok _) => let '(r'', count) := cleanupLoop workspaceID r' all in (r'', count + 1)
           end
      else cleanupLoop workspaceID r all
  end.

Definition CleanupClosed (out : list Session) (r : Sessions) (workspaceID : string) : Sessions * Z :=
  cleanupLoop workspaceID r (sessionRepository_List out 0 0).

End manager.

Definition GetSession (r : Sessions) (sessionID : string) : Res SessErr Session :=
  match r !! sessionID with Some s => Ok s | None => Err (ErrSessNotFound sessionID) end.

Definition GetAgentSession (out : list Session) (workspaceID profileID : string) : Res SessErr Session :=
  match list_find (is_active workspaceID profileID) (sessionRepository_List out 0 0) with
  | Some (_, s) => Ok s
  | None => Err (ErrNoActive profileID workspaceID)
  end.

Definition ListSessions (out : list Session) (workspaceID : string) : list Session :=
  filter (fun s => se_WorkspaceID s = workspaceID) (sessionRepository_List out 0 0).

Definition ListActiveSessions (out : list Session) (workspaceID : string) : list Session :=
  filter (fun s => se_WorkspaceID s = workspaceID /\ se_State s = SessionActive) (sessionRepository_List out 0 0).

(** ** Runs of the manager

    [out] is an iteration of the map when it lists its values, each once. *)
Definition iterates (r : Sessions) (out : list Session) : Prop := out ≡ₚ (map_to_list r).*2.

(** One operation, whatever its outcome, from one store to the next.  [UpdateSession]
    is not among them: it stores whatever session its caller hands it. *)
Inductive session_step `{S : DomainService Session} : Sessions -> Sessions -> Prop :=
  | step_create r now uuid w p timeout : session_step r (CreateSession now uuid r w p timeout).1
  | step_heartbeat r now id timeout : session_step r (Heartbeat now r id timeout).1
  | step_close r id : session_step r (CloseSession r id).1
  | step_delete r id : session_step r (DeleteSession r id).1
  | step_expire r now out w : iterates r out -> session_step r (ExpireSessions now out r w).1
  | step_cleanup r out w : iterates r out -> session_step r (CleanupClosed out r w).1.

(** Every session is stored under its id, and an agent has at most one active
    session in a workspace. *)
Record sessions_ok (r : Sessions) : Prop := {
  ok_keyed : forall k s, r !! k = Some s -> se_ID s = k;
  ok_unique : forall k1 k2 s1 s2 w p, r !! k1 = Some s1 -> r !! k2 = Some s2 ->
    is_active w p s1 -> is_active w p s2 -> k1 = k2
}.

Lemma List_all out : sessionRepository_List out 0 0 = out.
Proof. unfold sessionRepository_List. repeat case_decide; try lia; try done. destruct out; simpl in *; [done | lia]. Qed.

Lemma iterates_lookup r out s : sessions_ok r -> iterates r out -> s ∈ out <-> r !! se_ID s = Some s.
Proof.
  intros Hok ->. rewrite list_elem_of_fmap. split.
  - intros ([k s'] & -> & Hin%elem_of_map_to_list). simpl. by rewrite (ok_keyed _ Hok _ _ Hin).
  - intros H. exists (se_ID s, s). by rewrite elem_of_map_to_list.
Qed.

Lemma hasActiveSession_spec r w p :
  hasActiveSession r w p = true <-> exists k s, r !! k = Some s /\ is_active w p s.
Proof.
  unfold hasActiveSession. rewrite bool_decide_eq_true, Exists_exists. setoid_rewrite list_elem_of_fmap. split.
  - intros (s & ([k s'] & -> & Hin%elem_of_map_to_list) & Ha). eauto.
  - intros (k & s & Hs & Ha). exists s. split; [|done]. exists (k, s). by rewrite elem_of_map_to_list.
Qed.

Lemma sessions_ok_empty : sessions_ok ∅.
Proof. split; intros *; by rewrite lookup_empty. Qed.

Lemma sessions_ok_delete r k : sessions_ok r -> sessions_ok (delete k r).
Proof.
  intros [Hk Hu]. split.
  - intros k' s [_ H]%lookup_delete_Some. eauto.
  - intros * [_ H1]%lookup_delete_Some [_ H2]%lookup_delete_Some. eauto.
Qed.

(** Storing a session keeps the invariant when no session under another id is
    active for the same agent. *)
Lemma sessions_ok_insert r e :
  sessions_ok r ->
  (forall k s w p, r !! k = Some s -> is_active w p s -> is_active w p e -> k = se_ID e) ->
  sessions_ok (<[se_ID e := e]> r).
Proof.
  intros [Hk Hu] He. split.
  - intros k s [[<- <-] | [_ H]]%lookup_insert_Some; eauto.
  - intros * [[<- <-] | [? H1]]%lookup_insert_Some [[<- <-] | [? H2]]%lookup_insert_Some; intros; eauto.
    symmetry. eauto.
Qed.

Lemma find_only {A} (P : A -> Prop) `{forall x, Decision (P x)} (l : list A) x :
  (exists i, list_find P l = Some (i, x)) -> x ∈ l /\ P x.
Proof. intros (i & (Hl & HP & _)%list_find_Some). eauto using list_elem_of_lookup_2. Qed.

Section runs.
Context `{S : DomainService Session} `{L : !ServiceLaws sessionRepository S}.

Lemma svc_update_ok r e :
  sessions_ok r ->
  (forall k s w p, r !! k = Some s -> is_active w p s -> is_active w p e -> k = se_ID e) ->
  sessions_ok (svc_Update r e).1.
Proof.
  intros Hok He. destruct (svc_Update r e) as [r' [[] | x]] eqn:E; simpl.
  - apply update_ok in E as [_ E]. simpl in E. unfold sessionRepository_Update in E.
    case_match; simplify_eq. by apply sessions_ok_insert.
  - by apply update_err in E as ->.
Qed.

Lemma svc_delete_ok r k : sessions_ok r -> sessions_ok (svc_Delete r k).1.
Proof.
  intros Hok. destruct (svc_Delete r k) as [r' [[] | x]] eqn:E; simpl.
  - apply delete_ok in E. simpl in E. unfold sessionRepository_Delete in E.
    case_match; simplify_eq. by apply sessions_ok_delete.
  - by apply delete_err in E as ->.
Qed.

Lemma persist_session_store r s : (persist_session r s).1 = (svc_Update r s).1.
Proof. unfold persist_session. by destruct (svc_Update r s) as [? []]. Qed.

Lemma closed_not_active w p s : is_active w p (set_session_state s SessionClosed) -> False.
Proof. by intros (_ & _ & ?). Qed.

Lemma CreateSession_ok now uuid r w p timeout :
  sessions_ok r -> sessions_ok (CreateSession now uuid r w p timeout).1.
Proof.
  intros Hok. unfold CreateSession, createStore. destruct (hasActiveSession r w p) eqn:Ha; [done|].
  destruct (svc_Create _ _) as [r' [[] | x]] eqn:E; simpl; [|by apply create_err in E as ->].
  apply create_ok in E as [_ E]. simpl in E. unfold sessionRepository_Create in E. case_match; simplify_eq.
  set (e := mkSession _ _ _ _ _ _ _) in *. assert (sessions_ok (<[se_ID e := e]> r)).
  { apply sessions_ok_insert; [done|]. intros k s w' p' Hs Hact (Hw & Hp & _). simpl in Hw, Hp. subst.
    exfalso. apply not_true_iff_false in Ha. apply Ha, hasActiveSession_spec. eauto. }
  by case_match.
Qed.

Lemma Heartbeat_ok now r id timeout : sessions_ok r -> sessions_ok (Heartbeat now r id timeout).1.
Proof.
  intros Hok. unfold Heartbeat, sessionRepository_Get. destruct (r !! id) as [s|] eqn:Hs; [|done].
  case_decide; [done|]. rewrite persist_session_store. apply svc_update_ok; [done|].
  intros k s' w p Hs' Ha' Ha. simpl. pose proof (ok_keyed _ Hok _ _ Hs) as ->.
  by eapply (ok_unique _ Hok k id s' s w p).
Qed.

Lemma CloseSession_ok r id : sessions_ok r -> sessions_ok (CloseSession r id).1.
Proof.
  intros Hok. unfold CloseSession. destruct (sessionRepository_Get r id); [|done].
  rewrite persist_session_store. apply svc_update_ok; [done|]. by intros * _ _ []%closed_not_active.
Qed.

Lemma expireLoop_ok now w all : forall r, sessions_ok r -> sessions_ok (expireLoop now w r all).1.
Proof.
  induction all as [|s all IH]; intros r Hok; simpl; [done|]. case_decide; [|auto].
  assert (sessions_ok (svc_Update r (set_session_state s SessionClosed)).1) as Hu.
  { apply svc_update_ok; [done|]. by intros * _ _ []%closed_not_active. }
  destruct (svc_Update _ _) as [r' []]; [|auto]. specialize (IH r' Hu). by destruct (expireLoop _ _ _ _).
Qed.

Lemma cleanupLoop_ok w all : forall r, sessions_ok r -> sessions_ok (cleanupLoop w r all).1.
Proof.
  induction all as [|s all IH]; intros r Hok; simpl; [done|]. case_decide; [|auto].
  pose proof (svc_delete_ok r (se_ID s) Hok) as Hu.
  destruct (svc_Delete _ _) as [r' []]; [|auto]. specialize (IH r' Hu). by destruct (cleanupLoop _ _ _).
Qed.

Lemma session_step_ok r r' : session_step r r' -> sessions_ok r -> sessions_ok r'.
Proof.
  destruct 1; eauto using CreateSession_ok, Heartbeat_ok, CloseSession_ok, expireLoop_ok, cleanupLoop_ok.
  intros Hok. unfold DeleteSession. pose proof (svc_delete_ok r id Hok) as Hd.
  by destruct (svc_Delete r id) as [? []].
Qed.

Lemma reachable_ok r : rtc session_step ∅ r -> sessions_ok r.
Proof.
  apply (rtc_ind_r (fun r => sessions_ok r)); [apply sessions_ok_empty|]. eauto using session_step_ok.
Qed.

Lemma GetAgentSession_spec r out w p s :
  sessions_ok r -> iterates r out ->
  GetAgentSession out w p = Ok s <-> r !! se_ID s = Some s /\ is_active w p s.
Proof.
  intros Hok Hit. unfold GetAgentSession. rewrite List_all.
  rewrite <- (iterates_lookup r out s Hok Hit). split.
  - destruct (list_find _ _) as [[i s']|] eqn:E; [|done]. intros [= ->]. eauto using find_only.
  - intros [Hin Ha]. destruct (list_find _ _) as [[i s']|] eqn:E.
    + destruct (find_only _ _ _ (ex_intro _ _ E)) as [Hin' Ha'].
      apply (iterates_lookup r out _ Hok Hit) in Hin as Hs, Hin' as Hs'.
      pose proof (ok_unique _ Hok _ _ _ _ w p Hs Hs' Ha Ha') as Hid. rewrite Hid in Hs. congruence.
    + apply list_find_None in E. rewrite Forall_forall in E. by destruct (E s).
Qed.

(** From the empty manager, after any run of [CreateSession], [Heartbeat],
    [CloseSession], [DeleteSession], [ExpireSessions] and [CleanupClosed], one
    operation after the other, whatever
    succeeded, failed or was vetoed and in whatever order the map was iterated,
    every session is under its id and an agent has at most one active session in a
    workspace.  So [GetAgentSession], which returns the first it meets, returns
    exactly the agent's active session whatever the order of the iteration, and
    [hasActiveSession] says whether there is one. *)
Theorem one_active_session r w p :
  rtc session_step ∅ r ->
  sessions_ok r /\
  (forall out s, iterates r out ->
     GetAgentSession out w p = Ok s <-> r !! se_ID s = Some s /\ is_active w p s) /\
  (forall out, iterates r out ->
     hasActiveSession r w p = true <-> exists s, GetAgentSession out w p = Ok s).
Proof.
  intros Hr. pose proof (reachable_ok r Hr) as Hok. split; [done|]. split; intros out.
  - intros s. by apply GetAgentSession_spec.
  - intros Hit. rewrite hasActiveSession_spec. setoid_rewrite (GetAgentSession_spec r out w p _ Hok Hit). split.
    + intros (k & s & Hs & Ha). exists s. by rewrite (ok_keyed _ Hok _ _ Hs).
    + intros (s & Hs & Ha). eauto.
Qed.

End runs.

(** Two sessions of one agent: the second only after the first is closed. *)
#[local] Instance session_service : DomainService Session := plain_service sessionRepository.
#[local] Instance session_service_laws : ServiceLaws sessionRepository session_service := plain_service_laws _.

Definition sample_sessions : Sessions :=
  let r := (CreateSession 0 "s1" ∅ "w" "a" 10).1 in
  let r := (CloseSession (CreateSession 3 "s2" r "w" "a" 10).1 "s1").1 in
  (CreateSession 5 "s3" r "w" "a" 10).1.

Lemma one_active_session_witness :
  sessions_ok sample_sessions /\
  GetAgentSession (map_to_list sample_sessions).*2 "w" "a" = Ok (mkSession "s3" "w" "a" SessionActive 5 5 15).
Proof.
  assert (rtc session_step ∅ sample_sessions) as Hr.
  { do 4 (eapply rtc_r; [|constructor]). apply rtc_refl. }
  destruct (one_active_session sample_sessions "w" "a" Hr) as (Hok & Hget & _). split; [exact Hok|].
  apply Hget; [unfold iterates; reflexivity|]. split; [vm_compute; reflexivity | by repeat split].
Defined.

(** The invariant needs the operations one after the other: two creations that have
    both passed the check before either stores leave two active sessions, and
    [GetAgentSession] then answers by the order of the iteration. *)
Lemma racing_creates_two_active :
  let a := mkSession "s1" "w" "a" SessionActive 0 0 10 in
  let b := mkSession "s2" "w" "a" SessionActive 0 0 10 in
  let r1 := (createStore 0 "s1" ∅ "w" "a" 10).1 in
  let r2 := (createStore 0 "s2" r1 "w" "a" 10).1 in
  hasActiveSession ∅ "w" "a" = false /\
  (createStore 0 "s1" ∅ "w" "a" 10).2 = Ok a /\ (createStore 0 "s2" r1 "w" "a" 10).2 = Ok b /\
  ~ sessions_ok r2 /\ iterates r2 [a; b] /\ iterates r2 [b; a] /\
  GetAgentSession [a; b] "w" "a" = Ok a /\ GetAgentSession [b; a] "w" "a" = Ok b.
Proof.
  intros a b r1 r2.
  do 3 (split; [vm_compute; reflexivity|]). split.
  { intros [_ Hu]. discriminate (Hu "s1" "s2" a b "w" "a" ltac:(vm_compute; reflexivity)
      ltac:(vm_compute; reflexivity) ltac:(done) ltac:(done)). }
  split_and!; try (vm_compute; reflexivity);
    unfold iterates; vm_compute; first [reflexivity | apply perm_swap].
Qed.
