(* ===== verification/Text.v ===== *)
(** * The strings package of Go

    What the source uses of it, on strings as sequences of bytes.  Case folding and
    white space follow the ASCII rules: the letters and spaces of Unicode beyond
    ASCII are left as they are, which is the bound of the model on text. *)

From Stdlib Require Import ZArith Lia String Ascii.
From stdpp Require Import base option list strings.
From S2P Require Import Prelude.

Abbreviation chars := list_ascii_of_string.
Abbreviation unchars := string_of_list_ascii.

Definition lowerChar (c : ascii) : ascii :=
  if bool_decide (65 <= N_of_ascii c <= 90)%N then ascii_of_N (N_of_ascii c + 32) else c.

Definition ToLower (s : string) : string := unchars (map lowerChar (chars s)).

Definition upperChar (c : ascii) : ascii :=
  let n := N_of_ascii c in if decide (97 <= n <= 122)%N then ascii_of_N (n - 32) else c.
Definition ToUpper (s : string) : string := unchars (map upperChar (chars s)).

Definition isSpace (c : ascii) : bool := bool_decide (9 <= N_of_ascii c <= 13 \/ N_of_ascii c = 32)%N.

Fixpoint dropSpace (l : list ascii) : list ascii :=
  match l with
  | [] => []
  | c :: l' => if isSpace c then dropSpace l' else l
  end.

Definition trim (l : list ascii) : list ascii := reverse (dropSpace (reverse (dropSpace l))).
Definition TrimSpace (s : string) : string := unchars (trim (chars s)).

Fixpoint prefixb (p l : list ascii) : bool :=
  match p, l with
  | [], _ => true
  | a :: p', b :: l' => bool_decide (a = b) && prefixb p' l'
  | _ :: _, [] => false
  end.

Definition HasPrefix (s p : string) : bool := prefixb (chars p) (chars s).

Fixpoint infixb (p l : list ascii) : bool :=
  prefixb p l || match l with [] => false | _ :: l' => infixb p l' end.

Definition Contains (s sub : string) : bool := infixb (chars sub) (chars s).

Definition ContainsAny (s cs : string) : bool :=
  existsb (fun c => bool_decide (c ∈ chars cs)) (chars s).

(** [s[n:]]. *)
Definition sdrop (n : nat) (s : string) : string := unchars (drop n (chars s)).

(** [strings.TrimPrefix]. *)
Definition TrimPrefix (s p : string) : string := if HasPrefix s p then sdrop (length (chars p)) s else s.

(** [strings.Fields]: the words of [s]. [word] is the word being read, reversed. *)
Definition flush (word : list ascii) : list string :=
  match word with [] => [] | _ => [unchars (reverse word)] end.

Fixpoint fieldsLoop (word l : list ascii) : list string :=
  match l with
  | [] => flush word
  | c :: l' => if isSpace c then flush word ++ fieldsLoop [] l' else fieldsLoop (c :: word) l'
  end.

Definition Fields (s : string) : list string := fieldsLoop [] (chars s).

(** strings.Split and strings.Join with one separating byte. *)
Fixpoint splitOn (c : ascii) (l : list ascii) : list (list ascii) :=
  match l with
  | [] => [[]]
  | x :: l =>
      if decide (x = c) then [] :: splitOn c l
      else match splitOn c l with [] => [[x]] | w :: ws => (x :: w) :: ws end
  end.

Fixpoint joinOn (c : ascii) (ws : list (list ascii)) : list ascii :=
  match ws with
  | [] => []
  | [w] => w
  | w :: ws => w ++ c :: joinOn c ws
  end.

(** strings.HasSuffix, strings.EqualFold, and strings.Join with any separator. *)
Definition HasSuffix (s suf : string) : bool := prefixb (reverse (chars suf)) (reverse (chars s)).

Definition TrimSuffix (s suf : string) : string :=
  if HasSuffix s suf then unchars (take (length (chars s) - length (chars suf)) (chars s)) else s.

Definition EqualFold (s t : string) : bool := bool_decide (ToLower s = ToLower t).

Fixpoint Join (sep : string) (ws : list string) : string :=
  match ws with
  | [] => ""
  | [w] => w
  | w :: ws => w +:+ sep +:+ Join sep ws
  end.

(** strings.Cut at one byte: what is before it, and what is behind it if it occurs. *)
Fixpoint cutAt (c : ascii) (l : list ascii) : list ascii * option (list ascii) :=
  match l with
  | [] => ([], None)
  | x :: l => if decide (x = c) then ([], Some l) else let (a, b) := cutAt c l in (x :: a, b)
  end.

Definition Cut (s : string) (c : ascii) : string * string * bool :=
  match cutAt c (chars s) with
  | (a, Some b) => (unchars a, unchars b, true)
  | (a, None) => (unchars a, "", false)
  end.

(** strings.ReplaceAll of a text that is not empty; [skip] bytes of a match are left. *)
Fixpoint replaceAllLoop (old new : list ascii) (skip : nat) (l : list ascii) : list ascii :=
  match l with
  | [] => []
  | c :: rest =>
      match skip with
      | S skip => replaceAllLoop old new skip rest
      | O => if prefixb old l then new ++ replaceAllLoop old new (length old - 1) rest else c :: replaceAllLoop old new 0 rest
      end
  end.

Definition ReplaceAll (s old new : string) : string := unchars (replaceAllLoop (chars old) (chars new) 0 (chars s)).

(** *** strconv.Quote, the [%q] of fmt *)

Definition hexDigit (n : N) : ascii := ascii_of_N (if decide (n < 10)%N then 48 + n else 87 + n)%N.

Definition backslash : ascii := ascii_of_N 92.
Definition dquote : ascii := ascii_of_N 34.

Definition quoteChar (c : ascii) : list ascii :=
  let n := N_of_ascii c in
  if decide (c = dquote \/ c = backslash) then [backslash; c]
  else if decide (32 <= n < 127)%N then [c]
  else if decide (n = 7)%N then [backslash; "a"%char] else if decide (n = 8)%N then [backslash; "b"%char]
  else if decide (n = 12)%N then [backslash; "f"%char] else if decide (n = 10)%N then [backslash; "n"%char]
  else if decide (n = 13)%N then [backslash; "r"%char] else if decide (n = 9)%N then [backslash; "t"%char]
  else if decide (n = 11)%N then [backslash; "v"%char]
  else [backslash; "x"%char; hexDigit (n / 16)%N; hexDigit (n mod 16)%N].

Definition Quote (s : string) : string := unchars (dquote :: concat (map quoteChar (chars s)) ++ [dquote]).

Example Quote_plain : Quote "k1" = unchars [dquote; "k"%char; "1"%char; dquote].
Proof. reflexivity. Qed.

(** ** Laws *)

Lemma chars_unchars l : chars (unchars l) = l.
Proof. apply list_ascii_of_string_of_list_ascii. Qed.

Lemma unchars_chars s : unchars (chars s) = s.
Proof. apply string_of_list_ascii_of_string. Qed.

Lemma chars_inj s t : chars s = chars t -> s = t.
Proof. intros H. rewrite <- (unchars_chars s), <- (unchars_chars t). by f_equal. Qed.

Lemma chars_app s t : chars (s +:+ t) = chars s ++ chars t.
Proof. induction s as [|c s IH]; [done|]. change (c :: chars (s +:+ t) = c :: (chars s ++ chars t)). by rewrite IH. Qed.

Lemma chars_nil s : chars s = [] <-> s = "".
Proof. by destruct s. Qed.

Lemma unchars_nil l : unchars l = "" <-> l = [].
Proof. by destruct l. Qed.

Lemma lowerChar_idem c : lowerChar (lowerChar c) = lowerChar c.
Proof. destruct c as [[] [] [] [] [] [] [] []]; reflexivity. Qed.

Lemma ToLower_idem s : ToLower (ToLower s) = ToLower s.
Proof.
  unfold ToLower. rewrite chars_unchars, map_map. f_equal. apply map_ext. apply lowerChar_idem.
Qed.

Lemma lowerChar_space c : isSpace (lowerChar c) = isSpace c.
Proof. destruct c as [[] [] [] [] [] [] [] []]; reflexivity. Qed.

Definition starts_space (l : list ascii) : bool := match l with c :: _ => isSpace c | [] => false end.

Lemma dropSpace_starts l : starts_space (dropSpace l) = false.
Proof. induction l as [|c l IH]; simpl; [done|]. by destruct (isSpace c) eqn:E. Qed.

Lemma dropSpace_id l : starts_space l = false -> dropSpace l = l.
Proof. destruct l as [|c l]; simpl; [done|]. by intros ->. Qed.

Lemma dropSpace_suffix l : exists u, l = u ++ dropSpace l /\ Forall (fun c => isSpace c = true) u.
Proof.
  induction l as [|c l IH]; simpl; [by exists []|]. destruct (isSpace c) eqn:E; [|by exists []].
  destruct IH as (u & Hl & Hu). exists (c :: u). split; [|by constructor]. simpl. by rewrite <- Hl.
Qed.

(** Without white space at either end. *)
Definition trimmed (l : list ascii) : Prop := starts_space l = false /\ starts_space (reverse l) = false.

Lemma trim_trimmed l : trimmed (trim l).
Proof.
  unfold trim. set (m := dropSpace l). split.
  - assert (starts_space m = false) as Hm by apply dropSpace_starts.
    destruct (dropSpace_suffix (reverse m)) as (u & Hu & _). apply (f_equal reverse) in Hu.
    rewrite reverse_involutive, reverse_app in Hu.
    destruct (reverse (dropSpace (reverse m))) as [|c w]; [done|]. by rewrite Hu in Hm.
  - rewrite reverse_involutive. apply dropSpace_starts.
Qed.

Lemma trim_id l : trimmed l -> trim l = l.
Proof.
  intros [H1 H2]. unfold trim. rewrite (dropSpace_id l) by done. rewrite dropSpace_id by done.
  apply reverse_involutive.
Qed.

Lemma trim_idem l : trim (trim l) = trim l.
Proof. apply trim_id, trim_trimmed. Qed.

Lemma TrimSpace_idem s : TrimSpace (TrimSpace s) = TrimSpace s.
Proof. unfold TrimSpace. by rewrite chars_unchars, trim_idem. Qed.

Lemma trimmed_map_lower l : trimmed (map lowerChar l) <-> trimmed l.
Proof.
  unfold trimmed. assert (forall k, starts_space (map lowerChar k) = starts_space k) as H.
  { intros [|c k]; simpl; [done|]. apply lowerChar_space. }
  rewrite H. assert (reverse (map lowerChar l) = map lowerChar (reverse l)) as ->.
  { symmetry. apply (fmap_reverse lowerChar). }
  by rewrite H.
Qed.

Lemma trimmed_TrimSpace s : trimmed (chars s) <-> TrimSpace s = s.
Proof.
  unfold TrimSpace. split.
  - intros H. by rewrite trim_id, unchars_chars.
  - intros H. rewrite <- H, chars_unchars. apply trim_trimmed.
Qed.

Lemma prefixb_spec p l : prefixb p l = true <-> exists v, l = p ++ v.
Proof.
  revert l. induction p as [|a p IH]; intros [|b l]; simpl.
  - by split; [exists []|].
  - by split; [exists (b :: l)|].
  - split; [done|]. by intros [v H].
  - rewrite andb_true_iff, bool_decide_eq_true, IH. split.
    + intros [-> [v ->]]. by exists v.
    + intros [v [= -> ->]]. eauto.
Qed.

Lemma infixb_spec p l : infixb p l = true <-> exists u v, l = u ++ p ++ v.
Proof.
  induction l as [|b l IH]; simpl; rewrite orb_true_iff, prefixb_spec.
  - split.
    + intros [[v H]|H]; [|done]. by exists [], v.
    + intros (u & v & H). left. exists v. by destruct u.
  - rewrite IH. split.
    + intros [[v H]|(u & v & ->)]; [by exists [], v|]. by exists (b :: u), v.
    + intros ([|c u] & v & H); simpl in H; simplify_eq; [left; by exists v|right; by exists u, v].
Qed.

Lemma HasPrefix_spec s p : HasPrefix s p = true <-> exists v, chars s = chars p ++ v.
Proof. apply prefixb_spec. Qed.

Lemma Contains_spec s sub : Contains s sub = true <-> exists u v, chars s = u ++ chars sub ++ v.
Proof. apply infixb_spec. Qed.

Lemma ContainsAny_spec s cs : ContainsAny s cs = true <-> exists c, c ∈ chars s /\ c ∈ chars cs.
Proof.
  unfold ContainsAny. rewrite existsb_exists. setoid_rewrite bool_decide_eq_true.
  split; intros (c & H1 & H2); exists c; (split; [by apply list_elem_of_In|done]).
Qed.

Lemma TrimPrefix_app p s : TrimPrefix (p +:+ s) p = s.
Proof.
  unfold TrimPrefix, sdrop. rewrite (proj2 (HasPrefix_spec _ _)); [|exists (chars s); apply chars_app].
  by rewrite chars_app, drop_app_length, unchars_chars.
Qed.

Lemma splitOn_not_nil c l : splitOn c l <> [].
Proof. destruct l as [|x l]; [done|]. simpl. case_decide; [done|]. by destruct (splitOn c l). Qed.

Lemma joinOn_cons c w ws : ws <> [] -> joinOn c (w :: ws) = w ++ c :: joinOn c ws.
Proof. by destruct ws. Qed.

Lemma joinOn_splitOn c l : joinOn c (splitOn c l) = l.
Proof.
  induction l as [|x l IH]; [done|]. simpl. case_decide as E.
  - rewrite joinOn_cons by apply splitOn_not_nil. simpl. by rewrite IH, E.
  - pose proof (splitOn_not_nil c l) as Hn. destruct (splitOn c l) as [|w ws]; [done|]. rewrite <- IH. by destruct ws.
Qed.

Lemma splitOn_free c l : Forall (fun w => c ∉ w) (splitOn c l).
Proof.
  induction l as [|x l IH]; simpl; [repeat constructor; by intros ?%elem_of_nil|]. case_decide as E.
  - constructor; [by intros ?%elem_of_nil|done].
  - destruct (splitOn c l) as [|w ws]; [repeat constructor|].
    + by intros ?%list_elem_of_singleton.
    + apply Forall_cons in IH as [Hw Hws]. constructor; [|done]. rewrite elem_of_cons. intros [?|?]; [congruence|done].
Qed.

Lemma splitOn_app c w l : c ∉ w -> splitOn c (w ++ c :: l) = w :: splitOn c l.
Proof.
  induction w as [|x w IH]; simpl; intros Hn; [by rewrite decide_True|]. apply not_elem_of_cons in Hn as [Hx Hn].
  rewrite decide_False by congruence. by rewrite IH.
Qed.

Lemma splitOn_single c w : c ∉ w -> splitOn c w = [w].
Proof.
  induction w as [|x w IH]; simpl; intros Hn; [done|]. apply not_elem_of_cons in Hn as [Hx Hn].
  rewrite decide_False by congruence. by rewrite IH.
Qed.

Lemma splitOn_joinOn c ws : ws <> [] -> Forall (fun w => c ∉ w) ws -> splitOn c (joinOn c ws) = ws.
Proof.
  induction ws as [|w ws IH]; [done|]. intros _ [Hw Hws]%Forall_cons. destruct ws as [|w' ws]; [by apply splitOn_single|].
  rewrite joinOn_cons by done. rewrite splitOn_app by done. by rewrite IH.
Qed.

Lemma cutAt_spec c l a b : cutAt c l = (a, Some b) <-> l = a ++ c :: b /\ c ∉ a.
Proof.
  revert a b. induction l as [|x l IH]; intros a b; simpl.
  - split; [done|]. by intros [H _]; destruct a.
  - destruct (decide (x = c)) as [->|Hx].
    + split; [intros [= <- <-]; split; [done|by intros ?%elem_of_nil]|].
      intros [H Ha]. destruct a as [|y a]; simpl in H; simplify_eq; [done|]. destruct Ha. by left.
    + destruct (cutAt c l) as [a' b'] eqn:E. split.
      * intros [= <- ->]. destruct (proj1 (IH a' b) eq_refl) as [-> Ha]. split; [done|].
        rewrite elem_of_cons. intros [?|?]; [congruence|done].
      * intros [H Ha]. destruct a as [|y a]; simpl in H; simplify_eq. apply not_elem_of_cons in Ha as [_ Ha].
        by injection (proj2 (IH a b) (conj eq_refl Ha)) as -> ->.
Qed.

Lemma cutAt_none c l a : cutAt c l = (a, None) <-> a = l /\ c ∉ l.
Proof.
  revert a. induction l as [|x l IH]; intros a; simpl.
  - split; [intros [= <-]; split; [done|by intros ?%elem_of_nil]|]. by intros [-> _].
  - destruct (decide (x = c)) as [->|Hx].
    + split; [done|]. intros [_ []]. by left.
    + rewrite elem_of_cons. destruct (cutAt c l) as [a' b'] eqn:E. split.
      * intros [= <- ->]. destruct (proj1 (IH a') eq_refl) as [-> Ha]. split; [done|]. intros [?|?]; [congruence|done].
      * intros [-> Ha]. injection (proj2 (IH l) ltac:(split; [done|tauto])) as -> ->. done.
Qed.

Lemma HasSuffix_spec s suf : HasSuffix s suf = true <-> exists u, chars s = u ++ chars suf.
Proof.
  unfold HasSuffix. rewrite prefixb_spec. split.
  - intros [v H]. exists (reverse v). apply (f_equal reverse) in H. rewrite reverse_involutive, reverse_app, reverse_involutive in H. done.
  - intros [u H]. exists (reverse u). by rewrite H, reverse_app.
Qed.
