(* ===== verification/Glob.v ===== *)
(** * path.Match and filepath.Match of Go

    Both are the same function on a system whose separator is '/'.  The pattern is
    cut into chunks at the stars; a chunk is a sequence of tokens that consume one
    character each.  [Match] follows the library's algorithm, which tries the
    leftmost place for each chunk and never revises it; [denotes] is the meaning
    the documentation gives to a pattern.  [Match_denotes] proves them equal for
    patterns in which a character class does not admit '/' next to other
    characters, and for every name without '/'. *)

From Stdlib Require Import ZArith Lia String Ascii.
From stdpp Require Import base option list strings.
From S2P Require Import Prelude Text.

(** ** Patterns *)

Inductive tok : Type :=
  | TLit (c : ascii)
  | TAny
  | TClass (negated : bool) (ranges : list (ascii * ascii)).

Definition slash : ascii := "/"%char.
Definition backslash : ascii := Ascii.ascii_of_nat 92.

Definition in_range (c : ascii) (r : ascii * ascii) : bool :=
  bool_decide (N_of_ascii (fst r) <= N_of_ascii c <= N_of_ascii (snd r))%N.

Definition tok_ok (t : tok) (c : ascii) : bool :=
  match t with
  | TLit d => bool_decide (c = d)
  | TAny => bool_decide (c <> slash)
  | TClass negated rs => xorb negated (existsb (in_range c) rs)
  end.

(** [scanChunk]: the stars in front of a chunk, the chunk, and what follows it. *)
Fixpoint skipStars (p : list ascii) : bool * list ascii :=
  match p with
  | c :: p' => if decide (c = "*"%char) then (true, (skipStars p').2) else (false, p)
  | [] => (false, [])
  end.

Fixpoint scanBody (inrange : bool) (p : list ascii) : list ascii * list ascii :=
  match p with
  | [] => ([], [])
  | c :: p' =>
      if decide (c = backslash) then
        match p' with
        | [] => ([c], [])
        | d :: p'' => let '(ch, rest) := scanBody inrange p'' in (c :: d :: ch, rest)
        end
      else if decide (c = "*"%char /\ inrange = false) then ([], p)
      else let inrange := if decide (c = "["%char) then true
                          else if decide (c = "]"%char) then false else inrange in
           let '(ch, rest) := scanBody inrange p' in (c :: ch, rest)
  end.

(** The states of the reader of a chunk: between tokens, after a backslash, after
    the bracket that opens a class, between the ranges of a class, after a
    backslash there, after the low end of a range, after its dash, and after a
    backslash there. *)
Inductive rstate : Type :=
  | RTop | REsc | ROpen
  | RCls (neg : bool) (rs : list (ascii * ascii))
  | RLoEsc (neg : bool) (rs : list (ascii * ascii))
  | RLo (neg : bool) (rs : list (ascii * ascii)) (lo : ascii)
  | RHi (neg : bool) (rs : list (ascii * ascii)) (lo : ascii)
  | RHiEsc (neg : bool) (rs : list (ascii * ascii)) (lo : ascii).

(** A character between two ranges of a class: the end of the class, or the low end
    of the next range. *)
Definition clsChar (neg : bool) (rs : list (ascii * ascii)) (c : ascii) : option (rstate * list tok) :=
  if decide (c = "]"%char /\ rs <> []) then Some (RTop, [TClass neg rs])
  else if decide (c = "-"%char \/ c = "]"%char) then None
  else if decide (c = backslash) then Some (RLoEsc neg rs, [])
  else Some (RLo neg rs c, []).

Definition readChar (st : rstate) (c : ascii) : option (rstate * list tok) :=
  match st with
  | RTop => if decide (c = "["%char) then Some (ROpen, [])
            else if decide (c = "?"%char) then Some (RTop, [TAny])
            else if decide (c = backslash) then Some (REsc, [])
            else Some (RTop, [TLit c])
  | REsc => Some (RTop, [TLit c])
  | ROpen => if decide (c = "^"%char) then Some (RCls true [], []) else clsChar false [] c
  | RCls neg rs => clsChar neg rs c
  | RLoEsc neg rs => Some (RLo neg rs c, [])
  | RLo neg rs lo => if decide (c = "-"%char) then Some (RHi neg rs lo, []) else clsChar neg (rs ++ [(lo, lo)]) c
  | RHi neg rs lo => if decide (c = "-"%char \/ c = "]"%char) then None
                     else if decide (c = backslash) then Some (RHiEsc neg rs lo, [])
                     else Some (RCls neg (rs ++ [(lo, c)]), [])
  | RHiEsc neg rs lo => Some (RCls neg (rs ++ [(lo, c)]), [])
  end.

(** [None]: ErrBadPattern. *)
Fixpoint readChunk (st : rstate) (l : list ascii) : option (list tok) :=
  match l with
  | [] => match st with RTop => Some [] | _ => None end
  | c :: l' =>
      match readChar st c with
      | None => None
      | Some (st', ts) => option_map (app ts) (readChunk st' l')
      end
  end.

Definition chunk : Type := bool * list tok.

Fixpoint parse (fuel : nat) (p : list ascii) : option (list chunk) :=
  match fuel, p with
  | _, [] => Some []
  | O, _ => None
  | S fuel, _ =>
      let '(star, p1) := skipStars p in
      let '(ch, rest) := scanBody false p1 in
      match readChunk RTop ch, parse fuel rest with
      | Some ts, Some cs => Some ((star, ts) :: cs)
      | _, _ => None
      end
  end.

(** Each chunk takes at least one character of the pattern. *)
Definition parsePattern (p : string) : option (list chunk) := parse (length (chars p)) (chars p).

(** ** Matching *)

Fixpoint matchChunk (ts : list tok) (s : list ascii) : option (list ascii) :=
  match ts, s with
  | [], _ => Some s
  | t :: ts', c :: s' => if tok_ok t c then matchChunk ts' s' else None
  | _ :: _, [] => None
  end.

(** The search of a chunk behind a star, one character further each round. *)
Fixpoint skipMatch (ts : list tok) (last : bool) (name : list ascii) : option (list ascii) :=
  match name with
  | [] => None
  | c :: name' =>
      if decide (c = slash) then None else
      match matchChunk ts name' with
      | Some t => if last && bool_decide (t <> []) then skipMatch ts last name' else Some t
      | None => skipMatch ts last name'
      end
  end.

Definition findChunk (star : bool) (ts : list tok) (last : bool) (name : list ascii) : option (list ascii) :=
  match matchChunk ts name with
  | Some t => if last && bool_decide (t <> []) then (if star then skipMatch ts last name else None) else Some t
  | None => if star then skipMatch ts last name else None
  end.

Fixpoint matchLoop (cs : list chunk) (name : list ascii) : bool :=
  match cs with
  | [] => bool_decide (name = [])
  | (star, ts) :: cs' =>
      if decide (star = true /\ ts = []) then bool_decide (slash ∉ name)
      else match findChunk star ts (bool_decide (cs' = [])) name with
           | Some t => matchLoop cs' t
           | None => false
           end
  end.

Inductive MatchErr : Type := ErrBadPattern.

Definition Match (pattern name : string) : Res MatchErr bool :=
  match parsePattern pattern with
  | None => Err ErrBadPattern
  | Some cs => Ok (matchLoop cs (chars name))
  end.

(** ** The meaning of a pattern *)

Definition fits (ts : list tok) (m : list ascii) : Prop := Forall2 (fun t c => tok_ok t c = true) ts m.

(** A star stands for any text without '/', a chunk for one character per token. *)
Fixpoint denotes (cs : list chunk) (s : list ascii) : Prop :=
  match cs with
  | [] => s = []
  | (star, ts) :: cs' => exists u m v, s = u ++ m ++ v /\ (if star then slash ∉ u else u = []) /\
                                        fits ts m /\ denotes cs' v
  end.

(** What [parse] yields: only the first chunk may have no star before it, and only
    the last, with a star, may be empty. *)
Fixpoint chunks_ok (cs : list chunk) : Prop :=
  match cs with
  | [] => True
  | (star, ts) :: cs' => (ts = [] -> star = true /\ cs' = []) /\
                         match cs' with [] => True | (star', _) :: _ => star' = true end /\ chunks_ok cs'
  end.

(** A token that admits '/' admits nothing else. *)
Definition rigid (t : tok) : Prop := tok_ok t slash = true -> forall c, tok_ok t c = true -> c = slash.

Definition plain_for (cs : list chunk) (name : list ascii) : Prop :=
  Forall (fun c : chunk => Forall rigid c.2) cs \/ slash ∉ name.

(** [last]: nothing may follow the chunk. *)
Definition placed (ts : list tok) (last : bool) (name u m t : list ascii) : Prop :=
  name = u ++ m ++ t /\ (slash ∉ u) /\ fits ts m /\ (last = true -> t = []).

Lemma matchChunk_spec ts s t : matchChunk ts s = Some t <-> exists m, s = m ++ t /\ fits ts m.
Proof.
  unfold fits. revert s. induction ts as [|k ts IH]; intros s; simpl.
  - split; [intros [= ->]; by exists []|]. intros (m & -> & ->%Forall2_nil_inv_l). done.
  - destruct s as [|c s].
    + split; [done|]. intros (m & Hm & Hf). destruct m; [by apply Forall2_cons_nil_inv in Hf|done].
    + destruct (tok_ok k c) eqn:E.
      * rewrite IH. split.
        -- intros (m & -> & Hf). exists (c :: m). auto.
        -- intros (m & Hm & Hf). destruct m as [|d m]; [by apply Forall2_cons_nil_inv in Hf|].
           simplify_eq/=. apply Forall2_cons_1 in Hf as [_ Hf]. eauto.
      * split; [done|]. intros (m & Hm & Hf). destruct m as [|d m]; [by apply Forall2_cons_nil_inv in Hf|].
        simplify_eq/=. apply Forall2_cons_1 in Hf as [Hf _]. congruence.
Qed.

(** The search finds the leftmost place, if there is one. *)
Definition leftmost (ts : list tok) (last : bool) (name : list ascii) (out : option (list ascii)) : Prop :=
  match out with
  | Some t => exists u m, placed ts last name u m t /\
                forall u' m' t', placed ts last name u' m' t' -> (length u <= length u')%nat
  | None => forall u m t, ~ placed ts last name u m t
  end.

Lemma placed_here ts last name u m t :
  placed ts last name u m t -> u = [] \/ exists c name' u', name = c :: name' /\ u = c :: u' /\
    c <> slash /\ placed ts last name' u' m t.
Proof.
  intros (Hn & Hu & Hf & Hl). destruct u as [|c u]; [by left|]. right. rewrite not_elem_of_cons in Hu.
  destruct name as [|d name]; simplify_eq/=. exists c, (u ++ m ++ t), u.
  destruct Hu. repeat split; auto.
Qed.

Lemma placed_skip ts last name u m t c :
  c <> slash -> placed ts last name u m t -> placed ts last (c :: name) (c :: u) m t.
Proof. intros Hc (-> & Hu & Hf & Hl). repeat split; try done. by rewrite not_elem_of_cons. Qed.

(** The place at the front of the name, when the chunk fits there. *)
Definition here (ts : list tok) (last : bool) (name : list ascii) : option (list ascii) :=
  match matchChunk ts name with
  | Some t => if last && bool_decide (t <> []) then None else Some t
  | None => None
  end.

Lemma here_Some ts last name t : here ts last name = Some t -> exists m, placed ts last name [] m t.
Proof.
  unfold here. destruct (matchChunk ts name) as [t'|] eqn:E; [|done].
  destruct (last && bool_decide (t' <> [])) eqn:El; [done|]. intros [= ->].
  apply matchChunk_spec in E as (m & -> & Hf). exists m. repeat split; [by apply not_elem_of_nil|done|].
  intros ->. simpl in El. apply bool_decide_eq_false in El. by destruct (decide (t = [])).
Qed.

Lemma here_None ts last name m t : here ts last name = None -> ~ placed ts last name [] m t.
Proof.
  intros Hh (-> & _ & Hf & Hl). unfold here in Hh.
  assert (matchChunk ts (m ++ t) = Some t) as E by (apply matchChunk_spec; eauto).
  simpl in Hh. rewrite E in Hh. destruct last; simpl in Hh; [|done].
  rewrite Hl in Hh by done. by case_bool_decide.
Qed.

Lemma placed_inv ts last c name u m t :
  here ts last (c :: name) = None -> placed ts last (c :: name) u m t ->
  exists u', u = c :: u' /\ c <> slash /\ placed ts last name u' m t.
Proof.
  intros Hh Hp. destruct (placed_here _ _ _ _ _ _ Hp) as [->|(d & name' & u' & Hn & -> & Hd & Hp')].
  - by apply here_None in Hp.
  - simplify_eq. eauto.
Qed.

Lemma leftmost_step ts last c name out :
  leftmost ts last name out ->
  leftmost ts last (c :: name)
    (match here ts last (c :: name) with Some t => Some t | None => if decide (c = slash) then None else out end).
Proof.
  intros IH. destruct (here ts last (c :: name)) as [t|] eqn:Hh.
  { apply here_Some in Hh as [m Hm]. exists [], m. split; [done|]. intros. simpl. lia. }
  case_decide as Hc; [intros u m t (u' & _ & Hc' & _)%(placed_inv _ _ _ _ _ _ _ Hh); done|].
  destruct out as [t|].
  - destruct IH as (u & m & Hp & Hmin). exists (c :: u), m. split; [by apply placed_skip|].
    intros u' m' t' (u'' & -> & _ & Hp')%(placed_inv _ _ _ _ _ _ _ Hh). simpl. apply Hmin in Hp'. lia.
  - intros u m t (u' & _ & _ & Hp)%(placed_inv _ _ _ _ _ _ _ Hh). by eapply IH.
Qed.

(** [skipMatch] on a name is the search that starts one character further. *)
Lemma findChunk_cons ts last c name :
  findChunk true ts last (c :: name) =
  match here ts last (c :: name) with
  | Some t => Some t
  | None => if decide (c = slash) then None else findChunk true ts last name
  end.
Proof.
  unfold findChunk, here. simpl skipMatch.
  destruct (matchChunk ts (c :: name)) as [t|]; [destruct (last && bool_decide (t <> [])); [|done]|];
    (case_decide; [done|]); destruct (matchChunk ts name) as [t'|]; try case_match; done.
Qed.

Lemma findChunk_leftmost ts last name : leftmost ts last name (findChunk true ts last name).
Proof.
  induction name as [|c name IH]; [|rewrite findChunk_cons; by apply leftmost_step].
  assert (findChunk true ts last [] = here ts last []) as ->.
  { unfold findChunk, here. simpl. by repeat case_match. }
  destruct (here ts last []) as [t|] eqn:Hh.
  - apply here_Some in Hh as [m Hm]. exists [], m. split; [done|]. intros. simpl. lia.
  - intros u m t Hp. destruct (placed_here _ _ _ _ _ _ Hp) as [->|(d & name' & u' & Hn & _)]; [|done].
    by apply here_None in Hp.
Qed.

(** ** The algorithm is right *)

Lemma fits_length ts m : fits ts m -> length m = length ts.
Proof. intros H. symmetry. by apply Forall2_length in H. Qed.

(** The text between two places of a chunk behind the same star has no '/'. *)
Lemma between_places ts name u m t u' m' t' :
  Forall rigid ts \/ slash ∉ name ->
  placed ts false name u m t -> placed ts false name u' m' t' -> (length u <= length u')%nat ->
  exists w, t = w ++ t' /\ slash ∉ w.
Proof.
  intros Hr (Hn & Hu & Hf & _) (Hn' & Hu' & Hf' & _) Hle.
  pose proof (fits_length _ _ Hf) as Lm. pose proof (fits_length _ _ Hf') as Lm'.
  set (d := (length u' - length u)%nat). exists (take d t).
  assert (t = drop (length u + length ts) name) as Ht.
  { rewrite Hn, app_assoc, drop_app_length'; [done|]. rewrite length_app. lia. }
  assert (t' = drop (length u' + length ts) name) as Ht'.
  { rewrite Hn', app_assoc, drop_app_length'; [done|]. rewrite length_app. lia. }
  split.
  { assert (t' = drop d t) as ->; [|by rewrite take_drop]. rewrite Ht, Ht', drop_drop. f_equal. lia. }
  intros [i Hi]%list_elem_of_lookup. apply lookup_take_Some in Hi as [Hi Hid].
  rewrite Ht, lookup_drop in Hi.
  assert (slash ∈ name) as Hin by (by eapply list_elem_of_lookup_2).
  destruct Hr as [Hr|]; [|done].
  (* the position is inside [u'] or inside [m'] *)
  destruct (decide (length u + length ts + i < length u')%nat) as [Hlt|Hge].
  { rewrite Hn', lookup_app_l in Hi by done. apply Hu'. by eapply list_elem_of_lookup_2. }
  assert (slash ∈ m') as Hm'.
  { rewrite Hn', lookup_app_r in Hi by lia. rewrite lookup_app_l in Hi by (rewrite Lm'; lia).
    by eapply list_elem_of_lookup_2. }
  (* the first '/' of [m'] sits on a token that [m] fits as well *)
  apply list_elem_of_split_l in Hm' as (a & b & -> & Ha).
  destruct (Forall2_lookup_r _ _ _ _ _ Hf' (list_lookup_middle a b slash _ eq_refl)) as (k & Hk & Hks).
  destruct (Forall2_lookup_l _ _ _ _ _ Hf Hk) as (c & Hc & Hkc).
  rewrite Forall_lookup in Hr. rewrite (Hr _ _ Hk Hks c Hkc) in Hc.
  assert (name !! (length u + length a)%nat = Some slash) as Hpos.
  { rewrite Hn, lookup_app_r by lia. rewrite Nat.add_comm, Nat.add_sub.
    by apply lookup_app_l_Some. }
  assert (length u < length u')%nat by lia.
  assert (name = (u' ++ a) ++ slash :: b ++ t') as Hn'' by (rewrite Hn', <- !app_assoc; done).
  rewrite Hn'', lookup_app_l in Hpos by (rewrite length_app; lia).
  apply list_elem_of_lookup_2, elem_of_app in Hpos. tauto.
Qed.

(** A star in front absorbs text without '/'. *)
Lemma denotes_absorb cs w v :
  match cs with (star, _) :: _ => star = true | [] => False end ->
  slash ∉ w -> denotes cs v -> denotes cs (w ++ v).
Proof.
  destruct cs as [|[star ts] cs]; [done|]. intros -> Hw (u & m & v' & -> & Hu & Hf & Hd).
  exists (w ++ u), m, v'. rewrite <- app_assoc. repeat split; try done. rewrite elem_of_app. tauto.
Qed.

Lemma denotes_last star ts s :
  denotes [(star, ts)] s <-> exists u m, s = u ++ m /\ (if star then slash ∉ u else u = []) /\ fits ts m.
Proof.
  simpl. split.
  - intros (u & m & v & -> & Hu & Hf & ->). exists u, m. by rewrite app_nil_r.
  - intros (u & m & -> & Hu & Hf). exists u, m, []. by rewrite app_nil_r.
Qed.

Lemma findChunk_false ts last name : findChunk false ts last name = here ts last name.
Proof. unfold findChunk, here. by repeat case_match. Qed.

Lemma plain_for_tail c cs u name : plain_for (c :: cs) (u ++ name) -> plain_for cs name.
Proof.
  intros [H|H]; [left; by inversion H|right]. rewrite elem_of_app in H. tauto.
Qed.

Lemma plain_for_head star ts cs name : plain_for ((star, ts) :: cs) name -> Forall rigid ts \/ slash ∉ name.
Proof. intros [H|H]; [left; by inversion H|by right]. Qed.

Lemma matchLoop_denotes cs name :
  chunks_ok cs -> plain_for cs name -> matchLoop cs name = true <-> denotes cs name.
Proof.
  revert name. induction cs as [|[star ts] cs IH]; intros name Hok Hp; [apply bool_decide_eq_true|].
  destruct Hok as (Hempty & Hnext & Hok). simpl matchLoop. case_decide as Hs.
  { destruct Hs as [-> ->], (Hempty eq_refl) as [_ ->]. rewrite bool_decide_eq_true, denotes_last. split.
    - intros Hn. exists name, []. rewrite app_nil_r. repeat split; [done|constructor].
    - by intros (u & m & -> & Hu & ->%Forall2_nil_inv_l); rewrite app_nil_r. }
  set (last := bool_decide (cs = [])).
  assert (forall u m t, placed ts last name u m t -> denotes cs t \/ cs <> []) as Hlast.
  { intros u m t (_ & _ & _ & Hl). subst last. case_bool_decide; [left; subst; by apply Hl|by right]. }
  destruct star.
  - pose proof (findChunk_leftmost ts last name) as Hl.
    destruct (findChunk true ts last name) as [t|]; cycle 1.
    { split; [done|]. intros (u & m & v & -> & Hu & Hf & Hd). exfalso. apply (Hl u m v).
      repeat split; try done. subst last. rewrite bool_decide_eq_true. by intros ->. }
    destruct Hl as (u & m & Hpl & Hmin). pose proof Hpl as (Hn & Hu & Hf & Hend).
    rewrite (IH t Hok) by (rewrite Hn, app_assoc in Hp; by apply plain_for_tail in Hp). split.
    + intros Hd. exists u, m, t. done.
    + intros (u' & m' & v & Hn' & Hu' & Hf' & Hd).
      destruct (decide (cs = [])) as [->|Hne].
      { destruct (Hlast _ _ _ Hpl); done. }
      assert (last = false) as El by (subst last; by case_bool_decide).
      assert (placed ts last name u' m' v) as Hpl' by (repeat split; [done..|by rewrite El]).
      pose proof (Hmin _ _ _ Hpl') as Hle. rewrite El in Hpl, Hpl'.
      destruct (between_places _ _ _ _ _ _ _ _ (plain_for_head _ _ _ _ Hp) Hpl Hpl' Hle) as (w & -> & Hw).
      apply denotes_absorb; [|done|done]. destruct cs as [|[? ?] ?]; done.
  - rewrite findChunk_false. destruct (here ts last name) as [t|] eqn:Hh.
    + apply here_Some in Hh as [m Hpl]. pose proof Hpl as (Hn & _ & Hf & _). simpl in Hn.
      rewrite (IH t Hok) by (rewrite Hn in Hp; by apply plain_for_tail in Hp). split.
      * intros Hd. by exists [], m, t.
      * intros (u' & m' & v & Hn' & -> & Hf' & Hd). simpl in Hn'.
        assert (t = v) as ->; [|done]. apply (f_equal (drop (length ts))) in Hn as E1, Hn' as E2.
        rewrite <- (fits_length _ _ Hf), drop_app_length in E1.
        rewrite <- (fits_length _ _ Hf') in E2. rewrite drop_app_length in E2.
        rewrite (fits_length _ _ Hf) in E1. rewrite (fits_length _ _ Hf') in E2. congruence.
    + split; [done|]. intros (u & m & v & -> & -> & Hf & Hd). apply (here_None _ _ _ m v) in Hh. destruct Hh.
      repeat split; [by apply not_elem_of_nil|done|]. subst last. rewrite bool_decide_eq_true. by intros ->.
Qed.

(** ** What parsing yields *)

Lemma readChunk_cons st c l ts :
  readChunk st (c :: l) = Some ts -> exists st' ts1 ts2, readChar st c = Some (st', ts1) /\
    readChunk st' l = Some ts2 /\ ts = ts1 ++ ts2.
Proof.
  simpl. destruct (readChar st c) as [[st' ts1]|]; [|done].
  destruct (readChunk st' l) as [ts2|] eqn:E; [|done]. intros [= <-]. eauto 10.
Qed.

(** A reader between tokens that reads on, or that is inside a token, emits one. *)
Lemma readChar_emits st c st' ts : readChar st c = Some (st', ts) -> st' <> RTop \/ ts <> [].
Proof. unfold readChar, clsChar. intros. repeat case_match; simplify_eq; first [by left | by right]. Qed.

Lemma readChunk_nonempty l st ts : readChunk st l = Some ts -> st <> RTop \/ l <> [] -> ts <> [].
Proof.
  revert st ts. induction l as [|c l IH]; intros st ts H Hst.
  - simpl in H. destruct st; try done. by destruct Hst.
  - apply readChunk_cons in H as (st' & ts1 & ts2 & Hc & Hr & ->).
    destruct (readChar_emits _ _ _ _ Hc) as [Hn|Hn]; [|by destruct ts1].
    intros [_ ->]%app_eq_nil. by apply (IH _ _ Hr); [left|].
Qed.

Lemma skipStars_spec p star p1 :
  skipStars p = (star, p1) ->
  (star = true <-> exists p', p = "*"%char :: p') /\ (forall p', p1 <> "*"%char :: p') /\
  (length p1 <= length p)%nat /\ (star = true -> (length p1 < length p)%nat).
Proof.
  revert star p1. induction p as [|c p IH]; intros star p1; simpl.
  { intros [= <- <-]. repeat split; try done. by intros [? ?]. }
  case_decide as Hc.
  - intros [= <- <-]. destruct (skipStars p) as [st q] eqn:E. destruct (IH _ _ eq_refl) as (_ & Hn & Hl & _).
    simpl. subst. split_and!; [split; eauto|done|lia|lia].
  - intros [= <- <-]. split_and!; [split; [done|]|..]; try done; [intros [p' Hp']|intros p' Hp']; congruence.
Qed.

Lemma scanBody_spec n p b ch rest :
  (length p <= n)%nat -> scanBody b p = (ch, rest) ->
  p = ch ++ rest /\ (rest = [] \/ exists r, rest = "*"%char :: r).
Proof.
  revert p b ch rest. induction n as [|n IH]; intros [|c p] b ch rest Hn; simpl; simpl in Hn; try lia;
    try (intros [= <- <-]; auto).
  case_decide.
  - destruct p as [|d p]; [intros [= <- <-]; auto|]. destruct (scanBody b p) as [ch' rest'] eqn:E.
    intros [= <- <-]. simpl in Hn. destruct (IH p _ _ _ ltac:(lia) E) as [-> Hr]. auto.
  - case_decide as Hs; [destruct Hs as [-> _]; intros [= <- <-]; split; [done|]; right; eauto|].
    destruct (scanBody _ p) as [ch' rest'] eqn:E. intros [= <- <-].
    destruct (IH p _ _ _ ltac:(lia) E) as [-> Hr]. auto.
Qed.

Lemma parse_S fuel c p :
  parse (S fuel) (c :: p) =
  let '(star, p1) := skipStars (c :: p) in
  let '(ch, rest) := scanBody false p1 in
  match readChunk RTop ch, parse fuel rest with
  | Some ts, Some cs => Some ((star, ts) :: cs)
  | _, _ => None
  end.
Proof. reflexivity. Qed.

Lemma parse_ok fuel p cs :
  parse fuel p = Some cs ->
  chunks_ok cs /\ match cs with [] => p = [] | (star, _) :: _ => star = true <-> exists p', p = "*"%char :: p' end.
Proof.
  revert p cs. induction fuel as [|fuel IH]; intros [|c p] cs; try done; try (by intros [= <-]).
  rewrite parse_S.
  destruct (skipStars (c :: p)) as [star p1] eqn:Es. pose proof (skipStars_spec _ _ _ Es) as (Hstar & Hp1 & _ & _).
  destruct (scanBody false p1) as [ch rest] eqn:Eb. apply (scanBody_spec _ _ _ _ _ (le_n _)) in Eb as [-> Hrest].
  destruct (readChunk RTop ch) as [ts|] eqn:Er; [|done].
  destruct (parse fuel rest) as [cs'|] eqn:Ep; [|done]. intros [= <-]. destruct (IH _ _ Ep) as [Hok Hfirst].
  assert (parse fuel [] = Some []) as Hnil by (by destruct fuel).
  split; [|done]. split_and!; [| |done].
  - intros ->. destruct ch as [|d ch]; [|exfalso; eapply (readChunk_nonempty _ _ _ Er); [by right|done]].
    destruct Hrest as [->|[r ->]]; [|by exfalso; eapply Hp1].
    split; [|congruence]. apply Hstar. destruct star; [by apply Hstar|]. simpl in Es. by case_decide.
  - destruct cs' as [|[star' k] cs']; [done|]. apply Hfirst. destruct Hrest as [->|[r ->]]; [|eauto].
    congruence.
Qed.

(** Enough fuel: every chunk takes a character. *)
Lemma parse_fuel n m p : (length p <= n)%nat -> (length p <= m)%nat -> parse n p = parse m p.
Proof.
  revert m p. induction n as [|n IH]; intros [|m] [|c p] Hn Hm; simpl in Hn, Hm; try lia; try done.
  rewrite !parse_S.
  destruct (skipStars (c :: p)) as [star p1] eqn:Es. pose proof (skipStars_spec _ _ _ Es) as (Hst & Hp1 & Hle & Hlt).
  destruct (scanBody false p1) as [ch rest] eqn:Eb. destruct (scanBody_spec _ _ _ _ _ (le_n _) Eb) as [-> Hrest].
  assert (length rest <= length p)%nat; [|by rewrite (IH m rest) by lia].
  simpl in Hle, Hlt. rewrite length_app in Hle, Hlt. destruct star; [specialize (Hlt eq_refl); lia|].
  destruct ch as [|d ch]; [|simpl in Hle; lia].
  destruct Hrest as [->|[r ->]]; [simpl; lia|by destruct (Hp1 r)].
Qed.

(** [path.Match] decides the meaning of a well-formed pattern. *)
Lemma Match_denotes pattern name cs :
  parsePattern pattern = Some cs -> plain_for cs (chars name) ->
  Match pattern name = Ok true <-> denotes cs (chars name).
Proof.
  intros Hp Hr. unfold Match. rewrite Hp. rewrite <- matchLoop_denotes; [|by apply (parse_ok _ _ _ Hp)|done].
  split; [by intros [= H]|by intros ->].
Qed.

(** The library gives up a place it has chosen for a chunk only within that chunk:
    with a class that admits '/' it misses matches that the documentation promises. *)
Example Match_leftmost_misses :
  Match "*[^b]*c" "x/c" = Ok false /\
  exists cs, parsePattern "*[^b]*c" = Some cs /\ denotes cs (chars "x/c").
Proof.
  split; [reflexivity|]. eexists. split; [reflexivity|]. simpl.
  exists ["x"%char], ["/"%char], ["c"%char]. repeat split; [by rewrite list_elem_of_singleton|by constructor|].
  exists [], ["c"%char], []. repeat split; [by apply not_elem_of_nil|by constructor].
Qed.
