(* ===== verification/Bundle.v ===== *)
(** * Capability bundles (src/internal/core/bundle: types.go, registry.go,
      resolver.go; ExtractBundleNames of profile.go; ResolveBundlesForProfile of
      execution.go)

    A bundle is a preset of capabilities, scope, environment, services and binary
    requirements.  The embedded and user files are arguments, already parsed; so
    are the answers of [exec.LookPath] and [os.Getenv].  A nil slice or map is an
    empty one. *)

From Stdlib Require Import ZArith Lia String Ascii.
From stdpp Require Import base option list gmap strings fin_maps.
From S2P Require Import Prelude Text Glob.

Record BundleScope : Type := mkBundleScope {
  bs_Operations : list string;
  bs_FilePatterns : list string;
  bs_Networks : list string
}.

Record ServiceEntry : Type := mkService { sv_Name : string; sv_Adapter : string; sv_Start : string }.

Record BinaryRequirement : Type := mkRequirement {
  br_Binary : string;
  br_Missing : string;
  br_Blocked : bool;
  br_Command : string;
  br_DenyFlags : list string;
  br_DenyPolicy : string;
  br_Message : string
}.

Record RuntimeOverride : Type := mkOverride { ro_Env : gmap string string }.

Record Bundle : Type := mkBundle {
  bu_Name : string;
  bu_Description : string;
  bu_Version : string;
  bu_Extends : string;
  bu_Tags : list string;
  bu_Capabilities : list string;
  bu_Scope : BundleScope;
  bu_Env : gmap string string;
  bu_Services : list ServiceEntry;
  bu_Requires : list BinaryRequirement;
  bu_RuntimeOverrides : gmap string RuntimeOverride
}.

(** ** The registry *)

Inductive BundleErr : Type :=
  | ErrLoadBuiltins | ErrLoadOverrides | ErrBundleNotFound (name : string)
  | ErrParent (name extends : string)
  | ErrNameRequired | ErrMissingPolicy (i : nat) | ErrDenyPolicy (i : nat)
  | ErrExtendsMissing (extends : string) | ErrNesting (extends grandparent : string)
  | ErrUnresolved (name : string).

Abbreviation BundleRegistry := (list Bundle).

Definition mergeBundles (builtins overrides : list Bundle) : gmap string Bundle :=
  foldl (fun m b => <[bu_Name b := b]> m) (foldl (fun m b => <[bu_Name b := b]> m) ∅ builtins) overrides.

(** [order]: the order in which the merged map is ranged over. *)
Definition NewRegistry (builtins overrides : option (list Bundle)) (order : gmap string Bundle -> list Bundle)
  : Res BundleErr BundleRegistry :=
  match builtins with
  | None => Err ErrLoadBuiltins
  | Some bs =>
      match overrides with
      | None => Err ErrLoadOverrides
      | Some os => Ok (order (mergeBundles bs os))
      end
  end.

Definition Registry_Get (r : BundleRegistry) (name : string) : Res BundleErr Bundle :=
  match list_find (fun b => bu_Name b = name) r with
  | Some (_, b) => Ok b
  | None => Err (ErrBundleNotFound name)
  end.

Fixpoint validateRequires (i : nat) (reqs : list BinaryRequirement) : option BundleErr :=
  match reqs with
  | [] => None
  | req :: reqs =>
      if decide (br_Missing req ∈ [""; "skip"; "warn"; "error"]) then
        if decide (br_DenyPolicy req ∈ [""; "strip"; "error"]) then validateRequires (S i) reqs
        else Some (ErrDenyPolicy i)
      else Some (ErrMissingPolicy i)
  end.

(** [None]: valid. *)
Definition Registry_Validate (r : BundleRegistry) (b : Bundle) : option BundleErr :=
  if decide (bu_Name b = "") then Some ErrNameRequired else
  match validateRequires 0 (bu_Requires b) with
  | Some e => Some e
  | None =>
      if decide (bu_Extends b = "") then None else
      match Registry_Get r (bu_Extends b) with
      | Err _ => Some (ErrExtendsMissing (bu_Extends b))
      | Ok parent => if decide (bu_Extends parent = "") then None
                     else Some (ErrNesting (bu_Extends b) (bu_Extends parent))
      end
  end.

(** ** Inheritance *)

Definition mergeMaps (a b : gmap string string) : gmap string string := b ∪ a.

(** [if len(child) > 0 { child } else { parent }]. *)
Definition orInherit {A} (parent child : list A) : list A :=
  match child with [] => parent | _ => child end.

Definition mergeInheritedScope (parent child : BundleScope) : BundleScope :=
  mkBundleScope (orInherit (bs_Operations parent) (bs_Operations child))
    (orInherit (bs_FilePatterns parent) (bs_FilePatterns child))
    (orInherit (bs_Networks parent) (bs_Networks child)).

(** The runtime keys are distinct, so the two loops are a pointwise merge. *)
Definition mergeRuntimeOverrides (parent child : gmap string RuntimeOverride) : gmap string RuntimeOverride :=
  merge (fun p c => match p, c with
                    | Some p, Some c => Some (mkOverride (mergeMaps (ro_Env p) (ro_Env c)))
                    | Some p, None => Some p
                    | None, c => c
                    end) parent child.

Definition resolveInheritance (b : Bundle) (reg : BundleRegistry) : Res BundleErr Bundle :=
  if decide (bu_Extends b = "") then Ok b else
  match Registry_Get reg (bu_Extends b) with
  | Err _ => Err (ErrParent (bu_Name b) (bu_Extends b))
  | Ok parent =>
      Ok (mkBundle (bu_Name b) (bu_Description b) (bu_Version b) (bu_Extends b) (bu_Tags parent)
            (orInherit (bu_Capabilities parent) (bu_Capabilities b))
            (mergeInheritedScope (bu_Scope parent) (bu_Scope b))
            (mergeMaps (bu_Env parent) (bu_Env b))
            (orInherit (bu_Services parent) (bu_Services b))
            (orInherit (bu_Requires parent) (bu_Requires b))
            (mergeRuntimeOverrides (bu_RuntimeOverrides parent) (bu_RuntimeOverrides b)))
  end.

(** ** Scope union *)

Fixpoint dedup (seen l : list string) : list string :=
  match l with
  | [] => []
  | s :: l' => if decide (s ∈ seen) then dedup seen l' else s :: dedup (s :: seen) l'
  end.

Definition unionStrings (a b : list string) : list string := dedup [] (a ++ b).

Definition unionFilePatterns (a b : list string) : list string :=
  let combined := unionStrings a b in
  if decide ("**" ∈ combined) then ["**"] else combined.

Definition unionScope (a b : BundleScope) : BundleScope :=
  mkBundleScope (unionStrings (bs_Operations a) (bs_Operations b))
    (unionFilePatterns (bs_FilePatterns a) (bs_FilePatterns b))
    (unionStrings (bs_Networks a) (bs_Networks b)).

(** ** Template variables *)

Record ProfileContext : Type := mkProfileContext {
  pc_ID : string;
  pc_DisplayName : string;
  pc_Email : string;
  pc_ConfigDir : string;
  pc_DataDir : string;
  pc_Runtime : string;
  pc_Scope : BundleScope
}.

Definition templateVars (ctx : ProfileContext) : list (list ascii * list ascii) :=
  [(chars "${PROFILE_ID}", chars (pc_ID ctx));
   (chars "${PROFILE_DISPLAY_NAME}", chars (pc_DisplayName ctx));
   (chars "${PROFILE_EMAIL}", chars (pc_Email ctx));
   (chars "${PROFILE_CONFIG_DIR}", chars (pc_ConfigDir ctx));
   (chars "${PROFILE_DATA_DIR}", chars (pc_DataDir ctx))].

(** [strings.NewReplacer(...).Replace]: from left to right, at each place the first
    key that fits; [skip] characters of the last key are still to be dropped. *)
Fixpoint replaceLoop (vars : list (list ascii * list ascii)) (skip : nat) (l : list ascii) : list ascii :=
  match l with
  | [] => []
  | c :: l' =>
      match skip with
      | S k => replaceLoop vars k l'
      | O => match find (fun kv => prefixb (fst kv) l) vars with
             | Some (k, v) => v ++ replaceLoop vars (length k - 1) l'
             | None => c :: replaceLoop vars 0 l'
             end
      end
  end.

Definition expandTemplateVars (s : string) (ctx : ProfileContext) : string :=
  unchars (replaceLoop (templateVars ctx) 0 (chars s)).

(** ** Binaries, runtime and environment *)

(** The texts that resolution reports: a configured message or a default one. *)
Inductive Report : Type :=
  | RMessage (msg : string) | RBlocked (binary : string) | RNotFound (binary : string)
  | RRequired (binary : string) | RDenied (binary : string) (flags : list string).

Definition message_or (msg : string) (r : Report) : Report := if decide (msg = "") then r else RMessage msg.

Record BinaryResult : Type := mkBinaryResult {
  bn_Binary : string;
  bn_Found : bool;
  bn_Skipped : bool;
  bn_Blocked : bool;
  bn_Command : string;
  bn_DenyFlags : list string;
  bn_Message : string
}.

(** The result, and the errors and warnings appended to the bundle. *)
Definition evaluateBinary (found : string -> bool) (req : BinaryRequirement) (ctx : ProfileContext)
  : BinaryResult * list Report * list Report :=
  let f := found (br_Binary req) in
  let result skipped blocked :=
    mkBinaryResult (br_Binary req) f skipped blocked (expandTemplateVars (br_Command req) ctx)
      (br_DenyFlags req) (br_Message req) in
  if br_Blocked req then
    (result false true, [message_or (br_Message req) (RBlocked (br_Binary req))], [])
  else if negb f then
    if decide (br_Missing req = "skip") then (result true false, [], [])
    else if decide (br_Missing req = "warn") then
      (result false false, [], [message_or (br_Message req) (RNotFound (br_Binary req))])
    else if decide (br_Missing req = "error" \/ br_Missing req = "") then
      (result false false, [message_or (br_Message req) (RRequired (br_Binary req))], [])
    else (result false false, [], [])
  else if decide (br_DenyFlags req <> [] /\ br_DenyPolicy req = "error") then
    (result false false, [RDenied (br_Binary req) (br_DenyFlags req)], [])
  else (result false false, [], []).

Definition detectRuntime (getenv : string -> string) (ctx : ProfileContext) : string :=
  if decide (pc_Runtime ctx <> "") then pc_Runtime ctx
  else if decide (getenv "CLAUDE_API_KEY" <> "") then "claude"
  else if decide (getenv "GEMINI_API_KEY" <> "") then "gemini"
  else if decide (getenv "OPENAI_API_KEY" <> "") then "codex"
  else "".

Definition buildEnv (b : Bundle) (runtime : string) (ctx : ProfileContext) : gmap string string :=
  let expand := fmap (fun v => expandTemplateVars v ctx) in
  let out := expand (bu_Env b) in
  if decide (runtime <> "") then
    match bu_RuntimeOverrides b !! runtime with
    | Some override => expand (ro_Env override) ∪ out
    | None => out
    end
  else out.

Record ResolvedBundle : Type := mkResolved {
  rb_Bundle : Bundle;
  rb_Scope : BundleScope;
  rb_Env : gmap string string;
  rb_AlwaysServices : list ServiceEntry;
  rb_OnDemandServices : list ServiceEntry;
  rb_BinaryResults : list BinaryResult;
  rb_Errors : list Report;
  rb_Warnings : list Report
}.

Definition Resolve (found : string -> bool) (getenv : string -> string) (b : Bundle) (reg : BundleRegistry)
    (ctx : ProfileContext) : Res BundleErr ResolvedBundle :=
  match resolveInheritance b reg with
  | Err e => Err e
  | Ok effective =>
      let evaluated := map (fun req => evaluateBinary found req ctx) (bu_Requires effective) in
      Ok (mkResolved effective (unionScope (bu_Scope effective) (pc_Scope ctx))
            (buildEnv effective (detectRuntime getenv ctx) ctx)
            (filter (fun svc => sv_Start svc = "always") (bu_Services effective))
            (filter (fun svc => sv_Start svc = "on-demand") (bu_Services effective))
            (map (fun e => e.1.1) evaluated)
            (flat_map (fun e => e.1.2) evaluated)
            (flat_map (fun e => e.2) evaluated))
  end.

(** ** The bundles of a profile *)

Fixpoint ExtractBundleNames (capabilities : list string) : list string * list string :=
  match capabilities with
  | [] => ([], [])
  | cap :: caps =>
      let '(bundles, individual) := ExtractBundleNames caps in
      if HasPrefix cap "bundle:" then
        let name := TrimPrefix cap "bundle:" in
        (if decide (name = "") then bundles else name :: bundles, individual)
      else (bundles, cap :: individual)
  end.

Fixpoint resolveNames (found : string -> bool) (getenv : string -> string) (reg : BundleRegistry)
    (ctx : ProfileContext) (names : list string) : Res BundleErr (list ResolvedBundle) :=
  match names with
  | [] => Ok []
  | name :: names =>
      match Registry_Get reg name with
      | Err e => Err e
      | Ok b =>
          match Resolve found getenv b reg ctx with
          | Err e => Err e
          | Ok rb =>
              if decide (rb_Errors rb <> []) then Err (ErrUnresolved name)
              else match resolveNames found getenv reg ctx names with
                   | Err e => Err e
                   | Ok rbs => Ok (rb :: rbs)
                   end
          end
      end
  end.

(** [reg] is what [NewRegistry] returned; [ctx] the context built from the profile. *)
Definition ResolveBundlesForProfile (found : string -> bool) (getenv : string -> string)
    (reg : Res BundleErr BundleRegistry) (ctx : ProfileContext) (capabilities : list string)
  : Res BundleErr (list ResolvedBundle) :=
  let bundleNames := (ExtractBundleNames capabilities).1 in
  if decide (bundleNames = []) then Ok [] else
  match reg with
  | Err e => Err e
  | Ok reg => resolveNames found getenv reg ctx bundleNames
  end.

(** ** Lemmas *)

Lemma dedup_elem seen l x : x ∈ dedup seen l <-> x ∈ l /\ x ∉ seen.
Proof.
  revert seen. induction l as [|s l IH]; intros seen; simpl; [rewrite elem_of_nil; tauto|].
  case_decide as Hs; rewrite ?elem_of_cons, IH, ?elem_of_cons.
  - split; [tauto|]. intros [[->|?] ?]; tauto.
  - split; [intros [->|[? Hn]]; [tauto|]|].
    + split; [by right|]. intros Hin. apply Hn. by right.
    + intros [[->|?] ?]; [tauto|]. destruct (decide (x = s)) as [->|]; [tauto|]. tauto.
Qed.

Lemma dedup_NoDup seen l : NoDup (dedup seen l).
Proof.
  revert seen. induction l as [|s l IH]; intros seen; simpl; [constructor|]. case_decide; [done|].
  constructor; [|done]. rewrite dedup_elem, elem_of_cons. tauto.
Qed.

Lemma unionStrings_elem a b x : x ∈ unionStrings a b <-> x ∈ a \/ x ∈ b.
Proof. unfold unionStrings. rewrite dedup_elem, elem_of_app, elem_of_nil. tauto. Qed.

Lemma dedup_nil l : dedup [] l = [] <-> l = [].
Proof. by destruct l. Qed.

Lemma unionStrings_nil a b : unionStrings a b = [] <-> a = [] /\ b = [].
Proof. unfold unionStrings. rewrite dedup_nil. split; [apply app_eq_nil|by intros [-> ->]]. Qed.

(** The variable a bundle sets for a runtime. *)
Definition override_env (b : Bundle) (rt k : string) : option string :=
  if decide (rt = "") then None else bu_RuntimeOverrides b !! rt ≫= (fun o => ro_Env o !! k).

Lemma buildEnv_lookup b rt ctx k :
  buildEnv b rt ctx !! k =
  (fun v => expandTemplateVars v ctx) <$> (override_env b rt k ∪ bu_Env b !! k).
Proof.
  unfold buildEnv, override_env. destruct (decide (rt = "")) as [Hr|Hr].
  - rewrite decide_False by (intros Hn; exact (Hn Hr)). rewrite lookup_fmap. by destruct (bu_Env b !! k).
  - rewrite decide_True by done. destruct (bu_RuntimeOverrides b !! rt) as [o|]; simpl.
    + rewrite lookup_union, !lookup_fmap. by destruct (ro_Env o !! k), (bu_Env b !! k).
    + rewrite lookup_fmap. by destruct (bu_Env b !! k).
Qed.

Lemma override_env_merge p b rt k nm d v e t c s en sv rq :
  override_env (mkBundle nm d v e t c s en sv rq
                  (mergeRuntimeOverrides (bu_RuntimeOverrides p) (bu_RuntimeOverrides b))) rt k =
  override_env b rt k ∪ override_env p rt k.
Proof.
  unfold override_env. simpl. case_decide; [done|]. unfold mergeRuntimeOverrides. rewrite lookup_merge.
  destruct (bu_RuntimeOverrides p !! rt) as [o|], (bu_RuntimeOverrides b !! rt) as [o'|]; simpl; try done.
  - unfold mergeMaps. by rewrite lookup_union.
  - by destruct (ro_Env o !! k).
  - by destruct (ro_Env o' !! k).
Qed.

(** The environment of a resolved bundle.  The value of a variable is that of
    the first of these which sets it: the bundle for the detected runtime, its
    parent for that runtime, the bundle, its parent; with the template variables
    of the value expanded.  A bundle that extends nothing has no parent's layers. *)
Theorem resolved_env_precedence (found : string -> bool) (getenv : string -> string) (b : Bundle)
    (reg : BundleRegistry) (ctx : ProfileContext) (rb : ResolvedBundle)
    (Hr : Resolve found getenv b reg ctx = Ok rb) :
  let rt := detectRuntime getenv ctx in
  let expand := fmap (M := option) (fun v => expandTemplateVars v ctx) in
  (bu_Extends b = "" -> forall k, rb_Env rb !! k = expand (override_env b rt k ∪ bu_Env b !! k)) /\
  (bu_Extends b <> "" -> exists parent, Registry_Get reg (bu_Extends b) = Ok parent /\
     forall k, rb_Env rb !! k =
       expand (override_env b rt k ∪ override_env parent rt k ∪ (bu_Env b !! k ∪ bu_Env parent !! k))).
Proof.
  intros rt expand. unfold Resolve, resolveInheritance in Hr. split; intros He.
  - rewrite decide_True in Hr by done. injection Hr as <-. intros k. apply buildEnv_lookup.
  - rewrite decide_False in Hr by done. destruct (Registry_Get reg (bu_Extends b)) as [parent|]; [|done].
    injection Hr as <-. exists parent. split; [done|]. intros k.
    cbn [rb_Env]. rewrite buildEnv_lookup, override_env_merge. simpl.
    unfold mergeMaps. by rewrite lookup_union.
Qed.

(** The last bundle of that name. *)
Definition last_named (l : list Bundle) (name : string) : option Bundle :=
  foldl (fun acc b => if decide (bu_Name b = name) then Some b else acc) None l.

Lemma merge_loop (l : list Bundle) (m : gmap string Bundle) name :
  foldl (fun m b => <[bu_Name b := b]> m) m l !! name = last_named l name ∪ m !! name.
Proof.
  unfold last_named. revert m. induction l as [|b l IH] using rev_ind; intros m; [simpl; by destruct (m !! name)|].
  rewrite !foldl_app. simpl. case_decide as Hb.
  - subst. rewrite lookup_insert_eq. by destruct (m !! bu_Name b).
  - rewrite lookup_insert_ne by done. apply IH.
Qed.

Lemma mergeBundles_keyed bs os name b : mergeBundles bs os !! name = Some b -> bu_Name b = name.
Proof.
  assert (forall l b, last_named l name = Some b -> bu_Name b = name) as Hl.
  { intros l b'. unfold last_named. induction l as [|c l IH] using rev_ind; [done|].
    rewrite foldl_app. simpl. case_decide; [by intros [= <-]|done]. }
  unfold mergeBundles. rewrite !merge_loop, lookup_empty.
  intros [H|[_ [H|[_ H]]%union_Some]]%union_Some; [eauto..|done].
Qed.

(** User bundles override built-in ones.  Whatever the order in which the
    merged map is ranged over, the registry answers a name with the last user
    bundle of that name, else with the last built-in one, and knows no other. *)
Theorem registry_override_wins (bs os : list Bundle) (order : gmap string Bundle -> list Bundle)
    (Ho : forall m, order m ≡ₚ (map_to_list m).*2) (name : string) (b : Bundle) :
  exists reg, NewRegistry (Some bs) (Some os) order = Ok reg /\
    (Registry_Get reg name = Ok b <-> last_named os name ∪ last_named bs name = Some b).
Proof.
  eexists. split; [reflexivity|]. set (m := mergeBundles bs os).
  assert (forall x, x ∈ order m <-> m !! bu_Name x = Some x) as Hin.
  { intros x. rewrite (Ho m), list_elem_of_fmap. split.
    - intros ([k y] & -> & Hy%elem_of_map_to_list). simpl. by rewrite (mergeBundles_keyed _ _ _ _ Hy).
    - intros Hx. exists (bu_Name x, x). by rewrite elem_of_map_to_list. }
  assert (last_named os name ∪ last_named bs name = m !! name) as ->.
  { unfold m, mergeBundles. rewrite !merge_loop, lookup_empty. by destruct (last_named os name), (last_named bs name). }
  unfold Registry_Get. split.
  - destruct (list_find _ _) as [[i x]|] eqn:E; [|done]. intros [= ->].
    apply list_find_Some in E as (Hx & <- & _). apply Hin. by eapply list_elem_of_lookup_2.
  - intros Hb. pose proof (mergeBundles_keyed _ _ _ _ Hb) as <-.
    destruct (list_find _ _) as [[i x]|] eqn:E.
    + apply list_find_Some in E as (Hx%list_elem_of_lookup_2 & Hn & _). apply Hin in Hx.
      rewrite Hn in Hx. congruence.
    + apply list_find_None in E. rewrite Forall_forall in E. destruct (E b); [by apply Hin|done].
Qed.

(** When a requirement stops the profile. *)
Definition requirement_met (found : string -> bool) (req : BinaryRequirement) : Prop :=
  br_Blocked req = false /\
  (found (br_Binary req) = false -> br_Missing req <> "error" /\ br_Missing req <> "") /\
  (found (br_Binary req) = true -> br_DenyFlags req = [] \/ br_DenyPolicy req <> "error").

Lemma evaluateBinary_met found req ctx : (evaluateBinary found req ctx).1.2 = [] <-> requirement_met found req.
Proof.
  unfold evaluateBinary, requirement_met. destruct (br_Blocked req); simpl; [by split; [|intros [? _]]|].
  destruct (found (br_Binary req)); simpl; repeat case_decide; simpl.
  - split; [done|]. intros (_ & _ & Hd). destruct (Hd eq_refl); tauto.
  - split; [|done]. intros _. split_and!; [done|done|]. intros _.
    destruct (decide (br_DenyFlags req = [])); [by left|right; tauto].
  - split; [|done]. by intros _; split_and!; [..|intros _; split; congruence|].
  - split; [|done]. by intros _; split_and!; [..|intros _; split; congruence|].
  - split; [done|]. intros (_ & Hd & _). destruct (Hd eq_refl); tauto.
  - split; [|done]. intros _. split_and!; [done|tauto|done].
Qed.

(** A profile whose bundles resolve.  [ResolveBundlesForProfile] succeeds exactly
    when every declared bundle is known, so is its parent if it names one, and every
    requirement of the bundle with its parent's defaults is met: no binary is
    blocked, none that is missing is required (the default), and none that is
    present has flags denied with policy error.  It then resolves the declared
    bundles one by one in their order. *)
Theorem profile_bundles_resolve (found : string -> bool) (getenv : string -> string) (reg : BundleRegistry)
    (ctx : ProfileContext) (capabilities : list string) (rbs : list ResolvedBundle) :
  ResolveBundlesForProfile found getenv (Ok reg) ctx capabilities = Ok rbs <->
  Forall2 (fun name rb => exists b, Registry_Get reg name = Ok b /\ Resolve found getenv b reg ctx = Ok rb /\
                          Forall (requirement_met found) (bu_Requires (rb_Bundle rb)))
    (ExtractBundleNames capabilities).1 rbs.
Proof.
  assert (forall b rb, Resolve found getenv b reg ctx = Ok rb ->
            rb_Errors rb = [] <-> Forall (requirement_met found) (bu_Requires (rb_Bundle rb))) as Herr.
  { intros b rb. unfold Resolve. destruct (resolveInheritance b reg) as [eff|]; [|done]. intros [= <-]. simpl.
    rewrite Forall_forall. setoid_rewrite <- (evaluateBinary_met found _ ctx).
    induction (bu_Requires eff) as [|req reqs IH]; simpl.
    - split; [|done]. intros _ x Hx. by apply elem_of_nil in Hx.
    - setoid_rewrite elem_of_cons. split.
      + intros [H1 H2]%app_eq_nil x [->|Hx]; [done|]. by apply IH.
      + intros H. rewrite (H req) by auto. apply IH. auto. }
  unfold ResolveBundlesForProfile. set (names := (ExtractBundleNames capabilities).1).
  transitivity (resolveNames found getenv reg ctx names = Ok rbs); [by case_decide as Hn; [rewrite Hn|]|].
  revert rbs. induction names as [|name names IH]; intros rbs; simpl.
  { split; [intros [= <-]; constructor|]. by intros ->%Forall2_nil_inv_l. }
  split.
  - destruct (Registry_Get reg name) as [b|] eqn:Eg; [|done].
    destruct (Resolve found getenv b reg ctx) as [rb|] eqn:Er; [|done]. case_decide as He; [done|].
    destruct (resolveNames _ _ _ _ names) as [rbs'|]; [|done]. intros [= <-]. constructor.
    + exists b. split_and!; [done..|]. apply (Herr _ _ Er). by destruct (decide (rb_Errors rb = [])).
    + by apply IH.
  - intros Hf. destruct rbs as [|rb rbs]; [by apply Forall2_cons_nil_inv in Hf|].
    apply Forall2_cons_1 in Hf as [(b & -> & Hr & Hm) Hf]. rewrite Hr.
    apply (Herr _ _ Hr) in Hm. rewrite decide_False by tauto. apply IH in Hf. by rewrite Hf.
Qed.

(** ** Witnesses *)

Definition witness_parent : Bundle :=
  mkBundle "base" "" "1" "" [] [] (mkBundleScope [] [] []) {[ "A" := "p"; "B" := "p" ]} [] []
    {[ "claude" := mkOverride {[ "C" := "p"; "D" := "${PROFILE_ID}!" ]} ]}.
Definition witness_child : Bundle :=
  mkBundle "dev" "" "1" "base" [] [] (mkBundleScope [] [] []) {[ "A" := "c"; "D" := "c" ]} []
    [mkRequirement "git" "" false "git -c user.email=${PROFILE_EMAIL}" [] "" ""]
    {[ "claude" := mkOverride {[ "C" := "c" ]} ]}.
Definition witness_profile : ProfileContext :=
  mkProfileContext "ada" "Ada" "ada@x.org" "/c" "/d" "claude" (mkBundleScope [] [] []).

Lemma resolved_env_precedence_witness :
  exists rb, Resolve (fun _ => true) (fun _ => "") witness_child [witness_parent] witness_profile = Ok rb /\
    rb_Env rb !! "D" = Some "ada!" /\ rb_Env rb !! "C" = Some "c" /\ rb_Env rb !! "A" = Some "c".
Proof.
  eexists. split; [reflexivity|].
  edestruct (resolved_env_precedence (fun _ => true) (fun _ => "") witness_child [witness_parent] witness_profile)
    as [_ H]; [reflexivity|]. destruct (H ltac:(done)) as (parent & Hp & Hk). injection Hp as <-.
  rewrite !Hk. vm_compute. done.
Defined.

Lemma registry_override_wins_witness :
  exists reg, NewRegistry (Some [witness_parent]) (Some [witness_child]) (fun m => (map_to_list m).*2) = Ok reg /\
    Registry_Get reg "dev" = Ok witness_child.
Proof.
  destruct (registry_override_wins [witness_parent] [witness_child] (fun m => (map_to_list m).*2)
              (fun m => Permutation_refl _) "dev" witness_child) as (reg & Hreg & H).
  exists reg. split; [exact Hreg|]. apply H. reflexivity.
Defined.
