(* ===== verification/AccessScope.v ===== *)
(** * Access scopes (src/internal/core/scope: scope.go, intersection.go;
      src/internal/core/squad/scope.go)

    Rules over files, operations, tools, secrets and networks, their intersection
    across profile, squads and workspace, and the union with the scopes of
    bundles.  An empty list of a rule means that the dimension is unrestricted. *)

From Stdlib Require Import ZArith Lia String Ascii.
From stdpp Require Import base option list gmap strings.
From S2P Require Import Prelude Text Glob Bundle.

Record Rule : Type := mkRule {
  ru_FilePatterns : list string;
  ru_Operations : list string;
  ru_Tools : list string;
  ru_Secrets : list string;
  ru_Networks : list string
}.

Definition emptyRule : Rule := mkRule [] [] [] [] [].

Record Scope : Type := mkScope { sc_OwnerType : string; sc_OwnerID : string; sc_Rules : Rule }.

Inductive ScopeErr : Type := ErrOwnerType | ErrOwnerID | ErrInvalidOwner (t : string).

(** [None]: valid. *)
Definition Scope_Validate (s : Scope) : option ScopeErr :=
  if decide (sc_OwnerType s = "") then Some ErrOwnerType
  else if decide (sc_OwnerID s = "") then Some ErrOwnerID
  else if decide (sc_OwnerType s ∈ ["profile"; "squad"; "workspace"]) then None
  else Some (ErrInvalidOwner (sc_OwnerType s)).

(** ** What a rule allows *)

(** [err == nil && matched]. *)
Definition matches (pattern path : string) : bool :=
  match Match pattern path with Ok matched => matched | Err _ => false end.

Definition AllowsFile (r : Rule) (path : string) : bool :=
  if decide (ru_FilePatterns r = []) then true
  else existsb (fun pattern => matches pattern path) (ru_FilePatterns r).

Definition allowsItem (allowed : list string) (item : string) : bool :=
  if decide (allowed = []) then true
  else existsb (fun a => bool_decide (ToLower a = ToLower item)) allowed.

Definition AllowsTool (r : Rule) (tool : string) : bool := allowsItem (ru_Tools r) tool.
Definition AllowsOperation (r : Rule) (op : string) : bool := allowsItem (ru_Operations r) op.
Definition AllowsSecret (r : Rule) (secret : string) : bool := allowsItem (ru_Secrets r) secret.
Definition AllowsNetwork (r : Rule) (network : string) : bool := allowsItem (ru_Networks r) network.

(** ** Intersection *)

Definition intersectSlices (a b : list string) : list string :=
  if decide (a = []) then b
  else if decide (b = []) then a
  else filter (fun v => ToLower v ∈ map ToLower b) a.

Definition Intersect (a b : Rule) : Rule :=
  mkRule (intersectSlices (ru_FilePatterns a) (ru_FilePatterns b))
    (intersectSlices (ru_Operations a) (ru_Operations b))
    (intersectSlices (ru_Tools a) (ru_Tools b))
    (intersectSlices (ru_Secrets a) (ru_Secrets b))
    (intersectSlices (ru_Networks a) (ru_Networks b)).

Definition IntersectAll (rules : list Rule) : Rule :=
  match rules with
  | [] => emptyRule
  | r :: rules => foldl Intersect r rules
  end.

(** ** Resolution *)

Record ResolvedScope : Type := mkResolvedScope {
  rs_ProfileScope : option Scope;
  rs_SquadScopes : list Scope;
  rs_WorkspaceScope : option Scope;
  rs_Effective : Rule
}.

Definition rules_of (s : option Scope) : list Rule := match s with Some s => [sc_Rules s] | None => [] end.

Definition Resolve (profile : option Scope) (squads : list Scope) (workspace : option Scope) : ResolvedScope :=
  mkResolvedScope profile squads workspace
    (IntersectAll (rules_of profile ++ map sc_Rules squads ++ rules_of workspace)).

(** core.ScopeConfig has the fields of [Rule]. *)
Definition scopeFromConfig (ownerType ownerID : string) (cfg : option Rule) : option Scope :=
  match cfg with None => None | Some r => Some (mkScope ownerType ownerID r) end.

Definition set_effective (rs : ResolvedScope) (r : Rule) : ResolvedScope :=
  mkResolvedScope (rs_ProfileScope rs) (rs_SquadScopes rs) (rs_WorkspaceScope rs) r.

(** [bundleUnionStrings] mirrors [unionStrings] of the bundle package. *)
Definition bundleUnionStrings (a b : list string) : list string := dedup [] (a ++ b).

Definition unionBundle (r : Rule) (rb : ResolvedBundle) : Rule :=
  mkRule (bundleUnionStrings (ru_FilePatterns r) (bs_FilePatterns (rb_Scope rb)))
    (bundleUnionStrings (ru_Operations r) (bs_Operations (rb_Scope rb)))
    (ru_Tools r) (ru_Secrets r)
    (bundleUnionStrings (ru_Networks r) (bs_Networks (rb_Scope rb))).

(** [resolved]: what [ResolveBundlesForProfile] returned. *)
Definition mergeBundleScopes (rs : ResolvedScope) (resolved : Res BundleErr (list ResolvedBundle)) : ResolvedScope :=
  match resolved with
  | Err _ | Ok [] => rs
  | Ok rbs => set_effective rs (foldl unionBundle (rs_Effective rs) rbs)
  end.

Definition BundleScopeToRule (bs : BundleScope) : Rule :=
  mkRule (bs_FilePatterns bs) (bs_Operations bs) [] [] (bs_Networks bs).

(** What [ResolveForProfile] reads of the profile it loads. *)
Record ScopedProfile : Type := mkScopedProfile {
  sp_Scope : option Rule;
  sp_Workspace : option (string * option Rule)
}.

Inductive ProfileErr : Type := ErrLoadProfile.

Definition ResolveForProfile (profileID : string) (loaded : Res ProfileErr ScopedProfile)
    (resolved : Res BundleErr (list ResolvedBundle)) : Res ProfileErr ResolvedScope :=
  match loaded with
  | Err e => Err e
  | Ok p =>
      let profileScope := scopeFromConfig "profile" profileID (sp_Scope p) in
      let workspaceScope := match sp_Workspace p with
                            | Some (name, rules) => scopeFromConfig "workspace" name rules
                            | None => None
                            end in
      Ok (mergeBundleScopes (Resolve profileScope [] workspaceScope) resolved)
  end.

(** ** The scopes of squads *)

Module Squads.

(** squad.ScopeRule has the fields of [Rule]; a squad.Scope binds it to a squad. *)
Record SquadScope : Type := mkSquadScope { ss_SquadID : string; ss_Rules : Rule }.

(** [true]: valid. *)
Definition SquadScope_Validate (s : SquadScope) : bool := bool_decide (ss_SquadID s <> "").

Definition filterIntersect (a b : list string) : list string := filter (fun v => v ∈ b) a.

(** The result so far, [None] while no scope has restricted the field. *)
Definition intersectStep (extract : Rule -> list string) (acc : option (list string)) (s : SquadScope)
  : option (list string) :=
  let vals := extract (ss_Rules s) in
  if decide (vals = []) then acc
  else match acc with
       | None => Some vals
       | Some result => Some (filterIntersect result vals)
       end.

Definition intersectField (scopes : list SquadScope) (extract : Rule -> list string) : list string :=
  default [] (foldl (intersectStep extract) None scopes).

Definition IntersectScopes (scopes : list SquadScope) : Rule :=
  match scopes with
  | [] => emptyRule
  | [s] => ss_Rules s
  | _ => mkRule (intersectField scopes ru_FilePatterns) (intersectField scopes ru_Operations)
           (intersectField scopes ru_Tools) (intersectField scopes ru_Secrets) (intersectField scopes ru_Networks)
  end.

Definition allowsExact (allowed : list string) (item : string) : bool :=
  if decide (allowed = []) then true else bool_decide (item ∈ allowed).

Definition squadAllowsTool (r : Rule) (tool : string) : bool := allowsExact (ru_Tools r) tool.
Definition squadAllowsOperation (r : Rule) (op : string) : bool := allowsExact (ru_Operations r) op.

End Squads.

(** ** Lists of allowed items *)

(** Some item of [allowed] is [x] up to case. *)
Definition listed (allowed : list string) (x : string) : Prop := ToLower x ∈ map ToLower allowed.

Lemma allowsItem_spec allowed x : allowsItem allowed x = true <-> allowed = [] \/ listed allowed x.
Proof.
  unfold allowsItem, listed. case_decide as Ha; [tauto|].
  rewrite existsb_exists, list_elem_of_In, in_map_iff. setoid_rewrite bool_decide_eq_true.
  split; [intros (a & ? & ?); right; eauto|]. intros [?|(a & ? & ?)]; [done|eauto].
Qed.

Lemma listed_nil x : ~ listed [] x.
Proof. apply not_elem_of_nil. Qed.

Lemma listed_lower allowed x y : ToLower x = ToLower y -> listed allowed x <-> listed allowed y.
Proof. unfold listed. by intros ->. Qed.

Lemma listed_in allowed x : x ∈ allowed -> listed allowed x.
Proof. intros. unfold listed. by apply (list_elem_of_fmap_2 ToLower). Qed.

Lemma listed_filter b a x :
  listed (filter (fun v => ToLower v ∈ map ToLower b) a) x <-> listed a x /\ listed b x.
Proof.
  unfold listed. change (map ToLower) with (fmap (M := list) ToLower). rewrite !(list_elem_of_fmap _ _ (ToLower x)).
  setoid_rewrite list_elem_of_filter. split.
  - intros (v & Hv & Hb & Ha). split; [eauto|]. rewrite Hv. apply list_elem_of_fmap in Hb as (w & -> & ?). eauto.
  - intros [(v & Hv & Ha) (w & Hw & Hb)]. exists v. split_and!; [done| |done].
    apply list_elem_of_fmap. exists w. split; [congruence|done].
Qed.

(** Two restrictions without a common item. *)
Definition disjoint_lists (a b : list string) : Prop :=
  a <> [] /\ b <> [] /\ forall x, ~ (listed a x /\ listed b x).

Lemma intersectSlices_spec a b x :
  allowsItem (intersectSlices a b) x = true <->
  (allowsItem a x = true /\ allowsItem b x = true) \/ disjoint_lists a b.
Proof.
  rewrite !allowsItem_spec. unfold intersectSlices, disjoint_lists.
  case_decide as Ha; [subst; split; [auto|by intros [[_ ?]|[? _]]]|].
  case_decide as Hb; [subst; split; [auto|by intros [[? _]|(_ & ? & _)]]|].
  set (l := filter _ a). destruct (decide (l = [])) as [Hl|Hl].
  - split; [|tauto]. intros _. right. split_and!; [done..|]. intros y Hy.
    apply listed_filter in Hy. fold l in Hy. rewrite Hl in Hy. by apply listed_nil in Hy.
  - assert (~ forall y, ~ (listed a y /\ listed b y)) as Hn.
    { intros H. destruct l as [|y l'] eqn:E; [done|]. apply (H y), listed_filter. unfold l in E. rewrite E.
      apply listed_in. left. }
    unfold l in *. rewrite listed_filter. tauto.
Qed.

(** The dimensions of a rule that are lists of names. *)
Inductive dim : Type := Operations | Tools | Secrets | Networks.

Definition dim_of (d : dim) (r : Rule) : list string :=
  match d with
  | Operations => ru_Operations r | Tools => ru_Tools r | Secrets => ru_Secrets r | Networks => ru_Networks r
  end.

Definition allows (d : dim) (r : Rule) (x : string) : bool :=
  match d with
  | Operations => AllowsOperation r x | Tools => AllowsTool r x
  | Secrets => AllowsSecret r x | Networks => AllowsNetwork r x
  end.

Lemma allows_dim d r x : allows d r x = allowsItem (dim_of d r) x.
Proof. by destruct d. Qed.

Lemma Intersect_dim d a b : dim_of d (Intersect a b) = intersectSlices (dim_of d a) (dim_of d b).
Proof. by destruct d. Qed.

Lemma Intersect_allows d a b x :
  allows d (Intersect a b) x = true <->
  (allows d a x = true /\ allows d b x = true) \/ disjoint_lists (dim_of d a) (dim_of d b).
Proof. rewrite !allows_dim, Intersect_dim. apply intersectSlices_spec. Qed.

(** A name that both sides allow keeps the intersection restricted to the conjunction. *)
Lemma Intersect_common d a b y x :
  allows d a y = true -> allows d b y = true ->
  allows d (Intersect a b) x = true <-> allows d a x = true /\ allows d b x = true.
Proof.
  rewrite Intersect_allows, !allows_dim, !allowsItem_spec. intros Ha Hb.
  assert (~ disjoint_lists (dim_of d a) (dim_of d b)); [|tauto].
  intros (Hna & Hnb & Hd). apply (Hd y). tauto.
Qed.

Lemma IntersectAll_common d rules y x :
  (forall r, r ∈ rules -> allows d r y = true) ->
  allows d (IntersectAll rules) x = true <-> (forall r, r ∈ rules -> allows d r x = true).
Proof.
  destruct rules as [|r0 rules]; simpl.
  { intros _. split; [intros _ r Hr; by apply elem_of_nil in Hr|]. by destruct d. }
  revert r0. induction rules as [|r rules IH]; intros r0 Hy; simpl.
  - split; [|intros H; apply H; left]. intros H r Hr. apply list_elem_of_singleton in Hr as ->. done.
  - assert (allows d (Intersect r0 r) y = true) as Hyy.
    { apply Intersect_allows. left. split; apply Hy; [left|right; left]. }
    rewrite IH.
    + setoid_rewrite elem_of_cons. setoid_rewrite elem_of_cons.
      assert (allows d r0 y = true) as H0 by (apply Hy; left).
      assert (allows d r y = true) as H1 by (apply Hy; right; left).
      split.
      * intros H r' Hr'. pose proof (proj1 (Intersect_common d r0 r y x H0 H1) (H _ (or_introl eq_refl))) as [? ?].
        destruct Hr' as [->|[->|?]]; auto.
      * intros H r' [->|Hr']; [|auto]. apply (Intersect_common d r0 r y x H0 H1). auto.
    + intros r' [->|Hr']%elem_of_cons; [done|]. apply Hy. right. by right.
Qed.

(** the effective scope of a profile.  In each of operations, tools, secrets and
    networks: when the profile, its squads and its workspace have some name that
    all of them allow, the effective rule allows exactly what all of them allow.
    But when two scopes restrict a dimension to lists without a common name, the
    effective rule restricts nothing and allows every name. *)
Theorem effective_scope (profile : option Scope) (squads : list Scope) (workspace : option Scope) (d : dim) :
  let rules := rules_of profile ++ map sc_Rules squads ++ rules_of workspace in
  let effective := rs_Effective (Resolve profile squads workspace) in
  (forall y, (forall r, r ∈ rules -> allows d r y = true) ->
     forall x, allows d effective x = true <-> (forall r, r ∈ rules -> allows d r x = true)) /\
  (forall p w, profile = Some p -> squads = [] -> workspace = Some w ->
     disjoint_lists (dim_of d (sc_Rules p)) (dim_of d (sc_Rules w)) -> forall x, allows d effective x = true).
Proof.
  split.
  - intros y Hy x. by apply (IntersectAll_common d _ y).
  - intros p w -> -> -> Hd x. simpl. apply Intersect_allows. by right.
Qed.

(** ** Bundles *)

(** The operations, file patterns and networks a bundle contributes. *)
Inductive bdim : Type := BOperations | BFiles | BNetworks.

Definition rule_dim (d : bdim) (r : Rule) : list string :=
  match d with BOperations => ru_Operations r | BFiles => ru_FilePatterns r | BNetworks => ru_Networks r end.

Definition bundle_dim (d : bdim) (rb : ResolvedBundle) : list string :=
  match d with
  | BOperations => bs_Operations (rb_Scope rb) | BFiles => bs_FilePatterns (rb_Scope rb)
  | BNetworks => bs_Networks (rb_Scope rb)
  end.

Lemma unionBundle_dim d r rb : rule_dim d (unionBundle r rb) = dedup [] (rule_dim d r ++ bundle_dim d rb).
Proof. by destruct d. Qed.

Lemma unionBundles_elem d rbs r x :
  x ∈ rule_dim d (foldl unionBundle r rbs) <-> x ∈ rule_dim d r \/ exists rb, rb ∈ rbs /\ x ∈ bundle_dim d rb.
Proof.
  revert r. induction rbs as [|rb rbs IH]; intros r; simpl.
  - setoid_rewrite elem_of_nil. naive_solver.
  - rewrite IH, unionBundle_dim, dedup_elem, elem_of_app, elem_of_nil. setoid_rewrite elem_of_cons. naive_solver.
Qed.

Lemma no_elem_nil {A} (l : list A) : l = [] <-> forall x, x ∉ l.
Proof.
  split; [intros -> x; apply not_elem_of_nil|]. destruct l as [|x l]; [done|]. intros H. destruct (H x). left.
Qed.

Lemma listed_split (l : list string) x : listed l x <-> exists y, y ∈ l /\ ToLower x = ToLower y.
Proof.
  unfold listed. change (map ToLower) with (fmap (M := list) ToLower). rewrite list_elem_of_fmap. naive_solver.
Qed.

Lemma unionBundles_allows d rbs r x :
  allowsItem (rule_dim d (foldl unionBundle r rbs)) x = true <->
  (rule_dim d r = [] /\ forall rb, rb ∈ rbs -> bundle_dim d rb = []) \/ listed (rule_dim d r) x \/
  exists rb, rb ∈ rbs /\ listed (bundle_dim d rb) x.
Proof.
  rewrite allowsItem_spec. setoid_rewrite no_elem_nil. setoid_rewrite listed_split.
  setoid_rewrite unionBundles_elem. split.
  - intros [H|(y & [Hy|(rb & Hrb & Hy)] & Hx)]; [left|right; left; eauto|right; right; eauto].
    split; [intros y Hy; apply (H y); by left|]. intros rb Hrb y Hy. apply (H y). right. eauto.
  - intros [[H1 H2]|[(y & Hy & Hx)|(rb & Hrb & y & Hy & Hx)]]; [left|right; eauto|right; exists y; eauto].
    intros y [Hy|(rb & Hrb & Hy)]; [by apply (H1 y)|by apply (H2 rb Hrb y)].
Qed.

(** Bundles widen a restriction and restrict what was open.  After the merge an
    operation (or network) is allowed when the scopes of profile and workspace or
    some bundle list it, and only then once any of them lists anything.  So a
    bundle's operations pass a workspace that does not allow them, and a bundle
    that lists operations closes every other one for a profile without scope. *)
Theorem bundle_scopes_merge (rs : ResolvedScope) (rb0 : ResolvedBundle) (rbs : list ResolvedBundle) (op : string) :
  let merged := rs_Effective (mergeBundleScopes rs (Ok (rb0 :: rbs))) in
  let E := ru_Operations (rs_Effective rs) in
  let lists rb := bs_Operations (rb_Scope rb) in
  (AllowsOperation merged op = true <->
     (E = [] /\ forall rb, rb ∈ rb0 :: rbs -> lists rb = []) \/ listed E op \/
     exists rb, rb ∈ rb0 :: rbs /\ listed (lists rb) op) /\
  (forall rb, rb ∈ rb0 :: rbs -> listed (lists rb) op -> AllowsOperation merged op = true) /\
  (E = [] -> (exists rb, rb ∈ rb0 :: rbs /\ lists rb <> []) ->
     (forall rb, rb ∈ rb0 :: rbs -> ~ listed (lists rb) op) -> AllowsOperation merged op = false).
Proof.
  intros merged E lists. pose proof (unionBundles_allows BOperations (rb0 :: rbs) (rs_Effective rs) op) as Hiff.
  split; [exact Hiff|]. split.
  - intros rb Hrb Hl. apply Hiff. eauto.
  - intros HE (rb & Hrb & Hne) Hno. apply not_true_iff_false. intros [[_ H]|[H|(rb' & Hrb' & H)]]%Hiff.
    + by apply Hne, H.
    + change (listed E op) in H. rewrite HE in H. by apply listed_nil in H.
    + by apply (Hno rb').
Qed.

(** ** Files *)

Lemma AllowsFile_spec r path :
  AllowsFile r path = true <-> ru_FilePatterns r = [] \/ exists p, p ∈ ru_FilePatterns r /\ matches p path = true.
Proof.
  unfold AllowsFile. case_decide as Ha; [tauto|]. rewrite existsb_exists. setoid_rewrite <- list_elem_of_In. tauto.
Qed.

Lemma double_star path : matches "**" path = bool_decide (slash ∉ chars path).
Proof. reflexivity. Qed.

(** The pattern "**" of a bundle.  Merging file patterns that contain "**"
    leaves "**" alone, and the matcher reads it as "*": every path with a '/' is
    refused, even one that another of the merged patterns allows. *)
Theorem double_star_closes_directories (a b : list string) (ops tools secrets nets : list string) (path : string)
    (Hs : "**" ∈ a ++ b) :
  AllowsFile (mkRule (unionFilePatterns a b) ops tools secrets nets) path = bool_decide (slash ∉ chars path).
Proof.
  unfold unionFilePatterns. rewrite decide_True by (apply unionStrings_elem; by apply elem_of_app).
  unfold AllowsFile. simpl. rewrite double_star. apply orb_false_r.
Qed.

(** ** Squads *)

Import Squads.

Lemma filterIntersect_elem a b x : x ∈ filterIntersect a b <-> x ∈ a /\ x ∈ b.
Proof. unfold filterIntersect. rewrite list_elem_of_filter. tauto. Qed.

(** The result so far, against the scopes seen. *)
Definition field_ok (extract : Rule -> list string) (y : string) (acc : option (list string)) : Prop :=
  match acc with None => True | Some l => y ∈ l end.

Lemma intersectField_spec extract scopes acc y x :
  field_ok extract y acc ->
  (forall s, s ∈ scopes -> allowsExact (extract (ss_Rules s)) y = true) ->
  let out := foldl (intersectStep extract) acc scopes in
  field_ok extract y out /\
  (allowsExact (default [] out) x = true <->
     allowsExact (default [] acc) x = true /\ forall s, s ∈ scopes -> allowsExact (extract (ss_Rules s)) x = true).
Proof.
  revert acc. induction scopes as [|s scopes IH]; intros acc Hacc Hy; simpl.
  { split; [done|]. split; [intros H; split; [done|]; intros s Hs; by apply elem_of_nil in Hs|tauto]. }
  assert (field_ok extract y (intersectStep extract acc s) /\
    (allowsExact (default [] (intersectStep extract acc s)) x = true <->
      allowsExact (default [] acc) x = true /\ allowsExact (extract (ss_Rules s)) x = true)) as [Hok Hx].
  { pose proof (Hy s ltac:(left)) as Hs. unfold intersectStep, allowsExact in *.
    case_decide as Hv; [tauto|]. apply bool_decide_eq_true in Hs.
    destruct acc as [l|]; simpl in *.
    - assert (y ∈ filterIntersect l (extract (ss_Rules s))) as Hin by (by apply filterIntersect_elem).
      split; [done|]. rewrite decide_False by (intros E; rewrite E in Hin; by apply elem_of_nil in Hin).
      rewrite decide_False by (intros ->; by apply elem_of_nil in Hacc).
      rewrite !bool_decide_eq_true. apply filterIntersect_elem.
    - split; [done|]. rewrite decide_False by done. tauto. }
  destruct (IH _ Hok) as [Hok' Hx']; [intros s' Hs'; apply Hy; by right|].
  split; [done|]. rewrite Hx', Hx. setoid_rewrite elem_of_cons. split; [|naive_solver].
  intros [[? ?] ?]. split; [done|]. intros s' [->|?]; auto.
Qed.

(** The two intersections agree.  On scopes with lower-case names, when some
    tool is allowed by all of them, a lower-case tool passes the squad package's
    [IntersectScopes] exactly when it passes [IntersectAll] of the scope package,
    which is when every scope allows it. *)
Theorem squad_scope_intersection_agrees (scopes : list SquadScope) (tool common : string)
    (Hlow : forall s t, s ∈ scopes -> t ∈ ru_Tools (ss_Rules s) -> ToLower t = t)
    (Ht : ToLower tool = tool) (Hc : ToLower common = common)
    (Hcommon : forall s, s ∈ scopes -> AllowsTool (ss_Rules s) common = true) :
  (squadAllowsTool (IntersectScopes scopes) tool = true <-> forall s, s ∈ scopes -> AllowsTool (ss_Rules s) tool = true) /\
  (AllowsTool (IntersectAll (map ss_Rules scopes)) tool = true <->
     forall s, s ∈ scopes -> AllowsTool (ss_Rules s) tool = true).
Proof.
  assert (forall x s, ToLower x = x -> s ∈ scopes ->
            allowsExact (ru_Tools (ss_Rules s)) x = true <-> AllowsTool (ss_Rules s) x = true) as Hex.
  { intros x s Hx Hs. unfold AllowsTool, allowsExact. rewrite allowsItem_spec. case_decide as Hn; [tauto|].
    rewrite bool_decide_eq_true, listed_split. split.
    - intros Hin. right. eauto.
    - intros [?|(t & Hin & Hl)]; [done|]. rewrite Hx, (Hlow s t Hs Hin) in Hl. by rewrite Hl. }
  split.
  - assert (squadAllowsTool (IntersectScopes scopes) tool = allowsExact (intersectField scopes ru_Tools) tool) as ->.
    { destruct scopes as [|s [|s' scopes]]; [done| |done]. unfold intersectField. simpl. unfold intersectStep.
      unfold squadAllowsTool. case_decide as E; [by rewrite E|done]. }
    destruct (intersectField_spec ru_Tools scopes None common tool I) as [_ H].
    { intros s Hs. by apply Hex, Hcommon. }
    unfold intersectField. rewrite H. split; [intros [_ Hall] s Hs; by apply Hex, Hall|].
    intros Hall. split; [done|]. intros s Hs. by apply Hex, Hall.
  - rewrite (IntersectAll_common Tools _ common); [|].
    + split.
      * intros H s Hs. apply (H (ss_Rules s)), (list_elem_of_fmap_2 ss_Rules _ _ Hs).
      * intros H r (s & -> & Hs)%(list_elem_of_fmap ss_Rules). by apply H.
    + intros r (s & -> & Hs)%(list_elem_of_fmap ss_Rules). by apply Hcommon.
Qed.

(** ** Witnesses *)

Definition tools_rule (tools : list string) : Rule := mkRule [] [] tools [] [].

(** The table of the documentation: [bash] against [python] leaves nothing allowed;
    the code allows everything. *)
Lemma effective_scope_witness :
  allows Tools (rs_Effective (Resolve (Some (mkScope "profile" "p" (tools_rule ["bash"]))) []
                               (Some (mkScope "workspace" "w" (tools_rule ["python"]))))) "rm" = true.
Proof.
  apply (effective_scope (Some (mkScope "profile" "p" (tools_rule ["bash"]))) []
           (Some (mkScope "workspace" "w" (tools_rule ["python"]))) Tools) with
    (p := mkScope "profile" "p" (tools_rule ["bash"])) (w := mkScope "workspace" "w" (tools_rule ["python"])); try done.
  split_and!; [done|done|]. intros x [H1 H2]. apply list_elem_of_singleton in H1, H2. rewrite H1 in H2. done.
Defined.

Lemma double_star_closes_directories_witness :
  AllowsFile (mkRule (unionFilePatterns ["src/*"] ["**"]) [] [] [] []) "src/main.go" = false /\
  AllowsFile (mkRule ["src/*"] [] [] [] []) "src/main.go" = true.
Proof.
  split; [|reflexivity]. rewrite double_star_closes_directories; [reflexivity|]. by apply (bool_decide_eq_true_1 _).
Defined.

Lemma squad_scope_intersection_agrees_witness :
  squadAllowsTool (IntersectScopes [mkSquadScope "a" (tools_rule ["go"; "bash"]); mkSquadScope "b" (tools_rule ["bash"])])
    "bash" = true.
Proof.
  set (scopes := [_; _]).
  assert (forall t s, s ∈ scopes -> t ∈ ru_Tools (ss_Rules s) -> t = "go" \/ t = "bash") as Hall.
  { intros t s Hs Ht. apply elem_of_cons in Hs as [->|Hs]; [|apply list_elem_of_singleton in Hs as ->]; simpl in Ht.
    - apply elem_of_cons in Ht as [->|Ht]; [by left|]. apply list_elem_of_singleton in Ht as ->. by right.
    - apply list_elem_of_singleton in Ht as ->. by right. }
  apply (squad_scope_intersection_agrees scopes "bash" "bash").
  - intros s t Hs Ht. by destruct (Hall t s Hs Ht) as [->| ->].
  - reflexivity.
  - reflexivity.
  - intros s Hs. apply elem_of_cons in Hs as [->|Hs]; [|apply list_elem_of_singleton in Hs as ->]; reflexivity.
  - intros s Hs. apply elem_of_cons in Hs as [->|Hs]; [|apply list_elem_of_singleton in Hs as ->]; reflexivity.
Defined.
