(* ===== verification/MsgRoute.v ===== *)
(** * Sender-keyed route tables (src/internal/core/msgroute: senderkey.go, config.go,
      contacts.go, table.go, resolve.go)

    Inbound messages are routed by the normalized sender key and the contact it
    belongs to.  Reading and parsing the YAML files, with the resolution of their
    paths, is an argument; an index out of range is a panic, the [None] of an
    outer option. *)

From Stdlib Require Import ZArith Lia String Ascii.
From stdpp Require Import base option list gmap strings fin_maps.
From S2P Require Import Prelude Text Glob.

(** ** Sender keys *)

Definition prefixWhatsApp : string := "whatsapp:".
Definition prefixSMS : string := "sms:".
Definition prefixTel : string := "tel:".
Definition prefixMailto : string := "mailto:".

Definition channelPrefixes : list string := [prefixWhatsApp; prefixSMS; prefixTel; prefixMailto].
Definition phonePrefixes : list string := [prefixWhatsApp; prefixSMS; prefixTel].

Definition platformSMS : string := "sms".
Definition platformWhatsApp : string := "whatsapp".

Definition IsPhonePlatform (platform : string) : bool :=
  bool_decide (ToLower (TrimSpace platform) ∈ [platformSMS; platformWhatsApp]).

Fixpoint stripLoop (value : string) (prefixes : list string) : string * bool :=
  match prefixes with
  | [] => (value, false)
  | prefix :: prefixes =>
      if HasPrefix (ToLower value) prefix
      then (TrimSpace (sdrop (length (chars prefix)) value), bool_decide (prefix ∈ phonePrefixes))
      else stripLoop value prefixes
  end.

Definition stripChannelPrefix (value : string) : string * bool := stripLoop value channelPrefixes.

Definition isDigit (c : ascii) : bool := bool_decide (48 <= N_of_ascii c <= 57)%N.
Definition isSeparator (c : ascii) : bool := bool_decide (c ∈ [" "%char; "-"%char; "."%char; "("%char; ")"%char]).

(** The digits counted, or [None] at a character that is not of a phone number. *)
Fixpoint phoneLoop (pattern first : bool) (l : list ascii) (digits : Z) : option Z :=
  match l with
  | [] => Some digits
  | c :: l' =>
      if isDigit c then phoneLoop pattern false l' (digits + 1)
      else if bool_decide (c = "+"%char) && first then phoneLoop pattern false l' digits
      else if isSeparator c then phoneLoop pattern false l' digits
      else if pattern && bool_decide (c = "*"%char \/ c = "?"%char) then phoneLoop pattern false l' digits
      else None
  end.

Definition isPhoneShaped (value : string) (pattern : bool) : bool :=
  match phoneLoop pattern true (chars value) 0 with
  | None => false
  | Some digits => (0 <? digits) || (pattern && ContainsAny value "*?")
  end.

Definition canonicalPhone (value : string) (addPlus : bool) : string :=
  let out := filter (fun c => isSeparator c = false) (chars value) in
  match out with
  | c :: _ => if addPlus && isDigit c then unchars ("+"%char :: out) else unchars out
  | [] => unchars out
  end.

Definition normalize (platform raw : string) (pattern : bool) : string :=
  let '(value, phoneHint) := stripChannelPrefix (TrimSpace raw) in
  if decide (value = "") then ""
  else if Contains value "@" then ToLower value
  else if isPhoneShaped value pattern then canonicalPhone value (phoneHint || IsPhonePlatform platform)
  else value.

Definition NormalizeSenderKey (platform raw : string) : string := normalize platform raw false.
Definition NormalizeSenderPattern (platform raw : string) : string := normalize platform raw true.

(** ** Configuration *)

Record Route : Type := mkRoute { ro_Match : string; ro_Profile : string; ro_Action : string }.
Record Contact : Type := mkContact { co_ID : string; co_Name : string; co_Org : string; co_Keys : list string }.

(** [cc_Table]: the route table whose directory anchors a relative path. *)
Record ContactsConfig : Type := mkContacts {
  cc_Path : string;
  cc_Table : option string;
  cc_Entries : list Contact
}.

Record Config : Type := mkConfig {
  cf_File : string;
  cf_Contacts : option ContactsConfig;
  cf_Routes : list Route
}.

Definition TerminalMatch : string := "unknown".
Definition orgSelector : string := "org:".
Definition contactSelector : string := "contact:".

Inductive RouteErr : Type :=
  | ErrConfigRequired | ErrFileAndRoutes | ErrReadTable (file : string) | ErrNesting (file : string)
  | ErrContactsTwice (file : string) | ErrReadContacts (path : string)
  | ErrContactID (i : nat) | ErrDuplicateContact (i : nat) (id : string) (first : nat)
  | ErrKeyTaken (id key owner : string) | ErrNoKeys (id : string)
  | ErrMatchRequired (i : nat) | ErrActionRequired (i : nat) | ErrActionPlain (i : nat) | ErrProfileRequired (i : nat)
  | ErrSelectorPattern (i : nat) | ErrNeedsContacts (i : nat) | ErrBadGlob (i : nat) (pattern : string)
  | ErrDuplicateTerminal (i first : nat) | ErrMissingTerminalRoute | ErrTerminalNotLast (i : nat).

(** What the process finds on disk: the route table at a path, the contacts at a
    path anchored at a table; [None] when it cannot be read or parsed. *)
Record Files : Type := mkFiles {
  fl_table : string -> option Config;
  fl_contacts : option string -> string -> option (list Contact)
}.

Record Options : Type := mkOptions { op_Platform : string; op_DefaultProfile : string }.

(** ** Contacts *)

Record contactIndex : Type := mkIndex { ci_contacts : list Contact; ci_byKey : gmap string nat }.

Definition LookupContact (c : option contactIndex) (key : string) : option Contact :=
  match c with
  | None => None
  | Some c => match ci_byKey c !! key with
              | None => None
              | Some i => ci_contacts c !! i
              end
  end.

(** The keys of one contact.  A key that is taken names its owner, by its position
    among the contacts already in the index: [None] when there is none there. *)
Fixpoint keysLoop (platform id : string) (contacts : list Contact) (byKey : gmap string nat) (keys raw : list string)
    (problems : list RouteErr) : option (gmap string nat * list string * list RouteErr) :=
  match raw with
  | [] => Some (byKey, keys, problems)
  | r :: raw =>
      let key := NormalizeSenderKey platform r in
      if decide (key = "") then keysLoop platform id contacts byKey keys raw problems
      else match byKey !! key with
           | Some owner =>
               match contacts !! owner with
               | None => None
               | Some c => keysLoop platform id contacts byKey keys raw (problems ++ [ErrKeyTaken id key (co_ID c)])
               end
           | None => keysLoop platform id contacts (<[key := length contacts]> byKey) (keys ++ [key]) raw problems
           end
  end.

Fixpoint contactsLoop (platform : string) (i : nat) (entries : list Contact) (seen : gmap string nat)
    (index : contactIndex) (problems : list RouteErr) : option (contactIndex * list RouteErr) :=
  match entries with
  | [] => Some (index, problems)
  | entry :: entries =>
      let id := TrimSpace (co_ID entry) in
      if decide (id = "") then contactsLoop platform (S i) entries seen index (problems ++ [ErrContactID i])
      else match seen !! ToLower id with
           | Some prev => contactsLoop platform (S i) entries seen index (problems ++ [ErrDuplicateContact i id prev])
           | None =>
               let seen := <[ToLower id := i]> seen in
               match keysLoop platform id (ci_contacts index) (ci_byKey index) [] (co_Keys entry) problems with
               | None => None
               | Some (byKey, keys, problems) =>
                   if decide (keys = [])
                   then contactsLoop platform (S i) entries seen (mkIndex (ci_contacts index) byKey) (problems ++ [ErrNoKeys id])
                   else contactsLoop platform (S i) entries seen
                          (mkIndex (ci_contacts index ++ [mkContact id (TrimSpace (co_Name entry)) (TrimSpace (co_Org entry)) keys])
                             byKey) problems
               end
           end
  end.

Definition loadContacts (fs : Files) (cfg : ContactsConfig) (opts : Options) : option (contactIndex * list RouteErr) :=
  let p := TrimSpace (cc_Path cfg) in
  let '(fromFile, problems) :=
    if decide (p = "") then ([], [])
    else match fl_contacts fs (cc_Table cfg) p with
         | Some contacts => (contacts, [])
         | None => ([], [ErrReadContacts p])
         end in
  contactsLoop (op_Platform opts) 0 (fromFile ++ cc_Entries cfg) ∅ (mkIndex [] ∅) problems.

(** ** Routes *)

Inductive matchKind : Type := kindSender | kindOrg | kindContact | kindTerminal.

#[export] Instance matchKind_eq_dec : EqDecision matchKind.
Proof. solve_decision. Defined.

Record compiledRoute : Type := mkCompiled { cr_route : Route; cr_kind : matchKind; cr_pattern : string; cr_glob : bool }.

Record Table : Type := mkTable {
  tb_platform : string;
  tb_source : string;
  tb_routes : list compiledRoute;
  tb_contacts : option contactIndex
}.

Definition isGlob (pattern : string) : bool := ContainsAny pattern "*?[".

Definition parseSelector (i : nat) (kind : matchKind) (match_ selector : string) (hasContacts : bool)
  : matchKind * string * list RouteErr :=
  let pattern := ToLower (TrimSpace (sdrop (length (chars selector)) match_)) in
  if decide (pattern = "") then (kind, "", [ErrSelectorPattern i])
  else if hasContacts then (kind, pattern, []) else (kind, pattern, [ErrNeedsContacts i]).

Definition parseMatch (i : nat) (match_ platform : string) (hasContacts : bool) : matchKind * string * list RouteErr :=
  let lower := ToLower match_ in
  if decide (lower = TerminalMatch) then (kindTerminal, "", [])
  else if HasPrefix lower orgSelector then parseSelector i kindOrg match_ orgSelector hasContacts
  else if HasPrefix lower contactSelector then parseSelector i kindContact match_ contactSelector hasContacts
  else (kindSender, NormalizeSenderPattern platform match_, []).

(** [errors.Join] of the problems is nil exactly when there are none. *)
Definition compileRoute (i : nat) (route : Route) (opts : Options) (hasContacts : bool)
  : compiledRoute * list RouteErr :=
  let match_ := TrimSpace (ro_Match route) in
  let action := TrimSpace (ro_Action route) in
  let profile := if decide (TrimSpace (ro_Profile route) = "") then TrimSpace (op_DefaultProfile opts)
                 else TrimSpace (ro_Profile route) in
  let route' := mkRoute (ro_Match route) profile action in
  let problems :=
    (if decide (match_ = "") then [ErrMatchRequired i] else []) ++
    (if decide (action = "") then [ErrActionRequired i]
     else if ContainsAny action (String "="%char (String " "%char (String (Ascii.ascii_of_nat 9) "")))
          then [ErrActionPlain i] else []) ++
    (if decide (profile = "") then [ErrProfileRequired i] else []) in
  if decide (match_ = "") then (mkCompiled route' kindSender "" false, problems)
  else
    let '(kind, pattern, errs) := parseMatch i match_ (op_Platform opts) hasContacts in
    let glob := isGlob pattern in
    let bad := if glob then match Match pattern "" with Err _ => [ErrBadGlob i pattern] | Ok _ => [] end else [] in
    (mkCompiled route' kind pattern glob, problems ++ errs ++ bad).

Fixpoint compileLoop (i : nat) (routes : list Route) (opts : Options) (hasContacts : bool) (terminalAt : option nat)
  : list compiledRoute * option nat * list RouteErr :=
  match routes with
  | [] => ([], terminalAt, [])
  | route :: routes =>
      let '(cr, err) := compileRoute i route opts hasContacts in
      let '(terminalAt, dup) :=
        if decide (cr_kind cr = kindTerminal) then
          match terminalAt with
          | Some first => (Some first, [ErrDuplicateTerminal i first])
          | None => (Some i, [])
          end
        else (terminalAt, []) in
      let '(compiled, terminalAt, problems) := compileLoop (S i) routes opts hasContacts terminalAt in
      (cr :: compiled, terminalAt, err ++ dup ++ problems)
  end.

Definition compileRoutes (routes : list Route) (opts : Options) (hasContacts : bool)
  : list compiledRoute * list RouteErr :=
  let '(compiled, terminalAt, problems) := compileLoop 0 routes opts hasContacts None in
  (compiled, problems ++
   match terminalAt with
   | None => [ErrMissingTerminalRoute]
   | Some i => if decide (S i = length routes) then [] else [ErrTerminalNotLast i]
   end).

Definition anchorContacts (contacts : ContactsConfig) (table : string) : ContactsConfig :=
  let p := TrimSpace (cc_Path contacts) in
  if decide (p = "") then contacts
  else if HasPrefix p "/" || HasPrefix p "~" then contacts
  else mkContacts (cc_Path contacts) (Some table) (cc_Entries contacts).

Definition resolveConfig (fs : Files) (cfg : Config) : Res RouteErr (Config * string) :=
  let file := TrimSpace (cf_File cfg) in
  if decide (file = "") then Ok (cfg, "inline")
  else if decide (cf_Routes cfg <> []) then Err ErrFileAndRoutes
  else match fl_table fs file with
       | None => Err (ErrReadTable file)
       | Some external =>
           if decide (TrimSpace (cf_File external) <> "") then Err (ErrNesting file)
           else match cf_Contacts external, cf_Contacts cfg with
                | Some _, Some _ => Err (ErrContactsTwice file)
                | Some c, None => Ok (mkConfig "" (Some (anchorContacts c file)) (cf_Routes external), file)
                | None, own => Ok (mkConfig "" own (cf_Routes external), file)
                end
       end.

(** [None]: panic; [Err]: all the problems found. *)
Definition Load (fs : Files) (cfg : option Config) (opts : Options) : option (Res (list RouteErr) Table) :=
  match cfg with
  | None => Some (Err [ErrConfigRequired])
  | Some cfg =>
      match resolveConfig fs cfg with
      | Err e => Some (Err [e])
      | Ok (resolved, source) =>
          let loaded := match cf_Contacts resolved with
                        | None => Some (None, [])
                        | Some c => match loadContacts fs c opts with
                                    | None => None
                                    | Some (index, problems) => Some (Some index, problems)
                                    end
                        end in
          match loaded with
          | None => None
          | Some (contacts, problems) =>
              let '(routes, routeErrs) := compileRoutes (cf_Routes resolved) opts (bool_decide (is_Some contacts)) in
              if decide (problems ++ routeErrs = [])
              then Some (Ok (mkTable (op_Platform opts) source routes contacts))
              else Some (Err (problems ++ routeErrs))
          end
      end
  end.

(** ** Resolving a sender *)

Definition matchPattern (pattern : string) (glob : bool) (value : string) : bool :=
  if glob then match Match pattern value with Ok ok => ok | Err _ => false end
  else bool_decide (pattern = value).

Definition compiledRoute_matches (cr : compiledRoute) (senderKey : string) (contact : option Contact) : bool :=
  match cr_kind cr with
  | kindTerminal => true
  | kindOrg => match contact with
               | None => false
               | Some c => if decide (co_Org c = "") then false
                           else matchPattern (cr_pattern cr) (cr_glob cr) (ToLower (co_Org c))
               end
  | kindContact => match contact with
                   | None => false
                   | Some c => matchPattern (cr_pattern cr) (cr_glob cr) (ToLower (co_ID c))
                   end
  | kindSender => if decide (senderKey = "") then false else matchPattern (cr_pattern cr) (cr_glob cr) senderKey
  end.

Record Decision_ : Type := mkDecision {
  de_SenderKey : string;
  de_Contact : option Contact;
  de_Route : Route;
  de_Index : Z;
  de_Terminal : bool
}.

Definition Mapping (d : Decision_) : string :=
  if decide (ro_Profile (de_Route d) = "" \/ ro_Action (de_Route d) = "") then ""
  else ro_Profile (de_Route d) +:+ "=" +:+ ro_Action (de_Route d).

Definition Resolve (t : option Table) (senderID : string) : Decision_ :=
  match t with
  | None => mkDecision "" None (mkRoute "" "" "") (-1) false
  | Some t =>
      let key := NormalizeSenderKey (tb_platform t) senderID in
      let contact := if decide (key = "") then None else LookupContact (tb_contacts t) key in
      match list_find (fun cr => compiledRoute_matches cr key contact = true) (tb_routes t) with
      | Some (i, cr) => mkDecision key contact (cr_route cr) (Z.of_nat i) (bool_decide (cr_kind cr = kindTerminal))
      | None => mkDecision key contact (mkRoute "" "" "") (-1) false
      end
  end.

Definition HasTerminal (t : option Table) : bool :=
  match t with
  | None => false
  | Some t => match last (tb_routes t) with
              | None => false
              | Some cr => bool_decide (cr_kind cr = kindTerminal)
              end
  end.

Definition Routes (t : option Table) : list Route :=
  match t with None => [] | Some t => map cr_route (tb_routes t) end.

Definition Contacts (t : option Table) : list Contact :=
  match t with
  | Some t => match tb_contacts t with Some c => ci_contacts c | None => [] end
  | None => []
  end.

(** ** Normal forms of sender keys *)

(** No channel prefix in front. *)
Definition unprefixed (value : string) : Prop :=
  forall prefix, prefix ∈ channelPrefixes -> HasPrefix (ToLower value) prefix = false.

Lemma stripLoop_unprefixed value prefixes :
  (forall prefix, prefix ∈ prefixes -> HasPrefix (ToLower value) prefix = false) ->
  stripLoop value prefixes = (value, false).
Proof.
  induction prefixes as [|p ps IH]; intros H; simpl; [done|]. rewrite (H p) by left. apply IH. intros. apply H. by right.
Qed.

Lemma strip_unprefixed value : unprefixed value -> stripChannelPrefix value = (value, false).
Proof. apply stripLoop_unprefixed. Qed.

Lemma stripLoop_trimmed value prefixes :
  TrimSpace value = value -> TrimSpace (stripLoop value prefixes).1 = (stripLoop value prefixes).1.
Proof.
  intros Hv. induction prefixes as [|p ps IH]; simpl; [done|]. case_match; [apply TrimSpace_idem|done].
Qed.

(** What is left of a phone number: digits, after a plus at the front. *)
Definition phone_form (l : list ascii) : Prop :=
  match l with
  | [] => False
  | c :: l' => (isDigit c = true /\ Forall (fun c => isDigit c = true) l') \/
               (c = "+"%char /\ l' <> [] /\ Forall (fun c => isDigit c = true) l')
  end.

Lemma digit_not_separator c : isDigit c = true -> isSeparator c = false.
Proof. destruct c as [[] [] [] [] [] [] [] []]; done. Qed.

Lemma phoneLoop_digits l first n m :
  phoneLoop false first l n = Some m ->
  let kept := filter (fun c => isSeparator c = false) l in
  m = n + Z.of_nat (length (filter (fun c => isDigit c = true) l)) /\
  (first = false -> Forall (fun c => isDigit c = true) kept) /\
  (first = true -> match kept with [] => True | c :: k => (isDigit c = true \/ c = "+"%char) /\
                     Forall (fun c => isDigit c = true) k end).
Proof.
  revert first n. induction l as [|c l IH]; intros first n; simpl.
  { intros [= <-]. split_and!; [lia|constructor|done]. }
  destruct (isDigit c) eqn:Ed.
  { intros (Hm & Hf & _)%IH. rewrite (filter_cons_True (fun c => isDigit c = true)) by done.
    rewrite (filter_cons_True (fun c => isSeparator c = false)) by (by apply digit_not_separator).
    simpl. split_and!; [lia| |]; intros _; [constructor; auto|split; auto]. }
  rewrite (filter_cons_False (fun c => isDigit c = true)) by congruence.
  destruct (bool_decide (c = "+"%char)) eqn:Ep; simpl.
  { apply bool_decide_eq_true in Ep as ->. destruct first; simpl; [|done].
    intros (Hm & Hf & _)%IH. split_and!; [lia|done|]. intros _. split; [by right|]. by apply Hf. }
  destruct (isSeparator c) eqn:Es; [|done]. intros (Hm & Hf & _)%IH.
  rewrite (filter_cons_False (fun c => isSeparator c = false)) by congruence.
  split_and!; [lia|auto|]. intros _. specialize (Hf eq_refl).
  destruct (filter _ l); [done|]. inversion Hf; auto.
Qed.

Lemma digits_kept l :
  (length (filter (fun c => isDigit c = true) (filter (fun c => isSeparator c = false) l)) =
   length (filter (fun c => isDigit c = true) l))%nat.
Proof.
  induction l as [|c l IH]; [done|]. destruct (isSeparator c) eqn:Es.
  - rewrite (filter_cons_False (fun c => isSeparator c = false)) by congruence.
    rewrite (filter_cons_False (fun c => isDigit c = true)); [done|].
    intros Hd. apply digit_not_separator in Hd. congruence.
  - rewrite (filter_cons_True (fun c => isSeparator c = false)) by done.
    rewrite !(filter_cons (fun c => isDigit c = true)). case_decide; simpl; by rewrite IH.
Qed.

Lemma isPhoneShaped_form value :
  isPhoneShaped value false = true -> phone_form (filter (fun c => isSeparator c = false) (chars value)).
Proof.
  unfold isPhoneShaped. destruct (phoneLoop _ _ _ _) as [m|] eqn:E; [|done]. rewrite andb_false_l, orb_false_r.
  intros Hm%Z.ltb_lt. apply phoneLoop_digits in E as (Hd & _ & Hk). specialize (Hk eq_refl).
  rewrite <- digits_kept in Hd. destruct (filter _ (chars value)) as [|c k]; [simpl in Hd; lia|].
  destruct Hk as [[Hc| ->] Hk]; [left; by split|right]. split_and!; [done| |done].
  intros ->. rewrite filter_cons_False in Hd by done. simpl in Hd. lia.
Qed.

Lemma phone_form_kept l : phone_form l -> filter (fun c => isSeparator c = false) l = l.
Proof.
  intros H. apply filter_all. intros x Hx. destruct l as [|c l]; [done|].
  apply elem_of_cons in Hx as [->|Hx].
  - destruct H as [[H _]|[-> _]]; [by apply digit_not_separator|done].
  - apply digit_not_separator. destruct H as [[_ H]|(_ & _ & H)]; rewrite Forall_forall in H; auto.
Qed.

Lemma phoneLoop_all_digits l first n :
  Forall (fun c => isDigit c = true) l -> phoneLoop false first l n = Some (n + Z.of_nat (length l)).
Proof.
  revert first n. induction l as [|c l IH]; intros first n; simpl; [intros _; f_equal; lia|].
  intros [-> H]%Forall_cons. rewrite IH by done. f_equal. lia.
Qed.

Lemma phone_form_shaped l : phone_form l -> isPhoneShaped (unchars l) false = true.
Proof.
  unfold isPhoneShaped. rewrite chars_unchars. destruct l as [|c l]; [done|].
  intros [[Hc H]|(-> & Hne & H)].
  - rewrite phoneLoop_all_digits by (by constructor). rewrite orb_true_iff. left. apply Z.ltb_lt. simpl. lia.
  - simpl. rewrite phoneLoop_all_digits by done. rewrite orb_true_iff. left. apply Z.ltb_lt.
    destruct l; [done|]. simpl. lia.
Qed.

(** A character of a phone number in normal form. *)
Definition phone_char (c : ascii) : bool := isDigit c || bool_decide (c = "+"%char).

Lemma phone_form_chars l : phone_form l -> Forall (fun c => phone_char c = true) l /\ l <> [].
Proof.
  destruct l as [|c l]; [done|]. unfold phone_char. intros H. split; [|done]. constructor.
  - destruct H as [[-> _]|[-> _]]; [done|]. by rewrite orb_true_r.
  - assert (Forall (fun c => isDigit c = true) l) as Hl by (by destruct H as [[_ H]|(_ & _ & H)]).
    eapply Forall_impl; [exact Hl|]. by intros x ->.
Qed.

Lemma phone_chars_trimmed l : Forall (fun c => phone_char c = true) l -> trimmed l.
Proof.
  assert (forall k, Forall (fun c => phone_char c = true) k -> starts_space k = false) as H.
  { intros [|c k]; [done|]. simpl. intros [Hc _]%Forall_cons. destruct c as [[] [] [] [] [] [] [] []]; done. }
  intros Hl. split; [auto|]. apply H. by rewrite Forall_reverse.
Qed.

Lemma phone_chars_unprefixed l : Forall (fun c => phone_char c = true) l -> unprefixed (unchars l).
Proof.
  intros Hl prefix Hp. apply not_true_iff_false. intros [v Hv]%HasPrefix_spec.
  unfold ToLower in Hv. rewrite !chars_unchars in Hv. unfold channelPrefixes in Hp.
  rewrite !elem_of_cons, elem_of_nil in Hp. destruct l as [|c l].
  - by destruct Hp as [->|[->|[->|[->|?]]]].
  - apply Forall_cons in Hl as [Hc _].
    destruct c as [[] [] [] [] [] [] [] []]; try done; by destruct Hp as [->|[->|[->|[->|?]]]].
Qed.

Lemma phone_chars_no_at l : Forall (fun c => phone_char c = true) l -> Contains (unchars l) "@" = false.
Proof.
  intros Hl. apply not_true_iff_false. intros (u & v & Hc)%Contains_spec. rewrite chars_unchars in Hc.
  rewrite Hc, !Forall_app in Hl. destruct Hl as (_ & H & _). by apply Forall_cons in H as [H _].
Qed.

Lemma normalize_phone platform l :
  phone_form l -> NormalizeSenderKey platform (unchars l) = canonicalPhone (unchars l) (IsPhonePlatform platform).
Proof.
  intros Hf. destruct (phone_form_chars l Hf) as [Hl Hne]. unfold NormalizeSenderKey, normalize.
  assert (TrimSpace (unchars l) = unchars l) as ->.
  { apply trimmed_TrimSpace. rewrite chars_unchars. by apply phone_chars_trimmed. }
  rewrite strip_unprefixed by (by apply phone_chars_unprefixed).
  rewrite decide_False by (by rewrite unchars_nil). rewrite phone_chars_no_at by done.
  by rewrite phone_form_shaped.
Qed.

Lemma canonicalPhone_form l b :
  phone_form l ->
  canonicalPhone (unchars l) b = unchars (if b then match l with c :: _ => if isDigit c then "+"%char :: l else l | [] => l end else l).
Proof.
  intros Hf. unfold canonicalPhone. rewrite chars_unchars, phone_form_kept by done.
  destruct l as [|c l]; [done|]. destruct b; [|done]. simpl. by destruct (isDigit c).
Qed.

(** The two notations of a phone number have the form, and only one of them a plus. *)
Lemma plus_form l : phone_form l ->
  phone_form (match l with c :: _ => if isDigit c then "+"%char :: l else l | [] => l end).
Proof.
  destruct l as [|c l]; [done|]. destruct (isDigit c) eqn:Ed; [|done]. intros [[_ H]|(-> & _ & _)]; [|done].
  right. split_and!; [done|done|by constructor].
Qed.

Lemma canonical_idem platform hint l :
  phone_form l ->
  let out := canonicalPhone (unchars l) (hint || IsPhonePlatform platform) in
  NormalizeSenderKey platform out = out.
Proof.
  intros Hf out. subst out. rewrite canonicalPhone_form by done.
  match goal with |- context [unchars ?x] => set (k := x) end. assert (phone_form k) as Hk.
  { unfold k. case_match; [by apply plus_form|done]. }
  rewrite normalize_phone, canonicalPhone_form by done. f_equal.
  destruct (IsPhonePlatform platform); [|done]. unfold k. rewrite orb_true_r.
  destruct l as [|c l]; [done|]. by destruct (isDigit c) eqn:Ed; rewrite ?Ed.
Qed.

(** A number behind the prefix of the channel. *)
Lemma normalize_whatsapp platform l :
  phone_form l -> NormalizeSenderKey platform ("whatsapp:" +:+ unchars l) = canonicalPhone (unchars l) true.
Proof.
  intros Hf. destruct (phone_form_chars l Hf) as [Hl Hne]. unfold NormalizeSenderKey, normalize.
  assert (chars ("whatsapp:" +:+ unchars l) = chars "whatsapp:" ++ l) as Hc.
  { change (chars ("whatsapp:" +:+ unchars l)) with (chars "whatsapp:" ++ chars (unchars l)). by rewrite chars_unchars. }
  assert (TrimSpace ("whatsapp:" +:+ unchars l) = "whatsapp:" +:+ unchars l) as ->.
  { apply trimmed_TrimSpace. rewrite Hc. split; [done|]. rewrite reverse_app.
    assert (starts_space (reverse l) = false) as Hr by apply (phone_chars_trimmed l Hl).
    destruct (reverse l) eqn:E; [|done]. apply (f_equal length) in E. rewrite length_reverse in E. by destruct l. }
  unfold stripChannelPrefix, channelPrefixes. cbn [stripLoop].
  assert (HasPrefix (ToLower ("whatsapp:" +:+ unchars l)) prefixWhatsApp = true) as ->.
  { apply HasPrefix_spec. unfold ToLower. rewrite chars_unchars, Hc, map_app. by eexists. }
  unfold sdrop. rewrite Hc. change (chars prefixWhatsApp) with (chars "whatsapp:"). rewrite drop_app_length.
  assert (TrimSpace (unchars l) = unchars l) as ->.
  { apply trimmed_TrimSpace. rewrite chars_unchars. by apply phone_chars_trimmed. }
  rewrite decide_False by (by rewrite unchars_nil). rewrite phone_chars_no_at by done.
  by rewrite phone_form_shaped.
Qed.

Lemma normalize_unprefixed platform raw :
  unprefixed (stripChannelPrefix (TrimSpace raw)).1 ->
  NormalizeSenderKey platform (NormalizeSenderKey platform raw) = NormalizeSenderKey platform raw.
Proof.
  intros Hu. unfold NormalizeSenderKey at 2 3. unfold normalize.
  destruct (stripChannelPrefix (TrimSpace raw)) as [v hint] eqn:Es. simpl in Hu.
  assert (TrimSpace v = v) as Hv.
  { pose proof (stripLoop_trimmed (TrimSpace raw) channelPrefixes (TrimSpace_idem raw)) as H.
    unfold stripChannelPrefix in Es. by rewrite Es in H. }
  case_decide as Hne; [done|]. destruct (Contains v "@") eqn:Ea.
  + unfold NormalizeSenderKey, normalize.
    assert (TrimSpace (ToLower v) = ToLower v) as ->.
    { apply trimmed_TrimSpace. unfold ToLower. rewrite chars_unchars, trimmed_map_lower. by apply trimmed_TrimSpace. }
    rewrite strip_unprefixed by (intros p Hp; rewrite ToLower_idem; by apply Hu).
    rewrite decide_False. 2:{ unfold ToLower. rewrite unchars_nil. intros H%map_eq_nil. by apply chars_nil in H. }
    assert (Contains (ToLower v) "@" = true) as ->; [|by rewrite ToLower_idem].
    apply Contains_spec in Ea as (a & b & Hab). apply Contains_spec. exists (map lowerChar a), (map lowerChar b).
    unfold ToLower. by rewrite chars_unchars, Hab, !map_app.
  + destruct (isPhoneShaped v false) eqn:Ep.
    * pose proof (isPhoneShaped_form v Ep) as Hf. set (l := filter _ (chars v)) in *.
      assert (forall b, canonicalPhone v b = canonicalPhone (unchars l) b) as Hc.
      { intros b. unfold canonicalPhone. rewrite chars_unchars, (phone_form_kept l) by done. done. }
      rewrite Hc. by apply canonical_idem.
    * unfold NormalizeSenderKey, normalize. rewrite Hv, strip_unprefixed by done.
      by rewrite decide_False, Ea, Ep.
Qed.

(** Normalization of sender keys.  Normalizing twice is normalizing once, unless
    a second channel prefix follows the one that is stripped: then the key is not
    a normal form, although the function is documented as idempotent.  On a phone
    platform the bare digits, the number with a plus and the number behind
    "whatsapp:" have the same key. *)
Theorem normalize_idempotent (platform raw : string) :
  (unprefixed (stripChannelPrefix (TrimSpace raw)).1 ->
     NormalizeSenderKey platform (NormalizeSenderKey platform raw) = NormalizeSenderKey platform raw) /\
  NormalizeSenderKey platform (NormalizeSenderKey platform "sms:mailto:bob") <>
    NormalizeSenderKey platform "sms:mailto:bob" /\
  (forall digits, IsPhonePlatform platform = true -> digits <> [] -> Forall (fun c => isDigit c = true) digits ->
     NormalizeSenderKey platform (unchars digits) = unchars ("+"%char :: digits) /\
     NormalizeSenderKey platform (unchars ("+"%char :: digits)) = unchars ("+"%char :: digits) /\
     NormalizeSenderKey platform ("whatsapp:+" +:+ unchars digits) = unchars ("+"%char :: digits)).
Proof.
  split_and!.
  - apply normalize_unprefixed.
  - by vm_compute.
  - intros digits Hp Hne Hd.
    assert (phone_form digits) as Hf by (destruct digits as [|c l]; [done|]; left; by apply Forall_cons in Hd).
    assert (phone_form ("+"%char :: digits)) as Hf' by (by right).
    split_and!.
    + rewrite normalize_phone, canonicalPhone_form, Hp by done. destruct digits as [|c l]; [done|].
      apply Forall_cons in Hd as [-> _]. done.
    + by rewrite normalize_phone, canonicalPhone_form, Hp by done.
    + change ("whatsapp:+" +:+ unchars digits) with ("whatsapp:" +:+ unchars ("+"%char :: digits)).
      by rewrite normalize_whatsapp, canonicalPhone_form by done.
Qed.

(** ** Loaded tables *)

(** A route that passed validation. *)
Definition route_ok (cr : compiledRoute) : Prop :=
  ro_Profile (cr_route cr) <> "" /\ ro_Action (cr_route cr) <> "" /\
  (cr_glob cr = isGlob (cr_pattern cr)) /\
  (cr_glob cr = true -> exists cs, parsePattern (cr_pattern cr) = Some cs).

Lemma Match_parse pattern name b : Match pattern name = Ok b -> exists cs, parsePattern pattern = Some cs.
Proof. unfold Match. destruct (parsePattern pattern); [eauto|done]. Qed.

Lemma compileRoute_ok i route opts hc cr : compileRoute i route opts hc = (cr, []) -> route_ok cr.
Proof.
  unfold compileRoute, route_ok. case_decide as Hm; [by case_decide|].
  destruct (parseMatch _ _ _ _) as [[kind pattern] errs]. intros [= <- H].
  apply app_eq_nil in H as [Hp [_ Hb]%app_eq_nil]. simpl in *.
  apply app_eq_nil in Hp as [Ha Hp]. split_and!.
  - intros E. by rewrite decide_True in Hp by exact E.
  - intros E. by rewrite decide_True in Ha by exact E.
  - done.
  - intros Hg. rewrite Hg in Hb. destruct (Match pattern "") eqn:E; [|done]. eauto using Match_parse.
Qed.

(** Compiling a list of routes without problems. *)
Lemma compileLoop_spec i routes opts hc t0 compiled t1 :
  compileLoop i routes opts hc t0 = (compiled, t1, []) ->
  length compiled = length routes /\ Forall route_ok compiled /\
  match t0 with
  | Some f => t1 = Some f /\ Forall (fun cr => cr_kind cr <> kindTerminal) compiled
  | None => match t1 with
            | None => Forall (fun cr => cr_kind cr <> kindTerminal) compiled
            | Some j => exists k, j = (i + k)%nat /\
                forall n cr, compiled !! n = Some cr -> cr_kind cr = kindTerminal <-> n = k
            end
  end.
Proof.
  revert i t0 compiled t1. induction routes as [|route routes IH]; intros i t0 compiled t1; simpl.
  { intros [= <- <-]. split_and!; [done|constructor|]. destruct t0; [|constructor]. split; [done|constructor]. }
  destruct (compileRoute i route opts hc) as [cr err] eqn:Ec.
  destruct (decide (cr_kind cr = kindTerminal)) as [Hk|Hk].
  - destruct t0 as [f|].
    + destruct (compileLoop _ _ _ _ _) as [[c t] p]. intros [= _ _ H]. by apply app_eq_nil in H as [_ H].
    + destruct (compileLoop _ _ _ _ _) as [[c t] p] eqn:El. intros [= <- <- H].
      apply app_eq_nil in H as [-> ->]. apply IH in El as (Hlen & Hok & -> & Hno).
      split_and!; [simpl; lia|constructor; [by eapply compileRoute_ok|done]|]. exists 0%nat. split; [lia|].
      intros [|n] cr' Hn; simpl in Hn; simplify_eq; [done|]. rewrite Forall_lookup in Hno.
      split; [|done]. intros H. by apply Hno in Hn.
  - destruct (compileLoop _ _ _ _ _) as [[c t] p] eqn:El. intros [= <- <- H].
    apply app_eq_nil in H as [-> ->]. apply IH in El as (Hlen & Hok & Hrest).
    split_and!; [simpl; lia|constructor; [by eapply compileRoute_ok|done]|].
    destruct t0 as [f|]; [destruct Hrest; split; [done|by constructor]|].
    destruct t as [j|]; [|by constructor]. destruct Hrest as (k & -> & Hn). exists (S k). split; [lia|].
    intros [|n] cr' Hcr; simpl in Hcr; simplify_eq; [by split|]. rewrite (Hn _ _ Hcr). lia.
Qed.

(** What [Load] promises of a table. *)
Record table_ok (t : Table) : Prop := {
  tok_routes : Forall route_ok (tb_routes t);
  tok_terminal : forall i cr, tb_routes t !! i = Some cr ->
    cr_kind cr = kindTerminal <-> S i = length (tb_routes t);
  tok_nonempty : tb_routes t <> []
}.

Lemma compileRoutes_ok routes opts hc compiled :
  compileRoutes routes opts hc = (compiled, []) ->
  Forall route_ok compiled /\ compiled <> [] /\
  forall i cr, compiled !! i = Some cr -> cr_kind cr = kindTerminal <-> S i = length compiled.
Proof.
  unfold compileRoutes. destruct (compileLoop 0 routes opts hc None) as [[c t] p] eqn:E. intros [= <- H].
  apply app_eq_nil in H as [-> Ht]. apply compileLoop_spec in E as (Hlen & Hok & Hterm).
  destruct t as [j|]; [|done]. case_decide as Hj; [|done]. destruct Hterm as (k & -> & Hk). simpl in Hj.
  split_and!; [done|intros ->; simpl in Hlen; lia|]. intros i cr Hi. rewrite (Hk _ _ Hi). lia.
Qed.

Lemma Load_ok fs cfg opts t : Load fs cfg opts = Some (Ok t) -> table_ok t.
Proof.
  unfold Load. destruct cfg as [cfg|]; [|done]. destruct (resolveConfig fs cfg) as [[resolved source]|]; [|done].
  destruct (match cf_Contacts resolved with None => _ | Some c => _ end) as [[contacts problems]|]; [|done].
  destruct (compileRoutes _ _ _) as [routes errs] eqn:Ec. case_decide as Hp; [|done]. intros [= <-].
  apply app_eq_nil in Hp as [_ ->]. apply compileRoutes_ok in Ec as (H1 & H2 & H3). by split.
Qed.

(** every sender is routed.  A table that [Load] returns has exactly one
    fail-safe route, the last, and resolves every sender: to the first of its
    routes that matches, with a profile and an action, so that the mapping is
    "profile=action"; the decision is marked terminal exactly when the last route
    won, that is when no other matches. *)
Theorem every_sender_routed (fs : Files) (cfg : option Config) (opts : Options) (t : Table)
    (Hload : Load fs cfg opts = Some (Ok t)) (sender : string) :
  HasTerminal (Some t) = true /\
  let d := Resolve (Some t) sender in
  exists i cr, de_Index d = Z.of_nat i /\ tb_routes t !! i = Some cr /\ de_Route d = cr_route cr /\
    compiledRoute_matches cr (de_SenderKey d) (de_Contact d) = true /\
    (forall j cr', (j < i)%nat -> tb_routes t !! j = Some cr' ->
       compiledRoute_matches cr' (de_SenderKey d) (de_Contact d) = false) /\
    (de_Terminal d = true <-> S i = length (tb_routes t)) /\
    Mapping d = ro_Profile (cr_route cr) +:+ "=" +:+ ro_Action (cr_route cr) /\
    ro_Profile (cr_route cr) <> "" /\ ro_Action (cr_route cr) <> "".
Proof.
  destruct (Load_ok _ _ _ _ Hload) as [Hok Hterm Hne].
  assert (exists i cr, tb_routes t !! i = Some cr /\ S i = length (tb_routes t) /\ cr_kind cr = kindTerminal)
    as (n & crn & Hn & Hlen & Hkn).
  { destruct (lookup_lt_is_Some_2 (tb_routes t) (length (tb_routes t) - 1)) as [cr Hcr].
    { destruct (tb_routes t); [done|]. simpl. lia. }
    exists (length (tb_routes t) - 1)%nat, cr. apply lookup_lt_Some in Hcr as Hlt.
    split_and!; [done|lia|]. eapply Hterm; [exact Hcr|lia]. }
  split.
  { unfold HasTerminal. rewrite last_lookup, <- Hlen. simpl. rewrite Hn. by case_bool_decide. }
  unfold Resolve. set (key := NormalizeSenderKey _ _). set (contact := if decide (key = "") then _ else _).
  destruct (list_find _ (tb_routes t)) as [[i cr]|] eqn:Ef; simpl.
  - apply list_find_Some in Ef as (Hi & Hm & Hbefore). rewrite Forall_lookup in Hok.
    destruct (Hok _ _ Hi) as (Hp & Ha & _). exists i, cr. split_and!; try done.
    + intros j cr' Hj Hcr'. apply not_true_iff_false. by eapply Hbefore.
    + rewrite bool_decide_eq_true. by apply Hterm.
    + unfold Mapping. simpl. rewrite decide_False by (intros [?|?]; done). done.
  - apply list_find_None in Ef. rewrite Forall_lookup in Ef. destruct (Ef _ _ Hn).
    unfold compiledRoute_matches. by rewrite Hkn.
Qed.

(** ** The contact index *)

(** A key leads to the one contact that has it. *)
Definition indexed (contacts : list Contact) (byKey : gmap string nat) : Prop :=
  forall key i, byKey !! key = Some i <-> exists c, contacts !! i = Some c /\ key ∈ co_Keys c.

(** The keys of a contact that no contact before it has, as they are met. *)
Definition fresh_keys (platform : string) (byKey : gmap string nat) (raw : list string) : list string :=
  filter (fun key => key <> "" /\ byKey !! key = None) (map (NormalizeSenderKey platform) raw).

Lemma fresh_keys_cons platform byKey r raw :
  let key := NormalizeSenderKey platform r in
  fresh_keys platform byKey (r :: raw) =
  if decide (key <> "" /\ byKey !! key = None) then key :: fresh_keys platform byKey raw
  else fresh_keys platform byKey raw.
Proof. unfold fresh_keys. simpl. rewrite filter_cons. by case_decide. Qed.

(** [byKey] is [byKey0] with [keys] for the contact under way. *)
Record under_way (contacts : list Contact) (byKey0 byKey : gmap string nat) (keys : list string) : Prop := {
  uw_lookup : forall k, byKey !! k = if decide (k ∈ keys) then Some (length contacts) else byKey0 !! k;
  uw_fresh : forall k, k ∈ keys -> byKey0 !! k = None;
  uw_nodup : NoDup keys
}.

Lemma keysLoop_spec platform id contacts byKey0 byKey keys raw problems :
  indexed contacts byKey0 -> under_way contacts byKey0 byKey keys ->
  match keysLoop platform id contacts byKey keys raw problems with
  | None => ~ NoDup (keys ++ fresh_keys platform byKey0 raw)
  | Some (byKey', keys', _) => keys' = keys ++ fresh_keys platform byKey0 raw /\ under_way contacts byKey0 byKey' keys'
  end.
Proof.
  intros Hix. revert byKey keys problems. induction raw as [|r raw IH]; intros byKey keys problems Huw; simpl.
  { unfold fresh_keys. simpl. by rewrite app_nil_r. }
  rewrite fresh_keys_cons. set (key := NormalizeSenderKey platform r).
  case_decide as He.
  { rewrite decide_False by tauto. by apply IH. }
  rewrite (uw_lookup _ _ _ _ Huw key). case_decide as Hin.
  - rewrite lookup_ge_None_2 by done.
    rewrite decide_True by (split; [done|]; by apply (uw_fresh _ _ _ _ Huw)).
    intros (_ & Hd & _)%NoDup_app. apply (Hd key Hin). left.
  - destruct (byKey0 !! key) as [owner|] eqn:Eb.
    + rewrite decide_False by (intros [_ ?]; congruence).
      apply Hix in Eb as (c & -> & _). by apply IH.
    + rewrite decide_True by done.
      rewrite (cons_middle key keys (fresh_keys platform byKey0 raw)), (app_assoc keys [key]).
      apply IH. destruct Huw as [Hl Hf Hnd]. split.
      * intros k. destruct (decide (k = key)) as [->|Hk].
        { rewrite lookup_insert_eq, decide_True; [done|]. apply elem_of_app. right. by apply list_elem_of_singleton. }
        rewrite lookup_insert_ne, Hl by done. apply decide_ext. rewrite elem_of_app, list_elem_of_singleton. tauto.
      * intros k [Hk|Hk]%elem_of_app; [auto|]. by apply list_elem_of_singleton in Hk as ->.
      * apply NoDup_app. split_and!; [done| |apply NoDup_singleton].
        intros k Hk Hs. apply list_elem_of_singleton in Hs as ->. done.
Qed.

Lemma under_way_start contacts byKey : under_way contacts byKey byKey [].
Proof.
  split; [|by intros k ?%elem_of_nil|constructor]. intros k. rewrite decide_False; [done|]. by intros ?%elem_of_nil.
Qed.

Lemma under_way_indexed contacts byKey0 byKey keys id name org :
  indexed contacts byKey0 -> under_way contacts byKey0 byKey keys ->
  indexed (contacts ++ [mkContact id name org keys]) byKey.
Proof.
  intros Hix [Hl Hf _] key i. rewrite Hl. case_decide as Hk.
  - split.
    + intros [= <-]. eexists. split; [by apply list_lookup_middle|done].
    + intros (c & [Hc|[Hge Hc]]%lookup_app_Some & Hkc).
      * apply Hf in Hk. exfalso. assert (byKey0 !! key = Some i) by (apply Hix; eauto). congruence.
      * f_equal. apply list_lookup_singleton_Some in Hc as [? _]. lia.
  - rewrite (Hix key i). split.
    + intros (c & Hc & Hkc). exists c. split; [by apply lookup_app_l_Some|done].
    + intros (c & [Hc|[Hge Hc]]%lookup_app_Some & Hkc); [eauto|].
      apply list_lookup_singleton_Some in Hc as [_ <-]. done.
Qed.

Lemma contactsLoop_indexed platform i entries seen index problems out problems' :
  indexed (ci_contacts index) (ci_byKey index) ->
  contactsLoop platform i entries seen index problems = Some (out, problems') ->
  indexed (ci_contacts out) (ci_byKey out).
Proof.
  revert i seen index problems. induction entries as [|e entries IH]; intros i seen index problems Hix; simpl.
  { by intros [= <- _]. }
  case_decide; [by apply IH|]. destruct (seen !! _); [by apply IH|].
  pose proof (keysLoop_spec platform (TrimSpace (co_ID e)) _ _ _ [] (co_Keys e) problems Hix (under_way_start _ _)) as Hk.
  destruct (keysLoop _ _ _ _ _ _ _) as [[[byKey keys] ps]|]; [|done]. destruct Hk as [_ Huw].
  case_decide as Hkeys; apply IH; simpl; [|by eapply under_way_indexed].
  subst keys. intros key j. rewrite (uw_lookup _ _ _ _ Huw key), decide_False by (by intros ?%elem_of_nil). apply Hix.
Qed.

(** The contact index.  When the contacts load, a key leads to a contact exactly
    when that contact lists it, so each key belongs to one contact.  But they do
    not always load: if the first contact gives one number in two notations, the
    report of the clash looks up a contact that is not in the index yet, and the
    loader panics. *)
Theorem contacts_index (fs : Files) (cfg : ContactsConfig) (opts : Options) :
  (forall index problems, loadContacts fs cfg opts = Some (index, problems) ->
     forall key c, LookupContact (Some index) key = Some c <->
       c ∈ ci_contacts index /\ key ∈ co_Keys c) /\
  (forall entry entries, TrimSpace (cc_Path cfg) = "" -> cc_Entries cfg = entry :: entries ->
     TrimSpace (co_ID entry) <> "" -> ~ NoDup (fresh_keys (op_Platform opts) ∅ (co_Keys entry)) ->
     loadContacts fs cfg opts = None).
Proof.
  assert (indexed [] ∅) as H0.
  { intros key i. rewrite lookup_empty. split; [done|]. by intros (c & Hc & _). }
  split.
  - intros index problems Hl key c. unfold loadContacts in Hl.
    destruct (if decide (TrimSpace (cc_Path cfg) = "") then _ else _) as [fromFile ps].
    apply contactsLoop_indexed in Hl; [|exact H0]. unfold LookupContact. split.
    + destruct (ci_byKey index !! key) as [i|] eqn:E; [|done]. intros Hc.
      apply Hl in E as (c' & Hc' & Hk). rewrite Hc in Hc'. injection Hc' as <-.
      split; [by eapply list_elem_of_lookup_2|done].
    + intros [[i Hi]%list_elem_of_lookup Hk]. by rewrite (proj2 (Hl key i)) by eauto.
  - intros entry entries Hp He Hid Hnd. unfold loadContacts. rewrite decide_True by done. rewrite He. simpl.
    rewrite decide_False by done. rewrite lookup_empty.
    pose proof (keysLoop_spec (op_Platform opts) (TrimSpace (co_ID entry)) [] ∅ ∅ [] (co_Keys entry) [] H0
                  (under_way_start _ _)) as Hk.
    destruct (keysLoop _ _ _ _ _ _ _) as [[[byKey keys] ps]|]; [|done].
    destruct Hk as [-> Huw]. destruct Hnd. apply (uw_nodup _ _ _ _ Huw).
Qed.

(** ** What a route matches *)

Definition accepts (cr : compiledRoute) (value : string) : Prop :=
  if cr_glob cr then exists cs, parsePattern (cr_pattern cr) = Some cs /\ denotes cs (chars value)
  else value = cr_pattern cr.

Lemma matchPattern_accepts cr value :
  route_ok cr -> slash ∉ chars value ->
  matchPattern (cr_pattern cr) (cr_glob cr) value = true <-> accepts cr value.
Proof.
  intros (_ & _ & _ & Hg) Hs. unfold matchPattern, accepts. destruct (cr_glob cr).
  - destruct (Hg eq_refl) as [cs Hcs].
    assert (Match (cr_pattern cr) value = Ok true <-> denotes cs (chars value)) as Hm.
    { apply Match_denotes; [done|by right]. }
    split.
    + intros H. exists cs. split; [done|]. apply Hm. destruct (Match _ _); congruence.
    + intros (cs' & Hcs' & Hd). rewrite Hcs in Hcs'. injection Hcs' as <-. apply Hm in Hd. by rewrite Hd.
  - rewrite bool_decide_eq_true. done.
Qed.

(** What the routes of a loaded table match.  For a sender key, contact id and
    organization without '/': the fail-safe route matches every sender; a sender
    route one whose key is its pattern, or lies in the meaning of its glob; an
    organization or contact route one whose contact's folded organization (which
    must not be empty) or id does. *)
Theorem route_meaning (fs : Files) (cfg : option Config) (opts : Options) (t : Table) (cr : compiledRoute)
    (Hload : Load fs cfg opts = Some (Ok t)) (Hcr : cr ∈ tb_routes t) (key : string) (contact : option Contact)
    (Hkey : slash ∉ chars key)
    (Hc : forall c, contact = Some c -> (slash ∉ chars (ToLower (co_Org c))) /\ (slash ∉ chars (ToLower (co_ID c)))) :
  compiledRoute_matches cr key contact = true <->
  match cr_kind cr with
  | kindTerminal => True
  | kindSender => key <> "" /\ accepts cr key
  | kindOrg => exists c, contact = Some c /\ co_Org c <> "" /\ accepts cr (ToLower (co_Org c))
  | kindContact => exists c, contact = Some c /\ accepts cr (ToLower (co_ID c))
  end.
Proof.
  destruct (Load_ok _ _ _ _ Hload) as [Hok _ _]. rewrite Forall_forall in Hok. specialize (Hok cr Hcr).
  unfold compiledRoute_matches. destruct (cr_kind cr).
  - case_decide as Hk; [by split; [|intros [? _]]|]. rewrite matchPattern_accepts by done. tauto.
  - destruct contact as [c|]; [|split; [done|by intros (c & ? & _)]]. destruct (Hc c eq_refl) as [Ho _].
    case_decide as Hk; [split; [done|intros (c' & [= <-] & ? & _); done]|].
    rewrite matchPattern_accepts by done. split; [eauto|]. by intros (c' & [= <-] & _ & ?).
  - destruct contact as [c|]; [|split; [done|by intros (c & ? & _)]]. destruct (Hc c eq_refl) as [_ Hi].
    rewrite matchPattern_accepts by done. split; [eauto|]. by intros (c' & [= <-] & ?).
  - done.
Qed.

(** ** Witnesses *)

Definition no_files : Files := mkFiles (fun _ => None) (fun _ _ => None).
Definition sample_options : Options := mkOptions "whatsapp" "assistant".
Definition sample_config : Config :=
  mkConfig "" (Some (mkContacts "" None [mkContact "jane" "Jane" "Acme" ["whatsapp:+1 555 123"; "jane@acme.com"]]))
    [mkRoute "org:ac*" "sales" "inbox"; mkRoute "+1600*" "" "support"; mkRoute "unknown" "triage" "queue"].

Definition sample_table : Table :=
  match Load no_files (Some sample_config) sample_options with
  | Some (Ok t) => t
  | _ => mkTable "" "" [] None
  end.

Lemma every_sender_routed_witness :
  HasTerminal (Some sample_table) = true /\ Mapping (Resolve (Some sample_table) "1555123") = "sales=inbox" /\
  Mapping (Resolve (Some sample_table) "whatsapp:+16009") = "assistant=support".
Proof.
  assert (Load no_files (Some sample_config) sample_options = Some (Ok sample_table)) as Hl by (vm_compute; reflexivity).
  destruct (every_sender_routed no_files (Some sample_config) sample_options sample_table Hl "1555123") as [Ht _].
  split; [exact Ht|]. split; vm_compute; reflexivity.
Defined.

Lemma route_meaning_witness :
  compiledRoute_matches (mkCompiled (mkRoute "+1600*" "assistant" "support") kindSender "+1600*" true) "+16009" None = true.
Proof.
  apply (route_meaning no_files (Some sample_config) sample_options sample_table).
  - vm_compute; reflexivity.
  - apply list_elem_of_lookup. exists 1%nat. vm_compute; reflexivity.
  - by apply (bool_decide_eq_true_1 _).
  - done.
  - split; [done|]. eexists. split; [vm_compute; reflexivity|].
    exists [], (chars "+1600"), (chars "9"). split_and!; [done|done|repeat constructor|].
    exists (chars "9"), [], []. split_and!; [done|by apply (bool_decide_eq_true_1 _)|constructor|done].
Defined.

(** One number in two notations: loading the contacts panics. *)
Lemma contacts_index_witness :
  loadContacts no_files (mkContacts "" None [mkContact "jane" "" "" ["+1 555 123"; "whatsapp:+1555123"]]) sample_options
  = None.
Proof.
  eapply (proj2 (contacts_index no_files
            (mkContacts "" None [mkContact "jane" "" "" ["+1 555 123"; "whatsapp:+1555123"]]) sample_options));
    [reflexivity|reflexivity|done|].
  assert (fresh_keys (op_Platform sample_options) ∅ ["+1 555 123"; "whatsapp:+1555123"] = ["+1555123"; "+1555123"])
    as E by (vm_compute; reflexivity).
  cbn [co_Keys]. rewrite E. intros [Hn _]%NoDup_cons. apply Hn. left.
Defined.
