(* ===== verification/Kv.v ===== *)
(** * The key-value tables of hop.top/kit

    The session registry (src/internal/core/session/kvstore.go) and the registry of
    mobile adapters (src/internal/core/adapter/mobile/registry.go) keep their rows in
    a table of kit/storage/kv, which is third-party code: a class with its documented
    contract as laws.  A row holds the value its JSON unmarshals to, or nothing when it
    does not.  Here are the steps the two registries share: reading, writing and
    listing rows, and importing the rows of an older file. *)

From Stdlib Require Import ZArith Lia String Ascii.
From stdpp Require Import base option list gmap strings fin_maps.
From S2P Require Import Prelude Text.

Abbreviation Table V := (gmap string (option V)).

Inductive KvErr : Type := ErrKv.

(** kv.Store: [kv_List] returns the keys that start with a prefix. *)
Class KvStore (V : Type) : Type := {
  kv_Get : Table V -> string -> Res KvErr (option (option V));
  kv_Put : Table V -> string -> option V -> Table V * Res KvErr unit;
  kv_Delete : Table V -> string -> Table V * Res KvErr unit;
  kv_List : Table V -> string -> Res KvErr (list string)
}.

Class KvLaws {V : Type} (K : KvStore V) : Prop := {
  get_ok m k r : kv_Get m k = Ok r -> r = m !! k;
  put_ok m k v m' : kv_Put m k v = (m', Ok tt) -> m' = <[k := v]> m;
  put_err m k v m' e : kv_Put m k v = (m', Err e) -> m' = m;
  delete_ok m k m' : kv_Delete m k = (m', Ok tt) -> m' = delete k m;
  delete_err m k m' e : kv_Delete m k = (m', Err e) -> m' = m;
  list_ok m p ks : kv_List m p = Ok ks -> NoDup ks /\ forall k, k ∈ ks <-> is_Some (m !! k) /\ HasPrefix k p = true
}.

(** What can go wrong with a row. *)
Inductive RowErr : Type := ErrStoreOp | ErrUnmarshal.

Section rows.
Context {V : Type} `{K : KvStore V}.

Definition putRow (m : Table V) (k : string) (v : V) : Table V * Res RowErr unit :=
  match kv_Put m k (Some v) with
  | (m', Ok _) => (m', Ok tt)
  | (m', Err _) => (m', Err ErrStoreOp)
  end.

Definition getRow (m : Table V) (k : string) : Res RowErr (option V) :=
  match kv_Get m k with
  | Err _ => Err ErrStoreOp
  | Ok None => Ok None
  | Ok (Some None) => Err ErrUnmarshal
  | Ok (Some (Some v)) => Ok (Some v)
  end.

Definition deleteRow (m : Table V) (k : string) : Table V * Res RowErr unit :=
  match kv_Delete m k with
  | (m', Ok _) => (m', Ok tt)
  | (m', Err _) => (m', Err ErrStoreOp)
  end.

(** A key that has gone since the keys were listed is passed over. *)
Fixpoint rowLoop (m : Table V) (keys : list string) : Res RowErr (list V) :=
  match keys with
  | [] => Ok []
  | k :: keys =>
      match getRow m k with
      | Err e => Err e
      | Ok None => rowLoop m keys
      | Ok (Some v) => match rowLoop m keys with Err e => Err e | Ok out => Ok (v :: out) end
      end
  end.

Definition listRows (m : Table V) (prefix : string) : Res RowErr (list V) :=
  match kv_List m prefix with
  | Err _ => Err ErrStoreOp
  | Ok keys => rowLoop m keys
  end.

(** The rows that the table lacks are added, in order. *)
Fixpoint importRows (m : Table V) (rows : list (string * V)) : Table V * Res RowErr unit :=
  match rows with
  | [] => (m, Ok tt)
  | (k, v) :: rows =>
      match kv_Get m k with
      | Err _ => (m, Err ErrStoreOp)
      | Ok (Some _) => importRows m rows
      | Ok None =>
          match putRow m k v with
          | (m', Err e) => (m', Err e)
          | (m', Ok _) => importRows m' rows
          end
      end
  end.

(** Every row that unmarshals is under its own key. *)
Definition keyed (key : V -> string) (m : Table V) : Prop := forall k v, m !! k = Some (Some v) -> k = key v.

(** The values a listing under [prefix] is made of. *)
Definition rows_under (prefix : string) (m : Table V) : list V :=
  omap snd (filter (fun kr => HasPrefix kr.1 prefix = true) (map_to_list m)).

Lemma keyed_insert key m v : keyed key m -> keyed key (<[key v := Some v]> m).
Proof. intros Hk k v'. rewrite lookup_insert_Some. intros [[<- [= <-]]|[_ H]]; [done|by apply Hk]. Qed.

Lemma keyed_delete key m k : keyed key m -> keyed key (delete k m).
Proof. intros Hk k' v. rewrite lookup_delete_Some. intros [_ H]. by apply Hk. Qed.

Context {L : KvLaws K}.

Lemma putRow_cases m k v : (putRow m k v).1 = m \/ (putRow m k v).1 = <[k := Some v]> m.
Proof.
  unfold putRow. destruct (kv_Put _ _ _) as [m' [[]|e]] eqn:E; simpl.
  - right. by apply put_ok in E.
  - left. by eapply put_err.
Qed.

Lemma putRow_Ok m k v m' : putRow m k v = (m', Ok tt) -> m' = <[k := Some v]> m.
Proof.
  unfold putRow. destruct (kv_Put _ _ _) as [m1 [[]|e]] eqn:E; [|done]. intros [= <-]. by apply put_ok in E.
Qed.

Lemma putRow_Err m k v m' e : putRow m k v = (m', Err e) -> m' = m.
Proof.
  unfold putRow. destruct (kv_Put _ _ _) as [m1 [[]|e']] eqn:E; [done|]. intros [= <- _]. by apply put_err in E.
Qed.

Lemma deleteRow_cases m k : (deleteRow m k).1 = m \/ (deleteRow m k).1 = delete k m.
Proof.
  unfold deleteRow. destruct (kv_Delete _ _) as [m' [[]|e]] eqn:E; simpl.
  - right. by apply delete_ok in E.
  - left. by eapply delete_err.
Qed.

Lemma deleteRow_Ok m k m' : deleteRow m k = (m', Ok tt) -> m' = delete k m.
Proof.
  unfold deleteRow. destruct (kv_Delete _ _) as [m1 [[]|e]] eqn:E; [|done]. intros [= <-]. by apply delete_ok in E.
Qed.

Lemma getRow_Ok m k r :
  getRow m k = Ok r -> match r with Some v => m !! k = Some (Some v) | None => m !! k = None end.
Proof.
  unfold getRow. destruct (kv_Get m k) as [[[v|]|]|e] eqn:E; try done; apply get_ok in E; intros [= <-]; done.
Qed.

Lemma rowLoop_Ok m keys l :
  rowLoop m keys = Ok l -> l = omap (fun k => mjoin (m !! k)) keys /\ forall k, k ∈ keys -> m !! k <> Some None.
Proof.
  revert l. induction keys as [|k keys IH]; intros l; simpl.
  { intros [= <-]. split; [done|]. by intros k ?%elem_of_nil. }
  destruct (getRow m k) as [[v|]|] eqn:Eg; [| |done]; apply getRow_Ok in Eg; setoid_rewrite elem_of_cons.
  - destruct (rowLoop m keys) as [out|]; [|done]. intros [= <-]. destruct (IH _ eq_refl) as [-> Hk].
    rewrite Eg. simpl. split; [done|]. intros k' [->|?]; [congruence|by apply Hk].
  - intros Hl. destruct (IH _ Hl) as [-> Hk]. rewrite Eg. simpl. split; [done|].
    intros k' [->|?]; [congruence|by apply Hk].
Qed.

(** A listing returns every row under the prefix once, in some order. *)
Lemma listRows_Ok m prefix l :
  listRows m prefix = Ok l ->
  l ≡ₚ rows_under prefix m /\ forall k, HasPrefix k prefix = true -> m !! k <> Some None.
Proof.
  unfold listRows. destruct (kv_List m prefix) as [keys|] eqn:El; [|done]. apply list_ok in El as [Hnd Hk].
  intros [-> Hn]%rowLoop_Ok. split.
  - unfold rows_under.
    assert (keys ≡ₚ (filter (fun kr => HasPrefix kr.1 prefix = true) (map_to_list m)).*1) as ->.
    { apply NoDup_Permutation; [done| |].
      - apply (sublist_NoDup _ (map_to_list m).*1); [apply NoDup_fst_map_to_list|apply fmap_sublist, sublist_filter].
      - intros k. rewrite Hk, list_elem_of_fmap. split.
        + intros [[r Hr] Hp]. exists (k, r). by rewrite list_elem_of_filter, elem_of_map_to_list.
        + intros ([k' r] & -> & [Hp Hr%elem_of_map_to_list]%list_elem_of_filter). eauto. }
    erewrite list_omap_ext; [done|]. apply Forall2_fmap_l, Forall_Forall2_diag, Forall_forall.
    intros [k r] [_ Hr%elem_of_map_to_list]%list_elem_of_filter. simpl. by rewrite Hr.
  - intros k Hp Hm. apply (Hn k); [|done]. apply Hk. eauto.
Qed.

Lemma elem_of_rows_under prefix m v :
  v ∈ rows_under prefix m <-> exists k, m !! k = Some (Some v) /\ HasPrefix k prefix = true.
Proof.
  unfold rows_under. rewrite list_elem_of_omap. split.
  - intros ([k r] & [Hp Hk%elem_of_map_to_list]%list_elem_of_filter & E). simpl in *. subst. eauto.
  - intros (k & Hk & Hp). exists (k, Some v). by rewrite list_elem_of_filter, elem_of_map_to_list.
Qed.

(** One row that does not unmarshal fails the listing. *)
Lemma listRows_corrupt m prefix k :
  m !! k = Some None -> HasPrefix k prefix = true -> exists e, listRows m prefix = Err e.
Proof.
  intros Hm Hp. destruct (listRows m prefix) as [l|e] eqn:E; [|eauto]. by apply listRows_Ok in E as [_ ?%(fun H => H k Hp)].
Qed.

Lemma union_insert_present {A} (m X : gmap string A) k r x : m !! k = Some r -> m ∪ <[k := x]> X = m ∪ X.
Proof.
  intros Hk. apply map_eq. intros i. rewrite !lookup_union. destruct (decide (i = k)) as [->|Hne].
  - by rewrite Hk, !union_Some_l.
  - by rewrite lookup_insert_ne.
Qed.

Lemma importRows_bounds rows m :
  m ⊆ (importRows m rows).1 /\ (importRows m rows).1 ⊆ m ∪ (Some <$> list_to_map rows).
Proof.
  revert m. induction rows as [|[k v] rows IH]; intros m; simpl.
  { split; [done|]. apply map_union_subseteq_l. }
  assert (m ∪ (Some <$> <[k := v]> (list_to_map rows)) = m ∪ <[k := Some v]> (Some <$> list_to_map rows)) as ->
    by (by rewrite fmap_insert).
  destruct (kv_Get m k) as [[r|]|] eqn:Eg; simpl.
  - apply get_ok in Eg. destruct (IH m) as [H1 H2]. split; [done|].
    by rewrite (union_insert_present _ _ _ r) by done.
  - apply get_ok in Eg. destruct (putRow m k v) as [m1 [[]|e]] eqn:Ep; simpl.
    + apply putRow_Ok in Ep as ->. destruct (IH (<[k := Some v]> m)) as [H1 H2]. split.
      * etrans; [|exact H1]. by apply insert_subseteq.
      * rewrite <- insert_union_l in H2. by rewrite <- insert_union_r by done.
    + apply putRow_Err in Ep as ->. split; [done|apply map_union_subseteq_l].
  - split; [done|apply map_union_subseteq_l].
Qed.

(** An import that succeeds leaves the rows that were there and adds the others, the
    first of those with one key. *)
Lemma importRows_Ok rows m m' :
  importRows m rows = (m', Ok tt) -> m' = m ∪ (Some <$> list_to_map rows).
Proof.
  revert m. induction rows as [|[k v] rows IH]; intros m; simpl.
  { intros [= <-]. by rewrite fmap_empty, (right_id_L ∅ (∪)). }
  rewrite fmap_insert. destruct (kv_Get m k) as [[r|]|] eqn:Eg; [| |done]; apply get_ok in Eg.
  - intros ->%IH. by rewrite (union_insert_present _ _ _ r) by done.
  - destruct (putRow m k v) as [m1 [[]|e]] eqn:Ep; [|done]. apply putRow_Ok in Ep as ->. intros ->%IH.
    by rewrite <- insert_union_l, <- insert_union_r.
Qed.

Lemma importRows_again rows m m' r :
  importRows (m ∪ (Some <$> list_to_map rows)) rows = (m', r) -> m' = m ∪ (Some <$> list_to_map rows).
Proof.
  intros E. pose proof (importRows_bounds rows (m ∪ (Some <$> list_to_map rows))) as [H1 H2]. rewrite E in H1, H2. simpl in *.
  apply (anti_symm (⊆)); [|done]. by rewrite <- (assoc_L (∪)), (idemp_L (∪)) in H2.
Qed.

End rows.

(** ** An instance: a table that never fails *)

Definition plain_kv {V : Type} : KvStore V := {|
  kv_Get m k := Ok (m !! k);
  kv_Put m k v := (<[k := v]> m, Ok tt);
  kv_Delete m k := (delete k m, Ok tt);
  kv_List m p := Ok (filter (fun k => HasPrefix k p = true) (map_to_list m).*1)
|}.

#[export] Instance plain_kv_laws {V : Type} : KvLaws (plain_kv (V := V)).
Proof.
  split; simpl; intros; simplify_eq; try done. split; [apply NoDup_filter, NoDup_fst_map_to_list|].
  intros k. rewrite list_elem_of_filter, list_elem_of_fmap. split.
  - intros (Hp & [k' v] & -> & Hk%elem_of_map_to_list). eauto.
  - intros [[v Hv] Hp]. split; [done|]. exists (k, v). by rewrite elem_of_map_to_list.
Qed.
