(* ===== verification/SessionRegistry.v ===== *)
(** * The registry of runtime sessions (src/internal/core/session: registry.go,
      kvstore.go, types.go)

    Sessions are rows of a key-value table ([Kv]).  The state machine
    (kit/runtime/domain) is third-party code: a parameter with its documented
    contract as a law.  The events an operation publishes are part of its
    result. *)

From Stdlib Require Import ZArith Lia String Ascii.
From stdpp Require Import base option list gmap strings fin_maps.
From S2P Require Import Prelude Text Events Kv.

Open Scope Z_scope.

Abbreviation SessionStatus := string.
Definition SessionActive : SessionStatus := "active".
Definition SessionInactive : SessionStatus := "inactive".
Definition SessionErrored : SessionStatus := "errored".

Definition DefaultTimeout : Z := 30 * Minute.
Definition ReaperTickInterval : Z := 5 * Minute.

Record SessionInfo : Type := mkSession {
  si_ID : string;
  si_ProfileID : string;
  si_ProfileDir : string;
  si_Command : string;
  si_PID : Z;
  si_Status : SessionStatus;
  si_Tier : string;
  si_Type : string;
  si_TmuxSocket : string;
  si_TmuxSession : string;
  si_ContainerID : string;
  si_CreatedAt : Z;
  si_LastSeenAt : Z;
  si_Environment : gmap string string;
  si_WorkspaceID : string
}.

Definition set_times (s : SessionInfo) (created seen : Z) : SessionInfo :=
  mkSession (si_ID s) (si_ProfileID s) (si_ProfileDir s) (si_Command s) (si_PID s) (si_Status s) (si_Tier s) (si_Type s)
    (si_TmuxSocket s) (si_TmuxSession s) (si_ContainerID s) created seen (si_Environment s) (si_WorkspaceID s).

Definition set_status (s : SessionInfo) (status : SessionStatus) : SessionInfo :=
  mkSession (si_ID s) (si_ProfileID s) (si_ProfileDir s) (si_Command s) (si_PID s) status (si_Tier s) (si_Type s)
    (si_TmuxSocket s) (si_TmuxSession s) (si_ContainerID s) (si_CreatedAt s) (si_LastSeenAt s) (si_Environment s)
    (si_WorkspaceID s).

Definition set_environment (s : SessionInfo) (env : gmap string string) : SessionInfo :=
  mkSession (si_ID s) (si_ProfileID s) (si_ProfileDir s) (si_Command s) (si_PID s) (si_Status s) (si_Tier s) (si_Type s)
    (si_TmuxSocket s) (si_TmuxSession s) (si_ContainerID s) (si_CreatedAt s) (si_LastSeenAt s) env (si_WorkspaceID s).

(** ** Third-party parts *)

Abbreviation Rows := (Table SessionInfo).

(** domain.StateMachine: a transition is valid when its target is listed for its source. *)
Class StateMachine : Type := {
  Transition : gmap string (list string) -> string -> string -> bool;
  Transition_spec rules from to :
    Transition rules from to = true <-> exists allowed, rules !! from = Some allowed /\ to ∈ allowed
}.

Definition statusRules : gmap string (list string) :=
  <[ "" := [SessionActive; SessionInactive; SessionErrored] ]>
  (<[ SessionActive := [SessionInactive; SessionErrored] ]>
  (<[ SessionInactive := [SessionActive; SessionErrored] ]> {[ SessionErrored := [] ]})).

(** ** Rows *)

Definition sessionKeyPrefix : string := "session/".
Definition sessionKey (id : string) : string := sessionKeyPrefix +:+ id.

Inductive RegErr : Type :=
  | ErrRow (e : RowErr) | ErrExists (id : string) | ErrNotFound (id : string)
  | ErrTransition (id : string) (from to : SessionStatus).

Inductive SessionEvent : Type :=
  | SessionStarted (id profileID command : string) (pid : Z) (tier note : string)
  | SessionStopped (id profileID reason note : string).

Section registry.
Context `{K : KvStore SessionInfo, M : StateMachine}.

Definition kvPutSession (m : Rows) (info : SessionInfo) : Rows * Res RegErr unit :=
  match putRow m (sessionKey (si_ID info)) info with (m', r) => (m', map_err ErrRow r) end.

Definition kvGetSession (m : Rows) (id : string) : Res RegErr (option SessionInfo) :=
  map_err ErrRow (getRow m (sessionKey id)).

Definition kvDeleteSession (m : Rows) (id : string) : Rows * Res RegErr unit :=
  match deleteRow m (sessionKey id) with (m', r) => (m', map_err ErrRow r) end.

Definition kvListSessions (m : Rows) : Res RegErr (list SessionInfo) :=
  map_err ErrRow (listRows m sessionKeyPrefix).

(** ** Operations *)

Definition RegisterWithContext (now : Z) (note : string) (m : Rows) (session : SessionInfo)
  : Rows * Res RegErr unit * list SessionEvent :=
  match kvGetSession m (si_ID session) with
  | Err e => (m, Err e, [])
  | Ok (Some _) => (m, Err (ErrExists (si_ID session)), [])
  | Ok None =>
      let session := set_times session now now in
      match kvPutSession m session with
      | (m', Err e) => (m', Err e, [])
      | (m', Ok _) => (m', Ok tt, [SessionStarted (si_ID session) (si_ProfileID session) (si_Command session)
                                     (si_PID session) (si_Tier session) note])
      end
  end.

Definition UnregisterWithContext (note : string) (m : Rows) (id : string)
  : Rows * Res RegErr unit * list SessionEvent :=
  match kvGetSession m id with
  | Err e => (m, Err e, [])
  | Ok prev =>
      match kvDeleteSession m id with
      | (m', Err e) => (m', Err e, [])
      | (m', Ok _) => (m', Ok tt, match prev with
                                  | Some s => [SessionStopped id (si_ProfileID s) "unregister" note]
                                  | None => []
                                  end)
      end
  end.

Definition Registry_Get (m : Rows) (id : string) : Res RegErr SessionInfo :=
  match kvGetSession m id with
  | Err e => Err e
  | Ok None => Err (ErrNotFound id)
  | Ok (Some info) => Ok info
  end.

(** Errors are an empty listing. *)
Definition Registry_List (m : Rows) : list SessionInfo :=
  match kvListSessions m with Ok l => l | Err _ => [] end.

Definition ListByProfile (m : Rows) (profileID : string) : list SessionInfo :=
  filter (fun s => si_ProfileID s = profileID) (Registry_List m).
Definition ListByStatus (m : Rows) (status : SessionStatus) : list SessionInfo :=
  filter (fun s => si_Status s = status) (Registry_List m).
Definition ListByTier (m : Rows) (tier : string) : list SessionInfo :=
  filter (fun s => si_Tier s = tier) (Registry_List m).
Definition ListByType (m : Rows) (t : string) : list SessionInfo :=
  filter (fun s => si_Type s = t) (Registry_List m).

(** [true]: allowed. *)
Definition checkTransition (from to : SessionStatus) : bool :=
  if decide (from = to) then true else Transition statusRules from to.

(** The store is changed by [f] on the session of this id. *)
Definition updateSession (m : Rows) (id : string) (f : SessionInfo -> Res RegErr SessionInfo)
  : Rows * Res RegErr (SessionInfo * SessionInfo) :=
  match kvGetSession m id with
  | Err e => (m, Err e)
  | Ok None => (m, Err (ErrNotFound id))
  | Ok (Some session) =>
      match f session with
      | Err e => (m, Err e)
      | Ok session' =>
          match kvPutSession m session' with
          | (m', Err e) => (m', Err e)
          | (m', Ok _) => (m', Ok (session, session'))
          end
      end
  end.

Definition UpdateStatusWithContext (now : Z) (note : string) (m : Rows) (id : string) (status : SessionStatus)
  : Rows * Res RegErr unit * list SessionEvent :=
  match updateSession m id (fun s => if checkTransition (si_Status s) status
                                     then Ok (set_times (set_status s status) (si_CreatedAt s) now)
                                     else Err (ErrTransition id (si_Status s) status)) with
  | (m', Err e) => (m', Err e, [])
  | (m', Ok (prev, s)) =>
      (m', Ok tt,
       if decide (si_Status prev <> status /\ (status = SessionInactive \/ status = SessionErrored))
       then [SessionStopped id (si_ProfileID s) (if decide (status = SessionErrored) then "errored" else "inactive") note]
       else [])
  end.

Definition UpdateHeartbeat (now : Z) (m : Rows) (id : string) : Rows * Res RegErr unit :=
  match updateSession m id (fun s => Ok (set_times s (si_CreatedAt s) now)) with
  | (m', Err e) => (m', Err e)
  | (m', Ok _) => (m', Ok tt)
  end.

Definition UpdateSessionMetadata (now : Z) (m : Rows) (id : string) (metadata : gmap string string)
  : Rows * Res RegErr unit :=
  match updateSession m id (fun s => Ok (set_times (set_environment s (metadata ∪ si_Environment s)) (si_CreatedAt s) now)) with
  | (m', Err e) => (m', Err e)
  | (m', Ok _) => (m', Ok tt)
  end.

Definition stale (now timeout : Z) (s : SessionInfo) : bool :=
  bool_decide (si_Status s <> SessionErrored) && (timeout <? Sub now (si_LastSeenAt s)).

(** The deletions; on an error those already made stay made. *)
Fixpoint reapLoop (now timeout : Z) (m : Rows) (sessions : list SessionInfo)
  : Rows * Res RegErr (list SessionInfo) :=
  match sessions with
  | [] => (m, Ok [])
  | s :: sessions =>
      if stale now timeout s then
        match kvDeleteSession m (si_ID s) with
        | (m', Err e) => (m', Err e)
        | (m', Ok _) => match reapLoop now timeout m' sessions with
                        | (m'', Err e) => (m'', Err e)
                        | (m'', Ok expired) => (m'', Ok (s :: expired))
                        end
        end
      else reapLoop now timeout m sessions
  end.

Definition CleanupInactive (now : Z) (m : Rows) (timeout : Z)
  : Rows * Res RegErr (list string) * list SessionEvent :=
  match kvListSessions m with
  | Err e => (m, Err e, [])
  | Ok sessions =>
      match reapLoop now timeout m sessions with
      | (m', Err e) => (m', Err e, [])
      | (m', Ok expired) =>
          (m', Ok (map si_ID expired), map (fun s => SessionStopped (si_ID s) (si_ProfileID s) "expired" "") expired)
      end
  end.

(** ** Migration of the JSON registry of earlier releases

    [legacy]: the rows of the parsed file, in the order of the map's iteration;
    a JSON null is [None]. *)
Definition legacyRow (row : string * option SessionInfo) : option (string * SessionInfo) :=
  match row with (id, Some info) => Some (sessionKey id, info) | (_, None) => None end.

Definition migrateLoop (m : Rows) (legacy : list (string * option SessionInfo)) : Rows * Res RegErr unit :=
  match importRows m (omap legacyRow legacy) with (m', r) => (m', map_err ErrRow r) end.

(** The file left behind: archived or as it was.  An empty file is archived. *)
Definition migrateLegacyJSON (archives : bool) (m : Rows) (file : Doc (list (string * option SessionInfo)))
  : Rows * Doc (list (string * option SessionInfo)) * Res RegErr unit :=
  match file with
  | Missing => (m, file, Ok tt)
  | Unreadable => (m, file, Err (ErrRow ErrStoreOp))
  | Malformed => (m, file, Err (ErrRow ErrUnmarshal))
  | Parsed legacy =>
      match migrateLoop m legacy with
      | (m', Err e) => (m', file, Err e)
      | (m', Ok _) => if archives then (m', Missing, Ok tt) else (m', file, Err (ErrRow ErrStoreOp))
      end
  end.

End registry.

(** ** Invariant and runs *)

(** Every row that unmarshals is under the key of its id. *)
Abbreviation rows_ok := (keyed (fun s => sessionKey (si_ID s))).

Definition stored (m : Rows) (id : string) (s : SessionInfo) : Prop := m !! sessionKey id = Some (Some s).

Lemma sessionKey_inj a b : sessionKey a = sessionKey b -> a = b.
Proof. intros H. by apply (inj (String.append sessionKeyPrefix)) in H. Qed.

Lemma sessionKey_prefix id : HasPrefix (sessionKey id) sessionKeyPrefix = true.
Proof. apply HasPrefix_spec. by exists (chars id). Qed.

Inductive RegOp : Type :=
  | OpRegister (now : Z) (note : string) (session : SessionInfo)
  | OpUnregister (note id : string)
  | OpStatus (now : Z) (note id : string) (status : SessionStatus)
  | OpHeartbeat (now : Z) (id : string)
  | OpMetadata (now : Z) (id : string) (metadata : gmap string string)
  | OpCleanup (now timeout : Z).

Definition reg_exec `{KvStore SessionInfo, StateMachine} (m : Rows) (op : RegOp) : Rows :=
  match op with
  | OpRegister now note s => (RegisterWithContext now note m s).1.1
  | OpUnregister note id => (UnregisterWithContext note m id).1.1
  | OpStatus now note id status => (UpdateStatusWithContext now note m id status).1.1
  | OpHeartbeat now id => (UpdateHeartbeat now m id).1
  | OpMetadata now id metadata => (UpdateSessionMetadata now m id metadata).1
  | OpCleanup now timeout => (CleanupInactive now m timeout).1.1
  end.

Definition status_move (from to : SessionStatus) : Prop := exists allowed, statusRules !! from = Some allowed /\ to ∈ allowed.

Lemma errored_stuck to : ~ status_move SessionErrored to.
Proof. intros (allowed & [= <-] & H). by apply elem_of_nil in H. Qed.

(** A later version of a session: the same process, moved along the status rules. *)
Definition evolves (s s' : SessionInfo) : Prop :=
  si_ID s' = si_ID s /\ si_ProfileID s' = si_ProfileID s /\ si_Command s' = si_Command s /\ si_PID s' = si_PID s /\
  si_CreatedAt s' = si_CreatedAt s /\ rtc status_move (si_Status s) (si_Status s').

#[export] Instance evolves_refl : Reflexive evolves.
Proof. intros s. by split_and!. Qed.

#[export] Instance evolves_trans : Transitive evolves.
Proof.
  intros s1 s2 s3 (? & ? & ? & ? & ? & ?) (? & ? & ? & ? & ? & ?). unfold evolves. split_and!; [congruence..|by etrans].
Qed.

Lemma evolves_errored s s' : evolves s s' -> si_Status s = SessionErrored -> si_Status s' = SessionErrored.
Proof.
  intros (_ & _ & _ & _ & _ & H) He. rewrite He in H. apply rtc_inv in H as [<-|(st & H & _)]; [done|].
  by apply errored_stuck in H.
Qed.

Section laws.
Context `{K : KvStore SessionInfo} {L : KvLaws K} `{M : StateMachine}.

Lemma checkTransition_move from to : checkTransition from to = true -> rtc status_move from to.
Proof.
  unfold checkTransition. case_decide as He; [by subst|]. intros H%Transition_spec. by apply rtc_once.
Qed.

(** An operation changes nothing, or one row. *)
Lemma kvPut_cases m s : (kvPutSession m s).1 = m \/ (kvPutSession m s).1 = <[sessionKey (si_ID s) := Some s]> m.
Proof. unfold kvPutSession. pose proof (putRow_cases m (sessionKey (si_ID s)) s). by destruct (putRow _ _ _). Qed.

Lemma kvDelete_cases m id : (kvDeleteSession m id).1 = m \/ (kvDeleteSession m id).1 = delete (sessionKey id) m.
Proof. unfold kvDeleteSession. pose proof (deleteRow_cases m (sessionKey id)). by destruct (deleteRow _ _). Qed.

Lemma kvDelete_Ok m id m' : kvDeleteSession m id = (m', Ok tt) -> m' = delete (sessionKey id) m.
Proof.
  unfold kvDeleteSession. destruct (deleteRow m (sessionKey id)) as [m1 [[]|e]] eqn:E; [|done]. intros [= <-].
  by apply deleteRow_Ok in E.
Qed.

Lemma kvGet_Ok m id r :
  kvGetSession m id = Ok r -> match r with Some s => stored m id s | None => m !! sessionKey id = None end.
Proof. unfold kvGetSession. destruct (getRow _ _) as [v|] eqn:E; [|done]. intros [= <-]. by apply getRow_Ok in E. Qed.

(** How the store may change on one id: [f] says what the operation may do to it. *)
Definition changes (m m' : Rows) (f : string -> SessionInfo -> option SessionInfo -> Prop) : Prop :=
  rows_ok m' /\ forall id s, stored m id s ->
    (exists s', stored m' id s' /\ (s' = s \/ f id s (Some s'))) \/
    (m' !! sessionKey id = None /\ f id s None).

Lemma changes_same m f : rows_ok m -> changes m m f.
Proof. intros H. split; [done|]. intros id s Hs. left. eauto. Qed.

Lemma changes_insert m s0 s f :
  rows_ok m -> stored m (si_ID s) s0 -> f (si_ID s) s0 (Some s) ->
  changes m (<[sessionKey (si_ID s) := Some s]> m) f.
Proof.
  intros Hok H0 Hf. split.
  - by apply (keyed_insert (fun s => sessionKey (si_ID s))).
  - intros id s1 H1. left. unfold stored. destruct (decide (id = si_ID s)) as [->|Hne].
    + exists s. rewrite lookup_insert_eq. split; [done|]. right. unfold stored in H0, H1. congruence.
    + exists s1. rewrite lookup_insert_ne by (by intros ?%sessionKey_inj). auto.
Qed.

Lemma changes_add m s f :
  rows_ok m -> m !! sessionKey (si_ID s) = None -> changes m (<[sessionKey (si_ID s) := Some s]> m) f.
Proof.
  intros Hok H0. split.
  - by apply (keyed_insert (fun s => sessionKey (si_ID s))).
  - intros id s1 H1. left. exists s1. unfold stored in *. rewrite lookup_insert_ne; [auto|]. congruence.
Qed.

Lemma changes_delete m id f :
  rows_ok m -> (forall s, stored m id s -> f id s None) -> changes m (delete (sessionKey id) m) f.
Proof.
  intros Hok Hf. split.
  - by apply keyed_delete.
  - intros id' s H. destruct (decide (id' = id)) as [->|Hne].
    + right. rewrite lookup_delete_eq. auto.
    + left. exists s. unfold stored. rewrite lookup_delete_ne by (by intros ?%sessionKey_inj). auto.
Qed.

Lemma updateSession_changes m id g (f : string -> SessionInfo -> option SessionInfo -> Prop) :
  rows_ok m -> (forall s s', g s = Ok s' -> si_ID s' = si_ID s /\ f (si_ID s) s (Some s')) ->
  changes m (updateSession m id g).1 f.
Proof.
  intros Hok Hg. unfold updateSession. destruct (kvGetSession m id) as [[s|]|] eqn:Eg; try by apply changes_same.
  apply kvGet_Ok in Eg. destruct (g s) as [s'|] eqn:Es; [|by apply changes_same].
  destruct (Hg _ _ Es) as [Hid Hf]. assert (si_ID s = id) as Hsid by (symmetry; apply sessionKey_inj, Hok, Eg).
  assert (changes m (kvPutSession m s').1 f) as Hc.
  { destruct (kvPut_cases m s') as [->| ->]; [by apply changes_same|].
    apply changes_insert with (s0 := s); [done| |by rewrite Hid]. by rewrite Hid, Hsid. }
  by destruct (kvPutSession m s') as [? [[]|]].
Qed.

(** What an operation may do to a session. *)
Definition op_effect (op : RegOp) (id : string) (s : SessionInfo) (out : option SessionInfo) : Prop :=
  match out with
  | Some s' => evolves s s'
  | None => (exists note, op = OpUnregister note id) \/
            exists now timeout, op = OpCleanup now timeout /\ stale now timeout s = true
  end.

Lemma reapLoop_removes now timeout sessions m :
  forall k, (reapLoop now timeout m sessions).1 !! k = m !! k \/
    ((reapLoop now timeout m sessions).1 !! k = None /\
     exists s, s ∈ sessions /\ stale now timeout s = true /\ k = sessionKey (si_ID s)).
Proof.
  revert m. induction sessions as [|s sessions IH]; intros m k; simpl; [by left|].
  assert (forall m', (reapLoop now timeout m' sessions).1 !! k = m' !! k \/
    ((reapLoop now timeout m' sessions).1 !! k = None /\
     exists s', s' ∈ s :: sessions /\ stale now timeout s' = true /\ k = sessionKey (si_ID s'))) as IH'.
  { intros m'. destruct (IH m' k) as [?|(? & s' & ? & ?)]; [by left|right]. split; [done|]. exists s'. split; [by right|done]. }
  destruct (stale now timeout s) eqn:Es; [|apply IH'].
  assert ((kvDeleteSession m (si_ID s)).1 !! k = m !! k \/
    ((kvDeleteSession m (si_ID s)).1 !! k = None /\ k = sessionKey (si_ID s))) as Hd.
  { destruct (kvDelete_cases m (si_ID s)) as [->| ->]; [by left|].
    destruct (decide (k = sessionKey (si_ID s))) as [->|Hk]; [right; by rewrite lookup_delete_eq|left].
    by rewrite lookup_delete_ne. }
  assert (exists s', s' ∈ s :: sessions /\ stale now timeout s' = true /\ sessionKey (si_ID s) = sessionKey (si_ID s'))
    as Hs by (exists s; split; [left|done]).
  destruct (kvDeleteSession m (si_ID s)) as [m1 [[]|e]]; simpl in *.
  - specialize (IH' m1). destruct (reapLoop now timeout m1 sessions) as [m2 [l|e]]; simpl in *;
      (destruct Hd as [Hd|[Hd ->]]; [rewrite Hd in IH'; exact IH'|]);
      (right; split; [|done]; destruct IH' as [->|[-> _]]; done).
  - destruct Hd as [Hd|[Hd ->]]; [by left|right; by split].
Qed.

Lemma kvList_Ok m sessions s :
  kvListSessions m = Ok sessions ->
  s ∈ sessions <-> exists k, m !! k = Some (Some s) /\ HasPrefix k sessionKeyPrefix = true.
Proof.
  unfold kvListSessions. destruct (listRows _ _) as [l|] eqn:E; [|done]. intros [= <-]. apply listRows_Ok in E as [-> _].
  apply elem_of_rows_under.
Qed.

(** The store of an operation that goes through [updateSession]. *)
Ltac via_update :=
  match goal with |- changes ?m ?out ?f =>
    match out with context [updateSession m ?id ?g] =>
      assert (changes m (updateSession m id g).1 f);
        [apply updateSession_changes; [done|] | by destruct (updateSession m id g) as [? [[]|]]]
    end
  end.

Lemma reg_exec_changes m op : rows_ok m -> changes m (reg_exec m op) (op_effect op).
Proof.
  intros Hok. destruct op as [now note s|note id|now note id st|now id|now id md|now timeout]; simpl.
  - unfold RegisterWithContext. destruct (kvGetSession m (si_ID s)) as [[?|]|] eqn:Eg; try by apply changes_same.
    apply kvGet_Ok in Eg. assert (changes m (kvPutSession m (set_times s now now)).1 (op_effect (OpRegister now note s))) as Hc.
    { destruct (kvPut_cases m (set_times s now now)) as [->| ->]; [by apply changes_same|by apply changes_add]. }
    by destruct (kvPutSession m _) as [? [[]|]].
  - unfold UnregisterWithContext. destruct (kvGetSession m id) as [prev|]; [|by apply changes_same].
    assert (changes m (kvDeleteSession m id).1 (op_effect (OpUnregister note id))) as Hc.
    { destruct (kvDelete_cases m id) as [->| ->]; [by apply changes_same|]. apply changes_delete; [done|].
      intros s _. left. eauto. }
    by destruct (kvDeleteSession m id) as [? [[]|]].
  - unfold UpdateStatusWithContext.
    via_update. intros s s'. destruct (checkTransition _ _) eqn:Ec; [|done]. intros [= <-].
    split; [done|]. split_and!; try done. by apply checkTransition_move.
  - unfold UpdateHeartbeat.
    via_update. intros s s' [= <-]. split; [done|]. by split_and!.
  - unfold UpdateSessionMetadata.
    via_update. intros s s' [= <-]. split; [done|]. by split_and!.
  - unfold CleanupInactive. destruct (kvListSessions m) as [sessions|] eqn:El; [|by apply changes_same].
    pose proof (reapLoop_removes now timeout sessions m) as Hr.
    assert (changes m (reapLoop now timeout m sessions).1 (op_effect (OpCleanup now timeout))) as Hc;
      [|by destruct (reapLoop now timeout m sessions) as [? []]].
    split.
    + intros k s Hs. destruct (Hr k) as [E|[E _]]; rewrite E in Hs; [by apply Hok|done].
    + intros id s Hs. destruct (Hr (sessionKey id)) as [E|(E & s' & Hin & Hst & Hk)].
      * left. exists s. unfold stored. rewrite E. auto.
      * right. split; [done|]. right. exists now, timeout. split; [done|].
        apply (kvList_Ok m sessions s' El) in Hin as (k & Hkm & _). pose proof (Hok _ _ Hkm) as ->.
        rewrite <- Hk in Hkm. unfold stored in Hs. congruence.
Qed.

(** C40: the life of a session in the registry.  Under every run of the operations,
    whatever the table refuses: rows stay under the key of their id; one step
    leaves a session with its identity and moves its status only along the rules,
    or removes it, which only [Unregister] of its id and the sweep of a stale
    session that is not errored do; so a session that is errored stays, errored,
    until it is unregistered. *)
Theorem session_lifecycle (m : Rows) (ops : list RegOp) (Hok : rows_ok m) :
  rows_ok (foldl reg_exec m ops) /\
  (forall op id s, stored m id s ->
     (exists s', stored (reg_exec m op) id s' /\ evolves s s') \/
     (reg_exec m op !! sessionKey id = None /\ op_effect op id s None)) /\
  (forall id s, stored m id s -> si_Status s = SessionErrored -> (forall note, OpUnregister note id ∉ ops) ->
     exists s', stored (foldl reg_exec m ops) id s' /\ evolves s s' /\ si_Status s' = SessionErrored).
Proof.
  assert (forall m op, rows_ok m -> forall id s, stored m id s ->
     (exists s', stored (reg_exec m op) id s' /\ evolves s s') \/
     (reg_exec m op !! sessionKey id = None /\ op_effect op id s None)) as Hstep.
  { intros m0 op H0 id s Hs. destruct (reg_exec_changes m0 op H0) as [_ Hc].
    destruct (Hc id s Hs) as [(s' & Hs' & [->|He])|Hn]; [left; by exists s|left; by exists s'|by right]. }
  split_and!.
  - revert m Hok. induction ops as [|op ops IH]; intros m Hok; simpl; [done|]. apply IH, reg_exec_changes, Hok.
  - intros op. by apply Hstep.
  - revert m Hok. induction ops as [|op ops IH]; intros m Hok id s Hs He Hno; simpl; [by exists s|].
    destruct (Hstep m op Hok id s Hs) as [(s' & Hs' & Hev)|(_ & [(note & ->)|(now & timeout & _ & Hst)])].
    + assert (rows_ok (reg_exec m op)) as Hok' by apply reg_exec_changes, Hok.
      destruct (IH _ Hok' id s' Hs') as (s2 & H2 & Hev2 & He2); [by eapply evolves_errored| |].
      { intros note Hin. apply (Hno note). by right. }
      exists s2. split_and!; [done|by etrans|done].
    + destruct (Hno note). left.
    + unfold stale in Hst. rewrite bool_decide_false in Hst; [done|]. tauto.
Qed.

Lemma reapLoop_Ok now timeout sessions m m' expired :
  reapLoop now timeout m sessions = (m', Ok expired) ->
  expired = filter (fun s => stale now timeout s = true) sessions /\
  forall k, m' !! k = if decide (k ∈ map (fun s => sessionKey (si_ID s)) expired) then None else m !! k.
Proof.
  revert m m' expired. induction sessions as [|s sessions IH]; intros m m' expired; simpl.
  { intros [= <- <-]. split; [done|]. intros k. rewrite decide_False; [done|]. by intros ?%elem_of_nil. }
  destruct (stale now timeout s) eqn:Es.
  - rewrite filter_cons_True by done.
    destruct (kvDeleteSession m (si_ID s)) as [m1 [[]|e]] eqn:Ed; [|done]. apply kvDelete_Ok in Ed as ->.
    destruct (reapLoop now timeout _ sessions) as [m2 [l|e]] eqn:Er; [|done]. intros [= <- <-].
    apply IH in Er as [-> Hk]. split; [done|]. intros k. rewrite Hk. simpl.
    destruct (decide (k = sessionKey (si_ID s))) as [->|Hne].
    + rewrite lookup_delete_eq. rewrite (decide_True (P := _ ∈ _ :: _)) by left. by case_decide.
    + rewrite lookup_delete_ne by done. apply decide_ext. rewrite elem_of_cons. tauto.
  - rewrite filter_cons_False by congruence. by apply IH.
Qed.

Lemma kvList_corrupt m k :
  m !! k = Some None -> HasPrefix k sessionKeyPrefix = true -> exists e, kvListSessions m = Err e.
Proof. intros Hm Hp. unfold kvListSessions. destruct (listRows_corrupt m _ k Hm Hp) as [e ->]. by eexists. Qed.

(** The sweep.  When [CleanupInactive] succeeds it has removed exactly the
    sessions that are not errored and were last seen longer ago than the timeout,
    returned their ids and announced each as expired; every other session is as it
    was.  When it fails it announces nothing.  And one row that does not unmarshal
    is enough to make every sweep fail, removing nothing, and to make every listing
    empty. *)
Theorem sweep_exact (now timeout : Z) (m : Rows) (Hok : rows_ok m) :
  (forall m' ids events, CleanupInactive now m timeout = (m', Ok ids, events) ->
     (forall id, id ∈ ids <-> exists s, stored m id s /\ stale now timeout s = true) /\
     (forall id s, stored m' id s <-> stored m id s /\ stale now timeout s = false) /\
     (exists expired, ids = map si_ID expired /\
        events = map (fun s => SessionStopped (si_ID s) (si_ProfileID s) "expired" "") expired)) /\
  (forall m' e events, CleanupInactive now m timeout = (m', Err e, events) -> events = []) /\
  (forall k, m !! k = Some None -> HasPrefix k sessionKeyPrefix = true ->
     (exists e, CleanupInactive now m timeout = (m, Err e, [])) /\ Registry_List m = []).
Proof.
  split_and!.
  - unfold CleanupInactive. destruct (kvListSessions m) as [sessions|] eqn:El; [|done].
    destruct (reapLoop now timeout m sessions) as [m1 [expired|]] eqn:Er; [|done]. intros m' ids events [= <- <- <-].
    apply reapLoop_Ok in Er as [-> Hm']. set (expired := filter _ sessions) in *.
    assert (forall s, s ∈ expired <-> stored m (si_ID s) s /\ stale now timeout s = true) as Hexp.
    { intros s. unfold expired. rewrite list_elem_of_filter, (kvList_Ok m sessions s El). split.
      - intros (Hst & k & Hk & _). split; [|done]. unfold stored. by rewrite <- (Hok _ _ Hk).
      - intros [Hs Hst]. split; [done|]. exists (sessionKey (si_ID s)). split; [done|]. apply sessionKey_prefix. }
    assert (forall id s, stored m id s -> si_ID s = id) as Hid.
    { intros id s Hs. symmetry. by apply sessionKey_inj, Hok. }
    split_and!; [| |by eexists].
    + intros id. change (map si_ID) with (fmap (M := list) si_ID). rewrite list_elem_of_fmap. split.
      * intros (s & -> & Hs%Hexp). eauto.
      * intros (s & Hs & Hst). exists s. rewrite Hexp. pose proof (Hid _ _ Hs) as <-. done.
    + intros id s. unfold stored. rewrite Hm'.
      change (map (fun s => sessionKey (si_ID s))) with (fmap (M := list) (fun s => sessionKey (si_ID s))).
      case_decide as Hin.
      * apply list_elem_of_fmap in Hin as (s' & Hk & [Hs' Hst]%Hexp). split; [done|]. intros [Hs Hf].
        unfold stored in Hs'. rewrite <- Hk in Hs'. congruence.
      * split; [|tauto]. intros Hs. split; [done|]. apply not_true_iff_false. intros Hst. apply Hin, list_elem_of_fmap.
        pose proof (Hid _ _ Hs) as <-. exists s. split; [done|]. by apply Hexp.
  - unfold CleanupInactive. intros m' e events. destruct (kvListSessions m); [|by intros [= _ _ <-]].
    destruct (reapLoop _ _ _ _) as [? []]; [done|]. by intros [= _ _ <-].
  - intros k Hk Hp. destruct (kvList_corrupt m k Hk Hp) as [e He]. unfold CleanupInactive, Registry_List. rewrite He. eauto.
Qed.

Lemma migrateLoop_grows legacy m : m ⊆ (migrateLoop m legacy).1.
Proof.
  unfold migrateLoop. destruct (importRows_bounds (omap legacyRow legacy) m) as [H _]. by destruct (importRows _ _).
Qed.

Lemma migrateLoop_Ok legacy m m' :
  migrateLoop m legacy = (m', Ok tt) -> m' = m ∪ (Some <$> list_to_map (omap legacyRow legacy)).
Proof.
  unfold migrateLoop. destruct (importRows _ _) as [m1 [[]|e]] eqn:E; [|done]. intros [= <-]. by apply importRows_Ok.
Qed.

Lemma legacyRow_NoDup legacy : NoDup legacy.*1 -> NoDup (omap legacyRow legacy).*1.
Proof.
  induction legacy as [|[id [info|]] legacy IH]; simpl; [done| |]; intros [Hn Hnd]%NoDup_cons; [|auto].
  apply NoDup_cons. split; [|auto]. rewrite list_elem_of_fmap. intros ([k v] & E & Hin).
  apply list_elem_of_omap in Hin as ([id' [info'|]] & Hin & [= <- <-]). simpl in E. apply sessionKey_inj in E as ->.
  by apply Hn, (list_elem_of_fmap_2 fst _ _ Hin).
Qed.

Lemma migrateLoop_adds legacy m m' :
  NoDup legacy.*1 -> migrateLoop m legacy = (m', Ok tt) ->
  forall id info, (id, Some info) ∈ legacy -> m' !! sessionKey id = Some (default (Some info) (m !! sessionKey id)).
Proof.
  intros Hnd ->%migrateLoop_Ok id info Hin. rewrite lookup_union, lookup_fmap.
  erewrite (elem_of_list_to_map_1 _ (sessionKey id) info); [|by apply legacyRow_NoDup|].
  - by destruct (m !! sessionKey id).
  - apply list_elem_of_omap. by exists (id, Some info).
Qed.

(** Migrating the registry of earlier releases.  A migration that succeeds moves
    every legacy session that the table lacks and changes no row it has, so that
    running it again on the same file changes nothing; it then archives the file.
    One that fails leaves the file, and the rows it has moved. *)
Theorem migration_resumable (archives : bool) (m : Rows) (legacy : list (string * option SessionInfo))
    (Hnd : NoDup legacy.*1) (m' : Rows) (file' : Doc (list (string * option SessionInfo))) (r : Res RegErr unit)
    (Hm : migrateLegacyJSON archives m (Parsed legacy) = (m', file', r)) :
  m ⊆ m' /\
  (r = Ok tt -> file' = Missing /\
     forall id info, (id, Some info) ∈ legacy -> m !! sessionKey id = None -> m' !! sessionKey id = Some (Some info)) /\
  (r <> Ok tt -> file' = Parsed legacy) /\
  (r = Ok tt -> forall m2 r2, migrateLoop m' legacy = (m2, r2) -> m2 = m').
Proof.
  unfold migrateLegacyJSON in Hm. destruct (migrateLoop m legacy) as [m1 [[]|e]] eqn:El;
    pose proof (migrateLoop_grows legacy m) as Hg; rewrite El in Hg; simpl in Hg.
  - pose proof (migrateLoop_adds legacy m m1 Hnd El) as Ha.
    assert (m' = m1 /\ (r = Ok tt -> file' = Missing) /\ (r <> Ok tt -> file' = Parsed legacy)) as (-> & Hf1 & Hf2)
      by (destruct archives; by simplify_eq).
    split_and!; [done| |done|].
    + intros Hr. split; [auto|]. intros id info Hin Hn. by rewrite (Ha id info Hin), Hn.
    + intros _ m2 r2 H2. apply migrateLoop_Ok in El as ->. unfold migrateLoop in H2.
      destruct (importRows _ _) as [m3 r3] eqn:Ei. simplify_eq/=. by apply importRows_again in Ei.
  - simplify_eq. by split_and!.
Qed.

End laws.

(** ** Witnesses *)

(** The machine of the contract. *)
Definition listed_transition (rules : gmap string (list string)) (from to : string) : bool :=
  match rules !! from with Some allowed => bool_decide (to ∈ allowed) | None => false end.

Definition listed_machine : StateMachine.
Proof.
  refine {| Transition := listed_transition |}. intros rules from to. unfold listed_transition.
  destruct (rules !! from) as [l|]; [rewrite bool_decide_eq_true|]; split; try done; [by eauto|by intros (? & [= <-] & ?)|].
  by intros (? & ? & _).
Defined.

Definition sample_session (id status : string) (seen : Z) : SessionInfo :=
  mkSession id "p" "" "sh" 7 status "" "" "" "" "" 0 seen ∅ "".

Definition sample_rows : Rows :=
  {[ "session/a" := Some (sample_session "a" SessionErrored 0); "session/b" := Some (sample_session "b" SessionActive 0) ]}.

Lemma sample_rows_ok : rows_ok sample_rows.
Proof.
  intros k s. unfold sample_rows. rewrite lookup_insert_Some, lookup_singleton_Some.
  intros [[<- [= <-]]|[_ [<- [= <-]]]]; done.
Qed.

Lemma session_lifecycle_witness :
  exists s', stored (foldl (reg_exec (H := plain_kv) (H0 := listed_machine)) sample_rows
                       [OpCleanup (100 * Minute) DefaultTimeout; OpStatus 5 "" "a" SessionActive]) "a" s' /\
    si_Status s' = SessionErrored.
Proof.
  destruct (session_lifecycle (K := plain_kv) (M := listed_machine) sample_rows
              [OpCleanup (100 * Minute) DefaultTimeout; OpStatus 5 "" "a" SessionActive] sample_rows_ok) as (_ & _ & H).
  destruct (H "a" (sample_session "a" SessionErrored 0)) as (s' & Hs & _ & He);
    [vm_compute; reflexivity|reflexivity| |exists s'; exact (conj Hs He)].
  intros note Hin. rewrite !elem_of_cons, elem_of_nil in Hin. by destruct Hin as [?|[?|?]].
Defined.

Lemma sweep_exact_witness :
  exists m' events, CleanupInactive (K := plain_kv) (100 * Minute) sample_rows DefaultTimeout = (m', Ok ["b"], events) /\
    stored m' "a" (sample_session "a" SessionErrored 0).
Proof.
  assert (CleanupInactive (K := plain_kv) (100 * Minute) sample_rows DefaultTimeout =
    (delete "session/b" sample_rows, Ok ["b"], [SessionStopped "b" "p" "expired" ""])) as E by (vm_compute; reflexivity).
  exists (delete "session/b" sample_rows), [SessionStopped "b" "p" "expired" ""]. split; [exact E|].
  destruct (proj1 (sweep_exact (K := plain_kv) (100 * Minute) DefaultTimeout sample_rows sample_rows_ok) _ _ _ E)
    as (_ & H & _). apply H. split; vm_compute; reflexivity.
Defined.

Lemma migration_resumable_witness :
  let legacy := [("b", Some (sample_session "b" SessionInactive 1)); ("c", Some (sample_session "c" SessionActive 1))] in
  exists m', migrateLegacyJSON (K := plain_kv) true sample_rows (Parsed legacy) = (m', Missing, Ok tt) /\
    stored m' "c" (sample_session "c" SessionActive 1).
Proof.
  intros legacy.
  assert (migrateLegacyJSON (K := plain_kv) true sample_rows (Parsed legacy) =
    (<["session/c" := Some (sample_session "c" SessionActive 1)]> sample_rows, Missing, Ok tt)) as E
    by (vm_compute; reflexivity).
  eexists. split; [exact E|].
  assert (NoDup legacy.*1) as Hnd by (by apply (bool_decide_eq_true_1 _)).
  destruct (migration_resumable (K := plain_kv) true sample_rows legacy Hnd _ _ _ E)
    as (_ & H & _).
  destruct (H eq_refl) as [_ Hc]. apply Hc; [right; left|vm_compute; reflexivity].
Defined.
