(* ===== verification/MobileRegistry.v ===== *)
(** * The registry of paired mobile adapters (src/internal/core/adapter/mobile:
      registry.go, types.go)

    Adapters are rows of a key-value table ([Kv]).  An operation returns the table it
    leaves; what the table refuses it leaves as it was. *)

From Stdlib Require Import ZArith Lia String Ascii.
From stdpp Require Import base option list gmap strings fin_maps.
From S2P Require Import Prelude Text Events Kv.

Open Scope Z_scope.

Abbreviation PairingState := string.
Definition PairingStatePending : PairingState := "pending".
Definition PairingStateActive : PairingState := "active".
Definition PairingStateRevoked : PairingState := "revoked".
Definition PairingStateExpired : PairingState := "expired".
Definition PairingStateRejected : PairingState := "rejected".

Definition CapRunStateless : string := "run:stateless".
Definition CapRunStreaming : string := "run:streaming".
Definition CapMonitorSessions : string := "monitor:sessions".
Definition CapMonitorLogs : string := "monitor:logs".

Definition AllCapabilities : list string := [CapRunStateless; CapRunStreaming; CapMonitorSessions; CapMonitorLogs].
Definition DefaultCapabilities : list string := [CapRunStateless; CapRunStreaming; CapMonitorSessions].
Definition IsValidCapability (cap : string) : bool := existsb (String.eqb cap) AllCapabilities.

Record MobileAdapter : Type := mkAdapter {
  ma_AdapterID : string;
  ma_ProfileID : string;
  ma_AdapterName : string;
  ma_AdapterOS : string;
  ma_AdapterVersion : string;
  ma_AdapterModel : string;
  ma_RegisteredAt : Z;
  ma_LastSeenAt : Z;
  ma_ExpiresAt : Z;
  ma_TokenHash : string;
  ma_Status : PairingState;
  ma_Capabilities : list string;
  ma_ApprovalRequired : bool;
  ma_ApprovedAt : option Z
}.

(** An adapter with the fields that change after registration replaced. *)
Definition with_state (d : MobileAdapter) (seen : Z) (status : PairingState) (approved : option Z) : MobileAdapter :=
  mkAdapter (ma_AdapterID d) (ma_ProfileID d) (ma_AdapterName d) (ma_AdapterOS d) (ma_AdapterVersion d) (ma_AdapterModel d)
    (ma_RegisteredAt d) seen (ma_ExpiresAt d) (ma_TokenHash d) status (ma_Capabilities d) (ma_ApprovalRequired d) approved.

Definition set_adapter_status (d : MobileAdapter) (status : PairingState) : MobileAdapter :=
  with_state d (ma_LastSeenAt d) status (ma_ApprovedAt d).

Definition IsExpired (now : Z) (d : MobileAdapter) : bool := After now (ma_ExpiresAt d).
Definition IsActive (now : Z) (d : MobileAdapter) : bool :=
  bool_decide (ma_Status d = PairingStateActive) && negb (IsExpired now d).

(** ** Rows *)

Abbreviation Adapters := (Table MobileAdapter).

Definition adapterKeyPrefix : string := "adapter/".
Definition adapterKey (id : string) : string := adapterKeyPrefix +:+ id.
Definition idFromAdapterKey (key : string) : string := TrimPrefix key adapterKeyPrefix.

Inductive MobErr : Type :=
  | ErrAdapterRow (e : RowErr)
  | ErrAlreadyRegistered (id : string)
  | ErrMobileAdapterNotFound (id : string)
  | ErrNotPending (id : string) (status : PairingState).

Section registry.
Context `{K : KvStore MobileAdapter}.

Definition putAdapter (m : Adapters) (d : MobileAdapter) : Adapters * Res MobErr unit :=
  match putRow m (adapterKey (ma_AdapterID d)) d with (m', r) => (m', map_err ErrAdapterRow r) end.

Definition getAdapter (m : Adapters) (id : string) : Res MobErr (option MobileAdapter) :=
  map_err ErrAdapterRow (getRow m (adapterKey id)).

Definition listAdapters (m : Adapters) : Res MobErr (list MobileAdapter) :=
  map_err ErrAdapterRow (listRows m adapterKeyPrefix).

(** ** Reading *)

Definition GetAdapter (m : Adapters) (id : string) : Res MobErr MobileAdapter :=
  match getAdapter m id with
  | Err e => Err e
  | Ok None => Err (ErrMobileAdapterNotFound id)
  | Ok (Some d) => Ok d
  end.

Definition ListAdapters (m : Adapters) (profileID : string) : Res MobErr (list MobileAdapter) :=
  match listAdapters m with
  | Err e => Err e
  | Ok all => Ok (if decide (profileID = "") then all else filter (fun d => ma_ProfileID d = profileID) all)
  end.

Definition ListPending (m : Adapters) (profileID : string) : Res MobErr (list MobileAdapter) :=
  match listAdapters m with
  | Err e => Err e
  | Ok all => Ok (filter (fun d => ma_Status d = PairingStatePending /\ (profileID = "" \/ ma_ProfileID d = profileID)) all)
  end.

Definition CountActive (now : Z) (m : Adapters) (profileID : string) : Res MobErr Z :=
  match listAdapters m with
  | Err e => Err e
  | Ok all => Ok (Z.of_nat (length (filter (fun d => ma_ProfileID d = profileID /\ IsActive now d = true) all)))
  end.

(** ** Changing *)

Definition RegisterAdapter (m : Adapters) (device : MobileAdapter) : Adapters * Res MobErr unit :=
  match getAdapter m (ma_AdapterID device) with
  | Err e => (m, Err e)
  | Ok (Some _) => (m, Err (ErrAlreadyRegistered (ma_AdapterID device)))
  | Ok None => putAdapter m device
  end.

Definition UpdateAdapter (m : Adapters) (device : MobileAdapter) : Adapters * Res MobErr unit :=
  match getAdapter m (ma_AdapterID device) with
  | Err e => (m, Err e)
  | Ok None => (m, Err (ErrMobileAdapterNotFound (ma_AdapterID device)))
  | Ok (Some _) => putAdapter m device
  end.

Definition RevokeAdapter (m : Adapters) (id : string) : Adapters * Res MobErr unit :=
  match getAdapter m id with
  | Err e => (m, Err e)
  | Ok None => (m, Err (ErrMobileAdapterNotFound id))
  | Ok (Some d) => putAdapter m (set_adapter_status d PairingStateRevoked)
  end.

Definition ApproveAdapter (now : Z) (m : Adapters) (id : string) : Adapters * Res MobErr unit :=
  match getAdapter m id with
  | Err e => (m, Err e)
  | Ok None => (m, Err (ErrMobileAdapterNotFound id))
  | Ok (Some d) =>
      if decide (ma_Status d <> PairingStatePending) then (m, Err (ErrNotPending id (ma_Status d)))
      else putAdapter m (with_state d (ma_LastSeenAt d) PairingStateActive (Some now))
  end.

Definition RejectAdapter (m : Adapters) (id : string) : Adapters * Res MobErr unit :=
  match getAdapter m id with
  | Err e => (m, Err e)
  | Ok None => (m, Err (ErrMobileAdapterNotFound id))
  | Ok (Some d) =>
      if decide (ma_Status d <> PairingStatePending) then (m, Err (ErrNotPending id (ma_Status d)))
      else match deleteRow m (adapterKey id) with (m', r) => (m', map_err ErrAdapterRow r) end
  end.

Definition UpdateLastSeen (now : Z) (m : Adapters) (id : string) : Adapters * Res MobErr unit :=
  match getAdapter m id with
  | Err e => (m, Err e)
  | Ok None => (m, Err (ErrMobileAdapterNotFound id))
  | Ok (Some d) => putAdapter m (with_state d now (ma_Status d) (ma_ApprovedAt d))
  end.

(** What the sweep marks as expired. *)
Definition overdue (now : Z) (d : MobileAdapter) : bool :=
  After now (ma_ExpiresAt d) && bool_decide (ma_Status d = PairingStateActive).

Fixpoint cleanupLoop (now : Z) (m : Adapters) (removed : Z) (all : list MobileAdapter)
  : Adapters * Z * Res MobErr unit :=
  match all with
  | [] => (m, removed, Ok tt)
  | d :: all =>
      if overdue now d then
        match putAdapter m (set_adapter_status d PairingStateExpired) with
        | (m', Err e) => (m', removed, Err e)
        | (m', Ok _) => cleanupLoop now m' (removed + 1) all
        end
      else cleanupLoop now m removed all
  end.

(** The count is returned with the error too. *)
Definition CleanupExpired (now : Z) (m : Adapters) : Adapters * Z * Res MobErr unit :=
  match listAdapters m with
  | Err e => (m, 0, Err e)
  | Ok all => cleanupLoop now m 0 all
  end.

(** ** Migration of the file of earlier releases

    Rows that are null or have no id are passed over. *)
Definition legacyAdapter (d : option MobileAdapter) : option (string * MobileAdapter) :=
  match d with
  | Some d => if decide (ma_AdapterID d = "") then None else Some (adapterKey (ma_AdapterID d), d)
  | None => None
  end.

Definition migrateLegacyAdapters (archives : bool) (m : Adapters) (file : Doc (list (option MobileAdapter)))
  : Adapters * Doc (list (option MobileAdapter)) * Res MobErr unit :=
  match file with
  | Missing => (m, file, Ok tt)
  | Unreadable => (m, file, Err (ErrAdapterRow ErrStoreOp))
  | Malformed => (m, file, Err (ErrAdapterRow ErrUnmarshal))
  | Parsed legacy =>
      match importRows m (omap legacyAdapter legacy) with
      | (m', Err e) => (m', file, Err (ErrAdapterRow e))
      | (m', Ok _) => if archives then (m', Missing, Ok tt) else (m', file, Err (ErrAdapterRow ErrStoreOp))
      end
  end.

(** ** Runs *)

Inductive MobOp : Type :=
  | OpRegisterAdapter (device : MobileAdapter)
  | OpUpdateAdapter (device : MobileAdapter)
  | OpRevoke (id : string)
  | OpApprove (now : Z) (id : string)
  | OpReject (id : string)
  | OpLastSeen (now : Z) (id : string)
  | OpCleanupExpired (now : Z).

Definition mob_exec (m : Adapters) (op : MobOp) : Adapters :=
  match op with
  | OpRegisterAdapter d => (RegisterAdapter m d).1
  | OpUpdateAdapter d => (UpdateAdapter m d).1
  | OpRevoke id => (RevokeAdapter m id).1
  | OpApprove now id => (ApproveAdapter now m id).1
  | OpReject id => (RejectAdapter m id).1
  | OpLastSeen now id => (UpdateLastSeen now m id).1
  | OpCleanupExpired now => (CleanupExpired now m).1.1
  end.

End registry.

(** ** What one operation may do to one adapter *)

Abbreviation adapters_ok := (keyed (fun d => adapterKey (ma_AdapterID d))).

(** The row of [id]: present and readable, or absent. *)
Definition row_of (m : Adapters) (id : string) (o : option MobileAdapter) : Prop := m !! adapterKey id = Some <$> o.

Inductive moves : MobOp -> string -> option MobileAdapter -> option MobileAdapter -> Prop :=
  | mv_register d : moves (OpRegisterAdapter d) (ma_AdapterID d) None (Some d)
  | mv_update d d' : moves (OpUpdateAdapter d') (ma_AdapterID d') (Some d) (Some d')
  | mv_revoke id d : moves (OpRevoke id) id (Some d) (Some (set_adapter_status d PairingStateRevoked))
  | mv_approve now id d : ma_Status d = PairingStatePending ->
      moves (OpApprove now id) id (Some d) (Some (with_state d (ma_LastSeenAt d) PairingStateActive (Some now)))
  | mv_reject id d : ma_Status d = PairingStatePending -> moves (OpReject id) id (Some d) None
  | mv_seen now id d : moves (OpLastSeen now id) id (Some d) (Some (with_state d now (ma_Status d) (ma_ApprovedAt d)))
  | mv_expire now id d : overdue now d = true ->
      moves (OpCleanupExpired now) id (Some d) (Some (set_adapter_status d PairingStateExpired)).

Lemma adapterKey_inj a b : adapterKey a = adapterKey b -> a = b.
Proof. intros H. by apply (inj (String.append adapterKeyPrefix)) in H. Qed.

Lemma adapterKey_prefix id : HasPrefix (adapterKey id) adapterKeyPrefix = true.
Proof. apply HasPrefix_spec. by exists (chars id). Qed.

Lemma row_of_inj m id o o' : row_of m id o -> row_of m id o' -> o = o'.
Proof. unfold row_of. intros H1 H2. rewrite H1 in H2. by destruct o, o'; simplify_eq/=. Qed.

(** Goals that follow from the states being different strings. *)
Ltac pairing_states :=
  unfold PairingStatePending, PairingStateActive, PairingStateRevoked, PairingStateExpired in *; congruence.

Section laws.
Context `{K : KvStore MobileAdapter} {L : KvLaws K}.

(** One operation changes at most the rows it moves, and unreadable rows never. *)
Definition changes_by (op : MobOp) (m m' : Adapters) : Prop :=
  adapters_ok m' /\ forall id, m' !! adapterKey id = m !! adapterKey id \/
    exists o o', row_of m id o /\ row_of m' id o' /\ moves op id o o'.

Lemma changes_by_same op m : adapters_ok m -> changes_by op m m.
Proof. intros H. split; [done|]. intros id. by left. Qed.

Lemma getAdapter_Ok m id o : getAdapter m id = Ok o -> row_of m id o.
Proof.
  unfold getAdapter. destruct (getRow _ _) as [v|] eqn:E; [|done]. intros [= <-]. apply getRow_Ok in E. by destruct v.
Qed.

Lemma row_id m id d : adapters_ok m -> row_of m id (Some d) -> ma_AdapterID d = id.
Proof. intros Hok H. symmetry. apply adapterKey_inj. by apply Hok. Qed.

Lemma putAdapter_cases m d : (putAdapter m d).1 = m \/ (putAdapter m d).1 = <[adapterKey (ma_AdapterID d) := Some d]> m.
Proof.
  unfold putAdapter. pose proof (putRow_cases m (adapterKey (ma_AdapterID d)) d). by destruct (putRow _ _ _).
Qed.

Lemma put_changes op m o d :
  adapters_ok m -> row_of m (ma_AdapterID d) o -> moves op (ma_AdapterID d) o (Some d) ->
  changes_by op m (putAdapter m d).1.
Proof.
  intros Hok Ho Hmv. destruct (putAdapter_cases m d) as [->| ->]; [by apply changes_by_same|]. split.
  { by apply (keyed_insert (fun d => adapterKey (ma_AdapterID d))). }
  intros id. destruct (decide (id = ma_AdapterID d)) as [->|Hne].
  - right. exists o, (Some d). split_and!; [done| |done]. by unfold row_of; rewrite lookup_insert_eq.
  - left. apply lookup_insert_ne. by intros ?%adapterKey_inj.
Qed.

Lemma cleanupLoop_rows now all m n :
  adapters_ok m ->
  adapters_ok (cleanupLoop now m n all).1.1 /\
  forall k, (cleanupLoop now m n all).1.1 !! k = m !! k \/
    exists d, d ∈ all /\ overdue now d = true /\ k = adapterKey (ma_AdapterID d) /\
      (cleanupLoop now m n all).1.1 !! k = Some (Some (set_adapter_status d PairingStateExpired)).
Proof.
  revert m n. induction all as [|d all IH]; intros m n Hok; simpl; [split; [done|by left]|].
  setoid_rewrite elem_of_cons. destruct (overdue now d) eqn:Eo.
  - set (d' := set_adapter_status d PairingStateExpired).
    assert (adapters_ok (putAdapter m d').1 /\ forall k, (putAdapter m d').1 !! k = m !! k \/
      (k = adapterKey (ma_AdapterID d) /\ (putAdapter m d').1 !! k = Some (Some d'))) as [Hok1 Hp].
    { destruct (putAdapter_cases m d') as [->| ->]; [split; [done|by left]|].
      split; [by apply (keyed_insert (fun d => adapterKey (ma_AdapterID d)))|].
      intros k. destruct (decide (k = adapterKey (ma_AdapterID d'))) as [->|Hne].
      - right. by rewrite lookup_insert_eq.
      - left. by rewrite lookup_insert_ne. }
    destruct (putAdapter m d') as [m1 [[]|e]]; simpl in *.
    + destruct (IH m1 (n + 1) Hok1) as [Hk Hr]. split; [done|]. intros k.
      destruct (Hr k) as [E|(d2 & ? & ? & ? & ?)]; [|right; exists d2; tauto]. rewrite E.
      destruct (Hp k) as [?|[? ?]]; [by left|right; exists d; tauto].
    + split; [done|]. intros k. destruct (Hp k) as [?|[? ?]]; [by left|right; exists d; tauto].
  - destruct (IH m n Hok) as [Hk Hr]. split; [done|]. intros k.
    destruct (Hr k) as [?|(d2 & ? & ? & ? & ?)]; [by left|right; exists d2; tauto].
Qed.

Lemma listAdapters_Ok m all : listAdapters m = Ok all -> all ≡ₚ rows_under adapterKeyPrefix m.
Proof. unfold listAdapters. destruct (listRows _ _) as [l|] eqn:E; [|done]. intros [= <-]. by apply listRows_Ok in E as [? _]. Qed.

Lemma listed_row m all d :
  adapters_ok m -> listAdapters m = Ok all -> d ∈ all <-> row_of m (ma_AdapterID d) (Some d).
Proof.
  intros Hok ->%listAdapters_Ok. rewrite elem_of_rows_under. unfold row_of. simpl. split.
  - intros (k & Hk & _). by rewrite <- (Hok _ _ Hk).
  - intros Hd. eexists. split; [exact Hd|apply adapterKey_prefix].
Qed.

(** The row an operation reads first; without it, or when it is the wrong one, the
    operation changes nothing. *)
Ltac on_row m :=
  match goal with |- context [getAdapter m ?i] =>
    destruct (getAdapter m i) as [[?d|]|] eqn:Eg; try (by apply changes_by_same); apply getAdapter_Ok in Eg; simpl
  end.

Lemma mob_exec_changes m op : adapters_ok m -> changes_by op m (mob_exec m op).
Proof.
  intros Hok. destruct op as [d|d|id|now id|id|now id|now]; simpl.
  - unfold RegisterAdapter. on_row m. eapply put_changes; [done|exact Eg|constructor].
  - unfold UpdateAdapter. on_row m. eapply put_changes; [done|exact Eg|constructor].
  - unfold RevokeAdapter. on_row m. pose proof (row_id _ _ _ Hok Eg) as <-.
    eapply put_changes; [done|exact Eg|constructor].
  - unfold ApproveAdapter. on_row m. pose proof (row_id _ _ _ Hok Eg) as <-. case_decide as Hs; [by apply changes_by_same|].
    eapply put_changes; [done|exact Eg|]. by constructor.
  - unfold RejectAdapter. on_row m. case_decide as Hs; [by apply changes_by_same|].
    pose proof (deleteRow_cases m (adapterKey id)) as Hd. destruct (deleteRow _ _) as [m' r]. simpl in *.
    destruct Hd as [->| ->]; [by apply changes_by_same|]. split; [by apply keyed_delete|]. intros id'.
    destruct (decide (id' = id)) as [->|Hne].
    + right. exists (Some d), None. split_and!; [done|unfold row_of; by rewrite lookup_delete_eq|].
      by constructor.
    + left. apply lookup_delete_ne. by intros ?%adapterKey_inj.
  - unfold UpdateLastSeen. on_row m. pose proof (row_id _ _ _ Hok Eg) as <-.
    eapply put_changes; [done|exact Eg|constructor].
  - unfold CleanupExpired. destruct (listAdapters m) as [all|] eqn:El; [|by apply changes_by_same].
    destruct (cleanupLoop_rows now all m 0 Hok) as [Hk Hr]. split; [done|]. intros id.
    destruct (Hr (adapterKey id)) as [?|(d & Hin & Ho & Hid & E)]; [by left|right]. apply adapterKey_inj in Hid as ->.
    apply (listed_row m all d Hok El) in Hin. exists (Some d), (Some (set_adapter_status d PairingStateExpired)).
    split_and!; [done|exact E|by constructor].
Qed.

(** ** Runs *)

Lemma mob_run_ok ops m : adapters_ok m -> adapters_ok (foldl mob_exec m ops).
Proof.
  revert m. induction ops as [|op ops IH]; intros m Hok; simpl; [done|]. by apply IH, mob_exec_changes.
Qed.

(** [op] replaces the adapter of this id by one its caller gives. *)
Definition replaces (id : string) (op : MobOp) : Prop :=
  match op with OpUpdateAdapter d => ma_AdapterID d = id | _ => False end.

(** [op] stores an adapter given by its caller under this id. *)
Definition overwrites (id : string) (op : MobOp) : Prop :=
  match op with
  | OpRegisterAdapter d | OpUpdateAdapter d => ma_AdapterID d = id
  | _ => False
  end.

(** A revoked adapter keeps its row, still revoked. *)
Lemma revoked_step m op id d :
  adapters_ok m -> row_of m id (Some d) -> ma_Status d = PairingStateRevoked -> ~ replaces id op ->
  exists d', row_of (mob_exec m op) id (Some d') /\ ma_Status d' = PairingStateRevoked.
Proof.
  intros Hok Hd Hs Hno. destruct (mob_exec_changes m op Hok) as [_ Hc].
  destruct (Hc id) as [E|(o & o' & Ho & Ho' & Hmv)]; [exists d; unfold row_of; by rewrite E|].
  assert (o = Some d) as -> by (by eapply row_of_inj).
  inversion Hmv; subst; try done.
  - eauto.
  - pairing_states.
  - pairing_states.
  - eauto.
  - match goal with H : overdue _ _ = true |- _ => revert H end. unfold overdue.
    rewrite bool_decide_false by pairing_states. by rewrite andb_false_r.
Qed.

Lemma revoked_run ops m id d :
  adapters_ok m -> row_of m id (Some d) -> ma_Status d = PairingStateRevoked -> (forall op, op ∈ ops -> ~ replaces id op) ->
  exists d', row_of (foldl mob_exec m ops) id (Some d') /\ ma_Status d' = PairingStateRevoked.
Proof.
  revert m d. induction ops as [|op ops IH]; intros m d Hok Hd Hs Hno; simpl; [eauto|].
  destruct (revoked_step m op id d Hok Hd Hs) as (d' & Hd' & Hs'); [apply Hno; left|].
  eapply IH; [by apply mob_exec_changes|done|done|]. intros op' Hin. apply Hno. by right.
Qed.

(** How the adapter [d] looks after the operations [ops], none of which overwrites it. *)
Definition descends (id : string) (d : MobileAdapter) (ops : list MobOp) (o : option MobileAdapter) : Prop :=
  match o with
  | None => ma_Status d = PairingStatePending /\ OpReject id ∈ ops
  | Some d' =>
      d' = with_state d (ma_LastSeenAt d') (ma_Status d') (ma_ApprovedAt d') /\
      (ma_Status d' = PairingStatePending -> ma_Status d = PairingStatePending) /\
      (ma_Status d' = PairingStateActive -> ma_Status d <> PairingStateActive ->
         ma_Status d = PairingStatePending /\ exists now, OpApprove now id ∈ ops /\ ma_ApprovedAt d' = Some now) /\
      (ma_Status d' = PairingStateRevoked -> ma_Status d <> PairingStateRevoked -> OpRevoke id ∈ ops)
  end.

Lemma descends_weaken id d ops op o : descends id d ops o -> descends id d (ops ++ [op]) o.
Proof.
  destruct o as [d'|]; simpl; setoid_rewrite elem_of_app; [|tauto].
  intros (? & ? & Ha & Hr). split_and!; [done..| |tauto]. intros H1 H2. destruct (Ha H1 H2) as (? & now & ? & ?). eauto.
Qed.

Lemma with_state_id d : with_state d (ma_LastSeenAt d) (ma_Status d) (ma_ApprovedAt d) = d.
Proof. by destruct d. Qed.

Lemma descends_step id d ops op o o' :
  descends id d ops o -> ~ overwrites id op -> moves op id o o' -> descends id d (ops ++ [op]) o'.
Proof.
  intros Hd Hno Hmv.
  assert (op ∈ ops ++ [op]) as Hin by (apply elem_of_app; right; left).
  pose proof (descends_weaken id d ops op o Hd) as Hw.
  inversion Hmv; subst; simpl in *; try (by destruct Hno); destruct Hw as (E & Hp & Ha & Hr).
  - split_and!; [by rewrite E|done|done|done].
  - split_and!; [by rewrite E|done| |done]. intros _ _. split; [auto|eauto].
  - auto.
  - split_and!; [by rewrite E|done|done|done].
  - split_and!; [by rewrite E|done|done|done].
Qed.

Lemma descends_run ops m id d :
  adapters_ok m -> row_of m id (Some d) -> (forall op, op ∈ ops -> ~ overwrites id op) ->
  exists o, row_of (foldl mob_exec m ops) id o /\ descends id d ops o.
Proof.
  intros Hok Hd. induction ops as [|op ops IH] using rev_ind; intros Hno; simpl.
  { exists (Some d). split; [done|]. split_and!; [by rewrite with_state_id|done|done|done]. }
  destruct IH as (o & Ho & Hds); [intros op' Hin; apply Hno, elem_of_app; by left|]. rewrite foldl_snoc.
  destruct (mob_exec_changes _ op (mob_run_ok ops m Hok)) as [_ Hc].
  destruct (Hc id) as [E|(o1 & o' & Ho1 & Ho' & Hmv)].
  - exists o. split; [unfold row_of in *; by rewrite E|by apply descends_weaken].
  - exists o'. split; [done|]. assert (o1 = o) as -> by (by eapply row_of_inj).
    eapply descends_step; [done|apply Hno, elem_of_app; right; left|done].
Qed.

(** the life of a paired adapter.  Under every run of the registry's operations,
    whatever the table refuses, rows stay under the key of their id and one
    operation changes an adapter only as [moves] lists: in particular it never
    touches a row that does not unmarshal.  So while no caller overwrites an adapter
    it keeps its identity, expiry, token and capabilities; it is gone only when it
    was pending and has been rejected; it is active only if it was, or was pending
    and has been approved, at the time its record tells; it is revoked only if it was
    or has been revoked.  And a revoked adapter stays, revoked, unless [UpdateAdapter]
    replaces it. *)
Theorem adapter_lifecycle (m : Adapters) (ops : list MobOp) (Hok : adapters_ok m) :
  adapters_ok (foldl mob_exec m ops) /\
  (forall op id, mob_exec m op !! adapterKey id = m !! adapterKey id \/
     exists o o', row_of m id o /\ row_of (mob_exec m op) id o' /\ moves op id o o') /\
  (forall id d, row_of m id (Some d) -> (forall op, op ∈ ops -> ~ overwrites id op) ->
     exists o, row_of (foldl mob_exec m ops) id o /\ descends id d ops o) /\
  (forall id d, row_of m id (Some d) -> ma_Status d = PairingStateRevoked -> (forall op, op ∈ ops -> ~ replaces id op) ->
     exists d', row_of (foldl mob_exec m ops) id (Some d') /\ ma_Status d' = PairingStateRevoked).
Proof.
  split_and!; [by apply mob_run_ok|intros op; by apply mob_exec_changes|..].
  - intros id d Hd Hno. by apply descends_run.
  - intros id d Hd Hs Hno. by eapply revoked_run.
Qed.

(** ** The sweep *)

Lemma cleanupLoop_Ok now all m n m' n' :
  cleanupLoop now m n all = (m', n', Ok tt) -> adapters_ok m ->
  n' = n + Z.of_nat (length (filter (fun d => overdue now d = true) all)) /\
  forall d, d ∈ all -> overdue now d = true -> exists d', d' ∈ all /\ ma_AdapterID d' = ma_AdapterID d /\
    overdue now d' = true /\ m' !! adapterKey (ma_AdapterID d) = Some (Some (set_adapter_status d' PairingStateExpired)).
Proof.
  revert m n. induction all as [|d all IH]; intros m n; simpl.
  { intros [= <- <-] _. split; [simpl; lia|]. by intros d ?%elem_of_nil. }
  destruct (overdue now d) eqn:Eo.
  - destruct (putAdapter m _) as [m1 [[]|e]] eqn:Ep; [|done]. intros Hl Hok.
    rewrite filter_cons_True by done. simpl.
    assert (m1 = <[adapterKey (ma_AdapterID d) := Some (set_adapter_status d PairingStateExpired)]> m) as ->.
    { unfold putAdapter in Ep. destruct (putRow _ _ _) as [? [[]|]] eqn:E; simplify_eq/=. by apply putRow_Ok in E. }
    assert (adapters_ok (<[adapterKey (ma_AdapterID d) := Some (set_adapter_status d PairingStateExpired)]> m)) as Hok1
      by (by apply (keyed_insert (fun d => adapterKey (ma_AdapterID d)) _ (set_adapter_status d PairingStateExpired))).
    destruct (IH _ _ Hl Hok1) as [-> Ha]. split; [lia|].
    destruct (cleanupLoop_rows now all _ (n + 1) Hok1) as [_ Hr]. rewrite Hl in Hr. simpl in Hr.
    intros d2 [->|Hin]%elem_of_cons Ho.
    + destruct (Hr (adapterKey (ma_AdapterID d))) as [E|(d3 & H3 & Ho3 & Hid & E)].
      * exists d. rewrite lookup_insert_eq in E. by split_and!; [left|..].
      * exists d3. apply adapterKey_inj in Hid as Hid'. by split_and!; [right|..].
    + destruct (Ha d2 Hin Ho) as (d3 & ? & ?). exists d3. split; [by right|done].
  - intros Hl Hok. rewrite filter_cons_False by congruence. destruct (IH _ _ Hl Hok) as [-> Ha]. split; [done|].
    intros d2 [->|Hin]%elem_of_cons Ho; [congruence|]. destruct (Ha d2 Hin Ho) as (d3 & ? & ?). exists d3. split; [by right|done].
Qed.

Definition expire_overdue (now : Z) (d : MobileAdapter) : MobileAdapter :=
  if overdue now d then set_adapter_status d PairingStateExpired else d.

(** The sweep of expired adapters.  When [CleanupExpired] succeeds, exactly the active
    adapters past their expiry are marked, none is removed, and their number is
    returned.  One unreadable row makes it fail without marking any. *)
Theorem cleanup_exact (now : Z) (m : Adapters) (Hok : adapters_ok m) :
  (forall m' n, CleanupExpired now m = (m', n, Ok tt) ->
     n = Z.of_nat (length (filter (fun d => overdue now d = true) (rows_under adapterKeyPrefix m))) /\
     forall id o, row_of m id o -> row_of m' id (expire_overdue now <$> o)) /\
  (forall id, m !! adapterKey id = Some None -> exists e, CleanupExpired now m = (m, 0, Err e)).
Proof.
  unfold CleanupExpired. split.
  - destruct (listAdapters m) as [all|] eqn:El; [|done]. intros m' n Hl.
    destruct (cleanupLoop_Ok _ _ _ _ _ _ Hl Hok) as [-> Ha]. split.
    { by rewrite <- (listAdapters_Ok _ _ El). }
    destruct (cleanupLoop_rows now all m 0 Hok) as [_ Hr]. rewrite Hl in Hr. simpl in Hr.
    assert (forall id d, d ∈ all -> ma_AdapterID d = id -> row_of m id (Some d)) as Hin
      by (intros id d Hd <-; by apply (listed_row m all d Hok El)).
    intros id [d|] Hd; unfold row_of; simpl.
    + pose proof (row_id _ _ _ Hok Hd) as Hid. unfold expire_overdue. destruct (overdue now d) eqn:Eo.
      * destruct (Ha d) as (d' & Hd' & Hid' & _ & E); [apply (listed_row m all d Hok El); by rewrite Hid|done|].
        rewrite Hid in *. rewrite E. by pose proof (row_of_inj _ _ _ _ Hd (Hin id d' Hd' Hid')) as [= <-].
      * destruct (Hr (adapterKey id)) as [->|(d' & Hd' & Ho & Hk%adapterKey_inj & _)]; [exact Hd|].
        pose proof (row_of_inj _ _ _ _ Hd (Hin id d' Hd' (eq_sym Hk))). congruence.
    + destruct (Hr (adapterKey id)) as [->|(d' & Hd' & Ho & Hk%adapterKey_inj & _)]; [exact Hd|].
      pose proof (row_of_inj _ _ _ _ Hd (Hin id d' Hd' (eq_sym Hk))). congruence.
  - intros id Hn. unfold listAdapters. destruct (listRows_corrupt m adapterKeyPrefix _ Hn (adapterKey_prefix id)) as [e ->].
    by eexists.
Qed.

(** The number [CountActive] returns. *)
Definition active_rows (now : Z) (profileID : string) (m : Adapters) : Z :=
  Z.of_nat (length (filter (fun d => ma_ProfileID d = profileID /\ IsActive now d = true) (rows_under adapterKeyPrefix m))).

Lemma CountActive_Ok now m profileID n : CountActive now m profileID = Ok n -> n = active_rows now profileID m.
Proof.
  unfold CountActive, active_rows. destruct (listAdapters m) as [all|] eqn:El; [|done]. intros [= <-].
  by rewrite (listAdapters_Ok _ _ El).
Qed.

(** The adapter [id] counts as active for the profile. *)
Definition active_at (now : Z) (profileID : string) (m : Adapters) (id : string) : Prop :=
  exists d, row_of m id (Some d) /\ ma_ProfileID d = profileID /\ IsActive now d = true.

Definition active_ids (now : Z) (profileID : string) (m : Adapters) : list string :=
  ma_AdapterID <$> filter (fun d => ma_ProfileID d = profileID /\ IsActive now d = true) (rows_under adapterKeyPrefix m).

Lemma elem_of_active_ids now p m id : adapters_ok m -> id ∈ active_ids now p m <-> active_at now p m id.
Proof.
  intros Hok. unfold active_ids, active_at. rewrite list_elem_of_fmap. setoid_rewrite list_elem_of_filter.
  setoid_rewrite elem_of_rows_under. split.
  - intros (d & -> & [? ?] & k & Hk & _). exists d. split; [|done]. unfold row_of. simpl. by rewrite <- (Hok _ _ Hk).
  - intros (d & Hd & ? & ?). exists d. split; [by rewrite (row_id _ _ _ Hok Hd)|]. split; [done|].
    exists (adapterKey id). split; [exact Hd|apply adapterKey_prefix].
Qed.

Lemma NoDup_active_ids now p m : adapters_ok m -> NoDup (active_ids now p m).
Proof.
  intros Hok. unfold active_ids. apply (sublist_NoDup _ (ma_AdapterID <$> rows_under adapterKeyPrefix m));
    [|apply fmap_sublist, sublist_filter].
  unfold rows_under. set (l := filter _ (map_to_list m)).
  assert (NoDup l.*1) as Hnd.
  { apply (sublist_NoDup _ (map_to_list m).*1); [apply NoDup_fst_map_to_list|apply fmap_sublist, sublist_filter]. }
  assert (forall k d, (k, Some d) ∈ l -> k = adapterKey (ma_AdapterID d)) as Hk.
  { intros k d [_ H%elem_of_map_to_list]%list_elem_of_filter. by apply Hok. }
  clearbody l. induction l as [|[k [d|]] l IH]; simpl in *; [constructor| |]; apply NoDup_cons in Hnd as [Hn Hnd].
  - constructor; [|apply IH; [done|intros; apply Hk; by right]]. rewrite list_elem_of_fmap. intros (d' & Hid & Hin).
    apply list_elem_of_omap in Hin as ([k' r] & Hin & E). simpl in E. subst r.
    pose proof (Hk k d ltac:(left)) as ->. apply Hn. rewrite Hid. rewrite <- (Hk k' d' ltac:(by right)).
    by apply (list_elem_of_fmap_2 fst _ _ Hin).
  - apply IH; [done|]. intros. apply Hk. by right.
Qed.

(** Counting by membership: at most [extra] adapters more are active. *)
Lemma active_rows_le now now' p m m' extra :
  adapters_ok m -> adapters_ok m' ->
  (forall id, active_at now' p m' id -> active_at now p m id \/ id ∈ extra) ->
  active_rows now' p m' <= active_rows now p m + Z.of_nat (length extra).
Proof.
  intros Hok Hok' H. unfold active_rows.
  assert (active_ids now' p m' ⊆+ active_ids now p m ++ extra) as Hs.
  { apply NoDup_submseteq; [by apply NoDup_active_ids|]. intros id Hin.
    rewrite elem_of_app, elem_of_active_ids by done. apply H. by apply elem_of_active_ids. }
  apply submseteq_length in Hs. rewrite length_app in Hs. unfold active_ids in Hs. rewrite !length_fmap in Hs. lia.
Qed.

Lemma active_rows_later now now' p m : adapters_ok m -> now <= now' -> active_rows now' p m <= active_rows now p m.
Proof.
  intros Hok Ht. pose proof (active_rows_le now now' p m m [] Hok Hok) as H. simpl in H. rewrite Z.add_0_r in H. apply H.
  intros id (d & Hd & Hp & Ha). left. exists d. split_and!; [done..|]. unfold IsActive, IsExpired, After in *. 
  apply andb_true_iff in Ha as [-> Ha]. simpl. lia.
Qed.

(** An operation that can make an adapter active. *)
Definition activates (op : MobOp) : bool :=
  match op with OpRegisterAdapter _ | OpUpdateAdapter _ | OpApprove _ _ => true | _ => false end.

Lemma active_rows_step now p m op :
  adapters_ok m -> activates op = false -> active_rows now p (mob_exec m op) <= active_rows now p m.
Proof.
  intros Hok Hop. destruct (mob_exec_changes m op Hok) as [Hok' Hc].
  pose proof (active_rows_le now now p m (mob_exec m op) [] Hok Hok') as H. simpl in H. rewrite Z.add_0_r in H. apply H.
  intros id (d & Hd & Hp & Ha). left. destruct (Hc id) as [E|(o & o' & Ho & Ho' & Hmv)].
  { exists d. unfold row_of in *. rewrite E in Hd. done. }
  pose proof (row_of_inj _ _ _ _ Hd Ho') as <-. inversion Hmv; subst; try done.
  exists d0. split_and!; [done..|]. exact Ha.
Qed.

Lemma legacy_keyed legacy : adapters_ok (Some <$> list_to_map (omap legacyAdapter legacy) : Adapters).
Proof.
  intros k d. rewrite lookup_fmap_Some. intros (d' & [= ->] & H). apply elem_of_list_to_map_2 in H.
  apply list_elem_of_omap in H as ([d0|] & _ & E); [|done]. simpl in E. by case_decide; simplify_eq.
Qed.

(** The migration adds the legacy adapters that the table lacks, the first of those
    with one id, keeps every row that is there, and on failure the file. *)
Theorem mobile_migration (archives : bool) (m m' : Adapters) (legacy : list (option MobileAdapter))
    (file' : Doc (list (option MobileAdapter))) (r : Res MobErr unit)
    (Hok : adapters_ok m) (Hm : migrateLegacyAdapters archives m (Parsed legacy) = (m', file', r)) :
  m ⊆ m' /\ (r = Ok tt -> adapters_ok m') /\
  (r = Ok tt -> file' = Missing /\ m' = m ∪ (Some <$> list_to_map (omap legacyAdapter legacy))) /\
  (r <> Ok tt -> file' = Parsed legacy).
Proof.
  assert (adapters_ok (m ∪ (Some <$> list_to_map (omap legacyAdapter legacy)))) as Hk.
  { intros k d. rewrite lookup_union_Some_raw. intros [?|[_ ?]]; [by apply Hok|by eapply legacy_keyed]. }
  unfold migrateLegacyAdapters in Hm. destruct (importRows_bounds (omap legacyAdapter legacy) m) as [Hg _].
  destruct (importRows _ _) as [m1 [[]|e]] eqn:Ei; [apply importRows_Ok in Ei as ->|]; simpl in Hg;
    [destruct archives|]; simplify_eq; by split_and!.
Qed.

End laws.

(** ** Witnesses *)

Definition sample_adapter (id : string) (status : PairingState) : MobileAdapter :=
  mkAdapter id "p" "phone" "ios" "" "" 0 0 (10 * Minute) "h" status DefaultCapabilities true None.

Definition sample_adapters : Adapters :=
  {[ "adapter/a" := Some (sample_adapter "a" PairingStatePending); "adapter/b" := Some (sample_adapter "b" PairingStateRevoked) ]}.

Lemma sample_adapters_ok : adapters_ok sample_adapters.
Proof.
  intros k s. unfold sample_adapters. rewrite lookup_insert_Some, lookup_singleton_Some.
  intros [[<- [= <-]]|[_ [<- [= <-]]]]; done.
Qed.

Lemma adapter_lifecycle_witness :
  exists d, row_of (foldl (mob_exec (K := plain_kv)) sample_adapters
              [OpApprove 5 "a"; OpApprove 6 "b"; OpCleanupExpired (20 * Minute)]) "b" (Some d) /\
    ma_Status d = PairingStateRevoked.
Proof.
  destruct (adapter_lifecycle (K := plain_kv) sample_adapters
              [OpApprove 5 "a"; OpApprove 6 "b"; OpCleanupExpired (20 * Minute)] sample_adapters_ok) as (_ & _ & _ & H).
  apply (H "b" (sample_adapter "b" PairingStateRevoked)); [vm_compute; reflexivity|reflexivity|].
  intros op. rewrite !elem_of_cons, elem_of_nil. intros [->|[->|[->|[]]]] [].
Defined.

Example expired_after_approval :
  (CleanupExpired (K := plain_kv) (20 * Minute) (mob_exec (K := plain_kv) sample_adapters (OpApprove 5 "a"))).1.2 = 1.
Proof. vm_compute. reflexivity. Qed.
