(* ===== verification/MobileServer.v ===== *)
(** * Pairing and connections of mobile adapters (src/internal/core/adapter/mobile:
      server.go, token.go, pairing.go)

    The server keeps pairing codes and connections; the adapters themselves are rows
    of [MobileRegistry].  A request to pair runs in three parts that hold no common
    lock (claim the code, check the limit, create the device), so it is given whole
    and as those parts, and the server is a machine on which the parts of several
    requests, connections and registry operations interleave.

    Tokens (golang-jwt) and digests (crypto/sha256) are third-party code: classes with
    their documented contracts as laws.  Times are kept as times where the source
    formats them, and a message as what the client receives. *)

From Stdlib Require Import ZArith Lia String Ascii.
From stdpp Require Import base option list gmap strings fin_maps pretty.
From S2P Require Import Prelude Text Kv MobileRegistry.

Open Scope Z_scope.

Definition DefaultTokenExpiry : Z := 14 * 24 * 60 * Minute.

(** ** Tokens *)

Record AdapterClaims : Type := mkClaims {
  cl_AdapterID : string;
  cl_AdapterName : string;
  cl_AdapterOS : string;
  cl_ProfileID : string;
  cl_Capabilities : list string;
  cl_Issuer : string;
  cl_Subject : string;
  cl_IssuedAt : Z;
  cl_ExpiresAt : Z;
  cl_ID : string
}.

(** The keys of one token manager.  [NewNumericDate] truncates to seconds; signing may
    fail; a token parses when it is signed with the key and has not expired. *)
Class Jwt : Type := {
  NewNumericDate : Z -> Z;
  SignedString : string -> AdapterClaims -> option string;
  ParseWithClaims : Z -> string -> option AdapterClaims
}.

Class JwtLaws (J : Jwt) : Prop := {
  numeric_date t : t - Second < NewNumericDate t <= t;
  parse_signed kid c token now :
    SignedString kid c = Some token -> NewNumericDate (cl_ExpiresAt c) = cl_ExpiresAt c -> now < cl_ExpiresAt c ->
    ParseWithClaims now token = Some c;
  parse_fresh now token c : ParseWithClaims now token = Some c -> now < cl_ExpiresAt c;
  numeric_date_idem t : NewNumericDate (NewNumericDate t) = NewNumericDate t
}.

(** sha256.Sum256: 32 bytes. *)
Class Digest : Type := {
  Sum256 : string -> list ascii;
  Sum256_length s : length (Sum256 s) = 32%nat
}.

Definition hexByte (c : ascii) : list ascii := [hexDigit (N_of_ascii c / 16)%N; hexDigit (N_of_ascii c mod 16)%N].
Definition EncodeToString (l : list ascii) : string := unchars (concat (map hexByte l)).

(** ** Data of the server *)

Record PairingSession : Type := mkPairing {
  ps_Code : string;
  ps_ProfileID : string;
  ps_Capabilities : list string;
  ps_ExpiresAt : Z;
  ps_Used : bool
}.

Record PairingRequest : Type := mkRequest {
  rq_PairingCode : string;
  rq_AdapterName : string;
  rq_AdapterOS : string;
  rq_AdapterVersion : string;
  rq_AdapterModel : string
}.

Record PairingResponse : Type := mkResponse {
  rs_AdapterID : string;
  rs_Token : string;
  rs_WSEndpoint : string;
  rs_ExpiresAt : Z;
  rs_ProfileID : string;
  rs_Status : string
}.

Record WSStatusPayload : Type := mkStatus {
  wp_Status : string;
  wp_StartedAt : option Z;
  wp_ExitCode : option Z;
  wp_DurationMs : Z;
  wp_Maturity : string;
  wp_Executes : string;
  wp_Message : string
}.

Inductive WSPayload : Type :=
  | PayloadFields (fields : list (string * string))
  | PayloadStatus (p : WSStatusPayload).

Record WSMessage : Type := mkWSMessage { wm_ID : string; wm_Type : string; wm_Payload : WSPayload }.

(** A message of the client: its payload is the command it unmarshals to, if it does. *)
Record WSCommandPayload : Type := mkCommand {
  wc_Command : string;
  wc_Args : list string;
  wc_Timeout : Z;
  wc_Stream : bool
}.

Record WSRequest : Type := mkWSRequest { wq_ID : string; wq_Type : string; wq_Payload : option WSCommandPayload }.

(** [dc_handler]: the handler of the connection has not returned. *)
Record AdapterConnection : Type := mkConnection {
  dc_device : MobileAdapter;
  dc_claimsID : string;
  dc_closed : bool;
  dc_sent : list WSMessage;
  dc_handler : bool
}.

Record ServerConfig : Type := mkConfig {
  cfg_profileID : string;
  cfg_approvalRequired : bool;
  cfg_maxAdapters : Z;
  cfg_tlsCert : bool
}.

(** [srv_links] holds the connection objects; [srv_conns] refers to them. *)
Record AdapterServer : Type := mkServer {
  srv_status : string;
  srv_addr : string;
  srv_conns : gmap string nat;
  srv_codes : gmap string PairingSession;
  srv_links : gmap nat AdapterConnection;
  srv_rows : Adapters
}.

Definition NewAdapterServer (rows : Adapters) : AdapterServer := mkServer "stopped" "" ∅ ∅ ∅ rows.

Definition set_rows (s : AdapterServer) (rows : Adapters) : AdapterServer :=
  mkServer (srv_status s) (srv_addr s) (srv_conns s) (srv_codes s) (srv_links s) rows.
Definition set_codes (s : AdapterServer) (codes : gmap string PairingSession) : AdapterServer :=
  mkServer (srv_status s) (srv_addr s) (srv_conns s) codes (srv_links s) (srv_rows s).
Definition set_conns (s : AdapterServer) (conns : gmap string nat) (links : gmap nat AdapterConnection) : AdapterServer :=
  mkServer (srv_status s) (srv_addr s) conns (srv_codes s) links (srv_rows s).

(** ** Pairing codes *)

Definition pairingAlphabet : string := "23456789ABCDEFGHJKMNPQRSTUVWXYZ".

(** [rand] is what successive draws below the length of the alphabet return. *)
Fixpoint drawChars (n : nat) (rand : list (option nat)) : option (list ascii * list (option nat)) :=
  match n with
  | O => Some ([], rand)
  | S n =>
      match rand with
      | Some idx :: rand =>
          match chars pairingAlphabet !! idx, drawChars n rand with
          | Some c, Some (cs, rand') => Some (c :: cs, rand')
          | _, _ => None
          end
      | _ => None
      end
  end.

Fixpoint drawGroups (groupSize numGroups : nat) (rand : list (option nat)) : option (list (list ascii)) :=
  match numGroups with
  | O => Some []
  | S n =>
      match drawChars groupSize rand with
      | None => None
      | Some (g, rand') => match drawGroups groupSize n rand' with None => None | Some gs => Some (g :: gs) end
      end
  end.

Definition GeneratePairingCode (groupSize numGroups : nat) (rand : list (option nat)) : option string :=
  match drawGroups groupSize numGroups rand with None => None | Some gs => Some (unchars (joinOn "-"%char gs)) end.

Definition DefaultPairingCode (rand : list (option nat)) : option string := GeneratePairingCode 3 3 rand.

(** ** Identifiers *)

Definition idChar (c : ascii) : bool :=
  let n := N_of_ascii c in bool_decide (97 <= n <= 122 \/ 48 <= n <= 57 \/ n = 45)%N.

Definition dashSpaces (c : ascii) : ascii := if decide (c = " "%char) then "-"%char else c.

Definition cleanName (name : string) : list ascii :=
  take 20 (filter (fun c => idChar c = true) (map lowerChar (map dashSpaces (chars name)))).

Definition generateAdapterID `{Digest} (now : Z) (name os : string) : string :=
  unchars (cleanName name) +:+ "-" +:+
    EncodeToString (take 4 (Sum256 (name +:+ "-" +:+ os +:+ "-" +:+ pretty (UnixNano now)))).

Definition classifyInterface (name : string) : string :=
  let n := ToLower name in
  if HasPrefix n "en0" || HasPrefix n "wl" then "wifi"
  else if HasPrefix n "en" || HasPrefix n "eth" then "ethernet"
  else if HasPrefix n "utun" || HasPrefix n "tun" || HasPrefix n "wg" then "vpn"
  else "other".

Section server.
Context `{K : KvStore MobileAdapter, J : Jwt, D : Digest} (cfg : ServerConfig).

(** ** Tokens *)

Definition claims_of (now : Z) (device : MobileAdapter) (expiry : Z) : AdapterClaims :=
  mkClaims (ma_AdapterID device) (ma_AdapterName device) (ma_AdapterOS device) (cfg_profileID cfg) (ma_Capabilities device)
    "aps" (ma_AdapterID device) (NewNumericDate now) (NewNumericDate (now + expiry)) (ma_AdapterID device).

Definition CreateToken (now : Z) (device : MobileAdapter) (expiry : Z) : option string :=
  let expiry := if decide (expiry = 0) then DefaultTokenExpiry else expiry in
  SignedString (cfg_profileID cfg) (claims_of now device expiry).

Definition ValidateToken (now : Z) (token : string) : option AdapterClaims := ParseWithClaims now token.

Definition HashToken (token : string) : string := "sha256:" +:+ EncodeToString (Sum256 token).

(** ** Pairing *)

Definition RegisterPairingCode (now : Z) (codes : gmap string PairingSession) (code : string) (caps : list string) (expiry : Z)
  : gmap string PairingSession :=
  <[code := mkPairing code (cfg_profileID cfg) caps (now + expiry) false]> codes.

(** The part of a request under the lock of the codes; errors are HTTP statuses. *)
Definition claimCode (now : Z) (codes : gmap string PairingSession) (code : string)
  : gmap string PairingSession * Res Z PairingSession :=
  match codes !! code with
  | None => (codes, Err 401)
  | Some s =>
      if ps_Used s then (codes, Err 409)
      else if After now (ps_ExpiresAt s) then (delete code codes, Err 410)
      else let s := mkPairing (ps_Code s) (ps_ProfileID s) (ps_Capabilities s) (ps_ExpiresAt s) true in
           (<[code := s]> codes, Ok s)
  end.

Definition checkLimit (now : Z) (rows : Adapters) : Res Z unit :=
  match CountActive now rows (cfg_profileID cfg) with
  | Err _ => Err 500
  | Ok activeCount => if cfg_maxAdapters cfg <=? activeCount then Err 409 else Ok tt
  end.

(** The readings of the clock in one request, in their order. *)
Record Clocks : Type := mkClocks { t_claim : Z; t_count : Z; t_id : Z; t_now : Z; t_token : Z }.

Definition initialStatus : PairingState :=
  if cfg_approvalRequired cfg then PairingStatePending else PairingStateActive.

Definition newDevice (clk : Clocks) (req : PairingRequest) (session : PairingSession) (tokenHash : string) : MobileAdapter :=
  mkAdapter (generateAdapterID (t_id clk) (rq_AdapterName req) (rq_AdapterOS req)) (cfg_profileID cfg)
    (rq_AdapterName req) (rq_AdapterOS req) (rq_AdapterVersion req) (rq_AdapterModel req)
    (t_now clk) (t_now clk) (t_now clk + DefaultTokenExpiry) tokenHash initialStatus (ps_Capabilities session)
    (cfg_approvalRequired cfg) None.

Definition wsEndpoint (host : string) : string :=
  (if cfg_tlsCert cfg then "wss" else "ws") +:+ "://" +:+ host +:+ "/aps/adapter/" +:+ cfg_profileID cfg +:+ "/ws".

Definition createDevice (clk : Clocks) (host : string) (rows : Adapters) (req : PairingRequest) (session : PairingSession)
  : Adapters * Res Z PairingResponse :=
  match CreateToken (t_token clk) (newDevice clk req session "") DefaultTokenExpiry with
  | None => (rows, Err 500)
  | Some token =>
      let device := newDevice clk req session (HashToken token) in
      match RegisterAdapter rows device with
      | (rows', Err _) => (rows', Err 500)
      | (rows', Ok _) =>
          (rows', Ok (mkResponse (ma_AdapterID device) token (wsEndpoint host) (ma_ExpiresAt device)
                        (cfg_profileID cfg) initialStatus))
      end
  end.

(** [body]: what the body of the request unmarshals to. *)
Definition handlePair (clk : Clocks) (srv : AdapterServer) (method host : string) (body : option PairingRequest)
  : AdapterServer * Res Z PairingResponse :=
  if decide (method <> "POST") then (srv, Err 405) else
  match body with
  | None => (srv, Err 400)
  | Some req =>
      match claimCode (t_claim clk) (srv_codes srv) (rq_PairingCode req) with
      | (codes, Err e) => (set_codes srv codes, Err e)
      | (codes, Ok session) =>
          match checkLimit (t_count clk) (srv_rows srv) with
          | Err e => (set_codes srv codes, Err e)
          | Ok _ =>
              match createDevice clk host (srv_rows srv) req session with
              | (rows, r) => (set_rows (set_codes srv codes) rows, r)
              end
          end
      end
  end.

(** ** Connections *)

Definition WriteJSON (dc : AdapterConnection) (v : WSMessage) : AdapterConnection :=
  if dc_closed dc then dc
  else mkConnection (dc_device dc) (dc_claimsID dc) false (dc_sent dc ++ [v]) (dc_handler dc).

Definition Connection_Close (dc : AdapterConnection) : AdapterConnection :=
  mkConnection (dc_device dc) (dc_claimsID dc) true (dc_sent dc) (dc_handler dc).

Definition handleCommand (now : Z) (dc : AdapterConnection) (msg : WSRequest) : AdapterConnection :=
  match wq_Payload msg with
  | None => WriteJSON dc (mkWSMessage (wq_ID msg) "error" (PayloadFields [("error", "invalid command payload")]))
  | Some cmd =>
      let dc := WriteJSON dc (mkWSMessage (wq_ID msg) "status" (PayloadStatus (mkStatus "running" (Some now) None 0 "" "" ""))) in
      WriteJSON dc (mkWSMessage (wq_ID msg) "status" (PayloadStatus (mkStatus "received" None None 0 "placeholder" "none"
        ("mobile command " +:+ Quote (wc_Command cmd) +:+ " received but not executed"))))
  end.

Definition handleWSMessage (now : Z) (dc : AdapterConnection) (msg : WSRequest) : AdapterConnection :=
  if decide (wq_Type msg = "command") then handleCommand now dc msg
  else WriteJSON dc (mkWSMessage (wq_ID msg) "error" (PayloadFields [("error", "unknown message type: " +:+ wq_Type msg)])).

(** Who may connect. *)
Definition authorize (now : Z) (rows : Adapters) (authHeader : string) : Res Z (AdapterClaims * MobileAdapter) :=
  if decide (authHeader = "") then Err 401 else
  match ValidateToken now (TrimPrefix authHeader "Bearer ") with
  | None => Err 401
  | Some claims =>
      match GetAdapter rows (cl_AdapterID claims) with
      | Err _ => Err 404
      | Ok device => if IsActive now device then Ok (claims, device) else Err 403
      end
  end.

(** The handler up to its message loop; [cid] names the new connection, [upgrades] says
    whether the upgrade to a websocket succeeds. *)
Definition openWebSocket (now : Z) (srv : AdapterServer) (cid : nat) (upgrades : bool) (authHeader : string)
  : AdapterServer * Res Z unit :=
  match authorize now (srv_rows srv) authHeader with
  | Err e => (srv, Err e)
  | Ok (claims, device) =>
      if upgrades then
        let id := cl_AdapterID claims in
        let dc := mkConnection device id false [] true in
        let dc := WriteJSON dc (mkWSMessage "" "status"
                    (PayloadFields [("status", "connected"); ("device_id", id); ("profile", cfg_profileID cfg)])) in
        (set_conns (set_rows srv (UpdateLastSeen now (srv_rows srv) id).1)
           (<[id := cid]> (srv_conns srv)) (<[cid := dc]> (srv_links srv)), Ok tt)
      else (srv, Err 400)
  end.

(** One message; a closed connection delivers none. *)
Definition readWebSocket (now : Z) (srv : AdapterServer) (cid : nat) (msg : WSRequest) : AdapterServer :=
  match srv_links srv !! cid with
  | Some dc =>
      if dc_handler dc && negb (dc_closed dc) then
        set_conns (set_rows srv (UpdateLastSeen now (srv_rows srv) (dc_claimsID dc)).1)
          (srv_conns srv) (<[cid := handleWSMessage now dc msg]> (srv_links srv))
      else srv
  | None => srv
  end.

(** The end of the handler: reading failed, and its deferred function runs. *)
Definition endWebSocket (srv : AdapterServer) (cid : nat) : AdapterServer :=
  match srv_links srv !! cid with
  | Some dc =>
      if dc_handler dc then
        set_conns srv (delete (dc_claimsID dc) (srv_conns srv))
          (<[cid := mkConnection (dc_device dc) (dc_claimsID dc) true (dc_sent dc) false]> (srv_links srv))
      else srv
  | None => srv
  end.

Definition ActiveConnections (srv : AdapterServer) : nat := size (srv_conns srv).

(** ** Starting and stopping *)

(** [listens]: the address the listener gets, or nothing when the port is taken. *)
Definition Server_Start (srv : AdapterServer) (listens : option string) : AdapterServer * bool :=
  if decide (srv_status srv = "running") then (srv, false) else
  match listens with
  | None => (srv, false)
  | Some addr => (mkServer "running" addr (srv_conns srv) (srv_codes srv) (srv_links srv) (srv_rows srv), true)
  end.

Definition closeIn (conns : gmap string nat) (cid : nat) (dc : AdapterConnection) : AdapterConnection :=
  if bool_decide (cid ∈ (map_to_list conns).*2) then Connection_Close dc else dc.

Definition Server_Stop (srv : AdapterServer) (shutsDown : bool) : AdapterServer * bool :=
  if decide (srv_status srv <> "running") then (srv, true) else
  let links := map_imap (fun cid dc => Some (closeIn (srv_conns srv) cid dc)) (srv_links srv) in
  (mkServer (if shutsDown then "stopped" else "stopping") (srv_addr srv) ∅ ∅ links (srv_rows srv), shutsDown).

(** The goroutine that serves has returned. *)
Definition serveEnded (srv : AdapterServer) : AdapterServer :=
  mkServer "stopped" (srv_addr srv) (srv_conns srv) (srv_codes srv) (srv_links srv) (srv_rows srv).

(** ** The machine *)

(** A request that has claimed its code. *)
Inductive PairThread : Type :=
  | Claimed (s : PairingSession) (req : PairingRequest)
  | Allowed (s : PairingSession) (req : PairingRequest)
  | Finished (s : PairingSession) (r : Res Z PairingResponse).

Inductive SrvEvent : Type :=
  | EvCode (now : Z) (code : string) (caps : list string) (expiry : Z)
  | EvClaim (now : Z) (tid : nat) (req : PairingRequest)
  | EvLimit (now : Z) (tid : nat)
  | EvCreate (clk : Clocks) (host : string) (tid : nat)
  | EvRegistry (op : MobOp)
  | EvOpen (now : Z) (cid : nat) (upgrades : bool) (authHeader : string)
  | EvRead (now : Z) (cid : nat) (msg : WSRequest)
  | EvEnd (cid : nat)
  | EvStart (listens : option string)
  | EvStop (shutsDown : bool)
  | EvServed.

Record SrvState : Type := mkState { st_srv : AdapterServer; st_pairs : gmap nat PairThread }.

Definition with_srv (st : SrvState) (srv : AdapterServer) : SrvState := mkState srv (st_pairs st).

Definition srv_step (st : SrvState) (ev : SrvEvent) : SrvState :=
  let srv := st_srv st in
  match ev with
  | EvCode now code caps expiry => with_srv st (set_codes srv (RegisterPairingCode now (srv_codes srv) code caps expiry))
  | EvClaim now tid req =>
      match st_pairs st !! tid with
      | Some _ => st
      | None =>
          match claimCode now (srv_codes srv) (rq_PairingCode req) with
          | (codes, Err _) => with_srv st (set_codes srv codes)
          | (codes, Ok s) => mkState (set_codes srv codes) (<[tid := Claimed s req]> (st_pairs st))
          end
      end
  | EvLimit now tid =>
      match st_pairs st !! tid with
      | Some (Claimed s req) =>
          mkState srv (<[tid := match checkLimit now (srv_rows srv) with Ok _ => Allowed s req | Err e => Finished s (Err e) end]>
                         (st_pairs st))
      | _ => st
      end
  | EvCreate clk host tid =>
      match st_pairs st !! tid with
      | Some (Allowed s req) =>
          match createDevice clk host (srv_rows srv) req s with
          | (rows, r) => mkState (set_rows srv rows) (<[tid := Finished s r]> (st_pairs st))
          end
      | _ => st
      end
  | EvRegistry op => with_srv st (set_rows srv (mob_exec (srv_rows srv) op))
  | EvOpen now cid upgrades auth =>
      match srv_links srv !! cid with
      | Some _ => st
      | None => with_srv st (openWebSocket now srv cid upgrades auth).1
      end
  | EvRead now cid msg => with_srv st (readWebSocket now srv cid msg)
  | EvEnd cid => with_srv st (endWebSocket srv cid)
  | EvStart listens => with_srv st (Server_Start srv listens).1
  | EvStop shutsDown => with_srv st (Server_Stop srv shutsDown).1
  | EvServed => with_srv st (serveEnded srv)
  end.

Definition srv_run (st : SrvState) (evs : list SrvEvent) : SrvState := foldl srv_step st evs.

End server.

(** ** Pairing codes are single-use *)

Definition session_of (th : PairThread) : PairingSession :=
  match th with Claimed s _ | Allowed s _ | Finished s _ => s end.

Definition registers (code : string) (ev : SrvEvent) : Prop :=
  match ev with EvCode _ c _ _ => c = code | _ => False end.

#[export] Instance registers_dec code ev : Decision (registers code ev).
Proof. destruct ev; simpl; apply _. Defined.

(** How many requests have claimed a code, and how often it has been registered. *)
Definition claims_on (code : string) (pairs : gmap nat PairThread) : nat :=
  size (filter (fun kt => ps_Code (session_of kt.2) = code) pairs).
Definition registrations (code : string) (evs : list SrvEvent) : nat := length (filter (registers code) evs).

Definition open_code (codes : gmap string PairingSession) (code : string) : nat :=
  match codes !! code with Some s => if ps_Used s then 0%nat else 1%nat | None => 0%nat end.

Section pairing.
Context (cfg : ServerConfig).

(** The session comes from a registration. *)
Definition issued (evs : list SrvEvent) (s : PairingSession) : Prop :=
  ps_ProfileID s = cfg_profileID cfg /\
  exists now expiry, EvCode now (ps_Code s) (ps_Capabilities s) expiry ∈ evs /\ ps_ExpiresAt s = now + expiry.

(** The request claimed its session with its code, in time. *)
Definition claimed_in_time (evs : list SrvEvent) (tid : nat) (s : PairingSession) : Prop :=
  issued evs s /\ exists now req, EvClaim now tid req ∈ evs /\ rq_PairingCode req = ps_Code s /\ now <= ps_ExpiresAt s.

Lemma issued_more evs ev s : issued evs s -> issued (evs ++ [ev]) s.
Proof. intros (? & now & expiry & H & ?). split; [done|]. exists now, expiry. rewrite elem_of_app. auto. Qed.

Lemma claimed_more evs ev tid s : claimed_in_time evs tid s -> claimed_in_time (evs ++ [ev]) tid s.
Proof.
  intros [Hi (now & req & H & ?)]. split; [by apply issued_more|]. exists now, req. rewrite elem_of_app. auto.
Qed.

Record pairing_inv (evs : list SrvEvent) (codes : gmap string PairingSession) (pairs : gmap nat PairThread) : Prop := {
  inv_codes : forall c s, codes !! c = Some s -> ps_Code s = c /\ issued evs s;
  inv_count : forall c, (claims_on c pairs + open_code codes c <= registrations c evs)%nat;
  inv_pairs : forall tid th, pairs !! tid = Some th -> claimed_in_time evs tid (session_of th)
}.

Lemma registrations_snoc c evs ev :
  registrations c (evs ++ [ev]) = (registrations c evs + if decide (registers c ev) then 1 else 0)%nat.
Proof. unfold registrations. rewrite filter_app, length_app. rewrite filter_cons, filter_nil. by case_decide. Qed.

Lemma claims_on_new c pairs tid th :
  pairs !! tid = None ->
  claims_on c (<[tid := th]> pairs) = (claims_on c pairs + if decide (ps_Code (session_of th) = c) then 1 else 0)%nat.
Proof.
  intros Hn. unfold claims_on. rewrite map_filter_insert. simpl.
  case_decide.
  - rewrite map_size_insert_None; [lia|]. apply map_lookup_filter_None. by left.
  - rewrite delete_id by done. lia.
Qed.

Lemma claims_on_same c pairs tid th th' :
  pairs !! tid = Some th -> session_of th' = session_of th -> claims_on c (<[tid := th']> pairs) = claims_on c pairs.
Proof.
  intros Ht Hs. rewrite <- (insert_delete_id pairs tid th Ht) at 2. rewrite <- (insert_delete_eq pairs tid th').
  rewrite !claims_on_new by apply lookup_delete_eq. by rewrite Hs.
Qed.

Lemma pairing_inv_more evs ev codes pairs :
  pairing_inv evs codes pairs -> pairing_inv (evs ++ [ev]) codes pairs.
Proof.
  intros [H1 H2 H3]. split.
  - intros c s H. destruct (H1 c s H). split; [done|]. by apply issued_more.
  - intros c. rewrite registrations_snoc. specialize (H2 c). lia.
  - intros tid th H. by apply claimed_more, H3.
Qed.

Lemma pairing_inv_pairs evs codes pairs tid th th' :
  pairing_inv evs codes pairs -> pairs !! tid = Some th -> session_of th' = session_of th ->
  pairing_inv evs codes (<[tid := th']> pairs).
Proof.
  intros [H1 H2 H3] Ht Hs. split; [done| |].
  - intros c. by rewrite (claims_on_same c pairs tid th th').
  - intros tid' th2. rewrite lookup_insert_Some. intros [[<- <-]|[_ H]]; [rewrite Hs|]; by apply H3.
Qed.

Lemma pairing_inv_code evs codes pairs now code caps expiry :
  pairing_inv evs codes pairs ->
  pairing_inv (evs ++ [EvCode now code caps expiry]) (RegisterPairingCode cfg now codes code caps expiry) pairs.
Proof.
  intros H. pose proof (pairing_inv_more _ (EvCode now code caps expiry) _ _ H) as [H1 _ H3]. destruct H as [_ H2 _].
  unfold RegisterPairingCode. split; [| |done].
  - intros c s. rewrite lookup_insert_Some. intros [[<- <-]|[_ ?]]; [|by apply H1]. split; [done|]. split; [done|].
    exists now, expiry. split; [|done]. apply elem_of_app. right. left.
  - intros c. rewrite registrations_snoc. specialize (H2 c). unfold open_code in *. simpl.
    destruct (decide (code = c)) as [->|Hne]; [rewrite lookup_insert_eq; simpl; lia|rewrite lookup_insert_ne by done; lia].
Qed.

Lemma pairing_inv_clear evs pairs codes : pairing_inv evs codes pairs -> pairing_inv evs ∅ pairs.
Proof.
  intros [H1 H2 H3]. split; [|intros c; specialize (H2 c); unfold open_code in *|done].
  - intros c s. by rewrite lookup_empty.
  - rewrite lookup_empty. lia.
Qed.

Lemma pairing_inv_claim evs codes pairs now tid req :
  pairing_inv evs codes pairs -> pairs !! tid = None ->
  match claimCode now codes (rq_PairingCode req) with
  | (codes', Err _) => pairing_inv (evs ++ [EvClaim now tid req]) codes' pairs
  | (codes', Ok s) => pairing_inv (evs ++ [EvClaim now tid req]) codes' (<[tid := Claimed s req]> pairs)
  end.
Proof.
  intros H Hn. pose proof (pairing_inv_more _ (EvClaim now tid req) _ _ H) as [H1 H2 H3]. set (evs' := evs ++ _) in *.
  unfold claimCode. set (code := rq_PairingCode req) in *. destruct (codes !! code) as [s|] eqn:Ec; [|done].
  destruct (ps_Used s) eqn:Eu; [done|]. destruct (H1 _ _ Ec) as [Hc Hi]. destruct (After now (ps_ExpiresAt s)) eqn:Ea.
  - split; [| |done].
    + intros c s'. rewrite lookup_delete_Some. intros [_ ?]. by apply H1.
    + intros c. specialize (H2 c). unfold open_code in *. destruct (decide (c = code)) as [->|Hne].
      * rewrite lookup_delete_eq. rewrite Ec in H2. lia.
      * by rewrite lookup_delete_ne.
  - split.
    + intros c s'. rewrite lookup_insert_Some. intros [[<- <-]|[_ ?]]; [done|by apply H1].
    + intros c. rewrite claims_on_new by done. specialize (H2 c). unfold open_code in *. simpl. rewrite Hc.
      destruct (decide (code = c)) as [->|Hne].
      * rewrite lookup_insert_eq, Ec, Eu in *. simpl. lia.
      * rewrite lookup_insert_ne by done. lia.
    + intros tid' th. rewrite lookup_insert_Some. intros [[<- <-]|[_ ?]]; [|by apply H3]. split; [done|].
      exists now, req. split_and!; [apply elem_of_app; right; left|done|]. simpl. unfold After in Ea. lia.
Qed.

End pairing.

Section machine.
Context `{K : KvStore MobileAdapter, J : Jwt, D : Digest} (cfg : ServerConfig).

Lemma openWebSocket_codes now srv cid up auth : srv_codes (openWebSocket cfg now srv cid up auth).1 = srv_codes srv.
Proof. unfold openWebSocket. destruct (authorize _ _ _) as [[claims d]|]; [|done]. by destruct up. Qed.

Lemma readWebSocket_codes now srv cid msg : srv_codes (readWebSocket now srv cid msg) = srv_codes srv.
Proof. unfold readWebSocket. destruct (srv_links srv !! cid) as [dc|]; [|done]. by destruct (dc_handler dc && _). Qed.

Lemma endWebSocket_codes srv cid : srv_codes (endWebSocket srv cid) = srv_codes srv.
Proof. unfold endWebSocket. destruct (srv_links srv !! cid) as [dc|]; [|done]. by destruct (dc_handler dc). Qed.

Lemma srv_step_pairing evs st ev :
  pairing_inv cfg evs (srv_codes (st_srv st)) (st_pairs st) ->
  pairing_inv cfg (evs ++ [ev]) (srv_codes (st_srv (srv_step cfg st ev))) (st_pairs (srv_step cfg st ev)).
Proof.
  intros H. pose proof (pairing_inv_more cfg evs ev _ _ H) as Hm.
  destruct ev as [now code caps expiry|now tid req|now tid|clk host tid|op|now cid up auth|now cid msg|cid|listens|down|]; simpl.
  - by apply pairing_inv_code.
  - destruct (st_pairs st !! tid) as [th|] eqn:Et; [done|].
    pose proof (pairing_inv_claim cfg evs _ _ now tid req H Et) as Hc.
    by destruct (claimCode now _ _) as [codes [s|e]].
  - destruct (st_pairs st !! tid) as [[s req|s req|s r]|] eqn:Et; try done. simpl.
    eapply pairing_inv_pairs; [done|done|]. by destruct (checkLimit _ _ _).
  - destruct (st_pairs st !! tid) as [[s req|s req|s r]|] eqn:Et; try done.
    destruct (createDevice _ _ _ _ _ _) as [rows r]. simpl. by eapply pairing_inv_pairs.
  - done.
  - destruct (srv_links (st_srv st) !! cid); [done|]. simpl. by rewrite openWebSocket_codes.
  - by rewrite readWebSocket_codes.
  - by rewrite endWebSocket_codes.
  - unfold Server_Start. case_decide; [done|]. by destruct listens.
  - unfold Server_Stop. case_decide; [done|]. simpl. by eapply pairing_inv_clear.
  - done.
Qed.

(** C36: pairing codes.  However requests, registrations of codes, connections, restarts
    and changes of the registry interleave, a code is claimed by no more requests
    than it was registered; and a request that has claimed one got the profile and
    the capabilities of such a registration, presented that code, and did so before
    it expired. *)
Theorem pairing_code_single_use (rows : Adapters) (evs : list SrvEvent) :
  let st := srv_run cfg (mkState (NewAdapterServer rows) ∅) evs in
  (forall code, (claims_on code (st_pairs st) <= registrations code evs)%nat) /\
  (forall tid th, st_pairs st !! tid = Some th -> claimed_in_time cfg evs tid (session_of th)).
Proof.
  intros st. assert (pairing_inv cfg evs (srv_codes (st_srv st)) (st_pairs st)) as [_ H2 H3].
  { unfold st. clear st. induction evs as [|ev evs IH] using rev_ind.
    - split; simpl; [by intros c s|intros c; by unfold claims_on; rewrite map_filter_empty|by intros tid th].
    - unfold srv_run. rewrite foldl_snoc. by apply srv_step_pairing. }
  split; [|done]. intros code. specialize (H2 code). lia.
Qed.

(** A whole request is its three parts with nothing in between. *)
Lemma handlePair_parts clk st host req tid :
  st_pairs st !! tid = None ->
  let st' := srv_run cfg st [EvClaim (t_claim clk) tid req; EvLimit (t_count clk) tid; EvCreate clk host tid] in
  st_srv st' = (handlePair cfg clk (st_srv st) "POST" host (Some req)).1 /\
  (forall resp, (handlePair cfg clk (st_srv st) "POST" host (Some req)).2 = Ok resp ->
     exists s, st_pairs st' !! tid = Some (Finished s (Ok resp))).
Proof.
  intros Hn. unfold srv_run, handlePair. simpl. rewrite Hn.
  destruct (claimCode _ _ _) as [codes [s|e]]; simpl; [|rewrite Hn; simpl; by rewrite Hn].
  rewrite lookup_insert_eq. destruct (checkLimit _ _ _) as [[]|e]; simpl; rewrite lookup_insert_eq; [|by simpl].
  destruct (createDevice _ _ _ _ _ _) as [rows r]. simpl. split; [done|]. intros resp ->. exists s. by rewrite lookup_insert_eq.
Qed.

(** ** The limit on active adapters *)

Context {L : KvLaws K}.

(** The rows after a request: as before, or with the new device registered. *)
Lemma createDevice_rows clk host rows req s :
  exists ops, (createDevice cfg clk host rows req s).1 = foldl mob_exec rows ops /\
    (ops = [] \/ exists hash, ops = [OpRegisterAdapter (newDevice cfg clk req s hash)]).
Proof.
  unfold createDevice. destruct (CreateToken _ _ _ _) as [token|]; [|by exists []; auto].
  exists [OpRegisterAdapter (newDevice cfg clk req s (HashToken token))]. split; [|eauto]. simpl.
  by destruct (RegisterAdapter _ _) as [rows' [[]|]].
Qed.

Lemma register_active now p m d :
  adapters_ok m -> active_rows now p (mob_exec m (OpRegisterAdapter d)) <= active_rows now p m + 1.
Proof.
  intros Hok. destruct (mob_exec_changes m (OpRegisterAdapter d) Hok) as [Hok' Hc].
  apply (active_rows_le now now p m _ [ma_AdapterID d] Hok Hok'). intros id (d' & Hd & ?).
  destruct (Hc id) as [E|(o & o' & Ho & Ho' & Hmv)].
  - left. exists d'. unfold row_of in *. by rewrite E in Hd.
  - right. inversion Hmv; subst. by left.
Qed.

Lemma handlePair_rows clk srv method host body :
  srv_rows (handlePair cfg clk srv method host body).1 = srv_rows srv \/
  (exists req s hash, active_rows (t_count clk) (cfg_profileID cfg) (srv_rows srv) < cfg_maxAdapters cfg /\
     srv_rows (handlePair cfg clk srv method host body).1 =
       mob_exec (srv_rows srv) (OpRegisterAdapter (newDevice cfg clk req s hash))).
Proof.
  unfold handlePair. case_decide; [by left|]. destruct body as [req|]; [|by left].
  destruct (claimCode _ _ _) as [codes [s|e]]; [|by left]. unfold checkLimit.
  destruct (CountActive _ _ _) as [n|] eqn:En; [|by left]. apply CountActive_Ok in En as ->.
  destruct (cfg_maxAdapters cfg <=? _) eqn:El; [by left|]. apply Z.leb_gt in El.
  destruct (createDevice_rows clk host (srv_rows srv) req s) as (ops & E & Hops).
  destruct (createDevice _ _ _ _ _ _) as [rows r]. simpl in *. destruct Hops as [->|(hash & ->)]; [by left|right].
  by exists req, s, hash.
Qed.

(** Requests one after the other, and registry operations that activate no adapter,
    as time passes. *)
Inductive limit_run : Z -> AdapterServer -> Z -> AdapterServer -> Prop :=
  | run_done t srv : limit_run t srv t srv
  | run_later t t1 t2 srv srv' : t <= t1 -> limit_run t1 srv t2 srv' -> limit_run t srv t2 srv'
  | run_pair t t2 clk srv method host body srv' : t <= t_count clk ->
      limit_run (t_count clk) (handlePair cfg clk srv method host body).1 t2 srv' -> limit_run t srv t2 srv'
  | run_registry t t2 op srv srv' : activates op = false ->
      limit_run t (set_rows srv (mob_exec (srv_rows srv) op)) t2 srv' -> limit_run t srv t2 srv'
  | run_code t t2 codes srv srv' : limit_run t (set_codes srv codes) t2 srv' -> limit_run t srv t2 srv'.

(** The limit.  While requests to pair are handled one after the other and no
    adapter is approved or overwritten, a profile that has at most the maximal number
    of active adapters never gets more. *)
Theorem adapter_limit (t t' : Z) (srv srv' : AdapterServer) (Hok : adapters_ok (srv_rows srv))
    (Hmax : active_rows t (cfg_profileID cfg) (srv_rows srv) <= cfg_maxAdapters cfg) (Hrun : limit_run t srv t' srv') :
  adapters_ok (srv_rows srv') /\ active_rows t' (cfg_profileID cfg) (srv_rows srv') <= cfg_maxAdapters cfg.
Proof.
  revert Hok Hmax. induction Hrun as [|t t1 t2 srv srv' Ht _ IH|t t2 clk srv method host body srv' Ht _ IH
    |t t2 op srv srv' Hop _ IH|t t2 codes srv srv' _ IH]; intros Hok Hmax; [done|..].
  - apply IH; [done|]. pose proof (active_rows_later t t1 (cfg_profileID cfg) _ Hok Ht). lia.
  - pose proof (active_rows_later t (t_count clk) (cfg_profileID cfg) _ Hok Ht).
    destruct (handlePair_rows clk srv method host body) as [E|(req & s & hash & Hlt & E)].
    + apply IH; rewrite E; [done|lia].
    + apply IH; rewrite E; [by apply mob_exec_changes|].
      pose proof (register_active (t_count clk) (cfg_profileID cfg) _ (newDevice cfg clk req s hash) Hok). lia.
  - apply IH; simpl; [by apply mob_exec_changes|]. pose proof (active_rows_step t (cfg_profileID cfg) _ op Hok Hop). lia.
  - by apply IH.
Qed.

(** ** Revocation and connections *)

Lemma lastSeen_exec now rows id : (UpdateLastSeen now rows id).1 = mob_exec rows (OpLastSeen now id).
Proof. done. Qed.

(** What an event does to the registry is a run of its operations; only the registry's
    own events replace an adapter. *)
Lemma srv_step_rows st ev :
  exists ops, srv_rows (st_srv (srv_step cfg st ev)) = foldl mob_exec (srv_rows (st_srv st)) ops /\
    forall id op, op ∈ ops -> replaces id op -> ev = EvRegistry op.
Proof.
  destruct ev as [now code caps expiry|now tid req|now tid|clk host tid|op|now cid up auth|now cid msg|cid|listens|down|]; simpl.
  all: try (exists []; split; [done|]; by intros id op ?%elem_of_nil).
  - exists []. split; [|by intros id op ?%elem_of_nil]. destruct (st_pairs st !! tid); [done|].
    by destruct (claimCode _ _ _) as [codes [s|e]].
  - exists []. split; [|by intros id op ?%elem_of_nil]. by destruct (st_pairs st !! tid) as [[]|].
  - destruct (st_pairs st !! tid) as [[s req|s req|s r]|]; try (exists []; split; [done|]; by intros id op ?%elem_of_nil).
    destruct (createDevice_rows clk host (srv_rows (st_srv st)) req s) as (ops & E & Hops). exists ops.
    destruct (createDevice _ _ _ _ _ _) as [rows r]. simpl in *. split; [done|].
    destruct Hops as [->|(hash & ->)]; intros id op; [by intros ?%elem_of_nil|]. by intros ->%list_elem_of_singleton.
  - exists [op]. split; [done|]. intros id op'. by intros ->%list_elem_of_singleton.
  - destruct (srv_links (st_srv st) !! cid); [exists []; split; [done|]; by intros id op ?%elem_of_nil|].
    unfold openWebSocket. destruct (authorize _ _ _) as [[claims d]|]; [destruct up|].
    2,3: exists []; split; [done|]; by intros id op ?%elem_of_nil.
    exists [OpLastSeen now (cl_AdapterID claims)]. split; [done|]. intros id op. by intros ->%list_elem_of_singleton.
  - unfold readWebSocket. destruct (srv_links (st_srv st) !! cid) as [dc|]; [destruct (dc_handler dc && _)|].
    2,3: exists []; split; [done|]; by intros id op ?%elem_of_nil.
    exists [OpLastSeen now (dc_claimsID dc)]. split; [done|]. intros id op. by intros ->%list_elem_of_singleton.
  - exists []. split; [|by intros id op ?%elem_of_nil]. unfold endWebSocket.
    destruct (srv_links (st_srv st) !! cid) as [dc|]; [|done]. by destruct (dc_handler dc).
  - exists []. split; [|by intros id op ?%elem_of_nil]. unfold Server_Start. case_decide; [done|]. by destruct listens.
  - exists []. split; [|by intros id op ?%elem_of_nil]. unfold Server_Stop. by case_decide.
Qed.

Lemma srv_run_rows st evs :
  exists ops, srv_rows (st_srv (srv_run cfg st evs)) = foldl mob_exec (srv_rows (st_srv st)) ops /\
    forall id op, op ∈ ops -> replaces id op -> EvRegistry op ∈ evs.
Proof.
  revert st. induction evs as [|ev evs IH]; intros st; simpl.
  { exists []. split; [done|]. by intros id op ?%elem_of_nil. }
  destruct (srv_step_rows st ev) as (ops1 & E1 & H1). destruct (IH (srv_step cfg st ev)) as (ops2 & E2 & H2).
  exists (ops1 ++ ops2). split; [by rewrite foldl_app, <- E1|]. intros id op [Hin|Hin]%elem_of_app Hr; apply elem_of_cons.
  - left. by rewrite (H1 id op Hin Hr).
  - right. by eapply H2.
Qed.

(** What it takes to connect. *)
Lemma authorize_iff now rows auth claims d :
  authorize now rows auth = Ok (claims, d) <->
  auth <> "" /\ ParseWithClaims now (TrimPrefix auth "Bearer ") = Some claims /\
  getAdapter rows (cl_AdapterID claims) = Ok (Some d) /\ ma_Status d = PairingStateActive /\ now <= ma_ExpiresAt d.
Proof.
  unfold authorize, ValidateToken, GetAdapter, IsActive, IsExpired, After. split.
  - case_decide; [done|]. destruct (ParseWithClaims _ _) as [c|]; [|done].
    destruct (getAdapter _ _) as [[d0|]|] eqn:Eg; try done. case_bool_decide; [|done]. simpl.
    destruct (ma_ExpiresAt d0 <? now) eqn:El; [done|]. simpl. intros [= <- <-]. split_and!; [done..|lia].
  - intros (Ha & -> & -> & Hs & Ht). rewrite decide_False by done. rewrite bool_decide_true by done.
    rewrite (proj2 (Z.ltb_ge _ _)) by lia. done.
Qed.

(** revocation.  Once an adapter is revoked, no event other than an [UpdateAdapter]
    of it lets it connect again: after every run without one, a token of this
    adapter is refused, valid or not, whatever the clock says, and the connections
    and their messages are as before. *)
Theorem revoked_adapter_refused (st : SrvState) (evs : list SrvEvent) (id : string) (d : MobileAdapter)
    (Hok : adapters_ok (srv_rows (st_srv st))) (Hd : row_of (srv_rows (st_srv st)) id (Some d))
    (Hrevoked : ma_Status d = PairingStateRevoked)
    (Hno : forall op, EvRegistry op ∈ evs -> ~ replaces id op) :
  let st' := srv_run cfg st evs in
  (exists d', row_of (srv_rows (st_srv st')) id (Some d') /\ ma_Status d' = PairingStateRevoked) /\
  forall now cid upgrades auth claims,
    ParseWithClaims now (TrimPrefix auth "Bearer ") = Some claims -> cl_AdapterID claims = id ->
    (exists code, (openWebSocket cfg now (st_srv st') cid upgrades auth).2 = Err code) /\
    srv_step cfg st' (EvOpen now cid upgrades auth) = st'.
Proof.
  intros st'. destruct (srv_run_rows st evs) as (ops & E & Hops).
  assert (exists d', row_of (srv_rows (st_srv st')) id (Some d') /\ ma_Status d' = PairingStateRevoked) as (d' & Hd' & Hs').
  { unfold st'. rewrite E. eapply revoked_run; [done..|]. intros op Hin Hr. by eapply Hno; [eapply Hops|]. }
  split; [by exists d'|]. intros now cid upgrades auth claims Hp Hid.
  assert (exists code, authorize now (srv_rows (st_srv st')) auth = Err code) as [code Ha].
  { destruct (authorize _ _ _) as [[c d2]|code] eqn:Ha; [|eauto].
    apply authorize_iff in Ha as (_ & Hp2 & Hg & Hs2 & _). apply getAdapter_Ok in Hg. assert (c = claims) as -> by congruence.
    rewrite Hid in Hg. pose proof (row_of_inj _ _ _ _ Hd' Hg) as [= <-]. pairing_states. }
  unfold srv_step, openWebSocket. rewrite Ha. split; [by exists code|].
  destruct (srv_links _ !! cid); [done|]. by destruct st'.
Qed.

Lemma RegisterAdapter_Ok m d m' : RegisterAdapter m d = (m', Ok tt) -> row_of m' (ma_AdapterID d) (Some d).
Proof.
  unfold RegisterAdapter. destruct (getAdapter _ _) as [[?|]|]; try done. unfold putAdapter.
  destruct (putRow _ _ _) as [m1 [[]|]] eqn:E; try done. apply putRow_Ok in E as ->. intros [= <-].
  unfold row_of. by rewrite lookup_insert_eq.
Qed.

(** What a request that succeeds has done. *)
Lemma handlePair_Ok clk srv host req resp :
  (handlePair cfg clk srv "POST" host (Some req)).2 = Ok resp ->
  exists s token, srv_codes srv !! rq_PairingCode req = Some s /\
    CreateToken cfg (t_token clk) (newDevice cfg clk req s "") DefaultTokenExpiry = Some token /\
    let device := newDevice cfg clk req s (HashToken token) in
    row_of (srv_rows (handlePair cfg clk srv "POST" host (Some req)).1) (ma_AdapterID device) (Some device) /\
    resp = mkResponse (ma_AdapterID device) token (wsEndpoint cfg host) (ma_ExpiresAt device) (cfg_profileID cfg) (initialStatus cfg).
Proof.
  unfold handlePair. simpl. unfold claimCode. destruct (srv_codes srv !! rq_PairingCode req) as [s|]; [|done].
  destruct (ps_Used s); [done|]. destruct (After _ _); [done|]. destruct (checkLimit _ _ _); [|done].
  unfold createDevice. destruct (CreateToken _ _ _ _) as [token|] eqn:Et; [|done].
  destruct (RegisterAdapter _ _) as [rows [[]|]] eqn:Er; [|done]. simpl. intros [= <-]. apply RegisterAdapter_Ok in Er.
  by exists s, token.
Qed.


(** ** Connections the server knows of *)

(** Every connection whose handler runs is known under its adapter or closed, no two of
    them are of one adapter, and a handler that has returned has closed its own. *)
Record tracked (srv : AdapterServer) : Prop := {
  tr_known : forall cid dc, srv_links srv !! cid = Some dc -> dc_handler dc = true ->
    srv_conns srv !! dc_claimsID dc = Some cid \/ dc_closed dc = true;
  tr_single : forall cid cid' dc dc', srv_links srv !! cid = Some dc -> srv_links srv !! cid' = Some dc' ->
    dc_handler dc = true -> dc_handler dc' = true -> dc_claimsID dc = dc_claimsID dc' -> cid = cid';
  tr_ended : forall cid dc, srv_links srv !! cid = Some dc -> dc_handler dc = false -> dc_closed dc = true
}.

(** [ev] opens no second connection for an adapter. *)
Definition single_open (st : SrvState) (ev : SrvEvent) : Prop :=
  match ev with
  | EvOpen now _ _ auth =>
      forall claims d cid dc, authorize now (srv_rows (st_srv st)) auth = Ok (claims, d) ->
        srv_links (st_srv st) !! cid = Some dc -> dc_handler dc = true -> dc_claimsID dc <> cl_AdapterID claims
  | _ => True
  end.

Inductive single_run : SrvState -> list SrvEvent -> Prop :=
  | single_nil st : single_run st []
  | single_cons st ev evs : single_open st ev -> single_run (srv_step cfg st ev) evs -> single_run st (ev :: evs).

Lemma tracked_same srv srv' :
  srv_conns srv' = srv_conns srv -> srv_links srv' = srv_links srv -> tracked srv -> tracked srv'.
Proof. intros E1 E2 [H1 H2 H3]. split; rewrite ?E1, E2; done. Qed.

(** Replacing a link by one with the same adapter, handler and state. *)
Lemma tracked_update srv cid dc dc' rows :
  tracked srv -> srv_links srv !! cid = Some dc -> dc_claimsID dc' = dc_claimsID dc -> dc_closed dc' = dc_closed dc ->
  dc_handler dc' = dc_handler dc ->
  tracked (set_conns (set_rows srv rows) (srv_conns srv) (<[cid := dc']> (srv_links srv))).
Proof.
  intros [H1 H2 H3] Hl Hid Hc Hh.
  assert (forall cid0 dc0, <[cid := dc']> (srv_links srv) !! cid0 = Some dc0 -> exists dc1, srv_links srv !! cid0 = Some dc1 /\
    dc_claimsID dc0 = dc_claimsID dc1 /\ dc_closed dc0 = dc_closed dc1 /\ dc_handler dc0 = dc_handler dc1) as Hb.
  { intros cid0 dc0. rewrite lookup_insert_Some. intros [[<- <-]|[_ ?]]; eauto. }
  split; simpl.
  - intros c d (d1 & ? & -> & -> & ->)%Hb. by apply H1.
  - intros c c' d d' (d1 & ? & -> & _ & ->)%Hb (d2 & ? & -> & _ & ->)%Hb. by apply H2.
  - intros c d (d1 & Hd & _ & -> & ->)%Hb. by apply (H3 c).
Qed.

Lemma handleWSMessage_same now dc msg :
  dc_claimsID (handleWSMessage now dc msg) = dc_claimsID dc /\ dc_closed (handleWSMessage now dc msg) = dc_closed dc /\
  dc_handler (handleWSMessage now dc msg) = dc_handler dc.
Proof.
  unfold handleWSMessage, handleCommand, WriteJSON.
  case_decide; [destruct (wq_Payload msg)|]; destruct (dc_closed dc) eqn:E; simpl; by rewrite ?E.
Qed.

Lemma tracked_open now srv cid up auth :
  tracked srv -> srv_links srv !! cid = None ->
  (forall claims d cid' dc, authorize now (srv_rows srv) auth = Ok (claims, d) -> srv_links srv !! cid' = Some dc ->
     dc_handler dc = true -> dc_claimsID dc <> cl_AdapterID claims) ->
  tracked (openWebSocket cfg now srv cid up auth).1.
Proof.
  intros [H1 H2 H3] Hn Hs. unfold openWebSocket. destruct (authorize _ _ _) as [[claims d]|]; [|done].
  destruct up; [|done]. specialize (Hs claims d). split; simpl.
  - intros c dc. rewrite lookup_insert_Some. intros [[<- <-]|[Hne Hc]] Hh; simpl; [left; by rewrite lookup_insert_eq|].
    rewrite lookup_insert_ne; [by apply H1|]. intros E. by apply (Hs c dc eq_refl Hc Hh).
  - intros c c' dc dc'. rewrite !lookup_insert_Some.
    intros [[<- <-]|[Hne Hc]] [[<- <-]|[Hne' Hc']] Hh Hh' Hid; simpl in *; [done|..].
    + by destruct (Hs c' dc' eq_refl Hc' Hh').
    + by destruct (Hs c dc eq_refl Hc Hh).
    + by eapply H2.
  - intros c dc. rewrite lookup_insert_Some. intros [[<- <-]|[Hne Hc]]; [done|]. by apply (H3 c).
Qed.

Lemma tracked_end srv cid : tracked srv -> tracked (endWebSocket srv cid).
Proof.
  intros [H1 H2 H3]. unfold endWebSocket. destruct (srv_links srv !! cid) as [dc|] eqn:El; [|done].
  destruct (dc_handler dc) eqn:Eh; [|done]. split; simpl.
  - intros c dc'. rewrite lookup_insert_Some. intros [[<- <-]|[Hne Hc]] Hh; [done|].
    rewrite lookup_delete_ne; [by apply H1|]. intros E. by apply Hne, (H2 _ _ _ _ El Hc).
  - intros c c' d d'. rewrite !lookup_insert_Some.
    intros [[<- <-]|[Hne Hc]] [[<- <-]|[Hne' Hc']] Hh Hh' Hid; simpl in *; try done. by eapply H2.
  - intros c dc'. rewrite lookup_insert_Some. intros [[<- <-]|[Hne Hc]]; [done|]. by apply (H3 c).
Qed.

Lemma stop_closes srv down :
  tracked srv -> srv_status srv = "running" ->
  tracked (Server_Stop srv down).1 /\
  forall cid dc, srv_links (Server_Stop srv down).1 !! cid = Some dc -> dc_closed dc = true.
Proof.
  intros [H1 H2 H3] Hs. unfold Server_Stop. rewrite decide_False by (by rewrite Hs; intros []). simpl.
  assert (forall cid dc, map_imap (fun cid dc => Some (closeIn (srv_conns srv) cid dc)) (srv_links srv) !! cid = Some dc ->
    dc_closed dc = true /\ exists dc0, srv_links srv !! cid = Some dc0 /\ dc_claimsID dc = dc_claimsID dc0 /\
      dc_handler dc = dc_handler dc0) as Hb.
  { intros cid dc. rewrite map_lookup_imap, bind_Some. intros (dc0 & Hc & [= <-]). unfold closeIn. case_bool_decide as Hin.
    - split; [done|]. by exists dc0.
    - split; [|by exists dc0]. destruct (dc_handler dc0) eqn:Eh; [|by eapply H3].
      destruct (H1 cid dc0 Hc Eh) as [Hk|?]; [|done]. destruct Hin. apply list_elem_of_fmap.
      exists (dc_claimsID dc0, cid). split; [done|]. by apply elem_of_map_to_list. }
  split; [split; simpl|].
  - intros c dc [? _]%Hb. by right.
  - intros c c' dc dc' [_ (d0 & ? & -> & ->)]%Hb [_ (d0' & ? & -> & ->)]%Hb. by apply H2.
  - intros c dc [? _]%Hb. done.
  - intros c dc [? _]%Hb. done.
Qed.

Lemma srv_step_tracked st ev : single_open st ev -> tracked (st_srv st) -> tracked (st_srv (srv_step cfg st ev)).
Proof.
  intros Hs Ht.
  destruct ev as [now code caps expiry|now tid req|now tid|clk host tid|op|now cid up auth|now cid msg|cid|listens|down|]; simpl.
  - by apply (tracked_same (st_srv st)).
  - destruct (st_pairs st !! tid); [done|]. destruct (claimCode _ _ _) as [codes [s|e]]; by apply (tracked_same (st_srv st)).
  - by destruct (st_pairs st !! tid) as [[]|].
  - destruct (st_pairs st !! tid) as [[s req|s req|s r]|]; try done. destruct (createDevice _ _ _ _ _ _). by apply (tracked_same (st_srv st)).
  - by apply (tracked_same (st_srv st)).
  - destruct (srv_links (st_srv st) !! cid) eqn:El; [done|]. by apply tracked_open.
  - unfold readWebSocket. destruct (srv_links (st_srv st) !! cid) as [dc|] eqn:El; [|done].
    destruct (dc_handler dc && _); [|done]. destruct (handleWSMessage_same now dc msg) as (? & ? & ?). by eapply tracked_update.
  - by apply tracked_end.
  - unfold Server_Start. case_decide; [done|]. destruct listens; [by apply (tracked_same (st_srv st))|done].
  - destruct (decide (srv_status (st_srv st) = "running")) as [E|E]; [by apply stop_closes|].
    unfold Server_Stop. by rewrite decide_True.
  - by apply (tracked_same (st_srv st)).
Qed.

(** Stopping.  If no adapter opens a connection while the handler of an earlier one of
    its own runs, the server knows of every open connection, and stopping it while it
    runs closes them all. *)
Theorem stop_closes_connections (rows : Adapters) (evs : list SrvEvent) (down : bool)
    (Hrun : single_run (mkState (NewAdapterServer rows) ∅) evs) :
  let srv := st_srv (srv_run cfg (mkState (NewAdapterServer rows) ∅) evs) in
  (forall cid dc, srv_links srv !! cid = Some dc -> dc_closed dc = false -> srv_conns srv !! dc_claimsID dc = Some cid) /\
  (srv_status srv = "running" -> forall cid dc, srv_links (Server_Stop srv down).1 !! cid = Some dc -> dc_closed dc = true).
Proof.
  intros srv. assert (tracked srv) as Ht.
  { assert (tracked (NewAdapterServer rows)) as H0 by (by split).
    unfold srv. clear srv. revert H0 Hrun. generalize (NewAdapterServer rows) at 1 2 3. intros srv0 H0 Hrun.
    change srv0 with (st_srv (mkState srv0 ∅)) in H0. revert H0. generalize dependent (mkState srv0 ∅). intros st0 Hrun.
    induction Hrun as [st|st ev evs Ho _ IH]; intros H0; simpl; [done|]. apply IH. by apply srv_step_tracked. }
  split; [|intros Hr; by apply stop_closes]. intros cid dc Hl Hc. destruct Ht as [H1 _ H3].
  destruct (dc_handler dc) eqn:Eh; [|rewrite (H3 _ _ Hl Eh) in Hc; done]. destruct (H1 _ _ Hl Eh) as [?|?]; [done|congruence].
Qed.

End machine.

(** ** Identifiers and codes *)

Lemma idChar_hex n : (n < 16)%N -> idChar (hexDigit n) = true.
Proof.
  intros H. unfold idChar, hexDigit. apply bool_decide_eq_true. rewrite N_ascii_embedding by (case_decide; lia).
  case_decide; lia.
Qed.

Lemma hex_shape l : length (concat (map hexByte l)) = (2 * length l)%nat /\
  Forall (fun c => idChar c = true) (concat (map hexByte l)).
Proof.
  induction l as [|c l [IH1 IH2]]; [done|]. simpl. rewrite IH1. split; [lia|]. pose proof (N_ascii_bounded c) as Hb.
  repeat constructor; [| |done]; apply idChar_hex; [apply N.Div0.div_lt_upper_bound; lia|apply N.mod_lt; lia].
Qed.

(** Identifiers of adapters are at most 29 lower-case letters, digits and dashes: what
    is left of the device's name, a dash, and eight hexadecimal digits. *)
Theorem generateAdapterID_shape `{Digest} (now : Z) (name os : string) :
  exists clean suffix, chars (generateAdapterID now name os) = clean ++ "-"%char :: suffix /\
    (length clean <= 20)%nat /\ length suffix = 8%nat /\
    Forall (fun c => idChar c = true) (chars (generateAdapterID now name os)).
Proof.
  unfold generateAdapterID. set (h := take 4 (Sum256 _)).
  assert (length h = 4%nat) as Hh by (unfold h; rewrite length_take, Sum256_length; done).
  destruct (hex_shape h) as [Hl Hf]. exists (cleanName name), (concat (map hexByte h)).
  unfold EncodeToString. rewrite !chars_app, !chars_unchars. split_and!; [done| |lia|].
  - unfold cleanName. rewrite length_take. lia.
  - repeat apply Forall_app_2; [|by repeat constructor|done]. unfold cleanName. apply Forall_take, Forall_forall.
    by intros c [? _]%list_elem_of_filter.
Qed.

Lemma drawChars_shape n rand cs rand' :
  drawChars n rand = Some (cs, rand') -> length cs = n /\ Forall (fun c => c ∈ chars pairingAlphabet) cs.
Proof.
  revert rand cs. induction n as [|n IH]; intros rand cs; cbn [drawChars]; [by intros [= <- <-]|].
  destruct rand as [|[idx|] rand]; try done. destruct (chars pairingAlphabet !! idx) as [c|] eqn:Ec; [|done].
  destruct (drawChars n rand) as [[cs' r]|] eqn:Ed; [|done]. intros [= <- <-]. destruct (IH _ _ Ed) as [<- ?].
  split; [done|]. constructor; [by eapply list_elem_of_lookup_2|done].
Qed.

Lemma draws_shape g n rand gs :
  drawGroups g n rand = Some gs ->
  length (joinOn "-"%char gs) = (g * n + (n - 1))%nat /\
  Forall (fun c => c ∈ chars pairingAlphabet \/ c = "-"%char) (joinOn "-"%char gs).
Proof.
  revert rand gs. induction n as [|n IH]; intros rand gs; simpl; [intros [= <-]; simpl; split; [lia|done]|].
  destruct (drawChars g rand) as [[cs rand']|] eqn:Ec; [|done]. apply drawChars_shape in Ec as [<- Hf].
  destruct (drawGroups _ n rand') as [gs'|] eqn:Eg; [|done]. intros [= <-]. destruct (IH _ _ Eg) as [Hl Hf'].
  assert (Forall (fun c => c ∈ chars pairingAlphabet \/ c = "-"%char) cs) as Hcs by (eapply Forall_impl; [exact Hf|auto]).
  destruct gs' as [|g' gs'].
  - destruct n; [simpl; split; [lia|done]|]. simpl in Eg. by repeat case_match.
  - change (joinOn "-"%char (cs :: g' :: gs')) with (cs ++ "-"%char :: joinOn "-"%char (g' :: gs')). rewrite length_app, length_cons.
    rewrite Hl. destruct n; [by simpl in Eg|]. split; [lia|]. apply Forall_app_2; [done|]. constructor; [by right|done].
Qed.

(** Codes of pairing have their groups of characters of the alphabet, joined by dashes. *)
Theorem pairing_code_shape (groupSize numGroups : nat) (rand : list (option nat)) (code : string)
    (H : GeneratePairingCode groupSize numGroups rand = Some code) :
  length (chars code) = (groupSize * numGroups + (numGroups - 1))%nat /\
  Forall (fun c => c ∈ chars pairingAlphabet \/ c = "-"%char) (chars code).
Proof.
  unfold GeneratePairingCode in H. destruct (drawGroups _ _ _) as [gs|] eqn:E; [|done]. simplify_eq.
  rewrite chars_unchars. by eapply draws_shape.
Qed.

(** ** Witnesses *)

#[export] Instance AdapterClaims_eq : EqDecision AdapterClaims.
Proof. solve_decision. Defined.

(** A key that signs one set of claims. *)
Definition one_token (c0 : AdapterClaims) : Jwt := {|
  NewNumericDate t := t - t mod Second;
  SignedString _ c := if decide (c = c0) then Some "t0" else None;
  ParseWithClaims now token := if decide (token = "t0" /\ now < cl_ExpiresAt c0) then Some c0 else None
|}.

#[export] Instance one_token_laws c0 : JwtLaws (one_token c0).
Proof.
  split; simpl.
  - intros t. pose proof (Z.mod_pos_bound t Second). unfold Second, Millisecond in *. lia.
  - intros kid c token now. case_decide as E; [|done]. intros [= <-] _ Hn. subst. by rewrite decide_True.
  - intros now token c. case_decide as E; [|done]. intros [= <-]. apply E.
  - intros t. assert ((t - t mod Second) mod Second = 0) as ->; [|lia].
    rewrite Zminus_mod_idemp_r, Z.sub_diag. done.
Qed.

(** A digest: the text cut or filled to its length. *)
Definition text_digest : Digest.
Proof.
  refine {| Sum256 s := take 32 (chars s ++ replicate 32 "0"%char) |}.
  intros s. rewrite length_take, length_app, length_replicate. lia.
Defined.

Definition sample_cfg (max : Z) (approval : bool) : ServerConfig := mkConfig "p" approval max false.
Definition sample_clocks (t : Z) : Clocks := mkClocks t t t t t.
Definition sample_request (code name : string) : PairingRequest := mkRequest code name "ios" "" "".

(** A key that signs everything and reads nothing: enough for pairing. *)
Definition blind_jwt : Jwt := {| NewNumericDate t := t; SignedString _ c := Some (cl_AdapterID c); ParseWithClaims _ _ := None |}.

Definition sample_events : list SrvEvent :=
  [EvCode 0 "A" ["run:stateless"] Minute; EvCode 0 "B" [] Minute;
   EvClaim 5 0 (sample_request "A" "x"); EvClaim 5 1 (sample_request "B" "y"); EvClaim 6 2 (sample_request "A" "z");
   EvLimit 7 0; EvLimit 7 1; EvCreate (sample_clocks 8) "h" 0; EvCreate (sample_clocks 9) "h" 1].

Definition sample_run (max : Z) : SrvState :=
  srv_run (K := plain_kv) (J := blind_jwt) (D := text_digest) (sample_cfg max false) (mkState (NewAdapterServer ∅) ∅) sample_events.

(** Two requests that are checked before either is created exceed a limit of one. *)
Example concurrent_requests_exceed_limit : active_rows 10 "p" (srv_rows (st_srv (sample_run 1))) = 2.
Proof. vm_compute. reflexivity. Qed.

Lemma pairing_code_single_use_witness :
  (claims_on "A" (st_pairs (sample_run 1)) <= 1)%nat /\ is_Some (st_pairs (sample_run 1) !! 0%nat).
Proof.
  split; [|vm_compute; eauto].
  exact (proj1 (pairing_code_single_use (K := plain_kv) (J := blind_jwt) (D := text_digest) (sample_cfg 1 false) ∅ sample_events) "A").
Defined.

(** Approval does not look at the limit. *)
Example approvals_exceed_limit :
  let cfg := sample_cfg 1 true in
  let st := srv_run (K := plain_kv) (J := blind_jwt) (D := text_digest) cfg (mkState (NewAdapterServer ∅) ∅) sample_events in
  active_rows 10 "p" (srv_rows (st_srv st)) = 0 /\
  let ids := map ma_AdapterID (rows_under adapterKeyPrefix (srv_rows (st_srv st))) in
  active_rows 10 "p" (foldl (mob_exec (K := plain_kv)) (srv_rows (st_srv st)) (map (OpApprove 10) ids)) = 2.
Proof. vm_compute. split; reflexivity. Qed.

Lemma adapter_limit_witness :
  let srv := set_codes (NewAdapterServer ∅) {[ "A" := mkPairing "A" "p" [] 100 false; "B" := mkPairing "B" "p" [] 100 false ]} in
  let pair t code name srv := (handlePair (K := plain_kv) (J := blind_jwt) (D := text_digest) (sample_cfg 1 false)
                                 (sample_clocks t) srv "POST" "h" (Some (sample_request code name))).1 in
  active_rows 2 "p" (srv_rows (pair 2 "B" "y" (pair 1 "A" "x" srv))) <= 1.
Proof.
  intros srv pair.
  assert (adapters_ok (srv_rows srv)) as Hok by (intros k d H; discriminate H).
  assert (active_rows 0 "p" (srv_rows srv) <= 1) as H0 by (vm_compute; discriminate).
  apply (adapter_limit (K := plain_kv) (J := blind_jwt) (D := text_digest) (sample_cfg 1 false) 0 2 srv _ Hok H0).
  apply (run_pair (sample_cfg 1 false) 0 2 (sample_clocks 1) srv "POST" "h" (Some (sample_request "A" "x"))); [simpl; lia|].
  apply (run_pair (sample_cfg 1 false) 1 2 (sample_clocks 2) _ "POST" "h" (Some (sample_request "B" "y"))); [simpl; lia|].
  apply run_done.
Defined.

(** One device paired at time 1, its claims, and the key that signs them. *)
Definition sample_server : AdapterServer := set_codes (NewAdapterServer ∅) {[ "A" := mkPairing "A" "p" ["run:stateless"] 100 false ]}.
Definition sample_device (hash : string) : MobileAdapter :=
  newDevice (D := text_digest) (sample_cfg 5 false) (sample_clocks 1) (sample_request "A" "x")
    (mkPairing "A" "p" ["run:stateless"] 100 true) hash.
Definition sample_claims : AdapterClaims :=
  claims_of (J := one_token (mkClaims "" "" "" "" [] "" "" 0 0 "")) (sample_cfg 5 false) 1 (sample_device "") DefaultTokenExpiry.
Definition sample_jwt : Jwt := one_token sample_claims.


(** The paired device connects, is revoked, and connects once more. *)
Definition paired_state : SrvState :=
  srv_run (K := plain_kv) (J := sample_jwt) (D := text_digest) (sample_cfg 5 false) (mkState sample_server ∅)
    [EvClaim 1 0 (sample_request "A" "x"); EvLimit 1 0; EvCreate (sample_clocks 1) "h" 0; EvStart (Some "a");
     EvOpen 2 0 true "Bearer t0"].
Definition sample_id : string := ma_AdapterID (sample_device "").
Definition revoked_state : SrvState :=
  srv_run (K := plain_kv) (J := sample_jwt) (D := text_digest) (sample_cfg 5 false) paired_state [EvRegistry (OpRevoke sample_id)].

Lemma revoked_adapter_refused_witness :
  srv_step (K := plain_kv) (J := sample_jwt) (D := text_digest) (sample_cfg 5 false) revoked_state (EvOpen 3 1 true "Bearer t0") =
    revoked_state.
Proof.
  pose (d := set_adapter_status (with_state (sample_device (HashToken (D := text_digest) "t0")) 2 PairingStateActive None)
               PairingStateRevoked).
  assert (adapters_ok (srv_rows (st_srv revoked_state))) as Hok.
  { assert (srv_rows (st_srv revoked_state) = {[ adapterKey sample_id := Some d ]}) as -> by (vm_compute; reflexivity).
    intros k v. rewrite lookup_singleton_Some. intros [<- [= <-]]. reflexivity. }
  assert (row_of (srv_rows (st_srv revoked_state)) sample_id (Some d)) as Hd by (vm_compute; reflexivity).
  destruct (revoked_adapter_refused (K := plain_kv) (J := sample_jwt) (D := text_digest) (sample_cfg 5 false) revoked_state []
    sample_id d Hok Hd eq_refl) as [_ H]; [intros op Hin; exfalso; exact (not_elem_of_nil _ Hin)|].
  apply (H 3 1%nat true "Bearer t0" sample_claims); vm_compute; reflexivity.
Defined.

(** Its first connection stays open and is served. *)
Example revoked_connection_stays :
  exists dc, srv_links (st_srv (srv_step (K := plain_kv) (J := sample_jwt) (D := text_digest) (sample_cfg 5 false) revoked_state
      (EvRead 4 0 (mkWSRequest "1" "ping" None)))) !! 0%nat = Some dc /\
    dc_closed dc = false /\ length (dc_sent dc) = 2%nat.
Proof. eexists. vm_compute. split_and!; reflexivity. Qed.

(** A second connection of one adapter is forgotten when the first one ends, and
    outlives the server. *)
Example forgotten_connection_outlives_stop :
  let st := srv_run (K := plain_kv) (J := sample_jwt) (D := text_digest) (sample_cfg 5 false) paired_state
              [EvOpen 3 1 true "Bearer t0"; EvEnd 0; EvStop true] in
  srv_status (st_srv st) = "stopped" /\ ActiveConnections (st_srv st) = 0%nat /\
  exists dc, srv_links (st_srv st) !! 1%nat = Some dc /\ dc_closed dc = false.
Proof. vm_compute. split_and!; [reflexivity..|]. eexists. split; reflexivity. Qed.
