(* ===== verification/AcpSession.v ===== *)
(** * Sessions and permissions of the agent client protocol (src/internal/acp:
      session.go, permissions.go, capabilities.go, types.go)

    A session decides on operations by its rules and its mode; beside it are the
    default path and command rules, the pending permission requests, and the
    capabilities a session announces. *)

From Stdlib Require Import ZArith Lia String Ascii.
From stdpp Require Import base option list gmap strings fin_maps.
From S2P Require Import Prelude Text.

Open Scope Z_scope.

(** ** Sessions *)

Abbreviation SessionMode := string.
Definition SessionModeDefault : SessionMode := "default".
Definition SessionModeAutoApprove : SessionMode := "auto_approve".
Definition SessionModeReadOnly : SessionMode := "read_only".

Record PermissionRule : Type := mkRule { pr_Operation : string; pr_Allowed : bool; pr_PathPattern : string }.

(** The values the source keeps in its maps of capabilities: maps to booleans, maps to
    anything, and lists. *)
Inductive CapVal : Type :=
  | CapBools (m : gmap string bool)
  | CapMap (m : gmap string string)
  | CapList (l : list string).

Abbreviation Caps := (gmap string CapVal).

Record ACPSession : Type := mkACP {
  ac_SessionID : string;
  ac_ProfileID : string;
  ac_Mode : SessionMode;
  ac_ClientCapabilities : Caps;
  ac_AgentCapabilities : Caps;
  ac_PermissionRules : list PermissionRule;
  ac_CreatedAt : Z;
  ac_LastActivity : Z
}.

Abbreviation ACPSessions := (gmap string ACPSession).

Definition set_mode (s : ACPSession) (mode : SessionMode) : ACPSession :=
  mkACP (ac_SessionID s) (ac_ProfileID s) mode (ac_ClientCapabilities s) (ac_AgentCapabilities s) (ac_PermissionRules s)
    (ac_CreatedAt s) (ac_LastActivity s).
Definition set_activity (s : ACPSession) (now : Z) : ACPSession :=
  mkACP (ac_SessionID s) (ac_ProfileID s) (ac_Mode s) (ac_ClientCapabilities s) (ac_AgentCapabilities s) (ac_PermissionRules s)
    (ac_CreatedAt s) now.
Definition set_agent_caps (s : ACPSession) (caps : Caps) : ACPSession :=
  mkACP (ac_SessionID s) (ac_ProfileID s) (ac_Mode s) (ac_ClientCapabilities s) caps (ac_PermissionRules s)
    (ac_CreatedAt s) (ac_LastActivity s).

Definition ACP_CreateSession (now : Z) (sm : ACPSessions) (sessionID profileID : string) (mode : SessionMode) (clientCaps : Caps)
  : ACPSessions * ACPSession :=
  let mode := if decide (mode = "") then SessionModeDefault else mode in
  let session := mkACP sessionID profileID mode clientCaps ∅ [] now now in
  (<[sessionID := session]> sm, session).

(** The errors of the manager are all "session not found". *)
Definition ACP_GetSession (sm : ACPSessions) (sessionID : string) : option ACPSession := sm !! sessionID.

Definition ACP_UpdateSession (now : Z) (sm : ACPSessions) (sessionID : string) (fn : ACPSession -> option ACPSession)
  : ACPSessions * bool :=
  match sm !! sessionID with
  | None => (sm, false)
  | Some s => match fn s with None => (sm, false) | Some s' => (<[sessionID := set_activity s' now]> sm, true) end
  end.

Definition SetSessionMode (now : Z) (sm : ACPSessions) (sessionID : string) (mode : SessionMode) : ACPSessions * bool :=
  ACP_UpdateSession now sm sessionID (fun s => Some (set_mode s mode)).

Definition ACP_DeleteSession (sm : ACPSessions) (sessionID : string) : ACPSessions := delete sessionID sm.

(** In the order of the map's iteration. *)
Definition ACP_ListSessions (order : list ACPSession) (profileID : string) : list ACPSession :=
  filter (fun s => ac_ProfileID s = profileID) order.

Definition AddPermissionRule (s : ACPSession) (rule : PermissionRule) : ACPSession :=
  mkACP (ac_SessionID s) (ac_ProfileID s) (ac_Mode s) (ac_ClientCapabilities s) (ac_AgentCapabilities s)
    (ac_PermissionRules s ++ [rule]) (ac_CreatedAt s) (ac_LastActivity s).

Definition UpdateLastActivity (now : Z) (s : ACPSession) : ACPSession := set_activity s now.

(** *** Permissions of a session *)

Definition readOperation (operation : string) : bool :=
  bool_decide (operation ∈ ["fs/read"; "fs/read_text_file"; "terminal/output"; "terminal/wait_for_exit"]).

Fixpoint ruleLoop (rules : list PermissionRule) (operation resource : string) : option bool :=
  match rules with
  | [] => None
  | rule :: rules =>
      if decide (pr_Operation rule = operation) then
        if decide (pr_PathPattern rule <> "" /\ resource <> "") then
          if decide (pr_PathPattern rule = "*" \/ pr_PathPattern rule = resource) then Some (pr_Allowed rule)
          else ruleLoop rules operation resource
        else Some (pr_Allowed rule)
      else ruleLoop rules operation resource
  end.

Definition HasPermission (s : ACPSession) (operation resource : string) : bool :=
  match ruleLoop (ac_PermissionRules s) operation resource with
  | Some allowed => allowed
  | None =>
      if decide (ac_Mode s = SessionModeAutoApprove) then true
      else if decide (ac_Mode s = SessionModeReadOnly) then readOperation operation
      else if decide (ac_Mode s = SessionModeDefault) then readOperation operation
      else false
  end.

Definition GetPermission (sm : ACPSessions) (sessionID operation resource : string) : option bool :=
  match ACP_GetSession sm sessionID with
  | None => None
  | Some s => Some (HasPermission s operation resource)
  end.

Definition SM_RequestPermission (sm : ACPSessions) (sessionID operation resource : string) : bool :=
  match ACP_GetSession sm sessionID with
  | None => false
  | Some s =>
      if decide (ac_Mode s = SessionModeReadOnly /\
                 operation ∈ ["fs/write"; "fs/write_text_file"; "terminal/create"; "terminal/kill"]) then false
      else if decide (ac_Mode s = SessionModeAutoApprove) then true
      else HasPermission s operation resource
  end.

(** ** Path and command rules *)

Record PermissionRules : Type := mkRules {
  AllowedReadPaths : list string;
  DeniedReadPaths : list string;
  AllowedWritePaths : list string;
  DeniedWritePaths : list string;
  AllowedCommands : list string;
  DeniedCommands : list string;
  RequireApproval : bool
}.

Definition NewDefaultPermissionRules : PermissionRules :=
  mkRules ["/home"; "/tmp"] ["/etc/passwd"; "/etc/shadow"; "/.env"; "/credentials"] ["/tmp"] ["/etc"; "/sys"; "/proc"; "/.env"]
    ["ls"; "cat"; "echo"] ["rm -rf"; "mkfs"; "dd"] true.

Definition pathMatches (path pattern : string) : bool :=
  if decide (pattern = "*") then true
  else if decide (path = pattern) then true
  else (Nat.ltb (length (chars pattern)) (length (chars path)) &&
        bool_decide (take (length (chars pattern) + 1) (chars path) = chars pattern ++ ["/"%char]))%bool.

(** The loops over the denied and then the allowed entries. *)
Definition checkLists (matches : string -> bool) (allowed denied : list string) : bool :=
  if existsb matches denied then false
  else match allowed with [] => true | _ => existsb matches allowed end.

Definition CheckReadPermission (pr : PermissionRules) (path : string) : bool :=
  checkLists (pathMatches path) (AllowedReadPaths pr) (DeniedReadPaths pr).
Definition CheckWritePermission (pr : PermissionRules) (path : string) : bool :=
  checkLists (pathMatches path) (AllowedWritePaths pr) (DeniedWritePaths pr).
Definition CheckCommandPermission (pr : PermissionRules) (cmd : string) : bool :=
  checkLists (String.eqb cmd) (AllowedCommands pr) (DeniedCommands pr).

(** ** Permission requests *)

Record PermissionRequest : Type := mkPermission {
  pq_ID : string;
  pq_SessionID : string;
  pq_Operation : string;
  pq_Resource : string;
  pq_Status : string;
  pq_Decision : bool
}.

Abbreviation Requests := (gmap string PermissionRequest).

Inductive PermErr : Type := ErrEmptySession | ErrEmptyOperation | ErrRequestNotFound (id : string).

Definition PM_RequestPermission (reqID : string) (pm : Requests) (sessionID operation resource : string)
  : Requests * Res PermErr PermissionRequest :=
  if decide (sessionID = "") then (pm, Err ErrEmptySession)
  else if decide (operation = "") then (pm, Err ErrEmptyOperation)
  else let req := mkPermission reqID sessionID operation resource "pending" false in (<[reqID := req]> pm, Ok req).

Definition decidePermission (decision : bool) (pm : Requests) (requestID : string) : Requests * Res PermErr unit :=
  match pm !! requestID with
  | None => (pm, Err (ErrRequestNotFound requestID))
  | Some r =>
      (<[requestID := mkPermission (pq_ID r) (pq_SessionID r) (pq_Operation r) (pq_Resource r)
                        (if decision then "approved" else "denied") decision]> pm, Ok tt)
  end.

Definition GrantPermission : Requests -> string -> Requests * Res PermErr unit := decidePermission true.
Definition DenyPermission : Requests -> string -> Requests * Res PermErr unit := decidePermission false.

Definition GetPermissionRequest (pm : Requests) (requestID : string) : Res PermErr PermissionRequest :=
  match pm !! requestID with None => Err (ErrRequestNotFound requestID) | Some r => Ok r end.

Definition ClearPendingRequests (pm : Requests) (sessionID : string) : Requests :=
  filter (fun kr => pq_SessionID kr.2 <> sessionID) pm.

(** ** Capabilities *)

Definition removeCap (key : string) (v : CapVal) : CapVal :=
  match v with CapMap m => CapMap (delete key m) | _ => v end.

Definition FilterCapabilities (caps : Caps) (mode : SessionMode) : Caps :=
  if decide (mode = SessionModeReadOnly)
  then alter (removeCap "create") "terminal" (alter (removeCap "writeTextFile") "filesystem" caps)
  else caps.

(** What the server announces. *)
Definition buildAgentCapabilities : Caps :=
  <[ "filesystem" := CapBools {[ "readTextFile" := true; "writeTextFile" := true ]} ]>
  (<[ "terminal" := CapBools (<[ "create" := true ]> (<[ "output" := true ]> (<[ "waitForExit" := true ]>
        (<[ "kill" := true ]> {[ "release" := true ]})))) ]>
  (<[ "sessionModes" := CapList ["default"; "auto_approve"; "read_only"] ]>
   {[ "contentTypes" := CapList ["text"; "image"; "audio"; "resource"] ]})).

Record CapabilityRequest : Type := mkCapRequest {
  cr_Filesystem : option (gmap string bool);
  cr_Terminal : bool;
  cr_MCP : bool
}.

Definition wanted (want : gmap string bool) (m : gmap string string) : gmap string string :=
  filter (fun kv => want !! kv.1 = Some true) m.

Definition NegotiateCapabilities (agentCaps : Caps) (req : CapabilityRequest) : Caps :=
  let fs := match cr_Filesystem req, agentCaps !! "filesystem" with
            | Some want, Some (CapMap m) =>
                let neg := wanted want m in
                if decide (neg = ∅) then ∅ else {[ "filesystem" := CapMap neg ]}
            | _, _ => ∅
            end in
  let term := if cr_Terminal req then
                match agentCaps !! "terminal" with Some (CapMap m) => {[ "terminal" := CapMap m ]} | _ => ∅ end
              else ∅ in
  let srv := match agentCaps !! "server" with Some (CapMap m) => {[ "server" := CapMap m ]} | _ => ∅ end in
  srv ∪ term ∪ (fs : Caps).

(** ** Laws *)

(** The rule speaks of the operation on the resource. *)
Definition applies (operation resource : string) (rule : PermissionRule) : Prop :=
  pr_Operation rule = operation /\
  (pr_PathPattern rule = "" \/ resource = "" \/ pr_PathPattern rule = "*" \/ pr_PathPattern rule = resource).

#[export] Instance applies_dec operation resource rule : Decision (applies operation resource rule).
Proof. unfold applies. apply _. Defined.

Lemma ruleLoop_cons rule rules operation resource :
  ruleLoop (rule :: rules) operation resource =
    if decide (applies operation resource rule) then Some (pr_Allowed rule) else ruleLoop rules operation resource.
Proof. unfold applies. simpl. repeat case_decide; try done; tauto. Qed.

Lemma ruleLoop_Some rules operation resource allowed :
  ruleLoop rules operation resource = Some allowed <->
  exists pre rule post, rules = pre ++ rule :: post /\ applies operation resource rule /\ pr_Allowed rule = allowed /\
    Forall (fun r => ~ applies operation resource r) pre.
Proof.
  induction rules as [|rule rules IH].
  { simpl. split; [done|]. by intros ([|? pre] & rule & post & ? & _). }
  rewrite ruleLoop_cons. case_decide as Ha.
  - split; [intros [= <-]; by exists [], rule, rules|]. intros ([|r0 pre] & r & post & [= -> ->] & Hr & <- & Hf); [done|].
    by apply Forall_cons in Hf as [? _].
  - rewrite IH. split.
    + intros (pre & r & post & -> & ? & ? & ?). exists (rule :: pre), r, post. split_and!; [done..|by constructor].
    + intros ([|r0 pre] & r & post & [= -> ->] & Hr & Hal & Hf); [done|]. apply Forall_cons in Hf as [_ Hf]. by exists pre, r, post.
Qed.

Lemma ruleLoop_None rules operation resource :
  ruleLoop rules operation resource = None <-> Forall (fun r => ~ applies operation resource r) rules.
Proof.
  induction rules as [|rule rules IH]; [done|]. rewrite ruleLoop_cons, Forall_cons. case_decide as Ha; [|tauto].
  split; [done|]. tauto.
Qed.

(** What a mode allows where no rule applies. *)
Definition mode_allows (mode : SessionMode) (operation : string) : Prop :=
  mode = SessionModeAutoApprove \/
  ((mode = SessionModeReadOnly \/ mode = SessionModeDefault) /\ readOperation operation = true).

(** A permission is the answer of the first rule that applies, and else of the mode. *)
Lemma HasPermission_iff s operation resource :
  HasPermission s operation resource = true <->
  (exists pre rule post, ac_PermissionRules s = pre ++ rule :: post /\ applies operation resource rule /\
     pr_Allowed rule = true /\ Forall (fun r => ~ applies operation resource r) pre) \/
  (Forall (fun r => ~ applies operation resource r) (ac_PermissionRules s) /\ mode_allows (ac_Mode s) operation).
Proof.
  rewrite <- ruleLoop_Some, <- ruleLoop_None. unfold HasPermission, mode_allows.
  destruct (ruleLoop _ _ _) as [[]|]; [naive_solver..|]. repeat case_decide; naive_solver.
Qed.

(** The two ways to ask differ: in read-only mode [RequestPermission] refuses the listed
    writes even where a rule allows them, in the mode that approves everything it
    grants even what a rule denies; otherwise they agree. *)
Theorem permission_questions_compared (sm : ACPSessions) (sessionID operation resource : string) (s : ACPSession)
    (Hs : sm !! sessionID = Some s) :
  (ac_Mode s = SessionModeAutoApprove -> SM_RequestPermission sm sessionID operation resource = true) /\
  (ac_Mode s = SessionModeReadOnly -> operation ∈ ["fs/write"; "fs/write_text_file"; "terminal/create"; "terminal/kill"] ->
     SM_RequestPermission sm sessionID operation resource = false) /\
  (ac_Mode s <> SessionModeAutoApprove -> ac_Mode s <> SessionModeReadOnly ->
     GetPermission sm sessionID operation resource = Some (SM_RequestPermission sm sessionID operation resource)).
Proof.
  unfold SM_RequestPermission, GetPermission, ACP_GetSession. rewrite Hs. split_and!.
  - intros E. rewrite decide_False by (intros [E' _]; rewrite E in E'; discriminate). by rewrite decide_True.
  - intros E H. by rewrite decide_True.
  - intros H1 H2. rewrite decide_False by (by intros [? _]). by rewrite decide_False.
Qed.

(** [pathMatches]: the path is the pattern or below it. *)
Lemma pathMatches_iff path pattern :
  pathMatches path pattern = true <->
  pattern = "*" \/ path = pattern \/ exists rest, chars path = chars pattern ++ "/"%char :: rest.
Proof.
  unfold pathMatches. case_decide; [split; auto|]. case_decide; [split; auto|]. rewrite andb_true_iff, Nat.ltb_lt, bool_decide_eq_true. split.
  - intros [_ E]. right. right. exists (drop (length (chars pattern) + 1) (chars path)).
    rewrite <- (take_drop (length (chars pattern) + 1) (chars path)) at 1. by rewrite E, <- (assoc_L (++)).
  - intros [?|[?|[rest E]]]; [done..|]. rewrite E, length_app. simpl. split; [lia|].
    rewrite (cons_middle "/"%char (chars pattern) rest), (assoc_L (++)), take_app_length'; [done|].
    rewrite length_app. simpl. lia.
Qed.

Lemma checkLists_iff matches allowed denied :
  checkLists matches allowed denied = true <->
  (forall d, d ∈ denied -> matches d = false) /\ (allowed = [] \/ exists a, a ∈ allowed /\ matches a = true).
Proof.
  assert (forall l, existsb matches l = true <-> exists a, a ∈ l /\ matches a = true) as He.
  { intros l. rewrite existsb_exists. setoid_rewrite list_elem_of_In. done. }
  unfold checkLists. destruct (existsb matches denied) eqn:Ed.
  - split; [done|]. intros [H _]. apply He in Ed as (d & Hd & Hm). by rewrite (H d Hd) in Hm.
  - assert (forall d, d ∈ denied -> matches d = false) as Hd.
    { intros d Hd. apply not_true_iff_false. intros Hm. apply not_true_iff_false in Ed. apply Ed, He. eauto. }
    destruct allowed as [|a allowed]; [split; auto|]. rewrite He. split; [auto|]. by intros [_ [?|?]].
Qed.

(** The default rules: where a command is only its name, the words after it escape the
    list of the denied, and only the list of the allowed refuses them. *)
Example denied_command_is_exact :
  CheckCommandPermission NewDefaultPermissionRules "rm -rf" = false /\
  existsb (String.eqb "rm -rf /") (DeniedCommands NewDefaultPermissionRules) = false /\
  CheckReadPermission NewDefaultPermissionRules "/home/u/.env" = true.
Proof. vm_compute. done. Qed.

(** A request is decided by the last answer it gets, and clearing a session removes
    its requests and no others. *)
Theorem permission_requests_decided (pm : Requests) (id : string) (r : PermissionRequest) (decision : bool)
    (Hr : pm !! id = Some r) :
  (exists pm' r', decidePermission decision pm id = (pm', Ok tt) /\ pm' !! id = Some r' /\ pq_Decision r' = decision /\
     pq_SessionID r' = pq_SessionID r /\ pq_Operation r' = pq_Operation r /\ pq_Resource r' = pq_Resource r /\
     forall id', id' <> id -> pm' !! id' = pm !! id') /\
  (forall sessionID id' r', ClearPendingRequests pm sessionID !! id' = Some r' <->
     pm !! id' = Some r' /\ pq_SessionID r' <> sessionID).
Proof.
  split.
  - unfold decidePermission. rewrite Hr. eexists _, _. split; [done|]. rewrite lookup_insert_eq. split_and!; [done..|].
    intros id' Hne. by rewrite lookup_insert_ne.
  - intros sessionID id' r'. unfold ClearPendingRequests. by rewrite map_lookup_filter_Some.
Qed.

(** The capabilities the server announces are maps to booleans, which the filter of
    read-only sessions does not look into. *)
Lemma read_only_announces_writes : FilterCapabilities buildAgentCapabilities SessionModeReadOnly = buildAgentCapabilities.
Proof. vm_compute. reflexivity. Qed.
