(* ===== verification/AcpFiles.v ===== *)
(** * File access of the agent client protocol (src/internal/acp/filesystem.go)

    Paths are made absolute and clean as path/filepath does it, then checked; files are
    the operating system's, a class of operations on an abstract state.  A function
    that can panic returns [None] then. *)

From Stdlib Require Import ZArith Lia String Ascii.
From stdpp Require Import base option list gmap strings.
From S2P Require Import Prelude Text.

Open Scope Z_scope.

(** ** path/filepath *)

Definition slash : ascii := "/"%char.
Definition dotdot : list ascii := chars "..".

(** One element of a path, with the elements kept so far in reverse. *)
Definition cleanStep (rooted : bool) (stack : list (list ascii)) (seg : list ascii) : list (list ascii) :=
  if decide (seg = [] \/ seg = chars ".") then stack
  else if decide (seg = dotdot) then
    match stack with
    | [] => if rooted then [] else [dotdot]
    | top :: rest => if decide (top = dotdot) then dotdot :: stack else rest
    end
  else seg :: stack.

Definition IsAbs (path : string) : bool := HasPrefix path "/".

Definition cleanSegs (path : string) : list (list ascii) :=
  reverse (foldl (cleanStep (IsAbs path)) [] (splitOn slash (chars path))).

Definition Clean (path : string) : string :=
  let out := joinOn slash (cleanSegs path) in
  if IsAbs path then unchars (slash :: out) else if decide (out = []) then "." else unchars out.

(** [cwd]: the working directory of the process, if it can be told. *)
Definition Abs (cwd : option string) (path : string) : option string :=
  if IsAbs path then Some (Clean path)
  else match cwd with Some wd => Some (Clean (wd +:+ "/" +:+ path)) | None => None end.

(** The text up to and including the last slash. *)
Fixpoint dirPart (l : list ascii) : list ascii :=
  match l with
  | [] => []
  | c :: l => if decide (slash ∈ c :: l) then c :: dirPart l else []
  end.

Definition Dir (path : string) : string := Clean (unchars (dirPart (chars path))).

(** ** Checks on paths *)

Definition MaxFileSize : Z := 100 * 1024 * 1024.

Record FileSystemHandler : Type := mkFSH { fsh_workingDir : string; fsh_maxSize : Z }.

Definition NewFileSystemHandler (workingDir : string) (maxSize : Z) : FileSystemHandler :=
  mkFSH workingDir (if maxSize <=? 0 then MaxFileSize else maxSize).

Definition sensitivePatterns : list string :=
  [".env"; "credentials"; "secret"; "passwd"; "shadow"; "/etc/"; "/sys/"; "/proc/"; "/.ssh/"; "/.aws/"].

Definition IsSensitivePath (path : string) : bool := existsb (Contains (ToLower path)) sensitivePatterns.

Definition systemDirs : list string :=
  ["/bin"; "/sbin"; "/boot"; "/etc"; "/lib"; "/lib64"; "/sys"; "/proc"; "/dev"; "/usr/bin"; "/usr/sbin"; "/usr/lib"].

Definition isSystemDirectory (path : string) : bool := existsb (HasPrefix path) systemDirs.

Inductive FsErr : Type :=
  | ErrInvalidPath | ErrTraversal | ErrSensitive | ErrInvalidWorkDir | ErrOutside | ErrSystemDir | ErrNotWritable
  | ErrFileNotFound | ErrAccess | ErrFileSize | ErrReadFile | ErrContentSize | ErrMkdir | ErrWriteFile.

(** ** The operating system *)

Inductive StatResult : Type := StatMissing | StatError | StatSize (size : Z).

Class OsFiles (F : Type) : Type := {
  os_Stat : F -> string -> StatResult;
  os_ReadFile : F -> string -> option string;
  os_WriteFile : F -> string -> string -> F * bool;
  os_MkdirAll : F -> string -> F * bool;
  os_Remove : F -> string -> F
}.

(** A file that has been written holds what was written, with its size. *)
Class OsLaws {F : Type} (O : OsFiles F) : Prop := {
  write_read f path content f' :
    os_WriteFile f path content = (f', true) ->
    os_ReadFile f' path = Some content /\ os_Stat f' path = StatSize (Z.of_nat (String.length content))
}.

Section files.
Context {F : Type} `{O : OsFiles F} (cwd : option string).

Definition checkDirWritable (f : F) (dir : string) : F * bool :=
  let testFile := Clean (dir +:+ "/" +:+ ".acp_test_write") in
  match os_WriteFile f testFile "test" with
  | (f', false) => (f', false)
  | (f', true) => (os_Remove f' testFile, true)
  end.

(** The part of the checks that needs no files. *)
Definition checkPath (fsh : FileSystemHandler) (path : string) (isWrite : bool) : Res FsErr string :=
  match Abs cwd path with
  | None => Err ErrInvalidPath
  | Some absPath =>
      if Contains absPath ".." then Err ErrTraversal
      else if IsSensitivePath absPath then Err ErrSensitive
      else
        let outside := if decide (fsh_workingDir fsh <> "") then
                         match Abs cwd (fsh_workingDir fsh) with
                         | None => Some ErrInvalidWorkDir
                         | Some absWorkDir => if HasPrefix absPath absWorkDir then None else Some ErrOutside
                         end
                       else None in
        match outside with
        | Some e => Err e
        | None => if (isWrite && isSystemDirectory absPath)%bool then Err ErrSystemDir else Ok absPath
        end
  end.

Definition ValidatePath (f : F) (fsh : FileSystemHandler) (path : string) (isWrite : bool) : F * Res FsErr unit :=
  match checkPath fsh path isWrite with
  | Err e => (f, Err e)
  | Ok absPath =>
      if isWrite then
        let parentDir := Dir absPath in
        match checkDirWritable f parentDir with
        | (f', true) => (f', Ok tt)
        | (f', false) => if decide (parentDir <> fsh_workingDir fsh) then (f', Err ErrNotWritable) else (f', Ok tt)
        end
      else (f, Ok tt)
  end.

(** ** Lines *)

Definition newline : ascii := ascii_of_N 10.

Definition selectLines (content : string) (startLine endLine : Z) : option string :=
  let startLine := if startLine <=? 0 then 1 else startLine in
  let lines := splitOn newline (chars content) in
  let n := Z.of_nat (length lines) in
  let startIdx := startLine - 1 in
  if n <=? startIdx then Some "" else
  let endIdx := if endLine <=? 0 then n else endLine in
  let endIdx := if n <? endIdx then n else endIdx in
  if endIdx <? startIdx then None
  else Some (unchars (joinOn newline (take (Z.to_nat (endIdx - startIdx)) (drop (Z.to_nat startIdx) lines)))).

(** ** Reading and writing *)

Definition ReadTextFile (f : F) (fsh : FileSystemHandler) (path : string) (startLine endLine : Z) : option (Res FsErr string) :=
  match ValidatePath f fsh path false with
  | (_, Err e) => Some (Err e)
  | (_, Ok _) =>
      match os_Stat f path with
      | StatMissing => Some (Err ErrFileNotFound)
      | StatError => Some (Err ErrAccess)
      | StatSize size =>
          if fsh_maxSize fsh <? size then Some (Err ErrFileSize) else
          match os_ReadFile f path with
          | None => Some (Err ErrReadFile)
          | Some content =>
              if ((0 <? startLine) || (0 <? endLine))%bool
              then match selectLines content startLine endLine with None => None | Some part => Some (Ok part) end
              else Some (Ok content)
          end
      end
  end.

Definition WriteTextFile (f : F) (fsh : FileSystemHandler) (path content : string) : F * Res FsErr unit :=
  match ValidatePath f fsh path true with
  | (f', Err e) => (f', Err e)
  | (f', Ok _) =>
      if fsh_maxSize fsh <? Z.of_nat (String.length content) then (f', Err ErrContentSize) else
      let dir := Dir path in
      let made := if decide (dir <> "." /\ dir <> "") then os_MkdirAll f' dir else (f', true) in
      match made with
      | (f2, false) => (f2, Err ErrMkdir)
      | (f2, true) =>
          match os_WriteFile f2 path content with
          | (f3, false) => (f3, Err ErrWriteFile)
          | (f3, true) => (f3, Ok tt)
          end
      end
  end.

End files.

(** ** Clean paths *)

(** An element of a clean absolute path. *)
Definition proper_seg (seg : list ascii) : Prop := seg <> [] /\ seg <> chars "." /\ seg <> dotdot /\ slash ∉ seg.

Lemma cleanStep_proper stack seg :
  Forall proper_seg stack -> slash ∉ seg -> Forall proper_seg (cleanStep true stack seg).
Proof.
  intros Hs Hseg. unfold cleanStep. case_decide as H1; [done|]. case_decide as H2.
  - destruct stack as [|top rest]; [done|]. apply Forall_cons in Hs as [Ht Hr]. case_decide as H3; [|done].
    by destruct Ht as (_ & _ & ? & _).
  - constructor; [|done]. unfold proper_seg. split_and!; [tauto..|done].
Qed.

Lemma cleanSegs_proper path : IsAbs path = true -> Forall proper_seg (cleanSegs path).
Proof.
  intros Ha. unfold cleanSegs. rewrite Ha. apply Forall_reverse. pose proof (splitOn_free slash (chars path)) as Hf.
  assert (Forall proper_seg []) as H0 by constructor. revert H0. generalize (@nil (list ascii)).
  induction Hf as [|seg segs Hseg _ IH]; intros stack Hs; simpl; [done|]. apply IH. by apply cleanStep_proper.
Qed.

(** What [Abs] returns: a slash and proper elements. *)
Definition clean_absolute (path : string) : Prop :=
  exists segs, chars path = slash :: joinOn slash segs /\ Forall proper_seg segs.

Lemma Clean_absolute path : IsAbs path = true -> clean_absolute (Clean path).
Proof.
  intros Ha. exists (cleanSegs path). split; [|by apply cleanSegs_proper]. unfold Clean. rewrite Ha. by rewrite chars_unchars.
Qed.

Lemma IsAbs_app a b : IsAbs a = true -> IsAbs (a +:+ b) = true.
Proof.
  unfold IsAbs. rewrite !HasPrefix_spec. intros [v E]. exists (v ++ chars b). by rewrite chars_app, E, <- (assoc_L (++)).
Qed.

Lemma Abs_clean cwd path abs :
  (forall wd, cwd = Some wd -> IsAbs wd = true) -> Abs cwd path = Some abs -> clean_absolute abs.
Proof.
  intros Hcwd. unfold Abs. destruct (IsAbs path) eqn:Ea; [intros [= <-]; by apply Clean_absolute|].
  destruct cwd as [wd|]; [|done]. intros [= <-]. apply Clean_absolute, IsAbs_app. by apply Hcwd.
Qed.

Section laws.
Context {F : Type} `{O : OsFiles F} (cwd : option string).

Lemma checkPath_iff fsh path isWrite absPath :
  checkPath cwd fsh path isWrite = Ok absPath <->
  Abs cwd path = Some absPath /\ Contains absPath ".." = false /\ IsSensitivePath absPath = false /\
  (fsh_workingDir fsh = "" \/ exists absWorkDir, Abs cwd (fsh_workingDir fsh) = Some absWorkDir /\ HasPrefix absPath absWorkDir = true) /\
  (isWrite = true -> isSystemDirectory absPath = false).
Proof.
  unfold checkPath. split.
  - destruct (Abs cwd path) as [a|]; [|done]. destruct (Contains a "..") eqn:Et; [done|].
    destruct (IsSensitivePath a) eqn:Es; [done|]. case_decide as Hw.
    + destruct (Abs cwd (fsh_workingDir fsh)) as [w|]; [|done]. destruct (HasPrefix a w) eqn:Ep; [|done].
      destruct isWrite, (isSystemDirectory a) eqn:Ed; simpl; intros [= <-]; (split_and!; [done..|right; eauto|done]).
    + destruct isWrite, (isSystemDirectory a) eqn:Ed; simpl; intros [= <-]; (split_and!; [done..|by left|done]).
  - intros (-> & -> & -> & Hw & Hs). case_decide as Hd.
    + destruct Hw as [?|(w & -> & ->)]; [done|]. destruct isWrite; [by rewrite (Hs eq_refl)|done].
    + destruct isWrite; [by rewrite (Hs eq_refl)|done].
Qed.

Lemma checkPath_read fsh path a : checkPath cwd fsh path true = Ok a -> checkPath cwd fsh path false = Ok a.
Proof. rewrite !checkPath_iff. naive_solver. Qed.

Lemma ValidatePath_Ok f fsh path isWrite f' :
  ValidatePath cwd f fsh path isWrite = (f', Ok tt) -> exists a, checkPath cwd fsh path isWrite = Ok a.
Proof. unfold ValidatePath. destruct (checkPath _ _ _ _) as [a|]; [eauto|done]. Qed.

Lemma ValidatePath_read f fsh path a : checkPath cwd fsh path false = Ok a -> ValidatePath cwd f fsh path false = (f, Ok tt).
Proof. unfold ValidatePath. by intros ->. Qed.

(** What the handler reads and writes.  A path that is read or written is, made
    absolute, a clean path without ".." whose text starts with that of the working
    directory; it holds none of the sensitive patterns in any case, and if it is
    written it starts like no system directory.  An access that is refused changes
    no file, except for the probe of the directory.  (The directory's text: a sibling
    whose name it starts passes, see [sibling_passes].) *)
Theorem file_access_confined (f : F) (fsh : FileSystemHandler) (path : string) (isWrite : bool)
    (Hcwd : forall wd, cwd = Some wd -> IsAbs wd = true) :
  (forall f', ValidatePath cwd f fsh path isWrite = (f', Ok tt) ->
     exists abs, Abs cwd path = Some abs /\ clean_absolute abs /\ Contains abs ".." = false /\
       (forall p, p ∈ sensitivePatterns -> Contains (ToLower abs) p = false) /\
       (fsh_workingDir fsh = "" \/ exists wd, Abs cwd (fsh_workingDir fsh) = Some wd /\ HasPrefix abs wd = true) /\
       (isWrite = true -> forall p, p ∈ systemDirs -> HasPrefix abs p = false)) /\
  (forall startLine endLine content, ReadTextFile cwd f fsh path startLine endLine = Some (Ok content) ->
     ValidatePath cwd f fsh path false = (f, Ok tt)) /\
  (forall content f' r, WriteTextFile cwd f fsh path content = (f', r) ->
     (exists f1, ValidatePath cwd f fsh path true = (f1, Ok tt)) \/ (f' = (ValidatePath cwd f fsh path true).1 /\ r <> Ok tt)).
Proof.
  assert (forall (p : string -> bool) l, existsb p l = false -> forall x, x ∈ l -> p x = false) as He.
  { intros p l H x Hx. apply not_true_iff_false. intros Hp. apply not_true_iff_false in H. apply H, existsb_exists.
    exists x. by rewrite <- list_elem_of_In. }
  split_and!.
  - intros f' (a & (Ha & Ht & Hs & Hw & Hd)%checkPath_iff)%ValidatePath_Ok. exists a.
    split_and!; [done|by eapply Abs_clean|done|by apply He|done|]. intros E. by apply He, Hd.
  - intros s e content. unfold ReadTextFile. destruct (ValidatePath cwd f fsh path false) as [f1 [[]|]] eqn:Ev; [|done].
    intros _. unfold ValidatePath in Ev. destruct (checkPath _ _ _ _); by simplify_eq.
  - intros content f' r. unfold WriteTextFile. destruct (ValidatePath _ _ _ _ _) as [f1 [[]|e]]; [left; eauto|right].
    by simplify_eq.
Qed.

(** a file written through the handler reads back.  When [WriteTextFile] succeeds,
    [ReadTextFile] of the whole file from the same working directory returns what
    was written. *)
Theorem write_read_round_trip `{OL : !OsLaws O} (f f' : F) (fsh : FileSystemHandler) (path content : string)
    (Hw : WriteTextFile cwd f fsh path content = (f', Ok tt)) :
  ReadTextFile cwd f' fsh path 0 0 = Some (Ok content).
Proof.
  unfold WriteTextFile in Hw. destruct (ValidatePath cwd f fsh path true) as [f1 [[]|]] eqn:Ev; [|done].
  apply ValidatePath_Ok in Ev as (a & Ha%checkPath_read). destruct (fsh_maxSize fsh <? _) eqn:Es; [done|].
  destruct (if decide _ then _ else _) as [f2 []]; [|done].
  destruct (os_WriteFile f2 path content) as [f3 []] eqn:Ew; [|done]. simplify_eq. apply write_read in Ew as [Hr Hs].
  unfold ReadTextFile. by rewrite (ValidatePath_read f' fsh path a Ha), Hs, Es, Hr.
Qed.

End laws.

(** The first and the last line of a selection. *)
Definition firstLine (startLine : Z) : Z := Z.max 1 startLine.
Definition lastLine (n endLine : Z) : Z := if decide (endLine <= 0) then n else Z.min n endLine.

Lemma selectLines_eq content startLine endLine :
  let lines := splitOn newline (chars content) in
  let n := Z.of_nat (length lines) in
  selectLines content startLine endLine =
    if decide (n < firstLine startLine) then Some ""
    else if decide (lastLine n endLine < firstLine startLine - 1) then None
    else Some (unchars (joinOn newline (take (Z.to_nat (lastLine n endLine - firstLine startLine + 1))
                                          (drop (Z.to_nat (firstLine startLine - 1)) lines)))).
Proof.
  intros lines n. unfold selectLines. fold lines. fold n.
  assert ((if startLine <=? 0 then 1 else startLine) = firstLine startLine) as ->
    by (unfold firstLine; destruct (Z.leb_spec startLine 0); lia).
  assert ((if n <? (if endLine <=? 0 then n else endLine) then n else (if endLine <=? 0 then n else endLine)) = lastLine n endLine) as ->.
  { unfold lastLine. case_decide; destruct (Z.leb_spec endLine 0); try lia.
    - destruct (Z.ltb_spec n n); lia.
    - destruct (Z.ltb_spec n endLine); lia. }
  destruct (Z.leb_spec n (firstLine startLine - 1)); case_decide; try lia; [done|].
  destruct (Z.ltb_spec (lastLine n endLine) (firstLine startLine - 1)); case_decide; try lia; [done|].
  by replace (lastLine n endLine - (firstLine startLine - 1)) with (lastLine n endLine - firstLine startLine + 1) by lia.
Qed.

(** A file has a line. *)
Lemma some_line content : 1 <= Z.of_nat (length (splitOn newline (chars content))).
Proof. pose proof (splitOn_not_nil newline (chars content)). destruct (splitOn _ _); [done|]. simpl. lia. Qed.

(** Bounds that [selectLines] cannot slice with. *)
Lemma selectLines_panic content startLine endLine :
  selectLines content startLine endLine = None <->
  0 < endLine < startLine - 1 /\ startLine <= Z.of_nat (length (splitOn newline (chars content))).
Proof.
  rewrite selectLines_eq. pose proof (some_line content). unfold firstLine, lastLine.
  repeat case_decide; (split; [|]); try done; lia.
Qed.

(** selecting lines.  Counting lines from 1 and to the last one where the bounds are
    not positive or too large, the selection from a start inside the file to an end
    not before it is those lines; from a start behind the file it is empty; the
    bounds that cover the file give it back; and the function panics exactly when the
    end is positive and more than one line before the start inside the file. *)
Theorem selectLines_exact (content : string) (startLine endLine : Z) :
  let lines := splitOn newline (chars content) in
  let n := Z.of_nat (length lines) in
  let first := firstLine startLine in
  let last := lastLine n endLine in
  (n < first -> selectLines content startLine endLine = Some "") /\
  (first <= n -> first <= last -> exists part, selectLines content startLine endLine = Some part /\
     splitOn newline (chars part) = take (Z.to_nat (last - first + 1)) (drop (Z.to_nat (first - 1)) lines)) /\
  (startLine <= 1 -> last = n -> selectLines content startLine endLine = Some content) /\
  (selectLines content startLine endLine = None <-> 0 < endLine < startLine - 1 /\ startLine <= n).
Proof.
  intros lines n first last. pose proof (some_line content) as Hn. fold lines in Hn. fold n in Hn.
  split_and!; [..|apply selectLines_panic]; rewrite selectLines_eq; fold lines; fold n; fold first; fold last.
  - intros H. by rewrite decide_True.
  - intros H1 H2. rewrite !decide_False by lia. eexists. split; [done|]. rewrite chars_unchars. apply splitOn_joinOn.
    + intros E. apply (f_equal length) in E. rewrite length_take, length_drop in E. simpl in E. unfold first, firstLine, n in *. lia.
    + apply Forall_take, Forall_drop, splitOn_free.
  - intros H1 H2. assert (first = 1) as -> by (unfold first, firstLine; lia). rewrite !decide_False by lia.
    rewrite H2. replace (Z.to_nat (1 - 1)) with 0%nat by lia. rewrite drop_0.
    rewrite take_ge by (unfold n; lia). unfold lines. by rewrite joinOn_splitOn, unchars_chars.
Qed.

(** ** Examples *)

(** Files as a map, where every write succeeds. *)
Definition map_files : OsFiles (gmap string string) := {|
  os_Stat f p := match f !! p with Some c => StatSize (Z.of_nat (String.length c)) | None => StatMissing end;
  os_ReadFile f p := f !! p;
  os_WriteFile f p c := (<[p := c]> f, true);
  os_MkdirAll f _ := (f, true);
  os_Remove f p := delete p f
|}.

#[export] Instance map_files_laws : OsLaws map_files.
Proof. split. simpl. intros f p c f' [= <-]. by rewrite lookup_insert_eq. Qed.

Definition tmp_handler : FileSystemHandler := NewFileSystemHandler "/tmp" 0.

Lemma write_read_round_trip_witness :
  exists f', WriteTextFile (O := map_files) None ∅ tmp_handler "/tmp/a/../b" "hello" = (f', Ok tt) /\
    ReadTextFile (O := map_files) None f' tmp_handler "/tmp/a/../b" 0 0 = Some (Ok "hello").
Proof.
  eexists. assert (WriteTextFile (O := map_files) None ∅ tmp_handler "/tmp/a/../b" "hello" =
    ({[ "/tmp/a/../b" := "hello" ]}, Ok tt)) as E by (vm_compute; reflexivity). split; [exact E|].
  exact (write_read_round_trip (O := map_files) None ∅ _ tmp_handler "/tmp/a/../b" "hello" E).
Defined.

Example lines_two_and_three :
  selectLines (unchars (chars "a" ++ newline :: chars "b" ++ newline :: chars "c")) 2 3 =
    Some (unchars (chars "b" ++ newline :: chars "c")).
Proof. vm_compute. reflexivity. Qed.

(** The text of the working directory also starts its siblings. *)
Example sibling_passes :
  checkPath None tmp_handler "/tmpfiles/x" false = Ok "/tmpfiles/x" /\ checkPath None tmp_handler "/var/x" false = Err ErrOutside.
Proof. vm_compute. done. Qed.

(** The probe of a directory replaces and removes a file of the probe's name. *)
Example probe_removes_file :
  (WriteTextFile (O := map_files) None {[ "/tmp/.acp_test_write" := "mine" ]} tmp_handler "/tmp/a" "x").1 = {[ "/tmp/a" := "x" ]}.
Proof. vm_compute. reflexivity. Qed.
