(* ===== verification/AcpServer.v ===== *)
(** * The server of the agent client protocol (src/internal/acp: server.go, terminal.go)

    The state of a server is its sessions, permission requests and terminals, and the
    files it reaches.  A request runs to its response before the next one is read.  The
    APS core behind the server is an argument of the requests that ask it; processes
    are what the operating system reports of them.  The skill methods (skills.go) are
    left out: they read the skill registry and change none of this state. *)

From Stdlib Require Import ZArith Lia String Ascii.
From stdpp Require Import base option list gmap strings fin_maps.
From S2P Require Import Prelude Text AcpSession AcpFiles.

Open Scope Z_scope.

(** ** Terminals *)

(** [te_waited]: the process has ended and has been waited for. *)
Record Terminal : Type := mkTerminal {
  te_ID : string;
  te_Command : string;
  te_Args : list string;
  te_WorkingDir : string;
  te_Environment : list string;
  te_ExitCode : Z;
  te_Status : string;
  te_StartTime : Z;
  te_EndTime : Z;
  te_OutputBuffer : list string;
  te_waited : bool
}.

Abbreviation Terminals := (gmap string Terminal).

Definition set_run (t : Terminal) (exitCode : Z) (status : string) (endTime : Z) (waited : bool) : Terminal :=
  mkTerminal (te_ID t) (te_Command t) (te_Args t) (te_WorkingDir t) (te_Environment t) exitCode status (te_StartTime t) endTime
    (te_OutputBuffer t) waited.

(** The entry sets the variable. *)
Definition setsVar (key entry : string) : bool := HasPrefix entry (key +:+ "=").

(** The first entry of a variable is removed. *)
Fixpoint removeVar (key : string) (environment : list string) : list string :=
  match environment with
  | [] => []
  | e :: environment => if setsVar key e then environment else e :: removeVar key environment
  end.

(** [env]: the pairs of the request in the order of the map's iteration. *)
Definition buildEnvironment (environ : list string) (env : list (string * string)) : list string :=
  foldl (fun environment kv => removeVar kv.1 environment ++ [kv.1 +:+ "=" +:+ kv.2]) environ env.

Inductive TermErr : Type := ErrEmptyCommand | ErrPipes | ErrStart | ErrTermNotFound (id : string) | ErrKill | ErrWaitTimeout.

(** How starting a process turns out. *)
Inductive StartResult : Type := StartPipes | StartFails | StartRuns.

Definition CreateTerminal (now : Z) (start : StartResult) (environ : list string) (termID : string) (tm : Terminals)
    (command : string) (args : list string) (workingDir : string) (env : list (string * string))
  : Terminals * Res TermErr Terminal :=
  if decide (command = "") then (tm, Err ErrEmptyCommand) else
  match start with
  | StartPipes => (tm, Err ErrPipes)
  | StartFails => (delete termID tm, Err ErrStart)
  | StartRuns =>
      let term := mkTerminal termID command args workingDir (buildEnvironment environ env) 0 "running" now 0 [] false in
      (<[termID := term]> tm, Ok term)
  end.

Definition GetTerminal (tm : Terminals) (id : string) : Res TermErr Terminal :=
  match tm !! id with Some t => Ok t | None => Err (ErrTermNotFound id) end.

(** A line is kept with its own newline, if it ended in one. *)
Definition readOutput (t : Terminal) (isStderr : bool) (line : string) : Terminal :=
  if decide (line = "") then t else
  mkTerminal (te_ID t) (te_Command t) (te_Args t) (te_WorkingDir t) (te_Environment t) (te_ExitCode t) (te_Status t) (te_StartTime t)
    (te_EndTime t) (te_OutputBuffer t ++ [if isStderr then "[STDERR] " +:+ line else line]) (te_waited t).

Definition GetOutput (tm : Terminals) (id : string) : Res TermErr string :=
  match GetTerminal tm id with
  | Err e => Err e
  | Ok t => Ok (foldl (fun output line => output +:+ line +:+ String newline "") "" (te_OutputBuffer t))
  end.

(** [seen]: the terminal as the successive polls, a thousand at most, find it. *)
Fixpoint pollExit (polls : nat) (seen : list Terminal) : Res TermErr Z :=
  match polls, seen with
  | S polls, t :: seen => if decide (te_Status t = "exited") then Ok (te_ExitCode t) else pollExit polls seen
  | _, _ => Err ErrWaitTimeout
  end.

Definition WaitForExit (tm : Terminals) (id : string) (seen : list Terminal) : Res TermErr Z :=
  match GetTerminal tm id with
  | Err e => Err e
  | Ok t => pollExit 1000 (t :: seen)
  end.

(** The process of a terminal that is in the table has been started; killing one that
    has been waited for fails. *)
Definition Kill (now : Z) (tm : Terminals) (id : string) : Terminals * Res TermErr unit :=
  match GetTerminal tm id with
  | Err e => (tm, Err e)
  | Ok t =>
      if te_waited t then (tm, Err ErrKill)
      else (<[id := set_run t (te_ExitCode t) "exited" now false]> tm, Ok tt)
  end.

Definition Release (tm : Terminals) (id : string) : Terminals * Res TermErr unit :=
  match tm !! id with
  | None => (tm, Err (ErrTermNotFound id))
  | Some _ => (delete id tm, Ok tt)
  end.

(** [order]: the keys in the order of the map's iteration. *)
Definition ReleaseAll (order : list string) (tm : Terminals) : Terminals := foldl (fun tm id => (Release tm id).1) tm order.

(** The process has ended. *)
Definition processEnded (now exitCode : Z) (tm : Terminals) (id : string) : Terminals :=
  match tm !! id with
  | None => tm
  | Some t => <[id := set_run t exitCode "exited" now true]> tm
  end.

(** ** Requests *)

Definition ErrCodeInvalidRequest : Z := -32600.
Definition ErrCodeMethodNotFound : Z := -32601.
Definition ErrCodeInvalidParams : Z := -32602.
Definition ErrCodeInternalError : Z := -32603.
Definition ErrCodeResourceNotFound : Z := -32002.
Definition ErrCodePermissionDenied : Z := -32003.
Definition ErrCodeSessionEnded : Z := -32005.
Definition ErrCodeNotImplemented : Z := -32006.

(** The parameters of a request, as the structure of its method reads them. *)
Record RpcParams : Type := mkParams {
  rp_sessionId : string;
  rp_profileId : string;
  rp_mode : SessionMode;
  rp_clientCapabilities : Caps;
  rp_path : string;
  rp_startLine : Z;
  rp_endLine : Z;
  rp_content : string;
  rp_command : string;
  rp_arguments : list string;
  rp_environment : list (string * string);
  rp_workingDirectory : string;
  rp_terminalId : string
}.

Definition no_params : RpcParams := mkParams "" "" "" ∅ "" 0 0 "" "" [] [] "" "".

(** [rq_params]: nothing when they do not unmarshal; parameters that are left out read
    as [no_params].  [rq_probe]: the sessionId found in them either way. *)
Record JSONRPCRequest : Type := mkRpc {
  rq_jsonrpc : string;
  rq_method : string;
  rq_params : option RpcParams;
  rq_probe : string
}.

Inductive RpcResult : Type :=
  | ResInitialized
  | ResAuthenticated
  | ResSession (sessionID : string) (mode : SessionMode) (caps : Caps)
  | ResMode (sessionID : string) (mode : SessionMode)
  | ResFile (path content : string)
  | ResWritten (path : string) (size : Z)
  | ResTerminal (id status : string)
  | ResOutput (id output : string)
  | ResExit (id : string) (exitCode : Z).

Record AcpState (F : Type) : Type := mkAcp {
  as_profileID : string;
  as_status : string;
  as_initialized : bool;
  as_sessions : ACPSessions;
  as_requests : Requests;
  as_terminals : Terminals;
  as_files : F;
  as_heartbeats : list string
}.

Arguments mkAcp {F}.
Arguments as_profileID {F}.
Arguments as_status {F}.
Arguments as_initialized {F}.
Arguments as_sessions {F}.
Arguments as_requests {F}.
Arguments as_terminals {F}.
Arguments as_files {F}.
Arguments as_heartbeats {F}.

(** What a request meets outside the server: the clock, the identifier drawn for a
    terminal, the session the core creates (or none), how starting a process turns
    out, the environment, the working and temporary directories, and the polls of a
    terminal. *)
Record World : Type := mkWorld {
  w_now : Z;
  w_termID : string;
  w_coreSession : option string;
  w_start : StartResult;
  w_environ : list string;
  w_cwd : option string;
  w_tempDir : string;
  w_polls : list Terminal
}.

Section server.
Context {F : Type} `{O : OsFiles F}.

Definition NewServer (profileID : string) (core : bool) (files : F) : option (AcpState F) :=
  if decide (profileID = "") then None
  else if core then Some (mkAcp profileID "stopped" false ∅ ∅ ∅ files []) else None.

Definition with_sessions (st : AcpState F) (sessions : ACPSessions) : AcpState F :=
  mkAcp (as_profileID st) (as_status st) (as_initialized st) sessions (as_requests st) (as_terminals st) (as_files st) (as_heartbeats st).
Definition with_terminals (st : AcpState F) (terminals : Terminals) : AcpState F :=
  mkAcp (as_profileID st) (as_status st) (as_initialized st) (as_sessions st) (as_requests st) terminals (as_files st) (as_heartbeats st).
Definition with_files (st : AcpState F) (files : F) : AcpState F :=
  mkAcp (as_profileID st) (as_status st) (as_initialized st) (as_sessions st) (as_requests st) (as_terminals st) files (as_heartbeats st).

(** A response: a result or an error code; [None] is a panic. *)
Abbreviation Answer := (option (AcpState F * Res Z RpcResult)).

Definition fails (st : AcpState F) (code : Z) : Answer := Some (st, Err code).
Definition succeeds (st : AcpState F) (r : RpcResult) : Answer := Some (st, Ok r).

Definition handleInitialize (st : AcpState F) : Answer :=
  if as_initialized st then fails st ErrCodeInvalidRequest
  else succeeds (mkAcp (as_profileID st) (as_status st) true (as_sessions st) (as_requests st) (as_terminals st) (as_files st)
                   (as_heartbeats st)) ResInitialized.

Definition handleSessionNew (w : World) (st : AcpState F) (p : RpcParams) : Answer :=
  let profileID := if decide (rp_profileId p = "") then as_profileID st else rp_profileId p in
  let mode := if decide (rp_mode p = "") then SessionModeDefault else rp_mode p in
  match w_coreSession w with
  | None => fails st ErrCodeInternalError
  | Some sessionID =>
      let agentCaps := FilterCapabilities buildAgentCapabilities mode in
      match ACP_CreateSession (w_now w) (as_sessions st) sessionID profileID mode (rp_clientCapabilities p) with
      | (sessions, session) =>
          let session := set_agent_caps session agentCaps in
          succeeds (with_sessions st (<[sessionID := session]> sessions)) (ResSession sessionID (ac_Mode session) agentCaps)
      end
  end.

Definition handleSessionSetMode (w : World) (st : AcpState F) (p : RpcParams) : Answer :=
  if decide (rp_sessionId p = "") then fails st ErrCodeInvalidParams else
  match SetSessionMode (w_now w) (as_sessions st) (rp_sessionId p) (rp_mode p) with
  | (_, false) => fails st ErrCodeSessionEnded
  | (sessions, true) =>
      match ACP_GetSession sessions (rp_sessionId p) with
      | None => fails (with_sessions st sessions) ErrCodeSessionEnded
      | Some s => succeeds (with_sessions st sessions) (ResMode (rp_sessionId p) (ac_Mode s))
      end
  end.

(** The session of a request and its permission. *)
Definition permitted (st : AcpState F) (sessionID operation resource : string) : Res Z ACPSession :=
  if decide (sessionID = "" \/ resource = "") then Err ErrCodeInvalidParams else
  match ACP_GetSession (as_sessions st) sessionID with
  | None => Err ErrCodeSessionEnded
  | Some s => if HasPermission s operation resource then Ok s else Err ErrCodePermissionDenied
  end.

Definition handleFSReadTextFile (w : World) (st : AcpState F) (p : RpcParams) : Answer :=
  match permitted st (rp_sessionId p) "fs/read_text_file" (rp_path p) with
  | Err e => fails st e
  | Ok _ =>
      let fsh := NewFileSystemHandler (w_tempDir w) MaxFileSize in
      match ReadTextFile (w_cwd w) (as_files st) fsh (rp_path p) (rp_startLine p) (rp_endLine p) with
      | None => None
      | Some (Err _) => fails st ErrCodeResourceNotFound
      | Some (Ok content) => succeeds st (ResFile (rp_path p) content)
      end
  end.

Definition handleFSWriteTextFile (w : World) (st : AcpState F) (p : RpcParams) : Answer :=
  match permitted st (rp_sessionId p) "fs/write_text_file" (rp_path p) with
  | Err e => fails st e
  | Ok _ =>
      let fsh := NewFileSystemHandler (w_tempDir w) MaxFileSize in
      match WriteTextFile (w_cwd w) (as_files st) fsh (rp_path p) (rp_content p) with
      | (f, Err _) => fails (with_files st f) ErrCodeInternalError
      | (f, Ok _) => succeeds (with_files st f) (ResWritten (rp_path p) (Z.of_nat (String.length (rp_content p))))
      end
  end.

Definition handleTerminalCreate (w : World) (st : AcpState F) (p : RpcParams) : Answer :=
  match permitted st (rp_sessionId p) "terminal/create" (rp_command p) with
  | Err e => fails st e
  | Ok _ =>
      match CreateTerminal (w_now w) (w_start w) (w_environ w) (w_termID w) (as_terminals st) (rp_command p) (rp_arguments p)
              (rp_workingDirectory p) (rp_environment p) with
      | (tm, Err _) => fails (with_terminals st tm) ErrCodeInternalError
      | (tm, Ok t) => succeeds (with_terminals st tm) (ResTerminal (te_ID t) (te_Status t))
      end
  end.

Definition handleTerminalOutput (st : AcpState F) (p : RpcParams) : Answer :=
  if decide (rp_terminalId p = "") then fails st ErrCodeInvalidParams else
  match GetOutput (as_terminals st) (rp_terminalId p) with
  | Err _ => fails st ErrCodeResourceNotFound
  | Ok output => succeeds st (ResOutput (rp_terminalId p) output)
  end.

Definition handleTerminalWaitForExit (w : World) (st : AcpState F) (p : RpcParams) : Answer :=
  if decide (rp_terminalId p = "") then fails st ErrCodeInvalidParams else
  match WaitForExit (as_terminals st) (rp_terminalId p) (w_polls w) with
  | Err _ => fails st ErrCodeResourceNotFound
  | Ok exitCode => succeeds st (ResExit (rp_terminalId p) exitCode)
  end.

Definition handleTerminalKill (w : World) (st : AcpState F) (p : RpcParams) : Answer :=
  if decide (rp_terminalId p = "") then fails st ErrCodeInvalidParams else
  match Kill (w_now w) (as_terminals st) (rp_terminalId p) with
  | (_, Err _) => fails st ErrCodeResourceNotFound
  | (tm, Ok _) => succeeds (with_terminals st tm) (ResTerminal (rp_terminalId p) "killed")
  end.

Definition handleTerminalRelease (st : AcpState F) (p : RpcParams) : Answer :=
  if decide (rp_terminalId p = "") then fails st ErrCodeInvalidParams else
  match Release (as_terminals st) (rp_terminalId p) with
  | (_, Err _) => fails st ErrCodeResourceNotFound
  | (tm, Ok _) => succeeds (with_terminals st tm) (ResTerminal (rp_terminalId p) "released")
  end.

Definition sessionScopedMethods : list string :=
  ["session/prompt"; "session/cancel"; "session/set_mode"; "session/load"; "fs/read_text_file"; "fs/write_text_file"; "terminal/create"].

Definition heartbeat (st : AcpState F) (req : JSONRPCRequest) : AcpState F :=
  if decide (rq_method req ∈ sessionScopedMethods /\ rq_probe req <> "")
  then mkAcp (as_profileID st) (as_status st) (as_initialized st) (as_sessions st) (as_requests st) (as_terminals st) (as_files st)
         (as_heartbeats st ++ [rq_probe req])
  else st.

(** A method whose parameters do not unmarshal. *)
Definition on_params (st : AcpState F) (req : JSONRPCRequest) (handler : AcpState F -> RpcParams -> Answer) : Answer :=
  match rq_params req with None => fails st ErrCodeInvalidParams | Some p => handler st p end.

Definition handleRequest (w : World) (st : AcpState F) (req : JSONRPCRequest) : Answer :=
  if decide (rq_jsonrpc req <> "2.0") then fails st ErrCodeInvalidRequest else
  let st := heartbeat st req in
  let isMethod m := bool_decide (rq_method req = m) in
  if isMethod "initialize" then on_params st req (fun st _ => handleInitialize st)
  else if isMethod "authenticate" then succeeds st ResAuthenticated
  else if isMethod "session/new" then on_params st req (handleSessionNew w)
  else if isMethod "session/load" || isMethod "session/prompt" || isMethod "session/cancel" then fails st ErrCodeNotImplemented
  else if isMethod "session/set_mode" then on_params st req (handleSessionSetMode w)
  else if isMethod "fs/read_text_file" then on_params st req (handleFSReadTextFile w)
  else if isMethod "fs/write_text_file" then on_params st req (handleFSWriteTextFile w)
  else if isMethod "terminal/create" then on_params st req (handleTerminalCreate w)
  else if isMethod "terminal/output" then on_params st req handleTerminalOutput
  else if isMethod "terminal/wait_for_exit" then on_params st req (handleTerminalWaitForExit w)
  else if isMethod "terminal/kill" then on_params st req (handleTerminalKill w)
  else if isMethod "terminal/release" then on_params st req handleTerminalRelease
  else fails st ErrCodeMethodNotFound.

(** ** Starting and stopping *)

Definition normalizeTransport (transport : string) : string :=
  let t := ToLower (TrimSpace (if decide (transport = "") then "stdio" else transport)) in
  if decide (t = "websocket") then "ws" else t.

Definition set_acp_status (st : AcpState F) (status : string) : AcpState F :=
  mkAcp (as_profileID st) status (as_initialized st) (as_sessions st) (as_requests st) (as_terminals st) (as_files st) (as_heartbeats st).

(** The configuration is normalized in place, and once more for a transport that is not a
    websocket; [listens]: the listener gets its address. *)
Definition Acp_Start (listens : bool) (transport : string) (st : AcpState F) : AcpState F * bool :=
  if decide (as_status st = "running") then (st, false) else
  let t := normalizeTransport transport in
  if decide (t = "ws") then (if listens then (set_acp_status st "running", true) else (st, false))
  else let t := normalizeTransport t in
       if decide (t <> "" /\ t <> "stdio") then (st, false) else (set_acp_status st "running", true).

Definition closeSession (st : AcpState F) (sessionID : string) : AcpState F :=
  mkAcp (as_profileID st) (as_status st) (as_initialized st) (ACP_DeleteSession (as_sessions st) sessionID)
    (ClearPendingRequests (as_requests st) sessionID) (as_terminals st) (as_files st) (as_heartbeats st).

(** [terminals], [sessions]: the orders of the maps' iterations. *)
Definition Acp_Stop (terminals : list string) (sessions : list ACPSession) (st : AcpState F) : AcpState F :=
  if decide (as_status st = "stopped") then st else
  let st := with_terminals st (ReleaseAll terminals (as_terminals st)) in
  let st := foldl (fun st s => closeSession st (ac_SessionID s)) st (ACP_ListSessions sessions "") in
  set_acp_status st "stopped".

End server.

(** ** The environment of a terminal *)

(** The value a process sees: that of the last entry. *)
Definition lookupVar (key : string) (environment : list string) : option string :=
  last (filter (fun e => setsVar key e = true) environment).

Lemma setsVar_spec key e : setsVar key e = true <-> exists v, chars e = chars key ++ "="%char :: v.
Proof.
  unfold setsVar. rewrite HasPrefix_spec, chars_app. split; intros [v E]; exists v; rewrite E; by rewrite <- (assoc_L (++)).
Qed.

Lemma plain_prefix (c : ascii) k k' v v' : c ∉ k -> c ∉ k' -> k ++ c :: v = k' ++ c :: v' -> k = k'.
Proof.
  intros Hk Hk' E. apply (f_equal (splitOn c)) in E. rewrite !splitOn_app in E by done. congruence.
Qed.

Lemma setsVar_inj k k' e :
  "="%char ∉ chars k -> "="%char ∉ chars k' -> setsVar k e = true -> setsVar k' e = true -> k = k'.
Proof.
  rewrite !setsVar_spec. intros Hk Hk' [v E] [v' E']. apply chars_inj. eapply plain_prefix; [done..|]. by rewrite <- E, E'.
Qed.

Lemma removeVar_other k k' environment :
  "="%char ∉ chars k -> "="%char ∉ chars k' -> k <> k' ->
  filter (fun e => setsVar k e = true) (removeVar k' environment) = filter (fun e => setsVar k e = true) environment.
Proof.
  intros Hk Hk' Hne. induction environment as [|e environment IH]; [done|]. simpl. destruct (setsVar k' e) eqn:E.
  - rewrite filter_cons_False; [done|]. intros E'. by destruct (Hne (setsVar_inj k k' e Hk Hk' E' E)).
  - rewrite !filter_cons. by rewrite IH.
Qed.

Lemma setsVar_self k v : setsVar k (k +:+ "=" +:+ v) = true.
Proof. apply setsVar_spec. exists (chars v). by rewrite !chars_app. Qed.

Lemma buildEnvironment_snoc environ env k v :
  buildEnvironment environ (env ++ [(k, v)]) = removeVar k (buildEnvironment environ env) ++ [k +:+ "=" +:+ v].
Proof. unfold buildEnvironment. by rewrite foldl_snoc. Qed.

(** The variables of a request override those of the server's environment, and leave the
    others as they are, whatever the order in which the map is walked. *)
Theorem environment_override (environ : list string) (env : list (string * string)) (key : string)
    (Hnd : NoDup env.*1) (Hplain : forall k, k ∈ key :: env.*1 -> "="%char ∉ chars k) :
  lookupVar key (buildEnvironment environ env) =
    match list_find (fun kv => kv.1 = key) env with
    | Some (_, (k, v)) => Some (k +:+ "=" +:+ v)
    | None => lookupVar key environ
    end.
Proof.
  induction env as [|[k v] env IH] using rev_ind; [done|]. rewrite fmap_app in Hnd, Hplain. simpl in *.
  apply NoDup_app in Hnd as (Hnd & Hx & _).
  assert ("="%char ∉ chars key) as Hkey by (apply Hplain; left).
  assert ("="%char ∉ chars k) as Hk by (apply Hplain; right; apply elem_of_app; right; left).
  rewrite buildEnvironment_snoc. unfold lookupVar. rewrite filter_app. destruct (decide (k = key)) as [->|Hne].
  - rewrite (filter_cons_True (fun e => setsVar key e = true)), filter_nil, last_snoc by apply setsVar_self.
    assert (list_find (fun kv => kv.1 = key) env = None) as Hn.
    { apply list_find_None, Forall_forall. intros [k' v'] Hin E. simpl in E. subst k'.
      apply (Hx key); [by apply (list_elem_of_fmap_2 fst _ _ Hin)|left]. }
    rewrite (list_find_app_r _ _ _ Hn). simpl. by rewrite decide_True.
  - rewrite (filter_cons_False (fun e => setsVar key e = true)).
    2:{ intros E. apply Hne. symmetry. eapply setsVar_inj; [done|done|exact E|apply setsVar_self]. }
    rewrite filter_nil, (right_id_L [] (++)), removeVar_other by done. fold (lookupVar key (buildEnvironment environ env)).
    rewrite IH; [|done|].
    + destruct (list_find (fun kv => kv.1 = key) env) as [[i [k' v']]|] eqn:Ef.
      * by rewrite (list_find_app_l _ _ _ _ _ Ef).
      * rewrite (list_find_app_r _ _ _ Ef). simpl. by rewrite decide_False.
    + intros k' Hin. apply Hplain. apply elem_of_cons in Hin as [->|Hin]; [left|right; apply elem_of_app; by left].
Qed.

(** ** What a request may do *)

Section laws.
Context {F : Type} `{O : OsFiles F}.

(** The session [s] of [st] allows the operation on a resource that is not empty. *)
Definition granted (st : AcpState F) (sessionID operation resource : string) : Prop :=
  resource <> "" /\ exists s, as_sessions st !! sessionID = Some s /\ HasPermission s operation resource = true.

Lemma permitted_Ok (st : AcpState F) sessionID operation resource s :
  permitted st sessionID operation resource = Ok s -> granted st sessionID operation resource.
Proof.
  unfold permitted, ACP_GetSession. case_decide as Hd; [done|]. destruct (as_sessions st !! sessionID) as [s'|] eqn:Es; [|done].
  destruct (HasPermission s' operation resource) eqn:Eh; [|done]. intros [= <-]. split; [tauto|eauto].
Qed.

Lemma heartbeat_same (st : AcpState F) req :
  as_sessions (heartbeat st req) = as_sessions st /\ as_terminals (heartbeat st req) = as_terminals st /\
  as_files (heartbeat st req) = as_files st /\ as_profileID (heartbeat st req) = as_profileID st.
Proof. unfold heartbeat. by case_decide. Qed.

(** The effects of a request on the state, in terms of the method it names. *)
Record effects (w : World) (st : AcpState F) (req : JSONRPCRequest) (st' : AcpState F) (r : Res Z RpcResult) : Prop := {
  ef_profile : as_profileID st' = as_profileID st;
  ef_files : as_files st' = as_files st \/
    exists p abs, rq_method req = "fs/write_text_file" /\ rq_params req = Some p /\
      granted st (rp_sessionId p) "fs/write_text_file" (rp_path p) /\
      checkPath (w_cwd w) (NewFileSystemHandler (w_tempDir w) MaxFileSize) (rp_path p) true = Ok abs;
  ef_read : forall path content, r = Ok (ResFile path content) ->
    exists p, rq_method req = "fs/read_text_file" /\ rq_params req = Some p /\ path = rp_path p /\
      granted st (rp_sessionId p) "fs/read_text_file" path /\
      ReadTextFile (w_cwd w) (as_files st) (NewFileSystemHandler (w_tempDir w) MaxFileSize) path (rp_startLine p) (rp_endLine p) =
        Some (Ok content);
  ef_terminals : forall id t, as_terminals st' !! id = Some t -> as_terminals st !! id = None ->
    exists p, rq_method req = "terminal/create" /\ rq_params req = Some p /\ te_Command t = rp_command p /\
      granted st (rp_sessionId p) "terminal/create" (rp_command p);
  ef_sessions : forall sid, as_sessions st' !! sid = as_sessions st !! sid \/
    (rq_method req = "session/new" /\ w_coreSession w = Some sid /\
       exists s, as_sessions st' !! sid = Some s /\ (as_profileID st <> "" -> ac_ProfileID s <> "")) \/
    exists p s, rq_method req = "session/set_mode" /\ rq_params req = Some p /\ rp_sessionId p = sid /\
      as_sessions st !! sid = Some s /\ as_sessions st' !! sid = Some (set_activity (set_mode s (rp_mode p)) (w_now w))
}.

(** A handler that changes none of these. *)
Lemma effects_none w st req st' r :
  as_profileID st' = as_profileID st -> as_files st' = as_files st -> as_terminals st' = as_terminals st ->
  as_sessions st' = as_sessions st -> (forall path content, r <> Ok (ResFile path content)) -> effects w st req st' r.
Proof.
  intros Hpr Hf Ht Hs Hr. split; [done|..].
  - by left.
  - intros path content E. by destruct (Hr path content).
  - intros id t. rewrite Ht. congruence.
  - intros sid. rewrite Hs. by left.
Qed.

(** The effects seen from the state before the heartbeat. *)
Lemma effects_heartbeat w st req st' r : effects w (heartbeat st req) req st' r -> effects w st req st' r.
Proof.
  destruct (heartbeat_same st req) as (Hs & Ht & Hf & Hp). intros [H0 H1 H2 H3 H4]. unfold granted in *.
  split; [by rewrite H0|rewrite Hf, Hs in H1|rewrite Hf, Hs in H2|rewrite Ht, Hs in H3|rewrite Hs, Hp in H4]; done.
Qed.

Ltac no_effects := intros [= <- <-]; apply effects_none; done.

Lemma new_effects w st req st' r p :
  rq_method req = "session/new" -> handleSessionNew w st p = Some (st', r) -> effects w st req st' r.
Proof.
  intros Hm. unfold handleSessionNew. destruct (w_coreSession w) as [sid|] eqn:Ew; [|no_effects].
  intros [= <- <-]. split; simpl; [done|by left|done|congruence|]. intros sid'. destruct (decide (sid' = sid)) as [->|Hne].
  - right. left. split_and!; [done..|]. rewrite lookup_insert_eq. eexists. split; [done|]. simpl. by case_decide.
  - left. by rewrite !lookup_insert_ne.
Qed.

Lemma mode_effects w st req st' r p :
  rq_method req = "session/set_mode" -> rq_params req = Some p -> handleSessionSetMode w st p = Some (st', r) ->
  effects w st req st' r.
Proof.
  intros Hm Hp. unfold handleSessionSetMode. case_decide; [no_effects|]. unfold SetSessionMode, ACP_UpdateSession, ACP_GetSession.
  destruct (as_sessions st !! rp_sessionId p) as [s|] eqn:Es; [|no_effects]. rewrite lookup_insert_eq.
  intros [= <- <-]. split; simpl; [done|by left|done|congruence|]. intros sid. destruct (decide (sid = rp_sessionId p)) as [->|Hne].
  - right. right. exists p, s. rewrite lookup_insert_eq. done.
  - left. by rewrite lookup_insert_ne.
Qed.

Lemma read_effects w st req st' r p :
  rq_method req = "fs/read_text_file" -> rq_params req = Some p -> handleFSReadTextFile w st p = Some (st', r) ->
  effects w st req st' r.
Proof.
  intros Hm Hp. unfold handleFSReadTextFile. destruct (permitted _ _ _ _) as [s|e] eqn:Ep; [|no_effects].
  apply permitted_Ok in Ep. destruct (ReadTextFile _ _ _ _ _ _) as [[content|e]|] eqn:Er; [|no_effects|done].
  intros [= <- <-]. split; [done|by left| |congruence|by left]. intros path c [= <- <-]. exists p. done.
Qed.

Lemma write_effects w st req st' r p :
  rq_method req = "fs/write_text_file" -> rq_params req = Some p -> handleFSWriteTextFile w st p = Some (st', r) ->
  effects w st req st' r.
Proof.
  intros Hm Hp. unfold handleFSWriteTextFile. destruct (permitted _ _ _ _) as [s|e] eqn:Ep; [|no_effects].
  apply permitted_Ok in Ep. destruct (WriteTextFile _ _ _ _ _) as [f out] eqn:Ew.
  assert (f = as_files st \/ exists abs, checkPath (w_cwd w) (NewFileSystemHandler (w_tempDir w) MaxFileSize) (rp_path p) true = Ok abs)
    as Hf.
  { unfold WriteTextFile, ValidatePath in Ew. destruct (checkPath _ _ _ _) as [abs|e]; [eauto|left]. by simplify_eq. }
  intros H. assert (st' = with_files st f /\ forall path content, r <> Ok (ResFile path content)) as [-> Hr]
    by (destruct out as [[]|]; unfold fails, succeeds in H; simplify_eq; (split; [done|by intros])).
  split; simpl; [done| |intros path content E; by destruct (Hr path content)|congruence|by left].
  destruct Hf as [->|[abs Habs]]; [by left|right]. exists p, abs. done.
Qed.

Lemma create_effects w st req st' r p :
  rq_method req = "terminal/create" -> rq_params req = Some p -> handleTerminalCreate w st p = Some (st', r) ->
  effects w st req st' r.
Proof.
  intros Hm Hp. unfold handleTerminalCreate. destruct (permitted _ _ _ _) as [s|e] eqn:Ep; [|no_effects].
  apply permitted_Ok in Ep. destruct (CreateTerminal _ _ _ _ _ _ _ _ _) as [tm out] eqn:Ec.
  intros H. assert (st' = with_terminals st tm /\ forall path content, r <> Ok (ResFile path content)) as [-> Hr]
    by (destruct out as [t|]; unfold fails, succeeds in H; simplify_eq; (split; [done|by intros])).
  split; simpl; [done|by left|intros path content E; by destruct (Hr path content)| |by left].
  intros id t Hid Hn. unfold CreateTerminal in Ec. case_decide; [simplify_eq; congruence|].
  destruct (w_start w); simplify_eq; [apply lookup_delete_Some in Hid as [_ ?]; congruence|].
  apply lookup_insert_Some in Hid as [[<- <-]|[_ ?]]; [|congruence]. exists p. done.
Qed.

Lemma terminals_shrink w st req st' r :
  as_profileID st' = as_profileID st -> as_files st' = as_files st -> as_sessions st' = as_sessions st ->
  (forall path content, r <> Ok (ResFile path content)) ->
  (forall id, is_Some (as_terminals st' !! id) -> is_Some (as_terminals st !! id)) -> effects w st req st' r.
Proof.
  intros Hp Hf Hs Hr Ht. split; [done|by left|intros path content E; by destruct (Hr path content)| |intros sid; left; by rewrite Hs].
  intros id t Hid Hn. destruct (Ht id); [eauto|congruence].
Qed.

Lemma kill_effects w st req st' r p : handleTerminalKill w st p = Some (st', r) -> effects w st req st' r.
Proof.
  unfold handleTerminalKill, Kill, GetTerminal. case_decide; [no_effects|].
  destruct (as_terminals st !! rp_terminalId p) as [t|] eqn:Et; [|no_effects]. destruct (te_waited t); [no_effects|].
  intros [= <- <-]. apply terminals_shrink; [done..|]. intros id [t' Hl]. simpl in Hl.
  apply lookup_insert_Some in Hl as [[<- _]|[_ ?]]; eauto.
Qed.

Lemma release_effects w st req st' r p : handleTerminalRelease st p = Some (st', r) -> effects w st req st' r.
Proof.
  unfold handleTerminalRelease, Release. case_decide; [no_effects|].
  destruct (as_terminals st !! rp_terminalId p) as [t|] eqn:Et; [|no_effects].
  intros [= <- <-]. apply terminals_shrink; [done..|]. intros id [t' Hl]. simpl in Hl. apply lookup_delete_Some in Hl as [_ ?]. eauto.
Qed.

Lemma handleRequest_effects w st req st' r : handleRequest w st req = Some (st', r) -> effects w st req st' r.
Proof.
  unfold handleRequest. case_decide; [no_effects|]. intros H0. apply effects_heartbeat. revert H0.
  generalize (heartbeat st req). clear st. intros st. unfold on_params.
  destruct (rq_params req) as [p|] eqn:Ep.
  - case_bool_decide as E; [unfold handleInitialize; destruct (as_initialized st); no_effects|clear E].
    case_bool_decide as E; [no_effects|clear E].
    case_bool_decide as E; [by apply new_effects|clear E].
    destruct (_ || _); [no_effects|].
    case_bool_decide as E; [by apply mode_effects|clear E].
    case_bool_decide as E; [by apply read_effects|clear E].
    case_bool_decide as E; [by apply write_effects|clear E].
    case_bool_decide as E; [by apply create_effects|clear E].
    case_bool_decide as E.
    { unfold handleTerminalOutput. case_decide; [no_effects|]. destruct (GetOutput _ _); no_effects. }
    case_bool_decide as E'.
    { unfold handleTerminalWaitForExit. case_decide; [no_effects|]. destruct (WaitForExit _ _ _); no_effects. }
    case_bool_decide; [apply kill_effects|]. case_bool_decide; [apply release_effects|]. no_effects.
  - repeat (case_match; [no_effects|]). no_effects.
Qed.

(** Requests one after the other, up to a panic. *)
Fixpoint acp_run (st : AcpState F) (reqs : list (World * JSONRPCRequest)) : option (AcpState F) :=
  match reqs with
  | [] => Some st
  | (w, req) :: reqs => match handleRequest w st req with None => None | Some (st', _) => acp_run st' reqs end
  end.

(** The request leaves the mode of the session alone: it neither sets it nor makes the
    core create a session under its id. *)
Definition leaves_mode (sid : string) (wr : World * JSONRPCRequest) : Prop :=
  (rq_method wr.2 = "session/new" -> w_coreSession wr.1 <> Some sid) /\
  (rq_method wr.2 = "session/set_mode" -> forall p, rq_params wr.2 = Some p -> rp_sessionId p <> sid).

Lemma leaves_mode_step sid w st req st' r :
  leaves_mode sid (w, req) -> handleRequest w st req = Some (st', r) -> as_sessions st' !! sid = as_sessions st !! sid.
Proof.
  intros [Hn Hm] H. destruct (handleRequest_effects w st req st' r H) as [_ _ _ _ Hs].
  destruct (Hs sid) as [?|[(? & ? & _)|(p & s & ? & Hp & Hid & _)]]; [done|by destruct Hn|].
  by destruct (Hm ltac:(done) p Hp).
Qed.

Lemma leaves_mode_run sid reqs st st' :
  Forall (leaves_mode sid) reqs -> acp_run st reqs = Some st' -> as_sessions st' !! sid = as_sessions st !! sid.
Proof.
  intros Hall. revert st. induction Hall as [|[w req] reqs Hr _ IH]; intros st; simpl; [by intros [= <-]|].
  destruct (handleRequest w st req) as [[st1 r]|] eqn:E; [|done]. intros H. rewrite (IH st1 H). by eapply leaves_mode_step.
Qed.


(** ** Panics and stopping *)

(** A request that panics is a read, permitted and of a file that reads, whose end line
    is positive and lies before its start. *)
Theorem panic_is_line_range (w : World) (st : AcpState F) (req : JSONRPCRequest) (H : handleRequest w st req = None) :
  rq_method req = "fs/read_text_file" /\
  exists p, rq_params req = Some p /\ granted st (rp_sessionId p) "fs/read_text_file" (rp_path p) /\
    0 < rp_endLine p < rp_startLine p - 1.
Proof.
  unfold handleRequest in H. case_decide; [done|]. destruct (heartbeat_same st req) as (Hs & _ & Hf & _).
  revert H. unfold granted. rewrite <- Hs. generalize (heartbeat st req). clear. intros st. unfold on_params.
  destruct (rq_params req) as [p|] eqn:Ep; [|by repeat (case_match; try done)].
  case_bool_decide as E; [unfold handleInitialize; by destruct (as_initialized st)|clear E].
  case_bool_decide as E; [done|clear E].
  case_bool_decide as E; [unfold handleSessionNew; by destruct (w_coreSession w)|clear E].
  destruct (_ || _); [done|].
  case_bool_decide as E; [unfold handleSessionSetMode; by repeat (case_match; try done)|clear E].
  case_bool_decide as E; [|clear E].
  { intros H. split; [done|]. exists p. split; [done|]. unfold handleFSReadTextFile in H.
    destruct (permitted _ _ _ _) as [s|] eqn:Eg; [|done]. apply permitted_Ok in Eg. split; [done|].
    destruct (ReadTextFile _ _ _ _ _ _) as [[]|] eqn:Er; [done..|]. unfold ReadTextFile in Er.
    destruct (ValidatePath _ _ _ _ _) as [? [[]|]]; [|done]. destruct (os_Stat _ _); try done.
    destruct (_ <? size); [done|]. destruct (os_ReadFile _ _) as [content|]; [|done]. destruct (_ || _); [|done].
    destruct (selectLines content (rp_startLine p) (rp_endLine p)) eqn:El; [done|].
    by apply selectLines_panic in El as [? _]. }
  case_bool_decide as E; [unfold handleFSWriteTextFile; by repeat (case_match; try done)|clear E].
  case_bool_decide as E; [unfold handleTerminalCreate; by repeat (case_match; try done)|clear E].
  case_bool_decide as E; [unfold handleTerminalOutput; by repeat (case_match; try done)|clear E].
  case_bool_decide as E; [unfold handleTerminalWaitForExit; by repeat (case_match; try done)|clear E].
  case_bool_decide as E; [unfold handleTerminalKill; by repeat (case_match; try done)|clear E].
  case_bool_decide as E; [unfold handleTerminalRelease; by repeat (case_match; try done)|done].
Qed.

(** Every session the server creates belongs to a profile. *)
Definition profiled (st : AcpState F) : Prop :=
  as_profileID st <> "" /\ forall sid s, as_sessions st !! sid = Some s -> ac_ProfileID s <> "".

Lemma handleRequest_profiled w st req st' r : profiled st -> handleRequest w st req = Some (st', r) -> profiled st'.
Proof.
  intros [Hp Hs] H. destruct (handleRequest_effects w st req st' r H) as [Ep _ _ _ Es]. split; [by rewrite Ep|].
  intros sid s Hsid. destruct (Es sid) as [E|[(_ & _ & s' & E & Hpr)|(p & s' & _ & _ & _ & E' & E)]]; rewrite E in Hsid.
  - by eapply Hs.
  - simplify_eq. auto.
  - injection Hsid as <-. by apply (Hs _ _ E').
Qed.

Lemma acp_run_profiled reqs st st' : profiled st -> acp_run st reqs = Some st' -> profiled st'.
Proof.
  revert st. induction reqs as [|[w req] reqs IH]; intros st Hp; simpl; [by intros [= <-]|].
  destruct (handleRequest w st req) as [[st1 r]|] eqn:E; [|done]. apply IH. by eapply handleRequest_profiled.
Qed.

Lemma ReleaseAll_clears order (tm : Terminals) : ranges_keys order tm -> ReleaseAll order tm = ∅.
Proof.
  intros Hr. apply map_eq. intros id. rewrite lookup_empty. unfold ReleaseAll.
  assert (forall order tm, foldl (fun tm id => (Release tm id).1) tm order !! id = None <-> id ∈ order \/ tm !! id = None) as H.
  { clear. intros order. induction order as [|k order IH]; intros tm; simpl.
    - split; [by right|]. intros [?%elem_of_nil|?]; done.
    - rewrite IH, elem_of_cons. unfold Release. destruct (tm !! k) eqn:Ek; simpl.
      + rewrite lookup_delete_None. naive_solver.
      + naive_solver. }
  apply H. destruct (tm !! id) eqn:Et; [left|by right]. apply (ranges_keys_elem order tm); [done|]. eauto.
Qed.

(** Stopping.  After every run of requests [Stop] releases all terminals and closes no
    session: it looks for the sessions of the empty profile, and there are none. *)
Theorem stop_keeps_sessions (profileID : string) (files : F) (st0 st : AcpState F) (reqs : list (World * JSONRPCRequest))
    (terminals : list string) (sessions : list ACPSession)
    (Hnew : NewServer profileID true files = Some st0)
    (Hrun : acp_run (Acp_Start true "" st0).1 reqs = Some st)
    (Hterm : ranges_keys terminals (as_terminals st))
    (Hsess : forall s, s ∈ sessions <-> exists sid, as_sessions st !! sid = Some s)
    (Hstatus : as_status st <> "stopped") :
  as_terminals (Acp_Stop terminals sessions st) = ∅ /\ as_sessions (Acp_Stop terminals sessions st) = as_sessions st /\
  as_status (Acp_Stop terminals sessions st) = "stopped".
Proof.
  assert (profiled (Acp_Start true "" st0).1) as H0.
  { unfold NewServer in Hnew. case_decide; [done|]. simplify_eq. by split. }
  destruct (acp_run_profiled _ _ _ H0 Hrun) as [_ Hp].
  assert (ACP_ListSessions sessions "" = []) as E.
  { apply filter_none. intros s [sid Hs]%Hsess. by eapply Hp. }
  unfold Acp_Stop. rewrite decide_False by done. rewrite E. simpl. by rewrite ReleaseAll_clears.
Qed.

End laws.

(** ** Witnesses *)

Definition sample_world : World := mkWorld 7 "term_1" (Some "s1") StartRuns ["PATH=/bin"; "A=1"] (Some "/root") "/tmp" [].
Definition sample_call (method : string) (p : RpcParams) : JSONRPCRequest := mkRpc "2.0" method (Some p) (rp_sessionId p).

Definition new_params (mode : SessionMode) : RpcParams := mkParams "" "" mode ∅ "" 0 0 "" "" [] [] "" "".
Definition mode_params (mode : SessionMode) : RpcParams := mkParams "s1" "" mode ∅ "" 0 0 "" "" [] [] "" "".
Definition file_params (path content : string) (startLine endLine : Z) : RpcParams :=
  mkParams "s1" "" "" ∅ path startLine endLine content "" [] [] "" "".
Definition command_params (command : string) : RpcParams := mkParams "s1" "" "" ∅ "" 0 0 "" command [] [("A", "2")] "" "".
Definition term_params (id : string) : RpcParams := mkParams "" "" "" ∅ "" 0 0 "" "" [] [] "" id.

Definition fresh_server : AcpState (gmap string string) := mkAcp "p" "running" false ∅ ∅ ∅ {[ "/tmp/f" := "x" ]} [].

Definition calls (l : list (string * RpcParams)) : list (World * JSONRPCRequest) :=
  map (fun mp => (sample_world, sample_call mp.1 mp.2)) l.


(** The client sets the mode that approves everything itself. *)
Example client_approves_itself :
  exists st, acp_run (O := map_files) fresh_server
      (calls [("session/new", new_params "read_only"); ("session/set_mode", mode_params "auto_approve");
              ("fs/write_text_file", file_params "/tmp/g" "y" 0 0)]) = Some st /\ as_files st !! "/tmp/g" = Some "y".
Proof. eexists. split; vm_compute; reflexivity. Qed.

(** Lines 5 to 2 of a file of five lines: the server panics. *)
Example reversed_range_panics :
  let five := unchars (joinOn newline [chars "a"; chars "b"; chars "c"; chars "d"; chars "e"]) in
  acp_run (O := map_files) (with_files fresh_server {[ "/tmp/f" := five ]})
    (calls [("session/new", new_params "read_only"); ("fs/read_text_file", file_params "/tmp/f" "" 5 2)]) = None.
Proof. vm_compute. reflexivity. Qed.

(** A terminal is killed without a session, and its exit code reads 0 until the process
    has been waited for. *)
Example killed_without_permission :
  exists st, acp_run (O := map_files) fresh_server
      (calls [("session/new", new_params "auto_approve"); ("terminal/create", command_params "sleep");
              ("terminal/kill", term_params "term_1")]) = Some st /\
    (handleRequest (O := map_files) sample_world st (sample_call "terminal/wait_for_exit" (term_params "term_1"))) =
      Some (st, Ok (ResExit "term_1" 0)) /\
    option_map te_Environment (as_terminals st !! "term_1") = Some ["PATH=/bin"; "A=2"].
Proof. eexists. split_and!; vm_compute; reflexivity. Qed.
