(* ===== verification/CollabPolicy.v ===== *)
(** * Conflict detection and resolution in workspaces
      (src/internal/core/collaboration/conflict.go, resolution.go)

    The detector scans the mutation log of a workspace, its task graph and its
    lock table; a policy then resolves a conflict, two of the four by writing the
    context as "system".  A workspace is a pair of the workspace proper and its
    context; the context of a workspace that was loaded from storage is nil. *)

From Stdlib Require Import ZArith Lia Sorted.
From stdpp Require Import base option list gmap strings fin_maps.
From S2P Require Import Prelude Text Workspace Domain Context DepGraph Messaging Cycles.

Open Scope Z_scope.

Definition StrategyConsensus : ResolutionStrategy := "consensus".
Definition StrategyVoting : ResolutionStrategy := "voting".
Definition StrategyArbitration : ResolutionStrategy := "arbitration".
Definition StrategyKeepFirst : ResolutionStrategy := "keep-first".
Definition StrategyKeepLast : ResolutionStrategy := "keep-last".
Definition StrategyRollback : ResolutionStrategy := "rollback".
Definition StrategyMerge : ResolutionStrategy := "merge".

(** ** Detection *)

(** The loop that groups the recent mutations by key. *)
Definition groupStep (cutoff : Z) (byKey : gmap string (list ContextMutation)) (m : ContextMutation)
  : gmap string (list ContextMutation) :=
  if Before (mu_Timestamp m) cutoff then byKey
  else <[mu_Key m := default [] (byKey !! mu_Key m) ++ [m]]> byKey.

Definition groupRecent (cutoff : Z) (ms : list ContextMutation) : gmap string (list ContextMutation) :=
  foldl (groupStep cutoff) ∅ ms.

(** The loop over the groups, in the order [o]; [order] ranges over the set of
    agents and [uuid] gives the id of the conflict on a key. *)
Definition groupConflict (now : Z) (uuid : string -> string) (order : gset string -> list string) (wsID : string)
    (g : string * list ContextMutation) : option Conflict :=
  if decide (length g.2 < 2)%nat then None else
  let agents : gset string := list_to_set (mu_AgentID <$> g.2) in
  if decide (size agents < 2)%nat then None else
  Some (mkConflict (uuid g.1) wsID ConflictWrite g.1 (order agents) None now None).

Definition DetectWriteConflicts (now : Z) (uuid : string -> string) (order : gset string -> list string)
    (rangeOrder : gmap string (list ContextMutation) -> list (string * list ContextMutation))
    (workspace : option (Workspace * option WorkspaceContext)) (window : Z) : list Conflict :=
  match workspace with
  | Some (ws, Some wc) =>
      let mutations := wc_mutations wc in
      if decide (length mutations < 2)%nat then [] else
      let byKey := groupRecent (now - window) mutations in
      omap (groupConflict now uuid order (ws_ID ws)) (rangeOrder byKey)
  | _ => []
  end.

(** [None] when the search runs out of fuel. *)
Definition DetectOrderingConflicts (fuel : nat) (now : Z) (uuid : string) (o : list string) (tasks : list TaskInfo)
  : option (list Conflict) :=
  if decide (tasks = []) then Some [] else
  let graph := foldl (fun g t => AddTask g (tk_ID t) (tk_Dependencies t)) NewDependencyGraph tasks in
  match DetectCycles fuel graph o with
  | None => None
  | Some None => Some []
  | Some (Some cycle) => Some [mkConflict uuid "" ConflictOrdering "task-dependencies" cycle None now None]
  end.

(** A nil map is [None]. *)
Definition DetectLockConflicts (now : Z) (uuid : string) (locks : option (gmap string string))
    (requestor resource : string) : option Conflict :=
  match locks with
  | None => None
  | Some locks =>
      match locks !! resource with
      | None => None
      | Some holder =>
          if decide (holder = requestor) then None
          else Some (mkConflict uuid "" ConflictLock resource [holder; requestor] None now None)
      end
  end.

(** ** Policies *)

Inductive ConflictPolicy : Type := PriorityPolicy | KeepFirstPolicy | KeepLastPolicy | RollbackPolicy.

#[export] Instance ConflictPolicy_eq_dec : EqDecision ConflictPolicy.
Proof. solve_decision. Defined.

Inductive PolicyErr : Type :=
  | ErrUnsupported (s : ResolutionStrategy) | ErrWorkspaceRequired | ErrNoAgents | ErrNoValidAgents
  | ErrNoMutations (resource : string) | ErrNoMatching (resource : string) | ErrRestore (e : CtxErr).

Definition NewPolicy (strategy : ResolutionStrategy) : Res PolicyErr ConflictPolicy :=
  if decide (strategy = StrategyPriority) then Ok PriorityPolicy
  else if decide (strategy = StrategyKeepFirst) then Ok KeepFirstPolicy
  else if decide (strategy = StrategyKeepLast) then Ok KeepLastPolicy
  else if decide (strategy = StrategyRollback) then Ok RollbackPolicy
  else Err (ErrUnsupported strategy).

Definition rolePriority (role : AgentRole) : Z :=
  if decide (role = RoleOwner) then 3
  else if decide (role = RoleContributor) then 2
  else if decide (role = RoleObserver) then 1
  else 0.

(** The loop over the agents: the winner so far and its priority. *)
Fixpoint priorityLoop (ws : Workspace) (winnerID : string) (winnerPriority : Z) (ids : list string) : string :=
  match ids with
  | [] => winnerID
  | agentID :: ids =>
      match GetAgent ws agentID with
      | Err _ => priorityLoop ws winnerID winnerPriority ids
      | Ok agent =>
          let pri := rolePriority (ag_Role agent) in
          if decide (pri > winnerPriority) then priorityLoop ws agentID pri ids
          else priorityLoop ws winnerID winnerPriority ids
      end
  end.

(** The loop that looks for the earliest mutation of a conflicting agent;
    [better t t0]: a mutation at [t] replaces one at [t0]. *)
Fixpoint pickLoop (better : Z -> Z -> bool) (agentSet : gset string) (acc : option ContextMutation)
    (ms : list ContextMutation) : option ContextMutation :=
  match ms with
  | [] => acc
  | m :: ms =>
      if decide (mu_AgentID m ∉ agentSet) then pickLoop better agentSet acc ms
      else match acc with
           | None => pickLoop better agentSet (Some m) ms
           | Some e =>
               if better (mu_Timestamp m) (mu_Timestamp e) then pickLoop better agentSet (Some m) ms
               else pickLoop better agentSet acc ms
           end
  end.

Definition earliest (c : Conflict) (ms : list ContextMutation) : option ContextMutation :=
  pickLoop Before (list_to_set (cn_AgentIDs c)) None ms.

Definition latest (c : Conflict) (ms : list ContextMutation) : option ContextMutation :=
  pickLoop (fun t t0 => Before t0 t) (list_to_set (cn_AgentIDs c)) None ms.

Definition PriorityPolicy_Resolve (now : Z) (c : Conflict) (workspace : option Workspace)
  : Res PolicyErr ConflictResolution :=
  match workspace with
  | None => Err ErrWorkspaceRequired
  | Some ws =>
      if decide (cn_AgentIDs c = []) then Err ErrNoAgents else
      let winnerID := priorityLoop ws "" (-1) (cn_AgentIDs c) in
      if decide (winnerID = "") then Err ErrNoValidAgents else
      Ok (mkResolution StrategyPriority winnerID ("agent " +:+ Quote winnerID +:+ " wins by role priority") now)
  end.

Section resolve.
Context `{S : DomainService ContextVariable}.

Definition KeepFirstPolicy_Resolve (now : Z) (c : Conflict) (wc : WorkspaceContext)
  : WorkspaceContext * Res PolicyErr ConflictResolution :=
  let mutations := MutationsForKey wc (cn_Resource c) in
  if decide (mutations = []) then (wc, Err (ErrNoMutations (cn_Resource c))) else
  match earliest c mutations with
  | None => (wc, Err (ErrNoMatching (cn_Resource c)))
  | Some m =>
      match SetWithContext now "" wc (cn_Resource c) (mu_NewValue m) "system" RoleOwner None with
      | (wc', Err e) => (wc', Err (ErrRestore e))
      | (wc', Ok _) =>
          (wc', Ok (mkResolution StrategyKeepFirst "system"
                      ("kept value from first writer " +:+ Quote (mu_AgentID m)) now))
      end
  end.

Definition KeepLastPolicy_Resolve (now : Z) (c : Conflict) (wc : WorkspaceContext)
  : WorkspaceContext * Res PolicyErr ConflictResolution :=
  let mutations := MutationsForKey wc (cn_Resource c) in
  if decide (mutations = []) then (wc, Err (ErrNoMutations (cn_Resource c))) else
  match latest c mutations with
  | None => (wc, Err (ErrNoMatching (cn_Resource c)))
  | Some m =>
      (wc, Ok (mkResolution StrategyKeepLast "system" ("kept value from last writer " +:+ Quote (mu_AgentID m)) now))
  end.

Definition RollbackPolicy_Resolve (now : Z) (c : Conflict) (wc : WorkspaceContext)
  : WorkspaceContext * Res PolicyErr ConflictResolution :=
  let mutations := MutationsForKey wc (cn_Resource c) in
  if decide (mutations = []) then (wc, Err (ErrNoMutations (cn_Resource c))) else
  match earliest c mutations with
  | None => (wc, Err (ErrNoMatching (cn_Resource c)))
  | Some m =>
      match SetWithContext now "" wc (cn_Resource c) (mu_OldValue m) "system" RoleOwner None with
      | (wc', Err e) => (wc', Err (ErrRestore e))
      | (wc', Ok _) =>
          (wc', Ok (mkResolution StrategyRollback "system"
                      ("rolled back " +:+ Quote (cn_Resource c) +:+ " to pre-conflict value") now))
      end
  end.

(** The interface's method: the new context of the workspace and the result.  The
    three policies that read the context refuse a workspace without one. *)
Definition Policy_Resolve (p : ConflictPolicy) (now : Z) (c : Conflict)
    (workspace : option (Workspace * option WorkspaceContext))
  : option WorkspaceContext * Res PolicyErr ConflictResolution :=
  let run f := match workspace with
               | Some (_, Some wc) => let '(wc', out) := f now c wc in (Some wc', out)
               | Some (_, None) | None => (None, Err ErrWorkspaceRequired)
               end in
  match p with
  | PriorityPolicy => (workspace ≫= snd, PriorityPolicy_Resolve now c (fst <$> workspace))
  | KeepFirstPolicy => run KeepFirstPolicy_Resolve
  | KeepLastPolicy => run KeepLastPolicy_Resolve
  | RollbackPolicy => run RollbackPolicy_Resolve
  end.

End resolve.

(** ** The log in time order *)

Definition time_ordered (ms : list ContextMutation) : Prop :=
  StronglySorted (fun a b => mu_Timestamp a <= mu_Timestamp b) ms.

Lemma time_ordered_filter (P : ContextMutation -> Prop) `{!forall m, Decision (P m)} ms :
  time_ordered ms -> time_ordered (filter P ms).
Proof.
  apply sublist_StronglySorted, sublist_filter.
Qed.

Lemma time_ordered_lookup ms i j mi mj :
  time_ordered ms -> (i <= j)%nat -> ms !! i = Some mi -> ms !! j = Some mj -> mu_Timestamp mi <= mu_Timestamp mj.
Proof.
  intros Hs. revert i j. induction Hs as [|m ms Hs IH Hm]; intros i j Hij Hi Hj; [done|].
  destruct i as [|i], j as [|j]; simpl in *; simplify_eq; [lia| |lia|eapply IH; [|done..]; lia].
  eapply Forall_forall in Hm; [exact Hm|]. by eapply list_elem_of_lookup_2.
Qed.

(** ** The loops of the policies *)

(** Nothing replaces an entry that nothing later beats. *)
Lemma pickLoop_keeps better A e ms :
  (forall m, m ∈ ms -> better (mu_Timestamp m) (mu_Timestamp e) = false) -> pickLoop better A (Some e) ms = Some e.
Proof.
  induction ms as [|m ms IH]; intros H; simpl; [done|].
  rewrite H by left. rewrite IH by (intros; apply H; by right). by case_decide.
Qed.

(** On a log in time order the earliest mutation of the conflicting agents is the
    first one of them in the log. *)
Lemma earliest_first c ms :
  time_ordered ms ->
  match earliest c ms with
  | Some m => exists pre post, ms = pre ++ m :: post /\ mu_AgentID m ∈ cn_AgentIDs c /\
                forall x, x ∈ pre -> mu_AgentID x ∉ cn_AgentIDs c
  | None => forall x, x ∈ ms -> mu_AgentID x ∉ cn_AgentIDs c
  end.
Proof.
  unfold earliest. induction 1 as [|m ms Hs IH Hm]; simpl; [by intros x ?%elem_of_nil|].
  case_decide as Ha.
  - rewrite elem_of_list_to_set in Ha. destruct (pickLoop _ _ _ ms) as [e|].
    + destruct IH as (pre & post & -> & He & Hpre). exists (m :: pre), post. split_and!; [done..|].
      by intros x [->|Hx]%elem_of_cons; auto.
    + by intros x [->|Hx]%elem_of_cons; auto.
  - rewrite pickLoop_keeps.
    + exists [], ms. split_and!; [done|by apply elem_of_list_to_set in Ha|]. by intros x ?%elem_of_nil.
    + intros x Hx. eapply Forall_forall in Hm; [|exact Hx]. unfold Before. apply Z.ltb_ge. lia.
Qed.

(** The latest mutation of the conflicting agents, whatever the order of the log. *)
Lemma pick_latest A ms acc :
  match pickLoop (fun t t0 => Before t0 t) A acc ms with
  | Some m => (acc = Some m \/ m ∈ ms /\ mu_AgentID m ∈ A) /\
      (forall e, acc = Some e -> mu_Timestamp e <= mu_Timestamp m) /\
      Forall (fun x => mu_AgentID x ∈ A -> mu_Timestamp x <= mu_Timestamp m) ms
  | None => acc = None /\ Forall (fun x => mu_AgentID x ∉ A) ms
  end.
Proof.
  revert acc. induction ms as [|m ms IH]; intros acc; simpl.
  { destruct acc; [|done]. split_and!; [by left|by intros ? [= ->]|done]. }
  assert (forall acc', (acc' = Some m \/ acc' = acc) -> (forall e, acc = Some e -> forall e', acc' = Some e' -> mu_Timestamp e <= mu_Timestamp e') ->
    (mu_AgentID m ∉ A /\ acc' = acc) \/ (mu_AgentID m ∈ A /\ exists e', acc' = Some e' /\ mu_Timestamp m <= mu_Timestamp e') ->
    match pickLoop (fun t t0 => Before t0 t) A acc' ms with
    | Some w => (acc = Some w \/ w ∈ m :: ms /\ mu_AgentID w ∈ A) /\
        (forall e, acc = Some e -> mu_Timestamp e <= mu_Timestamp w) /\
        Forall (fun x => mu_AgentID x ∈ A -> mu_Timestamp x <= mu_Timestamp w) (m :: ms)
    | None => acc = None /\ Forall (fun x => mu_AgentID x ∉ A) (m :: ms)
    end) as Hstep.
  { intros acc' Hfrom Hle Hm. specialize (IH acc'). destruct (pickLoop _ _ acc' ms) as [w|].
    - destruct IH as (Hw & Hacc & Hall). rewrite elem_of_cons, Forall_cons. split_and!.
      + destruct Hw as [->|[??]]; [|tauto]. destruct Hfrom as [[= ->]| <-]; [|by left].
        destruct Hm as [[_ <-]|[? _]]; [by left|tauto].
      + intros e He. destruct Hm as [[_ ->]|[_ (e' & -> & _)]]; [auto|].
        specialize (Hle e He e' eq_refl). specialize (Hacc e' eq_refl). lia.
      + intros Hin. destruct Hm as [[? _]|[_ (e' & -> & ?)]]; [done|]. specialize (Hacc e' eq_refl). lia.
      + done.
    - destruct IH as [-> Hall]. destruct Hm as [[Hm <-]|[_ (e' & ? & _)]]; [|done]. by rewrite Forall_cons. }
  case_decide as Ha; [apply Hstep; [by right|by intros e -> e' [= ->]|by left]|].
  destruct acc as [e|].
  - unfold Before at 1. destruct (Z.ltb_spec (mu_Timestamp e) (mu_Timestamp m)); apply Hstep; auto.
    + intros ? [= <-] ? [= <-]. lia.
    + right. split; [done|]. exists m. split; [done|lia].
    + intros ? [= <-] ? [= <-]. lia.
    + right. split; [done|]. exists e. done.
  - apply Hstep; auto; [done|]. right. split; [done|]. exists m. split; [done|lia].
Qed.

Lemma chained_split old pre m post : chained old (pre ++ m :: post) -> mu_OldValue m = final_value old pre.
Proof.
  revert old. induction pre as [|x pre IH]; intros old; simpl; [by intros [? _]|].
  intros [_ H]. rewrite (IH _ H). unfold final_value. rewrite last_cons. by destruct (list.last pre).
Qed.

(** ** What a resolution leaves in the context *)

Section resolution.
Context `{S : DomainService ContextVariable, L : !ServiceLaws contextRepository S}.

(** The shape of a successful restoration: one write of "system", in the log. *)
Definition restored (wc wc' : WorkspaceContext) (now : Z) (key value : string) : Prop :=
  value_of wc' key = value /\
  (forall k, k <> key -> wc_variables wc' !! k = wc_variables wc !! k) /\
  exists m, wc_mutations wc' = wc_mutations wc ++ [m] /\ mu_Key m = key /\ mu_AgentID m = "system" /\
    mu_OldValue m = value_of wc key /\ mu_NewValue m = value /\ mu_Timestamp m = now.

Lemma Set_restored now wc key value wc' v :
  SetWithContext now "" wc key value "system" RoleOwner None = (wc', Ok v) -> restored wc wc' now key value.
Proof.
  intros (Hv & _ & _ & Hval & _ & _ & Hm)%Set_Ok. unfold restored, value_of. rewrite Hv, lookup_insert_eq.
  split_and!; [done|by intros k Hk; rewrite lookup_insert_ne|]. eexists. split; [exact Hm|]. by split_and!.
Qed.

(** The conflicting writes of a key: what came before the first, and the first. *)
Definition first_write (wc : WorkspaceContext) (c : Conflict) (pre : list ContextMutation) (m : ContextMutation) : Prop :=
  (exists post, MutationsForKey wc (cn_Resource c) = pre ++ m :: post) /\
  mu_AgentID m ∈ cn_AgentIDs c /\ forall x, x ∈ pre -> mu_AgentID x ∉ cn_AgentIDs c.

(** What a resolution leaves behind.  On a log in time order in which every
    mutation starts where the one before ended: keep-first leaves the value of the
    first write of a conflicting agent; rollback leaves the value the variable had
    just before that write; both are one write by "system" that is appended to the
    log and touches no other variable.  Keep-last and priority change nothing, so
    the value that stays is the current one: that of the latest conflicting write
    when that write is the last one of the log.  A policy that fails changes
    nothing either. *)
Theorem resolution_restores (p : ConflictPolicy) (now : Z) (c : Conflict) (ws : Workspace) (wc : WorkspaceContext)
    (Hlog : log_inv wc (cn_Resource c)) (Hsorted : time_ordered (wc_mutations wc)) :
  match Policy_Resolve p now c (Some (ws, Some wc)) with
  | (Some wc', Err _) => wc' = wc
  | (Some wc', Ok _) =>
      match p with
      | PriorityPolicy => wc' = wc
      | KeepFirstPolicy => exists pre m, first_write wc c pre m /\ restored wc wc' now (cn_Resource c) (mu_NewValue m)
      | RollbackPolicy => exists pre m, first_write wc c pre m /\ restored wc wc' now (cn_Resource c) (final_value "" pre)
      | KeepLastPolicy => wc' = wc /\ exists m, m ∈ MutationsForKey wc (cn_Resource c) /\ mu_AgentID m ∈ cn_AgentIDs c /\
          (forall x, x ∈ MutationsForKey wc (cn_Resource c) -> mu_AgentID x ∈ cn_AgentIDs c -> mu_Timestamp x <= mu_Timestamp m) /\
          (list.last (MutationsForKey wc (cn_Resource c)) = Some m -> value_of wc (cn_Resource c) = mu_NewValue m)
      end
  | (None, _) => False
  end.
Proof.
  pose proof (time_ordered_filter (fun m => mu_Key m = cn_Resource c) _ Hsorted) as Hms.
  pose proof (earliest_first c _ Hms) as He. fold (MutationsForKey wc (cn_Resource c)) in He.
  destruct p; simpl.
  - by repeat case_match.
  - unfold KeepFirstPolicy_Resolve. case_decide; [done|]. destruct (earliest c _) as [m|]; [|done].
    destruct (SetWithContext now "" wc _ _ _ _ _) as [wc' [v|x]] eqn:Hs; [|by apply Set_Err in Hs].
    destruct He as (pre & post & Hsplit & Ha & Hpre). exists pre, m.
    split; [by split_and!; [exists post|..]|]. by eapply Set_restored.
  - unfold KeepLastPolicy_Resolve. case_decide; [done|].
    pose proof (pick_latest (list_to_set (cn_AgentIDs c)) (MutationsForKey wc (cn_Resource c)) None) as Hl.
    fold (latest c (MutationsForKey wc (cn_Resource c))) in Hl. destruct (latest c _) as [m|]; [|done].
    destruct Hl as ([?|[Hin Ha]] & _ & Hx); [done|]. rewrite elem_of_list_to_set in Ha.
    split; [done|]. exists m. split_and!; [done..| |].
    { intros x Hxm Hxa. eapply Forall_forall in Hx; [|exact Hxm]. apply Hx. by apply elem_of_list_to_set. }
    intros Hlast. rewrite <- (inv_final _ _ Hlog). unfold final_value. by rewrite Hlast.
  - unfold RollbackPolicy_Resolve. case_decide; [done|]. destruct (earliest c _) as [m|]; [|done].
    destruct (SetWithContext now "" wc _ _ _ _ _) as [wc' [v|x]] eqn:Hs; [|by apply Set_Err in Hs].
    destruct He as (pre & post & Hsplit & Ha & Hpre). exists pre, m.
    split; [by split_and!; [exists post|..]|]. apply Set_restored in Hs.
    pose proof (inv_chain _ _ Hlog) as Hc. rewrite Hsplit in Hc. by rewrite <- (chained_split _ _ _ _ Hc).
Qed.

End resolution.

Lemma resolution_restores_witness :
  let ops := [OpSet 1 "" "k" "a" "alice" RoleOwner None; OpSet 2 "" "k" "b" "bob" RoleContributor None;
              OpSet 3 "" "k" "c" "carol" RoleContributor None] in
  let wc := foldl (@ctx_step context_service) NewWorkspaceContext ops in
  let c := mkConflict "1" "w" ConflictWrite "k" ["bob"; "carol"] None 4 None in
  let ws := mkWorkspace "w" (mkConfig "" "" "" "" 0 0 0) StateActive [] (mkPolicyConfig "" ∅) 0 0 in
  exists wc', (@Policy_Resolve context_service RollbackPolicy 5 c (Some (ws, Some wc))).1 = Some wc' /\
    restored wc wc' 5 "k" "a".
Proof.
  intros ops wc c ws.
  pose proof (@resolution_restores context_service _ RollbackPolicy 5 c ws wc) as H.
  destruct (@Policy_Resolve context_service RollbackPolicy 5 c (Some (ws, Some wc))) as [[wc'|] [r|e]] eqn:E;
    try by vm_compute in E.
  - exists wc'. split; [done|]. destruct H as (pre & m & [(post & Hs) [Hm Hpre]] & Hr).
    + enough (forall w, log_inv w "k" -> log_inv (foldl (@ctx_step context_service) w ops) "k") as Hk
        by (apply Hk; by split).
      clear. induction ops as [|op ops IH]; intros w Hw; [done|]. by apply IH, log_inv_step.
    + vm_compute. repeat constructor; done.
    + vm_compute in Hs. destruct pre as [|x [|y [|z pre]]].
      * injection Hs as <- _. vm_compute in Hm. by repeat (apply elem_of_cons in Hm as [?|Hm]; [done|]); apply elem_of_nil in Hm.
      * injection Hs as <- <- _. exact Hr.
      * injection Hs as <- <- <- _. exfalso. eapply (Hpre _ ltac:(right; left)). vm_compute. left.
      * injection Hs as _ _ _ Hs. by destruct pre.
Defined.

(** ** The winner by role *)

Definition priority_of (ws : Workspace) (id : string) : option Z :=
  match GetAgent ws id with Ok a => Some (rolePriority (ag_Role a)) | Err _ => None end.

(** [w] is the first of [ids] with the highest priority among the members. *)
Definition first_best (ws : Workspace) (ids : list string) (w : string) : Prop :=
  exists pre post p, ids = pre ++ w :: post /\ priority_of ws w = Some p /\
    (forall x q, x ∈ pre -> priority_of ws x = Some q -> q < p) /\
    (forall x q, x ∈ post -> priority_of ws x = Some q -> q <= p).

Lemma priorityLoop_spec ws w p ids :
  (priorityLoop ws w p ids = w /\ forall x q, x ∈ ids -> priority_of ws x = Some q -> q <= p) \/
  (first_best ws ids (priorityLoop ws w p ids) /\
   exists q, priority_of ws (priorityLoop ws w p ids) = Some q /\ p < q).
Proof.
  revert w p. induction ids as [|id ids IH]; intros w p; simpl; [left; split; [done|by intros x q ?%elem_of_nil]|].
  assert (forall p', (forall q, priority_of ws id = Some q -> q <= p') -> p <= p' ->
    (priorityLoop ws w p' ids = w /\ (forall x q, x ∈ ids -> priority_of ws x = Some q -> q <= p')) \/
    (first_best ws ids (priorityLoop ws w p' ids) /\ exists q, priority_of ws (priorityLoop ws w p' ids) = Some q /\ p' < q) ->
    (priorityLoop ws w p' ids = w /\ (forall x q, x ∈ id :: ids -> priority_of ws x = Some q -> q <= p')) \/
    (first_best ws (id :: ids) (priorityLoop ws w p' ids) /\ exists q, priority_of ws (priorityLoop ws w p' ids) = Some q /\ p' < q)) as Hskip.
  { intros p' Hid Hp [[-> H]|[(pre & post & r & E & Hr & Hpre & Hpost) (q & Hq & Hlt)]].
    - left. split; [done|]. intros x q [->|Hx]%elem_of_cons; eauto.
    - right. split; [|by exists q]. exists (id :: pre), post, r. split_and!; [by rewrite E at 1|done| |done].
      intros x s [->|Hx]%elem_of_cons Hs; [|by eapply Hpre]. specialize (Hid s Hs). rewrite Hr in Hq. simplify_eq. lia. }
  unfold priority_of at 1 in Hskip. destruct (GetAgent ws id) as [a|e] eqn:Ha.
  - case_decide as Hp; [|apply Hskip; [intros q [= <-]; lia|lia|apply IH]].
    right. assert (priority_of ws id = Some (rolePriority (ag_Role a))) as Hid by (unfold priority_of; by rewrite Ha).
    destruct (IH id (rolePriority (ag_Role a))) as [[-> H]|[(pre & post & r & E & Hr & Hpre & Hpost) (q & Hq & Hlt)]].
    + split; [|exists (rolePriority (ag_Role a)); split; [done|lia]]. exists [], ids, (rolePriority (ag_Role a)).
      split_and!; [done..| |done]. by intros x q ?%elem_of_nil.
    + split; [|exists q; split; [done|lia]]. exists (id :: pre), post, r. split_and!; [by rewrite E at 1|done| |done].
      intros x s [->|Hx]%elem_of_cons Hs; [|by eapply Hpre]. simplify_eq. lia.
  - apply Hskip; [done|lia|apply IH].
Qed.

Lemma rolePriority_nonneg role : 0 <= rolePriority role.
Proof. unfold rolePriority. repeat case_decide; lia. Qed.

(** The priority policy picks the first listed agent of the highest role.  The
    winner is a member of the workspace whose role no other listed member
    exceeds, and which no earlier one equals; the policy fails only when none of
    the listed agents is a member, or when the member that would win has the empty
    id, which the code takes for "no winner". *)
Theorem priority_winner (now : Z) (c : Conflict) (ws : Workspace) :
  match PriorityPolicy_Resolve now c (Some ws) with
  | Ok r => first_best ws (cn_AgentIDs c) (rs_ResolvedBy r) /\ rs_ResolvedBy r <> ""
  | Err _ => (forall x, x ∈ cn_AgentIDs c -> priority_of ws x = None) \/ first_best ws (cn_AgentIDs c) ""
  end.
Proof.
  unfold PriorityPolicy_Resolve. case_decide as Hnil; [left; rewrite Hnil; by intros x ?%elem_of_nil|].
  pose proof (priorityLoop_spec ws "" (-1) (cn_AgentIDs c)) as Hspec. case_decide as Hw.
  - rewrite Hw in Hspec. destruct Hspec as [[_ H]|[H _]]; [left|by right].
    intros x Hx. destruct (priority_of ws x) as [q|] eqn:Hq; [|done]. pose proof (H x q Hx Hq) as Hle.
    unfold priority_of in Hq. destruct (GetAgent ws x) as [a|]; [|done]. injection Hq as <-.
    pose proof (rolePriority_nonneg (ag_Role a)). lia.
  - simpl. destruct Hspec as [[E _]|[H _]]; done.
Qed.

(** ** The two detectors of write conflicts *)

Definition recent_on (cutoff : Z) (key : string) (ms : list ContextMutation) : list ContextMutation :=
  filter (fun m => mu_Key m = key /\ cutoff <= mu_Timestamp m) ms.

Lemma groupRecent_lookup cutoff ms key :
  groupRecent cutoff ms !! key = match recent_on cutoff key ms with [] => None | l => Some l end.
Proof.
  unfold groupRecent, recent_on. induction ms as [|m ms IH] using rev_ind; [done|].
  rewrite foldl_app, filter_app. simpl. unfold groupStep at 1, Before.
  destruct (Z.ltb_spec (mu_Timestamp m) cutoff) as [Hlt|Hge].
  - rewrite filter_cons_False by lia. by rewrite app_nil_r.
  - destruct (decide (mu_Key m = key)) as [Hk|Hk].
    + rewrite Hk, lookup_insert_eq, IH, filter_cons_True by done. simpl. by destruct (filter _ ms).
    + rewrite lookup_insert_ne by done. rewrite IH, filter_cons_False by tauto. by rewrite app_nil_r.
Qed.

Lemma recentMutations_reverse key cutoff ms :
  time_ordered ms -> recentMutations key cutoff (reverse ms) = reverse (recent_on cutoff key ms).
Proof.
  intros Hs. induction ms as [|m ms IH] using rev_ind; [done|].
  unfold recent_on. rewrite reverse_snoc, filter_app, reverse_app. simpl.
  assert (time_ordered ms /\ forall x, x ∈ ms -> mu_Timestamp x <= mu_Timestamp m) as [Hs' Hm].
  { clear IH. split.
    - induction ms as [|x ms IH]; [constructor|]. apply StronglySorted_inv in Hs as [Hs Hx]. constructor; [by apply IH|].
      by apply Forall_app in Hx as [? _].
    - intros x [i Hi]%list_elem_of_lookup_1. pose proof (lookup_lt_Some _ _ _ Hi).
      eapply (time_ordered_lookup _ i (length ms)); [exact Hs|lia|by rewrite lookup_app_l|].
      by rewrite lookup_app_r, Nat.sub_diag by done. }
  case_decide as Hk; [rewrite filter_cons_False by tauto; by rewrite IH|].
  unfold Before. destruct (Z.ltb_spec (mu_Timestamp m) cutoff) as [Hlt|Hge].
  - rewrite filter_cons_False by lia. rewrite (filter_none _ ms); [done|]. intros x Hx [_ ?]. specialize (Hm x Hx). lia.
  - rewrite filter_cons_True by done. simpl. rewrite IH by done. done.
Qed.

(** The agents that have mutated the key in the window. *)
Definition writers (now window : Z) (wc : WorkspaceContext) (key : string) : gset string :=
  list_to_set (mu_AgentID <$> recent_on (now - window) key (wc_mutations wc)).

Lemma two_writers now window wc key :
  (2 <= size (writers now window wc key))%nat <->
  exists a b, a ∈ wc_mutations wc /\ b ∈ wc_mutations wc /\ mu_Key a = key /\ mu_Key b = key /\
    now - window <= mu_Timestamp a /\ now - window <= mu_Timestamp b /\ mu_AgentID a <> mu_AgentID b.
Proof.
  assert (forall x, x ∈ writers now window wc key <->
            exists m, x = mu_AgentID m /\ m ∈ wc_mutations wc /\ mu_Key m = key /\ now - window <= mu_Timestamp m) as Hw.
  { intros x. unfold writers, recent_on. rewrite elem_of_list_to_set, list_elem_of_fmap.
    setoid_rewrite list_elem_of_filter. naive_solver. }
  rewrite size_two. split.
  - intros (x & y & Hne & (a & -> & Ha & Hka & Hta)%Hw & (b & -> & Hb & Hkb & Htb)%Hw). by exists a, b.
  - intros (a & b & Ha & Hb & Hka & Hkb & Hta & Htb & Hne). exists (mu_AgentID a), (mu_AgentID b).
    split_and!; [done|apply Hw; by exists a|apply Hw; by exists b].
Qed.

(** Two writers are at least two mutations: the length test is redundant. *)
Lemma writers_length now window wc key :
  (2 <= size (writers now window wc key))%nat -> (2 <= length (recent_on (now - window) key (wc_mutations wc)))%nat.
Proof.
  intros H. pose proof (size_list_to_set_le (mu_AgentID <$> recent_on (now - window) key (wc_mutations wc))) as Hl.
  rewrite length_fmap in Hl. unfold writers in H. lia.
Qed.

Lemma single_spec now window order wc key :
  time_ordered (wc_mutations wc) ->
  DetectWriteConflict now order wc key window =
    if decide (2 <= size (writers now window wc key))%nat
    then Some (mkConflict "" "" ConflictWrite key (order (writers now window wc key)) None now None) else None.
Proof.
  intros Hs. unfold DetectWriteConflict. rewrite recentMutations_reverse by done. rewrite length_reverse.
  assert (list_to_set (mu_AgentID <$> reverse (recent_on (now - window) key (wc_mutations wc))) = writers now window wc key) as ->.
  { apply set_eq. intros x. unfold writers. by rewrite !elem_of_list_to_set, fmap_reverse, elem_of_reverse. }
  pose proof (writers_length now window wc key). repeat case_decide; done || lia.
Qed.

Section scan.
Context (now window : Z) (uuid : string -> string) (order : gset string -> list string).
Context (rangeOrder : gmap string (list ContextMutation) -> list (string * list ContextMutation)).
Context (ws : Workspace) (wc : WorkspaceContext) (Hrange : forall m, ranges (rangeOrder m) m).

Lemma group_spec key :
  groupConflict now uuid order (ws_ID ws) (key, recent_on (now - window) key (wc_mutations wc)) =
    if decide (2 <= size (writers now window wc key))%nat
    then Some (mkConflict (uuid key) (ws_ID ws) ConflictWrite key (order (writers now window wc key)) None now None)
    else None.
Proof.
  unfold groupConflict. simpl. fold (writers now window wc key). pose proof (writers_length now window wc key).
  repeat case_decide; done || lia.
Qed.

Lemma scan_elem c :
  c ∈ DetectWriteConflicts now uuid order rangeOrder (Some (ws, Some wc)) window <->
  exists key, (2 <= size (writers now window wc key))%nat /\
    c = mkConflict (uuid key) (ws_ID ws) ConflictWrite key (order (writers now window wc key)) None now None.
Proof.
  simpl. case_decide as Hlen.
  { rewrite elem_of_nil. split; [done|]. intros (key & Hk%writers_length & _).
    pose proof (length_filter (fun m => mu_Key m = key /\ now - window <= mu_Timestamp m) (wc_mutations wc)).
    unfold recent_on in Hk. lia. }
  rewrite list_elem_of_omap. split.
  - intros ([k l] & Hkl & Hc). apply (ranges_elem _ _ _ _ (Hrange _)) in Hkl. rewrite groupRecent_lookup in Hkl.
    assert (l = recent_on (now - window) k (wc_mutations wc)) as -> by (by case_match; simplify_eq).
    rewrite group_spec in Hc. case_decide; [|done]. injection Hc as <-. by exists k.
  - intros (key & Hk & ->). exists (key, recent_on (now - window) key (wc_mutations wc)). split.
    + apply (ranges_elem _ _ _ _ (Hrange _)). rewrite groupRecent_lookup. apply writers_length in Hk.
      destruct (recent_on _ _ _); [simpl in Hk; lia|done].
    + rewrite group_spec. by case_decide.
Qed.

Lemma scan_NoDup : NoDup (cn_Resource <$> DetectWriteConflicts now uuid order rangeOrder (Some (ws, Some wc)) window).
Proof.
  simpl. case_decide; [constructor|].
  apply (sublist_NoDup _ ((rangeOrder (groupRecent (now - window) (wc_mutations wc))).*1)).
  { rewrite (Hrange _). apply NoDup_fst_map_to_list. }
  induction (rangeOrder _) as [|[k l] o IH]; [constructor|]. simpl.
  unfold groupConflict at 1. repeat case_decide; simpl; by constructor.
Qed.

End scan.

(** The two detectors of write conflicts agree.  On a log in time order, and
    for every order of iteration, the workspace scan reports a conflict on a key
    exactly when the check of that one key does, once, for the same resource and
    the same agents; and both mean that two different agents have mutated the key
    at or after [now - window]. *)
Theorem write_conflict_detectors_agree (now window : Z) (uuid : string -> string) (order : gset string -> list string)
    (rangeOrder : gmap string (list ContextMutation) -> list (string * list ContextMutation))
    (ws : Workspace) (wc : WorkspaceContext)
    (Horder : forall X, order X ≡ₚ elements X) (Hrange : forall m, ranges (rangeOrder m) m)
    (Hsorted : time_ordered (wc_mutations wc)) :
  let cs := DetectWriteConflicts now uuid order rangeOrder (Some (ws, Some wc)) window in
  NoDup (cn_Resource <$> cs) /\
  (forall key, key ∈ (cn_Resource <$> cs) <-> is_Some (DetectWriteConflict now order wc key window)) /\
  (forall c c', c ∈ cs -> DetectWriteConflict now order wc (cn_Resource c) window = Some c' ->
     cn_AgentIDs c = cn_AgentIDs c' /\ cn_WorkspaceID c = ws_ID ws) /\
  (forall key, key ∈ (cn_Resource <$> cs) <->
     exists a b, a ∈ wc_mutations wc /\ b ∈ wc_mutations wc /\ mu_Key a = key /\ mu_Key b = key /\
       now - window <= mu_Timestamp a /\ now - window <= mu_Timestamp b /\ mu_AgentID a <> mu_AgentID b).
Proof.
  intros cs. pose proof (scan_elem now window uuid order rangeOrder ws wc Hrange) as Hcs. fold cs in Hcs.
  assert (forall key, key ∈ (cn_Resource <$> cs) <-> (2 <= size (writers now window wc key))%nat) as Hkey.
  { intros key. rewrite list_elem_of_fmap. split.
    - intros (c & -> & (k & Hk & ->)%Hcs). done.
    - intros Hk. eexists. split; [|apply Hcs; by exists key]. done. }
  split_and!.
  - by apply scan_NoDup.
  - intros key. rewrite Hkey, single_spec by done. case_decide; [|split; [lia|by intros [? ?]]]. split; [by eexists|done].
  - intros c c' (k & Hk & ->)%Hcs. simpl. rewrite single_spec, decide_True by done. by intros [= <-].
  - intros key. rewrite Hkey. apply two_writers.
Qed.

Lemma write_conflict_detectors_agree_witness :
  let wc := mkContext ∅ [mkMutation "k" "" "a" 1 "alice" "" 10; mkMutation "j" "" "a" 1 "bob" "" 11;
                         mkMutation "k" "a" "b" 2 "bob" "" 12] ∅ in
  let ws := mkWorkspace "w" (mkConfig "" "" "" "" 0 0 0) StateActive [] (mkPolicyConfig "" ∅) 0 0 in
  "k" ∈ (cn_Resource <$> DetectWriteConflicts 13 id elements map_to_list (Some (ws, Some wc)) 5) /\
  is_Some (DetectWriteConflict 13 elements wc "k" 5).
Proof.
  intros wc ws.
  destruct (write_conflict_detectors_agree 13 5 id elements map_to_list ws wc) as (_ & H & _ & _);
    [by intros X|by intros m; unfold ranges|vm_compute; repeat constructor; done|].
  assert (is_Some (DetectWriteConflict 13 elements wc "k" 5)) as Hk by (vm_compute; by eexists).
  split; [by apply H|done].
Defined.

(** ** Conflicts of the task graph *)

Lemma graph_of_tasks (tasks : list TaskInfo) :
  graph_of ((fun t => (tk_ID t, tk_Dependencies t)) <$> tasks) =
  foldl (fun g t => AddTask g (tk_ID t) (tk_Dependencies t)) NewDependencyGraph tasks.
Proof. unfold graph_of. generalize NewDependencyGraph. induction tasks as [|t ts IH]; intros g; [done|]. apply IH. Qed.

(** An ordering conflict is a real cycle.  When no task and no dependency has
    the empty id, for every iteration order and with as much fuel as the graph has
    tasks, [DetectOrderingConflicts] ends: with no conflict exactly when the tasks
    can be ordered, and otherwise with one conflict whose "agents" are the tasks of
    a cycle of dependencies, each depending on the next. *)
Theorem ordering_conflicts_exact (fuel : nat) (now : Z) (uuid : string) (o : list string) (tasks : list TaskInfo) :
  let g := graph_of ((fun t => (tk_ID t, tk_Dependencies t)) <$> tasks) in
  ranges_keys o g -> g !! "" = None -> (size g <= fuel)%nat ->
  (acyclic g /\ DetectOrderingConflicts fuel now uuid o tasks = Some []) \/
  (~ acyclic g /\ exists c, DetectOrderingConflicts fuel now uuid o tasks = Some [c] /\
     cn_Type c = ConflictOrdering /\ is_cycle g (cn_AgentIDs c)).
Proof.
  intros g Ho Hne Hf. unfold DetectOrderingConflicts.
  assert (foldl (fun g t => AddTask g (tk_ID t) (tk_Dependencies t)) NewDependencyGraph tasks = g) as ->.
  { symmetry. apply graph_of_tasks. }
  destruct (DetectCycles_exact _ o fuel Ho Hne Hf) as [[Hac E]|[Hac (c & E & Hc)]].
  - left. split; [done|]. case_decide; [done|]. fold g in E. by rewrite E.
  - right. split; [done|]. case_decide as Hnil.
    { exfalso. apply Hac. intros x Hx. unfold g in Hx. rewrite Hnil in Hx.
      inversion Hx as [? ? Hd|? ? ? Hd _]; subst; unfold depends, deps_of in Hd; vm_compute in Hd; by apply elem_of_nil in Hd. }
    fold g in E. rewrite E. eexists. split; [done|]. done.
Qed.

Lemma ordering_conflicts_exact_witness :
  let t id deps := mkTask id "w" "a" "b" "" None None TaskSubmitted "" deps 0 0 None 0 in
  let tasks := [t "a" ["b"]; t "b" ["a"]; t "c" ["a"]] in
  exists c, DetectOrderingConflicts 3 1 "u" ["c"; "a"; "b"] tasks = Some [c] /\ cn_AgentIDs c = ["a"; "b"; "a"].
Proof.
  intros t tasks. destruct (ordering_conflicts_exact 3 1 "u" ["c"; "a"; "b"] tasks) as [[_ E]|[_ (c & E & _ & _)]].
  - unfold ranges_keys. vm_compute. solve_Permutation.
  - by vm_compute.
  - vm_compute. lia.
  - by vm_compute in E.
  - exists c. split; [exact E|]. vm_compute in E. by injection E as <-.
Defined.

(** ** Where the policies fall short *)

(** Keep-last reports the last writer among the conflicting agents and leaves the
    value of a later one. *)
Example keep_last_keeps_another :
  let wc := foldl (@ctx_step context_service) NewWorkspaceContext
              [OpSet 1 "" "k" "a" "alice" RoleOwner None; OpSet 2 "" "k" "b" "bob" RoleContributor None;
               OpSet 3 "" "k" "c" "carol" RoleContributor None] in
  let '(wc', out) := KeepLastPolicy_Resolve 4 (mkConflict "1" "w" ConflictWrite "k" ["alice"; "bob"] None 4 None) wc in
  match out with
  | Ok r => rs_Details r = "kept value from last writer " +:+ Quote "bob" /\ value_of wc' "k" = "c"
  | Err _ => False
  end.
Proof. vm_compute. done. Qed.

(** A conflict on a variable that its last writer made private cannot be rolled
    back: "system" does not see it. *)
Example private_not_restored :
  let wc := foldl (@ctx_step context_service) NewWorkspaceContext
              [OpSet 1 "" "k" "a" "alice" RoleOwner None; OpSet 2 "" "k" "b" "bob" RoleContributor (Some VisibilityPrivate)] in
  (@RollbackPolicy_Resolve context_service 4 (mkConflict "1" "w" ConflictWrite "k" ["alice"; "bob"] None 4 None) wc).2 =
  Err (ErrRestore (ErrVarNotFound "k")).
Proof. by vm_compute. Qed.
