(* ===== verification/CollabStore.v ===== *)
(** * Workspace storage, manager and registry
      (src/internal/storage/collaboration.go; manager.go and registry.go of
       src/internal/core/collaboration)

    A workspace is a directory with a manifest and a state file, written one after
    the other, and four JSON files.  The manager loads a workspace, changes it,
    saves it and records an audit event.  A file is a document; each write of a
    save may fail, which is also what a crash between two writes leaves behind.
    The ids are single path elements. *)

From Stdlib Require Import ZArith Lia.
From stdpp Require Import base option list gmap strings fin_maps sorting.
From S2P Require Import Prelude Text Events Workspace Domain Context Messaging.

Open Scope Z_scope.

(** ** The files *)

Record workspaceState : Type := mkState {
  st_ID : string;
  st_State : WorkspaceState;
  st_Agents : list AgentInfo;
  st_Policy : PolicyConfig;
  st_CreatedAt : Z;
  st_UpdatedAt : Z
}.

Record WsDir : Type := mkDir {
  d_manifest : Doc WorkspaceConfig;
  d_state : Doc workspaceState;
  d_conflicts : Doc (list Conflict);
  d_context : Doc (list ContextVariable);
  d_audit : Doc (list AuditEvent)
}.

(** The root directory: the workspace directories and the file active-workspace. *)
Record CollaborationStorage : Type := mkStorage {
  cs_dirs : gmap string WsDir;
  cs_active : Doc string
}.

Definition emptyDir : WsDir := mkDir Missing Missing Missing Missing Missing.

Inductive StoreErr : Type :=
  | ErrMkdir | ErrWriteManifest | ErrWriteState | ErrWorkspaceNotFound (id : string) | ErrReadManifest
  | ErrParseManifest | ErrStateMissing (id : string) | ErrReadState | ErrParseState | ErrReadDir
  | ErrReadFile | ErrParseFile | ErrWriteFile | ErrReadActive.

(** Which call of a save fails. *)
Record Faults : Type := mkFaults {
  f_mkdir : bool;
  f_manifest : bool;
  f_state : bool;
  f_file : bool
}.

Definition no_faults : Faults := mkFaults false false false false.

(** os.MkdirAll of the workspace directory. *)
Definition mkdirAll (s : CollaborationStorage) (id : string) : CollaborationStorage :=
  mkStorage (<[id := default emptyDir (cs_dirs s !! id)]> (cs_dirs s)) (cs_active s).

(** A write goes to a temporary file that is then renamed: it replaces the file as
    a whole or leaves the old one. *)
Definition atomicWriteFile (f : WsDir -> WsDir) (s : CollaborationStorage) (id : string) : CollaborationStorage :=
  mkStorage (alter f id (cs_dirs s)) (cs_active s).

Definition set_manifest (c : WorkspaceConfig) (d : WsDir) : WsDir :=
  mkDir (Parsed c) (d_state d) (d_conflicts d) (d_context d) (d_audit d).
Definition set_stateFile (st : workspaceState) (d : WsDir) : WsDir :=
  mkDir (d_manifest d) (Parsed st) (d_conflicts d) (d_context d) (d_audit d).
Definition set_conflicts (l : list Conflict) (d : WsDir) : WsDir :=
  mkDir (d_manifest d) (d_state d) (Parsed l) (d_context d) (d_audit d).
Definition set_context (l : list ContextVariable) (d : WsDir) : WsDir :=
  mkDir (d_manifest d) (d_state d) (d_conflicts d) (Parsed l) (d_audit d).
Definition set_audit (l : list AuditEvent) (d : WsDir) : WsDir :=
  mkDir (d_manifest d) (d_state d) (d_conflicts d) (d_context d) (Parsed l).

Definition SaveWorkspace (flt : Faults) (s : CollaborationStorage) (ws : Workspace)
  : CollaborationStorage * Res StoreErr unit :=
  if f_mkdir flt then (s, Err ErrMkdir) else
  let s := mkdirAll s (ws_ID ws) in
  if f_manifest flt then (s, Err ErrWriteManifest) else
  let s := atomicWriteFile (set_manifest (ws_Config ws)) s (ws_ID ws) in
  let state := mkState (ws_ID ws) (ws_State ws) (ws_Agents ws) (ws_Policy ws) (ws_CreatedAt ws) (ws_UpdatedAt ws) in
  if f_state flt then (s, Err ErrWriteState) else
  (atomicWriteFile (set_stateFile state) s (ws_ID ws), Ok tt).

Definition LoadWorkspace (s : CollaborationStorage) (id : string) : Res StoreErr Workspace :=
  let dir := default emptyDir (cs_dirs s !! id) in
  match d_manifest dir with
  | Missing => Err (ErrWorkspaceNotFound id)
  | Unreadable => Err ErrReadManifest
  | Malformed => Err ErrParseManifest
  | Parsed config =>
      match d_state dir with
      | Missing => Err (ErrStateMissing id)
      | Unreadable => Err ErrReadState
      | Malformed => Err ErrParseState
      | Parsed st =>
          Ok (mkWorkspace (st_ID st) config (st_State st) (st_Agents st) (st_Policy st) (st_CreatedAt st) (st_UpdatedAt st))
      end
  end.

(** The names in a directory come sorted. *)
Definition ReadDir (s : CollaborationStorage) : list string := merge_sort str_le (map_to_list (cs_dirs s)).*1.

Definition exists_doc {A} (d : Doc A) : bool := match d with Missing => false | _ => true end.

(** [fails]: the root directory cannot be read. *)
Definition ListWorkspaces (fails : bool) (s : CollaborationStorage) : Res StoreErr (list string) :=
  if fails then Err ErrReadDir else
  Ok (filter (fun id => exists_doc (d_manifest (default emptyDir (cs_dirs s !! id))) = true) (ReadDir s)).

(** [fails]: the removal fails, and leaves the directory. *)
Definition DeleteWorkspace (fails : bool) (s : CollaborationStorage) (id : string) : CollaborationStorage * Res StoreErr unit :=
  match cs_dirs s !! id with
  | None => (s, Err (ErrWorkspaceNotFound id))
  | Some _ => if fails then (s, Err ErrWriteFile) else (mkStorage (delete id (cs_dirs s)) (cs_active s), Ok tt)
  end.

(** saveJSON and loadJSON for one of the files of a directory. *)
Definition saveJSON {A} (set : A -> WsDir -> WsDir) (flt : Faults) (s : CollaborationStorage) (id : string) (v : A)
  : CollaborationStorage * Res StoreErr unit :=
  if f_mkdir flt then (s, Err ErrMkdir) else
  let s := mkdirAll s id in
  if f_file flt then (s, Err ErrWriteFile) else (atomicWriteFile (set v) s id, Ok tt).

(** An absent or empty file is no error: the value stays nil. *)
Definition loadJSON {A} (get : WsDir -> Doc (list A)) (s : CollaborationStorage) (id : string) : Res StoreErr (list A) :=
  match get (default emptyDir (cs_dirs s !! id)) with
  | Missing => Ok []
  | Unreadable => Err ErrReadFile
  | Malformed => Err ErrParseFile
  | Parsed v => Ok v
  end.

Definition SaveConflicts := saveJSON set_conflicts.
Definition LoadConflicts := loadJSON d_conflicts.
Definition SaveContext := saveJSON set_context.
Definition LoadContext := loadJSON d_context.
Definition SaveAuditEvents := saveJSON set_audit.
Definition LoadAuditEvents := loadJSON d_audit.

Definition SaveActiveWorkspace (flt : Faults) (s : CollaborationStorage) (id : string)
  : CollaborationStorage * Res StoreErr unit :=
  if f_file flt then (s, Err ErrWriteFile) else (mkStorage (cs_dirs s) (Parsed id), Ok tt).

Definition LoadActiveWorkspace (s : CollaborationStorage) : Res StoreErr string :=
  match cs_active s with
  | Missing => Ok ""
  | Unreadable | Malformed => Err ErrReadActive
  | Parsed id => Ok (TrimSpace id)
  end.

(** ** The manager *)

Inductive MgrErr : Type := MgrStore (e : StoreErr) | MgrWorkspace (e : WsErr) | MgrPermission (profileID action required : string).

(** What a call brings with it: the faults of its save and of its audit record, the
    ids and the time it draws, and the note of its Go context. *)
Record Call : Type := mkCall {
  cl_save : Faults;
  cl_audit : Faults;
  cl_uuid : string;
  cl_auditID : string;
  cl_now : Z;
  cl_note : string
}.

(** The result of the write is returned; every caller drops it. *)
Definition recordEvent (cl : Call) (s : CollaborationStorage) (workspaceID actor event resource details : string)
  : CollaborationStorage * Res StoreErr unit :=
  let existing := match LoadAuditEvents s workspaceID with Ok l => l | Err _ => [] end in
  let entry := mkAuditEvent (cl_auditID cl) workspaceID actor event resource details (cl_note cl) (cl_now cl) in
  SaveAuditEvents (cl_audit cl) s workspaceID (existing ++ [entry]).

Definition Create (cl : Call) (s : CollaborationStorage) (config : WorkspaceConfig)
  : CollaborationStorage * Res MgrErr Workspace :=
  match NewWorkspace (cl_uuid cl) (cl_now cl) config with
  | Err e => (s, Err (MgrWorkspace e))
  | Ok ws =>
      match SaveWorkspace (cl_save cl) s ws with
      | (s, Err e) => (s, Err (MgrStore e))
      | (s, Ok _) =>
          ((recordEvent cl s (ws_ID ws) (cg_OwnerProfileID config) "workspace.create" (ws_ID ws) "").1, Ok ws)
      end
  end.

Definition Manager_Get (s : CollaborationStorage) (id : string) : Res MgrErr Workspace :=
  match LoadWorkspace s id with Ok ws => Ok ws | Err e => Err (MgrStore e) end.

(** Load, change, save and record: the body that the methods below share. *)
Definition withWorkspace {A} (cl : Call) (s : CollaborationStorage) (id : string)
    (change : Workspace -> Res MgrErr (Workspace * A)) (record : Workspace -> CollaborationStorage -> CollaborationStorage)
  : CollaborationStorage * Res MgrErr A :=
  match LoadWorkspace s id with
  | Err e => (s, Err (MgrStore e))
  | Ok ws =>
      match change ws with
      | Err e => (s, Err e)
      | Ok (ws', a) =>
          match SaveWorkspace (cl_save cl) s ws' with
          | (s, Err e) => (s, Err (MgrStore e))
          | (s, Ok _) => (record ws' s, Ok a)
          end
      end
  end.

Definition lift {A} (x : Workspace * Res WsErr A) : Res MgrErr (Workspace * A) :=
  match x with (ws, Ok a) => Ok (ws, a) | (_, Err e) => Err (MgrWorkspace e) end.

Definition Archive (cl : Call) (s : CollaborationStorage) (id : string) : CollaborationStorage * Res MgrErr unit :=
  withWorkspace cl s id (fun ws => lift (SetState (cl_now cl) ws StateArchived))
    (fun ws s => (recordEvent cl s (ws_ID ws) "system" "workspace.archive" (ws_ID ws) "").1).

Definition Join (cl : Call) (s : CollaborationStorage) (workspaceID profileID : string)
  : CollaborationStorage * Res MgrErr AgentInfo :=
  withWorkspace cl s workspaceID (fun ws => lift (AddAgent (cl_now cl) ws profileID RoleContributor))
    (fun _ s => (recordEvent cl s workspaceID profileID "agent.join" profileID "").1).

Definition Leave (cl : Call) (s : CollaborationStorage) (workspaceID profileID : string)
  : CollaborationStorage * Res MgrErr unit :=
  withWorkspace cl s workspaceID (fun ws => lift (RemoveAgent (cl_now cl) ws profileID))
    (fun _ s => (recordEvent cl s workspaceID profileID "agent.leave" profileID "").1).

Definition Remove (cl : Call) (s : CollaborationStorage) (workspaceID targetProfileID actorProfileID : string)
  : CollaborationStorage * Res MgrErr unit :=
  withWorkspace cl s workspaceID
    (fun ws => if negb (IsOwner ws actorProfileID) then Err (MgrPermission actorProfileID "remove agent" "owner")
               else lift (RemoveAgent (cl_now cl) ws targetProfileID))
    (fun _ s => (recordEvent cl s workspaceID actorProfileID "agent.remove" targetProfileID
                   ("removed by " +:+ actorProfileID)).1).

Definition SetRole (cl : Call) (s : CollaborationStorage) (workspaceID profileID : string) (role : AgentRole)
  : CollaborationStorage * Res MgrErr unit :=
  withWorkspace cl s workspaceID (fun ws => lift (SetAgentRole (cl_now cl) ws profileID role))
    (fun _ s => (recordEvent cl s workspaceID "system" "agent.role_change" profileID ("role changed to " +:+ role)).1).

Definition Members (s : CollaborationStorage) (workspaceID : string) : Res MgrErr (list AgentInfo) :=
  match LoadWorkspace s workspaceID with Ok ws => Ok (ws_Agents ws) | Err e => Err (MgrStore e) end.

Definition SetActiveWorkspace (cl : Call) (s : CollaborationStorage) (workspaceID : string)
  : CollaborationStorage * Res MgrErr unit :=
  match LoadWorkspace s workspaceID with
  | Err e => (s, Err (MgrStore e))
  | Ok _ => match SaveActiveWorkspace (cl_save cl) s workspaceID with
            | (s, Err e) => (s, Err (MgrStore e))
            | (s, Ok _) => (s, Ok tt)
            end
  end.

Definition GetActiveWorkspace (s : CollaborationStorage) : Res MgrErr string :=
  match LoadActiveWorkspace s with Ok id => Ok id | Err e => Err (MgrStore e) end.

(** ** Listing *)

(** A nil map of filters is the empty one. *)
Definition matchesFilters (ws : Workspace) (opts : ListOptions) : bool :=
  let fs := lo_Filters opts in
  if match fs !! "name" with Some name => bool_decide (cg_Name (ws_Config ws) <> name) | None => false end then false
  else if match fs !! "status" with Some status => bool_decide (ws_State ws <> status) | None => false end then false
  else true.

(** The loop over the ids: unreadable workspaces are skipped. *)
Fixpoint listLoop (s : CollaborationStorage) (keep : Workspace -> bool) (ids : list string) : list Workspace :=
  match ids with
  | [] => []
  | id :: ids =>
      match LoadWorkspace s id with
      | Err _ => listLoop s keep ids
      | Ok ws => if keep ws then ws :: listLoop s keep ids else listLoop s keep ids
      end
  end.

Definition pageOf {A} (opts : ListOptions) (l : list A) : list A :=
  let n := Z.of_nat (length l) in
  if decide (lo_Offset opts > 0 /\ lo_Offset opts < n) then
    let l := drop (Z.to_nat (lo_Offset opts)) l in
    if decide (lo_Limit opts > 0 /\ lo_Limit opts < Z.of_nat (length l)) then take (Z.to_nat (lo_Limit opts)) l else l
  else if decide (lo_Offset opts >= n) then []
  else if decide (lo_Limit opts > 0 /\ lo_Limit opts < n) then take (Z.to_nat (lo_Limit opts)) l else l.

Definition Manager_List (fails : bool) (s : CollaborationStorage) (opts : ListOptions) : Res MgrErr (list Workspace) :=
  match ListWorkspaces fails s with
  | Err e => Err (MgrStore e)
  | Ok ids => Ok (pageOf opts (listLoop s (fun ws => matchesFilters ws opts) ids))
  end.

(** Registry.ListWorkspaces has the same body. *)
Definition Registry_ListWorkspaces (fails : bool) (s : CollaborationStorage) (opts : ListOptions)
  : Res MgrErr (list Workspace) :=
  match ListWorkspaces fails s with
  | Err e => Err (MgrStore e)
  | Ok ids => Ok (pageOf opts (listLoop s (fun ws => matchesFilters ws opts) ids))
  end.

Definition SearchWorkspaces (fails : bool) (s : CollaborationStorage) (query : string) : Res MgrErr (list Workspace) :=
  match ListWorkspaces fails s with
  | Err e => Err (MgrStore e)
  | Ok ids => Ok (listLoop s (fun ws => Contains (ToLower (cg_Name (ws_Config ws))) (ToLower query)) ids)
  end.

(** ** What the store holds: the workspaces that load *)

Definition dir_workspace (d : WsDir) : option Workspace :=
  match d_manifest d, d_state d with
  | Parsed config, Parsed st =>
      Some (mkWorkspace (st_ID st) config (st_State st) (st_Agents st) (st_Policy st) (st_CreatedAt st) (st_UpdatedAt st))
  | _, _ => None
  end.

Definition view (s : CollaborationStorage) : gmap string Workspace := omap dir_workspace (cs_dirs s).

Lemma view_lookup s id : view s !! id = dir_workspace (default emptyDir (cs_dirs s !! id)).
Proof. unfold view. rewrite lookup_omap. by destruct (cs_dirs s !! id). Qed.

Lemma LoadWorkspace_view s id ws : LoadWorkspace s id = Ok ws <-> view s !! id = Some ws.
Proof.
  rewrite view_lookup. unfold LoadWorkspace, dir_workspace.
  destruct (d_manifest (default emptyDir (cs_dirs s !! id))), (d_state (default emptyDir (cs_dirs s !! id)));
    split; congruence.
Qed.

Lemma LoadWorkspace_none s id e : LoadWorkspace s id = Err e -> view s !! id = None.
Proof.
  intros H. destruct (view s !! id) as [ws|] eqn:E; [|done]. apply LoadWorkspace_view in E. congruence.
Qed.

(** The directory of [id] after the two parts of a write. *)
Lemma dirs_write f s id k :
  default emptyDir (cs_dirs (atomicWriteFile f (mkdirAll s id) id) !! k) =
  if decide (k = id) then f (default emptyDir (cs_dirs s !! id)) else default emptyDir (cs_dirs s !! k).
Proof.
  simpl. case_decide as H; [subst; by rewrite lookup_alter_eq, lookup_insert_eq|].
  by rewrite lookup_alter_ne, lookup_insert_ne.
Qed.

Lemma dirs_mkdir s id k : default emptyDir (cs_dirs (mkdirAll s id) !! k) = default emptyDir (cs_dirs s !! k).
Proof. simpl. destruct (decide (k = id)) as [->|]; [by rewrite lookup_insert_eq|by rewrite lookup_insert_ne]. Qed.

Lemma dirs_write2 f g s id k :
  default emptyDir (cs_dirs (atomicWriteFile g (atomicWriteFile f (mkdirAll s id) id) id) !! k) =
  if decide (k = id) then g (f (default emptyDir (cs_dirs s !! id))) else default emptyDir (cs_dirs s !! k).
Proof.
  simpl. case_decide as H; [subst; by rewrite !lookup_alter_eq, lookup_insert_eq|].
  by rewrite !lookup_alter_ne, lookup_insert_ne.
Qed.

(** A save of a new workspace, or of one whose configuration is the stored one,
    happens as a whole or not at all, as far as loading can tell. *)
Lemma Save_atomic flt s ws :
  cs_dirs s !! ws_ID ws = None \/ (exists old, view s !! ws_ID ws = Some old /\ ws_Config old = ws_Config ws) ->
  match SaveWorkspace flt s ws with
  | (s', Ok _) => view s' = <[ws_ID ws := ws]> (view s)
  | (s', Err _) => view s' = view s
  end.
Proof.
  intros H. unfold SaveWorkspace. destruct (f_mkdir flt); [done|]. destruct (f_manifest flt).
  { apply map_eq. intros k. by rewrite !view_lookup, dirs_mkdir. }
  destruct (f_state flt); apply map_eq; intros k.
  - rewrite !view_lookup, dirs_write. case_decide; [subst|done].
    destruct H as [->|(old & Hold & Hc)]; [done|]. rewrite view_lookup in Hold. unfold dir_workspace in *. simpl.
    destruct (d_manifest (default emptyDir (cs_dirs s !! ws_ID ws))), (d_state (default emptyDir (cs_dirs s !! ws_ID ws)));
      by simplify_eq/=.
  - rewrite view_lookup, dirs_write2. case_decide as Hk.
    + subst. rewrite lookup_insert_eq. by destruct ws.
    + by rewrite lookup_insert_ne, view_lookup.
Qed.

(** Neither touches the audit log; a record touches nothing else. *)
Lemma Save_audit flt s ws id : LoadAuditEvents (SaveWorkspace flt s ws).1 id = LoadAuditEvents s id.
Proof.
  unfold SaveWorkspace, LoadAuditEvents, loadJSON. destruct (f_mkdir flt); [done|].
  destruct (f_manifest flt); cbn [fst]; [by rewrite dirs_mkdir|].
  destruct (f_state flt); cbn [fst]; rewrite ?dirs_write2, ?dirs_write; by case_decide; subst.
Qed.

Lemma record_view cl s id actor event resource details : view (recordEvent cl s id actor event resource details).1 = view s.
Proof.
  unfold recordEvent, SaveAuditEvents, saveJSON. destruct (f_mkdir (cl_audit cl)); [done|]. destruct (f_file (cl_audit cl)); cbn [fst];
    apply map_eq; intros k; rewrite !view_lookup; [by rewrite dirs_mkdir|].
  rewrite dirs_write. by case_decide; subst.
Qed.

Lemma record_audit cl s id actor event resource details k :
  LoadAuditEvents (recordEvent cl s id actor event resource details).1 k =
  if decide (k = id /\ f_mkdir (cl_audit cl) = false /\ f_file (cl_audit cl) = false)
  then Ok (match LoadAuditEvents s id with Ok l => l | Err _ => [] end ++
           [mkAuditEvent (cl_auditID cl) id actor event resource details (cl_note cl) (cl_now cl)])
  else LoadAuditEvents s k.
Proof.
  unfold recordEvent. set (l := _ ++ [_]). unfold SaveAuditEvents, saveJSON.
  destruct (f_mkdir (cl_audit cl)); [by rewrite decide_False by naive_solver|].
  destruct (f_file (cl_audit cl)); cbn [fst]; unfold LoadAuditEvents, loadJSON.
  - rewrite dirs_mkdir. by rewrite decide_False by naive_solver.
  - rewrite dirs_write. destruct (decide (k = id)) as [->|]; [by rewrite decide_True|by rewrite decide_False by naive_solver].
Qed.

(** ** The manager against its specification *)

Inductive MgrOp : Type :=
  | MCreate (config : WorkspaceConfig) | MArchive (id : string) | MJoin (id p : string) | MLeave (id p : string)
  | MRemove (id target actor : string) | MSetRole (id p : string) (r : AgentRole) | MSetActive (id : string).

Definition mgr_step (cl : Call) (s : CollaborationStorage) (op : MgrOp) : CollaborationStorage * bool :=
  match op with
  | MCreate config => let x := Create cl s config in (x.1, is_ok x.2)
  | MArchive id => let x := Archive cl s id in (x.1, is_ok x.2)
  | MJoin id p => let x := Join cl s id p in (x.1, is_ok x.2)
  | MLeave id p => let x := Leave cl s id p in (x.1, is_ok x.2)
  | MRemove id t a => let x := Remove cl s id t a in (x.1, is_ok x.2)
  | MSetRole id p r => let x := SetRole cl s id p r in (x.1, is_ok x.2)
  | MSetActive id => let x := SetActiveWorkspace cl s id in (x.1, is_ok x.2)
  end.

(** The abstract manager: a map of workspaces; [None] refuses the call. *)
Definition spec_change (now : Z) (V : gmap string Workspace) (id : string) (op : WsOp) : option (gmap string Workspace) :=
  match V !! id with
  | None => None
  | Some ws => match ws_step now ws op with (ws', true) => Some (<[id := ws']> V) | _ => None end
  end.

Definition spec_step (cl : Call) (V : gmap string Workspace) (op : MgrOp) : option (gmap string Workspace) :=
  match op with
  | MCreate config =>
      match NewWorkspace (cl_uuid cl) (cl_now cl) config with Ok ws => Some (<[cl_uuid cl := ws]> V) | Err _ => None end
  | MArchive id => spec_change (cl_now cl) V id (OpSetState StateArchived)
  | MJoin id p => spec_change (cl_now cl) V id (OpAddAgent p RoleContributor)
  | MLeave id p => spec_change (cl_now cl) V id (OpRemoveAgent p)
  | MRemove id t a =>
      match V !! id with
      | Some ws => if IsOwner ws a then spec_change (cl_now cl) V id (OpRemoveAgent t) else None
      | None => None
      end
  | MSetRole id p r => spec_change (cl_now cl) V id (OpSetAgentRole p r)
  | MSetActive id => match V !! id with Some _ => Some V | None => None end
  end.

(** Every workspace that loads is in the directory of its id and keeps its invariant. *)
Definition store_inv (s : CollaborationStorage) : Prop :=
  forall id ws, view s !! id = Some ws -> ws_ID ws = id /\ ws_ok ws.

Lemma ws_step_same now ws op : ws_ID (ws_step now ws op).1 = ws_ID ws /\ ws_Config (ws_step now ws op).1 = ws_Config ws.
Proof.
  destruct op; simpl; unfold AddAgent, RemoveAgent, SetAgentRole, UpdateAgentStatus, SetState;
    repeat (case_match || case_decide); done.
Qed.

Definition simulates (cl : Call) (s s' : CollaborationStorage) (ok : bool) (target : option (gmap string Workspace)) : Prop :=
  store_inv s' /\ (ok = true -> target = Some (view s')) /\ (ok = false -> view s' = view s) /\
  (cl_save cl = no_faults -> ok = bool_decide (is_Some target)).

(** One method: [change] does to the loaded workspace what the abstract step does. *)
Lemma withWorkspace_simulates {A} cl s id (change : Workspace -> Res MgrErr (Workspace * A)) record op (guard : Workspace -> bool) :
  store_inv s -> (forall ws s, view (record ws s) = view s) ->
  (forall ws, match change ws with
              | Ok (ws', _) => guard ws = true /\ ws_step (cl_now cl) ws op = (ws', true)
              | Err _ => guard ws = false \/ (ws_step (cl_now cl) ws op).2 = false
              end) ->
  let x := withWorkspace cl s id change record in
  simulates cl s x.1 (is_ok x.2)
    (match view s !! id with Some ws => if guard ws then spec_change (cl_now cl) (view s) id op else None | None => None end).
Proof.
  intros Hinv Hrec Hch. unfold withWorkspace, simulates. destruct (LoadWorkspace s id) as [ws|e] eqn:Hl; cycle 1.
  { apply LoadWorkspace_none in Hl as ->. simpl. by split_and!. }
  apply LoadWorkspace_view in Hl. rewrite Hl. destruct (Hinv id ws Hl) as [Hid Hok].
  specialize (Hch ws). unfold spec_change. rewrite Hl. destruct (change ws) as [[ws' a]|e]; cycle 1.
  { assert ((if guard ws then match ws_step (cl_now cl) ws op with (ws', true) => Some (<[id:=ws']> (view s)) | _ => None end
             else None) = None) as ->.
    { destruct Hch as [-> |Hch]; [done|]. destruct (guard ws); [|done]. destruct (ws_step _ _ _) as [? []]; done. }
    simpl. by split_and!. }
  destruct Hch as [-> Hch]. rewrite Hch. pose proof (ws_step_same (cl_now cl) ws op) as [Hi Hc].
  pose proof (ws_step_ok (cl_now cl) ws op Hok) as Hok'. rewrite Hch in Hi, Hc, Hok'. simpl in *.
  pose proof (Save_atomic (cl_save cl) s ws') as Hsave. rewrite Hi, Hid in Hsave.
  specialize (Hsave ltac:(right; by exists ws)).
  destruct (SaveWorkspace (cl_save cl) s ws') as [s' [u|e]] eqn:Hs; simpl.
  - rewrite Hrec, Hsave. split_and!; [|done|done|done]. intros k w. rewrite Hrec, Hsave.
    destruct (decide (k = id)) as [->|Hk]; [rewrite lookup_insert_eq; intros [= <-]; by rewrite Hi|].
    rewrite lookup_insert_ne by done. apply Hinv.
  - split_and!; [|done|done|]; [intros k w; rewrite Hsave; apply Hinv|].
    intros Hf. rewrite Hf in Hs. unfold SaveWorkspace in Hs. done.
Qed.

(** [lift] of an operation of the workspace is what [ws_step] says of it. *)
Lemma lift_step {A} now ws op (x : Workspace * Res WsErr A) :
  ws_step now ws op = (x.1, is_ok x.2) ->
  match lift x with
  | Ok (ws', _) => true = true /\ ws_step now ws op = (ws', true)
  | Err _ => true = false \/ (ws_step now ws op).2 = false
  end.
Proof. intros ->. destruct x as [w [a|e]]; simpl; auto. Qed.

Lemma method_simulates {A} cl s id (f : Workspace -> Workspace * Res WsErr A) record op :
  store_inv s -> (forall ws s, view (record ws s) = view s) ->
  (forall ws, ws_step (cl_now cl) ws op = ((f ws).1, is_ok (f ws).2)) ->
  let x := withWorkspace cl s id (fun ws => lift (f ws)) record in
  simulates cl s x.1 (is_ok x.2) (spec_change (cl_now cl) (view s) id op).
Proof.
  intros Hinv Hrec Hf x.
  pose proof (withWorkspace_simulates cl s id (fun ws => lift (f ws)) record op (fun _ => true) Hinv Hrec
                (fun ws => lift_step _ _ _ _ (Hf ws))) as H.
  fold x in H. unfold spec_change in *. by destruct (view s !! id).
Qed.

(** C3: the manager refines a map of workspaces.  Whatever write of a save fails
    (and a crash between two writes leaves what a failed write leaves), a method
    that succeeds has taken exactly the step of the abstract manager on the
    workspaces that load, a method that fails has changed none of them, and with
    working files a method succeeds exactly when the abstract manager permits the
    call.  Every workspace that loads keeps its invariant (unique members, an
    owner, the capacity, a valid state).  The only assumption is that a new
    workspace gets a fresh id. *)
Theorem manager_refines (cl : Call) (s : CollaborationStorage) (op : MgrOp)
    (Hinv : store_inv s) (Hfresh : (exists config, op = MCreate config) -> cs_dirs s !! cl_uuid cl = None) :
  let '(s', ok) := mgr_step cl s op in
  store_inv s' /\
  (ok = true -> spec_step cl (view s) op = Some (view s')) /\
  (ok = false -> view s' = view s) /\
  (cl_save cl = no_faults -> ok = bool_decide (is_Some (spec_step cl (view s) op))).
Proof.
  destruct op as [config|id|id p|id p|id t a|id p r|id]; simpl.
  - unfold Create. destruct (NewWorkspace _ _ config) as [ws|e] eqn:Hnew; simpl; [|by split_and!].
    pose proof (NewWorkspace_ok _ _ _ _ Hnew) as (Hok & _ & _).
    assert (ws_ID ws = cl_uuid cl) as Hid by (unfold NewWorkspace in Hnew; by case_match; simplify_eq).
    pose proof (Save_atomic (cl_save cl) s ws) as Hsave. rewrite Hid in Hsave.
    specialize (Hsave ltac:(left; apply Hfresh; by exists config)).
    destruct (SaveWorkspace (cl_save cl) s ws) as [s' [u|e]] eqn:Hs; simpl.
    + rewrite record_view, Hsave. split_and!; try done. intros k w. rewrite record_view, Hsave.
      destruct (decide (k = cl_uuid cl)) as [->|Hk]; [rewrite lookup_insert_eq; by intros [= <-]|].
      rewrite lookup_insert_ne by done. apply Hinv.
    + split_and!; [intros k w; rewrite Hsave; apply Hinv|done|done|].
      intros Hf. rewrite Hf in Hs. by unfold SaveWorkspace in Hs.
  - by apply (method_simulates cl s id _ _ (OpSetState StateArchived)); [|intros; apply record_view|].
  - by apply (method_simulates cl s id _ _ (OpAddAgent p RoleContributor)); [|intros; apply record_view|].
  - by apply (method_simulates cl s id _ _ (OpRemoveAgent p)); [|intros; apply record_view|].
  - apply (withWorkspace_simulates cl s id _ _ (OpRemoveAgent t) (fun ws => IsOwner ws a)); [done|by intros; apply record_view|].
    intros ws. destruct (IsOwner ws a); simpl; [|by left]. by apply (lift_step (cl_now cl) ws (OpRemoveAgent t)).
  - by apply (method_simulates cl s id _ _ (OpSetAgentRole p r)); [|intros; apply record_view|].
  - unfold SetActiveWorkspace. destruct (LoadWorkspace s id) as [ws|e] eqn:Hl; simpl.
    + apply LoadWorkspace_view in Hl. rewrite Hl. unfold SaveActiveWorkspace.
      destruct (f_file (cl_save cl)) eqn:Hf; simpl; split_and!; try done. intros E. by rewrite E in Hf.
    + apply LoadWorkspace_none in Hl. rewrite Hl. by split_and!.
Qed.

Lemma manager_refines_witness :
  let cl := mkCall no_faults no_faults "w1" "e1" 10 "" in
  let s := mkStorage ∅ Missing in
  let out := mgr_step cl s (MCreate (mkConfig "team" "" "alice" "" 0 0 2)) in
  out.2 = true /\ store_inv out.1 /\ is_Some (view out.1 !! "w1").
Proof.
  intros cl s out. split; [reflexivity|].
  pose proof (manager_refines cl s (MCreate (mkConfig "team" "" "alice" "" 0 0 2))) as H.
  fold out in H. destruct out as [s' ok] eqn:E. destruct H as (H1 & _ & _ & _).
  - by intros id ws.
  - done.
  - split; [exact H1|]. unfold out in E. vm_compute in E. injection E as <- _. by eexists.
Defined.

(** ** The audit trail *)

(** The workspace, actor, event and resource that a call is recorded under. *)
Definition op_record (cl : Call) (op : MgrOp) : option (string * string * string * string) :=
  match op with
  | MCreate config => Some (cl_uuid cl, cg_OwnerProfileID config, "workspace.create", cl_uuid cl)
  | MArchive id => Some (id, "system", "workspace.archive", id)
  | MJoin id p => Some (id, p, "agent.join", p)
  | MLeave id p => Some (id, p, "agent.leave", p)
  | MRemove id t a => Some (id, a, "agent.remove", t)
  | MSetRole id p _ => Some (id, "system", "agent.role_change", p)
  | MSetActive _ => None
  end.

Lemma withWorkspace_audit {A} cl s id (change : Workspace -> Res MgrErr (Workspace * A)) record
    (actor event resource details : string) k :
  (forall ws ws' a, view s !! id = Some ws -> change ws = Ok (ws', a) ->
     forall s', record ws' s' = (recordEvent cl s' id actor event resource details).1) ->
  let x := withWorkspace cl s id change record in
  LoadAuditEvents x.1 k =
    if is_ok x.2 then LoadAuditEvents (recordEvent cl s id actor event resource details).1 k else LoadAuditEvents s k.
Proof.
  intros Hrec. unfold withWorkspace. destruct (LoadWorkspace s id) as [ws|e] eqn:Hl; [|done].
  apply LoadWorkspace_view in Hl. destruct (change ws) as [[ws' a]|e] eqn:Hch; [|done].
  pose proof (Save_audit (cl_save cl) s ws') as Ha.
  destruct (SaveWorkspace (cl_save cl) s ws') as [s' [u|e]] eqn:Hs; simpl in *; [|apply Ha].
  rewrite (Hrec ws ws' a Hl Hch), !record_audit. by rewrite !Ha.
Qed.

(** The audit trail of the manager.  A call that fails leaves every audit log
    as it was.  A call that succeeds, and whose record can be written, appends
    exactly one event to the log of its workspace, with its actor, event and
    resource, and leaves the others; but when the log of the workspace does not
    read or parse, that one event replaces the whole history. *)
Theorem manager_audit_trail (cl : Call) (s : CollaborationStorage) (op : MgrOp)
    (Hinv : store_inv s) (Hw : f_mkdir (cl_audit cl) = false /\ f_file (cl_audit cl) = false) :
  let '(s', ok) := mgr_step cl s op in
  (ok = false -> forall k, LoadAuditEvents s' k = LoadAuditEvents s k) /\
  (ok = true ->
   match op_record cl op with
   | None => forall k, LoadAuditEvents s' k = LoadAuditEvents s k
   | Some (id, actor, event, resource) =>
       exists e, ae_Actor e = actor /\ ae_Event e = event /\ ae_Resource e = resource /\ ae_WorkspaceID e = id /\
         ae_Note e = cl_note cl /\ ae_Timestamp e = cl_now cl /\
         LoadAuditEvents s' id = Ok (match LoadAuditEvents s id with Ok l => l ++ [e] | Err _ => [e] end) /\
         forall k, k <> id -> LoadAuditEvents s' k = LoadAuditEvents s k
   end).
Proof.
  assert (forall (x : CollaborationStorage * bool) id actor event resource details,
    (forall k, LoadAuditEvents x.1 k =
       if x.2 then LoadAuditEvents (recordEvent cl s id actor event resource details).1 k else LoadAuditEvents s k) ->
    (x.2 = false -> forall k, LoadAuditEvents x.1 k = LoadAuditEvents s k) /\
    (x.2 = true -> exists e, ae_Actor e = actor /\ ae_Event e = event /\ ae_Resource e = resource /\ ae_WorkspaceID e = id /\
         ae_Note e = cl_note cl /\ ae_Timestamp e = cl_now cl /\
         LoadAuditEvents x.1 id = Ok (match LoadAuditEvents s id with Ok l => l ++ [e] | Err _ => [e] end) /\
         forall k, k <> id -> LoadAuditEvents x.1 k = LoadAuditEvents s k)) as Hdone.
  { intros x id actor event resource details H. split; intros E; rewrite E in H; [done|].
    eexists (mkAuditEvent (cl_auditID cl) id actor event resource details (cl_note cl) (cl_now cl)).
    split_and!; [done..| |].
    - rewrite H, record_audit, decide_True by tauto. by destruct (LoadAuditEvents s id).
    - intros k Hk. by rewrite H, record_audit, decide_False by tauto. }
  destruct op as [config|id|id p|id p|id t a|id p r|id]; cbn [mgr_step op_record].
  - eapply (Hdone (_, _)). cbn [fst snd]. intros k. unfold Create.
    destruct (NewWorkspace _ _ config) as [ws|e] eqn:Hnew; [|done].
    assert (ws_ID ws = cl_uuid cl) as Hid by (unfold NewWorkspace in Hnew; by case_match; simplify_eq).
    pose proof (Save_audit (cl_save cl) s ws) as Ha.
    destruct (SaveWorkspace (cl_save cl) s ws) as [s' [u|e]]; simpl in *; [|apply Ha].
    rewrite Hid, !record_audit, !Ha. done.
  - eapply (Hdone (_, _)). cbn [fst snd]. intros k. apply withWorkspace_audit.
    intros ws ws' u Hv Hch s'. destruct (Hinv id ws Hv) as [Hi _].
    pose proof (ws_step_same (cl_now cl) ws (OpSetState StateArchived)) as [Hs _]. simpl in Hs.
    unfold lift in Hch. destruct (SetState _ _ _) as [w [x|x]]; [|done]. injection Hch as <- _. simpl in Hs.
    by rewrite Hs, Hi.
  - eapply (Hdone (_, _)). cbn [fst snd]. intros k. by apply withWorkspace_audit.
  - eapply (Hdone (_, _)). cbn [fst snd]. intros k. by apply withWorkspace_audit.
  - eapply (Hdone (_, _)). cbn [fst snd]. intros k. by apply withWorkspace_audit.
  - eapply (Hdone (_, _)). cbn [fst snd]. intros k. by apply withWorkspace_audit.
  - unfold SetActiveWorkspace, SaveActiveWorkspace. destruct (LoadWorkspace s id); [|done].
    by destruct (f_file (cl_save cl)).
Qed.

Definition sample_ws : Workspace :=
  mkWorkspace "w1" (mkConfig "team" "" "alice" StrategyPriority 0 0 2) StateActive [newAgent 1 "alice" RoleOwner]
    (mkPolicyConfig StrategyPriority ∅) 1 1.

(** A stored workspace whose audit file is malformed. *)
Definition sample_store : CollaborationStorage :=
  atomicWriteFile (fun d => mkDir (d_manifest d) (d_state d) (d_conflicts d) (d_context d) Malformed)
    (SaveWorkspace no_faults (mkStorage ∅ Missing) sample_ws).1 "w1".

Lemma sample_store_inv : store_inv sample_store.
Proof.
  intros id ws. unfold sample_store. rewrite view_lookup. simpl.
  destruct (decide (id = "w1")) as [->|Hne].
  - rewrite !lookup_alter_eq, lookup_insert_eq. simpl. intros [= <-]. split; [done|].
    split; [apply NoDup_singleton|done|done|by right; left].
  - by rewrite !lookup_alter_ne, lookup_insert_ne.
Qed.

Lemma manager_audit_trail_witness :
  let cl := mkCall no_faults no_faults "" "e1" 10 "welcome" in
  let out := mgr_step cl sample_store (MJoin "w1" "bob") in
  out.2 = true /\ LoadAuditEvents sample_store "w1" = Err ErrParseFile /\
  exists e, ae_Actor e = "bob" /\ LoadAuditEvents out.1 "w1" = Ok [e].
Proof.
  intros cl out. split; [reflexivity|]. split; [reflexivity|].
  pose proof (manager_audit_trail cl sample_store (MJoin "w1" "bob") sample_store_inv (conj eq_refl eq_refl)) as H.
  fold out in H. destruct out as [s' ok] eqn:E. destruct H as [_ H]. destruct H as (e & Ha & _ & _ & _ & _ & _ & He & _).
  { unfold out in E. vm_compute in E. by injection E as _ <-. }
  exists e. split; [exact Ha|exact He].
Defined.

(** ** Listings *)

(** The ids of the workspaces that load and match, in the order of their names. *)
Lemma listLoop_omap s keep ids :
  listLoop s keep ids = filter (fun ws => keep ws = true) (omap (fun id => view s !! id) ids).
Proof.
  induction ids as [|id ids IH]; [done|]. simpl.
  destruct (LoadWorkspace s id) as [ws|e] eqn:Hl.
  - apply LoadWorkspace_view in Hl. rewrite Hl. rewrite filter_cons. rewrite IH. by destruct (keep ws).
  - apply LoadWorkspace_none in Hl. by rewrite Hl.
Qed.

(** A page is a window of the list; [0] means no limit. *)
Lemma pageOf_window {A} opts (l : list A) :
  0 <= lo_Offset opts ->
  pageOf opts l = (if decide (lo_Limit opts > 0) then take (Z.to_nat (lo_Limit opts)) else id)
                    (drop (Z.to_nat (lo_Offset opts)) l).
Proof.
  intros Ho. unfold pageOf. case_decide as H1.
  { repeat case_decide; try done; try lia. rewrite take_ge; [done|]. lia. }
  case_decide as H2.
  { rewrite drop_ge by lia. by case_decide; [rewrite take_nil|]. }
  replace (lo_Offset opts) with 0 by lia. change (Z.to_nat 0) with 0%nat. rewrite drop_0.
  repeat case_decide; try done; try lia. rewrite take_ge; [done|]. lia.
Qed.

(** The loop over the directories that have a manifest. *)
Definition listing (s : CollaborationStorage) (keep : Workspace -> bool) : list Workspace :=
  listLoop s keep (filter (fun id => exists_doc (d_manifest (default emptyDir (cs_dirs s !! id))) = true) (ReadDir s)).

Lemma ReadDir_spec s : StronglySorted str_le (ReadDir s) /\ NoDup (ReadDir s) /\ forall id, id ∈ ReadDir s <-> is_Some (cs_dirs s !! id).
Proof.
  unfold ReadDir. split_and!; [by apply StronglySorted_merge_sort; apply _| |]; [|intros id]; rewrite merge_sort_Permutation.
  - apply NoDup_fst_map_to_list.
  - apply ranges_keys_elem. by unfold ranges_keys.
Qed.

Lemma listLoop_ids s keep ids :
  store_inv s -> (ws_ID <$> listLoop s keep ids) `sublist_of` ids.
Proof.
  intros Hinv. induction ids as [|id ids IH]; [constructor|]. simpl.
  destruct (LoadWorkspace s id) as [ws|e] eqn:Hl; [|by constructor].
  destruct (keep ws); [|by constructor]. simpl.
  apply LoadWorkspace_view, Hinv in Hl as [-> _]. by constructor.
Qed.

Lemma listing_ids s keep :
  store_inv s -> NoDup (ws_ID <$> listing s keep) /\ StronglySorted str_le (ws_ID <$> listing s keep).
Proof.
  intros Hinv. destruct (ReadDir_spec s) as (Hs & Hn & _).
  assert ((ws_ID <$> listing s keep) `sublist_of` ReadDir s) as Hsub.
  { etrans; [by apply listLoop_ids|]. apply sublist_filter. }
  split; [by eapply sublist_NoDup|by eapply sublist_StronglySorted].
Qed.

Lemma listing_elem s keep ws :
  store_inv s -> ws ∈ listing s keep <-> view s !! ws_ID ws = Some ws /\ keep ws = true.
Proof.
  intros Hinv. unfold listing. rewrite listLoop_omap, list_elem_of_filter, list_elem_of_omap. split.
  - intros (Hk & id & Hid & Hv). destruct (Hinv id ws Hv) as [-> _]. done.
  - intros [Hv Hk]. split; [done|]. exists (ws_ID ws). split; [|done]. rewrite list_elem_of_filter.
    rewrite view_lookup in Hv. unfold dir_workspace in Hv. split.
    + by destruct (d_manifest (default emptyDir (cs_dirs s !! ws_ID ws))).
    + apply ReadDir_spec. by destruct (cs_dirs s !! ws_ID ws).
Qed.

(** Listings.  The manager and the registry list the workspaces that load and
    match the filters, each once, in the order of their ids, whatever else is in
    the directories (an unreadable workspace is left out of the list and fails
    nothing).  A page is a window of that list, so that reading page after page
    gives the list back, and a page past its end is empty; the sort key and the
    reverse flag of the options play no part.  A search returns the
    workspaces whose name contains the query, whatever the case. *)
Theorem workspace_listing (s : CollaborationStorage) (sort : string) (reverse : bool)
    (filters : gmap string string) (limit : Z)
    (Hinv : store_inv s) (Hlimit : limit > 0) :
  let all := match Manager_List false s (mkListOptions 0 0 sort reverse filters) with Ok l => l | Err _ => [] end in
  let page n := Manager_List false s (mkListOptions limit (limit * n) sort reverse filters) in
  (forall ws, ws ∈ all <-> view s !! ws_ID ws = Some ws /\ matchesFilters ws (mkListOptions 0 0 sort reverse filters) = true) /\
  NoDup (ws_ID <$> all) /\ StronglySorted str_le (ws_ID <$> all) /\
  (forall opts, Registry_ListWorkspaces false s opts = Manager_List false s opts) /\
  (forall n, 0 <= n -> page n = Ok (take (Z.to_nat limit) (drop (Z.to_nat (limit * n)) all))) /\
  (forall n, Z.of_nat (length all) <= limit * n -> page n = Ok []) /\
  (forall query, exists found, SearchWorkspaces false s query = Ok found /\
     forall ws, ws ∈ found <-> view s !! ws_ID ws = Some ws /\ Contains (ToLower (cg_Name (ws_Config ws))) (ToLower query) = true).
Proof.
  intros all page.
  assert (forall keep, Manager_List false s keep = Ok (pageOf keep (listing s (fun ws => matchesFilters ws keep)))) as Hlist by done.
  assert (forall l o, pageOf (mkListOptions l o sort reverse filters) (listing s (fun ws => matchesFilters ws (mkListOptions l o sort reverse filters))) =
                      pageOf (mkListOptions l o sort reverse filters) all) as Hall.
  { intros l o. f_equal. unfold all. rewrite Hlist, pageOf_window by done. done. }
  assert (all = listing s (fun ws => matchesFilters ws (mkListOptions 0 0 sort reverse filters))) as Eall
    by (unfold all; rewrite Hlist, pageOf_window by done; done).
  assert (forall n, 0 <= n -> page n = Ok (take (Z.to_nat limit) (drop (Z.to_nat (limit * n)) all))) as Hpage.
  { intros n Hn. unfold page. rewrite Hlist, Hall, pageOf_window by (simpl; nia). simpl. by rewrite decide_True. }
  split_and!; [rewrite Eall; intros ws; exact (listing_elem s _ ws Hinv)|rewrite Eall; by apply listing_ids..|done|exact Hpage| |].
  - intros n Hn. destruct (decide (0 <= n)) as [H0|H0]; [|nia].
    rewrite Hpage by done. rewrite drop_ge by lia. by rewrite take_nil.
  - intros query. eexists. split; [done|]. intros ws. exact (listing_elem s _ ws Hinv).
Qed.

Lemma workspace_listing_witness :
  store_inv sample_store /\ Manager_List false sample_store (mkListOptions 5 (5 * 1) "name" true ∅) = Ok [].
Proof.
  split; [exact sample_store_inv|].
  destruct (workspace_listing sample_store "name" true ∅ 5 sample_store_inv) as (_ & _ & _ & _ & _ & H & _); [lia|].
  apply H. vm_compute. discriminate.
Defined.
