(* ===== verification/CollabQuery.v ===== *)
(** * Audit log, metrics and capability index of a workspace
      (audit.go, audit_subscriber.go, metrics.go and capability.go of
       src/internal/core/collaboration)

    Read-mostly views over the storage of a workspace, and the index from
    capabilities to agents.  Relevance scores are kept exact, as rationals. *)

From Stdlib Require Import ZArith Lia QArith.
From stdpp Require Import base option list gmap strings fin_maps sorting.
From S2P Require Import Prelude Text Glob Events Workspace Domain Context Messaging DepGraph CollabStore.

Open Scope Z_scope.

(** ** The audit log *)

Definition WorkspaceAuditLog_Record (flt : Faults) (uuid : string) (now : Z) (s : CollaborationStorage) (event : AuditEvent)
  : CollaborationStorage * Res StoreErr unit :=
  let event := mkAuditEvent (if decide (ae_ID event = "") then uuid else ae_ID event) (ae_WorkspaceID event)
                 (ae_Actor event) (ae_Event event) (ae_Resource event) (ae_Details event) (ae_Note event)
                 (if IsZero (ae_Timestamp event) then now else ae_Timestamp event) in
  let events := match LoadAuditEvents s (ae_WorkspaceID event) with Ok l => l | Err _ => [] end in
  SaveAuditEvents flt s (ae_WorkspaceID event) (events ++ [event]).

(** strings.TrimSuffix *)
Definition TrimSuffix (s suffix : string) : string :=
  unchars (let l := reverse (chars s) in let p := reverse (chars suffix) in
           if prefixb p l then reverse (drop (length p) l) else chars s).

Definition matchEventPattern (event pattern : string) : bool :=
  match Match pattern event with
  | Err _ => Contains event (TrimSuffix pattern "*")
  | Ok matched => matched
  end.

Record AuditQueryOptions : Type := mkAuditQuery {
  aq_Actor : string;
  aq_Event : string;
  aq_Since : string;
  aq_Until : string;
  aq_Limit : Z;
  aq_Offset : Z
}.

Section audit.
(** time.ParseDuration. *)
Context (ParseDuration : string -> option Z).

(** The instant a duration option stands for; the zero time when it is empty or
    does not parse. *)
Definition timeOption (now : Z) (opt : string) : Z :=
  if decide (opt = "") then 0 else match ParseDuration opt with Some d => now - d | None => 0 end.

Definition keepAuditEvent (now : Z) (opts : AuditQueryOptions) (e : AuditEvent) : bool :=
  let sinceTime := timeOption now (aq_Since opts) in
  let untilTime := timeOption now (aq_Until opts) in
  if bool_decide (aq_Actor opts <> "") && bool_decide (ae_Actor e <> aq_Actor opts) then false
  else if bool_decide (aq_Event opts <> "") && negb (matchEventPattern (ae_Event e) (aq_Event opts)) then false
  else if negb (IsZero sinceTime) && Before (ae_Timestamp e) sinceTime then false
  else if negb (IsZero untilTime) && After (ae_Timestamp e) untilTime then false
  else true.

Definition filterAuditEvents (now : Z) (events : list AuditEvent) (opts : AuditQueryOptions) : list AuditEvent :=
  filter (fun e => keepAuditEvent now opts e = true) events.

Definition WorkspaceAuditLog_Query (now : Z) (s : CollaborationStorage) (workspaceID : string) (opts : AuditQueryOptions)
  : Res StoreErr (list AuditEvent) :=
  match LoadAuditEvents s workspaceID with
  | Err e => Err e
  | Ok events =>
      let limit := if decide (aq_Limit opts <= 0) then 100 else aq_Limit opts in
      Ok (paginate (filterAuditEvents now events opts) (aq_Offset opts) limit)
  end.

End audit.

(** ** Metrics *)

Record WorkspaceMetrics : Type := mkMetrics {
  mx_ActiveAgents : Z; mx_TotalAgents : Z; mx_OnlineAgents : Z;
  mx_TasksSubmitted : Z; mx_TasksCompleted : Z; mx_TasksFailed : Z; mx_TasksCancelled : Z; mx_TasksWorking : Z;
  mx_AvgDuration : Z; mx_P95Duration : Z;
  mx_ConflictsDetected : Z; mx_ConflictsResolved : Z; mx_ConflictsUnresolved : Z;
  mx_ContextVariables : Z; mx_ContextMutations : Z; mx_AuditEvents : Z
}.

(** Integer arithmetic of Go: the sum wraps, the quotient truncates. *)
Definition avgDuration (durations : list Z) : Z :=
  if decide (durations = []) then 0
  else Z.quot (foldl (fun total d => wrap64 (total + d)) 0 durations) (Z.of_nat (length durations)).

Definition percentileDuration (durations : list Z) (percentile : Z) : Z :=
  if decide (durations = []) then 0 else
  let sorted := merge_sort Z.le durations in
  let n := Z.of_nat (length sorted) in
  let idx := Z.quot (wrap64 (percentile * n)) 100 in
  let idx := if decide (idx >= n) then n - 1 else idx in
  default 0 (sorted !! Z.to_nat idx).

(** The counters of the loop over the tasks, and the durations in their order. *)
Record TaskCounts : Type := mkCounts { tc_Completed : Z; tc_Failed : Z; tc_Cancelled : Z; tc_Working : Z; tc_durations : list Z }.

Definition durationOf (t : TaskInfo) : list Z :=
  match tk_CompletedAt t with Some c => [Sub c (tk_CreatedAt t)] | None => [] end.

Definition countTask (n : TaskCounts) (t : TaskInfo) : TaskCounts :=
  if decide (tk_Status t = TaskCompleted) then
    mkCounts (tc_Completed n + 1) (tc_Failed n) (tc_Cancelled n) (tc_Working n) (tc_durations n ++ durationOf t)
  else if decide (tk_Status t = TaskFailed) then
    mkCounts (tc_Completed n) (tc_Failed n + 1) (tc_Cancelled n) (tc_Working n) (tc_durations n ++ durationOf t)
  else if decide (tk_Status t = TaskCancelled) then
    mkCounts (tc_Completed n) (tc_Failed n) (tc_Cancelled n + 1) (tc_Working n) (tc_durations n)
  else if decide (tk_Status t = TaskWorking) then
    mkCounts (tc_Completed n) (tc_Failed n) (tc_Cancelled n) (tc_Working n + 1) (tc_durations n)
  else n.

Definition orEmpty {E A} (r : Res E (list A)) : list A := match r with Ok l => l | Err _ => [] end.

(** The task files are a store of their own; a workspace loaded from storage has no
    context, so its mutations count as none. *)
Definition Collect (s : CollaborationStorage) (ts : TaskStore) (workspaceID : string) : Res StoreErr WorkspaceMetrics :=
  match LoadWorkspace s workspaceID with
  | Err e => Err e
  | Ok ws =>
      let online := OnlineAgentCount ws in
      let tasks := orEmpty (LoadTasks ts workspaceID) in
      let n := foldl countTask (mkCounts 0 0 0 0 []) tasks in
      let durations := tc_durations n in
      let conflicts := orEmpty (LoadConflicts s workspaceID) in
      let resolved := Z.of_nat (length (filter (fun c => IsResolved c = true) conflicts)) in
      let unresolved := Z.of_nat (length (filter (fun c => IsResolved c = false) conflicts)) in
      Ok (mkMetrics online (Z.of_nat (length (ws_Agents ws))) online
            (Z.of_nat (length tasks)) (tc_Completed n) (tc_Failed n) (tc_Cancelled n) (tc_Working n)
            (if decide (durations = []) then 0 else avgDuration durations)
            (if decide (durations = []) then 0 else percentileDuration durations 95)
            (Z.of_nat (length conflicts)) resolved unresolved
            (Z.of_nat (length (orEmpty (LoadContext s workspaceID)))) 0
            (Z.of_nat (length (orEmpty (LoadAuditEvents s workspaceID)))))
  end.

(** ** The capability index *)

Abbreviation CapabilityRegistry := (gmap string (list string)).

(** One step of the loop: a capability left without agents is deleted. *)
Definition dropAgent (profileID : string) (agents : list string) : option (list string) :=
  match filter (fun a => a <> profileID) agents with [] => None | remaining => Some remaining end.

Definition removeAgent (cr : CapabilityRegistry) (profileID : string) : CapabilityRegistry := omap (dropAgent profileID) cr.

Definition addCapability (profileID : string) (cr : CapabilityRegistry) (cap : string) : CapabilityRegistry :=
  <[cap := default [] (cr !! cap) ++ [profileID]]> cr.

Definition Register (cr : CapabilityRegistry) (profileID : string) (capabilities : list string) : CapabilityRegistry :=
  foldl (addCapability profileID) (removeAgent cr profileID) capabilities.

Definition Unregister (cr : CapabilityRegistry) (profileID : string) : CapabilityRegistry := removeAgent cr profileID.

Record AgentMatch : Type := mkMatch { am_ProfileID : string; am_Score : Q; am_Match : string }.

Definition findByCapability (cr : CapabilityRegistry) (capability : string) : list AgentMatch :=
  match cr !! capability with
  | None => []
  | Some agents => (fun a => mkMatch a 1%Q capability) <$> agents
  end.

(** The number of words of the task that a capability contains. *)
Definition matchCount (taskWords : list string) (cap : string) : nat :=
  length (filter (fun w => Contains (ToLower cap) w = true) taskWords).

Definition score (taskWords : list string) (n : nat) : Q := Z.of_nat n # Pos.of_nat (length taskWords).

(** The candidates of one capability. *)
Definition candidatesOf (taskWords : list string) (entry : string * list string) : list AgentMatch :=
  let n := matchCount taskWords entry.1 in
  if decide (n = 0)%nat then [] else (fun a => mkMatch a (score taskWords n) entry.1) <$> entry.2.

(** The loop that keeps the best candidate of each agent. *)
Definition keepBest (best : gmap string AgentMatch) (c : AgentMatch) : gmap string AgentMatch :=
  match best !! am_ProfileID c with
  | Some existing => if Qlt_le_dec (am_Score existing) (am_Score c) then <[am_ProfileID c := c]> best else best
  | None => <[am_ProfileID c := c]> best
  end.

(** [o] ranges over the index, [order] over the map of the best candidates. *)
Definition findByTaskDescription (o : list (string * list string))
    (order : gmap string AgentMatch -> list (string * AgentMatch)) (task : string) : list AgentMatch :=
  let taskWords := Fields (ToLower task) in
  if decide (taskWords = []) then [] else
  let candidates := o ≫= candidatesOf taskWords in
  (order (foldl keepBest ∅ candidates)).*2.

Inductive QueryErr : Type := ErrQueryEmpty.

Definition FindAgents (cr : CapabilityRegistry) (o : list (string * list string))
    (order : gmap string AgentMatch -> list (string * AgentMatch)) (capability task : string)
  : Res QueryErr (list AgentMatch) :=
  if decide (capability <> "") then Ok (findByCapability cr capability)
  else if decide (task <> "") then Ok (findByTaskDescription o order task)
  else Err ErrQueryEmpty.

(** [o] ranges over the index. *)
Definition ListCapabilities (o : list (string * list string)) (profileID : string) : list string :=
  if decide (profileID = "") then o.*1
  else (filter (fun e => profileID ∈ e.2) o).*1.

(** ** Querying what was recorded *)

Lemma record_load flt uuid now s e s' :
  WorkspaceAuditLog_Record flt uuid now s e = (s', Ok tt) ->
  exists e', LoadAuditEvents s' (ae_WorkspaceID e) = Ok (orEmpty (LoadAuditEvents s (ae_WorkspaceID e)) ++ [e']) /\
    ae_Actor e' = ae_Actor e /\ ae_Event e' = ae_Event e /\ ae_Resource e' = ae_Resource e /\
    ae_Timestamp e' = (if IsZero (ae_Timestamp e) then now else ae_Timestamp e) /\
    ae_ID e' = (if decide (ae_ID e = "") then uuid else ae_ID e).
Proof.
  unfold WorkspaceAuditLog_Record, SaveAuditEvents, saveJSON. simpl. intros H.
  destruct (f_mkdir flt); [done|]. destruct (f_file flt); [done|]. injection H as <-.
  eexists. split; [unfold LoadAuditEvents, loadJSON at 1; by rewrite dirs_write, decide_True|by split_and!].
Qed.

Lemma paginate_zero {A} (l : list A) limit : limit > 0 -> paginate l 0 limit = take (Z.to_nat limit) l.
Proof.
  intros Hl. unfold paginate. destruct (decide (0 > 0 /\ _)); [lia|]. case_decide; [done|]. symmetry. apply take_ge. lia.
Qed.

(** An audit event that was recorded is found again.  After [Record] succeeds,
    the query for it (by actor, by a pattern its name matches, in the window of
    time) returns it, with the id and the time filled in, exactly when fewer
    matching events than the limit were in the log before; the answer is then the
    earlier matching events, in order, and the new one.  Beyond the limit (100 when
    none is given) a query without an offset returns the oldest events. *)
Theorem audit_round_trip (ParseDuration : string -> option Z) (flt : Faults) (uuid : string) (now now' : Z)
    (s s' : CollaborationStorage) (e : AuditEvent) (opts : AuditQueryOptions)
    (Hrec : WorkspaceAuditLog_Record flt uuid now s e = (s', Ok tt)) (Hoff : aq_Offset opts = 0) :
  exists e', ae_Actor e' = ae_Actor e /\ ae_Event e' = ae_Event e /\ ae_Resource e' = ae_Resource e /\
    ae_ID e' = (if decide (ae_ID e = "") then uuid else ae_ID e) /\
    ae_Timestamp e' = (if IsZero (ae_Timestamp e) then now else ae_Timestamp e) /\
    (keepAuditEvent ParseDuration now' opts e' = true ->
     let limit := if decide (aq_Limit opts <= 0) then 100 else aq_Limit opts in
     let earlier := filterAuditEvents ParseDuration now' (orEmpty (LoadAuditEvents s (ae_WorkspaceID e))) opts in
     WorkspaceAuditLog_Query ParseDuration now' s' (ae_WorkspaceID e) opts =
       Ok (if decide (Z.of_nat (length earlier) < limit) then earlier ++ [e'] else take (Z.to_nat limit) earlier)).
Proof.
  destruct (record_load _ _ _ _ _ _ Hrec) as (e' & Hload & Ha & He & Hr & Ht & Hi). exists e'. split_and!; [done..|].
  intros Hk limit earlier. unfold WorkspaceAuditLog_Query. rewrite Hload, Hoff.
  assert (filterAuditEvents ParseDuration now' (orEmpty (LoadAuditEvents s (ae_WorkspaceID e)) ++ [e']) opts = earlier ++ [e']) as ->.
  { unfold filterAuditEvents. rewrite filter_app. f_equal. by rewrite filter_cons_True. }
  fold limit. assert (limit > 0) as Hl by (clear; unfold limit; destruct (decide (aq_Limit opts <= 0)); lia).
  clearbody limit earlier. rewrite paginate_zero by done.
  destruct (decide (Z.of_nat (length earlier) < limit)) as [Hlt|Hlt].
  - rewrite take_ge; [done|]. rewrite length_app. cbn [length]. lia.
  - rewrite take_app_le by lia. done.
Qed.

Lemma audit_round_trip_witness :
  let e := mkAuditEvent "" "w1" "bob" "conflict.detect" "k" "" "" 0 in
  let s := (WorkspaceAuditLog_Record no_faults "e1" 10 (mkStorage ∅ Missing) e).1 in
  exists e', ae_ID e' = "e1" /\ ae_Timestamp e' = 10 /\
    WorkspaceAuditLog_Query (fun _ => None) 20 s "w1" (mkAuditQuery "bob" "conflict.*" "soon" "" 0 0) = Ok [e'].
Proof.
  intros e s.
  destruct (audit_round_trip (fun _ => None) no_faults "e1" 10 20 (mkStorage ∅ Missing) s e
              (mkAuditQuery "bob" "conflict.*" "soon" "" 0 0)) as (e' & Ha & He & Hr & Hi & Ht & Hq).
  - reflexivity.
  - reflexivity.
  - exists e'. split; [exact Hi|]. split; [exact Ht|]. apply Hq.
    destruct e' as [i w a ev r d n t]. cbn in Ha, He, Hr, Hi, Ht. subst. by vm_compute.
Defined.

(** ** The index of capabilities *)

Inductive CapOp : Type := CRegister (p : string) (caps : list string) | CUnregister (p : string).

Definition cap_step (cr : CapabilityRegistry) (op : CapOp) : CapabilityRegistry :=
  match op with CRegister p caps => Register cr p caps | CUnregister p => Unregister cr p end.

(** What each agent registered last. *)
Definition reg_step (reg : gmap string (list string)) (op : CapOp) : gmap string (list string) :=
  match op with CRegister p caps => <[p := caps]> reg | CUnregister p => delete p reg end.

Definition agents_of (cr : CapabilityRegistry) (cap : string) : list string := default [] (cr !! cap).

Record cap_inv (cr : CapabilityRegistry) (reg : gmap string (list string)) : Prop := {
  ci_occ cap a : occ a (agents_of cr cap) = occ cap (default [] (reg !! a));
  ci_nonempty cap : cr !! cap <> Some []
}.

Lemma occ_filter_ne a p l : occ a (filter (fun x => x <> p) l) = if decide (a = p) then 0 else occ a l.
Proof.
  induction l as [|x l IH]; [rewrite occ_nil; by case_decide|]. rewrite filter_cons, occ_cons.
  repeat case_decide; subst; rewrite ?occ_cons, ?IH; repeat case_decide; done || lia.
Qed.

Lemma removeAgent_agents cr p cap : agents_of (removeAgent cr p) cap = filter (fun a => a <> p) (agents_of cr cap).
Proof.
  unfold agents_of, removeAgent. rewrite lookup_omap. destruct (cr !! cap) as [l|]; simpl; [|done].
  unfold dropAgent. by destruct (filter _ l).
Qed.

Lemma removeAgent_inv cr reg p : cap_inv cr reg -> cap_inv (removeAgent cr p) (delete p reg).
Proof.
  intros [Ho Hn]. split.
  - intros cap a. rewrite removeAgent_agents, occ_filter_ne, Ho. case_decide as H.
    + subst. by rewrite lookup_delete_eq.
    + by rewrite lookup_delete_ne.
  - intros cap. unfold removeAgent. rewrite lookup_omap. destruct (cr !! cap) as [l|]; simpl; [|done].
    unfold dropAgent. by destruct (filter _ l).
Qed.

Lemma addCapability_inv cr reg p cap caps :
  cap_inv cr (<[p := caps]> reg) -> cap_inv (addCapability p cr cap) (<[p := caps ++ [cap]]> reg).
Proof.
  intros [Ho Hn]. split.
  - intros c a. unfold agents_of, addCapability. specialize (Ho c a). unfold agents_of in Ho.
    destruct (decide (c = cap)) as [->|Hc].
    + rewrite lookup_insert_eq. simpl. rewrite occ_app, Ho, occ_cons, occ_nil.
      destruct (decide (a = p)) as [->|Ha].
      * rewrite !lookup_insert_eq. simpl. rewrite occ_app, occ_cons, occ_nil. repeat case_decide; congruence || lia.
      * rewrite !lookup_insert_ne by done. repeat case_decide; congruence || lia.
    + rewrite lookup_insert_ne by done. rewrite Ho. destruct (decide (a = p)) as [->|Ha].
      * rewrite !lookup_insert_eq. simpl. rewrite occ_app, occ_cons, occ_nil. repeat case_decide; congruence || lia.
      * by rewrite !lookup_insert_ne by done.
  - intros c. unfold addCapability. destruct (decide (c = cap)) as [->|Hc].
    + rewrite lookup_insert_eq. by destruct (default [] (cr !! cap)).
    + by rewrite lookup_insert_ne.
Qed.

Lemma Register_inv cr reg p caps : cap_inv cr reg -> cap_inv (Register cr p caps) (<[p := caps]> reg).
Proof.
  intros Hi. unfold Register.
  assert (cap_inv (removeAgent cr p) (<[p := []]> reg)) as H0.
  { destruct (removeAgent_inv cr reg p Hi) as [Ho Hn]. split; [|done]. intros cap a. rewrite Ho.
    destruct (decide (a = p)) as [->|]; [by rewrite lookup_delete_eq, lookup_insert_eq|by rewrite lookup_delete_ne, lookup_insert_ne]. }
  enough (forall cs cr0 pre, cap_inv cr0 (<[p := pre]> reg) -> cap_inv (foldl (addCapability p) cr0 cs) (<[p := pre ++ cs]> reg)) as H
    by (by apply (H caps _ [])).
  induction cs as [|c cs IH]; intros cr0 pre H; simpl; [by rewrite app_nil_r|].
  replace (pre ++ c :: cs) with ((pre ++ [c]) ++ cs) by (by rewrite <- app_assoc). by apply IH, addCapability_inv.
Qed.

Lemma cap_run_inv ops cr reg : cap_inv cr reg -> cap_inv (foldl cap_step cr ops) (foldl reg_step reg ops).
Proof.
  revert cr reg. induction ops as [|op ops IH]; intros cr reg Hi; [done|]. simpl. apply IH.
  destruct op; [by apply Register_inv|by apply removeAgent_inv].
Qed.

(** The capability index says what was registered last.  After any run of
    registrations and removals from an empty index, and for every order of
    iteration: the agents found for a capability are exactly those whose last
    registration lists it, as often as it lists it; the capabilities of an agent
    are exactly those of its last registration, each once; and the list of all
    capabilities holds exactly those that some agent has. *)
Theorem capability_index (ops : list CapOp) (o : list (string * list string)) :
  let cr := foldl cap_step ∅ ops in
  let reg := foldl reg_step ∅ ops in
  ranges o cr ->
  (forall cap a, occ a (am_ProfileID <$> findByCapability cr cap) = occ cap (default [] (reg !! a))) /\
  (forall a, a <> "" -> NoDup (ListCapabilities o a) /\
     forall cap, cap ∈ ListCapabilities o a <-> cap ∈ default [] (reg !! a)) /\
  (NoDup (ListCapabilities o "") /\
   forall cap, cap ∈ ListCapabilities o "" <-> exists a, cap ∈ default [] (reg !! a)).
Proof.
  intros cr reg Ho. assert (cap_inv cr reg) as [Hocc Hne] by (by apply cap_run_inv).
  assert (NoDup o.*1) as Hnd by (rewrite Ho; apply NoDup_fst_map_to_list).
  assert (forall cap a, a ∈ agents_of cr cap <-> cap ∈ default [] (reg !! a)) as Hin
    by (intros; by rewrite !occ_pos, Hocc).
  split_and!.
  - intros cap a. rewrite <- Hocc. unfold findByCapability, agents_of. destruct (cr !! cap) as [l|]; [|done].
    simpl. rewrite <- list_fmap_compose. f_equal. apply list_fmap_id.
  - intros a Ha. unfold ListCapabilities. rewrite decide_False by done. split.
    + eapply sublist_NoDup; [exact Hnd|]. clear. induction o as [|e o IH]; [constructor|].
      rewrite filter_cons. case_decide; by constructor.
    + intros cap. rewrite <- Hin, list_elem_of_fmap. unfold agents_of. split.
      * intros ([c l] & -> & [Hl Hc]%list_elem_of_filter). apply (ranges_elem _ _ _ _ Ho) in Hc. simpl in *. by rewrite Hc.
      * destruct (cr !! cap) as [l|] eqn:Hc; [|by intros ?%elem_of_nil]. simpl. intros Hl. exists (cap, l).
        split; [done|]. apply list_elem_of_filter. split; [done|]. by apply (ranges_elem _ _ _ _ Ho).
  - exact Hnd.
  - intros cap. unfold ListCapabilities. rewrite decide_True by done. setoid_rewrite <- Hin. rewrite list_elem_of_fmap. split.
    + intros ([c l] & -> & Hc). apply (ranges_elem _ _ _ _ Ho) in Hc. simpl. destruct l as [|a l]; [by destruct (Hne c)|].
      exists a. unfold agents_of. rewrite Hc. left.
    + intros [a Ha]. unfold agents_of in Ha. destruct (cr !! cap) as [l|] eqn:Hc; [|by apply elem_of_nil in Ha].
      exists (cap, l). split; [done|]. by apply (ranges_elem _ _ _ _ Ho).
Qed.

Lemma capability_index_witness :
  let ops := [CRegister "ann" ["build"; "test"]; CRegister "bob" ["test"]; CRegister "ann" ["deploy"]; CUnregister "bob"] in
  let o := map_to_list (foldl cap_step ∅ ops) in
  (forall cap, cap ∈ ListCapabilities o "ann" <-> cap ∈ ["deploy"]) /\ ListCapabilities o "bob" = [].
Proof.
  intros ops o. split; [|by vm_compute].
  destruct (capability_index ops o) as (_ & H & _); [by unfold ranges|]. apply (H "ann"). done.
Defined.

(** ** The search by task *)

Lemma candidate_elem words o m :
  m ∈ (o ≫= candidatesOf words) <->
  exists agents, (am_Match m, agents) ∈ o /\ am_ProfileID m ∈ agents /\ (0 < matchCount words (am_Match m))%nat /\
    am_Score m = score words (matchCount words (am_Match m)).
Proof.
  rewrite list_elem_of_bind. split.
  - intros ([cap agents] & Hm & Hin). unfold candidatesOf in Hm. simpl in Hm. case_decide; [by apply elem_of_nil in Hm|].
    apply list_elem_of_fmap in Hm as (a & -> & Ha). exists agents. simpl. split_and!; [done|done|lia|done].
  - intros (agents & Hin & Ha & Hc & Hs). exists (am_Match m, agents). split; [|done]. unfold candidatesOf. simpl.
    rewrite decide_False by lia. apply list_elem_of_fmap. exists (am_ProfileID m). split; [|done].
    destruct m as [p sc c]. simpl in *. by subst.
Qed.

(** The best of a list of candidates, per agent. *)
Definition best_of (cs : list AgentMatch) (best : gmap string AgentMatch) : Prop :=
  (forall a m, best !! a = Some m -> m ∈ cs /\ am_ProfileID m = a) /\
  (forall c, c ∈ cs -> exists m, best !! am_ProfileID c = Some m /\ (am_Score c <= am_Score m)%Q).

Lemma best_insert cs best c :
  best_of cs best -> (forall e, best !! am_ProfileID c = Some e -> (am_Score e <= am_Score c)%Q) ->
  best_of (cs ++ [c]) (<[am_ProfileID c := c]> best).
Proof.
  intros [Hs Hb] He. split.
  - intros a m. destruct (decide (a = am_ProfileID c)) as [->|Ha].
    + rewrite lookup_insert_eq. intros [= <-]. rewrite elem_of_app. split; [right; left|done].
    + rewrite lookup_insert_ne by done. intros [? ?]%Hs. rewrite elem_of_app. tauto.
  - intros x [Hx| ->%list_elem_of_singleton]%elem_of_app.
    + destruct (Hb x Hx) as (m & Hm & Hle). destruct (decide (am_ProfileID x = am_ProfileID c)) as [Ex|Ex].
      * exists c. rewrite Ex, lookup_insert_eq in *. split; [done|]. eapply Qle_trans; [exact Hle|]. by apply He.
      * exists m. by rewrite lookup_insert_ne.
    + exists c. rewrite lookup_insert_eq. split; [done|]. apply Qle_refl.
Qed.

Lemma keepBest_spec cs best c : best_of cs best -> best_of (cs ++ [c]) (keepBest best c).
Proof.
  intros Hbest. unfold keepBest. destruct (best !! am_ProfileID c) as [e|] eqn:E.
  - destruct (Qlt_le_dec (am_Score e) (am_Score c)) as [Hlt|Hle].
    + apply best_insert; [done|]. rewrite E. intros ? [= <-]. by apply Qlt_le_weak.
    + destruct Hbest as [Hs Hb]. split.
      * intros a m [? ?]%Hs. rewrite elem_of_app. tauto.
      * intros x [Hx| ->%list_elem_of_singleton]%elem_of_app; [by apply Hb|]. by exists e.
  - apply best_insert; [done|]. by rewrite E.
Qed.

Lemma keepBest_run cs : best_of cs (foldl keepBest ∅ cs).
Proof.
  induction cs as [|c cs IH] using rev_ind.
  - split; [done|]. by intros c ?%elem_of_nil.
  - rewrite foldl_app. simpl. by apply keepBest_spec.
Qed.

Lemma score_le words a b : (score words a <= score words b)%Q <-> (a <= b)%nat.
Proof. unfold score, Qle. simpl. rewrite <- Z.mul_le_mono_pos_r by lia. lia. Qed.

Lemma matchCount_le words cap : (matchCount words cap <= length words)%nat.
Proof. apply length_filter. Qed.

(** The search by task finds the best capability of each agent.  For every
    order of iteration, the answer names exactly the agents with a capability that
    contains a word of the task, each once; the capability it names is one of the
    agent's, no other one of the agent's contains more words of the task, and the
    score is the share of the words it contains, above 0 and at most 1. *)
Theorem task_search_best (cr : CapabilityRegistry) (o : list (string * list string))
    (order : gmap string AgentMatch -> list (string * AgentMatch)) (task : string)
    (Ho : ranges o cr) (Horder : forall m, ranges (order m) m) :
  let words := Fields (ToLower task) in
  let found := findByTaskDescription o order task in
  NoDup (am_ProfileID <$> found) /\
  (forall a, a ∈ (am_ProfileID <$> found) <-> exists cap, a ∈ agents_of cr cap /\ (0 < matchCount words cap)%nat) /\
  (forall m, m ∈ found ->
     am_ProfileID m ∈ agents_of cr (am_Match m) /\ am_Score m = score words (matchCount words (am_Match m)) /\
     (0 < am_Score m)%Q /\ (am_Score m <= 1)%Q /\
     forall cap, am_ProfileID m ∈ agents_of cr cap -> (matchCount words cap <= matchCount words (am_Match m))%nat).
Proof.
  intros words found. unfold found, findByTaskDescription. fold words. case_decide as Hw.
  { split_and!; [constructor| |by intros m ?%elem_of_nil]. intros a. split; [by intros ?%elem_of_nil|].
    intros (cap & _ & Hc). pose proof (matchCount_le words cap) as H. rewrite Hw in Hc, H. simpl in H. lia. }
  set (cs := o ≫= candidatesOf words). destruct (keepBest_run cs) as [Hs Hb].
  set (best := foldl keepBest ∅ cs) in *.
  assert (forall m, m ∈ (order best).*2 <-> best !! am_ProfileID m = Some m) as Hfound.
  { intros m. rewrite list_elem_of_fmap. split.
    - intros ([a m'] & -> & Hm). apply (ranges_elem _ _ _ _ (Horder best)) in Hm. simpl. by destruct (Hs a m' Hm) as [_ ->].
    - intros Hm. exists (am_ProfileID m, m). split; [done|]. by apply (ranges_elem _ _ _ _ (Horder best)). }
  assert (forall a cap, a ∈ agents_of cr cap <-> exists agents, (cap, agents) ∈ o /\ a ∈ agents) as Hag.
  { intros a cap. unfold agents_of. split.
    - destruct (cr !! cap) as [l|] eqn:E; [|by intros ?%elem_of_nil]. intros Ha. exists l.
      split; [by apply (ranges_elem _ _ _ _ Ho)|done].
    - intros (l & Hl & Ha). apply (ranges_elem _ _ _ _ Ho) in Hl. by rewrite Hl. }
  split_and!.
  - assert (am_ProfileID <$> (order best).*2 = (order best).*1) as ->.
    { rewrite <- list_fmap_compose. apply list_fmap_ext. intros i [a m] Hi%list_elem_of_lookup_2. simpl.
      apply (ranges_elem _ _ _ _ (Horder best)) in Hi. by apply Hs in Hi as [_ ->]. }
    rewrite (Horder best). apply NoDup_fst_map_to_list.
  - intros a. rewrite list_elem_of_fmap. split.
    + intros (m & -> & [Hm _]%Hfound%Hs). apply candidate_elem in Hm as (l & Hl & Ha & Hc & _).
      exists (am_Match m). split; [apply Hag; by exists l|done].
    + intros (cap & (l & Hl & Ha)%Hag & Hc).
      destruct (Hb (mkMatch a (score words (matchCount words cap)) cap)) as (m & Hm & _).
      { apply candidate_elem. by exists l. }
      exists m. simpl in Hm. destruct (Hs a m Hm) as [_ <-]. split; [done|]. by apply Hfound.
  - intros m Hm%Hfound. destruct (Hs _ _ Hm) as [Hc _]. apply candidate_elem in Hc as (l & Hl & Ha & Hpos & Hsc).
    split_and!.
    + apply Hag. by exists l.
    + done.
    + rewrite Hsc. unfold Qlt, score. simpl. lia.
    + rewrite Hsc. pose proof (matchCount_le words (am_Match m)). unfold Qle, score. simpl. lia.
    + intros cap (l' & Hl' & Ha')%Hag. destruct (decide (matchCount words cap = 0)%nat) as [->|Hnz]; [lia|].
      destruct (Hb (mkMatch (am_ProfileID m) (score words (matchCount words cap)) cap)) as (m' & Hm' & Hle).
      { apply candidate_elem. exists l'. simpl. split_and!; [done|done|lia|done]. }
      simpl in *. rewrite Hm in Hm'. injection Hm' as <-. rewrite Hsc in Hle. by apply score_le in Hle.
Qed.

Lemma task_search_best_witness :
  let cr := foldl cap_step ∅ [CRegister "ann" ["run tests"; "build"]; CRegister "bob" ["Build and test"]] in
  let found := findByTaskDescription (map_to_list cr) map_to_list "build Test" in
  NoDup (am_ProfileID <$> found) /\ "ann" ∈ (am_ProfileID <$> found).
Proof.
  intros cr found. destruct (task_search_best cr (map_to_list cr) map_to_list "build Test") as (Hnd & H & _);
    [by unfold ranges|by intros m; unfold ranges|]. split; [exact Hnd|]. apply H. exists "build".
  split; [vm_compute; left|vm_compute; lia].
Defined.

(** ** The durations of the metrics *)

Lemma count_le_sorted (l : list Z) (i : nat) p :
  StronglySorted Z.le l -> l !! i = Some p ->
  (i < length (filter (fun d => (d <= p)%Z) l))%nat /\ (length (filter (fun d => (d < p)%Z) l) <= i)%nat.
Proof.
  intros Hs. revert i. induction Hs as [|x l Hs IH Hx]; intros i Hi; [done|].
  destruct i as [|i]; simpl in Hi.
  - injection Hi as ->. rewrite filter_cons_True by lia. rewrite filter_cons_False by lia. split; [simpl; lia|].
    rewrite filter_none; [done|]. intros y Hy. eapply Forall_forall in Hx; [|exact Hy]. simpl. lia.
  - specialize (IH i Hi). assert (x <= p)%Z.
    { eapply Forall_forall in Hx; [exact Hx|]. by eapply list_elem_of_lookup_2. }
    rewrite filter_cons_True by done. rewrite (filter_cons (fun d => (d < p)%Z)). case_decide; simpl; lia.
Qed.

(** The 95th percentile is one of the durations; at least 95 of 100 durations
    are not above it and at most 95 of 100 are below it. *)
Lemma percentile_rank (durations : list Z) (Hne : durations <> []) (Hlen : 95 * Z.of_nat (length durations) < 2 ^ 63) :
  let p := percentileDuration durations 95 in
  let n := Z.of_nat (length durations) in
  p ∈ durations /\
  95 * n <= 100 * Z.of_nat (length (filter (fun d => d <= p) durations)) /\
  100 * Z.of_nat (length (filter (fun d => d < p) durations)) <= 95 * n.
Proof.
  intros p n. assert (0 < n) as Hn by (unfold n; destruct durations; [done|simpl; lia]).
  set (l := merge_sort Z.le durations).
  assert (l ≡ₚ durations) as Hperm by apply merge_sort_Permutation.
  assert (Z.of_nat (length l) = n) as Hl by (by rewrite Hperm).
  assert (p = default 0 (l !! Z.to_nat (95 * n / 100))) as Ep.
  { unfold p, percentileDuration. rewrite decide_False by done. fold l. rewrite Hl, wrap64_id by (unfold int64_range, min_int64, max_int64, n in *; lia).
    rewrite Z.quot_div_nonneg by lia. rewrite decide_False; [done|].
    pose proof (Z.div_lt_upper_bound (95 * n) 100 n). lia. }
  destruct (lookup_lt_is_Some_2 l (Z.to_nat (95 * n / 100))) as [q Hq].
  { pose proof (Z.div_lt_upper_bound (95 * n) 100 n). pose proof (Z.div_pos (95 * n) 100). lia. }
  rewrite Hq in Ep. simpl in Ep. subst q.
  destruct (count_le_sorted l (Z.to_nat (95 * n / 100)) p) as [Hle Hlt]; [apply StronglySorted_merge_sort; apply _|exact Hq|].
  assert (forall P `{!forall d : Z, Decision (P d)}, length (filter P l) = length (filter P durations)) as Hf
    by (intros; by rewrite Hperm).
  rewrite (Hf (fun d => d <= p)) in Hle. rewrite (Hf (fun d => d < p)) in Hlt.
  pose proof (Z.div_mod (95 * n) 100 ltac:(lia)). pose proof (Z.mod_pos_bound (95 * n) 100 ltac:(lia)).
  pose proof (Z.div_pos (95 * n) 100 ltac:(lia) ltac:(lia)).
  split_and!; [|lia|lia]. rewrite <- Hperm. by eapply list_elem_of_lookup_2.
Qed.

(** The tasks whose duration counts: those that ended by themselves. *)
Definition ended (t : TaskInfo) : Prop := tk_Status t = TaskCompleted \/ tk_Status t = TaskFailed.
#[local] Instance ended_dec t : Decision (ended t).
Proof. unfold ended. apply _. Defined.

Definition with_status (st : TaskStatus) (tasks : list TaskInfo) : Z :=
  Z.of_nat (length (filter (fun t => tk_Status t = st) tasks)).

Lemma with_status_snoc st tasks t :
  with_status st (tasks ++ [t]) = with_status st tasks + (if decide (tk_Status t = st) then 1 else 0).
Proof.
  unfold with_status. rewrite filter_app, length_app, filter_cons. case_decide; cbn; lia.
Qed.

Lemma countTask_run tasks :
  let n := foldl countTask (mkCounts 0 0 0 0 []) tasks in
  tc_Completed n = with_status TaskCompleted tasks /\ tc_Failed n = with_status TaskFailed tasks /\
  tc_Cancelled n = with_status TaskCancelled tasks /\ tc_Working n = with_status TaskWorking tasks /\
  tc_durations n = filter ended tasks ≫= durationOf.
Proof.
  induction tasks as [|t tasks IH] using rev_ind; [done|]. cbv zeta in *. rewrite foldl_app.
  destruct (foldl countTask _ tasks) as [a b c d ds]. simpl in IH. destruct IH as (-> & -> & -> & -> & ->).
  rewrite !with_status_snoc, filter_app, bind_app, filter_cons. simpl. unfold countTask. simpl.
  destruct (decide (tk_Status t = TaskCompleted)) as [E|E1].
  { rewrite (decide_True (P := ended t)) by (by left). rewrite !decide_False by (rewrite E; done). simpl. rewrite app_nil_r. split_and!; done || lia. }
  destruct (decide (tk_Status t = TaskFailed)) as [E|E2].
  { rewrite (decide_True (P := ended t)) by (by right). rewrite !decide_False by (rewrite E; done). simpl. rewrite app_nil_r. split_and!; done || lia. }
  rewrite (decide_False (P := ended t)) by (unfold ended; tauto). simpl. rewrite app_nil_r.
  destruct (decide (tk_Status t = TaskCancelled)) as [E|E3].
  { rewrite decide_False by (rewrite E; done). simpl. split_and!; done || lia. }
  case_decide; simpl; split_and!; done || lia.
Qed.

(** Each task is counted under one status. *)
Lemma status_once t :
  let one st := if decide (tk_Status t = st) then 1 else 0 in
  one TaskCompleted + one TaskFailed + one TaskCancelled + one TaskWorking
  + (if decide (tk_Status t ∉ [TaskCompleted; TaskFailed; TaskCancelled; TaskWorking]) then 1 else 0) = 1.
Proof.
  cbv zeta. generalize (tk_Status t) as st. intros st.
  destruct (decide (st = TaskCompleted)) as [->|]; [reflexivity|]. destruct (decide (st = TaskFailed)) as [->|]; [reflexivity|].
  destruct (decide (st = TaskCancelled)) as [->|]; [reflexivity|]. destruct (decide (st = TaskWorking)) as [->|]; [reflexivity|].
  rewrite decide_True; [done|]. rewrite !elem_of_cons, elem_of_nil. tauto.
Qed.

(** The metrics account for every task and conflict.  The task counters are the
    numbers of tasks with each status, so that what they leave of the submitted
    tasks is still submitted (or has an unknown status); every conflict is counted
    once, as resolved or unresolved; and the 95th percentile is the duration of a
    task that completed or failed, not below 95 and not above more than 95 of 100
    of those durations. *)
Theorem metrics_account (s : CollaborationStorage) (ts : TaskStore) (id : string) (m : WorkspaceMetrics)
    (Hm : Collect s ts id = Ok m) :
  let tasks := orEmpty (LoadTasks ts id) in
  let durations := filter ended tasks ≫= durationOf in
  let others := filter (fun t => tk_Status t ∉ [TaskCompleted; TaskFailed; TaskCancelled; TaskWorking]) tasks in
  mx_TasksCompleted m = with_status TaskCompleted tasks /\ mx_TasksFailed m = with_status TaskFailed tasks /\
  mx_TasksSubmitted m = mx_TasksCompleted m + mx_TasksFailed m + mx_TasksCancelled m + mx_TasksWorking m
                        + Z.of_nat (length others) /\
  mx_ConflictsDetected m = mx_ConflictsResolved m + mx_ConflictsUnresolved m /\
  0 <= mx_OnlineAgents m <= mx_TotalAgents m /\
  (durations <> [] -> 95 * Z.of_nat (length durations) < 2 ^ 63 ->
   mx_P95Duration m ∈ durations /\
   95 * Z.of_nat (length durations) <= 100 * Z.of_nat (length (filter (fun d => d <= mx_P95Duration m) durations)) /\
   100 * Z.of_nat (length (filter (fun d => d < mx_P95Duration m) durations)) <= 95 * Z.of_nat (length durations)).
Proof.
  intros tasks durations others. unfold Collect in Hm. destruct (LoadWorkspace s id) as [ws|]; [|done].
  injection Hm as <-. simpl. fold tasks. destruct (countTask_run tasks) as (-> & -> & -> & -> & ->).
  split_and!; [done|done| | | | |].
  - unfold others. clear. induction tasks as [|t tasks IH] using rev_ind; [done|].
    rewrite !with_status_snoc, filter_app, !length_app, filter_cons, filter_nil. pose proof (status_once t) as Ht.
    cbv zeta in Ht. destruct (decide (tk_Status t ∉ [TaskCompleted; TaskFailed; TaskCancelled; TaskWorking]));
      cbn [length app] in *; lia.
  - induction (orEmpty (LoadConflicts s id)) as [|c l IH]; [done|]. rewrite !filter_cons.
    destruct (IsResolved c); cbn [length]; repeat case_decide; cbn [length]; done || lia.
  - unfold OnlineAgentCount. lia.
  - unfold OnlineAgentCount. pose proof (length_filter (fun a => ag_Status a = "online") (ws_Agents ws)). lia.
  - intros Hne Hlen. fold durations. rewrite decide_False by done. by apply percentile_rank.
Qed.

Lemma metrics_account_witness :
  let t st c := mkTask "t" "w1" "a" "b" "" None None st "" [] 0 0 c 0 in
  let ts : TaskStore := {[ "w1" := Parsed [t TaskCompleted (Some 40); t TaskFailed (Some 10); t TaskWorking None] ]} in
  match Collect sample_store ts "w1" with
  | Ok m => mx_TasksCompleted m = 1 /\ mx_P95Duration m = 40 /\
      mx_ConflictsDetected m = mx_ConflictsResolved m + mx_ConflictsUnresolved m
  | Err _ => False
  end.
Proof.
  intros t ts. destruct (Collect sample_store ts "w1") as [m|e] eqn:E; [|by vm_compute in E].
  destruct (metrics_account _ _ _ _ E) as (Hc & _ & _ & Hd & _ & _).
  split; [rewrite Hc; by vm_compute|]. split; [vm_compute in E; by injection E as <-|exact Hd].
Defined.
