(* ===== verification/Squad.v ===== *)
(** * Squads (types.go, manager.go, router.go, contract.go, contract_store.go,
      checklist.go, context_load.go, timebox.go, exit_condition.go, evolution.go and
      inheritance.go of src/internal/core/squad)

    An in-memory registry of squads and of the contracts between them, a router
    that ranks squads, and a checklist of the topology.  The manager stores the
    slice of members its caller passes and later edits it in place, so members are
    modelled as slices into a heap of arrays.  A slice starts at the first cell of
    its array.  Sizes in kilobytes are kept exact, as rationals. *)

From Stdlib Require Import ZArith Lia QArith Lqa.
From stdpp Require Import base option list gmap strings fin_maps fin_sets.
From S2P Require Import Prelude Text Bundle AccessScope.

Open Scope Z_scope.

(** ** Types *)

Abbreviation SquadType := string.
Definition SquadTypeStream : SquadType := "stream-aligned".
Definition SquadTypeEnabling : SquadType := "enabling".
Definition SquadTypeSubsystem : SquadType := "complicated-subsystem".
Definition SquadTypePlatform : SquadType := "platform".

Definition ValidSquadTypes : list SquadType := [SquadTypeStream; SquadTypeEnabling; SquadTypeSubsystem; SquadTypePlatform].

(** [true]: valid. *)
Definition SquadType_Validate (t : SquadType) : bool :=
  bool_decide (t = SquadTypeStream \/ t = SquadTypeEnabling \/ t = SquadTypeSubsystem \/ t = SquadTypePlatform).

Abbreviation InteractionMode := string.
Definition ModeXaaS : InteractionMode := "x-as-a-service".
Definition ModeCollaboration : InteractionMode := "collaboration".
Definition ModeFacilitating : InteractionMode := "facilitating".

Definition InteractionMode_Validate (m : InteractionMode) : bool :=
  bool_decide (m = ModeXaaS \/ m = ModeCollaboration \/ m = ModeFacilitating).

(** A slice of strings: its array and its length; the capacity is the length of
    the array. *)
Record Slice : Type := mkSlice { sl_arr : nat; sl_len : nat }.

Record Squad : Type := mkSquad {
  sq_ID : string;
  sq_Name : string;
  sq_Type : SquadType;
  sq_Domain : string;
  sq_Description : string;
  sq_Members : Slice;
  sq_GoldenPathDefined : bool;
  sq_Scope : option Rule;
  sq_CreatedAt : Z;
  sq_UpdatedAt : Z
}.

Inductive SquadErr : Type :=
  | ErrSquadID | ErrSquadName | ErrSquadType (t : SquadType) | ErrNoMembers | ErrSquadExists (id : string)
  | ErrSquadNotFound (id : string) | ErrNotSquadMember (p s : string) | ErrDomainRequired.

Definition Squad_Validate (s : Squad) : Res SquadErr unit :=
  if decide (sq_ID s = "") then Err ErrSquadID else
  if decide (sq_Name s = "") then Err ErrSquadName else
  if negb (SquadType_Validate (sq_Type s)) then Err (ErrSquadType (sq_Type s)) else
  if decide (sl_len (sq_Members s) = 0)%nat then Err ErrNoMembers else Ok tt.

Definition OwnsDomain (s : Squad) : bool :=
  bool_decide (sq_Type s = SquadTypeStream \/ sq_Type s = SquadTypeSubsystem \/ sq_Type s = SquadTypePlatform).
Definition IsTemporary (s : Squad) : bool := bool_decide (sq_Type s = SquadTypeEnabling).
Definition RequiresExitCondition (s : Squad) : bool := bool_decide (sq_Type s = SquadTypeEnabling).

Definition matchesDomain (s : Squad) (domain : string) : bool := Contains (ToLower (sq_Domain s)) (ToLower domain).

Definition set_members (s : Squad) (m : Slice) (now : Z) : Squad :=
  mkSquad (sq_ID s) (sq_Name s) (sq_Type s) (sq_Domain s) (sq_Description s) m (sq_GoldenPathDefined s) (sq_Scope s)
    (sq_CreatedAt s) now.
Definition set_squadTimes (s : Squad) (created updated : Z) : Squad :=
  mkSquad (sq_ID s) (sq_Name s) (sq_Type s) (sq_Domain s) (sq_Description s) (sq_Members s) (sq_GoldenPathDefined s)
    (sq_Scope s) created updated.

(** ** Slices *)

Abbreviation Heap := (gmap nat (list string)).

Definition cells (h : Heap) (s : Slice) : list string := default [] (h !! sl_arr s).
Definition read (h : Heap) (s : Slice) : list string := take (sl_len s) (cells h s).

Definition alloc (h : Heap) (l : list string) : Heap * nat := let a := fresh (dom h) in (<[a := l]> h, a).

(** append(s, x): in place while there is capacity, else into a new array with
    [extra] spare cells. *)
Definition append1 (extra : nat) (h : Heap) (s : Slice) (x : string) : Heap * Slice :=
  if decide (sl_len s < length (cells h s))%nat then
    (<[sl_arr s := <[sl_len s := x]> (cells h s)]> h, mkSlice (sl_arr s) (S (sl_len s)))
  else
    let '(h, a) := alloc h (read h s ++ x :: replicate extra "") in (h, mkSlice a (S (sl_len s))).

(** append(s[:i], s[i+1:]...): the tail moves one cell to the left, in place. *)
Definition cutAt (h : Heap) (s : Slice) (i : nat) : Heap * Slice :=
  let l := read h s in
  let n := Nat.pred (sl_len s) in
  (<[sl_arr s := take i l ++ drop (S i) l ++ drop n (cells h s)]> h, mkSlice (sl_arr s) n).

(** make and copy. *)
Definition copySlice (h : Heap) (s : Slice) : Heap * Slice :=
  let '(h, a) := alloc h (read h s) in (h, mkSlice a (sl_len s)).

(** ** The manager *)

Record Manager : Type := mkManager { mg_heap : Heap; mg_squads : gmap string Squad }.

Definition NewManager (h : Heap) : Manager := mkManager h ∅.

Definition Manager_Create (now : Z) (m : Manager) (s : Squad) : Manager * Res SquadErr unit :=
  if decide (sq_ID s = "") then (m, Err ErrSquadID) else
  if decide (sq_Name s = "") then (m, Err ErrSquadName) else
  match mg_squads m !! sq_ID s with
  | Some _ => (m, Err (ErrSquadExists (sq_ID s)))
  | None => (mkManager (mg_heap m) (<[sq_ID s := set_squadTimes s now now]> (mg_squads m)), Ok tt)
  end.

Definition copySquad (h : Heap) (s : Squad) : Heap * Squad :=
  let '(h, m) := copySlice h (sq_Members s) in (h, set_members s m (sq_UpdatedAt s)).

Definition Manager_Get (m : Manager) (id : string) : Manager * Res SquadErr Squad :=
  match mg_squads m !! id with
  | None => (m, Err (ErrSquadNotFound id))
  | Some s => let '(h, cp) := copySquad (mg_heap m) s in (mkManager h (mg_squads m), Ok cp)
  end.

(** The loop over the squads, in the order [o]. *)
Fixpoint copyLoop (h : Heap) (o : list (string * Squad)) : Heap * list Squad :=
  match o with
  | [] => (h, [])
  | (_, s) :: o =>
      let '(h, cp) := copySquad h s in
      let '(h, rest) := copyLoop h o in (h, cp :: rest)
  end.

Definition Manager_List (m : Manager) (o : list (string * Squad)) : Manager * list Squad :=
  let '(h, l) := copyLoop (mg_heap m) o in (mkManager h (mg_squads m), l).

Definition Manager_Update (now : Z) (m : Manager) (s : Squad) : Manager * Res SquadErr unit :=
  if decide (sq_ID s = "") then (m, Err ErrSquadID) else
  if decide (sq_Name s = "") then (m, Err ErrSquadName) else
  match mg_squads m !! sq_ID s with
  | None => (m, Err (ErrSquadNotFound (sq_ID s)))
  | Some existing =>
      (mkManager (mg_heap m) (<[sq_ID s := set_squadTimes s (sq_CreatedAt existing) now]> (mg_squads m)), Ok tt)
  end.

Definition Manager_Delete (m : Manager) (id : string) : Manager * Res SquadErr unit :=
  match mg_squads m !! id with
  | None => (m, Err (ErrSquadNotFound id))
  | Some _ => (mkManager (mg_heap m) (delete id (mg_squads m)), Ok tt)
  end.

Definition AddMember (extra : nat) (now : Z) (m : Manager) (squadID profileID : string) : Manager * Res SquadErr unit :=
  match mg_squads m !! squadID with
  | None => (m, Err (ErrSquadNotFound squadID))
  | Some s =>
      if decide (profileID ∈ read (mg_heap m) (sq_Members s)) then (m, Ok tt) else
      let '(h, members) := append1 extra (mg_heap m) (sq_Members s) profileID in
      (mkManager h (<[squadID := set_members s members now]> (mg_squads m)), Ok tt)
  end.

Definition RemoveMember (now : Z) (m : Manager) (squadID profileID : string) : Manager * Res SquadErr unit :=
  match mg_squads m !! squadID with
  | None => (m, Err (ErrSquadNotFound squadID))
  | Some s =>
      match list_find (fun x => x = profileID) (read (mg_heap m) (sq_Members s)) with
      | None => (m, Err (ErrNotSquadMember profileID squadID))
      | Some (i, _) =>
          let '(h, members) := cutAt (mg_heap m) (sq_Members s) i in
          (mkManager h (<[squadID := set_members s members now]> (mg_squads m)), Ok tt)
      end
  end.

Definition GetSquadsForProfile (m : Manager) (o : list (string * Squad)) (profileID : string) : Manager * list Squad :=
  let '(h, l) := copyLoop (mg_heap m) (filter (fun e => profileID ∈ read (mg_heap m) (sq_Members e.2)) o) in
  (mkManager h (mg_squads m), l).

Definition IsMember (m : Manager) (squadID profileID : string) : bool :=
  match mg_squads m !! squadID with
  | None => false
  | Some s => bool_decide (profileID ∈ read (mg_heap m) (sq_Members s))
  end.

(** The three values of the map. *)
Definition GetInheritedConfig (m : Manager) (squadID : string) : Res SquadErr (string * SquadType * bool) :=
  match mg_squads m !! squadID with
  | None => Err (ErrSquadNotFound squadID)
  | Some s => Ok (sq_Domain s, sq_Type s, sq_GoldenPathDefined s)
  end.

(** The merged configuration over the squads of a profile, in the order of the loop;
    the capabilities stay empty. *)
Definition GetInheritedConfigForProfile (squads : list Squad) : option (string * SquadType * bool) :=
  match squads with
  | [] => None
  | s :: _ =>
      Some (sq_Domain s, sq_Type s,
            foldl (fun g s => if sq_GoldenPathDefined s then true else g) (sq_GoldenPathDefined s) squads)
  end.

(** ** The router *)

Record RouteRequest : Type := mkRoute { rr_Domain : string; rr_RequiredType : SquadType; rr_RequiredMode : InteractionMode }.

Abbreviation RouteResult := (Squad * Z)%type.

Definition routeScore (s : Squad) : Z :=
  10 + (if decide (sq_Type s = SquadTypeStream) then 5
        else if decide (sq_Type s = SquadTypeSubsystem) then 3
        else if decide (sq_Type s = SquadTypePlatform) then 2 else 0).

Definition routeMatches (req : RouteRequest) (s : Squad) : bool :=
  if bool_decide (rr_RequiredType req <> "") && bool_decide (sq_Type s <> rr_RequiredType req) then false
  else matchesDomain s (rr_Domain req).

Definition swap {A} (l : list A) (j : nat) : list A :=
  match l !! S j, l !! j with Some a, Some b => <[S j := b]> (<[j := a]> l) | _, _ => l end.

(** The inner loop from [j] down. *)
Fixpoint sinkLoop (j : nat) (l : list RouteResult) : list RouteResult :=
  match j with
  | O => l
  | S j' =>
      match l !! S j', l !! j' with
      | Some a, Some b => if decide (a.2 > b.2) then sinkLoop j' (swap l j') else l
      | _, _ => l
      end
  end.

(** The outer loop, [i] from 1. *)
Definition insertionSort (l : list RouteResult) : list RouteResult :=
  foldl (fun l i => sinkLoop i l) l (seq 1 (length l - 1)).

(** The squads of the manager, as [List] returns them. *)
Definition Route (req : RouteRequest) (squads : list Squad) : Res SquadErr (list RouteResult) :=
  if decide (rr_Domain req = "") then Err ErrDomainRequired else
  Ok (insertionSort ((fun s => (s, routeScore s)) <$> filter (fun s => routeMatches req s = true) squads)).

(** ** Routing is a stable ranking by type *)

Lemma lookup_here {A} (pre : list A) b l : (pre ++ b :: l) !! length pre = Some b.
Proof. by apply list_lookup_middle. Qed.

Lemma lookup_next {A} (pre : list A) b x l : (pre ++ b :: x :: l) !! S (length pre) = Some x.
Proof. induction pre; [done|]. simpl. apply IHpre. Qed.

Lemma swap_middle {A} (pre : list A) b x l : swap (pre ++ b :: x :: l) (length pre) = pre ++ x :: b :: l.
Proof.
  unfold swap. rewrite lookup_here, lookup_next. rewrite insert_app_r_alt by done. rewrite Nat.sub_diag. simpl.
  rewrite insert_app_r_alt by lia. by replace (S (length pre) - length pre)%nat with 1%nat by lia.
Qed.

(** The element sinks below the lower ones, down to the first that is not lower. *)
Lemma sinkLoop_spec hi lo x l :
  Forall (fun b : RouteResult => b.2 < x.2) lo -> (forall b, list.last hi = Some b -> x.2 <= b.2) ->
  sinkLoop (length (hi ++ lo)) (hi ++ lo ++ x :: l) = hi ++ x :: lo ++ l.
Proof.
  intros Hlo Hhi. revert l. induction lo as [|b lo IH] using rev_ind; intros l.
  - rewrite app_nil_r. simpl. destruct hi as [|b hi _] using rev_ind; [done|].
    rewrite length_app, Nat.add_comm, <- app_assoc. cbn [length Nat.add sinkLoop app].
    rewrite lookup_next, lookup_here. rewrite decide_False; [done|].
    specialize (Hhi b). rewrite last_snoc in Hhi. specialize (Hhi eq_refl). lia.
  - apply Forall_app in Hlo as [Hlo [Hb _]%Forall_cons].
    assert (hi ++ (lo ++ [b]) ++ x :: l = (hi ++ lo) ++ b :: x :: l) as -> by (by rewrite <- !app_assoc).
    rewrite app_assoc, length_app, Nat.add_comm. cbn [length Nat.add sinkLoop].
    rewrite lookup_next, lookup_here. simpl in Hb. rewrite decide_True by lia. rewrite swap_middle.
    rewrite <- (app_assoc hi lo), IH by done. by rewrite <- app_assoc.
Qed.

Definition scored (k : Z) (l : list RouteResult) : list RouteResult := filter (fun r => r.2 = k) l.

(** The reference: the four ranks, one after the other. *)
Definition ranked (l : list RouteResult) : list RouteResult := scored 15 l ++ scored 13 l ++ scored 12 l ++ scored 10 l.

Definition has_rank (r : RouteResult) : Prop := r.2 = 15 \/ r.2 = 13 \/ r.2 = 12 \/ r.2 = 10.

Lemma scored_snoc k l x : scored k (l ++ [x]) = scored k l ++ (if decide (x.2 = k) then [x] else []).
Proof. unfold scored. by rewrite filter_app, filter_cons, filter_nil. Qed.

Lemma scored_value k l b : b ∈ scored k l -> b.2 = k.
Proof. by intros [? _]%list_elem_of_filter. Qed.

Lemma ranked_length l : Forall has_rank l -> length (ranked l) = length l.
Proof.
  unfold ranked. induction l as [|x l IH] using rev_ind; [done|]. intros [Hl Hx]%Forall_app.
  apply Forall_cons in Hx as [Hx _]. specialize (IH Hl). rewrite !length_app in *. rewrite !scored_snoc, !length_app.
  destruct Hx as [E|[E|[E|E]]]; rewrite E; simpl; lia.
Qed.

(** One pass of the outer loop. *)
Lemma sink_ranked l x rest :
  Forall has_rank l -> has_rank x -> sinkLoop (length l) (ranked l ++ x :: rest) = ranked (l ++ [x]) ++ rest.
Proof.
  intros Hl Hx. rewrite <- (ranked_length l Hl).
  assert (forall hi lo, ranked l = hi ++ lo -> Forall (fun b : RouteResult => b.2 < x.2) lo -> Forall (fun b : RouteResult => x.2 <= b.2) hi ->
            sinkLoop (length (ranked l)) (ranked l ++ x :: rest) = hi ++ x :: lo ++ rest) as H.
  { intros hi lo -> Hlo Hhi. rewrite <- app_assoc. apply sinkLoop_spec; [done|].
    intros b Hb. apply last_Some_elem_of in Hb. by eapply Forall_forall in Hhi. }
  assert (forall k (P : RouteResult -> Prop), (forall b : RouteResult, b.2 = k -> P b) -> Forall P (scored k l)) as HF.
  { intros k P HP. apply Forall_forall. intros b Hb%scored_value. auto. }
  unfold ranked at 3. rewrite !scored_snoc. destruct Hx as [E|[E|[E|E]]]; rewrite E in *; simpl; rewrite ?app_nil_r.
  - rewrite (H (scored 15 l) (scored 13 l ++ scored 12 l ++ scored 10 l)); [by rewrite <- !app_assoc|done| |];
      rewrite ?Forall_app; split_and?; apply HF; intros; lia.
  - rewrite (H (scored 15 l ++ scored 13 l) (scored 12 l ++ scored 10 l)); [by rewrite <- !app_assoc|unfold ranked; by rewrite <- app_assoc| |];
      rewrite ?Forall_app; split_and?; apply HF; intros; lia.
  - rewrite (H (scored 15 l ++ scored 13 l ++ scored 12 l) (scored 10 l)); [by rewrite <- !app_assoc|unfold ranked; by rewrite <- !app_assoc| |];
      rewrite ?Forall_app; split_and?; apply HF; intros; lia.
  - rewrite (H (ranked l) []); [unfold ranked; by rewrite <- !app_assoc|by rewrite app_nil_r|constructor|].
    unfold ranked. rewrite !Forall_app; split_and?; apply HF; intros; lia.
Qed.

Lemma sort_from d l :
  Forall has_rank d -> Forall has_rank l ->
  foldl (fun l i => sinkLoop i l) (ranked d ++ l) (seq (length d) (length l)) = ranked (d ++ l).
Proof.
  intros Hd Hl. revert d Hd. induction Hl as [|y l Hy Hl IH]; intros d Hd; simpl; [by rewrite !app_nil_r|].
  rewrite sink_ranked by done.
  replace (S (length d)) with (length (d ++ [y])) by (rewrite length_app; simpl; lia).
  rewrite IH; [by rewrite <- app_assoc|]. apply Forall_app. by rewrite Forall_singleton.
Qed.

Lemma insertionSort_ranked l : Forall has_rank l -> insertionSort l = ranked l.
Proof.
  intros Hl. unfold insertionSort. destruct l as [|x l]; [done|].
  apply Forall_cons in Hl as [Hx Hl]. pose proof (sort_from [x] l ltac:(by apply Forall_singleton) Hl) as H.
  assert (ranked [x] = [x]) as E1.
  { unfold ranked, scored. rewrite !filter_cons, !filter_nil.
    destruct Hx as [E|[E|[E|E]]]; repeat case_decide; simpl in *; done || lia. }
  rewrite E1 in H. simpl in *. by rewrite Nat.sub_0_r.
Qed.

Lemma score_type s :
  (routeScore s = 15 <-> sq_Type s = SquadTypeStream) /\ (routeScore s = 13 <-> sq_Type s = SquadTypeSubsystem) /\
  (routeScore s = 12 <-> sq_Type s = SquadTypePlatform) /\
  (routeScore s = 10 <-> sq_Type s ∉ [SquadTypeStream; SquadTypeSubsystem; SquadTypePlatform]).
Proof.
  unfold routeScore. generalize (sq_Type s) as t. intros t. rewrite !elem_of_cons, elem_of_nil.
  repeat case_decide; subst; split_and!; split; intros H'; first [done|tauto|exfalso; apply H'; tauto].
Qed.

Lemma score_ranked s : has_rank (s, routeScore s).
Proof. unfold has_rank, routeScore. simpl. repeat case_decide; lia. Qed.

Lemma scored_type k (P : Squad -> Prop) `{!forall s, Decision (P s)} l :
  (forall s, routeScore s = k <-> P s) -> (scored k ((fun s => (s, routeScore s)) <$> l)).*1 = filter P l.
Proof.
  intros HP. unfold scored. induction l as [|s l IH]; [done|]. rewrite fmap_cons, !filter_cons. simpl.
  specialize (HP s). repeat case_decide; try tauto; first [exact IH|simpl; f_equal; exact IH].
Qed.

(** The router ranks by topology.  A request with a domain gets exactly the
    squads that match it: first the stream-aligned ones, then the subsystems, then
    the platforms, then the others, and within each group in the order in which the
    manager lists them; the in-place insertion sort is that stable ranking.  The
    interaction mode of the request plays no part. *)
Theorem squad_routing (req : RouteRequest) (squads : list Squad) (Hdom : rr_Domain req <> "") :
  let found := filter (fun s => routeMatches req s = true) squads in
  let of_type t := filter (fun s => sq_Type s = t) found in
  exists r, Route req squads = Ok r /\
    r.*1 = of_type SquadTypeStream ++ of_type SquadTypeSubsystem ++ of_type SquadTypePlatform ++
           filter (fun s => sq_Type s ∉ [SquadTypeStream; SquadTypeSubsystem; SquadTypePlatform]) found /\
    (forall s k, (s, k) ∈ r -> k = routeScore s) /\
    forall mode, Route (mkRoute (rr_Domain req) (rr_RequiredType req) mode) squads = Ok r.
Proof.
  intros found of_type. unfold Route. simpl. rewrite decide_False by done. eexists. split; [done|].
  split_and!; [| |intros mode; simpl; by rewrite decide_False by done].
  - rewrite insertionSort_ranked by (apply Forall_fmap, Forall_true; intros s; apply score_ranked).
    unfold ranked. rewrite !fmap_app. f_equal; [|f_equal; [|f_equal]]; apply scored_type; intros s; apply score_type.
  - intros s k. rewrite insertionSort_ranked by (apply Forall_fmap, Forall_true; intros x; apply score_ranked).
    unfold ranked, scored. rewrite !elem_of_app, !list_elem_of_filter, !list_elem_of_fmap. naive_solver.
Qed.

Definition sample_squad (id : string) (t : SquadType) (m : Slice) : Squad := mkSquad id id t "payments core" "" m false None 0 0.

Lemma squad_routing_witness :
  let squads := [sample_squad "p" SquadTypePlatform (mkSlice 0 0); sample_squad "e" SquadTypeEnabling (mkSlice 0 0);
                 sample_squad "s1" SquadTypeStream (mkSlice 0 0); sample_squad "s2" SquadTypeStream (mkSlice 0 0)] in
  exists r, Route (mkRoute "Payments" "" "") squads = Ok r /\ sq_ID <$> r.*1 = ["s1"; "s2"; "p"; "e"].
Proof.
  intros squads. destruct (squad_routing (mkRoute "Payments" "" "") squads) as (r & Hr & Hs & _ & _); [done|].
  exists r. split; [exact Hr|]. rewrite Hs. by vm_compute.
Defined.

(** ** Members and aliasing *)

Definition members (m : Manager) (id : string) : option (list string) :=
  (fun s => read (mg_heap m) (sq_Members s)) <$> mg_squads m !! id.

(** Every squad has an array of its own. *)
Record separate (m : Manager) : Prop := {
  sep_alloc id s : mg_squads m !! id = Some s ->
    is_Some (mg_heap m !! sl_arr (sq_Members s)) /\ (sl_len (sq_Members s) <= length (cells (mg_heap m) (sq_Members s)))%nat;
  sep_arr i j si sj : mg_squads m !! i = Some si -> mg_squads m !! j = Some sj -> i <> j ->
    sl_arr (sq_Members si) <> sl_arr (sq_Members sj)
}.

Lemma fresh_ne (h : Heap) a : is_Some (h !! a) -> a <> fresh (dom h).
Proof. intros Ha ->. apply (is_fresh (dom h)). by apply elem_of_dom. Qed.

(** What an edit of one slice does: the slice reads [l], it stays within its array,
    which is the old one or a new one, and the other arrays are as they were. *)
Definition edited (h h' : Heap) (s s' : Slice) (l : list string) : Prop :=
  read h' s' = l /\ is_Some (h' !! sl_arr s') /\ (sl_len s' <= length (cells h' s'))%nat /\
  (sl_arr s' = sl_arr s \/ h !! sl_arr s' = None) /\
  (forall a, a <> sl_arr s -> is_Some (h !! a) -> h' !! a = h !! a).

Lemma cells_insert h a l n : cells (<[a := l]> h) (mkSlice a n) = l.
Proof. unfold cells. simpl. by rewrite lookup_insert_eq. Qed.

Lemma read_insert h a l n : read (<[a := l]> h) (mkSlice a n) = take n l.
Proof. unfold read. by rewrite cells_insert. Qed.

Lemma append1_edited extra h s x :
  is_Some (h !! sl_arr s) -> (sl_len s <= length (cells h s))%nat ->
  edited h (append1 extra h s x).1 s (append1 extra h s x).2 (read h s ++ [x]).
Proof.
  intros Ha Hlen. unfold append1. case_decide as Hcap; simpl.
  - unfold edited. cbn [sl_arr sl_len]. rewrite cells_insert, read_insert, lookup_insert_eq. split_and!.
    + rewrite (take_S_r _ _ x) by (by rewrite list_lookup_insert_eq). f_equal. by apply take_insert_ge.
    + by eexists.
    + rewrite length_insert. lia.
    + by left.
    + intros a Hne _. by rewrite lookup_insert_ne.
  - assert (read h s = cells h s) as Hr by (apply take_ge; lia).
    unfold edited. cbn [sl_arr sl_len]. rewrite cells_insert, read_insert, lookup_insert_eq, Hr. split_and!.
    + replace (cells h s ++ x :: replicate extra "") with ((cells h s ++ [x]) ++ replicate extra "") by (by rewrite <- app_assoc).
      apply take_app_length'. rewrite length_app. simpl. lia.
    + by eexists.
    + rewrite length_app. simpl. lia.
    + right. apply not_elem_of_dom, is_fresh.
    + intros a _ Hs. rewrite lookup_insert_ne; [done|]. intros <-. by apply (fresh_ne h (fresh (dom h))).
Qed.

Lemma cutAt_edited h s i :
  is_Some (h !! sl_arr s) -> (sl_len s <= length (cells h s))%nat -> (i < sl_len s)%nat ->
  edited h (cutAt h s i).1 s (cutAt h s i).2 (take i (read h s) ++ drop (S i) (read h s)).
Proof.
  intros Ha Hlen Hi. unfold cutAt, edited. cbn [fst snd sl_arr sl_len]. rewrite cells_insert, read_insert, lookup_insert_eq.
  assert (length (read h s) = sl_len s) as Hr by (unfold read; rewrite length_take; lia).
  split_and!.
  - rewrite app_assoc. apply take_app_length'. rewrite length_app, length_take, length_drop. lia.
  - by eexists.
  - rewrite !length_app, length_take, !length_drop. lia.
  - by left.
  - intros a Hne _. by rewrite lookup_insert_ne.
Qed.

Lemma read_ext h h' s : h' !! sl_arr s = h !! sl_arr s -> read h' s = read h s.
Proof. intros E. unfold read, cells. by rewrite E. Qed.

(** An edit of one squad leaves the others, and their separation. *)
Lemma edit_isolated m id s h' s' sl l now :
  separate m -> mg_squads m !! id = Some s -> edited (mg_heap m) h' (sq_Members s) sl l -> s' = set_members s sl now ->
  let m' := mkManager h' (<[id := s']> (mg_squads m)) in
  separate m' /\ members m' id = Some l /\ (forall k, k <> id -> members m' k = members m k).
Proof.
  intros [Hal Har] Hs (Hr & Hsome & Hlen & Hown & Hframe) -> m'.
  assert (forall k sk, k <> id -> mg_squads m !! k = Some sk ->
            h' !! sl_arr (sq_Members sk) = mg_heap m !! sl_arr (sq_Members sk)) as Hk.
  { intros k sk Hne Hk. apply Hframe; [by eapply Har|]. by apply (Hal k). }
  split_and!.
  - split; simpl.
    + intros k sk. destruct (decide (k = id)) as [->|Hne]; [rewrite lookup_insert_eq; by intros [= <-]|].
      rewrite lookup_insert_ne by done. intros Hsk. unfold cells. rewrite (Hk k sk Hne Hsk). by apply (Hal k).
    + intros i j si sj. destruct (decide (i = id)) as [->|Hi], (decide (j = id)) as [->|Hj];
        rewrite ?lookup_insert_eq, ?lookup_insert_ne by done; intros Hsi Hsj Hij; simplify_eq/=; [|..|by eapply Har].
      * destruct Hown as [->|Hnone]; [by eapply Har|]. intros E. destruct (Hal j sj Hsj) as [H _]. rewrite <- E, Hnone in H. by destruct H.
      * destruct Hown as [->|Hnone]; [by eapply Har|]. intros E. destruct (Hal i si Hsi) as [H _]. rewrite E, Hnone in H. by destruct H.
  - unfold members. simpl. rewrite lookup_insert_eq. simpl. by f_equal.
  - intros k Hne. unfold members. simpl. rewrite lookup_insert_ne by done.
    destruct (mg_squads m !! k) as [sk|] eqn:Ek; [|done]. simpl. f_equal. by apply read_ext, (Hk k).
Qed.

(** Squads are isolated while they share no array.  When every squad has a member
    array of its own, adding a member to a squad appends it unless it is there,
    removing one drops its first occurrence, no other squad changes, and the arrays
    stay separate; a copy handed out by [Get] has an array of its own too. *)
Theorem squad_members_isolated (extra : nat) (now : Z) (m : Manager) (id p : string) (l : list string)
    (Hsep : separate m) (Hl : members m id = Some l) :
  (let m' := (AddMember extra now m id p).1 in
   separate m' /\ members m' id = Some (if decide (p ∈ l) then l else l ++ [p]) /\
   forall k, k <> id -> members m' k = members m k) /\
  (let m' := (RemoveMember now m id p).1 in
   separate m' /\ (forall k, k <> id -> members m' k = members m k) /\
   ((p ∉ l /\ m' = m) \/ exists pre post, l = pre ++ p :: post /\ p ∉ pre /\ members m' id = Some (pre ++ post))) /\
  (let '(m', out) := Manager_Get m id in
   exists cp, out = Ok cp /\ separate m' /\ read (mg_heap m') (sq_Members cp) = l /\
     (forall k, members m' k = members m k) /\
     (forall k s, mg_squads m' !! k = Some s -> sl_arr (sq_Members s) <> sl_arr (sq_Members cp))).
Proof.
  unfold members in Hl. destruct (mg_squads m !! id) as [s|] eqn:Hs; [|done]. injection Hl as Hl.
  destruct (sep_alloc _ Hsep id s Hs) as [Ha Hlen]. split_and!.
  - unfold AddMember. rewrite Hs, Hl. case_decide as Hp; cbn [fst].
    + split_and!; [done| |done]. unfold members. rewrite Hs. simpl. by rewrite Hl.
    + pose proof (append1_edited extra _ _ p Ha Hlen) as He. rewrite Hl in He.
      destruct (append1 extra (mg_heap m) (sq_Members s) p) as [h' sl]. by eapply edit_isolated.
  - unfold RemoveMember. rewrite Hs, Hl. destruct (list_find _ l) as [[i x]|] eqn:Hf; cbn [fst].
    + apply list_find_Some in Hf as (Hi & -> & Hbefore). pose proof (lookup_lt_Some _ _ _ Hi) as Hlt.
      assert (i < sl_len (sq_Members s))%nat as Hi'.
      { rewrite <- Hl in Hlt. unfold read in Hlt. rewrite length_take in Hlt. lia. }
      pose proof (cutAt_edited _ _ i Ha Hlen Hi') as He. rewrite Hl in He.
      destruct (cutAt (mg_heap m) (sq_Members s) i) as [h' sl]. cbn [fst snd] in *.
      eapply edit_isolated in He as (H1 & H2 & H3); [|done..]. split_and!; [exact H1|exact H3|].
      right. exists (take i l), (drop (S i) l). split_and!; [by rewrite take_drop_middle| |exact H2].
      intros [j Hj]%list_elem_of_lookup_1. apply lookup_take_Some in Hj as [Hj Hji]. by eapply Hbefore.
    + split_and!; [done|done|]. left. split; [|done]. intros Hp. apply list_find_None in Hf.
      rewrite Forall_forall in Hf. by apply (Hf p).
  - unfold Manager_Get. rewrite Hs. unfold copySquad, copySlice. simpl. rewrite Hl. eexists. split; [done|]. simpl.
    assert (forall k sk, mg_squads m !! k = Some sk -> <[fresh (dom (mg_heap m)) := l]> (mg_heap m) !! sl_arr (sq_Members sk) =
              mg_heap m !! sl_arr (sq_Members sk) /\ sl_arr (sq_Members sk) <> fresh (dom (mg_heap m))) as Hk.
    { intros k sk Hsk. destruct (sep_alloc _ Hsep k sk Hsk) as [Hx _]. pose proof (fresh_ne _ _ Hx).
      by rewrite lookup_insert_ne. }
    split_and!.
    + split; simpl; [|by apply sep_arr]. intros k sk Hsk. unfold cells. rewrite (proj1 (Hk k sk Hsk)). by apply (sep_alloc _ Hsep k).
    + unfold read, cells. simpl. rewrite lookup_insert_eq. simpl. apply take_ge. rewrite <- Hl. unfold read.
      rewrite length_take. lia.
    + intros k. unfold members. simpl. destruct (mg_squads m !! k) as [sk|] eqn:Ek; [|done]. simpl. f_equal.
      by apply read_ext, (Hk k).
    + intros k sk Hsk. by apply (Hk k).
Qed.

Lemma squad_members_isolated_witness :
  let h : Heap := {[ 0%nat := ["ann"; "bob"]; 1%nat := ["ann"] ]} in
  let m := mkManager h {[ "x" := sample_squad "x" SquadTypeStream (mkSlice 0 2); "y" := sample_squad "y" SquadTypeStream (mkSlice 1 1) ]} in
  separate m /\ members (AddMember 0 5 m "x" "cid").1 "x" = Some ["ann"; "bob"; "cid"].
Proof.
  intros h m.
  assert (forall id s, mg_squads m !! id = Some s ->
            (id = "x" /\ s = sample_squad "x" SquadTypeStream (mkSlice 0 2)) \/
            (id = "y" /\ s = sample_squad "y" SquadTypeStream (mkSlice 1 1))) as Hm.
  { intros id s H. simpl in H. apply lookup_insert_Some in H as [[<- <-]|[Hne H]]; [by left|].
    apply lookup_singleton_Some in H as [<- <-]. by right. }
  assert (separate m) as Hsep.
  { split.
    - intros id s [[-> ->]|[-> ->]]%Hm; (split; [by eexists|vm_compute; lia]).
    - intros i j si sj [[-> ->]|[-> ->]]%Hm [[-> ->]|[-> ->]]%Hm Hij; done. }
  split; [exact Hsep|].
  destruct (squad_members_isolated 0 5 m "x" "cid" ["ann"; "bob"] Hsep) as [(_ & H & _) _]; [by vm_compute|exact H].
Defined.

(** Two squads created from one slice of members: removing a member of the first
    leaves a wrong, repeated member in the second. *)
Example shared_slice_corrupts :
  let h : Heap := {[ 0%nat := ["ann"; "bob"; "cid"] ]} in
  let m1 := (Manager_Create 1 (NewManager h) (sample_squad "x" SquadTypeStream (mkSlice 0 3))).1 in
  let m2 := (Manager_Create 2 m1 (sample_squad "y" SquadTypeStream (mkSlice 0 3))).1 in
  let m3 := (RemoveMember 3 m2 "x" "ann").1 in
  members m3 "x" = Some ["bob"; "cid"] /\ members m3 "y" = Some ["bob"; "cid"; "cid"] /\ IsMember m3 "y" "ann" = false.
Proof. by vm_compute. Qed.

(** ** Contracts *)

Record SLA : Type := mkSLA { sla_MaxLatency : Z; sla_Availability : Q }.

(** The schemas are never read: they are kept as text. *)
Record Contract : Type := mkContract {
  ct_ID : string;
  ct_ProviderSquad : string;
  ct_ConsumerSquad : string;
  ct_Mode : InteractionMode;
  ct_Version : string;
  ct_InputSchema : string;
  ct_OutputSchema : string;
  ct_SLA : SLA;
  ct_DeprecationWindow : Z;
  ct_Timebox : option Z;
  ct_ExitCondition : string;
  ct_CreatedAt : Z;
  ct_UpdatedAt : Z
}.

Inductive ContractErr : Type :=
  | ErrContractID | ErrProvider | ErrConsumer | ErrMode (m : InteractionMode) | ErrTimebox | ErrExit
  | ErrContractExists (id : string) | ErrContractNotFound (id : string).

Definition Contract_Validate (c : Contract) : Res ContractErr unit :=
  if decide (ct_ID c = "") then Err ErrContractID else
  if decide (ct_ProviderSquad c = "") then Err ErrProvider else
  if decide (ct_ConsumerSquad c = "") then Err ErrConsumer else
  if negb (InteractionMode_Validate (ct_Mode c)) then Err (ErrMode (ct_Mode c)) else
  if decide (ct_Mode c = ModeCollaboration /\ ct_Timebox c = None) then Err ErrTimebox else
  if decide (ct_Mode c = ModeFacilitating /\ ct_ExitCondition c = "") then Err ErrExit else Ok tt.

Definition set_contractTimes (c : Contract) (created updated : Z) : Contract :=
  mkContract (ct_ID c) (ct_ProviderSquad c) (ct_ConsumerSquad c) (ct_Mode c) (ct_Version c) (ct_InputSchema c)
    (ct_OutputSchema c) (ct_SLA c) (ct_DeprecationWindow c) (ct_Timebox c) (ct_ExitCondition c) created updated.

Abbreviation ContractStore := (gmap string Contract).

Definition ContractStore_Create (now : Z) (s : ContractStore) (c : Contract) : ContractStore * Res ContractErr unit :=
  match Contract_Validate c with
  | Err e => (s, Err e)
  | Ok _ =>
      match s !! ct_ID c with
      | Some _ => (s, Err (ErrContractExists (ct_ID c)))
      | None => (<[ct_ID c := set_contractTimes c now now]> s, Ok tt)
      end
  end.

Definition ContractStore_Get (s : ContractStore) (id : string) : Res ContractErr Contract :=
  match s !! id with Some c => Ok c | None => Err (ErrContractNotFound id) end.

(** [o]: the contracts in the order the map is ranged over. *)
Definition ListBySquad (o : list (string * Contract)) (squadID : string) : list Contract :=
  filter (fun c => ct_ProviderSquad c = squadID \/ ct_ConsumerSquad c = squadID) o.*2.

Definition ListAll (o : list (string * Contract)) : list Contract := o.*2.

Definition ContractStore_Update (now : Z) (s : ContractStore) (c : Contract) : ContractStore * Res ContractErr unit :=
  match Contract_Validate c with
  | Err e => (s, Err e)
  | Ok _ =>
      match s !! ct_ID c with
      | None => (s, Err (ErrContractNotFound (ct_ID c)))
      | Some existing => (<[ct_ID c := set_contractTimes c (ct_CreatedAt existing) now]> s, Ok tt)
      end
  end.

Definition ContractStore_Delete (s : ContractStore) (id : string) : ContractStore * Res ContractErr unit :=
  match s !! id with None => (s, Err (ErrContractNotFound id)) | Some _ => (delete id s, Ok tt) end.

(** ** Exit conditions, timeboxes, context loads *)

Record ExitCondition : Type := mkExit {
  ec_SquadID : string;
  ec_TargetSquad : string;
  ec_Criteria : string;
  ec_Deadline : Z;
  ec_HandoffArtifacts : list string;
  ec_CompletedAt : option Z;
  ec_CompletionNote : string
}.

(** [true]: valid. *)
Definition ExitCondition_Validate (e : ExitCondition) : bool :=
  bool_decide (ec_SquadID e <> "") && bool_decide (ec_TargetSquad e <> "") && bool_decide (ec_Criteria e <> "")
  && negb (IsZero (ec_Deadline e)).

Definition IsComplete (e : ExitCondition) : bool := bool_decide (is_Some (ec_CompletedAt e)).

Definition Complete (now : Z) (e : ExitCondition) (note : string) : ExitCondition :=
  mkExit (ec_SquadID e) (ec_TargetSquad e) (ec_Criteria e) (ec_Deadline e) (ec_HandoffArtifacts e) (Some now) note.

Definition IsOverdue (now : Z) (e : ExitCondition) : bool := After now (ec_Deadline e) && negb (IsComplete e).

Record Timebox : Type := mkTimebox {
  tb_ContractID : string;
  tb_StartedAt : Z;
  tb_Duration : Z;
  tb_GraduationTarget : InteractionMode;
  tb_Graduated : bool;
  tb_GraduatedAt : option Z
}.

Definition Timebox_Validate (t : Timebox) : bool :=
  bool_decide (tb_ContractID t <> "") && bool_decide (0 < tb_Duration t) && InteractionMode_Validate (tb_GraduationTarget t).

Definition Deadline (t : Timebox) : Z := tb_StartedAt t + tb_Duration t.
Definition IsExpired (now : Z) (t : Timebox) : bool := After now (Deadline t).
Definition IsActive (now : Z) (t : Timebox) : bool := negb (tb_Graduated t) && negb (IsExpired now t).
Definition Graduate (now : Z) (t : Timebox) : Timebox :=
  mkTimebox (tb_ContractID t) (tb_StartedAt t) (tb_Duration t) (tb_GraduationTarget t) true (Some now).
Definition Remaining (now : Z) (t : Timebox) : Z :=
  let d := Sub (Deadline t) now in if decide (d < 0) then 0 else d.

Record ContextLoad : Type := mkLoad {
  ld_SquadID : string;
  ld_ToolSchemas : Z;
  ld_DomainKnowledgeKB : Q;
  ld_InteractionProtos : Z;
  ld_SessionMemoryKB : Q
}.

Definition TotalKB (c : ContextLoad) : Q :=
  inject_Z (ld_ToolSchemas c) * 2 + ld_DomainKnowledgeKB c + inject_Z (ld_InteractionProtos c) * 1 + ld_SessionMemoryKB c.
Definition CoordinationKB (c : ContextLoad) : Q := inject_Z (ld_InteractionProtos c) * 1 + ld_SessionMemoryKB c.
Definition CoordinationRatio (c : ContextLoad) : Q :=
  if Qeq_bool (TotalKB c) 0 then 0 else CoordinationKB c / TotalKB c.
Definition IsWellScoped (c : ContextLoad) : bool := if Qlt_le_dec (CoordinationRatio c) (1 # 2) then true else false.

(** ** The checklist *)

(** A result, less its detail text. *)
Record CheckResult : Type := mkCheck { ck_Name : string; ck_Passed : bool }.

(** A loop that fails on the first offending element. *)
Definition checkNone {A} (name : string) (bad : A -> Prop) `{!forall a, Decision (bad a)} (l : list A) : CheckResult :=
  match list_find bad l with Some _ => mkCheck name false | None => mkCheck name true end.

Definition checkStreamIndependent (t : list Squad) : CheckResult :=
  checkNone "stream-independent" (fun s => sq_Type s = SquadTypeStream /\ sl_len (sq_Members s) = 0%nat) t.

Definition checkSubsystemInterfaceClean (t : list Squad) (cs : list Contract) : CheckResult :=
  checkNone "subsystem-interface-clean"
    (fun s => sq_Type s = SquadTypeSubsystem /\ list_find (fun c => ct_ProviderSquad c = sq_ID s /\ ct_Mode c = ModeXaaS) cs = None) t.

Definition checkEnablingExitDefined (t : list Squad) (es : list ExitCondition) : CheckResult :=
  checkNone "enabling-exit-defined"
    (fun s => sq_Type s = SquadTypeEnabling /\ list_find (fun e => ec_SquadID e = sq_ID s) es = None) t.

Definition checkPlatformGoldenPath (t : list Squad) : CheckResult :=
  checkNone "platform-golden-path" (fun s => sq_Type s = SquadTypePlatform /\ sq_GoldenPathDefined s = false) t.

Definition checkCollabTimeboxed (cs : list Contract) : CheckResult :=
  checkNone "collab-timeboxed" (fun c => ct_Mode c = ModeCollaboration /\ ct_Timebox c = None) cs.

Definition platformIDs (t : list Squad) : gset string :=
  foldl (fun ids s => if decide (sq_Type s = SquadTypePlatform) then {[ sq_ID s ]} ∪ ids else ids) ∅ t.

Definition checkNoPlatformInternals (t : list Squad) (cs : list Contract) : CheckResult :=
  checkNone "no-platform-internals" (fun c => ct_Mode c = ModeCollaboration /\ ct_ProviderSquad c ∈ platformIDs t) cs.

Definition checkRoutingTypeAware (t : list Squad) (cs : list Contract) : CheckResult :=
  mkCheck "routing-type-aware" (negb (bool_decide (1 < length t)%nat && bool_decide (cs = []))).

Definition checkTopologyFirst (ls : list ContextLoad) : CheckResult :=
  checkNone "topology-first" (fun l => IsWellScoped l = false) ls.

Definition ValidateTopology (t : list Squad) (cs : list Contract) (es : list ExitCondition) (ls : list ContextLoad)
  : list CheckResult :=
  [checkStreamIndependent t; checkSubsystemInterfaceClean t cs; checkEnablingExitDefined t es; checkPlatformGoldenPath t;
   checkCollabTimeboxed cs; checkNoPlatformInternals t cs; checkRoutingTypeAware t cs; checkTopologyFirst ls].

(** ** Evolution signals *)

Abbreviation EvolutionSignal := string.
Definition SignalStaleCollaboration : EvolutionSignal := "stale_collaboration".
Definition SignalStaleEnabling : EvolutionSignal := "stale_enabling".
Definition SignalNarrowInterface : EvolutionSignal := "narrow_interface".
Definition SignalInterfaceChurn : EvolutionSignal := "interface_churn".

Record EvolutionThresholds : Type := mkThresholds {
  th_MaxCollabCycles : Z;
  th_MaxEnableCycles : Z;
  th_MinSubsystemCalls : Z;
  th_MaxInterfaceChanges : Z
}.

Definition DefaultThresholds : EvolutionThresholds := mkThresholds 4 6 5 3.

Record EvolutionObservation : Type := mkObservation {
  ob_SquadID : string;
  ob_Signal : EvolutionSignal;
  ob_Value : Z;
  ob_Threshold : Z;
  ob_ObservedAt : Z;
  ob_RecommendedAction : string
}.

Definition observe (now : Z) (squadID : string) (signal : EvolutionSignal) (value threshold : Z) (action : string)
  : EvolutionObservation := mkObservation squadID signal value threshold now action.

Definition CheckCollaboration (now : Z) (t : EvolutionThresholds) (squadID : string) (cycles : Z) : option EvolutionObservation :=
  if decide (cycles > th_MaxCollabCycles t)
  then Some (observe now squadID SignalStaleCollaboration cycles (th_MaxCollabCycles t) "evaluate merge or graduate to x-as-a-service")
  else None.

Definition CheckEnabling (now : Z) (t : EvolutionThresholds) (squadID : string) (cycles : Z) : option EvolutionObservation :=
  if decide (cycles > th_MaxEnableCycles t)
  then Some (observe now squadID SignalStaleEnabling cycles (th_MaxEnableCycles t) "redefine exit condition and enforce")
  else None.

Definition CheckSubsystemCalls (now : Z) (t : EvolutionThresholds) (squadID : string) (callsPerTask : Z) : option EvolutionObservation :=
  if decide (callsPerTask > th_MinSubsystemCalls t)
  then Some (observe now squadID SignalNarrowInterface callsPerTask (th_MinSubsystemCalls t) "consider enriching subsystem output")
  else None.

Definition CheckInterfaceChurn (now : Z) (t : EvolutionThresholds) (squadID : string) (changes : Z) : option EvolutionObservation :=
  if decide (changes > th_MaxInterfaceChanges t)
  then Some (observe now squadID SignalInterfaceChurn changes (th_MaxInterfaceChanges t) "decouple versioning from internal evolution")
  else None.

(** ** What the checklist means *)

Lemma checkNone_passed {A} name (bad : A -> Prop) `{!forall a, Decision (bad a)} l :
  ck_Passed (checkNone name bad l) = true <-> forall a, a ∈ l -> ~ bad a.
Proof.
  unfold checkNone. rewrite <- Forall_forall. destruct (list_find bad l) as [[i a]|] eqn:E; simpl.
  - split; [done|]. intros Hall. apply list_find_Some in E as (Hi & Ha & _). rewrite Forall_forall in Hall.
    destruct (Hall a); [by eapply list_elem_of_lookup_2|done].
  - apply list_find_None in E. done.
Qed.

Lemma find_Some_iff {A} (P : A -> Prop) `{!forall a, Decision (P a)} (l : list A) :
  list_find P l <> None <-> exists a, a ∈ l /\ P a.
Proof.
  destruct (list_find P l) as [[i a]|] eqn:E.
  - split; [|done]. intros _. apply list_find_Some in E as (Hi & Ha & _). exists a.
    split; [by eapply list_elem_of_lookup_2|done].
  - split; [done|]. intros (a & Hin & Ha). apply list_find_None in E. rewrite Forall_forall in E. by destruct (E a).
Qed.

Lemma platformIDs_elem t x : x ∈ platformIDs t <-> exists s, s ∈ t /\ sq_Type s = SquadTypePlatform /\ sq_ID s = x.
Proof.
  unfold platformIDs. induction t as [|s t IH] using rev_ind.
  { simpl. rewrite elem_of_empty. split; [done|]. by intros (? & ?%elem_of_nil & _). }
  rewrite foldl_app. simpl. setoid_rewrite elem_of_app. setoid_rewrite list_elem_of_singleton.
  case_decide; rewrite ?elem_of_union, ?elem_of_singleton, IH; naive_solver.
Qed.

(** A load is well scoped when coordination takes less than half of the context. *)
Lemma IsWellScoped_iff c :
  (0 <= inject_Z (ld_ToolSchemas c))%Q -> (0 <= ld_DomainKnowledgeKB c)%Q -> (0 <= inject_Z (ld_InteractionProtos c))%Q ->
  (0 <= ld_SessionMemoryKB c)%Q ->
  IsWellScoped c = true <->
  (TotalKB c == 0)%Q \/ (CoordinationKB c < inject_Z (ld_ToolSchemas c) * 2 + ld_DomainKnowledgeKB c)%Q.
Proof.
  intros H1 H2 H3 H4. unfold IsWellScoped, CoordinationRatio. destruct (Qeq_bool (TotalKB c) 0) eqn:E.
  - apply Qeq_bool_iff in E. destruct (Qlt_le_dec 0 (1 # 2)) as [|H]; [tauto|]. by apply Qle_not_lt in H.
  - assert (~ (TotalKB c == 0)%Q) as Hne by (intros H%Qeq_bool_iff; congruence).
    assert (0 < TotalKB c)%Q as Hpos.
    { apply Qnot_le_lt. intros Hle. apply Hne. unfold TotalKB in *. lra. }
    assert (forall q, (CoordinationKB c / TotalKB c == q)%Q -> (CoordinationKB c == q * TotalKB c)%Q) as Hq.
    { intros q <-. field. done. }
    specialize (Hq _ (Qeq_refl _)). set (r := (CoordinationKB c / TotalKB c)%Q) in *.
    assert (TotalKB c == inject_Z (ld_ToolSchemas c) * 2 + ld_DomainKnowledgeKB c + CoordinationKB c)%Q as Ht
      by (unfold TotalKB, CoordinationKB; lra).
    destruct (Qlt_le_dec r (1 # 2)) as [Hlt|Hge].
    + split; [|done]. intros _. right.
      assert (r * TotalKB c < (1 # 2) * TotalKB c)%Q by (by apply Qmult_lt_r). lra.
    + split; [done|]. intros [?|Hc]; [done|].
      assert ((1 # 2) * TotalKB c <= r * TotalKB c)%Q by (apply Qmult_le_compat_r; [done|lra]). lra.
Qed.

(** What a passed checklist means.  Each of the eight items passes exactly when
    the property it stands for holds of the topology: every stream squad has
    members; every subsystem provides an x-as-a-service contract; every enabling
    squad has an exit condition; every platform has a golden path; every
    collaboration is timeboxed; no platform is the provider of a collaboration; two
    or more squads have a contract; and no load spends half of its context or more
    on coordination. *)
Theorem topology_checklist (t : list Squad) (cs : list Contract) (es : list ExitCondition) (ls : list ContextLoad) :
  exists b1 b2 b3 b4 b5 b6 b7 b8,
    ck_Passed <$> ValidateTopology t cs es ls = [b1; b2; b3; b4; b5; b6; b7; b8] /\
    (b1 = true <-> forall s, s ∈ t -> sq_Type s = SquadTypeStream -> sl_len (sq_Members s) <> 0%nat) /\
    (b2 = true <-> forall s, s ∈ t -> sq_Type s = SquadTypeSubsystem ->
       exists c, c ∈ cs /\ ct_ProviderSquad c = sq_ID s /\ ct_Mode c = ModeXaaS) /\
    (b3 = true <-> forall s, s ∈ t -> sq_Type s = SquadTypeEnabling -> exists e, e ∈ es /\ ec_SquadID e = sq_ID s) /\
    (b4 = true <-> forall s, s ∈ t -> sq_Type s = SquadTypePlatform -> sq_GoldenPathDefined s = true) /\
    (b5 = true <-> forall c, c ∈ cs -> ct_Mode c = ModeCollaboration -> is_Some (ct_Timebox c)) /\
    (b6 = true <-> forall c s, c ∈ cs -> s ∈ t -> sq_Type s = SquadTypePlatform -> ct_ProviderSquad c = sq_ID s ->
       ct_Mode c <> ModeCollaboration) /\
    (b7 = true <-> (length t <= 1)%nat \/ cs <> []) /\
    (b8 = true <-> forall l, l ∈ ls -> (CoordinationRatio l < 1 # 2)%Q).
Proof.
  eexists _, _, _, _, _, _, _, _. split; [done|]. split_and!.
  - unfold checkStreamIndependent. rewrite checkNone_passed. naive_solver.
  - unfold checkSubsystemInterfaceClean. rewrite checkNone_passed. split.
    + intros H s Hs Ht. apply (find_Some_iff (fun c => ct_ProviderSquad c = sq_ID s /\ ct_Mode c = ModeXaaS) cs). intros E. by apply (H s Hs).
    + intros H s Hs [Ht E]. by apply (find_Some_iff (fun c => ct_ProviderSquad c = sq_ID s /\ ct_Mode c = ModeXaaS) cs) in E; [|apply H].
  - unfold checkEnablingExitDefined. rewrite checkNone_passed. split.
    + intros H s Hs Ht. apply (find_Some_iff (fun e => ec_SquadID e = sq_ID s) es). intros E. by apply (H s Hs).
    + intros H s Hs [Ht E]. by apply (find_Some_iff (fun e => ec_SquadID e = sq_ID s) es) in E; [|apply H].
  - unfold checkPlatformGoldenPath. rewrite checkNone_passed. split.
    + intros H s Hs Ht. destruct (sq_GoldenPathDefined s) eqn:E; [done|]. by destruct (H s Hs).
    + intros H s Hs [Ht E]. rewrite H in E; done.
  - unfold checkCollabTimeboxed. rewrite checkNone_passed. split.
    + intros H c Hc Hm. destruct (ct_Timebox c) eqn:E; [by eexists|]. by destruct (H c Hc).
    + intros H c Hc [Hm E]. destruct (H c Hc Hm) as [? ?]. congruence.
  - unfold checkNoPlatformInternals. rewrite checkNone_passed. setoid_rewrite platformIDs_elem. naive_solver.
  - simpl. rewrite negb_true_iff, andb_false_iff, !bool_decide_eq_false. split; [intros [?|?]; [left; lia|by right]|].
    intros [?|?]; [left; lia|by right].
  - unfold checkTopologyFirst. rewrite checkNone_passed. unfold IsWellScoped. split.
    + intros H l Hl. specialize (H l Hl). by destruct (Qlt_le_dec _ _).
    + intros H l Hl E. specialize (H l Hl). destruct (Qlt_le_dec _ _) as [|Hge]; [done|]. by apply Qle_not_lt in Hge.
Qed.

(** ** The contracts of the store *)

Inductive CtOp : Type := CtCreate (now : Z) (c : Contract) | CtUpdate (now : Z) (c : Contract) | CtDelete (id : string).

Definition ct_step (s : ContractStore) (op : CtOp) : ContractStore :=
  match op with
  | CtCreate now c => (ContractStore_Create now s c).1
  | CtUpdate now c => (ContractStore_Update now s c).1
  | CtDelete id => (ContractStore_Delete s id).1
  end.

Definition contracts_ok (s : ContractStore) : Prop :=
  forall id c, s !! id = Some c -> ct_ID c = id /\ Contract_Validate c = Ok tt.

Lemma contracts_insert s c created updated :
  contracts_ok s -> Contract_Validate c = Ok tt -> contracts_ok (<[ct_ID c := set_contractTimes c created updated]> s).
Proof.
  intros Hs Hc id x. destruct (decide (id = ct_ID c)) as [->|Hne].
  - rewrite lookup_insert_eq. intros [= <-]. by split.
  - rewrite lookup_insert_ne by done. apply Hs.
Qed.

Lemma ct_step_ok s op : contracts_ok s -> contracts_ok (ct_step s op).
Proof.
  intros Hs. destruct op as [now c|now c|id]; simpl.
  - unfold ContractStore_Create. destruct (Contract_Validate c) as [[]|] eqn:Hc; [|done].
    destruct (s !! ct_ID c); [done|]. by apply contracts_insert.
  - unfold ContractStore_Update. destruct (Contract_Validate c) as [[]|] eqn:Hc; [|done].
    destruct (s !! ct_ID c); [|done]. by apply contracts_insert.
  - unfold ContractStore_Delete. destruct (s !! id); [|done]. intros k x. simpl.
    rewrite lookup_delete_Some. intros [_ ?]. by apply Hs.
Qed.

(** The store holds valid contracts only.  After any run of creations, updates
    and deletions, every contract is stored under its id and is valid, so that the
    collaborations among them pass the checklist; the contracts listed for a squad
    are exactly those that [Get] returns with the squad on one side. *)
Theorem contracts_valid (ops : list CtOp) (o : list (string * Contract)) :
  let s := foldl ct_step ∅ ops in
  ranges o s ->
  contracts_ok s /\ ck_Passed (checkCollabTimeboxed (ListAll o)) = true /\
  (forall sq c, c ∈ ListBySquad o sq <->
     ContractStore_Get s (ct_ID c) = Ok c /\ (ct_ProviderSquad c = sq \/ ct_ConsumerSquad c = sq)).
Proof.
  intros s Ho. assert (contracts_ok s) as Hs.
  { unfold s. assert (contracts_ok ∅) as H0 by (by intros id c). revert H0. generalize (∅ : ContractStore).
    clear. induction ops as [|op ops IH]; intros s Hs; [done|]. by apply IH, ct_step_ok. }
  assert (forall c, c ∈ o.*2 <-> s !! ct_ID c = Some c) as Hin.
  { intros c. rewrite list_elem_of_fmap. split.
    - intros ([id x] & -> & Hx). apply (ranges_elem _ _ _ _ Ho) in Hx. simpl. by destruct (Hs id x Hx) as [-> _].
    - intros Hc. exists (ct_ID c, c). split; [done|]. by apply (ranges_elem _ _ _ _ Ho). }
  split_and!; [done| |].
  - unfold checkCollabTimeboxed. apply checkNone_passed. intros c Hc%Hin [Hm Ht].
    destruct (Hs _ _ Hc) as [_ Hv]. unfold Contract_Validate in Hv.
    repeat (case_decide; [done|]). case_match; [done|]. by destruct (decide (ct_Mode c = ModeCollaboration /\ ct_Timebox c = None)); [|tauto].
  - intros sq c. unfold ListBySquad, ContractStore_Get. rewrite list_elem_of_filter, Hin.
    destruct (s !! ct_ID c); naive_solver.
Qed.

Lemma contracts_valid_witness :
  let c t := mkContract "c1" "platform" "web" ModeCollaboration "1" "" "" (mkSLA 0 0) 0 t "" 0 0 in
  let ops := [CtCreate 1 (c None); CtCreate 2 (c (Some 5)); CtUpdate 3 (c None)] in
  let s := foldl ct_step ∅ ops in
  contracts_ok s /\ (ct_Timebox <$> s !! "c1") = Some (Some 5).
Proof.
  intros c ops s. split; [|by vm_compute].
  apply (contracts_valid ops (map_to_list s)). by unfold ranges.
Defined.
