(* ===== verification/GoValue.v ===== *)
(** * Decimal numbers, float64 and values of type any

    What the source uses of strconv, of the conversions between float64 and int64, and
    of the values that [encoding/json] leaves in an [any]: [nil], booleans, numbers as
    float64, strings, slices and string maps, together with the integers the code itself
    puts there.  A map is the list of its entries; [mget] and [mset] are [m[k]] and
    [m[k] = v]. *)

From Stdlib Require Import ZArith Lia String Ascii SpecFloat.
From stdpp Require Import base option list strings pretty sorting.
From S2P Require Import Prelude Text.

#[local] Open Scope Z_scope.

(** ** strconv *)

Inductive NumError : Type := ErrSyntax | ErrRange.

#[global] Instance NumError_eq_dec : EqDecision NumError.
Proof. solve_decision. Defined.

Definition max_uint64 : Z := 2 ^ 64 - 1.

Definition digitVal (c : ascii) : option Z :=
  if decide (48 <= N_of_ascii c <= 57)%N then Some (Z.of_N (N_of_ascii c) - 48) else None.

(** The loop of [ParseUint] in base 10: a value that leaves the range ends it before the
    bytes behind it are looked at. *)
Fixpoint parseUint (l : list ascii) (n : Z) : Z * option NumError :=
  match l with
  | [] => (n, None)
  | c :: l =>
      match digitVal c with
      | None => (0, Some ErrSyntax)
      | Some d =>
          if decide (max_uint64 / 10 + 1 <= n) then (max_uint64, Some ErrRange)
          else if decide (max_uint64 < n * 10 + d) then (max_uint64, Some ErrRange)
          else parseUint l (n * 10 + d)
      end
  end.

Definition ParseUint (l : list ascii) : Z * option NumError :=
  match l with [] => (0, Some ErrSyntax) | _ => parseUint l 0 end.

(** The sign and the range of [ParseInt(s, 10, 64)] on what [ParseUint] read. *)
Definition signed (neg : bool) (u : Z * option NumError) : Z * option NumError :=
  match u with
  | (_, Some ErrSyntax) => (0, Some ErrSyntax)
  | (un, _) =>
      if negb neg && bool_decide (2 ^ 63 <= un) then (2 ^ 63 - 1, Some ErrRange)
      else if neg && bool_decide (2 ^ 63 < un) then (- 2 ^ 63, Some ErrRange)
      else (if neg then - un else un, None)
  end.

Definition ParseInt (s : string) : Z * option NumError :=
  match chars s with
  | c :: l =>
      if decide (c = "+"%char) then signed false (ParseUint l)
      else if decide (c = "-"%char) then signed true (ParseUint l)
      else signed false (ParseUint (c :: l))
  | [] => (0, Some ErrSyntax)
  end.

Definition FormatInt (z : Z) : string := pretty z.

(** ** float64 *)

Abbreviation float64 := spec_float.

(** The truncated value of a finite number. *)
Definition trunc (f : float64) : option Z :=
  match f with
  | S754_zero _ => Some 0
  | S754_finite s m e =>
      let a := if decide (0 <= e) then Z.pos m * 2 ^ e else Z.pos m / 2 ^ (- e) in
      Some (if s then - a else a)
  | _ => None
  end.

(** What a platform decides: the text of a number that is not an integer, in the notation
    of [%f] and of [%v], and the conversion of numbers beyond int64. *)
Class Float64 : Type := {
  shortest_f : float64 -> string;
  shortest_g : float64 -> string;
  wide : float64 -> Z
}.

Definition int64_in (z : Z) : bool := bool_decide (min_int64 <= z <= max_int64).

(** [int64(f)] and [float64(z)]. *)
Definition ftoi `{!Float64} (f : float64) : Z :=
  match trunc f with
  | Some z => if int64_in z then z else wide f
  | None => wide f
  end.

Definition itof (z : Z) : float64 := binary_normalize 53 1024 z 0 false.

(** ** Values *)

Inductive any : Type :=
  | ANil
  | ABool (b : bool)
  | AFloat (f : float64)
  | AInt (z : Z)
  | AStr (s : string)
  | AList (l : list any)
  | AMap (m : list (string * any)).

Abbreviation amap := (list (string * any)).

Fixpoint mget (m : amap) (k : string) : option any :=
  match m with
  | [] => None
  | (k', v) :: m => if decide (k' = k) then Some v else mget m k
  end.

Fixpoint mset (m : amap) (k : string) (v : any) : amap :=
  match m with
  | [] => [(k, v)]
  | (k', v') :: m => if decide (k' = k) then (k, v) :: m else (k', v') :: mset m k v
  end.

(** [fmt.Sprintf("%v", v)]: maps print in the order of their keys. *)
Definition joinWords (ws : list string) : string := unchars (joinOn " "%char (map chars ws)).

Definition key_le (a b : string * string) : Prop := str_le a.1 b.1.
#[global] Instance key_le_dec a b : Decision (key_le a b).
Proof. unfold key_le, str_le. apply _. Defined.

Fixpoint Sprint `{!Float64} (v : any) : string :=
  match v with
  | ANil => "<nil>"
  | ABool b => if b then "true" else "false"
  | AFloat f => shortest_g f
  | AInt z => FormatInt z
  | AStr s => s
  | AList l => "[" +:+ joinWords (map Sprint l) +:+ "]"
  | AMap m =>
      "map[" +:+ joinWords (map (fun p => p.1 +:+ ":" +:+ p.2)
        (merge_sort key_le (map (fun p => (p.1, Sprint p.2)) m))) +:+ "]"
  end.

(** ** Laws *)

Lemma digitVal_pretty (x : N) : (x < 10)%N -> digitVal (pretty_N_char x) = Some (Z.of_N x).
Proof.
  intros H. assert (x ∈ [0; 1; 2; 3; 4; 5; 6; 7; 8; 9]%N) as Hx.
  { rewrite !elem_of_cons. lia. }
  repeat (apply elem_of_cons in Hx as [->|Hx]; [reflexivity|]). by apply elem_of_nil in Hx.
Qed.

(** Reading the digits of [x] leaves [x] and goes on behind them. *)
Lemma parseUint_go (x : N) : forall s, (0 < x)%N -> Z.of_N x <= max_uint64 ->
  parseUint (chars (pretty_N_go x s)) 0 = parseUint (chars s) (Z.of_N x).
Proof.
  induction (N.lt_wf_0 x) as [x _ IH]. intros s Hx Hmax. rewrite pretty_N_go_step by done.
  pose proof (N.div_lt x 10 Hx eq_refl) as Hlt. pose proof (N.mod_lt x 10 ltac:(done)) as Hm.
  pose proof (N.div_mod x 10 ltac:(done)) as Hdiv.
  set (q := (x / 10)%N) in *. set (r := (x mod 10)%N) in *. unfold max_uint64 in *.
  assert (Z.of_N x = Z.of_N q * 10 + Z.of_N r) as HZ by lia.
  destruct (decide (q = 0)%N) as [E|E].
  - rewrite E, pretty_N_go_0. cbn [chars parseUint list_ascii_of_string]. rewrite digitVal_pretty by done.
    unfold max_uint64. change ((2 ^ 64 - 1) / 10 + 1) with 1844674407370955162. repeat (case_decide; [lia|]). f_equal. lia.
  - rewrite IH by lia. cbn [chars parseUint list_ascii_of_string]. rewrite digitVal_pretty by done.
    unfold max_uint64. change ((2 ^ 64 - 1) / 10 + 1) with 1844674407370955162. repeat (case_decide; [lia|]). by rewrite HZ.
Qed.

Lemma pretty_N_nonempty (x : N) : exists c l, chars (pretty x) = c :: l /\ digitVal c <> None.
Proof.
  destruct (decide (x = 0)%N) as [->|Hx]; [by exists "0"%char, []|].
  unfold pretty, pretty_N. rewrite decide_False by done.
  assert (forall y s, (0 < y)%N -> exists c l, chars (pretty_N_go y s) = c :: l /\ digitVal c <> None) as H.
  { intros y. induction (N.lt_wf_0 y) as [y _ IH]. intros s Hy. rewrite pretty_N_go_step by done.
    destruct (decide (y / 10 = 0)%N) as [E|E].
    - rewrite E, pretty_N_go_0. eexists _, _. split; [done|]. by rewrite digitVal_pretty by (apply N.mod_lt; lia).
    - apply IH; [by apply N.div_lt|]. revert E. generalize (y / 10)%N. lia. }
  apply H. lia.
Qed.

Lemma ParseUint_pretty (x : N) : Z.of_N x <= max_uint64 -> ParseUint (chars (pretty x)) = (Z.of_N x, None).
Proof.
  intros Hx. destruct (pretty_N_nonempty x) as (c & l & E & _). unfold ParseUint. rewrite E, <- E.
  destruct (decide (x = 0)%N) as [->|H0]; [done|].
  unfold pretty, pretty_N. rewrite decide_False by done. by rewrite parseUint_go by lia.
Qed.

(** Formatting an int64 and parsing it again gives it back. *)
Lemma ParseInt_FormatInt z : int64_range z -> ParseInt (FormatInt z) = (z, None).
Proof.
  unfold int64_range, min_int64, max_int64. intros Hz. unfold FormatInt, ParseInt.
  destruct z as [|p|p]; [done| |].
  - change (pretty (Z.pos p)) with (pretty (N.pos p)). destruct (pretty_N_nonempty (N.pos p)) as (c & l & E & Hc).
    pose proof (ParseUint_pretty (N.pos p)) as HU. rewrite E in *.
    rewrite !decide_False by (intros ->; by destruct Hc). rewrite HU by (unfold max_uint64; lia). simpl.
    by rewrite bool_decide_false by lia.
  - change (pretty (Z.neg p)) with ("-" +:+ pretty (N.pos p)). rewrite chars_app. simpl.
    rewrite ParseUint_pretty by (unfold max_uint64; lia). simpl. by rewrite bool_decide_false by lia.
Qed.

Lemma ParseInt_range s : int64_range (ParseInt s).1.
Proof.
  assert (forall l n, 0 <= n -> 0 <= (parseUint l n).1) as Hl.
  { induction l as [|c l IH]; intros n Hn; simpl; [done|]. unfold digitVal. case_decide as Hd; [|done].
    repeat (case_decide; [done|]). apply IH. lia. }
  assert (forall l, 0 <= (ParseUint l).1) as HU by (intros [|c l]; [done|apply (Hl (c :: l)); lia]).
  assert (forall b u, 0 <= u.1 -> int64_range (signed b u).1) as Hs.
  { intros b [un [[]|]] H; unfold int64_range, min_int64, max_int64; simpl in *;
      destruct b; simpl; repeat case_bool_decide; simpl; lia. }
  unfold ParseInt. destruct (chars s) as [|c l]; [unfold int64_range, min_int64, max_int64; simpl; lia|].
  repeat case_decide; apply Hs, HU.
Qed.

Lemma FormatInt_nonempty z : FormatInt z <> "".
Proof.
  unfold FormatInt. destruct z as [|p|p]; [done| |done].
  change (pretty (Z.pos p)) with (pretty (N.pos p)). destruct (pretty_N_nonempty (N.pos p)) as (c & l & E & _).
  by intros H%chars_nil; rewrite H in E.
Qed.

Lemma mget_mset m k v k' : mget (mset m k v) k' = if decide (k = k') then Some v else mget m k'.
Proof.
  induction m as [|[k1 v1] m IH]; cbn [mget mset]; [done|].
  destruct (decide (k1 = k)) as [->|E1]; cbn [mget]; [by destruct (decide (k = k'))|].
  rewrite IH. destruct (decide (k1 = k')) as [->|E2]; [|done]. by rewrite decide_False.
Qed.

Lemma itof_integers :
  forall z, z ∈ [0; 1; -1; 42; 2 ^ 53; - 2 ^ 63; 1234567890123] -> trunc (itof z) = Some z.
Proof.
  intros z Hz. repeat (apply elem_of_cons in Hz as [->|Hz]; [reflexivity|]). by apply elem_of_nil in Hz.
Qed.
