(* ===== verification/MsgTypes.v ===== *)
(** * Messages and their identity

    types.go of src/internal/core/messenger: the unified message, the conversation and
    session it belongs to, the targets of channel mappings and the links between profiles
    and messengers.

    The keys of conversations and sessions are colon-separated lists of escaped parts; the
    theorems say which messages share a key. *)

From Stdlib Require Import ZArith Lia String Ascii.
From stdpp Require Import base option list gmap strings.
From S2P Require Import Prelude Text GoValue.

#[local] Open Scope Z_scope.

(** ** net/url: QueryEscape *)

Definition upperHex (n : N) : ascii := ascii_of_N (if decide (n < 10)%N then 48 + n else 55 + n)%N.

Definition unreserved (c : ascii) : bool :=
  let n := N_of_ascii c in
  bool_decide ((48 <= n <= 57) \/ (65 <= n <= 90) \/ (97 <= n <= 122))%N
  || bool_decide (c ∈ ["-"%char; "_"%char; "."%char; "~"%char]).

Definition escapeChar (c : ascii) : list ascii :=
  if unreserved c then [c]
  else if decide (c = " "%char) then ["+"%char]
  else ["%"%char; upperHex (N_of_ascii c / 16); upperHex (N_of_ascii c mod 16)].

Definition QueryEscape (s : string) : string := unchars (concat (map escapeChar (chars s))).

(** ** Data *)

Record Sender : Type := mkSender {
  sn_ID : string;
  sn_Name : string;
  sn_PlatformHandle : string;
  sn_PlatformID : string
}.

Record Channel : Type := mkChannel {
  cn_ID : string;
  cn_Name : string;
  cn_Type : string;
  cn_PlatformID : string
}.

Record Thread : Type := mkThread { th_ID : string; th_Type : string }.

Record Reaction : Type := mkReaction { rc_Emoji : string; rc_Count : Z }.

Record Attachment : Type := mkAttachment {
  at_Type : string;
  at_URL : string;
  at_MimeType : string;
  at_SizeBytes : Z
}.

Record NormalizedMessage : Type := mkMessage {
  nm_ID : string;
  nm_Timestamp : Z;
  nm_Platform : string;
  nm_WorkspaceID : string;
  nm_ProfileID : string;
  nm_Sender : Sender;
  nm_Channel : Channel;
  nm_Text : string;
  nm_Thread : option Thread;
  nm_Reactions : list Reaction;
  nm_Attachments : list Attachment;
  nm_PlatformMetadata : option amap
}.

Record ConversationState : Type := mkConvState {
  cv_ServiceID : string;
  cv_Platform : string;
  cv_WorkspaceID : string;
  cv_ChannelID : string;
  cv_ChannelType : string;
  cv_SenderID : string;
  cv_ThreadID : string;
  cv_ThreadType : string;
  cv_Scope : string;
  cv_ConversationID : string;
  cv_SessionID : string
}.

Definition PlatformTelegram : string := "telegram".
Definition PlatformSlack : string := "slack".
Definition PlatformDiscord : string := "discord".
Definition PlatformGitHub : string := "github".
Definition PlatformEmail : string := "email".
Definition PlatformSMS : string := "sms".
Definition PlatformWhatsApp : string := "whatsapp".

Definition ChannelTypeDirect : string := "direct".
Definition ConversationScopeChannel : string := "channel".
Definition ConversationScopeDirect : string := "direct".
Definition ConversationScopeThread : string := "thread".

(** ** Validation *)

Inductive MsgErr : Type :=
  | MessageIDRequired | PlatformRequired | SenderIDRequired | ChannelIDRequired.

Definition NormalizedMessage_Validate (m : NormalizedMessage) : Res MsgErr unit :=
  if decide (nm_ID m = "") then Err MessageIDRequired
  else if decide (nm_Platform m = "") then Err PlatformRequired
  else if decide (sn_ID (nm_Sender m) = "") then Err SenderIDRequired
  else if decide (cn_ID (nm_Channel m) = "") then Err ChannelIDRequired
  else Ok tt.

(** A slice of negative length panics. *)
Definition TextPreview (m : NormalizedMessage) (maxLen : Z) : option string :=
  if decide (Z.of_nat (String.length (nm_Text m)) <= maxLen) then Some (nm_Text m)
  else if decide (maxLen < 0) then None
  else Some (unchars (take (Z.to_nat maxLen) (chars (nm_Text m))) +:+ "...").

(** ** Conversations *)

Fixpoint firstNonEmptyString (values : list string) : string :=
  match values with
  | [] => ""
  | v :: values => if decide (v = "") then firstNonEmptyString values else v
  end.

Fixpoint serviceIdentityLoop (meta : amap) (keys : list string) : string :=
  match keys with
  | [] => ""
  | key :: keys =>
      match mget meta key with
      | Some (AStr value) => if decide (value = "") then serviceIdentityLoop meta keys else value
      | _ => serviceIdentityLoop meta keys
      end
  end.

Definition serviceIdentity (m : NormalizedMessage) : string :=
  match nm_PlatformMetadata m with
  | None => ""
  | Some meta => serviceIdentityLoop meta ["service_id"; "messenger_name"]
  end.

Definition isDirectConversation (m : NormalizedMessage) : bool :=
  if decide (cn_Type (nm_Channel m) = ChannelTypeDirect) then true
  else bool_decide (nm_Platform m = PlatformSMS \/ nm_Platform m = PlatformWhatsApp).

Definition encodePart (part : string) : string := if decide (part = "") then "_" else QueryEscape part.

Definition stableMessageKey (prefix : string) (parts : list string) : string :=
  Join ":" (prefix :: map encodePart parts).

(** The parts of a conversation key, and the part that a thread adds. *)
Definition conversationParts (m : NormalizedMessage) : list string :=
  ["service"; firstNonEmptyString [serviceIdentity m; nm_Platform m]; "platform"; nm_Platform m]
  ++ (if decide (nm_WorkspaceID m = "") then [] else ["workspace"; nm_WorkspaceID m])
  ++ ["channel"; cn_ID (nm_Channel m)]
  ++ (if isDirectConversation m && bool_decide (sn_ID (nm_Sender m) <> "") then ["sender"; sn_ID (nm_Sender m)] else []).

Definition messageThread (m : NormalizedMessage) : option Thread :=
  match nm_Thread m with
  | Some t => if decide (th_ID t = "") then None else Some t
  | None => None
  end.

Definition ConversationState_of (m : NormalizedMessage) : ConversationState :=
  let scope := if isDirectConversation m then ConversationScopeDirect else ConversationScopeChannel in
  let '(threadID, threadType, scope, sessionParts) :=
    match messageThread m with
    | Some t => (th_ID t, th_Type t, ConversationScopeThread, conversationParts m ++ ["thread"; th_ID t])
    | None => ("", "", scope, conversationParts m)
    end in
  mkConvState (serviceIdentity m) (nm_Platform m) (nm_WorkspaceID m) (cn_ID (nm_Channel m)) (cn_Type (nm_Channel m))
    (sn_ID (nm_Sender m)) threadID threadType scope
    (stableMessageKey "msgconv:v1" (conversationParts m)) (stableMessageKey "msgsess:v1" sessionParts).

Definition NormalizedMessage_ConversationState (m : option NormalizedMessage) : ConversationState :=
  match m with
  | None => mkConvState "" "" "" "" "" "" "" "" "" "" ""
  | Some m => ConversationState_of m
  end.

Definition SessionThreadID (m : option NormalizedMessage) : string :=
  cv_SessionID (NormalizedMessage_ConversationState m).

(** ** Target actions *)

Record TargetAction : Type := mkTarget { ta_ProfileID : string; ta_ActionName : string }.

Inductive MappingErr : Type := InvalidMapping (mapping : string) (sep : ascii).

Definition ParseTargetAction (mapping : string) : Res MappingErr TargetAction :=
  let sep := if negb (Contains mapping "=") && Contains mapping ":" then ":"%char else "="%char in
  match Cut mapping sep with
  | (p, a, true) => if decide (p = "" \/ a = "") then Err (InvalidMapping mapping sep) else Ok (mkTarget p a)
  | (_, _, false) => Err (InvalidMapping mapping sep)
  end.

Definition TargetAction_String (t : TargetAction) : string := ta_ProfileID t +:+ "=" +:+ ta_ActionName t.

(** ** Links *)

Record ProfileMessengerLink : Type := mkLink {
  lk_ProfileID : string;
  lk_MessengerName : string;
  lk_MessengerScope : string;
  lk_Enabled : bool;
  lk_Mappings : gmap string string;
  lk_DefaultAction : string;
  lk_CreatedAt : Z;
  lk_UpdatedAt : Z
}.

Inductive LinkErr : Type := ProfileIDRequired | MessengerNameRequired.

Definition ProfileMessengerLink_Validate (l : ProfileMessengerLink) : Res LinkErr unit :=
  if decide (lk_ProfileID l = "") then Err ProfileIDRequired
  else if decide (lk_MessengerName l = "") then Err MessengerNameRequired
  else Ok tt.

Definition GetActionForChannel (l : ProfileMessengerLink) (channelID : string) : string * bool :=
  match lk_Mappings l !! channelID with
  | Some action => (action, true)
  | None => if decide (lk_DefaultAction l = "") then ("", false) else (lk_DefaultAction l, true)
  end.

(** ** Escaping is injective *)

Definition fromHex (c : ascii) : N := (let n := N_of_ascii c in if decide (n < 58) then n - 48 else n - 55)%N.

Fixpoint unescape (l : list ascii) : list ascii :=
  match l with
  | "%"%char :: a :: b :: l => ascii_of_N (fromHex a * 16 + fromHex b) :: unescape l
  | "+"%char :: l => " "%char :: unescape l
  | c :: l => c :: unescape l
  | [] => []
  end.

Lemma unescape_escapeChar c l : unescape (escapeChar c ++ l) = c :: unescape l.
Proof. destruct c as [[] [] [] [] [] [] [] []]; reflexivity. Qed.

Lemma unescape_escape l : unescape (concat (map escapeChar l)) = l.
Proof. induction l as [|c l IH]; [done|]. simpl. by rewrite unescape_escapeChar, IH. Qed.

Lemma QueryEscape_inj s t : QueryEscape s = QueryEscape t -> s = t.
Proof.
  unfold QueryEscape. intros H. apply (f_equal (fun x => unescape (chars x))) in H.
  rewrite !chars_unchars, !unescape_escape in H. by apply chars_inj.
Qed.

Lemma escapeChar_no_colon c : ":"%char ∉ escapeChar c.
Proof. apply (bool_decide_eq_true_1 _). destruct c as [[] [] [] [] [] [] [] []]; reflexivity. Qed.

Lemma encodePart_no_colon s : ":"%char ∉ chars (encodePart s).
Proof.
  unfold encodePart. case_decide; [by apply (bool_decide_unpack _)|].
  unfold QueryEscape. rewrite chars_unchars. intros (l & Hl & Hin)%list_elem_of_In%in_concat.
  apply in_map_iff in Hl as (c & <- & _). apply list_elem_of_In in Hin. by apply escapeChar_no_colon in Hin.
Qed.

Lemma encodePart_inj s t : s <> "" -> t <> "" -> encodePart s = encodePart t -> s = t.
Proof. unfold encodePart. intros Hs Ht. rewrite !decide_False by done. apply QueryEscape_inj. Qed.

Lemma chars_Join ws : chars (Join ":" ws) = joinOn ":"%char (map chars ws).
Proof.
  induction ws as [|w ws IH]; [done|]. destruct ws as [|v ws]; [done|].
  change (chars (w +:+ ":" +:+ Join ":" (v :: ws)) = chars w ++ ":"%char :: joinOn ":"%char (map chars (v :: ws))).
  by rewrite !chars_app, IH.
Qed.

Lemma map_inj_Forall {A B} (f : A -> B) (P : A -> Prop) l k :
  (forall x y, P x -> P y -> f x = f y -> x = y) -> Forall P l -> Forall P k -> map f l = map f k -> l = k.
Proof.
  intros Hf Hl. revert k. induction Hl as [|x l Hx Hl IH]; intros [|y k] Hk H; simpl in H; simplify_eq; [done|].
  apply Forall_cons in Hk as [Hy Hk]. f_equal; [by apply Hf|by apply IH].
Qed.

(** Keys with the same prefix are equal only if their parts are. *)
Lemma stableMessageKey_inj p ps qs :
  ps <> [] -> qs <> [] -> Forall (fun s => s <> "") ps -> Forall (fun s => s <> "") qs ->
  stableMessageKey p ps = stableMessageKey p qs -> ps = qs.
Proof.
  intros Hps Hqs Fps Fqs H. apply (f_equal chars) in H. unfold stableMessageKey in H.
  rewrite !chars_Join in H. cbn [map] in H.
  rewrite (joinOn_cons _ _ (map chars (map encodePart ps))) in H by (by destruct ps).
  rewrite (joinOn_cons _ _ (map chars (map encodePart qs))) in H by (by destruct qs).
  apply app_inv_head in H. injection H as H. apply (f_equal (splitOn ":"%char)) in H.
  assert (forall rs, Forall (fun w => ":"%char ∉ w) (map chars (map encodePart rs))) as Hfree.
  { intros rs. rewrite map_map. apply Forall_map, Forall_true. intros s. apply encodePart_no_colon. }
  rewrite (splitOn_joinOn _ (map chars (map encodePart ps))) in H by (apply Hfree || by destruct ps).
  rewrite (splitOn_joinOn _ (map chars (map encodePart qs))) in H by (apply Hfree || by destruct qs).
  rewrite !map_map in H. refine (map_inj_Forall _ _ _ _ _ Fps Fqs H).
  intros s t Hs Ht E%chars_inj. by apply encodePart_inj.
Qed.

(** ** Which messages share a conversation *)

Definition valid (m : NormalizedMessage) : Prop := NormalizedMessage_Validate m = Ok tt.

Lemma valid_iff m :
  valid m <-> nm_ID m <> "" /\ nm_Platform m <> "" /\ sn_ID (nm_Sender m) <> "" /\ cn_ID (nm_Channel m) <> "".
Proof. unfold valid, NormalizedMessage_Validate. repeat case_decide; split; try done; tauto. Qed.

(** What a conversation is: the service, or the platform for a message without one, the
    platform, the workspace, the channel and, in a direct conversation, the sender. *)
Definition conversation (m : NormalizedMessage) : string * string * string * string * option string :=
  (firstNonEmptyString [serviceIdentity m; nm_Platform m], nm_Platform m, nm_WorkspaceID m, cn_ID (nm_Channel m),
   if isDirectConversation m then Some (sn_ID (nm_Sender m)) else None).

Definition threadID (m : NormalizedMessage) : option string := th_ID <$> messageThread m.

Lemma service_nonempty m : valid m -> firstNonEmptyString [serviceIdentity m; nm_Platform m] <> "".
Proof. intros (_ & Hp & _)%valid_iff. simpl. by case_decide; [rewrite decide_False|]. Qed.

Lemma conversationParts_nonempty m : valid m -> Forall (fun s => s <> "") (conversationParts m).
Proof.
  intros Hv. pose proof (service_nonempty m Hv) as Hs. apply valid_iff in Hv as (_ & Hp & Hn & Hc).
  unfold conversationParts. repeat (case_decide || case_match); simpl; repeat constructor; done.
Qed.

(** The tags at the even positions make the list of parts unambiguous. *)
Lemma sessionParts_iff m n e e' : valid m -> valid n ->
  (conversationParts m ++ match e with Some x => ["thread"; x] | None => [] end
   = conversationParts n ++ match e' with Some x => ["thread"; x] | None => [] end
   <-> conversation m = conversation n /\ e = e').
Proof.
  intros Hm Hn. apply valid_iff in Hm as (_ & _ & Sm & _). apply valid_iff in Hn as (_ & _ & Sn & _).
  unfold conversationParts, conversation. rewrite (bool_decide_true _ Sm), (bool_decide_true _ Sn), !andb_true_r.
  generalize (firstNonEmptyString [serviceIdentity m; nm_Platform m]) (firstNonEmptyString [serviceIdentity n; nm_Platform n]).
  intros sm sn. split.
  - intros H. repeat case_decide; destruct (isDirectConversation m), (isDirectConversation n), e, e';
      simpl in H; simplify_eq; split; congruence.
  - intros [H ->]. simplify_eq. repeat case_decide; destruct (isDirectConversation m), (isDirectConversation n);
      simplify_eq; simpl; congruence.
Qed.

Lemma conversationParts_iff m n : valid m -> valid n ->
  (conversationParts m = conversationParts n <-> conversation m = conversation n).
Proof.
  intros Hm Hn. pose proof (sessionParts_iff m n None None Hm Hn) as H. rewrite !app_nil_r in H. tauto.
Qed.

Lemma SessionID_parts m : cv_SessionID (ConversationState_of m) =
  stableMessageKey "msgsess:v1"
    (conversationParts m ++ match threadID m with Some x => ["thread"; x] | None => [] end).
Proof.
  unfold ConversationState_of, threadID. destruct (messageThread m); simpl; [done|]. by rewrite app_nil_r.
Qed.

Lemma threadID_nonempty m x : threadID m = Some x -> x <> "".
Proof. unfold threadID, messageThread. case_match; [|done]. case_decide; [done|]. intros [= <-]. done. Qed.

Lemma sessionParts_nonempty m : valid m ->
  Forall (fun s => s <> "") (conversationParts m ++ match threadID m with Some x => ["thread"; x] | None => [] end).
Proof.
  intros Hm. apply Forall_app. split; [by apply conversationParts_nonempty|].
  destruct (threadID m) eqn:E; [|done]. apply threadID_nonempty in E. by repeat constructor.
Qed.

Lemma ConversationID_parts m :
  cv_ConversationID (ConversationState_of m) = stableMessageKey "msgconv:v1" (conversationParts m).
Proof. unfold ConversationState_of. by destruct (messageThread m). Qed.

(** Two messages that pass validation have the same conversation id exactly when they
    come from the same service (or platform, where no service is named), platform,
    workspace and channel and, in direct conversations, from the same sender; they have
    the same session id exactly when they moreover name the same thread or both name none.
    So no choice of ids by a sender, whatever separators they contain, makes two
    conversations share a session. *)
Theorem conversation_identity m n (Hm : valid m) (Hn : valid n) :
  (cv_ConversationID (NormalizedMessage_ConversationState (Some m))
     = cv_ConversationID (NormalizedMessage_ConversationState (Some n)) <-> conversation m = conversation n) /\
  (SessionThreadID (Some m) = SessionThreadID (Some n)
     <-> conversation m = conversation n /\ threadID m = threadID n) /\
  (forall k, cv_ConversationID (NormalizedMessage_ConversationState (Some m)) <> SessionThreadID k).
Proof.
  unfold SessionThreadID. simpl. rewrite !ConversationID_parts, !SessionID_parts. repeat split.
  - intros H. apply stableMessageKey_inj in H; [by apply conversationParts_iff|done..| |]; by apply conversationParts_nonempty.
  - intros H. by rewrite (proj2 (conversationParts_iff m n Hm Hn) H).
  - apply stableMessageKey_inj in H; [by apply sessionParts_iff in H as [? _]|done..| |]; by apply sessionParts_nonempty.
  - apply stableMessageKey_inj in H; [by apply sessionParts_iff in H as [_ ?]|done..| |]; by apply sessionParts_nonempty.
  - intros H. f_equal. by apply sessionParts_iff.
  - intros [k|]; [|done]. simpl. rewrite SessionID_parts. done.
Qed.

Definition sample_message (channelType channel : string) (t : option Thread) : NormalizedMessage :=
  mkMessage "m1" 0 "slack" "T1" "" (mkSender "U1" "" "" "U1") (mkChannel channel "" channelType channel) "hi" t [] [] None.

Lemma conversation_identity_witness :
  cv_SessionID (ConversationState_of (sample_message "group" "C1:thread:x" None))
    <> cv_SessionID (ConversationState_of (sample_message "group" "C1" (Some (mkThread "x" "reply")))) /\
  cv_ConversationID (ConversationState_of (sample_message "group" "C1" None))
    = cv_ConversationID (ConversationState_of (sample_message "group" "C1" (Some (mkThread "x" "reply")))).
Proof.
  split.
  - intros H. apply (conversation_identity (sample_message "group" "C1:thread:x" None)
      (sample_message "group" "C1" (Some (mkThread "x" "reply")))) in H; [|reflexivity..]. by destruct H.
  - by apply (conversation_identity (sample_message "group" "C1" None)
      (sample_message "group" "C1" (Some (mkThread "x" "reply")))).
Defined.

(** An empty part and the part "_" have the same encoding: without validation two
    messages of different conversations can share a key. *)
Example underscore_collision :
  stableMessageKey "msgconv:v1" ["channel"; ""] = stableMessageKey "msgconv:v1" ["channel"; "_"].
Proof. reflexivity. Qed.

(** ** Round trip of target actions *)

Lemma Contains_char s c : Contains s (String c "") = true <-> c ∈ chars s.
Proof.
  rewrite Contains_spec, list_elem_of_In. split.
  - intros (u & v & ->). rewrite !in_app_iff. right. left. by left.
  - intros (u & v & H)%in_split. by exists u, v.
Qed.

Lemma parse_cut p a : "="%char ∉ chars p -> Cut (p +:+ "=" +:+ a) "="%char = (p, a, true).
Proof.
  intros Hp. unfold Cut. rewrite !chars_app.
  rewrite (proj2 (cutAt_spec "="%char _ (chars p) (chars a))) by done. by rewrite !unchars_chars.
Qed.

Lemma parse_canonical t : ParseTargetAction (TargetAction_String t) = Ok t <->
  ta_ProfileID t <> "" /\ ta_ActionName t <> "" /\ "="%char ∉ chars (ta_ProfileID t).
Proof.
  destruct t as [p a]. unfold ParseTargetAction, TargetAction_String. simpl.
  rewrite (proj2 (Contains_char _ _)); [|rewrite !chars_app; apply elem_of_app; right; by left]. simpl. split.
  - destruct (Cut _ _) as [[p' a'] []] eqn:E; [|done]. case_decide as Hd; [done|]. intros [= -> ->].
    repeat split; [tauto..|]. unfold Cut in E. destruct (cutAt _ _) as [x [y|]] eqn:Ex; [|done].
    apply cutAt_spec in Ex as [_ Hx]. injection E as <- _. by rewrite chars_unchars.
  - intros (Hp & Ha & Hf). rewrite parse_cut by done. rewrite decide_False by tauto. done.
Qed.

(** The text of a target action parses back to it exactly when the profile and the
    action are named and the profile has no [=]; and whatever parses, written with [=] or
    with [:], has a text that parses to the same target. *)
Theorem target_action_round_trip (t : TargetAction) :
  (ParseTargetAction (TargetAction_String t) = Ok t <->
     ta_ProfileID t <> "" /\ ta_ActionName t <> "" /\ "="%char ∉ chars (ta_ProfileID t)) /\
  (forall s, ParseTargetAction s = Ok t -> ParseTargetAction (TargetAction_String t) = Ok t).
Proof.
  split; [apply parse_canonical|]. intros s Hs. apply parse_canonical. unfold ParseTargetAction in Hs.
  destruct (Cut s _) as [[p a] []] eqn:E; [|done]. case_decide as Hd; [done|]. injection Hs as <-. simpl.
  repeat split; [tauto..|]. unfold Cut in E. destruct (cutAt _ _) as [x [y|]] eqn:Ex; [|done]. injection E as <- <-.
  rewrite chars_unchars. apply cutAt_spec in Ex as [Hc Hx].
  destruct (negb (Contains s "=") && Contains s ":") eqn:Eb; [|done].
  apply andb_true_iff in Eb as [Eb%negb_true_iff _]. intros Hin.
  rewrite (proj2 (Contains_char s "="%char)) in Eb; [done|]. rewrite Hc. apply elem_of_app. by left.
Qed.
