(* ===== verification/MsgConfig.v ===== *)
(** * Messenger errors, secrets and options

    errors.go of src/internal/core/messenger, servicesecret.go and allowed_senders.go of
    src/internal/core, and the option helpers of validation.go. *)

From Stdlib Require Import ZArith Lia String Ascii.
From stdpp Require Import base option list gmap strings.
From S2P Require Import Prelude Text GoValue MsgTypes.

#[local] Open Scope Z_scope.

(** ** Errors *)

Inductive ErrorCode : Type :=
  | ErrCodeLinkNotFound | ErrCodeLinkAlreadyExists | ErrCodeMappingConflict | ErrCodeUnknownChannel
  | ErrCodeActionNotFound | ErrCodeActionFailed | ErrCodeIsolationViolation | ErrCodeRoutingFailed
  | ErrCodeNormalizeFailed | ErrCodeLogWriteFailed | ErrCodeMissingSecret | ErrCodeInvalidMapping
  | ErrCodeAuthFailed | ErrCodeReplayRejected | ErrCodeSenderNotAllowed.

#[global] Instance ErrorCode_eq_dec : EqDecision ErrorCode.
Proof. solve_decision. Defined.

(** The cause of an error is kept as its text. *)
Record MessengerError : Type := mkErr {
  er_Name : string;
  er_Message : string;
  er_Code : ErrorCode;
  er_Cause : option string
}.

Definition MessengerError_Error (e : MessengerError) : string :=
  match er_Cause e with
  | Some cause => er_Name e +:+ ": " +:+ er_Message e +:+ ": " +:+ cause
  | None => er_Name e +:+ ": " +:+ er_Message e
  end.

Definition ErrLinkNotFound (messenger profile : string) : MessengerError :=
  mkErr messenger ("no link found for profile '" +:+ profile +:+ "'") ErrCodeLinkNotFound None.

Definition ErrLinkAlreadyExists (messenger profile : string) : MessengerError :=
  mkErr messenger ("already linked to profile '" +:+ profile +:+ "'") ErrCodeLinkAlreadyExists None.

Definition ErrMappingConflict (channelID existingProfile existingAction : string) : MessengerError :=
  mkErr channelID ("channel already mapped to " +:+ existingProfile +:+ "=" +:+ existingAction) ErrCodeMappingConflict None.

Definition ErrUnknownChannel (messengerName channelID : string) : MessengerError :=
  mkErr messengerName ("no mapping for channel '" +:+ channelID +:+ "'") ErrCodeUnknownChannel None.

Definition ErrActionNotFound (profile action : string) : MessengerError :=
  mkErr profile ("action '" +:+ action +:+ "' not found") ErrCodeActionNotFound None.

Definition ErrActionFailed (profile action cause : string) : MessengerError :=
  mkErr profile ("action '" +:+ action +:+ "' failed") ErrCodeActionFailed (Some cause).

Definition ErrIsolationViolation (channelID expectedProfile attemptedProfile : string) : MessengerError :=
  mkErr channelID ("isolation violation: mapped to '" +:+ expectedProfile +:+ "', attempted '" +:+ attemptedProfile +:+ "'")
    ErrCodeIsolationViolation None.

Definition ErrRoutingFailed (msgID cause : string) : MessengerError :=
  mkErr msgID "routing failed" ErrCodeRoutingFailed (Some cause).

Definition ErrNormalizeFailed (platform cause : string) : MessengerError :=
  mkErr platform "normalization failed" ErrCodeNormalizeFailed (Some cause).

Definition ErrInvalidMapping (mapping cause : string) : MessengerError :=
  mkErr mapping "invalid mapping format" ErrCodeInvalidMapping (Some cause).

Definition ErrMissingSecret (name : string) : MessengerError :=
  mkErr name ("required secret '" +:+ name +:+ "' not set") ErrCodeMissingSecret None.

Definition ErrAuthFailed (messengerName reason : string) : MessengerError :=
  mkErr messengerName reason ErrCodeAuthFailed None.

Definition ErrReplayRejected (messengerName reason : string) : MessengerError :=
  mkErr messengerName reason ErrCodeReplayRejected None.

Definition ErrSenderNotAllowed (messengerName reason : string) : MessengerError :=
  mkErr messengerName reason ErrCodeSenderNotAllowed None.

Definition hasCode (err : MessengerError) (codes : list ErrorCode) : bool := bool_decide (er_Code err ∈ codes).

Definition IsMappingConflict (err : MessengerError) : bool := hasCode err [ErrCodeMappingConflict].
Definition IsLinkNotFound (err : MessengerError) : bool := hasCode err [ErrCodeLinkNotFound].
Definition IsUnknownChannel (err : MessengerError) : bool := hasCode err [ErrCodeUnknownChannel].
Definition IsIsolationViolation (err : MessengerError) : bool := hasCode err [ErrCodeIsolationViolation].
Definition IsActionNotFound (err : MessengerError) : bool := hasCode err [ErrCodeActionNotFound].
Definition IsAuthFailed (err : MessengerError) : bool := hasCode err [ErrCodeAuthFailed; ErrCodeReplayRejected].
Definition IsSenderNotAllowed (err : MessengerError) : bool := hasCode err [ErrCodeSenderNotAllowed].

(** The text of the errors of [Validate]. *)
Definition MsgErr_Error (e : MsgErr) : string :=
  match e with
  | MessageIDRequired => "message ID is required"
  | PlatformRequired => "platform is required"
  | SenderIDRequired => "sender ID is required"
  | ChannelIDRequired => "channel ID is required"
  end.

(** ** Options *)

Abbreviation smap := (gmap string string).

(** [m[k]] of a map to strings. *)
Definition opt (m : smap) (k : string) : string := default "" (m !! k).

Fixpoint firstConfigured (values : list string) : string :=
  match values with
  | [] => ""
  | v :: values => if decide (TrimSpace v = "") then firstConfigured values else TrimSpace v
  end.

Definition splitCSV (value : string) : list string :=
  filter (fun p => p <> "") (map (fun p => TrimSpace (unchars p)) (splitOn ","%char (chars value))).

Definition containsAny (allowed values : list string) : bool :=
  existsb (fun v => let v := TrimSpace v in
    negb (bool_decide (v = "")) && existsb (fun allow => bool_decide (v = allow)) allowed) values.

Definition truthyOption (value : string) : bool :=
  bool_decide (ToLower (TrimSpace value) ∈ ["1"; "true"; "yes"; "y"; "on"]).

Definition safeID (value : string) : string :=
  let value := TrimSpace value in
  if decide (String.length value <= 64)%nat then value else unchars (take 61 (chars value)) +:+ "...".

Definition hasGenericAuthOptions (options : smap) : bool :=
  existsb (fun key => negb (bool_decide (TrimSpace (opt options key) = "")))
    ["auth_scheme"; "auth_token"; "auth_token_env"; "signature_secret"; "signature_secret_env"].

(** ** Secrets *)

Definition SecretRefPrefix : string := "secret:".

Abbreviation SecretLookup := (string -> option string).

Definition SplitSecretRef (value : string) : string * bool :=
  let trimmed := TrimSpace value in
  if negb (HasPrefix trimmed SecretRefPrefix) then ("", false)
  else let name := TrimSpace (TrimPrefix trimmed SecretRefPrefix) in
       if decide (name = "") then ("", false) else (name, true).

Fixpoint resolveLoop (name : string) (lookups : list (option SecretLookup)) : string * bool :=
  match lookups with
  | [] => ("", false)
  | None :: lookups => resolveLoop name lookups
  | Some lookup :: lookups =>
      match lookup name with
      | Some resolved => if decide (TrimSpace resolved = "") then resolveLoop name lookups else (TrimSpace resolved, true)
      | None => resolveLoop name lookups
      end
  end.

Definition ResolveSecretValue (value : string) (store env : option SecretLookup) : string * bool :=
  match SplitSecretRef value with
  | (name, true) => resolveLoop name [store; env]
  | (_, false) => (TrimSpace value, negb (bool_decide (TrimSpace value = "")))
  end.

(** The cache of drained secret sets, by profile.  [load] is what reading the store of a
    profile returns now; a profile is read at the first lookup and never again before a
    reset, whether the read succeeds or not. *)
Abbreviation SecretCache := (gmap string smap).

Definition ProfileSecretLookup (load : string -> option smap) (cache : SecretCache) (profileID name : string) :
    SecretCache * option string :=
  let profileID := TrimSpace profileID in
  if decide (profileID = "") then (cache, None)
  else match cache !! profileID with
       | Some values => (cache, values !! name)
       | None => let values := default ∅ (load profileID) in (<[profileID := values]> cache, values !! name)
       end.

Definition ResetProfileSecretCache (cache : SecretCache) : SecretCache := ∅.

(** ** Allowed senders *)

Definition ValidateAllowedSenderPattern (pattern : string) : bool :=
  match Cut (TrimSpace pattern) "@"%char with
  | (local, domain, ok) =>
      if negb ok || bool_decide (local = "") || bool_decide (domain = "") || ContainsAny domain "*@ " then false
      else negb (Contains local "*" && negb (bool_decide (local = "*")))
  end.

Section Senders.
(** [mail.ParseAddress]: the bare address of what parses. *)
Variable ParseAddress : string -> option string.

Definition normalizeEmailAddress (value : string) : string :=
  let value := TrimSpace value in
  if decide (value = "") then ""
  else match ParseAddress value with
       | Some address => ToLower address
       | None => ToLower value
       end.

Definition senderMatches (local domain pattern : string) : bool :=
  match Cut (ToLower (TrimSpace pattern)) "@"%char with
  | (pLocal, pDomain, ok) =>
      if negb ok || bool_decide (pDomain = "") || negb (bool_decide (pDomain = domain)) then false
      else bool_decide (pLocal = "*" \/ pLocal = local)
  end.

Definition MatchAllowedSender (patterns candidates : list string) : bool :=
  existsb (fun candidate =>
    let address := normalizeEmailAddress candidate in
    if decide (address = "") then false
    else match Cut address "@"%char with
         | (local, domain, true) => existsb (senderMatches local domain) patterns
         | (_, _, false) => false
         end) candidates.
End Senders.

(** ** Lemmas *)

Lemma firstConfigured_cons v vs :
  firstConfigured (v :: vs) = if decide (TrimSpace v = "") then firstConfigured vs else TrimSpace v.
Proof. done. Qed.

Lemma firstConfigured_trimmed vs : TrimSpace (firstConfigured vs) = firstConfigured vs.
Proof. induction vs as [|v vs IH]; simpl; [done|]. case_decide; [done|apply TrimSpace_idem]. Qed.

Lemma firstConfigured_empty vs : firstConfigured vs = "" <-> Forall (fun v => TrimSpace v = "") vs.
Proof.
  induction vs as [|v vs IH]; simpl; [done|]. rewrite Forall_cons, <- IH. case_decide; split; tauto.
Qed.

Lemma containsAny_spec allowed values : containsAny allowed values = true <->
  exists v, v ∈ values /\ TrimSpace v <> "" /\ TrimSpace v ∈ allowed.
Proof.
  unfold containsAny. rewrite existsb_exists. split.
  - intros (v & Hv & H). apply andb_true_iff in H as [Hn (a & Ha & E)%existsb_exists].
    apply negb_true_iff, bool_decide_eq_false in Hn. apply bool_decide_eq_true in E. subst.
    exists v. rewrite !list_elem_of_In. done.
  - intros (v & Hv & Hn & Ha). exists v. split; [by apply list_elem_of_In|]. rewrite bool_decide_false by done. simpl.
    apply existsb_exists. exists (TrimSpace v). split; [by apply list_elem_of_In|]. by apply bool_decide_eq_true.
Qed.

Lemma splitCSV_spec value p : p ∈ splitCSV value -> p <> "" /\ TrimSpace p = p.
Proof.
  unfold splitCSV. rewrite list_elem_of_filter. intros [Hp (w & <- & _)%list_elem_of_In%in_map_iff].
  split; [done|apply TrimSpace_idem].
Qed.

(** A secret that is named is only ever looked up under its name. *)
Lemma ResolveSecretValue_names value name store env :
  SplitSecretRef value = (name, true) ->
  (ResolveSecretValue value store env).2 = true ->
  exists l r, (store = Some l \/ env = Some l) /\ l name = Some r /\
    (ResolveSecretValue value store env).1 = TrimSpace r /\ TrimSpace r <> "".
Proof.
  intros Hs. unfold ResolveSecretValue. rewrite Hs.
  assert (forall ls, (resolveLoop name ls).2 = true -> exists l r, Some l ∈ ls /\ l name = Some r /\
    (resolveLoop name ls).1 = TrimSpace r /\ TrimSpace r <> "") as H.
  { induction ls as [|[l|] ls IH]; simpl; [done| |].
    - destruct (l name) as [r|] eqn:E; [case_decide|]; [|intros _; exists l, r; split; [by left|done]|].
      all: intros (l' & r' & ? & ?)%IH; exists l', r'; split; [by right|done].
    - intros (l' & r' & ? & ?)%IH. exists l', r'. split; [by right|done]. }
  intros (l & r & Hl & Hr)%H. exists l, r. split; [|done].
  rewrite !elem_of_cons, elem_of_nil in Hl. naive_solver.
Qed.

Lemma Cut_found s c a b : Cut s c = (a, b, true) <-> chars s = chars a ++ c :: chars b /\ c ∉ chars a.
Proof.
  unfold Cut. destruct (cutAt c (chars s)) as [x [y|]] eqn:E.
  - split.
    + intros [= <- <-]. rewrite !chars_unchars. by apply cutAt_spec.
    + intros H. rewrite (proj2 (cutAt_spec _ _ _ _) H) in E. injection E as <- <-. by rewrite !unchars_chars.
  - split; [done|]. intros H. by rewrite (proj2 (cutAt_spec _ _ _ _) H) in E.
Qed.

(** What an allow list of senders admits. *)
Definition admits (pattern address : string) : Prop :=
  exists local domain pLocal, domain <> "" /\ "@"%char ∉ chars local /\ "@"%char ∉ chars pLocal /\
    chars address = chars local ++ "@"%char :: chars domain /\
    chars (ToLower (TrimSpace pattern)) = chars pLocal ++ "@"%char :: chars domain /\
    (pLocal = "*" \/ pLocal = local).

Lemma MatchAllowedSender_spec P patterns candidates :
  MatchAllowedSender P patterns candidates = true <->
  exists c p, c ∈ candidates /\ p ∈ patterns /\ admits p (normalizeEmailAddress P c).
Proof.
  unfold MatchAllowedSender. rewrite existsb_exists. split.
  - intros (c & Hc & H). case_decide as Hn; [done|]. destruct (Cut _ _) as [[l d] []] eqn:E; [|done].
    apply existsb_exists in H as (p & Hp & H). exists c, p. rewrite !list_elem_of_In. split; [done|]. split; [done|].
    unfold senderMatches in H. destruct (Cut (ToLower _) _) as [[pl pd] ok] eqn:E2.
    case_match eqn:Eb; [done|]. apply orb_false_iff in Eb as [[Hok Hd]%orb_false_iff Hpd].
    apply negb_false_iff in Hok, Hpd. apply bool_decide_eq_true in Hpd. apply bool_decide_eq_false in Hd. subst.
    apply bool_decide_eq_true in H. apply Cut_found in E as [E1 E1'], E2 as [E2 E2'].
    by exists l, d, pl.
  - intros (c & p & Hc & Hp & l & d & pl & Hd & Hl & Hpl & Ha & Hpat & Hm). exists c.
    split; [by apply list_elem_of_In|]. rewrite decide_False; [|intros E; rewrite E in Ha; by destruct (chars l)].
    rewrite (proj2 (Cut_found _ _ l d)) by done. apply existsb_exists. exists p. split; [by apply list_elem_of_In|].
    unfold senderMatches. rewrite (proj2 (Cut_found _ _ pl d)) by done. simpl.
    rewrite bool_decide_false by done. rewrite bool_decide_true by done. simpl. by apply bool_decide_eq_true.
Qed.

(** An entry that [ValidateAllowedSenderPattern] refuses still admits the sender it spells. *)
Example malformed_pattern_matches :
  ValidateAllowedSenderPattern "a*b@example.com" = false /\
  MatchAllowedSender (fun a => Some a) ["a*b@example.com"] ["A*B@example.com"] = true.
Proof. done. Qed.
