(* ===== verification/MsgAuth.v ===== *)
(** * Validation of inbound requests and messages

    validation.go, telegram.go and discord.go of src/internal/core/messenger, the
    authentication of whatsapp.go and the webhook validator of sms.go: which credential a
    service demands, how it is checked, the store of seen deliveries, and the allow lists
    that a normalized message has to pass. *)

From Stdlib Require Import ZArith Lia String Ascii.
From stdpp Require Import base option list gmap strings fin_maps sorting.
From S2P Require Import Prelude Text GoValue MsgTypes MsgConfig.

#[local] Open Scope Z_scope.

(** What the checks read from their surroundings: the environment, the secret stores of
    profiles, the parsers of package time, net/mail and net/url, and the primitives of
    package crypto. *)
Class MsgEnv : Type := {
  Getenv : string -> string;
  LookupEnv : string -> option string;
  profileSecrets : string -> option SecretLookup;
  TimeParse : string -> string -> option Z;
  ParseDuration : string -> option Z;
  ParseAddress : string -> option string;
  ParseQuery : string -> gmap string (list string);
  urlQuery : string -> option (string -> string);
  hmac_sha256 : string -> string -> string;
  hmac_sha1_base64 : string -> string -> string;
  sha256_hex : string -> string;
  ed25519_Verify : string -> string -> string -> bool
}.

Inductive AuthScheme : Type :=
  | AuthSchemeNone | AuthSchemeBearer | AuthSchemeToken | AuthSchemeHMACSHA256 | AuthSchemeSlack | AuthSchemeEd25519
  | OtherScheme (name : string).

#[global] Instance AuthScheme_eq_dec : EqDecision AuthScheme.
Proof. solve_decision. Defined.

Definition scheme_of (s : string) : AuthScheme :=
  if decide (s = "") then AuthSchemeNone
  else if decide (s = "bearer") then AuthSchemeBearer
  else if decide (s = "token") then AuthSchemeToken
  else if decide (s = "hmac-sha256") then AuthSchemeHMACSHA256
  else if decide (s = "slack-signing-secret") then AuthSchemeSlack
  else if decide (s = "ed25519") then AuthSchemeEd25519
  else OtherScheme s.

Record ServiceValidationConfig : Type := mkServiceConfig {
  sv_ID : string;
  sv_Adapter : string;
  sv_Profile : string;
  sv_Env : smap;
  sv_Options : smap
}.

Record AuthRequirements : Type := mkAuth {
  ar_Scheme : AuthScheme;
  ar_Header : string;
  ar_Token : string;
  ar_TokenEnv : string;
  ar_SignatureSecret : string;
  ar_SignatureSecretEnv : string;
  ar_TimestampHeader : string;
  ar_TimestampTolerance : Z;
  ar_ReplayIDHeader : string
}.

Definition no_requirements : AuthRequirements := mkAuth AuthSchemeNone "" "" "" "" "" "" 0 "".

(** A request: [rq_Headers] is [Headers.Get]. *)
Record RequestValidationInput : Type := mkRequest {
  rq_Service : ServiceValidationConfig;
  rq_URL : string;
  rq_Headers : string -> string;
  rq_Body : string;
  rq_Form : option (gmap string (list string));
  rq_Now : Z
}.

Definition RFC3339 : string := "2006-01-02T15:04:05Z07:00".
Definition RFC3339Nano : string := "2006-01-02T15:04:05.999999999Z07:00".

(** [time.Unix]. *)
Definition Unix (sec nsec : Z) : Z :=
  let t := sec * Second + nsec in wrap64 (t / Second + 62135596800) * Second + t mod Second.

(** [encoding/hex]. *)
Definition fromHexChar (c : ascii) : option N :=
  let n := N_of_ascii c in
  if decide (48 <= n <= 57)%N then Some (n - 48)%N
  else if decide (97 <= n <= 102)%N then Some (n - 87)%N
  else if decide (65 <= n <= 70)%N then Some (n - 55)%N
  else None.

Fixpoint hexDecode (l : list ascii) : option (list ascii) :=
  match l with
  | [] => Some []
  | a :: b :: l =>
      match fromHexChar a, fromHexChar b, hexDecode l with
      | Some x, Some y, Some r => Some (ascii_of_N (x * 16 + y) :: r)
      | _, _, _ => None
      end
  | [_] => None
  end.

Definition DecodeHex (s : string) : option string := unchars <$> hexDecode (chars s).

(** ** The store of seen deliveries *)

Record MemoryReplayStore : Type := mkReplay { rp_seen : gmap string Z; rp_maxSize : Z }.

Definition NewMemoryReplayStore : MemoryReplayStore := mkReplay ∅ 4096.

Definition live (now : Z) (seen : gmap string Z) : gmap string Z := filter (fun p => After p.2 now = true) seen.

(** [pick] is the entry that a loop over a full map meets first. *)
Definition evict (s : MemoryReplayStore) (pick : gmap string Z -> option string) (seen : gmap string Z) : gmap string Z :=
  if decide (rp_maxSize s > 0 /\ Z.of_nat (size seen) >= rp_maxSize s)
  then match pick seen with Some k => delete k seen | None => seen end
  else seen.

Definition MarkSeen (now : Z) (pick : gmap string Z -> option string) (s : MemoryReplayStore) (key : string) (ttl : Z) :
    MemoryReplayStore * bool :=
  if decide (TrimSpace key = "") then (s, false)
  else
    let seen := live now (rp_seen s) in
    match seen !! key with
    | Some _ => (mkReplay seen (rp_maxSize s), true)
    | None => (mkReplay (<[key := now + ttl]> (evict s pick seen)) (rp_maxSize s), false)
    end.

(** ** Requirements *)

Section Validation.
Context `{ME : MsgEnv}.

Definition getenv (name : string) : string := if decide (TrimSpace name = "") then "" else Getenv name.

Definition parseDurationOption (value : string) (fallback : Z) : Z :=
  let value := TrimSpace value in
  if decide (value = "") then fallback else default fallback (ParseDuration value).

(** The scheme that configured credentials imply, and the headers that a scheme implies. *)
Definition impliedScheme (scheme : AuthScheme) (token tokenEnv secret secretEnv : string) : AuthScheme :=
  if decide (scheme = AuthSchemeNone)
  then if decide (token <> "" \/ tokenEnv <> "") then AuthSchemeBearer
       else if decide (secret <> "" \/ secretEnv <> "") then AuthSchemeHMACSHA256 else scheme
  else scheme.

Definition impliedHeaders (scheme : AuthScheme) (header timestampHeader : string) : string * string :=
  if decide (header = "")
  then match scheme with
       | AuthSchemeBearer => ("Authorization", timestampHeader)
       | AuthSchemeToken => ("X-APS-Token", timestampHeader)
       | AuthSchemeHMACSHA256 => ("X-APS-Signature", timestampHeader)
       | AuthSchemeEd25519 =>
           ("X-Signature-Ed25519", if decide (timestampHeader = "") then "X-Signature-Timestamp" else timestampHeader)
       | _ => (header, timestampHeader)
       end
  else (header, timestampHeader).

Definition authRequirements (service : ServiceValidationConfig) : AuthRequirements :=
  let o k := TrimSpace (opt (sv_Options service) k) in
  let scheme := impliedScheme (scheme_of (TrimSpace (ToLower (opt (sv_Options service) "auth_scheme"))))
    (o "auth_token") (o "auth_token_env") (o "signature_secret") (o "signature_secret_env") in
  let '(header, timestampHeader) := impliedHeaders scheme (o "auth_header") (o "timestamp_header") in
  let timestampHeader :=
    if decide (timestampHeader = "" /\ truthyOption (opt (sv_Options service) "require_timestamp") = true)
    then "X-APS-Timestamp" else timestampHeader in
  let replayHeader :=
    if decide (o "replay_id_header" = "" /\ truthyOption (opt (sv_Options service) "require_replay_check") = true)
    then "X-APS-Delivery-ID" else o "replay_id_header" in
  mkAuth scheme header (o "auth_token") (o "auth_token_env") (o "signature_secret") (o "signature_secret_env")
    timestampHeader (parseDurationOption (opt (sv_Options service) "timestamp_tolerance") (5 * Minute)) replayHeader.

Definition over (base override : string) : string := if decide (override = "") then base else override.

Definition mergeAuthRequirements (base override : AuthRequirements) : AuthRequirements :=
  mkAuth (if decide (ar_Scheme override = AuthSchemeNone) then ar_Scheme base else ar_Scheme override)
    (over (ar_Header base) (ar_Header override)) (over (ar_Token base) (ar_Token override))
    (over (ar_TokenEnv base) (ar_TokenEnv override)) (over (ar_SignatureSecret base) (ar_SignatureSecret override))
    (over (ar_SignatureSecretEnv base) (ar_SignatureSecretEnv override))
    (over (ar_TimestampHeader base) (ar_TimestampHeader override))
    (if decide (ar_TimestampTolerance override = 0) then ar_TimestampTolerance base else ar_TimestampTolerance override)
    (over (ar_ReplayIDHeader base) (ar_ReplayIDHeader override)).

Definition serviceEnvLiteral (env : smap) (key : string) : string :=
  let value := TrimSpace (opt env key) in
  if (SplitSecretRef value).2 then "" else value.

Definition serviceEnvSecretName (env : smap) (key : string) : string := (SplitSecretRef (opt env key)).1.

(** *** The hooks of the providers *)

Definition TelegramSecretTokenHeader : string := "X-Telegram-Bot-Api-Secret-Token".

Definition TelegramAuthHook_AuthRequirements (service : ServiceValidationConfig) : AuthRequirements :=
  let token := TrimSpace (opt (sv_Options service) "webhook_secret_token") in
  let tokenEnv := TrimSpace (opt (sv_Options service) "webhook_secret_token_env") in
  if decide (token = "" /\ tokenEnv = "") then no_requirements
  else mkAuth AuthSchemeToken TelegramSecretTokenHeader token tokenEnv "" "" "" 0 "".

Definition SlackAuthHook_AuthRequirements (service : ServiceValidationConfig) : AuthRequirements :=
  let opts := sv_Options service in
  let scheme := scheme_of (TrimSpace (ToLower (opt opts "auth_scheme"))) in
  if decide (scheme <> AuthSchemeNone /\ scheme <> AuthSchemeSlack) then no_requirements
  else mkAuth AuthSchemeSlack "X-Slack-Signature" "" ""
         (firstConfigured [opt opts "signing_secret"; serviceEnvLiteral (sv_Env service) "SLACK_SIGNING_SECRET"])
         (firstConfigured [opt opts "signing_secret_env"; serviceEnvSecretName (sv_Env service) "SLACK_SIGNING_SECRET";
                           "SLACK_SIGNING_SECRET"])
         "X-Slack-Request-Timestamp" (parseDurationOption (opt opts "timestamp_tolerance") (5 * Minute)) "".

Definition discordPublicKeyBinding (env : smap) : string * string :=
  let value := TrimSpace (opt env "DISCORD_PUBLIC_KEY") in
  if decide (value = "") then ("", "")
  else if HasPrefix value "env:" then ("", TrimSpace (TrimPrefix value "env:"))
  else if decide (String.length value = 64%nat) then (value, "")
  else ("", "").

Definition discordInteractionReceive (opts : smap) : bool :=
  bool_decide (ToLower (TrimSpace (opt opts "receive"))
    ∈ ["interaction"; "interactions"; "discord-interaction"; "discord-interactions"]).

Definition DiscordAuthHook_AuthRequirements (service : ServiceValidationConfig) : AuthRequirements :=
  let opts := sv_Options service in
  if decide (opts = ∅) then no_requirements
  else
    let publicKey := TrimSpace (firstConfigured [opt opts "discord_public_key"; opt opts "interaction_public_key"]) in
    let publicKeyEnv :=
      TrimSpace (firstConfigured [opt opts "discord_public_key_env"; opt opts "interaction_public_key_env"]) in
    let '(publicKey, publicKeyEnv) :=
      if decide (publicKey = "" /\ publicKeyEnv = "") then discordPublicKeyBinding (sv_Env service)
      else (publicKey, publicKeyEnv) in
    if decide (publicKey = "" /\ publicKeyEnv = "" /\ discordInteractionReceive opts = false /\
               scheme_of (ToLower (TrimSpace (opt opts "auth_scheme"))) <> AuthSchemeEd25519)
    then no_requirements
    else mkAuth AuthSchemeEd25519 "X-Signature-Ed25519" "" "" publicKey publicKeyEnv "X-Signature-Timestamp"
           (parseDurationOption (opt opts "timestamp_tolerance") (5 * Minute)) "".

Definition WhatsAppSignatureHeader : string := "X-Hub-Signature-256".

Definition WhatsAppAuthHook_AuthRequirements (service : ServiceValidationConfig) : AuthRequirements :=
  let opts := sv_Options service in
  if decide (opts = ∅) then no_requirements
  else
    let secret := firstConfigured [opt opts "app_secret"; opt opts "signature_secret";
                                   serviceEnvLiteral (sv_Env service) "WHATSAPP_APP_SECRET"] in
    let secretEnv := firstConfigured [opt opts "app_secret_env"; opt opts "signature_secret_env";
                                      opt opts "signing_secret_env";
                                      serviceEnvSecretName (sv_Env service) "WHATSAPP_APP_SECRET"] in
    if decide (secret = "" /\ secretEnv = "") then no_requirements
    else mkAuth AuthSchemeHMACSHA256 WhatsAppSignatureHeader "" "" secret secretEnv "" 0 "".

Definition whatsappVerifyToken (service : ServiceValidationConfig) : string :=
  let opts := sv_Options service in
  firstConfigured [opt opts "verify_token"; opt opts "webhook_verify_token";
    getenv (opt opts "verify_token_env"); getenv (opt opts "webhook_verify_token_env");
    serviceEnvLiteral (sv_Env service) "WHATSAPP_VERIFY_TOKEN";
    getenv (serviceEnvSecretName (sv_Env service) "WHATSAPP_VERIFY_TOKEN");
    getenv "WHATSAPP_VERIFY_TOKEN"].

Definition WhatsAppVerificationChallenge (service : ServiceValidationConfig) (query : string -> string) :
    Res MessengerError string :=
  if decide (TrimSpace (query "hub.mode") <> "subscribe")
  then Err (ErrAuthFailed (sv_ID service) "invalid WhatsApp verification mode")
  else
    let challenge := TrimSpace (query "hub.challenge") in
    if decide (challenge = "") then Err (ErrAuthFailed (sv_ID service) "missing WhatsApp verification challenge")
    else
      let expected := whatsappVerifyToken service in
      if decide (expected = "") then Err (ErrMissingSecret "WHATSAPP_VERIFY_TOKEN")
      else
        let got := TrimSpace (query "hub.verify_token") in
        if decide (got = "" \/ got <> expected)
        then Err (ErrAuthFailed (sv_ID service) "invalid WhatsApp verification token")
        else Ok challenge.

(** *** Twilio signatures *)

Definition TwilioSignatureHeader : string := "X-Twilio-Signature".

Definition resolveConfiguredSecret (value : string) (lookup : option SecretLookup) : string :=
  (ResolveSecretValue value lookup (Some LookupEnv)).1.

Definition resolveSecretName (name : string) (lookup : option SecretLookup) : string :=
  if decide (TrimSpace name = "") then ""
  else (ResolveSecretValue (SecretRefPrefix +:+ name) lookup (Some LookupEnv)).1.

Definition twilioAuthToken (service : ServiceValidationConfig) : string :=
  let opts := sv_Options service in
  let lookup := if decide (TrimSpace (sv_Profile service) = "") then None else profileSecrets (TrimSpace (sv_Profile service)) in
  firstConfigured [
    resolveConfiguredSecret (opt opts "twilio_auth_token") lookup;
    resolveConfiguredSecret (opt opts "auth_token") lookup;
    resolveConfiguredSecret (opt opts "signature_secret") lookup;
    getenv (opt opts "auth_token_env");
    getenv (opt opts "signature_secret_env");
    serviceEnvLiteral (sv_Env service) "TWILIO_AUTH_TOKEN";
    resolveSecretName (serviceEnvSecretName (sv_Env service) "TWILIO_AUTH_TOKEN") lookup;
    getenv "TWILIO_AUTH_TOKEN"].

(** The text that is signed: the address, then each key with each of its values, sorted. *)
Definition twilioBase (requestURL : string) (params : gmap string (list string)) : string :=
  foldl (fun base key =>
      foldl (fun base value => base +:+ key +:+ value) base (merge_sort str_le (default [] (params !! key))))
    requestURL (merge_sort str_le (map_to_list params).*1).

Definition TwilioSignature (authToken requestURL : string) (params : gmap string (list string)) : string :=
  hmac_sha1_base64 authToken (twilioBase requestURL params).

Definition validateTwilioJSONBodySHA (requestURL : string) (headers : string -> string) (body : string) : option string :=
  if negb (Contains (ToLower (headers "Content-Type")) "application/json") then None
  else match urlQuery requestURL with
       | None => Some "invalid Twilio webhook URL"
       | Some query =>
           let expected := TrimSpace (query "bodySHA256") in
           if decide (expected = "") then None
           else if decide (ToLower expected = sha256_hex body) then None else Some "invalid Twilio body hash"
       end.

Definition Twilio_ValidateProviderRequest (input : RequestValidationInput) : option MessengerError :=
  let id := sv_ID (rq_Service input) in
  let token := twilioAuthToken (rq_Service input) in
  if decide (token = "") then Some (ErrMissingSecret "TWILIO_AUTH_TOKEN")
  else
    let signature := TrimSpace (rq_Headers input TwilioSignatureHeader) in
    if decide (signature = "") then Some (ErrAuthFailed id "missing Twilio signature")
    else
      let requestURL := firstConfigured [opt (sv_Options (rq_Service input)) "webhook_url"; rq_URL input] in
      if decide (requestURL = "") then Some (ErrAuthFailed id "missing Twilio webhook URL")
      else
        let form := default (ParseQuery (rq_Body input)) (rq_Form input) in
        match validateTwilioJSONBodySHA requestURL (rq_Headers input) (rq_Body input) with
        | Some err => Some (ErrAuthFailed id err)
        | None =>
            if decide (signature = TwilioSignature token requestURL form) then None
            else Some (ErrAuthFailed id "invalid Twilio signature")
        end.

(** *** Hooks *)

Inductive ProviderAuthHook : Type := TelegramHook | SlackHook | DiscordHook | WhatsAppHook | TwilioHook.

Definition hook_AuthRequirements (h : ProviderAuthHook) (service : ServiceValidationConfig) : AuthRequirements :=
  match h with
  | TelegramHook => TelegramAuthHook_AuthRequirements service
  | SlackHook => SlackAuthHook_AuthRequirements service
  | DiscordHook => DiscordAuthHook_AuthRequirements service
  | WhatsAppHook => WhatsAppAuthHook_AuthRequirements service
  | TwilioHook => no_requirements
  end.

(** Only the Twilio hook is a [ProviderRequestValidator]. *)
Definition hook_validates (h : ProviderAuthHook) : bool := match h with TwilioHook => true | _ => false end.

Definition hook_ValidateProviderRequest (h : ProviderAuthHook) (input : RequestValidationInput) : option MessengerError :=
  match h with TwilioHook => Twilio_ValidateProviderRequest input | _ => None end.

Record ServiceValidator : Type := mkValidator {
  va_Hooks : gmap string ProviderAuthHook;
  va_Replay : option MemoryReplayStore
}.

Definition NewServiceValidator : ServiceValidator :=
  mkValidator (list_to_map [(PlatformTelegram, TelegramHook); (PlatformSlack, SlackHook); (PlatformDiscord, DiscordHook);
                            (PlatformWhatsApp, WhatsAppHook); ("whatsapp-cloud", WhatsAppHook); ("twilio", TwilioHook)])
    (Some NewMemoryReplayStore).

Definition providerHook (v : ServiceValidator) (service : ServiceValidationConfig) : string * option ProviderAuthHook :=
  let provider := firstConfigured [opt (sv_Options service) "provider"; sv_Adapter service] in
  let provider :=
    if decide (opt (sv_Options service) "provider" = "" /\ hasGenericAuthOptions (sv_Options service) = true)
    then "" else provider in
  if decide (provider = "") then ("", None)
  else match va_Hooks v !! provider with
       | Some hook => (provider, Some hook)
       | None => ("", None)
       end.

Record AuthSummary : Type := mkSummary {
  as_Provider : string;
  as_ProviderValidated : bool;
  as_Requirements : AuthRequirements
}.

Definition DescribeAuth (v : ServiceValidator) (service : ServiceValidationConfig) : AuthSummary :=
  match providerHook v service with
  | (_, None) => mkSummary "" false (authRequirements service)
  | (provider, Some hook) =>
      mkSummary provider (hook_validates hook)
        (mergeAuthRequirements (authRequirements service) (hook_AuthRequirements hook service))
  end.

(** ** Checks *)

Definition parseTimestamp (raw : string) : option Z :=
  match TimeParse RFC3339 raw with
  | Some ts => Some ts
  | None =>
      match TimeParse RFC3339Nano raw with
      | Some ts => Some ts
      | None => match ParseInt (TrimSpace raw) with (sec, None) => Some (Unix sec 0) | _ => None end
      end
  end.

(** What is left of a check: the error, or the store with the answer of [MarkSeen]. *)
Definition tolerance (req : AuthRequirements) : Z :=
  if decide (ar_TimestampTolerance req <= 0) then 5 * Minute else ar_TimestampTolerance req.

Definition checkTimestamp (serviceID : string) (req : AuthRequirements) (headers : string -> string) (now : Z) :
    option MessengerError :=
  if decide (ar_TimestampHeader req = "") then None
  else
    let tsRaw := TrimSpace (headers (ar_TimestampHeader req)) in
    if decide (tsRaw = "") then Some (ErrAuthFailed serviceID "missing provider timestamp")
    else match parseTimestamp tsRaw with
         | None => Some (ErrAuthFailed serviceID "invalid provider timestamp")
         | Some ts =>
             let age := Sub now ts in
             if decide (age < - tolerance req \/ age > tolerance req)
             then Some (ErrAuthFailed serviceID "provider timestamp outside tolerance") else None
         end.

Definition validateTimestampAndReplay (clock : Z) (pick : gmap string Z -> option string) (serviceID : string)
    (req : AuthRequirements) (headers : string -> string) (now : Z) (replay : option MemoryReplayStore) :
    option MemoryReplayStore * option MessengerError :=
  match checkTimestamp serviceID req headers now with
  | Some err => (replay, Some err)
  | None =>
      if decide (ar_ReplayIDHeader req = "") then (replay, None)
      else
        let replayID := TrimSpace (headers (ar_ReplayIDHeader req)) in
        if decide (replayID = "") then (replay, Some (ErrAuthFailed serviceID "missing provider replay id"))
        else match replay with
             | None => (None, None)
             | Some store =>
                 match MarkSeen clock pick store (serviceID +:+ ":" +:+ replayID) (tolerance req) with
                 | (store, true) => (Some store, Some (ErrReplayRejected serviceID "duplicate provider delivery"))
                 | (store, false) => (Some store, None)
                 end
             end
  end.

(** The switch of [validateAuth] on the scheme. *)
Definition checkToken (serviceID : string) (req : AuthRequirements) (headers : string -> string) (bearer : bool) :
    option MessengerError :=
  let expected := firstConfigured [ar_Token req; getenv (ar_TokenEnv req)] in
  if decide (expected = "") then Some (ErrMissingSecret "message provider auth token")
  else
    let got := TrimSpace (headers (ar_Header req)) in
    if bearer && negb (HasPrefix got "Bearer ") then Some (ErrAuthFailed serviceID "missing bearer token")
    else
      let got := if bearer then TrimSpace (TrimPrefix got "Bearer ") else got in
      if decide (got = "" \/ got <> expected) then Some (ErrAuthFailed serviceID "invalid provider token") else None.

Definition checkHMAC (serviceID : string) (req : AuthRequirements) (headers : string -> string) (body : string) :
    option MessengerError :=
  let secret := firstConfigured [ar_SignatureSecret req; getenv (ar_SignatureSecretEnv req)] in
  if decide (secret = "") then Some (ErrMissingSecret "message provider signature secret")
  else match DecodeHex (TrimPrefix (TrimSpace (headers (ar_Header req))) "sha256=") with
       | Some got =>
           if decide (got = "" \/ got <> hmac_sha256 secret body)
           then Some (ErrAuthFailed serviceID "invalid provider signature") else None
       | None => Some (ErrAuthFailed serviceID "invalid provider signature")
       end.

Definition checkSlack (serviceID : string) (req : AuthRequirements) (headers : string -> string) (body : string) :
    option MessengerError :=
  let secret := firstConfigured [ar_SignatureSecret req; getenv (ar_SignatureSecretEnv req)] in
  if decide (secret = "") then Some (ErrMissingSecret "Slack signing secret")
  else
    let timestamp := TrimSpace (headers (ar_TimestampHeader req)) in
    if decide (timestamp = "") then Some (ErrAuthFailed serviceID "missing Slack request timestamp")
    else match DecodeHex (TrimPrefix (TrimSpace (headers (ar_Header req))) "v0=") with
         | Some got =>
             if decide (got = "" \/ got <> hmac_sha256 secret ("v0:" +:+ timestamp +:+ ":" +:+ body))
             then Some (ErrAuthFailed serviceID "invalid Slack signature") else None
         | None => Some (ErrAuthFailed serviceID "invalid Slack signature")
         end.

Definition checkEd25519 (serviceID : string) (req : AuthRequirements) (headers : string -> string) (body : string) :
    option MessengerError :=
  let publicKeyHex := firstConfigured [ar_SignatureSecret req; getenv (ar_SignatureSecretEnv req)] in
  if decide (publicKeyHex = "") then Some (ErrMissingSecret "message provider public key")
  else match DecodeHex publicKeyHex with
       | Some publicKey =>
           if decide (String.length publicKey <> 32%nat) then Some (ErrAuthFailed serviceID "invalid provider public key")
           else match DecodeHex (TrimSpace (headers (ar_Header req))) with
                | Some signature =>
                    if decide (String.length signature <> 64%nat)
                    then Some (ErrAuthFailed serviceID "invalid provider signature")
                    else
                      let timestamp := TrimSpace (headers (ar_TimestampHeader req)) in
                      if decide (timestamp = "") then Some (ErrAuthFailed serviceID "missing provider timestamp")
                      else if ed25519_Verify publicKey (timestamp +:+ body) signature then None
                      else Some (ErrAuthFailed serviceID "invalid provider signature")
                | None => Some (ErrAuthFailed serviceID "invalid provider signature")
                end
       | None => Some (ErrAuthFailed serviceID "invalid provider public key")
       end.

Definition checkScheme (serviceID : string) (req : AuthRequirements) (headers : string -> string) (body : string) :
    option MessengerError :=
  match ar_Scheme req with
  | AuthSchemeNone => None
  | AuthSchemeBearer => checkToken serviceID req headers true
  | AuthSchemeToken => checkToken serviceID req headers false
  | AuthSchemeHMACSHA256 => checkHMAC serviceID req headers body
  | AuthSchemeSlack => checkSlack serviceID req headers body
  | AuthSchemeEd25519 => checkEd25519 serviceID req headers body
  | OtherScheme _ => Some (ErrAuthFailed serviceID "unsupported provider auth scheme")
  end.

Definition validateAuth (clock : Z) (pick : gmap string Z -> option string) (serviceID : string) (req : AuthRequirements)
    (headers : string -> string) (body : string) (now : Z) (replay : option MemoryReplayStore) :
    option MemoryReplayStore * option MessengerError :=
  match checkScheme serviceID req headers body with
  | Some err => (replay, Some err)
  | None => validateTimestampAndReplay clock pick serviceID req headers now replay
  end.

Inductive RequestErr : Type := ContextErr | RequestErr_of (e : MessengerError).

(** The last call of [ValidateRequest]. *)
Definition finishRequest (clock : Z) (pick : gmap string Z -> option string) (v : ServiceValidator)
    (input : RequestValidationInput) (now : Z) (req : AuthRequirements) : ServiceValidator * option RequestErr :=
  match validateAuth clock pick (sv_ID (rq_Service input)) req (rq_Headers input) (rq_Body input) now (va_Replay v) with
  | (replay, err) => (mkValidator (va_Hooks v) replay, RequestErr_of <$> err)
  end.

(** [cancelled] is whether the context of the request is done; [clock] is [v.Now] and the
    clock of the store. *)
Definition ValidateRequest (cancelled : bool) (clock : Z) (pick : gmap string Z -> option string) (v : ServiceValidator)
    (input : RequestValidationInput) : ServiceValidator * option RequestErr :=
  let service := rq_Service input in
  if cancelled then (v, Some ContextErr)
  else if decide (TrimSpace (sv_ID service) = "") then (v, None)
  else
    let now := if IsZero (rq_Now input) then clock else rq_Now input in
    let req := authRequirements service in
    match (providerHook v service).2 with
    | None => finishRequest clock pick v input now req
    | Some hook =>
        match hook_ValidateProviderRequest hook input with
        | Some err => (v, Some (RequestErr_of err))
        | None => finishRequest clock pick v input now (mergeAuthRequirements req (hook_AuthRequirements hook service))
        end
    end.

Definition MarkReplay (clock : Z) (pick : gmap string Z -> option string) (v : ServiceValidator) (serviceID key : string)
    (ttl : Z) : ServiceValidator * bool :=
  match va_Replay v with
  | None => (v, false)
  | Some store =>
      if decide (TrimSpace serviceID = "" \/ TrimSpace key = "") then (v, false)
      else
        let ttl := if decide (ttl <= 0) then 24 * 60 * Minute else ttl in
        let '(store, seen) := MarkSeen clock pick store (serviceID +:+ ":" +:+ key) ttl in
        (mkValidator (va_Hooks v) (Some store), seen)
  end.

(** ** Messages *)

Definition slackBotMentioned (msg : NormalizedMessage) (botUserID : string) : bool :=
  let meta := default [] (nm_PlatformMetadata msg) in
  if match mget meta "slack_bot_mentioned" with Some (ABool b) => b | _ => false end then true
  else if match mget meta "slack_event_type" with Some (AStr t) => bool_decide (t = "app_mention") | _ => false end then true
  else let botUserID := TrimSpace botUserID in
       negb (bool_decide (botUserID = "")) && Contains (nm_Text msg) ("<@" +:+ botUserID +:+ ">").

(** A list that is configured and contains none of the values refuses the message. *)
Definition refused (allowed : list string) (found : bool) : bool := negb (bool_decide (allowed = [])) && negb found.

Definition ValidateMessage (service : ServiceValidationConfig) (m : option NormalizedMessage) : option MessengerError :=
  match m with
  | None => None
  | Some msg =>
      let opts := sv_Options service in
      let id := sv_ID service in
      let channel := [cn_ID (nm_Channel msg); cn_PlatformID (nm_Channel msg)] in
      let csv k := splitCSV (opt opts k) in
      if decide (TrimSpace id = "") then None
      else if decide (opts = ∅) then None
      else if refused (csv "allowed_channels") (containsAny (csv "allowed_channels") channel)
      then Some (ErrSenderNotAllowed id ("channel " +:+ Quote (safeID (cn_ID (nm_Channel msg))) +:+ " is not allowed"))
      else if refused (csv "allowed_guilds") (containsAny (csv "allowed_guilds") [nm_WorkspaceID msg])
      then Some (ErrSenderNotAllowed id ("guild " +:+ Quote (safeID (nm_WorkspaceID msg)) +:+ " is not allowed"))
      else if refused (csv "allowed_chats") (containsAny (csv "allowed_chats") channel)
      then Some (ErrSenderNotAllowed id ("chat " +:+ Quote (safeID (cn_ID (nm_Channel msg))) +:+ " is not allowed"))
      else if refused (csv "allowed_numbers") (containsAny (csv "allowed_numbers")
                ([sn_ID (nm_Sender msg); sn_PlatformID (nm_Sender msg)] ++ channel))
      then Some (ErrSenderNotAllowed id "phone number is not allowed")
      else if refused (csv "allowed_senders") (MatchAllowedSender ParseAddress (csv "allowed_senders")
                [sn_ID (nm_Sender msg); sn_PlatformID (nm_Sender msg); sn_PlatformHandle (nm_Sender msg)])
      then Some (ErrSenderNotAllowed id "sender address is not allowed")
      else if decide (sv_Adapter service = PlatformWhatsApp /\ TrimSpace (opt opts "phone_number_id") <> ""
                      /\ containsAny [TrimSpace (opt opts "phone_number_id")] channel = false)
      then Some (ErrSenderNotAllowed id ("phone_number_id " +:+ Quote (safeID (cn_ID (nm_Channel msg))) +:+ " is not allowed"))
      else if decide (sv_Adapter service = PlatformSlack /\ truthyOption (opt opts "require_bot_mention") = true
                      /\ cn_Type (nm_Channel msg) <> ChannelTypeDirect /\ slackBotMentioned msg (opt opts "bot_user_id") = false)
      then Some (ErrSenderNotAllowed id "Slack bot mention is required")
      else None
  end.
End Validation.

(** ** What a request needs to be accepted *)

Lemma dropSpace_nil l : dropSpace l = [] -> Forall (fun c => isSpace c = true) l.
Proof. induction l as [|c l IH]; simpl; [by constructor|]. destruct (isSpace c) eqn:E; [|done]. constructor; auto. Qed.

Lemma TrimSpace_blank s c : c ∈ chars s -> isSpace c = false -> TrimSpace s <> "".
Proof.
  intros Hc Hs H. unfold TrimSpace in H. apply unchars_nil in H. unfold trim in H.
  apply (f_equal reverse) in H. rewrite reverse_involutive in H. apply dropSpace_nil in H.
  rewrite Forall_reverse in H. destruct (dropSpace_suffix (chars s)) as (u & Hu & Fu). rewrite Hu in Hc.
  rewrite Forall_forall in H, Fu. apply elem_of_app in Hc as [Hc|Hc]; [apply Fu in Hc|apply H in Hc]; congruence.
Qed.

Lemma delivery_key_blank id r : TrimSpace (id +:+ ":" +:+ r) <> "".
Proof.
  apply (TrimSpace_blank _ ":"%char); [|done]. rewrite !chars_app. apply elem_of_app. right. by left.
Qed.

Section Accepted.
Context `{ME : MsgEnv}.

Definition tokenOf (req : AuthRequirements) : string := firstConfigured [ar_Token req; getenv (ar_TokenEnv req)].
Definition secretOf (req : AuthRequirements) : string :=
  firstConfigured [ar_SignatureSecret req; getenv (ar_SignatureSecretEnv req)].

(** The credential that a scheme stands for. *)
Definition credential (req : AuthRequirements) (headers : string -> string) (body : string) : Prop :=
  let sent := TrimSpace (headers (ar_Header req)) in
  let stamp := TrimSpace (headers (ar_TimestampHeader req)) in
  match ar_Scheme req with
  | AuthSchemeNone => True
  | AuthSchemeBearer =>
      tokenOf req <> "" /\ exists rest, sent = "Bearer " +:+ rest /\ TrimSpace rest = tokenOf req
  | AuthSchemeToken => tokenOf req <> "" /\ sent = tokenOf req
  | AuthSchemeHMACSHA256 =>
      secretOf req <> "" /\ hmac_sha256 (secretOf req) body <> "" /\
      DecodeHex (TrimPrefix sent "sha256=") = Some (hmac_sha256 (secretOf req) body)
  | AuthSchemeSlack =>
      let mac := hmac_sha256 (secretOf req) ("v0:" +:+ stamp +:+ ":" +:+ body) in
      secretOf req <> "" /\ stamp <> "" /\ mac <> "" /\ DecodeHex (TrimPrefix sent "v0=") = Some mac
  | AuthSchemeEd25519 =>
      exists key signature, DecodeHex (secretOf req) = Some key /\ String.length key = 32%nat /\
        DecodeHex sent = Some signature /\ String.length signature = 64%nat /\ stamp <> "" /\
        ed25519_Verify key (stamp +:+ body) signature = true
  | OtherScheme _ => False
  end.

Definition fresh (req : AuthRequirements) (headers : string -> string) (now : Z) : Prop :=
  ar_TimestampHeader req = "" \/
  exists ts, TrimSpace (headers (ar_TimestampHeader req)) <> "" /\
    parseTimestamp (TrimSpace (headers (ar_TimestampHeader req))) = Some ts /\
    - tolerance req <= Sub now ts <= tolerance req.

Definition deliveryKey (id : string) (req : AuthRequirements) (headers : string -> string) : string :=
  id +:+ ":" +:+ TrimSpace (headers (ar_ReplayIDHeader req)).

Definition undelivered (clock : Z) (id : string) (req : AuthRequirements) (headers : string -> string)
    (replay : option MemoryReplayStore) : Prop :=
  ar_ReplayIDHeader req = "" \/
  (TrimSpace (headers (ar_ReplayIDHeader req)) <> "" /\
   forall store, replay = Some store -> live clock (rp_seen store) !! deliveryKey id req headers = None).

Definition twilio_signed (input : RequestValidationInput) : Prop :=
  let token := twilioAuthToken (rq_Service input) in
  let url := firstConfigured [opt (sv_Options (rq_Service input)) "webhook_url"; rq_URL input] in
  token <> "" /\ url <> "" /\ validateTwilioJSONBodySHA url (rq_Headers input) (rq_Body input) = None /\
  TrimSpace (rq_Headers input TwilioSignatureHeader) <> "" /\
  TrimSpace (rq_Headers input TwilioSignatureHeader)
    = TwilioSignature token url (default (ParseQuery (rq_Body input)) (rq_Form input)).

Lemma checkToken_iff id req headers bearer : checkToken id req headers bearer = None <->
  tokenOf req <> "" /\
  if bearer then exists rest, TrimSpace (headers (ar_Header req)) = "Bearer " +:+ rest /\ TrimSpace rest = tokenOf req
  else TrimSpace (headers (ar_Header req)) = tokenOf req.
Proof.
  unfold checkToken. fold (tokenOf req). set (sent := TrimSpace (headers (ar_Header req))).
  case_decide as Ht; [split; [done|tauto]|]. destruct bearer; cbn [andb negb].
  - destruct (HasPrefix sent "Bearer ") eqn:Ep; cbn [negb].
    + apply HasPrefix_spec in Ep as [rest Hr].
      assert (sent = "Bearer " +:+ unchars rest) as -> by (apply chars_inj; rewrite chars_app, chars_unchars; exact Hr).
      rewrite TrimPrefix_app. case_decide as Hd; split; try done.
      * intros (_ & rest' & H & ?). apply (f_equal (fun s => TrimPrefix s "Bearer ")) in H.
        rewrite !TrimPrefix_app in H. subst. destruct Hd as [Hd|Hd]; congruence.
      * intros _. split; [done|]. exists (unchars rest). split; [done|].
        destruct (decide (TrimSpace (unchars rest) = tokenOf req)); tauto.
    + split; [done|]. intros (_ & rest & H & _). rewrite (proj2 (HasPrefix_spec _ _)) in Ep; [done|].
      exists (chars rest). rewrite H. apply chars_app.
  - case_decide as Hd; split; try done.
    + intros [_ H]. destruct Hd as [Hd|Hd]; congruence.
    + intros _. split; [done|]. destruct (decide (sent = tokenOf req)); tauto.
Qed.

Lemma mac_iff (got mac : string) : ~ (got = "" \/ got <> mac) <-> mac <> "" /\ got = mac.
Proof. destruct (decide (got = mac)) as [->|]; tauto. Qed.

Lemma Some_inj_iff (a b : string) : Some a = Some b <-> a = b.
Proof. split; congruence. Qed.

Lemma checkScheme_iff id req headers body : checkScheme id req headers body = None <-> credential req headers body.
Proof.
  unfold checkScheme, credential. destruct (ar_Scheme req); try done; try apply checkToken_iff.
  - unfold checkHMAC. fold (secretOf req). case_decide; [split; [done|tauto]|].
    destruct (DecodeHex _) as [got|]; [|split; [done|by intros (_ & _ & ?)]]. rewrite Some_inj_iff, <- mac_iff.
    case_decide as Hd; [split; [done|tauto]|tauto].
  - unfold checkSlack. fold (secretOf req). cbv zeta. case_decide; [split; [done|tauto]|].
    case_decide; [split; [done|tauto]|].
    destruct (DecodeHex _) as [got|]; [|split; [done|by intros (_ & _ & _ & ?)]]. rewrite Some_inj_iff, <- mac_iff.
    case_decide as Hd; [split; [done|tauto]|tauto].
  - unfold checkEd25519. fold (secretOf req). cbv zeta. split.
    + intros H. repeat (case_decide || case_match); simplify_eq. naive_solver.
    + intros (k & s & Hk & Hl & Hs & Hl' & Ht & Hv). rewrite decide_False by (intros E; rewrite E in Hk; by injection Hk as <-).
      rewrite Hk, Hs. rewrite !decide_False by (done || tauto). by rewrite Hv.
Qed.

Lemma checkTimestamp_iff id req headers now : checkTimestamp id req headers now = None <-> fresh req headers now.
Proof.
  unfold checkTimestamp, fresh. case_decide; [tauto|]. case_decide; [split; [done|naive_solver]|].
  destruct (parseTimestamp _) as [ts|]; [|split; [done|naive_solver]].
  case_decide as Hd; split; try done.
  - intros [?|(ts' & _ & [= <-] & ?)]; [done|lia].
  - intros _. right. exists ts. split; [done|]. split; [done|lia].
Qed.

Lemma MarkSeen_new clock pick store key ttl : TrimSpace key <> "" ->
  (MarkSeen clock pick store key ttl).2 = false <-> live clock (rp_seen store) !! key = None.
Proof. intros H. unfold MarkSeen. rewrite decide_False by done. by destruct (live _ _ !! key). Qed.

Lemma validateAuth_iff clock pick id req headers body now replay :
  (validateAuth clock pick id req headers body now replay).2 = None <->
  credential req headers body /\ fresh req headers now /\ undelivered clock id req headers replay.
Proof.
  unfold validateAuth. destruct (checkScheme _ _ _ _) eqn:Es.
  { split; [done|]. intros [H _]. apply (checkScheme_iff id) in H. congruence. }
  apply checkScheme_iff in Es. unfold validateTimestampAndReplay, undelivered.
  destruct (checkTimestamp _ _ _ _) eqn:Et.
  { split; [done|]. intros (_ & H & _). apply (checkTimestamp_iff id) in H. congruence. }
  apply checkTimestamp_iff in Et. case_decide; [tauto|]. case_decide; [split; [done|tauto]|].
  destruct replay as [store|].
  - pose proof (MarkSeen_new clock pick store (deliveryKey id req headers) (tolerance req) (delivery_key_blank _ _)) as Hm.
    unfold deliveryKey in *. destruct (MarkSeen _ _ _ _ _) as [s []]; simpl in *; split; naive_solver.
  - split; naive_solver.
Qed.

Lemma twilio_signed_iff input : Twilio_ValidateProviderRequest input = None <-> twilio_signed input.
Proof.
  unfold Twilio_ValidateProviderRequest, twilio_signed. cbv zeta. split.
  - intros H. repeat (case_decide || case_match); simplify_eq; done.
  - intros (H1 & H2 & H3 & H4 & H5). rewrite !decide_False by done. rewrite H3. by rewrite decide_True.
Qed.

(** The error leaves a store with no new entry. *)
Definition replay_shrinks (r r' : option MemoryReplayStore) : Prop :=
  match r, r' with
  | Some s, Some s' => rp_seen s' ⊆ rp_seen s
  | None, None => True
  | _, _ => False
  end.

Lemma replay_shrinks_refl r : replay_shrinks r r.
Proof. destruct r as [s|]; simpl; done. Qed.

Lemma validateAuth_err clock pick id req headers body now replay replay' e :
  validateAuth clock pick id req headers body now replay = (replay', Some e) -> replay_shrinks replay replay'.
Proof.
  unfold validateAuth, validateTimestampAndReplay. repeat (case_match || case_decide); intros; simplify_eq; try apply replay_shrinks_refl.
  unfold MarkSeen in *. repeat (case_match || case_decide); simplify_eq. simpl.
  apply map_filter_subseteq.
Qed.

Lemma finishRequest_iff clock pick v input now req :
  (finishRequest clock pick v input now req).2 = None <->
  credential req (rq_Headers input) (rq_Body input) /\ fresh req (rq_Headers input) now /\
  undelivered clock (sv_ID (rq_Service input)) req (rq_Headers input) (va_Replay v).
Proof.
  rewrite <- (validateAuth_iff clock pick (sv_ID (rq_Service input)) req (rq_Headers input) (rq_Body input) now (va_Replay v)).
  unfold finishRequest. by destruct (validateAuth _ _ _ _ _ _ _ _) as [r [e|]].
Qed.

Lemma finishRequest_err clock pick v input now req v' e :
  finishRequest clock pick v input now req = (v', Some e) -> replay_shrinks (va_Replay v) (va_Replay v').
Proof.
  unfold finishRequest. destruct (validateAuth _ _ _ _ _ _ _ _) as [r [e'|]] eqn:E; [|done].
  intros [= <- _]. simpl. by eapply validateAuth_err.
Qed.

Lemma hook_validates_iff hook input :
  hook_ValidateProviderRequest hook input = None <-> (hook_validates hook = true -> twilio_signed input).
Proof. destruct hook; simpl; try by split. rewrite twilio_signed_iff. split; auto. Qed.
End Accepted.

(** C5: A request of a named service is accepted exactly when it satisfies what
    [DescribeAuth] reports for the service: the request signature where the provider
    validates requests itself, the credential of the reported scheme, a timestamp within
    the tolerance where one is demanded, and a delivery id that is not in the store of
    live deliveries.  A refused request adds nothing to that store. *)
Theorem accepted_iff_described `{ME : MsgEnv} clock pick v input
    (Hid : TrimSpace (sv_ID (rq_Service input)) <> "") :
  let s := DescribeAuth v (rq_Service input) in
  let now := if IsZero (rq_Now input) then clock else rq_Now input in
  ((ValidateRequest false clock pick v input).2 = None <->
     (as_ProviderValidated s = true -> twilio_signed input) /\
     credential (as_Requirements s) (rq_Headers input) (rq_Body input) /\
     fresh (as_Requirements s) (rq_Headers input) now /\
     undelivered clock (sv_ID (rq_Service input)) (as_Requirements s) (rq_Headers input) (va_Replay v)) /\
  (forall v' e, ValidateRequest false clock pick v input = (v', Some e) -> replay_shrinks (va_Replay v) (va_Replay v')).
Proof.
  cbv zeta. unfold ValidateRequest, DescribeAuth. rewrite decide_False by done. cbv zeta.
  destruct (providerHook v (rq_Service input)) as [p [hook|]]; cbn [as_ProviderValidated as_Requirements snd fst];
    [|by split; [rewrite finishRequest_iff; split; [|tauto]|apply finishRequest_err]].
  pose proof (hook_validates_iff hook input) as Hh.
  destruct (hook_ValidateProviderRequest hook input) as [e|]; cbn [snd].
  - split; [|intros v' e' [= <- _]; apply replay_shrinks_refl]. split; [done|]. intros [H _]. by apply Hh in H.
  - split; [rewrite finishRequest_iff; tauto|apply finishRequest_err].
Qed.

(** A platform with a readable "mac" and nothing in its environment. *)
#[local] Instance plain_env : MsgEnv := {
  Getenv := fun _ => "";
  LookupEnv := fun _ => None;
  profileSecrets := fun _ => None;
  TimeParse := fun _ _ => None;
  ParseDuration := fun _ => None;
  ParseAddress := fun a => Some a;
  ParseQuery := fun _ => ∅;
  urlQuery := fun _ => None;
  hmac_sha256 := fun k m => k +:+ "|" +:+ m;
  hmac_sha1_base64 := fun k m => k +:+ "|" +:+ m;
  sha256_hex := fun m => m;
  ed25519_Verify := fun _ _ _ => false
}.

Definition no_pick : gmap string Z -> option string := fun _ => None.

Definition bot_service (options : list (string * string)) : ServiceValidationConfig :=
  mkServiceConfig "bot" "telegram" "" ∅ (list_to_map options).

Definition telegram_request (token : string) : RequestValidationInput :=
  mkRequest (bot_service [("webhook_secret_token", "s3cret"); ("require_replay_check", "yes")]) ""
    (fun h => if decide (h = TelegramSecretTokenHeader) then token else if decide (h = "X-APS-Delivery-ID") then " d1 " else "")
    "{}" None 0.

Lemma accepted_iff_described_witness :
  (ValidateRequest false 10 no_pick NewServiceValidator (telegram_request "s3cret")).2 = None /\
  (ValidateRequest false 10 no_pick NewServiceValidator (telegram_request "other")).2 <> None.
Proof.
  split.
  - apply accepted_iff_described; [done|]. split; [done|]. split; [by vm_compute|]. split; [by left|].
    right. split; [done|]. by intros store [= <-].
  - intros H. apply accepted_iff_described in H; [|done]. destruct H as (_ & [_ H] & _). by vm_compute in H.
Defined.

(** ** Deliveries are accepted once *)

Record SeenCall : Type := mkSeen {
  sc_now : Z;
  sc_pick : gmap string Z -> option string;
  sc_key : string;
  sc_ttl : Z
}.

Definition markCall (s : MemoryReplayStore) (c : SeenCall) : MemoryReplayStore :=
  (MarkSeen (sc_now c) (sc_pick c) s (sc_key c) (sc_ttl c)).1.

Definition runSeen (s : MemoryReplayStore) (calls : list SeenCall) : MemoryReplayStore := foldl markCall s calls.

(** No call of the run finds the store full of unexpired entries. *)
Fixpoint roomy (s : MemoryReplayStore) (calls : list SeenCall) : Prop :=
  match calls with
  | [] => True
  | c :: calls => Z.of_nat (size (live (sc_now c) (rp_seen s))) < rp_maxSize s /\ roomy (markCall s c) calls
  end.

Definition valid_pick (pick : gmap string Z -> option string) : Prop :=
  forall m, match pick m with Some k => is_Some (m !! k) | None => m = ∅ end.

Lemma live_lookup now seen k exp : live now seen !! k = Some exp <-> seen !! k = Some exp /\ now < exp.
Proof. unfold live. rewrite map_lookup_filter_Some. unfold After. simpl. rewrite Z.ltb_lt. done. Qed.

Lemma markCall_keeps s c k exp : rp_seen s !! k = Some exp -> sc_now c < exp ->
  Z.of_nat (size (live (sc_now c) (rp_seen s))) < rp_maxSize s -> rp_seen (markCall s c) !! k = Some exp.
Proof.
  intros Hk Hlt Hroom. unfold markCall, MarkSeen. case_decide; [done|].
  destruct (live (sc_now c) (rp_seen s) !! sc_key c) eqn:E; simpl; [by apply live_lookup|].
  unfold evict. rewrite decide_False by lia. rewrite lookup_insert_ne; [by apply live_lookup|].
  intros Ek. by rewrite Ek, (proj2 (live_lookup _ _ _ exp)) in E.
Qed.

Lemma runSeen_keeps s calls k exp : rp_seen s !! k = Some exp -> Forall (fun c => sc_now c < exp) calls ->
  roomy s calls -> rp_seen (runSeen s calls) !! k = Some exp.
Proof.
  revert s. induction calls as [|c calls IH]; intros s Hk Ht Hr; [done|]. apply Forall_cons in Ht as [Hc Ht].
  destruct Hr as [Hr Hrs]. simpl. apply IH; [by apply markCall_keeps|done..].
Qed.

Lemma markCall_bound s c : valid_pick (sc_pick c) -> 0 < rp_maxSize s ->
  Z.of_nat (size (rp_seen s)) <= rp_maxSize s ->
  Z.of_nat (size (rp_seen (markCall s c))) <= rp_maxSize s /\ rp_maxSize (markCall s c) = rp_maxSize s.
Proof.
  intros Hp Hpos Hs. unfold markCall, MarkSeen. case_decide; [done|].
  assert (size (live (sc_now c) (rp_seen s)) <= size (rp_seen s))%nat as Hl
    by (apply map_subseteq_size, map_filter_subseteq).
  destruct (live _ _ !! _) eqn:E; simpl; [split; [lia|done]|]. split; [|done]. unfold evict. case_decide as Hfull.
  - specialize (Hp (live (sc_now c) (rp_seen s))). destruct (sc_pick c _) as [k|].
    + rewrite map_size_insert_None; [|rewrite lookup_delete_None; by right]. rewrite map_size_delete_Some by done.
      assert (size (live (sc_now c) (rp_seen s)) <> 0)%nat; [|lia].
      intros H0%map_size_empty_inv. rewrite H0 in Hp. by destruct Hp.
    + rewrite Hp in *. rewrite map_size_empty in Hfull. lia.
  - rewrite map_size_insert_None by done. lia.
Qed.

(** C6: A delivery that was accepted is reported as a duplicate until its entry expires,
    whatever other deliveries come in between, as long as no call finds the store full of
    unexpired entries; and the store never holds more than its maximal size. *)
Theorem replay_rejected s t0 pick key ttl s1 calls t pick' ttl'
    (Hkey : TrimSpace key <> "") (Hfirst : MarkSeen t0 pick s key ttl = (s1, false))
    (Htimes : Forall (fun c => sc_now c < t0 + ttl) calls) (Ht : t < t0 + ttl) (Hroom : roomy s1 calls) :
  (MarkSeen t pick' (runSeen s1 calls) key ttl').2 = true /\
  (forall s0 cs, Forall (fun c => valid_pick (sc_pick c)) cs -> 0 < rp_maxSize s0 ->
     Z.of_nat (size (rp_seen s0)) <= rp_maxSize s0 -> Z.of_nat (size (rp_seen (runSeen s0 cs))) <= rp_maxSize s0).
Proof.
  split.
  - assert (rp_seen s1 !! key = Some (t0 + ttl)) as H1.
    { unfold MarkSeen in Hfirst. rewrite decide_False in Hfirst by done. destruct (live _ _ !! key); [done|].
      injection Hfirst as <-. simpl. by rewrite lookup_insert_eq. }
    pose proof (runSeen_keeps _ _ _ _ H1 Htimes Hroom) as H2. unfold MarkSeen. rewrite decide_False by done.
    by rewrite (proj2 (live_lookup _ _ _ (t0 + ttl))).
  - intros s0 cs. revert s0. induction cs as [|c cs IH]; intros s0 Hp Hpos Hs; [done|].
    apply Forall_cons in Hp as [Hc Hp]. destruct (markCall_bound s0 c Hc Hpos Hs) as [Hb Hm]. simpl.
    rewrite <- Hm in *. by apply IH.
Qed.

Lemma replay_rejected_witness :
  (MarkSeen 50 no_pick (runSeen (MarkSeen 0 no_pick NewMemoryReplayStore "bot:d1" 100).1
      [mkSeen 10 no_pick "bot:d2" 100; mkSeen 20 no_pick "bot:d3" 5]) "bot:d1" 100).2 = true.
Proof.
  apply (replay_rejected NewMemoryReplayStore 0 no_pick "bot:d1" 100
    (MarkSeen 0 no_pick NewMemoryReplayStore "bot:d1" 100).1); [done|reflexivity| |lia|].
  - repeat constructor; simpl; lia.
  - repeat split; vm_compute; reflexivity.
Defined.

(** The key of a delivery does not separate the service from the id. *)
Example delivery_keys_collide :
  (MarkSeen 1 no_pick (MarkSeen 0 no_pick NewMemoryReplayStore ("a" +:+ ":" +:+ "b:c") 100).1 ("a:b" +:+ ":" +:+ "c") 100).2
    = true.
Proof. reflexivity. Qed.

(** ** Allow lists *)

Section Allowed.
Context `{ME : MsgEnv}.

Definition listed (opts : smap) (k : string) (values : list string) : Prop :=
  splitCSV (opt opts k) = [] \/
  exists v, v ∈ values /\ TrimSpace v <> "" /\ TrimSpace v ∈ splitCSV (opt opts k).

Lemma refused_listed opts k values :
  refused (splitCSV (opt opts k)) (containsAny (splitCSV (opt opts k)) values) = false <-> listed opts k values.
Proof.
  unfold refused, listed. rewrite andb_false_iff, !negb_false_iff, bool_decide_eq_true, containsAny_spec. done.
Qed.

Definition sender_listed (opts : smap) (candidates : list string) : Prop :=
  splitCSV (opt opts "allowed_senders") = [] \/
  exists c p, c ∈ candidates /\ p ∈ splitCSV (opt opts "allowed_senders") /\ admits p (normalizeEmailAddress ParseAddress c).

Lemma refused_senders opts candidates :
  refused (splitCSV (opt opts "allowed_senders")) (MatchAllowedSender ParseAddress (splitCSV (opt opts "allowed_senders")) candidates)
    = false <-> sender_listed opts candidates.
Proof.
  unfold refused, sender_listed. rewrite andb_false_iff, !negb_false_iff, bool_decide_eq_true, MatchAllowedSender_spec. done.
Qed.
End Allowed.

Lemma ValidateMessage_iff `{ME : MsgEnv} service m (Hid : TrimSpace (sv_ID service) <> "") :
  let opts := sv_Options service in
  let channel := [cn_ID (nm_Channel m); cn_PlatformID (nm_Channel m)] in
  let sender := [sn_ID (nm_Sender m); sn_PlatformID (nm_Sender m)] in
  ValidateMessage service (Some m) = None <->
    listed opts "allowed_channels" channel /\ listed opts "allowed_guilds" [nm_WorkspaceID m] /\
    listed opts "allowed_chats" channel /\ listed opts "allowed_numbers" (sender ++ channel) /\
    sender_listed opts (sender ++ [sn_PlatformHandle (nm_Sender m)]) /\
    (sv_Adapter service = PlatformWhatsApp -> TrimSpace (opt opts "phone_number_id") <> "" ->
       exists v, v ∈ channel /\ TrimSpace v = TrimSpace (opt opts "phone_number_id")) /\
    (sv_Adapter service = PlatformSlack -> truthyOption (opt opts "require_bot_mention") = true ->
       cn_Type (nm_Channel m) = ChannelTypeDirect \/ slackBotMentioned m (opt opts "bot_user_id") = true).
Proof.
  cbv zeta. rewrite <- !refused_listed, <- refused_senders. unfold ValidateMessage. rewrite decide_False by done. cbv zeta.
  cbn [app].
  case_decide as Ho.
  { rewrite Ho. split; [intros _|done]. unfold refused. by repeat split. }
  repeat (case_match; [split; [done|intros (?&?&?&?&?&?); congruence]|]).
  assert (forall k, k <> "" -> containsAny [k] [cn_ID (nm_Channel m); cn_PlatformID (nm_Channel m)] = true <->
    exists v, v ∈ [cn_ID (nm_Channel m); cn_PlatformID (nm_Channel m)] /\ TrimSpace v = k) as Hc.
  { intros k Hk. rewrite containsAny_spec. setoid_rewrite list_elem_of_singleton. split.
    - intros (v & ? & _ & ?). by exists v.
    - intros (v & ? & <-). by exists v. }
  case_decide as Hw.
  { split; [done|]. intros (_ & _ & _ & _ & _ & Hx & _). destruct Hw as (Hw & Hp & Hf).
    specialize (Hx Hw Hp). apply Hc in Hx; [congruence|done]. }
  case_decide as Hs.
  { split; [done|]. intros (_ & _ & _ & _ & _ & _ & Hx). destruct Hs as (Hs & Ht & Hd & Hb).
    destruct (Hx Hs Ht); congruence. }
  split; [intros _; repeat split; try done|done].
  - intros Hwa Hp. apply Hc; [done|].
    destruct (containsAny [TrimSpace (opt (sv_Options service) "phone_number_id")] _) eqn:E; [done|]. by destruct Hw.
  - intros Hsl Ht. destruct (decide (cn_Type (nm_Channel m) = ChannelTypeDirect)); [by left|right].
    destruct (slackBotMentioned _ _) eqn:E; [done|]. by destruct Hs.
Qed.

(** A message of a named service passes exactly when every allow list that is
    configured contains one of the identifiers it applies to, the phone number id is the
    configured one (WhatsApp), and the bot is mentioned outside direct conversations where
    that is required (Slack); a refusal always carries the code sender_not_allowed. *)
Theorem message_allowed_iff `{ME : MsgEnv} service m (Hid : TrimSpace (sv_ID service) <> "") :
  let opts := sv_Options service in
  let channel := [cn_ID (nm_Channel m); cn_PlatformID (nm_Channel m)] in
  let sender := [sn_ID (nm_Sender m); sn_PlatformID (nm_Sender m)] in
  (ValidateMessage service (Some m) = None <->
     listed opts "allowed_channels" channel /\ listed opts "allowed_guilds" [nm_WorkspaceID m] /\
     listed opts "allowed_chats" channel /\ listed opts "allowed_numbers" (sender ++ channel) /\
     sender_listed opts (sender ++ [sn_PlatformHandle (nm_Sender m)]) /\
     (sv_Adapter service = PlatformWhatsApp -> TrimSpace (opt opts "phone_number_id") <> "" ->
        exists v, v ∈ channel /\ TrimSpace v = TrimSpace (opt opts "phone_number_id")) /\
     (sv_Adapter service = PlatformSlack -> truthyOption (opt opts "require_bot_mention") = true ->
        cn_Type (nm_Channel m) = ChannelTypeDirect \/ slackBotMentioned m (opt opts "bot_user_id") = true)) /\
  (forall e, ValidateMessage service (Some m) = Some e -> IsSenderNotAllowed e = true).
Proof.
  split; [by apply ValidateMessage_iff|]. intros e. unfold ValidateMessage. intros H. repeat (case_match || case_decide); by simplify_eq.
Qed.

Definition guild_service : ServiceValidationConfig :=
  mkServiceConfig "bot" "slack" "" ∅ (list_to_map [("allowed_guilds", "T1, T2"); ("require_bot_mention", "on"); ("bot_user_id", "B")]).

Lemma message_allowed_iff_witness :
  ValidateMessage guild_service (Some (sample_message "direct" "D1" None)) = None /\
  ValidateMessage guild_service (Some (sample_message "group" "C1" None)) <> None.
Proof.
  split.
  - apply message_allowed_iff; [done|].
    split; [by left|]. split; [right; exists "T1"; split; [by left|]; split; [done|by left]|].
    split; [by left|]. split; [by left|]. split; [by left|]. split; [done|]. intros _ _. by left.
  - intros H. apply message_allowed_iff in H; [|done]. destruct H as (_ & _ & _ & _ & _ & _ & H).
    destruct (H eq_refl eq_refl) as [H1|H1]; by vm_compute in H1.
Defined.

(** A signing key that only the environment bindings of a service name is not looked at
    while the service has no options: its requests are accepted unsigned. *)
Example env_bindings_ignored :
  let service env := mkServiceConfig "wa" "whatsapp" "" env ∅ in
  let bound := list_to_map [("WHATSAPP_APP_SECRET", "s3cret")] in
  ar_Scheme (as_Requirements (DescribeAuth NewServiceValidator (service bound))) = AuthSchemeNone /\
  (ValidateRequest false 10 no_pick NewServiceValidator (mkRequest (service bound) "" (fun _ => "") "{}" None 0)).2 = None /\
  ar_Scheme (as_Requirements (DescribeAuth NewServiceValidator
    (mkServiceConfig "wa" "whatsapp" "" bound {["receive" := "webhook"]}))) = AuthSchemeHMACSHA256.
Proof. repeat split; vm_compute; reflexivity. Qed.

(** A provider that has no hook switches off the check of the adapter. *)
Example unknown_provider_open :
  ar_Scheme (as_Requirements (DescribeAuth NewServiceValidator (mkServiceConfig "s" "slack" "" ∅ {["provider" := "Slack"]})))
    = AuthSchemeNone.
Proof. reflexivity. Qed.
