(* ===== verification/Normalizer.v ===== *)
(** * Normalization of platform events

    normalizer.go of src/internal/adapters/messenger: raw JSON events of seven platforms
    become messages, and results of actions become replies.

    A raw event is an [option amap] ([None] is the nil map); [now] is what the calls of
    [time.Now] return.  The text of a float64 that is not an integer is the class
    [Float64], and parsing a Discord timestamp an argument. *)

From Stdlib Require Import ZArith Lia String Ascii SpecFloat.
From stdpp Require Import base option list gmap strings.
From S2P Require Import Prelude Text GoValue MsgTypes MsgConfig MsgAuth.

#[local] Open Scope Z_scope.

Section Normalize.
Context `{FL : Float64}.
Variable TimeParse : string -> string -> option Z.

(** ** Access to raw values *)

Definition float_string (f : float64) : string :=
  if SFeqb f (itof (ftoi f)) then FormatInt (ftoi f) else shortest_f f.

Definition getString (m : amap) (key : string) : string :=
  match mget m key with
  | None | Some ANil => ""
  | Some (AStr s) => s
  | Some (AFloat f) => float_string f
  | Some v => Sprint v
  end.

Definition getInt64 (m : amap) (key : string) : Z :=
  match mget m key with
  | Some (AFloat f) => ftoi f
  | Some (AInt z) => z
  | Some (AStr s) => (ParseInt s).1
  | _ => 0
  end.

Definition getMap (m : amap) (key : string) : option amap :=
  match mget m key with Some (AMap sub) => Some sub | _ => None end.

Definition getSlice (m : amap) (key : string) : list any :=
  match mget m key with Some (AList l) => l | _ => [] end.

Definition firstMap (m : amap) (key : string) : option amap :=
  match getSlice m key with AMap first :: _ => Some first | _ => None end.

(** Reading from a map that may be nil. *)
Definition getStringOf (m : option amap) (key : string) : string :=
  match m with Some m => getString m key | None => "" end.

Definition msgStamp (now : Z) : string := "msg_" +:+ FormatInt (UnixNano now).

(** ** Helpers *)

Definition parseUnixTimestamp (now : Z) (value : string) : Z :=
  if decide (value = "") then now
  else match ParseInt value with (seconds, None) => Unix seconds 0 | _ => now end.

Definition parseDiscordTimestamp (now : Z) (value : string) : Z :=
  if decide (value = "") then now
  else match TimeParse RFC3339Nano value with
       | Some ts => ts
       | None => match TimeParse RFC3339 value with Some ts => ts | None => now end
       end.

Definition padFraction (frac : list ascii) : list ascii :=
  take 9 (frac ++ repeat "0"%char (9 - length frac)).

Definition parseSlackTimestamp (value : string) : Z :=
  if decide (value = "") then 0
  else match Cut value "."%char with
       | (secRaw, fracRaw, _) =>
           match ParseInt secRaw with
           | (sec, None) =>
               let nsec := if decide (fracRaw = "") then 0 else (ParseInt (unchars (padFraction (chars fracRaw)))).1 in
               Unix sec nsec
           | _ => 0
           end
       end.

Definition firstNonZeroTime (a b : Z) : Z := if IsZero a then b else a.

Definition stripLeadingSlackMention (text : string) : string :=
  match Fields (TrimSpace text) with
  | f :: fs => if negb (HasPrefix f "<@") || negb (HasSuffix f ">") then TrimSpace text else TrimSpace (Join " " fs)
  | [] => TrimSpace text
  end.

Definition slackTextMentionsUser (text userID : string) : bool :=
  let userID := TrimSpace userID in
  negb (bool_decide (userID = "")) && Contains text ("<@" +:+ userID +:+ ">").

Definition mediaAttachmentType (mimeType : string) : string :=
  if HasPrefix mimeType "audio/" then "audio"
  else if HasPrefix mimeType "image/" then "image"
  else if HasPrefix mimeType "video/" then "video"
  else if decide (mimeType = "") then "" else "file".

Definition discordAttachmentType (mimeType filename : string) : string :=
  if decide (mediaAttachmentType mimeType = "") then if decide (filename = "") then "" else "file"
  else mediaAttachmentType mimeType.

Definition whatsappAttachments (message : amap) : list Attachment :=
  let messageType := getString message "type" in
  match getMap message messageType with
  | None => []
  | Some media =>
      if decide (messageType ∈ ["audio"; "document"; "image"; "sticker"; "video"])
      then
        let attType := if decide (messageType = "document" \/ messageType = "sticker") then "file" else messageType in
        [mkAttachment attType (getString media "id") (getString media "mime_type") 0]
      else []
  end.

Definition buildTelegramName (first last : string) : string :=
  if decide (last = "") then first else if decide (first = "") then last else first +:+ " " +:+ last.

(** The thread that a nonempty id stands for. *)
Definition threadOf (id type : string) : option Thread := if decide (id = "") then None else Some (mkThread id type).
Definition numberThread (n : Z) (type : string) : option Thread :=
  if decide (n = 0) then None else Some (mkThread (FormatInt n) type).

(** The attachments that the entries of a list stand for. *)
Definition attachmentsOf (f : amap -> option Attachment) (m : amap) (key : string) : list Attachment :=
  omap (fun v => match v with AMap a => f a | _ => None end) (getSlice m key).

(** ** Platforms *)

Definition normalizeTelegram (now : Z) (raw : amap) : Res string NormalizedMessage :=
  match (match getMap raw "message" with Some m => Some m | None => getMap raw "edited_message" end) with
  | None => Err "no message or edited_message field in telegram event"
  | Some message =>
      match getMap message "from", getMap message "chat" with
      | Some from, Some chat =>
          let senderID := FormatInt (getInt64 from "id") in
          let chatID := FormatInt (getInt64 chat "id") in
          let chatType := getString chat "type" in
          let channelType :=
            if decide (chatType = "group" \/ chatType = "supergroup") then "group"
            else if decide (chatType = "channel") then "broadcast" else "direct" in
          let thread :=
            match getMap message "reply_to_message" with
            | Some replyTo => numberThread (getInt64 replyTo "message_id") "reply"
            | None => None
            end in
          Ok (mkMessage (msgStamp now) now PlatformTelegram "" ""
                (mkSender senderID (buildTelegramName (getString from "first_name") (getString from "last_name"))
                   (getString from "username") senderID)
                (mkChannel chatID (getString chat "title") channelType chatID)
                (getString message "text") thread [] [] (Some raw))
      | _, _ => Err "missing from or chat in telegram message"
      end
  end.

Definition slackFile (file : amap) : option Attachment :=
  if decide (getString file "url_private" = "") then None
  else Some (mkAttachment (getString file "filetype") (getString file "url_private") (getString file "mimetype") 0).

(** The two keys are written into the raw event itself. *)
Definition normalizeSlack (now : Z) (raw : amap) : Res string NormalizedMessage :=
  match getMap raw "event" with
  | None => Err "no event field in slack payload"
  | Some event =>
      let eventType := getString event "type" in
      let userID := getString event "user" in
      let channelID := getString event "channel" in
      if decide (userID = "" \/ channelID = "") then Err "missing user or channel in slack event"
      else
        let normalizedType := if decide (getString event "channel_type" = "im") then "direct" else "group" in
        let text := getString event "text" in
        let botMentioned := bool_decide (eventType = "app_mention") || slackTextMentionsUser text (getString event "bot_id") in
        let text := if decide (eventType = "app_mention") then stripLeadingSlackMention text else text in
        Ok (mkMessage
              (firstNonEmptyString [getString event "client_msg_id"; getString raw "event_id"; getString event "ts"; msgStamp now])
              (firstNonZeroTime (parseSlackTimestamp (getString event "ts")) now)
              PlatformSlack (getString raw "team_id") ""
              (mkSender userID "" "" userID)
              (mkChannel channelID (getString event "channel") normalizedType channelID)
              text (threadOf (getString event "thread_ts") "reply") [] (attachmentsOf slackFile event "files")
              (Some (mset (mset raw "slack_event_type" (AStr eventType)) "slack_bot_mentioned" (ABool botMentioned))))
  end.

Definition discordMessageCreatePayload (raw : amap) : amap :=
  match (if EqualFold (getString raw "t") "MESSAGE_CREATE" then getMap raw "d" else None) with
  | Some data => data
  | None =>
      if EqualFold (getString raw "type") "MESSAGE_CREATE"
      then match getMap raw "data" with
           | Some data => data
           | None => default raw (getMap raw "event")
           end
      else raw
  end.

Definition discordAttachment (a : amap) : option Attachment :=
  if decide (getString a "url" = "") then None
  else Some (mkAttachment (discordAttachmentType (getString a "content_type") (getString a "filename"))
               (getString a "url") (getString a "content_type") (getInt64 a "size")).

Definition discordThread (raw : amap) : option Thread :=
  if decide (getString raw "thread_id" = "")
  then match getMap raw "message_reference" with
       | Some ref => threadOf (getString ref "message_id") "reply"
       | None =>
           match getMap raw "referenced_message" with
           | Some ref => threadOf (getString ref "id") "reply"
           | None => None
           end
       end
  else Some (mkThread (getString raw "thread_id") "topic").

Definition normalizeDiscord (now : Z) (raw : amap) : Res string NormalizedMessage :=
  let raw := discordMessageCreatePayload raw in
  match getMap raw "author" with
  | None => Err "missing author in discord message"
  | Some author =>
      let senderID := getString author "id" in
      let channelID := getString raw "channel_id" in
      if decide (senderID = "" \/ channelID = "") then Err "missing author id or channel_id in discord message"
      else
        let channelType := if decide (getString raw "guild_id" = "") then "direct" else "group" in
        Ok (mkMessage (firstNonEmptyString [getString raw "id"; msgStamp now])
              (parseDiscordTimestamp now (getString raw "timestamp"))
              PlatformDiscord (getString raw "guild_id") ""
              (mkSender senderID (firstNonEmptyString [getString author "global_name"; getString author "username"])
                 (getString author "username") senderID)
              (mkChannel channelID (getString raw "channel_name") channelType channelID)
              (getString raw "content") (discordThread raw) [] (attachmentsOf discordAttachment raw "attachments")
              (Some raw))
  end.

Definition githubText (raw : amap) : string :=
  let action := getString raw "action" in
  let titled (m : amap) :=
    if decide (getString m "title" = "") then action else "[" +:+ action +:+ "] " +:+ getString m "title" in
  match getMap raw "comment" with
  | Some comment => if decide (getString comment "body" = "") then action else getString comment "body"
  | None =>
      match getMap raw "issue" with
      | Some issue => titled issue
      | None => match getMap raw "pull_request" with Some pr => titled pr | None => action end
      end
  end.

Definition githubThread (raw : amap) : option Thread :=
  match getMap raw "issue" with
  | Some issue => numberThread (getInt64 issue "number") "issue"
  | None =>
      match getMap raw "pull_request" with
      | Some pr => numberThread (getInt64 pr "number") "issue"
      | None => None
      end
  end.

Definition githubChannel (raw : amap) : string * string :=
  let '(channelID, channelName) :=
    match getMap raw "repository" with
    | Some repo => (getString repo "full_name", getString repo "name")
    | None => ("", "")
    end in
  if decide (channelID = "")
  then match getMap raw "organization" with
       | Some org => (getString org "login", getString org "login")
       | None => (channelID, channelName)
       end
  else (channelID, channelName).

Definition normalizeGitHub (now : Z) (raw : amap) : Res string NormalizedMessage :=
  match getMap raw "sender" with
  | None => Err "missing sender in github event"
  | Some sender =>
      let senderLogin := getString sender "login" in
      let senderID := FormatInt (getInt64 sender "id") in
      let senderID := if decide (senderID = "0") then senderLogin else senderID in
      let '(channelID, channelName) := githubChannel raw in
      if decide (channelID = "")
      then Err "unable to determine channel (repository or organization) from github event"
      else Ok (mkMessage (msgStamp now) now PlatformGitHub "" ""
                 (mkSender senderID senderLogin senderLogin senderID)
                 (mkChannel channelID channelName "topic" channelID)
                 (githubText raw) (githubThread raw) [] [] (Some raw))
  end.

Definition emailAttachment (a : amap) : option Attachment :=
  if decide (getString a "url" = "" /\ getString a "type" = "") then None
  else Some (mkAttachment (getString a "type") (getString a "url") (getString a "mime_type")
               (Z.max 0 (getInt64 a "size_bytes"))).

Definition normalizeEmail (now : Z) (raw : amap) : Res string NormalizedMessage :=
  let from := getString raw "from" in
  let to := getString raw "to" in
  if decide (from = "") then Err "missing from field in email event"
  else if decide (to = "") then Err "missing to field in email event"
  else Ok (mkMessage (msgStamp now) now PlatformEmail "" "" (mkSender from from from from) (mkChannel to to "direct" to)
             (getString raw "body") (threadOf (getString raw "subject") "topic") []
             (attachmentsOf emailAttachment raw "attachments") (Some raw)).

(** The loop over the media of a phone message: as many rounds as the event says. *)
Definition phoneMedia (raw : amap) (i : Z) : list Attachment :=
  let idx := FormatInt i in
  let url := getString raw ("MediaUrl" +:+ idx) in
  if decide (url = "") then []
  else let mimeType := getString raw ("MediaContentType" +:+ idx) in
       [mkAttachment (mediaAttachmentType mimeType) url mimeType 0].

Definition phoneAttachments (raw : amap) (mediaCount : Z) : list Attachment :=
  concat (map (fun i => phoneMedia raw (Z.of_nat i)) (seq 0 (Z.to_nat mediaCount))).

Definition normalizePhoneMessage (platform : string) (now : Z) (raw : amap) : Res string NormalizedMessage :=
  let from := firstNonEmptyString [getString raw "From"; getString raw "from"] in
  let to := firstNonEmptyString [getString raw "To"; getString raw "to"] in
  if decide (from = "") then Err ("missing from field in " +:+ platform +:+ " event")
  else if decide (to = "") then Err ("missing to field in " +:+ platform +:+ " event")
  else
    let text := firstNonEmptyString [getString raw "Body"; getString raw "body"; getString raw "text"] in
    let mediaCount := getInt64 raw "NumMedia" in
    if decide (TrimSpace text = "" /\ mediaCount = 0) then Err (platform +:+ " event requires Body, body, text, or media")
    else
      let messageID := firstNonEmptyString [getString raw "MessageSid"; getString raw "SmsSid"; getString raw "WaId";
                                            getString raw "message_id"; msgStamp now] in
      Ok (mkMessage messageID now platform "" "" (mkSender from from from from) (mkChannel to to "direct" to)
            text None [] (phoneAttachments raw mediaCount) (Some raw)).

Definition normalizeSMS : Z -> amap -> Res string NormalizedMessage := normalizePhoneMessage PlatformSMS.

Definition normalizeWhatsAppCloud (now : Z) (raw entry : amap) : Res string NormalizedMessage :=
  match firstMap entry "changes" with
  | None => Err "missing changes in whatsapp event"
  | Some change =>
      match getMap change "value" with
      | None => Err "missing value in whatsapp change"
      | Some value =>
          match firstMap value "messages" with
          | None => Err "missing messages in whatsapp value"
          | Some message =>
              let from := getString message "from" in
              if decide (from = "") then Err "missing from in whatsapp message"
              else
                let metadata := getMap value "metadata" in
                let channelID := firstNonEmptyString [getStringOf metadata "phone_number_id"; getStringOf metadata "display_phone_number"] in
                let channelName := getStringOf metadata "display_phone_number" in
                if decide (channelID = "") then Err "missing phone_number_id in whatsapp metadata"
                else
                  let profile := match firstMap value "contacts" with Some contact => getMap contact "profile" | None => None end in
                  let text := getStringOf (getMap message "text") "body" in
                  let attachments := whatsappAttachments message in
                  let text :=
                    if decide (text = "" /\ attachments <> [])
                    then firstNonEmptyString [getStringOf (getMap message (getString message "type")) "caption"; getString message "type"]
                    else text in
                  Ok (mkMessage (firstNonEmptyString [getString message "id"; msgStamp now])
                        (parseUnixTimestamp now (getString message "timestamp"))
                        PlatformWhatsApp "" ""
                        (mkSender from (getStringOf profile "name") from from)
                        (mkChannel channelID channelName "direct" channelID)
                        text (threadOf (getStringOf (getMap message "context") "id") "reply") [] attachments (Some raw))
          end
      end
  end.

Definition normalizeWhatsApp (now : Z) (raw : amap) : Res string NormalizedMessage :=
  match firstMap raw "entry" with
  | Some entry => normalizeWhatsAppCloud now raw entry
  | None => normalizePhoneMessage PlatformWhatsApp now raw
  end.

(** The switch of [Normalize]. *)
Definition normalizePlatform (platform : string) : option (Z -> amap -> Res string NormalizedMessage) :=
  if decide (platform = PlatformTelegram) then Some normalizeTelegram
  else if decide (platform = PlatformSlack) then Some normalizeSlack
  else if decide (platform = PlatformDiscord) then Some normalizeDiscord
  else if decide (platform = PlatformGitHub) then Some normalizeGitHub
  else if decide (platform = PlatformEmail) then Some normalizeEmail
  else if decide (platform = PlatformSMS) then Some normalizeSMS
  else if decide (platform = PlatformWhatsApp) then Some normalizeWhatsApp
  else None.

Definition Normalize (now : Z) (platform : string) (raw : option amap) : Res MessengerError NormalizedMessage :=
  match raw with
  | None => Err (ErrNormalizeFailed platform "raw event is nil")
  | Some raw =>
      match normalizePlatform platform with
      | None => Err (ErrNormalizeFailed platform ("unsupported platform " +:+ Quote platform))
      | Some normalize =>
          match normalize now raw with
          | Err err => Err (ErrNormalizeFailed platform err)
          | Ok msg =>
              match NormalizedMessage_Validate msg with
              | Err err => Err (ErrNormalizeFailed platform (MsgErr_Error err))
              | Ok _ => Ok msg
              end
          end
      end
  end.
End Normalize.

(** ** Replies *)

Record ActionResult : Type := mkResult {
  re_Status : string;
  re_Output : string;
  re_OutputData : any
}.

Definition withData (result : ActionResult) (key : string) (resp : amap) : amap :=
  match re_OutputData result with ANil => resp | data => mset resp key data end.

Definition denormalizeTelegram (result : ActionResult) : amap :=
  withData result "data" [("method", AStr "sendMessage"); ("text", AStr (re_Output result)); ("parse_mode", AStr "Markdown")].

Definition denormalizeSlack (result : ActionResult) : amap :=
  withData result "blocks" [("response_type", AStr "in_channel"); ("text", AStr (re_Output result))].

Definition denormalizeDiscord (result : ActionResult) : amap :=
  withData result "embeds" [("content", AStr (re_Output result)); ("allowed_mentions", AMap [("parse", AList [])])].

Definition denormalizeGitHub (result : ActionResult) : amap :=
  mset [("body", AStr (re_Output result))] "state"
    (AStr (if decide (re_Status result = "failed") then "failure" else "success")).

Definition denormalizeEmail (result : ActionResult) : amap :=
  withData result "data" [("body", AStr (re_Output result)); ("subject", AStr "Re: Action Result")].

Definition denormalizeSMS (result : ActionResult) : amap := [("body", AStr (re_Output result))].

Definition denormalizeWhatsApp (result : ActionResult) : amap :=
  withData result "data" [("type", AStr "text"); ("text", AMap [("body", AStr (re_Output result))])].

Definition Denormalize (platform : string) (result : option ActionResult) : Res string amap :=
  match result with
  | None => Err "action result is nil"
  | Some result =>
      Ok (if decide (platform = PlatformTelegram) then denormalizeTelegram result
          else if decide (platform = PlatformSlack) then denormalizeSlack result
          else if decide (platform = PlatformDiscord) then denormalizeDiscord result
          else if decide (platform = PlatformGitHub) then denormalizeGitHub result
          else if decide (platform = PlatformEmail) then denormalizeEmail result
          else if decide (platform = PlatformSMS) then denormalizeSMS result
          else if decide (platform = PlatformWhatsApp) then denormalizeWhatsApp result
          else [("status", AStr (re_Status result)); ("output", AStr (re_Output result))])
  end.

(** ** Well-formed messages *)

Definition channelTypes : list string := ["direct"; "group"; "broadcast"; "topic"].
Definition threadTypes : list string := ["reply"; "topic"; "issue"].

(** What the [type] comments of the message types promise. *)
Definition well_formed (m : NormalizedMessage) : Prop :=
  cn_Type (nm_Channel m) ∈ channelTypes /\
  (forall t, nm_Thread m = Some t -> th_ID t <> "" /\ th_Type t ∈ threadTypes) /\
  sn_PlatformID (nm_Sender m) = sn_ID (nm_Sender m) /\ cn_PlatformID (nm_Channel m) = cn_ID (nm_Channel m) /\
  nm_ProfileID m = "" /\ nm_Reactions m = [].

Section WellFormed.
Context `{FL : Float64}.
Variable TimeParse : string -> string -> option Z.

Definition thread_wf (o : option Thread) : Prop := forall t, o = Some t -> th_ID t <> "" /\ th_Type t ∈ threadTypes.

Lemma threadOf_wf id type : type ∈ threadTypes -> thread_wf (threadOf id type).
Proof. intros H t. unfold threadOf. case_decide; [done|]. by intros [= <-]. Qed.

Lemma numberThread_wf n type : type ∈ threadTypes -> thread_wf (numberThread n type).
Proof. intros H t. unfold numberThread. case_decide; [done|]. intros [= <-]. split; [apply FormatInt_nonempty|done]. Qed.

Lemma none_wf : thread_wf None.
Proof. done. Qed.

Lemma listed_type (s : string) (l : list string) : bool_decide (s ∈ l) = true -> s ∈ l.
Proof. apply bool_decide_eq_true_1. Qed.

Lemma discordThread_wf raw : thread_wf (discordThread raw).
Proof.
  unfold discordThread. repeat (case_decide || case_match); try apply threadOf_wf; try apply none_wf; try by apply listed_type.
  intros t [= <-]. split; [done|]. by apply listed_type.
Qed.

Lemma githubThread_wf raw : thread_wf (githubThread raw).
Proof. unfold githubThread. repeat case_match; try apply numberThread_wf; try apply none_wf; by apply listed_type. Qed.

#[local] Hint Resolve threadOf_wf numberThread_wf none_wf discordThread_wf githubThread_wf : core.

(** What is shown of each platform: a well-formed message of the platform that keeps the
    event or its payload. *)
Definition of_platform (platform : string) (m : NormalizedMessage) : Prop :=
  well_formed m /\ nm_Platform m = platform /\ is_Some (nm_PlatformMetadata m).

(** Inverts the tests in front of the message, and checks the message. *)
Ltac head_cases H :=
  repeat match type of H with
  | (match ?x with _ => _ end = _) => destruct x; try discriminate H
  end; injection H as <-.

Ltac thread_case :=
  match goal with |- forall t, ?o = Some t -> _ => change (thread_wf o) end; cbn [nm_Thread];
  repeat case_match; eauto using listed_type.

Ltac wf_message :=
  split; [split; [simpl; repeat case_decide; by apply listed_type
                 |split; [thread_case|done]]
         |split; [done|by eexists]].

Lemma normalizeTelegram_wf now raw m : normalizeTelegram now raw = Ok m -> of_platform PlatformTelegram m.
Proof.
  unfold normalizeTelegram. cbv zeta. intros H. head_cases H; wf_message.
Qed.

Lemma normalizeSlack_wf now raw m : normalizeSlack now raw = Ok m -> of_platform PlatformSlack m.
Proof. unfold normalizeSlack. cbv zeta. intros H. head_cases H; wf_message. Qed.

Lemma normalizeDiscord_wf now raw m : normalizeDiscord TimeParse now raw = Ok m -> of_platform PlatformDiscord m.
Proof. unfold normalizeDiscord. cbv zeta. intros H. head_cases H; wf_message. Qed.

Lemma normalizeGitHub_wf now raw m : normalizeGitHub now raw = Ok m -> of_platform PlatformGitHub m.
Proof. unfold normalizeGitHub. cbv zeta. intros H. head_cases H; wf_message. Qed.

Lemma normalizeEmail_wf now raw m : normalizeEmail now raw = Ok m -> of_platform PlatformEmail m.
Proof. unfold normalizeEmail. cbv zeta. intros H. head_cases H; wf_message. Qed.

Lemma normalizePhoneMessage_wf platform now raw m : normalizePhoneMessage platform now raw = Ok m -> of_platform platform m.
Proof. unfold normalizePhoneMessage. cbv zeta. intros H. head_cases H; wf_message. Qed.

Lemma normalizeWhatsApp_wf now raw m : normalizeWhatsApp now raw = Ok m -> of_platform PlatformWhatsApp m.
Proof.
  unfold normalizeWhatsApp. destruct (firstMap raw "entry"); [|apply normalizePhoneMessage_wf].
  unfold normalizeWhatsAppCloud. cbv zeta. intros H. head_cases H; wf_message.
Qed.

Lemma normalizePlatform_wf platform f now raw m :
  normalizePlatform TimeParse platform = Some f -> f now raw = Ok m -> of_platform platform m.
Proof.
  unfold normalizePlatform. intros Hf.
  repeat (case_decide; [injection Hf as <-; subst platform;
    eauto using normalizeTelegram_wf, normalizeSlack_wf, normalizeDiscord_wf, normalizeGitHub_wf, normalizeEmail_wf,
      normalizePhoneMessage_wf, normalizeWhatsApp_wf|]). done.
Qed.

Lemma Normalize_Ok now platform raw m : Normalize TimeParse now platform raw = Ok m ->
  exists r f, raw = Some r /\ normalizePlatform TimeParse platform = Some f /\ f now r = Ok m /\ valid m.
Proof.
  unfold Normalize. destruct raw as [r|]; [|done]. destruct (normalizePlatform TimeParse platform) as [f|]; [|done].
  destruct (f now r) as [msg|e] eqn:E; [|done]. destruct (NormalizedMessage_Validate msg) as [[]|e] eqn:Ev; [|done].
  intros [= <-]. by exists r, f.
Qed.
End WellFormed.

(** C30: Whatever an event looks like, a message that [Normalize] returns is well formed: it
    passes [Validate], its platform is the one asked for, its channel and thread types are
    among the documented ones, a thread has an id, and the identifiers of the platform are
    those of the message; so its conversation is determined as for any valid message. *)
Theorem normalized_well_formed `{FL : Float64} TimeParse now platform raw m
    (Hm : Normalize TimeParse now platform raw = Ok m) :
  valid m /\ well_formed m /\ nm_Platform m = platform /\ is_Some (nm_PlatformMetadata m) /\
  platform ∈ [PlatformTelegram; PlatformSlack; PlatformDiscord; PlatformGitHub; PlatformEmail; PlatformSMS; PlatformWhatsApp].
Proof.
  apply Normalize_Ok in Hm as (r & f & -> & Hf & Hm & Hv). split; [done|].
  destruct (normalizePlatform_wf TimeParse platform f now r m Hf Hm) as (H1 & H2 & H3). split; [done|]. split; [done|].
  split; [done|]. apply (bool_decide_eq_true_1 _). unfold normalizePlatform in Hf.
  repeat (case_decide; [by subst platform|]). done.
Qed.

#[local] Instance plain_float : Float64 := {
  shortest_f := fun _ => "0.5";
  shortest_g := fun _ => "0.5";
  wide := fun _ => min_int64
}.

Definition telegram_event : amap :=
  [("message", AMap [("from", AMap [("id", AFloat (itof 7)); ("first_name", AStr "Ada"); ("last_name", AStr "L")]);
                     ("chat", AMap [("id", AFloat (itof (-1001234567890))); ("type", AStr "supergroup")]);
                     ("text", AStr "hi"); ("reply_to_message", AMap [("message_id", AFloat (itof 41))])])].

Lemma normalized_well_formed_witness : exists m,
  Normalize (fun _ _ => None) 5 "telegram" (Some telegram_event) = Ok m /\
  cn_ID (nm_Channel m) = "-1001234567890" /\ nm_Thread m = Some (mkThread "41" "reply") /\ valid m.
Proof.
  eexists. split; [vm_compute; reflexivity|]. split; [reflexivity|]. split; [reflexivity|].
  apply (normalized_well_formed (fun _ _ => None) 5 "telegram" (Some telegram_event)). vm_compute. reflexivity.
Defined.

(** A negative number of media passes the test for an empty message: the event becomes a
    message with neither text nor attachment. *)
Example negative_media_count : exists m,
  Normalize (fun _ _ => None) 5 "sms" (Some [("From", AStr "+1"); ("To", AStr "+2"); ("NumMedia", AStr "-1")]) = Ok m /\
  nm_Text m = "" /\ nm_Attachments m = [].
Proof. eexists. split; [vm_compute; reflexivity|]. by split. Qed.

(** What an event without ids becomes: chat and sender 0, which pass validation. *)
Example telegram_without_ids : exists m,
  Normalize (fun _ _ => None) 5 "telegram" (Some [("message", AMap [("from", AMap []); ("chat", AMap [])])]) = Ok m /\
  sn_ID (nm_Sender m) = "0" /\ cn_ID (nm_Channel m) = "0".
Proof. eexists. split; [vm_compute; reflexivity|]. by split. Qed.
