(* ===== verification/MsgLinks.v ===== *)
(** * Links between profiles and messengers

    link_store.go and manager.go of src/internal/core/messenger: one file of links per
    profile, channel mappings that are unique over all profiles, and the resolution of a
    channel to an action.

    [LinkFiles] are the files, by profile; a write either replaces the file of a profile or
    fails and leaves it ([fault]).  [profiles] is what [core.ListProfiles] returns. *)

From Stdlib Require Import ZArith Lia String Ascii.
From stdpp Require Import base option list gmap strings fin_maps.
From S2P Require Import Prelude Events MsgTypes MsgConfig.

#[local] Open Scope Z_scope.

Abbreviation Links := (list ProfileMessengerLink).
Abbreviation LinkFiles := (gmap string (Doc Links)).

Inductive ManagerErr : Type :=
  | MgrText (text : string)
  | MgrErr (e : MessengerError)
  | MgrLink (e : LinkErr)
  | MgrLoad (profileID : string)
  | MgrSave
  | MgrList.

(** ** The store *)

Definition LinkStore_Load (fs : LinkFiles) (profileID : string) : Res ManagerErr Links :=
  match default Missing (fs !! profileID) with
  | Missing => Ok []
  | Parsed links => Ok links
  | Unreadable | Malformed => Err (MgrLoad profileID)
  end.

Definition LinkStore_Save (fault : bool) (fs : LinkFiles) (profileID : string) (links : Links) : LinkFiles * Res ManagerErr unit :=
  if fault then (fs, Err MgrSave) else (<[profileID := Parsed links]> fs, Ok tt).

(** ** The manager *)

Definition set_mappings (l : ProfileMessengerLink) (m : gmap string string) (now : Z) : ProfileMessengerLink :=
  mkLink (lk_ProfileID l) (lk_MessengerName l) (lk_MessengerScope l) (lk_Enabled l) m (lk_DefaultAction l) (lk_CreatedAt l) now.
Definition set_default (l : ProfileMessengerLink) (action : string) (now : Z) : ProfileMessengerLink :=
  mkLink (lk_ProfileID l) (lk_MessengerName l) (lk_MessengerScope l) (lk_Enabled l) (lk_Mappings l) action (lk_CreatedAt l) now.
Definition set_enabled (l : ProfileMessengerLink) (enabled : bool) (now : Z) : ProfileMessengerLink :=
  mkLink (lk_ProfileID l) (lk_MessengerName l) (lk_MessengerScope l) enabled (lk_Mappings l) (lk_DefaultAction l) (lk_CreatedAt l) now.

Definition of_messenger (name : string) (l : ProfileMessengerLink) : Prop := lk_MessengerName l = name.
#[global] Instance of_messenger_dec name l : Decision (of_messenger name l).
Proof. unfold of_messenger. apply _. Defined.

Section Manager.
Variable profiles : option (list string).

(** The first proposed channel that a link already maps. [channels] is the order of the
    loop over the proposed mappings. *)
Definition linkConflict (pid : string) (channels : list string) (l : ProfileMessengerLink) : option MessengerError :=
  head (omap (fun c => ErrMappingConflict c pid <$> lk_Mappings l !! c) channels).

Definition profileConflict (fs : LinkFiles) (messengerName : string) (channels : list string) (pid : string) :
    option MessengerError :=
  match LinkStore_Load fs pid with
  | Err _ => None
  | Ok links => head (omap (linkConflict pid channels) (filter (of_messenger messengerName) links))
  end.

Definition validateMappingsAcrossProfiles (fs : LinkFiles) (messengerName proposingProfileID : string)
    (channels : list string) : Res ManagerErr unit :=
  if decide (channels = []) then Ok tt
  else match profiles with
       | None => Err MgrList
       | Some pids =>
           match head (omap (profileConflict fs messengerName channels) (filter (fun pid => pid <> proposingProfileID) pids)) with
           | Some e => Err (MgrErr e)
           | None => Ok tt
           end
       end.

Definition LinkMessengerToProfile (now : Z) (fault : bool) (fs : LinkFiles) (messengerName profileID : string)
    (mappings : gmap string string) (channels : list string) : LinkFiles * Res ManagerErr unit :=
  if decide (messengerName = "") then (fs, Err (MgrText "messenger name is required"))
  else if decide (profileID = "") then (fs, Err (MgrText "profile ID is required"))
  else match LinkStore_Load fs profileID with
       | Err e => (fs, Err e)
       | Ok links =>
           if decide (Exists (of_messenger messengerName) links)
           then (fs, Err (MgrErr (ErrLinkAlreadyExists messengerName profileID)))
           else match validateMappingsAcrossProfiles fs messengerName profileID channels with
                | Err e => (fs, Err e)
                | Ok _ =>
                    let newLink := mkLink profileID messengerName "global" true mappings "" now now in
                    match ProfileMessengerLink_Validate newLink with
                    | Err e => (fs, Err (MgrLink e))
                    | Ok _ => LinkStore_Save fault fs profileID (links ++ [newLink])
                    end
                end
       end.

Definition UnlinkMessengerFromProfile (fault : bool) (fs : LinkFiles) (messengerName profileID : string) :
    LinkFiles * Res ManagerErr unit :=
  match LinkStore_Load fs profileID with
  | Err e => (fs, Err e)
  | Ok links =>
      if decide (Exists (of_messenger messengerName) links)
      then LinkStore_Save fault fs profileID (filter (fun l => ~ of_messenger messengerName l) links)
      else (fs, Err (MgrErr (ErrLinkNotFound messengerName profileID)))
  end.

Definition GetProfileLinks (fs : LinkFiles) (profileID : string) : Res ManagerErr Links := LinkStore_Load fs profileID.

Definition loadOrNone (fs : LinkFiles) (pid : string) : Links :=
  match LinkStore_Load fs pid with Ok links => links | Err _ => [] end.

Definition GetMessengerLinks (fs : LinkFiles) (messengerName : string) : Res ManagerErr Links :=
  match profiles with
  | None => Err MgrList
  | Some pids => Ok (concat (map (fun pid => filter (of_messenger messengerName) (loadOrNone fs pid)) pids))
  end.

(** Loading the links of a profile and replacing the first one of the messenger by what
    [f] makes of it: the common part of the operations on one link. *)
Definition updateLink (fault : bool) (fs : LinkFiles) (messengerName profileID : string)
    (f : ProfileMessengerLink -> Res ManagerErr ProfileMessengerLink) : LinkFiles * Res ManagerErr unit :=
  match LinkStore_Load fs profileID with
  | Err e => (fs, Err e)
  | Ok links =>
      match list_find (of_messenger messengerName) links with
      | None => (fs, Err (MgrErr (ErrLinkNotFound messengerName profileID)))
      | Some (idx, l) =>
          match f l with
          | Err e => (fs, Err e)
          | Ok l => LinkStore_Save fault fs profileID (<[idx := l]> links)
          end
      end
  end.

Definition AddMapping (now : Z) (fault : bool) (fs : LinkFiles) (messengerName profileID channelID action : string) :
    LinkFiles * Res ManagerErr unit :=
  if decide (channelID = "") then (fs, Err (MgrText "channel ID is required"))
  else if decide (action = "") then (fs, Err (MgrText "action is required"))
  else updateLink fault fs messengerName profileID (fun l =>
         match validateMappingsAcrossProfiles fs messengerName profileID [channelID] with
         | Err e => Err e
         | Ok _ => Ok (set_mappings l (<[channelID := action]> (lk_Mappings l)) now)
         end).

Definition RemoveMapping (now : Z) (fault : bool) (fs : LinkFiles) (messengerName profileID channelID : string) :
    LinkFiles * Res ManagerErr unit :=
  if decide (channelID = "") then (fs, Err (MgrText "channel ID is required"))
  else updateLink fault fs messengerName profileID (fun l =>
         match lk_Mappings l !! channelID with
         | None => Err (MgrErr (ErrUnknownChannel messengerName channelID))
         | Some _ => Ok (set_mappings l (delete channelID (lk_Mappings l)) now)
         end).

Definition SetDefaultAction (now : Z) (fault : bool) (fs : LinkFiles) (messengerName profileID action : string) :
    LinkFiles * Res ManagerErr unit :=
  updateLink fault fs messengerName profileID (fun l => Ok (set_default l action now)).

Definition setLinkEnabled (now : Z) (fault : bool) (fs : LinkFiles) (messengerName profileID : string) (enabled : bool) :
    LinkFiles * Res ManagerErr unit :=
  updateLink fault fs messengerName profileID (fun l => Ok (set_enabled l enabled now)).

Definition EnableLink now fault fs messengerName profileID := setLinkEnabled now fault fs messengerName profileID true.
Definition DisableLink now fault fs messengerName profileID := setLinkEnabled now fault fs messengerName profileID false.

(** The two loops of [ResolveChannelRoute], over the profiles and over their links. *)
Definition linkRoute (messengerName channelID : string) (l : ProfileMessengerLink) : option (ProfileMessengerLink * string) :=
  if decide (lk_MessengerName l <> messengerName) then None
  else if negb (lk_Enabled l) then None
  else match GetActionForChannel l channelID with (action, true) => Some (l, action) | (_, false) => None end.

Definition ResolveChannelRoute (fs : LinkFiles) (messengerName channelID : string) :
    Res ManagerErr (ProfileMessengerLink * string) :=
  if decide (messengerName = "") then Err (MgrText "messenger name is required")
  else if decide (channelID = "") then Err (MgrText "channel ID is required")
  else match profiles with
       | None => Err (MgrErr (mkErr messengerName "failed to list profiles for route resolution" ErrCodeRoutingFailed (Some "")))
       | Some pids =>
           match head (omap (linkRoute messengerName channelID) (concat (map (loadOrNone fs) pids))) with
           | Some r => Ok r
           | None => Err (MgrErr (ErrUnknownChannel messengerName channelID))
           end
       end.
End Manager.

(** ** One owner per channel *)

(** The link that maps channel [c] of messenger [m] in the file of [p]. *)
Definition maps_channel (fs : LinkFiles) (m c p : string) (l : ProfileMessengerLink) (action : string) : Prop :=
  l ∈ loadOrNone fs p /\ lk_MessengerName l = m /\ lk_Mappings l !! c = Some action.

Definition readable (fs : LinkFiles) : Prop := forall p, is_ok (LinkStore_Load fs p) = true.

(** The files of the profiles: readable, with one link per messenger, and with channels
    that no two profiles map. *)
Definition links_ok (fs : LinkFiles) : Prop :=
  readable fs /\
  (forall p, NoDup (lk_MessengerName <$> loadOrNone fs p)) /\
  (forall m c p q l k a b, maps_channel fs m c p l a -> maps_channel fs m c q k b -> p = q).

Lemma head_none {A} (l : list A) : head l = None <-> l = [].
Proof. by destruct l. Qed.

Lemma head_omap_none {A B} (f : A -> option B) (l : list A) : head (omap f l) = None <-> Forall (fun x => f x = None) l.
Proof.
  rewrite head_none. induction l as [|x l IH]; simpl; [by split|]. rewrite Forall_cons, <- IH. destruct (f x); split; try done; by intros [? ?].
Qed.

Lemma load_insert fs p links q : loadOrNone (<[p := Parsed links]> fs) q = if decide (p = q) then links else loadOrNone fs q.
Proof.
  unfold loadOrNone, LinkStore_Load. destruct (decide (p = q)) as [->|Hn]; [by rewrite lookup_insert_eq|].
  by rewrite lookup_insert_ne.
Qed.

Lemma readable_insert fs p links : readable fs -> readable (<[p := Parsed links]> fs).
Proof.
  intros H q. specialize (H q). unfold LinkStore_Load in *. destruct (decide (p = q)) as [->|Hn].
  - by rewrite lookup_insert_eq.
  - by rewrite lookup_insert_ne.
Qed.

Section Unique.
Variable pids : list string.

(** Only listed profiles have links. *)
Definition listed_only (fs : LinkFiles) : Prop := forall p, p ∉ pids -> loadOrNone fs p = [].

Lemma validate_ok fs m p channels : validateMappingsAcrossProfiles (Some pids) fs m p channels = Ok tt ->
  listed_only fs -> forall c q l b, c ∈ channels -> maps_channel fs m c q l b -> q = p.
Proof.
  unfold validateMappingsAcrossProfiles. intros H Hlo c q l b Hc (Hl & Hm & Hb).
  case_decide as Hn; [subst; by apply elem_of_nil in Hc|].
  destruct (head _) eqn:E; [done|]. apply head_omap_none in E. rewrite Forall_forall in E.
  destruct (decide (q = p)) as [|Hq]; [done|]. destruct (decide (q ∈ pids)) as [Hin|Hin].
  2:{ rewrite Hlo in Hl by done. by apply elem_of_nil in Hl. }
  specialize (E q ltac:(by apply list_elem_of_filter)). unfold profileConflict in E. unfold loadOrNone in Hl.
  destruct (LinkStore_Load fs q) as [links|]; [|by apply elem_of_nil in Hl].
  apply head_omap_none in E. rewrite Forall_forall in E.
  specialize (E l ltac:(by apply list_elem_of_filter)). unfold linkConflict in E.
  apply head_omap_none in E. rewrite Forall_forall in E. specialize (E c Hc). simpl in E. by rewrite Hb in E.
Qed.

(** Replacing the links of one profile keeps the files in order when the new links have
    one link per messenger and every channel they map was free or already mapped by the
    profile. *)
Lemma links_ok_insert fs p links : links_ok fs -> NoDup (lk_MessengerName <$> links) ->
  (forall l c b, l ∈ links -> lk_Mappings l !! c = Some b ->
     forall q k d, maps_channel fs (lk_MessengerName l) c q k d -> q = p) ->
  links_ok (<[p := Parsed links]> fs).
Proof.
  intros (Hr & Hnd & Hu) Hnd' Hnew. split; [by apply readable_insert|]. split.
  - intros q. rewrite load_insert. by case_decide.
  - intros m c q1 q2 l k a b H1 H2. unfold maps_channel in H1, H2. rewrite load_insert in H1, H2.
    destruct H1 as (H1 & M1 & L1), H2 as (H2 & M2 & L2).
    destruct (decide (p = q1)) as [<-|N1], (decide (p = q2)) as [<-|N2]; try done.
    + symmetry. eapply (Hnew l c a H1 L1 q2 k b). rewrite M1. done.
    + eapply (Hnew k c b H2 L2 q1 l a). rewrite M2. done.
    + by eapply (Hu m c q1 q2 l k a b).
Qed.

Lemma listed_insert fs p links : p ∈ pids -> listed_only fs -> listed_only (<[p := Parsed links]> fs).
Proof. intros Hp H q Hq. rewrite load_insert. case_decide; [by subst|by apply H]. Qed.

Lemma load_ok fs p links : LinkStore_Load fs p = Ok links -> loadOrNone fs p = links.
Proof. unfold loadOrNone. by intros ->. Qed.

Lemma save_ok fault fs p links : p ∈ pids -> links_ok fs /\ listed_only fs ->
  NoDup (lk_MessengerName <$> links) ->
  (forall l c b, l ∈ links -> lk_Mappings l !! c = Some b ->
     forall q k d, maps_channel fs (lk_MessengerName l) c q k d -> q = p) ->
  links_ok (LinkStore_Save fault fs p links).1 /\ listed_only (LinkStore_Save fault fs p links).1.
Proof.
  intros Hp [Hok Hlo] Hnd Hnew. unfold LinkStore_Save. destruct fault; [done|]. simpl.
  split; [by apply links_ok_insert|by apply listed_insert].
Qed.

(** Channels of links that stay in the file of [p] belong to [p]. *)
Lemma kept_channels fs p l c b : links_ok fs -> l ∈ loadOrNone fs p -> lk_Mappings l !! c = Some b ->
  forall q k d, maps_channel fs (lk_MessengerName l) c q k d -> q = p.
Proof. intros (_ & _ & Hu) Hl Hb q k d Hk. by eapply (Hu _ c q p k l). Qed.

Lemma link_ok now fault fs m p mappings channels : p ∈ pids -> channels ≡ₚ (map_to_list mappings).*1 ->
  links_ok fs /\ listed_only fs ->
  let fs' := (LinkMessengerToProfile (Some pids) now fault fs m p mappings channels).1 in links_ok fs' /\ listed_only fs'.
Proof.
  intros Hp Hch [Hok Hlo]. unfold LinkMessengerToProfile. cbv zeta. repeat (case_decide; [done|]).
  destruct (LinkStore_Load fs p) as [links|] eqn:El; [|done]. case_decide as He; [done|].
  destruct (validateMappingsAcrossProfiles _ _ _ _ _) as [[]|] eqn:Ev; [|done].
  destruct (ProfileMessengerLink_Validate _); [|done]. pose proof (load_ok _ _ _ El) as Hload.
  destruct Hok as (Hr & Hnd & Hu). apply save_ok; [done|done| |].
  - rewrite fmap_app. apply NoDup_app. rewrite <- Hload. split; [apply Hnd|]. split; [|apply NoDup_singleton].
    intros n Hn Hin. apply list_elem_of_singleton in Hin as ->. apply He. apply Exists_exists.
    apply list_elem_of_fmap in Hn as (l & Hl & Hin). exists l. rewrite <- Hload. done.
  - intros l c b [Hl|Hl]%elem_of_app Hb; [rewrite <- Hload in Hl; by apply (kept_channels fs p l c b)|].
    apply list_elem_of_singleton in Hl as ->. simpl in *. intros q k d Hk.
    eapply validate_ok; [exact Ev|done| |exact Hk]. rewrite Hch. apply list_elem_of_fmap.
    exists (c, b). split; [done|]. by apply elem_of_map_to_list.
Qed.

Lemma unlink_ok fault fs m p : p ∈ pids -> links_ok fs /\ listed_only fs ->
  let fs' := (UnlinkMessengerFromProfile fault fs m p).1 in links_ok fs' /\ listed_only fs'.
Proof.
  intros Hp [Hok Hlo]. unfold UnlinkMessengerFromProfile. cbv zeta.
  destruct (LinkStore_Load fs p) as [links|] eqn:El; [|done]. case_decide; [|done].
  pose proof (load_ok _ _ _ El) as Hload. pose proof Hok as (Hr & Hnd & Hu). apply save_ok; [done|done| |].
  - specialize (Hnd p). rewrite Hload in Hnd. eapply sublist_NoDup, fmap_sublist, sublist_filter; done.
  - intros l c b [_ Hl]%list_elem_of_filter Hb. rewrite <- Hload in Hl. by apply (kept_channels fs p l c b).
Qed.

(** An operation on one link keeps the files in order when it keeps the name of the link
    and only maps channels that no other profile maps. *)
Lemma update_ok fault fs m p f : p ∈ pids -> links_ok fs /\ listed_only fs ->
  (forall l l', l ∈ loadOrNone fs p -> lk_MessengerName l = m -> f l = Ok l' ->
     lk_MessengerName l' = m /\
     forall c b, lk_Mappings l' !! c = Some b ->
       is_Some (lk_Mappings l !! c) \/ forall q k d, maps_channel fs m c q k d -> q = p) ->
  let fs' := (updateLink fault fs m p f).1 in links_ok fs' /\ listed_only fs'.
Proof.
  intros Hp [Hok Hlo] Hf. unfold updateLink. cbv zeta. destruct (LinkStore_Load fs p) as [links|] eqn:El; [|done].
  destruct (list_find _ links) as [[i l]|] eqn:Ef; [|done]. destruct (f l) as [l'|] eqn:Efl; [|done].
  pose proof (load_ok _ _ _ El) as Hload. pose proof Hok as (Hr & Hnd & Hu).
  apply list_find_Some in Ef as (Hi & Hm & _). pose proof (list_elem_of_lookup_2 _ _ _ Hi) as Hin. rewrite <- Hload in Hin.
  destruct (Hf l l' Hin Hm Efl) as [Hname Hch]. apply save_ok; [done|done| |].
  - rewrite list_fmap_insert. specialize (Hnd p). rewrite Hload in Hnd. rewrite list_insert_id; [done|].
    rewrite list_lookup_fmap, Hi. simpl. unfold of_messenger in Hm. by rewrite Hname, Hm.
  - intros k c b Hk Hb. apply list_elem_of_lookup_1 in Hk as [j Hj].
    apply list_lookup_insert_Some in Hj as [(-> & <- & _)|[_ Hk%list_elem_of_lookup_2]].
    + rewrite Hname. destruct (Hch c b Hb) as [[a Ha]|H]; [|done]. rewrite <- Hm. by apply (kept_channels fs p l c a).
    + rewrite <- Hload in Hk. by apply (kept_channels fs p k c b).
Qed.
End Unique.

(** ** Runs of the manager *)

Inductive LinkOp : Type :=
  | OpLink (m p : string) (mappings : gmap string string) (channels : list string)
  | OpUnlink (m p : string)
  | OpAdd (m p c action : string)
  | OpRemove (m p c : string)
  | OpDefault (m p action : string)
  | OpEnable (m p : string) (enabled : bool).

Definition op_profile (o : LinkOp) : string :=
  match o with
  | OpLink _ p _ _ | OpUnlink _ p | OpAdd _ p _ _ | OpRemove _ p _ | OpDefault _ p _ | OpEnable _ p _ => p
  end.

Definition runOp (pids : list string) (fs : LinkFiles) (step : Z * bool * LinkOp) : LinkFiles :=
  let '(now, fault, o) := step in
  match o with
  | OpLink m p mappings channels => (LinkMessengerToProfile (Some pids) now fault fs m p mappings channels).1
  | OpUnlink m p => (UnlinkMessengerFromProfile fault fs m p).1
  | OpAdd m p c a => (AddMapping (Some pids) now fault fs m p c a).1
  | OpRemove m p c => (RemoveMapping now fault fs m p c).1
  | OpDefault m p a => (SetDefaultAction now fault fs m p a).1
  | OpEnable m p true => (EnableLink now fault fs m p).1
  | OpEnable m p false => (DisableLink now fault fs m p).1
  end.

(** Operations on listed profiles, with the proposed mappings in some order. *)
Definition proper (pids : list string) (o : LinkOp) : Prop :=
  op_profile o ∈ pids /\
  match o with OpLink _ _ mappings channels => channels ≡ₚ (map_to_list mappings).*1 | _ => True end.

Lemma runOp_ok pids fs step : proper pids step.2 -> links_ok fs /\ listed_only pids fs ->
  links_ok (runOp pids fs step) /\ listed_only pids (runOp pids fs step).
Proof.
  destruct step as [[now fault] o]. intros [Hp Ho] Hok. destruct o; simpl in *.
  - by apply link_ok.
  - by apply unlink_ok.
  - unfold AddMapping. repeat (case_decide; [done|]). apply update_ok; [done..|]. intros l l' _ Hm Hf.
    destruct (validateMappingsAcrossProfiles _ _ _ _ _) as [[]|] eqn:Ev; [|done]. injection Hf as <-. split; [done|].
    simpl. intros c' b Hb. apply lookup_insert_Some in Hb as [[<- _]|[_ Hb]]; [right|left; by eexists].
    intros q k d Hk. eapply validate_ok; [exact Ev|by destruct Hok|by left|exact Hk].
  - unfold RemoveMapping. repeat (case_decide; [done|]). apply update_ok; [done..|]. intros l l' _ Hm Hf.
    destruct (lk_Mappings l !! c); [|done]. injection Hf as <-. split; [done|].
    simpl. intros c' b Hb. apply lookup_delete_Some in Hb as [_ Hb]. left. by eexists.
  - apply update_ok; [done..|]. intros l l' _ Hm [= <-]. split; [done|]. simpl. intros c b Hb. left. by eexists.
  - destruct enabled; (apply update_ok; [done..|]); intros l l' _ Hm [= <-]; (split; [done|]); simpl; intros c b Hb; left; by eexists.
Qed.

Lemma empty_ok pids : links_ok ∅ /\ listed_only pids ∅.
Proof.
  assert (forall p, loadOrNone ∅ p = []) as H by done. split; [|done]. split; [by intros p|]. split.
  - intros p. rewrite H. constructor.
  - intros m c p q l k a b [Hl _]. rewrite H in Hl. by apply elem_of_nil in Hl.
Qed.

Lemma run_ok pids steps : Forall (fun s => proper pids s.2) steps ->
  links_ok (foldl (runOp pids) ∅ steps) /\ listed_only pids (foldl (runOp pids) ∅ steps).
Proof.
  intros Hs. generalize (empty_ok pids). generalize (∅ : LinkFiles).
  induction Hs as [|s steps Hp Hs IH]; intros fs Hok; [done|]. simpl. by apply IH, runOp_ok.
Qed.

(** Within a file the link that maps a channel is the only one of its messenger. *)
Lemma same_link fs m c p l k a b : links_ok fs -> maps_channel fs m c p l a -> maps_channel fs m c p k b -> l = k.
Proof.
  intros (_ & Hnd & _) (Hl & Ml & _) (Hk & Mk & _). specialize (Hnd p). rewrite <- Ml in Mk. clear Ml.
  induction (loadOrNone fs p) as [|x xs IH]; [by apply elem_of_nil in Hl|].
  rewrite fmap_cons, NoDup_cons in Hnd. destruct Hnd as [Hx Hnd].
  apply elem_of_cons in Hl as [->|Hl], Hk as [->|Hk]; [done| | |by apply IH].
  - destruct Hx. rewrite <- Mk. by apply list_elem_of_fmap_2.
  - destruct Hx. rewrite Mk. by apply list_elem_of_fmap_2.
Qed.

Lemma route_found ps fs m c l action :
  head (omap (linkRoute m c) (concat (map (loadOrNone fs) ps))) = Some (l, action) ->
  exists p, p ∈ ps /\ l ∈ loadOrNone fs p /\ linkRoute m c l = Some (l, action).
Proof.
  intros H. assert ((l, action) ∈ omap (linkRoute m c) (concat (map (loadOrNone fs) ps))) as Hin.
  { destruct (omap _ _) as [|r rs]; simpl in H; [done|]. injection H as ->. by left. }
  apply list_elem_of_omap in Hin as (k & Hk & Hr).
  assert (k = l) as ->. { unfold linkRoute in Hr. repeat (case_match || case_decide); congruence. }
  apply list_elem_of_In, in_concat in Hk as (ls & Hls & Hk). apply in_map_iff in Hls as (p & <- & Hp).
  exists p. rewrite !list_elem_of_In. done.
Qed.


Definition sample_steps : list (Z * bool * LinkOp) :=
  [(1, false, OpLink "bot" "alice" {["c1" := "alice=greet"]} ["c1"]); (2, false, OpLink "bot" "bob" {["c1" := "bob=x"]} ["c1"]);
   (3, true, OpLink "bot" "bob" ∅ []); (4, false, OpLink "bot" "bob" ∅ []); (5, false, OpAdd "bot" "bob" "c2" "bob=y")].


(** A default action of an earlier profile takes a channel that a later profile maps. *)
Example default_shadows_mapping :
  let fs := foldl (runOp ["alice"; "bob"]) ∅
    [(1, false, OpLink "bot" "alice" ∅ []); (2, false, OpDefault "bot" "alice" "alice=any");
     (3, false, OpLink "bot" "bob" {["c1" := "bob=own"]} ["c1"])] in
  map_err (fun _ => tt) (ResolveChannelRoute (Some ["alice"; "bob"]) fs "bot" "c1") = 
    Ok (mkLink "alice" "bot" "global" true ∅ "alice=any" 1 2, "alice=any").
Proof. reflexivity. Qed.

(** The mappings of a profile whose file does not parse are not checked. *)
Example unreadable_file_hides_owner :
  let fs := <["alice" := Malformed]> ∅ : LinkFiles in
  is_ok (LinkMessengerToProfile (Some ["alice"; "bob"]) 1 false fs "bot" "bob" {["c1" := "bob=own"]} ["c1"]).2 = true.
Proof. reflexivity. Qed.
