(* ===== verification/MsgHistory.v ===== *)
(** * Conversation turns

    history.go and history_sqlite.go of src/internal/core/messenger.  The table of turns is
    the list of its rows in the order of their sequence numbers; a transaction either
    commits or leaves the table as it was ([fault]).  The theorem says which turns a query
    returns after any run of appends. *)

From Stdlib Require Import ZArith Lia String Ascii.
From stdpp Require Import base option list strings sorting.
From S2P Require Import Prelude Text MsgTypes.

#[local] Open Scope Z_scope.

Definition TurnDirectionInbound : string := "inbound".
Definition TurnDirectionOutbound : string := "outbound".
Definition DefaultPriorTurnLimit : Z := 20.
Definition DefaultConversationRetention : Z := 500.

Record ConversationTurn : Type := mkTurn {
  tu_Seq : Z;
  tu_ConversationID : string;
  tu_SessionID : string;
  tu_ServiceID : string;
  tu_Platform : string;
  tu_ProfileID : string;
  tu_ActionName : string;
  tu_Direction : string;
  tu_MessageID : string;
  tu_ChannelID : string;
  tu_SenderID : string;
  tu_SenderName : string;
  tu_Text : string;
  tu_Attachments : list Attachment;
  tu_Timestamp : Z
}.

Inductive TurnErr : Type :=
  | ConversationIDRequired | SessionIDRequired | BadDirection (direction : string) | StoreFailed.

Definition ConversationTurn_Validate (t : ConversationTurn) : Res TurnErr unit :=
  if decide (tu_ConversationID t = "") then Err ConversationIDRequired
  else if decide (tu_SessionID t = "") then Err SessionIDRequired
  else if decide (tu_Direction t = TurnDirectionInbound \/ tu_Direction t = TurnDirectionOutbound) then Ok tt
  else Err (BadDirection (tu_Direction t)).

(** ** Turns of messages *)

Definition baseTurn (msg : NormalizedMessage) (serviceID profileID actionName : string) (direction senderID senderName text : string)
    (attachments : list Attachment) (timestamp : Z) : ConversationTurn :=
  let state := ConversationState_of msg in
  mkTurn 0 (cv_ConversationID state) (cv_SessionID state) (if decide (serviceID = "") then cv_ServiceID state else serviceID)
    (nm_Platform msg) profileID actionName direction (nm_ID msg) (cn_ID (nm_Channel msg)) senderID senderName text attachments
    timestamp.

Definition NewInboundTurn (now : Z) (msg : NormalizedMessage) (serviceID profileID actionName : string) : ConversationTurn :=
  baseTurn msg serviceID profileID actionName TurnDirectionInbound (sn_ID (nm_Sender msg)) (sn_Name (nm_Sender msg)) (nm_Text msg)
    (nm_Attachments msg) (if IsZero (nm_Timestamp msg) then now else nm_Timestamp msg).

Definition NewOutboundTurn (now : Z) (msg : NormalizedMessage) (text serviceID profileID actionName : string) : ConversationTurn :=
  baseTurn msg serviceID profileID actionName TurnDirectionOutbound profileID "" text [] now.

(** ** The store *)

(** The rows of message_turns and the highest sequence number it ever gave out. *)
Record TurnTable : Type := mkTable { tt_rows : list ConversationTurn; tt_seq : Z }.

Definition empty_table : TurnTable := mkTable [] 0.

Definition retention (maxTurns : Z) : Z := if decide (maxTurns <= 0) then DefaultConversationRetention else maxTurns.

Definition in_conversation (c : string) (t : ConversationTurn) : Prop := tu_ConversationID t = c.
#[global] Instance in_conversation_dec c t : Decision (in_conversation c t).
Proof. unfold in_conversation. apply _. Defined.

(** [DELETE ... WHERE conversation_id = ? AND seq NOT IN (SELECT seq ... ORDER BY seq DESC
    LIMIT ?)]. *)
Definition prune (c : string) (keep : Z) (rows : list ConversationTurn) : list ConversationTurn :=
  let kept := take (Z.to_nat keep) (reverse (tu_Seq <$> filter (in_conversation c) rows)) in
  filter (fun t => ~ (in_conversation c t /\ tu_Seq t ∉ kept)) rows.

Definition stored (turn : ConversationTurn) (seq timestamp : Z) : ConversationTurn :=
  mkTurn seq (tu_ConversationID turn) (tu_SessionID turn) (tu_ServiceID turn) (tu_Platform turn) (tu_ProfileID turn)
    (tu_ActionName turn) (tu_Direction turn) (tu_MessageID turn) (tu_ChannelID turn) (tu_SenderID turn) (tu_SenderName turn)
    (tu_Text turn) (tu_Attachments turn) timestamp.

Definition AppendTurn (now maxTurns : Z) (fault : bool) (db : TurnTable) (turn : ConversationTurn) :
    TurnTable * Res TurnErr ConversationTurn :=
  match ConversationTurn_Validate turn with
  | Err e => (db, Err e)
  | Ok _ =>
      if fault then (db, Err StoreFailed)
      else
        let row := stored turn (tt_seq db + 1) (if IsZero (tu_Timestamp turn) then now else tu_Timestamp turn) in
        (mkTable (prune (tu_ConversationID turn) (retention maxTurns) (tt_rows db ++ [row])) (tt_seq db + 1), Ok row)
  end.

Record ConversationQuery : Type := mkQuery { qu_ConversationID : string; qu_SessionID : string; qu_Limit : Z }.

Definition selected (q : ConversationQuery) (t : ConversationTurn) : Prop :=
  in_conversation (qu_ConversationID q) t /\ (qu_SessionID q = "" \/ tu_SessionID t = qu_SessionID q).
#[global] Instance selected_dec q t : Decision (selected q t).
Proof. unfold selected. apply _. Defined.

Definition RecentTurns (fault : bool) (db : TurnTable) (q : ConversationQuery) : Res TurnErr (list ConversationTurn) :=
  if decide (qu_ConversationID q = "") then Err ConversationIDRequired
  else if fault then Err StoreFailed
  else
    let limit := if decide (qu_Limit q <= 0) then DefaultPriorTurnLimit else qu_Limit q in
    Ok (reverse (take (Z.to_nat limit) (reverse (filter (selected q) (tt_rows db))))).

Record ConversationSummary : Type := mkSummary {
  sm_ConversationID : string;
  sm_ServiceID : string;
  sm_Platform : string;
  sm_ChannelID : string;
  sm_TurnCount : Z;
  sm_FirstAt : Z;
  sm_LastAt : Z;
  sm_LastDirection : string;
  sm_LastText : string
}.

Record ConversationFilter : Type := mkFilter { cf_ServiceID : string; cf_Platform : string; cf_Limit : Z }.

(** The row that joins as [last] with its aggregate and as [first]. *)
Definition summarize (rows : list ConversationTurn) (t : ConversationTurn) : ConversationSummary :=
  let conversation := filter (in_conversation (tu_ConversationID t)) rows in
  mkSummary (tu_ConversationID t) (tu_ServiceID t) (tu_Platform t) (tu_ChannelID t) (Z.of_nat (length conversation))
    (match conversation with f :: _ => tu_Timestamp f | [] => 0 end) (tu_Timestamp t) (tu_Direction t) (tu_Text t).

Definition is_last (rows : list ConversationTurn) (t : ConversationTurn) : Prop :=
  Forall (fun u => in_conversation (tu_ConversationID t) u -> tu_Seq u <= tu_Seq t) rows.
#[global] Instance is_last_dec rows t : Decision (is_last rows t).
Proof. unfold is_last. apply _. Defined.

Definition ListConversations (fault : bool) (db : TurnTable) (f : ConversationFilter) : Res TurnErr (list ConversationSummary) :=
  if fault then Err StoreFailed
  else
    let wanted := filter (fun t => is_last (tt_rows db) t /\ (cf_ServiceID f = "" \/ tu_ServiceID t = cf_ServiceID f) /\
                                   (cf_Platform f = "" \/ tu_Platform t = cf_Platform f)) (reverse (tt_rows db)) in
    Ok (map (summarize (tt_rows db)) (if decide (cf_Limit f <= 0) then wanted else take (Z.to_nat (cf_Limit f)) wanted)).

(** ** The turns a query returns *)

(** Specification: every accepted turn, with its number, and the last ones of it. *)
Fixpoint accepted (maxTurns : Z) (db : TurnTable) (calls : list (Z * bool * ConversationTurn)) : list ConversationTurn :=
  match calls with
  | [] => []
  | (now, fault, t) :: calls =>
      match AppendTurn now maxTurns fault db t with
      | (db, Ok row) => row :: accepted maxTurns db calls
      | (db, Err _) => accepted maxTurns db calls
      end
  end.

Definition runTurns (maxTurns : Z) (db : TurnTable) (calls : list (Z * bool * ConversationTurn)) : TurnTable :=
  foldl (fun db c => (AppendTurn c.1.1 maxTurns c.1.2 db c.2).1) db calls.

(** The last [n] elements. *)
Definition newest {A} (n : nat) (l : list A) : list A := drop (length l - n) l.

Lemma newest_take {A} (n : nat) (l : list A) : reverse (take n (reverse l)) = newest n l.
Proof. unfold newest. by rewrite take_reverse, reverse_involutive. Qed.

Lemma newest_snoc {A} (n : nat) (l : list A) (x : A) : (0 < n)%nat -> newest n (newest n l ++ [x]) = newest n (l ++ [x]).
Proof.
  intros Hn. unfold newest. rewrite !length_app, length_drop. simpl. rewrite !drop_app, !drop_drop, length_drop.
  f_equal; f_equal; lia.
Qed.

(** Rows are numbered in increasing order up to the highest number given out. *)
Definition numbered (db : TurnTable) : Prop :=
  StronglySorted Z.lt (tu_Seq <$> tt_rows db) /\ Forall (fun t => 0 < tu_Seq t <= tt_seq db) (tt_rows db) /\ 0 <= tt_seq db.

Lemma StronglySorted_snoc (l : list Z) x : StronglySorted Z.lt l -> Forall (fun y => y < x) l -> StronglySorted Z.lt (l ++ [x]).
Proof.
  induction 1 as [|y l Hs IH Hy]; simpl; intros Hx; [repeat constructor|]. apply Forall_cons in Hx as [Hyx Hx].
  constructor; [by apply IH|]. apply Forall_app. split; [done|]. by repeat constructor.
Qed.

(** The newest sequence numbers of a sorted list are those of its last rows. *)
Lemma newest_rows (l : list ConversationTurn) n : StronglySorted Z.lt (tu_Seq <$> l) ->
  filter (fun t => tu_Seq t ∈ take n (reverse (tu_Seq <$> l))) l = newest n l.
Proof.
  intros Hs. assert (forall x, x ∈ take n (reverse (tu_Seq <$> l)) <-> x ∈ tu_Seq <$> newest n l) as Hx.
  { intros x. rewrite <- newest_take, fmap_reverse, elem_of_reverse, fmap_take, fmap_reverse. done. }
  unfold newest in *. set (k := (length l - n)%nat) in *.
  transitivity (filter (fun t => tu_Seq t ∈ tu_Seq <$> drop k l) l).
  { apply list_filter_iff. intros t. apply Hx. }
  transitivity (filter (fun t => tu_Seq t ∈ tu_Seq <$> drop k l) (take k l ++ drop k l)); [by rewrite take_drop|].
  rewrite filter_app, filter_none.
  - simpl. rewrite filter_all; [done|]. intros t Ht. by apply list_elem_of_fmap_2.
  - intros t Ht Hd. rewrite <- (take_drop k l), fmap_app in Hs. apply list_elem_of_fmap in Hd as (u & Hu & Hd).
    assert (tu_Seq t < tu_Seq u); [|lia]. clear -Hs Ht Hd. induction (take k l) as [|y ys IH]; [by apply elem_of_nil in Ht|].
    simpl in Hs. apply StronglySorted_inv in Hs as [Hs Hy]. apply elem_of_cons in Ht as [->|Ht]; [|by apply IH].
    rewrite Forall_forall in Hy. apply Hy, elem_of_app. right. by apply list_elem_of_fmap_2.
Qed.

Lemma filter_comm_prune c c' keep rows : filter (in_conversation c') (prune c keep rows) =
  if decide (c = c') then filter (fun t => tu_Seq t ∈ take (Z.to_nat keep) (reverse (tu_Seq <$> filter (in_conversation c) rows)))
                            (filter (in_conversation c) rows)
  else filter (in_conversation c') rows.
Proof.
  unfold prune. rewrite !list_filter_filter. case_decide as E.
  - subst. apply list_filter_iff. intros t. destruct (decide (tu_Seq t ∈ take (Z.to_nat keep)
      (reverse (tu_Seq <$> filter (in_conversation c') rows)))); tauto.
  - apply list_filter_iff. intros t. unfold in_conversation. split; [tauto|]. intros Ht. split; [done|]. intros [H _]. congruence.
Qed.

Lemma retention_pos m : (0 < Z.to_nat (retention m))%nat.
Proof. unfold retention, DefaultConversationRetention. case_decide; lia. Qed.

Lemma StronglySorted_filter P `{!forall t : ConversationTurn, Decision (P t)} (l : list ConversationTurn) :
  StronglySorted Z.lt (tu_Seq <$> l) -> StronglySorted Z.lt (tu_Seq <$> filter P l).
Proof. intros Hs. eapply sublist_StronglySorted, Hs. apply fmap_sublist, sublist_filter. Qed.

(** One append: the new row, the numbering, and the rows of every conversation. *)
Lemma AppendTurn_spec now m db t db' row : numbered db -> AppendTurn now m false db t = (db', Ok row) ->
  numbered db' /\ tu_Seq row = tt_seq db + 1 /\ tt_seq db' = tt_seq db + 1 /\ tu_ConversationID row = tu_ConversationID t /\
  forall c, filter (in_conversation c) (tt_rows db') =
    if decide (tu_ConversationID t = c)
    then newest (Z.to_nat (retention m)) (filter (in_conversation c) (tt_rows db) ++ [row])
    else filter (in_conversation c) (tt_rows db).
Proof.
  intros (Hs & Hb & H0) Ha. unfold AppendTurn in Ha. destruct (ConversationTurn_Validate t); [|done].
  set (r := stored t (tt_seq db + 1) (if IsZero (tu_Timestamp t) then now else tu_Timestamp t)) in *.
  injection Ha as <- <-. simpl.
  assert (StronglySorted Z.lt (tu_Seq <$> tt_rows db ++ [r])) as Hs'.
  { rewrite fmap_app. apply StronglySorted_snoc; [done|]. apply Forall_fmap. eapply Forall_impl; [exact Hb|]. simpl. lia. }
  split; [|split; [done|split; [done|split; [done|]]]].
  - split; [by apply StronglySorted_filter|]. split; [|simpl; lia]. simpl. apply Forall_forall. intros u [_ Hu]%list_elem_of_filter.
    revert u Hu. apply Forall_forall, Forall_app. split; [|repeat constructor; simpl; lia]. eapply Forall_impl; [exact Hb|]. simpl. lia.
  - intros c. rewrite filter_comm_prune.
    assert (filter (in_conversation c) (tt_rows db ++ [r]) =
      filter (in_conversation c) (tt_rows db) ++ if decide (tu_ConversationID t = c) then [r] else []) as Hr.
    { by rewrite filter_app. }
    change (tu_ConversationID r) with (tu_ConversationID t). destruct (decide (tu_ConversationID t = c)) as [<-|E].
    + rewrite Hr, newest_rows; [done|]. rewrite <- Hr. by apply StronglySorted_filter.
    + by rewrite Hr, app_nil_r.
Qed.

Lemma accepted_step m db now fault t calls : accepted m db ((now, fault, t) :: calls) =
  match (AppendTurn now m fault db t).2 with
  | Ok row => row :: accepted m (AppendTurn now m fault db t).1 calls
  | Err _ => accepted m (AppendTurn now m fault db t).1 calls
  end.
Proof. simpl. by destruct (AppendTurn now m fault db t) as [db' [row|e]]. Qed.

Lemma AppendTurn_fails now m fault db t e : (AppendTurn now m fault db t).2 = Err e -> (AppendTurn now m fault db t).1 = db.
Proof. unfold AppendTurn. by destruct (ConversationTurn_Validate t), fault. Qed.

Lemma AppendTurn_fault now m fault db t row : (AppendTurn now m fault db t).2 = Ok row -> fault = false.
Proof. unfold AppendTurn. by destruct (ConversationTurn_Validate t), fault. Qed.

(** The rows of a conversation are the newest of what it had and what was accepted. *)
Lemma rows_spec m calls : forall db, numbered db ->
  numbered (runTurns m db calls) /\
  forall c, newest (Z.to_nat (retention m)) (filter (in_conversation c) (tt_rows (runTurns m db calls))) =
            newest (Z.to_nat (retention m)) (filter (in_conversation c) (tt_rows db) ++ filter (in_conversation c) (accepted m db calls)).
Proof.
  induction calls as [|[[now fault] t] calls IH]; intros db Hdb; [split; [done|]; intros c; by rewrite app_nil_r|].
  change (runTurns m db ((now, fault, t) :: calls)) with (runTurns m (AppendTurn now m fault db t).1 calls).
  rewrite accepted_step. destruct (AppendTurn now m fault db t).2 as [row|e] eqn:E.
  - pose proof (AppendTurn_fault _ _ _ _ _ _ E) as ->. destruct (AppendTurn now m false db t) as [db' r] eqn:Ea.
    simpl in E |- *. subst r. destruct (AppendTurn_spec _ _ _ _ _ _ Hdb Ea) as (Hdb' & _ & _ & Hconv & Hf).
    destruct (IH db' Hdb') as [Hn Hc]. split; [done|]. intros c. rewrite Hc, Hf. case_decide as Ec.
    + rewrite (filter_cons_True _ row) by (unfold in_conversation; congruence).
      set (acc := filter (in_conversation c) (accepted m db' calls)).
      change (row :: acc) with ([row] ++ acc). rewrite app_assoc.
      generalize (filter (in_conversation c) (tt_rows db) ++ [row]) as l. intros l. clear.
      unfold newest. rewrite !length_app, length_drop, !drop_app, drop_drop, length_drop.
      f_equal; f_equal; lia.
    + by rewrite (filter_cons_False _ row) by (unfold in_conversation; congruence).
  - rewrite (AppendTurn_fails _ _ _ _ _ _ E). by apply IH.
Qed.

(** A conversation never holds more rows than the retention. *)
Lemma rows_bounded m calls : forall db, numbered db ->
  (forall c, length (filter (in_conversation c) (tt_rows db)) <= Z.to_nat (retention m))%nat ->
  forall c, (length (filter (in_conversation c) (tt_rows (runTurns m db calls))) <= Z.to_nat (retention m))%nat.
Proof.
  induction calls as [|[[now fault] t] calls IH]; intros db Hdb Hl c; [apply Hl|].
  change (runTurns m db ((now, fault, t) :: calls)) with (runTurns m (AppendTurn now m fault db t).1 calls).
  destruct (AppendTurn now m fault db t).2 as [row|e] eqn:E.
  - pose proof (AppendTurn_fault _ _ _ _ _ _ E) as ->. destruct (AppendTurn now m false db t) as [db' r] eqn:Ea.
    simpl in E |- *. subst r. destruct (AppendTurn_spec _ _ _ _ _ _ Hdb Ea) as (Hdb' & _ & _ & _ & Hf).
    apply IH; [done|]. intros c'. rewrite Hf. case_decide; [|apply Hl]. unfold newest. rewrite length_drop. lia.
  - rewrite (AppendTurn_fails _ _ _ _ _ _ E). by apply IH.
Qed.

Lemma newest_all {A} n (l : list A) : (length l <= n)%nat -> newest n l = l.
Proof. intros H. unfold newest. by replace (length l - n)%nat with 0%nat by lia. Qed.

(** After any run of appends on an empty store, whatever transactions fail, a query
    returns the newest turns of the session, at most as many as the limit and in the order
    they were accepted, out of the newest turns of the conversation that the retention
    keeps; every accepted turn has the next sequence number. *)
Theorem recent_turns_exact maxTurns calls q (Hq : qu_ConversationID q <> "") :
  let db := runTurns maxTurns empty_table calls in
  let limit := if decide (qu_Limit q <= 0) then 20 else qu_Limit q in
  let all := accepted maxTurns empty_table calls in
  RecentTurns false db q = Ok (newest (Z.to_nat limit)
    (filter (fun t => qu_SessionID q = "" \/ tu_SessionID t = qu_SessionID q)
      (newest (Z.to_nat (retention maxTurns)) (filter (in_conversation (qu_ConversationID q)) all)))) /\
  forall k t, all !! k = Some t -> tu_Seq t = Z.of_nat k + 1.
Proof.
  cbv zeta. assert (numbered empty_table) as He by (split; [constructor|split; [constructor|simpl; lia]]). split.
  - unfold RecentTurns. rewrite decide_False by done. rewrite newest_take. unfold DefaultPriorTurnLimit. do 2 f_equal.
    destruct (rows_spec maxTurns calls empty_table He) as [_ Hc]. specialize (Hc (qu_ConversationID q)). simpl in Hc.
    rewrite <- Hc. rewrite newest_all.
    + rewrite list_filter_filter. apply list_filter_iff. intros t. unfold selected. tauto.
    + apply rows_bounded; [done|]. intros c. simpl. lia.
  - assert (forall cs db k t, numbered db -> accepted maxTurns db cs !! k = Some t -> tu_Seq t = tt_seq db + Z.of_nat k + 1) as H;
      [|intros k t Hk; rewrite (H calls empty_table k t He Hk); simpl; lia].
    induction cs as [|[[now fault] u] cs IH]; intros db k t Hdb Hk; [done|]. rewrite accepted_step in Hk.
    destruct (AppendTurn now maxTurns fault db u).2 as [row|e] eqn:E.
    + pose proof (AppendTurn_fault _ _ _ _ _ _ E) as ->. destruct (AppendTurn now maxTurns false db u) as [db' r] eqn:Ea.
      simpl in E, Hk. subst r. destruct (AppendTurn_spec _ _ _ _ _ _ Hdb Ea) as (Hdb' & Hseq & Htt & _ & _).
      destruct k as [|k]; simpl in Hk; [injection Hk as <-; lia|]. rewrite (IH db' k t Hdb' Hk). lia.
    + rewrite (AppendTurn_fails _ _ _ _ _ _ E) in Hk. by apply IH.
Qed.

Definition sample_turn (session text : string) : ConversationTurn :=
  mkTurn 0 "c" session "" "slack" "" "" "inbound" "m" "C" "U" "" text [] 5.

Definition sample_calls : list (Z * bool * ConversationTurn) :=
  [(1, false, sample_turn "s" "one"); (2, true, sample_turn "s" "lost"); (3, false, sample_turn "t" "two");
   (4, false, sample_turn "s" "three")].

Lemma recent_turns_exact_witness :
  (fun r => map (fun t => (tu_Seq t, tu_Text t)) r) <$>
    match RecentTurns false (runTurns 2 empty_table sample_calls) (mkQuery "c" "s" 0) with Ok r => Some r | Err _ => None end
  = Some [(3, "three")].
Proof.
  destruct (recent_turns_exact 2 sample_calls (mkQuery "c" "s" 0)) as [H _]; [done|]. rewrite H. vm_compute. reflexivity.
Defined.
