(* ===== verification/MsgRouter.v ===== *)
(** * The message router

    router.go of src/internal/adapters/messenger: a message is routed to a profile action,
    recorded as a turn, and handed to the action together with the prior turns of its
    session.

    The resolver and the executor of actions are arguments; [MsgLinks] is one resolver.
    [he_recent] and [he_append] are the faults of the history store. *)

From Stdlib Require Import ZArith Lia String Ascii.
From stdpp Require Import base option list gmap strings.
From S2P Require Import Prelude Text GoValue MsgTypes MsgConfig MsgLinks MsgHistory Normalizer.

#[local] Open Scope Z_scope.

Inductive RouteStatus : Type := Routed | UnknownChannel | NoAction | RouteError.

Inductive RouterErr : Type :=
  | RtContext
  | RtNilMessage
  | RtMessenger (e : MessengerError)
  | RtNotRouted (s : RouteStatus)
  | RtNoExecutor
  | RtNilRun
  | RtExec (text : string).

Record RoutingResult : Type := mkRouting {
  rr_MessageID : string;
  rr_ProfileID : string;
  rr_ActionName : string;
  rr_Route : string;
  rr_Status : RouteStatus;
  rr_Error : option MessengerError
}.

Record ExecutionRoute : Type := mkRoute { ex_ProfileID : string; ex_ActionName : string; ex_Mapping : string }.

(** What an action reads on its standard input. *)
Record ActionPayload : Type := mkPayload {
  pl_Message : NormalizedMessage;
  pl_Conversation : ConversationState;
  pl_PriorTurns : list ConversationTurn
}.

Record RunInput : Type := mkInput {
  ri_ProfileID : string;
  ri_ActionID : string;
  ri_Payload : ActionPayload;
  ri_ThreadID : string
}.

Record RunState : Type := mkRun { rn_Completed : bool; rn_Output : string; rn_Error : string; rn_Data : any }.

(** The settings of a router: whether a store is attached, its retention and the default
    limit of prior turns. *)
Record RouterConfig : Type := mkRouterConfig { rc_history : bool; rc_retention : Z; rc_priorTurnLimit : Z }.

Record HistoryEnv : Type := mkHistoryEnv { he_now : Z; he_recent : bool; he_append : bool }.

Definition set_profile (m : NormalizedMessage) (p : string) : NormalizedMessage :=
  mkMessage (nm_ID m) (nm_Timestamp m) (nm_Platform m) (nm_WorkspaceID m) p (nm_Sender m) (nm_Channel m) (nm_Text m)
    (nm_Thread m) (nm_Reactions m) (nm_Attachments m) (nm_PlatformMetadata m).

(** The name under which the links of the message's messenger are kept. *)
Definition messengerName (msg : NormalizedMessage) : string :=
  match nm_PlatformMetadata msg with
  | Some meta =>
      match mget meta "messenger_name" with
      | Some (AStr configuredName) => if decide (configuredName = "") then nm_Platform msg else configuredName
      | _ => nm_Platform msg
      end
  | None => nm_Platform msg
  end.

Definition mapping_error (e : MappingErr) : string :=
  match e with
  | InvalidMapping mapping sep =>
      "invalid mapping format '" +:+ mapping +:+ "': expected 'profile" +:+ String sep "" +:+ "action'"
  end.

Section Router.
(** The resolver: the profile of the link and the mapping, or an error with its text and
    whether it is an unknown channel. *)
Variable resolve : string -> NormalizedMessage -> Res (MessengerError * bool) (string * string).
Variable execute : option (RunInput -> Res string (option RunState)).
Variable config : RouterConfig.

(** A step returns the message, which routing stamps with the profile. *)
Definition Route (cancelled : bool) (msg : NormalizedMessage) :
    NormalizedMessage * (option RoutingResult * option RouterErr) :=
  if cancelled then (msg, (None, Some RtContext))
  else
    match resolve (messengerName msg) msg with
    | Err (e, true) => (msg, (Some (mkRouting (nm_ID msg) "" "" "" UnknownChannel (Some e)), None))
    | Err (e, false) =>
        let err := ErrRoutingFailed (nm_ID msg) ("resolve route for " +:+ messengerName msg +:+ ": " +:+ MessengerError_Error e) in
        (msg, (Some (mkRouting (nm_ID msg) "" "" "" RouteError (Some err)), Some (RtMessenger err)))
    | Ok (profile, actionMapping) =>
        if decide (actionMapping = "")
        then (msg, (Some (mkRouting (nm_ID msg) profile "" "" NoAction (Some (ErrActionNotFound profile "(none)"))), None))
        else
          match ParseTargetAction actionMapping with
          | Err e =>
              let err := ErrRoutingFailed (nm_ID msg) (mapping_error e) in
              (msg, (Some (mkRouting (nm_ID msg) "" "" "" RouteError (Some err)), Some (RtMessenger err)))
          | Ok target =>
              (set_profile msg (ta_ProfileID target),
               (Some (mkRouting (nm_ID msg) (ta_ProfileID target) (ta_ActionName target) (TargetAction_String target) Routed None),
                None))
          end
    end.

Definition ResolveMessageRoute (cancelled : bool) (msg : NormalizedMessage) : NormalizedMessage * Res RouterErr ExecutionRoute :=
  match Route cancelled msg with
  | (msg, (_, Some err)) => (msg, Err err)
  | (msg, (None, None)) => (msg, Err RtNilMessage)
  | (msg, (Some result, None)) =>
      match rr_Status result with
      | Routed => (msg, Ok (mkRoute (rr_ProfileID result) (rr_ActionName result) (rr_Route result)))
      | s => (msg, Err (match rr_Error result with Some e => RtMessenger e | None => RtNotRouted s end))
      end
  end.

(** Options of one call: limits that are not positive are ignored. *)
Definition resolveExecuteOptions (opts : list Z) : Z :=
  foldl (fun limit o => if decide (o > 0) then o else limit)
    (if decide (rc_priorTurnLimit config <= 0) then DefaultPriorTurnLimit else rc_priorTurnLimit config) opts.

Definition priorTurns (env : HistoryEnv) (db : TurnTable) (state : ConversationState) (limit : Z) : list ConversationTurn :=
  if rc_history config
  then match RecentTurns (he_recent env) db (mkQuery (cv_ConversationID state) (cv_SessionID state) limit) with
       | Ok turns => turns
       | Err _ => []
       end
  else [].

Definition recordInboundTurn (env : HistoryEnv) (db : TurnTable) (msg : NormalizedMessage) (profileID actionName : string) : TurnTable :=
  if rc_history config
  then (AppendTurn (he_now env) (rc_retention config) (he_append env) db (NewInboundTurn (he_now env) msg "" profileID actionName)).1
  else db.

Definition recordOutboundTurn (env : HistoryEnv) (db : TurnTable) (msg : NormalizedMessage) (text profileID actionName : string) :
    TurnTable :=
  if negb (rc_history config) || bool_decide (TrimSpace text = "") then db
  else (AppendTurn (he_now env) (rc_retention config) (he_append env) db
          (NewOutboundTurn (he_now env) msg text "" profileID actionName)).1.

(** The last component is what the executor was called with. *)
Definition ExecuteAction (cancelled : bool) (env : HistoryEnv) (db : TurnTable) (profileID actionName : string)
    (msg : NormalizedMessage) (opts : list Z) : TurnTable * Res RouterErr ActionResult * option RunInput :=
  if cancelled then (db, Err RtContext, None)
  else match execute with
       | None => (db, Err RtNoExecutor, None)
       | Some run =>
           let state := ConversationState_of msg in
           let prior := priorTurns env db state (resolveExecuteOptions opts) in
           let db := recordInboundTurn env db msg profileID actionName in
           let input := mkInput profileID actionName (mkPayload msg state prior) (cv_SessionID state) in
           match run input with
           | Err text => (db, Err (RtExec text), Some input)
           | Ok None => (db, Err RtNilRun, Some input)
           | Ok (Some runState) =>
               let '(status, output) :=
                 if rn_Completed runState then ("success", rn_Output runState)
                 else ("failed", if decide (rn_Output runState = "") then rn_Error runState else rn_Output runState) in
               (db, Ok (mkResult status output (rn_Data runState)), Some input)
           end
       end.

Definition status_text (s : RouteStatus) : string :=
  match s with Routed => "routed" | UnknownChannel => "unknown_channel" | NoAction => "no_action" | RouteError => "error" end.

Record Handled : Type := mkHandled {
  hd_Message : NormalizedMessage;
  hd_Table : TurnTable;
  hd_Result : option ActionResult;
  hd_Err : option RouterErr;
  hd_Input : option RunInput
}.

(** [render] is the text of an error in an output. *)
Definition HandleMessage (render : RouterErr -> string) (cancelled : bool) (env : HistoryEnv) (db : TurnTable)
    (msg : NormalizedMessage) (opts : list Z) : Handled :=
  if cancelled then mkHandled msg db None (Some RtContext) None
  else match Route false msg with
       | (msg, (_, Some err)) =>
           mkHandled msg db (Some (mkResult "failed" ("routing failed: " +:+ render err) ANil)) (Some err) None
       | (msg, (None, None)) => mkHandled msg db None None None
       | (msg, (Some result, None)) =>
           match rr_Status result with
           | Routed =>
               match ExecuteAction false env db (rr_ProfileID result) (rr_ActionName result) msg opts with
               | (db, Ok r, input) => mkHandled msg db (Some r) None input
               | (db, Err err, input) =>
                   mkHandled msg db (Some (mkResult "failed" ("action execution failed: " +:+ render err) ANil)) (Some err) input
               end
           | s => mkHandled msg db (Some (mkResult "failed" ("message not routed: " +:+ status_text s) ANil)) None None
           end
       end.
End Router.

(** ** The manager of links as a resolver *)

Definition manager_error (e : ManagerErr) : MessengerError * bool :=
  match e with
  | MgrErr e => (e, IsUnknownChannel e)
  | MgrText text => (mkErr "" text ErrCodeRoutingFailed None, false)
  | _ => (mkErr "" "" ErrCodeRoutingFailed None, false)
  end.

Definition resolveByLinks (profiles : option (list string)) (fs : LinkFiles) (name : string) (msg : NormalizedMessage) :
    Res (MessengerError * bool) (string * string) :=
  match ResolveChannelRoute profiles fs name (cn_ID (nm_Channel msg)) with
  | Ok (link, action) => Ok (lk_ProfileID link, action)
  | Err e => Err (manager_error e)
  end.

(** ** What reaches an action *)

(** A run of a router: messages that are handled, each with the resolver, the executor and
    the faults of its call, and replies that are recorded. *)
Inductive RouterStep : Type :=
  | StepHandle (resolve : string -> NormalizedMessage -> Res (MessengerError * bool) (string * string))
      (execute : option (RunInput -> Res string (option RunState))) (cancelled : bool) (env : HistoryEnv)
      (msg : NormalizedMessage) (opts : list Z)
  | StepReply (env : HistoryEnv) (msg : NormalizedMessage) (text profileID actionName : string).

Definition step_message (s : RouterStep) : NormalizedMessage :=
  match s with StepHandle _ _ _ _ msg _ => msg | StepReply _ msg _ _ _ => msg end.

Definition runStep (config : RouterConfig) (db : TurnTable) (s : RouterStep) : TurnTable :=
  match s with
  | StepHandle resolve execute cancelled env msg opts =>
      hd_Table (HandleMessage resolve execute config (fun _ => "") cancelled env db msg opts)
  | StepReply env msg text profileID actionName => recordOutboundTurn config env db msg text profileID actionName
  end.

(** A turn of a conversation of [m]. *)
Definition turn_of (m : NormalizedMessage) (t : ConversationTurn) : Prop :=
  tu_ConversationID t = cv_ConversationID (ConversationState_of m) /\
  tu_SessionID t = cv_SessionID (ConversationState_of m) /\
  (tu_Direction t = TurnDirectionInbound -> tu_Text t = nm_Text m).

Definition from_messages (ms : list NormalizedMessage) (db : TurnTable) : Prop :=
  Forall (fun t => exists m, m ∈ ms /\ turn_of m t) (tt_rows db).

Lemma from_messages_mono ms ms' db : ms ⊆ ms' -> from_messages ms db -> from_messages ms' db.
Proof. intros Hs H. eapply Forall_impl; [exact H|]. intros t (m & Hm & Ht). exists m. split; [by apply Hs|done]. Qed.

Lemma append_from ms now keep fault db t m : m ∈ ms -> turn_of m t -> from_messages ms db ->
  from_messages ms (AppendTurn now keep fault db t).1.
Proof.
  intros Hm Ht Hdb. unfold AppendTurn. destruct (ConversationTurn_Validate t); [|done]. destruct fault; [done|].
  unfold from_messages. simpl. apply Forall_forall. intros u [_ Hu]%list_elem_of_filter.
  apply elem_of_app in Hu as [Hu|Hu]; [by apply (proj1 (Forall_forall _ _) Hdb)|].
  apply list_elem_of_singleton in Hu as ->. by exists m.
Qed.

Lemma set_profile_state m p : ConversationState_of (set_profile m p) = ConversationState_of m.
Proof. done. Qed.

Lemma turn_of_set_profile m p t : turn_of (set_profile m p) t <-> turn_of m t.
Proof. done. Qed.

Lemma Route_message resolve cancelled m : (Route resolve cancelled m).1 = m \/ exists p, (Route resolve cancelled m).1 = set_profile m p.
Proof. unfold Route. repeat (case_match || case_decide); eauto. Qed.

Lemma inbound_from ms config env db msg m p a : m ∈ ms -> (msg = m \/ exists q, msg = set_profile m q) ->
  from_messages ms db -> from_messages ms (recordInboundTurn config env db msg p a).
Proof.
  intros Hm Hmsg Hdb. unfold recordInboundTurn. destruct (rc_history config); [|done].
  apply (append_from _ _ _ _ _ _ m); [done| |done].
  assert (turn_of msg (NewInboundTurn (he_now env) msg "" p a)) as H by done.
  destruct Hmsg as [->|[q ->]]; [done|]. by rewrite turn_of_set_profile in H.
Qed.

Lemma ExecuteAction_spec execute config cancelled env db p a msg opts :
  let '(db', _, input) := ExecuteAction execute config cancelled env db p a msg opts in
  (db' = db \/ db' = recordInboundTurn config env db msg p a) /\
  (forall i, input = Some i ->
     i = mkInput p a (mkPayload msg (ConversationState_of msg)
           (priorTurns config env db (ConversationState_of msg) (resolveExecuteOptions config opts)))
           (cv_SessionID (ConversationState_of msg))).
Proof.
  unfold ExecuteAction. repeat (case_match || case_decide); simplify_eq; split; try tauto; try done; by intros i [= <-].
Qed.

Lemma HandleMessage_spec resolve execute config render cancelled env db msg opts :
  let h := HandleMessage resolve execute config render cancelled env db msg opts in
  (hd_Table h = db \/ exists msg' p a, (msg' = msg \/ exists q, msg' = set_profile msg q) /\
                       hd_Table h = recordInboundTurn config env db msg' p a) /\
  (forall i, hd_Input h = Some i -> exists link mapping t,
     resolve (messengerName msg) msg = Ok (link, mapping) /\ ParseTargetAction mapping = Ok t /\
     i = mkInput (ta_ProfileID t) (ta_ActionName t)
           (mkPayload (set_profile msg (ta_ProfileID t)) (ConversationState_of msg)
              (priorTurns config env db (ConversationState_of msg) (resolveExecuteOptions config opts)))
           (cv_SessionID (ConversationState_of msg))).
Proof.
  cbv zeta. unfold HandleMessage. destruct cancelled; [split; [by left|done]|]. unfold Route.
  destruct (resolve (messengerName msg) msg) as [[link mapping]|[e []]]; [|split; [by left|done]..].
  case_decide; [split; [by left|done]|]. destruct (ParseTargetAction mapping) as [t|] eqn:Et; [|split; [by left|done]].
  cbn [rr_Status rr_ProfileID rr_ActionName].
  pose proof (ExecuteAction_spec execute config false env db (ta_ProfileID t) (ta_ActionName t) (set_profile msg (ta_ProfileID t)) opts) as Hx.
  destruct (ExecuteAction _ _ _ _ _ _ _ _ _) as [[db' r] input]. destruct Hx as [Hd Hi].
  assert (hd_Table (match r with
      | Ok r => mkHandled (set_profile msg (ta_ProfileID t)) db' (Some r) None input
      | Err err => mkHandled (set_profile msg (ta_ProfileID t)) db'
                     (Some (mkResult "failed" ("action execution failed: " +:+ render err) ANil)) (Some err) input end) = db' /\
    hd_Input (match r with
      | Ok r => mkHandled (set_profile msg (ta_ProfileID t)) db' (Some r) None input
      | Err err => mkHandled (set_profile msg (ta_ProfileID t)) db'
                     (Some (mkResult "failed" ("action execution failed: " +:+ render err) ANil)) (Some err) input end) = input)
    as [-> ->] by (by destruct r).
  split.
  - destruct Hd as [-> | ->]; [by left|right]. exists (set_profile msg (ta_ProfileID t)), (ta_ProfileID t), (ta_ActionName t).
    split; [right; by eexists|done].
  - intros i Hin. exists link, mapping, t. split; [done|]. split; [done|]. by apply Hi.
Qed.

Lemma runStep_from config db s ms : step_message s ∈ ms -> from_messages ms db -> from_messages ms (runStep config db s).
Proof.
  intros Hm Hdb. destruct s as [resolve execute cancelled env msg opts|env msg text p a]; simpl in *.
  - destruct (HandleMessage_spec resolve execute config (fun _ => "") cancelled env db msg opts)
      as [[->|(m' & p & a & Hm' & ->)] _]; [done|]. by apply (inbound_from _ _ _ _ _ msg).
  - unfold recordOutboundTurn. case_match; [done|]. by apply (append_from _ _ _ _ _ _ msg).
Qed.

Lemma run_from config steps : forall db ms, from_messages ms db ->
  from_messages (ms ++ map step_message steps) (foldl (runStep config) db steps).
Proof.
  induction steps as [|s steps IH]; intros db ms Hdb; simpl; [by rewrite app_nil_r|].
  change (step_message s :: map step_message steps) with ([step_message s] ++ map step_message steps). rewrite app_assoc. apply IH, runStep_from.
  - apply elem_of_app. right. by left.
  - eapply from_messages_mono; [|exact Hdb]. intros m Hm. apply elem_of_app. by left.
Qed.

Lemma resolveExecuteOptions_pos config opts : 0 < resolveExecuteOptions config opts.
Proof.
  unfold resolveExecuteOptions, DefaultPriorTurnLimit.
  assert (0 < (if decide (rc_priorTurnLimit config <= 0) then 20 else rc_priorTurnLimit config)) as H by (case_decide; lia).
  revert H. generalize (if decide (rc_priorTurnLimit config <= 0) then 20 else rc_priorTurnLimit config).
  induction opts as [|o opts IH]; intros z Hz; simpl; [done|]. apply IH. case_decide; lia.
Qed.

Lemma priorTurns_spec config env db state limit t : 0 < limit -> cv_SessionID state <> "" ->
  t ∈ priorTurns config env db state limit ->
  t ∈ tt_rows db /\ tu_ConversationID t = cv_ConversationID state /\ tu_SessionID t = cv_SessionID state.
Proof.
  intros Hl Hs. unfold priorTurns, RecentTurns. destruct (rc_history config); [|by intros ?%elem_of_nil].
  simpl. case_decide; [by intros ?%elem_of_nil|]. destruct (he_recent env); [by intros ?%elem_of_nil|].
  intros Ht. rewrite elem_of_reverse in Ht. apply elem_of_take in Ht as (k & Ht & _).
  apply list_elem_of_lookup_2 in Ht. rewrite elem_of_reverse in Ht.
  apply list_elem_of_filter in Ht as [[Hc [Hn|He]] Hin]; [done|]. done.
Qed.

Lemma priorTurns_length config env db state limit : 0 < limit ->
  Z.of_nat (length (priorTurns config env db state limit)) <= limit.
Proof.
  intros Hl. unfold priorTurns, RecentTurns. repeat case_match; simplify_eq; simpl; try lia.
  repeat (case_decide; simplify_eq; simpl in *; try lia). rewrite length_reverse, length_take. lia.
Qed.

Lemma SessionID_nonempty m : cv_SessionID (ConversationState_of m) <> "".
Proof.
  rewrite SessionID_parts. unfold stableMessageKey. simpl. destruct (map _ _); intros H; by apply (f_equal chars) in H.
Qed.

(** C8: However messages and replies were handled before, and whatever resolvers,
    executors and store failures they met, what an action is given with a valid message is
    the target that the resolver names, the session of the message, and at most the
    configured number of prior turns, each of which belongs to an earlier message of the
    same conversation and thread; an inbound turn carries the text of that message.  No
    turn of another conversation reaches an action. *)
Theorem prior_turns_isolated config steps resolve execute render cancelled env msg opts i
    (Hsteps : Forall (fun s => valid (step_message s)) steps) (Hmsg : valid msg) :
  let db := foldl (runStep config) empty_table steps in
  hd_Input (HandleMessage resolve execute config render cancelled env db msg opts) = Some i ->
  (exists link mapping t, resolve (messengerName msg) msg = Ok (link, mapping) /\ ParseTargetAction mapping = Ok t /\
     ri_ProfileID i = ta_ProfileID t /\ ri_ActionID i = ta_ActionName t) /\
  ri_ThreadID i = SessionThreadID (Some msg) /\
  Z.of_nat (length (pl_PriorTurns (ri_Payload i))) <= resolveExecuteOptions config opts /\
  forall t, t ∈ pl_PriorTurns (ri_Payload i) -> exists m, m ∈ map step_message steps /\
    conversation m = conversation msg /\ threadID m = threadID msg /\
    (tu_Direction t = TurnDirectionInbound -> tu_Text t = nm_Text m).
Proof.
  cbv zeta. intros Hi. set (db := foldl (runStep config) empty_table steps) in *.
  destruct (HandleMessage_spec resolve execute config render cancelled env db msg opts) as [_ H].
  destruct (H i Hi) as (link & mapping & tgt & Hr & Hp & ->). clear H Hi.
  pose proof (resolveExecuteOptions_pos config opts) as Hpos.
  split; [by exists link, mapping, tgt|]. split; [done|]. split; [by apply priorTurns_length|]. cbn [ri_Payload pl_PriorTurns].
  intros t Ht. apply priorTurns_spec in Ht as (Hin & Hc & Hs); [|done|apply SessionID_nonempty].
  pose proof (run_from config steps empty_table [] ltac:(constructor)) as Hfrom.
  destruct (proj1 (Forall_forall _ _) Hfrom t Hin) as (m & Hm & Mc & Ms & Mt). exists m. split; [done|].
  assert (valid m) as Hvm.
  { apply list_elem_of_fmap in Hm as (s & -> & Hsin). by apply (proj1 (Forall_forall _ _) Hsteps). }
  rewrite Mc in Hc. rewrite Ms in Hs. rewrite !ConversationID_parts in Hc. rewrite !SessionID_parts in Hs.
  apply stableMessageKey_inj in Hs; [|by destruct (conversationParts m)|by destruct (conversationParts msg)
    |by apply sessionParts_nonempty|by apply sessionParts_nonempty].
  apply sessionParts_iff in Hs as [H1 H2]; [done|done|done].
Qed.

Definition echo : option (RunInput -> Res string (option RunState)) :=
  Some (fun i => Ok (Some (mkRun true (nm_Text (pl_Message (ri_Payload i))) "" ANil))).

Definition to_alice : string -> NormalizedMessage -> Res (MessengerError * bool) (string * string) :=
  fun _ _ => Ok ("alice", "alice=answer").

Definition calm : HistoryEnv := mkHistoryEnv 9 false false.

Lemma prior_turns_isolated_witness :
  let steps := [StepHandle to_alice echo false calm (sample_message "group" "C1" None) [];
                StepHandle to_alice echo false calm (sample_message "group" "C2" None) []] in
  exists i, hd_Input (HandleMessage to_alice echo (mkRouterConfig true 0 0) (fun _ => "") false calm
      (foldl (runStep (mkRouterConfig true 0 0)) empty_table steps) (sample_message "group" "C1" None) []) = Some i /\
    length (pl_PriorTurns (ri_Payload i)) = 1%nat /\
    (forall t, t ∈ pl_PriorTurns (ri_Payload i) -> exists m, m ∈ map step_message steps /\
       conversation m = conversation (sample_message "group" "C1" None)).
Proof.
  intros steps. eexists. split; [vm_compute; reflexivity|]. split; [reflexivity|].
  intros t Ht. destruct (prior_turns_isolated (mkRouterConfig true 0 0) steps to_alice echo (fun _ => "") false calm
    (sample_message "group" "C1" None) [] _ ltac:(by repeat constructor) ltac:(reflexivity) ltac:(vm_compute; reflexivity))
    as (_ & _ & _ & H).
  destruct (H t Ht) as (m & Hm & Hc & _). by exists m.
Defined.
