(* ===== verification/MsgRuntime.v ===== *)
(** * The message runtime

    runtime.go of src/internal/core/messenger: one pass of a provider's native event through
    normalization, routing, execution and delivery with retries.

    The provider, the router, the executor and the history store are arguments; what a
    delivery, a clock reading or a sleep returns may depend on the number of the attempt.
    A pass returns its trace: every effect in the order the code causes it. *)

From Stdlib Require Import ZArith Lia String Ascii.
From stdpp Require Import base option list list_numbers gmap strings.
From S2P Require Import Prelude Text GoValue MsgTypes MsgConfig MsgHistory MsgRouter.

#[local] Open Scope Z_scope.

(** ** Data *)

Inductive RuntimeStage : Type := StageIngress | StageNormalize | StageRoute | StageExecute | StageDeliver.

#[global] Instance RuntimeStage_eq_dec : EqDecision RuntimeStage.
Proof. solve_decision. Defined.

Definition stage_text (s : RuntimeStage) : string :=
  match s with
  | StageIngress => "ingress" | StageNormalize => "normalize" | StageRoute => "route"
  | StageExecute => "execute" | StageDeliver => "deliver"
  end.

Record NativeIngress : Type := mkIngress {
  ig_ID : string;
  ig_ServiceID : string;
  ig_Provider : string;
  ig_Mode : string;
  ig_Method : string;
  ig_Path : string;
  ig_Headers : gmap string (list string);
  ig_Query : gmap string (list string);
  ig_Body : string;
  ig_RemoteAddr : string;
  ig_ReceivedAt : Z;
  ig_Attempt : Z;
  ig_Metadata : amap
}.

Definition NativeIngress_Validate (i : NativeIngress) : option string :=
  if decide (TrimSpace (ig_ServiceID i) = "") then Some "service ID is required"
  else if decide (TrimSpace (ig_Provider i) = "") then Some "provider is required"
  else if decide (ig_Mode i = "") then Some "ingress mode is required"
  else None.

Record DeliveryRequest : Type := mkDelivery {
  dr_Provider : string;
  dr_ServiceID : string;
  dr_MessageID : string;
  dr_ChannelID : string;
  dr_ThreadID : string;
  dr_Text : string;
  dr_Attachments : list Attachment;
  dr_Metadata : amap
}.

Definition DeliveryRequest_Validate (d : DeliveryRequest) : option string :=
  if decide (TrimSpace (dr_Provider d) = "") then Some "provider is required"
  else if decide (TrimSpace (dr_ServiceID d) = "") then Some "service ID is required"
  else if decide (TrimSpace (dr_ChannelID d) = "") then Some "channel ID is required"
  else if decide (TrimSpace (dr_Text d) = "" /\ dr_Attachments d = []) then Some "delivery content is required"
  else None.

Record DeliveryReceipt : Type := mkReceipt {
  rc_Provider : string;
  rc_DeliveryID : string;
  rc_Status : string;
  rc_Retriable : bool;
  rc_DeliveredAt : Z
}.

Record DeliveryAttempt : Type := mkAttempt {
  da_Provider : string;
  da_MessageID : string;
  da_ChannelID : string;
  da_DeliveryID : string;
  da_Attempt : Z;
  da_MaxAttempts : Z;
  da_Status : string;
  da_Retriable : bool;
  da_Delay : Z;
  da_StartedAt : Z;
  da_FinishedAt : Z;
  da_RedactedError : string
}.

Definition ExecutionRoute_Validate (r : ExecutionRoute) : option string :=
  if decide (TrimSpace (ex_ProfileID r) = "") then Some "profile ID is required"
  else if decide (TrimSpace (ex_ActionName r) = "") then Some "action name is required"
  else None.

Definition ExecutionRoute_TargetAction (r : ExecutionRoute) : string :=
  if decide (ex_Mapping r = "") then TargetAction_String (mkTarget (ex_ProfileID r) (ex_ActionName r)) else ex_Mapping r.

Record ExecutionHandoff : Type := mkHandoff {
  ho_ServiceID : string;
  ho_Provider : string;
  ho_ProfileID : string;
  ho_ActionName : string;
  ho_TargetAction : string;
  ho_Message : NormalizedMessage;
  ho_Ingress : NativeIngress;
  ho_Attempt : Z
}.

Record ExecutionResult : Type := mkExec {
  xr_Status : string;
  xr_Output : string;
  xr_Reply : option DeliveryRequest;
  xr_Metadata : gmap string string
}.

Record RetryPolicy : Type := mkPolicy {
  rp_MaxAttempts : Z;
  rp_BaseDelay : Z;
  rp_MaxDelay : Z;
  rp_Stages : list RuntimeStage;
  rp_ErrorCodes : list ErrorCode
}.

Record RetryDecision : Type := mkDecision {
  rd_Retry : bool;
  rd_Attempt : Z;
  rd_MaxAttempts : Z;
  rd_Delay : Z;
  rd_Stage : RuntimeStage;
  rd_Reason : string
}.

(** An error value: an error of the messenger package, or the text of any other. *)
Inductive GoErr : Type := ErrText (text : string) | ErrMessenger (e : MessengerError).

Coercion ErrText : string >-> GoErr.

Definition GoErr_Error (e : GoErr) : string := match e with ErrText text => text | ErrMessenger e => MessengerError_Error e end.

Record RuntimeError : Type := mkRuntimeError {
  re_Stage : RuntimeStage;
  re_Service : string;
  re_Provider : string;
  re_Message : string;
  re_Attempt : Z;
  re_Decision : RetryDecision;
  re_Err : GoErr
}.

Definition RuntimeError_Error (e : RuntimeError) : string :=
  let base := stage_text (re_Stage e) +:+ " runtime stage failed" in
  let base := if decide (re_Service e = "") then base else base +:+ " for service " +:+ re_Service e in
  base +:+ ": " +:+ GoErr_Error (re_Err e).

(** ** Retry policy *)

Definition DefaultRetryPolicy : RetryPolicy :=
  mkPolicy 3 Second (30 * Second) [StageRoute; StageExecute; StageDeliver] [].

Definition effective (p : RetryPolicy) : RetryPolicy := if decide (rp_MaxAttempts p = 0) then DefaultRetryPolicy else p.

Definition runtimeStageAllowed (stages : list RuntimeStage) (stage : RuntimeStage) : bool := bool_decide (stage ∈ stages).

(** The doubling loop of [retryDelay], on an int64. *)
Fixpoint delayLoop (rounds : nat) (delay maxDelay : Z) : Z :=
  match rounds with
  | O => delay
  | S rounds =>
      let delay := wrap64 (delay * 2) in
      if decide (delay >= maxDelay) then maxDelay else delayLoop rounds delay maxDelay
  end.

Definition retryDelay (p : RetryPolicy) (attempt : Z) : Z :=
  let base := if decide (rp_BaseDelay p <= 0) then Second else rp_BaseDelay p in
  let maxDelay := if decide (rp_MaxDelay p <= 0) then 30 * Second else rp_MaxDelay p in
  delayLoop (Z.to_nat ((if decide (attempt < 1) then 1 else attempt) - 1)) base maxDelay.

(** [Decide] reads the attempt and the stage of an error. *)
Definition Decide (p : RetryPolicy) (attempt : Z) (stage : RuntimeStage) : RetryDecision :=
  let p := effective p in
  if decide (attempt >= rp_MaxAttempts p) then mkDecision false attempt (rp_MaxAttempts p) 0 stage "max attempts reached"
  else if negb (bool_decide (rp_Stages p = [])) && negb (runtimeStageAllowed (rp_Stages p) stage)
  then mkDecision false attempt (rp_MaxAttempts p) 0 stage "stage is not retryable"
  else mkDecision true attempt (rp_MaxAttempts p) (retryDelay p attempt) stage "retryable runtime error".

(** ** One pass *)

Inductive RuntimeEvent : Type :=
  | EvExecute (h : ExecutionHandoff)
  | EvDeliver (attempt : Z) (request : DeliveryRequest)
  | EvAttempt (a : DeliveryAttempt)
  | EvError (e : RuntimeError)
  | EvRetry (d : RetryDecision)
  | EvSleep (delay : Z)
  | EvTurn (t : ConversationTurn).

(** The provider: its metadata, its normalizer, and its delivery if it implements one. *)
Class MessageProvider : Type := {
  mp_Provider : string;
  NormalizeIngress : NativeIngress -> Res GoErr (option NormalizedMessage);
  DeliverMessage : option (Z -> DeliveryRequest -> Res string (option DeliveryReceipt))
}.

Record RuntimeResult : Type := mkRuntimeResult {
  rs_Message : NormalizedMessage;
  rs_Route : ExecutionRoute;
  rs_Handoff : ExecutionHandoff;
  rs_Result : ExecutionResult;
  rs_Delivery : option DeliveryReceipt;
  rs_DeliveryAttempts : list DeliveryAttempt
}.

Section Runtime.
Context `{MP : MessageProvider}.
(** [router.ResolveMessageRoute] with the profile it stamps on the message, [executor.ExecuteMessage], the clock around each
    attempt, the sleep after it, and the redaction of provider errors. *)
Variable resolveRoute : NormalizedMessage -> option string * Res string ExecutionRoute.
Variable executeMessage : ExecutionHandoff -> Res string (option ExecutionResult).
Variable clock : Z -> Z * Z.
Variable sleep : Z -> Z -> option string.
Variable redact : string -> string.
(** The options: service, policy, whether a history store is set, and [time.Now]. *)
Variable serviceID : string.
Variable policy : RetryPolicy.
Variable history : bool.
Variable now : Z.

Definition emitRuntimeError (e : RuntimeError) : list RuntimeEvent :=
  EvError e :: if rd_Retry (re_Decision e) then [EvRetry (re_Decision e)] else [].

Definition runtimeError (stage : RuntimeStage) (ingress : NativeIngress) (msgID : string) (err : GoErr) : RuntimeError :=
  mkRuntimeError stage (ig_ServiceID ingress) (ig_Provider ingress) msgID (ig_Attempt ingress)
    (Decide policy (ig_Attempt ingress) stage) err.

Definition withDefaults (ingress : NativeIngress) (r : DeliveryReceipt) : DeliveryReceipt :=
  mkReceipt (if decide (rc_Provider r = "") then ig_Provider ingress else rc_Provider r) (rc_DeliveryID r)
    (if decide (rc_Status r = "") then "success" else rc_Status r) (rc_Retriable r) (rc_DeliveredAt r).

(** The outcome of one call of the provider: a receipt, or the text of the error. *)
Definition deliverOnce (ingress : NativeIngress) (deliver : Z -> DeliveryRequest -> Res string (option DeliveryReceipt))
    (attempt : Z) (reply : DeliveryRequest) : Res string DeliveryReceipt :=
  match deliver attempt reply with
  | Ok (Some receipt) => Ok (withDefaults ingress receipt)
  | Ok None => Err (redact ("provider " +:+ Quote (ig_Provider ingress) +:+ " returned nil delivery receipt"))
  | Err err => Err (redact err)
  end.

Definition attemptRecord (ingress : NativeIngress) (reply : DeliveryRequest) (maxAttempts attempt : Z)
    (deliveryID status : string) (retriable : bool) (delay : Z) (err : string) : DeliveryAttempt :=
  mkAttempt (ig_Provider ingress) (dr_MessageID reply) (dr_ChannelID reply) deliveryID attempt maxAttempts status retriable delay
    (clock attempt).1 (clock attempt).2 err.

(** The loop of [deliverWithRetry]: the trace, the attempts, and the outcome; [None] when
    the fuel runs out. *)
Fixpoint deliverLoop (fuel : nat) (deliver : Z -> DeliveryRequest -> Res string (option DeliveryReceipt))
    (ingress : NativeIngress) (msgID : string) (reply : DeliveryRequest) (attempt : Z) :
    option (list RuntimeEvent * list DeliveryAttempt * Res RuntimeError DeliveryReceipt) :=
  match fuel with
  | O => None
  | S fuel =>
      let maxAttempts := rp_MaxAttempts (effective policy) in
      match deliverOnce ingress deliver attempt reply with
      | Ok receipt =>
          let a := attemptRecord ingress reply maxAttempts attempt (rc_DeliveryID receipt) (rc_Status receipt) false 0 "" in
          Some ([EvDeliver attempt reply; EvAttempt a], [a], Ok receipt)
      | Err safeErr =>
          let decision := Decide (effective policy) attempt StageDeliver in
          let e := mkRuntimeError StageDeliver (ig_ServiceID ingress) (ig_Provider ingress) msgID attempt decision safeErr in
          let a := attemptRecord ingress reply maxAttempts attempt ""
                     (if rd_Retry decision then "retry_scheduled" else "dead_letter") (rd_Retry decision) (rd_Delay decision) safeErr in
          let here := [EvDeliver attempt reply; EvAttempt a] ++ emitRuntimeError e in
          if negb (rd_Retry decision) then Some (here, [a], Err e)
          else
            match sleep attempt (rd_Delay decision) with
            | Some err =>
                let e := runtimeError StageDeliver ingress msgID err in
                Some (here ++ EvSleep (rd_Delay decision) :: emitRuntimeError e, [a], Err e)
            | None =>
                match deliverLoop fuel deliver ingress msgID reply (attempt + 1) with
                | Some (trace, attempts, r) => Some (here ++ EvSleep (rd_Delay decision) :: trace, a :: attempts, r)
                | None => None
                end
            end
      end
  end.

(** As many rounds as there are attempts left, and one more. *)
Definition deliveryFuel (attempt : Z) : nat := S (Z.to_nat (rp_MaxAttempts (effective policy) - attempt)).

Definition firstAttempt (ingress : NativeIngress) : Z := if decide (ig_Attempt ingress < 1) then 1 else ig_Attempt ingress.

Definition deliverWithRetry (deliver : Z -> DeliveryRequest -> Res string (option DeliveryReceipt)) (ingress : NativeIngress)
    (msgID : string) (reply : DeliveryRequest) :=
  deliverLoop (deliveryFuel (firstAttempt ingress)) deliver ingress msgID reply (firstAttempt ingress).

Definition orElse (s d : string) : string := if decide (s = "") then d else s.

Definition completeDeliveryRequest (reply : DeliveryRequest) (ingress : NativeIngress) (msg : NormalizedMessage) : DeliveryRequest :=
  let threadID := match nm_Thread msg with Some t => orElse (dr_ThreadID reply) (th_ID t) | None => dr_ThreadID reply end in
  let metadata :=
    match nm_Thread msg with
    | Some t =>
        if decide (th_Type t = "") then dr_Metadata reply
        else match mget (dr_Metadata reply) "thread_type" with
             | Some _ => dr_Metadata reply
             | None => mset (dr_Metadata reply) "thread_type" (AStr (th_Type t))
             end
    | None => dr_Metadata reply
    end in
  mkDelivery (orElse (dr_Provider reply) (ig_Provider ingress)) (orElse (dr_ServiceID reply) (ig_ServiceID ingress))
    (orElse (dr_MessageID reply) (nm_ID msg)) (orElse (dr_ChannelID reply) (cn_ID (nm_Channel msg))) threadID (dr_Text reply)
    (dr_Attachments reply) metadata.

Definition completeIngress (i : NativeIngress) : NativeIngress :=
  mkIngress (ig_ID i) (orElse (ig_ServiceID i) serviceID) (orElse (ig_Provider i) mp_Provider) (ig_Mode i) (ig_Method i) (ig_Path i)
    (ig_Headers i) (ig_Query i) (ig_Body i) (ig_RemoteAddr i) (if IsZero (ig_ReceivedAt i) then now else ig_ReceivedAt i)
    (if decide (ig_Attempt i < 1) then 1 else ig_Attempt i) (ig_Metadata i).

Definition completeMessage (ingress : NativeIngress) (m : NormalizedMessage) : NormalizedMessage :=
  mkMessage (nm_ID m) (if IsZero (nm_Timestamp m) then ig_ReceivedAt ingress else nm_Timestamp m)
    (orElse (nm_Platform m) (ig_Provider ingress)) (nm_WorkspaceID m) (nm_ProfileID m) (nm_Sender m) (nm_Channel m) (nm_Text m)
    (nm_Thread m) (nm_Reactions m) (nm_Attachments m) (nm_PlatformMetadata m).

Definition recordTurn (ingress : NativeIngress) (route : ExecutionRoute) (msg : NormalizedMessage) (text : string) : list RuntimeEvent :=
  if negb history || bool_decide (TrimSpace text = "") then []
  else [EvTurn (NewOutboundTurn now msg text (ig_ServiceID ingress) (ex_ProfileID route) (ex_ActionName route))].

Definition handoff (ingress : NativeIngress) (route : ExecutionRoute) (msg : NormalizedMessage) : ExecutionHandoff :=
  mkHandoff (ig_ServiceID ingress) (ig_Provider ingress) (ex_ProfileID route) (ex_ActionName route)
    (ExecutionRoute_TargetAction route) msg ingress (ig_Attempt ingress).

(** What follows a successful execution. *)
Definition deliverReply (ingress : NativeIngress) (msg : NormalizedMessage) (route : ExecutionRoute) (result : ExecutionResult) :
    option (list RuntimeEvent * Res RuntimeError RuntimeResult) :=
  let fail (err : string) :=
    let e := runtimeError StageDeliver ingress (nm_ID msg) err in Some (emitRuntimeError e, Err e) in
  let h := handoff ingress route msg in
  match xr_Reply result with
  | None => Some ([], Ok (mkRuntimeResult msg route h result None []))
  | Some reply =>
      match DeliverMessage with
      | None => fail ("provider " +:+ Quote (ig_Provider ingress) +:+ " does not implement delivery")
      | Some deliver =>
          let reply := completeDeliveryRequest reply ingress msg in
          match DeliveryRequest_Validate reply with
          | Some err => fail err
          | None =>
              match deliverWithRetry deliver ingress (nm_ID msg) reply with
              | None => None
              | Some (trace, _, Err e) => Some (trace, Err e)
              | Some (trace, attempts, Ok receipt) =>
                  Some (trace ++ recordTurn ingress route msg (dr_Text reply),
                        Ok (mkRuntimeResult msg route h result (Some receipt) attempts))
              end
          end
      end
  end.

Definition HandleIngress (ingress : NativeIngress) : option (list RuntimeEvent * Res RuntimeError RuntimeResult) :=
  let ingress := completeIngress ingress in
  let fail (stage : RuntimeStage) (msgID : string) (err : GoErr) :=
    let e := runtimeError stage ingress msgID err in Some (emitRuntimeError e, Err e) in
  match NativeIngress_Validate ingress with
  | Some err => fail StageIngress "" err
  | None =>
      match NormalizeIngress ingress with
      | Err err => fail StageNormalize "" err
      | Ok None => fail StageNormalize "" "normalized message is nil"
      | Ok (Some msg) =>
          let msg := completeMessage ingress msg in
          match NormalizedMessage_Validate msg with
          | Err err => fail StageNormalize (nm_ID msg) (MsgErr_Error err)
          | Ok _ =>
              match resolveRoute msg with
              | (_, Err err) => fail StageRoute (nm_ID msg) err
              | (stamp, Ok route) =>
                  let msg := match stamp with Some p => set_profile msg p | None => msg end in
                  match ExecutionRoute_Validate route with
                  | Some err => fail StageRoute (nm_ID msg) err
                  | None =>
                      let h := handoff ingress route msg in
                      match executeMessage h with
                      | Err err =>
                          let e := runtimeError StageExecute ingress (nm_ID msg) err in
                          Some (EvExecute h :: emitRuntimeError e, Err e)
                      | Ok result =>
                          match deliverReply ingress msg route (default (mkExec "completed" "" None ∅) result) with
                          | Some (trace, r) => Some (EvExecute h :: trace, r)
                          | None => None
                          end
                      end
                  end
              end
          end
      end
  end.
End Runtime.

Definition NewRuntime_policy (p : RetryPolicy) : RetryPolicy := effective p.

(** ** Retries *)

(** The delay after attempt [a]: the base delay, doubled for each attempt before and cut at
    the maximum, but only from the second attempt on. *)
Lemma delayLoop_exact rounds : forall d m, 0 < d < 2 ^ 62 -> 0 < m <= 2 ^ 62 ->
  delayLoop rounds d m = if decide (rounds = 0%nat) then d else Z.min (d * 2 ^ Z.of_nat rounds) m.
Proof.
  induction rounds as [|n IH]; intros d m Hd Hm; [by rewrite decide_True|]. cbn [delayLoop]. rewrite (decide_False (P := S n = 0%nat)) by done.
  rewrite wrap64_id by (unfold int64_range, min_int64, max_int64; lia).
  assert (2 ^ Z.of_nat (S n) = 2 * 2 ^ Z.of_nat n) as Hp by (rewrite Nat2Z.inj_succ, Z.pow_succ_r; lia).
  assert (0 < 2 ^ Z.of_nat n) as Hpos by (apply Z.pow_pos_nonneg; lia).
  destruct (decide (d * 2 >= m)) as [Hge|Hge]; [rewrite Hp; symmetry; apply Z.min_r; nia|].
  rewrite IH by lia. destruct (decide (n = 0%nat)) as [Hn|Hn]; [subst n; change (2 ^ Z.of_nat 1) with 2; lia|]. rewrite Hp. f_equal. lia.
Qed.

Lemma retryDelay_exact p a : 0 < rp_BaseDelay p < 2 ^ 62 -> 0 < rp_MaxDelay p <= 2 ^ 62 ->
  retryDelay p a = if decide (a <= 1) then rp_BaseDelay p else Z.min (rp_BaseDelay p * 2 ^ (a - 1)) (rp_MaxDelay p).
Proof.
  intros Hb Hm. unfold retryDelay. rewrite (decide_False (P := rp_BaseDelay p <= 0)), (decide_False (P := rp_MaxDelay p <= 0)) by lia.
  rewrite delayLoop_exact by done. destruct (decide (a <= 1)) as [Ha|Ha].
  - destruct (decide (a < 1)); by rewrite decide_True by lia.
  - rewrite (decide_False (P := a < 1)) by lia. rewrite decide_False by lia. by rewrite Z2Nat.id by lia.
Qed.

(** The attempt behind which no retry follows. *)
Definition lastAttempt (policy : RetryPolicy) (a0 : Z) : Z :=
  let p := effective policy in
  if bool_decide (rp_Stages p = []) || runtimeStageAllowed (rp_Stages p) StageDeliver then Z.max a0 (rp_MaxAttempts p) else a0.

Lemma effective_idem p : effective (effective p) = effective p.
Proof. unfold effective. destruct (decide (rp_MaxAttempts p = 0)) as [E|E]; [done|]. by rewrite decide_False. Qed.

Lemma effective_max p : rp_MaxAttempts (effective p) <> 0.
Proof. unfold effective. by case_decide. Qed.

Lemma Decide_retry p a : rd_Retry (Decide (effective p) a StageDeliver) = true <-> a < lastAttempt p a.
Proof.
  unfold Decide, lastAttempt. rewrite effective_idem. cbv zeta. case_decide as H; [split; [done|]; case_match; lia|].
  destruct (bool_decide (rp_Stages (effective p) = [])); simpl; [split; [lia|done]|].
  destruct (runtimeStageAllowed _ _); simpl; split; (lia || done).
Qed.

Lemma lastAttempt_next p a : a < lastAttempt p a -> lastAttempt p (a + 1) = lastAttempt p a.
Proof. unfold lastAttempt. cbv zeta. case_match; lia. Qed.

Section Delivery.
Variable clock : Z -> Z * Z.
Variable redact : string -> string.
Variable policy : RetryPolicy.
Variable deliver : Z -> DeliveryRequest -> Res string (option DeliveryReceipt).
Variable ingress : NativeIngress.
Variable msgID : string.
Variable reply : DeliveryRequest.

(** An attempt the provider accepts. *)
Definition accepts (k : Z) : Prop := exists r, deliver k reply = Ok (Some r).

Definition delivered (trace : list RuntimeEvent) : list Z :=
  omap (fun e => match e with EvDeliver k _ => Some k | _ => None end) trace.

(** What the loop returns, when it starts at attempt [a]. *)
Definition outcome (a : Z) (trace : list RuntimeEvent) (attempts : list DeliveryAttempt) (r : Res RuntimeError DeliveryReceipt) : Prop :=
  exists k, a <= k <= lastAttempt policy a /\
    (forall j, a <= j < k -> ~ accepts j) /\
    delivered trace = seqZ a (k - a + 1) /\ da_Attempt <$> attempts = seqZ a (k - a + 1) /\
    ((exists receipt, deliver k reply = Ok (Some receipt) /\ r = Ok (withDefaults ingress receipt)) \/
     (~ accepts k /\ k = lastAttempt policy a /\
        exists e, r = Err e /\ re_Stage e = StageDeliver /\ re_Attempt e = k /\ rd_Retry (re_Decision e) = false)).

Lemma deliverOnce_accepts k : (exists r, deliverOnce redact ingress deliver k reply = Ok (withDefaults ingress r) /\
    deliver k reply = Ok (Some r)) \/ (exists e, deliverOnce redact ingress deliver k reply = Err e) /\ ~ accepts k.
Proof.
  unfold deliverOnce, accepts. destruct (deliver k reply) as [[r|]|e]; [left|right|right]; eauto;
    (split; [eauto|intros [r' H]; done]).
Qed.

Lemma delivered_emit e : delivered (emitRuntimeError e) = [].
Proof. unfold emitRuntimeError. by destruct (rd_Retry (re_Decision e)). Qed.

Lemma delivered_app t u : delivered (t ++ u) = delivered t ++ delivered u.
Proof. apply omap_app. Qed.

Lemma seqZ_one a : seqZ a (a - a + 1) = [a].
Proof. rewrite seqZ_cons by lia. f_equal. apply seqZ_nil. lia. Qed.

Lemma deliverLoop_outcome fuel : forall a, (Z.to_nat (lastAttempt policy a - a) < fuel)%nat ->
  exists trace attempts r, deliverLoop clock (fun _ _ => None) redact policy fuel deliver ingress msgID reply a = Some (trace, attempts, r) /\
    outcome a trace attempts r.
Proof.
  induction fuel as [|fuel IH]; intros a Hf; [lia|]. cbn [deliverLoop].
  assert (a <= lastAttempt policy a) as Hle by (unfold lastAttempt; cbv zeta; case_match; lia).
  destruct (deliverOnce_accepts a) as [(r & -> & Hd)|[[e ->] Hn]].
  - eexists _, _, _. split; [done|]. exists a. rewrite seqZ_one. split; [lia|]. split; [lia|]. split; [done|]. split; [done|].
    left. by exists r.
  - pose proof (Decide_retry policy a) as Hretry. set (d := Decide (effective policy) a StageDeliver) in *.
    destruct (rd_Retry d) eqn:Er; cbn [negb].
    + assert (a < lastAttempt policy a) as Hlt by tauto. pose proof (lastAttempt_next _ _ Hlt) as Hnext.
      destruct (IH (a + 1) ltac:(rewrite Hnext; lia)) as (trace & attempts & r & -> & k & Hk & Hbefore & Htr & Hat & Hres).
      eexists _, _, _. split; [done|]. exists k. rewrite Hnext in *. split; [lia|]. split.
      { intros j Hj. destruct (decide (j = a)) as [->|]; [done|]. apply Hbefore. lia. }
      assert (seqZ a (k - a + 1) = a :: seqZ (a + 1) (k - (a + 1) + 1)) as ->.
      { rewrite seqZ_cons by lia. by replace (Z.pred (k - a + 1)) with (k - (a + 1) + 1) by lia. }
      split; [|split; [by rewrite fmap_cons, Hat|exact Hres]].
      rewrite delivered_app. cbn [delivered omap]. rewrite delivered_app, delivered_emit. by rewrite <- Htr.
    + eexists _, _, _. split; [done|]. exists a. rewrite seqZ_one. split; [lia|]. split; [lia|].
      split; [by rewrite delivered_app, delivered_emit|]. split; [done|]. right. split; [done|].
      assert (~ a < lastAttempt policy a) by (intros H; apply Hretry in H; done). split; [lia|].
      eexists. split; [done|]. by split.
Qed.
End Delivery.


(** ** The whole pass *)

Definition executed (trace : list RuntimeEvent) : list ExecutionHandoff :=
  omap (fun e => match e with EvExecute h => Some h | _ => None end) trace.
Definition requests (trace : list RuntimeEvent) : list DeliveryRequest :=
  omap (fun e => match e with EvDeliver _ r => Some r | _ => None end) trace.
Definition turns (trace : list RuntimeEvent) : list ConversationTurn :=
  omap (fun e => match e with EvTurn t => Some t | _ => None end) trace.

(** Nothing but calls of the provider for one request, and their reports. *)
Definition quiet (reply : DeliveryRequest) (trace : list RuntimeEvent) : Prop :=
  executed trace = [] /\ turns trace = [] /\ Forall (fun r => r = reply) (requests trace).

Lemma quiet_app reply t u : quiet reply t -> quiet reply u -> quiet reply (t ++ u).
Proof.
  intros (A & B & C) (D & E & F). unfold quiet, executed, turns, requests in *.
  rewrite !omap_app, A, B, D, E. split; [done|]. split; [done|]. by apply Forall_app.
Qed.

Lemma quiet_emit reply e : quiet reply (emitRuntimeError e).
Proof. unfold emitRuntimeError. destruct (rd_Retry (re_Decision e)); split; [done| |done|]; split; try done; constructor. Qed.

Section Pass.
Context `{MP : MessageProvider}.
Variable resolveRoute : NormalizedMessage -> option string * Res string ExecutionRoute.
Variable executeMessage : ExecutionHandoff -> Res string (option ExecutionResult).
Variable clock : Z -> Z * Z.
Variable sleep : Z -> Z -> option string.
Variable redact : string -> string.
Variable serviceID : string.
Variable policy : RetryPolicy.
Variable history : bool.
Variable now : Z.

(** The loop ends whatever the sleeps return. *)
Lemma deliverLoop_total fuel deliver ingress msgID reply : forall a,
  (Z.to_nat (rp_MaxAttempts (effective policy) - a) < fuel)%nat ->
  exists trace attempts r, deliverLoop clock sleep redact policy fuel deliver ingress msgID reply a = Some (trace, attempts, r) /\
    quiet reply trace /\ (is_ok r = false -> exists e, r = Err e /\ re_Stage e = StageDeliver).
Proof.
  induction fuel as [|fuel IH]; intros a Hf; [lia|]. cbn [deliverLoop].
  assert (forall rec, quiet reply [EvDeliver a reply; EvAttempt rec]) as Hq
    by (intros rec; split; [done|]; split; [done|]; by repeat constructor).
  destruct (deliverOnce redact ingress deliver a reply) as [receipt|e].
  { eexists _, _, _. split; [done|]. split; [apply Hq|done]. }
  set (d := Decide (effective policy) a StageDeliver).
  destruct (rd_Retry d) eqn:Er; cbn [negb].
  2:{ eexists _, _, _. split; [done|]. split; [apply (quiet_app _ [_; _]); [apply Hq|apply quiet_emit]|]. intros _.
      eexists. by split. }
  assert (forall t, quiet reply t -> quiet reply (EvSleep (rd_Delay d) :: t)) as Hs by done.
  destruct (sleep a (rd_Delay d)).
  { eexists _, _, _. split; [done|]. split.
    - apply quiet_app; [apply (quiet_app _ [_; _]); [apply Hq|apply quiet_emit]|]. apply Hs, quiet_emit.
    - intros _. eexists. by split. }
  assert (a < rp_MaxAttempts (effective policy)) as Hlt.
  { unfold d, Decide in Er. rewrite effective_idem in Er. cbv zeta in Er. case_decide; [done|lia]. }
  destruct (IH (a + 1) ltac:(lia)) as (trace & attempts & r & -> & Hqt & Hr).
  eexists _, _, _. split; [done|]. split; [|exact Hr].
  apply quiet_app; [apply (quiet_app _ [_; _]); [apply Hq|apply quiet_emit]|]. by apply Hs.
Qed.

Abbreviation pass := (HandleIngress resolveRoute executeMessage clock sleep redact serviceID policy history now).

(** What a pass does after the execution. *)
Definition after_execution (msg : NormalizedMessage) (trace : list RuntimeEvent) (r : Res RuntimeError RuntimeResult) : Prop :=
  executed trace = [] /\
  Forall (fun req => DeliveryRequest_Validate req = None) (requests trace) /\
  (length (turns trace) <= 1)%nat /\
  (turns trace <> [] -> exists res, r = Ok res /\ is_Some (rs_Delivery res)) /\
  (forall e, r = Err e -> re_Stage e = StageDeliver) /\
  (forall res, r = Ok res -> rs_Message res = msg).

Lemma emit_after msg stage ingress id err : stage = StageDeliver ->
  let e := runtimeError policy stage ingress id err in after_execution msg (emitRuntimeError e) (Err e).
Proof.
  intros ->. cbv zeta. set (e := runtimeError policy StageDeliver ingress id err).
  destruct (quiet_emit (mkDelivery "" "" "" "" "" "" [] []) e) as (H1 & H2 & _).
  assert (requests (emitRuntimeError e) = []) as H3 by (unfold emitRuntimeError; by destruct (rd_Retry (re_Decision e))).
  unfold after_execution. rewrite H1, H2, H3. split; [done|]. split; [constructor|]. split; [simpl; lia|]. split; [done|].
  split; [by intros ? [= <-]|done].
Qed.

Lemma deliverReply_after ingress msg route result : exists trace r,
  deliverReply clock sleep redact policy history now ingress msg route result = Some (trace, r) /\ after_execution msg trace r.
Proof.
  unfold deliverReply. destruct (xr_Reply result) as [reply|].
  2:{ eexists _, _. split; [done|]. split; [done|]. split; [constructor|]. split; [simpl; lia|]. split; [done|].
      split; [done|]. by intros res [= <-]. }
  destruct DeliverMessage as [deliver|]; [|eexists _, _; split; [done|]; by apply emit_after].
  set (req := completeDeliveryRequest reply ingress msg). destruct (DeliveryRequest_Validate req) eqn:Ev;
    [eexists _, _; split; [done|]; by apply emit_after|].
  unfold deliverWithRetry. destruct (deliverLoop_total (deliveryFuel policy (firstAttempt ingress)) deliver ingress (nm_ID msg) req
    (firstAttempt ingress)) as (trace & attempts & r & -> & (Q1 & Q2 & Q3) & Hr); [unfold deliveryFuel; lia|].
  assert (Forall (fun q => DeliveryRequest_Validate q = None) (requests trace)) as Hv.
  { eapply Forall_impl; [exact Q3|]. by intros q ->. }
  destruct r as [receipt|e]; (eexists _, _; split; [done|]).
  - unfold after_execution, executed, requests, turns, recordTurn in *. rewrite !omap_app, Q1, Q2.
    destruct (negb history || _); simpl; rewrite ?app_nil_r; repeat split; try done; try lia;
      intros; simplify_eq; try done; eexists; split; [done|by eexists].
  - destruct (Hr eq_refl) as (e' & [= <-] & He). unfold after_execution. rewrite Q1, Q2.
    split; [done|]. split; [done|]. split; [simpl; lia|]. split; [done|]. split; [by intros ? [= <-]|done].
Qed.

Lemma emit_before e : executed (emitRuntimeError e) = [] /\ requests (emitRuntimeError e) = [] /\ turns (emitRuntimeError e) = [].
Proof. unfold emitRuntimeError. by destruct (rd_Retry (re_Decision e)). Qed.

Lemma executed_cons h t : executed (EvExecute h :: t) = h :: executed t /\ requests (EvExecute h :: t) = requests t /\
  turns (EvExecute h :: t) = turns t.
Proof. done. Qed.

Lemma valid_set_profile m p : valid (set_profile m p) <-> valid m.
Proof. by rewrite !valid_iff. Qed.
End Pass.

(** What a pass does, and where the message that is executed comes from. *)
Lemma HandleIngress_spec `{MP : MessageProvider} resolveRoute executeMessage clock sleep redact serviceID policy history now ingress :
  exists trace r,
    HandleIngress resolveRoute executeMessage clock sleep redact serviceID policy history now ingress = Some (trace, r) /\
    (executed trace = [] /\ requests trace = [] /\ turns trace = [] /\
       (exists e, r = Err e /\ re_Stage e ∈ [StageIngress; StageNormalize; StageRoute])
     \/ exists h, executed trace = [h] /\ valid (ho_Message h) /\ TrimSpace (ho_ProfileID h) <> "" /\ TrimSpace (ho_ActionName h) <> "" /\
       Forall (fun req => DeliveryRequest_Validate req = None) (requests trace) /\
       (length (turns trace) <= 1)%nat /\
       (turns trace <> [] -> exists res, r = Ok res /\ is_Some (rs_Delivery res)) /\
       (forall e, r = Err e -> re_Stage e = StageExecute /\ requests trace = [] \/ re_Stage e = StageDeliver) /\
       (forall res, r = Ok res -> rs_Message res = ho_Message h) /\
       (let i := completeIngress serviceID now ingress in
        exists m, NormalizeIngress i = Ok (Some m) /\
          (ho_Message h = completeMessage i m \/ exists p, ho_Message h = set_profile (completeMessage i m) p))).
Proof.
  unfold HandleIngress. set (i := completeIngress serviceID now ingress).
  assert (forall stage id err, stage ∈ [StageIngress; StageNormalize; StageRoute] ->
    let e := runtimeError policy stage i id err in
    executed (emitRuntimeError e) = [] /\ requests (emitRuntimeError e) = [] /\ turns (emitRuntimeError e) = [] /\
    exists e', (Err e : Res RuntimeError RuntimeResult) = Err e' /\ re_Stage e' ∈ [StageIngress; StageNormalize; StageRoute]) as Hfail.
  { intros stage id err Hst e. destruct (emit_before e) as (H1 & H2 & H3). repeat (split; [done|]). by exists e. }
  assert (StageIngress ∈ [StageIngress; StageNormalize; StageRoute]) as I1 by (by apply (bool_decide_eq_true_1 _)).
  assert (StageNormalize ∈ [StageIngress; StageNormalize; StageRoute]) as I2 by (by apply (bool_decide_eq_true_1 _)).
  assert (StageRoute ∈ [StageIngress; StageNormalize; StageRoute]) as I3 by (by apply (bool_decide_eq_true_1 _)).
  destruct (NativeIngress_Validate i); [eexists _, _; split; [done|]; left; by apply Hfail|].
  destruct (NormalizeIngress i) as [[m|]|] eqn:En; try (eexists _, _; split; [done|]; left; by apply Hfail).
  set (m' := completeMessage i m). destruct (NormalizedMessage_Validate m') as [[]|] eqn:Hv;
    [|eexists _, _; split; [done|]; left; by apply Hfail].
  destruct (resolveRoute m') as [stamp [route|]]; [|eexists _, _; split; [done|]; left; by apply Hfail].
  set (msg := match stamp with Some p => set_profile m' p | None => m' end).
  assert (exists m0, (Ok (Some m) : Res GoErr (option NormalizedMessage)) = Ok (Some m0) /\
    (msg = completeMessage i m0 \/ exists p, msg = set_profile (completeMessage i m0) p)) as Hfrom.
  { exists m. split; [done|]. unfold msg. destruct stamp as [p|]; [right; by exists p|by left]. }
  assert (valid msg) as Hvalid by (destruct stamp; [by apply valid_set_profile|done]).
  destruct (ExecutionRoute_Validate route) eqn:Er; [eexists _, _; split; [done|]; left; by apply Hfail|].
  assert (TrimSpace (ex_ProfileID route) <> "" /\ TrimSpace (ex_ActionName route) <> "") as [Hp Ha].
  { unfold ExecutionRoute_Validate in Er. by repeat case_decide. }
  destruct (executeMessage (handoff i route msg)) as [result|err].
  - destruct (deliverReply_after clock sleep redact policy history now i msg route (default (mkExec "completed" "" None ∅) result))
      as (trace & r & -> & H1 & H2 & H3 & H4 & H5 & H6).
    eexists _, _. split; [done|]. right. exists (handoff i route msg).
    destruct (executed_cons (handoff i route msg) trace) as (-> & -> & ->). rewrite H1. repeat (split; [done|]). split; [intros e He; right; by apply H5|]. split; [exact H6|exact Hfrom].
  - eexists _, _. split; [done|]. right. exists (handoff i route msg).
    destruct (emit_before (runtimeError policy StageExecute i (nm_ID msg) err)) as (H1 & H2 & H3).
    destruct (executed_cons (handoff i route msg) (emitRuntimeError (runtimeError policy StageExecute i (nm_ID msg) err)))
      as (-> & -> & ->). rewrite H1, H2, H3.
    split; [done|]. split; [done|]. split; [done|]. split; [done|]. split; [constructor|]. split; [simpl; lia|].
    split; [done|]. split; [intros e [= <-]; by left|]. split; [done|exact Hfrom].
Qed.

(** A pass of the runtime ends.  The executor is called at most once, and only with a
    message that passes validation and a route whose profile and action are not blank;
    without that call nothing is delivered or recorded and the pass fails in an earlier
    stage.  Every request that reaches the provider is complete, a reply is recorded at
    most once and only when it was delivered, and the result is about the message that was
    executed. *)
Theorem runtime_pass `{MP : MessageProvider} resolveRoute executeMessage clock sleep redact serviceID policy history now ingress :
  exists trace r,
    HandleIngress resolveRoute executeMessage clock sleep redact serviceID policy history now ingress = Some (trace, r) /\
    (executed trace = [] /\ requests trace = [] /\ turns trace = [] /\
       (exists e, r = Err e /\ re_Stage e ∈ [StageIngress; StageNormalize; StageRoute])
     \/ exists h, executed trace = [h] /\ valid (ho_Message h) /\ TrimSpace (ho_ProfileID h) <> "" /\ TrimSpace (ho_ActionName h) <> "" /\
       Forall (fun req => DeliveryRequest_Validate req = None) (requests trace) /\
       (length (turns trace) <= 1)%nat /\
       (turns trace <> [] -> exists res, r = Ok res /\ is_Some (rs_Delivery res)) /\
       (forall e, r = Err e -> re_Stage e = StageExecute /\ requests trace = [] \/ re_Stage e = StageDeliver) /\
       (forall res, r = Ok res -> rs_Message res = ho_Message h)).
Proof.
  destruct (HandleIngress_spec resolveRoute executeMessage clock sleep redact serviceID policy history now ingress)
    as (trace & r & E & Hr). exists trace, r. split; [done|].
  destruct Hr as [Hr|(h & H1 & H2 & H3 & H4 & H5 & H6 & H7 & H8 & H9 & _)]; [by left|right]. by exists h.
Qed.

(** The first delay is not cut at the maximum, and a maximum near the end of int64 lets the
    delay overflow to zero. *)
Example first_delay_exceeds_maximum : retryDelay (mkPolicy 3 (60 * Second) (30 * Second) [] []) 1 = 60 * Second.
Proof. reflexivity. Qed.

Example delay_overflows : retryDelay (mkPolicy 100 (2 ^ 40) max_int64 [] []) 30 = 0.
Proof. vm_compute. reflexivity. Qed.
