(* ===== verification/Chat.v ===== *)
(** * Chat with profiles

    src/internal/core/chat: turn taking, participants and their prompts, transcripts and
    their files, and the service that sends a user turn to the model.

    The transcripts are [ChatFiles], by session id; [fault] is a failing write.  The model
    client of hop.top/kit is the argument [complete]; the session registry is
    [SessionRegistry]. *)

From Stdlib Require Import ZArith Lia String Ascii.
From stdpp Require Import base option list gmap strings.
From S2P Require Import Prelude Text Events GoValue Kv SessionRegistry.

#[local] Open Scope Z_scope.

(** ** Turn taking *)

Record Participant : Type := mkParticipant {
  pt_ID : string;
  pt_URI : string;
  pt_DisplayName : string;
  pt_SystemPrompt : string
}.

Record TurnState : Type := mkTurnState { ts_Participants : list Participant; ts_LastSpeakerID : string }.

Inductive ChatErr : Type :=
  | NoParticipants
  | ParticipantNotFound (id : string)
  | ProfileIDMissing
  | EmptyContent
  | InvalidSessionID (id : string)
  | EmptySessionID
  | ReadFailed
  | ParseFailed
  | WriteFailed
  | WrongProfile (sessionID owner profile : string)
  | CompletionFailed (text : string)
  | RegisterFailed (e : RegErr).

Definition hasID (id : string) (p : Participant) : Prop := pt_ID p = id.
#[global] Instance hasID_dec id p : Decision (hasID id p).
Proof. unfold hasID. apply _. Defined.

Definition RoundRobin_Next (s : TurnState) : Res ChatErr Participant :=
  match ts_Participants s with
  | [] => Err NoParticipants
  | first :: _ =>
      if decide (TrimSpace (ts_LastSpeakerID s) = "") then Ok first
      else match list_find (hasID (ts_LastSpeakerID s)) (ts_Participants s) with
           | Some (i, _) =>
               match ts_Participants s !! (S i mod length (ts_Participants s))%nat with
               | Some p => Ok p
               | None => Err NoParticipants
               end
           | None => Ok first
           end
  end.

Inductive MetaCommand : Type := MetaCommandNone | MetaCommandAuto | MetaCommandHuman | MetaCommandDone.
Inductive ControlMode : Type := ControlModeHuman | ControlModeAuto.

#[global] Instance ControlMode_eq_dec : EqDecision ControlMode.
Proof. solve_decision. Defined.

Definition DefaultMaxAutoTurns : Z := 10.

Record AutoSession : Type := mkAuto { au_Mode : ControlMode; au_AutoTurns : Z; au_MaxAutoTurns : Z; au_Done : bool }.

Definition NewAutoSession (maxAutoTurns : Z) : AutoSession :=
  mkAuto ControlModeHuman 0 (if decide (maxAutoTurns <= 0) then DefaultMaxAutoTurns else maxAutoTurns) false.

Definition maxAutoTurns (s : AutoSession) : Z :=
  if decide (au_MaxAutoTurns s <= 0) then DefaultMaxAutoTurns else au_MaxAutoTurns s.

Definition AutoSession_Apply (s : AutoSession) (command : MetaCommand) : AutoSession :=
  match command with
  | MetaCommandAuto => mkAuto ControlModeAuto 0 (au_MaxAutoTurns s) false
  | MetaCommandHuman => mkAuto ControlModeHuman 0 (au_MaxAutoTurns s) (au_Done s)
  | MetaCommandDone => mkAuto ControlModeHuman (au_AutoTurns s) (au_MaxAutoTurns s) true
  | MetaCommandNone => s
  end.

Definition ShouldAutoContinue (s : AutoSession) : bool :=
  bool_decide (au_Mode s = ControlModeAuto) && negb (au_Done s) && bool_decide (au_AutoTurns s < maxAutoTurns s).

Definition RecordAutoTurn (s : AutoSession) : AutoSession * bool :=
  if decide (au_Mode s <> ControlModeAuto \/ au_Done s = true) then (s, false)
  else
    let n := au_AutoTurns s + 1 in
    if decide (n >= maxAutoTurns s) then (mkAuto ControlModeHuman n (au_MaxAutoTurns s) (au_Done s), false)
    else (mkAuto (au_Mode s) n (au_MaxAutoTurns s) (au_Done s), true).

(** ** Prompts *)

Record ScopeConfig : Type := mkScope {
  sc_FilePatterns : list string;
  sc_Operations : list string;
  sc_Tools : list string;
  sc_Secrets : list string;
  sc_Networks : list string
}.

(** The fields of a profile that a chat reads. *)
Record Profile : Type := mkProfile {
  pf_ID : string;
  pf_DisplayName : string;
  pf_Tone : string;
  pf_Style : string;
  pf_Risk : string;
  pf_Roles : list string;
  pf_Language : string;
  pf_Timezone : string;
  pf_Scope : option ScopeConfig;
  pf_MaxConcurrency : Z;
  pf_MaxRuntimeMinutes : Z;
  pf_Workspace : option string
}.

Definition labelled (label value : string) : list string :=
  if decide (TrimSpace value = "") then [] else [label +:+ TrimSpace value +:+ "."].

Definition listedLine (label : string) (values : list string) : list string :=
  match values with [] => [] | _ => [label +:+ Join ", " values +:+ "."] end.

Definition scopeLines (scope : option ScopeConfig) : list string :=
  match scope with
  | None => []
  | Some s =>
      listedLine "Scope file patterns: " (sc_FilePatterns s) ++ listedLine "Allowed operations: " (sc_Operations s) ++
      listedLine "Allowed tools: " (sc_Tools s) ++ listedLine "Allowed secrets: " (sc_Secrets s) ++
      listedLine "Allowed networks: " (sc_Networks s)
  end.

Definition limitLines (p : Profile) : list string :=
  (if decide (pf_MaxConcurrency p > 0) then ["Max concurrency: " +:+ FormatInt (pf_MaxConcurrency p) +:+ "."] else []) ++
  (if decide (pf_MaxRuntimeMinutes p > 0) then ["Max runtime minutes: " +:+ FormatInt (pf_MaxRuntimeMinutes p) +:+ "."] else []).

Definition newline : string := String (ascii_of_N 10) "".

Section Prompts.
(** [Profile.URI], of hop.top/cite. *)
Variable profileURI : string -> string.

Definition RenderSystemPrompt (p : Profile) : string :=
  let sentences := labelled "You are " (pf_DisplayName p) ++ labelled "Tone: " (pf_Tone p) ++ labelled "Style: " (pf_Style p) ++
                   labelled "Risk posture: " (pf_Risk p) in
  let lines :=
    (match sentences with [] => [] | _ => [Join " " sentences] end) ++
    (if decide (TrimSpace (pf_ID p) = "") then [] else ["Profile URI: " +:+ profileURI (pf_ID p)]) ++
    listedLine "Roles: " (pf_Roles p) ++ labelled "Language: " (pf_Language p) ++ labelled "Timezone: " (pf_Timezone p) ++
    scopeLines (pf_Scope p) ++ limitLines p in
  Join newline lines.

Definition participantName (p : Profile) : string :=
  if decide (TrimSpace (pf_DisplayName p) = "") then pf_ID p else TrimSpace (pf_DisplayName p).

Definition NewParticipant (p : Profile) : Res ChatErr Participant :=
  if decide (TrimSpace (pf_ID p) = "") then Err ProfileIDMissing
  else Ok (mkParticipant (pf_ID p) (profileURI (pf_ID p)) (participantName p) (RenderSystemPrompt p)).

Fixpoint NewParticipants (profiles : list Profile) : Res ChatErr (list Participant) :=
  match profiles with
  | [] => Ok []
  | p :: profiles =>
      match NewParticipant p with
      | Err e => Err e
      | Ok x => match NewParticipants profiles with Err e => Err e | Ok xs => Ok (x :: xs) end
      end
  end.
End Prompts.

Definition FindParticipant (participants : list Participant) (id : string) : Res ChatErr Participant :=
  match participants with
  | [] => Err NoParticipants
  | first :: _ =>
      if decide (TrimSpace id = "") then Ok first
      else match list_find (hasID id) participants with
           | Some (_, p) => Ok p
           | None => Err (ParticipantNotFound id)
           end
  end.

Definition speakerSection (active p : Participant) : string :=
  newline +:+ "## Speaker: " +:+ pt_DisplayName p +:+ " (" +:+ pt_URI p +:+ ")" +:+
  (if decide (pt_ID p = pt_ID active) then " [active]" else "") +:+ newline +:+
  (if decide (pt_ID p = pt_ID active) then "Active speaker: yes" +:+ newline else "Active speaker: no" +:+ newline) +:+
  TrimSpace (pt_SystemPrompt p) +:+ newline.

Definition ComposeSystemPrompt (participants : list Participant) (activeSpeakerID : string) : Res ChatErr string :=
  match FindParticipant participants activeSpeakerID with
  | Err e => Err e
  | Ok active =>
      Ok (TrimSpace ("Active speaker: " +:+ pt_DisplayName active +:+ " (" +:+ pt_URI active +:+ ")" +:+ newline +:+
            "Only the active speaker should respond for this turn." +:+ newline +:+
            Join "" (map (speakerSection active) participants)))
  end.

(** ** Transcripts *)

Definition RoleSystem : string := "system".
Definition RoleUser : string := "user".
Definition RoleAssistant : string := "assistant".

Record Turn : Type := mkChatTurn { tn_Role : string; tn_Content : string; tn_CreatedAt : Z }.

Record Transcript : Type := mkTranscript {
  tr_SessionID : string;
  tr_ProfileID : string;
  tr_Turns : list Turn;
  tr_UpdatedAt : Z
}.

Abbreviation ChatFiles := (gmap string (Doc Transcript)).

(** [safeSessionIDPattern]. *)
Definition safeChar (c : ascii) : bool :=
  let n := N_of_ascii c in
  bool_decide ((48 <= n <= 57) \/ (65 <= n <= 90) \/ (97 <= n <= 122))%N || bool_decide (c ∈ ["."%char; "_"%char; "-"%char]).

Definition safeSessionID (id : string) : bool := negb (bool_decide (id = "")) && forallb safeChar (chars id).

(** The name of the file, below the directory of transcripts. *)
Definition Store_path (sessionID : string) : Res ChatErr string :=
  if safeSessionID sessionID then Ok (sessionID +:+ ".json") else Err (InvalidSessionID sessionID).

Inductive LoadResult : Type := NotExist | LoadErr (e : ChatErr) | Loaded (t : Transcript).

Definition Store_Load (fs : ChatFiles) (sessionID : string) : LoadResult :=
  match Store_path sessionID with
  | Err e => LoadErr e
  | Ok path =>
      match default Missing (fs !! path) with
      | Missing => NotExist
      | Unreadable => LoadErr ReadFailed
      | Malformed => LoadErr ParseFailed
      | Parsed t => Loaded t
      end
  end.

Definition Store_Save (fault : bool) (fs : ChatFiles) (t : Transcript) : ChatFiles * Res ChatErr unit :=
  if decide (tr_SessionID t = "") then (fs, Err EmptySessionID)
  else match Store_path (tr_SessionID t) with
       | Err e => (fs, Err e)
       | Ok path => if fault then (fs, Err WriteFailed) else (<[path := Parsed t]> fs, Ok tt)
       end.

(** ** The service *)

Abbreviation Message := (string * string)%type.

Section Service.
Context `{K : KvStore SessionInfo}.
Variable profileURI : string -> string.
(** The directory of the profile, and the process. *)
Variable profileDir : string.
Variable pid : Z.

Definition chatInfo (p : Profile) (id dir : string) (pid : Z) (workspace : string) : SessionInfo :=
  mkSession id (pf_ID p) dir "aps chat" pid SessionActive "" "chat" "" "" "" 0 0
    {[ "chat_transcript" := "sessions/chat/" +:+ id +:+ ".json" ]} workspace.

Definition Service_Open (now : Z) (fault : bool) (p : Profile) (id : string) (m : Rows) (fs : ChatFiles) :
    Rows * ChatFiles * Res ChatErr Transcript :=
  match RegisterWithContext now "" m (chatInfo p id "" 0 "") with
  | (m, Err e, _) => (m, fs, Err (RegisterFailed e))
  | (m, Ok _, _) =>
      let t := mkTranscript id (pf_ID p) [] now in
      match Store_Save fault fs t with
      | (fs, Err e) => ((UnregisterWithContext "" m id).1.1, fs, Err e)
      | (fs, Ok _) => (m, fs, Ok t)
      end
  end.

Definition Service_request (p : Profile) (system : string) (turns : list Turn) : list Message :=
  let system := if decide (system = "") then RenderSystemPrompt profileURI p else system in
  (if decide (system = "") then [] else [(RoleSystem, system)]) ++ map (fun t => (tn_Role t, tn_Content t)) turns.

Definition ensureRegistered (now : Z) (p : Profile) (m : Rows) (sessionID : string) : Rows * Res ChatErr unit :=
  match Registry_Get m sessionID with
  | Ok _ => (m, Ok tt)
  | Err _ =>
      match RegisterWithContext now "" m (chatInfo p sessionID profileDir pid (default "" (pf_Workspace p))) with
      | (m, Err e, _) => (m, Err (RegisterFailed e))
      | (m, Ok _, _) => (m, Ok tt)
      end
  end.

(** [system] and [complete] are the prompt and the client of the service, [now] and
    [later] the clock before and after the call of the client. *)
Definition sendTurn (now later : Z) (fault : bool) (p : Profile) (system : string)
    (complete : list Message -> Res string Message) (m : Rows) (fs : ChatFiles) (t : Transcript) (sessionID content : string) :
    Rows * ChatFiles * Res ChatErr Turn :=
  let owner := if decide (tr_ProfileID t = "") then pf_ID p else tr_ProfileID t in
  if decide (owner = pf_ID p) then
    let turns := tr_Turns t ++ [mkChatTurn RoleUser content now] in
    match complete (Service_request p system turns) with
    | Err text => (m, fs, Err (CompletionFailed text))
    | Ok (role, answer) =>
        let reply := mkChatTurn (if decide (role = "") then RoleAssistant else role) answer later in
        match Store_Save fault fs (mkTranscript (tr_SessionID t) owner (turns ++ [reply]) later) with
        | (fs, Err e) => (m, fs, Err e)
        | (fs, Ok _) => ((UpdateHeartbeat later m sessionID).1, fs, Ok reply)
        end
    end
  else (m, fs, Err (WrongProfile sessionID owner (pf_ID p))).

Definition Service_Send (now later : Z) (fault : bool) (p : Profile) (system : string)
    (complete : list Message -> Res string Message) (m : Rows) (fs : ChatFiles) (sessionID content : string) :
    Rows * ChatFiles * Res ChatErr Turn :=
  if decide (content = "") then (m, fs, Err EmptyContent)
  else
    match Store_Load fs sessionID with
    | NotExist =>
        match ensureRegistered now p m sessionID with
        | (m, Err e) => (m, fs, Err e)
        | (m, Ok _) =>
            sendTurn now later fault p system complete m fs (mkTranscript sessionID (pf_ID p) [] 0) sessionID content
        end
    | LoadErr e => (m, fs, Err e)
    | Loaded t => sendTurn now later fault p system complete m fs t sessionID content
    end.

Definition Service_History (fs : ChatFiles) (sessionID : string) : LoadResult := Store_Load fs sessionID.
End Service.

(** ** Providers and keys *)

(** A set of seen values, as a list. *)
Fixpoint dedupeLoop (seen values : list string) : list string :=
  match values with
  | [] => []
  | v :: values =>
      if decide (v = "" \/ v ∈ seen) then dedupeLoop seen values else v :: dedupeLoop (v :: seen) values
  end.

Definition dedupe (values : list string) : list string := dedupeLoop [] values.

Definition inferProvider (model : string) : string :=
  let lower := ToLower model in
  if Contains lower "claude" then "anthropic"
  else if Contains lower "gemini" then "google"
  else if Contains lower "gpt" || Contains lower "o1" || Contains lower "o3" || Contains lower "o4" then "openai"
  else "".

Definition providerURIForModel (model provider : string) : string :=
  let model := TrimSpace model in
  let provider := TrimSpace provider in
  if decide (model = "" /\ provider = "") then ""
  else if Contains model "://" then model
  else
    let provider := if decide (provider = "") then inferProvider model else provider in
    let provider := if decide (provider = "") then "openai" else provider in
    provider +:+ "://" +:+ model.

Definition DefaultProviderURIs : list string := ["anthropic://"; "openai://"; "google://"].

Record LLMConfig : Type := mkLLM {
  ll_Provider : string;
  ll_DefaultModel : string;
  ll_BaseURL : string;
  ll_Routers : list string;
  ll_RouterConfig : option amap;
  ll_Fallback : list string;
  ll_StrongModel : string;
  ll_WeakModel : string
}.

Definition pick (base override : string) : string := if decide (override = "") then base else override.
Definition pickList (base override : list string) : list string := match override with [] => base | _ => override end.

Definition mergeLLMConfig (dst src : LLMConfig) : LLMConfig :=
  mkLLM (pick (ll_Provider dst) (ll_Provider src)) (pick (ll_DefaultModel dst) (ll_DefaultModel src))
    (pick (ll_BaseURL dst) (ll_BaseURL src)) (pickList (ll_Routers dst) (ll_Routers src))
    (match ll_RouterConfig src with
     | None | Some [] => ll_RouterConfig dst
     | Some entries => Some (foldl (fun m e => mset m e.1 e.2) (default [] (ll_RouterConfig dst)) entries)
     end)
    (pickList (ll_Fallback dst) (ll_Fallback src)) (pick (ll_StrongModel dst) (ll_StrongModel src))
    (pick (ll_WeakModel dst) (ll_WeakModel src)).

Section Models.
Context `{FL : Float64}.
(** [llm.ParseURI] of hop.top/kit: the scheme and the model. *)
Variable ParseURI : string -> option (string * string).

Definition thresholdString (value : option any) : string :=
  match value with
  | Some (AFloat f) => shortest_f f
  | Some (AInt z) => FormatInt z
  | Some (AStr s) => if decide (TrimSpace s = "") then "0.7" else TrimSpace s
  | _ => "0.7"
  end.

Definition modelName (model : string) : string :=
  match ParseURI model with Some (_, m) => m | None => TrimSpace model end.

Definition providerAndModel (cfg : LLMConfig) : string * string :=
  match ll_Routers cfg with
  | routerName :: _ =>
      ("routellm://" +:+ routerName +:+ ":" +:+ thresholdString (mget (default [] (ll_RouterConfig cfg)) "threshold"),
       ll_DefaultModel cfg)
  | [] => (providerURIForModel (ll_DefaultModel cfg) (ll_Provider cfg), modelName (ll_DefaultModel cfg))
  end.

Record ResolvedLLMConfig : Type := mkResolved {
  rl_Config : LLMConfig;
  rl_ProviderURI : string;
  rl_Model : string;
  rl_FallbackURIs : list string
}.

(** [loaded] is what the system and user files leave in the default configuration. *)
Definition ResolveLLMConfig (loaded : option LLMConfig) (profile : option LLMConfig) (modelOverride : string) :
    option ResolvedLLMConfig :=
  match loaded with
  | None => None
  | Some cfg =>
      let cfg := match profile with Some src => mergeLLMConfig cfg src | None => cfg end in
      let cfg :=
        if decide (TrimSpace modelOverride = "") then cfg
        else mkLLM (ll_Provider cfg) (TrimSpace modelOverride) (ll_BaseURL cfg) (ll_Routers cfg) (ll_RouterConfig cfg)
               (ll_Fallback cfg) (ll_StrongModel cfg) (ll_WeakModel cfg) in
      let '(uri, model) := providerAndModel cfg in
      Some (mkResolved cfg uri model
              (filter (fun u => u <> "") (map (fun fb => providerURIForModel fb "") (ll_Fallback cfg))))
  end.

Definition CandidateProviderURIs (r : ResolvedLLMConfig) : list string :=
  match ParseURI (rl_ProviderURI r) with
  | Some ("routellm", _) =>
      let uri := providerURIForModel (rl_Model r) "" in
      dedupe ((if decide (uri = "") then [] else [uri]) ++ rl_FallbackURIs r ++ DefaultProviderURIs)
  | _ =>
      let candidates := (if decide (rl_ProviderURI r = "") then [] else [rl_ProviderURI r]) ++ rl_FallbackURIs r in
      dedupe (match candidates with [] => DefaultProviderURIs | _ => candidates end)
  end.
End Models.

(** [llm.SecretFor]: the key, none, or a failing store. *)
Inductive SecretResult : Type := SecretFound (value : string) | SecretMissing | SecretFailed (text : string).

Section Keys.
Variable SecretFor : string -> SecretResult.
Variable EnvKeyFor : string -> string.
Variable FallbackEnvKey : string.

Inductive KeyErr : Type := Unauthorized (expected : list string) | StoreErr (text : string).

Record ProviderKey : Type := mkKey { pk_ProviderURI : string; pk_EnvKey : string; pk_Value : string }.

Fixpoint envKeysLoop (seen uris : list string) : list string :=
  match uris with
  | [] => if decide (FallbackEnvKey ∈ seen) then [] else [FallbackEnvKey]
  | u :: uris =>
      let key := EnvKeyFor u in
      if decide (key = "" \/ key ∈ seen) then envKeysLoop seen uris else key :: envKeysLoop (key :: seen) uris
  end.

Definition expectedEnvKeys (uris : list string) : list string := envKeysLoop [] uris.

Fixpoint resolveKeyLoop (expected uris : list string) : Res KeyErr ProviderKey :=
  match uris with
  | [] => Err (Unauthorized expected)
  | u :: uris =>
      match SecretFor u with
      | SecretFound value => Ok (mkKey u (EnvKeyFor u) value)
      | SecretMissing => resolveKeyLoop expected uris
      | SecretFailed text => Err (StoreErr text)
      end
  end.

Definition ResolveProviderKey (uris : list string) : Res KeyErr ProviderKey :=
  let uris := match uris with [] => DefaultProviderURIs | _ => uris end in
  resolveKeyLoop (expectedEnvKeys uris) uris.

Definition ResolveProviderKeyFor (uri : string) : Res KeyErr ProviderKey :=
  match SecretFor uri with
  | SecretFound value => Ok (mkKey uri (EnvKeyFor uri) value)
  | SecretMissing => Err (Unauthorized [EnvKeyFor uri])
  | SecretFailed text => Err (StoreErr text)
  end.
End Keys.

(** ** Whose turn it is *)

(** The speakers of the next [n] turns, each recorded as the last speaker. *)
Fixpoint speakers (n : nat) (s : TurnState) : list Participant :=
  match n with
  | O => []
  | S n =>
      match RoundRobin_Next s with
      | Ok p => p :: speakers n (mkTurnState (ts_Participants s) (pt_ID p))
      | Err _ => []
      end
  end.

Definition distinct (ps : list Participant) : Prop := NoDup (pt_ID <$> ps) /\ Forall (fun p => TrimSpace (pt_ID p) <> "") ps.

Lemma find_participant ps i p :
  NoDup (pt_ID <$> ps) -> ps !! i = Some p -> list_find (hasID (pt_ID p)) ps = Some (i, p).
Proof.
  intros Hnd Hi. apply list_find_Some. split; [done|]. split; [done|]. intros j q Hj Hlt Hq. red in Hq.
  assert (j = i); [|lia]. apply (NoDup_lookup (pt_ID <$> ps) j i (pt_ID p)); [done| |];
    rewrite list_lookup_fmap; [by rewrite Hj, <- Hq | by rewrite Hi].
Qed.

Lemma Next_after ps i p q :
  distinct ps -> ps !! i = Some p -> ps !! (S i mod length ps)%nat = Some q ->
  RoundRobin_Next (mkTurnState ps (pt_ID p)) = Ok q.
Proof.
  intros [Hnd Hb] Hi Hq. unfold RoundRobin_Next. simpl. destruct ps as [|x ps]; [done|].
  rewrite decide_False by (by eapply (Forall_lookup_1 (fun p => TrimSpace (pt_ID p) <> "")); [exact Hb|exact Hi]).
  by rewrite (find_participant _ _ _ Hnd Hi), Hq.
Qed.

Lemma speakers_from ps n i p :
  distinct ps -> ps !! i = Some p ->
  forall k, (k < n)%nat -> speakers n (mkTurnState ps (pt_ID p)) !! k = ps !! ((S i + k) mod length ps)%nat.
Proof.
  intros Hd. revert i p. induction n as [|n IH]; intros i p Hi k Hk; [lia|].
  pose proof (lookup_lt_Some _ _ _ Hi). destruct (ps !! (S i mod length ps)%nat) as [q|] eqn:Hq.
  2: { apply lookup_ge_None in Hq. pose proof (Nat.mod_upper_bound (S i) (length ps)). lia. }
  cbn [speakers]. rewrite (Next_after _ _ _ _ Hd Hi Hq). simpl ts_Participants. destruct k as [|k].
  - rewrite Nat.add_0_r, Hq. done.
  - simpl. rewrite (IH _ q Hq) by lia. f_equal.
    rewrite <- Nat.add_1_l, <- Nat.add_assoc, (Nat.add_comm (S i mod _)), Nat.add_assoc, Nat.Div0.add_mod_idemp_r. f_equal. lia.
Qed.

(** Every participant speaks once in each round after a speaker. *)
Lemma round_robin_round ps i p q :
  distinct ps -> ps !! i = Some p -> q ∈ ps -> q ∈ speakers (length ps) (mkTurnState ps (pt_ID p)).
Proof.
  intros Hd Hi [j Hj]%list_elem_of_lookup. pose proof (lookup_lt_Some _ _ _ Hi). pose proof (lookup_lt_Some _ _ _ Hj).
  apply (list_elem_of_lookup_2 _ ((length ps + j - S i) mod length ps)%nat).
  rewrite (speakers_from _ _ _ _ Hd Hi) by (apply Nat.mod_upper_bound; lia).
  rewrite Nat.Div0.add_mod_idemp_r. replace (S i + (length ps + j - S i))%nat with (j + 1 * length ps)%nat by lia.
  by rewrite Nat.Div0.mod_add, Nat.mod_small.
Qed.

(** ** The bound on autonomous turns *)

(** The turns taken on their own until [ShouldAutoContinue] fails. *)
Fixpoint autoTurns (fuel : nat) (s : AutoSession) : nat * AutoSession :=
  match fuel with
  | O => (O, s)
  | S fuel =>
      if ShouldAutoContinue s then let '(n, s) := autoTurns fuel (RecordAutoTurn s).1 in (S n, s) else (O, s)
  end.

Lemma auto_turns_end s fuel :
  0 <= au_AutoTurns s -> (Z.to_nat (maxAutoTurns s - au_AutoTurns s) <= fuel)%nat ->
  ShouldAutoContinue (autoTurns fuel s).2 = false /\
  ((autoTurns fuel s).1 <= Z.to_nat (maxAutoTurns s - au_AutoTurns s))%nat.
Proof.
  revert s. induction fuel as [|fuel IH]; intros s H0 Hf.
  - simpl. split; [|lia]. unfold ShouldAutoContinue. rewrite (bool_decide_false (_ < _)) by lia. by rewrite andb_false_r.
  - simpl. destruct (ShouldAutoContinue s) eqn:Hs; [|simpl; split; [done|lia]].
    unfold ShouldAutoContinue in Hs. apply andb_true_iff in Hs as [[Hm Hd]%andb_true_iff Ht].
    apply bool_decide_eq_true in Hm, Ht. apply negb_true_iff in Hd.
    set (s' := (RecordAutoTurn s).1).
    assert (maxAutoTurns s' = maxAutoTurns s /\ au_AutoTurns s' = au_AutoTurns s + 1) as [Em En].
    { unfold s', RecordAutoTurn. rewrite decide_False by (rewrite Hm, Hd; intros [?|?]; done). by destruct (decide (_ >= _)). }
    destruct (IH s') as [H1 H2]; [lia|rewrite Em, En; lia|]. rewrite Em, En in H2.
    destruct (autoTurns fuel s') as [n s'']. simpl in *. split; [done|lia].
Qed.

(** ** Transcripts only grow *)

Definition transcriptFile (id : string) : string := id +:+ ".json".

Lemma transcriptFile_inj a b : transcriptFile a = transcriptFile b -> a = b.
Proof.
  unfold transcriptFile. intros H%(f_equal chars). rewrite !chars_app in H. apply (inj (.++ chars ".json")) in H. by apply chars_inj.
Qed.

Lemma Store_path_Ok id path : Store_path id = Ok path <-> safeSessionID id = true /\ path = transcriptFile id.
Proof. unfold Store_path, transcriptFile. destruct (safeSessionID id); split; [by intros [= <-] | by intros [_ ->] | done | by intros [? _]]. Qed.

(** A transcript lies in the file of its session. *)
Definition files_ok (fs : ChatFiles) : Prop :=
  forall path t, fs !! path = Some (Parsed t) -> path = transcriptFile (tr_SessionID t) /\ safeSessionID (tr_SessionID t) = true.

(** A user turn and its reply, any number of times. *)
Inductive exchanges : list Turn -> Prop :=
  | exchanges_nil : exchanges []
  | exchanges_cons u r l :
      tn_Role u = RoleUser -> tn_Content u <> "" -> tn_Role r <> "" -> exchanges l -> exchanges (u :: r :: l).

Lemma exchanges_app l l' : exchanges l -> exchanges l' -> exchanges (l ++ l').
Proof. induction 1; simpl; [done|]. intros. constructor; auto. Qed.

Definition owner_of (t : Transcript) (profile : string) : string :=
  if decide (tr_ProfileID t = "") then profile else tr_ProfileID t.

(** [t'] is [t] after exchanges with the profile that owns it. *)
Definition continues (t t' : Transcript) : Prop :=
  tr_SessionID t' = tr_SessionID t /\
  (tr_ProfileID t <> "" -> tr_ProfileID t' = tr_ProfileID t) /\
  exists more, tr_Turns t' = tr_Turns t ++ more /\ exchanges more.

#[export] Instance continues_refl : Reflexive continues.
Proof. intros t. split; [done|]. split; [done|]. exists []. rewrite app_nil_r. split; [done|constructor]. Qed.

#[export] Instance continues_trans : Transitive continues.
Proof.
  intros a b c (Hs & Hp & m & Ht & Hm) (Hs' & Hp' & m' & Ht' & Hm'). split; [congruence|]. split.
  - intros Ha. rewrite <- (Hp Ha). apply Hp'. by rewrite (Hp Ha).
  - exists (m ++ m'). rewrite Ht', Ht, app_assoc. split; [done|]. by apply exchanges_app.
Qed.

Section transcripts.
Context `{K : KvStore SessionInfo}.
Variable profileURI : string -> string.
Variable profileDir : string.
Variable pid : Z.

Let Send := Service_Send profileURI profileDir pid.

(** A successful write puts the transcript in its file, a failing one changes nothing. *)
Lemma Store_Save_cases fault fs t :
  (exists e, Store_Save fault fs t = (fs, Err e)) \/
  fault = false /\ safeSessionID (tr_SessionID t) = true /\
  Store_Save fault fs t = (<[transcriptFile (tr_SessionID t) := Parsed t]> fs, Ok tt).
Proof.
  unfold Store_Save. case_decide as Hid; [by left; eexists|].
  destruct (Store_path (tr_SessionID t)) as [path|e] eqn:Hp; [|by left; eexists].
  apply Store_path_Ok in Hp as [Hs ->]. destruct fault; [by left; eexists|]. by right.
Qed.

Lemma Store_Load_Loaded fs id t :
  Store_Load fs id = Loaded t <-> safeSessionID id = true /\ fs !! transcriptFile id = Some (Parsed t).
Proof.
  unfold Store_Load. destruct (Store_path id) as [path|e] eqn:Hp.
  - apply Store_path_Ok in Hp as [Hs ->]. destruct (fs !! transcriptFile id) as [[]|]; simpl; split; intros; by destruct_and?; simplify_eq.
  - unfold Store_path in Hp. destruct (safeSessionID id); [done|]. split; [done|by intros [? _]].
Qed.

Lemma Store_Load_NotExist fs id :
  Store_Load fs id = NotExist -> safeSessionID id = true /\ forall t, fs !! transcriptFile id <> Some (Parsed t).
Proof.
  unfold Store_Load. destruct (Store_path id) as [path|e] eqn:Hp; [|done].
  apply Store_path_Ok in Hp as [Hs ->]. by destruct (fs !! transcriptFile id) as [[]|].
Qed.

(** What a turn leaves in the files. *)
Definition turn_effect (p : Profile) (fs : ChatFiles) (id : string) (t : Transcript) (fs' : ChatFiles) : Prop :=
  fs' = fs \/
  exists more at_, owner_of t (pf_ID p) = pf_ID p /\ exchanges more /\ safeSessionID id = true /\
    fs' = <[transcriptFile id := Parsed (mkTranscript id (pf_ID p) (tr_Turns t ++ more) at_)]> fs.

Lemma sendTurn_effect now later fault p system complete m fs t content :
  content <> "" ->
  turn_effect p fs (tr_SessionID t) t
    (sendTurn profileURI now later fault p system complete m fs t (tr_SessionID t) content).1.2.
Proof.
  intros Hc. unfold sendTurn. fold (owner_of t (pf_ID p)). case_decide as Ho; [|by left].
  destruct (complete _) as [[role answer]|text]; [|by left].
  destruct (Store_Save_cases fault fs (mkTranscript (tr_SessionID t) (owner_of t (pf_ID p))
    ((tr_Turns t ++ [mkChatTurn RoleUser content now]) ++ [mkChatTurn (if decide (role = "") then RoleAssistant else role) answer later]) later))
    as [[e ->]|(_ & Hs & ->)]; [by left|].
  right. eexists [_; _], later. simpl. rewrite Ho, <- app_assoc. repeat (split; [done|]).
  split; [|done]. constructor; [done|done| |constructor]. simpl. by case_decide.
Qed.

Lemma Send_effect now later fault p system complete m fs id content :
  files_ok fs ->
  exists t, tr_SessionID t = id /\ turn_effect p fs id t (Send now later fault p system complete m fs id content).1.2 /\
    (fs !! transcriptFile id = Some (Parsed t) \/ forall x, fs !! transcriptFile id <> Some (Parsed x)).
Proof.
  intros Hok. unfold Send, Service_Send.
  destruct (Store_Load fs id) as [|e|t] eqn:Hl.
  - apply Store_Load_NotExist in Hl as [Hs Hno]. exists (mkTranscript id (pf_ID p) [] 0).
    split; [done|]. split; [|by right]. case_decide as Hc; [by left|].
    destruct (ensureRegistered _ _ _ _ _ _) as [m' [?|?]]; [|by left].
    by apply (sendTurn_effect now later fault p system complete m' fs (mkTranscript id (pf_ID p) [] 0)).
  - exists (mkTranscript id (pf_ID p) [] 0). split; [done|]. split; [case_decide; by left|]. right. intros t Ht.
    pose proof (Hok _ _ Ht) as [E%transcriptFile_inj Hs]. subst id.
    assert (Store_Load fs (tr_SessionID t) = Loaded t) by (by apply Store_Load_Loaded). congruence.
  - apply Store_Load_Loaded in Hl as [Hs Hf]. pose proof (Hok _ _ Hf) as [E%transcriptFile_inj _]. exists t.
    split; [done|]. split; [|by left]. case_decide as Hc; [by left|]. rewrite E. by apply sendTurn_effect.
Qed.

(** The runs of a directory of transcripts: the calls of any services, on a session whose
    identifier is new when one is opened. *)
Inductive chat_step : Rows * ChatFiles -> Rows * ChatFiles -> Prop :=
  | step_open now fault p id m fs :
      fs !! transcriptFile id = None ->
      chat_step (m, fs) (Service_Open now fault p id m fs).1
  | step_send now later fault p system complete id content m fs :
      chat_step (m, fs) (Send now later fault p system complete m fs id content).1.

End transcripts.

(** The name of a transcript's file stays below its directory. *)
Lemma safeSessionID_no_slash id : safeSessionID id = true -> "/"%char ∉ chars id.
Proof.
  unfold safeSessionID. intros [_ H]%andb_true_iff Hin. rewrite forallb_forall in H.
  by specialize (H _ (proj1 (list_elem_of_In _ _) Hin)).
Qed.

(** ** Witnesses *)

Definition sample_chat_profile : Profile := mkProfile "dev" "Dev" "" "" "" [] "" "" None 0 0 None.

Definition echo (messages : list Message) : Res string Message := Ok ("", "hello").

Definition sample_send (s : Rows * ChatFiles) (content : string) : Rows * ChatFiles :=
  (Service_Send (K := plain_kv) (fun id => "aps://profile/" +:+ id) "/profiles/dev" 7
     1 2 false sample_chat_profile "" echo s.1 s.2 "s-1" content).1.

Definition sample_transcript : Transcript :=
  mkTranscript "s-1" "dev" [mkChatTurn RoleUser "hi" 1; mkChatTurn RoleAssistant "hello" 2] 2.

Definition sample_files : ChatFiles := {[ "s-1.json" := Parsed sample_transcript ]}.

Example one_exchange : (sample_send (∅, ∅) "hi").2 = sample_files.
Proof. vm_compute. reflexivity. Qed.

