(* ===== verification/Service.v ===== *)
(** * Services

    service.go, service_routing.go of src/internal/core: the types of services, their
    files, their static validation, the description of their runtime, and the events
    recorded on them.

    The files of the services directory are [ServiceFiles], by file name; [fault] is a
    failing write.  Alias expansion of hop.top/kit, the redaction of src/internal/logging
    and the text of a route table problem are arguments; the route tables are [MsgRoute]. *)

From Stdlib Require Import ZArith Lia String Ascii.
From stdpp Require Import base option list gmap strings sorting.
From S2P Require Import Prelude Text Events MsgConfig MsgRoute.

#[local] Open Scope Z_scope.

(** ** Options and types *)

Definition ServiceTypeMessage : string := "message".
Definition ServiceTypeTicket : string := "ticket".
Definition OptionDefaultAction : string := "default_action".
Definition OptionAuthScheme : string := "auth_scheme".
Definition OptionAuthToken : string := "auth_token".
Definition OptionAuthTokenEnv : string := "auth_token_env".
Definition OptionSignatureSecret : string := "signature_secret".
Definition OptionSignatureSecretEnv : string := "signature_secret_env".
Definition OptionAllowedSenders : string := "allowed_senders".

Definition AuthSchemes : list string := ["bearer"; "token"; "hmac-sha256"; "ed25519"; "slack-signing-secret"].

Record ServiceRetryPolicy : Type := mkRetryPolicy { rt_MaxAttempts : Z; rt_BaseDelay : string; rt_MaxDelay : string }.

Record ServiceDeliveryAttempt : Type := mkDeliveryAttempt {
  at_At : Z;
  at_Provider : string;
  at_MessageID : string;
  at_ChannelID : string;
  at_Attempt : Z;
  at_MaxAttempts : Z;
  at_Status : string;
  at_DeliveryID : string;
  at_Retriable : bool;
  at_Delay : string;
  at_RedactedError : string
}.

Record ServiceEventMeta : Type := mkEventMeta {
  em_At : Z;
  em_Direction : string;
  em_MessageID : string;
  em_Platform : string;
  em_ChannelID : string;
  em_SenderID : string;
  em_Status : string;
  em_Detail : string;
  em_DeliveryID : string;
  em_Attempt : Z;
  em_MaxAttempts : Z;
  em_Retriable : bool;
  em_RetryDelay : string;
  em_Attempts : list ServiceDeliveryAttempt;
  em_RetryPolicy : option ServiceRetryPolicy
}.

Record ServiceDelivery : Type := mkServiceDelivery {
  sd_Health : string;
  sd_Status : string;
  sd_LastError : string;
  sd_UpdatedAt : Z;
  sd_RetryPolicy : option ServiceRetryPolicy;
  sd_Attempts : list ServiceDeliveryAttempt
}.

Record ServiceConfig : Type := mkService {
  sc_ID : string;
  sc_Type : string;
  sc_Adapter : string;
  sc_Profile : string;
  sc_Description : string;
  sc_Env : smap;
  sc_Labels : smap;
  sc_Options : smap;
  sc_Routing : option Config;
  sc_Delivery : option ServiceDelivery;
  sc_LastInbound : option ServiceEventMeta;
  sc_LastOutbound : option ServiceEventMeta
}.

Definition set_id (s : ServiceConfig) (id : string) : ServiceConfig :=
  mkService id (sc_Type s) (sc_Adapter s) (sc_Profile s) (sc_Description s) (sc_Env s) (sc_Labels s) (sc_Options s)
    (sc_Routing s) (sc_Delivery s) (sc_LastInbound s) (sc_LastOutbound s).

Definition set_events (s : ServiceConfig) (delivery : ServiceDelivery) (inbound outbound : option ServiceEventMeta) : ServiceConfig :=
  mkService (sc_ID s) (sc_Type s) (sc_Adapter s) (sc_Profile s) (sc_Description s) (sc_Env s) (sc_Labels s) (sc_Options s)
    (sc_Routing s) (Some delivery) inbound outbound.

Inductive ServiceErr : Type :=
  | TypeRequired
  | AliasAdapterClash (input resolved adapter : string)
  | UnknownType (input : string)
  | AdapterRequired (input : string)
  | ServiceIDEmpty
  | PathComponents (id : string)
  | InvalidCharacter (id : string)
  | NilService
  | TypeEmpty
  | ProfileEmpty
  | WriteService
  | ReadService (id : string)
  | ParseService (id : string)
  | IDMismatch (path content : string)
  | NoWebhook (id : string)
  | ErrServiceNotRouted (id : string)
  | RouteTable (id : string) (problems : list RouteErr).

(** ** Types and aliases *)

Definition serviceTypeAliases : list (string * string) :=
  [("api", "api agent-protocol"); ("webhook", "webhook generic"); ("a2a", "a2a jsonrpc"); ("events", "events bus");
   ("mobile", "mobile aps"); ("slack", "message slack"); ("telegram", "message telegram"); ("discord", "message discord");
   ("sms", "message sms"); ("whatsapp", "message whatsapp"); ("email", "ticket email"); ("github", "ticket github");
   ("gitlab", "ticket gitlab"); ("jira", "ticket jira"); ("linear", "ticket linear")].

Definition canonicalServiceTypes : list string :=
  ["api"; "webhook"; "a2a"; "client"; "message"; "ticket"; "events"; "mobile"; "voice"].

Definition defaultServiceAdapters : smap :=
  list_to_map [("api", "agent-protocol"); ("webhook", "generic"); ("a2a", "jsonrpc"); ("events", "bus"); ("mobile", "aps")].

Definition ServiceTypeAliases : smap := list_to_map serviceTypeAliases.

Definition str_leb (a b : string) : Prop := str_le a b.
#[local] Instance str_leb_dec a b : Decision (str_leb a b).
Proof. unfold str_leb, str_le. apply _. Defined.

Definition SortedServiceTypeInputs : list string := merge_sort str_leb (canonicalServiceTypes ++ serviceTypeAliases.*1).

Record ResolvedServiceType : Type := mkResolvedType { rv_InputType : string; rv_Type : string; rv_Adapter : string; rv_Aliased : bool }.

Section Types.
(** [Expand] of the alias store of hop.top/kit, on one argument. *)
Variable Expand : smap -> string -> list string.

Definition resolveCanonical (typeInput adapterInput : string) : Res ServiceErr ResolvedServiceType :=
  if decide (typeInput ∈ canonicalServiceTypes) then
    let adapter := if decide (adapterInput = "") then opt defaultServiceAdapters typeInput else adapterInput in
    if decide (adapter = "") then Err (AdapterRequired typeInput)
    else Ok (mkResolvedType typeInput typeInput adapter false)
  else Err (UnknownType typeInput).

Definition ResolveServiceType (typeInput adapterInput : string) : Res ServiceErr ResolvedServiceType :=
  let typeInput := TrimSpace (ToLower typeInput) in
  let adapterInput := TrimSpace (ToLower adapterInput) in
  if decide (typeInput = "") then Err TypeRequired
  else match Expand ServiceTypeAliases typeInput with
       | [t; adapter] =>
           if decide (t = typeInput) then resolveCanonical typeInput adapterInput
           else if decide (adapterInput <> "" /\ adapterInput <> adapter)
                then Err (AliasAdapterClash typeInput adapter adapterInput)
                else Ok (mkResolvedType typeInput t adapter true)
       | _ => resolveCanonical typeInput adapterInput
       end.
End Types.

(** ** Files *)

Abbreviation ServiceFiles := (gmap string (Doc ServiceConfig)).

Definition idChar (c : ascii) : bool :=
  let n := N_of_ascii c in
  bool_decide ((48 <= n <= 57) \/ (65 <= n <= 90) \/ (97 <= n <= 122))%N || bool_decide (c ∈ ["."%char; "_"%char; "-"%char]).

Definition normalizeServiceID (id : string) : Res ServiceErr string :=
  let id := TrimSpace id in
  if decide (id = "") then Err ServiceIDEmpty
  else if decide (id = "." \/ id = "..") then Err (PathComponents id)
  else if ContainsAny id (unchars ["/"%char; backslash]) then Err (PathComponents id)
  else if forallb idChar (chars id) then Ok id else Err (InvalidCharacter id).

(** The name of the file below the directory of services. *)
Definition GetServicePath (id : string) : Res ServiceErr string :=
  match normalizeServiceID id with Err e => Err e | Ok safeID => Ok (safeID +:+ ".yaml") end.

Definition SaveService (fault : bool) (fs : ServiceFiles) (service : option ServiceConfig) : ServiceFiles * Res ServiceErr ServiceConfig :=
  match service with
  | None => (fs, Err NilService)
  | Some s =>
      match normalizeServiceID (sc_ID s) with
      | Err e => (fs, Err e)
      | Ok id =>
          if decide (TrimSpace (sc_Type s) = "") then (fs, Err TypeEmpty)
          else if decide (TrimSpace (sc_Profile s) = "") then (fs, Err ProfileEmpty)
          else
            let s := set_id s id in
            match GetServicePath id with
            | Err e => (fs, Err e)
            | Ok path => if fault then (fs, Err WriteService) else (<[path := Parsed s]> fs, Ok s)
            end
      end
  end.

Definition ServiceExists (fs : ServiceFiles) (id : string) : Res ServiceErr bool :=
  match GetServicePath id with
  | Err e => Err e
  | Ok path => Ok (match default Missing (fs !! path) with Missing => false | _ => true end)
  end.

Definition LoadService (fs : ServiceFiles) (id : string) : Res ServiceErr ServiceConfig :=
  match GetServicePath id with
  | Err e => Err e
  | Ok path =>
      match default Missing (fs !! path) with
      | Missing | Unreadable => Err (ReadService id)
      | Malformed => Err (ParseService id)
      | Parsed s => if decide (sc_ID s = id) then Ok s else Err (IDMismatch id (sc_ID s))
      end
  end.

Definition ServiceWebhookPath (service : option ServiceConfig) : string :=
  match service with
  | None => ""
  | Some s =>
      if decide (sc_Type s = "message") then "/services/" +:+ sc_ID s +:+ "/webhook"
      else if decide (sc_Type s = "ticket") then "/services/" +:+ sc_ID s +:+ "/ticket/" +:+ sc_Adapter s
      else if decide (sc_Type s = "webhook") then "/webhook" else ""
  end.

Fixpoint dropSlashes (l : list ascii) : list ascii :=
  match l with c :: l' => if decide (c = "/"%char) then dropSlashes l' else l | [] => [] end.

Definition TrimRightSlash (s : string) : string := unchars (reverse (dropSlashes (reverse (chars s)))).

Definition serviceID (service : option ServiceConfig) : string := match service with None => "" | Some s => sc_ID s end.

Definition ServiceWebhookURL (service : option ServiceConfig) (baseURL : string) : Res ServiceErr string :=
  let path := ServiceWebhookPath service in
  if decide (path = "") then Err (NoWebhook (serviceID service))
  else
    let baseURL := if decide (TrimSpace baseURL = "") then "http://127.0.0.1:8080" else TrimSpace baseURL in
    Ok (TrimRightSlash baseURL +:+ path).

(** ** Route tables *)

Definition HasRouteTable (s : ServiceConfig) : bool := match sc_Routing s with Some _ => true | None => false end.

(** [None] is a panic while the contacts are loaded. *)
Definition LoadServiceRouteTable (files : Files) (service : option ServiceConfig) : option (Res ServiceErr Table) :=
  match service with
  | None => Some (Err NilService)
  | Some s =>
      match sc_Routing s with
      | None => Some (Err (ErrServiceNotRouted (sc_ID s)))
      | Some cfg =>
          match Load files (Some cfg) (mkOptions (TrimSpace (ToLower (sc_Adapter s))) (sc_Profile s)) with
          | None => None
          | Some (Err problems) => Some (Err (RouteTable (sc_ID s) problems))
          | Some (Ok table) => Some (Ok table)
          end
      end
  end.

(** ** Validation *)

Record ServiceValidationResult : Type := mkValidation { vr_Valid : bool; vr_Issues : list string; vr_Warnings : list string }.

Definition issue (r : ServiceValidationResult) (text : string) : ServiceValidationResult :=
  mkValidation (vr_Valid r) (vr_Issues r ++ [text]) (vr_Warnings r).

Definition warning (r : ServiceValidationResult) (text : string) : ServiceValidationResult :=
  mkValidation (vr_Valid r) (vr_Issues r) (vr_Warnings r ++ [text]).

(** [strings.TrimSpace(m[k]) == ""]. *)
Definition blank (m : smap) (k : string) : bool := bool_decide (TrimSpace (opt m k) = "").

Definition issue_if (b : bool) (text : string) (r : ServiceValidationResult) : ServiceValidationResult := if b then issue r text else r.
Definition warn_if (b : bool) (text : string) (r : ServiceValidationResult) : ServiceValidationResult := if b then warning r text else r.

Definition lowerTrim (s : string) : string := TrimSpace (ToLower s).

Definition knownMessageAdapters : list string := ["telegram"; "slack"; "discord"; "sms"; "whatsapp"; "email"].

(** The adapters of tickets, and whether their payloads are normalized. *)
Definition knownTicketAdapters : gmap string bool :=
  list_to_map [("email", true); ("jira", true); ("linear", true); ("gitlab", true); ("github", false)].

Definition requireEnv (env : smap) (r : ServiceValidationResult) (keys : list string) : ServiceValidationResult :=
  foldl (fun r key => issue_if (blank env key) ("missing env binding " +:+ key) r) r keys.

Definition truthyServiceOption (value : string) : bool :=
  bool_decide (ToLower (TrimSpace value) ∈ ["1"; "true"; "yes"; "y"; "on"]).

Definition looksNumericID (value : string) : bool :=
  let value := TrimSpace value in
  negb (bool_decide (value = "")) && forallb isDigit (chars value).

Definition validateMessageReceiveMode (value : string) (r : ServiceValidationResult) : ServiceValidationResult :=
  let value := lowerTrim value in
  if decide (value = "") then warning r "message receive mode not set; assuming webhook"
  else if decide (value = "webhook" \/ value = "polling") then r
  else issue r "message receive mode must be webhook or polling".

Definition validateMessageReplyMode (value : string) (r : ServiceValidationResult) : ServiceValidationResult :=
  let value := lowerTrim value in
  if decide (value = "") then warning r "reply mode not set; assuming text"
  else if decide (value = "none") then warning r "reply mode none disables outbound delivery"
  else if decide (value = "text" \/ value = "auto") then r
  else issue r "reply mode must be text, auto, or none".

Definition joinSchemes (schemes : list string) : string :=
  if decide (length schemes < 2)%nat then Join "" schemes
  else Join ", " (take (length schemes - 1) schemes) +:+ ", or " +:+ default "" (last schemes).

Definition hasGenericWebhookAuth (options : smap) : bool :=
  existsb (fun key => negb (blank options key))
    [OptionAuthScheme; OptionAuthToken; OptionAuthTokenEnv; OptionSignatureSecret; OptionSignatureSecretEnv].

Definition validateGenericWebhookAuth (options : smap) (r : ServiceValidationResult) : ServiceValidationResult :=
  let scheme := lowerTrim (opt options OptionAuthScheme) in
  let hasToken := negb (blank options OptionAuthToken) || negb (blank options OptionAuthTokenEnv) in
  let hasSignature := negb (blank options OptionSignatureSecret) || negb (blank options OptionSignatureSecretEnv) in
  if decide (scheme = "") then r
  else if decide (scheme = "bearer" \/ scheme = "token")
       then issue_if (negb hasToken) (OptionAuthScheme +:+ " " +:+ scheme +:+ " requires " +:+ OptionAuthToken +:+ " or " +:+ OptionAuthTokenEnv) r
  else if decide (scheme = "hmac-sha256" \/ scheme = "ed25519")
       then issue_if (negb hasSignature)
              (OptionAuthScheme +:+ " " +:+ scheme +:+ " requires " +:+ OptionSignatureSecret +:+ " or " +:+ OptionSignatureSecretEnv) r
  else if decide (scheme = "slack-signing-secret") then r
  else issue r ("unsupported " +:+ OptionAuthScheme +:+ " " +:+ Quote (opt options OptionAuthScheme) +:+ "; use " +:+ joinSchemes AuthSchemes).

Definition newlines : string := unchars [ascii_of_N 13; ascii_of_N 10].

Definition validateTelegramWebhookSecret (options : smap) (r : ServiceValidationResult) : ServiceValidationResult :=
  let token := TrimSpace (opt options "webhook_secret_token") in
  if decide (token = "" /\ blank options "webhook_secret_token_env" = true)
  then warning r "telegram webhook secret token not set; Telegram requests will not be secret-token validated"
  else
    issue_if (ContainsAny token newlines) "telegram webhook secret token must not contain newlines"
      (issue_if (bool_decide (256 < Z.of_nat (length (chars token)))) "telegram webhook secret token must be 256 characters or fewer" r).

Section Validation.
(** What the process finds on disk, and the text of a problem of a route table. *)
Variable files : Files.
Variable problemText : RouteErr -> string.

(** [None] is a panic while the contacts are loaded. *)
Definition validateServiceRouting (s : ServiceConfig) (r : ServiceValidationResult) : option ServiceValidationResult :=
  match LoadServiceRouteTable files (Some s) with
  | None => None
  | Some (Err (RouteTable _ problems)) => Some (foldl (fun r p => issue r ("routing: " +:+ problemText p)) r problems)
  | Some _ => Some r
  end.

(** The text of the error of [ValidateAllowedSenderPattern]. *)
Definition patternIssue (pattern : string) : string :=
  "allowed_senders entry " +:+ Quote (TrimSpace pattern) +:+ " must be an exact address or a *@domain glob".

Definition validateEmailMessageService (options : smap) (r : ServiceValidationResult) : ServiceValidationResult :=
  let senders := TrimSpace (opt options OptionAllowedSenders) in
  let r :=
    if decide (senders = "") then warning r "email service has no allowed senders; any sender can route inbound messages"
    else foldl (fun r pattern =>
                  issue_if (negb (bool_decide (TrimSpace pattern = "")) && negb (ValidateAllowedSenderPattern pattern))
                    (patternIssue pattern) r)
           r (map unchars (splitOn ","%char (chars senders))) in
  warn_if (negb (hasGenericWebhookAuth options))
    ("email service has no webhook auth; any client reaching the route can inject mail (set " +:+ OptionAuthScheme +:+
     " with " +:+ OptionAuthTokenEnv +:+ " or " +:+ OptionSignatureSecretEnv +:+ ")") r.

(** The dispatch target: a route table or a default action, and not both. *)
Definition validateDispatch (kind items : string) (s : ServiceConfig) (r : ServiceValidationResult) : option ServiceValidationResult :=
  if HasRouteTable s then
    validateServiceRouting s
      (issue_if (negb (blank (sc_Options s) OptionDefaultAction))
         (kind +:+ " service declares both routing and option default_action; remove default_action (routing wins at runtime)") r)
  else Some (issue_if (blank (sc_Options s) OptionDefaultAction)
               (kind +:+ " service requires option default_action to dispatch inbound " +:+ items) r).

Definition validateSMS (options env : smap) (r : ServiceValidationResult) : ServiceValidationResult :=
  let provider := lowerTrim (opt options "provider") in
  let r :=
    if decide (provider = "") then issue r "sms message service requires option provider"
    else issue_if (negb (bool_decide (provider = "twilio" \/ provider = "generic")))
           ("unsupported sms provider " +:+ Quote (opt options "provider")) r in
  let r := issue_if (blank options "from") "sms message service requires option from" r in
  let r := warn_if (blank options "allowed_numbers") "sms service has no allowed numbers; any sender can route inbound messages" r in
  if decide (provider = "twilio" \/ provider = "") then requireEnv env r ["TWILIO_ACCOUNT_SID"; "TWILIO_AUTH_TOKEN"] else r.

Definition validateWhatsAppCloud (options env : smap) (r : ServiceValidationResult) : ServiceValidationResult :=
  let r := issue_if (blank options "phone_number_id") "whatsapp-cloud message service requires option phone_number_id" r in
  let r := issue_if (negb (looksNumericID (opt options "phone_number_id"))) "whatsapp phone_number_id must be numeric" r in
  let r := requireEnv env r ["WHATSAPP_ACCESS_TOKEN"] in
  let r := warn_if (blank options "verify_token" && blank options "verify_token_env" && blank env "WHATSAPP_VERIFY_TOKEN")
             "whatsapp verify token not set; Cloud webhook verification will fail" r in
  warn_if (blank options "app_secret" && blank options "app_secret_env" && blank options "signing_secret_env" && blank env "WHATSAPP_APP_SECRET")
    "whatsapp app secret not set; Cloud webhook signatures will not be validated" r.

Definition validateWhatsApp (options env : smap) (r : ServiceValidationResult) : ServiceValidationResult :=
  let provider := lowerTrim (opt options "provider") in
  let r :=
    if decide (provider = "") then issue r "whatsapp message service requires option provider"
    else issue_if (negb (bool_decide (provider = "whatsapp-cloud" \/ provider = "twilio" \/ provider = "generic")))
           ("unsupported whatsapp provider " +:+ Quote (opt options "provider")) r in
  let r := if decide (provider = "whatsapp-cloud" \/ provider = "") then validateWhatsAppCloud options env r else r in
  let r :=
    if decide (provider = "twilio")
    then requireEnv env (issue_if (blank options "from") "twilio whatsapp message service requires option from" r)
           ["TWILIO_ACCOUNT_SID"; "TWILIO_AUTH_TOKEN"]
    else r in
  let r := warn_if (blank options "allowed_numbers") "whatsapp service has no allowed numbers; any sender can route inbound messages" r in
  issue_if (truthyServiceOption (opt options "template_required") && blank options "template_name")
    "whatsapp template_required requires option template_name" r.

(** The switch over the adapters. *)
Definition validateAdapter (adapter : string) (options env : smap) (r : ServiceValidationResult) : ServiceValidationResult :=
  if decide (adapter = "email") then validateEmailMessageService options r
  else if decide (adapter = "telegram") then validateTelegramWebhookSecret options (requireEnv env r ["TELEGRAM_BOT_TOKEN"])
  else if decide (adapter = "slack")
       then warn_if (truthyServiceOption (opt options "require_bot_mention") && blank options "bot_user_id")
              "Slack require_bot_mention without bot_user_id only accepts app_mention events"
              (requireEnv env r ["SLACK_BOT_TOKEN"; "SLACK_SIGNING_SECRET"])
  else if decide (adapter = "discord")
       then let r := requireEnv env r ["DISCORD_BOT_TOKEN"] in
            if EqualFold (TrimSpace (opt options "receive")) "interaction" then requireEnv env r ["DISCORD_PUBLIC_KEY"] else r
  else if decide (adapter = "sms") then validateSMS options env r
  else if decide (adapter = "whatsapp") then validateWhatsApp options env r
  else r.

Definition validateMessageServiceConfig (s : ServiceConfig) (r : ServiceValidationResult) : option ServiceValidationResult :=
  let adapter := lowerTrim (sc_Adapter s) in
  if decide (adapter = "") then Some (issue r "message service requires an adapter")
  else if decide (adapter ∈ knownMessageAdapters) then
    let options := sc_Options s in
    match validateDispatch "message" "messages" s r with
    | None => None
    | Some r =>
        let r := validateMessageReceiveMode (opt options "receive") r in
        let r := validateMessageReplyMode (opt options "reply") r in
        let r := validateGenericWebhookAuth options r in
        Some (validateAdapter adapter options (sc_Env s) r)
    end
  else Some (issue r ("unsupported message adapter " +:+ Quote (sc_Adapter s))).

Definition hasServiceRequestAuth (options : smap) : bool :=
  existsb (fun key => negb (blank options key))
    [OptionAuthScheme; OptionAuthToken; OptionAuthTokenEnv; OptionSignatureSecret; OptionSignatureSecretEnv].

Definition validateTicketServiceConfig (s : ServiceConfig) (r : ServiceValidationResult) : option ServiceValidationResult :=
  let adapter := lowerTrim (sc_Adapter s) in
  if decide (adapter = "") then Some (issue r "ticket service requires an adapter")
  else match knownTicketAdapters !! adapter with
       | None => Some (issue r ("unsupported ticket adapter " +:+ Quote (sc_Adapter s)))
       | Some normalized =>
           let r := warn_if (negb normalized)
                      ("ticket adapter " +:+ Quote (sc_Adapter s) +:+ " payloads are not normalized yet; the webhook route rejects them") r in
           match validateDispatch "ticket" "tickets" s r with
           | None => None
           | Some r =>
               let r := warn_if (negb (hasServiceRequestAuth (sc_Options s)))
                          "ticket service has no request auth (auth_token, auth_token_env, signature_secret, or signature_secret_env); any caller can post to its webhook route" r in
               Some (warn_if (blank (sc_Options s) "allowed_senders")
                       "ticket service has no allowed_senders; any sender can route inbound tickets" r)
           end
       end.

Definition ValidateServiceConfig (service : option ServiceConfig) : option ServiceValidationResult :=
  match service with
  | None => Some (mkValidation false ["service config is required"] [])
  | Some s =>
      let r := mkValidation true [] [] in
      let r := issue_if (bool_decide (TrimSpace (sc_ID s) = "")) "service id is required" r in
      let r := issue_if (bool_decide (TrimSpace (sc_Type s) = "")) "service type is required" r in
      let r := issue_if (bool_decide (TrimSpace (sc_Profile s) = "")) "service profile is required" r in
      match (if decide (sc_Type s = "message") then validateMessageServiceConfig s r
             else if decide (sc_Type s = "ticket") then validateTicketServiceConfig s r else Some r) with
      | None => None
      | Some r => Some (mkValidation (bool_decide (vr_Issues r = [])) (vr_Issues r) (vr_Warnings r))
      end
  end.
End Validation.

(** ** The description of a runtime *)

Record ServiceRuntimeMetadata : Type := mkRuntimeMetadata {
  mt_Runtime : string;
  mt_Provider : string;
  mt_Ingress : string;
  mt_Handoff : string;
  mt_Delivery : string;
  mt_Retry : string;
  mt_Routing : string;
  mt_ErrorHooks : list string;
  mt_ReceiveMode : string;
  mt_DeliveryModes : list string
}.

Record ServiceRuntimeInfo : Type := mkRuntimeInfo {
  ri_Receives : string;
  ri_Executes : string;
  ri_Replies : string;
  ri_Maturity : string;
  ri_Routes : list string;
  ri_Metadata : ServiceRuntimeMetadata
}.

Definition no_metadata : ServiceRuntimeMetadata := mkRuntimeMetadata "" "" "" "" "" "" "" [] "" [].

(** The option when it is not blank. *)
Definition optionOr (options : smap) (key fallback : string) : string :=
  if blank options key then fallback else TrimSpace (opt options key).

Definition describeMessageServiceRuntime (s : ServiceConfig) : ServiceRuntimeInfo :=
  let route := "/services/" +:+ sc_ID s +:+ "/webhook" in
  let provider := optionOr (sc_Options s) "provider" (sc_Adapter s) in
  let receiveMode := optionOr (sc_Options s) "receive" "webhook" in
  let replyMode := optionOr (sc_Options s) "reply" "provider delivery" in
  let '(executes, routing) :=
    if HasRouteTable s then ("sender route table -> profile action", "sender route table")
    else ("normalized message execution handoff", OptionDefaultAction) in
  mkRuntimeInfo ("HTTP POST " +:+ route) executes (provider +:+ " " +:+ replyMode) "ready" [route]
    (mkRuntimeMetadata "message-provider" provider ("native provider " +:+ receiveMode +:+ " ingress")
       "normalized message execution handoff" "provider delivery interface"
       "provider delivery retry policy max_attempts=3 base_delay=1s max_delay=30s" routing
       ["ingress"; "normalize"; "route"; "execute"; "deliver"; "retry"] receiveMode ["text"; "reaction"; "file"]).

Definition describeTicketServiceRuntime (s : ServiceConfig) : ServiceRuntimeInfo :=
  let route := "/services/" +:+ sc_ID s +:+ "/ticket/" +:+ sc_Adapter s in
  let adapter := lowerTrim (sc_Adapter s) in
  let routing := if HasRouteTable s then "sender route table" else OptionDefaultAction in
  let maturity := match knownTicketAdapters !! adapter with Some true => "ready" | _ => "component" end in
  let '(receives, replies) :=
    if decide (adapter = "email") then ("inbound email events (mail relay or poller JSON)", "reply body or status metadata")
    else if decide (adapter = "jira") then ("Jira issue/comment events", "Jira comment body or status metadata")
    else if decide (adapter = "linear") then ("Linear issue/comment events", "Linear comment body or status metadata")
    else if decide (adapter = "gitlab") then ("GitLab issue/MR/note events", "GitLab note body or status metadata")
    else ("ticket events", "status metadata") in
  mkRuntimeInfo receives "routed profile action with normalized ticket payload" replies maturity [route]
    (mkRuntimeMetadata "ticket-service" adapter ("HTTP POST " +:+ route) "normalized ticket on action stdin" "" "" routing
       ["auth"; "normalize"; "route"; "execute"] "webhook" []).

Definition DescribeServiceRuntime (service : option ServiceConfig) : ServiceRuntimeInfo :=
  match service with
  | None => mkRuntimeInfo "" "" "" "planned" [] no_metadata
  | Some s =>
      if decide (sc_Type s = "api")
      then mkRuntimeInfo "Agent Protocol HTTP requests" "profile action" "JSON run/thread/store responses or SSE output stream" "ready"
             ["/health"; "/v1/runs"; "/v1/threads"; "/v1/agents"; "/v1/store"; "/v1/skills"] no_metadata
      else if decide (sc_Type s = "webhook")
      then mkRuntimeInfo "HTTP POST /webhook with X-APS-Event" "mapped profile action" "status JSON, not action stdout" "status-only"
             ["/webhook"] no_metadata
      else if decide (sc_Type s = "a2a")
      then mkRuntimeInfo "A2A JSON-RPC task messages" "placeholder text processing" "A2A task response" "placeholder"
             ["aps a2a server --profile " +:+ sc_Profile s] no_metadata
      else if decide (sc_Type s = "client" /\ sc_Adapter s = "acp")
      then mkRuntimeInfo "stdio JSON-RPC" "ACP session, filesystem, terminal, and skill methods" "JSON-RPC responses" "ready"
             ["aps acp server " +:+ sc_Profile s] no_metadata
      else if decide (sc_Type s = "message") then describeMessageServiceRuntime s
      else if decide (sc_Type s = "ticket") then describeTicketServiceRuntime s
      else if decide (sc_Type s = "events")
      then mkRuntimeInfo "bus topics" "none" "JSONL to stdout" "observe-only" ["aps listen --profile " +:+ sc_Profile s] no_metadata
      else if decide (sc_Type s = "mobile")
      then mkRuntimeInfo "pairing requests and WebSocket command messages" "pairing/token flow; command execution placeholder"
             "pairing responses and placeholder command acknowledgements" "placeholder"
             ["aps adapter pair --profile " +:+ sc_Profile s] no_metadata
      else if decide (sc_Type s = "voice")
      then mkRuntimeInfo "component voice adapters only; no service route mounted"
             "backend process lifecycle and session registration only" "component-level audio/text frames" "component" [] no_metadata
      else mkRuntimeInfo "not mounted by aps service runtime" "not verified" "not verified" "planned" [] no_metadata
  end.

(** ** Recorded events *)

Definition no_delivery : ServiceDelivery := mkServiceDelivery "" "" "" 0 None [].

Definition serviceDelivery (s : ServiceConfig) : ServiceDelivery := default no_delivery (sc_Delivery s).

Definition deliveryHealth (s : ServiceConfig) : string :=
  let stored := match sc_Delivery s with Some d => sd_Health d | None => "" end in
  if decide (stored = "")
  then match sc_LastInbound s, sc_LastOutbound s with None, None => "unknown" | _, _ => "receiving" end
  else stored.

Definition set_health (d : ServiceDelivery) (health lastError : string) : ServiceDelivery :=
  mkServiceDelivery health (sd_Status d) lastError (sd_UpdatedAt d) (sd_RetryPolicy d) (sd_Attempts d).

Definition setDeliveryHealth (d : ServiceDelivery) (status : string) : ServiceDelivery :=
  let s := lowerTrim status in
  if decide (s ∈ ["success"; "accepted"; "completed"; "executed"; "sent"; "delivered"]) then set_health d "healthy" ""
  else if decide (s = "retry_scheduled" \/ s = "retrying") then set_health d "degraded" (sd_LastError d)
  else if decide (s ∈ ["dead_letter"; "failed"; "failed_delivery"; "error"]) then set_health d "failed" (sd_LastError d)
  else if decide (status = "") then set_health d "unknown" (sd_LastError d)
  else set_health d "degraded" (sd_LastError d).

Section Events.
(** [logging.Apply]. *)
Variable redact : string -> string.

Definition normalizeServiceDeliveryAttempt (a : ServiceDeliveryAttempt) (fallbackAt : Z) : ServiceDeliveryAttempt :=
  mkDeliveryAttempt (if IsZero (at_At a) then fallbackAt else at_At a) (at_Provider a) (at_MessageID a) (at_ChannelID a)
    (at_Attempt a) (at_MaxAttempts a) (at_Status a) (at_DeliveryID a) (at_Retriable a) (at_Delay a) (redact (at_RedactedError a)).

(** With the direction and the status that the caller sets.  The attempts of the caller's
    slice are overwritten in place; they are a value here. *)
Definition normalizeServiceEvent (now : Z) (e : ServiceEventMeta) (direction fallbackStatus : string) : ServiceEventMeta :=
  let at_ := if IsZero (em_At e) then now else em_At e in
  mkEventMeta at_ direction (em_MessageID e) (em_Platform e) (em_ChannelID e) (em_SenderID e)
    (if decide (em_Status e = "") then fallbackStatus else em_Status e) (redact (em_Detail e)) (em_DeliveryID e) (em_Attempt e)
    (em_MaxAttempts e) (em_Retriable e) (em_RetryDelay e)
    (map (fun a => normalizeServiceDeliveryAttempt a at_) (em_Attempts e)) (em_RetryPolicy e).

Definition applyOutboundDeliveryState (d : ServiceDelivery) (e : ServiceEventMeta) : ServiceDelivery :=
  let policy := match em_RetryPolicy e with Some p => Some p | None => sd_RetryPolicy d end in
  match last (em_Attempts e) with
  | Some l =>
      setDeliveryHealth
        (mkServiceDelivery (sd_Health d) (at_Status l) (if decide (at_RedactedError l = "") then sd_LastError d else at_RedactedError l)
           (if IsZero (at_At l) then sd_UpdatedAt d else at_At l) policy (em_Attempts e))
        (at_Status l)
  | None =>
      let attempts :=
        if decide (em_Attempt e > 0)
        then [normalizeServiceDeliveryAttempt
                (mkDeliveryAttempt (em_At e) (em_Platform e) "" "" (em_Attempt e) (em_MaxAttempts e) (em_Status e) (em_DeliveryID e)
                   (em_Retriable e) (em_RetryDelay e) (em_Detail e)) (em_At e)]
        else sd_Attempts d in
      setDeliveryHealth
        (mkServiceDelivery (sd_Health d) (em_Status e) (if decide (em_Detail e = "") then sd_LastError d else em_Detail e)
           (sd_UpdatedAt d) policy attempts)
        (em_Status e)
  end.

Definition set_updated (d : ServiceDelivery) (health : string) (at_ : Z) : ServiceDelivery :=
  mkServiceDelivery health (sd_Status d) (sd_LastError d) at_ (sd_RetryPolicy d) (sd_Attempts d).

(** The service with a delivery and the message recorded. *)
Definition recordInbound (now : Z) (e : ServiceEventMeta) (s : ServiceConfig) : ServiceConfig :=
  let event := normalizeServiceEvent now e "inbound" "received" in
  set_events s
    (set_updated (serviceDelivery s)
       (deliveryHealth (mkService (sc_ID s) (sc_Type s) (sc_Adapter s) (sc_Profile s) (sc_Description s) (sc_Env s) (sc_Labels s)
          (sc_Options s) (sc_Routing s) (Some (serviceDelivery s)) (Some event) (sc_LastOutbound s)))
       (em_At event))
    (Some event) (sc_LastOutbound s).

Definition recordOutbound (now : Z) (e : ServiceEventMeta) (s : ServiceConfig) : ServiceConfig :=
  let event := normalizeServiceEvent now e "outbound" "unknown" in
  let d := serviceDelivery s in
  set_events s (applyOutboundDeliveryState (set_updated d (sd_Health d) (em_At event)) event) (sc_LastInbound s) (Some event).

Definition RecordServiceInboundEvent (now : Z) (fault : bool) (fs : ServiceFiles) (id : string) (event : ServiceEventMeta) :
    ServiceFiles * Res ServiceErr unit :=
  match LoadService fs id with
  | Err e => (fs, Err e)
  | Ok s =>
      match SaveService fault fs (Some (recordInbound now event s)) with
      | (fs, Err e) => (fs, Err e)
      | (fs, Ok _) => (fs, Ok tt)
      end
  end.

Definition RecordServiceOutboundEvent (now : Z) (fault : bool) (fs : ServiceFiles) (id : string) (event : ServiceEventMeta) :
    ServiceFiles * Res ServiceErr unit :=
  match LoadService fs id with
  | Err e => (fs, Err e)
  | Ok s =>
      match SaveService fault fs (Some (recordOutbound now event s)) with
      | (fs, Err e) => (fs, Err e)
      | (fs, Ok _) => (fs, Ok tt)
      end
  end.
End Events.

(** ** Files: what is saved is loaded *)

Lemma normalizeServiceID_Ok id safe :
  normalizeServiceID id = Ok safe <->
  safe = TrimSpace id /\ safe <> "" /\ safe <> "." /\ safe <> ".." /\ forallb idChar (chars safe) = true.
Proof.
  unfold normalizeServiceID. set (t := TrimSpace id). case_decide as H1; [split; [done|]; by intros (-> & ? & _)|].
  case_decide as H2; [split; [done|]; intros (-> & _ & ? & ? & _); by destruct H2|].
  destruct (ContainsAny t _) eqn:Ec.
  - split; [done|]. intros (-> & _ & _ & _ & Hf). apply ContainsAny_spec in Ec as (c & Hc & Hin). rewrite forallb_forall in Hf.
    specialize (Hf c (proj1 (list_elem_of_In _ _) Hc)). rewrite chars_unchars, !elem_of_cons, elem_of_nil in Hin.
    by destruct Hin as [->|[->|[]]].
  - destruct (forallb idChar (chars t)) eqn:Ef; split; try done.
    + intros [= <-]. repeat split; [done|naive_solver|naive_solver|done].
    + by intros (-> & _).
    + intros (-> & _ & _ & _ & Hf). congruence.
Qed.

(** Normalizing is idempotent, and two ids share a file only when they differ in the
    white space around them. *)
Lemma normalizeServiceID_idem id safe : normalizeServiceID id = Ok safe -> normalizeServiceID safe = Ok safe.
Proof.
  intros H%normalizeServiceID_Ok. apply normalizeServiceID_Ok. destruct H as (-> & H). by rewrite TrimSpace_idem.
Qed.

Definition serviceFile (id : string) : string := id +:+ ".yaml".

Lemma serviceFile_inj a b : serviceFile a = serviceFile b -> a = b.
Proof. unfold serviceFile. intros H%(f_equal chars). rewrite !chars_app in H. apply (inj (.++ chars ".yaml")) in H. by apply chars_inj. Qed.

Lemma GetServicePath_Ok id path : GetServicePath id = Ok path <-> exists safe, normalizeServiceID id = Ok safe /\ path = serviceFile safe.
Proof.
  unfold GetServicePath, serviceFile. destruct (normalizeServiceID id) as [safe|e]; split.
  - intros [= <-]. by exists safe.
  - by intros (? & [= <-] & ->).
  - done.
  - by intros (? & ? & _).
Qed.

Lemma SaveService_Ok fault fs s fs' s' :
  SaveService fault fs (Some s) = (fs', Ok s') <->
  fault = false /\ normalizeServiceID (sc_ID s) = Ok (sc_ID s') /\ TrimSpace (sc_Type s) <> "" /\ TrimSpace (sc_Profile s) <> "" /\
  s' = set_id s (sc_ID s') /\ fs' = <[serviceFile (sc_ID s') := Parsed s']> fs.
Proof.
  unfold SaveService. destruct (normalizeServiceID (sc_ID s)) as [id|e] eqn:Hid; [|split; [done|by intros (_ & ? & _)]].
  case_decide as Ht; [split; [done|by intros (_ & _ & ? & _)]|]. case_decide as Hp; [split; [done|by intros (_ & _ & _ & ? & _)]|].
  unfold GetServicePath. rewrite (normalizeServiceID_idem _ _ Hid). fold (serviceFile id).
  destruct fault; [split; [done|by intros [? _]]|]. split.
  - intros [= <- <-]. done.
  - intros (_ & [= Hi] & _ & _ & Hs & ->). rewrite Hi, <- Hs. done.
Qed.

Lemma SaveService_Err fault fs s fs' e : SaveService fault fs s = (fs', Err e) -> fs' = fs.
Proof. unfold SaveService. intros H. repeat (case_match || case_decide); by simplify_eq. Qed.

Lemma LoadService_at fs id safe :
  normalizeServiceID id = Ok safe -> forall s, LoadService fs id = Ok s <-> fs !! serviceFile safe = Some (Parsed s) /\ sc_ID s = id.
Proof.
  intros Hid s. unfold LoadService, GetServicePath. rewrite Hid. fold (serviceFile safe).
  destruct (fs !! serviceFile safe) as [[| | |x]|]; simpl; try (split; [done|by intros [? _]]).
  case_decide as Hx; split; try done; [intros [= <-]|intros [[= <-] _]|intros [[= <-] ?]]; done.
Qed.

Lemma LoadService_id fs id s : LoadService fs id = Ok s -> sc_ID s = id.
Proof.
  unfold LoadService. destruct (GetServicePath id) as [path|]; [|done].
  destruct (default _ _); try done. case_decide; [|done]. by intros [= <-].
Qed.

Lemma LoadService_other fs id safe other d :
  normalizeServiceID id = Ok safe -> TrimSpace other <> safe -> LoadService (<[serviceFile safe := d]> fs) other = LoadService fs other.
Proof.
  intros Hid Hne. unfold LoadService. destruct (GetServicePath other) as [path|e] eqn:Hp; [|done].
  apply GetServicePath_Ok in Hp as (o & Ho & ->). rewrite lookup_insert_ne; [done|]. intros E%serviceFile_inj. subst o.
  apply normalizeServiceID_Ok in Ho as [Ho _]. congruence.
Qed.

(** A service that was saved is loaded back under its trimmed id, with every field as
    it was given; it exists, no other service's file changes, and the name of its file
    stays below the directory of services. *)
Theorem service_round_trip fs s fs' s' fault (Hsave : SaveService fault fs (Some s) = (fs', Ok s')) :
  LoadService fs' (sc_ID s') = Ok s' /\ ServiceExists fs' (sc_ID s') = Ok true /\
  s' = set_id s (TrimSpace (sc_ID s)) /\
  (forall id, TrimSpace id <> TrimSpace (sc_ID s) -> LoadService fs' id = LoadService fs id) /\
  (forall path, GetServicePath (sc_ID s) = Ok path -> "/"%char ∉ chars path).
Proof.
  apply SaveService_Ok in Hsave as (-> & Hid & Ht & Hp & Hs & ->). pose proof (normalizeServiceID_idem _ _ Hid) as Hidem.
  pose proof (proj1 (normalizeServiceID_Ok _ _) Hid) as (Ei & _ & _ & _ & Hc). repeat split.
  - apply (LoadService_at _ _ _ Hidem). by rewrite lookup_insert_eq.
  - unfold ServiceExists, GetServicePath. rewrite Hidem. fold (serviceFile (sc_ID s')). by rewrite lookup_insert_eq.
  - by rewrite <- Ei.
  - intros id Hne. apply (LoadService_other _ _ _ _ _ Hidem). by rewrite Ei.
  - intros path (safe & Hsafe & ->)%GetServicePath_Ok. rewrite Hid in Hsafe. injection Hsafe as <-.
    unfold serviceFile. rewrite chars_app, elem_of_app. intros [Hin|Hin]; [|by apply (bool_decide_eq_true_2 _) in Hin].
    rewrite forallb_forall in Hc. by specialize (Hc _ (proj1 (list_elem_of_In _ _) Hin)).
Qed.

(** ** Events: the health that an operator sees *)

(** The health that the status of a delivery stands for. *)
Definition healthOf (status : string) : string := sd_Health (setDeliveryHealth no_delivery status).

Lemma setDeliveryHealth_health d status : sd_Health (setDeliveryHealth d status) = healthOf status.
Proof. unfold healthOf, setDeliveryHealth. by repeat case_decide. Qed.

Lemma healthOf_nonempty status : healthOf status <> "".
Proof. unfold healthOf, setDeliveryHealth. by repeat case_decide. Qed.

(** The status that a recorded delivery ends in: that of its last attempt, if it lists any. *)
Definition finalStatus (e : ServiceEventMeta) : string :=
  match last (em_Attempts e) with
  | Some a => at_Status a
  | None => if decide (em_Status e = "") then "unknown" else em_Status e
  end.

Inductive RecordOp : Type :=
  | OpInbound (now : Z) (fault : bool) (id : string) (e : ServiceEventMeta)
  | OpOutbound (now : Z) (fault : bool) (id : string) (e : ServiceEventMeta).

Definition runRecord (redact : string -> string) (fs : ServiceFiles) (op : RecordOp) : ServiceFiles :=
  match op with
  | OpInbound now fault id e => (RecordServiceInboundEvent redact now fault fs id e).1
  | OpOutbound now fault id e => (RecordServiceOutboundEvent redact now fault fs id e).1
  end.

(** What an operation means for the health of a service: nothing is known until the first
    event, a received message does not change it, and a delivery sets it. *)
Definition healthStep (id : string) (h : option string) (op : RecordOp) : option string :=
  match op with
  | OpInbound _ false i _ => if decide (i = id) then Some (default "receiving" h) else h
  | OpOutbound _ false i e => if decide (i = id) then Some (healthOf (finalStatus e)) else h
  | _ => h
  end.

Definition health (s : ServiceConfig) : option string :=
  let stored := match sc_Delivery s with Some d => sd_Health d | None => "" end in
  if decide (stored = "")
  then match sc_LastInbound s, sc_LastOutbound s with None, None => None | _, _ => Some "receiving" end
  else Some stored.

Lemma deliveryHealth_health s : deliveryHealth s = default "unknown" (health s).
Proof. unfold deliveryHealth, health. case_decide; [|done]. by destruct (sc_LastInbound s), (sc_LastOutbound s). Qed.

(** The configuration of a service: everything but what events leave in it. *)
Definition same_config (s s' : ServiceConfig) : Prop :=
  s' = mkService (sc_ID s) (sc_Type s) (sc_Adapter s) (sc_Profile s) (sc_Description s) (sc_Env s) (sc_Labels s) (sc_Options s)
         (sc_Routing s) (sc_Delivery s') (sc_LastInbound s') (sc_LastOutbound s').

Lemma same_config_trans a b c : same_config a b -> same_config b c -> same_config a c.
Proof. unfold same_config. intros -> H. by rewrite H. Qed.

Section redacted.
Variable redact : string -> string.

Definition red (text : string) : Prop := text = "" \/ exists raw, text = redact raw.

(** No text that a provider returned is stored without redaction. *)
Definition event_redacted (e : option ServiceEventMeta) : Prop :=
  match e with Some e => red (em_Detail e) /\ Forall (fun a => red (at_RedactedError a)) (em_Attempts e) | None => True end.
Definition redacted (s : ServiceConfig) : Prop :=
  event_redacted (sc_LastInbound s) /\ event_redacted (sc_LastOutbound s) /\
  match sc_Delivery s with
  | Some d => red (sd_LastError d) /\ Forall (fun a => red (at_RedactedError a)) (sd_Attempts d)
  | None => True
  end.

Lemma red_redact text : red (redact text).
Proof. right. by exists text. Qed.

Lemma normalized_event_redacted now e direction status : event_redacted (Some (normalizeServiceEvent redact now e direction status)).
Proof.
  split; [apply red_redact|]. simpl. apply Forall_map, Forall_true. intros a. apply red_redact.
Qed.

Lemma serviceDelivery_redacted s : redacted s -> red (sd_LastError (serviceDelivery s)) /\ Forall (fun a => red (at_RedactedError a)) (sd_Attempts (serviceDelivery s)).
Proof. intros (_ & _ & H). unfold serviceDelivery. destruct (sc_Delivery s); [done|]. split; [by left|constructor]. Qed.

Lemma setDeliveryHealth_redacted d status :
  red (sd_LastError d) -> red (sd_LastError (setDeliveryHealth d status)) /\ sd_Attempts (setDeliveryHealth d status) = sd_Attempts d.
Proof. unfold setDeliveryHealth. intros H. repeat case_decide; split; try done; by left. Qed.

Lemma applyOutbound_redacted d e :
  red (sd_LastError d) -> Forall (fun a => red (at_RedactedError a)) (sd_Attempts d) -> event_redacted (Some e) ->
  let d' := applyOutboundDeliveryState redact d e in
  red (sd_LastError d') /\ Forall (fun a => red (at_RedactedError a)) (sd_Attempts d').
Proof.
  intros Hl Ha [Hd Hes]. unfold applyOutboundDeliveryState. destruct (last (em_Attempts e)) as [l|] eqn:El.
  - apply last_Some_elem_of in El. rewrite Forall_forall in Hes.
    edestruct setDeliveryHealth_redacted as [H1 ->]; [|split; [exact H1|by apply Forall_forall]].
    simpl. case_decide; [done|by apply Hes].
  - edestruct setDeliveryHealth_redacted as [H1 ->]; [|split; [exact H1|]]; simpl.
    + by case_decide.
    + clear H1. case_decide; [|done]. constructor; [apply red_redact|constructor].
Qed.

Lemma applyOutbound_health now d e :
  sd_Health (applyOutboundDeliveryState redact d (normalizeServiceEvent redact now e "outbound" "unknown")) = healthOf (finalStatus e).
Proof.
  unfold applyOutboundDeliveryState, finalStatus. simpl. rewrite fmap_last. destruct (last (em_Attempts e)); apply setDeliveryHealth_health.
Qed.

End redacted.

(** A service at its own id, ready to be saved again. *)
Definition stored_service (fs : ServiceFiles) (id : string) (s : ServiceConfig) : Prop :=
  fs !! serviceFile id = Some (Parsed s) /\ sc_ID s = id /\ normalizeServiceID id = Ok id /\
  TrimSpace (sc_Type s) <> "" /\ TrimSpace (sc_Profile s) <> "".

Lemma stored_load fs id s : stored_service fs id s -> LoadService fs id = Ok s.
Proof. intros (Hf & Hi & Hn & _). by apply (LoadService_at _ _ _ Hn). Qed.

(** Loading, changing and saving a service. *)
Definition updated (fault : bool) (fs : ServiceFiles) (i : string) (f : ServiceConfig -> ServiceConfig) : ServiceFiles :=
  match LoadService fs i with
  | Err _ => fs
  | Ok s => (SaveService fault fs (Some (f s))).1
  end.

Lemma updated_stored fault fs i f id s :
  (forall s, same_config s (f s)) -> stored_service fs id s ->
  stored_service (updated fault fs i f) id (if decide (i = id /\ fault = false) then f s else s).
Proof.
  intros Hf Hs. pose proof Hs as (Hfile & Hid & Hn & Ht & Hp). unfold updated. destruct (decide (i = id)) as [->|Hne].
  - rewrite (stored_load _ _ _ Hs). pose proof (Hf s) as Hc.
    assert (sc_ID (f s) = id /\ sc_Type (f s) = sc_Type s /\ sc_Profile (f s) = sc_Profile s) as (Ei & Et & Ep) by (by rewrite Hc).
    destruct fault.
    + rewrite decide_False by (by intros [_ ?]). destruct (SaveService true fs (Some (f s))) as [fs' [x|e]] eqn:Hsv.
      * by apply SaveService_Ok in Hsv as [? _].
      * apply SaveService_Err in Hsv as ->. done.
    + rewrite decide_True by done.
      assert (SaveService false fs (Some (f s)) = (<[serviceFile id := Parsed (f s)]> fs, Ok (f s))) as ->.
      { apply SaveService_Ok. rewrite Ei, Et, Ep. repeat (split; [done|]). split; [|done]. rewrite <- Ei. by destruct (f s). }
      simpl. split; [by rewrite lookup_insert_eq|]. by rewrite Ei, Et, Ep.
  - rewrite decide_False by (by intros [? _]). destruct (LoadService fs i) as [x|] eqn:Hl; [|done].
    destruct (SaveService fault fs (Some (f x))) as [fs' [y|e]] eqn:Hsv; [|by apply SaveService_Err in Hsv as ->].
    apply SaveService_Ok in Hsv as (_ & Hy & _ & _ & _ & ->). simpl.
    destruct (GetServicePath i) as [path|] eqn:Hpath; [|by unfold LoadService in Hl; rewrite Hpath in Hl].
    apply GetServicePath_Ok in Hpath as (safe & Hsafe & _). apply (LoadService_at _ _ _ Hsafe) in Hl as [Hx Hi].
    rewrite (Hf x) in Hy. simpl in Hy. rewrite Hi, Hsafe in Hy. injection Hy as Hy. rewrite <- Hy.
    split; [|done]. rewrite lookup_insert_ne; [done|]. intros ->%serviceFile_inj. congruence.
Qed.

(** A change that keeps the configuration keeps it for whoever loads the service again. *)
Lemma updated_same fault fs id f s s' :
  (forall s, same_config s (f s)) -> LoadService fs id = Ok s -> LoadService (updated fault fs id f) id = Ok s' -> same_config s s'.
Proof.
  intros Hf Hl. unfold updated. rewrite Hl. destruct (SaveService fault fs (Some (f s))) as [fs' [y|e]] eqn:Hsv; simpl.
  - apply SaveService_Ok in Hsv as (_ & Hy & _ & _ & Es & ->).
    pose proof (LoadService_id _ _ _ Hl) as Hid.
    assert (sc_ID (f s) = id) as Hfi by (rewrite (Hf s); exact Hid). rewrite Hfi in Hy.
    intros H%(LoadService_at _ _ _ Hy). rewrite lookup_insert_eq in H. destruct H as [[= <-] Ey].
    pose proof (Hf s) as Hc. unfold same_config in *. rewrite Es, Ey. destruct (f s). cbn in *. injection Hc. intros. by subst.
  - apply SaveService_Err in Hsv as ->. rewrite Hl. intros [= <-]. by destruct s.
Qed.

Section recording.
Variable redact : string -> string.

Lemma RecordInbound_updated now fault fs id e :
  (RecordServiceInboundEvent redact now fault fs id e).1 = updated fault fs id (recordInbound redact now e).
Proof.
  unfold RecordServiceInboundEvent, updated. destruct (LoadService fs id) as [s|]; [|done].
  by destruct (SaveService _ _ _) as [fs' [?|?]].
Qed.

Lemma RecordOutbound_updated now fault fs id e :
  (RecordServiceOutboundEvent redact now fault fs id e).1 = updated fault fs id (recordOutbound redact now e).
Proof.
  unfold RecordServiceOutboundEvent, updated. destruct (LoadService fs id) as [s|]; [|done].
  by destruct (SaveService _ _ _) as [fs' [?|?]].
Qed.

Lemma recordInbound_spec now e s :
  same_config s (recordInbound redact now e s) /\ health (recordInbound redact now e s) = Some (default "receiving" (health s)) /\
  (redacted redact s -> redacted redact (recordInbound redact now e s)).
Proof.
  split; [done|]. split.
  - unfold health, recordInbound, deliveryHealth, serviceDelivery. simpl. destruct (sc_Delivery s) as [d|]; simpl.
    + destruct (decide (sd_Health d = "")) as [E|E]; [|by rewrite decide_False].
      by destruct (sc_LastInbound s), (sc_LastOutbound s).
    + by destruct (sc_LastInbound s), (sc_LastOutbound s).
  - intros H. pose proof (serviceDelivery_redacted _ _ H) as [H1 H2]. destruct H as (_ & Ho & _).
    split; [apply normalized_event_redacted|]. by split.
Qed.

Lemma recordOutbound_spec now e s :
  same_config s (recordOutbound redact now e s) /\ health (recordOutbound redact now e s) = Some (healthOf (finalStatus e)) /\
  (redacted redact s -> redacted redact (recordOutbound redact now e s)).
Proof.
  split; [done|]. split.
  - unfold health, recordOutbound. cbn [sc_Delivery set_events]. rewrite applyOutbound_health.
    by rewrite decide_False by apply healthOf_nonempty.
  - intros H. pose proof (serviceDelivery_redacted _ _ H) as [H1 H2]. destruct H as (Hi & _ & _).
    split; [done|]. split; [apply normalized_event_redacted|]. apply applyOutbound_redacted; try done. apply normalized_event_redacted.
Qed.

Lemma chosen_spec fault (i id : string) s s1 (h1 h : option string) :
  same_config s s1 /\ health s1 = h1 /\ (redacted redact s -> redacted redact s1) ->
  (h = if fault : bool then health s else if decide (i = id) then h1 else health s) ->
  let s' := if decide (i = id /\ fault = false) then s1 else s in
  same_config s s' /\ health s' = h /\ (redacted redact s -> redacted redact s').
Proof.
  intros H ->. cbv zeta. destruct fault; [rewrite decide_False by (by intros [_ ?]); by destruct s|].
  destruct (decide (i = id)) as [->|Hne]; [by rewrite decide_True|]. rewrite decide_False by (by intros [? _]). by destruct s.
Qed.

(** Over any run of recorded events of any services, failing writes included, the
    health of a stored service is what its own successful records say in order: nothing
    is known before the first, a received message keeps what was known, and a delivery
    sets the health of its final status.  Its configuration never changes, and the error
    texts stored with it are always redacted. *)
Theorem service_health_refines ops fs id s (Hs : stored_service fs id s) :
  exists s', stored_service (foldl (runRecord redact) fs ops) id s' /\ same_config s s' /\
    deliveryHealth s' = default "unknown" (foldl (healthStep id) (health s) ops) /\
    (redacted redact s -> redacted redact s').
Proof.
  assert (exists s', stored_service (foldl (runRecord redact) fs ops) id s' /\ same_config s s' /\
    health s' = foldl (healthStep id) (health s) ops /\ (redacted redact s -> redacted redact s')) as (s' & H1 & H2 & H3 & H4).
  2: { exists s'. rewrite deliveryHealth_health, H3. done. }
  revert fs s Hs. induction ops as [|op ops IH]; intros fs s Hs; [by exists s; destruct s|].
  assert (exists s1, stored_service (runRecord redact fs op) id s1 /\ same_config s s1 /\ health s1 = healthStep id (health s) op /\
    (redacted redact s -> redacted redact s1)) as (s1 & H1 & H2 & H3 & H4).
  { destruct op as [now fault i e|now fault i e]; simpl.
    - rewrite RecordInbound_updated. eexists. split; [apply updated_stored; [intros x; by apply recordInbound_spec|done]|].
      eapply chosen_spec; [by apply recordInbound_spec|]. by destruct fault.
    - rewrite RecordOutbound_updated. eexists. split; [apply updated_stored; [intros x; by apply recordOutbound_spec|done]|].
      eapply chosen_spec; [by apply recordOutbound_spec|]. by destruct fault. }
  destruct (IH _ _ H1) as (s' & G1 & G2 & G3 & G4). exists s'. split; [done|]. split; [by eapply same_config_trans|].
  split; [|tauto]. by rewrite G3, H3.
Qed.
End recording.

(** ** Validation: what a valid service has *)

(** [r] reports no issue. *)
Definition clean (r : ServiceValidationResult) : Prop := vr_Issues r = [].

Lemma clean_issue r text : clean (issue r text) <-> False.
Proof. unfold clean. simpl. split; [|done]. by intros [_ ?]%app_eq_nil. Qed.

Lemma clean_issue_if b text r : clean (issue_if b text r) <-> b = false /\ clean r.
Proof. destruct b; simpl; [rewrite clean_issue|]; by intuition. Qed.

Lemma clean_warn_if b text r : clean (warn_if b text r) <-> clean r.
Proof. by destruct b. Qed.

Lemma clean_requireEnv env r keys : clean (requireEnv env r keys) <-> clean r /\ Forall (fun k => blank env k = false) keys.
Proof.
  revert r. induction keys as [|k keys IH]; intros r; simpl; [by rewrite Forall_nil; tauto|].
  rewrite IH, clean_issue_if, Forall_cons. tauto.
Qed.

Lemma clean_problems {A} (f : A -> string) r problems : clean (foldl (fun r p => issue r (f p)) r problems) <-> clean r /\ problems = [].
Proof.
  revert r. induction problems as [|p problems IH]; intros r; simpl; [tauto|]. rewrite IH, clean_issue. by intuition.
Qed.

Lemma clean_warning r text : clean (warning r text) <-> clean r.
Proof. done. Qed.

(** The issues of a report, one condition each. *)
Ltac clean_simpl :=
  repeat (rewrite clean_issue || rewrite clean_issue_if || rewrite clean_warn_if || rewrite clean_warning
          || rewrite clean_requireEnv || rewrite Forall_cons || rewrite Forall_nil).

(** [option] or [binding]: not blank. *)
Definition given (m : smap) (k : string) : Prop := TrimSpace (opt m k) <> "".

Lemma blank_given m k : blank m k = false <-> given m k.
Proof. unfold blank, given. by rewrite bool_decide_eq_false. Qed.

Lemma blank_not_given m k : blank m k = true <-> ~ given m k.
Proof. unfold blank, given. rewrite bool_decide_eq_true. destruct (decide (TrimSpace (opt m k) = "")); tauto. Qed.

(** One target for incoming messages: a table that loads, or an action. *)
Definition dispatch_ok (files : Files) (s : ServiceConfig) : Prop :=
  match sc_Routing s with
  | Some _ => ~ given (sc_Options s) OptionDefaultAction /\ exists table, LoadServiceRouteTable files (Some s) = Some (Ok table)
  | None => given (sc_Options s) OptionDefaultAction
  end.

(** A credential for the scheme that is asked for. *)
Definition auth_ok (options : smap) : Prop :=
  let scheme := lowerTrim (opt options OptionAuthScheme) in
  scheme ∈ "" :: AuthSchemes /\
  (scheme ∈ ["bearer"; "token"] -> given options OptionAuthToken \/ given options OptionAuthTokenEnv) /\
  (scheme ∈ ["hmac-sha256"; "ed25519"] -> given options OptionSignatureSecret \/ given options OptionSignatureSecretEnv).

(** What each provider needs. *)
Definition sms_ok (options env : smap) : Prop :=
  let provider := lowerTrim (opt options "provider") in
  (provider = "twilio" \/ provider = "generic") /\ given options "from" /\
  (provider = "twilio" -> given env "TWILIO_ACCOUNT_SID" /\ given env "TWILIO_AUTH_TOKEN").

Definition whatsapp_ok (options env : smap) : Prop :=
  let provider := lowerTrim (opt options "provider") in
  (provider = "whatsapp-cloud" \/ provider = "twilio" \/ provider = "generic") /\
  (provider = "whatsapp-cloud" -> looksNumericID (opt options "phone_number_id") = true /\ given env "WHATSAPP_ACCESS_TOKEN") /\
  (provider = "twilio" -> given options "from" /\ given env "TWILIO_ACCOUNT_SID" /\ given env "TWILIO_AUTH_TOKEN") /\
  (truthyServiceOption (opt options "template_required") = true -> given options "template_name").

Definition email_ok (options : smap) : Prop :=
  forall p, p ∈ map unchars (splitOn ","%char (chars (TrimSpace (opt options OptionAllowedSenders)))) ->
    TrimSpace p <> "" -> ValidateAllowedSenderPattern p = true.

Definition telegram_ok (options env : smap) : Prop :=
  let token := TrimSpace (opt options "webhook_secret_token") in
  given env "TELEGRAM_BOT_TOKEN" /\ Z.of_nat (length (chars token)) <= 256 /\ ContainsAny token newlines = false.

Definition provider_ok (adapter : string) (options env : smap) : Prop :=
  (adapter = "email" -> email_ok options) /\ (adapter = "telegram" -> telegram_ok options env) /\
  (adapter = "slack" -> given env "SLACK_BOT_TOKEN" /\ given env "SLACK_SIGNING_SECRET") /\
  (adapter = "discord" -> given env "DISCORD_BOT_TOKEN" /\
     (EqualFold (TrimSpace (opt options "receive")) "interaction" = true -> given env "DISCORD_PUBLIC_KEY")) /\
  (adapter = "sms" -> sms_ok options env) /\ (adapter = "whatsapp" -> whatsapp_ok options env).

Definition message_ok (files : Files) (s : ServiceConfig) : Prop :=
  let options := sc_Options s in
  lowerTrim (sc_Adapter s) ∈ knownMessageAdapters /\ dispatch_ok files s /\
  lowerTrim (opt options "receive") ∈ [""; "webhook"; "polling"] /\
  lowerTrim (opt options "reply") ∈ [""; "none"; "text"; "auto"] /\
  auth_ok options /\ provider_ok (lowerTrim (sc_Adapter s)) options (sc_Env s).

Definition ticket_ok (files : Files) (s : ServiceConfig) : Prop :=
  is_Some (knownTicketAdapters !! lowerTrim (sc_Adapter s)) /\ dispatch_ok files s.

Lemma Load_problems files cfg opts : Load files cfg opts <> Some (Err []).
Proof.
  unfold Load. destruct cfg as [cfg|]; [|done]. destruct (resolveConfig files cfg) as [[resolved source]|]; [|done].
  cbv zeta. destruct (match cf_Contacts resolved with Some _ => _ | None => _ end) as [[contacts problems]|]; [|done].
  destruct (compileRoutes _ _ _) as [routes errs]. case_decide as Hp; [done|]. by intros [= ?].
Qed.

Lemma validateServiceRouting_clean files text s r0 r :
  validateServiceRouting files text s r0 = Some r -> HasRouteTable s = true ->
  (clean r <-> clean r0 /\ exists table, LoadServiceRouteTable files (Some s) = Some (Ok table)).
Proof.
  unfold validateServiceRouting, LoadServiceRouteTable, HasRouteTable. destruct (sc_Routing s) as [cfg|]; [|done].
  pose proof (Load_problems files (Some cfg) (mkOptions (TrimSpace (ToLower (sc_Adapter s))) (sc_Profile s))) as Hne.
  destruct (Load _ _ _) as [[table|problems]|]; [| |done]; intros [= <-] _.
  - split; [by eauto|tauto].
  - rewrite clean_problems. split; [intros [_ ->]; by destruct Hne|by intros [_ [? ?]]].
Qed.

Lemma validateDispatch_clean files text kind items s r0 r :
  validateDispatch files text kind items s r0 = Some r -> (clean r <-> clean r0 /\ dispatch_ok files s).
Proof.
  unfold validateDispatch, dispatch_ok. destruct (HasRouteTable s) eqn:Ht.
  - intros H. rewrite (validateServiceRouting_clean _ _ _ _ _ H Ht). unfold HasRouteTable in Ht. destruct (sc_Routing s); [|done].
    rewrite clean_issue_if, negb_false_iff, blank_not_given. tauto.
  - intros [= <-]. unfold HasRouteTable in Ht. destruct (sc_Routing s); [done|]. rewrite clean_issue_if, blank_given. tauto.
Qed.

Lemma receive_clean value r : clean (validateMessageReceiveMode value r) <-> clean r /\ lowerTrim value ∈ [""; "webhook"; "polling"].
Proof.
  unfold validateMessageReceiveMode. rewrite !elem_of_cons, elem_of_nil. cbv zeta.
  repeat case_decide; clean_simpl; intuition congruence.
Qed.

Lemma reply_clean value r : clean (validateMessageReplyMode value r) <-> clean r /\ lowerTrim value ∈ [""; "none"; "text"; "auto"].
Proof.
  unfold validateMessageReplyMode. rewrite !elem_of_cons, elem_of_nil. cbv zeta.
  repeat case_decide; clean_simpl; intuition congruence.
Qed.

Lemma given_dec m k : given m k \/ ~ given m k.
Proof. unfold given. destruct (decide (TrimSpace (opt m k) = "")); tauto. Qed.

Lemma either_given m a b : negb (negb (blank m a) || negb (blank m b)) = false <-> given m a \/ given m b.
Proof. rewrite negb_false_iff, orb_true_iff, !negb_true_iff, !blank_given. done. Qed.

Lemma auth_clean options r : clean (validateGenericWebhookAuth options r) <-> clean r /\ auth_ok options.
Proof.
  unfold validateGenericWebhookAuth, auth_ok. cbv zeta. set (scheme := lowerTrim (opt options OptionAuthScheme)).
  unfold AuthSchemes. rewrite !elem_of_cons, !elem_of_nil.
  repeat case_decide; clean_simpl; rewrite ?either_given; intuition congruence.
Qed.

Lemma email_clean options r : clean (validateEmailMessageService options r) <-> clean r /\ email_ok options.
Proof.
  unfold validateEmailMessageService, email_ok. cbv zeta. clean_simpl. case_decide as Hs.
  - rewrite Hs. clean_simpl. split; [|tauto]. intros H. split; [done|]. intros p [->|[]%elem_of_nil]%elem_of_cons Hp. by destruct Hp.
  - generalize (map unchars (splitOn ","%char (chars (TrimSpace (opt options OptionAllowedSenders))))). intros ps. clear Hs.
    revert r. induction ps as [|p ps IH]; intros r; simpl; [split; [|tauto]; intros; split; [done|]; by intros ? ?%elem_of_nil|].
    rewrite IH, clean_issue_if, andb_false_iff, !negb_false_iff, bool_decide_eq_true. split.
    + intros [[Hp Hr] H]. split; [done|]. intros q [->|Hq]%elem_of_cons Hne; [by destruct Hp|by apply H].
    + intros [Hr H]. split; [split; [|done]|].
      * destruct (decide (TrimSpace p = "")) as [?|Hne]; [by left|]. right. apply H; [by left|done].
      * intros q Hq. apply H. by right.
Qed.

Lemma telegram_clean options env r :
  clean (validateTelegramWebhookSecret options (requireEnv env r ["TELEGRAM_BOT_TOKEN"])) <-> clean r /\ telegram_ok options env.
Proof.
  unfold validateTelegramWebhookSecret, telegram_ok. cbv zeta. case_decide as Ht; clean_simpl; rewrite ?blank_given.
  - destruct Ht as [-> _]. simpl. intuition lia.
  - rewrite bool_decide_eq_false. intuition lia.
Qed.

Lemma sms_clean options env r : clean (validateSMS options env r) <-> clean r /\ sms_ok options env.
Proof.
  unfold validateSMS, sms_ok. cbv zeta. set (provider := lowerTrim (opt options "provider")).
  repeat case_decide; clean_simpl; rewrite ?negb_false_iff, ?bool_decide_eq_true, ?blank_given; intuition congruence.
Qed.

Lemma looksNumericID_given options : looksNumericID (opt options "phone_number_id") = true -> given options "phone_number_id".
Proof. unfold looksNumericID, given. by intros [?%negb_true_iff%bool_decide_eq_false _]%andb_true_iff. Qed.

Lemma cloud_clean options env r : clean (validateWhatsAppCloud options env r) <->
  clean r /\ looksNumericID (opt options "phone_number_id") = true /\ given env "WHATSAPP_ACCESS_TOKEN".
Proof.
  unfold validateWhatsAppCloud. cbv zeta. clean_simpl. rewrite negb_false_iff, !blank_given.
  pose proof (looksNumericID_given options). intuition.
Qed.

Lemma template_clean options : (truthyServiceOption (opt options "template_required") && blank options "template_name") = false <->
  (truthyServiceOption (opt options "template_required") = true -> given options "template_name").
Proof. rewrite andb_false_iff, blank_given. destruct (truthyServiceOption _); intuition done. Qed.

Lemma whatsapp_clean options env r : clean (validateWhatsApp options env r) <-> clean r /\ whatsapp_ok options env.
Proof.
  unfold validateWhatsApp, whatsapp_ok. cbv zeta. set (provider := lowerTrim (opt options "provider")).
  rewrite clean_issue_if, clean_warn_if, template_clean.
  repeat case_decide; clean_simpl; rewrite ?cloud_clean; clean_simpl; rewrite ?negb_false_iff, ?bool_decide_eq_true, ?blank_given;
    intuition congruence.
Qed.

Lemma provider_clean adapter options env r :
  clean (validateAdapter adapter options env r) <-> clean r /\ provider_ok adapter options env.
Proof.
  unfold validateAdapter, provider_ok. repeat case_decide.
  - rewrite email_clean. intuition congruence.
  - rewrite telegram_clean. intuition congruence.
  - clean_simpl. rewrite !blank_given. intuition congruence.
  - cbv zeta. destruct (EqualFold _ _); clean_simpl; rewrite !blank_given; intuition congruence.
  - rewrite sms_clean. intuition congruence.
  - rewrite whatsapp_clean. intuition congruence.
  - intuition congruence.
Qed.

Lemma message_clean files text s r0 r :
  validateMessageServiceConfig files text s r0 = Some r -> (clean r <-> clean r0 /\ message_ok files s).
Proof.
  unfold validateMessageServiceConfig, message_ok. cbv zeta. case_decide as Ha.
  { intros [= <-]. rewrite Ha, clean_issue. split; [done|]. intros (_ & H & _). by apply (bool_decide_eq_true_2 _) in H. }
  case_decide as Hk; [|intros [= <-]; rewrite clean_issue; tauto].
  destruct (validateDispatch _ _ _ _ _ _) as [r1|] eqn:Hd; [|done]. intros [= <-].
  rewrite provider_clean, auth_clean, reply_clean, receive_clean, (validateDispatch_clean _ _ _ _ _ _ _ Hd). tauto.
Qed.

Lemma ticket_clean files text s r0 r :
  validateTicketServiceConfig files text s r0 = Some r -> (clean r <-> clean r0 /\ ticket_ok files s).
Proof.
  unfold validateTicketServiceConfig, ticket_ok. cbv zeta. case_decide as Ha.
  { intros [= <-]. rewrite Ha, clean_issue. split; [done|]. intros (_ & [? H] & _). by vm_compute in H. }
  destruct (knownTicketAdapters !! _) as [normalized|] eqn:Hk; [|intros [= <-]; rewrite clean_issue; split; [done|]; by intros (_ & [? ?] & _)].
  destruct (validateDispatch _ _ _ _ _ _) as [r1|] eqn:Hd; [|done]. intros [= <-]. clean_simpl.
  rewrite (validateDispatch_clean _ _ _ _ _ _ _ Hd), clean_warn_if. intuition eauto.
Qed.

(** C7: The validation of a service reports it as valid exactly when it has an id, a type
    and a profile and, for a message or ticket service, everything that its adapter needs:
    one dispatch target, a route table that loads or a default action but not both, known
    modes, a credential for the scheme it asks for, and the bindings and options of its
    provider.  No check hides the problem of another one, and an invalid service is
    reported with at least one issue. *)
Theorem valid_service_iff files problemText s r (Hr : ValidateServiceConfig files problemText (Some s) = Some r) :
  (vr_Valid r = true <->
     TrimSpace (sc_ID s) <> "" /\ TrimSpace (sc_Type s) <> "" /\ TrimSpace (sc_Profile s) <> "" /\
     (sc_Type s = "message" -> message_ok files s) /\ (sc_Type s = "ticket" -> ticket_ok files s)) /\
  (vr_Valid r = false -> vr_Issues r <> []).
Proof.
  unfold ValidateServiceConfig in Hr. cbv zeta in Hr.
  set (r0 := issue_if _ "service profile is required" _) in Hr.
  assert (clean r0 <-> TrimSpace (sc_ID s) <> "" /\ TrimSpace (sc_Type s) <> "" /\ TrimSpace (sc_Profile s) <> "") as H0.
  { unfold r0. clean_simpl. rewrite !bool_decide_eq_false. assert (clean (mkValidation true [] [])) by done. tauto. }
  destruct (if decide (sc_Type s = "message") then _ else _) as [r1|] eqn:H1; [|done]. injection Hr as <-. simpl.
  rewrite bool_decide_eq_true, bool_decide_eq_false. split; [|done]. fold (clean r1). case_decide as Hm.
  - rewrite (message_clean _ _ _ _ _ H1), H0. intuition congruence.
  - case_decide as Ht; [rewrite (ticket_clean _ _ _ _ _ H1), H0; intuition congruence|]. injection H1 as <-. rewrite H0. intuition congruence.
Qed.

Lemma dropSpace_lower l : dropSpace (map lowerChar l) = map lowerChar (dropSpace l).
Proof. induction l as [|c l IH]; simpl; [done|]. rewrite lowerChar_space. by destruct (isSpace c). Qed.

Lemma reverse_lower l : reverse (map lowerChar l) = map lowerChar (reverse l).
Proof. symmetry. apply (fmap_reverse lowerChar). Qed.

Lemma lowerTrim_comm v : lowerTrim v = ToLower (TrimSpace v).
Proof.
  unfold lowerTrim, ToLower, TrimSpace, trim. rewrite !chars_unchars, dropSpace_lower, reverse_lower, dropSpace_lower.
  by rewrite reverse_lower.
Qed.

(** A Discord service that receives interactions is asked for its public key and is
    refused because of that very mode. *)
Lemma discord_interaction_invalid files problemText s r :
  sc_Type s = "message" -> lowerTrim (sc_Adapter s) = "discord" ->
  EqualFold (TrimSpace (opt (sc_Options s) "receive")) "interaction" = true ->
  ValidateServiceConfig files problemText (Some s) = Some r -> vr_Valid r = false.
Proof.
  intros Ht Ha Hi%bool_decide_eq_true. change (ToLower "interaction") with "interaction" in Hi. rewrite <- lowerTrim_comm in Hi.
  unfold ValidateServiceConfig. cbv zeta. rewrite decide_True by done. set (r0 := issue_if _ "service profile is required" _).
  destruct (validateMessageServiceConfig files problemText s r0) as [r1|] eqn:H; [|done]. intros [= <-]. simpl.
  apply bool_decide_eq_false. fold (clean r1). rewrite (message_clean _ _ _ _ _ H). unfold message_ok. rewrite Hi.
  intros (_ & _ & _ & Hin & _). by apply (bool_decide_eq_true_2 _) in Hin.
Qed.

(** ** Resolving a type *)

(** What is resolved names a canonical type and an adapter; without an alias the type is
    the input. *)
Lemma ResolveServiceType_canonical Expand t a r
    (Hexpand : forall aliases x, Expand aliases x = match aliases !! x with Some target => Fields target | None => [x] end) :
  ResolveServiceType Expand t a = Ok r -> rv_Type r ∈ canonicalServiceTypes /\ rv_Adapter r <> "" /\
    (rv_Aliased r = false -> rv_Type r = TrimSpace (ToLower t)).
Proof.
  unfold ResolveServiceType. cbv zeta. set (x := TrimSpace (ToLower t)). case_decide; [done|].
  assert (forall r, resolveCanonical x (TrimSpace (ToLower a)) = Ok r ->
    rv_Type r ∈ canonicalServiceTypes /\ rv_Adapter r <> "" /\ (rv_Aliased r = false -> rv_Type r = x)) as Hc.
  { intros r'. unfold resolveCanonical. case_decide; [|done]. cbv zeta. case_decide; case_decide; try done; by intros [= <-]. }
  rewrite Hexpand. destruct (ServiceTypeAliases !! x) as [target|] eqn:Ht; [|by apply Hc].
  assert (Forall (fun p => forall ty ad, Fields p.2 = [ty; ad] -> ty ∈ canonicalServiceTypes /\ ad <> "") serviceTypeAliases) as Hall.
  { unfold serviceTypeAliases. rewrite !Forall_cons.
    repeat (split; [intros ty ad E; vm_compute in E; injection E as <- <-; split; [by apply (bool_decide_eq_true_1 _)|done]|]). constructor. }
  rewrite Forall_forall in Hall. apply elem_of_list_to_map_2 in Ht. specialize (Hall _ Ht). simpl in Hall.
  destruct (Fields target) as [|ty [|ad [|? ?]]]; try (by apply Hc). case_decide; [by apply Hc|]. case_decide; [done|].
  intros [= <-]. destruct (Hall _ _ eq_refl). done.
Qed.

(** ** Witnesses *)

Definition no_files : Files := mkFiles (fun _ => None) (fun _ _ => None).

Definition sample_service (options env : list (string * string)) : ServiceConfig :=
  mkService "bot" "message" "telegram" "dev" "" (list_to_map env) ∅ (list_to_map options) None None None None.

Definition bot : ServiceConfig :=
  sample_service [("default_action", "answer"); ("receive", "webhook"); ("auth_scheme", "token"); ("auth_token_env", "BOT")]
    [("TELEGRAM_BOT_TOKEN", "secret:bot")].

Lemma service_round_trip_witness :
  SaveService false ∅ (Some (set_id bot " bot ")) = (<["bot.yaml" := Parsed bot]> ∅, Ok bot) /\
  LoadService (<["bot.yaml" := Parsed bot]> ∅) "bot" = Ok bot.
Proof.
  assert (SaveService false ∅ (Some (set_id bot " bot ")) = (<["bot.yaml" := Parsed bot]> ∅, Ok bot)) as H by reflexivity.
  split; [exact H|]. exact (proj1 (service_round_trip _ _ _ _ _ H)).
Defined.

Definition sample_event (status detail : string) : ServiceEventMeta :=
  mkEventMeta 5 "" "m" "telegram" "c" "u" status detail "" 1 3 false "" [] None.

Definition hide (text : string) : string := "***".

Lemma service_health_refines_witness :
  exists s', stored_service (foldl (runRecord hide) {["bot.yaml" := Parsed bot]}
      [OpInbound 1 false "bot" (sample_event "" ""); OpOutbound 2 false "bot" (sample_event "failed" "token 1234");
       OpOutbound 3 true "bot" (sample_event "sent" "")]) "bot" s' /\
    deliveryHealth s' = "failed" /\ redacted hide s'.
Proof.
  destruct (service_health_refines hide
    [OpInbound 1 false "bot" (sample_event "" ""); OpOutbound 2 false "bot" (sample_event "failed" "token 1234");
     OpOutbound 3 true "bot" (sample_event "sent" "")] {["bot.yaml" := Parsed bot]} "bot" bot) as (s' & H1 & _ & H3 & H4).
  - split; [reflexivity|]. repeat split; done.
  - exists s'. split; [exact H1|]. split; [rewrite H3; reflexivity|]. apply H4. by repeat split.
Defined.

Lemma valid_service_iff_witness :
  ValidateServiceConfig no_files (fun _ => "") (Some bot) =
    Some (mkValidation true [] ["reply mode not set; assuming text";
      "telegram webhook secret token not set; Telegram requests will not be secret-token validated"]) /\
  message_ok no_files bot.
Proof.
  assert (ValidateServiceConfig no_files (fun _ => "") (Some bot) =
    Some (mkValidation true [] ["reply mode not set; assuming text";
      "telegram webhook secret token not set; Telegram requests will not be secret-token validated"])) as H by (vm_compute; reflexivity).
  split; [exact H|]. destruct (valid_service_iff _ _ _ _ H) as [[Hv _] _]. destruct (Hv eq_refl) as (_ & _ & _ & Hm & _). by apply Hm.
Defined.
