(* ===== verification/Probe.v ===== *)
(** * The synthetic probe of a message service

    service_probe.go of src/internal/core: the payloads that `aps service test --probe`
    posts at a service, and what they impersonate.

    A payload is what its JSON decodes to, as the webhook reads it: an [amap] whose
    numbers are float64.  The clock is an argument, in nanoseconds, as is the RFC 3339
    text of it. *)

From Stdlib Require Import ZArith Lia String Ascii.
From stdpp Require Import base option list gmap strings.
From S2P Require Import Prelude Text GoValue MsgTypes MsgConfig MsgAuth Normalizer Service.

#[local] Open Scope Z_scope.

Record SyntheticProbeIdentity : Type := mkIdentity {
  pi_Sender : string;
  pi_SenderSource : string;
  pi_Channel : string;
  pi_ChannelSource : string;
  pi_Workspace : string;
  pi_WorkspaceSource : string
}.

Definition probeText : string := "aps service test".
Definition synthetic : string := "synthetic".

Fixpoint firstNonBlank (parts : list string) : string :=
  match parts with
  | [] => ""
  | part :: parts => if decide (TrimSpace part = "") then firstNonBlank parts else TrimSpace part
  end.

Definition csvParts (options : smap) (key : string) : list string := map unchars (splitOn ","%char (chars (opt options key))).

Definition firstCSVOption (options : smap) (key : string) : string := firstNonBlank (csvParts options key).

Definition firstLiteralCSVOption (options : smap) (key : string) : string :=
  firstNonBlank (filter (fun part => ContainsAny (TrimSpace part) "*?[" = false) (csvParts options key)).

(** The first entry of the option with the option as its source, or the placeholder. *)
Definition impersonate (allowed key placeholder : string) : string * string :=
  if decide (allowed = "") then (placeholder, synthetic) else (allowed, key).

(** The time in seconds. *)
Definition unixSeconds (now : Z) : Z := now / Second - 62135596800.

Definition jsonInt (z : Z) : any := AFloat (itof z).

Section Probes.
Variable FormatRFC3339 : Z -> string.

Definition syntheticTelegramProbe (now : Z) (options : smap) : Res string (amap * SyntheticProbeIdentity) :=
  let senderID := 1001 in
  let allowed := firstCSVOption options "allowed_chats" in
  let payload (chatID : Z) (channel source : string) :=
    ([("update_id", jsonInt 1000001);
      ("message", AMap
        [("message_id", jsonInt 1);
         ("from", AMap [("id", jsonInt senderID); ("first_name", AStr "APS")]);
         ("chat", AMap [("id", jsonInt chatID); ("type", AStr (if decide (chatID > 0) then "private" else "group"))]);
         ("date", jsonInt (unixSeconds now)); ("text", AStr probeText)])],
     mkIdentity (FormatInt senderID) synthetic channel source "" "") in
  if decide (allowed = "") then Ok (payload (-1001234567890) (FormatInt (-1001234567890)) synthetic)
  else match ParseInt allowed with
       | (chatID, None) => Ok (payload chatID allowed "allowed_chats")
       | (_, Some _) => Err ("allowed_chats entry " +:+ Quote allowed +:+ " is not a numeric Telegram chat id")
       end.

(** A field with [omitempty]. *)
Definition omitempty (key value : string) : amap := if decide (value = "") then [] else [(key, AStr value)].

Definition syntheticSlackProbe (now : Z) (options : smap) : amap * SyntheticProbeIdentity :=
  let '(channel, channelSource) := impersonate (firstCSVOption options "allowed_channels") "allowed_channels" "C012TEST" in
  let guild := firstCSVOption options "allowed_guilds" in
  let mention := truthyServiceOption (opt options "require_bot_mention") in
  let botUserID := TrimSpace (opt options "bot_user_id") in
  let type := if mention then "app_mention" else "message" in
  let text := if mention && negb (bool_decide (botUserID = "")) then "<@" +:+ botUserID +:+ "> " +:+ probeText else probeText in
  ([("type", AStr "event_callback")] ++ omitempty "team_id" guild ++
   [("event", AMap
      [("type", AStr type); ("client_msg_id", AStr "aps-service-test"); ("user", AStr "U012TEST"); ("channel", AStr channel);
       ("text", AStr text); ("ts", AStr (FormatInt (unixSeconds now) +:+ ".000000"))])],
   mkIdentity "U012TEST" synthetic channel channelSource guild (if decide (guild = "") then "" else "allowed_guilds")).

Definition syntheticDiscordProbe (now : Z) (options : smap) : amap * SyntheticProbeIdentity :=
  let '(channel, channelSource) := impersonate (firstCSVOption options "allowed_channels") "allowed_channels" "123456789012345678" in
  let guild := firstCSVOption options "allowed_guilds" in
  ([("id", AStr "aps-service-test"); ("channel_id", AStr channel)] ++ omitempty "guild_id" guild ++
   [("content", AStr probeText); ("author", AMap [("id", AStr "987654321098765432"); ("username", AStr "aps")]);
    ("timestamp", AStr (FormatRFC3339 now))],
   mkIdentity "987654321098765432" synthetic channel channelSource guild (if decide (guild = "") then "" else "allowed_guilds")).

Definition syntheticPhoneProbe (options : smap) : amap * SyntheticProbeIdentity :=
  let '(sender, senderSource) := impersonate (firstCSVOption options "allowed_numbers") "allowed_numbers" "+15550100001" in
  let '(channel, channelSource) := impersonate (TrimSpace (opt options "from")) "from" "+15550100002" in
  ([("MessageSid", AStr "SMAPS000000000000000000000000000000"); ("From", AStr sender); ("To", AStr channel); ("Body", AStr probeText)],
   mkIdentity sender senderSource channel channelSource "" "").

Definition syntheticWhatsAppCloudProbe (now : Z) (options : smap) : amap * SyntheticProbeIdentity :=
  let '(sender, senderSource) := impersonate (firstCSVOption options "allowed_numbers") "allowed_numbers" "15550100001" in
  let '(channel, channelSource) := impersonate (TrimSpace (opt options "phone_number_id")) "phone_number_id" "123456789012345" in
  let displayNumber := if decide (TrimSpace (opt options "from") = "") then "+15550100002" else TrimSpace (opt options "from") in
  ([("object", AStr "whatsapp_business_account");
    ("entry", AList [AMap
      [("id", AStr "123456789000000");
       ("changes", AList [AMap
         [("field", AStr "messages");
          ("value", AMap
            [("messaging_product", AStr "whatsapp");
             ("metadata", AMap [("display_phone_number", AStr displayNumber); ("phone_number_id", AStr channel)]);
             ("contacts", AList [AMap [("profile", AMap [("name", AStr "APS")]); ("wa_id", AStr sender)]]);
             ("messages", AList [AMap
               [("from", AStr sender); ("id", AStr "wamid.APS000000000000000000000000000001");
                ("timestamp", jsonInt (unixSeconds now)); ("type", AStr "text"); ("text", AMap [("body", AStr probeText)])]])])]])]])],
   mkIdentity sender senderSource channel channelSource "" "").

Definition syntheticEmailProbe (now : Z) (options : smap) : amap * SyntheticProbeIdentity :=
  let '(sender, senderSource) := impersonate (firstLiteralCSVOption options OptionAllowedSenders) OptionAllowedSenders "service-test@aps.local" in
  let '(channel, channelSource) := impersonate (TrimSpace (opt options "from")) "from" "inbox@aps.local" in
  ([("message_id", AStr ("<aps-service-test-" +:+ FormatInt (UnixNano now) +:+ "@aps.local>"));
    ("from", AStr ("APS Service Test <" +:+ sender +:+ ">")); ("to", AStr channel); ("subject", AStr probeText);
    ("body", AStr probeText); ("date", AStr (FormatRFC3339 now))],
   mkIdentity sender senderSource channel channelSource "" "").

Definition SyntheticMessageWebhookPayload (now : Z) (adapter : string) (options : smap) :
    Res string (amap * SyntheticProbeIdentity) :=
  let adapter := lowerTrim adapter in
  if decide (adapter = "telegram") then syntheticTelegramProbe now options
  else if decide (adapter = "slack") then Ok (syntheticSlackProbe now options)
  else if decide (adapter = "discord") then Ok (syntheticDiscordProbe now options)
  else if decide (adapter = "sms") then Ok (syntheticPhoneProbe options)
  else if decide (adapter = "email") then Ok (syntheticEmailProbe now options)
  else if decide (adapter = "whatsapp")
       then Ok (if EqualFold (TrimSpace (opt options "provider")) "twilio" then syntheticPhoneProbe options
                else syntheticWhatsAppCloudProbe now options)
  else Err ("no synthetic webhook payload for message adapter " +:+ Quote adapter).

Definition SyntheticServiceWebhookPayload (now : Z) (service : option ServiceConfig) : Res string (amap * SyntheticProbeIdentity) :=
  match service with
  | None => Err "service is required"
  | Some s => SyntheticMessageWebhookPayload now (sc_Adapter s) (sc_Options s)
  end.
End Probes.

(** ** What the probe impersonates *)

Lemma firstNonBlank_empty parts : firstNonBlank parts = "" <-> filter (fun p => p <> "") (map TrimSpace parts) = [].
Proof.
  induction parts as [|p parts IH]; simpl; [done|]. rewrite filter_cons. case_decide as H.
  - rewrite decide_False by (rewrite H; by intros []). done.
  - rewrite decide_True by done. by split.
Qed.

Lemma firstNonBlank_in parts : firstNonBlank parts <> "" ->
  exists p, p ∈ parts /\ TrimSpace p = firstNonBlank parts.
Proof.
  induction parts as [|p parts IH]; simpl; [done|]. case_decide as H.
  - intros (q & ? & ?)%IH. exists q. split; [by right|done].
  - intros _. exists p. split; [by left|done].
Qed.

Lemma csvParts_splitCSV opts key : splitCSV (opt opts key) = filter (fun p => p <> "") (map TrimSpace (csvParts opts key)).
Proof. unfold splitCSV, csvParts. by rewrite map_map. Qed.

Lemma firstCSV_in opts key :
  firstCSVOption opts key <> "" -> TrimSpace (firstCSVOption opts key) = firstCSVOption opts key /\
    firstCSVOption opts key ∈ splitCSV (opt opts key).
Proof.
  unfold firstCSVOption. intros H. destruct (firstNonBlank_in _ H) as (p & Hp & E). rewrite <- E in *.
  split; [apply TrimSpace_idem|]. rewrite csvParts_splitCSV. apply list_elem_of_filter. split; [done|].
  by apply list_elem_of_fmap_2.
Qed.

Lemma listed_impersonated opts key placeholder values :
  (impersonate (firstCSVOption opts key) key placeholder).1 ∈ values -> listed opts key values.
Proof.
  unfold impersonate, listed. case_decide as H; simpl.
  - intros _. left. rewrite csvParts_splitCSV. by apply firstNonBlank_empty.
  - intros Hin. right. destruct (firstCSV_in _ _ H) as [Ht Hi]. exists (firstCSVOption opts key). by rewrite Ht.
Qed.

Lemma impersonate_nonempty allowed key placeholder : placeholder <> "" -> (impersonate allowed key placeholder).1 <> "".
Proof. unfold impersonate. by case_decide. Qed.

(** The lists are not configured. *)
Definition unlisted (opts : smap) (keys : list string) : Prop := Forall (fun k => splitCSV (opt opts k) = []) keys.

Lemma unlisted_listed opts keys k values : unlisted opts keys -> k ∈ keys -> listed opts k values.
Proof. intros H Hk. left. by apply (proj1 (Forall_forall _ _) H). Qed.

Section Covered.
Context `{ME : MsgEnv}.

(** The first chat of a Telegram service is an id as the platform writes it, and one that a
    float64 holds exactly. *)
Definition chat_exact (opts : smap) : Prop :=
  forall id, ParseInt (firstCSVOption opts "allowed_chats") = (id, None) ->
    FormatInt id = firstCSVOption opts "allowed_chats" /\ trunc (itof id) = Some id.

(** The senders of an email service start with an address that the parser of addresses
    reads back, or are not configured. *)
Definition sender_readable (opts : smap) : Prop :=
  let sender := firstLiteralCSVOption opts OptionAllowedSenders in
  splitCSV (opt opts "allowed_senders") = [] \/
  sender <> "" /\ ValidateAllowedSenderPattern sender = true /\ ParseAddress ("APS Service Test <" +:+ sender +:+ ">") = Some sender.

(** The options of a service restrict nothing but what the probe of its adapter
    impersonates. *)
Definition probe_covers (adapter : string) (opts : smap) : Prop :=
  (adapter = "telegram" -> chat_exact opts /\
     unlisted opts ["allowed_channels"; "allowed_guilds"; "allowed_numbers"; "allowed_senders"]) /\
  (adapter = "slack" \/ adapter = "discord" -> unlisted opts ["allowed_chats"; "allowed_numbers"; "allowed_senders"]) /\
  (adapter = "sms" \/ adapter = "whatsapp" -> unlisted opts ["allowed_channels"; "allowed_guilds"; "allowed_chats"; "allowed_senders"]) /\
  (adapter = "whatsapp" -> EqualFold (TrimSpace (opt opts "provider")) "twilio" = true ->
     TrimSpace (opt opts "phone_number_id") = "" \/ TrimSpace (opt opts "phone_number_id") = TrimSpace (opt opts "from")) /\
  (adapter = "email" -> sender_readable opts /\
     unlisted opts ["allowed_channels"; "allowed_guilds"; "allowed_chats"; "allowed_numbers"]).

Lemma unlisted_senders opts keys candidates : unlisted opts keys -> "allowed_senders" ∈ keys -> sender_listed opts candidates.
Proof. intros H Hk. left. by apply (proj1 (Forall_forall _ _) H). Qed.

(** A literal entry admits the address it spells. *)
Lemma literal_admits sender : ValidateAllowedSenderPattern sender = true -> TrimSpace sender = sender ->
  admits sender (ToLower sender).
Proof.
  unfold ValidateAllowedSenderPattern. intros H Ht. rewrite Ht in H. destruct (Cut sender "@"%char) as [[l d] ok] eqn:E.
  case_match eqn:Eb; [done|]. apply orb_false_iff in Eb as [[[Hok Hl]%orb_false_iff Hd]%orb_false_iff _].
  apply negb_false_iff in Hok. subst ok. apply bool_decide_eq_false in Hl, Hd. apply Cut_found in E as [Ec Hn].
  assert ("@"%char ∉ map lowerChar (chars l)) as Hn'.
  { intros (c & Hc & Hin)%list_elem_of_fmap. assert (c = "@"%char) as ->; [|done].
    unfold lowerChar in Hc. case_bool_decide as Hr; [|done]. exfalso. apply (f_equal N_of_ascii) in Hc.
    rewrite N_ascii_embedding in Hc by lia. change (N_of_ascii "@"%char) with 64%N in Hc. lia. }
  exists (ToLower l), (ToLower d), (ToLower l). unfold ToLower. rewrite !chars_unchars, Ht, Ec, map_app. simpl.
  repeat split; try done; [|by right]. intros H0%unchars_nil. apply map_eq_nil in H0. by apply chars_nil in H0.
Qed.

Context `{FL : Float64}.
Variable FormatRFC3339 : Z -> string.
Variable parse : string -> string -> option Z.

(** The message of a probe: normalized, from the identity it impersonates, and allowed. *)
Definition accepted_probe (later : Z) (adapter : string) (service : ServiceValidationConfig) (probe : amap * SyntheticProbeIdentity) : Prop :=
  exists m, Normalize parse later adapter (Some probe.1) = Ok m /\
    (sn_ID (nm_Sender m) = pi_Sender probe.2 \/ sn_ID (nm_Sender m) = "APS Service Test <" +:+ pi_Sender probe.2 +:+ ">") /\
    cn_ID (nm_Channel m) = pi_Channel probe.2 /\ nm_WorkspaceID m = pi_Workspace probe.2 /\
    ValidateMessage service (Some m) = None.

(** A valid message of a platform is what [Normalize] returns. *)
Lemma Normalize_valid later platform raw f m :
  normalizePlatform parse platform = Some f -> f later raw = Ok m -> NormalizedMessage_Validate m = Ok tt ->
  Normalize parse later platform (Some raw) = Ok m.
Proof. unfold Normalize. by intros -> -> ->. Qed.

Lemma Validate_Ok m :
  nm_ID m <> "" -> nm_Platform m <> "" -> sn_ID (nm_Sender m) <> "" -> cn_ID (nm_Channel m) <> "" -> NormalizedMessage_Validate m = Ok tt.
Proof. unfold NormalizedMessage_Validate. intros. by rewrite !decide_False. Qed.

Lemma msgStamp_nonempty later : msgStamp later <> "".
Proof. by unfold msgStamp. Qed.

Lemma itof_small z : trunc (itof z) = Some z -> int64_range z -> ftoi (itof z) = z.
Proof. unfold ftoi, int64_in. intros -> H. by rewrite bool_decide_true. Qed.

Lemma telegram_accepted now later service probe :
  TrimSpace (sv_ID service) <> "" -> sv_Adapter service = "telegram" -> probe_covers "telegram" (sv_Options service) ->
  syntheticTelegramProbe now (sv_Options service) = Ok probe -> accepted_probe later "telegram" service probe.
Proof.
  intros Hid Ha [Hc _] Hp. destruct (Hc eq_refl) as [Hchat Hun]. clear Hc. set (opts := sv_Options service) in *.
  assert (exists id, trunc (itof id) = Some id /\ int64_range id /\ pi_Sender probe.2 = "1001" /\ pi_Workspace probe.2 = "" /\
    pi_Channel probe.2 = FormatInt id /\ (impersonate (firstCSVOption opts "allowed_chats") "allowed_chats" (FormatInt (-1001234567890))).1 = FormatInt id /\
    probe.1 = [("update_id", jsonInt 1000001);
      ("message", AMap
        [("message_id", jsonInt 1); ("from", AMap [("id", jsonInt 1001); ("first_name", AStr "APS")]);
         ("chat", AMap [("id", jsonInt id); ("type", AStr (if decide (id > 0) then "private" else "group"))]);
         ("date", jsonInt (unixSeconds now)); ("text", AStr probeText)])]) as (id & Ht & Hr & Hs & Hw & Hch & Himp & Hraw).
  { unfold syntheticTelegramProbe in Hp. cbv zeta in Hp. unfold impersonate. case_decide as E.
    - injection Hp as <-. exists (-1001234567890). repeat split; done.
    - pose proof (ParseInt_range (firstCSVOption opts "allowed_chats")) as Hr.
      destruct (ParseInt (firstCSVOption opts "allowed_chats")) as [id [err|]] eqn:Ei; [done|]. injection Hp as <-.
      destruct (Hchat _ Ei) as [Hf Ht]. exists id. simpl. rewrite Hf. repeat split; done || apply Hr. }
  unfold accepted_probe. rewrite Hraw, Hs, Hw, Hch. eexists. split.
  { eapply Normalize_valid; [reflexivity|reflexivity|]. apply Validate_Ok; [apply msgStamp_nonempty|done|by vm_compute|apply FormatInt_nonempty]. }
  split; [by left|].
  assert (getInt64 [("id", jsonInt id); ("type", AStr (if decide (id > 0) then "private" else "group"))] "id" = id) as Hid64.
  { by apply itof_small. }
  split; [exact (f_equal FormatInt Hid64)|]. split; [done|]. apply ValidateMessage_iff; [done|]. fold opts.
  cbn [nm_Channel nm_Sender cn_ID cn_PlatformID sn_ID sn_PlatformID sn_PlatformHandle nm_WorkspaceID app]. rewrite Hid64, Ha.
  assert (forall k vs, k ∈ ["allowed_channels"; "allowed_guilds"; "allowed_numbers"; "allowed_senders"] -> listed opts k vs) as Hl
    by (intros k vs; apply unlisted_listed; exact Hun).
  repeat split; try done; try (apply Hl; by apply (bool_decide_eq_true_1 _)).
  - apply (listed_impersonated _ _ (FormatInt (-1001234567890))). rewrite Himp. by left.
  - eapply unlisted_senders; [exact Hun|by apply (bool_decide_eq_true_1 _)].
Qed.
Lemma impersonated opts key placeholder v source :
  impersonate (firstCSVOption opts key) key placeholder = (v, source) -> placeholder <> "" ->
  v <> "" /\ forall vs, v ∈ vs -> listed opts key vs.
Proof.
  intros E Hp. pose proof (impersonate_nonempty (firstCSVOption opts key) key placeholder Hp) as H. rewrite E in H.
  split; [done|]. intros vs Hv. apply (listed_impersonated _ _ placeholder). by rewrite E.
Qed.

Lemma guild_listed opts vs : firstCSVOption opts "allowed_guilds" ∈ vs -> listed opts "allowed_guilds" vs.
Proof. intros H. apply (listed_impersonated _ _ ""). unfold impersonate. case_decide as E; [|done]. by rewrite E in H. Qed.

Lemma slack_accepted now later service :
  TrimSpace (sv_ID service) <> "" -> sv_Adapter service = "slack" -> probe_covers "slack" (sv_Options service) ->
  accepted_probe later "slack" service (syntheticSlackProbe now (sv_Options service)).
Proof.
  intros Hid Ha (_ & Hc & _). pose proof (Hc (or_introl eq_refl)) as Hun. clear Hc. set (opts := sv_Options service) in *.
  unfold syntheticSlackProbe. destruct (impersonate (firstCSVOption opts "allowed_channels") _ _) as [channel source] eqn:Ei.
  apply impersonated in Ei as [Hne Hl]; [|done]. cbv zeta. set (guild := firstCSVOption opts "allowed_guilds").
  set (mention := truthyServiceOption (opt opts "require_bot_mention")).
  set (text := if mention && _ then _ else probeText).
  set (raw := [("type", AStr "event_callback")] ++ omitempty "team_id" guild ++ _).
  assert (getString raw "team_id" = guild) as Eg.
  { unfold raw, omitempty. case_decide as E; [|reflexivity]. by rewrite E. }
  assert (getMap raw "event" = Some [("type", AStr (if mention then "app_mention" else "message")); ("client_msg_id", AStr "aps-service-test");
    ("user", AStr "U012TEST"); ("channel", AStr channel); ("text", AStr text); ("ts", AStr (FormatInt (unixSeconds now) +:+ ".000000"))]) as Ee.
  { unfold raw, omitempty. by case_decide. }
  assert (exists x, normalizeSlack later raw = Ok x /\ nm_ID x = "aps-service-test" /\ nm_Platform x = "slack" /\
    nm_WorkspaceID x = guild /\ sn_ID (nm_Sender x) = "U012TEST" /\ cn_ID (nm_Channel x) = channel /\
    (mention = true -> slackBotMentioned x (opt opts "bot_user_id") = true)) as (x & Hx & H1 & H2 & H3 & H4 & H5 & H6).
  { unfold normalizeSlack. rewrite Ee. cbv zeta. rewrite decide_False by (intros [E|E]; [done|by apply Hne]).
    eexists. split; [reflexivity|]. split; [reflexivity|]. split; [reflexivity|]. split; [exact Eg|]. split; [reflexivity|]. split; [reflexivity|].
    intros ->. unfold slackBotMentioned. cbv zeta. cbn [nm_PlatformMetadata]. change (default [] (Some ?x)) with x. by rewrite mget_mset. }
  clearbody raw. unfold accepted_probe. cbn [fst snd pi_Sender pi_Channel pi_Workspace]. exists x. split.
  { eapply Normalize_valid; [reflexivity|exact Hx|]. apply Validate_Ok; congruence. }
  split; [by left|]. split; [done|]. split; [done|]. apply ValidateMessage_iff; [done|]. fold opts.
  rewrite H3, H5, Ha. repeat split; try done.
  - apply Hl. by left.
  - apply guild_listed. by left.
  - eapply unlisted_listed; [exact Hun|by apply (bool_decide_eq_true_1 _)].
  - eapply unlisted_listed; [exact Hun|by apply (bool_decide_eq_true_1 _)].
  - eapply unlisted_senders; [exact Hun|by apply (bool_decide_eq_true_1 _)].
  - intros _ Hm. right. by apply H6.
Qed.

Lemma discord_accepted now later service :
  TrimSpace (sv_ID service) <> "" -> sv_Adapter service = "discord" -> probe_covers "discord" (sv_Options service) ->
  accepted_probe later "discord" service (syntheticDiscordProbe FormatRFC3339 now (sv_Options service)).
Proof.
  intros Hid Ha (_ & Hc & _). pose proof (Hc (or_intror eq_refl)) as Hun. clear Hc. set (opts := sv_Options service) in *.
  unfold syntheticDiscordProbe. destruct (impersonate (firstCSVOption opts "allowed_channels") _ _) as [channel source] eqn:Ei.
  apply impersonated in Ei as [Hne Hl]; [|done]. cbv zeta. set (guild := firstCSVOption opts "allowed_guilds").
  set (raw := [("id", AStr "aps-service-test"); ("channel_id", AStr channel)] ++ omitempty "guild_id" guild ++ _).
  assert (discordMessageCreatePayload raw = raw /\ getString raw "guild_id" = guild /\ getString raw "channel_id" = channel /\
    getString raw "id" = "aps-service-test" /\
    getMap raw "author" = Some [("id", AStr "987654321098765432"); ("username", AStr "aps")]) as (Er & Eg & Ec & Eid & Ea).
  { unfold raw, omitempty. case_decide as E; repeat split; try reflexivity. by rewrite E. }
  clearbody raw.
  assert (exists x, normalizeDiscord parse later raw = Ok x /\ nm_ID x = "aps-service-test" /\ nm_Platform x = "discord" /\
    nm_WorkspaceID x = guild /\ sn_ID (nm_Sender x) = "987654321098765432" /\ cn_ID (nm_Channel x) = channel)
    as (x & Hx & H1 & H2 & H3 & H4 & H5).
  { unfold normalizeDiscord. rewrite Er, Ea, Ec, Eg, Eid. cbv zeta. rewrite decide_False by (intros [E|E]; [done|by apply Hne]).
    eexists. by repeat split. }
  unfold accepted_probe. cbn [fst snd pi_Sender pi_Channel pi_Workspace]. exists x. split.
  { eapply Normalize_valid; [reflexivity|exact Hx|]. apply Validate_Ok; congruence. }
  split; [by left|]. split; [done|]. split; [done|]. apply ValidateMessage_iff; [done|]. fold opts.
  rewrite H3, H5, Ha. repeat split; try done.
  - apply Hl. by left.
  - apply guild_listed. by left.
  - eapply unlisted_listed; [exact Hun|by apply (bool_decide_eq_true_1 _)].
  - eapply unlisted_listed; [exact Hun|by apply (bool_decide_eq_true_1 _)].
  - eapply unlisted_senders; [exact Hun|by apply (bool_decide_eq_true_1 _)].
Qed.
Lemma phone_accepted later platform service :
  TrimSpace (sv_ID service) <> "" -> sv_Adapter service = platform -> platform = "sms" \/ platform = "whatsapp" ->
  probe_covers platform (sv_Options service) ->
  (platform = "whatsapp" -> TrimSpace (opt (sv_Options service) "phone_number_id") = "" \/
     TrimSpace (opt (sv_Options service) "phone_number_id") = TrimSpace (opt (sv_Options service) "from")) ->
  accepted_probe later platform service (syntheticPhoneProbe (sv_Options service)).
Proof.
  intros Hid Ha Hplat (_ & _ & Hc & _) Hphone. pose proof (Hc Hplat) as Hun. clear Hc. set (opts := sv_Options service) in *.
  unfold syntheticPhoneProbe. destruct (impersonate (firstCSVOption opts "allowed_numbers") _ _) as [sender source] eqn:Ei.
  apply impersonated in Ei as [Hne Hl]; [|done].
  destruct (impersonate (TrimSpace (opt opts "from")) "from" "+15550100002") as [channel csource] eqn:Ec.
  assert (channel <> "" /\ (TrimSpace (opt opts "from") <> "" -> channel = TrimSpace (opt opts "from"))) as [Hcn Hcf].
  { unfold impersonate in Ec. case_decide as E; injection Ec as <- <-; [by split|]. by split. }
  set (raw := [("MessageSid", _); ("From", AStr sender); _; _]).
  assert (exists x, normalizePhoneMessage platform later raw = Ok x /\ nm_ID x = "SMAPS000000000000000000000000000000" /\ nm_Platform x = platform /\
    nm_WorkspaceID x = "" /\ sn_ID (nm_Sender x) = sender /\ cn_ID (nm_Channel x) = channel)
    as (x & Hx & H1 & H2 & H3 & H4 & H5).
  { unfold normalizePhoneMessage. cbv zeta.
    assert (firstNonEmptyString [getString raw "From"; getString raw "from"] = sender) as -> by (simpl; by rewrite decide_False).
    assert (firstNonEmptyString [getString raw "To"; getString raw "to"] = channel) as -> by (simpl; by rewrite decide_False).
    rewrite !(decide_False (P := _ = "")) by done. rewrite decide_False by (intros [E _]; by vm_compute in E).
    eexists. by repeat split. }
  assert (normalizePlatform parse platform = Some (normalizePhoneMessage platform) \/
    platform = "whatsapp" /\ normalizePlatform parse platform = Some normalizeWhatsApp) as Hn
    by (destruct Hplat as [-> | ->]; [by left|by right]).
  assert (normalizeWhatsApp later raw = normalizePhoneMessage PlatformWhatsApp later raw) as Hw by reflexivity.
  unfold accepted_probe. cbn [fst snd pi_Sender pi_Channel pi_Workspace]. clearbody raw. exists x. split.
  { assert (NormalizedMessage_Validate x = Ok tt) as Hv.
    { apply Validate_Ok; [congruence| |congruence|congruence]. rewrite H2. by destruct Hplat as [-> | ->]. }
    destruct Hn as [Hn|[Ew Hn]]; (eapply Normalize_valid; [exact Hn| |exact Hv]); [done|]. subst platform. by rewrite Hw, Ew in *. }
  split; [by left|]. split; [done|]. split; [done|]. apply ValidateMessage_iff; [done|]. fold opts. rewrite H3, H4, H5.
  repeat split.
  - eapply unlisted_listed; [exact Hun|by apply (bool_decide_eq_true_1 _)].
  - eapply unlisted_listed; [exact Hun|by apply (bool_decide_eq_true_1 _)].
  - eapply unlisted_listed; [exact Hun|by apply (bool_decide_eq_true_1 _)].
  - apply Hl. by left.
  - eapply unlisted_senders; [exact Hun|by apply (bool_decide_eq_true_1 _)].
  - intros Hwa Hp. exists channel. split; [by left|]. rewrite Ha in Hwa. destruct (Hphone Hwa) as [E|E]; [done|].
    assert (channel = TrimSpace (opt opts "phone_number_id")) as -> by (rewrite E; apply Hcf; by rewrite <- E). apply TrimSpace_idem.
  - intros Hs. rewrite Ha in Hs. by destruct Hplat as [-> | ->].
Qed.

Lemma cloud_accepted now later service :
  TrimSpace (sv_ID service) <> "" -> sv_Adapter service = "whatsapp" -> probe_covers "whatsapp" (sv_Options service) ->
  accepted_probe later "whatsapp" service (syntheticWhatsAppCloudProbe now (sv_Options service)).
Proof.
  intros Hid Ha (_ & _ & Hc & _). pose proof (Hc (or_intror eq_refl)) as Hun. clear Hc. set (opts := sv_Options service) in *.
  unfold syntheticWhatsAppCloudProbe. destruct (impersonate (firstCSVOption opts "allowed_numbers") _ _) as [sender source] eqn:Ei.
  apply impersonated in Ei as [Hne Hl]; [|done].
  destruct (impersonate (TrimSpace (opt opts "phone_number_id")) _ _) as [channel csource] eqn:Ec.
  assert (channel <> "" /\ (TrimSpace (opt opts "phone_number_id") <> "" -> channel = TrimSpace (opt opts "phone_number_id"))) as [Hcn Hcf].
  { unfold impersonate in Ec. case_decide as E; injection Ec as <- <-; [by split|]. by split. }
  cbv zeta. set (display := if decide _ then _ else _).
  unfold accepted_probe. cbn [fst snd pi_Sender pi_Channel pi_Workspace].
  set (message := [("from", AStr sender); _; _; _; _]). set (metadata := [("display_phone_number", _); _]).
  set (value := [("messaging_product", _); _; _; _]). set (change := [("field", _); _]). set (entry := [("id", AStr "123456789000000"); _]).
  set (raw := [("object", _); _]).
  assert (exists x, normalizeWhatsApp later raw = Ok x /\ nm_ID x = "wamid.APS000000000000000000000000000001" /\ nm_Platform x = "whatsapp" /\
    nm_WorkspaceID x = "" /\ sn_ID (nm_Sender x) = sender /\ cn_ID (nm_Channel x) = channel)
    as (x & Hx & H1 & H2 & H3 & H4 & H5).
  { unfold normalizeWhatsApp. assert (firstMap raw "entry" = Some entry) as -> by reflexivity.
    unfold normalizeWhatsAppCloud. assert (firstMap entry "changes" = Some change) as -> by reflexivity.
    assert (getMap change "value" = Some value) as -> by reflexivity.
    assert (firstMap value "messages" = Some message) as -> by reflexivity. cbv zeta.
    assert (getString message "from" = sender) as -> by reflexivity. rewrite decide_False by done.
    assert (getMap value "metadata" = Some metadata) as -> by reflexivity.
    assert (firstNonEmptyString [getStringOf (Some metadata) "phone_number_id"; getStringOf (Some metadata) "display_phone_number"] = channel)
      as -> by (simpl; by rewrite decide_False).
    rewrite decide_False by done. eexists. by repeat split. }
  clearbody raw. exists x. split.
  { eapply Normalize_valid; [reflexivity|exact Hx|]. apply Validate_Ok; congruence. }
  split; [by left|]. split; [done|]. split; [done|]. apply ValidateMessage_iff; [done|]. fold opts. rewrite H3, H4, H5, Ha.
  repeat split; try done.
  - eapply unlisted_listed; [exact Hun|by apply (bool_decide_eq_true_1 _)].
  - eapply unlisted_listed; [exact Hun|by apply (bool_decide_eq_true_1 _)].
  - eapply unlisted_listed; [exact Hun|by apply (bool_decide_eq_true_1 _)].
  - apply Hl. by left.
  - eapply unlisted_senders; [exact Hun|by apply (bool_decide_eq_true_1 _)].
  - intros _ Hp. exists channel. split; [by left|]. rewrite (Hcf Hp). apply TrimSpace_idem.
Qed.

Lemma firstLiteral_in opts key :
  firstLiteralCSVOption opts key <> "" -> TrimSpace (firstLiteralCSVOption opts key) = firstLiteralCSVOption opts key /\
    firstLiteralCSVOption opts key ∈ splitCSV (opt opts key).
Proof.
  unfold firstLiteralCSVOption. intros H. destruct (firstNonBlank_in _ H) as (p & [_ Hp]%list_elem_of_filter & E). rewrite <- E in *.
  split; [apply TrimSpace_idem|]. rewrite csvParts_splitCSV. apply list_elem_of_filter. split; [done|].
  by apply list_elem_of_fmap_2.
Qed.

Lemma display_nonblank sender : TrimSpace ("APS Service Test <" +:+ sender +:+ ">") = "APS Service Test <" +:+ sender +:+ ">".
Proof.
  apply trimmed_TrimSpace. unfold trimmed. rewrite !chars_app. split; [done|]. rewrite app_assoc, reverse_app. done.
Qed.

Lemma email_accepted now later service :
  TrimSpace (sv_ID service) <> "" -> sv_Adapter service = "email" -> probe_covers "email" (sv_Options service) ->
  accepted_probe later "email" service (syntheticEmailProbe FormatRFC3339 now (sv_Options service)).
Proof.
  intros Hid Ha (_ & _ & _ & _ & Hc). destruct (Hc eq_refl) as [Hsend Hun]. clear Hc. set (opts := sv_Options service) in *.
  unfold syntheticEmailProbe. destruct (impersonate (firstLiteralCSVOption opts OptionAllowedSenders) _ _) as [sender source] eqn:Ei.
  destruct (impersonate (TrimSpace (opt opts "from")) _ _) as [channel csource] eqn:Ec.
  assert (channel <> "") as Hcn by (unfold impersonate in Ec; case_decide; by injection Ec as <- <-).
  set (from := "APS Service Test <" +:+ sender +:+ ">").
  set (raw := [("message_id", _); ("from", AStr from); _; _; _; _]).
  assert (exists x, normalizeEmail later raw = Ok x /\ nm_ID x = msgStamp later /\ nm_Platform x = "email" /\
    nm_WorkspaceID x = "" /\ sn_ID (nm_Sender x) = from /\ sn_PlatformID (nm_Sender x) = from /\ cn_ID (nm_Channel x) = channel)
    as (x & Hx & H1 & H2 & H3 & H4 & H4' & H5).
  { unfold normalizeEmail. assert (getString raw "from" = from) as -> by reflexivity. assert (getString raw "to" = channel) as -> by reflexivity.
    cbv zeta. rewrite (decide_False (P := from = "")) by done. rewrite decide_False by done. eexists. by repeat split. }
  unfold accepted_probe. cbn [fst snd pi_Sender pi_Channel pi_Workspace]. clearbody raw. exists x. split.
  { eapply Normalize_valid; [reflexivity|exact Hx|]. apply Validate_Ok; [rewrite H1; apply msgStamp_nonempty|congruence|by rewrite H4|congruence]. }
  split; [by right|]. split; [done|]. split; [done|]. apply ValidateMessage_iff; [done|]. fold opts. rewrite H3, H4, H4', H5, Ha.
  assert (forall k vs, k ∈ ["allowed_channels"; "allowed_guilds"; "allowed_chats"; "allowed_numbers"] -> listed opts k vs) as Hl
    by (intros k vs; apply unlisted_listed; exact Hun).
  repeat split; try done; try (apply Hl; by apply (bool_decide_eq_true_1 _)).
  destruct Hsend as [H|(Hne & Hv & Hp)]; [by left|]. unfold impersonate in Ei. rewrite decide_False in Ei by done. injection Ei as <- <-.
  destruct (firstLiteral_in opts OptionAllowedSenders Hne) as [Ht Hin]. right.
  exists from, (firstLiteralCSVOption opts OptionAllowedSenders). split; [by left|]. split; [done|].
  unfold normalizeEmailAddress. cbv zeta. unfold from. rewrite display_nonblank, decide_False by done. rewrite Hp. by apply literal_admits.
Qed.

(** The probe of a message service passes the checks of that service.  For every
    known adapter the synthetic payload normalizes to a message from the sender, channel
    and workspace it reports, and the allow lists of the service let that message
    through, whenever the service restricts nothing but what its probe impersonates. *)
Theorem probe_accepted now later service probe
    (Hid : TrimSpace (sv_ID service) <> "") (Hknown : sv_Adapter service ∈ knownMessageAdapters)
    (Hcovers : probe_covers (sv_Adapter service) (sv_Options service))
    (Hprobe : SyntheticMessageWebhookPayload FormatRFC3339 now (sv_Adapter service) (sv_Options service) = Ok probe) :
  accepted_probe later (sv_Adapter service) service probe.
Proof.
  pose proof Hcovers as (_ & _ & _ & Htw & _). unfold knownMessageAdapters in Hknown. rewrite !elem_of_cons, elem_of_nil in Hknown.
  destruct Hknown as [E|[E|[E|[E|[E|[E|[]]]]]]]; rewrite E in *; unfold SyntheticMessageWebhookPayload in Hprobe;
    change (lowerTrim ?x) with x in Hprobe; cbv zeta in Hprobe.
  - rewrite decide_True in Hprobe by done. by eapply telegram_accepted.
  - rewrite decide_False, decide_True in Hprobe by done. injection Hprobe as <-. by apply slack_accepted.
  - do 2 rewrite decide_False in Hprobe by done. rewrite decide_True in Hprobe by done. injection Hprobe as <-. by apply discord_accepted.
  - do 3 rewrite decide_False in Hprobe by done. rewrite decide_True in Hprobe by done. injection Hprobe as <-.
    apply phone_accepted; [done|done|by left|done|done].
  - do 5 rewrite decide_False in Hprobe by done. rewrite decide_True in Hprobe by done. injection Hprobe as <-.
    destruct (EqualFold _ "twilio") eqn:Et; [|by apply cloud_accepted].
    apply phone_accepted; [done|done|by right|done|]. intros _. by apply Htw.
  - do 4 rewrite decide_False in Hprobe by done. rewrite decide_True in Hprobe by done. injection Hprobe as <-. by apply email_accepted.
Qed.
End Covered.

(** ** Witnesses *)

#[local] Instance quiet_env : MsgEnv := {
  Getenv := fun _ => "";
  LookupEnv := fun _ => None;
  profileSecrets := fun _ => None;
  TimeParse := fun _ _ => None;
  ParseDuration := fun _ => None;
  ParseAddress := fun a => if HasPrefix a "APS Service Test <" then Some (TrimSuffix (TrimPrefix a "APS Service Test <") ">") else None;
  ParseQuery := fun _ => ∅;
  urlQuery := fun _ => None;
  hmac_sha256 := fun key text => key +:+ text;
  hmac_sha1_base64 := fun key text => key +:+ text;
  sha256_hex := fun text => text;
  ed25519_Verify := fun _ _ _ => false
}.

#[local] Instance quiet_floats : Float64 := {| shortest_f := fun _ => ""; shortest_g := fun _ => ""; wide := fun _ => 0 |}.

Definition probed (adapter : string) (options : list (string * string)) : ServiceValidationConfig :=
  mkServiceConfig "bot" adapter "" ∅ (list_to_map options).

Definition chat_service : ServiceValidationConfig := probed "telegram" [("allowed_chats", " , -42 , 7")].
Definition mail_service : ServiceValidationConfig := probed "email" [("allowed_senders", "*@x.org, Ann@Example.com"); ("from", "in@x.org")].

Lemma chat_service_covered : probe_covers "telegram" (sv_Options chat_service).
Proof.
  split; [intros _; split|by repeat split; try (intros [?|?]; done)].
  - intros id. change (firstCSVOption _ _) with "-42". change (ParseInt "-42") with (-42, None : option NumError). intros [= <-]. by split.
  - repeat constructor.
Qed.

Lemma probe_accepted_witness :
  exists probe, SyntheticMessageWebhookPayload (fun _ => "") 5 "telegram" (sv_Options chat_service) = Ok probe /\
    pi_Channel probe.2 = "-42" /\ accepted_probe (fun _ _ => None) 6 "telegram" chat_service probe.
Proof.
  destruct (SyntheticMessageWebhookPayload (fun _ => "") 5 "telegram" (sv_Options chat_service)) as [probe|e] eqn:E; [|by vm_compute in E].
  exists probe. split; [reflexivity|]. split; [vm_compute in E; by injection E as <-|].
  apply (probe_accepted (fun _ => "") (fun _ _ => None) 5 6 chat_service probe);
    [by vm_compute|by apply (bool_decide_eq_true_1 _)|exact chat_service_covered|exact E].
Defined.

(** The lists that the probe of an adapter does not impersonate refuse it. *)
Example probe_refused : exists m,
  Normalize (fun _ _ => None) 6 "discord"
    (Some (syntheticDiscordProbe (fun _ => "") 5 (sv_Options (probed "discord" [("allowed_chats", "C1")]))).1) = Ok m /\
  ValidateMessage (probed "discord" [("allowed_chats", "C1")]) (Some m) <> None.
Proof. eexists. split; [vm_compute; reflexivity|]. by vm_compute. Qed.
