(* ===== verification/MsgPhone.v ===== *)
(** * The providers of phone messages

    sms.go and whatsapp.go of src/internal/core/messenger: the payloads of Twilio and of the
    WhatsApp Cloud API as messages, and the delivery of replies to both.

    The payload is JSON or a form, whose parsers are arguments; [Do] is the HTTP client.  A
    body that is sent is kept as the value that is encoded.  [None] is a panic. *)

From Stdlib Require Import ZArith Lia String Ascii Floats.SpecFloat.
From stdpp Require Import base option list gmap strings.
From S2P Require Import Prelude Text GoValue MsgTypes MsgConfig MsgAuth MsgHistory MsgRuntime Service.

#[local] Open Scope Z_scope.

Definition defaultTwilioBaseURL : string := "https://api.twilio.com".
Definition defaultWhatsAppBaseURL : string := "https://graph.facebook.com/v19.0".

(** ** Go library *)

(** [url.PathEscape]. *)
Definition pathChar (c : ascii) : list ascii :=
  if unreserved c || bool_decide (c ∈ ["$"%char; "&"%char; "+"%char; "="%char; ":"%char; "@"%char]) then [c]
  else ["%"%char; upperHex (N_of_ascii c / 16); upperHex (N_of_ascii c mod 16)].

Definition PathEscape (s : string) : string := unchars (concat (map pathChar (chars s))).

Inductive HTTPBody : Type := BodyJSON (v : any) | BodyForm (fields : list (string * string)).

Record HTTPRequest : Type := mkHTTPRequest {
  hq_URL : string;
  hq_Headers : list (string * string);
  hq_BasicAuth : option (string * string);
  hq_Body : HTTPBody
}.

Record HTTPResponse : Type := mkHTTPResponse { hr_StatusCode : Z; hr_Status : string; hr_Body : string }.

Definition success_code (code : Z) : bool := bool_decide (200 <= code < 300).
Definition retriable_code (code : Z) : bool := bool_decide (code = 429 \/ code >= 500).

(** ** Payloads *)

Section Payload.
Context `{FL : Float64}.

Definition payloadString (payload : amap) (key : string) : string :=
  match mget payload key with
  | None | Some ANil => ""
  | Some (AStr s) => s
  | Some (AList (v :: _)) => Sprint v
  | Some (AList []) => ""
  | Some v => Sprint v
  end.

Fixpoint firstNonEmptyPayload (payload : amap) (keys : list string) : string :=
  match keys with
  | [] => ""
  | key :: keys =>
      let value := payloadString payload key in
      if decide (TrimSpace value = "") then firstNonEmptyPayload payload keys else TrimSpace value
  end.

(** A key with several values keeps all of them. *)
Definition valuesToMap (values : gmap string (list string)) : amap :=
  map (fun p => (p.1, match p.2 with [v] => AStr v | vs => AList (map AStr vs) end)) (map_to_list values).

Definition smsMediaType (mimeType : string) : string :=
  if HasPrefix mimeType "image/" then "image"
  else if HasPrefix mimeType "audio/" then "audio"
  else if HasPrefix mimeType "video/" then "video"
  else "file".

(** The largest capacity that [make] takes for attachments, of 56 bytes each, in the address
    space of 64-bit Linux. *)
Definition maxAttachmentCap : Z := 2 ^ 48 / 56.

Definition smsMedia (payload : amap) (i : Z) : list Attachment :=
  let idx := FormatInt i in
  let mediaURL := firstNonEmptyPayload payload ["MediaUrl" +:+ idx; "media_url_" +:+ idx] in
  if decide (mediaURL = "") then []
  else let mimeType := firstNonEmptyPayload payload ["MediaContentType" +:+ idx; "media_content_type_" +:+ idx] in
       [mkAttachment (smsMediaType mimeType) mediaURL mimeType 0].

(** [Atoi] returns the nearest bound with an error of range, which is ignored. *)
Definition smsAttachments (payload : amap) : option (list Attachment) :=
  let count := (ParseInt (firstNonEmptyPayload payload ["NumMedia"; "num_media"])).1 in
  if decide (count < 0 \/ count > maxAttachmentCap) then None
  else Some (concat (map (fun i => smsMedia payload (Z.of_nat i)) (seq 0 (Z.to_nat count)))).

Definition metadataString (metadata : amap) (key : string) : string :=
  match mget metadata key with
  | None | Some ANil => ""
  | Some v => TrimSpace (Sprint v)
  end.

Definition mapString (values : amap) (key : string) : string := metadataString values key.

Definition firstPayloadMap (payload : amap) (key : string) : option amap :=
  match mget payload key with
  | Some (AMap m) => Some m
  | Some (AList l) => head (omap (fun v => match v with AMap m => Some m | _ => None end) l)
  | _ => None
  end.

Definition payloadMap (payload : amap) (key : string) : option amap :=
  match mget payload key with Some (AMap m) => Some m | _ => None end.

(** A map that may be nil. *)
Definition orEmpty (m : option amap) : amap := default [] m.

Definition orNow (now receivedAt : Z) : Z := if IsZero receivedAt then now else receivedAt.

(** ** Twilio *)

(** What [NormalizeSMSPayload] and [normalizeTwilioWhatsAppPayload] share: the platform, the
    keys of the message id and the metadata of the provider differ. *)
Definition twilioMessage (platform : string) (idKeys : list string) (provider : amap -> string) (payload : amap)
    (now receivedAt : Z) : option (Res string NormalizedMessage) :=
  let from := firstNonEmptyPayload payload ["From"; "from"] in
  let to := firstNonEmptyPayload payload ["To"; "to"] in
  if decide (from = "") then Some (Err ("missing from field in " +:+ platform +:+ " event"))
  else if decide (to = "") then Some (Err ("missing to field in " +:+ platform +:+ " event"))
  else
    let text := firstNonEmptyPayload payload ["Body"; "body"; "text"] in
    match smsAttachments payload with
    | None => None
    | Some attachments =>
        if decide (TrimSpace text = "" /\ attachments = [])
        then Some (Err (platform +:+ " event requires Body, body, text, or media"))
        else
          let receivedAt := orNow now receivedAt in
          let id := firstNonEmptyPayload payload idKeys in
          let id := if decide (id = "") then platform +:+ "_" +:+ FormatInt (UnixNano receivedAt) else id in
          Some (Ok (mkMessage id receivedAt platform "" "" (mkSender from from from from) (mkChannel to to "direct" to)
            text None [] attachments
            (Some [("provider", AStr (provider payload));
                   ("account_sid", AStr (firstNonEmptyPayload payload ["AccountSid"; "account_sid"]));
                   ("from", AStr from); ("to", AStr to)])))
    end.

Definition NormalizeSMSPayload (payload : amap) (now receivedAt : Z) : option (Res string NormalizedMessage) :=
  twilioMessage PlatformSMS ["MessageSid"; "SmsSid"; "message_id"]
    (fun payload => firstNonEmptyPayload payload ["Provider"; "provider"]) payload now receivedAt.

Definition normalizeTwilioWhatsAppPayload (payload : amap) (now receivedAt : Z) : option (Res string NormalizedMessage) :=
  twilioMessage PlatformWhatsApp ["MessageSid"; "SmsSid"; "WaId"; "message_id"] (fun _ => "twilio") payload now receivedAt.

(** ** WhatsApp Cloud *)

Definition whatsappCloudAttachments (message : amap) : list Attachment :=
  let messageType := payloadString message "type" in
  match payloadMap message messageType with
  | None => []
  | Some media =>
      if decide (messageType ∈ ["audio"; "document"; "image"; "sticker"; "video"]) then
        let attachmentType := if decide (messageType = "document" \/ messageType = "sticker") then "file" else messageType in
        [mkAttachment attachmentType (payloadString media "id") (payloadString media "mime_type") 0]
      else []
  end.

(** The zero time for what is no number. *)
Definition parseWhatsAppUnix (value : string) : Z :=
  if decide (value = "") then 0
  else match ParseInt (TrimSpace value) with (sec, None) => Unix sec 0 | _ => 0 end.

Definition normalizeWhatsAppCloudPayload (raw entry : amap) (now receivedAt : Z) : Res string NormalizedMessage :=
  match firstPayloadMap entry "changes" with
  | None => Err "missing changes in whatsapp event"
  | Some change =>
      match payloadMap change "value" with
      | None => Err "missing value in whatsapp change"
      | Some value =>
          match firstPayloadMap value "messages" with
          | None => Err "missing messages in whatsapp value"
          | Some message =>
              let from := payloadString message "from" in
              if decide (from = "") then Err "missing from in whatsapp message"
              else
                let metadata := orEmpty (payloadMap value "metadata") in
                let channelID := firstConfigured [payloadString metadata "phone_number_id"; payloadString metadata "display_phone_number"] in
                if decide (channelID = "") then Err "missing phone_number_id in whatsapp metadata"
                else
                  let receivedAt := orNow now receivedAt in
                  let ts := parseWhatsAppUnix (payloadString message "timestamp") in
                  let receivedAt := if IsZero ts then receivedAt else ts in
                  let text := match payloadMap message "text" with Some t => payloadString t "body" | None => "" end in
                  let attachments := whatsappCloudAttachments message in
                  let text :=
                    if decide (text = "" /\ attachments <> []) then
                      match payloadMap message (payloadString message "type") with
                      | Some media => firstConfigured [payloadString media "caption"; payloadString message "type"]
                      | None => text
                      end
                    else text in
                  let contact := orEmpty (firstPayloadMap value "contacts") in
                  let profile := orEmpty (payloadMap contact "profile") in
                  let thread :=
                    match payloadMap message "context" with
                    | Some context =>
                        let contextID := payloadString context "id" in
                        if decide (contextID = "") then None else Some (mkThread contextID "reply")
                    | None => None
                    end in
                  Ok (mkMessage (firstConfigured [payloadString message "id"; "whatsapp_" +:+ FormatInt (UnixNano receivedAt)])
                        receivedAt PlatformWhatsApp "" "" (mkSender from (payloadString profile "name") from from)
                        (mkChannel channelID (payloadString metadata "display_phone_number") "direct" channelID)
                        text thread [] attachments (Some raw))
          end
      end
  end.

Definition NormalizeWhatsAppPayload (payload : amap) (now receivedAt : Z) : option (Res string NormalizedMessage) :=
  match firstPayloadMap payload "entry" with
  | Some entry => Some (normalizeWhatsAppCloudPayload payload entry now receivedAt)
  | None => normalizeTwilioWhatsAppPayload payload now receivedAt
  end.

Definition firstWhatsAppMessageID (parsed : amap) : string :=
  match mget parsed "messages" with Some (AList (AMap first :: _)) => payloadString first "id" | _ => "" end.

Definition whatsappAPIErrorMessage (parsed : amap) : string :=
  match payloadMap parsed "error" with
  | None => ""
  | Some errMap => firstConfigured [payloadString errMap "message"; payloadString errMap "error_data"]
  end.

Definition stripWhatsAppAddressPrefix (value : string) : string := TrimPrefix (TrimSpace value) "whatsapp:".

Definition ensureWhatsAppAddressPrefix (value : string) : string :=
  let value := TrimSpace value in if HasPrefix value "whatsapp:" then value else "whatsapp:" +:+ value.
End Payload.

(** ** Delivery *)

Record SMSDelivery : Type := mkSMSDelivery {
  ms_Provider : string;
  ms_AccountSID : string;
  ms_AuthToken : string;
  ms_From : string;
  ms_To : string;
  ms_Body : string;
  ms_Metadata : amap
}.

(** The results of both transports. *)
Record SendResult : Type := mkSendResult { sr_MessageID : string; sr_Status : string; sr_Provider : string; sr_Retriable : bool }.

Record WhatsAppDelivery : Type := mkWhatsAppDelivery {
  wd_Provider : string;
  wd_AccessToken : string;
  wd_PhoneNumberID : string;
  wd_AccountSID : string;
  wd_AuthToken : string;
  wd_From : string;
  wd_To : string;
  wd_Body : string;
  wd_TemplateName : string;
  wd_LanguageCode : string;
  wd_Attachments : list Attachment;
  wd_Metadata : amap
}.

Inductive SendErr : Type :=
  | SendText (text : string)
  | SendMessenger (e : MessengerError)
  | SMSDeliveryError (code : Z) (message : string) (retriable : bool)
  | WhatsAppDeliveryError (code : Z) (message : string) (retriable : bool).

Definition SendErr_Error (e : SendErr) : string :=
  match e with
  | SendText text => text
  | SendMessenger e => MessengerError_Error e
  | SMSDeliveryError code message _ => "sms delivery failed: HTTP " +:+ FormatInt code +:+ ": " +:+ message
  | WhatsAppDeliveryError code message _ => "whatsapp delivery failed: HTTP " +:+ FormatInt code +:+ ": " +:+ message
  end.

Section Transports.
Context `{FL : Float64}.
Variable Do : HTTPRequest -> Res string HTTPResponse.
Variable Unmarshal : string -> Res string (option amap).

(** A body that is no object is read as an empty one. *)
Definition parsedBody (body : string) : amap := match Unmarshal body with Ok (Some m) => m | _ => [] end.

Definition twilioEndpoint (baseURL accountSID : string) : string :=
  TrimRightSlash (firstConfigured [baseURL; defaultTwilioBaseURL]) +:+ "/2010-04-01/Accounts/" +:+ PathEscape accountSID
    +:+ "/Messages.json".

(** The request to Twilio and what its answer means, for SMS and for WhatsApp. *)
Definition sendTwilio (err : Z -> string -> bool -> SendErr) (baseURL accountSID authToken : string) (form : list (string * string)) :
    Res SendErr SendResult :=
  let req := mkHTTPRequest (twilioEndpoint baseURL accountSID) [("Content-Type", "application/x-www-form-urlencoded")]
               (Some (accountSID, authToken)) (BodyForm form) in
  match Do req with
  | Err text => Err (SendText text)
  | Ok resp =>
      let parsed := parsedBody (hr_Body resp) in
      if negb (success_code (hr_StatusCode resp)) then
        Err (err (hr_StatusCode resp) (firstConfigured [mapString parsed "message"; TrimSpace (hr_Body resp); hr_Status resp])
               (retriable_code (hr_StatusCode resp)))
      else Ok (mkSendResult (mapString parsed "sid") (firstConfigured [mapString parsed "status"; "sent"]) "twilio" false)
  end.

(** [t] is the account of the transport: its identifier, token and base URL. *)
Definition TwilioSMSTransport_SendSMS (t : string * string * string) (d : SMSDelivery) : Res SendErr SendResult :=
  let '(tSID, tToken, baseURL) := t in
  let accountSID := firstConfigured [ms_AccountSID d; tSID] in
  let authToken := firstConfigured [ms_AuthToken d; tToken] in
  if decide (accountSID = "") then Err (SendText "TWILIO_ACCOUNT_SID is required")
  else if decide (authToken = "") then Err (SendMessenger (ErrMissingSecret "TWILIO_AUTH_TOKEN"))
  else if decide (ms_From d = "") then Err (SendText "sms delivery sender is required")
  else if decide (ms_To d = "") then Err (SendText "sms delivery recipient is required")
  else if decide (TrimSpace (ms_Body d) = "") then Err (SendText "sms delivery body is required")
  else sendTwilio SMSDeliveryError baseURL accountSID authToken [("Body", ms_Body d); ("From", ms_From d); ("To", ms_To d)].

Definition TwilioWhatsAppTransport_SendWhatsApp (t : string * string * string) (d : WhatsAppDelivery) : Res SendErr SendResult :=
  let '(tSID, tToken, baseURL) := t in
  let accountSID := firstConfigured [wd_AccountSID d; tSID] in
  let authToken := firstConfigured [wd_AuthToken d; tToken] in
  let contentSID := metadataString (wd_Metadata d) "content_sid" in
  if decide (accountSID = "") then Err (SendText "TWILIO_ACCOUNT_SID is required")
  else if decide (authToken = "") then Err (SendMessenger (ErrMissingSecret "TWILIO_AUTH_TOKEN"))
  else if decide (wd_From d = "") then Err (SendText "whatsapp Twilio delivery sender is required")
  else if decide (wd_To d = "") then Err (SendText "whatsapp delivery recipient is required")
  else if decide (TrimSpace (wd_Body d) = "" /\ contentSID = "" /\ wd_Attachments d = [])
  then Err (SendText "whatsapp delivery body is required")
  else
    let media := match wd_Attachments d with
                 | a :: _ => if decide (at_URL a = "") then [] else [("MediaUrl", at_URL a)]
                 | [] => []
                 end in
    sendTwilio WhatsAppDeliveryError baseURL accountSID authToken
      ((if decide (contentSID = "") then [("Body", wd_Body d)] else [("ContentSid", contentSID)])
       ++ [("From", ensureWhatsAppAddressPrefix (wd_From d))] ++ media ++ [("To", ensureWhatsAppAddressPrefix (wd_To d))]).

(** [t] is the token and the base URL. *)
Definition WhatsAppCloudTransport_SendWhatsApp (t : string * string) (d : WhatsAppDelivery) : Res SendErr SendResult :=
  let '(tToken, tBase) := t in
  let token := firstConfigured [wd_AccessToken d; tToken] in
  if decide (token = "") then Err (SendMessenger (ErrMissingSecret "WHATSAPP_ACCESS_TOKEN"))
  else if decide (wd_PhoneNumberID d = "") then Err (SendText "whatsapp phone_number_id is required")
  else if decide (wd_To d = "") then Err (SendText "whatsapp delivery recipient is required")
  else if decide (wd_TemplateName d = "" /\ TrimSpace (wd_Body d) = "") then Err (SendText "whatsapp text body is required")
  else
    let content :=
      if decide (wd_TemplateName d = "") then
        [("type", AStr "text"); ("text", AMap [("preview_url", ABool false); ("body", AStr (wd_Body d))])]
      else
        [("type", AStr "template");
         ("template", AMap [("name", AStr (wd_TemplateName d));
                            ("language", AMap [("code", AStr (firstConfigured [wd_LanguageCode d; "en_US"]))])])] in
    let payload := [("messaging_product", AStr "whatsapp"); ("to", AStr (stripWhatsAppAddressPrefix (wd_To d)))] ++ content in
    let baseURL := TrimRightSlash (firstConfigured [tBase; defaultWhatsAppBaseURL]) in
    let endpoint := baseURL +:+ "/" +:+ PathEscape (wd_PhoneNumberID d) +:+ "/messages" in
    let req := mkHTTPRequest endpoint
                 [("Authorization", "Bearer " +:+ token); ("Content-Type", "application/json"); ("User-Agent", "aps-whatsapp-message-service")]
                 None (BodyJSON (AMap payload)) in
    match Do req with
    | Err text => Err (SendText text)
    | Ok resp =>
        let parsed := parsedBody (hr_Body resp) in
        if negb (success_code (hr_StatusCode resp)) then
          Err (WhatsAppDeliveryError (hr_StatusCode resp)
                 (firstConfigured [whatsappAPIErrorMessage parsed; TrimSpace (hr_Body resp); hr_Status resp])
                 (retriable_code (hr_StatusCode resp)))
        else Ok (mkSendResult (firstWhatsAppMessageID parsed) "sent" "whatsapp-cloud" false)
    end.

(** ** Providers *)

Variable ParseForm : string -> Res string (gmap string (list string)).

(** [http.Header.Get] of a canonical key. *)
Definition headerGet (headers : gmap string (list string)) (key : string) : string :=
  match headers !! key with Some (v :: _) => v | _ => "" end.

(** [ParseSMSPayload] and [ParseWhatsAppPayload] differ in the name of the platform. *)
Definition parsePayload (platform : string) (headers : gmap string (list string)) (body : string) : Res string amap :=
  if Contains (ToLower (headerGet headers "Content-Type")) "application/x-www-form-urlencoded" then
    match ParseForm body with
    | Ok values => Ok (valuesToMap values)
    | Err text => Err ("invalid " +:+ platform +:+ " form body: " +:+ text)
    end
  else
    match Unmarshal body with
    | Ok payload => Ok (orEmpty payload)
    | Err text => Err ("invalid " +:+ platform +:+ " JSON body: " +:+ text)
    end.

Definition ParseSMSPayload := parsePayload "sms".
Definition ParseWhatsAppPayload := parsePayload "whatsapp".

Definition with_metadata (m : NormalizedMessage) (entries : list (string * any)) : NormalizedMessage :=
  mkMessage (nm_ID m) (nm_Timestamp m) (nm_Platform m) (nm_WorkspaceID m) (nm_ProfileID m) (nm_Sender m) (nm_Channel m) (nm_Text m)
    (nm_Thread m) (nm_Reactions m) (nm_Attachments m)
    (Some (foldl (fun meta e => mset meta e.1 e.2) (default [] (nm_PlatformMetadata m)) entries)).

Record SMSProviderConfig : Type := mkSMSConfig {
  sp_ServiceID : string;
  sp_Provider : string;
  sp_AccountSID : string;
  sp_AuthToken : string;
  sp_From : string
}.

Definition NewSMSProvider (c : SMSProviderConfig) : SMSProviderConfig :=
  if decide (sp_Provider c = "") then mkSMSConfig (sp_ServiceID c) PlatformSMS (sp_AccountSID c) (sp_AuthToken c) (sp_From c) else c.

Definition SMSProvider_NormalizeIngress (c : SMSProviderConfig) (now : Z) (ingress : NativeIngress) :
    option (Res MessengerError NormalizedMessage) :=
  match ParseSMSPayload (ig_Headers ingress) (ig_Body ingress) with
  | Err text => Some (Err (ErrNormalizeFailed PlatformSMS text))
  | Ok payload =>
      match NormalizeSMSPayload payload now now with
      | None => None
      | Some (Err text) => Some (Err (ErrNormalizeFailed PlatformSMS text))
      | Some (Ok msg) =>
          Some (Ok (with_metadata msg
            [("service_id", AStr (firstConfigured [ig_ServiceID ingress; sp_ServiceID c]));
             ("provider", AStr (firstConfigured [sp_Provider c; ig_Provider ingress; "twilio"]))]))
      end
  end.

(** [transport] is the configured one, if any. *)
Definition SMSProvider_DeliverMessage (c : SMSProviderConfig) (transport : option (SMSDelivery -> Res SendErr SendResult)) (now : Z)
    (d : DeliveryRequest) : Res SendErr DeliveryReceipt :=
  match DeliveryRequest_Validate d with
  | Some text => Err (SendText text)
  | None =>
      let send := default (TwilioSMSTransport_SendSMS (sp_AccountSID c, sp_AuthToken c, defaultTwilioBaseURL)) transport in
      let to := firstConfigured [metadataString (dr_Metadata d) "to"; dr_ChannelID d] in
      let from := firstConfigured [metadataString (dr_Metadata d) "from"; sp_From c] in
      if decide (to = "") then Err (SendText "sms delivery recipient is required")
      else if decide (from = "") then Err (SendText "sms delivery sender is required")
      else
        match send (mkSMSDelivery (firstConfigured [dr_Provider d; sp_Provider c; "twilio"]) (sp_AccountSID c) (sp_AuthToken c)
                      from to (dr_Text d) (dr_Metadata d)) with
        | Err e => Err e
        | Ok r =>
            Ok (mkReceipt (firstConfigured [sr_Provider r; dr_Provider d; sp_Provider c; "twilio"]) (sr_MessageID r)
                  (firstConfigured [sr_Status r; "sent"]) (sr_Retriable r) now)
        end
  end.

Record WhatsAppProviderConfig : Type := mkWhatsAppConfig {
  wp_ServiceID : string;
  wp_Provider : string;
  wp_AccessToken : string;
  wp_PhoneNumberID : string;
  wp_From : string;
  wp_AccountSID : string;
  wp_AuthToken : string;
  wp_BaseURL : string;
  wp_TemplateName : string;
  wp_LanguageCode : string;
  wp_RequireTemplate : bool
}.

Definition NewWhatsAppProvider (c : WhatsAppProviderConfig) : WhatsAppProviderConfig :=
  mkWhatsAppConfig (wp_ServiceID c) (if decide (wp_Provider c = "") then "whatsapp-cloud" else wp_Provider c) (wp_AccessToken c)
    (wp_PhoneNumberID c) (wp_From c) (wp_AccountSID c) (wp_AuthToken c) (wp_BaseURL c) (wp_TemplateName c) (wp_LanguageCode c)
    (wp_RequireTemplate c).

Definition WhatsAppProvider_NormalizeIngress (c : WhatsAppProviderConfig) (now : Z) (ingress : NativeIngress) :
    option (Res MessengerError NormalizedMessage) :=
  match ParseWhatsAppPayload (ig_Headers ingress) (ig_Body ingress) with
  | Err text => Some (Err (ErrNormalizeFailed PlatformWhatsApp text))
  | Ok payload =>
      match NormalizeWhatsAppPayload payload now now with
      | None => None
      | Some (Err text) => Some (Err (ErrNormalizeFailed PlatformWhatsApp text))
      | Some (Ok msg) =>
          let service := firstConfigured [ig_ServiceID ingress; wp_ServiceID c] in
          Some (Ok (with_metadata msg
            [("service_id", AStr service); ("messenger_name", AStr service);
             ("provider", AStr (firstConfigured [wp_Provider c; ig_Provider ingress; "whatsapp-cloud"]))]))
      end
  end.

(** What is sent, or why nothing is. *)
Definition whatsappDelivery (c : WhatsAppProviderConfig) (d : DeliveryRequest) : Res SendErr WhatsAppDelivery :=
  let meta := metadataString (dr_Metadata d) in
  let provider := ToLower (firstConfigured [meta "provider"; wp_Provider c; "whatsapp-cloud"]) in
  let templateName := firstConfigured [meta "template_name"; wp_TemplateName c] in
  let languageCode := firstConfigured [meta "language_code"; wp_LanguageCode c; "en_US"] in
  let to := firstConfigured [meta "to"; meta "recipient"; dr_ChannelID d] in
  let phoneNumberID := firstConfigured [meta "phone_number_id"; wp_PhoneNumberID c; wp_From c] in
  let from := firstConfigured [meta "from"; wp_From c; wp_PhoneNumberID c] in
  if wp_RequireTemplate c && bool_decide (templateName = "")
  then Err (SendText "whatsapp template_name is required when template_required is enabled")
  else if decide (templateName <> "" /\ dr_Text d = "" /\ dr_Attachments d <> [])
  then Err (SendText "whatsapp template delivery cannot use attachments")
  else if decide (to = "") then Err (SendText "whatsapp delivery recipient is required")
  else if decide (provider = "twilio" /\ from = "") then Err (SendText "whatsapp Twilio delivery sender is required")
  else if decide (provider <> "twilio" /\ phoneNumberID = "") then Err (SendText "whatsapp phone_number_id is required")
  else Ok (mkWhatsAppDelivery provider (wp_AccessToken c) phoneNumberID (wp_AccountSID c) (wp_AuthToken c) from to (dr_Text d)
             templateName languageCode (dr_Attachments d) (dr_Metadata d)).

Definition WhatsAppProvider_DeliverMessage (c : WhatsAppProviderConfig)
    (transport : option (WhatsAppDelivery -> Res SendErr SendResult)) (now : Z) (d : DeliveryRequest) : Res SendErr DeliveryReceipt :=
  match DeliveryRequest_Validate d with
  | Some text => Err (SendText text)
  | None =>
      match whatsappDelivery c d with
      | Err e => Err e
      | Ok w =>
          let own := if decide (wd_Provider w = "twilio")
                     then TwilioWhatsAppTransport_SendWhatsApp (wp_AccountSID c, wp_AuthToken c, defaultTwilioBaseURL)
                     else WhatsAppCloudTransport_SendWhatsApp (wp_AccessToken c, wp_BaseURL c) in
          match default own transport w with
          | Err e => Err e
          | Ok r =>
              Ok (mkReceipt (firstConfigured [sr_Provider r; dr_Provider d; wp_Provider c; PlatformWhatsApp]) (sr_MessageID r)
                    (firstConfigured [sr_Status r; "sent"]) (sr_Retriable r) now)
          end
      end
  end.
End Transports.
