(* ===== verification/MsgChat.v ===== *)
(** * Replies of message services, and the bridge to the chat runtime

    The options of a service that handler.go of src/internal/adapters/messenger reads, the
    metadata of replies, and chat_executor.go: a message handed to the chat of its profile.

    Environment variables and secret stores are the class [MsgEnv]; the model client of the
    chat is an argument.  The error texts of the chat, which are only logged, are left
    out. *)

From Stdlib Require Import ZArith Lia String Ascii.
From stdpp Require Import base option list gmap strings.
From S2P Require Import Prelude Text Events GoValue Kv SessionRegistry MsgTypes MsgConfig MsgAuth MsgHistory MsgRouter MsgRuntime Chat Service.

#[local] Open Scope Z_scope.

(** ** Options *)

Definition replyModeNone : string := "none".
Definition providerTwilio : string := "twilio".

(** [service] may be nil, as outside of services. *)
Definition serviceOption (service : option ServiceConfig) (key : string) : string :=
  match service with Some s => TrimSpace (opt (sc_Options s) key) | None => "" end.

Definition serviceProvider (service : option ServiceConfig) (fallback : string) : string :=
  if decide (serviceOption service "provider" = "") then fallback else serviceOption service "provider".

Definition replyMode (service : option ServiceConfig) : string :=
  match service with
  | None => "text"
  | Some s =>
      let value := lowerTrim (opt (sc_Options s) "reply") in
      if decide (value = "" \/ value = "auto") then "text" else value
  end.

Definition serviceExecutionMode (service : option ServiceConfig) : string :=
  match service with
  | None => "action"
  | Some s =>
      let value := lowerTrim (opt (sc_Options s) "execution") in
      if decide (value = "") then "action" else value
  end.

Definition truthyHandlerOption (value : string) : bool :=
  bool_decide (ToLower (TrimSpace value) ∈ ["1"; "true"; "yes"; "y"; "on"]).

(** Zero is the default of the router. *)
Definition serviceHistoryTurns (service : option ServiceConfig) : Z :=
  let value := serviceOption service "history_turns" in
  if decide (value = "") then 0
  else match ParseInt value with
       | (limit, None) => if decide (limit < 0) then 0 else limit
       | (_, Some _) => 0
       end.

Definition serviceValidationConfig (service : option ServiceConfig) : ServiceValidationConfig :=
  match service with
  | None => mkServiceConfig "" "" "" ∅ ∅
  | Some s => mkServiceConfig (sc_ID s) (sc_Adapter s) (sc_Profile s) (sc_Env s) (sc_Options s)
  end.

Section Secrets.
Context `{ME : MsgEnv}.

Definition resolveServiceEnv (service : option ServiceConfig) (key : string) : string :=
  match service with
  | None => Getenv key
  | Some s =>
      match sc_Env s !! key with
      | None => Getenv key
      | Some value =>
          if decide (TrimSpace value = "") then Getenv key
          else (ResolveSecretValue value (profileSecrets (sc_Profile s)) (Some LookupEnv)).1
      end
  end.

Definition slackDedupTTL (service : option ServiceConfig) : Z :=
  let day := 24 * 60 * Minute in
  let value := serviceOption service "dedup_ttl" in
  if decide (value = "") then day
  else match ParseDuration value with
       | Some ttl => if decide (ttl <= 0) then day else ttl
       | None => day
       end.
End Secrets.

(** ** Replies *)

(** A field that is set when it is present. *)
Definition copyKey (meta : amap) (from to : string) (m : amap) : amap :=
  match mget meta from with Some v => mset m to v | None => m end.

Definition setNonEmpty (m : amap) (key value : string) : amap := if decide (value = "") then m else mset m key (AStr value).

Definition replyMetadata (msg : NormalizedMessage) (service : option ServiceConfig) : amap :=
  if decide (nm_Platform msg = PlatformTelegram) then
    match nm_PlatformMetadata msg with
    | None => []
    | Some meta =>
        copyKey meta "telegram_message_thread_id" "message_thread_id" (copyKey meta "telegram_message_id" "reply_to_message_id" [])
    end
  else if decide (nm_Platform msg = PlatformWhatsApp) then
    let m := [("to", AStr (sn_ID (nm_Sender msg))); ("phone_number_id", AStr (cn_ID (nm_Channel msg)));
              ("provider", AStr (serviceProvider service "whatsapp-cloud"))] in
    setNonEmpty (setNonEmpty m "template_name" (serviceOption service "template_name")) "language_code" (serviceOption service "language_code")
  else [].

Definition textReply (text : string) (metadata : amap) : DeliveryRequest := mkDelivery "" "" "" "" "" text [] metadata.

(** ** Chat turns *)

Definition defaultChatFailureReply : string := "I could not process that chat message right now.".

Definition ReplyDestinationChannel : string := "".
Definition ReplyDestinationSideChat : string := "side_chat".
Definition SideChatLifecycleKeep : string := "".
Definition SideChatLifecycleOpen : string := "open".
Definition SideChatLifecycleClose : string := "close".

Record ChatTurn : Type := mkTurn {
  ct_ServiceID : string;
  ct_Provider : string;
  ct_ProfileID : string;
  ct_SessionID : string;
  ct_ConversationID : string;
  ct_MessageID : string;
  ct_ChannelID : string;
  ct_SenderID : string;
  ct_Text : string;
  ct_Handoff : ExecutionHandoff
}.

Record ChatTurnResult : Type := mkTurnResult {
  cr_SessionID : string;
  cr_ReplyText : string;
  cr_Metadata : list (string * string);
  cr_ReplyDestination : string;
  cr_SideChatLifecycle : string
}.

Definition chatTurn (h : ExecutionHandoff) : ChatTurn :=
  let msg := ho_Message h in
  let state := ConversationState_of msg in
  mkTurn (ho_ServiceID h) (ho_Provider h) (ho_ProfileID h) (cv_SessionID state) (cv_ConversationID state) (nm_ID msg)
    (cn_ID (nm_Channel msg)) (sn_ID (nm_Sender msg)) (nm_Text msg) h.

Definition deliveryReplyMetadata (msg : NormalizedMessage) (service : option ServiceConfig) (reply : ChatTurnResult) : amap :=
  let metadata := replyMetadata msg service in
  if decide (cr_ReplyDestination reply = ReplyDestinationSideChat) then
    let metadata := mset metadata "reply_destination" (AStr ReplyDestinationSideChat) in
    setNonEmpty metadata "side_chat_lifecycle" (cr_SideChatLifecycle reply)
  else metadata.

Definition addMetadata (m : gmap string string) (p : string * string) : gmap string string :=
  if decide (TrimSpace p.1 = "") then m else <[p.1 := p.2]> m.

Definition chatExecutionMetadata (state : ConversationState) (reply : ChatTurnResult) : gmap string string :=
  let m := <["conversation_id" := cv_ConversationID state]> {[ "session_id" := cv_SessionID state ]} in
  let m := if decide (cr_SessionID reply = "") then m else <["chat_session_id" := cr_SessionID reply]> m in
  let m :=
    if decide (cr_ReplyDestination reply = ReplyDestinationSideChat) then
      let m := <["reply_destination" := ReplyDestinationSideChat]> m in
      if decide (cr_SideChatLifecycle reply = SideChatLifecycleKeep) then m
      else <["side_chat_lifecycle" := cr_SideChatLifecycle reply]> m
    else m in
  foldl addMetadata m (cr_Metadata reply).

Definition failureResult (msg : NormalizedMessage) (service : option ServiceConfig) (turn : ChatTurn) (failureText : string) : ExecutionResult :=
  let text := if decide (TrimSpace failureText = "") then defaultChatFailureReply else TrimSpace failureText in
  mkExec "failed" text
    (if decide (replyMode service = replyModeNone) then None else Some (textReply text (replyMetadata msg service)))
    (<["conversation_id" := ct_ConversationID turn]> {[ "session_id" := ct_SessionID turn ]}).

Section Executor.
(** [RunChatTurn]: a nil result, a result, or an error that is logged. *)
Variable runner : ChatTurn -> Res ChatErr (option ChatTurnResult).
Variable service : option ServiceConfig.

Definition ChatExecuteMessage (cancelled : bool) (h : ExecutionHandoff) : Res string ExecutionResult :=
  if cancelled then Err "context canceled"
  else
    let msg := ho_Message h in
    let turn := chatTurn h in
    match runner turn with
    | Err _ | Ok None => Ok (failureResult msg service turn defaultChatFailureReply)
    | Ok (Some reply) =>
        let text := TrimSpace (cr_ReplyText reply) in
        Ok (mkExec "completed" text
              (if decide (text = "" \/ replyMode service = replyModeNone) then None
               else Some (textReply text (deliveryReplyMetadata msg service reply)))
              (chatExecutionMetadata (ConversationState_of msg) reply))
    end.
End Executor.

(** ** The native runner *)

Section Native.
Context `{K : KvStore SessionInfo}.
Variable profileURI : string -> string.
Variable profileDir : string.
Variable pid : Z.

(** [NewService]: the profile with its client, or why there is none. *)
Variable NewService : string -> Res ChatErr (Profile * (list Message -> Res string Message)).

Definition nativeRunChatTurn (now later : Z) (fault : bool) (m : Rows) (fs : ChatFiles) (turn : ChatTurn) :
    Rows * ChatFiles * Res ChatErr (option ChatTurnResult) :=
  match NewService (ct_ProfileID turn) with
  | Err e => (m, fs, Err e)
  | Ok (profile, complete) =>
      match Service_Send profileURI profileDir pid now later fault profile "" complete m fs (ct_SessionID turn) (ct_Text turn) with
      | (m, fs, Err e) => (m, fs, Err e)
      | (m, fs, Ok reply) =>
          (m, fs, Ok (Some (mkTurnResult (ct_SessionID turn) (tn_Content reply) [("profile_id", ct_ProfileID turn)] "" "")))
      end
  end.

Let run := nativeRunChatTurn.

(** The session of a message is no name that the store of transcripts accepts: it has colons. *)
Lemma message_session_unsafe m : safeSessionID (cv_SessionID (ConversationState_of m)) = false.
Proof.
  rewrite SessionID_parts. set (ws := _ ++ _). clearbody ws. unfold stableMessageKey.
  assert (exists rest, Join ":" ("msgsess:v1" :: map encodePart ws) = "msgsess:v1" +:+ rest) as [rest ->].
  { destruct ws as [|w ws]; [by exists ""|]. by eexists. }
  done.
Qed.

Lemma native_turn_fails now later fault m fs h :
  exists e, run now later fault m fs (chatTurn h) = (m, fs, Err e).
Proof.
  unfold run, nativeRunChatTurn. destruct (NewService _) as [[profile complete]|e]; [|by eexists].
  unfold Service_Send. case_decide; [by eexists|]. unfold Store_Load, Store_path.
  change (ct_SessionID (chatTurn h)) with (cv_SessionID (ConversationState_of (ho_Message h))).
  rewrite message_session_unsafe. by eexists.
Qed.

(** with the native runner, a message handed to the chat of its profile is never
    answered by the model, whatever the message, the profile and the model: the session of
    a message is [msgsess:v1:...], and the store of transcripts refuses the colon.  The
    sender gets the failure text, no transcript is read or written and no session is
    registered. *)
Theorem chat_mode_never_answers (service : option ServiceConfig) (now later : Z) (fault : bool) (m : Rows) (fs : ChatFiles)
    (h : ExecutionHandoff) :
  let '(m', fs', r) := run now later fault m fs (chatTurn h) in
  m' = m /\ fs' = fs /\
  exists result, ChatExecuteMessage (fun _ => r) service false h = Ok result /\
    xr_Status result = "failed" /\ xr_Output result = defaultChatFailureReply.
Proof.
  destruct (native_turn_fails now later fault m fs h) as [e ->]. split; [done|]. split; [done|].
  eexists. split; [reflexivity|]. done.
Qed.
End Native.

