(* ===== verification/MsgProviders.v ===== *)
(** * The Telegram and Slack providers

    telegram_provider.go and slack_provider.go of src/internal/adapters/messenger: updates
    and events as messages, and replies through the Bot and Web APIs.

    Decoding JSON is an argument, so an update is a value of its type; [Do] is the HTTP
    client. *)

From Stdlib Require Import ZArith Lia String Ascii Floats.SpecFloat.
From stdpp Require Import base option list gmap strings pretty.
From S2P Require Import Prelude Text GoValue MsgTypes MsgConfig MsgAuth MsgHistory Normalizer MsgRouter MsgRuntime Service MsgPhone MsgChat.

#[local] Open Scope Z_scope.

(** ** Updates *)

Record telegramUser : Type := mkTgUser {
  tu_UserID : Z;
  tu_FirstName : string;
  tu_LastName : string;
  tu_Username : string
}.

Record telegramChat : Type := mkTgChat {
  tc_ID : Z;
  tc_Type : string;
  tc_Title : string;
  tc_Username : string;
  tc_FirstName : string;
  tc_LastName : string
}.

Record telegramFile : Type := mkTgFile { tf_FileID : string; tf_MimeType : string; tf_FileSize : Z }.

Record telegramPhoto : Type := mkTgPhoto { tp_FileID : string; tp_FileSize : Z }.

Inductive telegramMessage : Type := mkTgMessage {
  tm_MessageID : Z;
  tm_MessageThreadID : Z;
  tm_From : option telegramUser;
  tm_SenderChat : option telegramChat;
  tm_Chat : option telegramChat;
  tm_Date : Z;
  tm_Text : string;
  tm_Caption : string;
  tm_ReplyToMessage : option telegramMessage;
  tm_Document : option telegramFile;
  tm_Audio : option telegramFile;
  tm_Voice : option telegramFile;
  tm_Video : option telegramFile;
  tm_Photo : list telegramPhoto
}.

Record telegramCallbackQuery : Type := mkTgCallback {
  tq_ID : string;
  tq_From : option telegramUser;
  tq_Message : option telegramMessage;
  tq_Data : string
}.

Record telegramUpdate : Type := mkTgUpdate {
  td_UpdateID : Z;
  td_Message : option telegramMessage;
  td_EditedMessage : option telegramMessage;
  td_ChannelPost : option telegramMessage;
  td_EditedChannelPost : option telegramMessage;
  td_CallbackQuery : option telegramCallbackQuery
}.

(** The message of an update and the kind of update it came with. *)
Definition telegramMessageFromUpdate (u : telegramUpdate) : option (telegramMessage * string) :=
  match td_Message u, td_EditedMessage u, td_ChannelPost u, td_EditedChannelPost u, td_CallbackQuery u with
  | Some m, _, _, _, _ => Some (m, "message")
  | None, Some m, _, _, _ => Some (m, "edited_message")
  | None, None, Some m, _, _ => Some (m, "channel_post")
  | None, None, None, Some m, _ => Some (m, "edited_channel_post")
  | None, None, None, None, Some q =>
      match tq_Message q with Some m => Some (m, "callback_query") | None => None end
  | None, None, None, None, None => None
  end.

Definition no_sender : Sender := mkSender "" "" "" "".

Definition telegramSenderFromUser (user : option telegramUser) : Sender :=
  match user with
  | None => no_sender
  | Some u =>
      if decide (tu_UserID u = 0) then no_sender
      else let id := FormatInt (tu_UserID u) in
           mkSender id (buildTelegramName (tu_FirstName u) (tu_LastName u)) (tu_Username u) id
  end.

Definition telegramSenderFromChat (chat : option telegramChat) : Sender :=
  match chat with
  | None => no_sender
  | Some c =>
      if decide (tc_ID c = 0) then no_sender
      else let id := FormatInt (tc_ID c) in
           mkSender id (firstNonEmptyString [tc_Title c; buildTelegramName (tc_FirstName c) (tc_LastName c); tc_Username c])
             (tc_Username c) id
  end.

Definition telegramSender (source : string) (msg : telegramMessage) : Sender :=
  if decide (source = "channel_post" \/ source = "edited_channel_post") then telegramSenderFromChat (tm_Chat msg)
  else match tm_From msg, tm_SenderChat msg with
       | Some u, _ => telegramSenderFromUser (Some u)
       | None, Some c => telegramSenderFromChat (Some c)
       | None, None => telegramSenderFromChat (tm_Chat msg)
       end.

Definition ChannelTypeGroup : string := "group".
Definition ChannelTypeBroadcast : string := "broadcast".

Definition telegramChannelType (chatType : string) : string :=
  if decide (chatType = "group" \/ chatType = "supergroup") then ChannelTypeGroup
  else if decide (chatType = "channel") then ChannelTypeBroadcast
  else ChannelTypeDirect.

Definition telegramNormalizedID (updateID chatID messageID : Z) : string :=
  if decide (updateID <> 0) then "telegram:update:" +:+ FormatInt updateID
  else "telegram:message:" +:+ FormatInt chatID +:+ ":" +:+ FormatInt messageID.

Definition addFile (kind : string) (file : option telegramFile) : list Attachment :=
  match file with
  | None => []
  | Some f =>
      if decide (tf_FileID f = "") then []
      else [mkAttachment kind ("telegram:file:" +:+ tf_FileID f) (tf_MimeType f) (tf_FileSize f)]
  end.

Definition telegramAttachments (msg : telegramMessage) : list Attachment :=
  addFile "file" (tm_Document msg) ++ addFile "audio" (tm_Audio msg) ++ addFile "audio" (tm_Voice msg)
  ++ addFile "video" (tm_Video msg)
  ++ match last (tm_Photo msg) with
     | Some best => if decide (tp_FileID best = "") then []
                    else [mkAttachment "image" ("telegram:file:" +:+ tp_FileID best) "" (tp_FileSize best)]
     | None => []
     end.

Definition unsupportedUpdate : string := "telegram update has no supported message payload".

(** [now] is [p.now()]. *)
Definition telegramNormalize (now : Z) (ingress : NativeIngress) (update : telegramUpdate) : Res string NormalizedMessage :=
  match telegramMessageFromUpdate update with
  | None => Err unsupportedUpdate
  | Some (msg, source) =>
      match tm_Chat msg with
      | None => Err ("telegram update " +:+ FormatInt (td_UpdateID update) +:+ " has no chat")
      | Some chat =>
          let sender :=
            match td_CallbackQuery update with
            | Some q =>
                match tq_From q with
                | Some u => if decide (source = "callback_query") then telegramSenderFromUser (Some u) else telegramSender source msg
                | None => telegramSender source msg
                end
            | None => telegramSender source msg
            end in
          if decide (sn_ID sender = "") then Err ("telegram update " +:+ FormatInt (td_UpdateID update) +:+ " has no sender")
          else
            let timestamp := if decide (tm_Date msg > 0) then Unix (tm_Date msg) 0 else ig_ReceivedAt ingress in
            let timestamp := if IsZero timestamp then now else timestamp in
            let callbackData := match td_CallbackQuery update with Some q => tq_Data q | None => "" end in
            let text := firstNonEmptyString [TrimSpace (tm_Text msg); TrimSpace (tm_Caption msg); TrimSpace callbackData] in
            let chatID := FormatInt (tc_ID chat) in
            let messageID := FormatInt (tm_MessageID msg) in
            let metadata :=
              [("service_id", AStr (ig_ServiceID ingress)); ("messenger_name", AStr (ig_ServiceID ingress));
               ("telegram_update_type", AStr source); ("telegram_message_id", AStr messageID); ("telegram_chat_id", AStr chatID)]
              ++ (if decide (td_UpdateID update <> 0) then [("telegram_update_id", AStr (FormatInt (td_UpdateID update)))] else [])
              ++ (if decide (tm_MessageThreadID msg <> 0)
                  then [("telegram_message_thread_id", AStr (FormatInt (tm_MessageThreadID msg)))] else [])
              ++ (match td_CallbackQuery update with Some q => [("telegram_callback_query_id", AStr (tq_ID q))] | None => [] end) in
            let thread :=
              if decide (tm_MessageThreadID msg <> 0) then Some (mkThread (FormatInt (tm_MessageThreadID msg)) "topic")
              else match tm_ReplyToMessage msg with
                   | Some r => if decide (tm_MessageID r <> 0) then Some (mkThread (FormatInt (tm_MessageID r)) "reply") else None
                   | None => None
                   end in
            Ok (mkMessage (telegramNormalizedID (td_UpdateID update) (tc_ID chat) (tm_MessageID msg)) timestamp PlatformTelegram "" ""
                  sender
                  (mkChannel chatID (firstNonEmptyString [tc_Title chat; tc_Username chat]) (telegramChannelType (tc_Type chat)) chatID)
                  text thread [] (telegramAttachments msg) (Some metadata))
      end
  end.

Section Providers.
Context `{FL : Float64}.

(** ** Telegram *)

(** [UnmarshalUpdate] is [json.Unmarshal] into an update. *)
Variable UnmarshalUpdate : string -> Res string telegramUpdate.

Definition TelegramProvider_NormalizeIngress (cancelled : bool) (now : Z) (ingress : NativeIngress) : Res string NormalizedMessage :=
  if cancelled then Err "context canceled"
  else match UnmarshalUpdate (ig_Body ingress) with
       | Err text => Err ("invalid telegram update JSON: " +:+ text)
       | Ok update => telegramNormalize now ingress update
       end.

(** The identifier of a chat, or the name of a channel. *)
Inductive ChatRef : Type := ChatNumber (id : Z) | ChatName (name : string).

Definition parseTelegramChatID (value : string) : ChatRef :=
  match ParseInt (TrimSpace value) with
  | (id, None) => ChatNumber id
  | (_, Some _) => ChatName (TrimSpace value)
  end.

Definition parseOptionalInt64 (value : string) : Z := (ParseInt (TrimSpace value)).1.

(** [metadataString] of the adapters: strings and integral numbers only. *)
Definition metadataText (metadata : amap) (key : string) : string :=
  match mget metadata key with
  | Some (AStr s) => TrimSpace s
  | Some (AInt z) => FormatInt z
  | Some (AFloat f) => if SFeqb f (itof (ftoi f)) then FormatInt (ftoi f) else ""
  | _ => ""
  end.

Record TelegramSendMessageRequest : Type := mkTgSend {
  ts_ChatID : ChatRef;
  ts_Text : string;
  ts_MessageThreadID : Z;
  ts_ReplyTo : option Z
}.

Record TelegramAPIResponse : Type := mkTgResponse { ta_OK : bool; ta_Description : string; ta_Result : option Z }.

Definition telegramRequest (d : DeliveryRequest) : TelegramSendMessageRequest :=
  let threadID := firstNonEmptyString [metadataText (dr_Metadata d) "message_thread_id"; metadataText (dr_Metadata d) "telegram_message_thread_id"] in
  let replyID := firstNonEmptyString [metadataText (dr_Metadata d) "reply_to_message_id"; metadataText (dr_Metadata d) "telegram_message_id"] in
  mkTgSend (parseTelegramChatID (dr_ChannelID d)) (dr_Text d)
    (if decide (threadID = "") then 0 else parseOptionalInt64 threadID)
    (if decide (replyID = "") then None
     else let id := parseOptionalInt64 replyID in if decide (id = 0) then None else Some id).

(** [transport] sends with the token of the bot; a response may be nil. *)
Definition TelegramProvider_DeliverMessage (botToken : string)
    (transport : TelegramSendMessageRequest -> Res string (option TelegramAPIResponse)) (now : Z) (d : DeliveryRequest) :
    Res string DeliveryReceipt :=
  if decide (TrimSpace botToken = "") then Err "telegram bot token is required for delivery"
  else
    match transport (telegramRequest d) with
    | Err text => Err text
    | Ok None => Err "telegram sendMessage returned nil response"
    | Ok (Some resp) =>
        if negb (ta_OK resp) then
          let description := TrimSpace (ta_Description resp) in
          Err (if decide (description = "") then "telegram sendMessage failed" else description)
        else Ok (mkReceipt PlatformTelegram (match ta_Result resp with Some id => FormatInt id | None => "" end) "success" false now)
    end.

Variable Do : HTTPRequest -> Res string HTTPResponse.
Variable UnmarshalTelegram : string -> Res string TelegramAPIResponse.

Definition chatRef_json (r : ChatRef) : any := match r with ChatNumber id => AInt id | ChatName name => AStr name end.

Definition telegramBody (r : TelegramSendMessageRequest) : any :=
  AMap ([("chat_id", chatRef_json (ts_ChatID r)); ("text", AStr (ts_Text r))]
        ++ (if decide (ts_MessageThreadID r = 0) then [] else [("message_thread_id", AInt (ts_MessageThreadID r))])
        ++ (match ts_ReplyTo r with Some id => [("reply_parameters", AMap [("message_id", AInt id)])] | None => [] end)).

Definition TelegramHTTPTransport_SendMessage (base botToken : string) (payload : TelegramSendMessageRequest) :
    Res string (option TelegramAPIResponse) :=
  let baseURL := TrimRightSlash (TrimSpace base) in
  let baseURL := if decide (baseURL = "") then "https://api.telegram.org" else baseURL in
  match Do (mkHTTPRequest (baseURL +:+ "/bot" +:+ botToken +:+ "/sendMessage") [("Content-Type", "application/json")] None
              (BodyJSON (telegramBody payload))) with
  | Err text => Err text
  | Ok resp =>
      match (if decide (hr_Body resp = "") then Ok (mkTgResponse false "" None) else UnmarshalTelegram (hr_Body resp)) with
      | Err text => Err ("telegram sendMessage response decode failed: " +:+ text)
      | Ok apiResp =>
          if negb (success_code (hr_StatusCode resp)) && bool_decide (ta_Description apiResp = "")
          then Err ("telegram sendMessage returned HTTP " +:+ FormatInt (hr_StatusCode resp))
          else Ok (Some apiResp)
      end
  end.

(** ** Slack *)

Variable Unmarshal : string -> Res string (option amap).
Variable TimeParse : string -> string -> option Z.

Definition SlackProvider_NormalizeIngress (cancelled : bool) (now : Z) (ingress : NativeIngress) : Res GoErr NormalizedMessage :=
  if cancelled then Err (ErrText "context canceled")
  else
    match Unmarshal (ig_Body ingress) with
    | Err text => Err (ErrText ("invalid Slack Events API JSON: " +:+ text))
    | Ok raw =>
        match Normalize TimeParse now PlatformSlack raw with
        | Err e => Err (ErrMessenger e)
        | Ok msg =>
            let msg := if decide (ig_ServiceID ingress = "") then with_metadata msg []
                       else with_metadata msg [("service_id", AStr (ig_ServiceID ingress)); ("messenger_name", AStr (ig_ServiceID ingress))] in
            Ok (if IsZero (nm_Timestamp msg)
                then mkMessage (nm_ID msg) now (nm_Platform msg) (nm_WorkspaceID msg) (nm_ProfileID msg) (nm_Sender msg) (nm_Channel msg)
                       (nm_Text msg) (nm_Thread msg) (nm_Reactions msg) (nm_Attachments msg) (nm_PlatformMetadata msg)
                else msg)
        end
    end.

Record SlackPostMessageRequest : Type := mkSlackSend { ss_Channel : string; ss_Text : string; ss_ThreadTS : string }.

Record SlackPostMessageResponse : Type := mkSlackResponse { sl_OK : bool; sl_Error : string; sl_Channel : string; sl_TS : string }.

Definition slackRequest (d : DeliveryRequest) : SlackPostMessageRequest :=
  let threadTS := metadataText (dr_Metadata d) "slack_thread_ts" in
  let channel := metadataText (dr_Metadata d) "slack_channel_id" in
  mkSlackSend (if decide (channel = "") then dr_ChannelID d else channel) (dr_Text d)
    (if decide (threadTS = "") then dr_ThreadID d else threadTS).

Definition SlackProvider_DeliverMessage (botToken : string)
    (transport : SlackPostMessageRequest -> Res string (option SlackPostMessageResponse)) (now : Z) (d : DeliveryRequest) :
    Res GoErr DeliveryReceipt :=
  if decide (TrimSpace botToken = "") then Err (ErrMessenger (ErrMissingSecret "SLACK_BOT_TOKEN"))
  else
    match DeliveryRequest_Validate d with
    | Some text => Err (ErrText text)
    | None =>
        match transport (slackRequest d) with
        | Err text => Err (ErrText text)
        | Ok None => Err (ErrText "Slack chat.postMessage returned nil response")
        | Ok (Some resp) =>
            if negb (sl_OK resp) then
              let description := TrimSpace (sl_Error resp) in
              Err (ErrText (if decide (description = "") then "Slack chat.postMessage failed" else description))
            else Ok (mkReceipt PlatformSlack (sl_TS resp) "success" false now)
        end
    end.

Variable UnmarshalSlack : string -> Res string SlackPostMessageResponse.

Definition slackBody (r : SlackPostMessageRequest) : any :=
  AMap ([("channel", AStr (ss_Channel r)); ("text", AStr (ss_Text r))]
        ++ (if decide (ss_ThreadTS r = "") then [] else [("thread_ts", AStr (ss_ThreadTS r))])).

Definition SlackHTTPTransport_PostMessage (base botToken : string) (payload : SlackPostMessageRequest) :
    Res string (option SlackPostMessageResponse) :=
  let baseURL := TrimRightSlash (TrimSpace base) in
  let baseURL := if decide (baseURL = "") then "https://slack.com/api" else baseURL in
  match Do (mkHTTPRequest (baseURL +:+ "/chat.postMessage")
              [("Authorization", "Bearer " +:+ TrimSpace botToken); ("Content-Type", "application/json; charset=utf-8");
               ("User-Agent", "aps-slack-message-service")] None (BodyJSON (slackBody payload))) with
  | Err text => Err text
  | Ok resp =>
      match (if decide (hr_Body resp = "") then Ok (mkSlackResponse false "" "" "") else UnmarshalSlack (hr_Body resp)) with
      | Err text => Err ("Slack chat.postMessage response decode failed: " +:+ text)
      | Ok apiResp =>
          if negb (success_code (hr_StatusCode resp)) && bool_decide (sl_Error apiResp = "")
          then Err ("Slack chat.postMessage returned HTTP " +:+ FormatInt (hr_StatusCode resp))
          else Ok (Some apiResp)
      end
  end.
End Providers.

(** ** Numbers as text *)

Definition dense (s : string) : Prop := Forall (fun c => isSpace c = false) (chars s).

Lemma dense_trim s : dense s -> TrimSpace s = s.
Proof.
  unfold dense. intros H. apply trimmed_TrimSpace. pose proof (proj2 (Forall_reverse _ _) H) as R. split.
  - destruct (chars s); [done|]. by inversion H.
  - destruct (reverse (chars s)); [done|]. by inversion R.
Qed.

Lemma FormatInt_dense z : dense (FormatInt z).
Proof.
  assert (forall y s, (0 < y)%N -> dense s -> dense (pretty_N_go y s)) as H.
  { intros y. induction (N.lt_wf_0 y) as [y _ IH]. intros s Hy Hs. rewrite pretty_N_go_step by done.
    assert (dense (String (pretty_N_char (y mod 10)) s)) as Hc.
    { constructor; [|done]. pose proof (digitVal_pretty (y mod 10)) as Hd. destruct (isSpace _) eqn:E; [|done].
      unfold digitVal in Hd. rewrite decide_False in Hd; [by specialize (Hd ltac:(apply N.mod_lt; lia))|].
      unfold isSpace in E. apply bool_decide_eq_true in E. lia. }
    destruct (decide (y / 10 = 0)%N) as [E|E]; [by rewrite E, pretty_N_go_0|].
    apply IH; [by apply N.div_lt| |done]. revert E. generalize (y / 10)%N. lia. }
  assert (forall x : N, dense (pretty x)) as HN.
  { intros x. unfold pretty, pretty_N. case_decide; [by repeat constructor|]. apply H; [lia|constructor]. }
  unfold FormatInt. destruct z as [|p|p]; [by repeat constructor|apply HN|].
  change (pretty (Z.neg p)) with ("-" +:+ pretty (N.pos p)). unfold dense. rewrite chars_app. by constructor; [|apply HN].
Qed.

Lemma parse_number z : int64_range z -> ParseInt (TrimSpace (FormatInt z)) = (z, None).
Proof. intros H. rewrite dense_trim by apply FormatInt_dense. by apply ParseInt_FormatInt. Qed.

(** ** Where replies go *)

Definition threadRef (m : NormalizedMessage) : string := match nm_Thread m with Some t => th_ID t | None => "" end.

Section Replies.
Context `{FL : Float64}.
Variable service : option ServiceConfig.
Variable ingress : NativeIngress.

(** The reply that reaches the provider for a message that was executed. *)
Definition replyTo (m : NormalizedMessage) (text : string) : DeliveryRequest :=
  completeDeliveryRequest (textReply text (replyMetadata m service)) ingress m.

Lemma reply_lookup m text k : k <> "thread_type" -> mget (dr_Metadata (replyTo m text)) k = mget (replyMetadata m service) k.
Proof.
  intros Hk. unfold replyTo, completeDeliveryRequest. cbv zeta. cbn [dr_Metadata textReply].
  destruct (nm_Thread m) as [t|]; [|done]. case_decide; [done|]. destruct (mget _ "thread_type"); [done|].
  rewrite mget_mset. by rewrite decide_False by done.
Qed.

Lemma reply_fields m text :
  dr_ChannelID (replyTo m text) = cn_ID (nm_Channel m) /\ dr_Text (replyTo m text) = text /\ dr_ThreadID (replyTo m text) = threadRef m.
Proof. unfold replyTo, completeDeliveryRequest, threadRef. by destruct (nm_Thread m). Qed.

Lemma metadataText_str m k s : mget m k = Some (AStr s) -> metadataText m k = TrimSpace s.
Proof. unfold metadataText. by intros ->. Qed.

Lemma metadataText_none m k : mget m k = None -> metadataText m k = "".
Proof. unfold metadataText. by intros ->. Qed.
End Replies.

(** The message as it is executed: completed by the runtime and stamped with its profile. *)
Definition executedMessage (ingress : NativeIngress) (m : NormalizedMessage) (profile : string) : NormalizedMessage :=
  set_profile (completeMessage ingress m) profile.

Lemma executed_fields ingress m profile :
  let m' := executedMessage ingress m profile in
  nm_Channel m' = nm_Channel m /\ nm_Sender m' = nm_Sender m /\ nm_Thread m' = nm_Thread m /\
  nm_PlatformMetadata m' = nm_PlatformMetadata m /\ (nm_Platform m <> "" -> nm_Platform m' = nm_Platform m).
Proof. repeat split. intros H. simpl. unfold orElse. by rewrite decide_False. Qed.

(** The ids of an update that a reply needs, in the range of their type. *)
Definition ids_in_range (chat : telegramChat) (tm : telegramMessage) : Prop :=
  int64_range (tc_ID chat) /\ int64_range (tm_MessageID tm) /\ int64_range (tm_MessageThreadID tm).

Lemma telegram_fields now ingress u m tm source chat :
  telegramMessageFromUpdate u = Some (tm, source) -> tm_Chat tm = Some chat -> telegramNormalize now ingress u = Ok m ->
  nm_Platform m = PlatformTelegram /\ cn_ID (nm_Channel m) = FormatInt (tc_ID chat) /\
  exists meta, nm_PlatformMetadata m = Some meta /\
    mget meta "telegram_message_id" = Some (AStr (FormatInt (tm_MessageID tm))) /\
    mget meta "telegram_message_thread_id" =
      (if decide (tm_MessageThreadID tm <> 0) then Some (AStr (FormatInt (tm_MessageThreadID tm))) else None).
Proof.
  intros Hu Hc. unfold telegramNormalize. rewrite Hu, Hc. cbv zeta. case_decide; [done|]. intros [= <-].
  split; [done|]. split; [done|]. eexists. split; [reflexivity|]. split; [done|].
  destruct (decide (td_UpdateID u <> 0)), (decide (tm_MessageThreadID tm <> 0)), (td_CallbackQuery u); reflexivity.
Qed.

Lemma firstConfigured_first v vs : TrimSpace v <> "" -> firstConfigured (v :: vs) = TrimSpace v.
Proof. intros H. by rewrite firstConfigured_cons, decide_False. Qed.

(** A reply goes back to where its message came from.  For a Telegram update it is sent
    to the chat of the update, in its topic and as an answer to its message, for all
    identifiers of 64 bits; on Slack to the channel and thread of the message; on WhatsApp
    to the sender, from the number that received the message, by the provider of the
    service. *)
Theorem reply_reaches_conversation `{FL : Float64} service ingress msg profile text :
  let m := executedMessage ingress msg profile in
  let reply := replyTo service ingress m text in
  (forall now u tm source chat,
     telegramMessageFromUpdate u = Some (tm, source) -> tm_Chat tm = Some chat -> ids_in_range chat tm ->
     telegramNormalize now ingress u = Ok msg ->
     telegramRequest reply =
       mkTgSend (ChatNumber (tc_ID chat)) text (tm_MessageThreadID tm)
         (if decide (tm_MessageID tm = 0) then None else Some (tm_MessageID tm))) /\
  (nm_Platform msg = PlatformSlack ->
     slackRequest reply = mkSlackSend (cn_ID (nm_Channel msg)) text (threadRef msg)) /\
  (forall c w, nm_Platform msg = PlatformWhatsApp -> TrimSpace (sn_ID (nm_Sender msg)) <> "" -> TrimSpace (cn_ID (nm_Channel msg)) <> "" ->
     whatsappDelivery c reply = Ok w ->
     wd_To w = TrimSpace (sn_ID (nm_Sender msg)) /\ wd_PhoneNumberID w = TrimSpace (cn_ID (nm_Channel msg)) /\ wd_Body w = text /\
     wd_Provider w = ToLower (serviceProvider service "whatsapp-cloud")).
Proof.
  intros m reply. destruct (executed_fields ingress msg profile) as (Hch & Hsn & Hth & Hmeta & Hpl). fold m in Hch, Hsn, Hth, Hmeta, Hpl.
  destruct (reply_fields service ingress m text) as (Rch & Rtx & Rth). fold reply in Rch, Rtx, Rth.
  assert (forall k, k <> "thread_type" -> mget (dr_Metadata reply) k = mget (replyMetadata m service) k) as Hget
    by (intros k; apply reply_lookup).
  clearbody m reply. split; [|split].
  - intros now u tm source chat Hu Hc (I1 & I2 & I3) Hn.
    destruct (telegram_fields _ _ _ _ _ _ _ Hu Hc Hn) as (Hp & Hid & meta & Hm & G1 & G2).
    assert (replyMetadata m service = copyKey meta "telegram_message_thread_id" "message_thread_id"
      [("reply_to_message_id", AStr (FormatInt (tm_MessageID tm)))]) as Hr.
    { unfold replyMetadata. rewrite Hpl, Hp, Hmeta, Hm by (by rewrite Hp). simpl. unfold copyKey at 2. by rewrite G1. }
    unfold telegramRequest. rewrite Rch, Rtx, Hch, Hid. unfold parseTelegramChatID. rewrite (parse_number _ I1).
    assert (forall k, k <> "thread_type" -> mget (dr_Metadata reply) k = None -> metadataText (dr_Metadata reply) k = "") as Hnone
      by (intros; by apply metadataText_none).
    rewrite (Hnone "telegram_message_thread_id"), (Hnone "telegram_message_id")
      by (try done; rewrite Hget by done; rewrite Hr; unfold copyKey; rewrite G2; by case_decide).
    rewrite (metadataText_str _ "reply_to_message_id" (FormatInt (tm_MessageID tm)))
      by (rewrite Hget by done; rewrite Hr; unfold copyKey; rewrite G2; by case_decide).
    rewrite (dense_trim _ (FormatInt_dense (tm_MessageID tm))). cbn [firstNonEmptyString].
    rewrite (decide_False (P := FormatInt (tm_MessageID tm) = "")) by apply FormatInt_nonempty.
    unfold parseOptionalInt64. rewrite (parse_number _ I2). cbn [fst]. f_equal.
    + destruct (decide (tm_MessageThreadID tm = 0)) as [Et|Et].
      * rewrite (Hnone "message_thread_id"); [by rewrite Et|done|]. rewrite Hget by done. rewrite Hr. unfold copyKey. rewrite G2.
        by rewrite decide_False by (intros H; by apply H).
      * rewrite (metadataText_str _ "message_thread_id" (FormatInt (tm_MessageThreadID tm))).
        2: { rewrite Hget by done. rewrite Hr. unfold copyKey. rewrite G2, decide_True by done. by rewrite mget_mset. }
        rewrite (dense_trim _ (FormatInt_dense _)). rewrite !(decide_False (P := FormatInt (tm_MessageThreadID tm) = ""))
          by apply FormatInt_nonempty. by rewrite (parse_number _ I3).
    + by rewrite decide_False by apply FormatInt_nonempty.
  - intros Hp. assert (replyMetadata m service = []) as Hr.
    { unfold replyMetadata. by rewrite Hpl, Hp by (by rewrite Hp). }
    unfold slackRequest. rewrite !metadataText_none by (rewrite Hget by done; by rewrite Hr).
    rewrite Rch, Rtx, Rth, Hch. unfold threadRef. by rewrite Hth.
  - intros c w Hp Hs Hc Hw.
    assert (mget (dr_Metadata reply) "to" = Some (AStr (sn_ID (nm_Sender msg))) /\
            mget (dr_Metadata reply) "phone_number_id" = Some (AStr (cn_ID (nm_Channel msg))) /\
            mget (dr_Metadata reply) "provider" = Some (AStr (serviceProvider service "whatsapp-cloud"))) as (M1 & M2 & M3).
    { rewrite !Hget by done. unfold replyMetadata. rewrite Hpl, Hp, Hsn, Hch by (by rewrite Hp). simpl.
      unfold setNonEmpty. by repeat case_decide. }
    assert (forall k s, mget (dr_Metadata reply) k = Some (AStr s) -> metadataString (dr_Metadata reply) k = TrimSpace s) as Hstr.
    { intros k s H. unfold metadataString. by rewrite H. }
    assert (TrimSpace (serviceProvider service "whatsapp-cloud") = serviceProvider service "whatsapp-cloud" /\
            serviceProvider service "whatsapp-cloud" <> "") as [Pt Pn].
    { unfold serviceProvider. case_decide as Hv; [done|]. split; [|done]. unfold serviceOption. destruct service; [|done]. apply TrimSpace_idem. }
    unfold whatsappDelivery in Hw. rewrite (Hstr _ _ M1), (Hstr _ _ M2), (Hstr _ _ M3) in Hw. cbv zeta in Hw.
    destruct (wp_RequireTemplate c && _); [done|]. repeat (case_decide; [done|]). injection Hw as <-. cbn.
    rewrite !TrimSpace_idem. rewrite !(decide_False (P := TrimSpace _ = "")) by (rewrite ?Pt; done). by rewrite Pt.
Qed.

Definition topic_update : telegramUpdate :=
  mkTgUpdate 77 (Some (mkTgMessage 5 9 (Some (mkTgUser 42 "Ann" "" "ann")) None (Some (mkTgChat (-1001234567890) "supergroup" "Ops" "" "" ""))
    1700000000 "deploy" "" None None None None None [])) None None None None.

Definition topic_ingress : NativeIngress := mkIngress "" "bot" "telegram" "webhook" "POST" "/" ∅ ∅ "" "" 0 1 [].

Lemma reply_reaches_conversation_witness : exists msg,
  telegramNormalize 5 topic_ingress topic_update = Ok msg /\
  telegramRequest (FL := plain_float) (replyTo None topic_ingress (executedMessage topic_ingress msg "dev") "done")
    = mkTgSend (ChatNumber (-1001234567890)) "done" 9 (Some 5).
Proof.
  destruct (telegramNormalize 5 topic_ingress topic_update) as [msg|e] eqn:E; [|by vm_compute in E].
  exists msg. split; [done|].
  destruct (reply_reaches_conversation (FL := plain_float) None topic_ingress msg "dev" "done") as [H _].
  rewrite (H 5 topic_update _ "message" _ eq_refl eq_refl); [done| |done].
  unfold ids_in_range, int64_range, min_int64, max_int64. simpl. lia.
Defined.
