(* ===== verification/MsgHandler.v ===== *)
(** * The webhook handler

    handler.go of src/internal/adapters/messenger: a request to the webhook of a message
    service is authenticated, its message is admitted, routed and executed, the reply is
    delivered and the events of the service are recorded.

    The state is a [World]: the files of the services, the table of turns and the replay
    store of the validator.  What a request sets off is returned as a list of [Act]s.  The
    message log, which only observes, and the timestamps of responses are left out;
    responses are values, before they are encoded and redacted. *)

From Stdlib Require Import ZArith Lia String Ascii Floats.SpecFloat.
From stdpp Require Import base option list gmap strings pretty.
From S2P Require Import Prelude Text Events GoValue MsgTypes MsgConfig MsgAuth MsgHistory Normalizer MsgRouter MsgRuntime Chat Service MsgPhone MsgChat MsgProviders.

#[local] Open Scope Z_scope.

(** ** Requests and responses *)

Record Request : Type := mkReq {
  rq_Method : string;
  rq_Path : string;
  rq_RequestURI : string;
  rq_Header : gmap string (list string);
  rq_Query : gmap string (list string);
  rq_ReadBody : Res string string;
  rq_RemoteAddr : string;
  rq_Host : string;
  rq_TLS : bool
}.

Inductive Response : Type :=
  | RespError (code : Z) (message : string)
  | RespJSON (fields : amap) (delivery : option DeliveryReceipt)
  | RespTwiML (reply : string)
  | RespText (body : string)
  | RespPanic.

Definition resp_code (r : Response) : Z := match r with RespError code _ => code | RespPanic => 0 | _ => 200 end.

Inductive Act : Type :=
  | ActRun (input : RunInput)
  | ActChat (turn : ChatTurn)
  | ActVoice (message : NormalizedMessage).

Record World : Type := mkWorld {
  w_Services : ServiceFiles;
  w_Turns : TurnTable;
  w_Validator : ServiceValidator
}.

Definition set_services (w : World) (fs : ServiceFiles) : World := mkWorld fs (w_Turns w) (w_Validator w).
Definition set_turns (w : World) (db : TurnTable) : World := mkWorld (w_Services w) db (w_Validator w).
Definition set_validator (w : World) (v : ServiceValidator) : World := mkWorld (w_Services w) (w_Turns w) v.

Record Outcome : Type := mkOutcome { oc_Response : Response; oc_World : World; oc_Acts : list Act }.

Definition answer (w : World) (r : Response) : Outcome := mkOutcome r w [].

(** [extractPlatform]: the segment between /messengers/ and /webhook. *)
Definition extractPlatform (path : string) : string :=
  match reverse (map unchars (splitOn "/"%char (chars (TrimRightSlash path)))) with
  | last :: platform :: prefix :: _ =>
      if decide (last <> "webhook" \/ prefix <> "messengers") then "" else platform
  | _ => ""
  end.

Definition hasAudioAttachment (msg : NormalizedMessage) : bool := existsb (fun a => bool_decide (at_Type a = "audio")) (nm_Attachments msg).

(** What [handler.validator] holds when a handler is made. *)
Definition handlerHooks : gmap string ProviderAuthHook :=
  <["whatsapp-cloud" := WhatsAppHook]> (<[PlatformWhatsApp := WhatsAppHook]> (<[PlatformSlack := SlackHook]>
    (<[PlatformTelegram := TelegramHook]> (va_Hooks NewServiceValidator)))).

Definition NewHandler_validator : ServiceValidator := mkValidator handlerHooks (va_Replay NewServiceValidator).

(** [WithServiceValidator]: hooks that are missing are added. *)
Definition WithServiceValidator (v : ServiceValidator) : ServiceValidator :=
  mkValidator (va_Hooks v ∪ list_to_map [(PlatformTelegram, TelegramHook); (PlatformSlack, SlackHook); (PlatformWhatsApp, WhatsAppHook);
                                         ("whatsapp-cloud", WhatsAppHook)]) (va_Replay v).

Definition publicRequestURL (r : Request) (service : ServiceConfig) : string :=
  let configured := TrimSpace (opt (sc_Options service) "webhook_url") in
  if decide (configured <> "") then configured
  else
    let forwarded := TrimSpace (headerGet (rq_Header r) "X-Forwarded-Proto") in
    let scheme := if decide (forwarded <> "") then unchars (default [] (head (splitOn ","%char (chars forwarded))))
                  else if rq_TLS r then "https" else "http" in
    let host := TrimSpace (headerGet (rq_Header r) "X-Forwarded-Host") in
    let host := if decide (host = "") then rq_Host r else host in
    let host := if decide (host = "") then "127.0.0.1" else host in
    scheme +:+ "://" +:+ host +:+ rq_RequestURI r.

Definition isForm (headers : gmap string (list string)) : bool :=
  Contains (ToLower (headerGet headers "Content-Type")) "application/x-www-form-urlencoded".

Definition writeValidationError (e : RequestErr) : Response :=
  match e with
  | ContextErr => RespError 500 "message provider validation failed: context canceled"
  | RequestErr_of e =>
      let text := MessengerError_Error e in
      if IsAuthFailed e then RespError 401 ("message provider validation failed: " +:+ text)
      else if IsSenderNotAllowed e then RespError 403 ("message sender not allowed: " +:+ text)
      else RespError 500 ("message provider validation failed: " +:+ text)
  end.

Definition writeProviderRuntimeError (provider : string) (e : RuntimeError) : Response :=
  let text := GoErr_Error (re_Err e) in
  match re_Stage e with
  | StageNormalize =>
      match re_Err e with
      | ErrMessenger err =>
          if IsSenderNotAllowed err then writeValidationError (RequestErr_of err)
          else RespError 400 (provider +:+ " normalization failed: " +:+ text)
      | ErrText _ => RespError 400 (provider +:+ " normalization failed: " +:+ text)
      end
  | StageRoute => RespError 500 (provider +:+ " route failed: " +:+ text)
  | StageExecute => RespError 500 (provider +:+ " execution failed: " +:+ text)
  | StageDeliver => RespError 502 (provider +:+ " delivery failed: " +:+ text)
  | StageIngress => RespError 500 (provider +:+ " runtime failed: " +:+ text)
  end.

Definition twilioSMSReply (service : option ServiceConfig) (result : ActionResult) : string :=
  if decide (re_Status result <> "success" \/ replyMode service = replyModeNone) then "" else TrimSpace (re_Output result).

(** [writeTwiML]; [EscapeText] is the one of encoding/xml. *)
Definition twimlBody (EscapeText : string -> string) (reply : string) : string :=
  "<?xml version=" +:+ Quote "1.0" +:+ " encoding=" +:+ Quote "UTF-8" +:+ "?>" +:+ unchars [ascii_of_N 10]
  +:+ (if decide (reply = "") then "<Response/>" else "<Response><Message>" +:+ EscapeText reply +:+ "</Message></Response>").

(** ** Events of the service *)

Definition durationText (Duration_String : Z -> string) (d : Z) : string := if decide (d > 0) then Duration_String d else "".

Section Recording.
(** [time.Duration.String]. *)
Variable Duration_String : Z -> string.

Definition serviceDeliveryAttempt (a : DeliveryAttempt) : ServiceDeliveryAttempt :=
  mkDeliveryAttempt (if IsZero (da_FinishedAt a) then da_StartedAt a else da_FinishedAt a) (da_Provider a) (da_MessageID a)
    (da_ChannelID a) (da_Attempt a) (da_MaxAttempts a) (da_Status a) (da_DeliveryID a) (da_Retriable a)
    (durationText Duration_String (da_Delay a)) (da_RedactedError a).

Definition serviceDeliveryAttempts (attempts : list DeliveryAttempt) : list ServiceDeliveryAttempt := map serviceDeliveryAttempt attempts.

Definition serviceRetryPolicy (p : RetryPolicy) : ServiceRetryPolicy :=
  mkRetryPolicy (rp_MaxAttempts p) (Duration_String (rp_BaseDelay p)) (Duration_String (rp_MaxDelay p)).

Definition plainEvent (messageID platform channelID senderID status detail : string) : ServiceEventMeta :=
  mkEventMeta 0 "" messageID platform channelID senderID status detail "" 0 0 false "" [] None.

Definition messageEvent (msg : NormalizedMessage) (platform status detail : string) : ServiceEventMeta :=
  plainEvent (nm_ID msg) platform (cn_ID (nm_Channel msg)) (sn_ID (nm_Sender msg)) status detail.

(** The event of [recordServiceDeliveryAttempts]; none without attempts. *)
Definition deliveryEvent (now : Z) (attempts : list DeliveryAttempt) (msg : option NormalizedMessage) : option ServiceEventMeta :=
  match last attempts with
  | None => None
  | Some l =>
      let at_ := if IsZero (da_FinishedAt l) then da_StartedAt l else da_FinishedAt l in
      let at_ := if IsZero at_ then now else at_ in
      let messageID := match msg with Some m => orElse (da_MessageID l) (nm_ID m) | None => da_MessageID l end in
      let channelID := match msg with Some m => orElse (da_ChannelID l) (cn_ID (nm_Channel m)) | None => da_ChannelID l end in
      let senderID := match msg with Some m => sn_ID (nm_Sender m) | None => "" end in
      Some (mkEventMeta at_ "" messageID (da_Provider l) channelID senderID (da_Status l) (da_RedactedError l) (da_DeliveryID l) 0 0 false ""
              (serviceDeliveryAttempts attempts) (Some (serviceRetryPolicy DefaultRetryPolicy)))
  end.

(** The event of [recordServiceExecutionEvent]. *)
Definition executionEvent (msg : NormalizedMessage) (result : ExecutionResult) : ServiceEventMeta :=
  let s := TrimSpace (ToLower (xr_Status result)) in
  let '(status, detail) :=
    if decide (s = "success" \/ s = "completed") then ("executed", "execution completed without provider delivery")
    else if decide (s = "failed" \/ s = "error" \/ s = "timeout") then ("failed", "execution failed before provider delivery")
    else if decide (TrimSpace (xr_Status result) <> "") then (xr_Status result, "execution completed without provider delivery")
    else ("executed", "execution completed without provider delivery") in
  messageEvent msg (nm_Platform msg) status detail.
End Recording.

(** ** The handler *)

(** A provider under the runtime; [None] is a panic of its normalization. *)
Record BaseProvider : Type := mkBase {
  bp_Provider : string;
  bp_normalize : NativeIngress -> option (Res GoErr NormalizedMessage);
  bp_deliver : Z -> DeliveryRequest -> Res string DeliveryReceipt
}.

(** What one request finds: the time, whether its context is done, the entry that a full
    replay store evicts, and whether the store of turns and the files of services take
    writes. *)
Record CallEnv : Type := mkCall {
  ce_now : Z;
  ce_cancelled : bool;
  ce_pick : gmap string Z -> option string;
  ce_history : HistoryEnv;
  ce_fault : bool
}.

(** The fields of a [Handler] and the collaborators it was made with. *)
Record HandlerConfig : Type := mkHandlerConfig {
  hc_resolve : string -> NormalizedMessage -> Res (MessengerError * bool) (string * string);
  hc_execute : option (RunInput -> Res string (option RunState));
  hc_router : RouterConfig;
  hc_render : RouterErr -> string;
  hc_voice : option (NormalizedMessage -> option string);
  hc_chat : ChatTurn -> Res ChatErr (option ChatTurnResult);
  hc_telegram : Z -> TelegramSendMessageRequest -> Res string (option TelegramAPIResponse);
  hc_slack : Z -> SlackPostMessageRequest -> Res string (option SlackPostMessageResponse);
  hc_whatsapp : option (WhatsAppDelivery -> Res SendErr SendResult);
  hc_clock : Z -> Z * Z;
  hc_sleep : Z -> Z -> option string;
  hc_redact : string -> string;
  hc_duration : Z -> string
}.

(** [json.Unmarshal], [url.ParseQuery] and the HTTP client. *)
Record Codecs : Type := mkCodecs {
  cd_Unmarshal : string -> Res string (option amap);
  cd_Update : string -> Res string telegramUpdate;
  cd_ParseForm : string -> Res string (gmap string (list string));
  cd_Do : HTTPRequest -> Res string HTTPResponse
}.

Section Handler.
Context `{FL : Float64} `{ME : MsgEnv}.
Variable H : HandlerConfig.
Variable C : Codecs.
Variable env : CallEnv.

Let now := ce_now env.
Let cancelled := ce_cancelled env.

Definition formValuesForValidation (headers : gmap string (list string)) (body : string) : option (gmap string (list string)) :=
  if negb (isForm headers) then None
  else match cd_ParseForm C body with Ok values => Some values | Err _ => None end.

Definition formToMap : gmap string (list string) -> amap := valuesToMap.

Definition decodeWebhookBody (platform : string) (headers : gmap string (list string)) (body : string) : Res string (option amap) :=
  if bool_decide (platform = PlatformSMS \/ platform = PlatformWhatsApp) && isForm headers then
    match cd_ParseForm C body with
    | Ok values => Ok (Some (formToMap values))
    | Err text => Err ("invalid " +:+ platform +:+ " form body: " +:+ text)
    end
  else
    match cd_Unmarshal C body with
    | Ok m => Ok m
    | Err text => Err ("invalid JSON body: " +:+ text)
    end.

(** *** Recording *)

Definition recordInboundEvent (w : World) (serviceID : string) (e : ServiceEventMeta) : World :=
  set_services w (RecordServiceInboundEvent (hc_redact H) now (ce_fault env) (w_Services w) serviceID e).1.

Definition recordOutboundEvent (w : World) (serviceID : string) (e : ServiceEventMeta) : World :=
  set_services w (RecordServiceOutboundEvent (hc_redact H) now (ce_fault env) (w_Services w) serviceID e).1.

Definition recordServiceDeliveryAttempts (w : World) (serviceID : string) (attempts : list DeliveryAttempt)
    (msg : option NormalizedMessage) : World :=
  match deliveryEvent (hc_duration H) now attempts msg with
  | None => w
  | Some e => recordOutboundEvent w serviceID e
  end.

Definition recordServiceExecutionEvent (w : World) (serviceID : string) (msg : NormalizedMessage) (result : ExecutionResult) : World :=
  recordOutboundEvent w serviceID (executionEvent msg result).

(** *** Execution *)

Definition resolveMessageRoute (msg : NormalizedMessage) : option string * Res string ExecutionRoute :=
  match ResolveMessageRoute (hc_resolve H) cancelled msg with
  | (msg, Ok route) => (Some (nm_ProfileID msg), Ok route)
  | (_, Err e) => (None, Err (hc_render H e))
  end.

(** [serviceRuntimeExecutor.ExecuteMessage], with what it sets off. *)
Definition ExecuteMessage (service : ServiceConfig) (db : TurnTable) (h : ExecutionHandoff) :
    TurnTable * Res string (option ExecutionResult) * list Act :=
  let msg := ho_Message h in
  if decide (serviceExecutionMode (Some service) = "chat") then
    let db := recordInboundTurn (hc_router H) (ce_history env) db msg (ho_ProfileID h) (ho_ActionName h) in
    match ChatExecuteMessage (hc_chat H) (Some service) cancelled h with
    | Ok result => (db, Ok (Some result), [ActChat (chatTurn h)])
    | Err text => (db, Err text, [])
    end
  else
    match ExecuteAction (hc_execute H) (hc_router H) cancelled (ce_history env) db (ho_ProfileID h) (ho_ActionName h) msg
            [serviceHistoryTurns (Some service)] with
    | (db, r, input) =>
        let acts := match input with Some i => [ActRun i] | None => [] end in
        match r with
        | Err e => (db, Err (hc_render H e), acts)
        | Ok result =>
            let reply :=
              if decide (re_Status result <> "success" \/ replyMode (Some service) = replyModeNone \/ TrimSpace (re_Output result) = "")
              then None else Some (textReply (re_Output result) (replyMetadata msg (Some service))) in
            (db, Ok (Some (mkExec (re_Status result) (re_Output result) reply ∅)), acts)
        end
    end.

(** *** The runtime path *)

Definition serviceValidatingProvider (b : BaseProvider) (service : ServiceConfig) : MessageProvider := {|
  mp_Provider := bp_Provider b;
  NormalizeIngress i :=
    match bp_normalize b i with
    | Some (Ok m) =>
        match ValidateMessage (serviceValidationConfig (Some service)) (Some m) with
        | Some e => Err (ErrMessenger e)
        | None => Ok (Some m)
        end
    | Some (Err e) => Err e
    | None => Err (ErrText "")
    end;
  DeliverMessage := Some (fun k d => match bp_deliver b k d with Ok r => Ok (Some r) | Err text => Err text end)
|}.

(** The effects of a pass on the table of turns, in the order of its trace. *)
Definition replayEvent (service : ServiceConfig) (s : TurnTable * list Act) (e : RuntimeEvent) : TurnTable * list Act :=
  match e with
  | EvExecute h => let '(db, _, acts) := ExecuteMessage service s.1 h in (db, s.2 ++ acts)
  | EvTurn t => ((AppendTurn (he_now (ce_history env)) (rc_retention (hc_router H)) (he_append (ce_history env)) s.1 t).1, s.2)
  | _ => s
  end.

Definition replay (service : ServiceConfig) (db : TurnTable) (trace : list RuntimeEvent) : TurnTable * list Act :=
  foldl (replayEvent service) (db, []) trace.

Definition attemptsOf (trace : list RuntimeEvent) : list DeliveryAttempt :=
  omap (fun e => match e with EvAttempt a => Some a | _ => None end) trace.

Definition webhookIngress (r : Request) (body serviceID platform : string) : NativeIngress :=
  mkIngress "" serviceID platform "webhook" (rq_Method r) (rq_Path r) (rq_Header r) (rq_Query r) body (rq_RemoteAddr r) 0 0 [].

(** [None] is a panic of the normalization. *)
Definition servicePass (b : BaseProvider) (service : ServiceConfig) (w : World) (ingress : NativeIngress) (serviceID : string) :
    option (list RuntimeEvent * Res RuntimeError RuntimeResult) :=
  let MP := serviceValidatingProvider b service in
  let full := completeIngress (MP := MP) serviceID now ingress in
  match NativeIngress_Validate full, bp_normalize b full with
  | None, None => None
  | _, _ =>
      HandleIngress (MP := MP) resolveMessageRoute (fun h => (ExecuteMessage service (w_Turns w) h).1.2) (hc_clock H) (hc_sleep H)
        (hc_redact H) serviceID DefaultRetryPolicy (rc_history (hc_router H)) now ingress
  end.

Definition passResponse (res : RuntimeResult) : Response :=
  RespJSON [("status", AStr (xr_Status (rs_Result res))); ("message_id", AStr (nm_ID (rs_Message res)));
            ("route", AStr (ExecutionRoute_TargetAction (rs_Route res)))] (rs_Delivery res).

(** The common part of the three service webhooks: [label] names the provider in errors. *)
Definition serviceWebhook (label platform : string) (b : BaseProvider) (w : World) (r : Request) (body serviceID : string)
    (service : ServiceConfig) : Outcome :=
  match servicePass b service w (webhookIngress r body serviceID platform) serviceID with
  | None => answer w RespPanic
  | Some (trace, result) =>
      let '(db, acts) := replay service (w_Turns w) trace in
      let w := set_turns w db in
      match result with
      | Err e =>
          mkOutcome (writeProviderRuntimeError label e) (recordServiceDeliveryAttempts w serviceID (attemptsOf trace) None) acts
      | Ok res =>
          let msg := rs_Message res in
          let w := recordInboundEvent w serviceID (messageEvent msg platform "received" "") in
          let w :=
            match rs_Delivery res with
            | Some delivery =>
                let w := recordServiceDeliveryAttempts w serviceID (rs_DeliveryAttempts res) (Some msg) in
                if decide (rs_DeliveryAttempts res = []) then recordOutboundEvent w serviceID (messageEvent msg platform (rc_Status delivery) "")
                else w
            | None => recordServiceExecutionEvent w serviceID msg (rs_Result res)
            end in
          mkOutcome (passResponse res) w acts
      end
  end.

Definition GoErr_of {A} (r : Res string A) : Res GoErr A := match r with Ok a => Ok a | Err text => Err (ErrText text) end.

Definition telegramBase (service : ServiceConfig) : BaseProvider :=
  let token := TrimSpace (resolveServiceEnv (Some service) "TELEGRAM_BOT_TOKEN") in
  mkBase PlatformTelegram (fun i => Some (GoErr_of (TelegramProvider_NormalizeIngress (cd_Update C) cancelled now i)))
    (fun k d => TelegramProvider_DeliverMessage token (hc_telegram H k) now d).

Definition slackBase (service : ServiceConfig) : BaseProvider :=
  let token := TrimSpace (resolveServiceEnv (Some service) "SLACK_BOT_TOKEN") in
  mkBase PlatformSlack (fun i => Some (SlackProvider_NormalizeIngress (cd_Unmarshal C) TimeParse cancelled now i))
    (fun k d => match SlackProvider_DeliverMessage token (hc_slack H k) now d with Ok r => Ok r | Err e => Err (GoErr_Error e) end).

Definition whatsappConfig (serviceID : string) (service : ServiceConfig) : WhatsAppProviderConfig :=
  let s := Some service in
  NewWhatsAppProvider (mkWhatsAppConfig serviceID (serviceProvider s "whatsapp-cloud") (resolveServiceEnv s "WHATSAPP_ACCESS_TOKEN")
    (serviceOption s "phone_number_id") (serviceOption s "from") (resolveServiceEnv s "TWILIO_ACCOUNT_SID")
    (resolveServiceEnv s "TWILIO_AUTH_TOKEN") (serviceOption s "whatsapp_api_base_url") (serviceOption s "template_name")
    (serviceOption s "language_code") (truthyHandlerOption (serviceOption s "template_required"))).

Definition whatsappBase (serviceID : string) (service : ServiceConfig) : BaseProvider :=
  let c := whatsappConfig serviceID service in
  mkBase PlatformWhatsApp
    (fun i => match WhatsAppProvider_NormalizeIngress (cd_Unmarshal C) (cd_ParseForm C) c now i with
              | Some (Ok m) => Some (Ok m)
              | Some (Err e) => Some (Err (ErrMessenger e))
              | None => None
              end)
    (fun _ d => match WhatsAppProvider_DeliverMessage (cd_Do C) (cd_Unmarshal C) c (hc_whatsapp H) now d with
                | Ok r => Ok r
                | Err e => Err (SendErr_Error e)
                end).

(** *** Slack *)

(** [handleSlackAcknowledgement]: the validator after it, and the response if it answers. *)
Definition handleSlackAcknowledgement (v : ServiceValidator) (body : option amap) (serviceID : string) (service : option ServiceConfig) :
    ServiceValidator * option Response :=
  let event_ignored (reason eventID : string) :=
    RespJSON [("status", AStr "ignored"); ("reason", AStr reason); ("event_id", AStr eventID)] None in
  if decide (getStringOf body "type" = "url_verification") then
    let challenge := getStringOf body "challenge" in
    (v, Some (if decide (challenge = "") then RespError 400 "Slack URL verification payload is missing challenge" else RespText challenge))
  else
    let eventID := getStringOf body "event_id" in
    let '(v, seen) :=
      if decide (serviceID <> "" /\ eventID <> "")
      then MarkReplay now (ce_pick env) v serviceID ("slack:event:" +:+ eventID) (slackDedupTTL service)
      else (v, false) in
    if seen then (v, Some (RespJSON [("status", AStr "duplicate"); ("event_id", AStr eventID); ("message_id", AStr eventID)] None))
    else
      match body with
      | None => (v, None)
      | Some m =>
          match getMap m "event" with
          | None => (v, None)
          | Some event =>
              let eventType := getString event "type" in
              if decide (eventType <> "" /\ eventType <> "message" /\ eventType <> "app_mention")
              then (v, Some (event_ignored "unsupported_slack_event" eventID))
              else if decide (getString event "bot_id" <> "" \/ getString event "subtype" = "bot_message")
              then (v, Some (event_ignored "slack_bot_message" eventID))
              else (v, None)
          end
      end.

Definition handleTelegramServiceWebhook (w : World) (r : Request) (body serviceID : string) (service : ServiceConfig) : Outcome :=
  serviceWebhook PlatformTelegram PlatformTelegram (telegramBase service) w r body serviceID service.

Definition handleSlackServiceWebhook (w : World) (r : Request) (rawBody serviceID : string) (service : ServiceConfig) : Outcome :=
  match decodeWebhookBody PlatformSlack (rq_Header r) rawBody with
  | Err text => answer w (RespError 400 text)
  | Ok body =>
      match handleSlackAcknowledgement (w_Validator w) body serviceID (Some service) with
      | (v, Some resp) => answer (set_validator w v) resp
      | (v, None) => serviceWebhook PlatformSlack PlatformSlack (slackBase service) (set_validator w v) r rawBody serviceID service
      end
  end.

Definition handleWhatsAppServiceWebhook (w : World) (r : Request) (body serviceID : string) (service : ServiceConfig) : Outcome :=
  serviceWebhook PlatformWhatsApp PlatformWhatsApp (whatsappBase serviceID service) w r body serviceID service.

Definition queryGet (q : gmap string (list string)) (key : string) : string :=
  match q !! key with Some (v :: _) => v | _ => "" end.

Definition handleWhatsAppVerification (w : World) (r : Request) (serviceID adapter : string) : Outcome :=
  match LoadService (w_Services w) serviceID with
  | Err _ => answer w (RespError 404 ("service " +:+ Quote serviceID +:+ " not found"))
  | Ok service =>
      if decide (sc_Type service <> "message" \/ TrimSpace (sc_Adapter service) <> adapter)
      then answer w (RespError 400 ("service " +:+ Quote serviceID +:+ " is not a WhatsApp message service"))
      else
        match WhatsAppVerificationChallenge (serviceValidationConfig (Some service)) (queryGet (rq_Query r)) with
        | Err e => answer w (writeValidationError (RequestErr_of e))
        | Ok challenge => answer w (RespText challenge)
        end
  end.

(** *** The generic path *)

(** The run state of a result carries the profile and the action it was run with. *)
Definition recordWebhookReplyTurn (w : World) (msg : NormalizedMessage) (service : option ServiceConfig) (result : ActionResult)
    (input : option RunInput) : World :=
  if decide (re_Status result <> "success" \/ replyMode service = replyModeNone) then w
  else
    let '(profileID, actionName) :=
      match input with Some i => (ri_ProfileID i, ri_ActionID i) | None => (nm_ProfileID msg, "") end in
    set_turns w (recordOutboundTurn (hc_router H) (ce_history env) (w_Turns w) msg (TrimSpace (re_Output result)) profileID actionName).

Definition response_of (platform : string) (result : ActionResult) : amap :=
  let generic := [("status", AStr (re_Status result)); ("message", AStr (re_Output result))] in
  if decide (re_Status result = "success") then
    match Denormalize platform (Some result) with Ok m => m | Err _ => generic end
  else generic.

Definition inputActs (input : option RunInput) : list Act := match input with Some i => [ActRun i] | None => [] end.

Definition handleAction (w : World) (platform messengerName : string) (service : option ServiceConfig) (msg : NormalizedMessage) : Outcome :=
  let hd := HandleMessage (hc_resolve H) (hc_execute H) (hc_router H) (hc_render H) cancelled (ce_history env) (w_Turns w) msg
              [serviceHistoryTurns service] in
  let w := set_turns w (hd_Table hd) in
  let msg := hd_Message hd in
  let acts := inputActs (hd_Input hd) in
  let record (w : World) (status detail : string) :=
    if decide (messengerName = "") then w else recordOutboundEvent w messengerName (messageEvent msg platform status detail) in
  match hd_Err hd, hd_Result hd with
  | Some err, _ => mkOutcome (RespError 500 ("message handling failed: " +:+ hc_render H err)) (record w "failed" (hc_render H err)) acts
  | None, None => mkOutcome RespPanic w acts
  | None, Some result =>
      let response := mset (response_of platform result) "message_id" (AStr (nm_ID msg)) in
      let w := recordWebhookReplyTurn w msg service result (hd_Input hd) in
      let w := record w (re_Status result) (re_Output result) in
      mkOutcome (if decide (platform = PlatformSMS /\ serviceProvider service "" = providerTwilio)
                 then RespTwiML (twilioSMSReply service result) else RespJSON response None) w acts
  end.

(** Behind normalization and validation. *)
Definition handleMessage (w : World) (platform messengerName : string) (service : option ServiceConfig) (msg : NormalizedMessage) : Outcome :=
  match (if hasAudioAttachment msg then hc_voice H else None) with
  | Some handle =>
      mkOutcome (match handle msg with
                 | Some err => RespError 500 ("voice handling failed: " +:+ err)
                 | None => RespJSON [("status", AStr "accepted"); ("message_id", AStr (nm_ID msg))] None
                 end) w [ActVoice msg]
  | None => handleAction w platform messengerName service msg
  end.

Definition named (messengerName : string) (msg : NormalizedMessage) : NormalizedMessage :=
  if decide (messengerName = "") then msg else with_metadata msg [("messenger_name", AStr messengerName)].

(** The path of [handleWebhookForMessenger] behind the checks of the request. *)
Definition genericWebhook (w : World) (r : Request) (rawBody platform messengerName : string) (service : option ServiceConfig) : Outcome :=
  match decodeWebhookBody platform (rq_Header r) rawBody with
  | Err text => answer w (RespError 400 text)
  | Ok body =>
      match (if decide (platform = PlatformSlack) then handleSlackAcknowledgement (w_Validator w) body messengerName service
             else (w_Validator w, None)) with
      | (v, Some resp) => answer (set_validator w v) resp
      | (v, None) =>
          let w := set_validator w v in
          match Normalize TimeParse now platform body with
          | Err e => answer w (RespError 400 ("normalization failed: " +:+ MessengerError_Error e))
          | Ok msg =>
              let msg := named messengerName msg in
              let w := if decide (messengerName = "") then w
                       else recordInboundEvent w messengerName (messageEvent msg platform "received" "") in
              match (match service with
                     | Some _ => ValidateMessage (serviceValidationConfig service) (Some msg)
                     | None => None
                     end) with
              | Some e => answer w (writeValidationError (RequestErr_of e))
              | None => handleMessage w platform messengerName service msg
              end
          end
      end
  end.

Definition validationInput (r : Request) (rawBody : string) (service : ServiceConfig) : RequestValidationInput :=
  mkRequest (serviceValidationConfig (Some service)) (publicRequestURL r service) (headerGet (rq_Header r)) rawBody
    (formValuesForValidation (rq_Header r) rawBody) 0.

(** The dispatch of [handleWebhookForMessenger] on the platform of a service. *)
Definition dispatchService (w : World) (r : Request) (rawBody platform serviceID : string) (service : ServiceConfig) : Outcome :=
  if decide (platform = PlatformTelegram) then handleTelegramServiceWebhook w r rawBody serviceID service
  else if decide (platform = PlatformSlack /\ serviceProvider (Some service) PlatformSlack = PlatformSlack)
  then handleSlackServiceWebhook w r rawBody serviceID service
  else if decide (platform = PlatformWhatsApp) then handleWhatsAppServiceWebhook w r rawBody serviceID service
  else genericWebhook w r rawBody platform serviceID (Some service).

Definition handleWebhookForMessenger (w : World) (r : Request) (platform messengerName : string) (service : option ServiceConfig) : Outcome :=
  match rq_ReadBody r with
  | Err text => answer w (RespError 500 ("failed to read request body: " +:+ text))
  | Ok rawBody =>
      match service with
      | None => genericWebhook w r rawBody platform messengerName None
      | Some s =>
          match ValidateRequest cancelled now (ce_pick env) (w_Validator w) (validationInput r rawBody s) with
          | (v, Some e) => answer (set_validator w v) (writeValidationError e)
          | (v, None) => dispatchService (set_validator w v) r rawBody platform messengerName s
          end
      end
  end.

Definition ServeServiceWebhook (w : World) (r : Request) (serviceID adapter : string) : Outcome :=
  if decide (rq_Method r = "GET" /\ adapter = PlatformWhatsApp) then handleWhatsAppVerification w r serviceID adapter
  else if decide (rq_Method r <> "POST") then answer w (RespError 405 "only POST requests are accepted")
  else if decide (serviceID = "" \/ adapter = "") then answer w (RespError 500 "message service is not configured")
  else
    match LoadService (w_Services w) serviceID with
    | Err _ => answer w (RespError 404 ("service " +:+ Quote serviceID +:+ " not found"))
    | Ok service =>
        if decide (sc_Type service <> "message")
        then answer w (RespError 400 ("service " +:+ Quote serviceID +:+ " has type " +:+ Quote (sc_Type service) +:+ ", not message"))
        else if decide (TrimSpace (sc_Adapter service) <> adapter)
        then answer w (RespError 400 ("service " +:+ Quote serviceID +:+ " has adapter " +:+ Quote (sc_Adapter service) +:+ ", not " +:+ Quote adapter))
        else handleWebhookForMessenger w r adapter serviceID (Some service)
    end.

(** The path without a service, which no server mounts. *)
Definition ServeHTTP (w : World) (r : Request) : Outcome :=
  if decide (rq_Method r <> "POST") then answer w (RespError 405 "only POST requests are accepted")
  else
    let platform := extractPlatform (rq_Path r) in
    if decide (platform = "")
    then answer w (RespError 404 "unable to determine platform from URL path; expected /messengers/{platform}/webhook")
    else handleWebhookForMessenger w r platform "" None.
End Handler.

(** ** What a request sets off *)

Definition act_message (a : Act) : NormalizedMessage :=
  match a with
  | ActRun i => pl_Message (ri_Payload i)
  | ActChat t => ho_Message (ct_Handoff t)
  | ActVoice m => m
  end.

Section Guarded.
Context `{FL : Float64} `{ME : MsgEnv}.
Variable H : HandlerConfig.
Variable C : Codecs.
Variable env : CallEnv.

Definition admitted (service : ServiceConfig) (m : NormalizedMessage) : Prop :=
  ValidateMessage (serviceValidationConfig (Some service)) (Some m) = None.

Lemma admitted_profile service m p : admitted service (set_profile m p) <-> admitted service m.
Proof. done. Qed.

Lemma admitted_complete service i m : admitted service (completeMessage i m) <-> admitted service m.
Proof. done. Qed.

(** At most one act, about an admitted message. *)
Definition guarded (service : ServiceConfig) (acts : list Act) : Prop :=
  (length acts <= 1)%nat /\ Forall (fun a => admitted service (act_message a)) acts.

Lemma guarded_nil service : guarded service [].
Proof. split; [simpl; lia|constructor]. Qed.

Lemma guarded_one service a : admitted service (act_message a) -> guarded service [a].
Proof. split; [simpl; lia|by constructor]. Qed.

Lemma ExecuteMessage_acts service db h :
  admitted service (ho_Message h) -> guarded service (ExecuteMessage H env service db h).2.
Proof.
  intros Hm. unfold ExecuteMessage. case_decide.
  - unfold ChatExecuteMessage. destruct (ce_cancelled env); [apply guarded_nil|].
    destruct (hc_chat H (chatTurn h)) as [[]|]; by apply guarded_one.
  - pose proof (ExecuteAction_spec (hc_execute H) (hc_router H) (ce_cancelled env) (ce_history env) db (ho_ProfileID h) (ho_ActionName h)
      (ho_Message h) [serviceHistoryTurns (Some service)]) as Hx.
    destruct (ExecuteAction _ _ _ _ _ _ _ _ _) as [[db' r] [i|]]; destruct Hx as [_ Hx]; destruct r; try apply guarded_nil;
      apply guarded_one; by rewrite (Hx i eq_refl).
Qed.

(** The acts of a trace are those of its one execution. *)
Lemma replay_acts service trace : forall s,
  (executed trace = [] -> (foldl (replayEvent H env service) s trace).2 = s.2) /\
  (forall h, executed trace = [h] -> exists db, (foldl (replayEvent H env service) s trace).2 = s.2 ++ (ExecuteMessage H env service db h).2).
Proof.
  induction trace as [|e trace IH]; intros s; [by split|].
  assert ((exists h, e = EvExecute h) \/
    executed (e :: trace) = executed trace /\ (replayEvent H env service s e).2 = s.2) as [[h ->]|[He Hs]]
    by (destruct e; (by right) || (left; by eexists)).
  - split; [done|]. intros h' Hh. unfold executed in Hh. simpl in Hh. injection Hh as -> Hn.
    exists s.1. cbn [foldl]. destruct (IH (replayEvent H env service s (EvExecute h'))) as [IH' _]. rewrite IH' by done.
    simpl. by destruct (ExecuteMessage H env service s.1 h') as [[db r] acts].
  - rewrite He. cbn [foldl]. rewrite <- Hs. apply IH.
Qed.

Lemma serviceWebhook_guarded label platform b w r body id service :
  guarded service (oc_Acts (serviceWebhook H env label platform b w r body id service)).
Proof.
  unfold serviceWebhook. destruct (servicePass _ _ _ _ _ _ _) as [[trace res]|] eqn:Hp; [|apply guarded_nil].
  assert (guarded service (replay H env service (w_Turns w) trace).2) as Hg.
  { unfold servicePass in Hp. cbv zeta in Hp.
    set (MP := serviceValidatingProvider b service) in *.
    destruct (HandleIngress_spec (MP := MP) (resolveMessageRoute H env) (fun h => (ExecuteMessage H env service (w_Turns w) h).1.2)
      (hc_clock H) (hc_sleep H) (hc_redact H) id DefaultRetryPolicy (rc_history (hc_router H)) (ce_now env)
      (webhookIngress r body id platform)) as (trace' & r' & Ht & Hspec).
    assert (trace' = trace) as Etr.
    { rewrite Ht in Hp. by repeat case_match; simplify_eq. }
    rewrite Etr in Hspec. clear Ht Hp Etr.
    unfold replay. destruct (replay_acts service trace (w_Turns w, [])) as [R0 R1].
    destruct Hspec as [(He & _)|(h & He & _ & _ & _ & _ & _ & _ & _ & _ & (m & Hn & Hm))]; [rewrite R0 by done; apply guarded_nil|].
    destruct (R1 h He) as [db ->]. apply ExecuteMessage_acts.
    assert (admitted service m) as Ha.
    { cbn [NormalizeIngress serviceValidatingProvider MP] in Hn. destruct (bp_normalize b _) as [[m'|]|]; [|done..].
      unfold admitted. destruct (ValidateMessage _ (Some m')) eqn:Ev; [done|]. by injection Hn as ->. }
    destruct Hm as [->|[p ->]]; [by apply admitted_complete|]. by apply admitted_profile, admitted_complete. }
  destruct (replay _ _ _ _ _) as [db acts]. by destruct res.
Qed.

Lemma handleMessage_guarded w platform name service msg :
  admitted service msg -> guarded service (oc_Acts (handleMessage H env w platform name (Some service) msg)).
Proof.
  intros Hm. unfold handleMessage. destruct (if hasAudioAttachment msg then _ else _); [by apply guarded_one|].
  unfold handleAction. set (hd := HandleMessage _ _ _ _ _ _ _ _ _).
  assert (guarded service (inputActs (hd_Input hd))) as Hg.
  { destruct (HandleMessage_spec (hc_resolve H) (hc_execute H) (hc_router H) (hc_render H) (ce_cancelled env) (ce_history env) (w_Turns w)
      msg [serviceHistoryTurns (Some service)]) as [_ Hi]. fold hd in Hi.
    destruct (hd_Input hd) as [i|]; [|apply guarded_nil]. destruct (Hi i eq_refl) as (link & mapping & t & _ & _ & ->).
    by apply guarded_one, admitted_profile. }
  cbv zeta. by destruct (hd_Err hd), (hd_Result hd).
Qed.

Lemma dispatch_guarded w r body platform id service :
  guarded service (oc_Acts (dispatchService H C env w r body platform id service)).
Proof.
  unfold dispatchService. case_decide; [apply serviceWebhook_guarded|]. case_decide.
  { unfold handleSlackServiceWebhook. destruct (decodeWebhookBody _ _ _ _) as [m|]; [|apply guarded_nil].
    destruct (handleSlackAcknowledgement _ _ _ _ _) as [v [resp|]]; [apply guarded_nil|apply serviceWebhook_guarded]. }
  case_decide; [apply serviceWebhook_guarded|]. unfold genericWebhook.
  destruct (decodeWebhookBody _ _ _ _) as [m|]; [|apply guarded_nil].
  destruct (if decide (platform = PlatformSlack) then _ else _) as [v [resp|]]; [apply guarded_nil|].
  destruct (Normalize _ _ _ _) as [msg|]; [|apply guarded_nil]. cbv zeta.
  case_match; [apply guarded_nil|]. by apply handleMessage_guarded.
Qed.
End Guarded.

(** C10: A request to the webhook of a service sets off at most one act, a run of an action,
    a turn of a chat or a voice message, and only when it is a POST to a message service of
    that adapter whose file loads, whose authentication the validator accepts, and about a
    message that the allow lists of the service admit.  Whatever the provider, the mode of
    execution and the faults, nothing else reaches an executor. *)
Theorem webhook_guarded `{FL : Float64} `{ME : MsgEnv} H C env w r id adapter :
  let acts := oc_Acts (ServeServiceWebhook H C env w r id adapter) in
  (length acts <= 1)%nat /\
  forall a, a ∈ acts ->
    rq_Method r = "POST" /\
    exists service body v,
      LoadService (w_Services w) id = Ok service /\ sc_Type service = "message" /\ TrimSpace (sc_Adapter service) = adapter /\
      rq_ReadBody r = Ok body /\
      ValidateRequest (ce_cancelled env) (ce_now env) (ce_pick env) (w_Validator w) (validationInput C r body service) = (v, None) /\
      ValidateMessage (serviceValidationConfig (Some service)) (Some (act_message a)) = None.
Proof.
  assert (forall (w' : World) resp (P : Act -> Prop), (length (oc_Acts (answer w' resp)) <= 1)%nat /\ forall a, a ∈ oc_Acts (answer w' resp) -> P a)
    as nothing by (intros; split; [simpl; lia|by intros ? ?%elem_of_nil]).
  cbv zeta. unfold ServeServiceWebhook. case_decide.
  { unfold handleWhatsAppVerification. destruct (LoadService _ _); [|apply nothing].
    case_decide; [apply nothing|].
    destruct (WhatsAppVerificationChallenge _ _); apply nothing. }
  case_decide as Hpost; [apply nothing|].
  case_decide; [apply nothing|].
  destruct (LoadService _ _) as [service|] eqn:Hl; [|apply nothing].
  case_decide as Ht; [apply nothing|].
  case_decide as Ha; [apply nothing|].
  unfold handleWebhookForMessenger. destruct (rq_ReadBody r) as [body|] eqn:Hb; [|apply nothing].
  destruct (ValidateRequest _ _ _ _ _) as [v [e|]] eqn:Hv; [apply nothing|].
  destruct (dispatch_guarded H C env (set_validator w v) r body adapter id service) as [Hlen Hall].
  split; [done|]. intros a Hin. rewrite Forall_forall in Hall.
  assert (rq_Method r = "POST") by (destruct (decide (rq_Method r = "POST")); [done|by destruct Hpost]).
  split; [done|]. exists service, body, v.
  assert (sc_Type service = "message") by (destruct (decide (sc_Type service = "message")); [done|by destruct Ht]).
  assert (TrimSpace (sc_Adapter service) = adapter) by (destruct (decide (TrimSpace (sc_Adapter service) = adapter)); [done|by destruct Ha]).
  repeat (split; [done|]). by apply Hall.
Qed.

(** ** Events of Slack *)

Section Slack.
Context `{FL : Float64} `{ME : MsgEnv}.

Lemma serviceWebhook_validator H env label platform b w r body id service :
  w_Validator (oc_World (serviceWebhook H env label platform b w r body id service)) = w_Validator w.
Proof.
  unfold serviceWebhook. destruct (servicePass _ _ _ _ _ _ _) as [[trace res]|]; [|done].
  destruct (replay _ _ _ _ _) as [db acts]. unfold recordServiceDeliveryAttempts, recordServiceExecutionEvent.
  destruct res as [res|e]; [|by destruct (deliveryEvent _ _ _ _)].
  destruct (rs_Delivery res); [|done]. by case_decide; destruct (deliveryEvent _ _ _ _).
Qed.

Lemma slackDedupTTL_pos service : 0 < slackDedupTTL service.
Proof. unfold slackDedupTTL. cbv zeta. repeat (case_match || case_decide); lia || done. Qed.

Lemma event_key_nonblank eventID : TrimSpace ("slack:event:" +:+ eventID) <> "".
Proof. apply (TrimSpace_blank _ "s"%char); [by left|done]. Qed.

(** An event with an identifier that is not a request for verification. *)
Definition slack_event (body : option amap) (eventID : string) : Prop :=
  getStringOf body "type" <> "url_verification" /\ getStringOf body "event_id" = eventID /\ eventID <> "".

Definition event_key (id eventID : string) : string := id +:+ ":" +:+ ("slack:event:" +:+ eventID).

(** The event is in the replay store until [exp]. *)
Definition marked (v : ServiceValidator) (id eventID : string) (exp : Z) : Prop :=
  exists store, va_Replay v = Some store /\ rp_seen store !! event_key id eventID = Some exp.

Lemma acknowledgement_marks env v body id service eventID v' :
  slack_event body eventID -> TrimSpace id <> "" -> va_Replay v <> None ->
  handleSlackAcknowledgement env v body id service = (v', None) -> marked v' id eventID (ce_now env + slackDedupTTL service).
Proof.
  intros (Ht & He & Hne) Hid Hv. unfold handleSlackAcknowledgement. rewrite decide_False by done. rewrite He. cbv zeta.
  assert (id <> "") as Hid' by (by intros ->). rewrite decide_True by done.
  unfold MarkReplay. destruct (va_Replay v) as [store|]; [|done].
  rewrite decide_False by (intros [?|?]; [done|by eapply event_key_nonblank]).
  rewrite (decide_False (P := slackDedupTTL service <= 0)) by (pose proof (slackDedupTTL_pos service); lia).
  fold (event_key id eventID). unfold MarkSeen. rewrite decide_False by apply delivery_key_blank.
  destruct (live _ _ !! event_key id eventID); [done|]. intros Hres.
  assert (v' = mkValidator (va_Hooks v) (Some (mkReplay (<[event_key id eventID := ce_now env + slackDedupTTL service]>
    (evict store (ce_pick env) (live (ce_now env) (rp_seen store)))) (rp_maxSize store)))) as ->
    by (repeat case_match; by injection Hres as <-).
  eexists. split; [reflexivity|]. simpl. by rewrite lookup_insert_eq.
Qed.

Lemma acknowledgement_duplicate env v body id service eventID exp :
  slack_event body eventID -> TrimSpace id <> "" -> marked v id eventID exp -> ce_now env < exp ->
  exists v', handleSlackAcknowledgement env v body id service =
    (v', Some (RespJSON [("status", AStr "duplicate"); ("event_id", AStr eventID); ("message_id", AStr eventID)] None)).
Proof.
  intros (Ht & He & Hne) Hid (store & Hs & Hk) Hnow. unfold handleSlackAcknowledgement. rewrite decide_False by done. rewrite He. cbv zeta.
  assert (id <> "") as Hid' by (by intros ->). rewrite decide_True by done.
  unfold MarkReplay. rewrite Hs. rewrite decide_False by (intros [?|?]; [done|by eapply event_key_nonblank]).
  fold (event_key id eventID). unfold MarkSeen. rewrite decide_False by apply delivery_key_blank.
  rewrite (proj2 (live_lookup _ _ _ exp)) by done. by eexists.
Qed.
End Slack.

(** An event of Slack that was processed is not processed again while its mark lasts,
    whatever became of it: a delivery of the same event with the state its first processing
    left, also one whose execution or reply failed, is answered as a duplicate, and neither
    acts nor changes turns or services. *)
Theorem slack_event_once `{FL : Float64} `{ME : MsgEnv} H C env w r raw id service eventID H' env' w' r' raw' body body'
    (Hbody : decodeWebhookBody C PlatformSlack (rq_Header r) raw = Ok body) (Hev : slack_event body eventID)
    (Hid : TrimSpace id <> "") (Hstore : va_Replay (w_Validator w) <> None) :
  let o := handleSlackServiceWebhook H C env w r raw id service in
  oc_Acts o <> [] ->
  decodeWebhookBody C PlatformSlack (rq_Header r') raw' = Ok body' -> slack_event body' eventID ->
  w_Validator w' = w_Validator (oc_World o) -> ce_now env' < ce_now env + slackDedupTTL (Some service) ->
  let o' := handleSlackServiceWebhook H' C env' w' r' raw' id service in
  oc_Acts o' = [] /\ w_Turns (oc_World o') = w_Turns w' /\ w_Services (oc_World o') = w_Services w' /\
  oc_Response o' = RespJSON [("status", AStr "duplicate"); ("event_id", AStr eventID); ("message_id", AStr eventID)] None.
Proof.
  cbv zeta. unfold handleSlackServiceWebhook. rewrite Hbody. intros Hacts Hbody' Hev' Hw' Hnow. rewrite Hbody'.
  destruct (handleSlackAcknowledgement env _ body id _) as [v [resp|]] eqn:Hack; [done|].
  pose proof (acknowledgement_marks _ _ _ _ _ _ _ Hev Hid Hstore Hack) as Hm. rewrite serviceWebhook_validator in Hw'. cbn in Hw'.
  rewrite Hw'. destruct (acknowledgement_duplicate env' v body' id (Some service) eventID _ Hev' Hid Hm Hnow) as [v' ->].
  done.
Qed.

(** ** Witnesses *)

#[local] Existing Instance plain_float.
#[local] Existing Instance plain_env.

Definition failing : option (RunInput -> Res string (option RunState)) := Some (fun _ => Err "exit status 1").

Definition sample_handler (execute : option (RunInput -> Res string (option RunState))) : HandlerConfig :=
  mkHandlerConfig (fun _ _ => Ok ("dev", "dev=answer")) execute (mkRouterConfig true 10 5) (fun _ => "refused") None (fun _ => Err EmptyContent)
    (fun _ _ => Ok (Some (mkTgResponse true "" (Some 12)))) (fun _ _ => Ok (Some (mkSlackResponse true "" "C1" "17.2"))) None
    (fun _ => (9, 9)) (fun _ _ => None) (fun text => text) (fun _ => "1s").

Definition sample_event_body : amap :=
  [("type", AStr "event_callback"); ("event_id", AStr "Ev1"); ("team_id", AStr "T1");
   ("event", AMap [("type", AStr "message"); ("channel", AStr "C1"); ("user", AStr "U1"); ("text", AStr "deploy");
                   ("ts", AStr "1700000000.000100")])].

Definition sample_codecs : Codecs :=
  mkCodecs (fun _ => Ok (Some sample_event_body)) (fun _ => Ok topic_update) (fun _ => Err "") (fun _ => Err "").

Definition sample_call (now : Z) : CallEnv := mkCall now false no_pick (mkHistoryEnv now false false) false.

Definition sample_request : Request := mkReq "POST" "/services/bot/webhook" "/services/bot/webhook" ∅ ∅ (Ok "{}") "" "" false.

Definition webhook_service (adapter : string) : ServiceConfig :=
  mkService "bot" "message" adapter "dev" "" {["TELEGRAM_BOT_TOKEN" := "t"]} ∅ (list_to_map [("allowed_chats", "-1001234567890,C1")]) None None None None.

Definition sample_world (adapter : string) : World :=
  mkWorld {[ "bot.yaml" := Parsed (webhook_service adapter) ]} empty_table NewHandler_validator.

Definition sample_outcome : Outcome :=
  ServeServiceWebhook (sample_handler MsgRouter.echo) sample_codecs (sample_call 100) (sample_world "telegram") sample_request "bot" "telegram".

Lemma webhook_guarded_witness : exists a,
  oc_Acts sample_outcome = [a] /\ nm_Text (act_message a) = "deploy" /\ resp_code (oc_Response sample_outcome) = 200 /\
  ValidateMessage (serviceValidationConfig (Some (webhook_service "telegram"))) (Some (act_message a)) = None.
Proof.
  destruct (webhook_guarded (sample_handler MsgRouter.echo) sample_codecs (sample_call 100) (sample_world "telegram") sample_request
    "bot" "telegram") as [_ Hg].
  destruct (oc_Acts sample_outcome) as [|a [|? ?]] eqn:E; [vm_compute in E; discriminate E| |vm_compute in E; discriminate E].
  exists a. split; [reflexivity|]. split; [|split; [vm_compute; reflexivity|]].
  - vm_compute in E. injection E as <-. vm_compute. reflexivity.
  - destruct (Hg a) as (_ & service & body & v & Hl & _ & _ & _ & _ & Hm); [fold sample_outcome; rewrite E; by left|].
    assert (service = webhook_service "telegram") as <-; [|exact Hm]. vm_compute in Hl. by injection Hl as <-.
Defined.

(** The first delivery fails in its action and answers 500; the second is a duplicate. *)
Lemma slack_event_once_witness :
  let run now w := handleSlackServiceWebhook (sample_handler failing) sample_codecs (sample_call now) w sample_request "{}" "bot" (webhook_service "slack") in
  let o := run 100 (sample_world "slack") in
  resp_code (oc_Response o) = 500 /\ length (oc_Acts o) = 1%nat /\ oc_Acts (run 200 (oc_World o)) = [].
Proof.
  intros run o. split; [vm_compute; reflexivity|]. split; [vm_compute; reflexivity|].
  apply (slack_event_once (sample_handler failing) sample_codecs (sample_call 100) (sample_world "slack") sample_request "{}" "bot"
    (webhook_service "slack") "Ev1" (sample_handler failing) (sample_call 200) (oc_World o) sample_request "{}"
    (Some sample_event_body) (Some sample_event_body)); [reflexivity| |discriminate|discriminate| |reflexivity| |reflexivity|].
  - split; [discriminate|]. by split.
  - intros E. apply (f_equal (fun l => length l)) in E. vm_compute in E. discriminate E.
  - split; [discriminate|]. by split.
  - vm_compute. reflexivity.
Defined.
