(* ===== verification/Ticket.v ===== *)
(** * Ticket services

    src/internal/adapters/ticket: events of Jira, Linear, GitLab and mail as tickets, routed
    by the service that received them to an action of a profile.

    Decoded JSON values are [any]; parsers of mail addresses and dates, and the executor of
    actions are arguments.  [None] is a panic while a route table is loaded. *)

From Stdlib Require Import ZArith Lia String Ascii Floats.SpecFloat.
From stdpp Require Import base option list gmap strings.
From S2P Require Import Prelude Text Events Glob MsgRoute GoValue MsgTypes MsgConfig MsgAuth Normalizer MsgRouter Service MsgPhone MsgHandler.

#[local] Open Scope Z_scope.

(** ** Data *)

Definition AdapterJira : string := "jira".
Definition AdapterLinear : string := "linear".
Definition AdapterGitLab : string := "gitlab".
Definition AdapterEmail : string := "email".
Definition TicketKindIssue : string := "issue".
Definition TicketKindComment : string := "comment".
Definition TicketKindMergeRequest : string := "merge_request".
Definition TicketKindEmail : string := "email".
Definition ServiceType : string := "ticket".
Definition StatusSuccess : string := "success".
Definition StatusFailed : string := "failed".
Definition MetadataServiceID : string := "service_id".
Definition MetadataRouting : string := "routing".

Record Actor : Type := mkActor { ac_ID : string; ac_Name : string; ac_Handle : string; ac_Email : string }.

Record NormalizedTicket : Type := mkTicket {
  nt_ID : string;
  nt_Adapter : string;
  nt_Kind : string;
  nt_Action : string;
  nt_WorkspaceID : string;
  nt_ProjectID : string;
  nt_ChannelID : string;
  nt_ThreadID : string;
  nt_ThreadType : string;
  nt_Title : string;
  nt_Body : string;
  nt_URL : string;
  nt_State : string;
  nt_Author : Actor;
  nt_Labels : list string;
  nt_CreatedAt : Z;
  nt_UpdatedAt : Z;
  nt_Metadata : amap
}.

Definition set_metadata (t : NormalizedTicket) (k : string) (v : any) : NormalizedTicket :=
  mkTicket (nt_ID t) (nt_Adapter t) (nt_Kind t) (nt_Action t) (nt_WorkspaceID t) (nt_ProjectID t) (nt_ChannelID t) (nt_ThreadID t)
    (nt_ThreadType t) (nt_Title t) (nt_Body t) (nt_URL t) (nt_State t) (nt_Author t) (nt_Labels t) (nt_CreatedAt t) (nt_UpdatedAt t)
    (mset (nt_Metadata t) k v).

Definition NormalizedTicket_Validate (t : NormalizedTicket) : option string :=
  if decide (nt_ID t = "") then Some "ticket ID is required"
  else if decide (nt_Adapter t = "") then Some "ticket adapter is required"
  else if decide (nt_Kind t = "") then Some "ticket kind is required"
  else if decide (nt_ChannelID t = "") then Some "ticket channel is required"
  else if decide (ac_ID (nt_Author t) = "") then Some "ticket author is required"
  else None.

Definition ParseTargetAction (mapping : string) : Res string (string * string) :=
  let sep := if negb (Contains mapping "=") && Contains mapping ":" then ":"%char else "="%char in
  match Cut mapping sep with
  | (profileID, actionName, ok) =>
      if negb ok || bool_decide (profileID = "" \/ actionName = "")
      then Err ("invalid route target " +:+ Quote mapping +:+ ": expected profile=action")
      else Ok (profileID, actionName)
  end.

Definition targetString (t : string * string) : string := t.1 +:+ "=" +:+ t.2.

(** ** Normalization *)

Fixpoint firstNonEmpty (values : list string) : string :=
  match values with
  | [] => ""
  | v :: values => if decide (TrimSpace v = "") then firstNonEmpty values else v
  end.

(** The first of [strings.Fields]. *)
Definition firstField (s : string) : string :=
  let fix upto (l : list ascii) : list ascii := match l with c :: l => if isSpace c then [] else c :: upto l | [] => [] end in
  unchars (upto (dropSpace (chars s))).

Section Normalize.
Context `{FL : Float64} `{ME : MsgEnv}.
(** net/mail: an address with its display name, a list of them, a date. *)
Variable ParseMail : string -> option (string * string).
Variable ParseMailList : string -> option (list (string * string)).
Variable ParseDate : string -> option Z.

Definition getMap (m : option amap) (key : string) : option amap :=
  match m with
  | None => None
  | Some m => match mget m key with Some (AMap sub) => Some sub | _ => None end
  end.

Definition getString (m : option amap) (key : string) : string :=
  match m with
  | None => ""
  | Some m =>
      match mget m key with
      | None | Some ANil => ""
      | Some (AStr s) => s
      | Some (AFloat f) => if SFeqb f (itof (ftoi f)) then FormatInt (ftoi f) else shortest_f f
      | Some v => Sprint v
      end
  end.

Definition getStringSlice (m : option amap) (key : string) : list string :=
  match m with
  | Some m =>
      match mget m key with
      | Some (AList values) => filter (fun text => text <> "") (map (fun v => TrimSpace (Sprint v)) values)
      | _ => []
      end
  | None => []
  end.

Fixpoint parseFormats (formats : list string) (value : string) : Z :=
  match formats with
  | [] => 0
  | f :: formats => match TimeParse f value with Some t => t | None => parseFormats formats value end
  end.

Definition parseTime (value : string) : Z :=
  if decide (value = "") then 0
  else parseFormats [RFC3339Nano; RFC3339; "2006-01-02T15:04:05.000-0700"; "2006-01-02T15:04:05-0700"] value.

Definition parseEmailDate (now : Z) (value : string) : Z :=
  let parsed := parseTime value in
  if negb (IsZero parsed) then parsed
  else match ParseDate (TrimSpace value) with Some t => t | None => now end.

(** The display name and the folded address. *)
Definition parseEmailAddress (value : string) : string * string :=
  let value := TrimSpace value in
  let folded (p : string * string) := (TrimSpace p.1, ToLower (TrimSpace p.2)) in
  if decide (value = "") then ("", "")
  else
    match ParseMail value with
    | Some p => folded p
    | None =>
        match ParseMailList value with
        | Some (p :: _) => folded p
        | _ =>
            let value := match Cut value ","%char with (first, _, true) => TrimSpace first | _ => value end in
            ("", ToLower (TrimPrefix (TrimSpace value) "mailto:"))
        end
    end.

Definition jiraActor (user : option amap) : Actor :=
  mkActor (firstNonEmpty [getString user "accountId"; getString user "name"; getString user "emailAddress"])
    (firstNonEmpty [getString user "displayName"; getString user "name"]) (getString user "name") (getString user "emailAddress").

Definition linearActor (user : option amap) : Actor :=
  mkActor (firstNonEmpty [getString user "id"; getString user "email"]) (getString user "name") (getString user "url") (getString user "email").

Definition gitLabActor (user : option amap) : Actor :=
  mkActor (firstNonEmpty [getString user "id"; getString user "username"]) (getString user "name") (getString user "username")
    (getString user "email").

Definition linearLabels (issue : amap) : list string :=
  match mget issue "labels" with
  | Some (AList values) =>
      filter (fun name => name <> "") (map (fun v => match v with AMap label => getString (Some label) "name" | _ => "" end) values)
  | _ => []
  end.

Definition gitLabLabels (attrs : amap) : list string :=
  match getStringSlice (Some attrs) "labels" with
  | [] => splitCSV (getString (Some attrs) "labels")
  | labels => labels
  end.

Definition normalizeJira (raw : amap) : Res string NormalizedTicket :=
  match getMap (Some raw) "issue" with
  | None => Err "missing jira issue"
  | Some issue =>
      match getMap (Some issue) "fields" with
      | None => Err "missing jira issue fields"
      | Some fields =>
          let project := getMap (Some fields) "project" in
          let comment := getMap (Some raw) "comment" in
          let user := match getMap comment "author" with Some author => Some author | None => getMap (Some raw) "user" end in
          let key := firstNonEmpty [getString (Some issue) "key"; getString (Some issue) "id"] in
          let projectKey := firstNonEmpty [getString project "key"; getString project "id"] in
          if decide (projectKey = "") then Err "missing jira project"
          else
            let '(kind, id, body) :=
              match comment with
              | Some _ => (TicketKindComment, firstNonEmpty [getString comment "id"; key], getString comment "body")
              | None => (TicketKindIssue, key, getString (Some fields) "description")
              end in
            Ok (mkTicket id AdapterJira kind (getString (Some raw) "webhookEvent") "" projectKey projectKey key TicketKindIssue
                  (getString (Some fields) "summary") body "" (getString (getMap (Some fields) "status") "name") (jiraActor user)
                  (getStringSlice (Some fields) "labels") (parseTime (getString (Some fields) "created"))
                  (parseTime (getString (Some fields) "updated"))
                  [("raw", AMap raw); ("issue_type", AStr (getString (getMap (Some fields) "issuetype") "name"))])
      end
  end.

Definition normalizeLinear (raw : amap) : Res string NormalizedTicket :=
  match getMap (Some raw) "data" with
  | None => Err "missing linear data"
  | Some data =>
      let actor := getMap (Some raw) "actor" in
      let '(kind, body, issue) :=
        if EqualFold (getString (Some raw) "type") "Comment"
        then (TicketKindComment, getString (Some data) "body", default data (getMap (Some data) "issue"))
        else (TicketKindIssue, getString (Some data) "description", data) in
      let team := getMap (Some issue) "team" in
      let project := getMap (Some issue) "project" in
      let state := getMap (Some issue) "state" in
      let channelID := firstNonEmpty [getString team "key"; getString team "id"; getString project "id"] in
      if decide (channelID = "") then Err "missing linear team or project"
      else
        let identifier := firstNonEmpty [getString (Some issue) "identifier"; getString (Some issue) "id"] in
        let id := firstNonEmpty [getString (Some data) "id"; identifier] in
        Ok (mkTicket id AdapterLinear kind (getString (Some raw) "action")
              (firstNonEmpty [getString (Some raw) "organizationId"; getString (Some raw) "workspaceId"])
              (firstNonEmpty [getString project "id"; getString project "name"]) channelID identifier TicketKindIssue
              (getString (Some issue) "title") body (getString (Some issue) "url") (getString state "name") (linearActor actor)
              (linearLabels issue) (parseTime (getString (Some issue) "createdAt")) (parseTime (getString (Some issue) "updatedAt"))
              [("raw", AMap raw)])
  end.

(** The thread, the title and the address of the object a note is about. *)
Definition noteTarget (raw : amap) (threadID title url : string) : string * string * string * string :=
  let about (m : amap) (threadType : string) :=
    (firstNonEmpty [getString (Some m) "iid"; getString (Some m) "id"], threadType, getString (Some m) "title", getString (Some m) "url") in
  match getMap (Some raw) "issue" with
  | Some issue => about issue TicketKindIssue
  | None =>
      match getMap (Some raw) "merge_request" with
      | Some mr => about mr TicketKindMergeRequest
      | None => (threadID, TicketKindIssue, title, url)
      end
  end.

Definition normalizeGitLab (raw : amap) : Res string NormalizedTicket :=
  let r := Some raw in
  let user := getMap r "user" in
  match getMap r "project", getMap r "object_attributes" with
  | None, _ => Err "missing gitlab project"
  | Some _, None => Err "missing gitlab object attributes"
  | Some project, Some attrs =>
      let at_ k := getString (Some attrs) k in
      let projectPath := firstNonEmpty [getString (Some project) "path_with_namespace"; getString (Some project) "web_url";
                                        getString (Some project) "id"] in
      if decide (projectPath = "") then Err "missing gitlab project path"
      else
        let objectKind := firstNonEmpty [getString r "object_kind"; getString r "event_type"] in
        let threadID := firstNonEmpty [at_ "iid"; at_ "id"] in
        let '(kind, body, (threadID, threadType, title, url)) :=
          if decide (objectKind = "merge_request")
          then (TicketKindMergeRequest, at_ "description", (threadID, TicketKindMergeRequest, at_ "title", at_ "url"))
          else if decide (objectKind = "note")
          then (TicketKindComment, at_ "note", noteTarget raw threadID (at_ "title") (at_ "url"))
          else (TicketKindIssue, at_ "description", (threadID, TicketKindIssue, at_ "title", at_ "url")) in
        Ok (mkTicket (firstNonEmpty [at_ "id"; threadID]) AdapterGitLab kind (firstNonEmpty [at_ "action"; objectKind]) "" projectPath
              projectPath threadID threadType title body url (at_ "state") (gitLabActor user) (gitLabLabels attrs)
              (parseTime (at_ "created_at")) (parseTime (at_ "updated_at")) [("raw", AMap raw)])
  end.

(** Keys of the event that are kept when they are present. *)
Definition keepKey (raw : amap) (metadata : amap) (key : string) : amap :=
  match mget raw key with None | Some ANil => metadata | Some v => mset metadata key v end.

Definition emailKeys : list string := ["cc"; "bcc"; "reply_to"; "references"; "in_reply_to"; "headers"; "attachments"; "html_body"; "to"].

Definition normalizeEmail (now : Z) (raw : amap) : Res string NormalizedTicket :=
  let g k := getString (Some raw) k in
  let '(fromName, fromAddr) := parseEmailAddress (firstNonEmpty [g "from"; g "sender"]) in
  if decide (fromAddr = "") then Err "missing email sender (from)"
  else
    let mailbox := (parseEmailAddress (firstNonEmpty [g "to"; g "mailbox"; g "recipient"])).2 in
    if decide (mailbox = "") then Err "missing email recipient (to)"
    else
      let id := TrimSpace (firstNonEmpty [g "message_id"; g "message-id"; g "id"]) in
      let id := if decide (id = "") then "email_" +:+ FormatInt (UnixNano now) else id in
      let threadID := TrimSpace (firstNonEmpty [g "thread_id"; g "in_reply_to"; g "in-reply-to"]) in
      let threadID := if decide (threadID = "") then firstField (g "references") else threadID in
      let '(kind, threadID) := if decide (threadID = "") then (TicketKindIssue, id) else (TicketKindComment, threadID) in
      let metadata := foldl (keepKey raw) [("raw", AMap raw); ("mailbox", AStr mailbox)] emailKeys in
      let received := parseEmailDate now (firstNonEmpty [g "date"; g "received_at"]) in
      Ok (mkTicket id AdapterEmail kind (firstNonEmpty [g "event"; "received"]) "" "" mailbox threadID TicketKindEmail (g "subject")
            (firstNonEmpty [g "body"; g "text"]) "" "received" (mkActor fromAddr fromName fromAddr fromAddr)
            (getStringSlice (Some raw) "labels") received received metadata).

Definition Normalize (now : Z) (adapter : string) (raw : option amap) : Res string NormalizedTicket :=
  match raw with
  | None => Err "raw ticket event is nil"
  | Some raw =>
      let a := ToLower (TrimSpace adapter) in
      let r := if decide (a = AdapterJira) then normalizeJira raw
               else if decide (a = AdapterLinear) then normalizeLinear raw
               else if decide (a = AdapterGitLab) then normalizeGitLab raw
               else if decide (a = AdapterEmail) then normalizeEmail now raw
               else Err ("unsupported ticket adapter " +:+ Quote adapter) in
      match r with
      | Err e => Err e
      | Ok t => match NormalizedTicket_Validate t with Some e => Err e | None => Ok t end
      end
  end.
End Normalize.

(** ** Results *)

Inductive TicketErr : Type :=
  | TkText (text : string)
  | TkUnrouted (text : string).

Definition IsUnrouted (e : TicketErr) : bool := match e with TkUnrouted _ => true | _ => false end.

Definition TicketErr_Error (e : TicketErr) : string := match e with TkText t | TkUnrouted t => t end.

(** [fmt.Errorf("%w: ...", ErrUnrouted)] and [fmt.Errorf("...: %w", err)]. *)
Definition unrouted (text : string) : TicketErr := TkUnrouted ("ticket not routed: " +:+ text).

Definition wrapErr (prefix : string) (e : TicketErr) : TicketErr :=
  match e with TkText t => TkText (prefix +:+ ": " +:+ t) | TkUnrouted t => TkUnrouted (prefix +:+ ": " +:+ t) end.

Record TicketResult : Type := mkTicketResult {
  tr_Status : string;
  tr_Output : string;
  tr_OutputData : any;
  tr_Error : option TicketErr
}.

Definition denormalizeTarget (adapter : string) : string :=
  let a := ToLower (TrimSpace adapter) in
  if decide (a = AdapterJira) then "jira_comment"
  else if decide (a = AdapterLinear) then "linear_comment"
  else if decide (a = AdapterGitLab) then "gitlab_note"
  else if decide (a = AdapterEmail) then "email_reply"
  else "status".

Definition Denormalize (adapter : string) (result : option TicketResult) (ticket : option NormalizedTicket) : Res string amap :=
  match result with
  | None => Err "action result is nil"
  | Some r =>
      let status := if decide (tr_Status r = "") then "success" else tr_Status r in
      let body := match tr_Error r with
                  | Some e => if decide (tr_Output r = "") then TicketErr_Error e else tr_Output r
                  | None => tr_Output r
                  end in
      let response := [("status", AStr status); ("body", AStr body)] in
      let response := match ticket with
                      | Some t => response ++ [("ticket_id", AStr (nt_ID t)); ("thread_id", AStr (nt_ThreadID t))]
                      | None => response
                      end in
      let response := match tr_OutputData r with ANil => response | data => response ++ [("data", data)] end in
      Ok (response ++ [("target", AStr (denormalizeTarget adapter))])
  end.

(** ** Routing *)

Definition RouteKey (t : NormalizedTicket) : string :=
  if decide (nt_ThreadID t = "") then nt_ChannelID t else nt_ChannelID t +:+ "#" +:+ nt_ThreadID t.

Definition ticketServiceID (t : NormalizedTicket) : string :=
  match mget (nt_Metadata t) MetadataServiceID with Some (AStr id) => id | _ => "" end.

(** [StaticRouteResolver]. *)
Definition ResolveTicketRoute (routes : gmap string string) (adapter routeKey : string) : Res string string :=
  match routes !! (adapter +:+ ":" +:+ routeKey) with
  | Some target => Ok target
  | None =>
      match routes !! routeKey with
      | Some target => Ok target
      | None => Err ("no route for " +:+ adapter +:+ ":" +:+ routeKey)
      end
  end.

(** A resolver by route keys, or one that sees the ticket and may stamp it. *)
Inductive RouteResolver : Type :=
  | ByKey (resolve : string -> string -> Res string string)
  | ByTicket (resolve : NormalizedTicket -> option (NormalizedTicket * Res TicketErr string)).

Record TicketPayload : Type := mkTicketPayload { kp_Ticket : NormalizedTicket; kp_ServiceID : string; kp_RouteKey : string }.

Record TicketRun : Type := mkTicketRun {
  kr_ProfileID : string;
  kr_ActionID : string;
  kr_Payload : TicketPayload;
  kr_ThreadID : string
}.

Fixpoint firstTarget (resolve : string -> string -> Res string string) (adapter : string) (keys : list string) : option string :=
  match keys with
  | [] => None
  | key :: keys =>
      match resolve adapter key with
      | Ok target => if decide (target = "") then firstTarget resolve adapter keys else Some target
      | Err _ => firstTarget resolve adapter keys
      end
  end.

Definition noRoute (t : NormalizedTicket) : TicketErr := unrouted ("no route for " +:+ nt_Adapter t +:+ " ticket " +:+ nt_ID t).

Record TicketRoute : Type := mkTicketRoute {
  kt_TicketID : string;
  kt_ProfileID : string;
  kt_ActionName : string;
  kt_Route : string;
  kt_Status : string;
  kt_Error : option TicketErr
}.

Section Router.
Variable resolver : RouteResolver.
Variable executor : option (TicketRun -> Res string (option RunState)).
Variable cancelled : bool.

Definition resolveTarget (t : NormalizedTicket) : option (NormalizedTicket * Res TicketErr string) :=
  match resolver with
  | ByTicket resolve =>
      match resolve t with
      | None => None
      | Some (t, Err e) => Some (t, Err (wrapErr ("resolve route for " +:+ nt_Adapter t +:+ " ticket " +:+ nt_ID t) e))
      | Some (t, Ok target) => Some (t, if decide (target = "") then Err (noRoute t) else Ok target)
      end
  | ByKey resolve =>
      match firstTarget resolve (nt_Adapter t) [RouteKey t; nt_ChannelID t] with
      | Some target => Some (t, Ok target)
      | None => Some (t, Err (noRoute t))
      end
  end.

(** The ticket, the result and the error. *)
Definition Route (t : NormalizedTicket) : option (NormalizedTicket * option TicketRoute * option TicketErr) :=
  if cancelled then Some (t, None, Some (TkText "context canceled"))
  else
    match NormalizedTicket_Validate t with
    | Some text => Some (t, None, Some (TkText text))
    | None =>
        match resolveTarget t with
        | None => None
        | Some (t, Err e) =>
            if IsUnrouted e then Some (t, Some (mkTicketRoute (nt_ID t) "" "" "" "unrouted" (Some e)), None)
            else Some (t, Some (mkTicketRoute (nt_ID t) "" "" "" "error" (Some e)), Some e)
        | Some (t, Ok target) =>
            match ParseTargetAction target with
            | Err text => Some (t, Some (mkTicketRoute (nt_ID t) "" "" "" "error" (Some (TkText text))), Some (TkText text))
            | Ok parsed => Some (t, Some (mkTicketRoute (nt_ID t) parsed.1 parsed.2 (targetString parsed) "routed" None), None)
            end
        end
    end.

Definition ticketRun (profileID actionName : string) (t : NormalizedTicket) : TicketRun :=
  mkTicketRun profileID actionName (mkTicketPayload t (ticketServiceID t) (RouteKey t)) (RouteKey t).

(** The last component is what the executor was called with. *)
Definition ExecuteAction (profileID actionName : string) (t : NormalizedTicket) : Res TicketErr TicketResult * option TicketRun :=
  if cancelled then (Err (TkText "context canceled"), None)
  else match executor with
       | None => (Err (TkText "ticket action executor is not configured"), None)
       | Some run =>
           let input := ticketRun profileID actionName t in
           match run input with
           | Err text => (Err (TkText ("execute " +:+ profileID +:+ "/" +:+ actionName +:+ ": " +:+ text)), Some input)
           | Ok None => (Err (TkText "action executor returned nil run state"), Some input)
           | Ok (Some s) =>
               let '(status, output) :=
                 if rn_Completed s then (StatusSuccess, rn_Output s)
                 else (StatusFailed, if decide (rn_Output s = "") then rn_Error s else rn_Output s) in
               (Ok (mkTicketResult status output (rn_Data s) None), Some input)
           end
       end.

Record TicketHandled : Type := mkTicketHandled {
  kh_Ticket : NormalizedTicket;
  kh_Result : option TicketResult;
  kh_Err : option TicketErr;
  kh_Run : option TicketRun
}.

Definition HandleTicket (t : NormalizedTicket) : option TicketHandled :=
  match Route t with
  | None => None
  | Some (t, _, Some e) =>
      Some (mkTicketHandled t (Some (mkTicketResult StatusFailed ("routing failed: " +:+ TicketErr_Error e) ANil (Some e))) (Some e) None)
  | Some (t, None, None) => None
  | Some (t, Some route, None) =>
      if decide (kt_Status route <> "routed")
      then Some (mkTicketHandled t (Some (mkTicketResult StatusFailed ("ticket not routed: " +:+ kt_Status route) ANil (kt_Error route))) None None)
      else
        match ExecuteAction (kt_ProfileID route) (kt_ActionName route) t with
        | (Err e, run) =>
            Some (mkTicketHandled t (Some (mkTicketResult StatusFailed ("action execution failed: " +:+ TicketErr_Error e) ANil (Some e)))
                    (Some e) run)
        | (Ok r, run) => Some (mkTicketHandled t (Some r) None run)
        end
  end.
End Router.

(** ** The resolver of services *)

Definition ticketSenderKey (t : NormalizedTicket) : string :=
  firstNonEmpty [ac_Email (nt_Author t); ac_ID (nt_Author t); ac_Handle (nt_Author t)].

(** [Decision.Metadata]. *)
Definition decisionMetadata (d : Decision_) : amap :=
  [("sender_key", AStr (de_SenderKey d)); ("match", AStr (ro_Match (de_Route d))); ("route", AInt (de_Index d));
   ("terminal", ABool (de_Terminal d)); ("profile", AStr (ro_Profile (de_Route d))); ("action", AStr (ro_Action (de_Route d)))]
  ++ match de_Contact d with
     | Some c => [("contact", AMap [("id", AStr (co_ID c)); ("name", AStr (co_Name c)); ("org", AStr (co_Org c))])]
     | None => []
     end.

Section Services.
Variable routeFiles : Files.
Variable serviceText : ServiceErr -> string.

Definition routeTableRoute (s : ServiceConfig) (t : NormalizedTicket) : option (NormalizedTicket * Res TicketErr string) :=
  match LoadServiceRouteTable routeFiles (Some s) with
  | None => None
  | Some (Err e) => Some (t, Err (TkText ("service " +:+ sc_ID s +:+ ": " +:+ serviceText e)))
  | Some (Ok table) =>
      let decision := Resolve (Some table) (ticketSenderKey t) in
      let mapping := Mapping decision in
      if decide (mapping = "")
      then Some (t, Err (unrouted ("service " +:+ sc_ID s +:+ " route table produced no target for ticket " +:+ nt_ID t)))
      else Some (set_metadata t MetadataRouting (AMap (decisionMetadata decision)), Ok mapping)
  end.

Definition defaultActionRoute (s : ServiceConfig) (t : NormalizedTicket) : Res TicketErr string :=
  let defaultAction := TrimSpace (opt (sc_Options s) OptionDefaultAction) in
  if decide (defaultAction = "")
  then Err (unrouted ("service " +:+ sc_ID s +:+ " has no " +:+ OptionDefaultAction +:+ " for ticket " +:+ nt_ID t))
  else if Contains defaultAction "=" || Contains defaultAction ":" then Ok defaultAction
  else if decide (TrimSpace (sc_Profile s) = "")
  then Err (TkText ("service " +:+ sc_ID s +:+ " has no profile to run action " +:+ Quote defaultAction))
  else Ok (sc_Profile s +:+ "=" +:+ defaultAction).

Definition ResolveRouteForTicket (fs : ServiceFiles) (t : NormalizedTicket) : option (NormalizedTicket * Res TicketErr string) :=
  let serviceID := ticketServiceID t in
  if decide (serviceID = "") then Some (t, Err (unrouted ("ticket " +:+ nt_ID t +:+ " carries no service")))
  else
    match LoadService fs serviceID with
    | Err e => Some (t, Err (TkText ("load service " +:+ serviceID +:+ ": " +:+ serviceText e)))
    | Ok s =>
        if decide (sc_Type s <> ServiceType)
        then Some (t, Err (TkText ("service " +:+ serviceID +:+ " has type " +:+ Quote (sc_Type s) +:+ ", not ticket")))
        else if HasRouteTable s then routeTableRoute s t
        else Some (t, defaultActionRoute s t)
    end.
End Services.

(** ** The webhook *)

(** One pattern against the candidates: equal, or matched as a glob. *)
Definition senderAdmitted (candidates : list string) (pattern : string) : bool :=
  let pattern := ToLower (TrimSpace pattern) in
  negb (bool_decide (pattern = "")) &&
  existsb (fun c => let c := ToLower (TrimSpace c) in
    negb (bool_decide (c = "")) && (bool_decide (c = pattern) || match Match pattern c with Ok b => b | Err _ => false end)) candidates.

Definition validateTicketSender (s : ServiceConfig) (t : NormalizedTicket) : option MessengerError :=
  let raw := TrimSpace (opt (sc_Options s) "allowed_senders") in
  if decide (raw = "") then None
  else
    let candidates := [ac_Email (nt_Author t); ac_ID (nt_Author t); ac_Handle (nt_Author t)] in
    if existsb (senderAdmitted candidates) (map unchars (splitOn ","%char (chars raw))) then None
    else Some (ErrSenderNotAllowed (sc_ID s) "ticket sender is not allowed").

(** Without the profile: secrets of profiles are not looked up. *)
Definition serviceValidationConfig (s : ServiceConfig) : ServiceValidationConfig :=
  mkServiceConfig (sc_ID s) (sc_Adapter s) "" (sc_Env s) (sc_Options s).

Definition writeValidationError (e : RequestErr) : Response :=
  match e with
  | ContextErr => RespError 500 "ticket service validation failed: context canceled"
  | RequestErr_of e =>
      let text := MessengerError_Error e in
      if IsAuthFailed e then RespError 401 ("ticket service validation failed: " +:+ text)
      else if IsSenderNotAllowed e then RespError 403 ("ticket sender not allowed: service " +:+ er_Name e +:+ ": " +:+ text)
      else RespError 500 ("ticket service validation failed: " +:+ text)
  end.

(** The state: the service files and the validator. *)
Record TicketWorld : Type := mkTicketWorld { kw_Services : ServiceFiles; kw_Validator : ServiceValidator }.

Record TicketEnv : Type := mkTicketEnv {
  ke_now : Z;
  ke_cancelled : bool;
  ke_pick : gmap string Z -> option string;
  ke_fault : bool
}.

Record TicketOutcome : Type := mkTicketOutcome { ko_Response : Response; ko_World : TicketWorld; ko_Run : option TicketRun }.

Section Handler.
Context `{FL : Float64} `{ME : MsgEnv}.
Variable ParseMail : string -> option (string * string).
Variable ParseMailList : string -> option (list (string * string)).
Variable ParseDate : string -> option Z.
Variable Unmarshal : string -> Res string (option amap).
Variable routeFiles : Files.
Variable serviceText : ServiceErr -> string.
Variable redact : string -> string.
Variable executor : option (TicketRun -> Res string (option RunState)).
Variable env : TicketEnv.

Definition ticketEvent (t : NormalizedTicket) (adapter status detail : string) : ServiceEventMeta :=
  plainEvent (nt_ID t) adapter (nt_ChannelID t) (ac_ID (nt_Author t)) status detail.

Definition recordOutboundTicket (w : TicketWorld) (id : string) (e : ServiceEventMeta) : TicketWorld :=
  mkTicketWorld (RecordServiceOutboundEvent redact (ke_now env) (ke_fault env) (kw_Services w) id e).1 (kw_Validator w).

Definition recordInboundTicket (w : TicketWorld) (id : string) (e : ServiceEventMeta) : TicketWorld :=
  mkTicketWorld (RecordServiceInboundEvent redact (ke_now env) (ke_fault env) (kw_Services w) id e).1 (kw_Validator w).

Definition ticketInput (r : Request) (rawBody : string) (s : ServiceConfig) : RequestValidationInput :=
  mkRequest (serviceValidationConfig s) (publicRequestURL r s) (headerGet (rq_Header r)) rawBody None 0.

(** Behind the allow list: the ticket is recorded, routed and executed. *)
Definition acceptTicket (w : TicketWorld) (s : ServiceConfig) (adapter : string) (t : NormalizedTicket) : TicketOutcome :=
  let w := recordInboundTicket w (sc_ID s) (ticketEvent t adapter "received" "") in
  match HandleTicket (ByTicket (ResolveRouteForTicket routeFiles serviceText (kw_Services w))) executor (ke_cancelled env) t with
  | None => mkTicketOutcome RespPanic w None
  | Some h =>
      let t := kh_Ticket h in
      let finish (w : TicketWorld) (resp : Response) := mkTicketOutcome resp w (kh_Run h) in
      match kh_Err h, kh_Result h with
      | Some e, _ =>
          finish (recordOutboundTicket w (sc_ID s) (ticketEvent t adapter StatusFailed (TicketErr_Error e)))
            (RespError 500 ("ticket handling failed: " +:+ TicketErr_Error e))
      | None, None => finish w RespPanic
      | None, Some result =>
          match (match tr_Error result with Some e => if IsUnrouted e then Some e else None | None => None end) with
          | Some e =>
              finish (recordOutboundTicket w (sc_ID s) (ticketEvent t adapter "unrouted" (TicketErr_Error e)))
                (RespError 422 ("service " +:+ Quote (sc_ID s) +:+ " has no route for this ticket: set option " +:+ OptionDefaultAction
                   +:+ " or a routing table"))
          | None =>
              let response := match Denormalize adapter (Some result) (Some t) with Ok m => m | Err _ => [] end in
              finish (recordOutboundTicket w (sc_ID s) (ticketEvent t adapter (tr_Status result) (tr_Output result))) (RespJSON response None)
          end
      end
  end.

(** [rq_ReadBody] is the body up to its limit. *)
Definition handleServiceWebhook (w : TicketWorld) (r : Request) (s : ServiceConfig) (adapter : string) : TicketOutcome :=
  match rq_ReadBody r with
  | Err text => mkTicketOutcome (RespError 500 ("failed to read request body: " +:+ text)) w None
  | Ok rawBody =>
      match ValidateRequest (ke_cancelled env) (ke_now env) (ke_pick env) (kw_Validator w) (ticketInput r rawBody s) with
      | (v, Some e) => mkTicketOutcome (writeValidationError e) (mkTicketWorld (kw_Services w) v) None
      | (v, None) =>
          let w := mkTicketWorld (kw_Services w) v in
          match Unmarshal rawBody with
          | Err text => mkTicketOutcome (RespError 400 ("invalid JSON body: " +:+ text)) w None
          | Ok body =>
              match Normalize ParseMail ParseMailList ParseDate (ke_now env) adapter body with
              | Err text => mkTicketOutcome (RespError 400 ("normalization failed: " +:+ text)) w None
              | Ok t =>
                  let t := set_metadata t MetadataServiceID (AStr (sc_ID s)) in
                  match validateTicketSender s t with
                  | Some e => mkTicketOutcome (writeValidationError (RequestErr_of e)) w None
                  | None => acceptTicket w s adapter t
                  end
              end
          end
      end
  end.

(** [pathService] and [pathAdapter] are the values of the path. *)
Definition ServeHTTP (w : TicketWorld) (r : Request) (pathService pathAdapter : string) : TicketOutcome :=
  let answer resp := mkTicketOutcome resp w None in
  let serviceID := TrimSpace pathService in
  let adapter := ToLower (TrimSpace pathAdapter) in
  if decide (rq_Method r <> "POST") then answer (RespError 405 "only POST requests are accepted")
  else if decide (serviceID = "" \/ adapter = "") then answer (RespError 404 "expected /services/{service}/ticket/{adapter}")
  else
    match LoadService (kw_Services w) serviceID with
    | Err _ => answer (RespError 404 ("service " +:+ Quote serviceID +:+ " not found"))
    | Ok s =>
        if decide (sc_Type s <> ServiceType)
        then answer (RespError 400 ("service " +:+ Quote serviceID +:+ " has type " +:+ Quote (sc_Type s) +:+ ", not ticket"))
        else if decide (ToLower (TrimSpace (sc_Adapter s)) <> adapter)
        then answer (RespError 400 ("service " +:+ Quote serviceID +:+ " has adapter " +:+ Quote (sc_Adapter s) +:+ ", not " +:+ Quote adapter))
        else handleServiceWebhook w r s adapter
    end.
End Handler.


(** ** Normalized tickets *)

Definition ticketKinds : list string := [TicketKindIssue; TicketKindComment; TicketKindMergeRequest].
Definition ticketThreadTypes : list string := [TicketKindIssue; TicketKindMergeRequest; TicketKindEmail].

(** What every normalizer guarantees before the ticket is validated. *)
Definition of_adapter (adapter : string) (raw : amap) (t : NormalizedTicket) : Prop :=
  nt_Adapter t = adapter /\ nt_Kind t ∈ ticketKinds /\ nt_ThreadType t ∈ ticketThreadTypes /\
  mget (nt_Metadata t) "raw" = Some (AMap raw) /\ mget (nt_Metadata t) MetadataServiceID = None.

Ltac listed := apply (bool_decide_eq_true_1 _); vm_compute; reflexivity.

Ltac ticket_cases H :=
  repeat match type of H with
  | (match ?x with _ => _ end = _) => destruct x; try discriminate H
  end; injection H as <-; split; [done|]; split; [listed|]; split; [listed|]; by split.

Lemma mget_mset_ne m k k' v : k <> k' -> mget (mset m k v) k' = mget m k'.
Proof.
  intros Hk. induction m as [|[a x] m IH]; simpl; repeat case_decide; simpl; repeat case_decide; simplify_eq; try done.
Qed.

Lemma keepKeys_other raw keys k m : k ∉ keys -> mget (foldl (keepKey raw) m keys) k = mget m k.
Proof.
  revert m. induction keys as [|key keys IH]; intros m Hk; simpl; [done|].
  apply not_elem_of_cons in Hk as [Hne Hk]. rewrite IH by done. unfold keepKey.
  destruct (mget raw key) as [[]|]; try done; by apply mget_mset_ne.
Qed.

Section NormalForm.
Context `{FL : Float64} `{ME : MsgEnv}.
Variable ParseMail : string -> option (string * string).
Variable ParseMailList : string -> option (list (string * string)).
Variable ParseDate : string -> option Z.

Lemma normalizeJira_form raw t : normalizeJira raw = Ok t -> of_adapter AdapterJira raw t.
Proof. unfold normalizeJira. cbv zeta. intros H. destruct (getMap (Some raw) "comment"); ticket_cases H. Qed.

Lemma normalizeLinear_form raw t : normalizeLinear raw = Ok t -> of_adapter AdapterLinear raw t.
Proof. unfold normalizeLinear. cbv zeta. intros H. destruct (EqualFold _ _); ticket_cases H. Qed.

Lemma noteTarget_type raw a b c : (noteTarget raw a b c).1.1.2 ∈ ticketThreadTypes.
Proof. unfold noteTarget. repeat case_match; listed. Qed.

Lemma normalizeGitLab_form raw t : normalizeGitLab raw = Ok t -> of_adapter AdapterGitLab raw t.
Proof.
  unfold normalizeGitLab. cbv zeta. destruct (getMap _ "project"); [|done]. destruct (getMap _ "object_attributes"); [|done].
  case_decide; [done|]. repeat case_decide; [intros [= <-]| |intros [= <-]]; try (split; [done|]; split; [listed|]; split; [listed|]; by split).
  pose proof noteTarget_type as Hn. destruct (noteTarget _ _ _ _) as [[[x y] z] u] eqn:E. intros [= <-].
  specialize (Hn raw). eapply (f_equal (fun q => q.1.1.2)) in E. simpl in E. rewrite <- E.
  split; [done|]. split; [listed|]. split; [apply Hn|]. by split.
Qed.

Lemma email_metadata raw box :
  let m := foldl (keepKey raw) [("raw", AMap raw); ("mailbox", box)] emailKeys in
  mget m "raw" = Some (AMap raw) /\ mget m MetadataServiceID = None.
Proof. cbv zeta. rewrite !keepKeys_other by listed. done. Qed.

Lemma normalizeEmail_form now raw t : normalizeEmail ParseMail ParseMailList ParseDate now raw = Ok t ->
  of_adapter AdapterEmail raw t /\ ac_ID (nt_Author t) <> "" /\ nt_ThreadID t <> "".
Proof.
  unfold normalizeEmail. cbv zeta. destruct (parseEmailAddress _ _ _) as [fromName fromAddr]. case_decide as Hf; [done|].
  set (mailbox := (parseEmailAddress _ _ _).2). clearbody mailbox. case_decide; [done|].
  set (id := if decide _ then _ else TrimSpace (firstNonEmpty [_; getString _ "message-id"; _])).
  assert (id <> "") as Hid.
  { unfold id. case_decide; [|done]. intros E%(f_equal chars). by rewrite chars_app in E. }
  set (thread := if decide _ then firstField _ else _). clearbody id thread.
  pose proof (email_metadata raw (AStr mailbox)) as Hm. cbv zeta in Hm. revert Hm.
  generalize (foldl (keepKey raw) [("raw", AMap raw); ("mailbox", AStr mailbox)] emailKeys). intros metadata Hm.
  case_decide as Ht; intros [= <-]; (split; [|done]);
    (split; [reflexivity|]); (split; [listed|]); (split; [listed|]); exact Hm.
Qed.

Lemma ticket_Normalize_Ok now adapter raw t : Normalize ParseMail ParseMailList ParseDate now adapter raw = Ok t ->
  exists r, raw = Some r /\ NormalizedTicket_Validate t = None /\ of_adapter (ToLower (TrimSpace adapter)) r t /\
    ToLower (TrimSpace adapter) ∈ [AdapterJira; AdapterLinear; AdapterGitLab; AdapterEmail].
Proof.
  unfold Normalize. destruct raw as [r|]; [|done]. intros H. exists r. split; [done|]. revert H. cbv zeta.
  generalize (ToLower (TrimSpace adapter)). intros a.
  repeat (case_decide; [subst a|]); try done;
    match goal with |- match ?x with _ => _ end = _ -> _ => destruct x as [t'|] eqn:E; [|done] end;
    destruct (NormalizedTicket_Validate t') eqn:Hv; try done; intros [= <-]; (split; [done|]); (split; [|listed]).
  - by apply normalizeJira_form.
  - by apply normalizeLinear_form.
  - by apply normalizeGitLab_form.
  - by eapply normalizeEmail_form.
Qed.
End NormalForm.

(** ** Where a ticket goes *)

(** The target that the configuration of a service names for a ticket: the mapping of its
    route table for the author, or its default action. *)
Definition ticket_target (routeFiles : Files) (s : ServiceConfig) (t : NormalizedTicket) (mapping : string) : Prop :=
  match sc_Routing s with
  | Some _ => exists table, LoadServiceRouteTable routeFiles (Some s) = Some (Ok table) /\
                mapping = Mapping (Resolve (Some table) (ticketSenderKey t))
  | None => let a := TrimSpace (opt (sc_Options s) OptionDefaultAction) in
            a <> "" /\ mapping = if Contains a "=" || Contains a ":" then a else sc_Profile s +:+ "=" +:+ a
  end.

Lemma ticket_target_same routeFiles s s' t mapping :
  same_config s s' -> ticket_target routeFiles s' t mapping -> ticket_target routeFiles s t mapping.
Proof. intros ->. done. Qed.

(** The same ticket but for its metadata. *)
Definition same_ticket (t t' : NormalizedTicket) : Prop := exists m, t' = mkTicket (nt_ID t) (nt_Adapter t) (nt_Kind t) (nt_Action t)
  (nt_WorkspaceID t) (nt_ProjectID t) (nt_ChannelID t) (nt_ThreadID t) (nt_ThreadType t) (nt_Title t) (nt_Body t) (nt_URL t)
  (nt_State t) (nt_Author t) (nt_Labels t) (nt_CreatedAt t) (nt_UpdatedAt t) m.

Lemma same_ticket_refl t : same_ticket t t.
Proof. exists (nt_Metadata t). by destruct t. Qed.

Lemma same_ticket_set t t' k v : same_ticket t t' -> same_ticket t (set_metadata t' k v).
Proof. intros [m ->]. by exists (mset m k v). Qed.

Lemma mget_mset_eq m k v : mget (mset m k v) k = Some v.
Proof. induction m as [|[a x] m IH]; simpl; repeat case_decide; simpl; repeat case_decide; simplify_eq; done. Qed.

Lemma ticketServiceID_stamped t id : ticketServiceID (set_metadata t MetadataServiceID (AStr id)) = id.
Proof. unfold ticketServiceID. cbn [nt_Metadata set_metadata]. by rewrite mget_mset_eq. Qed.

Lemma ticketServiceID_routing t v : ticketServiceID (set_metadata t MetadataRouting v) = ticketServiceID t.
Proof. unfold ticketServiceID. cbn [nt_Metadata set_metadata]. by rewrite mget_mset_ne. Qed.

Section Targets.
Variable routeFiles : Files.
Variable serviceText : ServiceErr -> string.

Lemma ResolveRouteForTicket_Ok fs t t' mapping : ResolveRouteForTicket routeFiles serviceText fs t = Some (t', Ok mapping) ->
  exists s, LoadService fs (ticketServiceID t) = Ok s /\ ticket_target routeFiles s t mapping /\
    same_ticket t t' /\ ticketServiceID t' = ticketServiceID t.
Proof.
  unfold ResolveRouteForTicket. case_decide; [done|]. destruct (LoadService fs _) as [s|] eqn:Hl; [|done].
  case_decide; [done|]. unfold HasRouteTable, ticket_target. intros H'. exists s. split; [done|]. revert H'.
  destruct (sc_Routing s) as [cfg|] eqn:Hr.
  - unfold routeTableRoute. destruct (LoadServiceRouteTable _ _) as [[table|]|] eqn:Ht; [|done|done].
    cbv zeta. case_decide; [done|]. intros [= <- <-]. split; [by exists table|].
    split; [apply same_ticket_set, same_ticket_refl|apply ticketServiceID_routing].
  - intros [= <- E]. split; [|split; [apply same_ticket_refl|done]]. revert E. unfold defaultActionRoute. cbv zeta.
    case_decide; [done|]. destruct (_ || _); [by intros [= <-]|]. case_decide; [done|]. by intros [= <-].
Qed.

Lemma HandleTicket_run resolve executor cancelled t h run :
  HandleTicket (ByTicket resolve) executor cancelled t = Some h -> kh_Run h = Some run ->
  exists t' mapping profile action, resolve t = Some (t', Ok mapping) /\ ParseTargetAction mapping = Ok (profile, action) /\
    kh_Ticket h = t' /\ run = ticketRun profile action t'.
Proof.
  unfold HandleTicket, Route, resolveTarget. destruct cancelled; [by intros [= <-]|].
  destruct (NormalizedTicket_Validate t); [by intros [= <-]|].
  destruct (resolve t) as [[t' [mapping|e]]|] eqn:Hr; [| |done].
  - case_decide; [simpl; by intros [= <-]|].
    destruct (ParseTargetAction mapping) as [[profile action]|] eqn:Hp; [|by intros [= <-]]. simpl.
    unfold ExecuteAction. destruct executor as [execute|]; [|by intros [= <-]].
    destruct (execute _) as [[s|]|]; [destruct (rn_Completed s)| |]; intros [= <-] [= <-]; by exists t', mapping, profile, action.
  - destruct (IsUnrouted (wrapErr _ e)); by intros [= <-].
Qed.
End Targets.

(** C11: A request to a ticket webhook runs an action only as a POST to a stored ticket
    service of that adapter, with the authentication the service asks for, and for a
    ticket whose author its allow list admits; the action is the one that the route table
    of the service, or else its default action, names for the author, and it receives
    that ticket with its route key. *)
Theorem ticket_webhook_guarded `{FL : Float64} `{ME : MsgEnv} ParseMail ParseMailList ParseDate Unmarshal routeFiles serviceText
    redact executor env w r pathService pathAdapter run
    (Hrun : ko_Run (ServeHTTP ParseMail ParseMailList ParseDate Unmarshal routeFiles serviceText redact executor env w r
                      pathService pathAdapter) = Some run) :
  rq_Method r = "POST" /\
  exists s rawBody body t mapping,
    LoadService (kw_Services w) (TrimSpace pathService) = Ok s /\ sc_Type s = ServiceType /\
    ToLower (TrimSpace (sc_Adapter s)) = ToLower (TrimSpace pathAdapter) /\ rq_ReadBody r = Ok rawBody /\
    (ValidateRequest (ke_cancelled env) (ke_now env) (ke_pick env) (kw_Validator w) (ticketInput r rawBody s)).2 = None /\
    Unmarshal rawBody = Ok body /\
    Normalize ParseMail ParseMailList ParseDate (ke_now env) (ToLower (TrimSpace pathAdapter)) body = Ok t /\
    validateTicketSender s t = None /\ ticket_target routeFiles s t mapping /\
    ParseTargetAction mapping = Ok (kr_ProfileID run, kr_ActionID run) /\
    same_ticket t (kp_Ticket (kr_Payload run)) /\ kp_ServiceID (kr_Payload run) = sc_ID s /\ kr_ThreadID run = RouteKey t.
Proof.
  revert Hrun. unfold ServeHTTP. case_decide as Hm; [done|]. case_decide; [done|].
  destruct (LoadService _ _) as [s|] eqn:Hl; [|done]. case_decide as Ht; [done|]. case_decide as Ha; [done|].
  split; [by destruct (decide (rq_Method r = "POST"))|]. revert Hrun. unfold handleServiceWebhook.
  destruct (rq_ReadBody r) as [rawBody|] eqn:Hb; [|done]. destruct (ValidateRequest _ _ _ _ _) as [v [e|]] eqn:Hv; [done|].
  destruct (Unmarshal rawBody) as [body|] eqn:Hu; [|done]. destruct (Normalize _ _ _ _ _ _) as [t|] eqn:Hn; [|done].
  cbv zeta. set (st := set_metadata t MetadataServiceID (AStr (sc_ID s))).
  destruct (validateTicketSender s st) eqn:Hs; [done|]. unfold acceptTicket. cbv zeta.
  destruct (HandleTicket _ _ _ st) as [h|] eqn:Hh; [|done]. intros Hrun.
  assert (kh_Run h = Some run) as Hrun' by (revert Hrun; clear; repeat case_match; done).
  destruct (HandleTicket_run _ _ _ _ _ _ Hh Hrun') as (t' & mapping & profile & action & Hr & Hp & _ & ->).
  destruct (ResolveRouteForTicket_Ok _ _ _ _ _ _ Hr) as (s' & Hl' & Hg & Hst & Hid). unfold st in Hl', Hid, Hst.
  rewrite ticketServiceID_stamped in Hl', Hid.
  assert (sc_ID s = TrimSpace pathService) as Hi by (by eapply LoadService_id). rewrite Hi in Hl'.
  cbn [recordInboundTicket kw_Services] in Hl'. rewrite RecordInbound_updated in Hl'.
  pose proof (updated_same _ _ _ _ _ _ (fun s => proj1 (recordInbound_spec redact _ _ s)) Hl Hl') as Hsame.
  exists s, rawBody, body, t, mapping. split; [done|]. split; [by destruct (decide (sc_Type s = ServiceType))|].
  split; [by destruct (decide (ToLower (TrimSpace (sc_Adapter s)) = ToLower (TrimSpace pathAdapter)))|].
  split; [done|]. split; [by rewrite Hv|]. do 2 (split; [done|]). split; [exact Hs|]. split; [by eapply ticket_target_same|]. split; [done|].
  destruct Hst as [m Hst]. split; [by exists m|]. split; [exact Hid|]. simpl. by rewrite Hst.
Qed.

(** A ticket that [Normalize] returns passes [Validate], is of the adapter asked for, one
    of the four, has a documented kind and thread type, keeps the event it was made from,
    and names no service: that is left to the webhook. *)
Theorem ticket_normal_form `{FL : Float64} `{ME : MsgEnv} ParseMail ParseMailList ParseDate now adapter raw t
    (Hn : Normalize ParseMail ParseMailList ParseDate now adapter raw = Ok t) :
  NormalizedTicket_Validate t = None /\ nt_Adapter t = ToLower (TrimSpace adapter) /\
  nt_Adapter t ∈ [AdapterJira; AdapterLinear; AdapterGitLab; AdapterEmail] /\
  nt_Kind t ∈ ticketKinds /\ nt_ThreadType t ∈ ticketThreadTypes /\
  (exists r, raw = Some r /\ mget (nt_Metadata t) "raw" = Some (AMap r)) /\ ticketServiceID t = "".
Proof.
  apply ticket_Normalize_Ok in Hn as (r & -> & Hv & (Ha & Hk & Ht & Hr & Hs) & Hin). rewrite Ha.
  repeat (split; [done|]). split; [by exists r|]. unfold ticketServiceID. by rewrite Hs.
Qed.

#[local] Existing Instance plain_float.
#[local] Existing Instance plain_env.

Definition no_mail (s : string) : option (string * string) := None.
Definition no_mails (s : string) : option (list (string * string)) := None.

Definition mail_event (id parent references : string) : amap :=
  [("from", AStr "ada@corp.example"); ("to", AStr "Support@example.com"); ("message_id", AStr id);
   ("in_reply_to", AStr parent); ("references", AStr references); ("subject", AStr "login")].

Definition normalizeMail (e : amap) : Res string NormalizedTicket := Normalize no_mail no_mails (fun _ => None) 5 "email" (Some e).

Lemma ticket_normal_form_witness : exists t, normalizeMail (mail_event "<a>" "" "") = Ok t /\ RouteKey t = "support@example.com#<a>" /\
  nt_Kind t ∈ ticketKinds.
Proof.
  eexists. split; [vm_compute; reflexivity|]. split; [vm_compute; reflexivity|].
  apply (ticket_normal_form no_mail no_mails (fun _ => None) 5 "email" (Some (mail_event "<a>" "" ""))). vm_compute. reflexivity.
Defined.

(** The reply to a reply is of another thread, although its references name the first mail. *)
Theorem nested_reply_leaves_thread : exists t1 t2 t3,
  normalizeMail (mail_event "<a>" "" "") = Ok t1 /\ normalizeMail (mail_event "<b>" "<a>" "<a>") = Ok t2 /\
  normalizeMail (mail_event "<c>" "<b>" "<a> <b>") = Ok t3 /\ RouteKey t2 = RouteKey t1 /\ RouteKey t3 <> RouteKey t1.
Proof. do 3 eexists. do 3 (split; [vm_compute; reflexivity|]). split; [vm_compute; reflexivity|]. vm_compute. discriminate. Qed.

Definition inbox : ServiceConfig :=
  mkService "inbox" "ticket" "email" "dev" "" ∅ ∅ (list_to_map [("default_action", "triage"); ("allowed_senders", "*@corp.example"); ("auth_token", "s3cret")])
    None None None None.

Definition ticket_request (token : string) : Request :=
  mkReq "POST" "/services/inbox/ticket/email" "/services/inbox/ticket/email" {["Authorization" := ["Bearer " +:+ token]]} ∅ (Ok "{}") "" "" false.

Definition ticket_call (token : string) : TicketOutcome :=
  ServeHTTP no_mail no_mails (fun _ => None) (fun _ => Ok (Some (mail_event "<a>" "" ""))) no_files (fun _ => "") (fun text => text)
    (Some (fun run => Ok (Some (mkRun true "done" "" ANil)))) (mkTicketEnv 100 false no_pick false)
    (mkTicketWorld {["inbox.yaml" := Parsed inbox]} NewHandler_validator) (ticket_request token) "inbox" "email".

(** Without the token nothing runs; with it the default action does. *)
Lemma ticket_webhook_guarded_witness :
  ko_Run (ticket_call "guess") = None /\
  exists run, ko_Run (ticket_call "s3cret") = Some run /\ kr_ProfileID run = "dev" /\ kr_ActionID run = "triage" /\
    kr_ThreadID run = "support@example.com#<a>".
Proof.
  split; [vm_compute; reflexivity|]. destruct (ko_Run (ticket_call "s3cret")) as [run|] eqn:E.
  - exists run. split; [reflexivity|].
    destruct (ticket_webhook_guarded no_mail no_mails (fun _ => None) (fun _ => Ok (Some (mail_event "<a>" "" ""))) no_files (fun _ => "")
      (fun text => text) (Some (fun run => Ok (Some (mkRun true "done" "" ANil)))) (mkTicketEnv 100 false no_pick false)
      (mkTicketWorld {["inbox.yaml" := Parsed inbox]} NewHandler_validator) (ticket_request "s3cret") "inbox" "email" run E)
      as (_ & s & rawBody & body & t & mapping & Hl & _ & _ & _ & _ & Hu & Hn & _ & Hg & Hp & _ & _ & Ht).
    assert (s = inbox) as -> by (vm_compute in Hl; by injection Hl). injection Hu as <-.
    assert (mapping = "dev=triage") as -> by (destruct Hg as [_ Hg]; vm_compute in Hg; exact Hg).
    assert (ParseTargetAction "dev=triage" = Ok ("dev", "triage")) as Ep by (vm_compute; reflexivity).
    rewrite Ep in Hp. injection Hp as Hp1 Hp2. split; [by rewrite Hp1|]. split; [by rewrite Hp2|].
    rewrite Ht. vm_compute in Hn. injection Hn as <-. vm_compute. reflexivity.
  - vm_compute in E. discriminate E.
Defined.
