(* ===== verification/GoFS.v ===== *)
(** * Files and directories of the operating system

    What package os and path/filepath do with absolute, clean paths: a path is the list of
    its elements, a tree of files is a map from paths to nodes, and the root is always a
    directory.  The class [OsEnv] says what the system refuses and what a failing write or
    removal leaves behind.  Contents are of any type, so that a component stores its decoded
    documents. *)

From Stdlib Require Import ZArith Lia String Ascii.
From stdpp Require Import base option list gmap strings sorting.
From S2P Require Import Prelude Text AcpFiles.

(** ** Paths *)

Abbreviation Path := (list string).

Definition joinStep (p : Path) (seg : string) : Path :=
  if decide (seg = "" \/ seg = ".") then p else if decide (seg = "..") then removelast p else p ++ [seg].

Definition segments (rel : string) : list string := map unchars (splitOn slash (chars rel)).

(** filepath.Join of an absolute path and a relative one. *)
Definition Join (p : Path) (rel : string) : Path := foldl joinStep p (segments rel).

(** A path as text. *)
Definition pathText (p : Path) : string := unchars (slash :: joinOn slash (map chars p)).

Definition under (p q : Path) : bool := bool_decide (p `prefix_of` q).

(** The directories above a path and the path itself, from the top. *)
Definition ancestors (p : Path) : list Path := map (fun n => take (S n) p) (seq 0 (length p)).

(** ** Nodes *)

Inductive Node (C : Type) : Type :=
  | NDir
  | NFile (c : C).
Arguments NDir {_}.
Arguments NFile {_} _.

Abbreviation FS C := (gmap (list string) (Node C)).

Inductive OsErr : Type := ENOENT | ENOTDIR | EISDIR | EACCES | ENOSPC.

#[export] Instance OsErr_dec : EqDecision OsErr.
Proof. solve_decision. Defined.

Definition IsNotExist (e : OsErr) : bool := match e with ENOENT => true | _ => false end.

(** Paths on which every access is refused, writes that fail with what they leave, and
    nodes that cannot be removed. *)
Record OsEnv (C : Type) : Type := mkOsEnv {
  oe_denied : Path -> bool;
  oe_partial : Path -> option (option C);
  oe_kept : Path -> bool
}.
Arguments mkOsEnv {_} _ _ _.
Arguments oe_denied {_} _ _.
Arguments oe_partial {_} _ _.
Arguments oe_kept {_} _ _.

Definition calm {C} : OsEnv C := mkOsEnv (fun _ => false) (fun _ => None) (fun _ => false).

Section FS.
Context {C : Type}.
Implicit Types (env : OsEnv C) (fs : FS C) (p q : Path).

Definition isDir fs p : bool := match p with [] => true | _ => match fs !! p with Some NDir => true | _ => false end end.

Definition isFile fs p : bool := match fs !! p with Some (NFile _) => true | _ => false end.

(** Why a path without a node cannot be found. *)
Definition missingErr fs p : OsErr := if existsb (isFile fs) (ancestors p) then ENOTDIR else ENOENT.

Definition Stat env fs p : Res OsErr bool :=
  if oe_denied env p then Err EACCES
  else if isDir fs p then Ok true else match fs !! p with Some _ => Ok false | None => Err (missingErr fs p) end.

Definition ReadFile env fs p : Res OsErr C :=
  if oe_denied env p then Err EACCES
  else match fs !! p with
       | Some (NFile c) => Ok c
       | Some NDir => Err EISDIR
       | None => Err (missingErr fs p)
       end.

(** The names and whether they are directories, in the order of os.ReadDir. *)
Definition ReadDir env fs p : Res OsErr (list (string * bool)) :=
  if oe_denied env p then Err EACCES
  else if isDir fs p then
    Ok (map (fun name => (name, isDir fs (p ++ [name])))
          (merge_sort str_le (omap (fun q => match last q with
                                             | Some name => if decide (q = p ++ [name]) then Some name else None
                                             | None => None end) (map_to_list fs).*1)))
  else match fs !! p with Some _ => Err ENOTDIR | None => Err (missingErr fs p) end.

Definition WriteFile env fs p (c : C) : FS C * Res OsErr unit :=
  if oe_denied env p then (fs, Err EACCES)
  else if isDir fs p then (fs, Err EISDIR)
  else if negb (isDir fs (removelast p)) then (fs, Err (missingErr fs p))
  else match oe_partial env p with
       | Some (Some left_) => (<[p := NFile left_]> fs, Err ENOSPC)
       | Some None => (fs, Err ENOSPC)
       | None => (<[p := NFile c]> fs, Ok tt)
       end.

Fixpoint mkdirLoop env fs (ps : list Path) : FS C * Res OsErr unit :=
  match ps with
  | [] => (fs, Ok tt)
  | p :: ps =>
      match fs !! p with
      | Some NDir => mkdirLoop env fs ps
      | Some (NFile _) => (fs, Err ENOTDIR)
      | None => if oe_denied env p then (fs, Err EACCES) else mkdirLoop env (<[p := NDir]> fs) ps
      end
  end.

Definition MkdirAll env fs p : FS C * Res OsErr unit := mkdirLoop env fs (ancestors p).

(** A node stays when it, or a node below it, cannot be removed. *)
Definition stays env fs q : bool := existsb (fun r => under q r && oe_kept env r) (map_to_list fs).*1.

Definition RemoveAll env fs p : FS C * Res OsErr unit :=
  if oe_denied env p then (fs, Err EACCES)
  else
    let fs' := filter (fun qn => under p qn.1 = false \/ stays env fs qn.1 = true) fs in
    (fs', if existsb (under p) (map_to_list fs').*1 then Err EACCES else Ok tt).

Definition Remove env fs p : FS C * Res OsErr unit :=
  if oe_denied env p || oe_kept env p then (fs, Err EACCES)
  else match fs !! p with
       | None => (fs, Err (missingErr fs p))
       | Some _ => if existsb (fun q => under p q && negb (bool_decide (q = p))) (map_to_list fs).*1 then (fs, Err ENOTDIR)
                   else (delete p fs, Ok tt)
       end.

(** ** Laws *)

(** Every node but the root is in a directory. *)
Definition tree fs : Prop := fs !! [] = None /\ forall p n, fs !! p = Some n -> isDir fs (removelast p) = true.

Lemma WriteFile_other env fs p c q : q <> p -> (WriteFile env fs p c).1 !! q = fs !! q.
Proof. intros Hq. unfold WriteFile. repeat case_match; try done; by apply lookup_insert_ne. Qed.

Lemma WriteFile_Ok env fs p c fs' : WriteFile env fs p c = (fs', Ok tt) ->
  fs' = <[p := NFile c]> fs /\ oe_denied env p = false /\ isDir fs p = false /\ isDir fs (removelast p) = true /\ oe_partial env p = None.
Proof.
  unfold WriteFile. destruct (oe_denied env p); [done|]. destruct (isDir fs p); [done|].
  destruct (isDir fs (removelast p)); [|done]. destruct (oe_partial env p) as [[]|]; try done. by intros [= <-].
Qed.

Lemma ancestors_elem p q : q ∈ ancestors p <-> q <> [] /\ q `prefix_of` p.
Proof.
  unfold ancestors. rewrite list_elem_of_fmap. split.
  - intros (n & -> & Hn). apply elem_of_seq in Hn. split; [|apply prefix_take].
    destruct p; [simpl in Hn; lia|done].
  - intros [Hq [k ->]]. exists (length q - 1)%nat. rewrite elem_of_seq, length_app.
    destruct q as [|x q]; [done|]. simpl length. split; [|lia].
    replace (S (S (length q) - 1)) with (length (x :: q)) by (simpl; lia). by rewrite take_app_length.
Qed.

Lemma isDir_insert_dir fs p q : isDir fs q = true -> isDir (<[p := NDir]> fs) q = true.
Proof.
  unfold isDir. destruct q as [|x q]; [done|]. destruct (decide (p = x :: q)) as [->|Hne].
  - by rewrite lookup_insert_eq.
  - by rewrite lookup_insert_ne.
Qed.

(** [MkdirAll] only adds directories, at the ancestors; on success they all are. *)
Lemma mkdirLoop_spec env ps : forall fs fs' r, mkdirLoop env fs ps = (fs', r) ->
  (forall q, fs' !! q = fs !! q \/ (q ∈ ps /\ fs !! q = None /\ fs' !! q = Some NDir)) /\
  (r = Ok tt -> forall q, q ∈ ps -> fs' !! q = Some NDir).
Proof.
  induction ps as [|p ps IH]; intros fs fs' r; simpl.
  - intros [= <- <-]. split; [by left|]. intros _ q Hq. by apply elem_of_nil in Hq.
  - assert (forall fs0, mkdirLoop env fs0 ps = (fs', r) -> fs0 !! p = Some NDir ->
      (forall q, fs' !! q = fs0 !! q \/ (q ∈ ps /\ fs0 !! q = None /\ fs' !! q = Some NDir)) /\
      (r = Ok tt -> forall q, q ∈ p :: ps -> fs' !! q = Some NDir)) as step.
    { intros fs0 H Hp. destruct (IH _ _ _ H) as [H1 H2]. split; [done|]. intros Hr q [->|Hq]%elem_of_cons; [|by apply H2].
      destruct (H1 p) as [->|(_ & ? & _)]; [done|congruence]. }
    destruct (fs !! p) as [[|c]|] eqn:Hp.
    + intros H. destruct (step _ H Hp) as [H1 H2]. split; [|done]. intros q. destruct (H1 q) as [?|(? & ? & ?)]; [by left|].
      right. split; [by right|done].
    + intros [= <- <-]. split; [by left|done].
    + destruct (oe_denied env p); [intros [= <- <-]; split; [by left|done]|]. intros H.
      destruct (step _ H) as [H1 H2]; [by rewrite lookup_insert_eq|]. split; [|done]. intros q.
      destruct (decide (q = p)) as [->|Hne].
      * right. split; [by left|]. split; [done|]. destruct (H1 p) as [->|(_ & _ & ->)]; [by rewrite lookup_insert_eq|done].
      * destruct (H1 q) as [E|(? & E & ?)]; rewrite lookup_insert_ne in E by done; [by left|].
        right. split; [by right|done].
Qed.

Lemma MkdirAll_spec env fs p fs' r : MkdirAll env fs p = (fs', r) ->
  (forall q, fs' !! q = fs !! q \/ (q <> [] /\ q `prefix_of` p /\ fs !! q = None /\ fs' !! q = Some NDir)) /\
  (r = Ok tt -> forall q, q `prefix_of` p -> isDir fs' q = true).
Proof.
  intros H%mkdirLoop_spec. destruct H as [H1 H2]. split.
  - intros q. destruct (H1 q) as [?|(Hq & ? & ?)]; [by left|right]. apply ancestors_elem in Hq as [? ?]. done.
  - intros Hr q Hq. unfold isDir. destruct q as [|x q']; [done|]. rewrite (H2 Hr (x :: q')); [done|].
    by apply ancestors_elem.
Qed.

Lemma RemoveAll_lookup env fs p q :
  oe_denied env p = false ->
  (RemoveAll env fs p).1 !! q = if decide (under p q = false \/ stays env fs q = true) then fs !! q else None.
Proof.
  intros Hd. unfold RemoveAll. rewrite Hd. simpl. rewrite map_lookup_filter. destruct (fs !! q); simpl; [|by case_decide].
  unfold guard. by case_decide.
Qed.

Lemma RemoveAll_other env fs p q : under p q = false -> (RemoveAll env fs p).1 !! q = fs !! q.
Proof.
  intros Hq. destruct (oe_denied env p) eqn:Hd; [unfold RemoveAll; by rewrite Hd|].
  rewrite RemoveAll_lookup by done. rewrite decide_True; [done|by left].
Qed.

Lemma RemoveAll_Ok env fs p fs' : RemoveAll env fs p = (fs', Ok tt) -> forall q, under p q = true -> fs' !! q = None.
Proof.
  unfold RemoveAll. destruct (oe_denied env p); [done|]. cbv zeta. destruct (existsb _ _) eqn:E; [done|]. intros [= <-] q Hq.
  destruct (_ !! q) as [n|] eqn:Hl; [|done]. exfalso. apply not_true_iff_false in E. apply E. apply existsb_exists. exists q.
  split; [|done]. apply list_elem_of_In. apply list_elem_of_fmap. exists (q, n). split; [done|]. by apply elem_of_map_to_list.
Qed.

Lemma RemoveAll_sub env fs p : (RemoveAll env fs p).1 ⊆ fs.
Proof. unfold RemoveAll. destruct (oe_denied env p); [done|]. apply map_filter_subseteq. Qed.

(** A node that [RemoveAll] leaves was there before. *)
Lemma isDir_sub fs fs' q : fs' ⊆ fs -> isDir fs' q = true -> isDir fs q = true.
Proof.
  unfold isDir. destruct q; [done|]. intros Hs. destruct (fs' !! _) as [[]|] eqn:E; try done.
  by rewrite (lookup_weaken _ _ _ _ E Hs).
Qed.

(** One element that is neither empty nor special is appended. *)
Definition plain (name : string) : Prop := name <> "" /\ name <> "." /\ name <> ".." /\ slash ∉ chars name.

Lemma Join_plain p name : plain name -> Join p name = p ++ [name].
Proof.
  intros (H1 & H2 & H3 & H4). unfold Join, segments. rewrite splitOn_single by done. simpl. rewrite unchars_chars.
  unfold joinStep. rewrite decide_False by (by intros [?|?]). by rewrite decide_False.
Qed.

Lemma under_refl p : under p p = true.
Proof. by apply bool_decide_eq_true_2. Qed.

Lemma under_snoc p x y q : under (p ++ [x]) q = true -> under (p ++ [y]) q = true -> x = y.
Proof.
  unfold under. rewrite !bool_decide_eq_true. intros [k1 ->] [k2 E]. rewrite <- !app_assoc in E. simpl in E.
  apply (inj (app p)) in E. by injection E.
Qed.
End FS.

(** ** Joining a relative path that stays below *)

Lemma cleanStep_keeps_dotdot segs : forall stack, dotdot ∈ stack -> dotdot ∈ foldl (cleanStep false) stack segs.
Proof.
  induction segs as [|s segs IH]; intros stack H; simpl; [done|]. apply IH. unfold cleanStep.
  case_decide; [done|]. case_decide.
  - destruct stack as [|top rest]; [by apply elem_of_nil in H|]. case_decide as Ht; [by left|].
    apply elem_of_cons in H as [H|H]; [by subst|done].
  - by right.
Qed.

Lemma join_clean segs : forall (p : Path) stack,
  dotdot ∉ foldl (cleanStep false) stack segs ->
  foldl joinStep (p ++ map unchars (reverse stack)) (map unchars segs) = p ++ map unchars (reverse (foldl (cleanStep false) stack segs)).
Proof.
  induction segs as [|s segs IH]; intros p stack Hd; simpl in *; [done|]. rewrite <- IH by done. f_equal.
  assert (dotdot ∉ cleanStep false stack s) as Hs by (intros H; by apply Hd, cleanStep_keeps_dotdot).
  revert Hs. clear IH Hd. unfold joinStep, cleanStep.
  assert (forall t, unchars s = t <-> s = chars t) as Eq.
  { intros t. split; [intros <-; by rewrite chars_unchars|intros ->; apply unchars_chars]. }
  destruct (decide (s = [] \/ s = chars ".")) as [H1|H1].
  - intros _. rewrite decide_True; [done|]. by rewrite !Eq.
  - rewrite (decide_False (P := unchars s = "" \/ _)) by (by rewrite !Eq).
    destruct (decide (s = dotdot)) as [->|H2].
    + rewrite (decide_True (P := unchars dotdot = "..")) by done. destruct stack as [|top rest].
      * intros Hin. exfalso. apply Hin. by left.
      * destruct (decide (top = dotdot)) as [->|Ht]; [intros Hin; exfalso; apply Hin; by left|]. intros _.
        rewrite reverse_cons, map_app, app_assoc. simpl. by rewrite removelast_last.
    + intros _. rewrite decide_False by (by rewrite Eq). by rewrite reverse_cons, map_app, app_assoc.
Qed.

Lemma dotdot_prefix segs : dotdot ∈ foldl (cleanStep false) [] segs ->
  exists rest, reverse (foldl (cleanStep false) [] segs) = dotdot :: rest.
Proof.
  assert (forall segs stack, (stack = [] \/ (dotdot ∉ stack) \/ exists rest, reverse stack = dotdot :: rest) ->
    let out := foldl (cleanStep false) stack segs in out = [] \/ (dotdot ∉ out) \/ exists rest, reverse out = dotdot :: rest) as inv.
  { clear segs. induction segs as [|s segs IH]; intros stack H; simpl; [done|]. apply IH. unfold cleanStep.
    case_decide; [done|]. case_decide as Hs.
    - destruct stack as [|top rest]; [right; right; by exists []|]. case_decide as Ht.
      + right; right. destruct H as [?|[H|[r Hr]]]; [done|exfalso; apply H; subst; by left|].
        exists (r ++ [dotdot]). by rewrite reverse_cons, Hr.
      + destruct H as [?|[H|[r Hr]]]; [done|right; left; intros Hin; apply H; by right|].
        rewrite reverse_cons in Hr. destruct (reverse rest) as [|x l] eqn:E; simpl in Hr; [congruence|].
        right; right. exists l. congruence.
    - right. destruct H as [->|[H|[r Hr]]].
      + left. intros Hin. apply elem_of_cons in Hin as [?|Hin]; [congruence|by apply elem_of_nil in Hin].
      + left. intros Hin. apply elem_of_cons in Hin as [?|Hin]; [congruence|done].
      + right. exists (r ++ [s]). by rewrite reverse_cons, Hr. }
  intros Hin. destruct (inv segs [] (or_introl eq_refl)) as [E|[H|H]]; [|done|done]. rewrite E in Hin. by apply elem_of_nil in Hin.
Qed.

(** A relative path whose clean form is one ordinary name. *)
Lemma Join_single (p : Path) (rel : string) :
  IsAbs rel = false -> Clean rel <> "." -> HasPrefix (Clean rel) ".." = false -> slash ∉ chars (Clean rel) ->
  Join p rel = p ++ [Clean rel].
Proof.
  intros Habs Hdot Hpre Hslash. revert Hdot Hpre Hslash. unfold Clean. rewrite Habs. unfold cleanSegs. rewrite Habs.
  pose proof (dotdot_prefix (splitOn slash (chars rel))) as Hdd. unfold Join, segments.
  pose proof (join_clean (splitOn slash (chars rel)) p []) as Hj. change (map unchars (reverse [])) with (@nil string) in Hj. rewrite app_nil_r in Hj.
  revert Hdd Hj. generalize (foldl (cleanStep false) [] (splitOn slash (chars rel))). intros out Hdd Hj.
  case_decide as Hout; [done|]. rewrite chars_unchars. intros Hdot Hpre Hslash.
  destruct (reverse out) as [|a [|b l]] eqn:E; [done| |].
  - rewrite Hj; [done|]. intros Hin. destruct (Hdd Hin) as [rest [= -> <-]]. done.
  - exfalso. apply Hslash. rewrite joinOn_cons by done. apply elem_of_app. right. by left.
Qed.

(** The entries of a directory: its nodes, each once. *)
Lemma ReadDir_Ok {C} (env : OsEnv C) (fs : FS C) p l : ReadDir env fs p = Ok l ->
  NoDup l.*1 /\ forall name d, (name, d) ∈ l <-> is_Some (fs !! (p ++ [name])) /\ d = isDir fs (p ++ [name]).
Proof.
  unfold ReadDir. destruct (oe_denied env p); [done|]. destruct (isDir fs p); [|by destruct (fs !! p)].
  set (names := omap _ _).
  assert (NoDup names) as Hnd.
  { subst names. pose proof (NoDup_fst_map_to_list fs) as H. revert H. generalize ((map_to_list fs).*1).
    induction l0 as [|q l0 IH]; intros Hn; simpl; [constructor|]. apply NoDup_cons in Hn as [Hq Hn].
    destruct (last q) as [name|] eqn:El; [|by apply IH]. case_decide as Hd; [|by apply IH]. constructor; [|by apply IH].
    intros (q' & Hin & Hq')%list_elem_of_omap. destruct (last q') as [name'|]; [|done]. case_decide; [|done]. congruence. }
  assert (forall name, name ∈ names <-> is_Some (fs !! (p ++ [name]))) as Hel.
  { intros name. subst names. rewrite list_elem_of_omap. split.
    - intros (q & Hin & Hq). apply list_elem_of_fmap in Hin as ([q' n] & -> & Hin%elem_of_map_to_list). simpl in *. destruct (last q'); [|done].
      case_decide; [|done]. injection Hq as <-. subst q'. by exists n.
    - intros [n Hn]. exists (p ++ [name]). split; [|by rewrite last_snoc, decide_True].
      apply list_elem_of_fmap. exists (p ++ [name], n). split; [done|]. by apply elem_of_map_to_list. }
  intros [= <-]. split.
  - rewrite <- list_fmap_compose. rewrite (list_fmap_ext _ id) by done. rewrite list_fmap_id. by rewrite merge_sort_Permutation.
  - intros name d. rewrite list_elem_of_fmap. split.
    + intros (n & [= -> ->] & Hin). rewrite merge_sort_Permutation in Hin. by rewrite <- Hel.
    + intros [Hs ->]. exists name. split; [done|]. by rewrite merge_sort_Permutation, Hel.
Qed.

(** ** Operations keep the tree *)

Section Trees.
Context {C : Type}.
Implicit Types (env : OsEnv C) (fs : FS C) (p q : Path).

Lemma isDir_lookup fs p : p <> [] -> isDir fs p = true <-> fs !! p = Some NDir.
Proof. destruct p; [done|]. intros _. simpl. split; [by repeat case_match|by intros ->]. Qed.

Lemma removelast_prefix p : removelast p `prefix_of` p.
Proof. destruct (decide (p = [])) as [->|Hp]; [done|]. exists [List.last p ""]. by apply app_removelast_last. Qed.

Lemma tree_above fs p q : tree fs -> is_Some (fs !! p) -> q `prefix_of` p -> q <> p -> isDir fs q = true.
Proof.
  intros [Hr Ht]. intros Hp [k ->] Hne. destruct k as [|x k _] using rev_ind; [by rewrite app_nil_r in Hne|]. clear Hne.
  revert x Hp. induction k as [|y k IH] using rev_ind; intros x [n Hn].
  - pose proof (Ht _ _ Hn) as H. by rewrite app_nil_l, removelast_last in H.
  - pose proof (Ht _ _ Hn) as H. rewrite app_assoc, removelast_last in H. apply (IH y). apply isDir_lookup in H; [by exists NDir|].
    intros E. apply (f_equal length) in E. rewrite !length_app in E. simpl in E. lia.
Qed.

Lemma tree_insert fs p n : tree fs -> p <> [] -> isDir fs (removelast p) = true -> (n = NDir \/ isDir fs p = false) ->
  tree (<[p := n]> fs).
Proof.
  intros [Hr Ht] Hp Hd Hn. split; [by rewrite lookup_insert_ne|]. intros q n' Hq.
  assert (isDir fs (removelast q) = true) as Hq'.
  { destruct (decide (p = q)) as [<-|Hne]; [done|]. rewrite lookup_insert_ne in Hq by done. by apply (Ht _ _ Hq). }
  destruct (decide (p = removelast q)) as [E|E].
  - destruct Hn as [->|Hn]; [|congruence]. rewrite <- E. apply isDir_lookup; [done|]. by rewrite lookup_insert_eq.
  - unfold isDir in *. destruct (removelast q); [done|]. by rewrite lookup_insert_ne.
Qed.

Lemma mkdirLoop_tree env p : forall len k fs, (k + len = length p)%nat -> tree fs -> isDir fs (take k p) = true ->
  tree (mkdirLoop env fs (map (fun n => take (S n) p) (seq k len))).1.
Proof.
  induction len as [|len IH]; intros k fs Hk Ht Hd; simpl; [done|].
  assert (removelast (take (S k) p) = take k p) as Er.
  { destruct (lookup_lt_is_Some_2 p k) as [x Hx]; [lia|]. by rewrite (take_S_r _ _ _ Hx), removelast_last. }
  assert (take (S k) p <> []) as Hne by (destruct p; [simpl in Hk; lia|done]).
  destruct (fs !! take (S k) p) as [[|c]|] eqn:E.
  - apply IH; [lia|done|]. by apply isDir_lookup.
  - done.
  - destruct (oe_denied env (take (S k) p)); [done|]. apply IH; [lia| |].
    + apply tree_insert; [done|done|by rewrite Er|by left].
    + apply isDir_lookup; [done|]. by rewrite lookup_insert_eq.
Qed.

Lemma MkdirAll_tree env fs p : tree fs -> tree (MkdirAll env fs p).1.
Proof. intros Ht. apply mkdirLoop_tree; [done|done|done]. Qed.

Lemma WriteFile_tree env fs p c : tree fs -> tree (WriteFile env fs p c).1.
Proof.
  intros Ht. unfold WriteFile. destruct (oe_denied env p); [done|]. destruct (isDir fs p) eqn:Ed; [done|].
  destruct (isDir fs (removelast p)) eqn:Er; [|done]. simpl.
  assert (p <> []) by (by intros ->).
  destruct (oe_partial env p) as [[|]|]; simpl; [apply tree_insert|..]; eauto using tree_insert.
Qed.

Lemma stays_above env fs p q : stays env fs q = true -> p `prefix_of` q -> stays env fs p = true.
Proof.
  unfold stays. rewrite !existsb_exists. intros (r & Hr & H) Hp. exists r. split; [done|].
  apply andb_true_iff in H as [H ->]. rewrite andb_true_r. unfold under in *. apply bool_decide_eq_true in H. apply bool_decide_eq_true. by etrans.
Qed.

Lemma RemoveAll_tree env fs p : tree fs -> tree (RemoveAll env fs p).1.
Proof.
  intros [Hr Ht]. destruct (oe_denied env p) eqn:Hd; [unfold RemoveAll; by rewrite Hd|]. split.
  - rewrite RemoveAll_lookup by done. by case_decide.
  - intros q n. rewrite RemoveAll_lookup by done. case_decide as H; [|done]. intros Hq.
    specialize (Ht _ _ Hq). unfold isDir in *. destruct (removelast q) as [|x l] eqn:E; [done|].
    rewrite RemoveAll_lookup by done. rewrite decide_True; [done|]. rewrite <- E. destruct H as [H|H].
    + left. unfold under in *. apply bool_decide_eq_false in H. apply bool_decide_eq_false. intros Hp. apply H. etrans; [done|apply removelast_prefix].
    + right. eapply stays_above; [done|apply removelast_prefix].
Qed.

(** A failed removal leaves the top of what it removes. *)
Lemma RemoveAll_Err env fs p fs' e : RemoveAll env fs p = (fs', Err e) -> oe_denied env p = false -> tree fs -> fs' !! p = fs !! p.
Proof.
  intros H Hd Ht. assert (fs' = (RemoveAll env fs p).1) as E by (by rewrite H). revert H. unfold RemoveAll in *. rewrite Hd in *. simpl in E.
  rewrite <- E. destruct (existsb _ _) eqn:Ex; [|done]. intros _. apply existsb_exists in Ex as (q & Hq & Hu).
  apply list_elem_of_In, list_elem_of_fmap in Hq as ([q' n] & -> & Hq%elem_of_map_to_list). simpl in Hu. rewrite E in *.
  apply map_lookup_filter_Some in Hq as [Hq Hf]. simpl in Hf. apply bool_decide_eq_true in Hu.
  destruct (fs !! p) as [n'|] eqn:Hp.
  - apply map_lookup_filter_Some. split; [done|]. simpl. right. destruct Hf as [Hf|Hf]; [|by eapply stays_above].
    unfold under in Hf. by apply bool_decide_eq_false in Hf.
  - apply map_lookup_filter_None. by left.
Qed.

Lemma Stat_Ok env fs p : p <> [] -> oe_denied env p = false -> is_ok (Stat env fs p) = bool_decide (is_Some (fs !! p)).
Proof.
  intros Hp Hd. unfold Stat. rewrite Hd. destruct p as [|x p]; [done|]. simpl.
  by destruct (fs !! (x :: p)) as [[]|].
Qed.
End Trees.
