(* ===== verification/ProfileData.v ===== *)
(** * Profiles: data, checks, trust ledger, overrides of the environment

    src/internal/core: the record of a profile and its methods (profile.go,
    trust_ledger.go), the check of new identifiers (profile_id.go), references
    (profile_uri.go), the git configuration of a profile (profile_gitconfig.go) and the
    entries of --env and --env-file (env_overrides.go). *)

From Stdlib Require Import ZArith Lia String Ascii SpecFloat.
From stdpp Require Import base option list gmap strings.
From S2P Require Import Prelude Text GoValue.

#[local] Open Scope Z_scope.

(** ** Data *)

Record KnowledgeConfig : Type := mkKnowledge { kn_Subscriptions : string }.

Record LLMConfig : Type := mkLLMConfig {
  lm_Provider : string; lm_DefaultModel : string; lm_BaseURL : string; lm_Routers : list string; lm_RouterConfig : option amap;
  lm_Fallback : list string; lm_StrongModel : string; lm_WeakModel : string
}.

Record ScopeConfig : Type := mkScopeConfig {
  so_FilePatterns : list string; so_Operations : list string; so_Tools : list string; so_Secrets : list string; so_Networks : list string
}.

Record WorkspaceLink : Type := mkWorkspaceLink { wl_Name : string; wl_Scope : string; wl_ScopeRules : option ScopeConfig }.

Record A2AConfig : Type := mkA2A {
  aa_ProtocolBinding : string; aa_ListenAddr : string; aa_PublicEndpoint : string; aa_SecurityScheme : string; aa_IsolationTier : string
}.

Record ACPConfig : Type := mkACP { cp_Enabled : bool; cp_Transport : string; cp_ListenAddr : string; cp_Port : Z }.

Record MobileAdapterConfig : Type := mkMobileConfig {
  mb_Enabled : bool; mb_Port : Z; mb_MaxDevices : Z; mb_DefaultExpiry : string; mb_QRExpiry : string; mb_ApprovalRequired : bool;
  mb_AllowedCapabilities : list string
}.

Record Persona : Type := mkPersona { pn_Tone : string; pn_Style : string; pn_Risk : string }.
Record Account : Type := mkAccount { an_Username : string }.
Record Preferences : Type := mkPreferences { pf_Language : string; pf_Timezone : string; pf_Shell : string }.
Record Limits : Type := mkLimits { li_MaxConcurrency : Z; li_MaxRuntimeMinutes : Z }.
Record GitConfig : Type := mkGit { gi_Enabled : bool }.
Record SSHConfig : Type := mkSSH { sh_Enabled : bool; sh_KeyPath : string }.
Record WebhookConfig : Type := mkWebhook { wh_AllowedEvents : list string }.
Record ObservabilityConfig : Type := mkObservability { ob_Exporter : string; ob_Endpoint : string; ob_SamplingRate : float64 }.
Record DirectoryConfig : Type := mkDirectory { di_Endpoint : string; di_AutoRegister : bool; di_AutoRefresh : bool }.
Record IdentityConfig : Type := mkIdentity { id_DID : string; id_KeyPath : string; id_Badges : list string }.
Record TrustConfig : Type := mkTrustConfig { tc_RequireIdentity : bool; tc_AllowedIssuers : list string }.

Record PlatformConfig : Type := mkPlatform { pt_SandboxID : string; pt_Name : string }.
Record BuildStep : Type := mkBuildStep { bs_Type : string; bs_Run : string; bs_Content : string }.
Record ContainerResources : Type := mkResources { cr_MemoryMB : Z; cr_CPUQuota : Z }.
Record ContainerConfig : Type := mkContainer {
  ct_Image : string; ct_Network : string; ct_Volumes : list string; ct_Resources : ContainerResources; ct_BuildSteps : list BuildStep;
  ct_Packages : list string
}.
Definition IsolationProcess : string := "process".
Definition IsolationPlatform : string := "platform".
Definition IsolationContainer : string := "container".

Record IsolationConfig : Type := mkIsolation {
  is_Level : string; is_Strict : bool; is_Fallback : bool; is_Platform : PlatformConfig; is_Container : ContainerConfig
}.

Record TrustBreakdown : Type := mkBreakdown { tb_Label : string; tb_Value : float64 }.
Record TrustEntry : Type := mkTrustEntry {
  te_TaskRef : string; te_Domain : string; te_Difficulty : string; te_Timestamp : Z; te_Delta : float64; te_Breakdown : list TrustBreakdown
}.
(** [tl_Scores] is the map, [None] when it is nil. *)
Record TrustLedger : Type := mkLedger { tl_Scores : option (gmap string float64); tl_History : list TrustEntry }.

Definition ProfileTypeAgent : string := "agent".
Definition ProfileTypeHuman : string := "human".

(** The voice configuration belongs to another package. *)
Record Profile : Type := mkProfile {
  pr_ID : string;
  pr_DisplayName : string;
  pr_Type : string;
  pr_Description : string;
  pr_ReportsTo : string;
  pr_Email : string;
  pr_Avatar : string;
  pr_Color : string;
  pr_Persona : Persona;
  pr_Capabilities : list string;
  pr_Accounts : gmap string Account;
  pr_Preferences : Preferences;
  pr_Limits : Limits;
  pr_Git : GitConfig;
  pr_SSH : SSHConfig;
  pr_Webhooks : WebhookConfig;
  pr_Isolation : IsolationConfig;
  pr_A2A : option A2AConfig;
  pr_ACP : option ACPConfig;
  pr_Mobile : option MobileAdapterConfig;
  pr_Workspace : option WorkspaceLink;
  pr_Observability : option ObservabilityConfig;
  pr_Directory : option DirectoryConfig;
  pr_Identity : option IdentityConfig;
  pr_Trust : option TrustConfig;
  pr_LLM : option LLMConfig;
  pr_Knowledge : option KnowledgeConfig;
  pr_Squads : list string;
  pr_Scope : option ScopeConfig;
  pr_Roles : list string;
  pr_TrustLedger : option TrustLedger
}.

(** The fields that methods assign to. *)
Record Assigned : Type := mkAssigned {
  as_ID : string; as_Capabilities : list string; as_Shell : string; as_Level : string; as_Squads : list string; as_Roles : list string;
  as_TrustLedger : option TrustLedger
}.

Definition assigned (p : Profile) : Assigned :=
  mkAssigned (pr_ID p) (pr_Capabilities p) (pf_Shell (pr_Preferences p)) (is_Level (pr_Isolation p)) (pr_Squads p) (pr_Roles p)
    (pr_TrustLedger p).

Definition assign (p : Profile) (a : Assigned) : Profile :=
  mkProfile (as_ID a) (pr_DisplayName p) (pr_Type p) (pr_Description p) (pr_ReportsTo p) (pr_Email p) (pr_Avatar p) (pr_Color p)
    (pr_Persona p) (as_Capabilities a) (pr_Accounts p)
    (mkPreferences (pf_Language (pr_Preferences p)) (pf_Timezone (pr_Preferences p)) (as_Shell a))
    (pr_Limits p) (pr_Git p) (pr_SSH p) (pr_Webhooks p)
    (mkIsolation (as_Level a) (is_Strict (pr_Isolation p)) (is_Fallback (pr_Isolation p)) (is_Platform (pr_Isolation p))
       (is_Container (pr_Isolation p)))
    (pr_A2A p) (pr_ACP p) (pr_Mobile p) (pr_Workspace p) (pr_Observability p) (pr_Directory p) (pr_Identity p) (pr_Trust p) (pr_LLM p)
    (pr_Knowledge p) (as_Squads a) (pr_Scope p) (as_Roles a) (as_TrustLedger a).

Definition set_ID (p : Profile) (id : string) : Profile :=
  let a := assigned p in
  assign p (mkAssigned id (as_Capabilities a) (as_Shell a) (as_Level a) (as_Squads a) (as_Roles a) (as_TrustLedger a)).
Definition set_Capabilities (p : Profile) (l : list string) : Profile :=
  let a := assigned p in assign p (mkAssigned (as_ID a) l (as_Shell a) (as_Level a) (as_Squads a) (as_Roles a) (as_TrustLedger a)).
Definition set_Shell (p : Profile) (s : string) : Profile :=
  let a := assigned p in
  assign p (mkAssigned (as_ID a) (as_Capabilities a) s (as_Level a) (as_Squads a) (as_Roles a) (as_TrustLedger a)).
Definition set_Level (p : Profile) (s : string) : Profile :=
  let a := assigned p in
  assign p (mkAssigned (as_ID a) (as_Capabilities a) (as_Shell a) s (as_Squads a) (as_Roles a) (as_TrustLedger a)).
Definition set_Squads (p : Profile) (l : list string) : Profile :=
  let a := assigned p in
  assign p (mkAssigned (as_ID a) (as_Capabilities a) (as_Shell a) (as_Level a) l (as_Roles a) (as_TrustLedger a)).
Definition set_Roles (p : Profile) (l : list string) : Profile :=
  let a := assigned p in
  assign p (mkAssigned (as_ID a) (as_Capabilities a) (as_Shell a) (as_Level a) (as_Squads a) l (as_TrustLedger a)).
Definition set_Ledger (p : Profile) (t : TrustLedger) : Profile :=
  let a := assigned p in
  assign p (mkAssigned (as_ID a) (as_Capabilities a) (as_Shell a) (as_Level a) (as_Squads a) (as_Roles a) (Some t)).

(** ** Types and isolation *)

Definition EffectiveType (p : Profile) : string := if decide (pr_Type p = "") then ProfileTypeAgent else pr_Type p.

Definition ValidateType (p : Profile) : bool := bool_decide (pr_Type p ∈ [""; ProfileTypeAgent; ProfileTypeHuman]).

Definition EnsureRunnable (p : Profile) : option string :=
  if decide (EffectiveType p = ProfileTypeHuman) then Some ("profile " +:+ Quote (pr_ID p) +:+ " is type human and cannot be run") else None.

Inductive IsolationErr : Type := InvalidLevel (level : string) | ImageRequired.

(** The profile with its default level, and the error. *)
Definition ValidateIsolation (p : Profile) : Profile * option IsolationErr :=
  let level := is_Level (pr_Isolation p) in
  if decide (level = "") then (set_Level p IsolationProcess, None)
  else if decide (level ∉ [IsolationProcess; IsolationPlatform; IsolationContainer]) then (p, Some (InvalidLevel level))
  else if decide (level = IsolationContainer /\ ct_Image (is_Container (pr_Isolation p)) = "") then (p, Some ImageRequired)
  else (p, None).

(** ** Squads, roles and capabilities: sets kept as lists *)

Definition IsMemberOfSquad (p : Profile) (squadID : string) : bool := existsb (fun s => bool_decide (s = squadID)) (pr_Squads p).
Definition AddSquad (p : Profile) (squadID : string) : Profile :=
  if IsMemberOfSquad p squadID then p else set_Squads p (pr_Squads p ++ [squadID]).
Definition RemoveSquad (p : Profile) (squadID : string) : Profile := set_Squads p (filter (fun s => s <> squadID) (pr_Squads p)).

Definition ValidRoles : list string := ["owner"; "assignee"; "evaluator"; "auditor"].
Definition HasRole (p : Profile) (role : string) : bool := existsb (fun r => bool_decide (r = role)) (pr_Roles p).
Definition AddRole (p : Profile) (role : string) : Profile := if HasRole p role then p else set_Roles p (pr_Roles p ++ [role]).
Definition RemoveRole (p : Profile) (role : string) : Profile := set_Roles p (filter (fun r => r <> role) (pr_Roles p)).
Definition IsValidRole (role : string) : bool := bool_decide (role ∈ ValidRoles).

Definition ProfileHasCapability (p : Profile) (capName : string) : bool := existsb (fun c => bool_decide (c = capName)) (pr_Capabilities p).

(** ** The trust ledger *)

Definition TrustDomains : list string := ["hooks"; "skills"; "commands"; "plugins"; "general"].
Definition IsValidTrustDomain (domain : string) : bool := bool_decide (domain ∈ TrustDomains).

Definition fzero : float64 := S754_zero false.
Definition fadd (a b : float64) : float64 := SFadd 53 1024 a b.

Definition ensured (p : Profile) : gmap string float64 * list TrustEntry :=
  match pr_TrustLedger p with Some t => (default ∅ (tl_Scores t), tl_History t) | None => (∅, []) end.

Definition EnsureTrustLedger (p : Profile) : Profile := let '(scores, history) := ensured p in set_Ledger p (mkLedger (Some scores) history).

Definition stampEntry (now : Z) (e : TrustEntry) : TrustEntry :=
  if IsZero (te_Timestamp e) then mkTrustEntry (te_TaskRef e) (te_Domain e) (te_Difficulty e) now (te_Delta e) (te_Breakdown e) else e.

Definition RecordTrust (now : Z) (p : Profile) (entry : TrustEntry) : Profile :=
  let '(scores, history) := ensured p in
  let entry := stampEntry now entry in
  set_Ledger p (mkLedger (Some (<[te_Domain entry := fadd (default fzero (scores !! te_Domain entry)) (te_Delta entry)]> scores)) (history ++ [entry])).

Definition TrustScore (p : Profile) (domain : string) : float64 :=
  match pr_TrustLedger p with
  | Some t => match tl_Scores t with Some scores => default fzero (scores !! domain) | None => fzero end
  | None => fzero
  end.

Definition TrustHistory (p : Profile) (domain : string) : list TrustEntry :=
  match pr_TrustLedger p with
  | None => []
  | Some t => if decide (domain = "") then tl_History t else filter (fun e => te_Domain e = domain) (tl_History t)
  end.

(** ** Identifiers *)

(** The digits 1 to 9 and the superscripts of 1, 2 and 3 in UTF-8. *)
Definition deviceDigits : list string :=
  ["1"; "2"; "3"; "4"; "5"; "6"; "7"; "8"; "9"; unchars [ascii_of_N 194; ascii_of_N 185]; unchars [ascii_of_N 194; ascii_of_N 178];
   unchars [ascii_of_N 194; ascii_of_N 179]].

Definition windowsReservedNames : list string :=
  ["CON"; "PRN"; "AUX"; "NUL"] ++ map (fun d => "COM" +:+ d) deviceDigits ++ map (fun d => "LPT" +:+ d) deviceDigits.

Definition windowsInvalidChars : list ascii :=
  ["<"; ">"; ":"]%char ++ [dquote] ++ ["/"]%char ++ [backslash] ++ ["|"; "?"; "*"]%char.

Inductive IDErr : Type :=
  | IDEmpty | IDReservedPath | IDControl (c : ascii) | IDInvalidChar (c : ascii) | IDTrailing | IDDevice (name : string).

Fixpoint badChar (l : list ascii) : option IDErr :=
  match l with
  | [] => None
  | c :: l =>
      if decide (N_of_ascii c < 32)%N then Some (IDControl c)
      else if decide (c ∈ windowsInvalidChars) then Some (IDInvalidChar c) else badChar l
  end.

Fixpoint trimRightChar (c : ascii) (l : list ascii) : list ascii :=
  match l with
  | [] => []
  | x :: l => match trimRightChar c l with [] => if decide (x = c) then [] else [x] | l => x :: l end
  end.

Definition idStem (id : string) : string := let '(stem, _, _) := Cut id "."%char in unchars (trimRightChar " "%char (chars stem)).

Definition ValidateProfileID (id : string) : option IDErr :=
  if decide (id = "") then Some IDEmpty
  else if decide (id = "." \/ id = "..") then Some IDReservedPath
  else match badChar (chars id) with
       | Some e => Some e
       | None =>
           if decide (last (chars id) = Some "."%char \/ last (chars id) = Some " "%char) then Some IDTrailing
           else let stem := ToUpper (idStem id) in if decide (stem ∈ windowsReservedNames) then Some (IDDevice stem) else None
       end.

(** ** References.  [ParseURI] is the parser of hop.top/cite: scheme, namespace and id. *)

Definition ProfileURIScheme : string := "aps".
Definition ProfileURISpace : string := "profile".

Inductive RefErr : Type := RefEmpty | RefParse (text : string) | RefScheme (s : string) | RefSpace (s : string).

Definition ParseProfileRef (ParseURI : string -> Res string (string * string * string)) (s : string) : Res RefErr string :=
  if decide (s = "") then Err RefEmpty
  else if negb (Contains s "://") then Ok s
  else match ParseURI s with
       | Err text => Err (RefParse text)
       | Ok (scheme, space, id) =>
           if decide (scheme <> ProfileURIScheme) then Err (RefScheme scheme)
           else if decide (space <> ProfileURISpace) then Err (RefSpace space) else Ok id
       end.

(** ** Git configuration *)

Definition newlineChar : ascii := ascii_of_N 10.
Definition tabChar : ascii := ascii_of_N 9.
Definition nulChar : ascii := ascii_of_N 0.

Definition escapeGitChar (c : ascii) : list ascii :=
  if decide (c = backslash) then [backslash; backslash]
  else if decide (c = dquote) then [backslash; dquote]
  else if decide (c = newlineChar) then [backslash; "n"%char]
  else if decide (c = tabChar) then [backslash; "t"%char]
  else if decide (c = nulChar) then [] else [c].

Definition quoteGitConfigValue (v : string) : string := unchars (dquote :: concat (map escapeGitChar (chars v)) ++ [dquote]).

Definition line (l : string) : string := l +:+ unchars [newlineChar].

Definition renderProfileGitConfig (id : string) (p : Profile) : string :=
  let name := if decide (pr_DisplayName p = "") then id else pr_DisplayName p in
  line "[user]" +:+ line (unchars [tabChar] +:+ "name = " +:+ quoteGitConfigValue name)
  +:+ if decide (pr_Email p = "") then "" else line (unchars [tabChar] +:+ "email = " +:+ quoteGitConfigValue (pr_Email p)).

(** ** Overrides of the environment *)

Definition keyChar (first : bool) (c : ascii) : bool :=
  let n := N_of_ascii c in
  bool_decide (c = "_"%char) || bool_decide (65 <= n <= 90)%N || bool_decide (97 <= n <= 122)%N || (negb first && bool_decide (48 <= n <= 57)%N).

Definition isValidEnvKey (k : string) : bool :=
  match chars k with [] => false | c :: l => keyChar true c && forallb (keyChar false) l end.

Inductive EnvErr : Type :=
  | NoEquals (kv : string) | EmptyKey (kv : string) | InvalidKey (kv : string)
  | OpenFile (path : string) | MalformedLine (path : string) (lineNo : nat) | LineKey (path : string) (lineNo : nat) (key : string)
  | ScanFile (path : string).

Definition parseInlineEnv (kv : string) : Res EnvErr (string * string) :=
  match Cut kv "="%char with
  | (_, _, false) => Err (NoEquals kv)
  | (k, v, true) => if decide (k = "") then Err (EmptyKey kv) else if isValidEnvKey k then Ok (k, v) else Err (InvalidKey kv)
  end.

(** The text in front of the first " #". *)
Fixpoint beforeComment (l : list ascii) : list ascii :=
  match l with
  | " "%char :: "#"%char :: _ => []
  | c :: l => c :: beforeComment l
  | [] => []
  end.

Fixpoint trimRightBlank (l : list ascii) : list ascii :=
  match l with
  | [] => []
  | x :: l => match trimRightBlank l with [] => if decide (x = " "%char \/ x = tabChar) then [] else [x] | l => x :: l end
  end.

Definition quoted (l : list ascii) : bool :=
  match l with
  | c :: _ :: _ => bool_decide (c = dquote \/ c = "'"%char) && bool_decide (last l = Some c)
  | _ => false
  end.

Definition unquoteEnvValue (v : string) : string :=
  let l := chars v in
  unchars (if quoted l then removelast (drop 1 l) else trimRightBlank (beforeComment l)).

(** One line: nothing, an entry, or an error. *)
Definition parseEnvLine (path : string) (lineNo : nat) (raw : string) : Res EnvErr (option string) :=
  let l := TrimSpace raw in
  if bool_decide (l = "") || HasPrefix l "#" then Ok None
  else
    let l := if HasPrefix l "export " then TrimSpace (TrimPrefix l "export ") else l in
    match Cut l "="%char with
    | (k, v, found) =>
        if negb found || bool_decide (k = "") then Err (MalformedLine path lineNo)
        else let key := TrimSpace k in
             if isValidEnvKey key then Ok (Some (key +:+ "=" +:+ unquoteEnvValue v)) else Err (LineKey path lineNo key)
    end.

Fixpoint parseEnvLines (path : string) (lineNo : nat) (lines : list string) : Res EnvErr (list string) :=
  match lines with
  | [] => Ok []
  | l :: lines =>
      match parseEnvLine path lineNo l with
      | Err e => Err e
      | Ok o => match parseEnvLines path (S lineNo) lines with Err e => Err e | Ok out => Ok (option_list o ++ out) end
      end
  end.

(** [ReadLines]: the lines of a file as [bufio.Scanner] gives them, and whether it failed
    behind them; [None] when the file cannot be opened. *)
Definition parseEnvFile (ReadLines : string -> option (list string * bool)) (path : string) : Res EnvErr (list string) :=
  match ReadLines path with
  | None => Err (OpenFile path)
  | Some (lines, failed) =>
      match parseEnvLines path 1 lines with Err e => Err e | Ok out => if failed then Err (ScanFile path) else Ok out end
  end.

Fixpoint collect {A} (f : A -> Res EnvErr (list string)) (l : list A) : Res EnvErr (list string) :=
  match l with
  | [] => Ok []
  | a :: l =>
      match f a with
      | Err e => Err e
      | Ok out => match collect f l with Err e => Err e | Ok rest => Ok (out ++ rest) end
      end
  end.

Definition BuildOverrideEnv (ReadLines : string -> option (list string * bool)) (envFiles envInline : list string) :
    Res EnvErr (list string) :=
  match collect (parseEnvFile ReadLines) envFiles with
  | Err e => Err e
  | Ok out =>
      match collect (fun kv => match parseInlineEnv kv with Err e => Err e | Ok (k, v) => Ok [k +:+ "=" +:+ v] end) envInline with
      | Err e => Err e
      | Ok inline => Ok (out ++ inline)
      end
  end.

(** ** The checks of identifiers *)

Lemma badChar_None l : badChar l = None <-> Forall (fun c => (32 <= N_of_ascii c)%N /\ c ∉ windowsInvalidChars) l.
Proof.
  induction l as [|c l IH]; simpl; [by split|]. rewrite Forall_cons. case_decide; [split; [done|]; intros [[? _] _]; lia|].
  case_decide; [split; [done|by intros [[_ ?] _]]|]. rewrite IH. split; [|tauto]. intros ?. split; [split; [lia|done]|done].
Qed.

(** What a new identifier must be to name a directory on every platform. *)
Record portable (id : string) : Prop := {
  po_special : id <> "" /\ id <> "." /\ id <> "..";
  po_chars : Forall (fun c => (32 <= N_of_ascii c)%N /\ c ∉ windowsInvalidChars) (chars id);
  po_last : last (chars id) <> Some "."%char /\ last (chars id) <> Some " "%char;
  po_device : ToUpper (idStem id) ∉ windowsReservedNames
}.

Lemma ValidateProfileID_None id : ValidateProfileID id = None <-> portable id.
Proof.
  unfold ValidateProfileID. split.
  - destruct (badChar _) eqn:E; repeat case_decide; try done. intros _.
    apply badChar_None in E. split; [naive_solver|done|naive_solver|done].
  - intros [H1 H2%badChar_None H3 H4]. rewrite decide_False by tauto. rewrite decide_False by tauto. rewrite H2.
    rewrite decide_False by tauto. by rewrite decide_False.
Qed.

(** ** The trust ledger: scores are the sums of the history *)

Definition deltas (domain : string) (l : list TrustEntry) : list float64 := te_Delta <$> filter (fun e => te_Domain e = domain) l.

(** The score of each domain is the sum of its deltas in the order they were recorded. *)
Definition ledger_sums (p : Profile) : Prop :=
  forall domain, TrustScore p domain = foldl fadd fzero (deltas domain (TrustHistory p "")).

Lemma ensured_score p domain : TrustScore p domain = default fzero ((ensured p).1 !! domain).
Proof. unfold TrustScore, ensured. destruct (pr_TrustLedger p) as [[[scores|] history]|]; done. Qed.

Lemma ensured_history p : TrustHistory p "" = (ensured p).2.
Proof. unfold TrustHistory, ensured. by destruct (pr_TrustLedger p). Qed.

Lemma RecordTrust_history now p e : TrustHistory (RecordTrust now p e) "" = TrustHistory p "" ++ [stampEntry now e].
Proof. unfold RecordTrust. rewrite !ensured_history. by destruct (ensured p). Qed.

Lemma stampEntry_fields now e : te_Domain (stampEntry now e) = te_Domain e /\ te_Delta (stampEntry now e) = te_Delta e.
Proof. unfold stampEntry. by destruct (IsZero _). Qed.

Lemma RecordTrust_score now p e domain :
  TrustScore (RecordTrust now p e) domain =
  if decide (te_Domain e = domain) then fadd (TrustScore p domain) (te_Delta e) else TrustScore p domain.
Proof.
  unfold RecordTrust. rewrite !ensured_score. destruct (ensured p) as [scores history]. unfold ensured at 1. simpl.
  destruct (stampEntry_fields now e) as [-> ->].
  case_decide as Hd; [by rewrite Hd, lookup_insert_eq|by rewrite lookup_insert_ne].
Qed.

Lemma RecordTrust_sums now p e : ledger_sums p -> ledger_sums (RecordTrust now p e).
Proof.
  intros H domain. rewrite RecordTrust_score, RecordTrust_history. unfold deltas. rewrite filter_app, fmap_app, foldl_app.
  fold (deltas domain (TrustHistory p "")). rewrite <- H.
  destruct (stampEntry_fields now e) as [E1 E2].
  rewrite filter_cons, filter_nil. case_decide as Hd; [rewrite decide_True by congruence|rewrite decide_False by congruence]; simpl; [by rewrite E2|done].
Qed.

(** Over any run of recorded trust from a profile without a ledger, the history is the
    run in order, nothing is ever dropped, and the score of each domain is the float64 sum
    of the deltas of its entries in that order, which is also what the filtered history
    shows. *)
Theorem trust_scores_sum (events : list (Z * TrustEntry)) (p : Profile) (Hp : pr_TrustLedger p = None) :
  let q := foldl (fun p e => RecordTrust e.1 p e.2) p events in
  TrustHistory q "" = map (fun e => stampEntry e.1 e.2) events /\
  (forall domain, TrustScore q domain = foldl fadd fzero (deltas domain (TrustHistory q ""))) /\
  (forall domain, domain <> "" -> te_Delta <$> TrustHistory q domain = deltas domain (TrustHistory q "")).
Proof.
  intros q. assert (TrustHistory p "" = [] /\ ledger_sums p) as [Hh Hs].
  { unfold ledger_sums, TrustScore, TrustHistory. by rewrite Hp. }
  assert (forall l p, ledger_sums p -> let q := foldl (fun p e => RecordTrust e.1 p e.2) p l in
    ledger_sums q /\ TrustHistory q "" = TrustHistory p "" ++ map (fun e => stampEntry e.1 e.2) l) as run.
  { induction l as [|e l IH]; intros p0 H0; simpl; [by rewrite app_nil_r|].
    destruct (IH _ (RecordTrust_sums e.1 p0 e.2 H0)) as [H1 H2]. split; [done|]. by rewrite H2, RecordTrust_history, <- app_assoc. }
  destruct (run events p Hs) as [H1 H2]. fold q in H1, H2. rewrite Hh in H2. split; [done|]. split; [done|].
  intros domain Hd. unfold TrustHistory, deltas. destruct (pr_TrustLedger q); [|done]. rewrite decide_False by done.
  by rewrite decide_True.
Qed.

(** ** Git reads back what was rendered *)

(** The value between double quotes of git-config(1): what follows the closing quote. *)
Fixpoint gitQuoted (l : list ascii) (acc : list ascii) : option (list ascii * list ascii) :=
  match l with
  | [] => None
  | c :: l =>
      if decide (c = dquote) then Some (acc, l)
      else if decide (c = newlineChar) then None
      else if decide (c = backslash) then
        match l with
        | [] => None
        | e :: l =>
            if decide (e = backslash) then gitQuoted l (acc ++ [backslash])
            else if decide (e = dquote) then gitQuoted l (acc ++ [dquote])
            else if decide (e = "n"%char) then gitQuoted l (acc ++ [newlineChar])
            else if decide (e = "t"%char) then gitQuoted l (acc ++ [tabChar]) else None
        end
      else gitQuoted l (acc ++ [c])
  end.

(** A line "<tab>key = value" with a quoted value and nothing behind it. *)
Definition gitLine (l : list ascii) : option (string * string) :=
  match cutAt "="%char l with
  | (key, Some (sp :: q :: rest)) =>
      if decide (sp = " "%char /\ q = dquote) then
        match gitQuoted rest [] with
        | Some (value, []) => Some (TrimSpace (unchars key), unchars value)
        | _ => None
        end
      else None
  | _ => None
  end.

(** The entries of the one section of the file. *)
Definition gitRead (file : string) : option (list (string * string)) :=
  match splitOn newlineChar (chars file) with
  | header :: lines =>
      if decide (header = chars "[user]") then mapM gitLine (filter (fun l => l <> []) lines) else None
  | [] => None
  end.

Definition withoutNul (s : string) : string := unchars (filter (fun c => c <> nulChar) (chars s)).

Lemma gitQuoted_escaped v rest acc :
  gitQuoted (concat (map escapeGitChar v) ++ dquote :: rest) acc = Some (acc ++ filter (fun c => c <> nulChar) v, rest).
Proof.
  revert acc. induction v as [|c v IH]; intros acc; simpl.
  { by rewrite app_nil_r. }
  rewrite <- app_assoc, filter_cons. unfold escapeGitChar at 1.
  destruct (decide (c = nulChar)) as [->|Hn].
  - rewrite (decide_False (P := nulChar <> nulChar)) by tauto. by apply IH.
  - rewrite (decide_True (P := c <> nulChar)) by done. replace (acc ++ c :: filter (fun c => c <> nulChar) v)
      with ((acc ++ [c]) ++ filter (fun c => c <> nulChar) v) by (by rewrite <- app_assoc).
    repeat case_decide; subst; simpl; try apply IH.
    rewrite decide_False by done. rewrite decide_False by done. rewrite decide_False by done. apply IH.
Qed.

Lemma quoted_no_newline v : newlineChar ∉ chars (quoteGitConfigValue v).
Proof.
  unfold quoteGitConfigValue. rewrite chars_unchars, elem_of_cons, elem_of_app, list_elem_of_singleton.
  intros [?|[Hin|?]]; [done| |done]. apply list_elem_of_In, in_concat in Hin as (l & Hl & Hin). apply in_map_iff in Hl as (c & <- & _).
  apply list_elem_of_In in Hin. revert Hin. unfold escapeGitChar.
  repeat case_decide; rewrite ?elem_of_cons, ?elem_of_nil; intros Hc;
    repeat match goal with H : _ \/ _ |- _ => destruct H end; try done; congruence.
Qed.

(** Lines of the file: a key without an equals sign and a quoted value. *)
Lemma gitLine_rendered key v : "="%char ∉ chars key ->
  gitLine (chars key ++ "="%char :: " "%char :: chars (quoteGitConfigValue v)) = Some (TrimSpace key, withoutNul v).
Proof.
  intros Hk. unfold gitLine. rewrite (proj2 (cutAt_spec _ _ _ _)) by done. unfold quoteGitConfigValue. rewrite chars_unchars.
  rewrite decide_True by done. rewrite gitQuoted_escaped, unchars_chars. done.
Qed.

Lemma chars_line l : chars (line l) = chars l ++ [newlineChar].
Proof. unfold line. by rewrite chars_app, chars_unchars. Qed.

Lemma gitRead_lines (lines : list string) : Forall (fun l => newlineChar ∉ chars l /\ l <> "") lines ->
  gitRead (line "[user]" +:+ foldr (fun l s => (line l +:+ s)) "" lines) = mapM gitLine (map chars lines).
Proof.
  intros Hl. unfold gitRead. rewrite chars_app, chars_line, <- app_assoc. simpl ([newlineChar] ++ _).
  rewrite splitOn_app by (by apply (bool_decide_eq_true_1 _)). rewrite decide_True by done. f_equal.
  induction Hl as [|l lines [Hn He] _ IH]; [done|]. simpl. rewrite chars_app, chars_line, <- app_assoc. simpl.
  rewrite splitOn_app by done. rewrite filter_cons, decide_True by (by rewrite chars_nil). by rewrite IH.
Qed.

Definition gitRow (key v : string) : string := unchars [tabChar] +:+ key +:+ quoteGitConfigValue v.

(** C27: What [CreateProfile] writes to the gitconfig of a profile is read back by the syntax
    of git-config as exactly the name and the address of the profile, less NUL characters:
    no display name or address, whatever it holds, opens another key or section. *)
Theorem git_config_read_back (id : string) (p : Profile) :
  gitRead (renderProfileGitConfig id p) =
  Some (("name", withoutNul (if decide (pr_DisplayName p = "") then id else pr_DisplayName p)) ::
        if decide (pr_Email p = "") then [] else [("email", withoutNul (pr_Email p))]).
Proof.
  unfold renderProfileGitConfig. set (name := if decide (pr_DisplayName p = "") then id else pr_DisplayName p).
  assert (forall key v, newlineChar ∉ chars key -> newlineChar ∉ chars (unchars [tabChar] +:+ key +:+ quoteGitConfigValue v) /\
    unchars [tabChar] +:+ key +:+ quoteGitConfigValue v <> "") as Hline.
  { intros key v Hk. split; [|by destruct key]. rewrite !chars_app, !elem_of_app, chars_unchars, list_elem_of_singleton.
    intros [?|[?|?]]; [done|done|by eapply quoted_no_newline]. }
  assert (forall key v, "="%char ∉ chars key ->
    gitLine (chars (unchars [tabChar] +:+ (key +:+ "= ") +:+ quoteGitConfigValue v)) =
    Some (TrimSpace (unchars [tabChar] +:+ key), withoutNul v)) as Hread.
  { intros key v Hk. rewrite !chars_app, <- app_assoc, app_assoc. rewrite <- chars_app. apply (gitLine_rendered (unchars [tabChar] +:+ key)).
    rewrite chars_app, elem_of_app, chars_unchars, list_elem_of_singleton. by intros [?|?]. }
  assert (gitLine (chars (gitRow "name = " name)) = Some ("name", withoutNul name)) as Hn
    by (apply (Hread "name "); by apply (bool_decide_eq_true_1 _)).
  assert (gitLine (chars (gitRow "email = " (pr_Email p))) = Some ("email", withoutNul (pr_Email p))) as He
    by (apply (Hread "email "); by apply (bool_decide_eq_true_1 _)).
  transitivity (gitRead (line "[user]" +:+ foldr (fun l s => (line l +:+ s)) ""
    (gitRow "name = " name :: if decide (pr_Email p = "") then [] else [gitRow "email = " (pr_Email p)]))).
  { f_equal. f_equal. simpl. f_equal. case_decide; [done|]. apply chars_inj. simpl. by rewrite (chars_app _ ""), app_nil_r. }
  rewrite gitRead_lines.
  - case_decide; cbn -[gitRow gitLine chars]; rewrite Hn; cbn -[gitRow gitLine chars]; [done|]. by rewrite He.
  - constructor; [apply Hline; by apply (bool_decide_eq_true_1 _)|]. case_decide; [constructor|].
    constructor; [apply Hline; by apply (bool_decide_eq_true_1 _)|constructor].
Qed.

(** ** Overrides of the environment: every entry has a usable key *)

Definition env_entry (kv : string) : Prop := exists k v, kv = k +:+ "=" +:+ v /\ isValidEnvKey k = true.

Lemma parseEnvLines_entries path lines n out : parseEnvLines path n lines = Ok out -> Forall env_entry out.
Proof.
  revert n out. induction lines as [|l lines IH]; intros n out; simpl; [intros [= <-]; constructor|].
  destruct (parseEnvLine path n l) as [o|] eqn:E; [|done]. destruct (parseEnvLines path (S n) lines) as [rest|] eqn:Er; [|done].
  intros [= <-]. apply Forall_app. split; [|by eapply IH]. revert E. unfold parseEnvLine.
  destruct (_ || _); [by intros [= <-]; constructor|]. destruct (Cut _ _) as [[k v] found]. destruct (_ || _); [done|]. cbv zeta.
  destruct (isValidEnvKey (TrimSpace k)) eqn:Hk; [|done]. intros [= <-]. constructor; [|constructor]. by eexists _, _.
Qed.

Lemma collect_Forall {A} (f : A -> Res EnvErr (list string)) (P : string -> Prop) l out :
  (forall a o, f a = Ok o -> Forall P o) -> collect f l = Ok out -> Forall P out.
Proof.
  intros Hf. revert out. induction l as [|a l IH]; intros out; simpl; [intros [= <-]; constructor|].
  destruct (f a) as [o|] eqn:E; [|done]. destruct (collect f l) as [rest|]; [|done]. intros [= <-]. apply Forall_app.
  split; [by eapply Hf|by apply IH].
Qed.

(** What is appended to the environment of a command: the entries of the files, then those
    of the flags, each with a key that a shell accepts. *)
Theorem override_entries ReadLines envFiles envInline out :
  BuildOverrideEnv ReadLines envFiles envInline = Ok out ->
  Forall env_entry out /\
  exists fileEntries, collect (parseEnvFile ReadLines) envFiles = Ok fileEntries /\ fileEntries `prefix_of` out.
Proof.
  unfold BuildOverrideEnv. destruct (collect _ envFiles) as [files|] eqn:Ef; [|done].
  destruct (collect _ envInline) as [inline|] eqn:Ei; [|done]. intros [= <-]. split; [|exists files; split; [done|by exists inline]].
  apply Forall_app. split.
  - refine (collect_Forall _ _ _ _ _ Ef). intros path o. unfold parseEnvFile. destruct (ReadLines path) as [[lines failed]|]; [|done].
    destruct (parseEnvLines path 1 lines) as [o'|] eqn:E; [|done]. destruct failed; [done|]. intros [= <-]. by eapply parseEnvLines_entries.
  - refine (collect_Forall _ _ _ _ _ Ei). intros kv o. destruct (parseInlineEnv kv) as [[k v]|] eqn:E; [|done]. intros [= <-].
    constructor; [|constructor]. exists k, v. split; [done|]. revert E. unfold parseInlineEnv.
    destruct (Cut kv _) as [[k' v'] []]; [|done]. case_decide; [done|]. destruct (isValidEnvKey k') eqn:Hk; [|done]. by intros [= <- _].
Qed.

(** ** Witnesses *)

Definition no_container : ContainerConfig := mkContainer "" "" [] (mkResources 0 0) [] [].

Definition blank_profile (id : string) : Profile :=
  mkProfile id id "" "" "" "" "" "" (mkPersona "" "" "") [] ∅ (mkPreferences "" "" "") (mkLimits 0 0) (mkGit false) (mkSSH false "")
    (mkWebhook []) (mkIsolation "" false false (mkPlatform "" "") no_container) None None None None None None None None None None [] None [] None.

Definition trust (domain : string) (delta : Z) : TrustEntry := mkTrustEntry "T-1" domain "S" 0 (itof delta) [].

Lemma trust_scores_sum_witness :
  let q := foldl (fun p e => RecordTrust e.1 p e.2) (blank_profile "noor") [(5, trust "hooks" 2); (6, trust "skills" 1); (7, trust "hooks" (-3))] in
  TrustScore q "hooks" = itof (-1) /\ te_Timestamp <$> TrustHistory q "" = [5; 6; 7].
Proof.
  intros q. destruct (trust_scores_sum [(5, trust "hooks" 2); (6, trust "skills" 1); (7, trust "hooks" (-3))] (blank_profile "noor") eq_refl)
    as (Hh & Hs & _). split; [|by unfold q; rewrite Hh]. unfold q. rewrite Hs, Hh. vm_compute. reflexivity.
Defined.

Example reserved_names : ValidateProfileID "com1 .txt" = Some (IDDevice "COM1") /\ ValidateProfileID "a:b" = Some (IDInvalidChar ":"%char)
  /\ ValidateProfileID "console" = None.
Proof. by vm_compute. Qed.
