(* ===== verification/Profile.v ===== *)
(** * Profiles on disk

    src/internal/core: directories of profiles (profile.go), their actions (action.go) and
    bundles (profile_bundle.go), over the tree of files of GoFS.  YAML documents are their
    decoded values; what cannot be decoded is [None].  Events for the bus are returned. *)

From Stdlib Require Import ZArith Lia String Ascii.
From stdpp Require Import base option list gmap strings.
From S2P Require Import Prelude Text AcpFiles GoFS ProfileData.

#[local] Open Scope Z_scope.

(** ** Contents of files *)

Record Action : Type := mkAction {
  at_ID : string; at_Title : string; at_Entrypoint : string; at_AcceptsStdin : bool; at_Path : Path; at_Type : string
}.

Record BundleAction : Type := mkBundleAction {
  ba_ID : string; ba_Title : string; ba_Entrypoint : string; ba_AcceptsStdin : bool; ba_Content : string
}.

Record ProfileBundle : Type := mkProfileBundle {
  bd_Version : string; bd_SourceID : string; bd_CreatedAt : string; bd_Profile : Profile; bd_Actions : list BundleAction
}.

(** A row of the session registry file: its profile and its status. *)
Record RegistryRow : Type := mkRow { rw_ProfileID : string; rw_Status : string }.

Inductive Content : Type :=
  | CProfile (p : option Profile)
  | CManifest (m : option (list Action))
  | CBundle (b : option ProfileBundle)
  | CRegistry (r : option (list (string * RegistryRow)))
  | CText (text : string).

Inductive Event : Type :=
  | ProfileCreated (id displayName email : string) (capabilities : list string) (note : string)
  | ProfileDeleted (id note : string)
  | ProfileUpdated (id : string) (fields : list string) (note : string).

Inductive ProfErr : Type :=
  | ErrInvalidProfileID (e : IDErr)
  | ErrConflict (id : string)
  | ErrReadProfile (id : string) (e : OsErr)
  | ErrParseProfile (id : string)
  | ErrIDMismatch (path content : string)
  | ErrIsolation (id : string) (e : IsolationErr)
  | ErrEmptyID
  | ErrFile (what : string) (e : OsErr)
  | ErrActiveSessions (ids : list string)
  | ErrCapabilityMissing (capName id : string)
  | ErrBundle (what : string)
  | ErrBundleAction (what : string) (id : string)
  | ErrActionNotFound (id profileID : string).

Definition asProfile (c : Content) : option Profile := match c with CProfile p => p | _ => None end.

(** filepath.Ext. *)
Definition Ext (name : string) : string :=
  let fix go (l acc : list ascii) : string :=
    match l with
    | [] => ""
    | c :: l => if decide (c = slash) then "" else if decide (c = "."%char) then unchars (c :: acc) else go l (c :: acc)
    end in go (reverse (chars name)) [].

Section Files.
Variable env : OsEnv Content.
(** [GetDataDir]. *)
Variable data : Path.
Variable note : string.
Abbreviation Files := (FS Content).

Definition profilesDir : Path := Join data "profiles".
Definition GetProfileDir (id : string) : Path := Join profilesDir id.
Definition GetProfilePath (id : string) : Path := Join (GetProfileDir id) "profile.yaml".

Definition LoadProfileFromPath (fs : Files) (id : string) (path : Path) : Res ProfErr Profile :=
  match ReadFile env fs path with
  | Err e => Err (ErrReadProfile id e)
  | Ok c =>
      match asProfile c with
      | None => Err (ErrParseProfile id)
      | Some p =>
          if decide (pr_ID p <> id) then Err (ErrIDMismatch id (pr_ID p))
          else match ValidateIsolation p with
               | (_, Some e) => Err (ErrIsolation id e)
               | (p, None) => Ok p
               end
      end
  end.

Definition LoadProfile (fs : Files) (id : string) : Res ProfErr Profile := LoadProfileFromPath fs id (GetProfilePath id).

Definition SaveProfile (fs : Files) (p : Profile) : Files * Res ProfErr unit :=
  if decide (pr_ID p = "") then (fs, Err ErrEmptyID)
  else
    let dir := GetProfileDir (pr_ID p) in
    match MkdirAll env fs dir with
    | (fs, Err e) => (fs, Err (ErrFile "profile directory" e))
    | (fs, Ok _) =>
        match WriteFile env fs (Join dir "profile.yaml") (CProfile (Some p)) with
        | (fs, Err e) => (fs, Err (ErrFile "profile.yaml" e))
        | (fs, Ok _) => (fs, Ok tt)
        end
    end.

Definition defaultSecrets : string := "# Add your secrets here. Format: KEY=VALUE" +:+ unchars [newlineChar] +:+ "# GITHUB_TOKEN=..." +:+ unchars [newlineChar].
Definition defaultNotes (displayName : string) : string :=
  line ("# Notes for " +:+ displayName) +:+ line "" +:+ line "- Created on today".

Definition writeText (fs : Files) (dir : Path) (name text : string) : Files * Res ProfErr unit :=
  match WriteFile env fs (Join dir name) (CText text) with
  | (fs, Err e) => (fs, Err (ErrFile name e))
  | (fs, Ok _) => (fs, Ok tt)
  end.

(** [!os.IsNotExist(err)] of [os.Stat]. *)
Definition occupied (fs : Files) (dir : Path) : bool := match Stat env fs dir with Err e => negb (IsNotExist e) | Ok _ => true end.

(** The default files, after profile.yaml. *)
Definition writeDefaults (fs : Files) (dir : Path) (id : string) (config : Profile) : Files * Res ProfErr unit :=
  match writeText fs dir "secrets.env" defaultSecrets with
  | (fs, Err e) => (fs, Err e)
  | (fs, Ok _) =>
      match writeText fs dir "notes.md" (defaultNotes (pr_DisplayName config)) with
      | (fs, Err e) => (fs, Err e)
      | (fs, Ok _) =>
          if gi_Enabled (pr_Git config) then writeText fs dir "gitconfig" (renderProfileGitConfig id config) else (fs, Ok tt)
      end
  end.

(** [shell] is [DetectShell()]. *)
Definition CreateProfileWithContext (shell : string) (fs : Files) (id : string) (config : Profile) : Files * Res ProfErr unit * list Event :=
  match ValidateProfileID id with
  | Some e => (fs, Err (ErrInvalidProfileID e), [])
  | None =>
      let dir := GetProfileDir id in
      if occupied fs dir then (fs, Err (ErrConflict id), [])
      else
        match MkdirAll env fs (Join dir "actions") with
        | (fs, Err e) => (fs, Err (ErrFile "profile directories" e), [])
        | (fs, Ok _) =>
            let config := if decide (pf_Shell (pr_Preferences config) = "") then set_Shell config shell else config in
            let config := set_ID config id in
            match SaveProfile fs config with
            | (fs, Err e) => (fs, Err e, [])
            | (fs, Ok _) =>
                match writeDefaults fs dir id config with
                | (fs, Err e) => (fs, Err e, [])
                | (fs, Ok _) =>
                    (fs, Ok tt, [ProfileCreated id (pr_DisplayName config) (pr_Email config) (pr_Capabilities config) note])
                end
            end
        end
  end.

(** The default of [activeSessionsForProfile]: the sessions of registry.json. *)
Definition defaultActiveSessionsForProfile (fs : Files) (id : string) : Res OsErr (list string) :=
  match ReadFile env fs (Join (Join data "sessions") "registry.json") with
  | Err e => if IsNotExist e then Ok [] else Err e
  | Ok (CRegistry (Some rows)) => Ok (map fst (filter (fun r => rw_ProfileID r.2 = id /\ rw_Status r.2 = "active") rows))
  | Ok _ => Ok []
  end.

Definition removeProfile (fs : Files) (id : string) : Files * Res ProfErr unit * list Event :=
  match RemoveAll env fs (GetProfileDir id) with
  | (fs, Err e) => (fs, Err (ErrFile "remove directory" e), [])
  | (fs, Ok _) => (fs, Ok tt, [ProfileDeleted id note])
  end.

Definition DeleteProfileWithContext (fs : Files) (id : string) (force : bool) : Files * Res ProfErr unit * list Event :=
  if decide (id = "") then (fs, Err ErrEmptyID, [])
  else
    match LoadProfile fs id with
    | Err e => (fs, Err e, [])
    | Ok _ =>
        if force then removeProfile fs id
        else match defaultActiveSessionsForProfile fs id with
             | Err e => (fs, Err (ErrFile "check active sessions" e), [])
             | Ok [] => removeProfile fs id
             | Ok active => (fs, Err (ErrActiveSessions active), [])
             end
    end.

Definition exists_ (fs : Files) (p : Path) : bool := is_ok (Stat env fs p).

Definition ListProfiles (fs : Files) : Res OsErr (list string) :=
  match ReadDir env fs profilesDir with
  | Err e => if IsNotExist e then Ok [] else Err e
  | Ok entries =>
      Ok (map fst (filter (fun e => e.2 = true /\ exists_ fs (Join (Join profilesDir e.1) "profile.yaml") = true) entries))
  end.

Definition loaded (fs : Files) (ids : list string) : list Profile :=
  omap (fun id => match LoadProfile fs id with Ok p => Some p | Err _ => None end) ids.

Definition ListProfilesFull (fs : Files) : Res OsErr (list Profile) :=
  match ListProfiles fs with Err e => Err e | Ok ids => Ok (loaded fs ids) end.

Definition ProfilesUsingCapability (fs : Files) (capName : string) : Res OsErr (list string) :=
  match ListProfiles fs with
  | Err e => Err e
  | Ok ids => Ok (filter (fun id => match LoadProfile fs id with Ok p => ProfileHasCapability p capName | Err _ => false end = true) ids)
  end.

Definition savedCapabilities (fs : Files) (profileID : string) (p : Profile) (caps : list string) : Files * Res ProfErr unit * list Event :=
  match SaveProfile fs (set_Capabilities p caps) with
  | (fs, Err e) => (fs, Err e, [])
  | (fs, Ok _) => (fs, Ok tt, [ProfileUpdated profileID ["capabilities"] note])
  end.

Definition AddCapabilityToProfileWithContext (fs : Files) (profileID capName : string) : Files * Res ProfErr unit * list Event :=
  match LoadProfile fs profileID with
  | Err e => (fs, Err e, [])
  | Ok p => if ProfileHasCapability p capName then (fs, Ok tt, []) else savedCapabilities fs profileID p (pr_Capabilities p ++ [capName])
  end.

Definition RemoveCapabilityFromProfileWithContext (fs : Files) (profileID capName : string) : Files * Res ProfErr unit * list Event :=
  match LoadProfile fs profileID with
  | Err e => (fs, Err e, [])
  | Ok p =>
      if ProfileHasCapability p capName
      then savedCapabilities fs profileID p (filter (fun c => c <> capName) (pr_Capabilities p))
      else (fs, Err (ErrCapabilityMissing capName profileID), [])
  end.

(** ** Actions *)

Definition resolveType (filename : string) : string :=
  let ext := Ext filename in
  if decide (ext = ".sh") then "sh" else if decide (ext = ".py") then "py" else if decide (ext = ".js") then "js" else "unknown".

Definition resolveAction (actionsDir : Path) (a : Action) : Action :=
  mkAction (at_ID a) (at_Title a) (at_Entrypoint a) (at_AcceptsStdin a) (Join actionsDir (at_Entrypoint a)) (resolveType (at_Entrypoint a)).

Definition implicitAction (actionsDir : Path) (name : string) : Action :=
  mkAction (TrimSuffix name (Ext name)) name name false (Join actionsDir name) (resolveType name).

(** The map of known actions; Go leaves its order open. *)
Definition knownActions (fs : Files) (profileID : string) : gmap string Action :=
  let dir := GetProfileDir profileID in
  let actionsDir := Join dir "actions" in
  let manifest := match ReadFile env fs (Join dir "actions.yaml") with Ok (CManifest (Some m)) => m | _ => [] end in
  let known := foldl (fun known a => <[at_ID a := resolveAction actionsDir a]> known) ∅ manifest in
  match ReadDir env fs actionsDir with
  | Err _ => known
  | Ok entries =>
      foldl (fun known e =>
        if e.2 : bool then known
        else let a := implicitAction actionsDir e.1 in
             match known !! at_ID a with Some _ => known | None => <[at_ID a := a]> known end) known entries
  end.

Definition LoadActions (fs : Files) (profileID : string) : list Action := (map_to_list (knownActions fs profileID)).*2.

Definition GetAction (fs : Files) (profileID actionID : string) : Res ProfErr Action :=
  match list_find (fun a => at_ID a = actionID) (LoadActions fs profileID) with
  | Some (_, a) => Ok a
  | None => Err (ErrActionNotFound actionID profileID)
  end.

(** ** Bundles *)

Definition ProfileBundleVersion : string := "v1".

(** [IsAbs], the path cleaned, and its last element. *)
Definition validateBundleAction (a : BundleAction) : option ProfErr :=
  let e := ba_Entrypoint a in
  if decide (ba_ID a = "") then Some (ErrBundle "action id is required")
  else if decide (e = "") then Some (ErrBundleAction "entrypoint is required" (ba_ID a))
  else if IsAbs e then Some (ErrBundleAction "entrypoint must be relative" (ba_ID a))
  else
    let clean := Clean e in
    if bool_decide (clean = ".") || HasPrefix clean ".." then Some (ErrBundleAction "entrypoint must stay within actions directory" (ba_ID a))
    else if decide (slash ∈ chars clean) then Some (ErrBundleAction "entrypoint must be a file name" (ba_ID a))
    else None.

(** The text of a file, as far as a bundle carries it. *)
Variable textOf : Content -> string.

Fixpoint bundleActions (fs : Files) (actions : list Action) : Res ProfErr (list BundleAction) :=
  match actions with
  | [] => Ok []
  | a :: actions =>
      match ReadFile env fs (at_Path a) with
      | Err e => Err (ErrFile "read action" e)
      | Ok c =>
          match bundleActions fs actions with
          | Err e => Err e
          | Ok l => Ok (mkBundleAction (at_ID a) (at_Title a) (at_Entrypoint a) (at_AcceptsStdin a) (textOf c) :: l)
          end
      end
  end.

Definition ExportProfileBundle (now : string) (fs : Files) (profileID : string) (dest : option Path) :
    Files * Res ProfErr ProfileBundle :=
  if decide (profileID = "") then (fs, Err (ErrBundle "profile id is required"))
  else match dest with
       | None => (fs, Err (ErrBundle "destination path is required"))
       | Some dest =>
           match LoadProfile fs profileID with
           | Err e => (fs, Err e)
           | Ok p =>
               match bundleActions fs (LoadActions fs profileID) with
               | Err e => (fs, Err e)
               | Ok actions =>
                   let bundle := mkProfileBundle ProfileBundleVersion profileID now p actions in
                   match MkdirAll env fs (removelast dest) with
                   | (fs, Err e) => (fs, Err (ErrFile "bundle directory" e))
                   | (fs, Ok _) =>
                       match WriteFile env fs dest (CBundle (Some bundle)) with
                       | (fs, Err e) => (fs, Err (ErrFile "bundle" e))
                       | (fs, Ok _) => (fs, Ok bundle)
                       end
                   end
               end
           end
       end.

Fixpoint writeActions (fs : Files) (actionsDir : Path) (actions : list BundleAction) : Files * Res ProfErr unit :=
  match actions with
  | [] => (fs, Ok tt)
  | a :: actions =>
      match validateBundleAction a with
      | Some e => (fs, Err e)
      | None =>
          match WriteFile env fs (Join actionsDir (ba_Entrypoint a)) (CText (ba_Content a)) with
          | (fs, Err e) => (fs, Err (ErrFile "write action" e))
          | (fs, Ok _) => writeActions fs actionsDir actions
          end
      end
  end.

Definition manifestOf (actions : list BundleAction) : list Action :=
  map (fun a => mkAction (ba_ID a) (ba_Title a) (ba_Entrypoint a) (ba_AcceptsStdin a) [] "") actions.

Definition ImportProfileBundleWithContext (shell : string) (fs : Files) (bundlePath : option Path) (newID : string) (force : bool) :
    Files * Res ProfErr Profile * list Event :=
  match bundlePath with
  | None => (fs, Err (ErrBundle "bundle path is required"), [])
  | Some path =>
      match ReadFile env fs path with
      | Err e => (fs, Err (ErrFile "read bundle" e), [])
      | Ok (CBundle (Some bundle)) =>
          let targetID := if decide (newID = "") then pr_ID (bd_Profile bundle) else newID in
          if decide (targetID = "") then (fs, Err (ErrBundle "profile id is required"), [])
          else match ValidateProfileID targetID with
               | Some e => (fs, Err (ErrInvalidProfileID e), [])
               | None =>
                   let dir := GetProfileDir targetID in
                   let '(fs, cleared) :=
                     if exists_ fs dir then
                       if force then match RemoveAll env fs dir with
                                     | (fs, Err e) => (fs, Some (ErrFile "remove existing profile" e))
                                     | (fs, Ok _) => (fs, None)
                                     end
                       else (fs, Some (ErrConflict targetID))
                     else (fs, None) in
                   match cleared with
                   | Some e => (fs, Err e, [])
                   | None =>
                       let p := set_ID (bd_Profile bundle) targetID in
                       match CreateProfileWithContext shell fs targetID p with
                       | (fs, Err e, ev) => (fs, Err e, ev)
                       | (fs, Ok _, ev) =>
                           match bd_Actions bundle with
                           | [] => (fs, Ok p, ev)
                           | actions =>
                               match writeActions fs (Join dir "actions") actions with
                               | (fs, Err e) => (fs, Err e, ev)
                               | (fs, Ok _) =>
                                   match WriteFile env fs (Join dir "actions.yaml") (CManifest (Some (manifestOf actions))) with
                                   | (fs, Err e) => (fs, Err (ErrFile "actions manifest" e), ev)
                                   | (fs, Ok _) => (fs, Ok p, ev)
                                   end
                               end
                           end
                       end
                   end
               end
      | Ok _ => (fs, Err (ErrBundle "failed to parse bundle"), [])
      end
  end.

(** ** Migration of the legacy directory *)

Fixpoint migrateEntries (fs : Files) (legacyDir : Path) (Rename : Files -> Path -> Path -> Files * bool) (entries : list (string * bool))
    (count : Z) : Files * Z * option ProfErr :=
  match entries with
  | [] => (fs, count, None)
  | (name, isDirectory) :: entries =>
      if negb isDirectory then migrateEntries fs legacyDir Rename entries count
      else
        let dst := Join profilesDir name in
        if exists_ fs dst then migrateEntries fs legacyDir Rename entries count
        else match MkdirAll env fs profilesDir with
             | (fs, Err e) => (fs, count, Some (ErrFile "profiles directory" e))
             | (fs, Ok _) =>
                 match Rename fs (Join legacyDir name) dst with
                 | (fs, false) => (fs, count, Some (ErrFile name EACCES))
                 | (fs, true) => migrateEntries fs legacyDir Rename entries (count + 1)
                 end
             end
  end.

(** [home]: the directory of the user. *)
Definition MigrateProfilesFromLegacy (Rename : Files -> Path -> Path -> Files * bool) (fs : Files) (home : Path) :
    Files * Z * option ProfErr :=
  let legacyDir := Join (Join home ".agents") "profiles" in
  match Stat env fs legacyDir with
  | Err ENOENT => (fs, 0, None)
  | _ =>
      if decide (legacyDir = profilesDir) then (fs, 0, None)
      else match ReadDir env fs legacyDir with
           | Err e => (fs, 0, Some (ErrFile "legacy profiles" e))
           | Ok entries => migrateEntries fs legacyDir Rename entries 0
           end
  end.
End Files.

(** ** What an operation on one profile can change *)

Lemma portable_plain id : portable id -> plain id.
Proof.
  intros [(H1 & H2 & H3) Hc _ _]. split_and!; try done. intros Hs. rewrite Forall_forall in Hc.
  destruct (Hc _ Hs) as [_ Hn]. apply Hn. apply (bool_decide_eq_true_1 _). vm_compute. reflexivity.
Qed.

Ltac plain_name := split_and!; [done|done|done|apply (bool_decide_eq_true_1 _); vm_compute; reflexivity].

Section Confined.
Variable data : Path.
Abbreviation Files := (FS Content).
Abbreviation dirOf id := (profilesDir data ++ [id]).

(** Every change is in the directory of the profile, or makes a directory above it. *)
Definition confined (id : string) (fs fs' : Files) : Prop :=
  forall q, under (dirOf id) q = false -> fs' !! q = fs !! q \/ (q `prefix_of` profilesDir data /\ fs !! q = None /\ fs' !! q = Some NDir).

Lemma confined_refl id fs : confined id fs fs.
Proof. intros q _. by left. Qed.

Lemma confined_trans id a b c : confined id a b -> confined id b c -> confined id a c.
Proof.
  intros H1 H2 q Hq. destruct (H1 q Hq) as [E1|(Hp & E1 & E1')], (H2 q Hq) as [E2|(Hp' & E2 & E2')].
  - left. congruence.
  - right. split_and!; congruence.
  - right. split_and!; congruence.
  - congruence.
Qed.

Lemma under_app p k : under p (p ++ k) = true.
Proof. apply bool_decide_eq_true_2. by exists k. Qed.

Lemma WriteFile_confined env fs id k c : confined id fs (WriteFile env fs (dirOf id ++ k) c).1.
Proof.
  intros q Hq. left. apply WriteFile_other. intros ->. by rewrite under_app in Hq.
Qed.

Lemma MkdirAll_confined env fs id k : confined id fs (MkdirAll env fs (dirOf id ++ k)).1.
Proof.
  destruct (MkdirAll _ _ _) as [fs' r] eqn:E. apply MkdirAll_spec in E as [E _]. intros q Hq. destruct (E q) as [?|(_ & Hp & H1 & H2)]; [by left|].
  right. split; [|done]. apply bool_decide_eq_false in Hq.
  destruct (prefix_weak_total q (dirOf id) (dirOf id ++ k)) as [H|H]; [done|by exists k| |done].
  destruct H as [j Hj]. destruct j as [|x j] using rev_ind; [exfalso; apply Hq; rewrite app_nil_r in Hj; by rewrite Hj|].
  rewrite app_assoc in Hj. apply app_inj_tail in Hj as [-> _]. by exists j.
Qed.

Lemma RemoveAll_confined env fs id : confined id fs (RemoveAll env fs (dirOf id)).1.
Proof. intros q Hq. left. by apply RemoveAll_other. Qed.

Lemma dir_plain id : plain id -> GetProfileDir data id = dirOf id.
Proof. intros. by apply Join_plain. Qed.

Lemma file_plain id name : plain id -> plain name -> Join (GetProfileDir data id) name = dirOf id ++ [name].
Proof. intros H1 H2. by rewrite dir_plain, Join_plain. Qed.

Lemma SaveProfile_confined env fs p : plain (pr_ID p) -> confined (pr_ID p) fs (SaveProfile env data fs p).1.
Proof.
  intros Hp. unfold SaveProfile. case_decide; [apply confined_refl|]. cbv zeta. rewrite file_plain by (done || plain_name).
  rewrite dir_plain by done. pose proof (MkdirAll_confined env fs (pr_ID p) []) as Hm. rewrite app_nil_r in Hm.
  destruct (MkdirAll _ _ _) as [fs1 [[]|e]]; [|done].
  pose proof (WriteFile_confined env fs1 (pr_ID p) ["profile.yaml"] (CProfile (Some p))) as Hw.
  destruct (WriteFile _ _ _ _) as [fs2 [[]|e]]; simpl in *; by eapply confined_trans.
Qed.

Lemma writeText_confined env fs id name text : plain id -> plain name -> confined id fs (writeText env fs (GetProfileDir data id) name text).1.
Proof.
  intros Hi Hn. unfold writeText. rewrite file_plain by done. pose proof (WriteFile_confined env fs id [name] (CText text)) as Hw.
  by destruct (WriteFile _ _ _ _) as [fs2 [[]|e]].
Qed.

Lemma writeDefaults_confined env fs id p : plain id -> confined id fs (writeDefaults env fs (GetProfileDir data id) id p).1.
Proof.
  intros Hi. unfold writeDefaults.
  pose proof (writeText_confined env fs id "secrets.env" defaultSecrets Hi ltac:(plain_name)) as H1.
  destruct (writeText _ _ _ "secrets.env" _) as [fs1 [[]|e]]; [|done].
  pose proof (writeText_confined env fs1 id "notes.md" (defaultNotes (pr_DisplayName p)) Hi ltac:(plain_name)) as H2.
  destruct (writeText _ _ _ "notes.md" _) as [fs2 [[]|e]]; simpl in *; [|by eapply confined_trans].
  destruct (gi_Enabled _); [|by eapply confined_trans].
  eapply confined_trans; [exact H1|]. eapply confined_trans; [exact H2|]. apply writeText_confined; [done|plain_name].
Qed.

Lemma set_ID_ID p id : pr_ID (set_ID p id) = id.
Proof. done. Qed.

Lemma Create_confined env note shell fs id p : confined id fs (CreateProfileWithContext env data note shell fs id p).1.1.
Proof.
  unfold CreateProfileWithContext. destruct (ValidateProfileID id) eqn:Hv; [apply confined_refl|].
  apply ValidateProfileID_None, portable_plain in Hv. cbv zeta. destruct (occupied _ _ _); [apply confined_refl|].
  rewrite file_plain by (done || plain_name). pose proof (MkdirAll_confined env fs id ["actions"]) as Hm.
  destruct (MkdirAll _ _ _) as [fs1 [[]|e]]; [|done]. set (q := if decide _ then _ else p).
  pose proof (SaveProfile_confined env fs1 (set_ID q id)) as Hs. rewrite set_ID_ID in Hs. specialize (Hs Hv).
  destruct (SaveProfile _ _ _ _) as [fs2 [[]|e]]; simpl in *; [|by eapply confined_trans].
  pose proof (writeDefaults_confined env fs2 id (set_ID q id) Hv) as Hd.
  destruct (writeDefaults _ _ _ _ _) as [fs3 [[]|e]]; simpl in *; (eapply confined_trans; [exact Hm|]; by eapply confined_trans).
Qed.

Lemma LoadProfile_ID env fs id p : LoadProfile env data fs id = Ok p -> pr_ID p = id.
Proof.
  unfold LoadProfile, LoadProfileFromPath. destruct (ReadFile _ _ _) as [c|]; [|done]. destruct (asProfile c) as [q|]; [|done].
  case_decide as Hq; [done|]. unfold ValidateIsolation. repeat case_decide; try done; intros [= <-]; simpl; by destruct (decide (pr_ID q = id)).
Qed.

Lemma savedCapabilities_confined env note fs id p caps :
  plain id -> pr_ID p = id -> confined id fs (savedCapabilities env data note fs id p caps).1.1.
Proof.
  intros Hi Hp. unfold savedCapabilities. pose proof (SaveProfile_confined env fs (set_Capabilities p caps)) as Hs.
  change (pr_ID (set_Capabilities p caps)) with (pr_ID p) in Hs. rewrite Hp in Hs. specialize (Hs Hi).
  by destruct (SaveProfile _ _ _ _) as [fs1 [[]|e]].
Qed.

Lemma AddCapability_confined env note fs id c : plain id -> confined id fs (AddCapabilityToProfileWithContext env data note fs id c).1.1.
Proof.
  intros Hi. unfold AddCapabilityToProfileWithContext. destruct (LoadProfile _ _ _ _) as [p|] eqn:Hl; [|apply confined_refl].
  destruct (ProfileHasCapability _ _); [apply confined_refl|]. apply savedCapabilities_confined; [done|]. by eapply LoadProfile_ID.
Qed.

Lemma RemoveCapability_confined env note fs id c : plain id -> confined id fs (RemoveCapabilityFromProfileWithContext env data note fs id c).1.1.
Proof.
  intros Hi. unfold RemoveCapabilityFromProfileWithContext. destruct (LoadProfile _ _ _ _) as [p|] eqn:Hl; [|apply confined_refl].
  destruct (ProfileHasCapability _ _); [|apply confined_refl]. apply savedCapabilities_confined; [done|]. by eapply LoadProfile_ID.
Qed.

Lemma removeProfile_confined env note fs id : plain id -> confined id fs (removeProfile env data note fs id).1.1.
Proof.
  intros Hi. unfold removeProfile. rewrite dir_plain by done. pose proof (RemoveAll_confined env fs id) as Hr.
  by destruct (RemoveAll _ _ _) as [fs1 [[]|e]].
Qed.

Lemma Delete_confined env note fs id force : plain id -> confined id fs (DeleteProfileWithContext env data note fs id force).1.1.
Proof.
  intros Hi. unfold DeleteProfileWithContext. case_decide; [apply confined_refl|]. destruct (LoadProfile _ _ _ _); [|apply confined_refl].
  destruct force; [by apply removeProfile_confined|]. destruct (defaultActiveSessionsForProfile _ _ _ _) as [[|? ?]|]; try apply confined_refl.
  by apply removeProfile_confined.
Qed.

(** An action that passes the check is a file in the directory of actions. *)
Lemma action_path a actionsDir : validateBundleAction a = None ->
  Join actionsDir (ba_Entrypoint a) = actionsDir ++ [Clean (ba_Entrypoint a)].
Proof.
  unfold validateBundleAction. case_decide; [done|]. case_decide; [done|]. destruct (IsAbs _) eqn:Ha; [done|]. cbv zeta.
  destruct (bool_decide _ || _) eqn:Hc; [done|]. apply orb_false_iff in Hc as [H1%bool_decide_eq_false H2]. case_decide; [done|].
  intros _. by apply Join_single.
Qed.

Lemma writeActions_confined env id actions : plain id -> forall fs,
  confined id fs (writeActions env fs (dirOf id ++ ["actions"]) actions).1.
Proof.
  intros Hi. induction actions as [|a actions IH]; intros fs; simpl; [apply confined_refl|].
  destruct (validateBundleAction a) eqn:Hv; [apply confined_refl|]. rewrite action_path, <- app_assoc by done.
  pose proof (WriteFile_confined env fs id (["actions"] ++ [Clean (ba_Entrypoint a)]) (CText (ba_Content a))) as Hw.
  destruct (WriteFile _ _ _ _) as [fs1 [[]|e]]; [|done]. eapply confined_trans; [exact Hw|apply IH].
Qed.

(** The profile that an import is for. *)
Definition importTarget (env : OsEnv Content) (fs : Files) (path : option Path) (newID : string) : string :=
  if decide (newID = "") then
    match path with
    | Some path => match ReadFile env fs path with Ok (CBundle (Some b)) => pr_ID (bd_Profile b) | _ => "" end
    | None => ""
    end
  else newID.

Lemma Import_confined env note shell fs path newID force :
  confined (importTarget env fs path newID) fs (ImportProfileBundleWithContext env data note shell fs path newID force).1.1.
Proof.
  unfold ImportProfileBundleWithContext, importTarget. destruct path as [path|]; [|apply confined_refl].
  destruct (ReadFile _ _ _) as [[| |[b|]| |]|]; try apply confined_refl. cbv zeta.
  set (id := if decide (newID = "") then _ else newID). case_decide; [apply confined_refl|].
  destruct (ValidateProfileID id) eqn:Hv; [apply confined_refl|]. apply ValidateProfileID_None, portable_plain in Hv.
  rewrite file_plain by (done || plain_name). rewrite (file_plain _ "actions.yaml") by (done || plain_name). rewrite dir_plain by done.
  match goal with |- confined id fs (match ?x with _ => _ end).1.1 => destruct x as [fs1 [e|]] eqn:Hc end;
    assert (confined id fs fs1) as H1 by (revert Hc; pose proof (RemoveAll_confined env fs id) as Hr;
      destruct (exists_ _ _ _); [destruct force; [destruct (RemoveAll _ _ _) as [? [[]|?]]|]|]; intros Hc; simplify_eq; done || apply confined_refl);
    [done|].
  pose proof (Create_confined env note shell fs1 id (set_ID (bd_Profile b) id)) as H2.
  destruct (CreateProfileWithContext _ _ _ _ _ _ _) as [[fs2 [[]|e]] ev]; simpl in H2; [|by eapply confined_trans].
  destruct (bd_Actions b) as [|a actions]; [by eapply confined_trans|].
  pose proof (writeActions_confined env id (a :: actions) Hv fs2) as H3.
  destruct (writeActions _ _ _ _) as [fs3 [[]|e]]; simpl in H3;
    [|eapply confined_trans; [exact H1|]; by eapply confined_trans].
  pose proof (WriteFile_confined env fs3 id ["actions.yaml"] (CManifest (Some (manifestOf (a :: actions))))) as H4.
  destruct (WriteFile _ _ _ _) as [fs4 [[]|e]]; simpl in H4;
    (eapply confined_trans; [exact H1|]; eapply confined_trans; [exact H2|]; by eapply confined_trans).
Qed.
End Confined.

(** ** Profiles are separate *)

Section Separate.
Variable data : Path.
Abbreviation Files := (FS Content).
Abbreviation dirOf id := (profilesDir data ++ [id]).

Lemma dirs_disjoint id id' q : id' <> id -> under (dirOf id') q = true -> under (dirOf id) q = false.
Proof.
  intros Hne H. destruct (under (dirOf id) q) eqn:E; [|done]. exfalso. apply Hne. by eapply under_snoc.
Qed.

Lemma confined_node id id' fs fs' q : id' <> id -> confined data id fs fs' -> under (dirOf id') q = true -> fs' !! q = fs !! q.
Proof.
  intros Hne Hc Hq. destruct (Hc q) as [?|(Hp & _)]; [by eapply dirs_disjoint|done|]. exfalso.
  apply bool_decide_eq_true in Hq. destruct Hp as [k Hk], Hq as [j ->]. rewrite <- !app_assoc in Hk.
  apply (f_equal length) in Hk. rewrite !length_app in Hk. simpl in Hk. lia.
Qed.

Lemma confined_isFile id id' fs fs' p q :
  id' <> id -> confined data id fs fs' -> under (dirOf id') p = true -> q `prefix_of` p -> isFile fs' q = isFile fs q.
Proof.
  intros Hne Hc Hp Hq. unfold isFile. destruct (Hc q) as [->|(_ & -> & ->)]; [|done|done].
  destruct (under (dirOf id) q) eqn:E; [|done]. exfalso. apply bool_decide_eq_true in E.
  assert (under (dirOf id) p = false) as Hf by (by eapply dirs_disjoint).
  apply bool_decide_eq_false in Hf. apply Hf. by transitivity q.
Qed.

Lemma confined_missing id id' fs fs' p :
  id' <> id -> confined data id fs fs' -> under (dirOf id') p = true -> missingErr fs' p = missingErr fs p.
Proof.
  intros Hne Hc Hp. unfold missingErr.
  assert (forall l, (forall q, q ∈ l -> q `prefix_of` p) -> existsb (isFile fs') l = existsb (isFile fs) l) as H.
  { induction l as [|q l IH]; intros Hl; simpl; [done|]. rewrite IH by (intros; apply Hl; by right). f_equal.
    eapply confined_isFile; [done|done|done|]. apply Hl. by left. }
  rewrite H; [done|]. intros q Hq. by apply ancestors_elem in Hq as [_ ?].
Qed.

Lemma ReadFile_confined env id id' fs fs' p :
  id' <> id -> confined data id fs fs' -> under (dirOf id') p = true -> ReadFile env fs' p = ReadFile env fs p.
Proof.
  intros Hne Hc Hp. unfold ReadFile. rewrite (confined_missing id id' fs fs') by done. by rewrite (confined_node id id' fs fs').
Qed.

Lemma LoadProfile_confined env id id' fs fs' :
  plain id' -> id' <> id -> confined data id fs fs' -> LoadProfile env data fs' id' = LoadProfile env data fs id'.
Proof.
  intros Hi Hne Hc. unfold LoadProfile, LoadProfileFromPath. rewrite (ReadFile_confined env id id' fs fs'); [done|done|done|].
  unfold GetProfilePath. rewrite file_plain by (done || plain_name). apply under_app.
Qed.

(** The operations that change profiles, each with what the system does during it. *)
Inductive ProfOp : Type :=
  | OpCreate (env : OsEnv Content) (shell id : string) (config : Profile)
  | OpDelete (env : OsEnv Content) (id : string) (force : bool)
  | OpAddCapability (env : OsEnv Content) (id capName : string)
  | OpRemoveCapability (env : OsEnv Content) (id capName : string)
  | OpImport (env : OsEnv Content) (shell : string) (path : option Path) (newID : string) (force : bool).

Definition runProfOp (note : string) (fs : Files) (op : ProfOp) : Files :=
  match op with
  | OpCreate env shell id config => (CreateProfileWithContext env data note shell fs id config).1.1
  | OpDelete env id force => (DeleteProfileWithContext env data note fs id force).1.1
  | OpAddCapability env id c => (AddCapabilityToProfileWithContext env data note fs id c).1.1
  | OpRemoveCapability env id c => (RemoveCapabilityFromProfileWithContext env data note fs id c).1.1
  | OpImport env shell path newID force => (ImportProfileBundleWithContext env data note shell fs path newID force).1.1
  end.

(** The profile that an operation is about. *)
Definition opTarget (fs : Files) (op : ProfOp) : string :=
  match op with
  | OpCreate _ _ id _ | OpDelete _ id _ | OpAddCapability _ id _ | OpRemoveCapability _ id _ => id
  | OpImport env _ path newID _ => importTarget env fs path newID
  end.

(** Creating and importing check the identifier themselves. *)
Definition op_checked (op : ProfOp) : Prop :=
  match op with OpDelete _ id _ | OpAddCapability _ id _ | OpRemoveCapability _ id _ => portable id | _ => True end.

(** The run never names the profile. *)
Fixpoint never_about (note : string) (id : string) (fs : Files) (ops : list ProfOp) : Prop :=
  match ops with [] => True | op :: ops => opTarget fs op <> id /\ never_about note id (runProfOp note fs op) ops end.

Lemma runProfOp_confined note fs op : op_checked op -> confined data (opTarget fs op) fs (runProfOp note fs op).
Proof.
  destruct op; simpl; intros H; try apply portable_plain in H.
  - apply Create_confined.
  - by apply Delete_confined.
  - by apply AddCapability_confined.
  - by apply RemoveCapability_confined.
  - apply Import_confined.
Qed.

End Separate.

(** ** What is saved is loaded *)

Section RoundTrip.
Variable data : Path.
Variable env : OsEnv Content.
Variable note : string.
Abbreviation Files := (FS Content).
Abbreviation dirOf id := (profilesDir data ++ [id]).
Abbreviation fileOf id := ((profilesDir data ++ [id]) ++ ["profile.yaml"]).

(** The profile that is in the file, as [LoadProfile] returns it. *)
Definition checked (p : Profile) : Res ProfErr Profile :=
  match ValidateIsolation p with (p, None) => Ok p | (_, Some e) => Err (ErrIsolation (pr_ID p) e) end.

Lemma LoadProfile_node fs p : plain (pr_ID p) -> oe_denied env (fileOf (pr_ID p)) = false ->
  fs !! fileOf (pr_ID p) = Some (NFile (CProfile (Some p))) -> LoadProfile env data fs (pr_ID p) = checked p.
Proof.
  intros Hi Hd Hn. unfold LoadProfile, LoadProfileFromPath, GetProfilePath. rewrite file_plain by (done || plain_name).
  unfold ReadFile. rewrite Hd, Hn. simpl. rewrite decide_False by tauto. unfold checked. by destruct (ValidateIsolation p) as [? [?|]].
Qed.

Lemma SaveProfile_Ok fs p fs' : plain (pr_ID p) -> SaveProfile env data fs p = (fs', Ok tt) ->
  fs' !! fileOf (pr_ID p) = Some (NFile (CProfile (Some p))) /\ oe_denied env (fileOf (pr_ID p)) = false.
Proof.
  intros Hi. unfold SaveProfile. case_decide; [done|]. cbv zeta. rewrite file_plain by (done || plain_name).
  destruct (MkdirAll _ _ _) as [fs1 [[]|e]]; [|done]. destruct (WriteFile _ _ _ _) as [fs2 [[]|e]] eqn:Hw; [|done].
  intros [= <-]. apply WriteFile_Ok in Hw as (-> & Hd & _). by rewrite lookup_insert_eq.
Qed.

(** The default files are beside profile.yaml. *)
Lemma writeText_keeps fs id name text q : plain id -> plain name -> q <> dirOf id ++ [name] ->
  (writeText env fs (GetProfileDir data id) name text).1 !! q = fs !! q.
Proof.
  intros Hi Hn Hq. unfold writeText. rewrite file_plain by done. pose proof (WriteFile_other env fs (dirOf id ++ [name]) (CText text) q Hq).
  by destruct (WriteFile _ _ _ _) as [? [[]|?]].
Qed.

Lemma writeDefaults_keeps fs id p q : plain id ->
  q <> dirOf id ++ ["secrets.env"] -> q <> dirOf id ++ ["notes.md"] -> q <> dirOf id ++ ["gitconfig"] ->
  (writeDefaults env fs (GetProfileDir data id) id p).1 !! q = fs !! q.
Proof.
  intros Hi Hs Hn Hg. unfold writeDefaults.
  pose proof (writeText_keeps fs id "secrets.env" defaultSecrets q Hi ltac:(plain_name) Hs) as H1.
  destruct (writeText _ _ _ "secrets.env" _) as [fs1 [[]|e]]; [|done].
  pose proof (writeText_keeps fs1 id "notes.md" (defaultNotes (pr_DisplayName p)) q Hi ltac:(plain_name) Hn) as H2.
  destruct (writeText _ _ _ "notes.md" _) as [fs2 [[]|e]]; simpl in *; [|congruence].
  destruct (gi_Enabled _); simpl; [|congruence]. rewrite writeText_keeps; [congruence|done|plain_name|done].
Qed.

Lemma SaveProfile_dir fs p q n : plain (pr_ID p) -> q <> fileOf (pr_ID p) -> fs !! q = Some n -> (SaveProfile env data fs p).1 !! q = Some n.
Proof.
  intros Hi Hq Hn. unfold SaveProfile. case_decide; [done|]. cbv zeta. rewrite file_plain by (done || plain_name).
  destruct (MkdirAll _ _ _) as [fs1 r] eqn:Hm. apply MkdirAll_spec in Hm as [Hm _].
  assert (fs1 !! q = Some n) as H1 by (destruct (Hm q) as [->|(_ & _ & ? & _)]; congruence).
  destruct r as [[]|e]; [|done]. pose proof (WriteFile_other env fs1 (fileOf (pr_ID p)) (CProfile (Some p)) q Hq) as Hw.
  destruct (WriteFile _ _ _ _) as [fs2 [[]|e]]; simpl in *; congruence.
Qed.

Definition created (shell id : string) (config : Profile) : Profile :=
  set_ID (if decide (pf_Shell (pr_Preferences config) = "") then set_Shell config shell else config) id.

Ltac other_path := let E := fresh in intros E; first [by apply app_inj_tail in E as [_ ?] | apply (f_equal length) in E;
  rewrite ?length_app in E; simpl in E; lia].

Lemma Create_Ok shell fs id config fs' ev :
  CreateProfileWithContext env data note shell fs id config = (fs', Ok tt, ev) ->
  portable id /\ fs' !! dirOf id = Some NDir /\
  fs' !! fileOf id = Some (NFile (CProfile (Some (created shell id config)))) /\ oe_denied env (fileOf id) = false.
Proof.
  unfold CreateProfileWithContext. destruct (ValidateProfileID id) eqn:Hv; [done|]. apply ValidateProfileID_None in Hv. cbv zeta.
  pose proof (portable_plain _ Hv) as Hi. destruct (occupied _ _ _) eqn:Ho; [done|].
  rewrite file_plain by (done || plain_name). destruct (MkdirAll _ _ _) as [fs1 [[]|e]] eqn:Hm; [|done].
  apply MkdirAll_spec in Hm as [_ Hm]. assert (fs1 !! dirOf id = Some NDir) as Hdir.
  { specialize (Hm eq_refl (dirOf id) ltac:(by exists ["actions"])). unfold isDir in Hm.
    destruct (dirOf id) as [|x l] eqn:E; [by apply app_eq_nil in E as [_ ?]|]. by destruct (fs1 !! _) as [[]|]. }
  fold (created shell id config). change id with (pr_ID (created shell id config)) in Hdir at 1.
  pose proof (SaveProfile_dir fs1 (created shell id config) (dirOf id) NDir Hi ltac:(other_path) Hdir) as Hdir2.
  destruct (SaveProfile _ _ _ _) as [fs2 [[]|e]] eqn:Hs; [|done].
  pose proof (writeDefaults_keeps fs2 id (created shell id config) (fileOf id) Hi ltac:(other_path) ltac:(other_path) ltac:(other_path)) as Hk.
  pose proof (writeDefaults_keeps fs2 id (created shell id config) (dirOf id) Hi ltac:(other_path) ltac:(other_path) ltac:(other_path)) as Hk2.
  destruct (writeDefaults _ _ _ _ _) as [fs3 [[]|e]]; [|done]. intros [= <- _].
  apply (SaveProfile_Ok fs1 (created shell id config)) in Hs as [Hn Hd]; [|done]. change (pr_ID (created shell id config)) with id in *.
  simpl in *. rewrite Hk, Hk2. done.
Qed.

Lemma ValidateIsolation_idem p q : ValidateIsolation p = (q, None) -> ValidateIsolation q = (q, None).
Proof.
  unfold ValidateIsolation. destruct (decide (is_Level (pr_Isolation p) = "")) as [E|E].
  - intros [= <-]. simpl. repeat case_decide; try done;
      match goal with H : _ ∉ _ |- _ => exfalso; apply H; by left | H : _ /\ _ |- _ => by destruct H end.
  - case_decide; [done|]. case_decide; [done|]. intros [= <-]. repeat case_decide; done || tauto.
Qed.

Lemma LoadProfile_checked fs id p : LoadProfile env data fs id = Ok p -> ValidateIsolation p = (p, None) /\ is_Level (pr_Isolation p) <> "".
Proof.
  unfold LoadProfile, LoadProfileFromPath. destruct (ReadFile _ _ _) as [c|]; [|done]. destruct (asProfile c) as [q|]; [|done].
  case_decide; [done|]. destruct (ValidateIsolation q) as [r [e|]] eqn:Hq; [done|]. intros [= <-].
  split; [by eapply ValidateIsolation_idem|]. revert Hq. unfold ValidateIsolation. case_decide as E; [by intros [= <-]|].
  case_decide; [done|]. case_decide; [done|]. by intros [= <-].
Qed.

Lemma ValidateIsolation_capabilities p caps : ValidateIsolation p = (p, None) -> is_Level (pr_Isolation p) <> "" ->
  ValidateIsolation (set_Capabilities p caps) = (set_Capabilities p caps, None).
Proof.
  unfold ValidateIsolation. simpl. intros H Hl. rewrite decide_False in H by done. rewrite decide_False by done.
  case_decide; [done|]. by case_decide.
Qed.

Lemma savedCapabilities_load fs id p caps fs' ev : plain id -> LoadProfile env data fs id = Ok p ->
  savedCapabilities env data note fs id p caps = (fs', Ok tt, ev) -> LoadProfile env data fs' id = Ok (set_Capabilities p caps).
Proof.
  intros Hi Hl. pose proof (LoadProfile_ID _ _ _ _ _ Hl) as Hp. apply LoadProfile_checked in Hl as [Hv Hlev]. unfold savedCapabilities.
  destruct (SaveProfile _ _ _ _) as [fs1 [[]|e]] eqn:Hs; [|done]. intros [= <- _].
  apply SaveProfile_Ok in Hs as [Hn Hd]; [|by simpl; rewrite Hp].
  pose proof (LoadProfile_node fs1 (set_Capabilities p caps)) as H. change (pr_ID (set_Capabilities p caps)) with (pr_ID p) in *.
  rewrite Hp in *. rewrite H by done. unfold checked. by rewrite ValidateIsolation_capabilities.
Qed.

(** A profile that was created is loaded back as it was configured, under its id, with
    the detected shell and the process level as defaults, or is refused for its isolation;
    creating it again is a conflict and changes nothing; and adding or removing a
    capability changes the loaded list of capabilities in exactly that way. *)
Theorem profile_round_trip shell fs id config fs' ev
    (Hc : CreateProfileWithContext env data note shell fs id config = (fs', Ok tt, ev)) :
  LoadProfile env data fs' id = checked (created shell id config) /\
  (forall env' shell' config', CreateProfileWithContext env' data note shell' fs' id config' = (fs', Err (ErrConflict id), [])) /\
  forall fs1 p c, LoadProfile env data fs1 id = Ok p ->
    (forall fs2 ev2, AddCapabilityToProfileWithContext env data note fs1 id c = (fs2, Ok tt, ev2) ->
       LoadProfile env data fs2 id = Ok (if ProfileHasCapability p c then p else set_Capabilities p (pr_Capabilities p ++ [c]))) /\
    (forall fs2 ev2, RemoveCapabilityFromProfileWithContext env data note fs1 id c = (fs2, Ok tt, ev2) ->
       LoadProfile env data fs2 id = Ok (set_Capabilities p (filter (fun x => x <> c) (pr_Capabilities p)))) /\
    (ProfileHasCapability p c = false ->
       RemoveCapabilityFromProfileWithContext env data note fs1 id c = (fs1, Err (ErrCapabilityMissing c id), [])).
Proof.
  destruct (Create_Ok _ _ _ _ _ _ Hc) as (Hid & Hdir & Hn & Hd). pose proof (portable_plain _ Hid) as Hi. split; [|split].
  - exact (LoadProfile_node fs' (created shell id config) Hi Hd Hn).
  - intros env' shell' config'. unfold CreateProfileWithContext. rewrite (proj2 (ValidateProfileID_None id)) by done. cbv zeta.
    assert (occupied env' fs' (GetProfileDir data id) = true) as ->; [|done]. rewrite dir_plain by done. unfold occupied, Stat, isDir.
    destruct (oe_denied env' _); [done|]. destruct (dirOf id) as [|x l] eqn:E; [by apply app_eq_nil in E as [_ ?]|]. by rewrite Hdir.
  - intros fs1 p c Hl. split_and!.
    + intros fs2 ev2. unfold AddCapabilityToProfileWithContext. rewrite Hl. destruct (ProfileHasCapability p c); [by intros [= <- _]|].
      by apply savedCapabilities_load.
    + intros fs2 ev2. unfold RemoveCapabilityFromProfileWithContext. rewrite Hl. destruct (ProfileHasCapability p c); [|done].
      by apply savedCapabilities_load.
    + intros Hh. unfold RemoveCapabilityFromProfileWithContext. by rewrite Hl, Hh.
Qed.
End RoundTrip.

(** ** Witnesses *)

Definition data_dir : Path := ["data"].

Definition sample_create (id : string) (fs : FS Content) : FS Content * Res ProfErr unit * list Event :=
  CreateProfileWithContext calm data_dir "" "/bin/sh" fs id (blank_profile id).

Definition two_profiles : FS Content := (sample_create "ana" (sample_create "noor" ∅).1.1).1.1.

Lemma valid_portable id : ValidateProfileID id = None -> portable id.
Proof. apply ValidateProfileID_None. Qed.


Lemma profile_round_trip_witness :
  LoadProfile calm data_dir (sample_create "noor" ∅).1.1 "noor" = Ok (set_Level (created "/bin/sh" "noor" (blank_profile "noor")) IsolationProcess) /\
  sample_create "noor" (sample_create "noor" ∅).1.1 = ((sample_create "noor" ∅).1.1, Err (ErrConflict "noor"), []).
Proof.
  assert (sample_create "noor" ∅ = ((sample_create "noor" ∅).1.1, Ok tt, [ProfileCreated "noor" "noor" "" [] ""])) as H
    by (vm_compute; reflexivity).
  destruct (profile_round_trip data_dir calm "" _ _ _ _ _ _ H) as (H1 & H2 & _). split; [rewrite H1; vm_compute; reflexivity|apply H2].
Defined.

(** Importing over a profile with a bundle whose action is refused: the profile is gone and
    the one that replaces it has no actions. *)
Definition bad_bundle : ProfileBundle :=
  mkProfileBundle "v1" "ana" "" (blank_profile "ana") [mkBundleAction "run" "" "../noor/run.sh" false "rm"].

Theorem failed_import_replaces :
  let fs := <[["b.yaml"] := NFile (CBundle (Some bad_bundle))]>
              (<[["data"; "profiles"; "noor"; "actions"; "deploy.sh"] := NFile (CText "make")]> two_profiles) in
  let r := ImportProfileBundleWithContext calm data_dir "" "/bin/sh" fs (Some ["b.yaml"]) "noor" true in
  r.1.2 = Err (ErrBundleAction "entrypoint must stay within actions directory" "run") /\
  length (LoadActions calm data_dir fs "noor") = 1%nat /\ LoadActions calm data_dir r.1.1 "noor" = [].
Proof. split; [vm_compute; reflexivity|]. split; vm_compute; reflexivity. Qed.
