(* ===== verification/ProfileGuard.v ===== *)
(** * Deleting profiles and the session registry

    The guard of [DeleteProfile] (src/internal/core/profile.go) beside the session registry
    (src/internal/core/session), which no longer keeps its sessions in the file that the
    guard reads; witnesses for the files of profiles. *)

From Stdlib Require Import ZArith Lia String Ascii.
From stdpp Require Import base option list gmap strings.
From S2P Require Import Prelude Text Events Kv Domain AcpFiles GoFS ProfileData Profile SessionRegistry.

#[local] Open Scope Z_scope.

Section Guard.
Variable data : Path.
Variable env : OsEnv Content.
Variable note : string.
Abbreviation Files := (FS Content).

Definition registryPath : Path := Join (Join data "sessions") "registry.json".

(** What the guard decodes from a row of the registry file. *)
Definition guardRow (row : string * option SessionInfo) : string * RegistryRow :=
  (row.1, match row.2 with Some s => mkRow (si_ProfileID s) (si_Status s) | None => mkRow "" "" end).

(** The registry file in the tree. *)
Definition place (fs : Files) (file : Doc (list (string * option SessionInfo))) : Files :=
  match file with
  | Missing => delete registryPath fs
  | Unreadable => fs
  | Malformed => <[registryPath := NFile (CRegistry None)]> fs
  | Parsed rows => <[registryPath := NFile (CRegistry (Some (map guardRow rows)))]> fs
  end.

Definition activeFor (id : string) (rows : list (string * option SessionInfo)) : list string :=
  map fst (filter (fun r => rw_ProfileID r.2 = id /\ rw_Status r.2 = "active") (map guardRow rows)).

Lemma removed_gone fs id fs' ev : plain id -> removeProfile env data note fs id = (fs', Ok tt, ev) ->
  (forall q, under (profilesDir data ++ [id]) q = true -> fs' !! q = None) /\ ev = [ProfileDeleted id note].
Proof.
  intros Hi. unfold removeProfile. rewrite dir_plain by done. destruct (RemoveAll _ _ _) as [fs1 [[]|e]] eqn:Hr; [|done].
  intros [= <- <-]. split; [|done]. by apply (RemoveAll_Ok env fs).
Qed.

Lemma unforced fs id active : defaultActiveSessionsForProfile env data fs id = Ok active ->
  DeleteProfileWithContext env data note fs id false =
  if decide (active = []) then DeleteProfileWithContext env data note fs id true
  else match (if decide (id = "") then Err ErrEmptyID else map_err (fun e => e) (LoadProfile env data fs id)) with
       | Err e => (fs, Err e, [])
       | Ok _ => (fs, Err (ErrActiveSessions active), [])
       end.
Proof.
  intros Ha. unfold DeleteProfileWithContext. destruct (decide (id = "")); [by case_decide|].
  destruct (LoadProfile _ _ _ _); simpl; [|by case_decide]. rewrite Ha. by destruct active.
Qed.

Lemma active_of_file fs rows id : oe_denied env registryPath = false ->
  defaultActiveSessionsForProfile env data (place fs (Parsed rows)) id = Ok (activeFor id rows).
Proof.
  intros Hd. unfold defaultActiveSessionsForProfile. fold registryPath. unfold ReadFile. rewrite Hd. simpl. by rewrite lookup_insert_eq.
Qed.

Lemma active_of_nothing fs id : oe_denied env registryPath = false ->
  Forall (fun q => isFile fs q = false \/ q = registryPath) (ancestors registryPath) ->
  defaultActiveSessionsForProfile env data (place fs Missing) id = Ok [].
Proof.
  intros Hd Hf. unfold defaultActiveSessionsForProfile. fold registryPath. unfold ReadFile. rewrite Hd. simpl. rewrite lookup_delete_eq.
  unfold missingErr. destruct (existsb _ _) eqn:E; [|done]. exfalso. apply existsb_exists in E as (q & Hq & Hfile).
  apply list_elem_of_In in Hq. rewrite Forall_forall in Hf. revert Hfile. unfold isFile.
  destruct (decide (q = registryPath)) as [->|Hne]; [by rewrite lookup_delete_eq|]. rewrite lookup_delete_ne by done.
  destruct (Hf q Hq) as [H|?]; [|done]. unfold isFile in H. by rewrite H.
Qed.

(** Without force a loadable profile is deleted only if the registry file names no
    active session of it, and then nothing of its directory is left; otherwise the error
    lists exactly those sessions and nothing changes.  But once the session registry has
    migrated that file, every session of it lives on in the table while the guard passes:
    deleting is the same as with force, whatever sessions are active. *)
Theorem delete_guard `{K : KvStore SessionInfo} (L : KvLaws K) (fs : Files) (id : string) (archives : bool) (m m' : Rows)
    (rows : list (string * option SessionInfo)) (Hid : portable id) (Hread : oe_denied env registryPath = false)
    (Htree : Forall (fun q => isFile fs q = false \/ q = registryPath) (ancestors registryPath))
    (Hrows : NoDup rows.*1) file' (Hmigrate : migrateLegacyJSON archives m (Parsed rows) = (m', file', Ok tt)) :
  let before := place fs (Parsed rows) in let after := place fs file' in
  (forall p, LoadProfile env data before id = Ok p ->
     (activeFor id rows <> [] -> DeleteProfileWithContext env data note before id false = (before, Err (ErrActiveSessions (activeFor id rows)), [])) /\
     (activeFor id rows = [] -> DeleteProfileWithContext env data note before id false = removeProfile env data note before id)) /\
  (forall force fs1 ev, DeleteProfileWithContext env data note before id force = (fs1, Ok tt, ev) ->
     forall q, under (profilesDir data ++ [id]) q = true -> fs1 !! q = None) /\
  (forall sid s, (sid, Some s) ∈ rows -> m !! sessionKey sid = None -> m' !! sessionKey sid = Some (Some s)) /\
  DeleteProfileWithContext env data note after id false = DeleteProfileWithContext env data note after id true.
Proof.
  cbv zeta. pose proof (portable_plain _ Hid) as Hi. destruct Hi as (Hne & Hi'). pose proof (conj Hne Hi' : plain id) as Hi.
  split_and!.
  - intros p Hl. rewrite (unforced _ _ _ (active_of_file fs rows id Hread)). rewrite Hl. rewrite (decide_False (P := id = "")) by done. split.
    + intros Ha. by rewrite decide_False.
    + intros Ha. rewrite decide_True by done. unfold DeleteProfileWithContext. rewrite decide_False by done. by rewrite Hl.
  - intros force fs1 ev Hd. assert (removeProfile env data note (place fs (Parsed rows)) id = (fs1, Ok tt, ev)) as Hr.
    { revert Hd. unfold DeleteProfileWithContext. rewrite decide_False by done. destruct (LoadProfile _ _ _ _); [|done].
      destruct force; [done|]. destruct (defaultActiveSessionsForProfile _ _ _ _) as [[|? ?]|]; done. }
    by apply (removed_gone _ _ _ _ Hi Hr).
  - destruct (migration_resumable archives m rows Hrows _ _ _ Hmigrate) as (_ & H & _). by apply H.
  - destruct (migration_resumable archives m rows Hrows _ _ _ Hmigrate) as (_ & H & _). destruct (H eq_refl) as [-> _].
    rewrite (unforced _ _ _ (active_of_nothing fs id Hread Htree)). by rewrite decide_True.
Qed.
End Guard.

(** ** Witness *)

Definition registry_rows : list (string * option SessionInfo) := [("s1", Some (mkSession "s1" "noor" "" "sh" 7 SessionActive "" "" "" "" "" 0 0 ∅ ""))].

(** The session blocks the deletion, until it is migrated to the table, where it is active. *)
Lemma delete_guard_witness :
  DeleteProfileWithContext calm data_dir "" (place data_dir two_profiles (Parsed registry_rows)) "noor" false =
    (place data_dir two_profiles (Parsed registry_rows), Err (ErrActiveSessions ["s1"]), []) /\
  exists m', migrateLegacyJSON (K := plain_kv) true ∅ (Parsed registry_rows) = (m', Missing, Ok tt) /\
    stored m' "s1" (mkSession "s1" "noor" "" "sh" 7 SessionActive "" "" "" "" "" 0 0 ∅ "") /\
    DeleteProfileWithContext calm data_dir "" (place data_dir two_profiles Missing) "noor" false =
    DeleteProfileWithContext calm data_dir "" (place data_dir two_profiles Missing) "noor" true.
Proof.
  set (m' := {["session/s1" := Some (mkSession "s1" "noor" "" "sh" 7 SessionActive "" "" "" "" "" 0 0 ∅ "")]} : Rows).
  assert (migrateLegacyJSON (K := plain_kv) true ∅ (Parsed registry_rows) = (m', Missing, Ok tt)) as E by (vm_compute; reflexivity).
  assert (portable "noor") as Hp by (apply valid_portable; vm_compute; reflexivity).
  assert (NoDup registry_rows.*1) as Hnd by (by apply (bool_decide_eq_true_1 _)).
  assert (Forall (fun q => isFile two_profiles q = false \/ q = registryPath data_dir) (ancestors (registryPath data_dir))) as Ht
    by (repeat constructor; left; vm_compute; reflexivity).
  destruct (delete_guard data_dir calm "" plain_kv_laws two_profiles "noor" true ∅ m' registry_rows Hp eq_refl Ht Hnd Missing E)
    as (H1 & _ & H3 & H4).
  assert (LoadProfile calm data_dir (place data_dir two_profiles (Parsed registry_rows)) "noor" =
    Ok (set_Level (created "/bin/sh" "noor" (blank_profile "noor")) IsolationProcess)) as Hl by (vm_compute; reflexivity).
  split; [|exists m'; split; [exact E|]; split; [apply H3; [left|reflexivity]|exact H4]].
  apply (proj1 (H1 _ Hl)). vm_compute. discriminate.
Defined.
