(* ===== verification/Org.v ===== *)
(** * Reporting hierarchies (src/internal/core/org: graph.go, findings.go)

    The graph of who reports to whom, its traversals and its consistency check.  The data
    of profiles is untrusted: links may dangle and form cycles.  A loop that follows links
    has fuel; [None] is fuel that ran out. *)

From Stdlib Require Import ZArith Lia String Ascii.
From stdpp Require Import base option list gmap strings sorting.
From S2P Require Import Prelude Text ProfileData.

#[local] Open Scope Z_scope.

(** ** The graph *)

Record Graph : Type := mkGraph {
  gr_byID : gmap string Profile;
  gr_reports : gmap string (list string);
  gr_ids : list string
}.

Definition addReport (byID : gmap string Profile) (reports : gmap string (list string)) (id : string) : gmap string (list string) :=
  match byID !! id with
  | Some p => if decide (pr_ReportsTo p = "") then reports
              else <[pr_ReportsTo p := default [] (reports !! pr_ReportsTo p) ++ [id]]> reports
  | None => reports
  end.

Definition Build (profiles : list Profile) : Graph :=
  let byID := foldl (fun m p => <[pr_ID p := p]> m) ∅ profiles in
  let ids := merge_sort str_le (map_to_list byID).*1 in
  mkGraph byID (foldl (addReport byID) ∅ ids) ids.

Inductive CycleError : Type := mkCycleError (path : list string).

(** Profiles of known identifiers: in Go an unknown one reads as the zero profile. *)
Definition profilesOf (g : Graph) (ids : list string) : list Profile := omap (fun id => gr_byID g !! id) ids.

Definition Manager (g : Graph) (id : string) : option Profile :=
  match gr_byID g !! id with
  | Some p => if decide (pr_ReportsTo p = "") then None else gr_byID g !! pr_ReportsTo p
  | None => None
  end.

Fixpoint cyclePathFrom (chain : list Profile) (repeated : string) : list string :=
  match chain with
  | [] => []
  | p :: rest => if decide (pr_ID p = repeated) then map pr_ID chain else cyclePathFrom rest repeated
  end.

(** The visited identifiers are those looked up for the chain. *)
Fixpoint chainLoop (fuel : nat) (g : Graph) (cur : string) (visited : gset string) (chain : list Profile) :
    option (list Profile * option CycleError) :=
  if decide (cur = "") then Some (chain, None)
  else match fuel with
       | O => None
       | S fuel =>
           match gr_byID g !! cur with
           | None => Some (chain, None)
           | Some p =>
               if decide (cur ∈ visited) then Some (chain, Some (mkCycleError (cyclePathFrom chain cur)))
               else chainLoop fuel g (pr_ReportsTo p) ({[cur]} ∪ visited) (chain ++ [p])
           end
       end.

Definition fuelOf (g : Graph) : nat := S (S (size (gr_byID g))).

Definition Chain (g : Graph) (id : string) : option (list Profile * option CycleError) := chainLoop (fuelOf g) g id ∅ [].

Definition DirectReports (g : Graph) (id : string) : list Profile := profilesOf g (default [] (gr_reports g !! id)).

(** One level: the children of the frontier that were not visited. *)
Fixpoint levelLoop (reports : gmap string (list string)) (frontier : list string) (visited : gset string) (next : list string) :
    gset string * list string :=
  match frontier with
  | [] => (visited, next)
  | cur :: frontier =>
      let '(visited, next) :=
        foldl (fun '(visited, next) child => if decide (child ∈ visited) then (visited, next) else ({[child]} ∪ visited, next ++ [child]))
          (visited, next) (default [] (reports !! cur)) in
      levelLoop reports frontier visited next
  end.

Fixpoint levels (fuel : nat) (g : Graph) (depth level : Z) (visited : gset string) (frontier out : list string) : option (list string) :=
  match frontier with
  | [] => Some out
  | _ =>
      if decide (depth <= 0 \/ level < depth) then
        match fuel with
        | O => None
        | S fuel =>
            let '(visited, next) := levelLoop (gr_reports g) frontier visited [] in
            levels fuel g depth (level + 1) visited next (out ++ next)
        end
      else Some out
  end.

Definition TransitiveReports (g : Graph) (id : string) (depth : Z) : option (list Profile) :=
  match gr_byID g !! id with
  | None => Some []
  | Some _ => (fun out => profilesOf g (merge_sort str_le out)) <$> levels (fuelOf g) g depth 0 {[id]} [id] []
  end.

Definition Roots (g : Graph) : list Profile := filter (fun p => pr_ReportsTo p = "") (profilesOf g (gr_ids g)).

(** ** Findings *)

Inductive FindingKind : Type := FindingCycle | FindingDanglingReportsTo | FindingSelfReference | FindingUnknownType.

#[export] Instance FindingKind_dec : EqDecision FindingKind.
Proof. solve_decision. Defined.

Definition kindText (k : FindingKind) : string :=
  match k with
  | FindingCycle => "cycle" | FindingDanglingReportsTo => "dangling_reports_to" | FindingSelfReference => "self_reference"
  | FindingUnknownType => "unknown_type"
  end.

Record Finding : Type := mkFinding { fi_Kind : FindingKind; fi_ProfileIDs : list string; fi_Message : string }.

Definition linkFindings (g : Graph) (id : string) (p : Profile) : list Finding :=
  if decide (pr_ReportsTo p = "") then []
  else if decide (pr_ReportsTo p = id)
  then [mkFinding FindingSelfReference [id] ("profile " +:+ Quote id +:+ " reports to itself")]
  else match gr_byID g !! pr_ReportsTo p with
       | Some _ => []
       | None => [mkFinding FindingDanglingReportsTo [id] ("profile " +:+ Quote id +:+ " reports_to unknown profile " +:+ Quote (pr_ReportsTo p))]
       end.

Definition typeFindings (id : string) (p : Profile) : list Finding :=
  if ValidateType p then []
  else [mkFinding FindingUnknownType [id] ("profile " +:+ Quote id +:+ " has unknown type " +:+ Quote (pr_Type p) +:+ " (allowed: "
          +:+ Quote ProfileTypeAgent +:+ ", " +:+ Quote ProfileTypeHuman +:+ " or empty)")].

Definition localFindings (g : Graph) (id : string) : list Finding :=
  match gr_byID g !! id with Some p => linkFindings g id p ++ typeFindings id p | None => [] end.

(** The first position of the smallest identifier. *)
Fixpoint smallestLoop (l : list string) (i : nat) (best : nat) (bestID : string) : nat :=
  match l with
  | [] => best
  | id :: l => if str_ltb id bestID then smallestLoop l (S i) i id else smallestLoop l (S i) best bestID
  end.

Definition canonicalCycle (cycle : list string) : list string :=
  match cycle with
  | [] => []
  | id :: rest => let smallest := smallestLoop rest 1 0 id in drop smallest cycle ++ take smallest cycle
  end.

(** The walk from one start: its path and the cycle it ran into. *)
Fixpoint walk (fuel : nat) (g : Graph) (done_ : gset string) (cur : string) (path : list string) :
    option (list string * option (list string)) :=
  match fuel with
  | O => None
  | S fuel =>
      match gr_byID g !! cur with
      | None => Some (path, None)
      | Some p =>
          if decide (cur ∈ done_) then Some (path, None)
          else match list_find (fun x => x = cur) path with
               | Some (at_, _) =>
                   let cycle := drop at_ path in
                   Some (path, if decide (2 <= length cycle)%nat then Some (canonicalCycle cycle) else None)
               | None =>
                   let path := path ++ [cur] in
                   if decide (pr_ReportsTo p = "") then Some (path, None) else walk fuel g done_ (pr_ReportsTo p) path
               end
      end
  end.

Fixpoint cyclesLoop (g : Graph) (starts : list string) (done_ : gset string) (out : list (list string)) : option (list (list string)) :=
  match starts with
  | [] => Some out
  | start :: starts =>
      if decide (start ∈ done_) then cyclesLoop g starts done_ out
      else match walk (fuelOf g) g done_ start [] with
           | None => None
           | Some (path, cycle) => cyclesLoop g starts (list_to_set path ∪ done_) (out ++ option_list cycle)
           end
  end.

Definition cycles (g : Graph) : option (list (list string)) := cyclesLoop g (gr_ids g) ∅ [].

Definition arrow : string := " -> ".

Definition cycleFinding (cycle : list string) : Finding :=
  mkFinding FindingCycle cycle ("reporting cycle: " +:+ Join arrow cycle +:+ arrow +:+ default "" (head cycle)).

(** The order of the findings: kind, then the identifiers joined by a NUL. *)
Definition findingKey (f : Finding) : string * string := (kindText (fi_Kind f), Join (unchars [nulChar]) (fi_ProfileIDs f)).

Definition finding_le (a b : Finding) : Prop :=
  if decide ((findingKey a).1 = (findingKey b).1) then str_le (findingKey a).2 (findingKey b).2 else str_le (findingKey a).1 (findingKey b).1.

#[export] Instance finding_le_dec a b : Decision (finding_le a b).
Proof. unfold finding_le. destruct (decide _); apply _. Defined.

Definition Validate (g : Graph) : option (list Finding) :=
  (fun cs => merge_sort finding_le (concat (map (localFindings g) (gr_ids g)) ++ map cycleFinding cs)) <$> cycles g.

(** ** Following the links *)

Definition step (g : Graph) (x : string) : option string :=
  match gr_byID g !! x with Some p => if decide (pr_ReportsTo p = "") then None else Some (pr_ReportsTo p) | None => None end.

(** The [n]-th superior. *)
Fixpoint up (g : Graph) (n : nat) (x : string) : option string :=
  match n with O => Some x | S n => match step g x with Some y => up g n y | None => None end end.

Definition known (g : Graph) (x : string) : Prop := is_Some (gr_byID g !! x).

(** An identifier that is its own superior at some distance. *)
Definition on_cycle (g : Graph) (x : string) : Prop := exists n, (0 < n)%nat /\ up g n x = Some x.

(** Each element of the path reports to the next one, the last to [cur]. *)
Fixpoint runs (g : Graph) (l : list string) (cur : string) : Prop :=
  match l with [] => True | x :: l => step g x = Some (hd cur l) /\ runs g l cur end.

Definition is_cycle (g : Graph) (c : list string) : Prop := c <> [] /\ NoDup c /\ runs g c (hd "" c).

Section Links.
Variable g : Graph.

Lemma step_known x y : step g x = Some y -> known g x.
Proof. unfold step, known. by destruct (gr_byID g !! x) eqn:E. Qed.

Lemma up_add m n x : up g (m + n) x = up g m x ≫= up g n.
Proof. revert x. induction m as [|m IH]; intros x; simpl; [done|]. by destruct (step g x). Qed.

Lemma up_S n x y : up g n x = Some y -> up g (S n) x = step g y.
Proof.
  intros H. replace (S n) with (n + 1)%nat by lia. rewrite up_add, H. simpl. by destruct (step g y).
Qed.

Lemma hd_default (cur : string) (l : list string) (cur' : string) : l <> [] -> hd cur l = hd cur' l.
Proof. by destruct l. Qed.

Lemma runs_app l1 l2 cur : runs g (l1 ++ l2) cur <-> runs g l1 (hd cur l2) /\ runs g l2 cur.
Proof.
  induction l1 as [|x l1 IH]; simpl; [tauto|]. rewrite IH. destruct l1; simpl; tauto.
Qed.

Lemma runs_snoc l x cur : runs g (l ++ [x]) cur <-> runs g l x /\ step g x = Some cur.
Proof. rewrite runs_app. simpl. tauto. Qed.

Lemma up_runs l cur i x : runs g l cur -> (l ++ [cur]) !! i = Some x -> up g i (hd cur l) = Some x.
Proof.
  revert i. induction l as [|y l IH]; intros i Hr Hi; simpl in *.
  - destruct i; simpl in Hi; [by simplify_eq|by destruct i].
  - destruct Hr as [Hs Hr]. destruct i as [|i]; simpl in *; [by simplify_eq|]. rewrite Hs. by apply IH.
Qed.

Lemma runs_elem l cur x : runs g l cur -> x ∈ l -> exists k, (0 < k)%nat /\ up g k x = Some cur.
Proof.
  induction l as [|y l IH]; intros Hr Hx; [by apply elem_of_nil in Hx|]. destruct Hr as [Hs Hr].
  apply elem_of_cons in Hx as [->|Hx]; [|by apply IH]. exists (S (length l)). split; [lia|].
  assert (runs g (y :: l) cur) as H by (by split). apply (up_runs _ _ (S (length l)) cur) in H; [done|].
  simpl. by rewrite lookup_app_r, Nat.sub_diag by lia.
Qed.

(** ** Cycles *)

Lemma on_cycle_next x m y : on_cycle g x -> up g m x = Some y -> on_cycle g y /\ exists k, up g k y = Some x.
Proof.
  intros (n & Hn & Hx) Hm. assert (forall j, up g (n * j) x = Some x) as Hj.
  { induction j as [|j IH]; [by rewrite Nat.mul_0_r|]. rewrite Nat.mul_succ_r, up_add, IH. exact Hx. }
  set (k := (n * S m - m)%nat). assert (m + k = n * S m)%nat as Ek by (unfold k; nia).
  assert (up g k y = Some x) as Hk by (specialize (Hj (S m)); rewrite <- Ek, up_add, Hm in Hj; exact Hj).
  split; [|by exists k]. exists (k + m)%nat. split; [nia|]. by rewrite up_add, Hk.
Qed.

Lemma on_cycle_step x : on_cycle g x -> exists y, step g x = Some y /\ on_cycle g y.
Proof.
  intros H. pose proof H as (n & Hn & Hx). destruct n as [|n]; [lia|]. simpl in Hx. destruct (step g x) as [y|] eqn:E; [|done].
  exists y. split; [done|]. apply (on_cycle_next x 1 y H). simpl. by rewrite E.
Qed.

Lemma on_cycle_known x : on_cycle g x -> known g x.
Proof. intros (y & H & _)%on_cycle_step. by eapply step_known. Qed.

(** What is closed under links between known identifiers contains a cycle or misses it. *)
Definition closed (D : gset string) : Prop := forall x y, x ∈ D -> step g x = Some y -> known g y -> y ∈ D.

Lemma closed_up D k : closed D -> forall x y, x ∈ D -> on_cycle g x -> up g k x = Some y -> y ∈ D.
Proof.
  intros Hc. induction k as [|k IH]; intros x y Hx Ho; simpl; [by intros [= <-]|].
  destruct (on_cycle_step _ Ho) as (z & Hz & Ho'). rewrite Hz. intros H. apply (IH z); [|done|done].
  eapply Hc; [exact Hx|exact Hz|by apply on_cycle_known].
Qed.

Lemma is_cycle_step c x y : is_cycle g c -> x ∈ c -> step g x = Some y -> y ∈ c.
Proof.
  intros (Hne & _ & Hr) Hx Hs. apply list_elem_of_split in Hx as (l1 & l2 & ->). apply runs_app in Hr as [_ [Hs' _]].
  rewrite Hs in Hs'. injection Hs' as ->. destruct l2 as [|z l2]; simpl.
  - destruct l1; simpl; [by left|by left].
  - apply elem_of_app. right. right. by left.
Qed.

Lemma is_cycle_up c k : is_cycle g c -> forall x y, x ∈ c -> up g k x = Some y -> y ∈ c.
Proof.
  intros Hc. induction k as [|k IH]; intros x y Hx; simpl; [by intros [= <-]|].
  destruct (step g x) as [z|] eqn:E; [|done]. apply IH. by eapply is_cycle_step.
Qed.

Lemma is_cycle_on c x : is_cycle g c -> x ∈ c -> on_cycle g x.
Proof.
  intros (Hne & _ & Hr) Hx. apply list_elem_of_split in Hx as (l1 & l2 & ->).
  destruct (runs_elem _ _ x Hr) as (k & Hk & Hup); [apply elem_of_app; right; by left|].
  assert (runs g l1 x) as Hr1 by (by apply runs_app in Hr as [? _]).
  destruct l1 as [|y l1]; simpl in Hup; [by exists k|].
  assert (up g (length (y :: l1)) y = Some x) as Hyx.
  { apply (up_runs (y :: l1) x (length (y :: l1)) x) in Hr1; [exact Hr1|]. by rewrite lookup_app_r, Nat.sub_diag by lia. }
  exists (k + length (y :: l1))%nat. split; [lia|]. by rewrite up_add, Hup.
Qed.

Lemma is_cycle_rotate l1 l2 : is_cycle g (l1 ++ l2) -> is_cycle g (l2 ++ l1).
Proof.
  intros (Hne & Hnd & Hr). destruct l1 as [|x l1]; [by rewrite app_nil_r|]. destruct l2 as [|y l2]; [by rewrite app_nil_r in *|].
  split; [done|]. split; [by rewrite (Permutation_app_comm (y :: l2) (x :: l1))|].
  apply runs_app in Hr as [H1 H2]. apply runs_app. split; [exact H2|exact H1].
Qed.

Lemma smallestLoop_spec l : forall i best bestID (pre : list string),
  pre !! best = Some bestID -> length pre = i -> (forall y, y ∈ pre -> str_ltb y bestID = false) ->
  exists x, (pre ++ l) !! smallestLoop l i best bestID = Some x /\ forall y, y ∈ pre ++ l -> str_ltb y x = false.
Proof.
  induction l as [|z l IH]; intros i best bestID pre Hb Hi Hle; simpl.
  - rewrite app_nil_r. by exists bestID.
  - replace (pre ++ z :: l) with ((pre ++ [z]) ++ l) by (by rewrite <- app_assoc). destruct (str_ltb z bestID) eqn:E.
    + apply IH; [by rewrite lookup_app_r, Hi, Nat.sub_diag by lia|rewrite length_app; simpl; lia|].
      intros y [Hy|Hy]%elem_of_app; [|apply list_elem_of_singleton in Hy as ->; apply str_ltb_irrefl].
      destruct (str_ltb y z) eqn:E2; [|done]. pose proof (Hle y Hy) as H. by rewrite (str_ltb_trans _ _ _ E2 E) in H.
    + apply IH; [by apply lookup_app_l_Some|rewrite length_app; simpl; lia|].
      intros y [Hy|Hy]%elem_of_app; [by apply Hle|]. by apply list_elem_of_singleton in Hy as ->.
Qed.

(** The rotation keeps the cycle and starts at its smallest identifier. *)
Lemma canonicalCycle_spec c : c <> [] -> canonicalCycle c ≡ₚ c /\ (is_cycle g c -> is_cycle g (canonicalCycle c)) /\
  forall y, y ∈ c -> str_ltb y (hd "" (canonicalCycle c)) = false.
Proof.
  destruct c as [|id rest]; [done|]. intros _. unfold canonicalCycle. set (k := smallestLoop rest 1 0 id).
  destruct (smallestLoop_spec rest 1 0 id [id] eq_refl eq_refl) as (x & Hx & Hle).
  { intros y ->%list_elem_of_singleton. apply str_ltb_irrefl. }
  change ([id] ++ rest) with (id :: rest) in *. fold k in Hx. split; [|split].
  - by rewrite Permutation_app_comm, take_drop.
  - intros H. apply is_cycle_rotate. by rewrite take_drop.
  - assert (hd "" (drop k (id :: rest) ++ take k (id :: rest)) = x) as ->; [|done].
    rewrite <- (take_drop_middle _ _ _ Hx) at 1. rewrite drop_app_length'; [done|].
    apply lookup_lt_Some in Hx. rewrite length_take. lia.
Qed.

Lemma known_length l : NoDup l -> Forall (known g) l -> (length l <= size (gr_byID g))%nat.
Proof.
  intros Hnd Hk. rewrite <- size_dom, <- (size_list_to_set (C := gset string) l) by done. apply subseteq_size.
  intros x Hx. apply elem_of_list_to_set in Hx. apply elem_of_dom. rewrite Forall_forall in Hk. by apply Hk.
Qed.
End Links.

(** ** The graph that [Build] makes *)

Record built (g : Graph) : Prop := {
  bu_id x p : gr_byID g !! x = Some p -> pr_ID p = x;
  bu_ids x : x ∈ gr_ids g <-> known g x;
  bu_NoDup : NoDup (gr_ids g);
  bu_sorted : StronglySorted str_le (gr_ids g);
  bu_reports m c : c ∈ default [] (gr_reports g !! m) <-> step g c = Some m
}.

Lemma keyed_foldl profiles : forall m : gmap string Profile, (forall x p, m !! x = Some p -> pr_ID p = x) ->
  forall x p, foldl (fun m p => <[pr_ID p := p]> m) m profiles !! x = Some p -> pr_ID p = x.
Proof.
  induction profiles as [|q profiles IH]; intros m Hm; simpl; [done|]. apply IH. intros x p.
  destruct (decide (pr_ID q = x)) as [<-|Hne]; [rewrite lookup_insert_eq; by intros [= <-]|]. rewrite lookup_insert_ne by done. apply Hm.
Qed.

Lemma addReport_spec (byID : gmap string Profile) ids reports m c :
  c ∈ default [] (foldl (addReport byID) reports ids !! m) <->
  c ∈ default [] (reports !! m) \/ (c ∈ ids /\ step (mkGraph byID ∅ []) c = Some m).
Proof.
  revert reports. induction ids as [|id ids IH]; intros reports; simpl.
  - rewrite elem_of_nil. tauto.
  - rewrite IH, elem_of_cons. clear IH. unfold addReport.
    assert (forall P Q R S : Prop, (P <-> Q \/ (c = id /\ S)) -> (P \/ (R /\ S) <-> Q \/ ((c = id \/ R) /\ S))) as prop by (intros; tauto).
    apply prop. clear prop. destruct (byID !! id) as [p|] eqn:Hp.
    + case_decide as Hr.
      * split; [by left|]. intros [?|[-> H]]; [done|]. unfold step in H. simpl in H. rewrite Hp in H. by rewrite decide_True in H.
      * destruct (decide (pr_ReportsTo p = m)) as [Hm|Hm].
        -- rewrite <- Hm, lookup_insert_eq. simpl. rewrite elem_of_app, list_elem_of_singleton. split; [|tauto].
           intros [?| ->]; [by left|]. right. split; [done|]. unfold step. simpl. rewrite Hp. by rewrite decide_False.
        -- rewrite lookup_insert_ne by done. split; [by left|]. intros [?|[-> H]]; [done|]. unfold step in H. simpl in H.
           rewrite Hp in H. rewrite decide_False in H by done. by injection H.
    + split; [by left|]. intros [?|[-> H]]; [done|]. unfold step in H. simpl in H. by rewrite Hp in H.
Qed.

Lemma Build_is_built profiles : built (Build profiles).
Proof.
  unfold Build. cbv zeta. set (byID := foldl _ _ profiles). set (ids := merge_sort str_le _).
  assert (forall x, x ∈ ids <-> is_Some (byID !! x)) as Hids.
  { intros x. unfold ids. rewrite merge_sort_Permutation, list_elem_of_fmap. split.
    - intros ([y p] & -> & H%elem_of_map_to_list). by exists p.
    - intros [p Hp]. exists (x, p). split; [done|]. by apply elem_of_map_to_list. }
  split; simpl.
  - apply keyed_foldl. done.
  - exact Hids.
  - unfold ids. rewrite merge_sort_Permutation. apply NoDup_fst_map_to_list.
  - apply StronglySorted_merge_sort; apply _.
  - intros m c. rewrite addReport_spec, lookup_empty. simpl. rewrite elem_of_nil. change (step (mkGraph byID _ ids) c) with (step (mkGraph byID ∅ []) c).
    split; [intros [[]|[_ ?]]; done|]. intros H. right. split; [|done]. apply Hids. by apply step_known in H.
Qed.

(** ** The walk for cycles *)

Section Cycles.
Variable g : Graph.

Record walked (D : gset string) (path : list string) (cycle : option (list string)) : Prop := {
  wa_known : Forall (known g) path;
  wa_NoDup : NoDup path;
  wa_fresh : forall x, x ∈ path -> x ∉ D;
  wa_closed : closed g (list_to_set path ∪ D);
  wa_cycle : match cycle with
             | Some c => is_cycle g c /\ (2 <= length c)%nat /\ (forall x, x ∈ c -> x ∈ path) /\
                         (forall y, y ∈ c -> str_ltb y (hd "" c) = false) /\
                         forall x, x ∈ path -> on_cycle g x -> x ∈ c
             | None => forall x, x ∈ path -> on_cycle g x -> step g x = Some x
             end
}.

(** Closing a path whose last element leads to what is known to be closed, or nowhere. *)
Lemma closed_path D path cur : closed g D -> runs g path cur -> (known g cur -> cur ∈ (list_to_set path : gset string) ∪ D) ->
  closed g (list_to_set path ∪ D).
Proof.
  intros Hc Hr Hcur x y [Hx|Hx]%elem_of_union Hs Hk; [|apply elem_of_union; right; by eapply Hc].
  apply elem_of_list_to_set, list_elem_of_split in Hx as (l1 & l2 & ->). apply runs_app in Hr as [_ [Hs' _]].
  rewrite Hs in Hs'. injection Hs' as ->. destruct l2 as [|z l2]; simpl in *; [by apply Hcur|].
  apply elem_of_union. left. apply elem_of_list_to_set, elem_of_app. right. right. by left.
Qed.

(** A path that ends without a cycle has none. *)
Lemma path_without_cycle D path cur : closed g D -> runs g path cur -> (forall x, x ∈ path -> x ∉ D) ->
  ~ known g cur \/ cur ∈ D -> forall x, x ∈ path -> ~ on_cycle g x.
Proof.
  intros Hc Hr Hf Hcur x Hx Ho. destruct (runs_elem g _ _ _ Hr Hx) as (k & _ & Hk).
  destruct (on_cycle_next g x k cur Ho Hk) as [Hoc [j Hj]]. destruct Hcur as [Hn|Hin]; [by apply Hn, on_cycle_known|].
  apply (Hf x Hx). by eapply closed_up.
Qed.

Lemma walk_spec fuel : forall D cur path, closed g D -> Forall (known g) path -> NoDup path -> (forall x, x ∈ path -> x ∉ D) ->
  runs g path cur -> (size (gr_byID g) < fuel + length path)%nat ->
  exists path' cycle, walk fuel g D cur path = Some (path', cycle) /\ walked D path' cycle /\ (cur ∉ D -> known g cur -> cur ∈ path') /\
    forall x, x ∈ path -> x ∈ path'.
Proof.
  induction fuel as [|fuel IH]; intros D cur path Hc Hk Hnd Hf Hr Hfuel.
  { pose proof (known_length g path Hnd Hk). lia. }
  simpl. destruct (gr_byID g !! cur) as [p|] eqn:Hp.
  2: { assert (~ known g cur) as Hn by (intros [? H]; congruence). eexists _, _. split; [reflexivity|]. split; [|done]. split; try done.
       - eapply closed_path; [done|exact Hr|done].
       - intros x Hx Ho. exfalso. eapply (path_without_cycle D path cur); eauto. }
  assert (known g cur) as Hkc by (by exists p). case_decide as Hd.
  { eexists _, _. split; [reflexivity|]. split; [|done]. split; try done.
    - eapply closed_path; [done|exact Hr|]. intros _. apply elem_of_union. by right.
    - intros x Hx Ho. exfalso. eapply (path_without_cycle D path cur); eauto. }
  destruct (list_find (fun x => x = cur) path) as [[i x]|] eqn:Hfind.
  - apply list_find_Some in Hfind as (Hi & -> & _). set (c := drop i path).
    assert (path = take i path ++ c) as Hsplit by (unfold c; by rewrite take_drop).
    assert (hd "" c = cur) as Hhd by (unfold c; by rewrite (drop_S _ _ _ Hi)).
    assert (c <> []) as Hcne by (unfold c; by rewrite (drop_S _ _ _ Hi)).
    assert (is_cycle g c) as Hcyc.
    { split; [done|]. split; [rewrite Hsplit in Hnd; by apply NoDup_app in Hnd as (_ & _ & ?)|].
      rewrite Hhd. rewrite Hsplit in Hr. by apply runs_app in Hr as [_ ?]. }
    assert (forall x, x ∈ path -> on_cycle g x -> x ∈ c) as Hall.
    { intros x Hx Ho. destruct (runs_elem g _ _ _ Hr Hx) as (k & _ & Hk'). destruct (on_cycle_next g x k cur Ho Hk') as [_ [j Hj]].
      eapply is_cycle_up; [exact Hcyc| |exact Hj]. rewrite <- Hhd. destruct c; [done|by left]. }
    destruct (canonicalCycle_spec g c Hcne) as (Hperm & Hcan & Hmin).
    eexists _, _. split; [reflexivity|]. split; [|split; [|done]].
    + split; try done.
      * eapply closed_path; [done|exact Hr|]. intros _. apply elem_of_union. left. apply elem_of_list_to_set. by eapply list_elem_of_lookup_2.
      * case_decide as Hlen.
        -- split; [by apply Hcan|]. rewrite Hperm. split; [done|]. split; [|split].
           ++ intros x Hx. rewrite Hperm in Hx. rewrite Hsplit. apply elem_of_app. by right.
           ++ intros y Hy. rewrite Hperm in Hy. by apply Hmin.
           ++ intros x Hx Ho. rewrite Hperm. by apply Hall.
        -- intros x Hx Ho. assert (c = [cur]) as Hone.
           { destruct c as [|a [|b l]]; [done|simpl in *; by subst|simpl in Hlen; lia]. }
           pose proof (Hall x Hx Ho) as Hin. rewrite Hone in Hin. apply list_elem_of_singleton in Hin as ->.
           destruct Hcyc as (_ & _ & Hrc). rewrite Hone in Hrc. simpl in Hrc. by destruct Hrc.
    + intros _ _. by eapply list_elem_of_lookup_2.
  - assert (cur ∉ path) as Hnotin.
    { intros Hin. apply list_find_None in Hfind. rewrite Forall_forall in Hfind. by apply (Hfind _ Hin). }
    assert (Forall (known g) (path ++ [cur])) as Hk' by (apply Forall_app; split; [done|by repeat constructor]).
    assert (NoDup (path ++ [cur])) as Hnd' by (apply NoDup_app; split_and!; [done| |apply NoDup_singleton];
      intros x Hx ->%list_elem_of_singleton; done).
    assert (forall x, x ∈ path ++ [cur] -> x ∉ D) as Hf' by (intros x [Hx| ->%list_elem_of_singleton]%elem_of_app; [by apply Hf|done]).
    case_decide as Hroot.
    + eexists _, _. split; [reflexivity|].
      assert (step g cur = None) as Hs by (unfold step; rewrite Hp; by rewrite decide_True).
      split; [|split; [intros _ _; apply elem_of_app; right; by left|intros x Hx; apply elem_of_app; by left]]. split; try done.
      * intros x y [Hx|Hx]%elem_of_union Hsx Hky; [|apply elem_of_union; right; by eapply Hc].
        apply elem_of_list_to_set, elem_of_app in Hx as [Hx| ->%list_elem_of_singleton]; [|congruence].
        assert (y ∈ (list_to_set path : gset string) ∪ {[cur]} ∪ D) as H.
        { pose proof (closed_path ({[cur]} ∪ D) path cur) as H. rewrite <- assoc_L by apply _. eapply H; [|exact Hr| | |exact Hsx|exact Hky].
          - intros a b [Ha%elem_of_singleton|Ha]%elem_of_union Hab Hb; [subst a; congruence|]. apply elem_of_union. right. by eapply Hc.
          - intros _. set_solver.
          - apply elem_of_union. left. by apply elem_of_list_to_set. }
        set_solver.
      * intros x Hx Ho. exfalso. apply elem_of_app in Hx as [Hx| ->%list_elem_of_singleton].
        -- destruct (runs_elem g _ _ _ Hr Hx) as (k & _ & Hk2). destruct (on_cycle_next g x k cur Ho Hk2) as [Hoc _].
           apply on_cycle_step in Hoc as (? & ? & _). congruence.
        -- apply on_cycle_step in Ho as (? & ? & _). congruence.
    + destruct (IH D (pr_ReportsTo p) (path ++ [cur]) Hc Hk' Hnd' Hf') as (path' & cycle & Hw & Hwd & _ & Hsub).
      * apply runs_snoc. split; [done|]. unfold step. rewrite Hp. by rewrite decide_False.
      * rewrite length_app. simpl. lia.
      * exists path', cycle. split; [exact Hw|]. split; [done|]. split; [intros _ _; apply Hsub, elem_of_app; right; by left|].
        intros x Hx. apply Hsub, elem_of_app. by left.
Qed.
End Cycles.

(** ** The cycles of a graph *)

Section Found.
Variable g : Graph.

Record found (D : gset string) (out : list (list string)) : Prop := {
  fo_closed : closed g D;
  fo_cycles : Forall (fun c => is_cycle g c /\ (2 <= length c)%nat /\ (forall x, x ∈ c -> x ∈ D) /\
                               forall y, y ∈ c -> str_ltb y (hd "" c) = false) out;
  fo_once : NoDup (concat out);
  fo_all x : x ∈ D -> on_cycle g x -> step g x <> Some x -> x ∈ concat out
}.

Lemma concat_snoc {A} (out : list (list A)) o : concat (out ++ option_list o) = concat out ++ default [] o.
Proof. rewrite concat_app. by destruct o; simpl; rewrite ?app_nil_r. Qed.

Lemma found_walked D out path cycle : found D out -> walked g D path cycle ->
  found (list_to_set path ∪ D) (out ++ option_list cycle).
Proof.
  intros [F1 F2 F3 F4] [W1 W2 W3 W4 W5].
  assert (forall x, x ∈ concat out -> x ∈ D) as Hin.
  { intros x Hx. apply list_elem_of_In, in_concat in Hx as (c & Hc%list_elem_of_In & Hxc%list_elem_of_In).
    rewrite Forall_forall in F2. by apply (F2 c Hc). }
  split; [done| | |].
  - apply Forall_app. split.
    + eapply Forall_impl; [exact F2|]. simpl. intros c (? & ? & Hs & ?). split_and!; try done. intros x Hx. apply elem_of_union. right. by apply Hs.
    + destruct cycle as [c|]; [|constructor]. constructor; [|constructor]. destruct W5 as (? & ? & Hs & ? & _). split_and!; try done.
      intros x Hx. apply elem_of_union. left. apply elem_of_list_to_set. by apply Hs.
  - rewrite concat_snoc. apply NoDup_app. split; [done|]. destruct cycle as [c|]; simpl.
    + destruct W5 as ((_ & Hnd & _) & _ & Hs & _). split; [|done]. intros x Hx Hc. apply (W3 x (Hs x Hc)). by apply Hin.
    + split; [|constructor]. intros x _ Hx. by apply elem_of_nil in Hx.
  - intros x [Hx%elem_of_list_to_set|Hx]%elem_of_union Ho Hne; rewrite concat_snoc, elem_of_app.
    + right. destruct cycle as [c|]; simpl; [by apply W5|]. by destruct Hne; apply W5.
    + left. by apply F4.
Qed.

Lemma cyclesLoop_spec starts : forall D out, found D out -> Forall (known g) starts ->
  exists D' out', cyclesLoop g starts D out = Some out' /\ found D' out' /\ D ⊆ D' /\ forall x, x ∈ starts -> x ∈ D'.
Proof.
  induction starts as [|x starts IH]; intros D out HF Hk; cbn [cyclesLoop].
  { exists D, out. split_and!; try done. intros x Hx. by apply elem_of_nil in Hx. }
  apply Forall_cons in Hk as [Hx Hk]. case_decide as Hd.
  - destruct (IH D out HF Hk) as (D' & out' & H1 & H2 & H3 & H4). exists D', out'. split_and!; try done.
    intros y [->|Hy]%elem_of_cons; [by apply H3|by apply H4].
  - destruct (walk_spec g (fuelOf g) D x [] (fo_closed _ _ HF)) as (path & cycle & Hw & Hwd & Hin & _);
      [constructor|constructor|intros y Hy; by apply elem_of_nil in Hy|done|unfold fuelOf; simpl; lia|].
    rewrite Hw. destruct (IH _ _ (found_walked _ _ _ _ HF Hwd) Hk) as (D' & out' & H1 & H2 & H3 & H4).
    exists D', out'. split_and!; try done; [set_solver|]. intros y [->|Hy]%elem_of_cons; [|by apply H4].
    apply H3, elem_of_union. left. apply elem_of_list_to_set. by apply Hin.
Qed.

Lemma cycles_spec : built g -> exists out, cycles g = Some out /\
  Forall (fun c => is_cycle g c /\ (2 <= length c)%nat /\ forall y, y ∈ c -> str_ltb y (hd "" c) = false) out /\
  NoDup (concat out) /\ forall x, x ∈ concat out <-> on_cycle g x /\ step g x <> Some x.
Proof.
  intros Hb. destruct (cyclesLoop_spec (gr_ids g) ∅ []) as (D & out & H1 & [F1 F2 F3 F4] & _ & H4).
  { split; [intros x y Hx; by apply elem_of_empty in Hx|constructor|constructor|intros x Hx; by apply elem_of_empty in Hx]. }
  { apply Forall_forall. intros x Hx. by apply (bu_ids g Hb). }
  exists out. split; [done|]. split; [|split; [done|]].
  - eapply Forall_impl; [exact F2|]. simpl. intros c (? & ? & _ & ?). done.
  - intros x. split; [|intros [Ho Hs]; apply F4; [|done|done]; apply H4, (bu_ids g Hb); by apply on_cycle_known].
    intros Hx. apply list_elem_of_In, in_concat in Hx as (c & Hc%list_elem_of_In & Hxc%list_elem_of_In).
    rewrite Forall_forall in F2. destruct (F2 c Hc) as (Hcyc & Hlen & _). split; [by eapply is_cycle_on|]. intros Hs.
    destruct Hcyc as (_ & Hnd & Hr). apply list_elem_of_split in Hxc as (l1 & l2 & ->). apply runs_app in Hr as [_ [Hs' _]].
    rewrite Hs in Hs'. destruct l2 as [|y l2].
    + destruct l1 as [|z l1]; simpl in *; [lia|]. injection Hs' as <-. apply NoDup_cons in Hnd as [Hn _].
      apply Hn, elem_of_app. right. by left.
    + simpl in Hs'. injection Hs' as <-. apply NoDup_app in Hnd as (_ & _ & Hnd). apply NoDup_cons in Hnd as [Hn _]. apply Hn. by left.
Qed.
End Found.

(** ** The order of findings *)

Lemma str_le_antisymm a b : str_le a b -> str_le b a -> a = b.
Proof. unfold str_le. intros H1 H2. destruct (str_ltb_total a b H2) as [?|H]; [done|congruence]. Qed.

#[export] Instance finding_le_trans : Transitive finding_le.
Proof.
  intros a b c. unfold finding_le. generalize (findingKey a), (findingKey b), (findingKey c). intros [x x'] [y y'] [z z']. simpl.
  intros H1 H2. destruct (decide (x = y)) as [->|Hxy], (decide (y = z)) as [->|Hyz].
  - by etransitivity.
  - done.
  - by case_decide.
  - case_decide as Hxz; [|by etransitivity]. subst z. exfalso. by apply Hxy, str_le_antisymm.
Qed.

#[export] Instance finding_le_total : Total finding_le.
Proof.
  intros a b. unfold finding_le. generalize (findingKey a), (findingKey b). intros [x x'] [y y']. simpl.
  destruct (decide (x = y)) as [->|Hxy]; [case_decide; [apply total; apply _|done]|].
  rewrite decide_False by congruence. apply total. apply _.
Qed.

(** C28: Of any profiles, with whatever links, [Validate] ends and finds exactly: one cycle
    finding for every reporting cycle of two or more profiles, starting at its smallest id,
    with every profile on such a cycle in exactly one of them; a self reference, a dangling
    reference or an unknown type for exactly the profiles that have one; sorted by kind and
    identifiers. *)
Theorem org_findings_exact (profiles : list Profile) :
  let g := Build profiles in
  exists findings cs, Validate g = Some findings /\ StronglySorted finding_le findings /\
    (forall f, f ∈ findings <-> (exists c, c ∈ cs /\ f = cycleFinding c) \/ exists id, id ∈ gr_ids g /\ f ∈ localFindings g id) /\
    Forall (fun c => is_cycle g c /\ (2 <= length c)%nat /\ forall y, y ∈ c -> str_ltb y (hd "" c) = false) cs /\
    NoDup (concat cs) /\ (forall x, x ∈ concat cs <-> on_cycle g x /\ step g x <> Some x) /\
    forall id p, gr_byID g !! id = Some p ->
      (fi_Kind <$> localFindings g id) =
      (if decide (pr_ReportsTo p = "" ) then [] else if decide (step g id = Some id) then [FindingSelfReference]
       else if decide (gr_byID g !! pr_ReportsTo p = None) then [FindingDanglingReportsTo] else []) ++
      (if decide (pr_Type p ∈ [""; "agent"; "human"]) then [] else [FindingUnknownType]).
Proof.
  cbv zeta. set (g := Build profiles). destruct (cycles_spec g (Build_is_built profiles)) as (cs & Hc & H1 & H2 & H3).
  unfold Validate. rewrite Hc. eexists _, cs. split; [reflexivity|]. split; [|split; [|split_and!; try done]].
  - apply StronglySorted_merge_sort; apply _.
  - intros f. rewrite merge_sort_Permutation, elem_of_app. split.
    + intros [Hf|Hf].
      * right. apply list_elem_of_In, in_concat in Hf as (l & Hl & Hf%list_elem_of_In). apply in_map_iff in Hl as (id & <- & Hid%list_elem_of_In).
        by exists id.
      * left. apply list_elem_of_fmap in Hf as (c & -> & Hf). by exists c.
    + intros [(c & Hf & ->)|(id & Hid & Hf)]; [right; by apply list_elem_of_fmap_2|left].
      apply list_elem_of_In, in_concat. exists (localFindings g id). split; [|by apply list_elem_of_In].
      apply in_map, list_elem_of_In. done.
  - intros id p Hp. unfold localFindings, linkFindings, typeFindings, ValidateType, step. rewrite Hp. rewrite fmap_app. f_equal.
    + destruct (decide (pr_ReportsTo p = "")); [done|]. destruct (decide (pr_ReportsTo p = id)) as [->|Hne].
      * by rewrite decide_True.
      * rewrite decide_False by congruence. destruct (gr_byID g !! pr_ReportsTo p); [by rewrite decide_False|by rewrite decide_True].
    + case_bool_decide; [by rewrite decide_True|by rewrite decide_False].
Qed.

(** ** Chains and reports *)

Lemma cyclePathFrom_split chain p rest : pr_ID p ∉ map pr_ID chain -> cyclePathFrom (chain ++ p :: rest) (pr_ID p) = map pr_ID (p :: rest).
Proof.
  induction chain as [|q chain IH]; simpl; [by rewrite decide_True|]. intros Hn. apply not_elem_of_cons in Hn as [H1 H2].
  rewrite decide_False by congruence. by apply IH.
Qed.

Section Traversals.
Variable g : Graph.
Hypothesis Hb : built g.

(** What a chain that starts at [id] and is about to visit [cur] has been through. *)
Record chained (id cur : string) (visited : gset string) (chain : list Profile) : Prop := {
  ch_known : Forall (fun p => gr_byID g !! pr_ID p = Some p) chain;
  ch_NoDup : NoDup (map pr_ID chain);
  ch_visited : visited = list_to_set (map pr_ID chain);
  ch_head : hd cur (map pr_ID chain) = id;
  ch_runs : runs g (map pr_ID chain) cur
}.

(** What [Chain] returns: who is above [id] up to a root, an unknown id, or a cycle. *)
Definition chain_spec (id : string) (chain : list Profile) (err : option CycleError) : Prop :=
  NoDup (map pr_ID chain) /\
  (forall i p, chain !! i = Some p -> gr_byID g !! pr_ID p = Some p /\ up g i id = Some (pr_ID p)) /\
  match err with
  | None => forall x, up g (length chain) id = Some x -> ~ known g x
  | Some (mkCycleError path) => is_cycle g path /\ path `suffix_of` map pr_ID chain
  end.

Lemma runs_positions l cur i x : runs g l cur -> l !! i = Some x -> up g i (hd cur l) = Some x.
Proof. intros Hr Hi. apply up_runs; [done|]. by apply lookup_app_l_Some. Qed.

Lemma chained_positions id cur visited chain : chained id cur visited chain ->
  (forall i p, chain !! i = Some p -> gr_byID g !! pr_ID p = Some p /\ up g i id = Some (pr_ID p)) /\ up g (length chain) id = Some cur.
Proof.
  intros [Hk _ _ Hh Hr]. split.
  - intros i p Hi. rewrite Forall_lookup in Hk. split; [by eapply Hk|]. rewrite <- Hh. apply runs_positions; [done|].
    change (map pr_ID chain) with (pr_ID <$> chain). by rewrite list_lookup_fmap, Hi.
  - rewrite <- Hh. apply up_runs; [done|]. by rewrite <- (length_map pr_ID), lookup_app_r, Nat.sub_diag by lia.
Qed.

Lemma chained_length id cur visited chain : chained id cur visited chain -> (length chain <= size (gr_byID g))%nat.
Proof.
  intros [Hk Hnd _ _ _]. rewrite <- (length_map pr_ID). apply (known_length g); [done|]. apply Forall_map.
  eapply Forall_impl; [exact Hk|]. intros p Hp. by exists p.
Qed.

Lemma org_chained_snoc id cur visited chain p : chained id cur visited chain -> gr_byID g !! cur = Some p -> cur ∉ visited ->
  forall next, step g cur = Some next -> chained id next ({[cur]} ∪ visited) (chain ++ [p]).
Proof.
  intros [Hk Hnd Hv Hh Hr] Hp Hn next Hs. pose proof (bu_id g Hb _ _ Hp) as Hid. split; rewrite ?map_app; simpl; rewrite ?Hid.
  - apply Forall_app. split; [done|]. constructor; [by rewrite Hid|constructor].
  - apply NoDup_app. split_and!; [done| |apply NoDup_singleton]. intros x Hx ->%list_elem_of_singleton. apply Hn. rewrite Hv.
    by apply elem_of_list_to_set.
  - rewrite Hv, list_to_set_app_L. set_solver.
  - rewrite <- Hh. by destruct chain.
  - by apply runs_snoc.
Qed.

Lemma chainLoop_spec fuel : forall id cur visited chain, chained id cur visited chain -> cur <> "" ->
  (size (gr_byID g) < fuel + length chain)%nat ->
  exists chain' err, chainLoop fuel g cur visited chain = Some (chain', err) /\ chain_spec id chain' err.
Proof.
  induction fuel as [|fuel IH]; intros id cur visited chain HC Hcur Hfuel.
  { pose proof (chained_length _ _ _ _ HC). lia. }
  destruct (chained_positions _ _ _ _ HC) as [Hpos Hup]. cbn [chainLoop]. rewrite decide_False by done.
  destruct (gr_byID g !! cur) as [p|] eqn:Hp.
  2: { eexists _, _. split; [reflexivity|]. split; [apply HC|]. split; [done|]. intros x Hx. rewrite Hup in Hx. injection Hx as <-.
       intros [? ?]. congruence. }
  destruct (decide (cur ∈ visited)) as [Hv|Hv].
  - eexists _, _. split; [reflexivity|]. pose proof HC as [Hk Hnd Hvis Hh Hr]. rewrite Hvis in Hv. apply elem_of_list_to_set in Hv.
    apply list_elem_of_fmap in Hv as (q & Hq & Hin). apply list_elem_of_split in Hin as (l1 & l2 & ->).
    rewrite Hq. rewrite map_app in Hnd, Hr. rewrite cyclePathFrom_split.
    2: { simpl in Hnd. apply NoDup_app in Hnd as (_ & Hd & _). intros Hin. apply (Hd _ Hin). by left. }
    split; [by rewrite map_app|]. split; [done|]. split; [|exists (map pr_ID l1); by rewrite map_app].
    split; [done|]. split; [by apply NoDup_app in Hnd as (_ & _ & ?)|]. apply runs_app in Hr as [_ Hr]. simpl hd. rewrite <- Hq. exact Hr.
  - destruct (decide (pr_ReportsTo p = "")) as [Hroot|Hroot].
    + rewrite Hroot. eexists (chain ++ [p]), None. split; [by destruct fuel|]. pose proof (bu_id g Hb _ _ Hp) as Hid.
      assert (step g cur = None) as Hs by (unfold step; rewrite Hp; by rewrite decide_True). pose proof HC as [Hk Hnd Hvis Hh Hr].
      split; [|split].
      * rewrite map_app. simpl. rewrite Hid. apply NoDup_app. split_and!; [done| |apply NoDup_singleton].
        intros x Hx ->%list_elem_of_singleton. apply Hv. rewrite Hvis. by apply elem_of_list_to_set.
      * intros i q Hi. apply lookup_snoc_Some in Hi as [[_ Hi]|[-> ->]]; [by apply Hpos|]. by rewrite Hid.
      * rewrite length_app. simpl. rewrite Nat.add_1_r. intros x Hx. rewrite (up_S _ _ _ _ Hup) in Hx. congruence.
    + apply IH; [|done|rewrite length_app; simpl; lia]. apply org_chained_snoc; [done|done|done|]. unfold step. rewrite Hp. by rewrite decide_False.
Qed.

Lemma Chain_spec id : id <> "" -> exists chain err, Chain g id = Some (chain, err) /\ chain_spec id chain err.
Proof.
  intros Hid. apply chainLoop_spec; [|done|unfold fuelOf; simpl; lia]. split; try done; constructor.
Qed.

Lemma on_cycle_forever x j : on_cycle g x -> exists z, up g j x = Some z /\ on_cycle g z.
Proof.
  revert x. induction j as [|j IH]; intros x Ho; simpl; [by exists x|].
  destruct (on_cycle_step g x Ho) as (y & -> & Hy). by apply IH.
Qed.

Lemma up_before k n id x : up g k id = Some x -> (n <= k)%nat -> exists z, up g n id = Some z /\ up g (k - n) z = Some x.
Proof.
  intros Hk Hn. replace k with (n + (k - n))%nat in Hk by lia. rewrite up_add in Hk. destruct (up g n id) as [z|]; [|done]. by exists z.
Qed.

(** A chain ends in an error exactly when it leads into a cycle. *)
Lemma chain_error_iff id chain err : chain_spec id chain err -> err <> None <-> exists k x, up g k id = Some x /\ on_cycle g x.
Proof.
  intros (Hnd & Hpos & Herr). destruct err as [[path]|]; split; try done.
  - intros _. destruct Herr as (Hcyc & [l Hl]). pose proof Hcyc as (Hne & _ & _). destruct path as [|x path]; [done|].
    assert (x ∈ map pr_ID chain) as Hx by (rewrite Hl; apply elem_of_app; right; by left).
    apply list_elem_of_fmap in Hx as (p & -> & [i Hi]%list_elem_of_lookup_1). exists i, (pr_ID p).
    split; [by apply Hpos|]. eapply is_cycle_on; [exact Hcyc|by left].
  - intros (k & x & Hk & Ho) _. set (m := length chain) in *. destruct (decide (m < k)%nat) as [Hm|Hm].
    + destruct (up_before k m id x Hk ltac:(lia)) as (z & Hz & Hr). apply (Herr z Hz).
      destruct (k - m)%nat eqn:E; [lia|]. simpl in Hr. destruct (step g z) eqn:Hs; [|done]. by eapply step_known.
    + destruct (on_cycle_forever x (m - k) Ho) as (z & Hz & Hoz). apply (Herr z); [|by apply on_cycle_known].
      replace m with (k + (m - k))%nat by lia. by rewrite up_add, Hk.
Qed.

(** ** Reports at a distance *)

Definition visit (st : gset string * list string) (child : string) : gset string * list string :=
  if decide (child ∈ st.1) then st else ({[child]} ∪ st.1, st.2 ++ [child]).

Lemma levelLoop_flat reports frontier visited next :
  levelLoop reports frontier visited next = foldl visit (visited, next) (concat (map (fun cur => default [] (reports !! cur)) frontier)).
Proof.
  revert visited next. induction frontier as [|cur frontier IH]; intros visited next; simpl; [done|]. rewrite foldl_app.
  assert (forall l st, foldl (fun '(visited, next) child => if decide (child ∈ visited) then (visited, next) else ({[child]} ∪ visited, next ++ [child]))
    st l = foldl visit st l) as E.
  { induction l as [|c l IHl]; intros [v n]; simpl; [done|]. by rewrite IHl. }
  rewrite E. destruct (foldl visit _ _) as [v n]. by apply IH.
Qed.

Lemma visit_spec l : forall v n, (forall x, x ∈ n -> x ∈ v) -> NoDup n ->
  let st := foldl visit (v, n) l in
  (forall x, x ∈ st.1 <-> x ∈ v \/ x ∈ l) /\ (forall x, x ∈ st.2 <-> x ∈ n \/ (x ∈ l /\ x ∉ v)) /\ NoDup st.2.
Proof.
  induction l as [|c l IH]; intros v n Hn Hnd; simpl.
  - split; [intros x; rewrite elem_of_nil; tauto|]. split; [intros x; rewrite elem_of_nil; tauto|done].
  - unfold visit at 2 4 6. simpl. case_decide as Hc.
    + destruct (IH v n Hn Hnd) as (H1 & H2 & H3). split; [|split; [|done]]; intros x; rewrite ?H1, ?H2, elem_of_cons; naive_solver.
    + destruct (IH ({[c]} ∪ v) (n ++ [c])) as (H1 & H2 & H3).
      * intros x [Hx| ->%list_elem_of_singleton]%elem_of_app; [apply elem_of_union; right; by apply Hn|set_solver].
      * apply NoDup_app. split_and!; [done| |apply NoDup_singleton]. intros x Hx ->%list_elem_of_singleton. by apply Hc, Hn.
      * split; [|split; [|done]]; intros x; rewrite ?H1, ?H2, elem_of_cons, ?elem_of_app, ?list_elem_of_singleton; [set_solver|].
        destruct (decide (x = c)) as [->|Hne]; set_solver.
Qed.

Definition within (id : string) (n : nat) (x : string) : Prop := exists k, (k <= n)%nat /\ up g k x = Some id.

(** The breadth-first search after [n] levels. *)
Record searched (id : string) (n : nat) (visited : gset string) (frontier out : list string) : Prop := {
  se_visited x : x ∈ visited <-> x = id \/ within id n x;
  se_frontier x : x ∈ frontier <-> within id n x /\ forall k, up g k x = Some id -> (n <= k)%nat;
  se_out x : x ∈ out <-> x <> id /\ within id n x;
  se_NoDup : NoDup out
}.

Lemma within_S id n x : within id (S n) x <-> x = id \/ exists y, step g x = Some y /\ within id n y.
Proof.
  split.
  - intros (k & Hk & Hup). destruct k as [|k]; simpl in Hup; [left; congruence|]. destruct (step g x) as [y|]; [|done].
    right. exists y. split; [done|]. exists k. split; [lia|done].
  - intros [->|(y & Hs & k & Hk & Hup)]; [exists O; split; [lia|done]|]. exists (S k). split; [lia|]. simpl. by rewrite Hs.
Qed.

Lemma within_known id n x : known g id -> within id n x -> known g x.
Proof.
  intros Hid (k & _ & Hup). destruct k as [|k]; simpl in Hup; [by injection Hup as ->|].
  destruct (step g x) eqn:E; [|done]. by eapply step_known.
Qed.

Lemma searched_level id n visited frontier out : searched id n visited frontier out ->
  let st := levelLoop (gr_reports g) frontier visited [] in
  searched id (S n) st.1 st.2 (out ++ st.2).
Proof.
  intros [H1 H2 H3 H4]. rewrite levelLoop_flat. set (l := concat _).
  assert (forall x, x ∈ l <-> exists y, step g x = Some y /\ y ∈ frontier) as Hl.
  { intros x. unfold l. rewrite list_elem_of_In, in_concat. split.
    - intros (c & Hc & Hx). apply in_map_iff in Hc as (y & <- & Hy%list_elem_of_In). exists y.
      split; [|done]. apply (bu_reports g Hb). by apply list_elem_of_In.
    - intros (y & Hs & Hy). exists (default [] (gr_reports g !! y)). split; [apply in_map_iff; exists y; split; [done|]; by apply list_elem_of_In|].
      apply list_elem_of_In. by apply (bu_reports g Hb). }
  destruct (visit_spec l visited []) as (V1 & V2 & V3); [intros x Hx; by apply elem_of_nil in Hx|constructor|].
  assert (forall x, x ∈ l /\ x ∉ visited <-> within id (S n) x /\ forall k, up g k x = Some id -> (S n <= k)%nat) as Hnew.
  { intros x. rewrite H1, Hl. split.
    - intros [(y & Hs & Hy) Hn]. apply H2 in Hy as [Hy Hmin]. split; [apply within_S; right; by exists y|].
      intros k Hk. destruct (decide (S n <= k)%nat) as [|Hlt]; [done|]. exfalso. apply Hn. right. exists k. split; [lia|done].
    - intros [Hw Hmin]. split.
      + apply within_S in Hw as [->|(y & Hs & Hw)]; [specialize (Hmin O eq_refl); lia|]. exists y. split; [done|]. apply H2. split; [done|].
        intros k Hk. specialize (Hmin (S k)). simpl in Hmin. rewrite Hs in Hmin. specialize (Hmin Hk). lia.
      + intros [->|(k & Hk & Hup)]; [specialize (Hmin O eq_refl); lia|]. specialize (Hmin k Hup). lia. }
  split.
  - intros x. rewrite V1, H1, Hl. split.
    + intros [[?|(k & Hk & Hup)]|(y & Hs & Hy)]; [by left|right; exists k; split; [lia|done]|]. apply H2 in Hy as [Hy _]. right. apply within_S. right. by exists y.
    + intros [?|Hw]; [by do 2 left|]. destruct (decide (x ∈ visited)) as [Hx|Hx]; [left; by apply H1|]. right. apply Hl, Hnew. split; [done|].
      intros k Hk. destruct (decide (S n <= k)%nat) as [|Hlt]; [done|]. exfalso. apply Hx, H1. right. exists k. split; [lia|done].
  - intros x. rewrite V2, elem_of_nil, <- Hnew. tauto.
  - intros x. rewrite elem_of_app, V2, elem_of_nil, H3. split.
    + intros [[Hne (k & Hk & Hup)]|[[]|Hx]]; [split; [done|exists k; split; [lia|done]]|]. pose proof Hx as [_ Hv].
      apply Hnew in Hx as [Hw _]. split; [|done]. intros ->. apply Hv, H1. by left.
    + intros [Hne Hw]. destruct (decide (x ∈ visited)) as [Hx|Hx]; [left; split; [done|]; apply H1 in Hx as [?|?]; done|]. right. right.
      apply Hnew. split; [done|]. intros k Hk. destruct (decide (S n <= k)%nat) as [|Hlt]; [done|]. exfalso. apply Hx, H1. right. exists k. split; [lia|done].
  - apply NoDup_app. split_and!; [done| |done]. intros x Hx Hy. apply V2 in Hy as [Hy|[_ Hy]]; [by apply elem_of_nil in Hy|].
    apply Hy, H1. apply H3 in Hx as [_ ?]. by right.
Qed.

Lemma levels_spec fuel id depth : known g id -> forall n visited frontier out, searched id n visited frontier out ->
  (depth <= 0 \/ Z.of_nat n <= depth) -> (size (gr_byID g) < fuel + length out)%nat \/ frontier = [] ->
  exists out', levels fuel g depth (Z.of_nat n) visited frontier out = Some out' /\ NoDup out' /\
    forall x, x ∈ out' <-> x <> id /\ exists k, (depth <= 0 \/ Z.of_nat k <= depth) /\ up g k x = Some id.
Proof.
  intros Hid.
  assert (forall n visited out, searched id n visited [] out -> forall x, x <> id -> forall k, up g k x = Some id -> x ∈ out) as Hend.
  { intros n visited out HS x Hne k Hk. apply (se_out _ _ _ _ _ HS). split; [done|]. revert x Hne Hk.
    induction k as [k IHk] using lt_wf_ind. intros x Hne Hk. destruct (decide (k <= n)%nat) as [|Hlt]; [by exists k|].
    assert (exists y m, up g m x = Some y /\ up g n y = Some id /\ (m + n = k)%nat) as (y & m & Hm & Hy & Em).
    { destruct (up_before k (k - n) x id Hk ltac:(lia)) as (y & H1 & H2). exists y, (k - n)%nat. split; [done|]. split; [|lia].
      replace (k - (k - n))%nat with n in H2 by lia. done. }
    assert (y ∉ ([] : list string)) as Hnin by apply not_elem_of_nil. rewrite (se_frontier _ _ _ _ _ HS) in Hnin.
    destruct (existsb (fun j => bool_decide (up g j y = Some id)) (seq 0 n)) eqn:Hex.
    - apply existsb_exists in Hex as (j & Hj%in_seq & Hup%bool_decide_eq_true). apply (IHk (m + j)%nat); [lia|done|]. by rewrite up_add, Hm.
    - exfalso. apply Hnin. split; [exists n; split; [lia|done]|]. intros j Hj. destruct (decide (n <= j)%nat) as [|Hlt']; [done|].
      apply not_true_iff_false in Hex. exfalso. apply Hex. apply existsb_exists. exists j. split; [apply in_seq; lia|by apply bool_decide_eq_true_2]. }
  induction fuel as [|fuel IH]; intros n visited frontier out HS Hdepth Hfuel.
  - destruct Hfuel as [Hfuel|Hfuel].
    + assert (length out <= size (gr_byID g))%nat; [|lia]. apply (known_length g); [apply HS|]. apply Forall_forall.
      intros x Hx. apply (se_out _ _ _ _ _ HS) in Hx as [_ Hw]. by eapply within_known.
    + subst frontier. exists out. split; [done|]. split; [apply HS|]. intros x. split.
      * intros Hx. apply (se_out _ _ _ _ _ HS) in Hx as [Hne (k & Hk & Hup)]. split; [done|]. exists k. split; [lia|done].
      * intros [Hne (k & _ & Hk)]. by eapply Hend.
  - destruct frontier as [|f frontier].
    + exists out. split; [done|]. split; [apply HS|]. intros x. split.
      * intros Hx. apply (se_out _ _ _ _ _ HS) in Hx as [Hne (k & Hk & Hup)]. split; [done|]. exists k. split; [lia|done].
      * intros [Hne (k & _ & Hk)]. by eapply Hend.
    + cbn [levels]. case_decide as Hd.
      * pose proof (searched_level _ _ _ _ _ HS) as HS'. cbv zeta in HS'. destruct (levelLoop _ _ _ _) as [visited' next]. simpl in HS'.
        replace (Z.of_nat n + 1) with (Z.of_nat (S n)) by lia. apply (IH (S n)); [done|lia|].
        destruct next as [|x next]; [by right|left]. rewrite length_app. simpl. destruct Hfuel as [?|?]; [lia|done].
      * exists out. split; [done|]. split; [apply HS|]. intros x. rewrite (se_out _ _ _ _ _ HS). split.
        -- intros [Hne (k & Hk & Hup)]. split; [done|]. exists k. split; [lia|done].
        -- intros [Hne (k & Hk & Hup)]. split; [done|]. exists k. split; [lia|done].
Qed.
End Traversals.

(** C29: In the graph of any profiles the chain of an id ends: it lists each superior once,
    in order, up to a root or an unknown id, or it stops with an error that names a true
    cycle of the graph, exactly when the links of the id lead into one.  And the transitive
    reports of a known id end too: they are, sorted and once each, exactly the other
    profiles whose superior at some distance, within the depth asked for, is that id. *)
Theorem org_traversals (profiles : list Profile) (id : string) (depth : Z) (Hid : id <> "") :
  let g := Build profiles in
  (exists chain err, Chain g id = Some (chain, err) /\ chain_spec g id chain err /\
     (err <> None <-> exists k x, up g k id = Some x /\ on_cycle g x)) /\
  exists out, TransitiveReports g id depth = Some out /\ StronglySorted str_le (map pr_ID out) /\ NoDup (map pr_ID out) /\
    forall p, p ∈ out <-> gr_byID g !! id <> None /\ gr_byID g !! pr_ID p = Some p /\ pr_ID p <> id /\
      exists k, (depth <= 0 \/ Z.of_nat k <= depth) /\ up g k (pr_ID p) = Some id.
Proof.
  cbv zeta. pose proof (Build_is_built profiles) as Hb. set (g := Build profiles) in *. clearbody g. split.
  - destruct (Chain_spec g Hb id Hid) as (chain & err & H1 & H2). exists chain, err. split; [done|]. split; [done|]. by eapply chain_error_iff.
  - unfold TransitiveReports. destruct (gr_byID g !! id) as [q|] eqn:Hq.
    2: { exists []. split; [done|]. split; [constructor|]. split; [constructor|]. intros p. rewrite elem_of_nil. split; [done|]. by intros [? _]. }
    destruct (levels_spec g Hb (fuelOf g) id depth ltac:(by exists q) 0 {[id]} [id] []) as (out & Ho & Hnd & Hin).
    { split; [| | |constructor].
      - intros x. rewrite elem_of_singleton. split; [by left|]. intros [?|(k & Hk & Hup)]; [done|]. destruct k; [|lia]. by injection Hup.
      - intros x. rewrite list_elem_of_singleton. split; [intros ->; split; [by exists O|lia]|]. intros [(k & Hk & Hup) _]. destruct k; [|lia]. by injection Hup.
      - intros x. rewrite elem_of_nil. split; [done|]. intros [Hne (k & Hk & Hup)]. destruct k; [|lia]. by injection Hup. }
    { lia. }
    { left. unfold fuelOf. simpl. lia. }
    change (Z.of_nat 0) with 0 in Ho. rewrite Ho. eexists. split; [reflexivity|].
    assert (forall l, (forall x, x ∈ l -> known g x) -> map pr_ID (profilesOf g l) = l) as Hmap.
    { induction l as [|x l IH]; intros Hl; [done|]. destruct (Hl x ltac:(by left)) as [p Hp]. unfold profilesOf. simpl. rewrite Hp. simpl.
      rewrite (bu_id g Hb _ _ Hp). f_equal. apply IH. intros y Hy. apply Hl. by right. }
    assert (forall x, x ∈ merge_sort str_le out <-> x ∈ out) as Hms by (intros x; by rewrite merge_sort_Permutation).
    assert (forall x, x ∈ merge_sort str_le out -> known g x) as Hkn.
    { intros x Hx. apply Hms, Hin in Hx as [Hne (k & _ & Hup)]. apply (within_known g id k x); [by exists q|]. by exists k. }
    rewrite (Hmap _ Hkn). split; [apply StronglySorted_merge_sort; apply _|]. split; [by rewrite merge_sort_Permutation|].
    intros p. unfold profilesOf. rewrite list_elem_of_omap. split.
    + intros (x & Hx & Hp). pose proof (bu_id g Hb _ _ Hp) as Hpx. apply Hms, Hin in Hx. by rewrite Hpx.
    + intros (_ & Hp & Hr). exists (pr_ID p). split; [|done]. by apply Hms, Hin.
Qed.

(** ** Witness *)

Definition member (id boss : string) : Profile :=
  let p := blank_profile id in
  mkProfile id id "" "" boss "" "" "" (pr_Persona p) [] ∅ (pr_Preferences p) (pr_Limits p) (pr_Git p) (pr_SSH p) (pr_Webhooks p)
    (pr_Isolation p) None None None None None None None None None None [] None [] None.

Lemma org_traversals_witness :
  let g := Build [member "ana" "bo"; member "bo" "cy"; member "cy" "bo"; member "di" "ana"] in
  (exists chain, Chain g "di" = Some (chain, Some (mkCycleError ["bo"; "cy"])) /\ map pr_ID chain = ["di"; "ana"; "bo"; "cy"]) /\
  exists out, TransitiveReports g "bo" 1 = Some out /\ map pr_ID out = ["ana"; "cy"] /\ NoDup (map pr_ID out).
Proof.
  intros g. destruct (org_traversals [member "ana" "bo"; member "bo" "cy"; member "cy" "bo"; member "di" "ana"] "di" 0 ltac:(discriminate))
    as [(chain & err & Hc & _) _].
  destruct (org_traversals [member "ana" "bo"; member "bo" "cy"; member "cy" "bo"; member "di" "ana"] "bo" 1 ltac:(discriminate))
    as [_ (out & Ho & _ & Hnd & _)].
  split; [eexists; split; [vm_compute; reflexivity|vm_compute; reflexivity]|].
  exists out. split; [exact Ho|]. split; [|exact Hnd]. vm_compute in Ho. injection Ho as <-. vm_compute. reflexivity.
Defined.
