(* ===== verification/Secrets.v ===== *)
(** * Configuration and secrets of profiles

    src/internal/core: the global configuration (config.go) and the secret stores of
    profiles (secrets.go, secrets_optional.go).  The files are those of GoFS; the parser of
    env files (godotenv), the configuration loader and the secret backends of kit are
    third-party code. *)

From Stdlib Require Import ZArith Lia String Ascii.
From stdpp Require Import base option list gmap strings.
From S2P Require Import Prelude Text AcpFiles GoFS ProfileData Profile.

#[local] Open Scope Z_scope.

(** ** Configuration *)

Definition AutoModeFalse : string := "false".
Definition AutoModeTrue : string := "true".
Definition AutoModeAuto : string := "auto".

(** What a YAML node of this tag and text is read as. *)
Definition AutoMode_UnmarshalYAML (tag value : string) : string :=
  if decide (tag = "!!bool") then if decide (value = "true") then AutoModeTrue else AutoModeFalse
  else if decide (tag = "!!str") then
    if decide (value = "true") then AutoModeTrue else if decide (value = "auto") then AutoModeAuto else AutoModeFalse
  else AutoModeFalse.

Definition ShouldAutoAssign (m : string) (interactive : bool) : bool :=
  if decide (m = AutoModeTrue) then true else if decide (m = AutoModeAuto) then negb interactive else false.

Record ProfileAvatarConfig : Type := mkAvatarConfig {
  av_Enabled : string; av_Provider : string; av_Style : string; av_Size : Z; av_Format : string
}.
Record ProfileDefaultsConfig : Type := mkDefaultsConfig { pd_Color : string; pd_Avatar : ProfileAvatarConfig }.
Record IdempotencyConfig : Type := mkIdempotency { ic_Backend : string; ic_Path : string; ic_TTL : string }.
Record SecretsConfig : Type := mkSecretsConfig {
  se_Backend : string; se_Service : string; se_Prefix : string; se_Addr : string; se_Token : string; se_Mount : string;
  se_Project : string; se_Env : string; se_Vault : string; se_ConnectURL : string; se_Repo : string; se_TokenEnv : string
}.
Record GlobalIsolationConfig : Type := mkGlobalIsolation { gl_DefaultLevel : string; gl_FallbackEnabled : bool }.

Record Config : Type := mkConfig {
  cf_Prefix : string;
  cf_Isolation : GlobalIsolationConfig;
  cf_CapabilitySources : list string;
  cf_Secrets : SecretsConfig;
  cf_Profile : ProfileDefaultsConfig;
  cf_Idempotency : IdempotencyConfig
}.

Definition DefaultPrefix : string := "APS".

Definition no_secrets (backend : string) : SecretsConfig := mkSecretsConfig backend "" "" "" "" "" "" "" "" "" "" "".
Definition no_defaults : ProfileDefaultsConfig := mkDefaultsConfig "" (mkAvatarConfig "" "" "" 0 "").
Definition no_idempotency : IdempotencyConfig := mkIdempotency "" "" "".

Definition SecretsBackendFile : string := "file".
Definition SecretsBackendEnv : string := "env".
Definition SecretsBackendKeyring : string := "keyring".
Definition SecretsBackendOnePassword : string := "onepassword".
Definition SecretsBackendOpenBao : string := "openbao".
Definition SecretsBackendInfisical : string := "infisical".
Definition SecretsBackendGHSecrets : string := "ghsecrets".

Definition SecretsBackends : list string :=
  [SecretsBackendFile; SecretsBackendEnv; SecretsBackendKeyring; SecretsBackendOnePassword; SecretsBackendOpenBao;
   SecretsBackendInfisical; SecretsBackendGHSecrets].

Definition initialConfig (backend : string) : Config :=
  mkConfig DefaultPrefix (mkGlobalIsolation IsolationProcess true) [] (no_secrets backend) no_defaults no_idempotency.

Definition set_SecretsBackend (s : SecretsConfig) (backend : string) : SecretsConfig :=
  mkSecretsConfig backend (se_Service s) (se_Prefix s) (se_Addr s) (se_Token s) (se_Mount s) (se_Project s) (se_Env s) (se_Vault s)
    (se_ConnectURL s) (se_Repo s) (se_TokenEnv s).

(** [kitLoad] merges the layers into the given value; [None]: they are malformed. *)
Definition LoadConfig (kitLoad : Config -> option Config) : Config :=
  match kitLoad (initialConfig "") with
  | None => initialConfig SecretsBackendFile
  | Some c =>
      let level := gl_DefaultLevel (cf_Isolation c) in
      let level := if decide (level = "") then IsolationProcess
                   else if decide (level ∈ [IsolationProcess; IsolationPlatform; IsolationContainer]) then level else IsolationProcess in
      mkConfig (if decide (cf_Prefix c = "") then DefaultPrefix else cf_Prefix c)
        (mkGlobalIsolation level (gl_FallbackEnabled (cf_Isolation c))) (cf_CapabilitySources c)
        (if decide (se_Backend (cf_Secrets c) = "") then set_SecretsBackend (cf_Secrets c) SecretsBackendFile else cf_Secrets c)
        (cf_Profile c) (cf_Idempotency c)
  end.

Inductive ConfigErr : Type := ConfigDirErr | ConfigFile (e : OsErr) | ConfigParse.

(** The files of the configuration hold decoded documents, [None] what is not YAML. *)
Section ConfigFiles.
Variable env : OsEnv (option Config).
(** [GetConfigDir()]. *)
Variable configDir : option Path.

Definition SaveConfig (fs : FS (option Config)) (c : Config) : FS (option Config) * Res ConfigErr unit :=
  match configDir with
  | None => (fs, Err ConfigDirErr)
  | Some dir =>
      match MkdirAll env fs dir with
      | (fs, Err e) => (fs, Err (ConfigFile e))
      | (fs, Ok _) =>
          match WriteFile env fs (dir ++ ["config.yaml"]) (Some c) with
          | (fs, Err e) => (fs, Err (ConfigFile e))
          | (fs, Ok _) => (fs, Ok tt)
          end
      end
  end.

Definition MigrateConfig (fs : FS (option Config)) : FS (option Config) * Res ConfigErr bool :=
  match configDir with
  | None => (fs, Err ConfigDirErr)
  | Some dir =>
      match ReadFile env fs (dir ++ ["config.yaml"]) with
      | Err e => (fs, if IsNotExist e then Ok false else Err (ConfigFile e))
      | Ok None => (fs, Err ConfigParse)
      | Ok (Some old) =>
          let new := mkConfig (if decide (cf_Prefix old = "") then DefaultPrefix else cf_Prefix old)
                       (mkGlobalIsolation IsolationProcess true) [] (no_secrets "") no_defaults no_idempotency in
          match SaveConfig fs new with
          | (fs, Err e) => (fs, Err e)
          | (fs, Ok _) => (fs, Ok true)
          end
      end
  end.
End ConfigFiles.

(** ** Opening a secret store *)

(** secret.Config of kit. *)
Record KitConfig : Type := mkKitConfig {
  kc_Backend : string; kc_Prefix : string; kc_Service : string; kc_Addr : string; kc_Token : string; kc_Mount : string;
  kc_Project : string; kc_Env : string; kc_Repo : string; kc_Vault : string; kc_ConnectURL : string
}.

Inductive SecretErr : Type :=
  | NotCompiled (backend tag : string)
  | Requires (backend field : string)
  | UnknownBackend (backend : string)
  | OpenBackend (backend : string)
  | SecretNotFound
  | SecretsFile (e : OsErr)
  | SecretsParse
  | StoreFailed (what : string).

Definition optionalBackends (backend : string) : option string := if decide (backend = SecretsBackendOpenBao) then Some "openbao" else None.

Section Backends.
(** Set by the registration file of the build tag. *)
Variable openBaoAvailable : bool.
(** [os.Getenv]. *)
Variable Getenv : string -> string.

Definition backendAvailable (backend : string) : bool := if decide (backend = SecretsBackendOpenBao) then openBaoAvailable else true.

Definition AvailableSecretsBackends : list string := filter (fun b => backendAvailable b = true) SecretsBackends.

Definition secretBackendToken (sc : SecretsConfig) : string :=
  if decide (TrimSpace (se_Token sc) = "") then
    let name := TrimSpace (se_TokenEnv sc) in if decide (name = "") then "" else Getenv name
  else se_Token sc.

Definition with_Prefix (k : KitConfig) (p : string) : KitConfig :=
  mkKitConfig (kc_Backend k) p (kc_Service k) (kc_Addr k) (kc_Token k) (kc_Mount k) (kc_Project k) (kc_Env k) (kc_Repo k) (kc_Vault k) (kc_ConnectURL k).
Definition with_Service (k : KitConfig) (s : string) : KitConfig :=
  mkKitConfig (kc_Backend k) (kc_Prefix k) s (kc_Addr k) (kc_Token k) (kc_Mount k) (kc_Project k) (kc_Env k) (kc_Repo k) (kc_Vault k) (kc_ConnectURL k).

Definition secretBackendConfig (sc : SecretsConfig) (backend profileID : string) : Res SecretErr KitConfig :=
  match optionalBackends backend, backendAvailable backend with
  | Some tag, false => Err (NotCompiled backend tag)
  | _, _ =>
      let k := mkKitConfig backend (se_Prefix sc) (se_Service sc) (se_Addr sc) (secretBackendToken sc) (se_Mount sc) (se_Project sc)
                 (se_Env sc) (se_Repo sc) (se_Vault sc) (se_ConnectURL sc) in
      if decide (backend = SecretsBackendEnv) then Ok (if decide (kc_Prefix k = "") then with_Prefix k "APS_SECRET_" else k)
      else if decide (backend = SecretsBackendKeyring) then
        Ok (if decide (kc_Service k = "") then with_Service k ("aps/" +:+ profileID) else k)
      else if decide (backend = SecretsBackendOnePassword) then
        if decide (kc_Vault k = "") then Err (Requires backend "secrets.vault") else Ok k
      else if decide (backend = SecretsBackendOpenBao) then
        if decide (kc_Addr k = "") then Err (Requires backend "secrets.addr")
        else if decide (kc_Token k = "") then Err (Requires backend "secrets.token or secrets.token_env") else Ok k
      else if decide (backend = SecretsBackendInfisical) then
        if decide (kc_Addr k = "") then Err (Requires backend "secrets.addr")
        else if decide (kc_Project k = "") then Err (Requires backend "secrets.project")
        else if decide (kc_Token k = "") then Err (Requires backend "secrets.token or secrets.token_env")
        else if decide (kc_Env k = "") then Err (Requires backend "secrets.env") else Ok k
      else if decide (backend = SecretsBackendGHSecrets) then Ok k
      else Err (UnknownBackend backend)
  end.
End Backends.

(** ** The file of a profile *)

(** A line of an env file. *)
Definition dotenvLine (kv : string * string) : list ascii := chars kv.1 ++ "="%char :: chars kv.2 ++ [newlineChar].
Definition dotenvText (o : list (string * string)) : string := unchars (concat (map dotenvLine o)).

Definition keyStart (c : ascii) : bool := let n := N_of_ascii c in bool_decide (65 <= n <= 90)%N.
Definition plainChar (c : ascii) : bool :=
  let n := N_of_ascii c in
  bool_decide (48 <= n <= 57)%N || bool_decide (65 <= n <= 90)%N || bool_decide (97 <= n <= 122)%N || bool_decide (c ∈ ["_"; "-"; "."; "/"]%char).

Definition plainKey (k : string) : bool :=
  match chars k with [] => false | c :: l => keyStart c && forallb (fun c => keyStart c || bool_decide (c = "_"%char)) l end.
Definition plainValue (v : string) : bool := forallb plainChar (chars v).

Definition plainEntry (kv : string * string) : Prop := plainKey kv.1 = true /\ plainValue kv.2 = true.

(** godotenv: lines of plain keys and values, each key once, are read as they are. *)
Class Dotenv : Type := {
  dotenvParse : string -> option (gmap string string);
  dotenvParse_lines o : NoDup o.*1 -> Forall plainEntry o -> dotenvParse (dotenvText o) = Some (list_to_map o)
}.

(** The ways a store of kit answers. *)
Record Store : Type := mkStore { st_List : Res SecretErr (list string); st_Get : string -> Res SecretErr string }.

Fixpoint drainLoop (s : Store) (keys : list string) (out : gmap string string) : Res SecretErr (gmap string string) :=
  match keys with
  | [] => Ok out
  | k :: keys => match st_Get s k with Err e => Err e | Ok v => drainLoop s keys (<[k := v]> out) end
  end.

Definition drainStore (s : Store) : Res SecretErr (gmap string string) :=
  match st_List s with Err e => Err e | Ok keys => drainLoop s keys ∅ end.

Section DotenvStore.
Context `{D : Dotenv}.
Variable env : OsEnv Content.
(** The order of a range over a map. *)
Variable order : gmap string string -> list (string * string).

(** [None]: the nil map of a file that does not exist. *)
Definition LoadSecrets (fs : FS Content) (path : Path) : Res SecretErr (option (gmap string string)) :=
  match Stat env fs path with
  | Err e => if IsNotExist e then Ok None else Err (SecretsFile e)
  | Ok _ =>
      match ReadFile env fs path with
      | Err e => Err (SecretsFile e)
      | Ok (CText text) => match dotenvParse text with Some m => Ok (Some m) | None => Err SecretsParse end
      | Ok _ => Err SecretsParse
      end
  end.

Definition dotenv_read (fs : FS Content) (path : Path) : Res SecretErr (gmap string string) :=
  match LoadSecrets fs path with Err e => Err e | Ok m => Ok (default ∅ m) end.

Definition dotenv_write (fs : FS Content) (path : Path) (m : gmap string string) : FS Content * Res SecretErr unit :=
  match MkdirAll env fs (removelast path) with
  | (fs, Err e) => (fs, Err (SecretsFile e))
  | (fs, Ok _) =>
      match WriteFile env fs path (CText (dotenvText (order m))) with
      | (fs, Err e) => (fs, Err (SecretsFile e))
      | (fs, Ok _) => (fs, Ok tt)
      end
  end.

Definition dotenv_Get (fs : FS Content) (path : Path) (key : string) : Res SecretErr string :=
  match dotenv_read fs path with
  | Err e => Err e
  | Ok m => match m !! key with Some v => Ok v | None => Err SecretNotFound end
  end.

Definition dotenv_List (fs : FS Content) (path : Path) (prefix : string) : Res SecretErr (list string) :=
  match dotenv_read fs path with
  | Err e => Err e
  | Ok m => Ok (filter (fun k => prefix = "" \/ HasPrefix k prefix = true) (order m).*1)
  end.

Definition dotenv_Exists (fs : FS Content) (path : Path) (key : string) : Res SecretErr bool :=
  match dotenv_read fs path with Err e => Err e | Ok m => Ok (bool_decide (is_Some (m !! key))) end.

Definition dotenv_Set (fs : FS Content) (path : Path) (key value : string) : FS Content * Res SecretErr unit :=
  match dotenv_read fs path with Err e => (fs, Err e) | Ok m => dotenv_write fs path (<[key := value]> m) end.

Definition dotenv_Delete (fs : FS Content) (path : Path) (key : string) : FS Content * Res SecretErr unit :=
  match dotenv_read fs path with
  | Err e => (fs, Err e)
  | Ok m => match m !! key with None => (fs, Err SecretNotFound) | Some _ => dotenv_write fs path (delete key m) end
  end.

(** [data] is [GetDataDir()]; [kitOpen] is secret.Open. *)
Variable data : Path.
Variable openBaoAvailable : bool.
Variable Getenv : string -> string.
Variable kitOpen : KitConfig -> option Store.

Definition secretsPath (profileID : string) : Path := GoFS.Join (GetProfileDir data profileID) "secrets.env".

Definition openProfileStore (fs : FS Content) (cfg : Config) (profileID : string) : Res SecretErr Store :=
  let backend := if decide (se_Backend (cf_Secrets cfg) = "") then SecretsBackendFile else se_Backend (cf_Secrets cfg) in
  if decide (backend = SecretsBackendFile) then
    let path := secretsPath profileID in Ok (mkStore (dotenv_List fs path "") (dotenv_Get fs path))
  else match secretBackendConfig openBaoAvailable Getenv (cf_Secrets cfg) backend profileID with
       | Err e => Err e
       | Ok k => match kitOpen k with Some s => Ok s | None => Err (OpenBackend backend) end
       end.

Definition LoadProfileSecrets (fs : FS Content) (cfg : Config) (profileID : string) : Res SecretErr (gmap string string) :=
  let backend := if decide (se_Backend (cf_Secrets cfg) = "") then SecretsBackendFile else se_Backend (cf_Secrets cfg) in
  if decide (backend = SecretsBackendFile) then dotenv_read fs (secretsPath profileID)
  else match openProfileStore fs cfg profileID with Err e => Err e | Ok s => drainStore s end.
End DotenvStore.

(** The smallest reader of env files: one entry per line, split at the first "=". *)
Definition readLine (l : list ascii) : option (string * string) :=
  match cutAt "="%char l with (k, Some v) => Some (unchars k, unchars v) | (_, None) => None end.
Definition readDotenv (text : string) : option (gmap string string) := Some (list_to_map (omap readLine (splitOn newlineChar (chars text)))).

Lemma forallb_free (f : ascii -> bool) l c : forallb f l = true -> f c = false -> c ∉ l.
Proof. rewrite forallb_forall. intros H Hc Hin%list_elem_of_In. rewrite H in Hc; done. Qed.

Lemma plainKey_free k c : plainKey k = true -> keyStart c || bool_decide (c = "_"%char) = false -> c ∉ chars k.
Proof.
  unfold plainKey. intros H Hc. destruct (chars k) as [|x l]; [done|]. apply andb_true_iff in H as [H1 H2].
  apply not_elem_of_cons. split; [|by eapply forallb_free]. intros ->. by rewrite H1 in Hc.
Qed.

Lemma readDotenv_lines o : NoDup o.*1 -> Forall plainEntry o -> readDotenv (dotenvText o) = Some (list_to_map o).
Proof.
  intros _ Ho. unfold readDotenv, dotenvText. rewrite chars_unchars. do 2 f_equal. induction Ho as [|[k v] o [Hk Hv] _ IH]; simpl; [done|].
  simpl in Hk, Hv. unfold dotenvLine at 1. simpl fst. simpl snd.
  replace ((chars k ++ "="%char :: chars v ++ [newlineChar]) ++ concat (map dotenvLine o))
    with ((chars k ++ "="%char :: chars v) ++ newlineChar :: concat (map dotenvLine o)) by (rewrite <- !app_assoc; simpl; by rewrite <- !app_assoc).
  rewrite splitOn_app; simpl.
  - unfold readLine at 1. rewrite (proj2 (cutAt_spec "="%char _ (chars k) (chars v))); [|split; [done|by eapply plainKey_free]].
    rewrite !unchars_chars. f_equal. exact IH.
  - intros [Hin|[?|Hin]%elem_of_cons]%elem_of_app; [by eapply plainKey_free in Hin|done|]. by eapply forallb_free in Hin.
Qed.

#[local] Instance readDotenv_Dotenv : Dotenv := {| dotenvParse := readDotenv; dotenvParse_lines := readDotenv_lines |}.

(** ** The store of the file backend is a map *)

(** ** The store of the file backend is a map *)

Inductive SecretOp : Type := SetSecret (key value : string) | DeleteSecret (key : string).

Definition plainOp (op : SecretOp) : Prop := match op with SetSecret k v => plainEntry (k, v) | DeleteSecret _ => True end.

Definition applySecret (op : SecretOp) (m : gmap string string) : gmap string string :=
  match op with SetSecret k v => <[k := v]> m | DeleteSecret k => delete k m end.

(** The same writes with a map beside them that follows those that succeed. *)
Fixpoint runSecrets `{D : Dotenv} (env : OsEnv Content) (order : gmap string string -> list (string * string)) (path : Path) (fs : FS Content) (m : gmap string string) (ops : list SecretOp) :
    FS Content * gmap string string :=
  match ops with
  | [] => (fs, m)
  | op :: ops =>
      let '(fs', r) := match op with
                       | SetSecret k v => dotenv_Set env order fs path k v
                       | DeleteSecret k => dotenv_Delete env order fs path k
                       end in
      runSecrets env order path fs' (if is_ok r then applySecret op m else m) ops
  end.

Definition plainMap (m : gmap string string) : Prop := map_Forall (fun k v => plainEntry (k, v)) m.

(** Two trees that only differ in new directories at proper ancestors of a path. *)
Definition dirs_added (path : Path) (fs fs' : FS Content) : Prop :=
  forall q, fs' !! q = fs !! q \/ (q <> path /\ fs !! q = None /\ fs' !! q = Some NDir).

Lemma MkdirAll_parent (env : OsEnv Content) (fs : FS Content) path fs' r : path <> [] -> MkdirAll env fs (removelast path) = (fs', r) -> dirs_added path fs fs'.
Proof.
  intros Hne [H _]%MkdirAll_spec q. destruct (H q) as [?|(_ & Hp & ? & ?)]; [by left|right]. split; [|done].
  intros ->. apply prefix_length in Hp. destruct path as [|x l _] using rev_ind; [done|]. rewrite removelast_last, length_app in Hp. simpl in Hp. lia.
Qed.

Lemma LoadSecrets_dirs `{D : Dotenv} (env : OsEnv Content) (fs fs' : FS Content) path : dirs_added path fs fs' -> LoadSecrets env fs' path = LoadSecrets env fs path.
Proof.
  intros H. destruct (H path) as [E|[? _]]; [|done].
  assert (missingErr fs' path = missingErr fs path) as Em.
  { unfold missingErr. replace (existsb (isFile fs') (ancestors path)) with (existsb (isFile fs) (ancestors path)); [done|].
    induction (ancestors path) as [|q l IH]; [done|]. simpl. rewrite IH. f_equal. unfold isFile.
    destruct (H q) as [->|(_ & -> & ->)]; done. }
  unfold LoadSecrets, Stat, ReadFile, isDir. by rewrite E, Em.
Qed.

Lemma LoadSecrets_written `{D : Dotenv} (env : OsEnv Content) (order : gmap string string -> list (string * string)) (fs : FS Content) path m :
  ranges (order m) m -> plainMap m -> oe_denied env path = false -> path <> [] ->
  LoadSecrets env (<[path := NFile (CText (dotenvText (order m)))]> fs) path = Ok (Some m).
Proof.
  intros Ho Hm Hd Hp. unfold LoadSecrets, Stat, ReadFile, isDir. rewrite Hd, lookup_insert_eq. destruct path as [|x l]; [done|].
  assert (NoDup (order m).*1) as Hn by (unfold ranges in Ho; rewrite Ho; apply NoDup_fst_map_to_list).
  rewrite dotenvParse_lines; [|done|].
  - do 2 f_equal. etrans; [by apply list_to_map_proper|apply list_to_map_to_list].
  - apply Forall_forall. intros [k v] Hin. apply (ranges_elem _ _ _ _ Ho) in Hin. by apply (Hm k v).
Qed.

Lemma dotenv_write_spec `{D : Dotenv} (env : OsEnv Content) (order : gmap string string -> list (string * string)) (fs : FS Content) path m m0 fs' r :
  (forall m, ranges (order m) m) -> path <> [] -> oe_partial env path = None -> plainMap m ->
  dotenv_read env fs path = Ok m0 -> dotenv_write env order fs path m = (fs', r) ->
  dotenv_read env fs' path = Ok (if is_ok r then m else m0) /\
  forall q, fs' !! q = fs !! q \/ q = path \/ (fs !! q = None /\ fs' !! q = Some NDir).
Proof.
  intros Ho Hne Hpart Hm Hr. unfold dotenv_write. destruct (MkdirAll env fs _) as [fs1 r1] eqn:Ek.
  apply MkdirAll_parent in Ek; [|done]. pose proof (LoadSecrets_dirs env fs fs1 path Ek) as El.
  assert (dotenv_read env fs1 path = Ok m0) as Hr1 by (unfold dotenv_read in *; by rewrite El).
  assert (forall q, fs1 !! q = fs !! q \/ q = path \/ (fs !! q = None /\ fs1 !! q = Some NDir)) as Hq.
  { intros q. destruct (Ek q) as [?|(_ & ? & ?)]; [by left|by right; right]. }
  destruct r1 as [[]|e]; [|intros [= <- <-]; by split].
  destruct (WriteFile env fs1 path _) as [fs2 r2] eqn:Ew. destruct r2 as [[]|e]; intros [= <- <-]; [|].
  - apply WriteFile_Ok in Ew as (-> & Hd & _). split.
    + unfold dotenv_read. by rewrite LoadSecrets_written.
    + intros q. destruct (decide (q = path)) as [->|Hqp]; [by right; left|]. rewrite lookup_insert_ne by done. apply Hq.
  - unfold WriteFile in Ew. rewrite Hpart in Ew. split; [|intros q]; repeat case_match; simplify_eq; auto.
Qed.

Lemma runSecrets_spec `{D : Dotenv} (env : OsEnv Content) (order : gmap string string -> list (string * string)) (path : Path) ops :
  forall (fs : FS Content) m, (forall m, ranges (order m) m) -> path <> [] -> oe_partial env path = None -> plainMap m -> Forall plainOp ops ->
  dotenv_read env fs path = Ok m ->
  let '(fs', m') := runSecrets env order path fs m ops in
  dotenv_read env fs' path = Ok m' /\ plainMap m' /\
  forall q, fs' !! q = fs !! q \/ q = path \/ (fs !! q = None /\ fs' !! q = Some NDir).
Proof.
  induction ops as [|op ops IH]; intros fs m Ho Hne Hp Hm Hops Hr; simpl; [by auto|].
  apply Forall_cons in Hops as [Hop Hops].
  assert (plainMap (applySecret op m)) as Hm'.
  { destruct op; simpl; [by apply map_Forall_insert_2|by apply map_Forall_delete]. }
  set (res := match op with SetSecret k v => _ | _ => _ end). destruct res as [fs' r] eqn:E. subst res.
  assert (dotenv_read env fs' path = Ok (if is_ok r then applySecret op m else m) /\
    forall q, fs' !! q = fs !! q \/ q = path \/ (fs !! q = None /\ fs' !! q = Some NDir)) as [H1 H2].
  { destruct op as [k v|k]; simpl in E; unfold dotenv_Set, dotenv_Delete in E; rewrite Hr in E.
    - by eapply dotenv_write_spec.
    - destruct (m !! k); [by eapply dotenv_write_spec|]. injection E as <- <-. split; [done|]. by left. }
  specialize (IH fs' (if is_ok r then applySecret op m else m) Ho Hne Hp). destruct (is_ok r);
  (destruct (runSecrets _ _ _ _ _ _) as [fs2 m2]; destruct IH as (I1 & I2 & I3); [done..|]; split; [done|]; split; [done|];
   intros q; destruct (I3 q) as [->|[?|[E2 ?]]]; [apply H2|by auto|destruct (H2 q) as [<-|[?|[? E3]]]; [by auto..|congruence]]).
Qed.


(** A value with a line break is not plain: the next read finds a second secret in it. *)
Example value_with_newline : forall (fs : FS Content), fs = {[ ["p"] := NDir ]} ->
  let v := unchars (chars "x" ++ newlineChar :: chars "TOKEN=mine") in
  let '(fs', r) := dotenv_Set calm map_to_list fs ["p"; "secrets.env"] "NAME" v in
  r = Ok tt /\ dotenv_Get calm fs' ["p"; "secrets.env"] "NAME" = Ok "x" /\ dotenv_Get calm fs' ["p"; "secrets.env"] "TOKEN" = Ok "mine".
Proof. intros fs ->. vm_compute. done. Qed.

(** ** Configuration *)

(** What every loaded configuration is. *)
Lemma LoadConfig_valid kitLoad : let c := LoadConfig kitLoad in
  cf_Prefix c <> "" /\ gl_DefaultLevel (cf_Isolation c) ∈ [IsolationProcess; IsolationPlatform; IsolationContainer] /\ se_Backend (cf_Secrets c) <> "".
Proof.
  unfold LoadConfig. destruct (kitLoad _) as [c|]; simpl; [|split; [done|split; [by left|done]]].
  split; [by case_decide|]. split; [repeat case_decide; [by left|done|by left]|]. by case_decide.
Qed.

(** A migration keeps the prefix and nothing else of the file it updates. *)
Theorem migration_keeps_prefix_only (env : OsEnv (option Config)) (dir : Path) (fs fs' : FS (option Config)) (old : Config) :
  ReadFile env fs (dir ++ ["config.yaml"]) = Ok (Some old) -> MigrateConfig env (Some dir) fs = (fs', Ok true) ->
  fs' !! (dir ++ ["config.yaml"]) =
    Some (NFile (Some (mkConfig (if decide (cf_Prefix old = "") then DefaultPrefix else cf_Prefix old) (mkGlobalIsolation IsolationProcess true) []
                         (no_secrets "") no_defaults no_idempotency))).
Proof.
  intros Hr. unfold MigrateConfig, SaveConfig. rewrite Hr. destruct (MkdirAll env fs dir) as [fs1 [[]|e]]; [|done].
  destruct (WriteFile _ _ _ _) as [fs2 [[]|e]] eqn:E; [|done]. intros [= <-]. apply WriteFile_Ok in E as [-> _]. apply lookup_insert_eq.
Qed.

(** ** Opening a backend *)

(** What a backend needs of the configuration, as its fields are documented. *)
Definition backend_needs (Getenv : string -> string) (sc : SecretsConfig) (backend : string) : Prop :=
  backend = SecretsBackendEnv \/ backend = SecretsBackendKeyring \/ backend = SecretsBackendGHSecrets \/
  (backend = SecretsBackendOnePassword /\ se_Vault sc <> "") \/
  (backend = SecretsBackendOpenBao /\ se_Addr sc <> "" /\ secretBackendToken Getenv sc <> "") \/
  (backend = SecretsBackendInfisical /\ se_Addr sc <> "" /\ se_Project sc <> "" /\ secretBackendToken Getenv sc <> "" /\ se_Env sc <> "").

(** A backend of kit opens its configuration exactly when it is compiled in and its fields
    are there; keyring and env then have their defaults. *)
Theorem backend_config_iff (avail : bool) (Getenv : string -> string) (sc : SecretsConfig) (backend profileID : string) :
  is_ok (secretBackendConfig avail Getenv sc backend profileID) = true <->
  (backend = SecretsBackendOpenBao -> avail = true) /\ backend_needs Getenv sc backend.
Proof.
  unfold secretBackendConfig, backend_needs, optionalBackends, backendAvailable, SecretsBackendEnv, SecretsBackendKeyring,
    SecretsBackendGHSecrets, SecretsBackendOnePassword, SecretsBackendOpenBao, SecretsBackendInfisical.
  destruct (decide (backend = "openbao")) as [->|Hb].
  - destruct avail; simpl; [|intuition congruence]. repeat case_decide; simpl; intuition congruence.
  - repeat case_decide; simpl; subst; intuition congruence.
Qed.

(** *** A concrete store *)

Definition sample_ops : list SecretOp := [SetSecret "TOKEN" "abc"; SetSecret "HOST" "db.local"; SetSecret "TOKEN" "def"; DeleteSecret "HOST"; DeleteSecret "NONE"].

