(* ===== verification/Execution.v ===== *)
(** * Running commands and actions of a profile

    src/internal/core/execution.go: the environment that a profile injects, its bundles, the
    removal of duplicates, and the two ways to run a process.  A started process is a value
    [Spawn]; how it ends is an argument. *)

From Stdlib Require Import ZArith Lia String Ascii.
From stdpp Require Import base option list gmap strings.
From S2P Require Import Prelude Text AcpFiles Bundle GoFS ProfileData Profile Secrets.

(** ** Environments *)

Definition kv (k v : string) : string := k +:+ "=" +:+ v.

(** [envKey]: the text before the first "=", when there is one and it is not the first byte. *)
Definition envKey (e : string) : option string :=
  match cutAt "="%char (chars e) with
  | (c :: k, Some _) => Some (unchars (c :: k))
  | _ => None
  end.

Fixpoint lastIndexes (i : nat) (env : list string) (m : gmap string nat) : gmap string nat :=
  match env with
  | [] => m
  | e :: env => lastIndexes (S i) env (match envKey e with Some k => <[k := i]> m | None => m end)
  end.

Fixpoint keepLast (lastIdx : gmap string nat) (i : nat) (env : list string) : list string :=
  match env with
  | [] => []
  | e :: env =>
      let rest := keepLast lastIdx (S i) env in
      match envKey e with
      | None => e :: rest
      | Some k => if decide (lastIdx !! k = Some i) then e :: rest else rest
      end
  end.

Definition dedupEnvLastWins (env : list string) : list string := keepLast (lastIndexes 0 env ∅) 0 env.

(** ** Processes *)

(** [sp_Stdin] is the payload that is piped in, [None] the standard input of the caller. *)
Record Spawn : Type := mkSpawn { sp_Binary : string; sp_Args : list string; sp_Env : list string; sp_Stdin : option string }.

Inductive ExecErr : Type :=
  | LoadErr (e : ProfErr)
  | HumanProfile (message : string)
  | EnvSecrets (e : SecretErr)
  | EnvBundles (e : BundleErr)
  | NotImplemented (level : string)
  | UnsupportedLevel (level : string)
  | StdinPipeErr (message : string)
  | RunFailed (message : string).


(** filepath.Join of a root that is not empty and a name. *)
Definition joinText (root name : string) : string := if decide (name = "") then Clean root else Clean (root +:+ "/" +:+ name).

Definition builtinCaps : list string := ["a2a"; "agent-protocol"; "webhooks"].

Definition dashToUnderscore (s : string) : string := unchars (map (fun c => if decide (c = "-"%char) then "_"%char else c) (chars s)).

Definition actionBinaryArgs (a : Action) : string * list string :=
  let path := pathText (at_Path a) in
  if decide (at_Type a = "sh") then ("sh", [path])
  else if decide (at_Type a = "py") then ("python3", [path])
  else if decide (at_Type a = "js") then ("node", [path])
  else (path, []).

Section Execution.
Context `{D : Dotenv}.
Variable env : OsEnv Content.
Variable order : gmap string string -> list (string * string).
(** [GetDataDir()], the working directory and [os.Environ()]. *)
Variables (data cwd : Path) (Environ : list string).
Variable cfg : Config.
(** exec.LookPath, os.Getenv, os.UserConfigDir and what bundle.NewRegistry returns. *)
Variables (found : string -> bool) (getenv : string -> string) (userConfigDir : string).
Variable bundles : Res BundleErr BundleRegistry.

Definition textPath (s : string) : Path := GoFS.Join (if IsAbs s then [] else cwd) s.

Definition isDirectory (fs : FS Content) (s : string) : bool := match Stat env fs (textPath s) with Ok d => d | Err _ => false end.

(** The context a profile gives to its bundles. *)
Definition bundleContext (p : Profile) : ProfileContext :=
  let profileDir := pathText (GetProfileDir data (pr_ID p)) in
  mkProfileContext (pr_ID p) (pr_DisplayName p) (pr_Email p) (if decide (userConfigDir = "") then profileDir else userConfigDir) profileDir ""
    match pr_Scope p with
    | Some s => mkBundleScope (so_Operations s) (so_FilePatterns s) (so_Networks s)
    | None => mkBundleScope [] [] []
    end.

Definition profileBundles (p : Profile) : Res BundleErr (list ResolvedBundle) :=
  ResolveBundlesForProfile found getenv bundles (bundleContext p) (pr_Capabilities p).

Definition apsEnv (p : Profile) : gmap string string :=
  let dir := GetProfileDir data (pr_ID p) in
  let name s := cf_Prefix cfg +:+ s in
  let base : gmap string string := <[name "_PROFILE_ID" := pr_ID p]> (<[name "_PROFILE_DIR" := pathText dir]>
    (<[name "_PROFILE_YAML" := pathText (GetProfilePath data (pr_ID p))]>
    (<[name "_PROFILE_SECRETS" := pathText (GoFS.Join dir "secrets.env")]>
    {[ name "_PROFILE_DOCS_DIR" := pathText (GoFS.Join data "docs") ]}))) in
  match pr_Knowledge p with
  | Some k => if decide (kn_Subscriptions k = "") then base else <[name "_KNOWLEDGE_SUBSCRIPTIONS" := kn_Subscriptions k]> base
  | None => base
  end.

Definition entries (m : gmap string string) : list string := map (fun e => kv e.1 e.2) (order m).

Definition gitEnv (fs : FS Content) (p : Profile) : list string :=
  let path := GoFS.Join (GetProfileDir data (pr_ID p)) "gitconfig" in
  if gi_Enabled (pr_Git p) && is_ok (Stat env fs path) then [kv "GIT_CONFIG_GLOBAL" (pathText path)] else [].

Definition sshEnv (fs : FS Content) (p : Profile) : list string :=
  let path := GoFS.Join (GetProfileDir data (pr_ID p)) "ssh.key" in
  if sh_Enabled (pr_SSH p) && negb (bool_decide (sh_KeyPath (pr_SSH p) = "")) && is_ok (Stat env fs path)
  then [kv "GIT_SSH_COMMAND" ("ssh -i " +:+ pathText path +:+ " -F /dev/null")] else [].

Definition capRoots : list string :=
  pathText (GoFS.Join data "capabilities") :: filter (fun src => src <> "") (cf_CapabilitySources cfg).

Definition capabilityEntry (fs : FS Content) (capName : string) : list string :=
  if decide (capName ∈ builtinCaps) then []
  else match list_find (fun root => isDirectory fs (joinText root capName) = true) capRoots with
       | Some (_, root) => [kv ("APS_" +:+ ToUpper (dashToUnderscore capName) +:+ "_PATH") (joinText root capName)]
       | None => []
       end.

Definition capabilityEnv (fs : FS Content) (p : Profile) : list string := flat_map (capabilityEntry fs) (pr_Capabilities p).

Definition bundleEnv (resolved : list ResolvedBundle) : list string := flat_map (fun rb => entries (rb_Env rb)) resolved.

Definition buildEnvVars (fs : FS Content) (p : Profile) : Res ExecErr (list string) :=
  match LoadSecrets env fs (GoFS.Join (GetProfileDir data (pr_ID p)) "secrets.env") with
  | Err e => Err (EnvSecrets e)
  | Ok secrets =>
      match profileBundles p with
      | Err e => Err (EnvBundles e)
      | Ok resolved =>
          Ok (Environ ++ entries (apsEnv p) ++ entries (default ∅ secrets) ++ gitEnv fs p ++ sshEnv fs p ++ capabilityEnv fs p
              ++ bundleEnv resolved)
      end
  end.

(** [run] is how a process ends: [None] is success. *)
Variable run : Spawn -> option string.

Definition ran (s : Spawn) : Res ExecErr unit * list Spawn :=
  (match run s with None => Ok tt | Some message => Err (RunFailed message) end, [s]).

Definition runCommandWithProcessIsolation (fs : FS Content) (p : Profile) (command : string) (args overrides : list string) :
    Res ExecErr unit * list Spawn :=
  match buildEnvVars fs p with
  | Err e => (Err e, [])
  | Ok vars => ran (mkSpawn command args (dedupEnvLastWins (vars ++ overrides)) None)
  end.

Definition byIsolation (p : Profile) (process : Res ExecErr unit * list Spawn) : Res ExecErr unit * list Spawn :=
  let level := if decide (is_Level (pr_Isolation p) = "") then IsolationProcess else is_Level (pr_Isolation p) in
  if decide (level = IsolationProcess) then process
  else if decide (level = IsolationPlatform \/ level = IsolationContainer) then (Err (NotImplemented level), [])
  else (Err (UnsupportedLevel level), []).

Definition RunCommand (fs : FS Content) (profileID command : string) (args overrides : list string) : Res ExecErr unit * list Spawn :=
  match LoadProfile env data fs profileID with
  | Err e => (Err (LoadErr e), [])
  | Ok p =>
      match EnsureRunnable p with
      | Some message => (Err (HumanProfile message), [])
      | None => byIsolation p (runCommandWithProcessIsolation fs p command args overrides)
      end
  end.

(** [pipe]: why the pipe for the payload cannot be opened. *)
Definition runActionWithProcessIsolation (pipe : option string) (fs : FS Content) (p : Profile) (a : Action) (payload : string) :
    Res ExecErr unit * list Spawn :=
  match buildEnvVars fs p with
  | Err e => (Err e, [])
  | Ok vars =>
      let '(binary, argv) := actionBinaryArgs a in
      if decide (payload = "") then ran (mkSpawn binary argv vars None)
      else match pipe with
           | Some message => (Err (StdinPipeErr message), [])
           | None => ran (mkSpawn binary argv vars (Some payload))
           end
  end.

Definition RunAction (pipe : option string) (fs : FS Content) (profileID actionID payload : string) : Res ExecErr unit * list Spawn :=
  match LoadProfile env data fs profileID with
  | Err e => (Err (LoadErr e), [])
  | Ok p =>
      match GetAction env data fs profileID actionID with
      | Err e => (Err (LoadErr e), [])
      | Ok a => byIsolation p (runActionWithProcessIsolation pipe fs p a payload)
      end
  end.
End Execution.

(** ** Values in an environment *)

(** The value of an entry of this key. *)
Definition envVal (k e : string) : option string :=
  if decide (envKey e = Some k) then match cutAt "="%char (chars e) with (_, Some v) => Some (unchars v) | _ => None end else None.

(** What a process finds under a key: of several entries the last. *)
Definition lastValue (env : list string) (k : string) : option string := last (omap (envVal k) env).

(** Duplicates removed, by the definition: an entry goes when a later one has its key. *)
Fixpoint dedupSpec (env : list string) : list string :=
  match env with
  | [] => []
  | e :: env =>
      match envKey e with
      | Some k => if existsb (fun e' => bool_decide (envKey e' = Some k)) env then dedupSpec env else e :: dedupSpec env
      | None => e :: dedupSpec env
      end
  end.

Definition occurs (k : string) (env : list string) : Prop := exists e, e ∈ env /\ envKey e = Some k.

Lemma occurs_existsb k env : existsb (fun e' => bool_decide (envKey e' = Some k)) env = true <-> occurs k env.
Proof.
  rewrite existsb_exists. split; intros (e & H & He); exists e; rewrite ?list_elem_of_In, ?bool_decide_eq_true in *; by rewrite <- ?list_elem_of_In in *.
Qed.

Lemma occurs_cons k e env : occurs k (e :: env) <-> envKey e = Some k \/ occurs k env.
Proof.
  split.
  - intros (e' & [->|H]%elem_of_cons & He); [by left|right; by exists e'].
  - intros [H|(e' & H & He)]; [exists e; split; [by left|done]|exists e'; split; [by right|done]].
Qed.

Lemma lastIndexes_absent k env : forall i m, ~ occurs k env -> lastIndexes i env m !! k = m !! k.
Proof.
  induction env as [|e env IH]; intros i m H; simpl; [done|]. rewrite occurs_cons in H. rewrite IH by tauto.
  destruct (envKey e) as [k'|] eqn:E; [|done]. apply lookup_insert_ne. intros ->. tauto.
Qed.

Lemma lastIndexes_present k env : forall i m, occurs k env -> exists j, lastIndexes i env m !! k = Some j /\ (i <= j)%nat.
Proof.
  induction env as [|e env IH]; intros i m H; simpl; [destruct H as (? & ?%elem_of_nil & _); done|].
  set (m' := match envKey e with Some k0 => <[k0:=i]> m | None => m end).
  destruct (decide (Exists (fun e' => envKey e' = Some k) env)) as [Ho|Hn].
  - destruct (IH (S i) m') as (j & -> & Hj); [apply Exists_exists in Ho as (e' & ? & ?); by exists e'|]. exists j. split; [done|lia].
  - assert (~ occurs k env) as Hn' by (intros (e' & ? & ?); apply Hn, Exists_exists; by exists e').
    apply occurs_cons in H as [H|H]; [|done]. rewrite lastIndexes_absent by done. subst m'. rewrite H, lookup_insert_eq. by exists i.
Qed.

(** The start value is only seen where no key occurs. *)
Lemma lastIndexes_start k env : forall i m m', occurs k env -> lastIndexes i env m !! k = lastIndexes i env m' !! k.
Proof.
  induction env as [|e env IH]; intros i m m' H; simpl; [destruct H as (? & ?%elem_of_nil & _); done|].
  destruct (decide (Exists (fun e' => envKey e' = Some k) env)) as [Ho|Hn].
  - apply IH. apply Exists_exists in Ho as (e' & ? & ?). by exists e'.
  - assert (~ occurs k env) as Hn' by (intros (e' & ? & ?); apply Hn, Exists_exists; by exists e').
    apply occurs_cons in H as [H|H]; [|done]. rewrite !lastIndexes_absent, H by done. by rewrite !lookup_insert_eq.
Qed.

Lemma keepLast_spec env : forall i L, (forall k, occurs k env -> L !! k = lastIndexes i env ∅ !! k) -> keepLast L i env = dedupSpec env.
Proof.
  induction env as [|e env IH]; intros i L H; simpl; [done|]. rewrite IH.
  2:{ intros k Hk. rewrite H by (by apply occurs_cons; right). simpl. by apply lastIndexes_start. }
  destruct (envKey e) as [k|] eqn:E; [|done]. pose proof (H k ltac:(apply occurs_cons; by left)) as Hk. simpl in Hk. rewrite E in Hk.
  destruct (existsb _ env) eqn:Ex.
  - apply occurs_existsb in Ex. destruct (lastIndexes_present k env (S i) (<[k:=i]> ∅) Ex) as (j & Hj & Hle).
    rewrite decide_False; [done|]. rewrite Hk, Hj. intros [= ->]. lia.
  - rewrite decide_True; [done|]. rewrite Hk, lastIndexes_absent; [apply lookup_insert_eq|].
    intros Ho%occurs_existsb. congruence.
Qed.

(** The two passes over the indexes remove exactly the overridden entries. *)
Lemma dedup_spec env : dedupEnvLastWins env = dedupSpec env.
Proof. by apply keepLast_spec. Qed.

Lemma envVal_key k e v : envVal k e = Some v -> envKey e = Some k.
Proof. unfold envVal. by case_decide. Qed.

Lemma envVal_Some k e : envKey e = Some k -> is_Some (envVal k e).
Proof.
  intros H. unfold envVal. rewrite decide_True by done. unfold envKey in H. destruct (cutAt _ _) as [[|] [|]]; by eauto.
Qed.

Lemma lastValue_cons k e env : lastValue (e :: env) k = match lastValue env k with Some v => Some v | None => envVal k e end.
Proof.
  unfold lastValue. simpl. destruct (envVal k e) as [v|] eqn:E; [|by destruct (last _)].
  rewrite last_cons. by destruct (last _).
Qed.

Lemma lastValue_app k a b : lastValue (a ++ b) k = match lastValue b k with Some v => Some v | None => lastValue a k end.
Proof.
  induction a as [|e a IH]; [simpl; by destruct (lastValue b k)|]. simpl. rewrite !lastValue_cons, IH. by destruct (lastValue b k).
Qed.

Lemma lastValue_occurs k env : occurs k env -> is_Some (lastValue env k).
Proof.
  intros (e & H & He). induction env as [|e' env IH]; [by apply elem_of_nil in H|]. rewrite lastValue_cons.
  apply elem_of_cons in H as [->|H]; [|destruct (IH H) as [v ->]; by eauto]. destruct (lastValue env k); [by eauto|]. by apply envVal_Some.
Qed.

Lemma dedup_value env k : lastValue (dedupSpec env) k = lastValue env k.
Proof.
  induction env as [|e env IH]; [done|]. simpl. rewrite lastValue_cons, <- IH.
  destruct (envKey e) as [k'|] eqn:E; [|apply lastValue_cons]. destruct (existsb _ env) eqn:Ex; [|apply lastValue_cons].
  apply occurs_existsb in Ex. destruct (decide (k' = k)) as [->|Hk].
  - rewrite IH. by destruct (lastValue_occurs k env Ex) as [v ->].
  - destruct (lastValue (dedupSpec env) k); [done|]. unfold envVal. rewrite decide_False; [done|congruence].
Qed.

Lemma dedup_sub env e : e ∈ dedupSpec env -> e ∈ env.
Proof.
  induction env as [|e' env IH]; [done|]. simpl. destruct (envKey e') as [k|].
  - destruct (existsb _ env); [by right; apply IH|]. intros [->|H]%elem_of_cons; [by left|right; auto].
  - intros [->|H]%elem_of_cons; [by left|right; auto].
Qed.

Lemma dedup_NoDup_keys env : NoDup (omap envKey (dedupSpec env)).
Proof.
  induction env as [|e env IH]; simpl; [constructor|]. destruct (envKey e) as [k|] eqn:E; [|simpl; by rewrite E].
  destruct (existsb _ env) eqn:Ex; [done|]. simpl. rewrite E. constructor; [|done].
  intros (e' & H & He)%list_elem_of_omap. assert (occurs k env) as Ho%occurs_existsb by (exists e'; split; [by apply dedup_sub|done]). congruence.
Qed.

Lemma dedup_malformed env : filter (fun e => envKey e = None) (dedupSpec env) = filter (fun e => envKey e = None) env.
Proof.
  induction env as [|e env IH]; simpl; [done|]. rewrite filter_cons. destruct (envKey e) as [k|] eqn:E.
  - rewrite decide_False by congruence. destruct (existsb _ env); [done|]. rewrite filter_cons, decide_False by congruence. done.
  - rewrite decide_True by done. rewrite filter_cons, decide_True by done. by rewrite IH.
Qed.

Fixpoint firstSome {A} (l : list (option A)) : option A :=
  match l with [] => None | Some a :: _ => Some a | None :: l => firstSome l end.

(** The layers of an environment, the strongest first. *)
Definition layers `{D : Dotenv} (order : gmap string string -> list (string * string)) (env : OsEnv Content) (data cwd : Path)
    (Environ : list string) (cfg : Config) (fs : FS Content) (p : Profile) (secrets : gmap string string) (resolved : list ResolvedBundle)
    (overrides : list string) : list (list string) :=
  [overrides; bundleEnv order resolved; capabilityEnv env data cwd cfg fs p; sshEnv env data fs p; gitEnv env data fs p;
   entries order secrets; entries order (apsEnv data cfg p); Environ].

Lemma byIsolation_cases p run :
  (is_Level (pr_Isolation p) ∈ [""; IsolationProcess] /\ byIsolation p run = run) \/ exists e, byIsolation p run = (Err e, []).
Proof.
  unfold byIsolation. destruct (decide (is_Level (pr_Isolation p) = "")) as [->|H]; [left; split; [by left|done]|].
  destruct (decide (is_Level (pr_Isolation p) = IsolationProcess)) as [->|]; [left; split; [by right; left|done]|].
  right. case_decide; by eexists.
Qed.

(** C17: A command of a profile runs only when the profile loads, is not a human and asks
    for process isolation, and then once: with the given command line, each key of its
    environment once, the value of a key being the override, or else that of the bundles,
    capabilities, ssh, git, secrets, APS variables and the parent, in this order. *)
Theorem command_environment `{D : Dotenv} (env : OsEnv Content) (order : gmap string string -> list (string * string)) (data cwd : Path)
    (Environ : list string) (cfg : Config) (found : string -> bool) (getenv : string -> string) (userConfigDir : string)
    (bundles : Res BundleErr BundleRegistry) (run : Spawn -> option string) (fs : FS Content) (id command : string) (args overrides : list string) :
  match RunCommand env order data cwd Environ cfg found getenv userConfigDir bundles run fs id command args overrides with
  | (r, []) => is_ok r = false
  | (r, [s]) =>
      (is_ok r = true <-> run s = None) /\ sp_Binary s = command /\ sp_Args s = args /\ sp_Stdin s = None /\
      NoDup (omap envKey (sp_Env s)) /\
      exists p secrets resolved,
        LoadProfile env data fs id = Ok p /\ EffectiveType p <> ProfileTypeHuman /\ is_Level (pr_Isolation p) ∈ [""; IsolationProcess] /\
        dotenv_read env fs (GoFS.Join (GetProfileDir data (pr_ID p)) "secrets.env") = Ok secrets /\
        profileBundles data found getenv userConfigDir bundles p = Ok resolved /\
        forall k, lastValue (sp_Env s) k =
          firstSome (map (fun layer => lastValue layer k) (layers order env data cwd Environ cfg fs p secrets resolved overrides))
  | _ => False
  end.
Proof.
  unfold RunCommand. destruct (LoadProfile env data fs id) as [p|e] eqn:El; [|done]. unfold EnsureRunnable.
  case_decide as Hh; [done|].
  match goal with |- context [byIsolation p ?run] => destruct (byIsolation_cases p run) as [[Hl ->]|[e ->]] end; [|done].
  unfold runCommandWithProcessIsolation, buildEnvVars. destruct (LoadSecrets _ _ _) as [secrets|e] eqn:Es; [|done].
  destruct (profileBundles _ _ _ _ _ p) as [resolved|e] eqn:Eb; [|done]. unfold ran. rewrite dedup_spec.
  set (s := mkSpawn _ _ _ _). split; [by destruct (run s)|]. do 3 (split; [done|]). split; [apply dedup_NoDup_keys|].
  exists p, (default ∅ secrets), resolved. do 3 (split; [done|]).
  split; [unfold dotenv_read; by rewrite Es|]. split; [done|].
  intros k. subst s. simpl sp_Env. rewrite dedup_value, !lastValue_app. simpl.
  repeat match goal with |- context [lastValue ?l k] => destruct (lastValue l k); [done|] end. done.
Qed.

(** ** Examples *)

Definition an_os : OsEnv Content := calm.
Definition the_data : Path := ["home"; "aps"].

Definition human_profile : Profile :=
  mkProfile "ada" "Ada" ProfileTypeHuman "" "" "" "" "" (mkPersona "" "" "") [] ∅ (mkPreferences "" "" "sh") (mkLimits 0 0) (mkGit false)
    (mkSSH false "") (mkWebhook []) (mkIsolation IsolationProcess false true (mkPlatform "" "") (mkContainer "" "" [] (mkResources 0 0) [] []))
    None None None None None None None None None None [] None [] None.

Definition human_files : FS Content :=
  list_to_map [(["home"], NDir); (["home"; "aps"], NDir); (["home"; "aps"; "profiles"], NDir); (["home"; "aps"; "profiles"; "ada"], NDir);
               (["home"; "aps"; "profiles"; "ada"; "actions"], NDir);
               (["home"; "aps"; "profiles"; "ada"; "profile.yaml"], NFile (CProfile (Some human_profile)));
               (["home"; "aps"; "profiles"; "ada"; "secrets.env"], NFile (CText "A=1"));
               (["home"; "aps"; "profiles"; "ada"; "actions"; "hi.sh"], NFile (CText "echo hi"))].

Definition the_config : Config := initialConfig SecretsBackendFile.

(** A human profile is refused as a command but its actions run. *)
Example human_profile_runs_actions :
  let withEnv {A} (f : OsEnv Content -> (gmap string string -> list (string * string)) -> Path -> Path -> list string -> Config ->
                       (string -> bool) -> (string -> string) -> string -> Res BundleErr BundleRegistry -> (Spawn -> option string) -> A) :=
    f an_os map_to_list the_data [] [] the_config (fun _ => true) (fun _ => "") "" (Ok []) (fun _ => None) in
  is_ok (withEnv (RunCommand (D := readDotenv_Dotenv)) human_files "ada" "ls" [] []).1 = false /\
  (withEnv (RunAction (D := readDotenv_Dotenv)) None human_files "ada" "hi" "").1 = Ok tt.
Proof. split; vm_compute; done. Qed.
