(* ===== verification/Runs.v ===== *)
(** * Runs of the protocol core

    src/internal/core/protocol/core.go and types.go: the registry of runs.  A call of
    [ExecuteRun], the goroutine that copies its output, the process and the calls of
    [CancelRun] interleave, so the registry is a machine with one step per critical section
    of the mutex; [ExecuteRun] without interference is the composition of its steps. *)

From Stdlib Require Import ZArith Lia String Ascii.
From stdpp Require Import base option list gmap strings.
From S2P Require Import Prelude Text AcpFiles Bundle GoFS ProfileData Profile Secrets Execution.

#[local] Open Scope Z_scope.

(** ** Data *)

Definition RunStatusPending : string := "pending".
Definition RunStatusRunning : string := "running".
Definition RunStatusCompleted : string := "completed".
Definition RunStatusFailed : string := "failed".
Definition RunStatusCancelled : string := "cancelled".

Definition runStatuses : list string := [RunStatusPending; RunStatusRunning; RunStatusCompleted; RunStatusFailed; RunStatusCancelled].

(** [true]: valid. *)
Definition ValidateRunStatus (status : string) : bool := bool_decide (status ∈ runStatuses).

Record RunInput : Type := mkRunInput { ri_ProfileID : string; ri_ActionID : string; ri_Payload : string; ri_ThreadID : string }.

Definition RunInput_Validate (r : RunInput) : option string :=
  if decide (ri_ProfileID r = "") then Some "profile_id is required"
  else if decide (ri_ActionID r = "") then Some "action_id is required" else None.

(** The metadata of a run, which no operation sets, is left out. *)
Record RunState : Type := mkRun {
  rn_RunID : string;
  rn_ProfileID : string;
  rn_ActionID : string;
  rn_ThreadID : string;
  rn_Status : string;
  rn_StartTime : Z;
  rn_EndTime : option Z;
  rn_ExitCode : option Z;
  rn_Output : string;
  rn_OutputSize : Z;
  rn_Error : string
}.

Definition set_run (s : RunState) (status : string) (code : option Z) (err : string) : RunState :=
  mkRun (rn_RunID s) (rn_ProfileID s) (rn_ActionID s) (rn_ThreadID s) status (rn_StartTime s) (rn_EndTime s) code (rn_Output s)
    (rn_OutputSize s) err.

Definition set_size (s : RunState) (size : Z) : RunState :=
  mkRun (rn_RunID s) (rn_ProfileID s) (rn_ActionID s) (rn_ThreadID s) (rn_Status s) (rn_StartTime s) (rn_EndTime s) (rn_ExitCode s)
    (rn_Output s) size (rn_Error s).

Definition set_end (s : RunState) (t : Z) (output : option string) : RunState :=
  mkRun (rn_RunID s) (rn_ProfileID s) (rn_ActionID s) (rn_ThreadID s) (rn_Status s) (rn_StartTime s) (Some t) (rn_ExitCode s)
    (default (rn_Output s) output) (from_option (fun o => Z.of_nat (length (chars o))) (rn_OutputSize s) output) (rn_Error s).

Inductive RunErr : Type :=
  | RunInvalid (message : string)
  | RunResourceMissing (resource : string)
  | RunPipe (message : string)
  | RunAction (e : ProfErr)
  | RunEnvironment (e : ExecErr)
  | RunStdin (message : string).

(** Where a call of [ExecuteRun] is. *)
Inductive Phase : Type :=
  | Registered            (* the run is in the registry, Pending *)
  | Prepared              (* the command exists; the copy of a streaming run has started *)
  | Marked                (* Running was set *)
  | Started               (* the process runs *)
  | Killed                (* the context ended, the kill was tried *)
  | Exited                (* the end of the process was recorded *)
  | Leaving               (* all updates are done; the copy is awaited *)
  | Returned (e : option RunErr).

(** [cl_Reading]: the copying goroutine runs; [cl_Output]: what the process wrote that was
    read, [cl_Sent] what reached the stream. *)
Record Call : Type := mkCall {
  cl_Input : RunInput;
  cl_Profile : Profile;
  cl_Stream : bool;
  cl_Phase : Phase;
  cl_Reading : bool;
  cl_Output : string;
  cl_Sent : list string
}.

Definition at_phase (c : Call) (p : Phase) : Call := mkCall (cl_Input c) (cl_Profile c) (cl_Stream c) p (cl_Reading c) (cl_Output c) (cl_Sent c).
Definition reading (c : Call) (r : bool) : Call := mkCall (cl_Input c) (cl_Profile c) (cl_Stream c) (cl_Phase c) r (cl_Output c) (cl_Sent c).
Definition received (c : Call) (data : string) (sent : list string) : Call :=
  mkCall (cl_Input c) (cl_Profile c) (cl_Stream c) (cl_Phase c) (cl_Reading c) (cl_Output c +:+ data) (cl_Sent c ++ sent).

Record Machine : Type := mkMachine { mc_Runs : gmap string RunState; mc_Calls : gmap string Call }.

Definition empty_machine : Machine := mkMachine ∅ ∅.

(** How a process ends. *)
Inductive Exit : Type := ExitOk | ExitError (code : Z) (message : string) | WaitFailed (message : string).

(** ** Operations on the registry *)

Definition GetRun (m : Machine) (runID : string) : option RunState := mc_Runs m !! runID.

Inductive CancelErr : Type := NoSuchRun (id : string) | NotCancellable (status : string).

Definition CancelRun (m : Machine) (runID : string) : Machine * Res CancelErr unit :=
  match mc_Runs m !! runID with
  | None => (m, Err (NoSuchRun runID))
  | Some s =>
      if decide (rn_Status s <> RunStatusRunning /\ rn_Status s <> RunStatusPending) then (m, Err (NotCancellable (rn_Status s)))
      else (mkMachine (<[runID := set_run s RunStatusCancelled (rn_ExitCode s) "cancelled"]> (mc_Runs m)) (mc_Calls m), Ok tt)
  end.

Definition updateRunState (m : Machine) (runID : string) (f : RunState -> RunState) : Machine :=
  match mc_Runs m !! runID with
  | Some s => mkMachine (<[runID := f s]> (mc_Runs m)) (mc_Calls m)
  | None => m
  end.

Definition set_call (m : Machine) (runID : string) (c : Call) : Machine := mkMachine (mc_Runs m) (<[runID := c]> (mc_Calls m)).

(** ** The steps of a call *)

Section Steps.
Context `{D : Dotenv}.
Variable env : OsEnv Content.
Variable order : gmap string string -> list (string * string).
Variables (data cwd : Path) (Environ : list string) (cfg : Config).
Variables (found : string -> bool) (getenv : string -> string) (userConfigDir : string) (bundles : Res BundleErr BundleRegistry).

Definition InjectEnvironment (fs : FS Content) (p : Profile) : Res ExecErr (list string) :=
  buildEnvVars env order data cwd Environ cfg found getenv userConfigDir bundles fs p.

(** The command, without the goroutine that writes the payload.  [stdin]: why its pipe
    cannot be opened. *)
Definition createActionCommand (stdin : option string) (fs : FS Content) (p : Profile) (input : RunInput) : Res RunErr Spawn :=
  match GetAction env data fs (ri_ProfileID input) (ri_ActionID input) with
  | Err e => Err (RunAction e)
  | Ok a =>
      match InjectEnvironment fs p with
      | Err e => Err (RunEnvironment e)
      | Ok vars =>
          let '(binary, argv) := actionBinaryArgs a in
          if decide (ri_Payload input = "") then Ok (mkSpawn binary argv vars None)
          else match stdin with
               | Some message => Err (RunStdin message)
               | None => Ok (mkSpawn binary argv vars (Some (ri_Payload input)))
               end
      end
  end.

(** The part of [ExecuteRun] in front of the registry: the profile that runs. *)
Definition checkRun (fs : FS Content) (input : RunInput) : Res RunErr Profile :=
  match RunInput_Validate input with
  | Some message => Err (RunInvalid message)
  | None =>
      match LoadProfile env data fs (ri_ProfileID input) with
      | Err _ => Err (RunResourceMissing (ri_ProfileID input))
      | Ok p =>
          match GetAction env data fs (ri_ProfileID input) (ri_ActionID input) with
          | Err _ => Err (RunResourceMissing (ri_ActionID input))
          | Ok _ => Ok p
          end
      end
  end.

Definition newRun (runID : string) (input : RunInput) (now : Z) : RunState :=
  mkRun runID (ri_ProfileID input) (ri_ActionID input) (ri_ThreadID input) RunStatusPending now None None "" 0 "".

Definition register (m : Machine) (runID : string) (input : RunInput) (p : Profile) (stream : bool) (now : Z) : Machine :=
  mkMachine (<[runID := newRun runID input now]> (mc_Runs m)) (<[runID := mkCall input p stream Registered false "" []]> (mc_Calls m)).

(** What happens next.  File trees are those the step reads. *)
Inductive Step : Type :=
  | SExecute (runID : string) (fs : FS Content) (input : RunInput) (stream : bool) (now : Z)
  | SPrepare (runID : string) (fs : FS Content) (pipe stdin : option string)
  | SMark (runID : string)
  | SStart (runID : string) (err : option string)
  | SBuffer (runID data : string)
  | SRead (runID data : string) (written : bool)
  | SReadEnd (runID : string)
  | SContextDone (runID : string) (kill : option string)
  | SCancelled (runID : string)
  | SWaitDone (runID : string) (exit : Exit)
  | SFinish (runID : string) (now : Z)
  | SReturn (runID : string)
  | SCancelRun (runID : string).

(** The command of a call: the pipe of a streaming run comes first. *)
Definition prepare (c : Call) (fs : FS Content) (pipe stdin : option string) : Call :=
  match (if cl_Stream c then pipe else None) with
  | Some message => at_phase c (Returned (Some (RunPipe message)))
  | None =>
      match createActionCommand stdin fs (cl_Profile c) (cl_Input c) with
      | Err e => at_phase c (Returned (Some e))
      | Ok _ => reading (at_phase c Prepared) (cl_Stream c)
      end
  end.

Definition recordExit (exit : Exit) (s : RunState) : RunState :=
  match exit with
  | ExitOk => set_run s RunStatusCompleted (Some 0) (rn_Error s)
  | ExitError code message => set_run s RunStatusFailed (Some code) message
  | WaitFailed message => set_run s RunStatusFailed (rn_ExitCode s) message
  end.

Definition started (p : Phase) : bool := match p with Started | Killed | Exited | Leaving => true | _ => false end.

(** A step of the call of a run: its new state and the update of the run. *)
Definition callStep (c : Call) (s : Step) : option (Call * (RunState -> RunState)) :=
  match s, cl_Phase c with
  | SPrepare _ fs pipe stdin, Registered => Some (prepare c fs pipe stdin, fun s => s)
  | SMark _, Prepared => Some (at_phase c Marked, fun s => set_run s RunStatusRunning (rn_ExitCode s) (rn_Error s))
  | SStart _ None, Marked => Some (at_phase c Started, fun s => s)
  | SStart _ (Some message), Marked => Some (at_phase c Leaving, fun s => set_run s RunStatusFailed (rn_ExitCode s) message)
  | SBuffer _ data, Started => if cl_Stream c then None else Some (received c data [], fun s => s)
  | SRead _ data written, p =>
      if cl_Reading c && started p
      then Some (reading (received c data (if written then [data] else [])) written,
                 fun s => set_size s (wrap64 (rn_OutputSize s + Z.of_nat (length (chars data)))))
      else None
  | SReadEnd _, p => if cl_Reading c then Some (reading c false, fun s => s) else None
  | SContextDone _ kill, Started =>
      Some (at_phase c Killed,
            fun s => match kill with Some message => set_run s (rn_Status s) (rn_ExitCode s) ("failed to kill process: " +:+ message) | None => s end)
  | SCancelled _, Killed => Some (at_phase c Leaving, fun s => set_run s RunStatusCancelled (rn_ExitCode s) "cancelled by client")
  | SWaitDone _ exit, Started => Some (at_phase c Exited, recordExit exit)
  | SFinish _ now, Exited => Some (at_phase c Leaving, fun s => set_end s now (if cl_Stream c then None else Some (cl_Output c)))
  | SReturn _, Leaving => if cl_Reading c then None else Some (at_phase c (Returned None), fun s => s)
  | _, _ => None
  end.

Definition step_run (s : Step) : string :=
  match s with
  | SExecute id _ _ _ _ | SPrepare id _ _ _ | SMark id | SStart id _ | SBuffer id _ | SRead id _ _ | SReadEnd id
  | SContextDone id _ | SCancelled id | SWaitDone id _ | SFinish id _ | SReturn id | SCancelRun id => id
  end.

Definition isCancelRun (s : Step) : bool := match s with SCancelRun _ => true | _ => false end.

(** [None]: the step is not possible.  An identifier of package uuid is new. *)
Definition step (m : Machine) (s : Step) : option Machine :=
  match s with
  | SExecute runID fs input stream now =>
      match mc_Runs m !! runID, checkRun fs input with
      | None, Ok p => Some (register m runID input p stream now)
      | None, Err _ => Some m
      | Some _, _ => None
      end
  | SCancelRun runID => Some (CancelRun m runID).1
  | _ =>
      match mc_Calls m !! step_run s with
      | None => None
      | Some c =>
          match callStep c s with
          | None => None
          | Some (c', f) => Some (set_call (updateRunState m (step_run s) f) (step_run s) c')
          end
      end
  end.

Fixpoint steps (m : Machine) (l : list Step) : option Machine :=
  match l with [] => Some m | s :: l => match step m s with Some m' => steps m' l | None => None end end.
End Steps.

(** ** Invariants *)

Lemma wrap64_add a b : wrap64 (wrap64 a + b) = wrap64 (a + b).
Proof.
  unfold wrap64. replace ((a + 2 ^ 63) mod 2 ^ 64 - 2 ^ 63 + b + 2 ^ 63) with ((a + 2 ^ 63) mod 2 ^ 64 + b) by lia.
  rewrite Z.add_mod_idemp_l by lia. f_equal. f_equal. lia.
Qed.

Definition phaseStatus (p : Phase) (status : string) : Prop :=
  match p with
  | Registered | Prepared | Returned (Some _) => status = RunStatusPending \/ status = RunStatusCancelled
  | Marked | Started | Killed => status = RunStatusRunning \/ status = RunStatusCancelled
  | Exited => status = RunStatusCompleted \/ status = RunStatusFailed
  | Leaving | Returned None => status = RunStatusCompleted \/ status = RunStatusFailed \/ status = RunStatusCancelled
  end.

(** The process ended by itself, or no end was seen. *)
Definition ended (c : Call) (s : RunState) : Prop :=
  rn_Status s <> RunStatusCancelled /\ (rn_Status s = RunStatusCompleted -> rn_ExitCode s = Some 0).
Definition unended (s : RunState) : Prop := rn_ExitCode s = None /\ rn_EndTime s = None /\ rn_Output s = "".

Definition phaseResult (c : Call) (s : RunState) : Prop :=
  match cl_Phase c with
  | Exited => ended c s /\ rn_EndTime s = None /\ rn_Output s = ""
  | Leaving | Returned None =>
      (unended s /\ rn_Status s <> RunStatusCompleted) \/
      (ended c s /\ is_Some (rn_EndTime s) /\ rn_Output s = if cl_Stream c then "" else cl_Output c)
  | _ => unended s
  end.

Definition size_ok (c : Call) (s : RunState) : Prop :=
  rn_OutputSize s = if cl_Stream c then wrap64 (Z.of_nat (length (chars (cl_Output c)))) else Z.of_nat (length (chars (rn_Output s))).

Definition concatenated (l : list string) : string := foldr String.append "" l.

(** The stream got a prefix of the output, all of it while the copy goes on. *)
Definition sent_ok (c : Call) : Prop :=
  exists rest, cl_Output c = concatenated (cl_Sent c) +:+ rest /\ (cl_Reading c = true \/ cl_Phase c = Registered -> cl_Stream c = true -> rest = "").

Definition phase_reading (c : Call) : Prop :=
  match cl_Phase c with Registered | Returned _ => cl_Reading c = false | _ => cl_Reading c = true -> cl_Stream c = true end.

Record callInv (id : string) (c : Call) (s : RunState) : Prop := {
  ci_id : rn_RunID s = id;
  ci_input : rn_ProfileID s = ri_ProfileID (cl_Input c) /\ rn_ActionID s = ri_ActionID (cl_Input c) /\ rn_ThreadID s = ri_ThreadID (cl_Input c);
  ci_status : phaseStatus (cl_Phase c) (rn_Status s);
  ci_result : phaseResult c s;
  ci_size : size_ok c s;
  ci_sent : sent_ok c;
  ci_reading : phase_reading c
}.

Definition machineInv (m : Machine) : Prop :=
  forall id, match mc_Runs m !! id, mc_Calls m !! id with
             | Some s, Some c => callInv id c s
             | None, None => True
             | _, _ => False
             end.

Lemma concatenated_app l l' : concatenated (l ++ l') = concatenated l +:+ concatenated l'.
Proof. induction l as [|x l IH]; simpl; [done|]. rewrite IH. apply chars_inj. by rewrite !chars_app, (assoc_L (++)). Qed.

Lemma str_app_nil (s : string) : s +:+ "" = s.
Proof. apply chars_inj. by rewrite chars_app, app_nil_r. Qed.

Section Invariant.
Context `{D : Dotenv}.
Variable env : OsEnv Content.
Variable order : gmap string string -> list (string * string).
Variables (data cwd : Path) (Environ : list string) (cfg : Config).
Variables (found : string -> bool) (getenv : string -> string) (userConfigDir : string) (bundles : Res BundleErr BundleRegistry).

Abbreviation callStep := (callStep env order data cwd Environ cfg found getenv userConfigDir bundles).
Abbreviation step := (step env order data cwd Environ cfg found getenv userConfigDir bundles).
Abbreviation steps := (steps env order data cwd Environ cfg found getenv userConfigDir bundles).


Lemma prepare_cases c fs pipe stdin :
  prepare env order data cwd Environ cfg found getenv userConfigDir bundles c fs pipe stdin = reading (at_phase c Prepared) (cl_Stream c) \/ exists e, prepare env order data cwd Environ cfg found getenv userConfigDir bundles c fs pipe stdin = at_phase c (Returned (Some e)).
Proof.
  unfold prepare. destruct (if cl_Stream c then pipe else None); [right; by eexists|].
  destruct (createActionCommand _ _ _ _ _ _ _ _ _ _ _ _ _ _) as [sp|e]; [by left|right; by eexists].
Qed.

Lemma reading_off_inv id c s : cl_Reading c = true -> callInv id c s -> callInv id (reading c false) s.
Proof.
  intros Hr [I1 I2 I3 I4 I5 [rest [I6 _]] I7]. unfold phase_reading in I7. split; try done.
  - exists rest. split; [done|]. intros [?|Ep]; [done|]. simpl in Ep. rewrite Ep in I7. congruence.
  - unfold phase_reading. simpl. by destruct (cl_Phase c).
Qed.

Lemma read_inv id c s output (written : bool) : cl_Reading c = true -> started (cl_Phase c) = true -> callInv id c s ->
  callInv id (reading (received c output (if written then [output] else [])) written)
    (set_size s (wrap64 (rn_OutputSize s + Z.of_nat (length (chars output))))).
Proof.
  intros Hr Hp [I1 I2 I3 I4 I5 [rest [I6 I6']] I7].
  assert (cl_Stream c = true) as Hs by (unfold phase_reading in I7; by destruct (cl_Phase c); try apply I7).
  split; simpl; try done.
  - unfold phaseResult in *. simpl. rewrite Hs in *. by destruct (cl_Phase c) as [| | | | | | |[]].
  - unfold size_ok in *. simpl. rewrite Hs in *. rewrite I5, wrap64_add, chars_app, length_app. f_equal. lia.
  - rewrite I6' in I6 by auto. rewrite str_app_nil in I6. destruct written.
    + exists "". simpl. rewrite concatenated_app, I6. simpl. split; [|done]. by rewrite !str_app_nil.
    + exists output. simpl. rewrite app_nil_r, I6. split; [done|]. intros [?|Ep]; [done|]. simpl in Ep. by rewrite Ep in Hp.
  - unfold phase_reading in *. simpl. by destruct (cl_Phase c).
Qed.

(** Fields of the call that a step does not change. *)
Lemma phase_inv id c s p s' : callInv id c s ->
  rn_RunID s' = rn_RunID s -> rn_ProfileID s' = rn_ProfileID s -> rn_ActionID s' = rn_ActionID s -> rn_ThreadID s' = rn_ThreadID s ->
  phaseStatus p (rn_Status s') -> phaseResult (at_phase c p) s' -> size_ok c s' -> phase_reading (at_phase c p) -> p <> Registered -> callInv id (at_phase c p) s'.
Proof.
  intros [I1 I2 I3 I4 I5 [rest [I6 I6']] I7] H1 H2 H3 H4 H5 H6 H7 H8 H9. split; try done; simpl; [congruence|rewrite H2, H3, H4; done|].
  exists rest. split; [done|]. intros [?|?]; [by apply I6'; left|done].
Qed.

Ltac phase_case Inv Ep :=
  let I3 := fresh in let I4 := fresh in let I5 := fresh in let I7 := fresh in
  pose proof Inv as [_ _ I3 I4 I5 _ I7]; unfold phaseResult, phase_reading, size_ok in I4, I5, I7; rewrite Ep in I3, I4, I7; simpl in I3;
  apply (phase_inv _ _ _ _ _ Inv); try done; simpl; unfold phaseResult, phase_reading, size_ok, unended, ended, RunStatusPending, RunStatusRunning, RunStatusCompleted, RunStatusFailed,
    RunStatusCancelled in *; simpl in *.

Lemma callStep_inv id c s st c' f : callStep c st = Some (c', f) -> callInv id c s -> callInv id c' (f s).
Proof.
  intros H Inv. destruct st; simpl in H; try done.
  - destruct (cl_Phase c) eqn:Ep; try done. injection H as <- <-.
    destruct (prepare_cases c fs pipe stdin) as [->|[e ->]].
    + pose proof Inv as [I1 I2 I3 I4 I5 [rest [I6 I6']] I7]. unfold phase_reading, phaseResult in I4, I7. rewrite Ep in *.
      split; try done; simpl.
      * exists rest. split; [done|]. intros _ Hs. apply I6'; [by right|done].
      * unfold phase_reading. simpl. done.
    + phase_case Inv Ep.
  - destruct (cl_Phase c) eqn:Ep; try done. injection H as <- <-. phase_case Inv Ep; intuition congruence.
  - destruct err as [message|]; destruct (cl_Phase c) eqn:Ep; try done; injection H as <- <-; phase_case Inv Ep; intuition congruence.
  - destruct (cl_Phase c) eqn:Ep; try done. destruct (cl_Stream c) eqn:Es; try done. injection H as <- <-.
    destruct Inv as [I1 I2 I3 I4 I5 [rest [I6 I6']] I7]. split; try done; simpl.
    + unfold phaseResult in *. simpl. by rewrite Ep in *.
    + unfold size_ok in *. simpl. by rewrite Es in *.
    + exists (rest +:+ data0). simpl. rewrite app_nil_r, I6, Es. split; [|done]. apply chars_inj. by rewrite !chars_app, (assoc_L (++)).
  - destruct (cl_Reading c && started (cl_Phase c)) eqn:E; [|done]. apply andb_true_iff in E as [E1 E2]. injection H as <- <-.
    by apply read_inv.
  - destruct (cl_Reading c) eqn:E; [|by destruct (cl_Phase c)].
    assert (c' = reading c false /\ f = fun s => s) as [-> ->] by (destruct (cl_Phase c); by injection H as <- <-). by apply reading_off_inv.
  - destruct (cl_Phase c) eqn:Ep; try done. injection H as <- <-. destruct kill as [message|]; phase_case Inv Ep; intuition congruence.
  - destruct (cl_Phase c) eqn:Ep; try done. injection H as <- <-. phase_case Inv Ep; intuition congruence.
  - destruct (cl_Phase c) eqn:Ep; try done. injection H as <- <-. destruct exit; phase_case Inv Ep; intuition congruence.
  - destruct (cl_Phase c) eqn:Ep; try done. injection H as <- <-. destruct (cl_Stream c) eqn:Es; phase_case Inv Ep; rewrite ?Es; intuition eauto.
  - destruct (cl_Phase c) eqn:Ep; try done. destruct (cl_Reading c) eqn:E; try done. injection H as <- <-. phase_case Inv Ep; intuition congruence.
Qed.

Lemma cancelled_inv id c s : callInv id c s -> rn_Status s = RunStatusRunning \/ rn_Status s = RunStatusPending ->
  callInv id c (set_run s RunStatusCancelled (rn_ExitCode s) "cancelled").
Proof.
  intros [I1 I2 I3 I4 I5 I6 I7] H. split; try done; unfold phaseResult in *; destruct (cl_Phase c) as [| | | | | | |[]]; simpl in *;
    unfold unended, RunStatusPending, RunStatusRunning, RunStatusCompleted, RunStatusFailed, RunStatusCancelled in *; intuition congruence.
Qed.

(** What a step of the machine is. *)
Lemma step_cases m st m' : step m st = Some m' ->
  m' = m \/
  (exists input p stream now, isCancelRun st = false /\ mc_Runs m !! step_run st = None /\ m' = register m (step_run st) input p stream now) \/
  (exists s, isCancelRun st = true /\ mc_Runs m !! step_run st = Some s /\ (rn_Status s = RunStatusRunning \/ rn_Status s = RunStatusPending) /\
     m' = mkMachine (<[step_run st := set_run s RunStatusCancelled (rn_ExitCode s) "cancelled"]> (mc_Runs m)) (mc_Calls m)) \/
  (exists c c' f, isCancelRun st = false /\ mc_Calls m !! step_run st = Some c /\ callStep c st = Some (c', f) /\
     m' = set_call (updateRunState m (step_run st) f) (step_run st) c').
Proof.
  intros H.
  assert (forall c c' f, mc_Calls m !! step_run st = Some c -> callStep c st = Some (c', f) -> isCancelRun st = false) as Hc.
  { intros c c' f _. by destruct st. }
  destruct st; simpl in *;
    try (destruct (mc_Calls m !! runID) as [c|] eqn:Ec; [|done]; match type of H with context [match ?cs with _ => _ end] => destruct cs as [[c' f]|] eqn:Es end;
         [|done]; injection H as <-; right; right; right; exists c, c', f; by split).
  - destruct (mc_Runs m !! runID) eqn:Er; [done|]. destruct (checkRun _ _ _ _) as [p|e]; injection H as <-; [|by left].
    right; left. by exists input, p, stream, now.
  - injection H as <-. unfold CancelRun. destruct (mc_Runs m !! runID) as [s|] eqn:Er; [|by left]. case_decide as Hd; [by left|].
    right; right; left. exists s. split; [done|]. split; [done|]. split; [|done].
    destruct (decide (rn_Status s = RunStatusRunning)); [by left|right]. destruct (decide (rn_Status s = RunStatusPending)); [done|tauto].
Qed.

Lemma step_inv m st m' : step m st = Some m' -> machineInv m -> machineInv m'.
Proof.
  intros H Inv id. pose proof (Inv id) as Hid. destruct (step_cases _ _ _ H) as [->|[(input & p & stream & now & _ & Hn & ->)|[(s & _ & Hs & Hst & ->)|(c & c' & f & _ & Hc & Hcs & ->)]]]; [done|..].
  - unfold register. simpl. destruct (decide (step_run st = id)) as [<-|Hne]; [|by rewrite !lookup_insert_ne].
    rewrite !lookup_insert_eq. split; simpl; [done|done|by left|done|unfold size_ok; by destruct stream|by exists ""|done].
  - simpl. destruct (decide (step_run st = id)) as [<-|Hne]; [|by rewrite lookup_insert_ne]. rewrite lookup_insert_eq.
    rewrite Hs in Hid. destruct (mc_Calls m !! step_run st) as [c|]; [|done]. by apply cancelled_inv.
  - unfold set_call, updateRunState. destruct (decide (step_run st = id)) as [<-|Hne].
    + rewrite Hc in Hid. destruct (mc_Runs m !! step_run st) as [s|]; [|done]. simpl. rewrite !lookup_insert_eq. by eapply callStep_inv.
    + destruct (mc_Runs m !! step_run st); simpl; by rewrite ?lookup_insert_ne by done.
Qed.

Lemma steps_inv l : forall m m', steps m l = Some m' -> machineInv m -> machineInv m'.
Proof.
  induction l as [|st l IH]; intros m m'; simpl; [by intros [= <-]|]. destruct (step m st) as [m1|] eqn:E; [|done].
  intros H Inv. eapply IH; [done|]. by eapply step_inv.
Qed.

Lemma empty_inv : machineInv empty_machine.
Proof. intros id. unfold empty_machine. simpl. by rewrite !lookup_empty. Qed.

(** ** A returned run *)

Lemma returned_call c st : (exists e, cl_Phase c = Returned e) -> cl_Reading c = false -> callStep c st = None.
Proof. intros [e Ep] Er. destruct st; simpl; rewrite ?Ep, ?Er; try done; by destruct err. Qed.

Lemma returned_step m st m' id c : step m st = Some m' -> machineInv m -> mc_Calls m !! id = Some c -> cl_Phase c = Returned None ->
  mc_Runs m' !! id = mc_Runs m !! id /\ mc_Calls m' !! id = Some c.
Proof.
  intros H Inv Hc Hp. pose proof (Inv id) as Hid. rewrite Hc in Hid. destruct (mc_Runs m !! id) as [s|] eqn:Er; [|done].
  destruct (step_cases _ _ _ H) as [->|[(input & p & stream & now & _ & Hn & ->)|[(s' & _ & Hs & Hst & ->)|(c1 & c' & f & _ & Hc1 & Hcs & ->)]]];
    [done|unfold register; simpl|simpl|].
  - rewrite !lookup_insert_ne by congruence. done.
  - rewrite lookup_insert_ne; [done|]. intros E. rewrite E, Er in Hs. injection Hs as <-. pose proof (ci_status _ _ _ Hid) as Hs. rewrite Hp in Hs.
    simpl in Hs. unfold RunStatusPending, RunStatusRunning, RunStatusCompleted, RunStatusFailed, RunStatusCancelled in *. intuition congruence.
  - destruct (decide (step_run st = id)) as [E|Hne].
    + rewrite E, Hc in Hc1. injection Hc1 as <-. rewrite returned_call in Hcs; [done|by eexists|].
      pose proof (ci_reading _ _ _ Hid) as Hr. unfold phase_reading in Hr. by rewrite Hp in Hr.
    + unfold set_call, updateRunState. destruct (mc_Runs m !! step_run st); simpl; rewrite ?lookup_insert_ne by done; done.
Qed.

Lemma returned_steps l : forall m m' id c, steps m l = Some m' -> machineInv m -> mc_Calls m !! id = Some c -> cl_Phase c = Returned None ->
  mc_Runs m' !! id = mc_Runs m !! id.
Proof.
  induction l as [|st l IH]; intros m m' id c; simpl; [by intros [= <-]|]. destruct (step m st) as [m1|] eqn:E; [|done].
  intros H Inv Hc Hp. destruct (returned_step _ _ _ _ _ E Inv Hc Hp) as [<- Hc']. eapply IH; [done| |done..]. by eapply step_inv.
Qed.

(** ** Cancelling from outside *)

(** Two states of one run that differ in the status before the run ended, and in the error. *)
Definition core (s : RunState) : RunState := set_run s "" (rn_ExitCode s) "".

Definition settled (p : Phase) : bool := match p with Exited | Leaving | Returned None => true | _ => false end.

Definition alike (p : Phase) (s s' : RunState) : Prop :=
  core s = core s' /\ (settled p = true -> rn_Status s = rn_Status s' /\ (rn_Status s <> RunStatusCompleted -> rn_Error s = rn_Error s')).

Definition machines_alike (m m' : Machine) : Prop :=
  mc_Calls m = mc_Calls m' /\
  forall id, match mc_Runs m !! id, mc_Runs m' !! id, mc_Calls m !! id with
             | Some s, Some s', Some c => alike (cl_Phase c) s s'
             | None, None, None => True
             | _, _, _ => False
             end.

Lemma core_eq s s' : core s = core s' ->
  rn_RunID s = rn_RunID s' /\ rn_ExitCode s = rn_ExitCode s' /\ rn_EndTime s = rn_EndTime s' /\ rn_Output s = rn_Output s' /\ rn_OutputSize s = rn_OutputSize s'.
Proof. intros H. unfold core, set_run in H. by injection H. Qed.

Lemma core_set s s' st st' e e' code code' : core s = core s' -> code = code' ->
  core (set_run s st code e) = core (set_run s' st' code' e').
Proof. intros H ->. unfold core, set_run in *. simpl. injection H. intros. congruence. Qed.

Lemma callStep_alike c st c' f s s' : callStep c st = Some (c', f) -> alike (cl_Phase c) s s' -> alike (cl_Phase c') (f s) (f s').
Proof.
  intros H [Hcore Hset]. pose proof (core_eq _ _ Hcore) as (_ & Hx & _).
  destruct st; simpl in H; try done.
  - destruct (cl_Phase c) eqn:Ep; try done. injection H as <- <-. split; [done|].
    destruct (prepare_cases c fs pipe stdin) as [->|[e ->]]; done.
  - destruct (cl_Phase c) eqn:Ep; try done. injection H as <- <-. split; [by apply core_set|done].
  - destruct err; destruct (cl_Phase c) eqn:Ep; try done; injection H as <- <-; (split; [by try apply core_set|done]).
  - destruct (cl_Phase c) eqn:Ep; try done. destruct (cl_Stream c); try done. injection H as <- <-. split; [done|]. simpl. by rewrite Ep.
  - destruct (cl_Reading c && started (cl_Phase c)); [|done]. injection H as <- <-. split; [|done].
    unfold core, set_size, set_run in *. simpl. injection Hcore. intros. congruence.
  - destruct (cl_Reading c); [|by destruct (cl_Phase c)].
    assert (c' = reading c false /\ f = fun s => s) as [-> ->] by (destruct (cl_Phase c); by injection H as <- <-). by split.
  - destruct (cl_Phase c) eqn:Ep; try done. injection H as <- <-. destruct kill; (split; [by try apply core_set|done]).
  - destruct (cl_Phase c) eqn:Ep; try done. injection H as <- <-. split; [by apply core_set|done].
  - destruct (cl_Phase c) eqn:Ep; try done. injection H as <- <-. destruct exit; (split; [by apply core_set|done]).
  - destruct (cl_Phase c) eqn:Ep; try done. injection H as <- <-. split; [|done].
    unfold core, set_end, set_run in *. simpl. destruct (if cl_Stream c then None else Some (cl_Output c)); simpl; injection Hcore; intros; congruence.
  - destruct (cl_Phase c) eqn:Ep; try done. destruct (cl_Reading c); try done. injection H as <- <-. by split.
Qed.

Lemma step_call m st c c' f : mc_Calls m !! step_run st = Some c -> callStep c st = Some (c', f) ->
  step m st = Some (set_call (updateRunState m (step_run st) f) (step_run st) c').
Proof. intros Hc Hs. destruct st; simpl in *; try done; by rewrite Hc, Hs. Qed.

Lemma alike_refl p s : alike p s s.
Proof. done. Qed.

(** A cancellation is only seen by the machine in which it happens. *)
Lemma cancel_alike m st m1 m' : step m st = Some m1 -> isCancelRun st = true -> machineInv m -> machines_alike m m' -> machines_alike m1 m'.
Proof.
  intros H Hst Inv [Hcalls Hm].
  destruct (step_cases _ _ _ H) as [->|[(? & ? & ? & ? & ? & _)|[(s & _ & Hs & Hrun & ->)|(? & ? & ? & ? & _)]]]; [done|congruence| |congruence].
  split; [done|]. intros id. simpl. specialize (Hm id). destruct (decide (step_run st = id)) as [<-|Hne]; [|by rewrite lookup_insert_ne].
  rewrite lookup_insert_eq. rewrite Hs in Hm. specialize (Inv (step_run st)). rewrite Hs in Inv.
  destruct (mc_Runs m' !! step_run st) as [s'|], (mc_Calls m !! step_run st) as [c|]; try done.
  destruct Hm as [Hcore Hset]. split; [etrans; [|exact Hcore]; done|]. intros Hp. exfalso.
  pose proof (ci_status _ _ _ Inv) as Hps. destruct (cl_Phase c) as [| | | | | | |[]]; simpl in Hp, Hps; try done;
    unfold RunStatusPending, RunStatusRunning, RunStatusCompleted, RunStatusFailed, RunStatusCancelled in *; intuition congruence.
Qed.

Lemma step_call_inv m st m' : step m st = Some m' -> match st with SExecute _ _ _ _ _ | SCancelRun _ => false | _ => true end = true ->
  exists c c' f, mc_Calls m !! step_run st = Some c /\ callStep c st = Some (c', f) /\
    m' = set_call (updateRunState m (step_run st) f) (step_run st) c'.
Proof.
  intros H Hst. destruct st; try discriminate Hst; simpl in H |- *;
    (destruct (mc_Calls m !! runID) as [c|] eqn:Ec; [|done]; match type of H with context [match ?cs with _ => _ end] => destruct cs as [[c' f]|] eqn:Es end;
     [|done]; injection H as <-; by exists c, c', f).
Qed.

Lemma set_call_alike m m' id c c' f st : machines_alike m m' -> mc_Calls m !! id = Some c -> callStep c st = Some (c', f) ->
  machines_alike (set_call (updateRunState m id f) id c') (set_call (updateRunState m' id f) id c').
Proof.
  intros [Hcalls Hm] Hc Hcs. pose proof (Hm id) as Hid. rewrite Hc in Hid. unfold set_call, updateRunState.
  destruct (mc_Runs m !! id) as [s|] eqn:Er; [|by destruct (mc_Runs m' !! id)]. destruct (mc_Runs m' !! id) as [s'|] eqn:Er'; [|done].
  split; simpl; [by rewrite Hcalls|]. intros j. destruct (decide (id = j)) as [<-|Hne].
  - rewrite !lookup_insert_eq. by eapply callStep_alike.
  - rewrite !lookup_insert_ne by done. apply Hm.
Qed.

(** The calls of both machines are the same, so the same steps are possible. *)
Lemma step_alike m st m1 m' : step m st = Some m1 -> isCancelRun st = false -> machines_alike m m' ->
  exists m1', step m' st = Some m1' /\ machines_alike m1 m1'.
Proof.
  intros H Hst [Hcalls Hm]. pose proof (Hm (step_run st)) as Hid.
  destruct st as [runID fs input stream now| | | | | | | | | | | |]; try discriminate Hst.
  1:{ simpl in *. destruct (mc_Runs m !! runID) eqn:Er; [done|]. destruct (mc_Runs m' !! runID) eqn:Er'; [done|].
      destruct (checkRun _ _ _ _) as [p|e]; injection H as <-; [|by exists m']. eexists. split; [done|]. unfold register.
      split; simpl; [by rewrite Hcalls|]. intros id. destruct (decide (runID = id)) as [<-|Hne].
      - by rewrite !lookup_insert_eq.
      - rewrite !lookup_insert_ne by done. apply Hm. }
  all: destruct (step_call_inv _ _ _ H eq_refl) as (c & c' & f & Hc & Hcs & ->); pose proof Hc as Hc'; rewrite Hcalls in Hc';
    rewrite (step_call _ _ _ _ _ Hc' Hcs); eexists; (split; [done|]); by eapply set_call_alike.
Qed.

Lemma steps_alike l : forall m m1 m', steps m l = Some m1 -> machineInv m -> machines_alike m m' ->
  exists m1', steps m' (filter (fun st => isCancelRun st = false) l) = Some m1' /\ machines_alike m1 m1'.
Proof.
  induction l as [|st l IH]; intros m m1 m' H Inv Ha; simpl in H.
  - injection H as <-. by exists m'.
  - destruct (step m st) as [m2|] eqn:E; [|done]. pose proof (step_inv _ _ _ E Inv) as Inv2. rewrite filter_cons. case_decide as Hst.
    + destruct (step_alike _ _ _ _ E Hst Ha) as (m2' & E' & Ha'). simpl. rewrite E'. by eapply IH.
    + eapply IH; [done..|]. eapply cancel_alike; [done| |done..]. by destruct (isCancelRun st).
Qed.

Lemma machines_alike_refl m : machineInv m -> machines_alike m m.
Proof. intros Inv. split; [done|]. intros id. specialize (Inv id). by destruct (mc_Runs m !! id), (mc_Calls m !! id). Qed.

(** ** Whole calls *)

(** What a call meets: [wo_Output] are the pieces the process writes and whether the stream
    takes them. *)
Inductive RunEnd : Type := EndContext (kill : option string) | EndExit (exit : Exit) (now : Z).

Record RunWorld : Type := mkRunWorld {
  wo_RunID : string; wo_Files : FS Content; wo_Now : Z; wo_Pipe : option string; wo_Stdin : option string; wo_Start : option string;
  wo_Output : list (string * bool); wo_End : RunEnd
}.

(** The steps in the order of the code; those a call does not reach are not possible. *)
Definition schedule (w : RunWorld) (input : RunInput) (stream : bool) : list Step :=
  let id := wo_RunID w in
  [SExecute id (wo_Files w) input stream (wo_Now w); SPrepare id (wo_Files w) (wo_Pipe w) (wo_Stdin w); SMark id; SStart id (wo_Start w)]
  ++ match wo_Start w with
     | Some _ => []
     | None => map (fun o => if stream then SRead id o.1 o.2 else SBuffer id o.1) (wo_Output w)
     end
  ++ match wo_End w with
     | EndContext kill => [SContextDone id kill; SCancelled id]
     | EndExit exit now => [SWaitDone id exit; SFinish id now]
     end
  ++ [SReadEnd id; SReturn id].

Definition follow (m : Machine) (l : list Step) : Machine := foldl (fun m st => default m (step m st)) m l.

(** [None]: the call does not return. *)
Definition ExecuteRun (m : Machine) (w : RunWorld) (input : RunInput) (stream : bool) : Machine * option (Res RunErr RunState) :=
  match checkRun env data (wo_Files w) input with
  | Err e => (m, Some (Err e))
  | Ok _ =>
      let m' := follow m (schedule w input stream) in
      (m', match mc_Calls m' !! wo_RunID w, mc_Runs m' !! wo_RunID w with
           | Some c, Some s => match cl_Phase c with Returned None => Some (Ok s) | Returned (Some e) => Some (Err e) | _ => None end
           | _, _ => None
           end)
  end.

Lemma follow_steps l : forall m, exists l', l' `sublist_of` l /\ steps m l' = Some (follow m l).
Proof.
  induction l as [|st l IH]; intros m; simpl; [by exists []|]. destruct (step m st) as [m1|] eqn:E; simpl.
  - destruct (IH m1) as (l' & Hl & Hs). exists (st :: l'). split; [by constructor|]. simpl. by rewrite E.
  - destruct (IH m) as (l' & Hl & Hs). exists l'. split; [by constructor|done].
Qed.

(** The phase of a call after steps of that call, without the registry. *)
Definition callFollow (c : Call) (l : list Step) : Call :=
  foldl (fun c st => match callStep c st with Some (c', _) => c' | None => c end) c l.

Definition ofCall (id : string) (st : Step) : Prop :=
  step_run st = id /\ match st with SExecute _ _ _ _ _ | SCancelRun _ => false | _ => true end = true.

Lemma follow_call l : forall m id c, mc_Calls m !! id = Some c -> Forall (ofCall id) l -> mc_Calls (follow m l) !! id = Some (callFollow c l).
Proof.
  induction l as [|st l IH]; intros m id c Hc Hl; simpl; [done|]. apply Forall_cons in Hl as [[Hid Hst] Hl]. apply IH; [|done].
  rewrite <- Hid in Hc. destruct (callStep c st) as [[c' f]|] eqn:E.
  - rewrite (step_call _ _ _ _ _ Hc E). simpl. rewrite Hid. apply lookup_insert_eq.
  - destruct (step m st) as [m1|] eqn:Es; simpl; [|by rewrite <- Hid].
    destruct (step_call_inv _ _ _ Es Hst) as (c1 & c' & f & Hc1 & Hcs & _). congruence.
Qed.

Lemma callFollow_app c l l' : callFollow c (l ++ l') = callFollow (callFollow c l) l'.
Proof. apply foldl_app. Qed.

Lemma output_phase id (stream : bool) l : forall c, cl_Phase c = Started ->
  cl_Phase (callFollow c (map (fun o : string * bool => if stream then SRead id o.1 o.2 else SBuffer id o.1) l)) = Started.
Proof.
  induction l as [|[d b] l IH]; intros c Hp; simpl; [done|]. apply IH. destruct stream; simpl.
  - by destruct (cl_Reading c && started (cl_Phase c)).
  - rewrite Hp. by destruct (cl_Stream c).
Qed.

Lemma returned_stays l : forall c, (exists e, cl_Phase c = Returned e) -> cl_Reading c = false -> callFollow c l = c.
Proof. induction l as [|st l IH]; intros c Hp Hr; simpl; [done|]. by rewrite returned_call, IH. Qed.

Lemma last_steps id c : cl_Phase c = Leaving -> cl_Phase (callFollow c [SReadEnd id; SReturn id]) = Returned None.
Proof. intros Hp. simpl. destruct (cl_Reading c) eqn:Er; simpl; rewrite ?Hp, ?Er; simpl; done. Qed.

Lemma schedule_ends w input stream c : cl_Phase c = Registered -> cl_Reading c = false -> cl_Stream c = stream ->
  exists e, cl_Phase (callFollow c (drop 1 (schedule w input stream))) = Returned e.
Proof.
  intros Hp Hr Hs. set (id := wo_RunID w).
  set (outs := match wo_Start w with Some _ => [] | None => map (fun o => if stream then SRead id o.1 o.2 else SBuffer id o.1) (wo_Output w) end).
  set (ends := match wo_End w with EndContext kill => [SContextDone id kill; SCancelled id] | EndExit exit now => [SWaitDone id exit; SFinish id now] end).
  change (drop 1 (schedule w input stream))
    with ([SPrepare id (wo_Files w) (wo_Pipe w) (wo_Stdin w)] ++ [SMark id; SStart id (wo_Start w)] ++ outs ++ ends ++ [SReadEnd id; SReturn id]).
  rewrite callFollow_app. set (c1 := callFollow c [_]).
  assert (cl_Phase c1 = Prepared \/ ((exists e, cl_Phase c1 = Returned e) /\ cl_Reading c1 = false)) as [Hp1|[[e He] Hr1]].
  { subst c1. simpl. rewrite Hp. destruct (prepare_cases c (wo_Files w) (wo_Pipe w) (wo_Stdin w)) as [->|[e ->]]; [by left|right].
    split; [by eexists|done]. }
  2:{ rewrite returned_stays; [by exists e|by exists e|done]. }
  exists None. rewrite !callFollow_app. apply last_steps. set (c2 := callFollow c1 _).
  assert (cl_Phase c2 = match wo_Start w with Some _ => Leaving | None => Started end) as Hp2.
  { subst c2. simpl. rewrite Hp1. simpl. by destruct (wo_Start w). }
  subst outs ends. destruct (wo_Start w).
  - destruct (wo_End w); simpl; rewrite Hp2; simpl; by rewrite Hp2.
  - set (c3 := callFollow c2 _). assert (cl_Phase c3 = Started) as Hp3 by (by apply output_phase).
    destruct (wo_End w); simpl; rewrite Hp3; simpl; done.
Qed.

Lemma schedule_ofCall w input stream : Forall (ofCall (wo_RunID w)) (drop 1 (schedule w input stream)).
Proof.
  unfold schedule. simpl drop. repeat (apply Forall_cons; split; [done|]). apply Forall_app. split.
  - destruct (wo_Start w); [done|]. apply Forall_forall. intros st Hin. apply list_elem_of_fmap in Hin as ([d b] & -> & _). by destruct stream.
  - destruct (wo_End w); simpl; repeat (apply Forall_cons; split; [done|]); done.
Qed.

(** A call with a new identifier returns, and the machine is one that its steps reach. *)
Lemma ExecuteRun_returns m w input stream : mc_Runs m !! wo_RunID w = None -> machineInv m ->
  is_Some (ExecuteRun m w input stream).2 /\ exists l, steps m l = Some (ExecuteRun m w input stream).1.
Proof.
  intros Hn Inv. unfold ExecuteRun. destruct (checkRun env data (wo_Files w) input) as [p|e] eqn:Ec; [|split; [by eexists|by exists []]].
  cbv zeta. unfold snd, fst. set (m' := follow m (schedule w input stream)).
  destruct (follow_steps (schedule w input stream) m) as (l & _ & Hl). fold m' in Hl. split; [|by exists l].
  pose proof (steps_inv _ _ _ Hl Inv (wo_RunID w)) as Hid.
  assert (exists c e, mc_Calls m' !! wo_RunID w = Some c /\ cl_Phase c = Returned e) as (c & e & Hc & He).
  { subst m'. assert (schedule w input stream = SExecute (wo_RunID w) (wo_Files w) input stream (wo_Now w) :: drop 1 (schedule w input stream)) as -> by done.
    set (rest := drop 1 _). assert (Forall (ofCall (wo_RunID w)) rest) as Hrest by apply schedule_ofCall.
    unfold follow. cbn [foldl]. fold (follow (default m (step m (SExecute (wo_RunID w) (wo_Files w) input stream (wo_Now w)))) rest).
    simpl step. rewrite Hn, Ec. simpl default. set (c0 := mkCall input p stream Registered false "" []).
    destruct (schedule_ends w input stream c0 eq_refl eq_refl eq_refl) as [e He].
    exists (callFollow c0 rest), e. split; [|done]. apply follow_call; [simpl; apply lookup_insert_eq|done]. }
  rewrite Hc in *. destruct (mc_Runs m' !! wo_RunID w); [|done]. rewrite He. destruct e; by eexists.
Qed.

(** C13: However calls, processes, streams and cancellations interleave, every run has a
    valid status, and once a call has returned without error its run has ended and never
    changes again: completed with exit code 0 or failed, with its end and all its output, or
    cancelled or failed without them. *)
Theorem returned_run_is_final l m : steps empty_machine l = Some m ->
  (forall id s, GetRun m id = Some s -> ValidateRunStatus (rn_Status s) = true) /\
  forall id c, mc_Calls m !! id = Some c -> cl_Phase c = Returned None ->
    exists s, GetRun m id = Some s /\ (forall l' m', steps m l' = Some m' -> GetRun m' id = Some s) /\
      rn_RunID s = id /\ rn_ProfileID s = ri_ProfileID (cl_Input c) /\ rn_ActionID s = ri_ActionID (cl_Input c) /\
      rn_Status s ∈ [RunStatusCompleted; RunStatusFailed; RunStatusCancelled] /\
      (rn_Status s = RunStatusCompleted -> rn_ExitCode s = Some 0 /\ is_Some (rn_EndTime s)) /\
      (is_Some (rn_EndTime s) -> rn_Status s <> RunStatusCancelled /\ rn_Output s = if cl_Stream c then "" else cl_Output c) /\
      rn_OutputSize s = (if cl_Stream c then wrap64 (Z.of_nat (length (chars (cl_Output c)))) else Z.of_nat (length (chars (rn_Output s)))) /\
      exists rest, cl_Output c = concatenated (cl_Sent c) +:+ rest.
Proof.
  intros H. pose proof (steps_inv _ _ _ H empty_inv) as Inv. split.
  - intros id s Hs. specialize (Inv id). unfold GetRun in Hs. rewrite Hs in Inv. destruct (mc_Calls m !! id) as [c|]; [|done].
    apply bool_decide_eq_true. pose proof (ci_status _ _ _ Inv) as Hst. unfold runStatuses.
    destruct (cl_Phase c) as [| | | | | | |[]]; simpl in Hst; rewrite !elem_of_cons; tauto.
  - intros id c Hc Hp. pose proof (Inv id) as Hid. rewrite Hc in Hid. destruct (mc_Runs m !! id) as [s|] eqn:Hs; [|done].
    exists s. split; [done|]. split; [intros l' m' H'; unfold GetRun; by rewrite (returned_steps _ _ _ _ _ H' Inv Hc Hp)|].
    destruct Hid as [I1 [I2 [I3 _]] I4 I5 I6 [rest [I7 _]] _]. unfold phaseResult in I5. rewrite Hp in I4, I5. simpl in I4.
    do 3 (split; [done|]). split; [rewrite !elem_of_cons; tauto|].
    unfold unended, ended in I5. split; [|split; [|split; [done|by exists rest]]].
    + intros E. destruct I5 as [[_ ?]|[[_ ?] [? _]]]; [done|auto].
    + intros [t Et]. destruct I5 as [[[_ [E _]] _]|[[? _] [_ ?]]]; [congruence|done].
Qed.

End Invariant.

(** ** Examples *)

Definition agent_profile : Profile := set_ID human_profile "bot".
Definition agent_files : FS Content :=
  list_to_map [(["home"], NDir); (["home"; "aps"], NDir); (["home"; "aps"; "profiles"], NDir); (["home"; "aps"; "profiles"; "bot"], NDir);
               (["home"; "aps"; "profiles"; "bot"; "actions"], NDir);
               (["home"; "aps"; "profiles"; "bot"; "profile.yaml"], NFile (CProfile (Some agent_profile)));
               (["home"; "aps"; "profiles"; "bot"; "actions"; "hi.sh"], NFile (CText "echo hi"))].

Definition hi_input : RunInput := mkRunInput "bot" "hi" "" "".

(** A call with a cancellation at its start. *)
Definition cancelled_early : list Step :=
  [SExecute "r1" agent_files hi_input false 10; SCancelRun "r1"; SPrepare "r1" agent_files None None; SMark "r1"; SStart "r1" None;
   SBuffer "r1" "hi"; SCancelRun "r1"; SWaitDone "r1" ExitOk; SFinish "r1" 20; SReturn "r1"].

Definition sample_steps := steps (D := readDotenv_Dotenv) calm map_to_list the_data [] [] the_config (fun _ => true) (fun _ => "") "" (Ok []).

Definition sample_machine : Machine := default empty_machine (sample_steps empty_machine cancelled_early).

(** The run that was cancelled twice completes, and reports that it was cancelled as its error. *)
Example cancelled_run_completes :
  (fun s => (rn_Status s, rn_ExitCode s, rn_Output s, rn_Error s)) <$> GetRun sample_machine "r1" = Some ("completed", Some 0, "hi", "cancelled").
Proof. vm_compute. done. Qed.

(** A run whose command cannot be made stays pending. *)
Example unprepared_run_pending :
  let broken : OsEnv Content := mkOsEnv (fun p => bool_decide (p = ["home"; "aps"; "profiles"; "bot"; "secrets.env"])) (fun _ => None) (fun _ => false) in
  let '(m, r) := ExecuteRun (D := readDotenv_Dotenv) broken map_to_list the_data [] [] the_config (fun _ => true) (fun _ => "") "" (Ok [])
                   empty_machine (mkRunWorld "r1" agent_files 10 None None None [] (EndExit ExitOk 20)) hi_input false in
  (match r with Some (Err (RunEnvironment _)) => True | _ => False end) /\ rn_Status <$> GetRun m "r1" = Some RunStatusPending.
Proof. vm_compute. done. Qed.

Lemma returned_run_is_final_witness :
  exists c s, mc_Calls sample_machine !! "r1" = Some c /\ GetRun sample_machine "r1" = Some s /\
    rn_Status s ∈ [RunStatusCompleted; RunStatusFailed; RunStatusCancelled].
Proof.
  destruct (returned_run_is_final (D := readDotenv_Dotenv) calm map_to_list the_data [] [] the_config (fun _ => true) (fun _ => "") "" (Ok [])
              cancelled_early sample_machine ltac:(vm_compute; reflexivity)) as [_ H].
  destruct (mc_Calls sample_machine !! "r1") as [c|] eqn:Ec; [|vm_compute in Ec; discriminate Ec].
  destruct (H "r1" c Ec) as (s & Hs & _ & _ & _ & _ & Hst & _).
  - vm_compute in Ec. injection Ec as <-. reflexivity.
  - exists c, s. split; [done|]. split; [done|exact Hst].
Defined.

