(* ===== verification/ProtoStore.v ===== *)
(** * The key-value store of the protocol core

    src/internal/core/protocol/core.go and types.go: namespaces are directories, keys are
    JSON files in them, over the tree of files of GoFS.  A document is its decoded value,
    [None] what is not JSON. *)

From Stdlib Require Import ZArith Lia String Ascii.
From stdpp Require Import base option list gmap strings sorting.
From S2P Require Import Prelude Text AcpFiles GoFS.

#[local] Open Scope Z_scope.

Record StoreItem : Type := mkStoreItem { it_Namespace : string; it_Key : string; it_Value : string; it_UpdatedAt : Z }.

(** [StorePanic]: a slice expression out of range. *)
Inductive StoreErr : Type :=
  | NamespaceRequired | KeyRequired | KeyNotFound (namespace key : string) | StoreFile (e : OsErr) | StoreParse | StorePanic.

Abbreviation StoreFS := (FS (option StoreItem)).

Section Store.
Variable env : OsEnv (option StoreItem).
Variable storeDir : Path.

(** The store directory of a new adapter. *)
Definition NewAPSAdapter (fs : StoreFS) : StoreFS * Res StoreErr unit :=
  match MkdirAll env fs storeDir with (fs, Err e) => (fs, Err (StoreFile e)) | (fs, Ok _) => (fs, Ok tt) end.

Definition keyFile (namespace key : string) : Path := Join (Join storeDir namespace) (key +:+ ".json").

Definition StorePut (now : Z) (fs : StoreFS) (namespace key value : string) : StoreFS * Res StoreErr unit :=
  if decide (namespace = "") then (fs, Err NamespaceRequired)
  else if decide (key = "") then (fs, Err KeyRequired)
  else match MkdirAll env fs (Join storeDir namespace) with
       | (fs, Err e) => (fs, Err (StoreFile e))
       | (fs, Ok _) =>
           match WriteFile env fs (keyFile namespace key) (Some (mkStoreItem namespace key value now)) with
           | (fs, Err e) => (fs, Err (StoreFile e))
           | (fs, Ok _) => (fs, Ok tt)
           end
       end.

Definition StoreGet (fs : StoreFS) (namespace key : string) : Res StoreErr string :=
  match ReadFile env fs (keyFile namespace key) with
  | Err e => Err (if IsNotExist e then KeyNotFound namespace key else StoreFile e)
  | Ok None => Err StoreParse
  | Ok (Some item) => Ok (it_Value item)
  end.

Definition StoreDelete (fs : StoreFS) (namespace key : string) : StoreFS * Res StoreErr unit :=
  match Remove env fs (keyFile namespace key) with (fs, Err e) => (fs, Err (StoreFile e)) | (fs, Ok _) => (fs, Ok tt) end.

(** [key[:len(prefix)]], [None] when the key is shorter. *)
Definition sliceTo (key prefix : string) : option string :=
  if decide (length (chars prefix) <= length (chars key))%nat then Some (unchars (take (length (chars prefix)) (chars key))) else None.

Fixpoint searchLoop (fs : StoreFS) (dir : Path) (prefix : string) (entries : list (string * bool)) (result : gmap string string) :
    Res StoreErr (gmap string string) :=
  match entries with
  | [] => Ok result
  | (name, isDirectory) :: entries =>
      let next := searchLoop fs dir prefix entries in
      if isDirectory then next result
      else if negb (HasSuffix name ".json") then next result
      else
        let key := TrimSuffix name ".json" in
        match (if decide (prefix = "") then Some prefix else sliceTo key prefix) with
        | None => Err StorePanic
        | Some p =>
            if decide (p <> prefix) then next result
            else match ReadFile env fs (Join dir name) with
                 | Ok (Some item) => next (<[it_Key item := it_Value item]> result)
                 | _ => next result
                 end
        end
  end.

Definition StoreSearch (fs : StoreFS) (namespace prefix : string) : Res StoreErr (gmap string string) :=
  let dir := Join storeDir namespace in
  match ReadDir env fs dir with
  | Err e => if IsNotExist e then Ok ∅ else Err (StoreFile e)
  | Ok entries => searchLoop fs dir prefix entries ∅
  end.

Definition StoreListNamespaces (fs : StoreFS) : Res StoreErr (list string) :=
  match ReadDir env fs storeDir with
  | Err e => if IsNotExist e then Ok [] else Err (StoreFile e)
  | Ok entries => Ok (map fst (filter (fun e => e.2 = true) entries))
  end.
End Store.

(** ** The store is a map *)

(** Namespaces and keys that name one file below their directory. *)
Definition proper (namespace key : string) : Prop := plain namespace /\ key <> "" /\ slash ∉ chars key.

Inductive StoreOp : Type := PutItem (namespace key value : string) | DeleteItem (namespace key : string).

Definition properOp (op : StoreOp) : Prop := match op with PutItem ns k _ | DeleteItem ns k => proper ns k end.

Definition applyOp (op : StoreOp) (m : gmap (string * string) string) : gmap (string * string) string :=
  match op with PutItem ns k v => <[(ns, k) := v]> m | DeleteItem ns k => delete (ns, k) m end.

(** Operations beside the map that takes those that succeed. *)
Fixpoint runStore (env : OsEnv (option StoreItem)) (storeDir : Path) (now : Z) (fs : StoreFS) (m : gmap (string * string) string) (ops : list StoreOp) :
    StoreFS * gmap (string * string) string :=
  match ops with
  | [] => (fs, m)
  | op :: ops =>
      let '(fs', r) := match op with
                       | PutItem ns k v => StorePut env storeDir now fs ns k v
                       | DeleteItem ns k => StoreDelete env storeDir fs ns k
                       end in
      runStore env storeDir now fs' (if is_ok r then applyOp op m else m) ops
  end.

Lemma json_plain key : key <> "" -> slash ∉ chars key -> plain (key +:+ ".json").
Proof.
  intros Hk Hs. assert (chars (key +:+ ".json") = chars key ++ chars ".json") as E by apply chars_app.
  repeat split; try (intros H; apply (f_equal chars) in H; rewrite E in H; apply (f_equal length) in H; rewrite length_app in H; simpl in H; lia).
  rewrite E. intros [?|H]%elem_of_app; [done|]. by apply (bool_decide_eq_false_1 (slash ∈ chars ".json")) in H.
Qed.

Lemma keyFile_proper storeDir ns key : proper ns key -> keyFile storeDir ns key = storeDir ++ [ns; key +:+ ".json"].
Proof. intros (Hn & Hk & Hs). unfold keyFile. rewrite !Join_plain by (done || by apply json_plain). by rewrite <- app_assoc. Qed.

Lemma json_inj k k' : k +:+ ".json" = k' +:+ ".json" -> k = k'.
Proof. intros H. apply (f_equal chars) in H. rewrite !chars_app in H. apply app_inv_tail in H. by apply chars_inj. Qed.

(** What the tree says of a map of items.  The store directory is a directory, and so are
    the directories above it. *)
Record represents (storeDir : Path) (fs : StoreFS) (m : gmap (string * string) string) : Prop := {
  re_above : forall q, q `prefix_of` storeDir -> isFile fs q = false;
  re_dir : isDir fs storeDir = true;
  re_keys : forall ns key, is_Some (m !! (ns, key)) -> proper ns key;
  re_namespaces : forall ns, plain ns -> match fs !! (storeDir ++ [ns]) with
                                         | Some NDir => True
                                         | Some (NFile _) => False
                                         | None => forall name, fs !! (storeDir ++ [ns; name]) = None
                                         end;
  re_files : forall ns name, plain ns -> match fs !! (storeDir ++ [ns; name]) with
                                         | Some (NFile (Some item)) => name = it_Key item +:+ ".json" /\ m !! (ns, it_Key item) = Some (it_Value item)
                                         | Some _ => False
                                         | None => forall key, name = key +:+ ".json" -> m !! (ns, key) = None
                                         end
}.

Lemma below_not_above (storeDir q : Path) : ~ storeDir ++ q `prefix_of` storeDir \/ q = [].
Proof.
  destruct q as [|x q]; [by right|left]. intros H%prefix_length. rewrite length_app in H. simpl in H. lia.
Qed.

Lemma snoc_ne (p q : Path) x : q <> [] -> p ++ q = p ++ [x] -> q = [x].
Proof. intros _ H. by apply (inj (app p)) in H. Qed.

Lemma mkdir_represents env storeDir fs m ns fs' r :
  represents storeDir fs m -> MkdirAll env fs (storeDir ++ [ns]) = (fs', r) -> represents storeDir fs' m.
Proof.
  intros [R1 R2 R3 R4 R5] [H _]%MkdirAll_spec.
  assert (forall a b, fs' !! (storeDir ++ [a; b]) = fs !! (storeDir ++ [a; b])) as Hdeep.
  { intros a b. destruct (H (storeDir ++ [a; b])) as [?|(_ & Hp & _)]; [done|]. apply prefix_length in Hp.
    rewrite !length_app in Hp. simpl in Hp. lia. }
  split.
  - intros q Hq. specialize (R1 q Hq). unfold isFile in *. destruct (H q) as [->|(_ & _ & _ & ->)]; done.
  - unfold isDir in *. destruct storeDir as [|x l]; [done|]. destruct (H (x :: l)) as [->|(_ & _ & _ & ->)]; done.
  - done.
  - intros a Ha. specialize (R4 a Ha). destruct (H (storeDir ++ [a])) as [->|(_ & _ & _ & ->)]; [|done].
    destruct (fs !! (storeDir ++ [a])) as [[]|]; [done..|]. intros name. by rewrite Hdeep.
  - intros a b Ha. rewrite Hdeep. by apply R5.
Qed.

Lemma write_represents storeDir fs m ns key value now :
  represents storeDir fs m -> proper ns key -> fs !! (storeDir ++ [ns]) = Some NDir ->
  represents storeDir (<[storeDir ++ [ns; key +:+ ".json"] := NFile (Some (mkStoreItem ns key value now))]> fs) (<[(ns, key) := value]> m).
Proof.
  intros [R1 R2 R3 R4 R5] Hp Hd. split.
  - intros q Hq. unfold isFile. rewrite lookup_insert_ne; [by apply R1|]. intros <-. by destruct (below_not_above storeDir [ns; key +:+ ".json"]).
  - unfold isDir in *. destruct storeDir as [|x l]; [done|]. rewrite lookup_insert_ne; [done|]. intros E%(f_equal length).
    rewrite length_app in E. simpl in E. lia.
  - intros ns' key' [v Hv]. destruct (decide ((ns, key) = (ns', key'))) as [[= <- <-]|Hne]; [done|].
    rewrite lookup_insert_ne in Hv by done. by apply R3.
  - intros a Ha. rewrite lookup_insert_ne by (by intros [= ]%(inj (app storeDir))). specialize (R4 a Ha).
    destruct (fs !! (storeDir ++ [a])) as [[]|] eqn:Ea; [done..|]. intros name. rewrite lookup_insert_ne; [done|].
    intros [= <- _]%(inj (app storeDir)). congruence.
  - intros a b Ha. destruct (decide ([ns; key +:+ ".json"] = [a; b])) as [E|Hne].
    + rewrite E, lookup_insert_eq. injection E as <- <-. simpl. by rewrite lookup_insert_eq.
    + rewrite lookup_insert_ne by (by intros ?%(inj (app storeDir))). specialize (R5 a b Ha).
      destruct (fs !! (storeDir ++ [a; b])) as [[|[item|]]|]; [done| |done|].
      * destruct R5 as [-> Hm]. split; [done|]. rewrite lookup_insert_ne; [done|]. intros [= E1 E2]. apply Hne. by rewrite E1, E2.
      * intros key' ->. rewrite lookup_insert_ne; [by apply R5|]. intros [= E1 E2]. apply Hne. by rewrite E1, E2.
Qed.

Lemma delete_represents storeDir fs m ns key :
  represents storeDir fs m -> proper ns key -> represents storeDir (delete (storeDir ++ [ns; key +:+ ".json"]) fs) (delete (ns, key) m).
Proof.
  intros [R1 R2 R3 R4 R5] Hp. split.
  - intros q Hq. unfold isFile. rewrite lookup_delete_ne; [by apply R1|]. intros <-. by destruct (below_not_above storeDir [ns; key +:+ ".json"]).
  - unfold isDir in *. destruct storeDir as [|x l]; [done|]. rewrite lookup_delete_ne; [done|]. intros E%(f_equal length).
    rewrite length_app in E. simpl in E. lia.
  - intros ns' key' [v Hv]. destruct (decide ((ns, key) = (ns', key'))) as [[= <- <-]|Hne]; [done|].
    rewrite lookup_delete_ne in Hv by done. by apply R3.
  - intros a Ha. rewrite lookup_delete_ne by (by intros [= ]%(inj (app storeDir))). specialize (R4 a Ha).
    destruct (fs !! (storeDir ++ [a])) as [[]|] eqn:Ea; [done..|]. intros name.
    destruct (decide ([ns; key +:+ ".json"] = [a; name])) as [->|Hne]; [apply lookup_delete_eq|].
    rewrite lookup_delete_ne; [done|]. by intros ?%(inj (app storeDir)).
  - intros a b Ha. destruct (decide ([ns; key +:+ ".json"] = [a; b])) as [E|Hne].
    + rewrite E, lookup_delete_eq. injection E as <- <-. intros key' <-%json_inj. apply lookup_delete_eq.
    + rewrite lookup_delete_ne by (by intros ?%(inj (app storeDir))). specialize (R5 a b Ha).
      destruct (fs !! (storeDir ++ [a; b])) as [[|[item|]]|]; [done| |done|].
      * destruct R5 as [-> Hm]. split; [done|]. rewrite lookup_delete_ne; [done|]. intros [= E1 E2]. apply Hne. by rewrite E1, E2.
      * intros key' ->. rewrite lookup_delete_ne; [by apply R5|]. intros [= E1 E2]. apply Hne. by rewrite E1, E2.
Qed.

Lemma op_represents env storeDir now fs m op fs' r :
  (forall ns key, proper ns key -> oe_partial env (storeDir ++ [ns; key +:+ ".json"]) = None) ->
  represents storeDir fs m -> properOp op ->
  match op with PutItem ns k v => StorePut env storeDir now fs ns k v | DeleteItem ns k => StoreDelete env storeDir fs ns k end = (fs', r) ->
  represents storeDir fs' (if is_ok r then applyOp op m else m).
Proof.
  intros Hpart R Hop H. destruct op as [ns k v|ns k]; simpl in Hop.
  - unfold StorePut in H. pose proof Hop as (Hn & Hk & _). rewrite decide_False in H by apply Hn. rewrite decide_False in H by done.
    rewrite Join_plain in H by done. rewrite keyFile_proper in H by done. destruct (MkdirAll env fs _) as [fs1 r1] eqn:Em.
    pose proof (mkdir_represents _ _ _ _ _ _ _ R Em) as R1. apply MkdirAll_spec in Em as [_ Hd].
    destruct r1 as [[]|e]; [|by injection H as <- <-]. destruct (WriteFile env fs1 _ _) as [fs2 r2] eqn:Ew.
    destruct r2 as [[]|e]; injection H as <- <-; simpl.
    + apply WriteFile_Ok in Ew as (-> & _). apply write_represents; [done..|].
      specialize (Hd eq_refl (storeDir ++ [ns]) ltac:(done)). unfold isDir in Hd.
      destruct (storeDir ++ [ns]) eqn:E; [by destruct storeDir|]. by destruct (fs1 !! _) as [[]|].
    + unfold WriteFile in Ew. rewrite Hpart in Ew by done. repeat case_match; by simplify_eq.
  - unfold StoreDelete in H. rewrite keyFile_proper in H by done. unfold Remove in H.
    destruct (oe_denied env _ || _); [by injection H as <- <-|]. destruct (fs !! _); [|by injection H as <- <-].
    destruct (existsb _ _); injection H as <- <-; [done|]. by apply delete_represents.
Qed.

Lemma runStore_represents env storeDir now ops : forall fs m,
  (forall ns key, proper ns key -> oe_partial env (storeDir ++ [ns; key +:+ ".json"]) = None) ->
  represents storeDir fs m -> Forall properOp ops ->
  let '(fs', m') := runStore env storeDir now fs m ops in represents storeDir fs' m'.
Proof.
  induction ops as [|op ops IH]; intros fs m Hpart R Hops; simpl; [done|]. apply Forall_cons in Hops as [Hop Hops].
  destruct (match op with PutItem ns k v => _ | DeleteItem ns k => _ end) as [fs' r] eqn:E. apply IH; [done| |done]. by eapply op_represents.
Qed.

(** ** What reads answer *)

Lemma TrimSuffix_json key : HasSuffix (key +:+ ".json") ".json" = true /\ TrimSuffix (key +:+ ".json") ".json" = key.
Proof.
  assert (HasSuffix (key +:+ ".json") ".json" = true) as H by (apply HasSuffix_spec; exists (chars key); apply chars_app).
  split; [done|]. unfold TrimSuffix. rewrite H, chars_app, length_app. rewrite <- (unchars_chars key) at 3. f_equal.
  apply take_app_length'. lia.
Qed.

Lemma slice_prefix key prefix : (length (chars prefix) <= length (chars key))%nat ->
  unchars (take (length (chars prefix)) (chars key)) = prefix <-> HasPrefix key prefix = true.
Proof.
  intros Hl. rewrite HasPrefix_spec. split.
  - intros H%(f_equal chars). rewrite chars_unchars in H. exists (drop (length (chars prefix)) (chars key)). by rewrite <- H at 1; rewrite take_drop.
  - intros [v ->]. rewrite take_app_length. apply unchars_chars.
Qed.

Lemma HasPrefix_short key prefix : (length (chars key) < length (chars prefix))%nat -> HasPrefix key prefix = false.
Proof.
  intros Hl. apply not_true_iff_false. rewrite HasPrefix_spec. intros [v E%(f_equal length)]. rewrite length_app in E. lia.
Qed.

Lemma represents_missing storeDir fs m ns l : represents storeDir fs m -> plain ns ->
  (forall q, q ∈ ancestors (storeDir ++ ns :: l) -> isFile fs q = true -> (length q <= S (length storeDir))%nat) ->
  missingErr fs (storeDir ++ ns :: l) = ENOENT.
Proof.
  intros [R1 _ _ R4 _] Hn Hdeep. unfold missingErr. destruct (existsb _ _) eqn:E; [|done]. exfalso.
  apply existsb_exists in E as (q & Hin%list_elem_of_In & Hq). pose proof (Hdeep q Hin Hq) as Hl.
  apply ancestors_elem in Hin as [_ [k E]].
  destruct (decide (length q <= length storeDir)%nat) as [Hle|Hgt].
  - rewrite (R1 q) in Hq; [done|]. exists (drop (length q) storeDir).
    apply (f_equal (take (length storeDir))) in E. rewrite take_app_length, take_app_ge in E by done.
    rewrite E at 1. f_equal. apply (f_equal (drop (length q))) in E. rewrite drop_app_length in E. by rewrite <- E.
  - assert (q = storeDir ++ [ns]) as ->.
    { apply (f_equal (take (S (length storeDir)))) in E. rewrite (take_app_ge storeDir) in E by lia.
      replace (S (length storeDir) - length storeDir)%nat with 1%nat in E by lia. simpl in E. rewrite take_0 in E.
      rewrite take_app_le in E by lia. rewrite (take_ge q) in E by lia. done. }
    specialize (R4 ns Hn). unfold isFile in Hq. by destruct (fs !! (storeDir ++ [ns])) as [[]|].
Qed.

Lemma StoreGet_map env storeDir fs m ns key : represents storeDir fs m -> proper ns key -> oe_denied env (storeDir ++ [ns; key +:+ ".json"]) = false ->
  StoreGet env storeDir fs ns key = match m !! (ns, key) with Some v => Ok v | None => Err (KeyNotFound ns key) end.
Proof.
  intros R Hp Hd. unfold StoreGet, ReadFile. rewrite keyFile_proper, Hd by done. pose proof Hp as (Hn & _). pose proof (re_files _ _ _ R ns (key +:+ ".json") Hn) as Hf.
  destruct (fs !! _) as [[|[item|]]|] eqn:E; [done| |done|].
  - destruct Hf as [Hk%json_inj Hm]. rewrite <- Hk in Hm. by rewrite Hm.
  - rewrite (Hf key) by done. rewrite (represents_missing _ _ _ _ _ R Hn); [done|]. intros q Hq Hfile.
    apply ancestors_elem in Hq as [_ Hpre]. pose proof Hpre as [k Ek]. destruct k as [|x k].
    + rewrite app_nil_r in Ek. unfold isFile in Hfile. by rewrite <- Ek, E in Hfile.
    + apply (f_equal length) in Ek. rewrite !length_app in Ek. simpl in Ek. lia.
Qed.

Lemma slice_case key prefix :
  (if decide (prefix = "") then Some prefix else sliceTo key prefix) =
  if decide (length (chars key) < length (chars prefix))%nat then None
  else Some (if decide (HasPrefix key prefix = true) then prefix else unchars (take (length (chars prefix)) (chars key))).
Proof.
  unfold sliceTo. destruct (decide (prefix = "")) as [->|Hp].
  - rewrite decide_False by (simpl; lia). case_decide as Hx; [done|]. by destruct Hx.
  - destruct (decide (length (chars prefix) <= length (chars key))%nat) as [Hl|Hl]; [|by rewrite decide_True by lia].
    rewrite decide_False by lia. f_equal. case_decide as Hx; [|done]. by apply slice_prefix.
Qed.

Section Search.
Variables (env : OsEnv (option StoreItem)) (storeDir : Path) (fs : StoreFS) (m : gmap (string * string) string) (ns prefix : string).
Hypothesis R : represents storeDir fs m.
Hypothesis Hns : plain ns.

Definition too_short (key : string) : Prop := (length (chars key) < length (chars prefix))%nat.

#[export] Instance too_short_dec key : Decision (too_short key).
Proof. unfold too_short. apply _. Defined.

Definition entriesOf (ks : list string) : list (string * bool) := map (fun k => (k +:+ ".json", false)) ks.

Lemma searchLoop_spec ks : forall result,
  Forall (fun k => is_Some (m !! (ns, k)) /\ oe_denied env (storeDir ++ [ns; k +:+ ".json"]) = false) ks ->
  (Exists too_short ks -> searchLoop env fs (storeDir ++ [ns]) prefix (entriesOf ks) result = Err StorePanic) /\
  (~ Exists too_short ks -> exists r, searchLoop env fs (storeDir ++ [ns]) prefix (entriesOf ks) result = Ok r /\
     forall k, r !! k = if decide (k ∈ ks /\ HasPrefix k prefix = true) then m !! (ns, k) else result !! k).
Proof.
  induction ks as [|k ks IH]; intros result Hks; [|cbn [entriesOf map searchLoop]].
  - split; [by intros ?%Exists_nil|]. intros _. exists result. split; [done|]. intros k. rewrite decide_False; [done|]. by intros [?%elem_of_nil _].
  - apply Forall_cons in Hks as [[[v Hv] Hd] Hks]. destruct (TrimSuffix_json k) as [-> ->]. cbn [negb]. fold (entriesOf ks).
    rewrite slice_case.
    rewrite Exists_cons. unfold too_short at 1 3. destruct (decide (length (chars k) < length (chars prefix))%nat) as [Hs|Hs]; [split; [done|tauto]|].
    assert (exists item, ReadFile env fs (Join (storeDir ++ [ns]) (k +:+ ".json")) = Ok (Some item) /\ it_Key item = k /\ it_Value item = v)
      as (item & Hr & <- & <-).
    { destruct (re_keys _ _ _ R ns k ltac:(by eexists)) as (_ & Hk & Hslash). rewrite Join_plain by (by apply json_plain).
      rewrite <- app_assoc. simpl. unfold ReadFile. rewrite Hd. pose proof (re_files _ _ _ R ns (k +:+ ".json") Hns) as Hf.
      destruct (fs !! _) as [[|[item|]]|]; [done| |done|].
      - destruct Hf as [E%json_inj Hm]. rewrite <- E in Hm. exists item. split; [done|]. split; [done|congruence].
      - rewrite (Hf k) in Hv by done. done. }
    rename Hv into Hm.
    destruct (decide (HasPrefix (it_Key item) prefix = true)) as [Hpre|Hpre].
    + rewrite decide_False by tauto. rewrite Hr. destruct (IH (<[it_Key item := it_Value item]> result) Hks) as [IH1 IH2]. split; [intros [?|?]; [done|auto]|].
      intros Hex. destruct IH2 as (r & -> & Hres); [tauto|]. exists r. split; [done|]. intros k. rewrite Hres.
      destruct (decide (k = it_Key item)) as [->|Hne].
      * rewrite lookup_insert_eq. rewrite (decide_True (P := _ ∈ it_Key item :: ks /\ _)) by (split; [by left|done]). rewrite Hm. by case_decide.
      * rewrite lookup_insert_ne by done. apply decide_ext. rewrite elem_of_cons. tauto.
    + rewrite decide_True.
      2:{ intros E. apply Hpre. apply slice_prefix; [lia|done]. }
      destruct (IH result Hks) as [IH1 IH2]. split; [intros [?|?]; [done|auto]|].
      intros Hex. destruct IH2 as (r & -> & Hres); [tauto|]. exists r. split; [done|]. intros k. rewrite Hres. apply decide_ext. rewrite elem_of_cons.
      split; [tauto|]. intros [[->|?] ?]; [done|tauto].
Qed.
End Search.

Lemma searched_entries env storeDir fs m ns l : represents storeDir fs m -> plain ns -> ReadDir env fs (storeDir ++ [ns]) = Ok l ->
  exists ks, l = entriesOf ks /\ forall k, k ∈ ks <-> is_Some (m !! (ns, k)).
Proof.
  intros R Hn [Hnd Hl]%ReadDir_Ok. exists (map (fun e => TrimSuffix e.1 ".json") l).
  assert (forall name d, (name, d) ∈ l -> exists k, name = k +:+ ".json" /\ d = false /\ is_Some (m !! (ns, k))) as Hshape.
  { intros name d [Hs ->]%Hl. rewrite <- app_assoc in *. simpl in *. pose proof (re_files _ _ _ R ns name Hn) as Hf. destruct Hs as [n En]. rewrite En in Hf.
    destruct n as [|[item|]]; [done| |done]. destruct Hf as [-> Hm]. exists (it_Key item). split; [done|]. split; [|by eexists].
    unfold isDir. destruct (storeDir ++ [ns; it_Key item +:+ ".json"]) eqn:E; [by destruct storeDir|]. by rewrite En. }
  split.
  - unfold entriesOf. rewrite map_map. rewrite <- (map_id l) at 1. apply map_ext_in. intros [name d] Hin%list_elem_of_In.
    destruct (Hshape _ _ Hin) as (k & -> & -> & _). simpl. by rewrite (proj2 (TrimSuffix_json k)).
  - intros k. rewrite list_elem_of_fmap. split.
    + intros ([name d] & -> & Hin). destruct (Hshape _ _ Hin) as (k & -> & _ & ?). simpl. by rewrite (proj2 (TrimSuffix_json k)).
    + intros [v Hv]. pose proof (re_files _ _ _ R ns (k +:+ ".json") Hn) as Hf.
      destruct (fs !! (storeDir ++ [ns; k +:+ ".json"])) as [n|] eqn:En; [|by rewrite (Hf k) in Hv].
      exists (k +:+ ".json", isDir fs ((storeDir ++ [ns]) ++ [k +:+ ".json"])). simpl. rewrite (proj2 (TrimSuffix_json k)). split; [done|].
      apply Hl. rewrite <- app_assoc. simpl. split; [by eexists|done].
Qed.

Lemma StoreSearch_map env storeDir fs m ns prefix : represents storeDir fs m -> plain ns -> (forall q, oe_denied env q = false) ->
  match StoreSearch env storeDir fs ns prefix with
  | Ok r => forall k, r !! k = if HasPrefix k prefix then m !! (ns, k) else None
  | Err e => e = StorePanic /\ exists k, is_Some (m !! (ns, k)) /\ too_short prefix k
  end.
Proof.
  intros R Hn Hd. unfold StoreSearch. rewrite Join_plain by done. destruct (ReadDir env fs (storeDir ++ [ns])) as [l|e] eqn:Er.
  - destruct (searched_entries _ _ _ _ _ _ R Hn Er) as (ks & -> & Hks).
    destruct (searchLoop_spec env storeDir fs m ns prefix R Hn ks ∅) as [S1 S2].
    { apply Forall_forall. intros k Hk. split; [by apply Hks|apply Hd]. }
    destruct (decide (Exists (too_short prefix) ks)) as [Hex|Hex].
    + rewrite (S1 Hex). split; [done|]. apply Exists_exists in Hex as (k & Hk & Hs). exists k. split; [by apply Hks|done].
    + destruct (S2 Hex) as (r & -> & Hr). intros k. rewrite Hr, lookup_empty. destruct (HasPrefix k prefix); [|by rewrite decide_False by by intros [_ ?]].
      case_decide as Hx; [done|]. destruct (m !! (ns, k)) eqn:Em; [|done]. exfalso. apply Hx. split; [|done]. apply Hks. by eexists.
  - unfold ReadDir in Er. rewrite Hd in Er. pose proof (re_namespaces _ _ _ R ns Hn) as Hns. unfold isDir in Er.
    destruct (storeDir ++ [ns]) eqn:E; [by destruct storeDir|]. rewrite <- E in *. destruct (fs !! (storeDir ++ [ns])) as [[]|] eqn:En; [done..|].
    injection Er as <-. rewrite (represents_missing _ _ _ _ [] R Hn).
    + simpl. intros k. rewrite lookup_empty. destruct (HasPrefix k prefix); [|done]. symmetry. pose proof (re_files _ _ _ R ns (k +:+ ".json") Hn) as Hf.
      rewrite Hns in Hf. by apply Hf.
    + intros q [_ Hpre]%ancestors_elem Hq. apply prefix_length in Hpre. rewrite length_app in Hpre. simpl in Hpre. lia.
Qed.


(** ** Examples *)

Definition the_store : Path := ["home"; ".aps"; "store"].
Definition store_files : StoreFS := list_to_map [(["home"], NDir); (["home"; ".aps"], NDir); (the_store, NDir)].

Definition sample_puts : list StoreOp := [PutItem "bot" "color" "red"; PutItem "bot" "co" "x"; PutItem "eve" "color" "blue"; DeleteItem "eve" "color"].

(** A search panics at a key that is shorter than the prefix. *)
Example search_panics : StoreSearch calm the_store (runStore calm the_store 5 store_files ∅ sample_puts).1 "bot" "col" = Err StorePanic.
Proof. vm_compute. done. Qed.

(** A namespace or key with ".." leaves the store. *)
Example put_outside_store :
  let '(fs, r) := StorePut calm the_store 5 store_files ".." "../config" "{}" in
  r = Ok tt /\ is_Some (fs !! ["home"; "config.json"]).
Proof. vm_compute. split; [reflexivity|eexists; reflexivity]. Qed.

Lemma store_files_represent : represents the_store store_files ∅.
Proof.
  split; [| | by intros ns key [? ?]| |].
  - intros q Hq. assert (q ∈ [[]; ["home"]; ["home"; ".aps"]; the_store]) as Hin.
    { destruct Hq as [k E]. unfold the_store in *. destruct q as [|a [|b [|c [|? ?]]]]; simplify_eq/=; set_solver. }
    repeat (apply elem_of_cons in Hin as [->|Hin]; [vm_compute; done|]). by apply elem_of_nil in Hin.
  - vm_compute. done.
  - intros ns _. unfold store_files, the_store. simpl. rewrite !lookup_insert_ne by done. rewrite lookup_empty. intros name.
    by rewrite !lookup_insert_ne by done.
  - intros ns name _. unfold store_files, the_store. simpl. rewrite !lookup_insert_ne by done. by rewrite lookup_empty.
Qed.

