(* ===== verification/AgentProtocol.v ===== *)
(** * The agent protocol over HTTP

    src/internal/adapters/agentprotocol: the routes and handlers of runs, threads, agents
    and the store (adapter.go, handlers.go, runs.go, runs_advanced.go, threads.go), the
    stream of events (sse.go), and the sessions and agents of the protocol core
    (src/internal/core/protocol/core.go), over the components Runs, ProtoStore,
    SessionRegistry and Profile.  A body is what encoding/json makes of it for the structure
    that a handler decodes; texts of responses pass through the redaction of package
    logging, which is not repeated here. *)

From Stdlib Require Import ZArith Lia String Ascii.
From stdpp Require Import base option list gmap strings.
From S2P Require Import Prelude Text AcpFiles Bundle Kv SessionRegistry GoValue GoFS ProfileData Profile Secrets Execution Runs ProtoStore.

#[local] Open Scope Z_scope.

(** ** Sessions and agents of the core *)

Record SessionState : Type := mkSessionState {
  se_SessionID : string; se_ProfileID : string; se_CreatedAt : Z; se_LastSeenAt : Z; se_Metadata : gmap string string
}.

Record AgentInfo : Type := mkAgentInfo { ai_ID : string; ai_Name : string; ai_Description : string; ai_Capabilities : list string }.

(** The input of a schema is the same constant for every action. *)
Record ActionSchema : Type := mkActionSchema { sa_Name : string; sa_Description : string }.

Definition ValidateAgentInfo (info : AgentInfo) : option string :=
  if decide (ai_ID info = "") then Some "agent id is required" else if decide (ai_Name info = "") then Some "agent name is required" else None.

Definition ValidateActionSchema (s : ActionSchema) : option string :=
  if decide (sa_Name s = "") then Some "action schema name is required"
  else if decide (sa_Description s = "") then Some "action schema description is required" else None.

Section Sessions.
Context `{K : KvStore SessionInfo, M : StateMachine}.

Definition sessionState (s : SessionInfo) : SessionState :=
  mkSessionState (si_ID s) (si_ProfileID s) (si_CreatedAt s) (si_LastSeenAt s) (si_Environment s).

(** [now] and the clock of the registry, [registered]. *)
Definition CreateSession (sessionID : string) (now registered : Z) (m : Rows) (profileID : string) (metadata : gmap string string) :
    Rows * Res RegErr SessionState :=
  let session := mkSession sessionID profileID "" "" 0 SessionActive "" "" "" "" "" now now metadata "" in
  match RegisterWithContext registered "" m session with
  | (m, Err e, _) => (m, Err e)
  | (m, Ok _, _) => (m, Ok (mkSessionState sessionID profileID now now metadata))
  end.

(** Any error is reported as not found. *)
Definition GetSession (m : Rows) (sessionID : string) : option SessionState :=
  match Registry_Get m sessionID with Ok s => Some (sessionState s) | Err _ => None end.

Definition UpdateSession (now : Z) (m : Rows) (sessionID : string) (metadata : gmap string string) : Rows * Res RegErr unit :=
  UpdateSessionMetadata now m sessionID metadata.

Definition HeartbeatSession (now : Z) (m : Rows) (sessionID : string) : Rows * Res RegErr unit := UpdateHeartbeat now m sessionID.

Definition DeleteSession (m : Rows) (sessionID : string) : Rows * Res RegErr unit :=
  match Registry_Get m sessionID with
  | Err e => (m, Err e)
  | Ok _ => match UnregisterWithContext "" m sessionID with (m, r, _) => (m, r) end
  end.

Definition ListSessions (m : Rows) (profileID : string) : list SessionState := map sessionState (ListByProfile m profileID).
End Sessions.

Section Agents.
Variable env : OsEnv Content.
Variable data : Path.

Definition GetAgent (fs : FS Content) (profileID : string) : option AgentInfo :=
  match LoadProfile env data fs profileID with
  | Err _ => None
  | Ok p => Some (mkAgentInfo (pr_ID p) (pr_DisplayName p) (pn_Tone (pr_Persona p) +:+ " " +:+ pn_Style (pr_Persona p)) (pr_Capabilities p))
  end.

Definition ListAgents (fs : FS Content) : Res OsErr (list AgentInfo) :=
  match ListProfiles env data fs with Err e => Err e | Ok ids => Ok (omap (GetAgent fs) ids) end.

(** [LoadActions] of this development does not fail. *)
Definition GetAgentSchemas (fs : FS Content) (profileID : string) : list ActionSchema :=
  map (fun a => mkActionSchema (at_ID a) (at_Title a)) (LoadActions env data fs profileID).
End Agents.

(** ** Requests and responses *)

Record CreateRunRequest : Type := mkCreateRun { cr_AgentID : string; cr_ActionID : string; cr_Input : option amap; cr_SessionID : string }.
Record RunWaitRequest : Type := mkRunWait { wt_AgentID : string; wt_ActionID : string; wt_Input : option amap; wt_ThreadID : string }.
Record CreateThreadRequest : Type := mkCreateThread { ct_AgentID : string; ct_Metadata : amap }.
Record ThreadsSearchRequest : Type := mkThreadsSearch { ts_AgentID : string; ts_Limit : Z }.
Record AgentSearchRequest : Type := mkAgentSearch { as_Query : string; as_Limit : Z }.
Record StorePutRequest : Type := mkStorePut { sp_Namespace : string; sp_Key : string; sp_Value : string }.
Record StoreSearchRequest : Type := mkStoreSearch { ss_Namespace : string; ss_Prefix : string }.

(** What each structure would be decoded to; [None] is a decoding error. *)
Record Body : Type := mkBody {
  bo_CreateRun : option CreateRunRequest;
  bo_RunWait : option RunWaitRequest;
  bo_CreateThread : option CreateThreadRequest;
  bo_ThreadsSearch : option ThreadsSearchRequest;
  bo_Object : option amap;
  bo_AgentSearch : option AgentSearchRequest;
  bo_StorePut : option StorePutRequest;
  bo_StoreSearch : option StoreSearchRequest
}.

Record Request : Type := mkRequest { rq_Method : string; rq_Path : string; rq_Body : Body }.

Record RunResponse : Type := mkRunResponse {
  rr_RunID : string; rr_Status : string; rr_Output : string; rr_ExitCode : option Z; rr_Error : string
}.

Record ThreadResponse : Type := mkThreadResponse { tr_ThreadID : string; tr_AgentID : string; tr_Metadata : gmap string string }.

(** The text of an error response, as a literal or the error it prints. *)
Inductive Message : Type :=
  | Text (s : string)
  | RunText (e : RunErr) | CancelText (e : CancelErr) | SessionText (e : RegErr) | AgentText (profileID : string) | ListText (e : OsErr) | StoreText (e : StoreErr).

(** Events of a stream: their type and data. *)
Inductive EventData : Type := Chunk (data : string) | ErrorEvent (m : Message) | DoneEvent (runID status : string) (exitCode : option Z) | RunningEvent (runID : string).

Inductive Payload : Type :=
  | Failure (m : Message)
  | Note (message : string)
  | Run (r : RunResponse)
  | Thread (r : ThreadResponse)
  | Threads (l : list SessionState) (count : Z)
  | History (s : SessionState)
  | ThreadRuns (threadID : string)
  | Agents (l : list AgentInfo)
  | AgentDetail (a : AgentInfo) (schemas : list ActionSchema)
  | Schemas (agentID : string) (schemas : list ActionSchema)
  | Item (namespace key value : string)
  | Items (namespace : string) (items : gmap string string)
  | Namespaces (l : list string)
  | Events (l : list (string * EventData))
  | NoContent
  | Crash.

Record Response : Type := mkResponse { rs_Code : Z; rs_Payload : Payload }.

Definition StatusOK : Z := 200.
Definition StatusCreated : Z := 201.
Definition StatusAccepted : Z := 202.
Definition StatusNoContent : Z := 204.
Definition StatusBadRequest : Z := 400.
Definition StatusNotFound : Z := 404.
Definition StatusMethodNotAllowed : Z := 405.
Definition StatusInternalServerError : Z := 500.
Definition StatusNotImplemented : Z := 501.

Definition sendError (code : Z) (m : Message) : Response := mkResponse code (Failure m).
Definition sendJSON (code : Z) (p : Payload) : Response := mkResponse code p.

Definition runResponseFromState (s : RunState) : RunResponse :=
  mkRunResponse (rn_RunID s) (rn_Status s) (rn_Output s) (rn_ExitCode s) (rn_Error s).

(** [req.Input["input"].(string)]. *)
Definition payloadOf (input : option amap) : string :=
  match input with
  | Some m => match mget m "input" with Some (AStr s) => s | _ => "" end
  | None => ""
  end.

(** The entries of an object that are strings. *)
Definition stringEntries (m : amap) : gmap string string :=
  list_to_map (reverse (omap (fun kv => match kv.2 with AStr s => Some (kv.1, s) | _ => None end) m)).

(** *** The stream of events *)

Record SSEWriter : Type := mkSSE { sw_Closed : bool; sw_Events : list (string * EventData) }.

Definition NewSSEWriter : SSEWriter := mkSSE false [].

(** [false]: the writer is closed. *)
Definition SSE_send (w : SSEWriter) (event : string) (d : EventData) : SSEWriter * bool :=
  if sw_Closed w then (w, false) else (mkSSE false (sw_Events w ++ [(event, d)]), true).
Definition SSE_Write (w : SSEWriter) (event data : string) : SSEWriter * bool := SSE_send w event (Chunk data).
Definition WriteEvent (w : SSEWriter) (eventType : string) (d : EventData) : SSEWriter * bool := SSE_send w eventType d.
Definition SSE_Close (w : SSEWriter) : SSEWriter := mkSSE true (sw_Events w).

(** *** Paths *)

(** The non-empty segments, built byte by byte. *)
Fixpoint partsLoop (l current : list ascii) (parts : list string) : list string :=
  match l with
  | [] => match current with [] => parts | _ => parts ++ [unchars current] end
  | c :: l =>
      if decide (c = slash) then partsLoop l [] (match current with [] => parts | _ => parts ++ [unchars current] end)
      else partsLoop l (current ++ [c]) parts
  end.

Definition parsePathParts (path : string) : list string := partsLoop (chars path) [] [].

Definition runsPrefix : string := "/v1/runs/".
Definition threadsPrefix : string := "/v1/threads/".
Definition agentsPrefix : string := "/v1/agents/".
Definition storePrefix : string := "/v1/store/".

(** [parts[0]] when there are two parts and [parts[1]] is the given word. *)
Definition idBefore (path word : string) : option string :=
  match segments path with
  | id :: w :: _ => if decide (w = word) then Some id else None
  | _ => None
  end.

(** *** Handlers *)

(** What a background run leads to: a durable job, or a call of RunAction. *)
Inductive Background : Type :=
  | Enqueued (profileID actionID threadID input : string)
  | Spawned (profileID actionID input : string).

Record AgentState : Type := mkAgentState {
  ag_Machine : Machine; ag_Sessions : Rows; ag_Store : StoreFS; ag_Background : list Background
}.

Definition set_machine (s : AgentState) (m : Machine) : AgentState := mkAgentState m (ag_Sessions s) (ag_Store s) (ag_Background s).
Definition set_sessions (s : AgentState) (m : Rows) : AgentState := mkAgentState (ag_Machine s) m (ag_Store s) (ag_Background s).
Definition set_store (s : AgentState) (fs : StoreFS) : AgentState := mkAgentState (ag_Machine s) (ag_Sessions s) fs (ag_Background s).
Definition add_background (s : AgentState) (b : Background) : AgentState :=
  mkAgentState (ag_Machine s) (ag_Sessions s) (ag_Store s) (ag_Background s ++ [b]).

(** What a request meets besides the state: how its run goes, a new session id and two
    readings of the clock, whether the job queue takes a job and the writer can flush. *)
Record Meets : Type := mkMeets { me_World : RunWorld; me_SessionID : string; me_Now : Z; me_Registered : Z; me_Enqueues : bool; me_Flusher : bool }.

Section Handlers.
Context `{D : Dotenv, K : KvStore SessionInfo, M : StateMachine}.
Variable env : OsEnv Content.
Variable order : gmap string string -> list (string * string).
Variables (data cwd : Path) (Environ : list string) (cfg : Config).
Variables (found : string -> bool) (getenv : string -> string) (userConfigDir : string) (bundles : Res BundleErr BundleRegistry).
Variables (storeEnv : OsEnv (option StoreItem)) (storeDir : Path).
(** [kitapi.MapError]: the status of an error. *)
Variable MapError : RunErr -> Z.

Abbreviation executeRun := (ExecuteRun env order data cwd Environ cfg found getenv userConfigDir bundles).

Definition input_of_create (r : CreateRunRequest) (threadID : string) : RunInput :=
  mkRunInput (cr_AgentID r) (cr_ActionID r) (payloadOf (cr_Input r)) threadID.

Definition input_of_wait (r : RunWaitRequest) (threadID : string) : RunInput :=
  mkRunInput (wt_AgentID r) (wt_ActionID r) (payloadOf (wt_Input r)) threadID.

(** The answer to a run, with the status of an error by [code]. *)
Definition answerRun (s : AgentState) (w : RunWorld) (input : RunInput) (success : Z) (code : RunErr -> Z) : AgentState * Response :=
  match executeRun (ag_Machine s) w input false with
  | (m, Some (Ok state)) => (set_machine s m, sendJSON success (Run (runResponseFromState state)))
  | (m, Some (Err e)) => (set_machine s m, sendError (code e) (RunText e))
  | (m, None) => (set_machine s m, mkResponse 0 Crash)
  end.

Definition notAllowed (s : AgentState) : AgentState * Response := (s, sendError StatusMethodNotAllowed (Text "method not allowed")).
Definition badBody (s : AgentState) : AgentState * Response := (s, sendError StatusBadRequest (Text "invalid request body")).
Definition badRequest (s : AgentState) (m : string) : AgentState * Response := (s, sendError StatusBadRequest (Text m)).

Definition handleCreateRun (c : Meets) (s : AgentState) (r : Request) : AgentState * Response :=
  if decide (rq_Method r <> "POST") then notAllowed s
  else match bo_CreateRun (rq_Body r) with
       | None => badBody s
       | Some req => answerRun s (me_World c) (input_of_create req (cr_SessionID req)) StatusCreated MapError
       end.

Definition waitStatus (e : RunErr) : Z :=
  match e with RunResourceMissing _ => StatusNotFound | RunInvalid _ => StatusBadRequest | _ => StatusInternalServerError end.

Definition handleRunWait (c : Meets) (s : AgentState) (r : Request) : AgentState * Response :=
  if decide (rq_Method r <> "POST") then notAllowed s
  else match bo_RunWait (rq_Body r) with
       | None => badBody s
       | Some req => answerRun s (me_World c) (input_of_wait req (wt_ThreadID req)) StatusOK waitStatus
       end.

Definition handleGetRun (s : AgentState) (r : Request) : AgentState * Response :=
  if decide (rq_Method r <> "GET") then notAllowed s
  else
    let path := sdrop (length (chars runsPrefix)) (rq_Path r) in
    if decide (path = "") then badRequest s "run id required"
    else match GetRun (ag_Machine s) path with
         | None => (s, sendError StatusNotFound (Text "run not found"))
         | Some state => (s, sendJSON StatusOK (Run (runResponseFromState state)))
         end.

Definition handleRunCancelFromPath (s : AgentState) (r : Request) : AgentState * Response :=
  let path := TrimPrefix (rq_Path r) runsPrefix in
  if decide (path = "") then badRequest s "run id required"
  else
    let runID := TrimSuffix path "/cancel" in
    if decide (runID = path) then badRequest s "invalid path"
    else match CancelRun (ag_Machine s) runID with
         | (m, Err e) => (set_machine s m, sendError StatusInternalServerError (CancelText e))
         | (m, Ok _) => (set_machine s m, mkResponse StatusNoContent NoContent)
         end.

Definition handleRunAction (s : AgentState) (r : Request) : AgentState * Response :=
  if decide (rq_Method r <> "POST") then notAllowed s
  else match parsePathParts (sdrop (length (chars runsPrefix)) (rq_Path r)) with
       | _ :: action :: _ =>
           if decide (action = "cancel") then handleRunCancelFromPath s r else (s, sendError StatusNotFound (Text "unknown action"))
       | _ => badRequest s "invalid path"
       end.

(** The stream takes what is written until it is closed. *)
Definition streamed (w : RunWorld) : RunWorld :=
  mkRunWorld (wo_RunID w) (wo_Files w) (wo_Now w) (wo_Pipe w) (wo_Stdin w) (wo_Start w) (map (fun o => (o.1, true)) (wo_Output w)) (wo_End w).

(** The writer after [streamOutput]: its pieces are sent, then it is closed; it never
    started when the command could not be made. *)
Definition afterOutput (c : option Call) : SSEWriter :=
  match c with
  | None => NewSSEWriter
  | Some c =>
      let w := foldl (fun w piece => (SSE_Write w "output" piece).1) NewSSEWriter (cl_Sent c) in
      match cl_Phase c with Returned (Some _) => w | _ => SSE_Close w end
  end.

Definition handleRunStream (c : Meets) (s : AgentState) (r : Request) : AgentState * Response :=
  if decide (rq_Method r <> "POST") then notAllowed s
  else match bo_RunWait (rq_Body r) with
       | None => badBody s
       | Some req =>
           if negb (me_Flusher c) then (s, sendError StatusInternalServerError (Text "streaming not supported"))
           else
             let w := streamed (me_World c) in
             let input := input_of_wait req "" in
             let '(m, result) := executeRun (ag_Machine s) w input true in
             let call := match checkRun env data (wo_Files w) input with Ok _ => mc_Calls m !! wo_RunID w | Err _ => None end in
             let writer := afterOutput call in
             match result with
             | None => (set_machine s m, mkResponse 0 Crash)
             | Some (Err e) => (set_machine s m, mkResponse StatusOK (Events (sw_Events (WriteEvent writer "error" (ErrorEvent (RunText e))).1)))
             | Some (Ok state) =>
                 (set_machine s m,
                  mkResponse StatusOK
                    (Events (sw_Events (WriteEvent writer "done" (DoneEvent (rn_RunID state) (rn_Status state) (rn_ExitCode state))).1)))
             end
       end.

Definition finished (status : string) : bool :=
  bool_decide (status = RunStatusCompleted \/ status = RunStatusFailed \/ status = RunStatusCancelled).

(** No route leads here. *)
Definition handleRunStreamExisting (c : Meets) (s : AgentState) (r : Request) : AgentState * Response :=
  if decide (rq_Method r <> "GET") then notAllowed s
  else match idBefore (TrimPrefix (rq_Path r) runsPrefix) "stream" with
       | None => badRequest s "invalid path"
       | Some runID =>
           if negb (me_Flusher c) then (s, sendError StatusInternalServerError (Text "streaming not supported"))
           else
             let event := match GetRun (ag_Machine s) runID with
                          | None => ("error", ErrorEvent (Text "run not found"))
                          | Some state => if finished (rn_Status state) then ("done", DoneEvent (rn_RunID state) (rn_Status state) (rn_ExitCode state))
                                          else ("running", RunningEvent runID)
                          end in
             (s, mkResponse StatusOK (Events (sw_Events (WriteEvent NewSSEWriter event.1 event.2).1)))
       end.

Definition handleRunsCreateBackground (c : Meets) (s : AgentState) (r : Request) : AgentState * Response :=
  if decide (rq_Method r <> "POST") then notAllowed s
  else match bo_CreateRun (rq_Body r) with
       | None => badBody s
       | Some req =>
           let input := input_of_create req (cr_SessionID req) in
           let b := if me_Enqueues c then Enqueued (ri_ProfileID input) (ri_ActionID input) (ri_ThreadID input) (ri_Payload input)
                    else Spawned (ri_ProfileID input) (ri_ActionID input) (ri_Payload input) in
           (add_background s b, sendJSON StatusAccepted (Note "run started in background"))
       end.

Definition handleRunsWaitExisting (s : AgentState) (r : Request) : AgentState * Response :=
  if decide (rq_Method r <> "GET") then notAllowed s
  else match idBefore (TrimPrefix (rq_Path r) runsPrefix) "wait" with
       | None => badRequest s "invalid path"
       | Some runID =>
           match GetRun (ag_Machine s) runID with
           | None => (s, sendError StatusNotFound (Text "run not found"))
           | Some state =>
               if decide (rn_Status state = RunStatusPending \/ rn_Status state = RunStatusRunning)
               then (s, sendError StatusAccepted (Text "run is still in progress"))
               else (s, sendJSON StatusOK (Run (runResponseFromState state)))
           end
       end.

Definition handleRunsDelete (s : AgentState) (r : Request) : AgentState * Response :=
  if decide (rq_Method r <> "DELETE") then notAllowed s
  else if decide (TrimPrefix (rq_Path r) runsPrefix = "") then badRequest s "run id required"
  else (s, sendJSON StatusNotImplemented (Note "run deletion not yet implemented")).

Definition handleRunsStreamExisting (c : Meets) (s : AgentState) (r : Request) : AgentState * Response :=
  if decide (rq_Method r <> "GET") then notAllowed s
  else match idBefore (TrimPrefix (rq_Path r) runsPrefix) "stream" with
       | None => badRequest s "invalid path"
       | Some runID =>
           match GetRun (ag_Machine s) runID with
           | None => (s, sendError StatusNotFound (Text "run not found"))
           | Some state =>
               if finished (rn_Status state) then badRequest s "run has completed, cannot stream"
               else if negb (me_Flusher c) then (s, sendError StatusInternalServerError (Text "streaming not supported"))
               else (s, mkResponse StatusOK (Events (sw_Events (WriteEvent NewSSEWriter "running" (RunningEvent runID)).1)))
           end
       end.

(** **** Threads *)

Definition threadResponse (s : SessionState) : ThreadResponse := mkThreadResponse (se_SessionID s) (se_ProfileID s) (se_Metadata s).

Definition handleCreateThread (c : Meets) (s : AgentState) (r : Request) : AgentState * Response :=
  match bo_CreateThread (rq_Body r) with
  | None => badBody s
  | Some req =>
      match CreateSession (me_SessionID c) (me_Now c) (me_Registered c) (ag_Sessions s) (ct_AgentID req) (stringEntries (ct_Metadata req)) with
      | (m, Err e) => (set_sessions s m, sendError StatusInternalServerError (SessionText e))
      | (m, Ok session) => (set_sessions s m, sendJSON StatusCreated (Thread (threadResponse session)))
      end
  end.

Definition handleThreadsGet (s : AgentState) (r : Request) : AgentState * Response :=
  if decide (rq_Method r <> "GET") then notAllowed s
  else
    let path := TrimPrefix (rq_Path r) threadsPrefix in
    if decide (path = "") then badRequest s "thread id required"
    else match GetSession (ag_Sessions s) path with
         | None => (s, sendError StatusNotFound (Text ("not found: " +:+ path)))
         | Some session => (s, sendJSON StatusOK (Thread (threadResponse session)))
         end.

Definition noThreadPath (path : string) : bool := bool_decide (path = "") || Contains path "/history" || Contains path "/runs".

Definition handleThreadsDelete (s : AgentState) (r : Request) : AgentState * Response :=
  if decide (rq_Method r <> "DELETE") then notAllowed s
  else
    let path := TrimPrefix (rq_Path r) threadsPrefix in
    if noThreadPath path then badRequest s "thread id required"
    else match DeleteSession (ag_Sessions s) path with
         | (m, Err e) => (set_sessions s m, sendError StatusInternalServerError (SessionText e))
         | (m, Ok _) => (set_sessions s m, mkResponse StatusNoContent NoContent)
         end.

(** The session of an update that cannot be read again is a nil pointer. *)
Definition answerUpdate (s : AgentState) (path : string) : Response :=
  match GetSession (ag_Sessions s) path with
  | None => mkResponse 0 Crash
  | Some session => sendJSON StatusOK (Thread (threadResponse session))
  end.

Definition updated (c : Meets) (s : AgentState) (r : Request) (path : string) : AgentState * Response :=
  match bo_Object (rq_Body r) with
  | None => badBody s
  | Some req =>
      match UpdateSession (me_Now c) (ag_Sessions s) path (stringEntries req) with
      | (m, Err e) => (set_sessions s m, sendError StatusInternalServerError (SessionText e))
      | (m, Ok _) => let s := set_sessions s m in (s, answerUpdate s path)
      end
  end.

Definition handleThreadsUpdate (c : Meets) (s : AgentState) (r : Request) : AgentState * Response :=
  if decide (rq_Method r <> "PATCH") then notAllowed s
  else
    let path := TrimPrefix (rq_Path r) threadsPrefix in
    if noThreadPath path then badRequest s "thread id required" else updated c s r path.

(** [sessions[:limit]]. *)
Definition limited {A} (limit : Z) (l : list A) : list A := if decide (0 < limit < Z.of_nat (length l)) then take (Z.to_nat limit) l else l.

Definition handleThreadsSearch (s : AgentState) (r : Request) : AgentState * Response :=
  if decide (rq_Method r <> "POST") then notAllowed s
  else match bo_ThreadsSearch (rq_Body r) with
       | None => badBody s
       | Some req =>
           let sessions := limited (ts_Limit req) (ListSessions (ag_Sessions s) (ts_AgentID req)) in
           (s, sendJSON StatusOK (Threads sessions (Z.of_nat (length sessions))))
       end.

Definition handleThreadHistory (s : AgentState) (r : Request) : AgentState * Response :=
  if decide (rq_Method r <> "GET") then notAllowed s
  else match idBefore (TrimPrefix (rq_Path r) threadsPrefix) "history" with
       | None => badRequest s "invalid path"
       | Some threadID =>
           match GetSession (ag_Sessions s) threadID with
           | None => (s, sendError StatusNotFound (Text "thread not found"))
           | Some session => (s, sendJSON StatusOK (History session))
           end
       end.

Definition handleThreadRunCreate (c : Meets) (s : AgentState) (r : Request) : AgentState * Response :=
  match idBefore (TrimPrefix (rq_Path r) threadsPrefix) "runs" with
  | None => badRequest s "invalid path"
  | Some threadID =>
      match bo_CreateRun (rq_Body r) with
      | None => badBody s
      | Some req => answerRun s (me_World c) (input_of_create req threadID) StatusCreated (fun _ => StatusInternalServerError)
      end
  end.

Definition handleThreadRunsList (s : AgentState) (r : Request) : AgentState * Response :=
  match idBefore (TrimPrefix (rq_Path r) threadsPrefix) "runs" with
  | None => badRequest s "invalid path"
  | Some threadID =>
      match GetSession (ag_Sessions s) threadID with
      | None => (s, sendError StatusNotFound (Text "thread not found"))
      | Some _ => (s, sendJSON StatusOK (ThreadRuns threadID))
      end
  end.

(** No route leads to the three that follow. *)
Definition handleThreadRuns (c : Meets) (s : AgentState) (r : Request) : AgentState * Response :=
  if decide (rq_Method r = "POST") then handleThreadRunCreate c s r
  else if decide (rq_Method r = "GET") then handleThreadRunsList s r else notAllowed s.

Definition handleThreadDelete (s : AgentState) (r : Request) : AgentState * Response :=
  if decide (rq_Method r <> "DELETE") then notAllowed s
  else
    let path := TrimPrefix (rq_Path r) threadsPrefix in
    if decide (path = "") then badRequest s "thread id required"
    else match DeleteSession (ag_Sessions s) path with
         | (m, Err e) => (set_sessions s m, sendError StatusInternalServerError (SessionText e))
         | (m, Ok _) => (set_sessions s m, mkResponse StatusNoContent NoContent)
         end.

Definition handleThreadUpdate (c : Meets) (s : AgentState) (r : Request) : AgentState * Response :=
  if decide (rq_Method r <> "PATCH") then notAllowed s
  else
    let path := TrimPrefix (rq_Path r) threadsPrefix in
    if decide (path = "") then badRequest s "thread id required" else updated c s r path.

(** **** Agents *)

Definition handleAgentSearch (fs : FS Content) (s : AgentState) (r : Request) : AgentState * Response :=
  if decide (rq_Method r <> "POST" /\ rq_Method r <> "GET") then notAllowed s
  else match (if decide (rq_Method r = "POST") then bo_AgentSearch (rq_Body r) else Some (mkAgentSearch "" 0)) with
       | None => badBody s
       | Some req =>
           match ListAgents env data fs with
           | Err e => (s, sendError StatusInternalServerError (ListText e))
           | Ok agents =>
               let q := as_Query req in
               let result := filter (fun a => q = "" \/ Contains (ai_Name a) q = true \/ Contains (ai_ID a) q = true) agents in
               (s, sendJSON StatusOK (Agents (limited (as_Limit req) result)))
           end
       end.

Definition handleGetAgentSchemas (fs : FS Content) (s : AgentState) (agentID : string) : AgentState * Response :=
  (s, sendJSON StatusOK (Schemas agentID (GetAgentSchemas env data fs agentID))).

Definition handleAgentsGet (fs : FS Content) (s : AgentState) (r : Request) : AgentState * Response :=
  if decide (rq_Method r <> "GET") then notAllowed s
  else
    let path := TrimPrefix (rq_Path r) agentsPrefix in
    if decide (path = "") then badRequest s "agent id required"
    else if Contains path "/schemas" then
      match segments path with
      | agentID :: _ :: _ => handleGetAgentSchemas fs s agentID
      | _ => badRequest s "invalid path"
      end
    else match GetAgent env data fs path with
         | None => (s, sendError StatusNotFound (AgentText path))
         | Some a => (s, sendJSON StatusOK (AgentDetail a (GetAgentSchemas env data fs path)))
         end.

(** **** Store *)

Definition handleStorePut (c : Meets) (s : AgentState) (r : Request) : AgentState * Response :=
  if decide (rq_Method r <> "POST" /\ rq_Method r <> "PUT") then notAllowed s
  else match bo_StorePut (rq_Body r) with
       | None => badBody s
       | Some req =>
           if decide (sp_Namespace req = "") then badRequest s "namespace is required"
           else if decide (sp_Key req = "") then badRequest s "key is required"
           else match StorePut storeEnv storeDir (me_Now c) (ag_Store s) (sp_Namespace req) (sp_Key req) (sp_Value req) with
                | (fs, Err e) => (set_store s fs, sendError StatusInternalServerError (StoreText e))
                | (fs, Ok _) => (set_store s fs, sendJSON StatusCreated (Note "item stored successfully"))
                end
       end.

(** The namespace and the key of a path, [None] with the reason. *)
Definition itemPath (path : string) : Res string (string * string) :=
  if decide (path = "") then Err "invalid path"
  else match segments path with namespace :: key :: _ => Ok (namespace, key) | _ => Err "namespace and key required" end.

Definition handleStoreGet (s : AgentState) (r : Request) : AgentState * Response :=
  if decide (rq_Method r <> "GET") then notAllowed s
  else match itemPath (TrimPrefix (rq_Path r) storePrefix) with
       | Err m => badRequest s m
       | Ok (namespace, key) =>
           match StoreGet storeEnv storeDir (ag_Store s) namespace key with
           | Err _ => (s, sendError StatusNotFound (Text "item not found"))
           | Ok value => (s, sendJSON StatusOK (Item namespace key value))
           end
       end.

Definition handleStoreDelete (s : AgentState) (r : Request) : AgentState * Response :=
  if decide (rq_Method r <> "DELETE") then notAllowed s
  else match itemPath (TrimPrefix (rq_Path r) storePrefix) with
       | Err m => badRequest s m
       | Ok (namespace, key) =>
           match StoreDelete storeEnv storeDir (ag_Store s) namespace key with
           | (fs, Err e) => (set_store s fs, sendError StatusInternalServerError (StoreText e))
           | (fs, Ok _) => (set_store s fs, mkResponse StatusNoContent NoContent)
           end
       end.

(** No route leads here. *)
Definition handleStoreSearch (s : AgentState) (r : Request) : AgentState * Response :=
  if decide (rq_Method r <> "POST") then notAllowed s
  else match bo_StoreSearch (rq_Body r) with
       | None => badBody s
       | Some req =>
           match StoreSearch storeEnv storeDir (ag_Store s) (ss_Namespace req) (ss_Prefix req) with
           | Err StorePanic => (s, mkResponse 0 Crash)
           | Err e => (s, sendError StatusInternalServerError (StoreText e))
           | Ok result => (s, sendJSON StatusOK (Items (ss_Namespace req) result))
           end
       end.

Definition handleStoreNamespaces (s : AgentState) (r : Request) : AgentState * Response :=
  if decide (rq_Method r <> "POST" /\ rq_Method r <> "GET") then notAllowed s
  else match StoreListNamespaces storeEnv storeDir (ag_Store s) with
       | Err e => (s, sendError StatusInternalServerError (StoreText e))
       | Ok namespaces => (s, sendJSON StatusOK (Namespaces namespaces))
       end.

(** *** Routes *)

Inductive Handler : Type :=
  | HCreateRun | HRunWait | HRunStream | HRunsCreateBackground | HCreateThread | HThreadsSearch | HAgentSearch | HAgentsGet | HStorePut
  | HStoreGet | HStoreDelete | HStoreNamespaces | HSkillsList | HSkillsGetOrInvoke
  | HGetRun | HRunAction | HRunCancelFromPath | HRunsWaitExisting | HRunsStreamExisting | HThreadHistory | HThreadRunCreate | HThreadRunsList
  | HThreadsGet | HThreadsDelete | HThreadsUpdate | HRunsDelete | HNotFound.

(** The patterns with a method; one that ends in a slash stands for the paths below it. *)
Definition patterns : list (string * string * Handler) :=
  [("POST", "/v1/runs", HCreateRun); ("POST", "/v1/runs/wait", HRunWait); ("POST", "/v1/runs/stream", HRunStream);
   ("POST", "/v1/runs/background", HRunsCreateBackground); ("POST", "/v1/threads", HCreateThread); ("POST", "/v1/threads/search", HThreadsSearch);
   ("POST", "/v1/agents/search", HAgentSearch); ("GET", "/v1/agents/", HAgentsGet); ("PUT", "/v1/store", HStorePut); ("POST", "/v1/store", HStorePut);
   ("GET", "/v1/store/", HStoreGet); ("DELETE", "/v1/store/", HStoreDelete); ("POST", "/v1/store/namespaces", HStoreNamespaces);
   ("GET", "/v1/skills", HSkillsList); ("GET", "/v1/skills/", HSkillsGetOrInvoke); ("POST", "/v1/skills/", HSkillsGetOrInvoke)].

(** The function of the pattern "/". *)
Definition fallback (method path : string) : Handler :=
  let run := HasPrefix path runsPrefix in
  let thread := HasPrefix path threadsPrefix in
  let via m := bool_decide (method = m) in
  if run && negb (Contains path "/wait") && negb (Contains path "/stream") && via "GET" then HGetRun
  else if run && negb (Contains path "/cancel") && via "POST" then HRunAction
  else if run && HasSuffix path "/cancel" && via "POST" then HRunCancelFromPath
  else if run && Contains path "/wait" && via "GET" then HRunsWaitExisting
  else if run && Contains path "/stream" && via "GET" then HRunsStreamExisting
  else if thread && Contains path "/history" then HThreadHistory
  else if thread && Contains path "/runs" && via "POST" then HThreadRunCreate
  else if thread && Contains path "/runs" && via "GET" then HThreadRunsList
  else if thread && via "GET" && negb (Contains path "/history") && negb (Contains path "/runs") then HThreadsGet
  else if thread && via "DELETE" then HThreadsDelete
  else if thread && via "PATCH" then HThreadsUpdate
  else if run && via "DELETE" then HRunsDelete
  else HNotFound.

(** A pattern for GET serves HEAD too. *)
Definition serves (pattern method : string) : bool := bool_decide (pattern = method) || (bool_decide (pattern = "GET") && bool_decide (method = "HEAD")).

(** ServeMux on a clean path: the pattern of the path itself, a redirect to the path with a
    slash if only that is a pattern, the pattern of a path above, and "/" for what is left. *)
Inductive Routed : Type := To (h : Handler) | Redirect (path : string).

Definition route (method path : string) : Routed :=
  let candidates := filter (fun p => serves p.1.1 method = true) patterns in
  match list_find (fun p => p.1.2 = path) candidates with
  | Some (_, p) => To p.2
  | None =>
      if existsb (fun p => bool_decide (p.1.2 = path +:+ "/")) candidates then Redirect (path +:+ "/")
      else match list_find (fun p => HasSuffix p.1.2 "/" = true /\ HasPrefix path p.1.2 = true) candidates with
           | Some (_, p) => To p.2
           | None => To (fallback method path)
           end
  end.

(** The handlers of skills belong to another component. *)
Definition handle (h : Handler) (c : Meets) (s : AgentState) (r : Request) : option (AgentState * Response) :=
  match h with
  | HCreateRun => Some (handleCreateRun c s r)
  | HRunWait => Some (handleRunWait c s r)
  | HRunStream => Some (handleRunStream c s r)
  | HRunsCreateBackground => Some (handleRunsCreateBackground c s r)
  | HCreateThread => Some (handleCreateThread c s r)
  | HThreadsSearch => Some (handleThreadsSearch s r)
  | HAgentSearch => Some (handleAgentSearch (wo_Files (me_World c)) s r)
  | HAgentsGet => Some (handleAgentsGet (wo_Files (me_World c)) s r)
  | HStorePut => Some (handleStorePut c s r)
  | HStoreGet => Some (handleStoreGet s r)
  | HStoreDelete => Some (handleStoreDelete s r)
  | HStoreNamespaces => Some (handleStoreNamespaces s r)
  | HSkillsList | HSkillsGetOrInvoke => None
  | HGetRun => Some (handleGetRun s r)
  | HRunAction => Some (handleRunAction s r)
  | HRunCancelFromPath => Some (handleRunCancelFromPath s r)
  | HRunsWaitExisting => Some (handleRunsWaitExisting s r)
  | HRunsStreamExisting => Some (handleRunsStreamExisting c s r)
  | HThreadHistory => Some (handleThreadHistory s r)
  | HThreadRunCreate => Some (handleThreadRunCreate c s r)
  | HThreadRunsList => Some (handleThreadRunsList s r)
  | HThreadsGet => Some (handleThreadsGet s r)
  | HThreadsDelete => Some (handleThreadsDelete s r)
  | HThreadsUpdate => Some (handleThreadsUpdate c s r)
  | HRunsDelete => Some (handleRunsDelete s r)
  | HNotFound => Some (s, mkResponse StatusNotFound (Note "404 page not found"))
  end.

(** One request of an adapter that serves its routes; [None] where a redirect or another
    component answers. *)
Definition serve (c : Meets) (s : AgentState) (r : Request) : option (AgentState * Response) :=
  match route (rq_Method r) (rq_Path r) with
  | Redirect _ => None
  | To h => handle h c s r
  end.

(** The handler of a durable job: its payload decoded, [run] is RunAction. *)
Definition runActionJobHandler (run : string -> string -> string -> Res ExecErr unit) (payload : option (string * string * string)) : Res string unit :=
  match payload with
  | None => Err "action.run: decode payload"
  | Some (profileID, actionID, input) =>
      if decide (profileID = "" \/ actionID = "") then Err "action.run: profile_id and action_id required"
      else match run profileID actionID input with Err _ => Err "action.run" | Ok _ => Ok tt end
  end.
End Handlers.

(** ** Routing *)

Lemma prefixb_segment w l : slash ∉ w -> prefixb w l = prefixb w (hd [] (splitOn slash l)).
Proof.
  revert l. induction w as [|c w IH]; intros l Hw; [by destruct l, (hd _ _)|]. apply not_elem_of_cons in Hw as [Hc Hw].
  destruct l as [|x l]; [done|]. cbn [splitOn]. destruct (decide (x = slash)) as [->|Hx].
  - cbn. by rewrite bool_decide_eq_false_2 by done.
  - specialize (IH l Hw). destruct (splitOn slash l) as [|s ss] eqn:E; [by apply splitOn_not_nil in E|]. cbn in *. by rewrite IH.
Qed.

(** A word behind a slash is found where a segment but the first starts with it. *)
Lemma infixb_segments w l : slash ∉ w -> infixb (slash :: w) l = existsb (prefixb w) (tl (splitOn slash l)).
Proof.
  intros Hw. induction l as [|x l IH]; [done|]. pose proof (prefixb_segment w l Hw) as Hp. cbn [splitOn infixb prefixb].
  destruct (splitOn slash l) as [|s ss] eqn:E; [by apply splitOn_not_nil in E|]. cbn [hd tl existsb] in *.
  destruct (decide (x = slash)) as [->|Hx].
  - rewrite bool_decide_eq_true_2 by done. cbn. by rewrite Hp, IH.
  - rewrite bool_decide_eq_false_2 by congruence. exact IH.
Qed.

Lemma Contains_segments path w : slash ∉ chars w -> Contains path ("/" +:+ w) = existsb (fun s => HasPrefix s w) (tl (segments path)).
Proof.
  intros Hw. unfold Contains. change (chars ("/" +:+ w)) with (slash :: chars w). rewrite infixb_segments by done. unfold segments.
  destruct (splitOn slash (chars path)) as [|s ss]; [done|]. cbn [map tl]. induction ss as [|x ss IH]; [done|]. cbn [map existsb].
  rewrite IH. unfold HasPrefix at 2. by rewrite chars_unchars.
Qed.

(** Identifiers that no word of the routes starts. *)
Definition plainID (x : string) : Prop :=
  x <> "" /\ (slash ∉ chars x) /\ forallb (fun w => negb (HasPrefix x w)) ["wait"; "stream"; "cancel"; "history"; "runs"] = true.

Lemma splitOn_slash l k : splitOn slash (l ++ slash :: k) = splitOn slash l ++ splitOn slash k.
Proof.
  induction l as [|x l IH]; [done|]. cbn. destruct (decide (x = slash)); [by rewrite IH|].
  rewrite IH. by destruct (splitOn slash l) as [|s ss] eqn:E; [by apply splitOn_not_nil in E|].
Qed.

Lemma segments_app a b : segments (a +:+ "/" +:+ b) = segments a ++ segments b.
Proof. unfold segments. rewrite <- map_app, <- splitOn_slash. by rewrite !chars_app. Qed.

Lemma segments_one x : slash ∉ chars x -> segments x = [x].
Proof. intros H. unfold segments. rewrite splitOn_single by done. simpl. by rewrite unchars_chars. Qed.

Lemma route_fallback method path :
  forallb (fun p => negb (bool_decide (p.1.2 = path)) && negb (bool_decide (p.1.2 = path +:+ "/")) && negb (HasSuffix p.1.2 "/" && HasPrefix path p.1.2))
    (filter (fun p => serves p.1.1 method = true) patterns) = true ->
  route method path = To (fallback method path).
Proof.
  unfold route. generalize (filter (fun p => serves p.1.1 method = true) patterns) as l. intros l H.
  rewrite forallb_forall in H.
  assert (forall p, p ∈ l -> p.1.2 <> path /\ p.1.2 <> path +:+ "/" /\ ~ (HasSuffix p.1.2 "/" = true /\ HasPrefix path p.1.2 = true)) as H'.
  { intros p Hp%list_elem_of_In. specialize (H p Hp). rewrite !andb_true_iff, !negb_true_iff, !bool_decide_eq_false, andb_false_iff in H.
    destruct H as [[H1 H2] H3]. split; [done|]. split; [done|]. intros [E1 E2]. rewrite E1, E2 in H3. by destruct H3. }
  rewrite (proj2 (list_find_None _ l)); [|apply Forall_forall; intros p Hp; by apply H'].
  replace (existsb _ l) with false.
  - rewrite (proj2 (list_find_None _ l)); [done|]. apply Forall_forall. intros p Hp. by apply H'.
  - symmetry. apply not_true_iff_false. rewrite existsb_exists. intros (p & Hp%list_elem_of_In & E%bool_decide_eq_true). by destruct (H' p Hp) as (_ & ? & _).
Qed.

(** Paths of a run or a thread. *)
Definition idPath (kind x : string) (rest : option string) : string :=
  "" +:+ "/" +:+ "v1" +:+ "/" +:+ kind +:+ "/" +:+ match rest with Some w => x +:+ "/" +:+ w | None => x end.

Lemma idPath_segments kind x rest : slash ∉ chars kind -> slash ∉ chars x -> (forall w, rest = Some w -> slash ∉ chars w) ->
  segments (idPath kind x rest) = "" :: "v1" :: kind :: x :: option_list rest.
Proof.
  intros Hk Hx Hw. unfold idPath. rewrite (segments_app ""), (segments_app "v1"), (segments_app kind), (segments_one kind) by done.
  destruct rest as [w|]; [rewrite (segments_app x), (segments_one w) by (by apply Hw)|]; by rewrite (segments_one x).
Qed.

Lemma word_free w (l : list string) : w ∈ l -> forallb (fun w => negb (bool_decide (slash ∈ chars w))) l = true -> slash ∉ chars w.
Proof. intros Hin Hl Hs. rewrite forallb_forall in Hl. specialize (Hl w ltac:(by apply list_elem_of_In)). by rewrite bool_decide_eq_true_2 in Hl. Qed.

Definition words : list string := ["wait"; "stream"; "cancel"; "history"; "runs"].

(** No pattern but "/" matches such a path. *)
Lemma route_id method kind x rest : kind ∈ ["runs"; "threads"] -> plainID x -> (forall w, rest = Some w -> w ∈ words) ->
  (method = "POST" -> rest <> None) -> method ∈ ["GET"; "POST"; "PATCH"; "DELETE"] ->
  route method (idPath kind x rest) = To (fallback method (idPath kind x rest)).
Proof.
  intros Hkind (Hx & Hslash & Hw) Hrest Hpost Hmethod. apply route_fallback. apply forallb_forall. intros p Hp%list_elem_of_In.
  assert (segments (idPath kind x rest) = "" :: "v1" :: kind :: x :: option_list rest) as Hseg.
  { apply idPath_segments; [by apply (word_free _ _ Hkind)|done|]. intros w E. by apply (word_free _ _ (Hrest w E)). }
  assert (segments (idPath kind x rest +:+ "/") = "" :: "v1" :: kind :: x :: option_list rest ++ [""]) as Hseg2.
  { change "/" with ("/" +:+ ""). by rewrite segments_app, Hseg. }
  rewrite !andb_true_iff, !negb_true_iff, !bool_decide_eq_false.
  repeat (apply elem_of_cons in Hmethod as [->|Hmethod];
    [vm_compute in Hp; repeat (apply elem_of_cons in Hp as [->|Hp];
       [split; [split|];
          [intros E%(f_equal segments); rewrite Hseg in E; vm_compute in E; destruct rest; simplify_eq; try done; exfalso; by apply Hpost
          |intros E%(f_equal segments); rewrite Hseg2 in E; vm_compute in E; destruct rest; simplify_eq; done
          |repeat (apply elem_of_cons in Hkind as [->|Hkind]; [reflexivity|]); by apply elem_of_nil in Hkind]|]); by apply elem_of_nil in Hp|]).
  by apply elem_of_nil in Hmethod.
Qed.

Lemma idPath_contains kind x rest w : kind ∈ ["runs"; "threads"] -> plainID x -> (forall w, rest = Some w -> w ∈ words) -> w ∈ words ->
  Contains (idPath kind x rest) ("/" +:+ w) = HasPrefix kind w || existsb (fun s => HasPrefix s w) (option_list rest).
Proof.
  intros Hkind (Hx & Hslash & Hw) Hrest Hww. rewrite Contains_segments by (by apply (word_free _ _ Hww)).
  rewrite idPath_segments; [|by apply (word_free _ _ Hkind)|done|intros v E; by apply (word_free _ _ (Hrest v E))].
  cbn [tl existsb]. replace (HasPrefix "v1" w) with false by (repeat (apply elem_of_cons in Hww as [->|Hww]; [done|]); by apply elem_of_nil in Hww).
  replace (HasPrefix x w) with false; [done|]. rewrite forallb_forall in Hw. specialize (Hw w ltac:(by apply list_elem_of_In)). by destruct (HasPrefix x w).
Qed.

(** The words a path of this form contains behind a slash. *)
Definition has (kind : string) (rest : option string) (w : string) : bool := HasPrefix kind w || existsb (fun s => HasPrefix s w) (option_list rest).

(** The fallback on what it asks of a path. *)
Definition fallbackOn (method : string) (run thread suffix wait stream cancel history runs : bool) : Handler :=
  let via m := bool_decide (method = m) in
  if run && negb wait && negb stream && via "GET" then HGetRun
  else if run && negb cancel && via "POST" then HRunAction
  else if run && suffix && via "POST" then HRunCancelFromPath
  else if run && wait && via "GET" then HRunsWaitExisting
  else if run && stream && via "GET" then HRunsStreamExisting
  else if thread && history then HThreadHistory
  else if thread && runs && via "POST" then HThreadRunCreate
  else if thread && runs && via "GET" then HThreadRunsList
  else if thread && via "GET" && negb history && negb runs then HThreadsGet
  else if thread && via "DELETE" then HThreadsDelete
  else if thread && via "PATCH" then HThreadsUpdate
  else if run && via "DELETE" then HRunsDelete
  else HNotFound.

Lemma route_of_id method kind x rest : kind ∈ ["runs"; "threads"] -> plainID x -> (forall w, rest = Some w -> w ∈ words) ->
  (method = "POST" -> rest <> None) -> method ∈ ["GET"; "POST"; "PATCH"; "DELETE"] ->
  route method (idPath kind x rest) =
    To (fallbackOn method (bool_decide (kind = "runs")) (bool_decide (kind = "threads")) (HasSuffix (idPath kind x rest) "/cancel")
          (has kind rest "wait") (has kind rest "stream") (has kind rest "cancel") (has kind rest "history") (has kind rest "runs")).
Proof.
  intros Hkind Hx Hrest Hpost Hm. rewrite route_id by done.
  change (fallback method (idPath kind x rest)) with
    (fallbackOn method (HasPrefix (idPath kind x rest) runsPrefix) (HasPrefix (idPath kind x rest) threadsPrefix) (HasSuffix (idPath kind x rest) "/cancel")
       (Contains (idPath kind x rest) ("/" +:+ "wait")) (Contains (idPath kind x rest) ("/" +:+ "stream")) (Contains (idPath kind x rest) ("/" +:+ "cancel"))
       (Contains (idPath kind x rest) ("/" +:+ "history")) (Contains (idPath kind x rest) ("/" +:+ "runs"))).
  rewrite !idPath_contains by (done || (apply (bool_decide_eq_true_1 (_ ∈ words)); reflexivity)).
  repeat (apply elem_of_cons in Hkind as [->|Hkind]; [reflexivity|]). by apply elem_of_nil in Hkind.
Qed.

Local Ltac id_route :=
  first [done|match goal with |- context [HasSuffix ?a ?b] => destruct (HasSuffix a b); reflexivity end
        |apply (bool_decide_eq_true_1 (_ ∈ _)); reflexivity].

(** For an identifier that no reserved word starts, every documented path of a run or
    a thread reaches the handler of that operation, and no other pattern takes it. *)
Theorem id_routes (x : string) : plainID x ->
  route "GET" ("/v1/runs/" +:+ x) = To HGetRun /\
  route "DELETE" ("/v1/runs/" +:+ x) = To HRunsDelete /\
  route "GET" ("/v1/runs/" +:+ x +:+ "/wait") = To HRunsWaitExisting /\
  route "GET" ("/v1/runs/" +:+ x +:+ "/stream") = To HRunsStreamExisting /\
  route "POST" ("/v1/runs/" +:+ x +:+ "/cancel") = To HRunCancelFromPath /\
  route "GET" ("/v1/threads/" +:+ x) = To HThreadsGet /\
  route "DELETE" ("/v1/threads/" +:+ x) = To HThreadsDelete /\
  route "PATCH" ("/v1/threads/" +:+ x) = To HThreadsUpdate /\
  route "GET" ("/v1/threads/" +:+ x +:+ "/history") = To HThreadHistory /\
  route "POST" ("/v1/threads/" +:+ x +:+ "/runs") = To HThreadRunCreate /\
  route "GET" ("/v1/threads/" +:+ x +:+ "/runs") = To HThreadRunsList.
Proof.
  intros Hx.
  assert (HasSuffix (idPath "runs" x (Some "cancel")) "/cancel" = true) as Hsuf.
  { apply HasSuffix_spec. exists (chars ("/v1/runs/" +:+ x)). unfold idPath. by rewrite !chars_app, <- !(assoc_L (++)). }
  assert (forall method kind rest h, kind ∈ ["runs"; "threads"] -> from_option (fun w => bool_decide (w ∈ words)) true rest = true ->
    (method = "POST" -> rest <> None) -> method ∈ ["GET"; "POST"; "PATCH"; "DELETE"] ->
    fallbackOn method (bool_decide (kind = "runs")) (bool_decide (kind = "threads")) (HasSuffix (idPath kind x rest) "/cancel")
      (has kind rest "wait") (has kind rest "stream") (has kind rest "cancel") (has kind rest "history") (has kind rest "runs") = h ->
    route method (idPath kind x rest) = To h) as H.
  { intros method kind rest h Hk Hr Hp Hm <-. apply route_of_id; try done. intros w ->. by apply bool_decide_eq_true in Hr. }
  split; [apply (H "GET" "runs" None); id_route|].
  split; [apply (H "DELETE" "runs" None); id_route|].
  split; [apply (H "GET" "runs" (Some "wait")); id_route|].
  split; [apply (H "GET" "runs" (Some "stream")); id_route|].
  split; [apply (H "POST" "runs" (Some "cancel")); [by left|done|done|by right; left|by rewrite Hsuf]|].
  split; [apply (H "GET" "threads" None); id_route|].
  split; [apply (H "DELETE" "threads" None); id_route|].
  split; [apply (H "PATCH" "threads" None); id_route|].
  split; [apply (H "GET" "threads" (Some "history")); id_route|].
  split; [apply (H "POST" "threads" (Some "runs")); id_route|apply (H "GET" "threads" (Some "runs")); id_route].
Qed.

(** ** Runs *)

Section Claims.
Context `{D : Dotenv, K : KvStore SessionInfo, M : StateMachine}.
Variable env : OsEnv Content.
Variable order : gmap string string -> list (string * string).
Variables (data cwd : Path) (Environ : list string) (cfg : Config).
Variables (found : string -> bool) (getenv : string -> string) (userConfigDir : string) (bundles : Res BundleErr BundleRegistry).
Variables (storeEnv : OsEnv (option StoreItem)) (storeDir : Path).
Variable MapError : RunErr -> Z.

Abbreviation executeRun := (ExecuteRun env order data cwd Environ cfg found getenv userConfigDir bundles).
Abbreviation machineSteps := (steps env order data cwd Environ cfg found getenv userConfigDir bundles).
Abbreviation createRun := (handleCreateRun env order data cwd Environ cfg found getenv userConfigDir bundles MapError).
Abbreviation runStream := (handleRunStream env order data cwd Environ cfg found getenv userConfigDir bundles).

(** A run that is returned belongs to a call that has returned. *)
Lemma ExecuteRun_Ok m w input stream m' s : mc_Runs m !! wo_RunID w = None -> machineInv m -> executeRun m w input stream = (m', Some (Ok s)) ->
  machineInv m' /\ exists c, mc_Calls m' !! wo_RunID w = Some c /\ cl_Phase c = Returned None /\ mc_Runs m' !! wo_RunID w = Some s.
Proof.
  intros Hn Inv H. destruct (ExecuteRun_returns env order data cwd Environ cfg found getenv userConfigDir bundles m w input stream Hn Inv) as [_ [l Hl]].
  rewrite H in Hl. simpl in Hl. split; [by eapply steps_inv|]. unfold ExecuteRun in H. destruct (checkRun _ _ _ _); [|done]. injection H as Hm H. rewrite Hm in H.
  destruct (mc_Calls m' !! wo_RunID w) as [c|]; [|done]. destruct (mc_Runs m' !! wo_RunID w) as [s'|]; [|done]. exists c. split; [done|].
  destruct (cl_Phase c) as [| | | | | | |[]]; simplify_eq. done.
Qed.

Lemma returned_status id c s : callInv id c s -> cl_Phase c = Returned None -> rn_Status s ∈ [RunStatusCompleted; RunStatusFailed; RunStatusCancelled].
Proof. intros Inv Hp. pose proof (ci_status _ _ _ Inv) as H. rewrite Hp in H. simpl in H. rewrite !elem_of_cons. tauto. Qed.

Lemma final_not_cancellable m id s : mc_Runs m !! id = Some s -> rn_Status s ∈ [RunStatusCompleted; RunStatusFailed; RunStatusCancelled] ->
  CancelRun m id = (m, Err (NotCancellable (rn_Status s))).
Proof.
  intros Hs Hst. unfold CancelRun. rewrite Hs, decide_True; [done|].
  repeat (apply elem_of_cons in Hst as [->|Hst]; [done|]). by apply elem_of_nil in Hst.
Qed.

(** C18: The run that creating answers with is final: whatever the server does afterwards,
    getting the run answers the same, and cancelling it is refused. *)
Theorem created_run_is_stable (l : list Step) (c : Meets) (s s1 : AgentState) (r : Request) (resp : RunResponse) :
  machineSteps empty_machine l = Some (ag_Machine s) -> mc_Runs (ag_Machine s) !! wo_RunID (me_World c) = None -> wo_RunID (me_World c) <> "" ->
  createRun c s r = (s1, mkResponse StatusCreated (Run resp)) ->
  rr_RunID resp = wo_RunID (me_World c) /\ rr_Status resp ∈ [RunStatusCompleted; RunStatusFailed; RunStatusCancelled] /\
  forall l' m' body, machineSteps (ag_Machine s1) l' = Some m' ->
    let s' := set_machine s1 m' in
    handleGetRun s' (mkRequest "GET" ("/v1/runs/" +:+ wo_RunID (me_World c)) body) = (s', mkResponse StatusOK (Run resp)) /\
    CancelRun m' (wo_RunID (me_World c)) = (m', Err (NotCancellable (rr_Status resp))).
Proof.
  intros Hl Hn Hne. unfold handleCreateRun. case_decide; [done|]. destruct (bo_CreateRun _) as [req|]; [|done].
  unfold answerRun. destruct (executeRun _ _ _ _) as [m [[state|e]|]] eqn:E; [|done..]. intros [= <- <-].
  pose proof (steps_inv _ _ _ _ _ _ _ _ _ _ _ _ _ Hl empty_inv) as Inv. destruct (ExecuteRun_Ok _ _ _ _ _ _ Hn Inv E) as (Inv' & call & Hc & Hp & Hr).
  pose proof (Inv' (wo_RunID (me_World c))) as Hid. rewrite Hr, Hc in Hid. pose proof (returned_status _ _ _ Hid Hp) as Hst.
  simpl. split; [exact (ci_id _ _ _ Hid)|]. split; [exact Hst|]. intros l' m' body Hl'. simpl in Hl'.
  pose proof (returned_steps _ _ _ _ _ _ _ _ _ _ _ _ _ _ _ Hl' Inv' Hc Hp) as Hs. rewrite Hr in Hs. split; [|by apply final_not_cancellable].
  unfold handleGetRun. rewrite decide_False by (simpl; tauto). cbn [rq_Path]. replace (sdrop _ _) with (wo_RunID (me_World c)).
  - rewrite decide_False by done. unfold GetRun. simpl. by rewrite Hs.
  - unfold sdrop, runsPrefix. rewrite chars_app, drop_app_length. by rewrite unchars_chars.
Qed.

(** ** The stream *)

Lemma foldl_output l : forall w, sw_Closed w = false -> Forall (fun e => e.1 = "output") (sw_Events w) ->
  let w' := foldl (fun w piece => (SSE_Write w "output" piece).1) w l in sw_Closed w' = false /\ Forall (fun e => e.1 = "output") (sw_Events w').
Proof.
  induction l as [|d l IH]; intros w Hw He; simpl; [done|]. apply IH; unfold SSE_Write, SSE_send; rewrite Hw; simpl; [done|].
  apply Forall_app. split; [done|]. by apply Forall_singleton.
Qed.

(** C19: The stream of a run ends without telling so: copying the output closes the writer,
    so the event that reports the end of a run is never sent; the events are pieces of
    output, and an error when the run could not be made. *)
Theorem stream_never_reports_end (c : Meets) (s : AgentState) (r : Request) :
  match (runStream c s r).2 with
  | mkResponse _ (Events l) => Forall (fun e => e.1 = "output" \/ e.1 = "error") l
  | _ => True
  end.
Proof.
  unfold handleRunStream. case_decide; [done|]. destruct (bo_RunWait _) as [req|]; [|done]. destruct (negb _); [done|]. cbv zeta.
  set (w := streamed (me_World c)). set (input := input_of_wait req "").
  clearbody w input. assert (forall l, Forall (fun e : string * EventData => e.1 = "output") l -> Forall (fun e => e.1 = "output" \/ e.1 = "error") l) as Hweak
    by (intros l Hl; eapply Forall_impl; [exact Hl|intros e ?; by left]).
  assert (forall o, Forall (fun e => e.1 = "output") (sw_Events (afterOutput o))) as Hout.
  { intros [call|]; [|constructor]. destruct (foldl_output (cl_Sent call) NewSSEWriter eq_refl ltac:(constructor)) as [_ Hev]. unfold afterOutput. cbv zeta.
    destruct (cl_Phase call) as [| | | | | | |[]]; exact Hev. }
  destruct (executeRun (ag_Machine s) w input true) as [m [[state|e]|]] eqn:E; [| |done].
  - unfold ExecuteRun in E. destruct (checkRun _ _ _ _); [|done]. injection E as Em E. rewrite Em in E.
    destruct (mc_Calls m !! wo_RunID w) as [call|]; [|done]. destruct (mc_Runs m !! wo_RunID w); [|done].
    assert (sw_Closed (afterOutput (Some call)) = true) as Hcl by (simpl; by destruct (cl_Phase call) as [| | | | | | |[]]).
    unfold WriteEvent, SSE_send. rewrite Hcl. simpl. apply Hweak, (Hout (Some call)).
  - unfold WriteEvent, SSE_send. set (writer := afterOutput _). destruct (sw_Closed writer); simpl; [apply Hweak, Hout|].
    apply Forall_app. split; [apply Hweak, Hout|]. apply Forall_singleton. by right.
Qed.
End Claims.

(** ** Threads *)

Section ThreadLaws.
Context `{K : KvStore SessionInfo} {L : KvLaws K}.
Hypothesis readable : forall m k, is_ok (kv_Get (V := SessionInfo) m k) = true.

Lemma GetSession_stored m id s : stored m id s -> GetSession m id = Some (sessionState s).
Proof.
  intros Hs. unfold GetSession, Registry_Get, kvGetSession, getRow. specialize (readable m (sessionKey id)).
  destruct (kv_Get m (sessionKey id)) as [o|] eqn:E; [|done]. apply get_ok in E as ->. unfold stored in Hs. by rewrite Hs.
Qed.

Lemma GetSession_missing m id : m !! sessionKey id = None -> GetSession m id = None.
Proof.
  intros Hs. unfold GetSession, Registry_Get, kvGetSession, getRow. specialize (readable m (sessionKey id)).
  destruct (kv_Get m (sessionKey id)) as [o|] eqn:E; [|done]. apply get_ok in E as ->. by rewrite Hs.
Qed.

Lemma CreateSession_Ok id now registered m profileID md m' st : CreateSession id now registered m profileID md = (m', Ok st) ->
  st = mkSessionState id profileID now now md /\
  exists s, stored m' id s /\ si_ID s = id /\ si_ProfileID s = profileID /\ si_Environment s = md.
Proof.
  unfold CreateSession, RegisterWithContext. simpl. destruct (kvGetSession m id) as [[?|]|]; [done| |done].
  unfold kvPutSession. simpl. destruct (putRow m (sessionKey id) _) as [m1 [[]|e]] eqn:E; [|done]. intros [= <- <-]. split; [done|].
  apply putRow_Ok in E as ->. eexists. unfold stored. rewrite lookup_insert_eq. done.
Qed.

Lemma UpdateSession_Ok now m id s md m' : stored m id s -> si_ID s = id -> UpdateSession now m id md = (m', Ok tt) ->
  exists s', stored m' id s' /\ si_ID s' = id /\ si_ProfileID s' = si_ProfileID s /\ si_Environment s' = md ∪ si_Environment s.
Proof.
  intros Hs Hid. unfold UpdateSession, UpdateSessionMetadata, updateSession, kvGetSession, getRow. specialize (readable m (sessionKey id)).
  destruct (kv_Get m (sessionKey id)) as [o|] eqn:E; [|done]. apply get_ok in E as ->. unfold stored in Hs. rewrite Hs. simpl.
  unfold kvPutSession. simpl. destruct (putRow _ _ _) as [m1 [[]|e]] eqn:Ep; [|done]. intros [= <-]. apply putRow_Ok in Ep as ->.
  rewrite Hid. eexists. unfold stored. rewrite lookup_insert_eq. done.
Qed.

Lemma DeleteSession_Ok m id m' : DeleteSession m id = (m', Ok tt) -> m' !! sessionKey id = None.
Proof.
  unfold DeleteSession, UnregisterWithContext. destruct (Registry_Get m id); [|done]. destruct (kvGetSession m id); [|done].
  unfold kvDeleteSession. destruct (deleteRow m (sessionKey id)) as [m1 [[]|e]] eqn:E; [|done]. intros [= <-].
  apply deleteRow_Ok in E as ->. apply lookup_delete_eq.
Qed.

Lemma thread_path x : plainID x -> TrimPrefix ("/v1/threads/" +:+ x) threadsPrefix = x /\ noThreadPath x = false.
Proof.
  intros (Hx & Hs & _). split; [apply TrimPrefix_app|]. unfold noThreadPath. rewrite bool_decide_eq_false_2 by done. simpl.
  change "/history" with ("/" +:+ "history"). change "/runs" with ("/" +:+ "runs"). rewrite !Contains_segments, segments_one; [done|done|..];
    by apply (bool_decide_eq_false_1 (slash ∈ chars _)).
Qed.

(** What a request for a thread answers when its session is there. *)
Lemma thread_answers s x body t : plainID x -> GetSession (ag_Sessions s) x = Some t ->
  handleThreadsGet s (mkRequest "GET" ("/v1/threads/" +:+ x) body) = (s, mkResponse StatusOK (Thread (threadResponse t))).
Proof.
  intros Hx Ht. destruct (thread_path x Hx) as [Hp _]. unfold handleThreadsGet. rewrite decide_False by (simpl; tauto). cbn [rq_Path]. rewrite Hp.
  rewrite decide_False by (by destruct Hx). by rewrite Ht.
Qed.

(** A thread that was created is answered with its agent and its string metadata; an
    update answers with the new entries over the old ones and keeps the agent; once it was
    deleted it is not found. *)
Theorem thread_round_trip (c c2 : Meets) (s s1 s2 s3 : AgentState) (r : Request) (b b2 b3 : Body) (t t2 : ThreadResponse) :
  let id := me_SessionID c in
  plainID id ->
  handleCreateThread c s r = (s1, mkResponse StatusCreated (Thread t)) ->
  handleThreadsUpdate c2 s1 (mkRequest "PATCH" ("/v1/threads/" +:+ id) b) = (s2, mkResponse StatusOK (Thread t2)) ->
  handleThreadsDelete s2 (mkRequest "DELETE" ("/v1/threads/" +:+ id) b2) = (s3, mkResponse StatusNoContent NoContent) ->
  exists agent metadata changes,
    t = mkThreadResponse id agent metadata /\ t2 = mkThreadResponse id agent (stringEntries changes ∪ metadata) /\
    bo_Object b = Some changes /\ bo_CreateThread (rq_Body r) = Some (mkCreateThread agent (default [] (ct_Metadata <$> bo_CreateThread (rq_Body r)))) /\
    handleThreadsGet s1 (mkRequest "GET" ("/v1/threads/" +:+ id) b3) = (s1, mkResponse StatusOK (Thread t)) /\
    handleThreadsGet s2 (mkRequest "GET" ("/v1/threads/" +:+ id) b3) = (s2, mkResponse StatusOK (Thread t2)) /\
    handleThreadsGet s3 (mkRequest "GET" ("/v1/threads/" +:+ id) b3) = (s3, sendError StatusNotFound (Text ("not found: " +:+ id))).
Proof.
  intros id Hid H1 H2 H3. destruct (thread_path id Hid) as [Hp Hno]. subst id.
  unfold handleCreateThread in H1. destruct (bo_CreateThread _) as [req|] eqn:Eb; [|done].
  destruct (CreateSession _ _ _ _ _ _) as [m1 [st|e]] eqn:E1; [|done]. injection H1 as <- <-.
  apply CreateSession_Ok in E1 as (-> & s0 & Hs0 & Hi0 & Hp0 & He0).
  unfold handleThreadsUpdate in H2. rewrite decide_False in H2 by (simpl; tauto). cbn [rq_Path] in H2. rewrite Hp, Hno in H2.
  unfold updated in H2. cbn [rq_Body] in H2. destruct (bo_Object b) as [changes|]; [|done]. simpl in H2.
  destruct (UpdateSession _ _ _ _) as [m2 [[]|e]] eqn:E2; [|done]. cbv zeta in H2. injection H2 as <- H2.
  destruct (UpdateSession_Ok _ _ _ _ _ _ Hs0 Hi0 E2) as (s0' & Hs0' & Hi0' & Hp0' & He0').
  unfold answerUpdate in H2. simpl in H2. rewrite (GetSession_stored _ _ _ Hs0') in H2. injection H2 as <-.
  unfold handleThreadsDelete in H3. rewrite decide_False in H3 by (simpl; tauto). cbn [rq_Path] in H3. rewrite Hp, Hno in H3.
  simpl in H3. destruct (DeleteSession _ _) as [m3 [[]|e]] eqn:E3; [|done]. injection H3 as <-. apply DeleteSession_Ok in E3.
  exists (ct_AgentID req), (stringEntries (ct_Metadata req)), changes. split; [done|]. split.
  { unfold threadResponse, sessionState. simpl. by rewrite Hi0', Hp0', He0', Hp0, He0. }
  split; [done|]. split; [by destruct req|]. split.
  { rewrite (thread_answers _ _ _ (sessionState s0)) by (done || by apply GetSession_stored). unfold threadResponse, sessionState. simpl.
    by rewrite Hi0, Hp0, He0. }
  split; [by rewrite (thread_answers _ _ _ (sessionState s0')) by (done || by apply GetSession_stored)|].
  unfold handleThreadsGet. rewrite decide_False by (simpl; tauto). cbn [rq_Path]. rewrite Hp. rewrite decide_False by (by destruct Hid).
  cbn [ag_Sessions set_sessions]. by rewrite (GetSession_missing _ _ E3).
Qed.
End ThreadLaws.

(** ** Examples *)

Definition no_body : Body := mkBody None None None None None None None None.
Definition sample_world : RunWorld := mkRunWorld "r1" agent_files 10 None None None [("hi", true); ("there", true)] (EndExit ExitOk 20).
Definition sample_meets : Meets := mkMeets sample_world "t1" 30 31 true true.
Definition sample_state : AgentState := mkAgentState empty_machine ∅ store_files [].

Definition create_body : Body :=
  mkBody (Some (mkCreateRun "bot" "hi" None "")) (Some (mkRunWait "bot" "hi" None "")) (Some (mkCreateThread "bot" [("k", AStr "v"); ("n", ABool true)])) None
    (Some [("k", AStr "w"); ("x", AStr "y")]) None None None.

Definition sample_create (s : AgentState) (r : Request) : AgentState * Response :=
  handleCreateRun (D := readDotenv_Dotenv) calm map_to_list the_data [] [] the_config (fun _ => true) (fun _ => "") "" (Ok []) (fun _ => 500)
    sample_meets s r.

Definition sample_stream (r : Request) : AgentState * Response :=
  handleRunStream (D := readDotenv_Dotenv) calm map_to_list the_data [] [] the_config (fun _ => true) (fun _ => "") "" (Ok []) sample_meets sample_state r.

(** The client of a run that completes gets its output and nothing else. *)
Example stream_of_completed_run :
  (sample_stream (mkRequest "POST" "/v1/runs/stream" create_body)).2 = mkResponse StatusOK (Events [("output", Chunk "hi"); ("output", Chunk "there")]).
Proof. vm_compute. done. Qed.

(** The search of the store has no route. *)
Example store_search_unreachable : route "POST" "/v1/store/search" = To HNotFound.
Proof. vm_compute. done. Qed.

Lemma created_run_is_stable_witness :
  exists s1 resp, sample_create sample_state (mkRequest "POST" "/v1/runs" create_body) = (s1, mkResponse StatusCreated (Run resp)) /\
    rr_Status resp ∈ [RunStatusCompleted; RunStatusFailed; RunStatusCancelled].
Proof.
  destruct (sample_create sample_state (mkRequest "POST" "/v1/runs" create_body)) as [s1 [code p]] eqn:E.
  assert (code = StatusCreated /\ exists resp, p = Run resp) as [-> [resp ->]].
  { assert ((sample_create sample_state (mkRequest "POST" "/v1/runs" create_body)).2 = mkResponse 201 (Run (mkRunResponse "r1" "completed" "hithere" (Some 0) "")))
      as E2 by (vm_compute; reflexivity). rewrite E in E2. injection E2 as -> ->. split; [reflexivity|by eexists]. }
  exists s1, resp. split; [reflexivity|].
  destruct (created_run_is_stable (D := readDotenv_Dotenv) calm map_to_list the_data [] [] the_config (fun _ => true) (fun _ => "") "" (Ok [])
              (fun _ => 500) [] sample_meets sample_state s1 (mkRequest "POST" "/v1/runs" create_body) resp) as (_ & H & _);
    [reflexivity|reflexivity|discriminate|exact E|exact H].
Defined.

Lemma id_routes_witness : plainID "r1" /\ route "GET" ("/v1/runs/" +:+ "r1") = To HGetRun.
Proof.
  assert (plainID "r1") as H.
  { split; [discriminate|]. split; [|reflexivity]. apply (bool_decide_eq_false_1 (slash ∈ chars "r1")). reflexivity. }
  split; [exact H|exact (proj1 (id_routes "r1" H))].
Defined.

Definition thread_state : nat -> AgentState * Response :=
  let create := handleCreateThread (K := plain_kv) sample_meets sample_state (mkRequest "POST" "/v1/threads" create_body) in
  let patch := handleThreadsUpdate (K := plain_kv) sample_meets create.1 (mkRequest "PATCH" ("/v1/threads/" +:+ "t1") create_body) in
  let del := handleThreadsDelete (K := plain_kv) patch.1 (mkRequest "DELETE" ("/v1/threads/" +:+ "t1") no_body) in
  fun n => match n with 0%nat => create | 1%nat => patch | _ => del end.

Definition sample_thread (n : nat) : ThreadResponse :=
  match rs_Payload (thread_state n).2 with Thread t => t | _ => mkThreadResponse "" "" ∅ end.

Lemma thread_round_trip_witness :
  handleThreadsGet (K := plain_kv) (thread_state 2).1 (mkRequest "GET" ("/v1/threads/" +:+ "t1") no_body) =
    ((thread_state 2).1, sendError StatusNotFound (Text ("not found: " +:+ "t1"))).
Proof.
  assert (plainID "t1") as Hid.
  { split; [discriminate|]. split; [|reflexivity]. apply (bool_decide_eq_false_1 (slash ∈ chars "t1")). reflexivity. }
  destruct (thread_round_trip (K := plain_kv) (fun _ _ => eq_refl) sample_meets sample_meets sample_state
              (thread_state 0).1 (thread_state 1).1 (thread_state 2).1 (mkRequest "POST" "/v1/threads" create_body) create_body no_body no_body
              (sample_thread 0) (sample_thread 1))
    as (agent & metadata & changes & _ & _ & _ & _ & _ & _ & H);
    [exact Hid|vm_compute; reflexivity|vm_compute; reflexivity|vm_compute; reflexivity|exact H].
Defined.
