(* ===== verification/Adapter.v ===== *)
(** * Adapters and their manifests

    src/internal/core/adapter: types.go, errors.go, registry.go, the operations of manager.go
    on manifests, messenger_adapter.go and export.go.  An adapter is a directory with a
    manifest, below the data directory or below that of a profile, in the tree of files of
    GoFS.  A YAML document is its decoded value; [CText] is what does not decode. *)

From Stdlib Require Import ZArith Lia String Ascii.
From stdpp Require Import base option list gmap strings sorting.
From S2P Require Import Prelude Text AcpFiles GoFS GoValue.

#[local] Open Scope Z_scope.

(** ** types.go *)

Definition AdapterTypeMobile : string := "mobile".
Definition AdapterTypeDesktop : string := "desktop".
Definition AdapterTypeMessenger : string := "messenger".
Definition AdapterTypeProtocol : string := "protocol".
Definition AdapterTypeSense : string := "sense".
Definition AdapterTypeActuator : string := "actuator".
Definition AdapterTypeScheduler : string := "scheduler".

Definition DefaultEnvPrefix : string := "ADAPTER".

Definition StrategySubprocess : string := "subprocess".
Definition StrategyScript : string := "script".
Definition StrategyBuiltin : string := "builtin".

Definition ScopeGlobal : string := "global".
Definition ScopeProfile : string := "profile".

Record AdapterTypeMeta : Type := mkTypeMeta { tm_Type : string; tm_Description : string; tm_Implemented : bool }.

Definition AdapterTypes : gmap string AdapterTypeMeta := list_to_map (map (fun m => (tm_Type m, m)) [
  mkTypeMeta AdapterTypeMessenger "Telegram, Slack, etc." true;
  mkTypeMeta AdapterTypeProtocol "A2A, ACP, WebSocket" true;
  mkTypeMeta AdapterTypeDesktop "Desktop applications" true;
  mkTypeMeta AdapterTypeMobile "Mobile devices (via QR linking)" true;
  mkTypeMeta AdapterTypeSense "Camera, microphone" true;
  mkTypeMeta AdapterTypeActuator "Robotics, hardware" true;
  mkTypeMeta AdapterTypeScheduler "Calendars, schedulers, reminders" true]).

(** [order] is the order of the loop over the map. *)
Definition ImplementedAdapterTypes (order : gmap string AdapterTypeMeta -> list (string * AdapterTypeMeta)) : list string :=
  map (fun e => tm_Type e.2) (filter (fun e => tm_Implemented e.2 = true) (order AdapterTypes)).

Definition IsAdapterTypeImplemented (t : string) : bool :=
  match AdapterTypes !! t with Some meta => tm_Implemented meta | None => false end.

Definition IsAdapterTypeValid (t : string) : bool := match AdapterTypes !! t with Some _ => true | None => false end.

Definition IsLoadingStrategyValid (s : string) : bool := bool_decide (s ∈ [StrategySubprocess; StrategyScript; StrategyBuiltin]).

Record Adapter : Type := mkAdapter {
  ad_Name : string; ad_Type : string; ad_Scope : string; ad_ProfileID : string; ad_Strategy : string; ad_Description : string;
  ad_EnvPrefix : string; ad_Config : amap; ad_CreatedAt : Z; ad_UpdatedAt : Z; ad_LinkedTo : list string;
  ad_Path : Path; ad_ManifestPath : Path
}.

Record AdapterManifest : Type := mkManifest {
  am_APIVersion : string; am_Kind : string; am_Name : string; am_Type : string; am_Strategy : string; am_Description : string;
  am_EnvPrefix : string; am_Config : amap; am_LinkedTo : list string
}.

Record AdapterFilter : Type := mkFilter { ft_Type : string; ft_Scope : string; ft_Profile : string }.

Definition DefaultStrategyForType (t : string) : string :=
  if decide (t = AdapterTypeMessenger) then StrategySubprocess
  else if decide (t = AdapterTypeProtocol) then StrategyBuiltin
  else if decide (t = AdapterTypeMobile) then StrategyBuiltin
  else if decide (t = AdapterTypeDesktop) then StrategySubprocess
  else if decide (t ∈ [AdapterTypeSense; AdapterTypeActuator; AdapterTypeScheduler]) then StrategyScript
  else StrategySubprocess.

Definition IsGlobal (d : Adapter) : bool := bool_decide (ad_Scope d = ScopeGlobal).
Definition IsProfileScoped (d : Adapter) : bool := bool_decide (ad_Scope d = ScopeProfile).
Definition IsLinkedToProfile (d : Adapter) (profileID : string) : bool := existsb (fun p => bool_decide (p = profileID)) (ad_LinkedTo d).

Definition ManifestFileName : string := "manifest.yaml".

(** messenger_adapter.go: the manifests of an earlier layout. *)
Record MessengerConfig : Type := mkMessenger {
  mc_Name : string; mc_Type : string; mc_Strategy : string; mc_TokenEnv : string; mc_WebhookPath : string; mc_Profile : string; mc_Config : amap
}.

Record MessengerManifest : Type := mkMessengerManifest { mm_APIVersion : string; mm_Kind : string; mm_Messenger : MessengerConfig }.

Inductive Content : Type :=
  | CManifest (m : AdapterManifest)
  | CMessenger (m : MessengerManifest)
  | CText (text : string).

(** yaml.Unmarshal into either record: keys that the record does not have are ignored. *)
Definition asManifest (c : Content) : option AdapterManifest :=
  match c with
  | CManifest m => Some m
  | CMessenger m => Some (mkManifest (mm_APIVersion m) (mm_Kind m) "" "" "" "" "" [] [])
  | CText _ => None
  end.

Definition no_messenger : MessengerConfig := mkMessenger "" "" "" "" "" "" [].

Definition asMessenger (c : Content) : option MessengerManifest :=
  match c with
  | CManifest m => Some (mkMessengerManifest (am_APIVersion m) (am_Kind m) no_messenger)
  | CMessenger m => Some m
  | CText _ => None
  end.

(** ** errors.go *)

Definition ErrCodeNotFound : string := "adapter_not_found".
Definition ErrCodeAlreadyExists : string := "adapter_already_exists".
Definition ErrCodeAlreadyRunning : string := "adapter_already_running".
Definition ErrCodeAlreadyStopped : string := "adapter_already_stopped".
Definition ErrCodeTypeNotImpl : string := "adapter_type_not_implemented".
Definition ErrCodeTypeInvalid : string := "adapter_type_invalid".
Definition ErrCodeStrategyInvalid : string := "strategy_invalid".
Definition ErrCodeStartFailed : string := "adapter_start_failed".
Definition ErrCodeStopFailed : string := "adapter_stop_failed".
Definition ErrCodeHealthCheck : string := "health_check_failed".
Definition ErrCodeMigrationFailed : string := "migration_failed".
Definition ErrCodeManifestInvalid : string := "manifest_invalid".

(** Errors: an [AdapterError], or one of the system, of the parser, or a plain text. *)
Inductive Error : Type :=
  | AdapterError (name message code : string) (cause : option Error)
  | OsError (stage : string) (e : OsErr)
  | YamlError
  | TextError (text : string).

Definition ErrAdapterNotFound (name : string) : Error := AdapterError name "adapter not found" ErrCodeNotFound None.
Definition ErrAdapterAlreadyExists (name : string) : Error := AdapterError name "adapter already exists" ErrCodeAlreadyExists None.
Definition ErrAdapterAlreadyRunning (name : string) : Error := AdapterError name "adapter is already running" ErrCodeAlreadyRunning None.
Definition ErrAdapterAlreadyStopped (name : string) : Error := AdapterError name "adapter is already stopped" ErrCodeAlreadyStopped None.
Definition ErrAdapterTypeNotImplemented (t : string) : Error :=
  AdapterError t ("adapter type '" +:+ t +:+ "' is not yet implemented") ErrCodeTypeNotImpl None.
Definition ErrAdapterTypeInvalid (t : string) : Error := AdapterError t ("invalid adapter type '" +:+ t +:+ "'") ErrCodeTypeInvalid None.
Definition ErrStrategyInvalid (s : string) : Error := AdapterError s ("invalid loading strategy '" +:+ s +:+ "'") ErrCodeStrategyInvalid None.
Definition ErrStartFailed (name : string) (cause : Error) : Error := AdapterError name "failed to start adapter" ErrCodeStartFailed (Some cause).
Definition ErrStopFailed (name : string) (cause : Error) : Error := AdapterError name "failed to stop adapter" ErrCodeStopFailed (Some cause).
Definition ErrHealthCheckFailed (name : string) (cause : Error) : Error := AdapterError name "health check failed" ErrCodeHealthCheck (Some cause).
Definition ErrMigrationFailed (name : string) (cause : Error) : Error := AdapterError name "migration failed" ErrCodeMigrationFailed (Some cause).
Definition ErrManifestInvalid (path : string) (cause : Error) : Error := AdapterError path "invalid manifest" ErrCodeManifestInvalid (Some cause).

Definition errCode (e : Error) : option string := match e with AdapterError _ _ code _ => Some code | _ => None end.

Definition IsAdapterNotFound (e : Error) : bool := bool_decide (errCode e = Some ErrCodeNotFound).
Definition IsAdapterAlreadyRunning (e : Error) : bool := bool_decide (errCode e = Some ErrCodeAlreadyRunning).
Definition IsAdapterAlreadyStopped (e : Error) : bool := bool_decide (errCode e = Some ErrCodeAlreadyStopped).
Definition IsAdapterTypeNotImplemented (e : Error) : bool := bool_decide (errCode e = Some ErrCodeTypeNotImpl).
Definition IsStrategyInvalid (e : Error) : bool := bool_decide (errCode e = Some ErrCodeStrategyInvalid).

(** ** registry.go *)

Section Registry.
Variable env : OsEnv Content.
(** [getXDGDataDir()]; a missing home directory is left out. *)
Variable data : Path.

Definition GetAdaptersDir : Path := Join data "devices".
Definition GetGlobalAdapterPath (name : string) : Path := Join GetAdaptersDir name.
Definition GetProfileAdapterPath (profileID name : string) : Path := Join (Join (Join (Join data "profiles") profileID) "devices") name.
Definition GetAdapterManifestPath (devicePath : Path) : Path := Join devicePath ManifestFileName.

Definition loadAdapterFromPath (fs : FS Content) (path : Path) (scope profileID : string) : Res Error Adapter :=
  let manifestPath := GetAdapterManifestPath path in
  match ReadFile env fs manifestPath with
  | Err e => Err (ErrManifestInvalid (pathText path) (OsError "" e))
  | Ok c =>
      match asManifest c with
      | None => Err (ErrManifestInvalid (pathText path) YamlError)
      | Some m =>
          Ok (mkAdapter (am_Name m) (am_Type m) scope profileID
                (if decide (am_Strategy m = "") then DefaultStrategyForType (am_Type m) else am_Strategy m)
                (am_Description m) (am_EnvPrefix m) (am_Config m) 0 0 (am_LinkedTo m) path manifestPath)
      end
  end.

Definition listProfilesWithAdapters (fs : FS Content) : Res Error (list string) :=
  let profilesDir := Join data "profiles" in
  match ReadDir env fs profilesDir with
  | Err e => if IsNotExist e then Ok [] else Err (OsError "" e)
  | Ok entries =>
      Ok (map fst (filter (fun e => e.2 = true /\ is_ok (Stat env fs (Join (Join profilesDir e.1) "devices")) = true) entries))
  end.

Fixpoint loadFromProfiles (fs : FS Content) (name : string) (profileIDs : list string) : Res Error Adapter :=
  match profileIDs with
  | [] => Err (ErrAdapterNotFound name)
  | profileID :: rest =>
      let profilePath := GetProfileAdapterPath profileID name in
      match Stat env fs profilePath with
      | Ok _ => loadAdapterFromPath fs profilePath ScopeProfile profileID
      | Err _ => loadFromProfiles fs name rest
      end
  end.

Definition LoadAdapter (fs : FS Content) (name : string) : Res Error Adapter :=
  let globalPath := GetGlobalAdapterPath name in
  match Stat env fs globalPath with
  | Ok _ => loadAdapterFromPath fs globalPath ScopeGlobal ""
  | Err _ =>
      match listProfilesWithAdapters fs with
      | Err _ => Err (ErrAdapterNotFound name)
      | Ok profileIDs => loadFromProfiles fs name profileIDs
      end
  end.

Definition LoadAdapterByPath (fs : FS Content) (path : Path) : Res Error Adapter := loadAdapterFromPath fs path ScopeGlobal "".

Definition manifest_of (d : Adapter) : AdapterManifest :=
  mkManifest "adapter.aps.dev/v1" "Adapter" (ad_Name d) (ad_Type d) (ad_Strategy d) (ad_Description d) (ad_EnvPrefix d) (ad_Config d) (ad_LinkedTo d).

Definition basePath (d : Adapter) : Path :=
  if IsGlobal d then GetGlobalAdapterPath (ad_Name d) else GetProfileAdapterPath (ad_ProfileID d) (ad_Name d).

(** The adapter as the caller sees it afterwards. *)
Definition SaveAdapter (now : Z) (fs : FS Content) (d : Adapter) : FS Content * Res Error Adapter :=
  match MkdirAll env fs (basePath d) with
  | (fs, Err e) => (fs, Err (OsError "failed to create adapter directory" e))
  | (fs, Ok _) =>
      let manifestPath := GetAdapterManifestPath (basePath d) in
      match WriteFile env fs manifestPath (CManifest (manifest_of d)) with
      | (fs, Err e) => (fs, Err (OsError "failed to write adapter manifest" e))
      | (fs, Ok _) =>
          (fs, Ok (mkAdapter (ad_Name d) (ad_Type d) (ad_Scope d) (ad_ProfileID d) (ad_Strategy d) (ad_Description d) (ad_EnvPrefix d)
                     (ad_Config d) (if IsZero (ad_CreatedAt d) then now else ad_CreatedAt d) now (ad_LinkedTo d) (basePath d) manifestPath))
      end
  end.

Definition DeleteAdapter (fs : FS Content) (name : string) : FS Content * Res Error unit :=
  match LoadAdapter fs name with
  | Err e => (fs, Err e)
  | Ok d =>
      match RemoveAll env fs (ad_Path d) with
      | (fs, Err e) => (fs, Err (OsError "failed to delete adapter directory" e))
      | (fs, Ok _) => (fs, Ok tt)
      end
  end.

Definition matchesFilter (d : Adapter) (f : AdapterFilter) : bool :=
  if decide (ft_Type f <> "" /\ ad_Type d <> ft_Type f) then false
  else if decide (ft_Scope f <> "" /\ ad_Scope d <> ft_Scope f) then false
  else if decide (ft_Profile f <> "") then IsLinkedToProfile d (ft_Profile f)
  else true.

Definition listAdaptersInDir (fs : FS Content) (dir : Path) (scope profileID : string) (f : option AdapterFilter) : Res OsErr (list Adapter) :=
  match ReadDir env fs dir with
  | Err e => Err e
  | Ok entries =>
      Ok (omap (fun e : string * bool =>
        if negb e.2 then None
        else match loadAdapterFromPath fs (Join dir e.1) scope profileID with
             | Err _ => None
             | Ok d => match f with
                       | Some f => if matchesFilter d f then Some d else None
                       | None => Some d
                       end
             end) entries)
  end.

Definition ListAdapters (fs : FS Content) (f : option AdapterFilter) : Res Error (list Adapter) :=
  let rest (globals : list Adapter) :=
    match listProfilesWithAdapters fs with
    | Err e => Err e
    | Ok profileIDs =>
        Ok (globals ++ concat (map (fun profileID =>
          match listAdaptersInDir fs (GetProfileAdapterPath profileID "") ScopeProfile profileID f with
          | Err _ => []
          | Ok l => l
          end) profileIDs))
    end in
  match listAdaptersInDir fs GetAdaptersDir ScopeGlobal "" f with
  | Err e => if IsNotExist e then rest [] else Err (OsError "" e)
  | Ok l => rest l
  end.

Definition AdapterExists (fs : FS Content) (name : string) : Res Error bool :=
  match LoadAdapter fs name with
  | Err e => if IsAdapterNotFound e then Ok false else Err e
  | Ok _ => Ok true
  end.

Definition GetAdaptersForProfile (fs : FS Content) (profileID : string) : Res Error (list Adapter) :=
  ListAdapters fs (Some (mkFilter "" "" profileID)).

(** ** manager.go: operations on manifests *)

Definition CreateAdapter (now : Z) (fs : FS Content) (name deviceType strategy scope profileID : string) : FS Content * Res Error Adapter :=
  if negb (IsAdapterTypeValid deviceType) then (fs, Err (ErrAdapterTypeInvalid deviceType))
  else if negb (IsAdapterTypeImplemented deviceType) then (fs, Err (ErrAdapterTypeNotImplemented deviceType))
  else match AdapterExists fs name with
       | Err e => (fs, Err e)
       | Ok true => (fs, Err (ErrAdapterAlreadyExists name))
       | Ok false =>
           let strategy := if decide (strategy = "") then DefaultStrategyForType deviceType else strategy in
           if negb (IsLoadingStrategyValid strategy) then (fs, Err (ErrStrategyInvalid strategy))
           else SaveAdapter now fs (mkAdapter name deviceType scope profileID strategy "" "" [] 0 0 [] [] [])
       end.

Definition set_LinkedTo (d : Adapter) (l : list string) : Adapter :=
  mkAdapter (ad_Name d) (ad_Type d) (ad_Scope d) (ad_ProfileID d) (ad_Strategy d) (ad_Description d) (ad_EnvPrefix d)
    (ad_Config d) (ad_CreatedAt d) (ad_UpdatedAt d) l (ad_Path d) (ad_ManifestPath d).

Definition saved (r : FS Content * Res Error Adapter) : FS Content * Res Error unit :=
  match r with (fs, Err e) => (fs, Err e) | (fs, Ok _) => (fs, Ok tt) end.

Definition LinkAdapter (now : Z) (fs : FS Content) (deviceName profileID : string) : FS Content * Res Error unit :=
  match LoadAdapter fs deviceName with
  | Err e => (fs, Err e)
  | Ok d =>
      if existsb (fun p => bool_decide (p = profileID)) (ad_LinkedTo d) then (fs, Ok tt)
      else saved (SaveAdapter now fs (set_LinkedTo d (ad_LinkedTo d ++ [profileID])))
  end.

Definition UnlinkAdapter (now : Z) (fs : FS Content) (deviceName profileID : string) : FS Content * Res Error unit :=
  match LoadAdapter fs deviceName with
  | Err e => (fs, Err e)
  | Ok d =>
      if negb (existsb (fun p => bool_decide (p = profileID)) (ad_LinkedTo d))
      then (fs, Err (TextError ("adapter '" +:+ deviceName +:+ "' is not linked to profile '" +:+ profileID +:+ "'")))
      else saved (SaveAdapter now fs (set_LinkedTo d (filter (fun p => p <> profileID) (ad_LinkedTo d))))
  end.

Fixpoint splitLinesLoop (line l : list ascii) : list string :=
  match l with
  | [] => match line with [] => [] | _ => [unchars line] end
  | c :: l => if decide (N_of_ascii c = 10%N) then unchars line :: splitLinesLoop [] l else splitLinesLoop (line ++ [c]) l
  end.

Definition splitLines (s : string) : list string := splitLinesLoop [] (chars s).

Definition GetAdapterLogs (asText : Content -> string) (fs : FS Content) (name : string) (tail : Z) : Res Error (list string) :=
  match LoadAdapter fs name with
  | Err e => Err e
  | Ok d =>
      match ReadFile env fs (Join (ad_Path d) "stdout.log") with
      | Err e => if IsNotExist e then Ok [] else Err (OsError "" e)
      | Ok c =>
          let lines := splitLines (asText c) in
          Ok (if decide (0 < tail /\ tail < Z.of_nat (length lines)) then drop (length lines - Z.to_nat tail) lines else lines)
      end
  end.

(** ** messenger_adapter.go *)

Definition set_mcName (m : MessengerConfig) (name : string) : MessengerConfig :=
  mkMessenger name (mc_Type m) (mc_Strategy m) (mc_TokenEnv m) (mc_WebhookPath m) (mc_Profile m) (mc_Config m).

Definition DiscoverMessengers (fs : FS Content) (messengersDir : Path) : Res Error (list MessengerConfig) :=
  match ReadDir env fs messengersDir with
  | Err e => if IsNotExist e then Ok [] else Err (OsError "" e)
  | Ok entries =>
      Ok (omap (fun e : string * bool =>
        if negb e.2 then None
        else match ReadFile env fs (Join (Join messengersDir e.1) "manifest.yaml") with
             | Err _ => None
             | Ok c => match asMessenger c with
                       | None => None
                       | Some m => Some (if decide (mc_Name (mm_Messenger m) = "") then set_mcName (mm_Messenger m) e.1 else mm_Messenger m)
                       end
             end) entries)
  end.

Definition ConvertMessengerToAdapter (m : MessengerConfig) : Res Error Adapter :=
  let deviceType := if decide (mc_Type m = "protocol") then AdapterTypeProtocol else AdapterTypeMessenger in
  let strategy := if decide (mc_Strategy m = "script") then StrategyScript
                  else if decide (mc_Strategy m = "builtin") then StrategyBuiltin else StrategySubprocess in
  let scope := if decide (mc_Profile m <> "") then ScopeProfile else ScopeGlobal in
  if decide (mc_Name m = "") then Err (TextError "messenger name is required")
  else Ok (mkAdapter (mc_Name m) deviceType scope (mc_Profile m) strategy "" "" (mc_Config m) 0 0 [] [] []).

(** The argument [devicePath] of the source is not used. *)
Definition MigrateMessenger (now : Z) (fs : FS Content) (messengerPath : Path) : FS Content * Res Error unit :=
  let manifestPath := Join messengerPath "manifest.yaml" in
  match ReadFile env fs manifestPath with
  | Err e => (fs, Err (ErrMigrationFailed (pathText messengerPath) (OsError "" e)))
  | Ok c =>
      match asMessenger c with
      | None => (fs, Err (ErrManifestInvalid (pathText manifestPath) YamlError))
      | Some m =>
          match ConvertMessengerToAdapter (mm_Messenger m) with
          | Err e => (fs, Err (ErrMigrationFailed (mc_Name (mm_Messenger m)) e))
          | Ok d =>
              match SaveAdapter now fs d with
              | (fs, Err e) => (fs, Err (ErrMigrationFailed (ad_Name d) e))
              | (fs, Ok _) => (fs, Ok tt)
              end
          end
      end
  end.
End Registry.

(** ** The registry as a map *)

(** The owner of an adapter: nobody, or a profile. *)
Definition ownerOf (scope profileID : string) : option string := if decide (scope = ScopeGlobal) then None else Some profileID.

Definition scopeOf (o : option string) : string := match o with None => ScopeGlobal | Some _ => ScopeProfile end.

Definition ownerRel (o : option string) (name : string) : Path :=
  match o with None => ["devices"; name] | Some profileID => ["profiles"; profileID; "devices"; name] end.

Definition ownerPath (data : Path) (o : option string) (name : string) : Path := data ++ ownerRel o name.

Definition owner_ok (o : option string) : Prop := match o with None => True | Some profileID => plain profileID end.

(** An adapter of the map: its owner and its manifest, [None] when that cannot be read. *)
Abbreviation Entries := (gmap string (option string * option AdapterManifest)).

Definition manifestAt (fs : FS Content) (p : Path) : option AdapterManifest :=
  match fs !! (p ++ [ManifestFileName]) with Some (NFile c) => asManifest c | _ => None end.

Record registered (data : Path) (fs : FS Content) (m : Entries) : Prop := {
  rg_tree : tree fs;
  rg_profiles : forall id, is_Some (fs !! (data ++ ["profiles"; id])) -> plain id;
  rg_keys : forall name o x, m !! name = Some (o, x) -> plain name /\ owner_ok o;
  rg_adapters : forall o name, owner_ok o -> plain name ->
    match fs !! ownerPath data o name with
    | Some NDir => m !! name = Some (o, manifestAt fs (ownerPath data o name)) /\
                   forall mf, manifestAt fs (ownerPath data o name) = Some mf -> am_Name mf = name
    | Some (NFile _) => False
    | None => forall x, m !! name <> Some (o, x)
    end
}.

(** What loading a readable adapter returns. *)
Definition adapter_of (data : Path) (o : option string) (m : AdapterManifest) (name : string) : Adapter :=
  mkAdapter (am_Name m) (am_Type m) (scopeOf o) (default "" o)
    (if decide (am_Strategy m = "") then DefaultStrategyForType (am_Type m) else am_Strategy m)
    (am_Description m) (am_EnvPrefix m) (am_Config m) 0 0 (am_LinkedTo m) (ownerPath data o name) (ownerPath data o name ++ [ManifestFileName]).

Inductive AdapterOp : Type :=
  | OpCreate (name deviceType strategy scope profileID : string)
  | OpDelete (name : string)
  | OpLink (name profileID : string)
  | OpUnlink (name profileID : string).

Definition op_name (op : AdapterOp) : string := match op with OpCreate n _ _ _ _ | OpDelete n | OpLink n _ | OpUnlink n _ => n end.

Definition op_proper (op : AdapterOp) : Prop :=
  plain (op_name op) /\ match op with OpCreate _ _ _ scope id => owner_ok (ownerOf scope id) | _ => True end.

Definition strategyOr (strategy deviceType : string) : string := if decide (strategy = "") then DefaultStrategyForType deviceType else strategy.

Definition newManifest (name deviceType strategy : string) : AdapterManifest :=
  mkManifest "adapter.aps.dev/v1" "Adapter" name deviceType (strategyOr strategy deviceType) "" "" [] [].

(** A manifest written back with other links. *)
Definition relinked (m : AdapterManifest) (links : list string) : AdapterManifest :=
  mkManifest "adapter.aps.dev/v1" "Adapter" (am_Name m) (am_Type m) (strategyOr (am_Strategy m) (am_Type m)) (am_Description m)
    (am_EnvPrefix m) (am_Config m) links.

(** The entry of the name after an operation that succeeds; [None] when it cannot. *)
Definition accepts (m : Entries) (op : AdapterOp) : option (option (option string * option AdapterManifest)) :=
  match op, m !! op_name op with
  | OpCreate name t s scope id, None =>
      if IsAdapterTypeValid t && IsAdapterTypeImplemented t && IsLoadingStrategyValid (strategyOr s t)
      then Some (Some (ownerOf scope id, Some (newManifest name t s))) else None
  | OpDelete _, Some (_, Some _) => Some None
  | OpLink _ id, Some (o, Some mf) =>
      Some (Some (o, Some (if decide (id ∈ am_LinkedTo mf) then mf else relinked mf (am_LinkedTo mf ++ [id]))))
  | OpUnlink _ id, Some (o, Some mf) =>
      if decide (id ∈ am_LinkedTo mf) then Some (Some (o, Some (relinked mf (filter (fun p => p <> id) (am_LinkedTo mf))))) else None
  | _, _ => None
  end.

Definition op_owner (m : Entries) (op : AdapterOp) : option string :=
  match op, m !! op_name op with
  | OpCreate _ _ _ scope id, _ => ownerOf scope id
  | _, Some (o, _) => o
  | _, None => None
  end.

(** A step of the map: an operation that is not accepted changes nothing; one that is
    succeeds, or fails and leaves the adapter as it was or without a readable manifest. *)
Definition adapterStep (m : Entries) (op : AdapterOp) (ok : bool) (m' : Entries) : Prop :=
  match accepts m op with
  | None => ok = false /\ m' = m
  | Some e =>
      if ok then m' = partial_alter (fun _ => e) (op_name op) m
      else m' = m \/ m' = <[op_name op := (op_owner m op, None)]> m
  end.

Inductive adapterRun (m : Entries) : list AdapterOp -> list bool -> Entries -> Prop :=
  | run_nil : adapterRun m [] [] m
  | run_cons op ops ok oks m1 m2 : adapterStep m op ok m1 -> adapterRun m1 ops oks m2 -> adapterRun m (op :: ops) (ok :: oks) m2.

Definition runOp (env : OsEnv Content) (data : Path) (now : Z) (fs : FS Content) (op : AdapterOp) : FS Content * bool :=
  match op with
  | OpCreate name t s scope id => let '(fs, r) := CreateAdapter env data now fs name t s scope id in (fs, is_ok r)
  | OpDelete name => let '(fs, r) := DeleteAdapter env data fs name in (fs, is_ok r)
  | OpLink name id => let '(fs, r) := LinkAdapter env data now fs name id in (fs, is_ok r)
  | OpUnlink name id => let '(fs, r) := UnlinkAdapter env data now fs name id in (fs, is_ok r)
  end.

Fixpoint runOps (env : OsEnv Content) (data : Path) (now : Z) (fs : FS Content) (ops : list AdapterOp) : FS Content * list bool :=
  match ops with
  | [] => (fs, [])
  | op :: ops => let '(fs, ok) := runOp env data now fs op in let '(fs, oks) := runOps env data now fs ops in (fs, ok :: oks)
  end.

(** *** Paths of adapters *)

Lemma plain_devices : plain "devices".
Proof. repeat split; try done. by apply (bool_decide_eq_false_1 (slash ∈ chars "devices")). Qed.

Lemma plain_profiles : plain "profiles".
Proof. repeat split; try done. by apply (bool_decide_eq_false_1 (slash ∈ chars "profiles")). Qed.

Lemma plain_manifest : plain ManifestFileName.
Proof. repeat split; try done. by apply (bool_decide_eq_false_1 (slash ∈ chars ManifestFileName)). Qed.

#[local] Hint Resolve plain_devices plain_profiles plain_manifest : core.

Lemma global_path data name : plain name -> GetGlobalAdapterPath data name = ownerPath data None name.
Proof. intros Hn. unfold GetGlobalAdapterPath, GetAdaptersDir. rewrite !Join_plain by done. by rewrite <- app_assoc. Qed.

Lemma profile_path data id name : plain id -> plain name -> GetProfileAdapterPath data id name = ownerPath data (Some id) name.
Proof. intros Hi Hn. unfold GetProfileAdapterPath. rewrite !Join_plain by done. by rewrite <- !app_assoc. Qed.

Lemma basePath_owner data d : plain (ad_Name d) -> owner_ok (ownerOf (ad_Scope d) (ad_ProfileID d)) ->
  basePath data d = ownerPath data (ownerOf (ad_Scope d) (ad_ProfileID d)) (ad_Name d).
Proof.
  unfold basePath, IsGlobal, ownerOf. intros Hn. case_decide as H.
  - rewrite bool_decide_eq_true_2 by done. intros _. by apply global_path.
  - rewrite bool_decide_eq_false_2 by done. intros Hi. by apply profile_path.
Qed.

Lemma ownerPath_nonempty data o name : ownerPath data o name <> [].
Proof. unfold ownerPath. by destruct data, o. Qed.

(** The manifest of one adapter is neither below nor above another adapter. *)
Lemma rel_apart o name o' name' k : (o', name') <> (o, name) -> k = [] \/ k = [ManifestFileName] ->
  ~ ownerRel o name `prefix_of` ownerRel o' name' ++ k /\ ~ ownerRel o' name' ++ k `prefix_of` ownerRel o name.
Proof.
  intros Hne Hk. split; intros [l E]; destruct o, o', Hk as [-> | ->]; simpl in E; simplify_eq.
Qed.

Lemma paths_apart data o name o' name' k : (o', name') <> (o, name) -> k = [] \/ k = [ManifestFileName] ->
  under (ownerPath data o name) (ownerPath data o' name' ++ k) = false /\
  ~ ownerPath data o' name' ++ k `prefix_of` ownerPath data o name.
Proof.
  intros Hne Hk. destruct (rel_apart _ _ _ _ _ Hne Hk) as [H1 H2]. unfold under, ownerPath. rewrite <- !app_assoc. split.
  - apply bool_decide_eq_false. by intros H%prefix_app_inv.
  - by intros H%prefix_app_inv.
Qed.

(** A tree that differs at one adapter, and in directories above it. *)
Definition at_adapter (p : Path) (fs fs' : FS Content) : Prop :=
  forall q, under p q = false -> fs' !! q = fs !! q \/ (q `prefix_of` p /\ fs !! q = None /\ fs' !! q = Some NDir).

Lemma registered_update data fs fs' m o name e :
  registered data fs m -> plain name -> owner_ok o -> (forall o' x, m !! name = Some (o', x) -> o' = o) ->
  tree fs' -> at_adapter (ownerPath data o name) fs fs' ->
  match fs' !! ownerPath data o name with
  | Some NDir => e = Some (o, manifestAt fs' (ownerPath data o name)) /\ forall mf, manifestAt fs' (ownerPath data o name) = Some mf -> am_Name mf = name
  | Some (NFile _) => False
  | None => e = None
  end -> registered data fs' (partial_alter (fun _ => e) name m).
Proof.
  intros [R1 R2 R3 R4] Hn Ho Hown Ht Hat He. split; [done|..].
  - intros id Hid. destruct (Hat (data ++ ["profiles"; id])) as [E|(Hp & _)].
    + unfold under, ownerPath. apply bool_decide_eq_false. intros [l E]%prefix_app_inv. by destruct o.
    + apply R2. by rewrite <- E.
    + apply prefix_app_inv in Hp as [l E]. destruct o; simpl in E; simplify_eq. done.
  - intros name' o' x. destruct (decide (name = name')) as [<-|Hne].
    + rewrite lookup_partial_alter_eq. intros ->. destruct (fs' !! _) as [[]|]; [|done..]. by destruct He as [[= -> _] _].
    + rewrite lookup_partial_alter_ne by done. apply R3.
  - intros o' name' Ho' Hn'. destruct (decide ((o', name') = (o, name))) as [[= -> ->]|Hne].
    { rewrite lookup_partial_alter_eq. destruct (fs' !! _) as [[]|]; [done..|]. by intros x ->. }
    specialize (R4 o' name' Ho' Hn').
    assert (forall k, k = [] \/ k = [ManifestFileName] -> fs' !! (ownerPath data o' name' ++ k) = fs !! (ownerPath data o' name' ++ k)) as Hsame.
    { intros k Hk. destruct (paths_apart data o name o' name' k Hne Hk) as [H1 H2]. destruct (Hat _ H1) as [?|[? _]]; done. }
    pose proof (Hsame [] (or_introl eq_refl)) as E1. rewrite app_nil_r in E1. rewrite E1.
    assert (manifestAt fs' (ownerPath data o' name') = manifestAt fs (ownerPath data o' name')) as ->.
    { unfold manifestAt. by rewrite (Hsame [ManifestFileName]) by (by right). }
    destruct (decide (name = name')) as [<-|Hnn].
    + assert (o' <> o) as Hoo by (by intros ->). rewrite lookup_partial_alter_eq.
      destruct (fs !! _) as [[]|]; [|done|].
      * destruct R4 as [R4 _]. by apply Hown in R4.
      * intros x ->. destruct (fs' !! _) as [[]|]; [|done..]. destruct He as [[= ? _] _]. done.
    + by rewrite lookup_partial_alter_ne.
Qed.

(** *** Loading *)

Section Calm.
Variable env : OsEnv Content.
Variable data : Path.
Hypothesis Hopen : forall p, oe_denied env p = false.

Lemma manifest_path p : GetAdapterManifestPath p = p ++ [ManifestFileName].
Proof. by apply Join_plain. Qed.

Lemma load_entry fs o name : loadAdapterFromPath env fs (ownerPath data o name) (scopeOf o) (default "" o) =
  match manifestAt fs (ownerPath data o name) with
  | Some mf => Ok (adapter_of data o mf name)
  | None => match ReadFile env fs (ownerPath data o name ++ [ManifestFileName]) with
            | Err e => Err (ErrManifestInvalid (pathText (ownerPath data o name)) (OsError "" e))
            | Ok _ => Err (ErrManifestInvalid (pathText (ownerPath data o name)) YamlError)
            end
  end.
Proof.
  unfold loadAdapterFromPath, manifestAt. rewrite manifest_path. unfold ReadFile. rewrite Hopen.
  destruct (fs !! _) as [[|c]|]; [done| |done]. by destruct (asManifest c).
Qed.

Lemma listed_profiles fs ids : listProfilesWithAdapters env data fs = Ok ids ->
  forall id, id ∈ ids -> is_Some (fs !! (data ++ ["profiles"; id])).
Proof.
  intros H id Hid. unfold listProfilesWithAdapters in H. rewrite Join_plain in H by done.
  destruct (ReadDir env fs (data ++ ["profiles"])) as [entries|e] eqn:E; [|destruct (IsNotExist e); [injection H as <-; by apply elem_of_nil in Hid|done]].
  injection H as <-. apply list_elem_of_fmap in Hid as ([id' d] & -> & Hid). apply list_elem_of_filter in Hid as [_ Hid].
  apply ReadDir_Ok in E as [_ E]. apply E in Hid as [Hid _]. by rewrite <- app_assoc in Hid.
Qed.

Lemma owner_dirs (fs : FS Content) id name : tree fs -> is_Some (fs !! ownerPath data (Some id) name) ->
  isDir fs (data ++ ["profiles"]) = true /\ isDir fs (data ++ ["profiles"; id]) = true /\ isDir fs (data ++ ["profiles"; id; "devices"]) = true.
Proof.
  intros Ht Hs.
  repeat split; (eapply tree_above; [done|exact Hs|apply prefix_app; simpl; by eexists|]); intros E; apply (inj (app data)) in E; simplify_eq.
Qed.

Lemma isDir_some (fs : FS Content) p x : isDir fs (p ++ [x]) = true -> is_Some (fs !! (p ++ [x])).
Proof. intros H%isDir_lookup; [by eexists|by destruct p]. Qed.

Lemma owner_listed fs id name : tree fs -> plain id -> is_Some (fs !! ownerPath data (Some id) name) ->
  exists ids, listProfilesWithAdapters env data fs = Ok ids /\ id ∈ ids.
Proof.
  intros Ht Hi Hs. destruct (owner_dirs fs id name Ht Hs) as (H1 & H2 & H3). unfold listProfilesWithAdapters. rewrite Join_plain by done.
  destruct (ReadDir env fs (data ++ ["profiles"])) as [entries|e] eqn:E.
  - eexists. split; [done|]. apply list_elem_of_fmap. exists (id, true). split; [done|]. apply list_elem_of_filter. simpl.
    apply ReadDir_Ok in E as [_ E]. rewrite E. rewrite !Join_plain, <- !app_assoc by done. simpl. split; [split; [done|]|].
    + rewrite Stat_Ok by (by destruct data || done). apply bool_decide_eq_true_2.
      replace (data ++ ["profiles"; id; "devices"]) with ((data ++ ["profiles"; id]) ++ ["devices"]) in * by (by rewrite <- app_assoc). by apply isDir_some.
    + split; [|by rewrite H2]. replace (data ++ ["profiles"; id]) with ((data ++ ["profiles"]) ++ [id]) in * by (by rewrite <- app_assoc). by apply isDir_some.
  - unfold ReadDir in E. rewrite Hopen, H1 in E. done.
Qed.

Lemma loadFromProfiles_found fs m name id : registered data fs m -> plain name -> forall ids,
  (forall id', id' ∈ ids -> is_Some (fs !! (data ++ ["profiles"; id']))) ->
  (forall id', id' ∈ ids -> is_Some (fs !! ownerPath data (Some id') name) -> id' = id) ->
  id ∈ ids -> is_Some (fs !! ownerPath data (Some id) name) ->
  loadFromProfiles env data fs name ids = loadAdapterFromPath env fs (ownerPath data (Some id) name) ScopeProfile id.
Proof.
  intros R Hn. induction ids as [|id' ids IH]; intros Hp Hu Hin Hs; [by apply elem_of_nil in Hin|]. simpl.
  assert (plain id') as Hi' by (eapply rg_profiles; [done|]; apply Hp; by left). rewrite profile_path by done.
  pose proof (Stat_Ok env fs (ownerPath data (Some id') name) (ownerPath_nonempty _ _ _) (Hopen _)) as E.
  destruct (Stat env fs _) as [b|e]; simpl in E; symmetry in E.
  - apply bool_decide_eq_true in E. by rewrite (Hu id') by (done || by left).
  - apply bool_decide_eq_false in E. apply IH; [|..|done].
    + intros id'' ?. apply Hp. by right.
    + intros id'' ?. apply Hu. by right.
    + apply elem_of_cons in Hin as [->|?]; done.
Qed.

Lemma loadFromProfiles_missing fs m name : registered data fs m -> plain name -> forall ids,
  (forall id', id' ∈ ids -> is_Some (fs !! (data ++ ["profiles"; id']))) ->
  (forall id', plain id' -> fs !! ownerPath data (Some id') name = None) ->
  loadFromProfiles env data fs name ids = Err (ErrAdapterNotFound name).
Proof.
  intros R Hn. induction ids as [|id' ids IH]; intros Hp Hu; [done|]. simpl.
  assert (plain id') as Hi' by (eapply rg_profiles; [done|]; apply Hp; by left). rewrite profile_path by done.
  pose proof (Stat_Ok env fs (ownerPath data (Some id') name) (ownerPath_nonempty _ _ _) (Hopen _)) as E.
  rewrite (Hu id' Hi') in E. destruct (Stat env fs _); [done|]. apply IH; [|done]. intros id'' ?. apply Hp. by right.
Qed.

Lemma entry_node fs m o name : registered data fs m -> plain name -> owner_ok o ->
  is_Some (fs !! ownerPath data o name) <-> exists x, m !! name = Some (o, x).
Proof.
  intros R Hn Ho. pose proof (rg_adapters _ _ _ R o name Ho Hn) as H. destruct (fs !! _) as [[]|].
  - split; [|by eexists]. destruct H as [H _]. by eexists.
  - done.
  - split; [by intros []|]. intros [x Hx]. by destruct (H x).
Qed.

(** Loading by name answers as the map does. *)
Lemma LoadAdapter_spec fs m name : registered data fs m -> plain name ->
  match m !! name with
  | None => LoadAdapter env data fs name = Err (ErrAdapterNotFound name)
  | Some (o, Some mf) => LoadAdapter env data fs name = Ok (adapter_of data o mf name) /\ am_Name mf = name
  | Some (o, None) => exists cause, LoadAdapter env data fs name = Err (ErrManifestInvalid (pathText (ownerPath data o name)) cause)
  end.
Proof.
  intros R Hn. unfold LoadAdapter. rewrite global_path by done.
  assert (forall o, owner_ok o -> m !! name = Some (o, manifestAt fs (ownerPath data o name)) /\
      (forall mf, manifestAt fs (ownerPath data o name) = Some mf -> am_Name mf = name) ->
    match m !! name with
    | None => False
    | Some (o', Some mf) => loadAdapterFromPath env fs (ownerPath data o name) (scopeOf o) (default "" o) = Ok (adapter_of data o' mf name) /\ am_Name mf = name
    | Some (o', None) => exists cause, loadAdapterFromPath env fs (ownerPath data o name) (scopeOf o) (default "" o) = Err (ErrManifestInvalid (pathText (ownerPath data o' name)) cause)
    end) as Hload.
  { intros o Ho [-> Hname]. rewrite load_entry. destruct (manifestAt fs _) as [mf|]; [by split; [|apply Hname]|].
    destruct (ReadFile env fs _); by eexists. }
  assert (forall o, owner_ok o -> is_Some (fs !! ownerPath data o name) -> m !! name = Some (o, manifestAt fs (ownerPath data o name)) /\
      (forall mf, manifestAt fs (ownerPath data o name) = Some mf -> am_Name mf = name)) as Hent.
  { intros o Ho Hs. pose proof (rg_adapters _ _ _ R o name Ho Hn) as H. destruct (fs !! ownerPath data o name) as [[]|]; [done|done|by destruct Hs]. }
  pose proof (Stat_Ok env fs (ownerPath data None name) (ownerPath_nonempty _ _ _) (Hopen _)) as E.
  destruct (Stat env fs _) as [b|e]; simpl in E; symmetry in E.
  { apply bool_decide_eq_true in E. specialize (Hload None I (Hent None I E)). by destruct (m !! name) as [[o' [mf|]]|]. }
  apply bool_decide_eq_false in E.
  destruct (m !! name) as [[o x]|] eqn:Hm.
  - destruct o as [id|]; [|exfalso; apply E; apply (entry_node fs m None name R Hn I); by eexists].
    destruct (rg_keys _ _ _ R _ _ _ Hm) as [_ Hi]. simpl in Hi.
    assert (is_Some (fs !! ownerPath data (Some id) name)) as Hs by (apply (entry_node fs m (Some id) name R Hn Hi); by eexists).
    destruct (owner_listed fs id name (rg_tree _ _ _ R) Hi Hs) as (ids & Hids & Hin). rewrite Hids.
    assert (forall id', id' ∈ ids -> is_Some (fs !! (data ++ ["profiles"; id']))) as Hl by (by eapply listed_profiles).
    rewrite (loadFromProfiles_found fs m name id R Hn ids); [|done| |done|done].
    + apply (Hload (Some id)); [done|by apply Hent].
    + intros id' Hid' Hs'. apply (entry_node fs m (Some id') name R Hn) in Hs' as [x' Hx']; [congruence|].
      eapply rg_profiles; [done|]. by apply Hl.
  - destruct (listProfilesWithAdapters env data fs) as [ids|] eqn:Hids; [|done].
    eapply loadFromProfiles_missing; [done|done|by eapply listed_profiles|].
    intros id Hi. destruct (fs !! ownerPath data (Some id) name) eqn:Hf; [|done].
    assert (exists x, m !! name = Some (Some id, x)) as [x Hx] by (apply (entry_node fs m (Some id) name R Hn Hi); by eexists). congruence.
Qed.
End Calm.

(** *** Writing and removing *)

Section Writes.
Variable env : OsEnv Content.
Variable data : Path.
Hypothesis Hopen : forall p, oe_denied env p = false.
(** What a failing write leaves does not decode. *)
Hypothesis Htorn : forall p c, oe_partial env p = Some (Some c) -> asManifest c = None.

Lemma manifest_not_above o name : ~ ownerPath data o name ++ [ManifestFileName] `prefix_of` ownerPath data o name.
Proof. intros H%prefix_length. rewrite length_app in H. simpl in H. lia. Qed.

Lemma unowned (m : Entries) name o : (forall o' x, m !! name = Some (o', x) -> o' = o) -> (forall x, m !! name <> Some (o, x)) -> m !! name = None.
Proof. intros H1 H2. destruct (m !! name) as [[o' x]|] eqn:E; [|done]. destruct (H2 x). by rewrite (H1 o' x). Qed.

Lemma same_entry fs m o name : registered data fs m -> plain name -> owner_ok o -> fs !! ownerPath data o name = Some NDir ->
  partial_alter (fun _ => Some (o, manifestAt fs (ownerPath data o name))) name m = m.
Proof.
  intros R Hn Ho E. pose proof (rg_adapters _ _ _ R o name Ho Hn) as H. rewrite E in H. destruct H as [H _]. rewrite <- H. by apply partial_alter_self.
Qed.

Lemma mkdir_registered fs m o name fs' r :
  registered data fs m -> plain name -> owner_ok o -> (forall o' x, m !! name = Some (o', x) -> o' = o) ->
  MkdirAll env fs (ownerPath data o name) = (fs', r) ->
  (registered data fs' m \/ registered data fs' (<[name := (o, None)]> m) /\ m !! name = None) /\
  manifestAt fs' (ownerPath data o name) = manifestAt fs (ownerPath data o name) /\
  (r = Ok tt -> fs' !! ownerPath data o name = Some NDir).
Proof.
  intros R Hn Ho Hown H. pose proof (MkdirAll_tree env fs (ownerPath data o name) (rg_tree _ _ _ R)) as Ht.
  rewrite H in Ht. simpl in Ht. apply MkdirAll_spec in H as [H Hok].
  assert (at_adapter (ownerPath data o name) fs fs') as Hat.
  { intros q _. destruct (H q) as [?|(_ & ? & ? & ?)]; [by left|by right]. }
  assert (manifestAt fs' (ownerPath data o name) = manifestAt fs (ownerPath data o name)) as Hm.
  { unfold manifestAt. destruct (H (ownerPath data o name ++ [ManifestFileName])) as [->|(_ & Hp & _)]; [done|]. by apply manifest_not_above in Hp. }
  split; [|split; [done|]].
  - pose proof (rg_adapters _ _ _ R o name Ho Hn) as He. destruct (H (ownerPath data o name)) as [E|(_ & _ & Hnone & E)].
    + left. destruct (fs !! ownerPath data o name) as [[]|] eqn:Ed; [|done|].
      * rewrite <- (same_entry fs m o name R Hn Ho Ed). eapply registered_update; try done. rewrite E, Hm. split; [done|]. by destruct He.
      * pose proof (unowned m name o Hown He) as Hnone.
        replace m with (partial_alter (fun _ => None) name m) by (rewrite <- Hnone; by apply partial_alter_self).
        eapply registered_update; try done. by rewrite E.
    + rewrite Hnone in He. right. split; [|by apply (unowned m name o)].
      eapply (registered_update _ fs fs' m o name (Some (o, None))); try done. rewrite E.
      assert (manifestAt fs (ownerPath data o name) = None) as Hn0.
      { unfold manifestAt. destruct (fs !! (_ ++ _)) as [n|] eqn:Hf; [|done].
        assert (isDir fs (ownerPath data o name) = true) as Hd.
        { eapply tree_above; [apply (rg_tree _ _ _ R)|by eexists|by eexists|]. intros Eq. apply (f_equal length) in Eq. rewrite length_app in Eq. simpl in Eq. lia. }
        apply isDir_lookup in Hd; [congruence|apply ownerPath_nonempty]. }
      rewrite Hm, Hn0. split; [done|]. by intros ? [=].
  - intros Hr. apply isDir_lookup; [apply ownerPath_nonempty|]. by apply Hok.
Qed.

Lemma write_registered fs m o name d fs' r :
  registered data fs m -> plain name -> owner_ok o -> fs !! ownerPath data o name = Some NDir -> am_Name d = name ->
  WriteFile env fs (ownerPath data o name ++ [ManifestFileName]) (CManifest d) = (fs', r) ->
  registered data fs' (match r with Ok _ => <[name := (o, Some d)]> m | Err _ => m end) \/
  (exists e, r = Err e) /\ registered data fs' (<[name := (o, None)]> m).
Proof.
  intros R Hn Ho Hd Hname H. pose proof (WriteFile_tree env fs (ownerPath data o name ++ [ManifestFileName]) (CManifest d) (rg_tree _ _ _ R)) as Ht.
  pose proof (WriteFile_other env fs (ownerPath data o name ++ [ManifestFileName]) (CManifest d)) as Hother. rewrite H in Ht, Hother. simpl in Ht, Hother.
  assert (at_adapter (ownerPath data o name) fs fs') as Hat.
  { intros q Hq. left. apply Hother. intros ->. apply bool_decide_eq_false in Hq. apply Hq. by eexists. }
  assert (fs' !! ownerPath data o name = Some NDir) as Hd'.
  { rewrite Hother; [done|]. intros E. apply (f_equal length) in E. rewrite length_app in E. simpl in E. lia. }
  assert (forall o' x, m !! name = Some (o', x) -> o' = o) as Hown.
  { pose proof (rg_adapters _ _ _ R o name Ho Hn) as He. rewrite Hd in He. destruct He as [He _]. intros o' x Hx. congruence. }
  revert H. unfold WriteFile. rewrite Hopen. destruct (isDir fs (_ ++ _)); [by intros [= <- <-]; left|].
  destruct (negb _); [by intros [= <- <-]; left|].
  destruct (oe_partial env _) as [[c|]|] eqn:Hp; intros [= <- <-].
  - right. split; [by eexists|]. eapply (registered_update _ fs _ m o name (Some (o, None))); try done. rewrite Hd'.
    unfold manifestAt. rewrite lookup_insert_eq. rewrite (Htorn _ _ Hp). split; [done|]. by intros ? [=].
  - by left.
  - left. eapply (registered_update _ fs _ m o name (Some (o, Some d))); try done. rewrite Hd'.
    unfold manifestAt. rewrite lookup_insert_eq. simpl. split; [done|]. by intros ? [= <-].
Qed.

(** Saving an adapter under its own name. *)
Lemma SaveAdapter_spec now fs m d fs' r :
  registered data fs m -> plain (ad_Name d) -> owner_ok (ownerOf (ad_Scope d) (ad_ProfileID d)) ->
  (forall o' x, m !! ad_Name d = Some (o', x) -> o' = ownerOf (ad_Scope d) (ad_ProfileID d)) ->
  SaveAdapter env data now fs d = (fs', r) ->
  match r with
  | Ok _ => registered data fs' (<[ad_Name d := (ownerOf (ad_Scope d) (ad_ProfileID d), Some (manifest_of d))]> m)
  | Err _ => registered data fs' m \/ registered data fs' (<[ad_Name d := (ownerOf (ad_Scope d) (ad_ProfileID d), None)]> m)
  end.
Proof.
  intros R Hn Ho Hown. unfold SaveAdapter. rewrite basePath_owner by done. set (o := ownerOf _ _) in *.
  destruct (MkdirAll env fs _) as [fs1 [u|e]] eqn:E.
  - destruct (mkdir_registered fs m o (ad_Name d) fs1 _ R Hn Ho Hown E) as (Hreg & _ & Hdir). destruct u. specialize (Hdir eq_refl).
    rewrite manifest_path. destruct (WriteFile env fs1 _ _) as [fs2 r2] eqn:E2.
    assert (forall m1, registered data fs1 m1 ->
      registered data fs2 (match r2 with Ok _ => <[ad_Name d := (o, Some (manifest_of d))]> m1 | Err _ => m1 end) \/
      (exists e, r2 = Err e) /\ registered data fs2 (<[ad_Name d := (o, None)]> m1)) as Hw.
    { intros m1 R1. eapply write_registered; eauto. }
    destruct Hreg as [R1|[R1 _]]; apply Hw in R1; destruct r2 as [[]|e]; intros [= <- <-]; rewrite ?insert_insert_eq in R1.
    + by destruct R1 as [?|[[? [=]] _]].
    + destruct R1 as [?|[_ ?]]; [by left|by right].
    + by destruct R1 as [?|[[? [=]] _]].
    + right. by destruct R1 as [?|[_ ?]].
  - intros [= <- <-]. destruct (mkdir_registered fs m o (ad_Name d) fs1 _ R Hn Ho Hown E) as ([?|[? _]] & _ & _); [by left|by right].
Qed.

Lemma remove_registered fs m o name mf fs' r :
  registered data fs m -> m !! name = Some (o, Some mf) -> RemoveAll env fs (ownerPath data o name) = (fs', r) ->
  match r with
  | Ok _ => registered data fs' (delete name m)
  | Err _ => registered data fs' m \/ registered data fs' (<[name := (o, None)]> m)
  end.
Proof.
  intros R Hm H. destruct (rg_keys _ _ _ R _ _ _ Hm) as [Hn Ho].
  pose proof (RemoveAll_tree env fs (ownerPath data o name) (rg_tree _ _ _ R)) as Ht.
  pose proof (RemoveAll_other env fs (ownerPath data o name)) as Hother. rewrite H in Ht, Hother. simpl in Ht, Hother.
  assert (at_adapter (ownerPath data o name) fs fs') as Hat by (intros q Hq; left; by apply Hother).
  assert (forall o' x, m !! name = Some (o', x) -> o' = o) as Hown by (intros o' x Hx; congruence).
  pose proof (rg_adapters _ _ _ R o name Ho Hn) as He. assert (fs !! ownerPath data o name = Some NDir) as Hd.
  { destruct (fs !! _) as [[]|] eqn:E; [done|done|]. by destruct (He (Some mf)). }
  rewrite Hd in He. destruct He as [He Hname].
  destruct r as [u|e].
  - destruct u. pose proof (RemoveAll_Ok _ _ _ _ H (ownerPath data o name) (under_refl _)) as Hgone.
    eapply (registered_update _ fs fs' m o name None); try done. by rewrite Hgone.
  - pose proof (RemoveAll_Err _ _ _ _ _ H (Hopen _) (rg_tree _ _ _ R)) as Hkeep. rewrite Hd in Hkeep.
    pose proof (RemoveAll_lookup env fs (ownerPath data o name) (ownerPath data o name ++ [ManifestFileName]) (Hopen _)) as Hl.
    rewrite H in Hl. simpl in Hl.
    assert (manifestAt fs' (ownerPath data o name) = manifestAt fs (ownerPath data o name) \/ manifestAt fs' (ownerPath data o name) = None) as [E|E].
    { unfold manifestAt. rewrite Hl. case_decide; [by left|by right]. }
    + left. rewrite <- (same_entry fs m o name R Hn Ho Hd). eapply registered_update; try done. rewrite Hkeep, E. done.
    + right. eapply (registered_update _ fs fs' m o name (Some (o, None))); try done. rewrite Hkeep, E. split; [done|]. by intros ? [=].
Qed.

(** *** Operations *)

Lemma ownerOf_scopeOf o : ownerOf (scopeOf o) (default "" o) = o.
Proof. by destruct o. Qed.

Lemma linked_iff (l : list string) (id : string) : existsb (fun p => bool_decide (p = id)) l = bool_decide (id ∈ l).
Proof.
  apply eq_bool_prop_intro. rewrite !Is_true_true, existsb_exists, bool_decide_eq_true. setoid_rewrite bool_decide_eq_true.
  setoid_rewrite <- list_elem_of_In. split; [by intros (? & ? & ->)|by exists id].
Qed.

Lemma SaveAdapter_links now fs m o mf name l fs' r :
  registered data fs m -> m !! name = Some (o, Some mf) -> am_Name mf = name ->
  saved (SaveAdapter env data now fs (set_LinkedTo (adapter_of data o mf name) l)) = (fs', r) ->
  match r with
  | Ok _ => registered data fs' (<[name := (o, Some (relinked mf l))]> m)
  | Err _ => registered data fs' m \/ registered data fs' (<[name := (o, None)]> m)
  end.
Proof.
  intros R Hm Hname H. destruct (rg_keys _ _ _ R _ _ _ Hm) as [Hn Ho]. unfold saved in H.
  destruct (SaveAdapter _ _ _ _ _) as [fs1 r1] eqn:E.
  pose proof (SaveAdapter_spec now fs m (set_LinkedTo (adapter_of data o mf name) l) fs1 r1 R) as S.
  simpl in S. rewrite ownerOf_scopeOf, Hname in S. specialize (S Hn Ho).
  assert (forall o' x, m !! name = Some (o', x) -> o' = o) as Hown by (intros o' x Hx; congruence).
  specialize (S Hown E). destruct r1; injection H as <- <-; [|done]. unfold manifest_of in S. simpl in S. by rewrite Hname in S; unfold relinked; rewrite Hname.
Qed.

Lemma runOp_step now fs m op fs' ok : registered data fs m -> op_proper op -> runOp env data now fs op = (fs', ok) ->
  exists m', adapterStep m op ok m' /\ registered data fs' m'.
Proof.
  intros R [Hn Ho] H. pose proof (LoadAdapter_spec env data Hopen fs m (op_name op) R Hn) as L.
  assert (fs' = fs -> ok = false -> exists m', adapterStep m op ok m' /\ registered data fs' m') as Hsame.
  { intros -> ->. exists m. split; [|done]. unfold adapterStep. destruct (accepts m op); [by left|done]. }
  unfold adapterStep, accepts, op_owner in *. destruct op as [name t s scope id|name|name id|name id]; simpl in *.
  - unfold CreateAdapter, AdapterExists in H. destruct (IsAdapterTypeValid t); simpl in H; [|injection H as <- <-; by apply Hsame].
    destruct (IsAdapterTypeImplemented t); simpl in H; [|injection H as <- <-; by apply Hsame].
    destruct (m !! name) as [[o [mf|]]|] eqn:Hm.
    + destruct L as [L _]. rewrite L in H. injection H as <- <-. by apply Hsame.
    + destruct L as [c L]. rewrite L in H. simpl in H. injection H as <- <-. by apply Hsame.
    + rewrite L in H. simpl in H. fold (strategyOr s t) in H.
      destruct (IsLoadingStrategyValid (strategyOr s t)); simpl in *; [|injection H as <- <-; by apply Hsame].
      set (d := mkAdapter _ _ _ _ _ _ _ _ _ _ _ _ _) in H. destruct (SaveAdapter _ _ _ _ _) as [fs1 r1] eqn:E. injection H as <- <-.
      pose proof (SaveAdapter_spec now fs m d fs1 r1 R Hn Ho) as S. simpl in S. rewrite Hm in S. specialize (S ltac:(done) E).
      destruct r1; simpl; [eexists; by split|]. destruct S as [S|S]; eexists; (split; [|exact S]); [by left|by right].
  - unfold DeleteAdapter in H. destruct (m !! name) as [[o [mf|]]|] eqn:Hm.
    + destruct L as [L _]. rewrite L in H. simpl in H. destruct (RemoveAll env fs _) as [fs1 r1] eqn:E.
      pose proof (remove_registered fs m o name mf fs1 r1 R Hm E) as S.
      destruct r1; injection H as <- <-; simpl; [eexists; by split|].
      destruct S as [S|S]; eexists; (split; [|exact S]); [by left|by right].
    + destruct L as [c L]. rewrite L in H. injection H as <- <-. by apply Hsame.
    + rewrite L in H. injection H as <- <-. by apply Hsame.
  - unfold LinkAdapter in H. destruct (m !! name) as [[o [mf|]]|] eqn:Hm.
    + destruct L as [L Hname]. rewrite L in H. simpl in H. rewrite linked_iff in H. destruct (decide (id ∈ am_LinkedTo mf)) as [Hin|Hin].
      * rewrite bool_decide_eq_true_2 in H by done. injection H as <- <-. exists m. split; [|done]. simpl. rewrite <- Hm. symmetry. by apply partial_alter_self.
      * rewrite bool_decide_eq_false_2 in H by done. destruct (saved _) as [fs1 r1] eqn:E. injection H as <- <-.
        pose proof (SaveAdapter_links now fs m o mf name _ fs1 r1 R Hm Hname E) as S.
        destruct r1; simpl; [eexists; by split|]. destruct S as [S|S]; eexists; (split; [|exact S]); [by left|by right].
    + destruct L as [c L]. rewrite L in H. injection H as <- <-. by apply Hsame.
    + rewrite L in H. injection H as <- <-. by apply Hsame.
  - unfold UnlinkAdapter in H. destruct (m !! name) as [[o [mf|]]|] eqn:Hm.
    + destruct L as [L Hname]. rewrite L in H. simpl in H. rewrite linked_iff in H. destruct (decide (id ∈ am_LinkedTo mf)) as [Hin|Hin].
      * rewrite bool_decide_eq_true_2 in H by done. simpl in H. destruct (saved _) as [fs1 r1] eqn:E. injection H as <- <-.
        pose proof (SaveAdapter_links now fs m o mf name _ fs1 r1 R Hm Hname E) as S.
        destruct r1; simpl; [eexists; by split|]. destruct S as [S|S]; eexists; (split; [|exact S]); [by left|by right].
      * rewrite bool_decide_eq_false_2 in H by done. injection H as <- <-. by apply Hsame.
    + destruct L as [c L]. rewrite L in H. injection H as <- <-. by apply Hsame.
    + rewrite L in H. injection H as <- <-. by apply Hsame.
Qed.
End Writes.

Lemma broken_stays m op ok m' name o : adapterStep m op ok m' -> m !! name = Some (o, None) -> m' !! name = Some (o, None).
Proof.
  unfold adapterStep. intros H Hm. destruct (accepts m op) as [e|] eqn:E; [|by destruct H as [_ ->]].
  destruct (decide (op_name op = name)) as [<-|Hne].
  - exfalso. revert E. unfold accepts. destruct op; simpl in *; by rewrite Hm.
  - destruct ok; [subst; by rewrite lookup_partial_alter_ne|]. destruct H as [-> | ->]; [done|by rewrite lookup_insert_ne].
Qed.

Lemma broken_for_ever m ops oks m' : adapterRun m ops oks m' -> forall name o, m !! name = Some (o, None) -> m' !! name = Some (o, None).
Proof. induction 1; intros name o Hm; eauto using broken_stays. Qed.


Lemma registered_empty data fs : tree fs -> (forall q, data `prefix_of` q -> q <> data -> fs !! q = None) -> registered data fs ∅.
Proof.
  intros Ht He. split; [done|..].
  - intros id [n Hn]. rewrite He in Hn; [done|by eexists|]. intros E. apply (f_equal length) in E. rewrite length_app in E. simpl in E. lia.
  - intros name o x H. by rewrite lookup_empty in H.
  - intros o name Ho Hn. rewrite He; [intros x; by rewrite lookup_empty|by eexists|].
    intros E. apply (f_equal length) in E. unfold ownerPath in E. rewrite length_app in E. destruct o; simpl in E; lia.
Qed.

(** ** Examples *)

Definition aps_data : Path := ["home"; "aps"].
Definition aps_files : FS Content := <[["home"; "aps"] := NDir]> {[ ["home"] := NDir ]}.

Definition sample_ops : list AdapterOp := [
  OpCreate "cal" AdapterTypeScheduler "" ScopeGlobal ""; OpLink "cal" "bot"; OpCreate "tg" AdapterTypeMessenger "" ScopeProfile "bot";
  OpCreate "cal" AdapterTypeSense "" ScopeProfile "bot"; OpUnlink "cal" "bot"; OpDelete "tg"].

Lemma aps_registered : registered aps_data aps_files ∅.
Proof.
  apply registered_empty.
  - split; [done|]. intros p n Hp. unfold aps_files in Hp. destruct (decide (["home"; "aps"] = p)) as [<-|H1]; [done|].
    rewrite lookup_insert_ne in Hp by done. destruct (decide (["home"] = p)) as [<-|H2]; [done|]. by rewrite lookup_singleton_ne in Hp.
  - intros q [k ->] Hne. unfold aps_files. destruct k; [done|]. rewrite lookup_insert_ne by done. by rewrite lookup_singleton_ne.
Qed.


(** A disk that is full when the manifest of "cal" is written. *)
Definition full_disk : OsEnv Content :=
  mkOsEnv (fun _ => false) (fun p => if decide (p = ownerPath aps_data None "cal" ++ [ManifestFileName]) then Some None else None) (fun _ => false).

(** The creation fails and leaves the directory; afterwards, with room on the disk, the
    adapter can neither be created, nor deleted, nor linked. *)
Example failed_creation_blocks_name :
  let fs := (CreateAdapter full_disk aps_data 5 aps_files "cal" AdapterTypeScheduler "" ScopeGlobal "").1 in
  is_ok (CreateAdapter calm aps_data 6 fs "cal" AdapterTypeScheduler "" ScopeGlobal "").2 = false /\
  is_ok (DeleteAdapter calm aps_data fs "cal").2 = false /\ is_ok (LinkAdapter calm aps_data 6 fs "cal" "bot").2 = false.
Proof. by vm_compute. Qed.

Definition old_messenger : MessengerConfig := mkMessenger "tg" "" "" "" "" "" [].

(** Migrating a messenger replaces an adapter of its name, with its type and links. *)
Example migration_overwrites :
  let fs := (CreateAdapter calm aps_data 5 aps_files "tg" AdapterTypeScheduler "" ScopeGlobal "").1 in
  let fs := (LinkAdapter calm aps_data 5 fs "tg" "bot").1 in
  let fs := <[["old"; "manifest.yaml"] := NFile (CMessenger (mkMessengerManifest "" "" old_messenger))]> (<[["old"] := NDir]> fs) in
  let '(fs', r) := MigrateMessenger calm aps_data 6 fs ["old"] in
  is_ok r = true /\ map_err (fun _ => tt) (LoadAdapter calm aps_data fs' "tg") =
    Ok (mkAdapter "tg" AdapterTypeMessenger ScopeGlobal "" StrategySubprocess "" "" [] 0 0 [] (ownerPath aps_data None "tg")
          (ownerPath aps_data None "tg" ++ [ManifestFileName])).
Proof. by vm_compute. Qed.

(** The adapters of a profile are those linked to it, not those it owns. *)
Example own_adapter_not_listed :
  let fs := (CreateAdapter calm aps_data 5 aps_files "tg" AdapterTypeMessenger "" ScopeProfile "bot").1 in
  map_err (fun _ => tt) (GetAdaptersForProfile calm aps_data fs "bot") = Ok [].
Proof. by vm_compute. Qed.
