(* ===== verification/AdapterExec.v ===== *)
(** * Actions of script adapters

    src/internal/core/adapter/action_schema.go and script_exec.go: the actions that a manifest
    declares, the inputs they require, and the script that is run for one of them.  The
    manifest's configuration is a decoded YAML value; integers that fit no int64 and
    timestamps are left out. *)

From Stdlib Require Import ZArith Lia String Ascii.
From stdpp Require Import base option list gmap strings sorting.
From S2P Require Import Prelude Text AcpFiles GoFS GoValue Adapter.

#[local] Open Scope Z_scope.

(** ** action_schema.go *)

Record ActionInput : Type := mkInput { in_Name : string; in_Required : bool; in_Default : string; in_Description : string }.

Record ActionSchema : Type := mkSchema { as_Name : string; as_Script : string; as_Description : string; as_Inputs : list ActionInput }.

(** Methods take a pointer: [None] is nil. *)
Definition FindInput (s : option ActionSchema) (name : string) : option ActionInput :=
  match s with None => None | Some s => list_find (fun i => in_Name i = name) (as_Inputs s) ≫= fun r => Some r.2 end.

Definition RequiredInputs (s : option ActionSchema) : list string :=
  match s with None => [] | Some s => map in_Name (filter (fun i => in_Required i = true) (as_Inputs s)) end.

Definition Defaults (s : option ActionSchema) : gmap string string :=
  match s with
  | None => ∅
  | Some s => foldl (fun m i => if decide (in_Default i = "") then m else <[in_Name i := in_Default i]> m) ∅ (as_Inputs s)
  end.

(** [%T] of a decoded value. *)
Definition typeText (v : any) : string :=
  match v with
  | ANil => "<nil>" | ABool _ => "bool" | AFloat _ => "float64" | AInt _ => "int" | AStr _ => "string"
  | AList _ => "[]interface {}" | AMap _ => "map[string]interface {}"
  end.

(** [m[k].(string)] with the empty string when it is not one. *)
Definition stringAt (m : amap) (k : string) : string := match mget m k with Some (AStr s) => s | _ => "" end.

(** [m[k]], nil when there is none. *)
Definition valueAt (m : amap) (k : string) : any := default ANil (mget m k).

Section Schema.
Context {fl : Float64}.

Definition scalarString (v : any) : string :=
  match v with
  | AStr s => s
  | ABool b => if b then "true" else "false"
  | AInt z => FormatInt z
  | AFloat f => shortest_f f
  | _ => ""
  end.

Definition parseRequiredMarker (action name : string) (raw : any) : bool * string :=
  match raw with
  | ANil => (false, "")
  | ABool b => (b, "")
  | _ => (true, "action " +:+ Quote action +:+ ": input " +:+ Quote name +:+ " has non-boolean required: " +:+ Sprint raw +:+ " (" +:+ typeText raw
                +:+ "); treating the input as REQUIRED")
  end.

Definition parseDefaultValue (action name : string) (raw : any) : string * string :=
  let rendered := scalarString raw in
  if decide (rendered <> "") then (rendered, "")
  else match raw with
       | ANil | AStr _ => ("", "")
       | _ => ("", "action " +:+ Quote action +:+ ": input " +:+ Quote name +:+ " has a default of unsupported type " +:+ typeText raw)
       end.

Definition diagnosis (d : string) : list string := if decide (d = "") then [] else [d].

(** The loop over the entries, with the names seen so far. *)
Fixpoint parseInputsLoop (action : string) (seen : list string) (l : list any) : list ActionInput * list string :=
  match l with
  | [] => ([], [])
  | AMap im :: l =>
      let name := stringAt im "name" in
      if decide (name = "") then parseInputsLoop action seen l
      else if decide (name ∈ seen) then
        let '(inputs, diags) := parseInputsLoop action seen l in
        (inputs, ("action " +:+ Quote action +:+ ": input " +:+ Quote name +:+ " declared more than once") :: diags)
      else
        let '(required, reqDiag) := parseRequiredMarker action name (valueAt im "required") in
        let '(def, defDiag) := parseDefaultValue action name (valueAt im "default") in
        let '(inputs, diags) := parseInputsLoop action (name :: seen) l in
        (mkInput name required def (stringAt im "description") :: inputs, diagnosis reqDiag ++ diagnosis defDiag ++ diags)
  | _ :: l => parseInputsLoop action seen l
  end.

Definition parseActionInputs (action : string) (raw : any) : list ActionInput * list string :=
  match raw with AList l => parseInputsLoop action [] l | _ => ([], []) end.

Fixpoint parseSchemasLoop (l : list any) : list ActionSchema * list string :=
  match l with
  | [] => ([], [])
  | AMap a :: l =>
      let name := stringAt a "name" in
      if decide (name = "") then parseSchemasLoop l
      else
        let '(inputs, inputDiags) := parseActionInputs name (valueAt a "input") in
        let '(schemas, diags) := parseSchemasLoop l in
        (mkSchema name (stringAt a "script") (stringAt a "description") inputs :: schemas, inputDiags ++ diags)
  | _ :: l => parseSchemasLoop l
  end.

Definition parseActionSchemas (m : AdapterManifest) : list ActionSchema * list string :=
  match mget (am_Config m) "actions" with Some (AList l) => parseSchemasLoop l | _ => ([], []) end.

Definition findActionSchema (schemas : list ActionSchema) (action : string) : option ActionSchema :=
  list_find (fun s => as_Name s = action) schemas ≫= fun r => Some r.2.

(** The names that are missing, when there are any. *)
Definition checkRequiredInputs (schema : option ActionSchema) (inputs : gmap string string) : option (list string) :=
  match filter (fun name => inputs !! name = None) (RequiredInputs schema) with [] => None | missing => Some missing end.

(** ** script_exec.go *)

(** [order] is the order of a loop over a map of inputs. *)
Variable order : gmap string string -> list (string * string).

Definition undeclaredInputNames (schema : option ActionSchema) (inputs : gmap string string) : list string :=
  match schema with
  | None => []
  | Some s =>
      if decide (as_Inputs s = []) then []
      else merge_sort str_le (map fst (filter (fun e => FindInput schema e.1 = None) (order inputs)))
  end.

Definition warnManifestDiagnostics (adapterName : string) (diags : list string) : list string :=
  map (fun d => "warn: adapter " +:+ Quote adapterName +:+ " manifest: " +:+ d) diags.

Definition warnUndeclaredInputs (action : string) (schema : option ActionSchema) (inputs : gmap string string) : list string :=
  match undeclaredInputNames schema inputs with
  | [] => []
  | undeclared => ["warn: action " +:+ Quote action +:+ ": undeclared input(s) " +:+ Text.Join ", " undeclared +:+ "; not declared in manifest, forwarded to script anyway"]
  end.

Inductive ScriptErr : Type :=
  | LoadFailed (e : Error)
  | NotScript (strategy : string)
  | ManifestFailed (e : Error)
  | NoActions | ActionsNotAList | NoScriptPath | ScriptNotFound (full : Path) (e : OsErr) | ActionNotFound
  | MissingInputs (names : list string)
  | ActionFailed (output : string).

Variable env : OsEnv Content.

Fixpoint resolveLoop (fs : FS Content) (dir : Path) (backend action : string) (l : list any) : Res ScriptErr Path :=
  match l with
  | [] => Err ActionNotFound
  | AMap a :: l =>
      if decide (stringAt a "name" <> action) then resolveLoop fs dir backend action l
      else if decide (stringAt a "script" = "") then Err NoScriptPath
      else
        let full := GoFS.Join dir (ReplaceAll (stringAt a "script") "{{backend}}" backend) in
        match Stat env fs full with Err e => Err (ScriptNotFound full e) | Ok _ => Ok full end
  | _ :: l => resolveLoop fs dir backend action l
  end.

Definition backendOf (d : Adapter) : string :=
  if decide (stringAt (ad_Config d) "backend" = "") then "himalaya" else stringAt (ad_Config d) "backend".

Definition resolveActionScript (fs : FS Content) (m : AdapterManifest) (d : Adapter) (action : string) : Res ScriptErr Path :=
  match mget (am_Config m) "actions" with
  | None => Err NoActions
  | Some (AList l) => resolveLoop fs (removelast (ad_ManifestPath d)) (backendOf d) action l
  | Some _ => Err ActionsNotAList
  end.

(** Declared defaults for the inputs the caller did not supply. *)
Definition applyInputDefaults (schema : option ActionSchema) (inputs : gmap string string) : gmap string string :=
  map_fold (fun name value merged => match inputs !! name with Some _ => merged | None => <[name := value]> merged end) inputs (Defaults schema).

Definition resolveEnvPrefix (m : AdapterManifest) : string :=
  if decide (am_EnvPrefix m <> "") then ToUpper (am_EnvPrefix m) else DefaultEnvPrefix.

Definition inputKey (prefix name : string) : string := prefix +:+ "_" +:+ ToUpper (ReplaceAll name "-" "_").

Definition buildScriptEnv (d : Adapter) (m : AdapterManifest) (profileEmail : string) (inputs : gmap string string) : list string :=
  ("APS_EMAIL_FROM=" +:+ profileEmail)
  :: (match mget (ad_Config d) "account" with Some (AStr account) => ["APS_EMAIL_ACCOUNT=" +:+ account] | _ => [] end)
  ++ map (fun e => inputKey (resolveEnvPrefix m) e.1 +:+ "=" +:+ e.2) (order inputs).

(** [^[A-Z_][A-Z0-9_]*$] *)
Definition prefixStart (c : ascii) : bool := let n := N_of_ascii c in bool_decide (65 <= n <= 90 \/ n = 95)%N.
Definition prefixChar (c : ascii) : bool := let n := N_of_ascii c in bool_decide (65 <= n <= 90 \/ n = 95 \/ 48 <= n <= 57)%N.
Definition envPrefixPattern (s : string) : bool := match chars s with c :: l => prefixStart c && forallb prefixChar l | [] => false end.

(** [Getenv] is os.Getenv. *)
Variable Getenv : string -> string.

Definition envPrefixValidationDisableEnv : string := "APS_ADAPTER_DISABLE_PREFIX_VALIDATION".

Definition validateManifestEnvPrefix (prefix : string) : option Error :=
  if decide (prefix = "") then None
  else if decide (Getenv envPrefixValidationDisableEnv = "1") then None
  else if envPrefixPattern (ToUpper prefix) then None
  else Some (TextError ("env_prefix " +:+ Quote prefix +:+ " is not a valid env-var name component")).

Definition LoadManifest (fs : FS Content) (path : Path) : Res Error AdapterManifest :=
  match ReadFile env fs path with
  | Err e => Err (OsError "" e)
  | Ok c => match asManifest c with
            | None => Err YamlError
            | Some m => match validateManifestEnvPrefix (am_EnvPrefix m) with Some e => Err e | None => Ok m end
            end
  end.

(** The command of an action: its path, environment and working directory. *)
Record ScriptCommand : Type := mkScript { sc_Path : Path; sc_Env : list string; sc_Dir : Path }.

Variable data : Path.
(** [os.Environ()], what a script prints and whether it fails, and logging.Apply. *)
Variable environ : list string.
Variable run : ScriptCommand -> string * bool.
Variable redact : string -> string.

(** What is written to the standard error, what is returned, and the commands that run. *)
Definition ExecAction (fs : FS Content) (adapterName action : string) (inputs : gmap string string) (profileEmail : string) :
    list string * Res ScriptErr string * list ScriptCommand :=
  match LoadAdapter env data fs adapterName with
  | Err e => ([], Err (LoadFailed e), [])
  | Ok d =>
      if decide (ad_Strategy d <> StrategyScript) then ([], Err (NotScript (ad_Strategy d)), [])
      else match LoadManifest fs (ad_ManifestPath d) with
           | Err e => ([], Err (ManifestFailed e), [])
           | Ok m =>
               match resolveActionScript fs m d action with
               | Err e => ([], Err e, [])
               | Ok scriptPath =>
                   let '(schemas, diags) := parseActionSchemas m in
                   let warnings := warnManifestDiagnostics adapterName diags in
                   let schema := findActionSchema schemas action in
                   match checkRequiredInputs schema inputs with
                   | Some missing => (warnings, Err (MissingInputs missing), [])
                   | None =>
                       let cmd := mkScript scriptPath (environ ++ buildScriptEnv d m profileEmail (applyInputDefaults schema inputs))
                                    (removelast (ad_ManifestPath d)) in
                       let '(out, fails) := run cmd in
                       (warnings ++ warnUndeclaredInputs action schema inputs,
                        if fails then Err (ActionFailed (redact out)) else Ok out, [cmd])
                   end
               end
           end
  end.
End Schema.

(** ** What a manifest declares *)

(** The first map of a list that has the name. *)
Fixpoint firstNamed (name : string) (l : list any) : option amap :=
  match l with
  | [] => None
  | AMap a :: l => if decide (stringAt a "name" = name) then Some a else firstNamed name l
  | _ :: l => firstNamed name l
  end.

Definition elements (v : any) : list any := match v with AList l => l | _ => [] end.

(** The declaration of an input of an action; nothing is declared under the empty name. *)
Definition declared (a : amap) (k : string) : option amap :=
  if decide (k = "") then None else firstNamed k (elements (valueAt a "input")).

(** A marker that is present and not a boolean counts as required. *)
Definition marked (v : any) : bool := match v with ANil => false | ABool b => b | _ => true end.

Definition requires (a : amap) (k : string) : Prop := exists im, declared a k = Some im /\ marked (valueAt im "required") = true.

Definition actionEntry (m : AdapterManifest) (action : string) : option amap := firstNamed action (elements (valueAt (am_Config m) "actions")).

Section Declared.
Context {fl : Float64}.

Definition declaredDefault (a : amap) (k : string) : option string :=
  match declared a k with
  | Some im => if decide (scalarString (valueAt im "default") = "") then None else Some (scalarString (valueAt im "default"))
  | None => None
  end.

(** The value an input has for the script. *)
Definition supplied (a : amap) (inputs : gmap string string) (k : string) : option string :=
  match inputs !! k with Some v => Some v | None => declaredDefault a k end.

Definition inputOf (im : amap) : ActionInput :=
  mkInput (stringAt im "name") (marked (valueAt im "required")) (scalarString (valueAt im "default")) (stringAt im "description").

Definition schemaOf (a : amap) : ActionSchema :=
  mkSchema (stringAt a "name") (stringAt a "script") (stringAt a "description") (parseActionInputs (stringAt a "name") (valueAt a "input")).1.

Lemma parseRequiredMarker_marked action name v : (parseRequiredMarker action name v).1 = marked v.
Proof. by destruct v. Qed.

Lemma parseDefaultValue_scalar action name v : (parseDefaultValue action name v).1 = scalarString v.
Proof. unfold parseDefaultValue. case_decide as Hs; [done|]. rewrite Hs. by destruct v. Qed.

Lemma inputsLoop_cons action seen im l : stringAt im "name" <> "" -> stringAt im "name" ∉ seen ->
  (parseInputsLoop action seen (AMap im :: l)).1 = inputOf im :: (parseInputsLoop action (stringAt im "name" :: seen) l).1.
Proof.
  intros H1 H2. simpl. rewrite decide_False by done. rewrite (decide_False (P := _ ∈ _)) by done. unfold inputOf.
  rewrite <- (parseRequiredMarker_marked action (stringAt im "name")), <- (parseDefaultValue_scalar action (stringAt im "name")).
  destruct (parseRequiredMarker _ _ _) as [q r]. destruct (parseDefaultValue _ _ _) as [d e]. by destruct (parseInputsLoop _ _ _).
Qed.

Lemma inputsLoop_skip action seen im l : stringAt im "name" = "" \/ stringAt im "name" ∈ seen ->
  (parseInputsLoop action seen (AMap im :: l)).1 = (parseInputsLoop action seen l).1.
Proof.
  intros H. simpl. case_decide as H1; [done|]. destruct H as [?|H]; [done|]. rewrite decide_True by done. by destruct (parseInputsLoop _ _ _).
Qed.

(** The inputs that are kept: one for each declared name, its first declaration. *)
Lemma inputsLoop_spec action l : forall seen, let inputs := (parseInputsLoop action seen l).1 in
  NoDup (map in_Name inputs) /\ (forall i, i ∈ inputs -> in_Name i <> "" /\ in_Name i ∉ seen) /\
  (forall i, i ∈ inputs <-> exists im, firstNamed (in_Name i) l = Some im /\ i = inputOf im /\ in_Name i <> "" /\ in_Name i ∉ seen).
Proof.
  induction l as [|x l IH]; intros seen; simpl.
  { split; [constructor|]. split; [by intros i ?%elem_of_nil|]. intros i. split; [by intros ?%elem_of_nil|by intros (? & [=] & _)]. }
  destruct x as [| | | | | |im]; try apply IH. destruct (decide (stringAt im "name" = "" \/ stringAt im "name" ∈ seen)) as [Hs|Hs].
  -
    pose proof (inputsLoop_skip action seen im l Hs) as E. simpl in E. rewrite E. destruct (IH seen) as (H1 & H2 & H3).
    split; [done|]. split; [done|]. intros i. rewrite H3. split; intros (im' & Hf & -> & Hn & Hx); exists im'; repeat split; try done.
    + rewrite decide_False; [done|]. intros Eq. destruct Hs as [Hs|Hs]; congruence.
    + case_decide as Eq; [|done]. destruct Hs as [Hs|Hs]; congruence.
  - apply Decidable.not_or in Hs as [Hn Hs]. pose proof (inputsLoop_cons action seen im l Hn Hs) as E. simpl in E. rewrite E.
    destruct (IH (stringAt im "name" :: seen)) as (H1 & H2 & H3). split; [|split].
    + simpl. constructor; [|done]. intros (i & Hi & Hin)%list_elem_of_fmap. apply H2 in Hin as [_ Hin]. apply Hin. rewrite <- Hi. by left.
    + intros i [->|Hin]%elem_of_cons; [done|]. apply H2 in Hin as [? Hin]. split; [done|]. intros ?. apply Hin. by right.
    + intros i. rewrite elem_of_cons. split.
      * intros [->|Hin]; [exists im; simpl; rewrite decide_True by done; by repeat split|]. apply H3 in Hin as (im' & Hf & Hi & Hn' & Hx).
        exists im'. rewrite decide_False; [repeat split; try done|]; intros ?; apply Hx; apply elem_of_cons; [by right|left; congruence].
      * intros (im' & Hf & Hi & Hn' & Hx). case_decide as Eq.
        -- left. congruence.
        -- right. apply H3. exists im'. repeat split; try done. intros [?|?]%elem_of_cons; [congruence|done].
Qed.

Lemma firstNamed_name name l a : firstNamed name l = Some a -> stringAt a "name" = name.
Proof. induction l as [|x l IH]; [done|]. simpl. destruct x; try done. case_decide; [|done]. by intros [= <-]. Qed.

Lemma declared_name a k im : declared a k = Some im -> stringAt im "name" = k.
Proof. unfold declared. case_decide; [done|]. apply firstNamed_name. Qed.

Lemma schema_inputs a : let inputs := as_Inputs (schemaOf a) in
  NoDup (map in_Name inputs) /\ forall i, i ∈ inputs <-> exists im, declared a (in_Name i) = Some im /\ i = inputOf im.
Proof.
  unfold schemaOf, parseActionInputs, declared, elements. simpl. destruct (valueAt a "input") as [| | | | |l|]; simpl;
    try by (split; [constructor|]; intros i; split; [by intros ?%elem_of_nil|intros (im & H & _); by case_decide]).
  destruct (inputsLoop_spec (stringAt a "name") l []) as (H1 & _ & H3). split; [done|]. intros i. rewrite H3. split.
  - intros (im & Hf & Hi & Hn & _). exists im. by rewrite decide_False.
  - intros (im & H & Hi). case_decide; [done|]. exists im. repeat split; try done. by apply not_elem_of_nil.
Qed.

Lemma RequiredInputs_spec a k : k ∈ RequiredInputs (Some (schemaOf a)) <-> requires a k.
Proof.
  destruct (schema_inputs a) as [_ H]. unfold RequiredInputs, requires. rewrite list_elem_of_fmap. setoid_rewrite list_elem_of_filter.
  setoid_rewrite H. split.
  - intros (i & -> & Hr & im & Hd & ->). by exists im.
  - intros (im & Hd & Hm). exists (inputOf im). assert (in_Name (inputOf im) = k) as E by (by apply declared_name in Hd). rewrite E. split; [done|]. split; [done|]. by exists im.
Qed.

Lemma Defaults_spec a k : Defaults (Some (schemaOf a)) !! k = declaredDefault a k.
Proof.
  destruct (schema_inputs a) as [Hnd H]. unfold Defaults, declaredDefault.
  assert (forall l (m : gmap string string), NoDup (map in_Name l) ->
    foldl (fun m i => if decide (in_Default i = "") then m else <[in_Name i := in_Default i]> m) m l !! k =
    match list_find (fun i => in_Name i = k) l with
    | Some (_, i) => if decide (in_Default i = "") then m !! k else Some (in_Default i)
    | None => m !! k
    end) as Hfold.
  { clear. induction l as [|i l IH]; intros m Hnd; simpl; [done|]. apply NoDup_cons in Hnd as [Hi Hnd]. rewrite IH by done.
    destruct (decide (in_Name i = k)) as [<-|Hne].
    - assert (list_find (fun j => in_Name j = in_Name i) l = None) as ->.
      { apply list_find_None, Forall_forall. intros j Hj E. apply Hi. rewrite <- E. by apply list_elem_of_fmap_2. }
      case_decide; [done|]. by rewrite lookup_insert_eq.
    - destruct (list_find _ l) as [[n j]|]; simpl; repeat case_decide; try done; by rewrite lookup_insert_ne. }
  rewrite Hfold by done. rewrite lookup_empty. clear Hfold.
  destruct (list_find (fun i => in_Name i = k) (as_Inputs (schemaOf a))) as [[n i]|] eqn:E.
  - apply list_find_Some in E as (Hl & <- & _). apply list_elem_of_lookup_2, H in Hl as (im & -> & ->). done.
  - apply list_find_None in E. destruct (declared a k) as [im|] eqn:Hd; [|done]. exfalso.
    assert (in_Name (inputOf im) = k) as En by (by apply declared_name in Hd).
    rewrite Forall_forall in E. apply (E (inputOf im)); [|done]. apply H. exists im. by rewrite En.
Qed.

Lemma findActionSchema_spec l action : action <> "" ->
  findActionSchema (parseSchemasLoop l).1 action = schemaOf <$> firstNamed action l.
Proof.
  intros Ha. unfold findActionSchema. induction l as [|x l IH]; [done|]. simpl. destruct x as [| | | | | |a]; try apply IH.
  destruct (decide (stringAt a "name" = "")) as [E|E].
  - rewrite decide_False by congruence. done.
  -
    destruct (parseActionInputs (stringAt a "name") (valueAt a "input")) as [inputs diags] eqn:Ep.
    destruct (parseSchemasLoop l) as [schemas d]. simpl in *. destruct (decide (stringAt a "name" = action)) as [En|En]; simpl.
    + unfold schemaOf. by rewrite Ep.
    + rewrite <- IH. by destruct (list_find _ schemas) as [[]|].
Qed.
End Declared.

(** ** Running an action *)

Section Running.
Context {fl : Float64}.
Variable order : gmap string string -> list (string * string).
Hypothesis Horder : forall m, ranges (order m) m.
Variable env : OsEnv Content.
Variable Getenv : string -> string.
Variable data : Path.
Variable environ : list string.
Variable run : ScriptCommand -> string * bool.
Variable redact : string -> string.

(** The adapter loads, is a script, its manifest is read and declares the action with a
    script that exists, and the caller supplies every required input. *)
Record actionReady (fs : FS Content) (adapterName action : string) (inputs : gmap string string)
    (d : Adapter) (m : AdapterManifest) (a : amap) (script : Path) : Prop := {
  ar_adapter : LoadAdapter env data fs adapterName = Ok d;
  ar_strategy : ad_Strategy d = StrategyScript;
  ar_manifest : LoadManifest env Getenv fs (ad_ManifestPath d) = Ok m;
  ar_entry : actionEntry m action = Some a;
  ar_named : stringAt a "script" <> "";
  ar_script : script = GoFS.Join (removelast (ad_ManifestPath d)) (ReplaceAll (stringAt a "script") "{{backend}}" (backendOf d));
  ar_exists : is_ok (Stat env fs script) = true;
  ar_inputs : forall k, requires a k -> is_Some (inputs !! k)
}.

Lemma applyInputDefaults_spec a inputs k : applyInputDefaults (Some (schemaOf a)) inputs !! k = supplied a inputs k.
Proof.
  unfold supplied. rewrite <- Defaults_spec. unfold applyInputDefaults. generalize (Defaults (Some (schemaOf a))). intros m.
  apply (map_fold_weak_ind (fun merged m => merged !! k = match inputs !! k with Some v => Some v | None => m !! k end)).
  - rewrite lookup_empty. by destruct (inputs !! k).
  - intros name value m' r Hm IH. destruct (decide (name = k)) as [->|Hne].
    + rewrite lookup_insert_eq. destruct (inputs !! k) eqn:E; [done|]. by rewrite lookup_insert_eq.
    + rewrite lookup_insert_ne by done. destruct (inputs !! name); [done|]. by rewrite lookup_insert_ne.
Qed.

Lemma resolveLoop_spec fs dir backend action l :
  resolveLoop env fs dir backend action l =
  match firstNamed action l with
  | None => Err ActionNotFound
  | Some a =>
      if decide (stringAt a "script" = "") then Err NoScriptPath
      else let full := GoFS.Join dir (ReplaceAll (stringAt a "script") "{{backend}}" backend) in
           match Stat env fs full with Err e => Err (ScriptNotFound full e) | Ok _ => Ok full end
  end.
Proof.
  induction l as [|x l IH]; [done|]. simpl. destruct x; try apply IH. destruct (decide (stringAt m "name" = action)) as [E|E].
  - by rewrite decide_False by auto.
  - by rewrite decide_True.
Qed.

Lemma checkRequiredInputs_spec a inputs : checkRequiredInputs (Some (schemaOf a)) inputs = None <-> forall k, requires a k -> is_Some (inputs !! k).
Proof.
  unfold checkRequiredInputs. split.
  - intros H k Hk%RequiredInputs_spec. destruct (inputs !! k) eqn:E; [by eexists|]. exfalso.
    destruct (filter _ _) eqn:Ef; [|done]. apply (not_elem_of_nil k). rewrite <- Ef. by apply list_elem_of_filter.
  - intros H. rewrite filter_none; [done|]. intros k Hk%RequiredInputs_spec. destruct (H k Hk) as [v ->]. done.
Qed.

Lemma buildScriptEnv_elem d m email a inputs e :
  e ∈ buildScriptEnv order d m email (applyInputDefaults (Some (schemaOf a)) inputs) <->
  e = "APS_EMAIL_FROM=" +:+ email \/
  (exists account, mget (ad_Config d) "account" = Some (AStr account) /\ e = "APS_EMAIL_ACCOUNT=" +:+ account) \/
  exists k v, supplied a inputs k = Some v /\ e = inputKey (resolveEnvPrefix m) k +:+ "=" +:+ v.
Proof.
  unfold buildScriptEnv. rewrite elem_of_cons, elem_of_app, list_elem_of_fmap.
  assert ((exists y : string * string, e = inputKey (resolveEnvPrefix m) y.1 +:+ "=" +:+ y.2 /\ y ∈ order (applyInputDefaults (Some (schemaOf a)) inputs)) <->
    exists k v, supplied a inputs k = Some v /\ e = inputKey (resolveEnvPrefix m) k +:+ "=" +:+ v) as ->.
  { split.
    - intros ([k v] & -> & Hin). apply (ranges_elem _ _ _ _ (Horder _)) in Hin. rewrite applyInputDefaults_spec in Hin. by exists k, v.
    - intros (k & v & Hs' & ->). exists (k, v). split; [done|]. apply (ranges_elem _ _ _ _ (Horder _)). by rewrite applyInputDefaults_spec. }
  assert (e ∈ match mget (ad_Config d) "account" with Some (AStr account) => ["APS_EMAIL_ACCOUNT=" +:+ account] | _ => [] end <->
    exists account, mget (ad_Config d) "account" = Some (AStr account) /\ e = "APS_EMAIL_ACCOUNT=" +:+ account) as ->; [|done].
  destruct (mget (ad_Config d) "account") as [[]|]; try (split; [by intros ?%elem_of_nil|by intros (? & [=] & _)]).
  rewrite list_elem_of_singleton. split; [by intros ->; eexists|by intros (? & [= <-] & ->)].
Qed.

(** C21: An action runs exactly when its adapter is a script whose manifest declares it with
    an existing script and the caller supplies every input it marks as required, where a
    marker that is no boolean counts and defaults do not; then one command runs, in the
    environment of the system and of the supplied inputs, or else their defaults. *)
Theorem script_action_checked (fs : FS Content) (adapterName action : string) (inputs : gmap string string) (email : string)
    (w : list string) (r : Res ScriptErr string) (cmds : list ScriptCommand) : action <> "" ->
  ExecAction order env Getenv data environ run redact fs adapterName action inputs email = (w, r, cmds) ->
  (cmds = [] /\ is_ok r = false /\ ~ exists d m a script, actionReady fs adapterName action inputs d m a script) \/
  exists d m a script c, actionReady fs adapterName action inputs d m a script /\ cmds = [c] /\
    sc_Path c = script /\ sc_Dir c = removelast (ad_ManifestPath d) /\
    r = (if (run c).2 then Err (ActionFailed (redact (run c).1)) else Ok (run c).1) /\
    forall e, e ∈ sc_Env c <-> e ∈ environ \/ e = "APS_EMAIL_FROM=" +:+ email \/
      (exists account, mget (ad_Config d) "account" = Some (AStr account) /\ e = "APS_EMAIL_ACCOUNT=" +:+ account) \/
      exists k v, supplied a inputs k = Some v /\ e = inputKey (resolveEnvPrefix m) k +:+ "=" +:+ v.
Proof.
  intros Ha. unfold ExecAction.
  destruct (LoadAdapter env data fs adapterName) as [d|e] eqn:Hd; [|intros [= <- <- <-]; left; repeat split; intros (? & ? & ? & ? & []); congruence].
  case_decide as Hs; [intros [= <- <- <-]; left; repeat split; intros (? & ? & ? & ? & []); congruence|].
  destruct (LoadManifest env Getenv fs (ad_ManifestPath d)) as [m|e] eqn:Hm; [|intros [= <- <- <-]; left; repeat split; intros (? & ? & ? & ? & []); congruence].
  assert (forall e, resolveActionScript env fs m d action = Err e -> ~ exists d m a script, actionReady fs adapterName action inputs d m a script) as Hno.
  { intros e He (d' & m' & a & script & [H1 H2 H3 H4 H5 -> H7 _]). assert (d' = d) as -> by congruence. assert (m' = m) as -> by congruence.
    revert He H4. unfold resolveActionScript, actionEntry, valueAt. destruct (mget (am_Config m) "actions") as [[]|]; try done. simpl. rewrite resolveLoop_spec.
    intros He H4. rewrite H4, decide_False in He by done. simpl in He. by destruct (Stat _ _ _). }
  destruct (resolveActionScript env fs m d action) as [full|e] eqn:Hr; [|intros [= <- <- <-]; left; repeat split; by apply (Hno e)].
  assert (exists a, actionEntry m action = Some a /\ stringAt a "script" <> "" /\
    full = GoFS.Join (removelast (ad_ManifestPath d)) (ReplaceAll (stringAt a "script") "{{backend}}" (backendOf d)) /\ is_ok (Stat env fs full) = true /\
    findActionSchema (parseActionSchemas m).1 action = Some (schemaOf a)) as (a & He & Hsc & Hfull & Hst & Hsch).
  { revert Hr. unfold resolveActionScript, actionEntry, parseActionSchemas, valueAt. destruct (mget (am_Config m) "actions") as [[]|]; try done. simpl.
    rewrite resolveLoop_spec, findActionSchema_spec by done. destruct (firstNamed action l) as [a|]; [|done]. case_decide; [done|]. simpl.
    destruct (Stat env fs _) eqn:E; [|done]. intros [= <-]. exists a. rewrite E. done. }
  destruct (parseActionSchemas m) as [schemas diags]. simpl in Hsch. rewrite Hsch.
  destruct (checkRequiredInputs (Some (schemaOf a)) inputs) eqn:Hc.
  - intros [= <- <- <-]. left. repeat split. intros (d' & m' & a' & script & [H1 _ H3 H4 _ _ _ H8]).
    assert (d' = d) as -> by congruence. assert (m' = m) as -> by congruence. assert (a' = a) as -> by congruence.
    by rewrite (proj2 (checkRequiredInputs_spec a inputs)) in Hc.
  - set (c := mkScript _ _ _). destruct (run c) as [out fails] eqn:Hrun. intros [= <- <- <-]. right. exists d, m, a, full, c.
    split; [by split; try apply checkRequiredInputs_spec|]. split; [done|]. split; [done|]. split; [done|]. split; [by rewrite Hrun|].
    intros e. subst c. simpl. by rewrite elem_of_app, buildScriptEnv_elem.
Qed.
End Running.

(** ** Examples *)

#[local] Instance plain_floats : Float64 := {| shortest_f := fun _ => ""; shortest_g := fun _ => ""; wide := fun _ => 0 |}.

(** An action whose required marker is quoted, and one without a name. *)
Definition mail_config : amap := [("actions", AList [
  AMap [("name", AStr "send"); ("script", AStr "{{backend}}/send.sh"); ("input", AList [
    AMap [("name", AStr "to"); ("required", AStr "false")]; AMap [("name", AStr "limit"); ("default", AInt 10)]])];
  AMap [("script", AStr "himalaya/send.sh"); ("input", AList [AMap [("name", AStr "to"); ("required", ABool true)]])]])].

Definition mail_manifest : AdapterManifest := mkManifest "adapter.aps.dev/v1" "Adapter" "mail" AdapterTypeSense "" "" "mail" mail_config [].

Definition mail_dir : Path := ownerPath aps_data None "mail".

Definition mail_files : FS Content := list_to_map [
  (["home"], NDir); (aps_data, NDir); (aps_data ++ ["devices"], NDir); (mail_dir, NDir);
  (mail_dir ++ [ManifestFileName], NFile (CManifest mail_manifest)); (mail_dir ++ ["himalaya"], NDir);
  (mail_dir ++ ["himalaya"; "send.sh"], NFile (CText "#!/bin/sh"))].

Definition sample_exec (action : string) (inputs : gmap string string) : list string * Res ScriptErr string * list ScriptCommand :=
  ExecAction map_to_list calm (fun _ => "") aps_data ["HOME=/home"] (fun _ => ("sent", false)) (fun s => s) mail_files "mail" action inputs "a@b.c".

Lemma script_action_checked_witness :
  let '(w, r, cmds) := sample_exec "send" {["to" := "x@y.z"]} in
  (exists c, cmds = [c] /\ r = Ok "sent" /\ sc_Env c = ["HOME=/home"; "APS_EMAIL_FROM=a@b.c"; "MAIL_LIMIT=10"; "MAIL_TO=x@y.z"]) /\
  exists d m a script, actionReady calm (fun _ => "") aps_data mail_files "mail" "send" {["to" := "x@y.z"]} d m a script.
Proof.
  destruct (sample_exec "send" {["to" := "x@y.z"]}) as [[w r] cmds] eqn:E. split.
  - vm_compute in E. injection E as <- <- <-. eexists. split; [reflexivity|]. by split.
  - destruct (script_action_checked map_to_list (fun _ => reflexivity _) calm (fun _ => "") aps_data ["HOME=/home"] (fun _ => ("sent", false)) (fun s => s)
      mail_files "mail" "send" {["to" := "x@y.z"]} "a@b.c" w r cmds) as [(H & _)|(d & m & a & script & c & H & _)].
    + done.
    + exact E.
    + exfalso. rewrite H in E. by vm_compute in E.
    + by exists d, m, a, script.
Defined.

(** The quoted marker requires the input, although it says false. *)
Example quoted_marker_requires : sample_exec "send" ∅ =
  (["warn: adapter " +:+ Quote "mail" +:+ " manifest: action " +:+ Quote "send" +:+ ": input " +:+ Quote "to"
      +:+ " has non-boolean required: false (string); treating the input as REQUIRED"], Err (MissingInputs ["to"]), []).
Proof. by vm_compute. Qed.

(** The empty action names the entry without a name, whose required inputs are not checked. *)
Example unnamed_action_unchecked : exists w c, sample_exec "" ∅ = (w, Ok "sent", [c]).
Proof. eexists _, _. by vm_compute. Qed.

(** Inputs that differ in a dash share a variable: which value the script sees depends on
    the order of the loop. *)
Example inputs_share_variable : forall prefix, inputKey prefix "a-b" = inputKey prefix "a_b".
Proof. done. Qed.
