(* ===== verification/AdapterRun.v ===== *)
(** * The adapter manager and its processes

    src/internal/core/adapter/manager.go: starting, stopping, checking and shutting down
    adapters.  The manager is a machine of runtimes, the processes it started and the
    goroutines that wait for them; its lock is part of the state, because Shutdown takes it
    twice.  What the system answers is an argument of each step. *)

From Stdlib Require Import ZArith Lia String Ascii.
From stdpp Require Import base option list gmap strings sorting.
From S2P Require Import Prelude Text AcpFiles GoFS GoValue Adapter.

#[local] Open Scope Z_scope.

(** ** State *)

Definition StateStopped : string := "stopped".
Definition StateRunning : string := "running".

Definition HealthHealthy : string := "healthy".
Definition HealthUnknown : string := "unknown".

Record AdapterRuntime : Type := mkRuntime {
  rt_Name : string; rt_State : string; rt_Health : string; rt_PID : Z; rt_StartedAt : option Z; rt_LastCheck : option Z
}.

Definition set_State (r : AdapterRuntime) (state : string) : AdapterRuntime :=
  mkRuntime (rt_Name r) state (rt_Health r) (rt_PID r) (rt_StartedAt r) (rt_LastCheck r).

(** [mg_Alive] are the processes that have not ended, with their adapters; [mg_Waiting] are
    the goroutines of [startSubprocess] that have not finished.  [mg_Stuck]: a call of
    [Shutdown] holds the lock and waits for it. *)
Record Manager : Type := mkManager {
  mg_Runtimes : gmap string AdapterRuntime; mg_Alive : gmap Z string; mg_Waiting : list (string * Z); mg_Stuck : bool
}.

Definition NewManager : Manager := mkManager ∅ ∅ [] false.

Definition set_runtime (m : Manager) (name : string) (r : AdapterRuntime) : Manager :=
  mkManager (<[name := r]> (mg_Runtimes m)) (mg_Alive m) (mg_Waiting m) (mg_Stuck m).

Definition ended (m : Manager) (pid : Z) : Manager := mkManager (mg_Runtimes m) (delete pid (mg_Alive m)) (mg_Waiting m) (mg_Stuck m).

(** ** Starting *)

(** What the system answers when an adapter is started: whether the executable is found on
    the path, whether the logs open, and the process or why there is none. *)
Record Launch : Type := mkLaunch { la_LookPath : option string; la_Logs : option OsErr; la_Start : Res string Z }.

Section Manager.
Variable env : OsEnv Content.
Variable data : Path.

Definition findAdapterExecutable (l : Launch) (fs : FS Content) (d : Adapter) : Res Error string :=
  match la_LookPath l with
  | Some path => Ok path
  | None =>
      let localPath := GoFS.Join (ad_Path d) "run" in
      match Stat env fs localPath with
      | Ok _ => Ok (pathText localPath)
      | Err _ => Err (TextError ("adapter executable not found for " +:+ ad_Name d))
      end
  end.

(** [show] is the verb [%v]; [order] the order of the loop over the configuration. *)
Definition buildAdapterEnv (show : any -> string) (order : amap -> amap) (d : Adapter) : list string :=
  ["APS_ADAPTER_NAME=" +:+ ad_Name d; "APS_ADAPTER_TYPE=" +:+ ad_Type d; "APS_ADAPTER_PATH=" +:+ pathText (ad_Path d)]
  ++ map (fun e => "APS_ADAPTER_CONFIG_" +:+ e.1 +:+ "=" +:+ show e.2) (order (ad_Config d)).

Definition startSubprocess (now : Z) (l : Launch) (fs : FS Content) (m : Manager) (d : Adapter) : Manager * option Error :=
  match findAdapterExecutable l fs d with
  | Err e => (m, Some (ErrStartFailed (ad_Name d) e))
  | Ok _ =>
      match la_Logs l with
      | Some e => (m, Some (ErrStartFailed (ad_Name d) (OsError "" e)))
      | None =>
          match la_Start l with
          | Err message => (m, Some (ErrStartFailed (ad_Name d) (TextError message)))
          | Ok pid =>
              (mkManager (<[ad_Name d := mkRuntime (ad_Name d) StateRunning HealthUnknown pid (Some now) None]> (mg_Runtimes m))
                 (<[pid := ad_Name d]> (mg_Alive m)) (mg_Waiting m ++ [(ad_Name d, pid)]) (mg_Stuck m), None)
          end
      end
  end.

Definition startBuiltin (now : Z) (m : Manager) (d : Adapter) : Manager :=
  set_runtime m (ad_Name d) (mkRuntime (ad_Name d) StateRunning HealthHealthy 0 (Some now) None).

(** The strategy of the request always routes to the one handler that was built for it. *)
Definition StartAdapter (now : Z) (l : Launch) (fs : FS Content) (m : Manager) (name : string) : Manager * option Error :=
  match LoadAdapter env data fs name with
  | Err e => (m, Some e)
  | Ok d =>
      if match mg_Runtimes m !! name with Some r => bool_decide (rt_State r = StateRunning) | None => false end
      then (m, Some (ErrAdapterAlreadyRunning name))
      else if decide (ad_Strategy d = StrategySubprocess) then
        match startSubprocess now l fs m d with
        | (m, Some e) => (m, Some (TextError ("adapter exec failed")))
        | (m, None) => (m, None)
        end
      else if decide (ad_Strategy d = StrategyBuiltin) then (startBuiltin now m d, None)
      else if decide (ad_Strategy d = StrategyScript) then (m, Some (TextError "script strategy does not support persistent start"))
      else (m, Some (ErrStrategyInvalid (ad_Strategy d)))
  end.

(** ** Stopping *)

(** What happens to a signal: it is delivered, and the process ends within the timeout or
    not; or the process has ended before; or the signal is refused. *)
Inductive Signalled : Type := Delivered (ends : bool) | ProcessDone | SignalRefused (message : string).

(** One attempt; [None] asks for the next one, with the signal that cannot be ignored. *)
Definition stopOnce (force : bool) (s : Signalled) (m : Manager) (name : string) (d : Adapter) (r : AdapterRuntime) : Manager * option (option Error) :=
  match s with
  | SignalRefused message => (m, Some (Some (ErrStopFailed (ad_Name d) (TextError message))))
  | ProcessDone => (ended (set_runtime m name (set_State r StateStopped)) (rt_PID r), Some None)
  | Delivered true => (ended (set_runtime m name (set_State r StateStopped)) (rt_PID r), Some None)
  | Delivered false =>
      (m, if force then Some (Some (ErrStopFailed (ad_Name d) (TextError "process did not terminate after SIGKILL"))) else None)
  end.

Definition stopSubprocess (first second : Signalled) (force : bool) (m : Manager) (name : string) (d : Adapter) (r : AdapterRuntime) : Manager * option Error :=
  if decide (rt_PID r = 0) then (m, None)
  else match stopOnce force first m name d r with
       | (m, Some result) => (m, result)
       | (m, None) =>
           match stopOnce true second m name d r with
           | (m, Some result) => (m, result)
           | (m, None) => (m, None)
           end
       end.

Definition StopAdapter (first second : Signalled) (force : bool) (fs : FS Content) (m : Manager) (name : string) : Manager * option Error :=
  match LoadAdapter env data fs name with
  | Err e => (m, Some e)
  | Ok d =>
      match mg_Runtimes m !! name with
      | None => (m, Some (ErrAdapterAlreadyStopped name))
      | Some r =>
          if decide (rt_State r = StateStopped) then (m, Some (ErrAdapterAlreadyStopped name))
          else if decide (ad_Strategy d = StrategySubprocess) then stopSubprocess first second force m name d r
          else if decide (ad_Strategy d = StrategyBuiltin) then (set_runtime m name (set_State r StateStopped), None)
          else if decide (ad_Strategy d = StrategyScript) then (m, None)
          else (m, Some (ErrStrategyInvalid (ad_Strategy d)))
      end
  end.

(** ** Queries *)

Definition GetRuntime (m : Manager) (name : string) : AdapterRuntime :=
  match mg_Runtimes m !! name with Some r => r | None => mkRuntime name StateStopped "" 0 None None end.

Definition HealthCheck (now : Z) (m : Manager) (name : string) : Manager * option Error :=
  match mg_Runtimes m !! name with
  | None => (m, Some (ErrHealthCheckFailed name (TextError "adapter not running")))
  | Some r =>
      if decide (rt_State r <> StateRunning)
      then (m, Some (ErrHealthCheckFailed name (TextError ("adapter not running (state: " +:+ rt_State r +:+ ")"))))
      else (set_runtime m name (mkRuntime (rt_Name r) (rt_State r) HealthHealthy (rt_PID r) (rt_StartedAt r) (Some now)), None)
  end.

(** [order] is the order of the loop over the runtimes. *)
Definition ListRunningAdapters (order : gmap string AdapterRuntime -> list (string * AdapterRuntime)) (m : Manager) : list string :=
  map fst (filter (fun e => rt_State e.2 = StateRunning) (order (mg_Runtimes m))).

(** The loop of [Shutdown] calls [StopAdapter] for the first adapter that runs: it waits for
    the lock that the caller holds.  [None]: the call does not return. *)
Fixpoint shutdownLoop (l : list (string * AdapterRuntime)) : option unit :=
  match l with
  | [] => Some tt
  | (_, r) :: l => if decide (rt_State r = StateRunning) then None else shutdownLoop l
  end.

Definition Shutdown (order : gmap string AdapterRuntime -> list (string * AdapterRuntime)) (m : Manager) : Manager * option unit :=
  match shutdownLoop (order (mg_Runtimes m)) with
  | Some _ => (m, Some tt)
  | None => (mkManager (mg_Runtimes m) (mg_Alive m) (mg_Waiting m) true, None)
  end.

(** The end of the goroutine of a process. *)
Definition processWaited (m : Manager) (name : string) (pid : Z) : Manager :=
  let waiting := filter (fun w => w <> (name, pid)) (mg_Waiting m) in
  let runtimes := match mg_Runtimes m !! name with
                  | Some r => if decide (rt_State r = StateRunning) then <[name := set_State r StateStopped]> (mg_Runtimes m) else mg_Runtimes m
                  | None => mg_Runtimes m
                  end in
  mkManager runtimes (mg_Alive m) waiting (mg_Stuck m).

(** ** Runs *)

Inductive MgrStep : Type :=
  | StStart (now : Z) (l : Launch) (fs : FS Content) (name : string)
  | StStop (first second : Signalled) (force : bool) (fs : FS Content) (name : string)
  | StHealth (now : Z) (name : string)
  | StShutdown
  | StExit (pid : Z)
  | StWaited (name : string) (pid : Z).

(** Whether the step can be taken: the operations and the end of a goroutine need the lock,
    a goroutine ends after its process, and a new process has an identifier of its own. *)
Definition enabled (m : Manager) (s : MgrStep) : bool :=
  match s with
  | StExit pid => bool_decide (is_Some (mg_Alive m !! pid))
  | StWaited name pid => negb (mg_Stuck m) && bool_decide ((name, pid) ∈ mg_Waiting m) && bool_decide (mg_Alive m !! pid = None)
  | StStart _ l _ _ =>
      negb (mg_Stuck m) && match la_Start l with
                           | Ok pid => bool_decide (0 < pid) && bool_decide (mg_Alive m !! pid = None) && bool_decide (pid ∉ map snd (mg_Waiting m))
                           | Err _ => true
                           end
  | _ => negb (mg_Stuck m)
  end.

Definition mgrStep (order : gmap string AdapterRuntime -> list (string * AdapterRuntime)) (m : Manager) (s : MgrStep) : option Manager :=
  if enabled m s then
    Some (match s with
          | StStart now l fs name => (StartAdapter now l fs m name).1
          | StStop first second force fs name => (StopAdapter first second force fs m name).1
          | StHealth now name => (HealthCheck now m name).1
          | StShutdown => (Shutdown order m).1
          | StExit pid => ended m pid
          | StWaited name pid => processWaited m name pid
          end)
  else None.

Fixpoint mgrSteps (order : gmap string AdapterRuntime -> list (string * AdapterRuntime)) (m : Manager) (l : list MgrStep) : option Manager :=
  match l with [] => Some m | s :: l => match mgrStep order m s with Some m => mgrSteps order m l | None => None end end.
End Manager.

(** ** Shutting down *)

Lemma shutdownLoop_spec l : shutdownLoop l = None <-> exists e, e ∈ l /\ rt_State e.2 = StateRunning.
Proof.
  induction l as [|[n r] l IH]; simpl; [split; [done|by intros (e & ?%elem_of_nil & _)]|]. case_decide as H.
  - split; [|done]. intros _. exists (n, r). split; [by left|done].
  - rewrite IH. split; intros (e & He & Hs); exists e; (split; [|done]); [by right|].
    by apply elem_of_cons in He as [->|].
Qed.

Section Shutdown.
Variable env : OsEnv Content.
Variable data : Path.
Variable order : gmap string AdapterRuntime -> list (string * AdapterRuntime).
Hypothesis Horder : forall m, ranges (order m) m.

Lemma stuck_step m s m' : mg_Stuck m = true -> mgrStep env data order m s = Some m' -> exists pid, s = StExit pid /\ m' = ended m pid.
Proof. unfold mgrStep. intros Hs. destruct s; simpl; rewrite ?Hs; simpl; try done. case_bool_decide; [|done]. intros [= <-]. by eexists. Qed.

(** Shutting down returns exactly when no adapter runs, and then it has nothing to do;
    otherwise it waits for ever for the lock it holds: no process is stopped, no runtime
    changes, and no other operation of the manager returns. *)
Theorem shutdown_never_stops (m : Manager) : mg_Stuck m = false ->
  ((Shutdown order m).2 = None <-> exists name r, mg_Runtimes m !! name = Some r /\ rt_State r = StateRunning) /\
  ((Shutdown order m).2 = Some tt -> (Shutdown order m).1 = m) /\
  ((Shutdown order m).2 = None -> forall l m', mgrSteps env data order (Shutdown order m).1 l = Some m' ->
    mg_Runtimes m' = mg_Runtimes m /\ mg_Waiting m' = mg_Waiting m /\ mg_Stuck m' = true /\ Forall (fun s => exists pid, s = StExit pid) l).
Proof.
  intros Hs. unfold Shutdown. split; [|split].
  - destruct (shutdownLoop _) eqn:E; simpl.
    + split; [done|]. intros (n & r & Hr & Hst). assert (shutdownLoop (order (mg_Runtimes m)) = None) as E'; [|congruence].
      apply shutdownLoop_spec. exists (n, r). split; [|done]. by apply (ranges_elem _ _ _ _ (Horder _)).
    + split; [|done]. intros _. apply shutdownLoop_spec in E as ([n r] & Hin & Hst). apply (ranges_elem _ _ _ _ (Horder _)) in Hin. by exists n, r.
  - by destruct (shutdownLoop _).
  - destruct (shutdownLoop _); [done|]. simpl. intros _ l. set (m0 := mkManager _ _ _ true).
    assert (mg_Runtimes m0 = mg_Runtimes m /\ mg_Waiting m0 = mg_Waiting m /\ mg_Stuck m0 = true) as H0 by done. revert H0. generalize m0. clear m0.
    induction l as [|s l IH]; intros m0 (H1 & H2 & H3) m'; simpl; [by intros [= <-]|].
    destruct (mgrStep env data order m0 s) as [m1|] eqn:E; [|done]. destruct (stuck_step _ _ _ H3 E) as (pid & -> & ->). intros H.
    destruct (IH (ended m0 pid) (conj H1 (conj H2 H3)) m' H) as (? & ? & ? & ?). repeat split; try done. constructor; [by eexists|done].
Qed.
End Shutdown.

(** ** One process per adapter *)

Section Processes.
Variable env : OsEnv Content.
Variable data : Path.
Variable order : gmap string AdapterRuntime -> list (string * AdapterRuntime).
(** The strategy that the manifest of an adapter names. *)
Variable strategy : string -> string.

(** The files name the adapter and its strategy. *)
Definition filesAgree (fs : FS Content) (name : string) : Prop :=
  forall d, LoadAdapter env data fs name = Ok d -> ad_Name d = name /\ ad_Strategy d = strategy name.

(** Files agree throughout, and no adapter starts before the goroutine of its last process
    has finished. *)
Definition promptStep (m : Manager) (s : MgrStep) : Prop :=
  match s with
  | StStart _ _ fs name => filesAgree fs name /\ name ∉ map fst (mg_Waiting m)
  | StStop _ _ _ fs name => filesAgree fs name
  | _ => True
  end.

Inductive promptRun : Manager -> Prop :=
  | prompt_new : promptRun NewManager
  | prompt_step m s m' : promptRun m -> promptStep m s -> mgrStep env data order m s = Some m' -> promptRun m'.

Record processInv (m : Manager) : Prop := {
  pi_alive : forall pid n, mg_Alive m !! pid = Some n -> (n, pid) ∈ mg_Waiting m /\
    exists r, mg_Runtimes m !! n = Some r /\ rt_State r = StateRunning /\ rt_PID r = pid;
  pi_waiting : NoDup (map fst (mg_Waiting m));
  pi_pids : forall n r, mg_Runtimes m !! n = Some r -> strategy n = StrategySubprocess -> 0 < rt_PID r;
  pi_strategy : forall pid n, mg_Alive m !! pid = Some n -> strategy n = StrategySubprocess
}.

Lemma waiting_pid m n pid pid' : processInv m -> (n, pid) ∈ mg_Waiting m -> (n, pid') ∈ mg_Waiting m -> pid = pid'.
Proof.
  intros [_ H _ _] H1 H2. apply list_elem_of_lookup in H1 as [i Hi]. apply list_elem_of_lookup in H2 as [j Hj].
  assert (i = j) as ->; [|congruence]. apply (NoDup_lookup (map fst (mg_Waiting m)) i j n H); by rewrite list_lookup_fmap, ?Hi, ?Hj.
Qed.

(** Stopping an adapter whose process is the one of its runtime. *)
Lemma stopped_inv m name r : processInv m -> mg_Runtimes m !! name = Some r ->
  processInv (ended (set_runtime m name (set_State r StateStopped)) (rt_PID r)).
Proof.
  intros [H1 H2 H3 H4] Hr. split; simpl.
  - intros pid n [Hne Hp]%lookup_delete_Some. destruct (H1 _ _ Hp) as (Hw & r' & Hr' & Hs & Hpid). split; [done|]. exists r'.
    destruct (decide (name = n)) as [<-|Hn]; [|by rewrite lookup_insert_ne]. exfalso. apply Hne. congruence.
  - done.
  - intros n r' Hr'. destruct (decide (name = n)) as [<-|Hn]; [|rewrite lookup_insert_ne in Hr' by done; by apply H3].
    rewrite lookup_insert_eq in Hr'. injection Hr' as <-. simpl. by apply H3.
  - intros pid n [_ Hp]%lookup_delete_Some. by apply (H4 pid).
Qed.

Lemma stopOnce_cases force s m name d r m' res : stopOnce force s m name d r = (m', res) ->
  (m' = m /\ res <> Some None) \/ (m' = ended (set_runtime m name (set_State r StateStopped)) (rt_PID r) /\ res = Some None).
Proof. destruct s as [[]| |]; simpl; [intros [= <- <-]; by right| |intros [= <- <-]; by right|intros [= <- <-]; by left]. destruct force; intros [= <- <-]; by left. Qed.

Lemma stopSubprocess_cases first second force m name d r m' res : 0 < rt_PID r -> stopSubprocess first second force m name d r = (m', res) ->
  (m' = m /\ is_Some res) \/ (m' = ended (set_runtime m name (set_State r StateStopped)) (rt_PID r) /\ res = None).
Proof.
  intros Hp. unfold stopSubprocess. rewrite decide_False by lia. destruct (stopOnce force first m name d r) as [m1 r1] eqn:E1.
  assert (forall m1 r2, stopOnce true second m1 name d r = (m', r2) -> r2 <> None) as Hlast by (intros m2 r2; destruct second as [[]| |]; by intros [= <- <-]).
  apply stopOnce_cases in E1 as [[-> H1]|[-> ->]]; [|intros [= <- <-]; by right].
  destruct r1 as [[e|]|]; [intros [= <- <-]; left; split; [done|by eexists]|done|].
  destruct (stopOnce true second m name d r) as [m2 r2] eqn:E2. pose proof E2 as E2'.
  apply stopOnce_cases in E2 as [[-> H2]|[-> ->]]; [|intros [= <- <-]; by right].
  destruct r2 as [[e|]|]; intros [= <- <-]; [left; split; [done|by eexists]|done|by destruct (Hlast _ _ E2')].
Qed.

Lemma set_runtime_inv m n r r' : processInv m -> mg_Runtimes m !! n = Some r -> rt_State r' = rt_State r -> rt_PID r' = rt_PID r ->
  processInv (set_runtime m n r').
Proof.
  intros [H1 H2 H3 H4] Hr Hs Hp. split; simpl; [|done| |done].
  - intros pid k Hk. destruct (H1 _ _ Hk) as (Hw & r0 & Hr0 & Hst & Hpid). split; [done|].
    destruct (decide (n = k)) as [<-|Hne]; [|exists r0; by rewrite lookup_insert_ne].
    exists r'. rewrite lookup_insert_eq. split; [done|]. split; congruence.
  - intros k r0. destruct (decide (n = k)) as [<-|Hne]; [|rewrite lookup_insert_ne by done; apply H3].
    rewrite lookup_insert_eq. intros [= <-]. rewrite Hp. by apply H3.
Qed.

(** A runtime of an adapter without processes. *)
Lemma idle_runtime_inv m n r : processInv m -> strategy n <> StrategySubprocess -> processInv (set_runtime m n r).
Proof.
  intros [H1 H2 H3 H4] Hs. split; simpl; [|done| |done].
  - intros pid k Hk. destruct (decide (n = k)) as [<-|Hne]; [by destruct Hs; apply (H4 pid)|]. rewrite lookup_insert_ne by done. by apply H1.
  - intros k r0. destruct (decide (n = k)) as [<-|Hne]; [done|]. rewrite lookup_insert_ne by done. apply H3.
Qed.

Lemma launched_inv m name now pid : processInv m -> name ∉ map fst (mg_Waiting m) -> strategy name = StrategySubprocess -> 0 < pid -> mg_Alive m !! pid = None ->
  processInv (mkManager (<[name := mkRuntime name StateRunning HealthUnknown pid (Some now) None]> (mg_Runtimes m))
    (<[pid := name]> (mg_Alive m)) (mg_Waiting m ++ [(name, pid)]) (mg_Stuck m)).
Proof.
  intros [H1 H2 H3 H4] Hw Hs Hp Hfree. split; simpl.
  - intros pid' n Hn. destruct (decide (pid = pid')) as [<-|Hne].
    + rewrite lookup_insert_eq in Hn. injection Hn as <-. rewrite lookup_insert_eq. split; [apply elem_of_app; right; by left|by eexists].
    + rewrite lookup_insert_ne in Hn by done. destruct (H1 _ _ Hn) as (Hin & r & Hr & Hst & Hpid). split; [apply elem_of_app; by left|].
      exists r. rewrite lookup_insert_ne; [done|]. intros <-. apply Hw. by apply (list_elem_of_fmap_2 fst _ (name, pid')).
  - rewrite map_app. apply NoDup_app. split; [done|]. split; [|apply NoDup_singleton]. simpl. intros x Hx ->%list_elem_of_singleton. done.
  - intros n r. destruct (decide (name = n)) as [<-|Hne]; [rewrite lookup_insert_eq; by intros [= <-]|rewrite lookup_insert_ne by done; apply H3].
  - intros pid' n Hn. destruct (decide (pid = pid')) as [<-|Hne]; [rewrite lookup_insert_eq in Hn; by injection Hn as <-|].
    rewrite lookup_insert_ne in Hn by done. by apply (H4 pid').
Qed.

Lemma StartAdapter_inv now l fs m name : processInv m -> promptStep m (StStart now l fs name) -> enabled m (StStart now l fs name) = true ->
  processInv (StartAdapter env data now l fs m name).1.
Proof.
  intros H [Hf Hw] He. unfold StartAdapter. destruct (LoadAdapter env data fs name) as [d|e] eqn:Hd; [|done]. destruct (Hf d Hd) as [Hn Hs].
  destruct (match mg_Runtimes m !! name with Some r => _ | None => false end); [done|]. case_decide as Hsub.
  - unfold startSubprocess. destruct (findAdapterExecutable _ _ _ _); [|done]. destruct (la_Logs l); [done|].
    simpl in He. destruct (la_Start l) as [pid|]; [|done]. simpl. rewrite Hn in *. apply andb_true_iff in He as [_ He].
    apply andb_true_iff in He as [He _]. apply andb_true_iff in He as [Hp Ha]. apply bool_decide_eq_true in Hp, Ha. apply launched_inv; try done. congruence.
  - case_decide as Hb; [|by case_decide]. simpl. unfold startBuiltin. rewrite Hn. apply idle_runtime_inv; [done|]. congruence.
Qed.

Lemma StopAdapter_cases first second force fs m name m' res : processInv m -> filesAgree fs name ->
  StopAdapter env data first second force fs m name = (m', res) ->
  processInv m' /\ (strategy name = StrategySubprocess -> res = None -> exists r, mg_Runtimes m !! name = Some r /\
    m' = ended (set_runtime m name (set_State r StateStopped)) (rt_PID r)).
Proof.
  intros H Hf. unfold StopAdapter. destruct (LoadAdapter env data fs name) as [d|e] eqn:Hd; [|by intros [= <- <-]]. destruct (Hf d Hd) as [Hn Hs].
  destruct (mg_Runtimes m !! name) as [r|] eqn:Hr; [|by intros [= <- <-]]. case_decide; [by intros [= <- <-]|]. rewrite Hs. case_decide as Hsub.
  - intros E. pose proof (pi_pids _ H _ _ Hr Hsub) as Hp. destruct (stopSubprocess_cases _ _ _ _ _ _ _ _ _ Hp E) as [[-> [e ->]]|[-> ->]]; [done|].
    split; [by apply stopped_inv|]. intros _ _. by exists r.
  - case_decide; [intros [= <- <-]; split; [by apply idle_runtime_inv|congruence]|]. case_decide; by intros [= <- <-].
Qed.

Lemma waited_inv m name pid : processInv m -> (name, pid) ∈ mg_Waiting m -> mg_Alive m !! pid = None -> processInv (processWaited m name pid).
Proof.
  intros H Hin Ha. pose proof H as [H1 H2 H3 H4].
  assert (forall pid' n, mg_Alive m !! pid' = Some n -> n <> name) as Hother.
  { intros pid' n Hp ->. destruct (H1 _ _ Hp) as (Hw & _). pose proof (waiting_pid m name pid pid' H Hin Hw) as <-. congruence. }
  unfold processWaited. split; simpl.
  - intros pid' n Hn. destruct (H1 _ _ Hn) as (Hw & r & Hr & Hst & Hp). pose proof (Hother _ _ Hn) as Hne. split.
    + apply list_elem_of_filter. split; [|done]. congruence.
    + exists r. split; [|done]. destruct (mg_Runtimes m !! name); [|done]. case_decide; [|done]. by rewrite lookup_insert_ne.
  - eapply sublist_NoDup; [apply H2|]. apply (fmap_sublist fst), sublist_filter.
  - intros n r. destruct (mg_Runtimes m !! name) as [r0|] eqn:Hr0; [|apply H3]. case_decide; [|apply H3].
    destruct (decide (name = n)) as [<-|Hne]; [|rewrite lookup_insert_ne by done; apply H3]. rewrite lookup_insert_eq. intros [= <-]. by apply (H3 name r0).
  - done.
Qed.

Lemma promptRun_inv m : promptRun m -> processInv m.
Proof.
  induction 1 as [|m s m' _ IH Hp E].
  - split; simpl; [by intros pid n; rewrite lookup_empty|constructor|by intros n r; rewrite lookup_empty|by intros pid n; rewrite lookup_empty].
  - unfold mgrStep in E. destruct (enabled m s) eqn:He; [|done]. injection E as <-. destruct s as [now l fs name|first second force fs name|now name| |pid|name pid].
    + by apply StartAdapter_inv.
    + destruct (StopAdapter _ _ _ _ _ _ _ _) as [m' res] eqn:E. by eapply StopAdapter_cases.
    + unfold HealthCheck. destruct (mg_Runtimes m !! name) as [r|] eqn:Hr; [|done]. case_decide; [done|]. by eapply set_runtime_inv.
    + unfold Shutdown. destruct (shutdownLoop _); [done|]. by destruct IH.
    + destruct IH as [H1 H2 H3 H4]. split; simpl; [|done|done|]; intros pid' n [_ Hn]%lookup_delete_Some; [by apply H1|by apply (H4 pid')].
    + simpl in He. apply andb_true_iff in He as [He Ha]. apply andb_true_iff in He as [_ Hw]. apply bool_decide_eq_true in Hw, Ha. by apply waited_inv.
Qed.

End Processes.

(** ** Examples *)

Definition tool_files : FS Content := (CreateAdapter calm aps_data 5 aps_files "tool" AdapterTypeDesktop "" ScopeGlobal "").1.
Definition launch (pid : Z) : Launch := mkLaunch (Some "/bin/aps-adapter-tool") None (Ok pid).

(** Started, stopped, its goroutine finished, and started again. *)
Definition tool_run : list MgrStep := [
  StStart 10 (launch 100) tool_files "tool"; StHealth 11 "tool"; StStop (Delivered true) ProcessDone false tool_files "tool";
  StWaited "tool" 100; StStart 20 (launch 200) tool_files "tool"].

Definition tool_state (l : list MgrStep) : Manager := default NewManager (mgrSteps calm aps_data map_to_list NewManager l).

Definition tool_strategy (name : string) : string := if decide (name = "tool") then StrategySubprocess else StrategyBuiltin.

Lemma tool_agrees : filesAgree calm aps_data tool_strategy tool_files "tool".
Proof. intros d. vm_compute. by intros [= <-]. Qed.


Lemma shutdown_never_stops_witness : let m := tool_state (take 1 tool_run) in
  (Shutdown map_to_list m).2 = None /\ mg_Alive (Shutdown map_to_list m).1 !! 100 = Some "tool" /\
  mgrSteps calm aps_data map_to_list (Shutdown map_to_list m).1 [StHealth 12 "tool"] = None.
Proof.
  intros m. assert (mg_Stuck m = false) as Hs by by vm_compute.
  destruct (shutdown_never_stops calm aps_data map_to_list (fun _ => reflexivity _) m Hs) as (H1 & _ & H3).
  assert ((Shutdown map_to_list m).2 = None) as Hn.
  { apply H1. exists "tool", (GetRuntime m "tool"). split; by vm_compute. }
  split; [done|]. split; [by vm_compute|]. destruct (mgrSteps _ _ _ _ _) eqn:E; [|done].
  apply (H3 Hn) in E as (_ & _ & _ & Hf). inversion Hf as [|x l [pid Hx]]. done.
Defined.

(** The goroutine of the first process finishes only after the second one was started: it
    marks the running adapter as stopped, a third process starts beside the second, and
    without that start the second could not be stopped. *)
Definition stale_run : list MgrStep := [
  StStart 10 (launch 100) tool_files "tool"; StStop (Delivered true) ProcessDone false tool_files "tool";
  StStart 20 (launch 200) tool_files "tool"; StWaited "tool" 100].

Example stale_wait_hides_process :
  let m := tool_state stale_run in
  mg_Alive m !! 200 = Some "tool" /\ rt_State (GetRuntime m "tool") = StateStopped /\
  (StopAdapter calm aps_data (Delivered true) ProcessDone true tool_files m "tool").2 = Some (ErrAdapterAlreadyStopped "tool") /\
  (StartAdapter calm aps_data 30 (launch 300) tool_files m "tool").2 = None.
Proof. by vm_compute. Qed.

(** A process that has ended is healthy until its goroutine gets the lock. *)
Example dead_process_healthy :
  let m := tool_state [StStart 10 (launch 100) tool_files "tool"; StExit 100] in
  mg_Alive m !! 100 = None /\ (HealthCheck 11 m "tool").2 = None.
Proof. by vm_compute. Qed.
