(* ===== verification/Skills.v ===== *)
(** * Skills

    src/internal/skills: parser.go, paths.go, registry.go, filter.go, config.go, adapters.go.
    A skill is a directory with a SKILL.md below one of the search paths; the registry maps
    names to the skills of the first path that has a valid one, and renders them for the
    prompt of a model.  Files are texts in the tree of GoFS; the YAML parser is an argument,
    and JSON and YAML outputs are their values before encoding. *)

From Stdlib Require Import ZArith Lia String Ascii.
From stdpp Require Import base option list gmap strings sorting.
From S2P Require Import Prelude Text AcpFiles GoFS.

#[local] Open Scope Z_scope.

(** ** parser.go *)

(** The fields of the front matter, as yaml.Unmarshal leaves them. *)
Record Frontmatter : Type := mkFrontmatter {
  fm_Name : string; fm_Description : string; fm_License : string; fm_Compatibility : string; fm_Metadata : gmap string string; fm_AllowedTools : string
}.

Record Skill : Type := mkSkill {
  sl_Name : string; sl_Description : string; sl_License : string; sl_Compatibility : string; sl_Metadata : gmap string string;
  sl_AllowedTools : string; sl_BodyContent : string; sl_BasePath : Path; sl_SourcePath : Path
}.

Definition MaxNameLength : Z := 64.
Definition MaxDescriptionLength : Z := 1024.
Definition MaxCompatibilityLength : Z := 500.

Definition lowerAlnum (c : ascii) : bool := let n := N_of_ascii c in bool_decide (97 <= n <= 122 \/ 48 <= n <= 57)%N.

(** [^[a-z0-9]+(-[a-z0-9]+)*$] *)
Definition namePattern (s : string) : bool :=
  forallb (fun w => negb (bool_decide (w = [])) && forallb lowerAlnum w) (splitOn "-"%char (chars s)).

Inductive SkillErr : Type :=
  | ErrMissingSkillFile (path : Path) | SkillFile (e : OsErr) | ErrMissingFrontmatter | FrontmatterParse
  | ErrNameMismatch (name dirName : string) | ErrInvalidName (why : string) | ErrInvalidDescription (why : string) | ErrCompatibility.

Definition len (s : string) : Z := Z.of_nat (length (chars s)).

Definition Skill_Validate (s : Skill) : option SkillErr :=
  if decide (sl_Name s = "") then Some (ErrInvalidName "name is required")
  else if decide (MaxNameLength < len (sl_Name s)) then Some (ErrInvalidName "name exceeds 64 characters")
  else if negb (namePattern (sl_Name s)) then Some (ErrInvalidName "name must be lowercase alphanumeric with hyphens, no leading/trailing/consecutive hyphens")
  else if decide (sl_Description s = "") then Some (ErrInvalidDescription "description is required")
  else if decide (MaxDescriptionLength < len (sl_Description s)) then Some (ErrInvalidDescription "description exceeds 1024 characters")
  else if decide (sl_Compatibility s <> "" /\ MaxCompatibilityLength < len (sl_Compatibility s)) then Some ErrCompatibility
  else None.

Definition newline : ascii := ascii_of_N 10.
Definition fence : list ascii := ["-"; "-"; "-"]%char.
Definition isFence (l : list ascii) : bool := bool_decide (trim l = fence).

(** The lines before the first fence and those behind it. *)
Fixpoint untilFence (ls : list (list ascii)) : option (list (list ascii) * list (list ascii)) :=
  match ls with
  | [] => None
  | l :: ls => if isFence l then Some ([], ls) else match untilFence ls with Some (a, b) => Some (l :: a, b) | None => None end
  end.

Section Skills.
Variable yaml : string -> option Frontmatter.

Definition parseFrontmatter (content : string) : Res SkillErr (Frontmatter * string) :=
  match splitOn newline (chars content) with
  | first :: rest =>
      if decide (length (first :: rest) < 3)%nat then Err ErrMissingFrontmatter
      else if negb (isFence first) then Err ErrMissingFrontmatter
      else match untilFence rest with
           | None => Err ErrMissingFrontmatter
           | Some (front, body) =>
               match yaml (unchars (joinOn newline front)) with
               | None => Err FrontmatterParse
               | Some fm => Ok (fm, TrimSpace (unchars (joinOn newline body)))
               end
           end
  | [] => Err ErrMissingFrontmatter
  end.

Variable env : OsEnv string.

Definition ParseSkill (fs : FS string) (skillPath : Path) : Res SkillErr Skill :=
  let skillMdPath := GoFS.Join skillPath "SKILL.md" in
  let parse :=
    match ReadFile env fs skillMdPath with
    | Err e => Err (SkillFile e)
    | Ok content =>
        match parseFrontmatter content with
        | Err e => Err e
        | Ok (fm, body) =>
            let skill := mkSkill (fm_Name fm) (fm_Description fm) (fm_License fm) (fm_Compatibility fm) (fm_Metadata fm) (fm_AllowedTools fm) body skillPath [] in
            let dirName := List.last skillPath "/" in
            if decide (sl_Name skill <> dirName) then Err (ErrNameMismatch (sl_Name skill) dirName)
            else match Skill_Validate skill with Some e => Err e | None => Ok skill end
        end
    end in
  match Stat env fs skillMdPath with
  | Err e => if IsNotExist e then Err (ErrMissingSkillFile skillMdPath) else parse
  | Ok _ => parse
  end.

Definition regularFile (fs : FS string) (p : Path) : bool := match Stat env fs p with Ok isDirectory => negb isDirectory | Err _ => false end.

Definition GetScriptPath (s : Skill) (scriptName : string) : Path := GoFS.Join (GoFS.Join (sl_BasePath s) "scripts") scriptName.
Definition GetReferencePath (s : Skill) (refName : string) : Path := GoFS.Join (GoFS.Join (sl_BasePath s) "references") refName.
Definition GetAssetPath (s : Skill) (assetName : string) : Path := GoFS.Join (GoFS.Join (sl_BasePath s) "assets") assetName.

Definition HasScript (fs : FS string) (s : Skill) (scriptName : string) : bool := regularFile fs (GetScriptPath s scriptName).
Definition HasReference (fs : FS string) (s : Skill) (refName : string) : bool := regularFile fs (GetReferencePath s refName).
Definition HasAsset (fs : FS string) (s : Skill) (assetName : string) : bool := is_ok (Stat env fs (GetAssetPath s assetName)).

Definition listFiles (fs : FS string) (dir : Path) : Res SkillErr (list string) :=
  match ReadDir env fs dir with
  | Err e => if IsNotExist e then Ok [] else Err (SkillFile e)
  | Ok entries => Ok (map fst (filter (fun e => e.2 = false) entries))
  end.

Definition ListScripts (fs : FS string) (s : Skill) : Res SkillErr (list string) := listFiles fs (GoFS.Join (sl_BasePath s) "scripts").
Definition ListReferences (fs : FS string) (s : Skill) : Res SkillErr (list string) := listFiles fs (GoFS.Join (sl_BasePath s) "references").
Definition ListAssets (fs : FS string) (s : Skill) : Res SkillErr (list string) := listFiles fs (GoFS.Join (sl_BasePath s) "assets").

(** ** paths.go *)

(** [None]: the path of a directory that cannot be determined is the empty text. *)
Record SkillPaths : Type := mkSkillPaths {
  sk_ProfilePath : option Path; sk_GlobalPath : option Path; sk_UserPaths : list Path; sk_DetectedPaths : list Path
}.

(** [profileDir] and [dataDir] are core.GetProfileDir and core.GetDataDir. *)
Definition NewSkillPaths (profileDir dataDir : option Path) : SkillPaths :=
  mkSkillPaths (fmap (fun d => GoFS.Join d "skills") profileDir) (fmap (fun d => GoFS.Join d "skills") dataDir) [] [].

Definition AllPaths (sp : SkillPaths) : list (option Path) :=
  sk_ProfilePath sp :: sk_GlobalPath sp :: map Some (sk_UserPaths sp) ++ map Some (sk_DetectedPaths sp).

(** The candidates below the home directory, with [under] for [filepath.Join] of several elements. *)
Definition idePath (root : Path) (names : list string) : Path := foldl GoFS.Join root names.

Definition ideCandidates (goos : string) (homeDir appData localAppData : Path) : list Path :=
  if decide (goos = "darwin") then [
    idePath homeDir [".claude"; "skills"]; idePath homeDir [".cursor"; "skills"];
    idePath homeDir ["Library"; "Application Support"; "Cursor"; "User"; "skills"]; idePath homeDir [".vscode"; "skills"];
    idePath homeDir ["Library"; "Application Support"; "Code"; "User"; "skills"]; idePath homeDir [".config"; "zed"; "skills"];
    idePath homeDir [".windsurf"; "skills"]]
  else if decide (goos ∈ ["linux"; "freebsd"; "openbsd"; "netbsd"]) then [
    idePath homeDir [".claude"; "skills"]; idePath homeDir [".cursor"; "skills"];
    idePath homeDir [".config"; "Cursor"; "User"; "skills"]; idePath homeDir [".vscode"; "skills"];
    idePath homeDir [".config"; "Code"; "User"; "skills"]; idePath homeDir [".config"; "zed"; "skills"];
    idePath homeDir [".windsurf"; "skills"]]
  else if decide (goos = "windows") then [
    idePath homeDir [".claude"; "skills"]; idePath homeDir [".cursor"; "skills"]; idePath appData ["Cursor"; "User"; "skills"];
    idePath homeDir [".vscode"; "skills"]; idePath appData ["Code"; "User"; "skills"]; idePath localAppData ["Zed"; "skills"];
    idePath homeDir [".windsurf"; "skills"]]
  else [].

Definition DetectIDEPaths (goos : string) (homeDir appData localAppData : Path) (fs : FS string) : list Path :=
  filter (fun p => match Stat env fs p with Ok d => d | Err _ => false end = true) (ideCandidates goos homeDir appData localAppData).

Definition SuggestIDEPaths (detected : list Path) (sp : SkillPaths) : list Path :=
  filter (fun p => p ∉ sk_UserPaths sp /\ p ∉ sk_DetectedPaths sp) detected.

(** ** registry.go *)

Definition set_SourcePath (s : Skill) (p : Path) : Skill :=
  mkSkill (sl_Name s) (sl_Description s) (sl_License s) (sl_Compatibility s) (sl_Metadata s) (sl_AllowedTools s) (sl_BodyContent s) (sl_BasePath s) p.

(** One entry of a search path. *)
Definition discoverEntry (fs : FS string) (searchPath : Path) (skills : gmap string Skill) (entry : string * bool) : gmap string Skill :=
  if negb entry.2 then skills
  else
    let skillPath := GoFS.Join searchPath entry.1 in
    if match Stat env fs (GoFS.Join skillPath "SKILL.md") with Err e => IsNotExist e | Ok _ => false end then skills
    else match skills !! entry.1 with
         | Some _ => skills
         | None => match ParseSkill fs skillPath with
                   | Err _ => skills
                   | Ok skill => <[entry.1 := set_SourcePath skill searchPath]> skills
                   end
         end.

Definition discoverPath (fs : FS string) (skills : gmap string Skill) (searchPath : option Path) : gmap string Skill :=
  match searchPath with
  | None => skills
  | Some p =>
      if match Stat env fs p with Err e => IsNotExist e | Ok _ => false end then skills
      else match ReadDir env fs p with
           | Err _ => skills
           | Ok entries => foldl (discoverEntry fs p) skills entries
           end
  end.

Definition Discover (fs : FS string) (sp : SkillPaths) : gmap string Skill := foldl (discoverPath fs) ∅ (AllPaths sp).
End Skills.

Definition skill_le (a b : Skill) : Prop := str_le (sl_Name a) (sl_Name b).
#[local] Instance skill_le_dec a b : Decision (skill_le a b).
Proof. unfold skill_le. apply _. Defined.

#[local] Instance skill_le_trans : Transitive skill_le.
Proof. intros a b c. unfold skill_le. apply str_le_trans. Qed.

#[local] Instance skill_le_total : Total skill_le.
Proof. intros a b. unfold skill_le. apply (total str_le). Qed.

(** [order] is the order of a loop over the skills; names are distinct. *)
Definition List_ (order : gmap string Skill -> list (string * Skill)) (skills : gmap string Skill) : list Skill := merge_sort skill_le (map snd (order skills)).

Definition getSourceLabel (sp : SkillPaths) (sourcePath : Path) : string :=
  let text := pathText sourcePath in
  if decide (Some sourcePath = sk_ProfilePath sp) then "Profile"
  else if decide (Some sourcePath = sk_GlobalPath sp) then "Global"
  else if decide (sourcePath ∈ sk_UserPaths sp) then "User"
  else if decide (sourcePath ∈ sk_DetectedPaths sp) then
    if Contains text ".claude" then "Claude Code"
    else if Contains text ".cursor" then "Cursor"
    else if Contains text "Code" && Contains text "vscode" then "VS Code"
    else if Contains text "Zed" then "Zed"
    else if Contains text ".windsurf" then "Windsurf"
    else "Detected"
  else "Other".

Definition ListBySource (order : gmap string Skill -> list (string * Skill)) (sp : SkillPaths) (skills : gmap string Skill) : gmap string (list Skill) :=
  fmap (merge_sort skill_le) (foldl (fun (m : gmap string (list Skill)) e =>
    let source := getSourceLabel sp (sl_SourcePath e.2) in <[source := default [] (m !! source) ++ [e.2]]> m) ∅ (order skills)).

(** ** filter.go *)

Record SkillFilter : Type := mkSkillFilter { sf_Platform : string; sf_Protocol : string; sf_IsolationLevel : string; sf_CompatibleOnly : bool }.

Definition NewSkillFilter (goos : string) : SkillFilter := mkSkillFilter goos "" "" false.

Definition matchesPlatform (f : SkillFilter) (s : Skill) : bool :=
  if decide (sl_Compatibility s = "") then true
  else
    let says w := Contains (ToLower (sl_Compatibility s)) w in
    if decide (sf_Platform f = "linux") then (says "linux" || says "unix") || negb (says "macos" || says "windows")
    else if decide (sf_Platform f = "darwin") then (says "macos" || says "darwin" || says "unix") || negb (says "linux only" || says "windows")
    else if decide (sf_Platform f = "windows") then says "windows" || negb (says "linux" || says "macos" || says "unix")
    else true.

Definition matchesProtocol (f : SkillFilter) (s : Skill) : bool :=
  match sl_Metadata s !! "protocols" with Some protocols => Contains (ToLower protocols) (sf_Protocol f) | None => true end.

Definition matchesIsolationLevel (f : SkillFilter) (s : Skill) : bool :=
  match sl_Metadata s !! "required_isolation" with
  | Some required =>
      let level := ToLower required in
      if decide (level = "container") then bool_decide (sf_IsolationLevel f = "container")
      else if decide (level = "platform") then bool_decide (sf_IsolationLevel f = "platform" \/ sf_IsolationLevel f = "container")
      else true
  | None => true
  end.

Definition commandExists (cmd : string) : bool := true.

Definition isCompatible (f : SkillFilter) (s : Skill) : bool :=
  if negb (matchesPlatform f s) then false
  else if decide (sl_Compatibility s = "") then true
  else
    let compat := ToLower (sl_Compatibility s) in
    if Contains compat "docker" && negb (commandExists "docker") then false
    else if Contains compat "git" && negb (commandExists "git") then false
    else true.

Definition Matches (f : SkillFilter) (s : Skill) : bool :=
  if decide (sf_Platform f <> "" /\ matchesPlatform f s = false) then false
  else if decide (sf_Protocol f <> "" /\ matchesProtocol f s = false) then false
  else if decide (sf_IsolationLevel f <> "" /\ matchesIsolationLevel f s = false) then false
  else if sf_CompatibleOnly f && negb (isCompatible f s) then false
  else true.

(** ** Prompts *)

Definition nl : string := unchars [newline].

Definition xmlEscape (s : string) : string :=
  ReplaceAll (ReplaceAll (ReplaceAll (ReplaceAll (ReplaceAll s "&" "&amp;") "<" "&lt;") ">" "&gt;") (unchars [dquote]) "&quot;") "'" "&apos;".

Definition element (indent tag value : string) : string := indent +:+ "<" +:+ tag +:+ ">" +:+ value +:+ "</" +:+ tag +:+ ">" +:+ nl.

Definition location (s : Skill) : string := pathText (GoFS.Join (sl_BasePath s) "SKILL.md").

Definition concatTexts (l : list string) : string := foldr String.append "" l.

Definition filtered (f : option SkillFilter) (skills : list Skill) : list Skill :=
  match f with None => skills | Some f => filter (fun s => Matches f s = true) skills end.

Definition available (body : list string) : string := "<available_skills>" +:+ nl +:+ concatTexts body +:+ "</available_skills>".

Section Prompts.
Variable order : gmap string Skill -> list (string * Skill).
Variable orderMeta : gmap string string -> list (string * string).

Definition promptSkill (withLocation : bool) (s : Skill) : string :=
  "  <skill>" +:+ nl +:+ element "    " "name" (xmlEscape (sl_Name s)) +:+ element "    " "description" (xmlEscape (sl_Description s))
  +:+ (if withLocation then element "    " "location" (xmlEscape (location s)) else "") +:+ "  </skill>" +:+ nl.

Definition ToPromptXMLFiltered (skills : gmap string Skill) (f : option SkillFilter) : string :=
  match filtered f (List_ order skills) with [] => "" | l => available (map (promptSkill true) l) end.

Definition ToPromptXML (skills : gmap string Skill) : string := ToPromptXMLFiltered skills None.

Definition metadataXML (m : gmap string string) : string :=
  if decide (m = ∅) then ""
  else "    <metadata>" +:+ nl +:+ concatTexts (map (fun e => element "      " (xmlEscape e.1) (xmlEscape e.2)) (orderMeta m)) +:+ "    </metadata>" +:+ nl.

Definition promptSkillWithMetadata (s : Skill) : string :=
  "  <skill>" +:+ nl +:+ element "    " "name" (xmlEscape (sl_Name s)) +:+ element "    " "description" (xmlEscape (sl_Description s))
  +:+ element "    " "location" (xmlEscape (location s))
  +:+ (if decide (sl_License s <> "") then element "    " "license" (xmlEscape (sl_License s)) else "")
  +:+ (if decide (sl_Compatibility s <> "") then element "    " "compatibility" (xmlEscape (sl_Compatibility s)) else "")
  +:+ metadataXML (sl_Metadata s) +:+ "  </skill>" +:+ nl.

Definition ToPromptXMLWithMetadataFiltered (skills : gmap string Skill) (f : option SkillFilter) : string :=
  match filtered f (List_ order skills) with [] => "" | l => available (map promptSkillWithMetadata l) end.

Definition ToPromptXMLWithMetadata (skills : gmap string Skill) : string := ToPromptXMLWithMetadataFiltered skills None.

Definition ToPromptXMLForPlatform (skills : gmap string Skill) (platform : string) : string :=
  ToPromptXMLFiltered skills (Some (mkSkillFilter platform "" "" true)).
Definition ToPromptXMLForProtocol (skills : gmap string Skill) (protocol : string) : string :=
  ToPromptXMLFiltered skills (Some (mkSkillFilter "" protocol "" false)).
Definition ToPromptXMLForIsolation (skills : gmap string Skill) (isolationLevel : string) : string :=
  ToPromptXMLFiltered skills (Some (mkSkillFilter "" "" isolationLevel false)).

(** *** adapters.go *)

Definition AgentTypeFilesystem : string := "filesystem".
Definition AgentTypeTool : string := "tool".

Definition FormatXML : string := "xml".
Definition FormatJSON : string := "json".
Definition FormatYAML : string := "yaml".

Record SkillJSON : Type := mkSkillJSON { sj_Name : string; sj_Description : string; sj_Location : string; sj_License : string; sj_Metadata : gmap string string }.

(** A list of skills as text or as the value that is encoded, with its count. *)
Inductive SkillOutput : Type := OutXML (text : string) | OutJSON (skills : list SkillJSON) (count : Z) | OutYAML (skills : list SkillJSON) (count : Z).

Definition Adapter_ToXML (skills : gmap string Skill) (agentType : string) (f : option SkillFilter) : string :=
  match filtered f (List_ order skills) with
  | [] => ""
  | l => available (map (promptSkill (bool_decide (agentType = AgentTypeFilesystem))) l)
  end.

Definition skillValue (agentType : string) (s : Skill) : SkillJSON :=
  mkSkillJSON (sl_Name s) (sl_Description s) (if decide (agentType = AgentTypeFilesystem) then location s else "") (sl_License s) (sl_Metadata s).

Definition Adapter_ToJSON (skills : gmap string Skill) (agentType : string) (f : option SkillFilter) : list SkillJSON * Z :=
  let l := filtered f (List_ order skills) in (map (skillValue agentType) l, Z.of_nat (length l)).

Definition Adapter_ToYAML (skills : gmap string Skill) (agentType : string) (f : option SkillFilter) : list SkillJSON * Z :=
  let l := filtered f (List_ order skills) in (map (skillValue agentType) l, Z.of_nat (length l)).

Definition ToFormat (skills : gmap string Skill) (agentType format : string) (f : option SkillFilter) : option SkillOutput :=
  if decide (format = FormatXML) then Some (OutXML (Adapter_ToXML skills agentType f))
  else if decide (format = FormatJSON) then let '(l, n) := Adapter_ToJSON skills agentType f in Some (OutJSON l n)
  else if decide (format = FormatYAML) then let '(l, n) := Adapter_ToYAML skills agentType f in Some (OutYAML l n)
  else None.

Definition ForClaude (skills : gmap string Skill) (f : option SkillFilter) : string := Adapter_ToXML skills AgentTypeFilesystem f.
Definition ForCursor (skills : gmap string Skill) (f : option SkillFilter) : string := Adapter_ToXML skills AgentTypeFilesystem f.
Definition ForVSCode (skills : gmap string Skill) (f : option SkillFilter) : string := Adapter_ToXML skills AgentTypeFilesystem f.
Definition ForGeminiCLI (skills : gmap string Skill) (f : option SkillFilter) : string := Adapter_ToXML skills AgentTypeFilesystem f.
Definition ForAPI (skills : gmap string Skill) (f : option SkillFilter) : list SkillJSON * Z := Adapter_ToJSON skills AgentTypeTool f.
Definition ForA2A (skills : gmap string Skill) (f : option SkillFilter) : list SkillJSON * Z := Adapter_ToJSON skills AgentTypeTool f.
Definition ForACP (skills : gmap string Skill) (f : option SkillFilter) : string := Adapter_ToXML skills AgentTypeFilesystem f.
End Prompts.

(** ** config.go *)

Record SecretReplacementConfig : Type := mkSecretReplacement { sr_Enabled : bool; sr_LocalModels : list string; sr_LocalOnly : bool; sr_PlaceholderPattern : string }.
Record TelemetryConfig : Type := mkTelemetry { tc_Enabled : bool; tc_EventLog : string; tc_IncludeMetadata : bool }.
Record Config : Type := mkConfig {
  cg_Enabled : bool; cg_SkillSources : list string; cg_AutoDetectIDEPaths : bool; cg_SecretReplacement : SecretReplacementConfig; cg_Telemetry : TelemetryConfig
}.

Definition defaultPattern : string := "\$\{SECRET:([A-Z_]+)\}".

Definition DefaultConfig : Config :=
  mkConfig true [] false (mkSecretReplacement true ["llama3.2:3b"; "qwen2.5:3b"] false defaultPattern) (mkTelemetry true "" false).

Definition orText (a b : string) : string := if decide (a <> "") then a else b.

Definition Merge (c other : Config) : Config :=
  let s := cg_SecretReplacement c in let os := cg_SecretReplacement other in
  let t := cg_Telemetry c in let ot := cg_Telemetry other in
  mkConfig (cg_Enabled other || cg_Enabled c) (cg_SkillSources c ++ cg_SkillSources other) (cg_AutoDetectIDEPaths other || cg_AutoDetectIDEPaths c)
    (mkSecretReplacement (sr_Enabled os || sr_Enabled s) (if decide (sr_LocalModels os = []) then sr_LocalModels s else sr_LocalModels os)
       (sr_LocalOnly os || sr_LocalOnly s) (orText (sr_PlaceholderPattern os) (sr_PlaceholderPattern s)))
    (mkTelemetry (tc_Enabled ot || tc_Enabled t) (orText (tc_EventLog ot) (tc_EventLog t)) (tc_IncludeMetadata ot || tc_IncludeMetadata t)).

(** ** Discovery *)

(** Every node has an ordinary name. *)
Definition plainNames (fs : FS string) : Prop := forall p name, is_Some (fs !! (p ++ [name])) -> plain name.

Section Discovery.
Variable yaml : string -> option Frontmatter.
Variable env : OsEnv string.

(** The skill of a name in one search path: a directory that parses. *)
Definition skillIn (fs : FS string) (name : string) (searchPath : option Path) : option Skill :=
  match searchPath with
  | None => None
  | Some p =>
      match ReadDir env fs p with
      | Err _ => None
      | Ok entries =>
          if decide ((name, true) ∈ entries) then
            match ParseSkill yaml env fs (p ++ [name]) with Ok s => Some (set_SourcePath s p) | Err _ => None end
          else None
      end
  end.

Fixpoint firstOf {A B} (f : A -> option B) (l : list A) : option B :=
  match l with [] => None | x :: l => match f x with Some y => Some y | None => firstOf f l end end.

Lemma ParseSkill_missing fs p : match Stat env fs (GoFS.Join p "SKILL.md") with Err e => IsNotExist e | Ok _ => false end = true ->
  is_ok (ParseSkill yaml env fs p) = false.
Proof. unfold ParseSkill. destruct (Stat _ _ _) as [|e]; [done|]. by intros ->. Qed.

Lemma discoverEntry_lookup fs p skills entry name : plain entry.1 ->
  discoverEntry yaml env fs p skills entry !! name =
  match skills !! name with
  | Some s => Some s
  | None => if decide (entry = (name, true)) then match ParseSkill yaml env fs (p ++ [name]) with Ok s => Some (set_SourcePath s p) | Err _ => None end else None
  end.
Proof.
  intros Hp. destruct entry as [n d]. simpl in Hp. unfold discoverEntry. simpl. rewrite (Join_plain p n) by done.
  destruct d; simpl; [|rewrite decide_False by congruence; by destruct (skills !! name)].
  destruct (decide (n = name)) as [->|Hne].
  - rewrite decide_True by done. destruct (match Stat _ _ _ with Ok _ => _ | Err _ => _ end) eqn:Em.
    + apply ParseSkill_missing in Em. destruct (ParseSkill _ _ _ _); [done|]. by destruct (skills !! name).
    + destruct (skills !! name) eqn:E; [by rewrite E|]. destruct (ParseSkill _ _ _ _); [by rewrite lookup_insert_eq|done].
  - rewrite decide_False by congruence. assert (skills !! name = match skills !! name with Some s => Some s | None => None end) as E by (by destruct (skills !! name)).
    rewrite <- E. destruct (match Stat _ _ _ with Ok _ => _ | Err _ => _ end); [done|]. destruct (skills !! n); [done|].
    destruct (ParseSkill _ _ _ _); [by rewrite lookup_insert_ne|done].
Qed.

Lemma discoverPath_lookup fs skills searchPath name : plainNames fs ->
  discoverPath yaml env fs skills searchPath !! name = match skills !! name with Some s => Some s | None => skillIn fs name searchPath end.
Proof.
  intros Hpl. unfold discoverPath, skillIn. destruct searchPath as [p|]; [|by destruct (skills !! name)].
  destruct (match Stat _ _ _ with Ok _ => _ | Err _ => _ end) eqn:Em.
  { assert (exists e, ReadDir env fs p = Err e) as [e ->]; [|by destruct (skills !! name)].
    unfold Stat, ReadDir in *. destruct (oe_denied env p); [by eexists|]. destruct (isDir fs p); [done|]. destruct (fs !! p); [done|by eexists]. }
  destruct (ReadDir env fs p) as [entries|e] eqn:E; [|by destruct (skills !! name)]. apply ReadDir_Ok in E as [_ He].
  assert (forall n d, (n, d) ∈ entries -> plain n) as Hn by (intros n d Hin; apply He in Hin as [Hin _]; by eapply Hpl).
  clear He Em. revert skills. induction entries as [|[n d] entries IH]; intros skills; simpl.
  - by destruct (skills !! name).
  - rewrite IH by (intros n' d' Hin; apply (Hn n' d'); by right). rewrite discoverEntry_lookup by (apply (Hn n d); by left).
    destruct (skills !! name); [done|]. destruct (decide ((n, d) = (name, true))) as [[= -> ->]|Hne].
    + rewrite (decide_True (P := (name, true) ∈ (name, true) :: entries)) by (by left). destruct (ParseSkill _ _ _ _); [done|]. by case_decide.
    + destruct (decide ((name, true) ∈ entries)) as [Hin|Hin].
      * by rewrite decide_True by (by right).
      * rewrite decide_False; [done|]. intros [?|?]%elem_of_cons; congruence.
Qed.

Lemma ParseSkill_valid fs p s : ParseSkill yaml env fs p = Ok s -> Skill_Validate s = None /\ sl_Name s = List.last p "/" /\ sl_BasePath s = p.
Proof.
  unfold ParseSkill. intros H. assert (match ReadFile env fs (GoFS.Join p "SKILL.md") with
    | Err e => Err (SkillFile e)
    | Ok content => match parseFrontmatter yaml content with
        | Err e => Err e
        | Ok (fm, body) => let skill := mkSkill (fm_Name fm) (fm_Description fm) (fm_License fm) (fm_Compatibility fm) (fm_Metadata fm) (fm_AllowedTools fm) body p [] in
            if decide (sl_Name skill <> List.last p "/") then Err (ErrNameMismatch (sl_Name skill) (List.last p "/"))
            else match Skill_Validate skill with Some e => Err e | None => Ok skill end
        end end = Ok s) as H' by (destruct (Stat _ _ _) as [|e]; [done|by destruct (IsNotExist e)]).
  clear H. destruct (ReadFile _ _ _); [|done]. destruct (parseFrontmatter _ _) as [[fm body]|]; [|done]. cbv zeta in H'. case_decide as Hn; [done|].
  destruct (Skill_Validate _) eqn:Ev; [done|]. injection H' as <-. simpl in *. split; [done|]. split; [|done]. done.
Qed.

(** C23: Discovery finds under each name the skill of the first search path that has a valid
    one: paths and skills that cannot be read or parsed are passed over and hide nothing;
    every skill found is valid and bears the name of its directory. *)
Theorem discover_first_valid (fs : FS string) (sp : SkillPaths) (name : string) : plainNames fs ->
  Discover yaml env fs sp !! name = firstOf (skillIn fs name) (AllPaths sp) /\
  forall s, Discover yaml env fs sp !! name = Some s ->
    Skill_Validate s = None /\ sl_Name s = name /\ Some (sl_SourcePath s) ∈ AllPaths sp /\ sl_BasePath s = sl_SourcePath s ++ [name].
Proof.
  intros Hpl. assert (Discover yaml env fs sp !! name = firstOf (skillIn fs name) (AllPaths sp)) as H.
  { unfold Discover. generalize (AllPaths sp). intros l.
    assert (forall m : gmap string Skill, foldl (discoverPath yaml env fs) m l !! name = match m !! name with Some s => Some s | None => firstOf (skillIn fs name) l end) as ->.
    { induction l as [|p l IH]; intros m; simpl; [by destruct (m !! name)|]. rewrite IH, discoverPath_lookup by done. by destruct (m !! name). }
    by rewrite lookup_empty. }
  split; [done|]. intros s. rewrite H. clear H. induction (AllPaths sp) as [|p l IH]; simpl; [done|].
  destruct (skillIn fs name p) as [s'|] eqn:E.
  - intros [= ->]. unfold skillIn in E. destruct p as [p|]; [|done]. destruct (ReadDir env fs p); [|done]. case_decide; [|done].
    destruct (ParseSkill yaml env fs (p ++ [name])) as [s'|] eqn:Ep; [|done]. injection E as <-. apply ParseSkill_valid in Ep as (Hv & Hn & Hb).
    simpl. rewrite List.last_last in Hn. repeat split; [done|done|by left|done].
  - intros Hs. destruct (IH Hs) as (? & ? & ? & ?). repeat split; try done. by right.
Qed.
End Discovery.

(** ** Reading a prompt back *)

Definition escapeChar (c : ascii) : list ascii :=
  if decide (c = "&"%char) then chars "&amp;"
  else if decide (c = "<"%char) then chars "&lt;"
  else if decide (c = ">"%char) then chars "&gt;"
  else if decide (c = dquote) then chars "&quot;"
  else if decide (c = "'"%char) then chars "&apos;"
  else [c].

Definition substChar (a : ascii) (new : list ascii) (c : ascii) : list ascii := if decide (c = a) then new else [c].

Lemma replaceAll_char a new l : replaceAllLoop [a] new 0 l = concat (map (substChar a new) l).
Proof.
  induction l as [|c l IH]; [done|]. simpl. rewrite IH. unfold substChar. destruct (decide (c = a)) as [->|Hne].
  - by rewrite bool_decide_eq_true_2.
  - by rewrite bool_decide_eq_false_2 by congruence.
Qed.

Lemma concat_map_concat {A} (f g : A -> list A) l : concat (map g (concat (map f l))) = concat (map (fun x => concat (map g (f x))) l).
Proof. induction l as [|x l IH]; [done|]. simpl. by rewrite map_app, concat_app, IH. Qed.

(** The five replacements in a row replace each byte by its entity. *)
Lemma xmlEscape_chars s : chars (xmlEscape s) = concat (map escapeChar (chars s)).
Proof.
  unfold xmlEscape, ReplaceAll. rewrite !chars_unchars. change (chars "&") with ["&"%char]. change (chars "<") with ["<"%char].
  change (chars ">") with [">"%char]. change (chars "'") with ["'"%char]. rewrite !replaceAll_char, !concat_map_concat. f_equal.
  apply map_ext. intros c. unfold escapeChar, substChar.
  destruct (decide (c = "&"%char)) as [->|H1]; [done|]. simpl. destruct (decide (c = "<"%char)) as [->|H2]; [done|]. simpl.
  destruct (decide (c = ">"%char)) as [->|H3]; [done|]. simpl. destruct (decide (c = dquote)) as [->|H4]; [done|]. simpl.
  by destruct (decide (c = "'"%char)) as [->|H5].
Qed.

Definition entities : list (list ascii * ascii) :=
  [(chars "&amp;", "&"%char); (chars "&lt;", "<"%char); (chars "&gt;", ">"%char); (chars "&quot;", dquote); (chars "&apos;", "'"%char)].

Fixpoint unescapeLoop (skip : nat) (l : list ascii) : list ascii :=
  match l with
  | [] => []
  | c :: rest =>
      match skip with
      | S skip => unescapeLoop skip rest
      | O => match List.find (fun e => prefixb e.1 l) entities with
             | Some (e, x) => x :: unescapeLoop (length e - 1) rest
             | None => c :: unescapeLoop 0 rest
             end
      end
  end.

Lemma xml_unescape_escape l : unescapeLoop 0 (concat (map escapeChar l)) = l.
Proof.
  induction l as [|c l IH]; [done|]. simpl. unfold escapeChar at 1.
  destruct (decide (c = "&"%char)) as [->|H1]; [simpl; by rewrite IH|]. destruct (decide (c = "<"%char)) as [->|H2]; [simpl; by rewrite IH|].
  destruct (decide (c = ">"%char)) as [->|H3]; [simpl; by rewrite IH|]. destruct (decide (c = dquote)) as [->|H4]; [simpl; by rewrite IH|].
  destruct (decide (c = "'"%char)) as [->|H5]; [simpl; by rewrite IH|]. simpl.
  rewrite !bool_decide_eq_false_2 by congruence. simpl. by rewrite IH.
Qed.

Lemma escape_no_lt l : "<"%char ∉ concat (map escapeChar l).
Proof.
  induction l as [|c l IH]; [by apply not_elem_of_nil|]. simpl. intros [H|H]%elem_of_app; [|done]. revert H. clear IH.
  unfold escapeChar. repeat (case_decide; [subst; by apply (bool_decide_eq_false_1 (_ ∈ _))|]). intros H'%list_elem_of_singleton. congruence.
Qed.

Definition expect (p l : list ascii) : option (list ascii) := if prefixb p l then Some (drop (length p) l) else None.

Fixpoint untilTag (l : list ascii) : list ascii * list ascii :=
  match l with
  | [] => ([], [])
  | c :: rest => if decide (c = "<"%char) then ([], l) else let (a, b) := untilTag rest in (c :: a, b)
  end.

Definition readElement (tag : string) (l : list ascii) : option (string * list ascii) :=
  match expect (chars ("    <" +:+ tag +:+ ">")) l with
  | None => None
  | Some l => let (text, l) := untilTag l in
              match expect (chars ("</" +:+ tag +:+ ">" +:+ nl)) l with
              | Some l => Some (unchars (unescapeLoop 0 text), l)
              | None => None
              end
  end.

Definition readSkill (l : list ascii) : option ((string * string * string) * list ascii) :=
  match expect (chars ("  <skill>" +:+ nl)) l with
  | None => None
  | Some l =>
      match readElement "name" l with
      | None => None
      | Some (name, l) =>
          match readElement "description" l with
          | None => None
          | Some (description, l) =>
              match readElement "location" l with
              | None => None
              | Some (loc, l) => match expect (chars ("  </skill>" +:+ nl)) l with Some l => Some ((name, description, loc), l) | None => None end
              end
          end
      end
  end.

(** At most [n] skills. *)
Fixpoint readSkills (n : nat) (l : list ascii) : option (list (string * string * string)) :=
  if decide (l = chars "</available_skills>") then Some []
  else match n with
       | O => None
       | S n => match readSkill l with
                | Some (s, l) => match readSkills n l with Some skills => Some (s :: skills) | None => None end
                | None => None
                end
       end.

Definition readPrompt (n : nat) (text : string) : option (list (string * string * string)) :=
  if decide (text = "") then Some []
  else match expect (chars ("<available_skills>" +:+ nl)) (chars text) with Some l => readSkills n l | None => None end.

Lemma expect_app p l : expect p (p ++ l) = Some l.
Proof.
  unfold expect. assert (prefixb p (p ++ l) = true) as -> by (apply prefixb_spec; by exists l). by rewrite drop_app_length.
Qed.

Lemma untilTag_app a l : "<"%char ∉ a -> untilTag (a ++ "<"%char :: l) = (a, "<"%char :: l).
Proof.
  induction a as [|c a IH]; intros H; simpl; [done|]. apply not_elem_of_cons in H as [H1 H2].
  rewrite decide_False by congruence. by rewrite IH.
Qed.

Lemma readElement_element tag v l : readElement tag (chars (element "    " tag (xmlEscape v)) ++ l) = Some (v, l).
Proof.
  unfold readElement, element. assert (chars ("    " +:+ "<" +:+ tag +:+ ">" +:+ xmlEscape v +:+ "</" +:+ tag +:+ ">" +:+ nl) ++ l =
    chars ("    <" +:+ tag +:+ ">") ++ concat (map escapeChar (chars v)) ++ "<"%char :: "/"%char :: chars tag ++ chars (">" +:+ nl) ++ l) as ->.
  { rewrite !chars_app, xmlEscape_chars. rewrite <- !app_assoc. done. }
  rewrite expect_app, untilTag_app by apply escape_no_lt.
  assert ("<"%char :: "/"%char :: chars tag ++ chars (">" +:+ nl) ++ l = chars ("</" +:+ tag +:+ ">" +:+ nl) ++ l) as ->.
  { rewrite !chars_app. rewrite <- !app_assoc. done. }
  by rewrite expect_app, xml_unescape_escape, unchars_chars.
Qed.

Definition shown (s : Skill) : string * string * string := (sl_Name s, sl_Description s, location s).

Lemma readSkill_prompt s l : readSkill (chars (promptSkill true s) ++ l) = Some (shown s, l).
Proof.
  unfold readSkill, promptSkill.
  assert (chars ("  <skill>" +:+ nl +:+ element "    " "name" (xmlEscape (sl_Name s)) +:+ element "    " "description" (xmlEscape (sl_Description s)) +:+
      element "    " "location" (xmlEscape (location s)) +:+ "  </skill>" +:+ nl) ++ l =
    chars ("  <skill>" +:+ nl) ++ chars (element "    " "name" (xmlEscape (sl_Name s))) ++ chars (element "    " "description" (xmlEscape (sl_Description s))) ++
      chars (element "    " "location" (xmlEscape (location s))) ++ chars ("  </skill>" +:+ nl) ++ l) as ->.
  { rewrite !chars_app. rewrite <- !app_assoc. done. }
  by rewrite expect_app, !readElement_element, expect_app.
Qed.

Lemma readSkills_prompt skills : forall n, (length skills <= n)%nat ->
  readSkills n (chars (concatTexts (map (promptSkill true) skills) +:+ "</available_skills>")) = Some (map shown skills).
Proof.
  induction skills as [|s skills IH]; intros n Hn.
  - by destruct n.
  - destruct n as [|n]; [simpl in Hn; lia|].
    change (concatTexts (map (promptSkill true) (s :: skills))) with (promptSkill true s +:+ concatTexts (map (promptSkill true) skills)).
    assert (chars ((promptSkill true s +:+ concatTexts (map (promptSkill true) skills)) +:+ "</available_skills>") =
      chars (promptSkill true s) ++ chars (concatTexts (map (promptSkill true) skills) +:+ "</available_skills>")) as ->.
    { rewrite !chars_app. by rewrite <- app_assoc. }
    cbn [readSkills]. rewrite decide_False by done. rewrite readSkill_prompt, IH by (simpl in Hn; lia). done.
Qed.

(** C24: The prompt is unambiguous: reading it back gives the name, description and location
    of every skill that passes the filter, in the order of names, whatever text a skill
    holds; no skill can open or close an element of the prompt. *)
Theorem prompt_reads_back (order : gmap string Skill -> list (string * Skill)) (skills : gmap string Skill) (f : option SkillFilter) (n : nat) :
  (forall m, ranges (order m) m) -> (size skills <= n)%nat ->
  readPrompt n (ToPromptXMLFiltered order skills f) = Some (map shown (filtered f (List_ order skills))) /\
  StronglySorted skill_le (List_ order skills) /\ (forall s, s ∈ List_ order skills <-> exists name, skills !! name = Some s).
Proof.
  intros Ho Hn. assert (forall s, s ∈ List_ order skills <-> exists name, skills !! name = Some s) as Hel.
  { intros s. unfold List_. rewrite merge_sort_Permutation, list_elem_of_fmap. split.
    - intros ([k v] & -> & Hin). exists k. by apply (ranges_elem _ _ _ _ (Ho _)) in Hin.
    - intros [k Hk]. exists (k, s). split; [done|]. by apply (ranges_elem _ _ _ _ (Ho _)). }
  split; [|split; [|done]].
  - assert (length (filtered f (List_ order skills)) <= n)%nat as Hl.
    { assert (length (List_ order skills) = size skills) as El.
      { unfold List_. rewrite merge_sort_Permutation, length_map. rewrite (Permutation_length (Ho skills)). by rewrite length_map_to_list. }
      etrans; [|exact Hn]. rewrite <- El. unfold filtered. destruct f; [apply length_filter|done]. }
    unfold ToPromptXMLFiltered. destruct (filtered f (List_ order skills)) as [|s l]; [done|]. unfold readPrompt, available.
    rewrite decide_False by done.
    assert (forall b, chars ("<available_skills>" +:+ nl +:+ b +:+ "</available_skills>") = chars ("<available_skills>" +:+ nl) ++ chars (b +:+ "</available_skills>")) as E.
    { intros b. rewrite !chars_app. by rewrite <- !app_assoc. }
    rewrite E, expect_app. by apply readSkills_prompt.
  - unfold List_. apply (StronglySorted_merge_sort skill_le).
Qed.

(** ** Filters and configurations *)

Definition isolationFilter (level : string) : SkillFilter := mkSkillFilter "" "" level false.

(** A skill that runs at a level of isolation runs at the stronger ones. *)
Lemma isolation_monotone (s : Skill) :
  (Matches (isolationFilter "process") s = true -> Matches (isolationFilter "platform") s = true) /\
  (Matches (isolationFilter "platform") s = true -> Matches (isolationFilter "container") s = true).
Proof.
  unfold Matches, isolationFilter, matchesIsolationLevel. simpl. destruct (sl_Metadata s !! "required_isolation") as [r|]; [|done].
  simpl. destruct (decide (ToLower r = "container")); simpl; [done|]. by destruct (decide (ToLower r = "platform")).
Qed.

(** Merging turns options on and never off, whatever the other configuration says. *)
Lemma merge_never_disables (c other : Config) :
  (cg_Enabled c = true -> cg_Enabled (Merge c other) = true) /\
  (sr_Enabled (cg_SecretReplacement c) = true -> sr_Enabled (cg_SecretReplacement (Merge c other)) = true) /\
  (tc_Enabled (cg_Telemetry c) = true -> tc_Enabled (cg_Telemetry (Merge c other)) = true).
Proof. simpl. repeat split; intros ->; by rewrite orb_true_r. Qed.

(** ** Examples *)

(** A reader of front matter with a name and a description. *)
Definition twoFields (text : string) : option Frontmatter :=
  match splitOn newline (chars text) with
  | [a; b] => Some (mkFrontmatter (TrimPrefix (unchars a) "name: ") (TrimPrefix (unchars b) "description: ") "" "" ∅ "")
  | _ => None
  end.

Definition skillText (name description : string) : string :=
  "---" +:+ nl +:+ "name: " +:+ name +:+ nl +:+ "description: " +:+ description +:+ nl +:+ "---" +:+ nl +:+ "Body.".

(** The profile has a broken skill of the name "mail", the global path a valid one; both
    have "cal". *)
Definition profile_skills : Path := ["p"; "skills"].
Definition global_skills : Path := ["d"; "skills"].

Definition skill_files : FS string := list_to_map [
  (["p"], NDir); (profile_skills, NDir); (profile_skills ++ ["mail"], NDir); (profile_skills ++ ["mail"; "SKILL.md"], NFile "no front matter");
  (profile_skills ++ ["cal"], NDir); (profile_skills ++ ["cal"; "SKILL.md"], NFile (skillText "cal" "a <b> & c"));
  (["d"], NDir); (global_skills, NDir); (global_skills ++ ["mail"], NDir); (global_skills ++ ["mail"; "SKILL.md"], NFile (skillText "mail" "Sends mail"));
  (global_skills ++ ["cal"], NDir); (global_skills ++ ["cal"; "SKILL.md"], NFile (skillText "cal" "other"))].

Definition skill_paths : SkillPaths := NewSkillPaths (Some ["p"]) (Some ["d"]).

Definition found_skills : gmap string Skill := Discover twoFields calm skill_files skill_paths.

Definition plainb (name : string) : bool := bool_decide (name <> "" /\ name <> "." /\ name <> ".." /\ slash ∉ chars name).

Lemma skill_files_plain : plainNames skill_files.
Proof.
  assert (forallb (fun e => match last e.1 with Some name => plainb name | None => true end) (map_to_list skill_files) = true) as H by by vm_compute.
  intros p name [n Hn]. apply elem_of_map_to_list in Hn. rewrite forallb_forall in H. apply list_elem_of_In, H in Hn. simpl in Hn.
  rewrite last_snoc in Hn. by apply bool_decide_eq_true in Hn.
Qed.

Lemma discover_first_valid_witness :
  exists s, found_skills !! "mail" = Some s /\ sl_SourcePath s = global_skills /\ Skill_Validate s = None /\ sl_BasePath s = global_skills ++ ["mail"].
Proof.
  destruct (discover_first_valid twoFields calm skill_files skill_paths "mail" skill_files_plain) as [_ H].
  destruct (found_skills !! "mail") as [s|] eqn:E; [|by vm_compute in E]. exists s.
  assert (sl_SourcePath s = global_skills) as Hs by (vm_compute in E; by injection E as <-).
  destruct (H s E) as (Hv & _ & _ & Hb). rewrite Hs in Hb. split; [reflexivity|]. split; [exact Hs|]. split; [exact Hv|exact Hb].
Defined.

Lemma prompt_reads_back_witness :
  readPrompt 2 (ToPromptXML map_to_list found_skills) =
    Some [("cal", "a <b> & c", "/p/skills/cal/SKILL.md"); ("mail", "Sends mail", "/d/skills/mail/SKILL.md")].
Proof.
  destruct (prompt_reads_back map_to_list found_skills None 2) as [H _]; [intros m; unfold ranges; reflexivity|apply Nat.leb_le; vm_compute; reflexivity|].
  etrans; [exact H|]. vm_compute. reflexivity.
Defined.

(** A script is looked up wherever its name leads. *)
Example script_outside_skill :
  forall s, found_skills !! "cal" = Some s -> HasScript calm skill_files s "../SKILL.md" = true.
Proof. intros s H. vm_compute in H. injection H as <-. by vm_compute. Qed.
