(* ===== verification/SkillSecrets.v ===== *)
(** * Secrets in the arguments of skills

    src/internal/skills/secrets.go: placeholders of secrets in the arguments of a tool call
    are replaced, by a local model where the configuration names one that answers, else by
    replacing texts.  Arguments are decoded values whose maps are in the order of the loop;
    the store of secrets, the model and the regular expression are arguments, and the
    default expression is modelled. *)

From Stdlib Require Import ZArith Lia String Ascii.
From stdpp Require Import base option list gmap strings sorting.
From S2P Require Import Prelude Text GoValue GoFS Skills.

#[local] Open Scope Z_scope.

(** FindAllStringSubmatch: the matches with their groups. *)
Abbreviation Pattern := (string -> list (string * list string)).

Definition MatchString (p : Pattern) (s : string) : bool := match p s with [] => false | _ => true end.
Definition FindString (p : Pattern) (s : string) : string := match p s with (whole, _) :: _ => whole | [] => "" end.

(** [GroupPanic]: the expression has no group, and [match[1]] panics. *)
Inductive ReplaceErr : Type := SecretFailed (key message : string) | NoLocalModel | GroupPanic.

(** *** The default expression *)

Definition keyChar (c : ascii) : bool := let n := N_of_ascii c in bool_decide (65 <= n <= 90 \/ n = 95)%N.

Definition opening : list ascii := chars "${SECRET:".

Definition placeholder (key : string) : string := "${SECRET:" +:+ key +:+ "}".

Fixpoint spanKey (l : list ascii) : list ascii * list ascii :=
  match l with
  | c :: rest => if keyChar c then let (a, b) := spanKey rest in (c :: a, b) else ([], l)
  | [] => ([], [])
  end.

(** The key of a placeholder at the beginning. *)
Definition matchAt (l : list ascii) : option (list ascii) :=
  if prefixb opening l then
    match spanKey (drop (length opening) l) with
    | (k :: key, c :: _) => if decide (c = "}"%char) then Some (k :: key) else None
    | _ => None
    end
  else None.

(** [\$\{SECRET:([A-Z_]+)\}] *)
Fixpoint findLoop (skip : nat) (l : list ascii) : list (string * list string) :=
  match l with
  | [] => []
  | _ :: rest =>
      match skip with
      | S skip => findLoop skip rest
      | O => match matchAt l with
             | Some key => (placeholder (unchars key), [unchars key]) :: findLoop (length opening + length key) rest
             | None => findLoop 0 rest
             end
      end
  end.

Definition defaultMatcher : Pattern := fun s => findLoop 0 (chars s).

Section Replacer.
Variable config : SecretReplacementConfig.
Variable pattern : Pattern.
(** [secretStore.Get], a request to a local model, and the order of loops over secrets. *)
Variable Get : string -> Res string string.
Variable ask : string -> string -> option string.
Variable order : gmap string string -> list (string * string).

Definition isOnlyPlaceholder (s : string) : bool := MatchString pattern s && bool_decide (s = FindString pattern s).

Definition buildReplacementPrompt (text : string) (secrets : gmap string string) : string :=
  "Replace the secret placeholders in the following text with their actual values." +:+ nl +:+ nl +:+ "Available secrets:" +:+ nl
  +:+ concatTexts (map (fun e => "- " +:+ placeholder e.1 +:+ nl) (order secrets)) +:+ nl +:+ "Text to process:" +:+ nl +:+ text +:+ nl +:+ nl
  +:+ "Return ONLY the processed text with placeholders replaced. Do not include explanations.".

Definition replaceWithOllama (text : string) (secrets : gmap string string) (model : string) : option string :=
  match ask model (buildReplacementPrompt text secrets) with Some response => Some (TrimSpace response) | None => None end.

Fixpoint gatherSecrets (matches : list (string * list string)) (secrets : gmap string string) : Res ReplaceErr (gmap string string) :=
  match matches with
  | [] => Ok secrets
  | (_, []) :: _ => Err GroupPanic
  | (_, key :: _) :: matches =>
      match Get key with
      | Err e => Err (SecretFailed key e)
      | Ok value => gatherSecrets matches (<[key := value]> secrets)
      end
  end.

Fixpoint firstModel (text : string) (secrets : gmap string string) (models : list string) : option string :=
  match models with
  | [] => None
  | model :: models => match replaceWithOllama text secrets model with Some r => Some r | None => firstModel text secrets models end
  end.

Definition replaceTexts (text : string) (secrets : list (string * string)) : string :=
  foldl (fun result e => ReplaceAll result (placeholder e.1) e.2) text secrets.

Definition intelligentReplace (text : string) (matches : list (string * list string)) : Res ReplaceErr string :=
  match gatherSecrets matches ∅ with
  | Err e => Err e
  | Ok secrets =>
      match firstModel text secrets (sr_LocalModels config) with
      | Some r => Ok r
      | None => if sr_LocalOnly config then Err NoLocalModel else Ok (replaceTexts text (order secrets))
      end
  end.

Definition replaceInString (s : string) : Res ReplaceErr string :=
  match pattern s with
  | [] => Ok s
  | matches =>
      if bool_decide (1 < length matches)%nat || negb (isOnlyPlaceholder s) then intelligentReplace s matches
      else match matches with
           | (_, key :: _) :: _ => match Get key with Err e => Err (SecretFailed key e) | Ok value => Ok value end
           | _ => Err GroupPanic
           end
  end.

(** The loops over maps and slices, which stop at the first error. *)
Fixpoint replaceValue (v : any) : Res ReplaceErr any :=
  match v with
  | AStr s => if MatchString pattern s then match replaceInString s with Ok r => Ok (AStr r) | Err e => Err e end else Ok v
  | AMap m =>
      let replaceInMap := fix replaceInMap (m : list (string * any)) : Res ReplaceErr (list (string * any)) :=
        match m with
        | [] => Ok []
        | (k, x) :: m =>
            match replaceValue x with
            | Err e => Err e
            | Ok x => match replaceInMap m with Err e => Err e | Ok m => Ok ((k, x) :: m) end
            end
        end in
      match replaceInMap m with Ok m => Ok (AMap m) | Err e => Err e end
  | AList l =>
      let replaceInSliceNew := fix replaceInSliceNew (l : list any) : Res ReplaceErr (list any) :=
        match l with
        | [] => Ok []
        | x :: l =>
            match replaceValue x with
            | Err e => Err e
            | Ok x => match replaceInSliceNew l with Err e => Err e | Ok l => Ok (x :: l) end
            end
        end in
      match replaceInSliceNew l with Ok l => Ok (AList l) | Err e => Err e end
  | _ => Ok v
  end.

Definition InterceptToolCall (args : amap) : Res ReplaceErr amap :=
  if negb (sr_Enabled config) then Ok args
  else match replaceValue (AMap args) with
       | Ok (AMap m) => Ok m
       | Ok _ => Ok args
       | Err e => Err e
       end.
End Replacer.

(** [compile] is regexp.Compile. *)
Definition NewSecretReplacer (compile : string -> option Pattern) (config : SecretReplacementConfig) : option Pattern :=
  compile (if decide (sr_PlaceholderPattern config = "") then defaultPattern else sr_PlaceholderPattern config).

(** ** Texts with holes *)

(** The specification of a replacement: a text is a sequence of bytes and holes. *)
Inductive Segment : Type := Lit (c : ascii) | Hole (key : string).

Definition plain (c : ascii) : Prop := c <> "$"%char.

Definition goodKey (key : string) : Prop := chars key <> [] /\ Forall (fun c => keyChar c = true) (chars key).

Definition wfSegment (s : Segment) : Prop := match s with Lit c => plain c | Hole key => goodKey key end.

Definition holes (l : list Segment) : list string := omap (fun s => match s with Hole key => Some key | Lit _ => None end) l.

Definition fillSegment (f : string -> list ascii) (s : Segment) : list ascii := match s with Lit c => [c] | Hole key => f key end.

Definition fill (f : string -> list ascii) (l : list Segment) : string := unchars (concat (map (fillSegment f) l)).

(** The text itself, and the text with the values of a map filled in. *)
Definition written (l : list Segment) : string := fill (fun key => chars (placeholder key)) l.
Definition filled (σ : gmap string string) (l : list Segment) : string :=
  fill (fun key => match σ !! key with Some v => chars v | None => chars (placeholder key) end) l.

Definition quiet (value : string) : Prop := Forall plain (chars value).

(** ** Laws *)

Lemma chars_placeholder key : chars (placeholder key) = opening ++ chars key ++ ["}"%char].
Proof. unfold placeholder. by rewrite !chars_app. Qed.

Lemma keyChar_plain c : keyChar c = true -> plain c.
Proof. by intros H ->. Qed.

Lemma keyChar_brace : keyChar "}"%char = false.
Proof. reflexivity. Qed.

Lemma spanKey_app k rest : Forall (fun c => keyChar c = true) k -> spanKey (k ++ "}"%char :: rest) = (k, "}"%char :: rest).
Proof. induction 1 as [|c k Hc _ IH]; simpl; [reflexivity|]. by rewrite Hc, IH. Qed.

Lemma prefixb_app p l : prefixb p (p ++ l) = true.
Proof. apply prefixb_spec. by exists l. Qed.

Lemma matchAt_hole key rest : goodKey key -> matchAt (chars (placeholder key) ++ rest) = Some (chars key).
Proof.
  intros [Hne Hk]. unfold matchAt. rewrite chars_placeholder, <- !app_assoc, prefixb_app, drop_app_length. simpl.
  rewrite (spanKey_app _ rest Hk). by destruct (chars key).
Qed.

Lemma prefixb_plain p c l : plain c -> prefixb ("$"%char :: p) (c :: l) = false.
Proof. intros H. simpl. rewrite bool_decide_eq_false_2; [reflexivity|]. intros E. by apply H. Qed.

Lemma matchAt_plain c l : plain c -> matchAt (c :: l) = None.
Proof. intros H. unfold matchAt. change opening with ("$"%char :: chars "{SECRET:"). by rewrite prefixb_plain. Qed.

Lemma findLoop_skip a l : findLoop (length a) (a ++ l) = findLoop 0 l.
Proof. induction a as [|c a IH]; [reflexivity|]. exact IH. Qed.

Lemma placeholder_cons key : chars (placeholder key) = "$"%char :: (chars "{SECRET:" ++ chars key ++ ["}"%char]).
Proof. by rewrite chars_placeholder. Qed.

(** The default expression finds the holes, in order. *)
Lemma defaultMatcher_written l : Forall wfSegment l -> defaultMatcher (written l) = map (fun key => (placeholder key, [key])) (holes l).
Proof.
  unfold defaultMatcher, written, fill. rewrite chars_unchars.
  induction 1 as [|[c|key] l Hs _ IH]; [reflexivity| |]; cbn [map concat fillSegment].
  - change (holes (Lit c :: l)) with (holes l). cbn [app findLoop]. by rewrite matchAt_plain.
  - change (holes (Hole key :: l)) with (key :: holes l). cbn [map]. pose proof (matchAt_hole key (concat (map (fillSegment (fun key => chars (placeholder key))) l)) Hs) as M.
    rewrite placeholder_cons in *. rewrite <- app_comm_cons in *. cbn [findLoop]. rewrite M, unchars_chars.
    replace (length opening + length (chars key))%nat with (length (chars "{SECRET:" ++ chars key ++ ["}"%char])) by (rewrite !length_app; simpl; lia).
    by rewrite findLoop_skip, IH.
Qed.

Lemma replaceAll_skip old new a l : replaceAllLoop old new (length a) (a ++ l) = replaceAllLoop old new 0 l.
Proof. induction a as [|c a IH]; [reflexivity|]. exact IH. Qed.

Lemma replaceAll_plain key new a l : Forall plain a -> replaceAllLoop (chars (placeholder key)) new 0 (a ++ l) = a ++ replaceAllLoop (chars (placeholder key)) new 0 l.
Proof.
  induction 1 as [|c a Hc _ IH]; [reflexivity|]. cbn [app replaceAllLoop]. rewrite placeholder_cons, prefixb_plain by done.
  f_equal. rewrite <- placeholder_cons. exact IH.
Qed.

Lemma key_prefix k k' rest rest' : Forall (fun c => keyChar c = true) k -> Forall (fun c => keyChar c = true) k' ->
  k ++ "}"%char :: rest = k' ++ "}"%char :: rest' -> k = k'.
Proof.
  intros Hk Hk' E. pose proof (spanKey_app k rest Hk) as S. rewrite E, (spanKey_app k' rest' Hk') in S. congruence.
Qed.

Lemma placeholder_prefix key key' l : goodKey key -> goodKey key' ->
  prefixb (chars (placeholder key)) (chars (placeholder key') ++ l) = true -> key = key'.
Proof.
  intros [_ Hk] [_ Hk'] H. apply prefixb_spec in H as [v E]. rewrite !chars_placeholder, <- !app_assoc in E.
  apply app_inv_head in E. simpl in E. apply chars_inj. by eapply key_prefix.
Qed.

Lemma tail_plain key : goodKey key -> Forall plain (chars "{SECRET:" ++ chars key ++ ["}"%char]).
Proof.
  intros [_ Hk]. apply Forall_app. split; [by repeat constructor|]. apply Forall_app. split; [|by repeat constructor].
  eapply Forall_impl; [exact Hk|]. apply keyChar_plain.
Qed.

Lemma replaceAll_hole key new l : replaceAllLoop (chars (placeholder key)) new 0 (chars (placeholder key) ++ l) = new ++ replaceAllLoop (chars (placeholder key)) new 0 l.
Proof.
  pose proof (prefixb_app (chars (placeholder key)) l) as P.
  pose proof (replaceAll_skip (chars (placeholder key)) new (chars "{SECRET:" ++ chars key ++ ["}"%char]) l) as S.
  remember (chars (placeholder key)) as p eqn:Ep. rewrite placeholder_cons in Ep. set (t := chars "{SECRET:" ++ _) in *.
  rewrite Ep at 2. rewrite Ep in P at 2. rewrite <- app_comm_cons in P. rewrite <- app_comm_cons. cbn [replaceAllLoop]. rewrite P. f_equal.
  rewrite <- S. f_equal. rewrite Ep. simpl. lia.
Qed.

(** One replacement fills the holes of its key and leaves the rest. *)
Lemma ReplaceAll_filled σ key v l :
  map_Forall (fun _ => quiet) σ -> σ !! key = None -> goodKey key -> Forall wfSegment l ->
  ReplaceAll (filled σ l) (placeholder key) v = filled (<[key := v]> σ) l.
Proof.
  intros Hσ Hnone Hkey Hl. unfold ReplaceAll, filled, fill. rewrite chars_unchars. f_equal.
  induction Hl as [|[c|k] l Hs _ IH]; [reflexivity| |]; cbn [map concat fillSegment].
  - rewrite <- IH. by apply (replaceAll_plain key (chars v) [c]); repeat constructor.
  - rewrite <- IH. destruct (decide (key = k)) as [<-|Hne].
    + rewrite Hnone, lookup_insert_eq. by rewrite replaceAll_hole.
    + rewrite lookup_insert_ne by done. destruct (σ !! k) as [w|] eqn:E; [exact (replaceAll_plain _ _ _ _ (Hσ k w E))|].
      rewrite (placeholder_cons k). rewrite <- !app_comm_cons. cbn [replaceAllLoop]. rewrite app_comm_cons, <- placeholder_cons.
      destruct (prefixb _ _) eqn:P; [by apply placeholder_prefix in P|].
      f_equal. by apply replaceAll_plain, tail_plain.
Qed.

(** ** The loops of a replacement *)

Lemma replaceTexts_filled entries σ l :
  Forall (fun e => goodKey e.1 /\ quiet e.2) entries -> NoDup (map fst entries) -> Forall (fun e => σ !! e.1 = None) entries ->
  map_Forall (fun _ => quiet) σ -> Forall wfSegment l ->
  replaceTexts (filled σ l) entries = filled (list_to_map entries ∪ σ) l.
Proof.
  intros He Hnd Hfresh Hσ Hl. revert σ Hfresh Hσ. induction He as [|[k v] entries [Hk Hv] _ IH]; intros σ Hfresh Hσ; simpl.
  - by rewrite (left_id_L ∅ (∪)).
  - apply NoDup_cons in Hnd as [Hk' Hnd]. apply Forall_cons in Hfresh as [Hfresh Hfresh']. simpl in *.
    rewrite ReplaceAll_filled by done. unfold replaceTexts in IH. rewrite IH; [|done| |by apply map_Forall_insert_2].
    + f_equal. rewrite <- insert_union_l, insert_union_r; [done|]. by apply not_elem_of_list_to_map_1.
    + rewrite Forall_forall in *. intros e He'. rewrite lookup_insert_ne; [by apply Hfresh'|].
      intros ->. apply Hk'. by apply list_elem_of_fmap_2.
Qed.

Section Gather.
Context (Get : string -> Res string string) (value : string -> string).

Lemma gatherSecrets_holes keys m : (forall key, key ∈ keys -> Get key = Ok (value key)) -> (forall key v, m !! key = Some v -> v = value key) ->
  exists secrets, gatherSecrets Get (map (fun key => (placeholder key, [key])) keys) m = Ok secrets /\
    dom secrets = dom m ∪ list_to_set keys /\ forall key v, secrets !! key = Some v -> v = value key.
Proof.
  revert m. induction keys as [|k keys IH]; intros m HGet Hm; simpl.
  - exists m. split; [done|]. split; [set_solver|done].
  - rewrite (HGet k) by set_solver.
    destruct (IH (<[k := value k]> m)) as (secrets & G & D & V); [intros; apply HGet; set_solver| |].
    + intros key v E. apply lookup_insert_Some in E as [[<- <-]|[_ E]]; [done|by apply Hm].
    + exists secrets. split; [exact G|]. split; [set_solver|exact V].
Qed.
End Gather.

Lemma filled_complete σ (value : string -> string) l : (forall key, key ∈ holes l -> σ !! key = Some (value key)) ->
  filled σ l = fill (fun key => chars (value key)) l.
Proof.
  unfold filled, fill. intros H. do 2 f_equal. apply map_ext_in. intros [c|key] Hin; [reflexivity|]. simpl.
  rewrite (H key); [done|]. unfold holes. apply list_elem_of_omap. exists (Hole key). by rewrite list_elem_of_In.
Qed.

Lemma written_filled l : written l = filled ∅ l.
Proof. reflexivity. Qed.

Lemma hole_length (f : string -> list ascii) l key : (forall k, f k <> []) -> key ∈ holes l ->
  (length (f key) <= length (concat (map (fillSegment f) l)))%nat /\
  (length (concat (map (fillSegment f) l)) = length (f key) -> l = [Hole key]).
Proof.
  intros Hf. assert (Hpos : forall k, (0 < length (f k))%nat) by (intros k; specialize (Hf k); destruct (f k); [done|simpl; lia]).
  induction l as [|[c|k] l IH]; [by intros H; apply not_elem_of_nil in H| |]; simpl; intros H.
  - destruct (IH H) as [Hle _]. split; [lia|]. intros E. lia.
  - rewrite length_app. apply elem_of_cons in H as [<-|H].
    + split; [lia|]. intros E. destruct l as [|[c|k'] l]; [done| |]; simpl in E; [lia|].
      rewrite length_app in E. pose proof (Hpos k'). lia.
    + destruct (IH H) as [Hle _]. pose proof (Hpos k). split; lia.
Qed.

Lemma only_placeholder_hole l key rest : Forall wfSegment l -> holes l = key :: rest ->
  isOnlyPlaceholder defaultMatcher (written l) = true -> l = [Hole key].
Proof.
  intros Hl Hh. unfold isOnlyPlaceholder, MatchString, FindString. rewrite defaultMatcher_written, Hh by done. simpl.
  intros E%bool_decide_eq_true.
  apply (hole_length (fun key => chars (placeholder key))); [intros k; by rewrite placeholder_cons|rewrite Hh; set_solver|].
  rewrite <- E. unfold written, fill. by rewrite chars_unchars.
Qed.

Section Silent.
Context (config : SecretReplacementConfig) (ask : string -> string -> option string).
Context (silent : forall model prompt, model ∈ sr_LocalModels config -> ask model prompt = None).
Context (order : gmap string string -> list (string * string)).

Lemma firstModel_silent text secrets : firstModel ask order text secrets (sr_LocalModels config) = None.
Proof.
  revert silent. generalize (sr_LocalModels config). induction l as [|m l IH]; intros H; simpl; [reflexivity|].
  unfold replaceWithOllama. rewrite H by set_solver. apply IH. intros model prompt Hin. apply H. set_solver.
Qed.
End Silent.

(** C25: With the default expression and without a model that answers, whatever order the loop
    over the secrets takes, a text in which placeholders stand between bytes other than "$"
    becomes the text in which every placeholder, however often it occurs, is its secret,
    provided the values hold no "$" either. *)
Theorem fallback_substitutes (config : SecretReplacementConfig) Get ask order (value : string -> string) l :
  (forall m, order m ≡ₚ map_to_list m) ->
  (forall model prompt, model ∈ sr_LocalModels config -> ask model prompt = None) -> sr_LocalOnly config = false ->
  Forall wfSegment l -> (forall key, key ∈ holes l -> Get key = Ok (value key) /\ quiet (value key)) ->
  replaceInString config defaultMatcher Get ask order (written l) = Ok (fill (fun key => chars (value key)) l).
Proof.
  intros Horder Hsilent Hlocal Hl HGet. unfold replaceInString.
  pose proof (defaultMatcher_written l Hl) as M. destruct (holes l) as [|k rest] eqn:Hh; simpl in M; rewrite M.
  { f_equal. rewrite written_filled. apply filled_complete. rewrite Hh. set_solver. }
  rewrite <- Hh in HGet. case_match eqn:B.
  - unfold intelligentReplace. rewrite <- M, (defaultMatcher_written l Hl).
    destruct (gatherSecrets_holes Get value (holes l) ∅) as (secrets & G & D & V); [intros key Hin; by apply HGet|by intros ?? ?%lookup_empty_Some|].
    rewrite G, (firstModel_silent config ask Hsilent), Hlocal. f_equal.
    assert (Hkeys : forall key, key ∈ dom secrets <-> key ∈ holes l) by (intros key; rewrite D; set_solver).
    assert (Hmap : list_to_map (order secrets) = secrets).
    { transitivity (list_to_map (map_to_list secrets) : gmap string string); [|apply list_to_map_to_list].
      apply list_to_map_proper; [|apply Horder]. rewrite (Horder secrets). apply NoDup_fst_map_to_list. }
    rewrite written_filled, replaceTexts_filled.
    + rewrite (right_id_L ∅ (∪)), Hmap. apply filled_complete. intros key Hin. apply Hkeys in Hin.
      apply elem_of_dom in Hin as [v Hv]. by rewrite Hv, (V _ _ Hv).
    + rewrite Forall_forall. intros [key v] Hin. rewrite Horder in Hin. apply elem_of_map_to_list in Hin. simpl.
      assert (Hk : key ∈ holes l) by (apply Hkeys; by apply elem_of_dom).
      split; [|rewrite (V _ _ Hin); by apply HGet].
      apply list_elem_of_omap in Hk as (s & Hs & E). rewrite Forall_forall in Hl. specialize (Hl s Hs).
      by destruct s; simplify_eq.
    + rewrite (Horder secrets). apply NoDup_fst_map_to_list.
    + rewrite Forall_forall. intros. apply lookup_empty.
    + apply map_Forall_empty.
    + done.
  - apply orb_false_iff in B as [_ Ho%negb_false_iff]. pose proof (only_placeholder_hole l k rest Hl Hh Ho) as ->.
    destruct (HGet k) as [-> _]; [set_solver|]. unfold fill. simpl. by rewrite app_nil_r, unchars_chars.
Qed.

Definition sampleStore (key : string) : Res string string :=
  if decide (key = "USER") then Ok "ann" else if decide (key = "PASS") then Ok "pw" else Err "no such secret".

Definition sampleText : list Segment :=
  map Lit (chars "u=") ++ [Hole "USER"] ++ map Lit (chars "&p=") ++ [Hole "PASS"] ++ map Lit (chars "&again=") ++ [Hole "USER"].

Definition sampleConfig : SecretReplacementConfig := mkSecretReplacement true ["llama3.2"] false "".

Definition noAnswer (model prompt : string) : option string := None.

Lemma fallback_substitutes_witness :
  replaceInString sampleConfig defaultMatcher sampleStore noAnswer map_to_list "u=${SECRET:USER}&p=${SECRET:PASS}&again=${SECRET:USER}" = Ok "u=ann&p=pw&again=ann".
Proof.
  assert (W : Forall wfSegment sampleText).
  { unfold sampleText. repeat constructor; try (by compute); try (intros E; discriminate E). }
  assert (G : forall key, key ∈ holes sampleText ->
    sampleStore key = Ok (if decide (key = "USER") then "ann" else "pw") /\ quiet (if decide (key = "USER") then "ann" else "pw")).
  { intros key Hin. change (holes sampleText) with ["USER"; "PASS"; "USER"] in Hin.
    unfold sampleStore. repeat (apply elem_of_cons in Hin as [->|Hin]; [split; [reflexivity|repeat constructor; intros E; discriminate E]|]).
    by apply not_elem_of_nil in Hin. }
  exact (fallback_substitutes sampleConfig sampleStore noAnswer map_to_list (fun key => if decide (key = "USER") then "ann" else "pw") sampleText
    (fun m => reflexivity _) (fun model prompt _ => eq_refl) eq_refl W G).
Defined.

(** A value that is itself a placeholder is expanded again, or not: the order decides. *)
Definition nestedStore (key : string) : Res string string := if decide (key = "A") then Ok "${SECRET:B}" else Ok "secret-b".

Example value_expanded_again :
  let text := "a=${SECRET:A} b=${SECRET:B}" in
  let run order := replaceInString sampleConfig defaultMatcher nestedStore noAnswer order text in
  run (fun m => [("A", "${SECRET:B}"); ("B", "secret-b")]) = Ok "a=secret-b b=secret-b" /\
  run (fun m => [("B", "secret-b"); ("A", "${SECRET:B}")]) = Ok "a=${SECRET:B} b=secret-b".
Proof. split; reflexivity. Qed.

(** An expression of the configuration without a group ends the program at the first match. *)
Example pattern_without_group config Get ask order :
  replaceInString config (fun _ => [("TOKEN", [])]) Get ask order "TOKEN" = Err GroupPanic.
Proof. reflexivity. Qed.

(** Of another form of placeholder, embedded ones are not replaced. *)
Example other_form_kept :
  replaceInString sampleConfig (fun s => if decide (s = "key <API>") then [("<API>", ["API"])] else []) (fun _ => Ok "k") noAnswer map_to_list "key <API>" = Ok "key <API>".
Proof. vm_compute. reflexivity. Qed.

(** ** Models and secrets *)

Section Blind.
Context (config : SecretReplacementConfig) (pattern : Pattern) (ask : string -> string -> option string).
Context (order : gmap string string -> list (string * string)).
(** The loop over a map visits its keys in an order that the values do not change. *)
Context (order_keys : forall m m', dom m = dom m' -> map fst (order m) = map fst (order m')).

Lemma prompt_of_keys text m m' : dom m = dom m' -> buildReplacementPrompt order text m = buildReplacementPrompt order text m'.
Proof.
  intros H. unfold buildReplacementPrompt.
  assert (E : forall es : list (string * string), map (fun e => "- " +:+ placeholder e.1 +:+ nl) es = map (fun k => "- " +:+ placeholder k +:+ nl) (map fst es))
    by (intros; by rewrite map_map).
  by rewrite !E, (order_keys m m' H).
Qed.

Lemma firstModel_of_keys text m m' models : dom m = dom m' -> firstModel ask order text m models = firstModel ask order text m' models.
Proof. intros H. induction models as [|model models IH]; simpl; [done|]. unfold replaceWithOllama. by rewrite (prompt_of_keys text m m' H), IH. Qed.

Lemma firstModel_answers text m models model : model ∈ models -> (forall prompt, ask model prompt <> None) -> firstModel ask order text m models <> None.
Proof.
  intros Hin Hask. induction models as [|m' models IH]; [by apply not_elem_of_nil in Hin|]. simpl. unfold replaceWithOllama.
  destruct (ask m' _) eqn:E; [done|]. apply elem_of_cons in Hin as [->|Hin]; [by apply Hask in E|by apply IH].
Qed.

Lemma gatherSecrets_keys Get Get' matches m m' : (forall key e, Get key = Err e <-> Get' key = Err e) -> dom m = dom m' ->
  match gatherSecrets Get matches m, gatherSecrets Get' matches m' with
  | Ok s, Ok s' => dom s = dom s'
  | Err e, Err e' => e = e'
  | _, _ => False
  end.
Proof.
  intros HGet. revert m m'. induction matches as [|[whole [|key groups]] matches IH]; intros m m' Hd; simpl; [done|done|].
  destruct (Get key) as [v|e] eqn:E.
  - destruct (Get' key) as [v'|e'] eqn:E'; [|by apply HGet in E'; congruence].
    apply IH. by rewrite !dom_insert_L, Hd.
  - apply HGet in E as ->. done.
Qed.

(** C26: A local model never sees a secret: where the configuration only allows local models, or
    one of them answers, the text that replaces placeholders which are embedded in other
    text, or several, is the same for any two stores with the same keys, whatever the
    values are. *)
Theorem local_model_ignores_secrets Get Get' text :
  (forall key e, Get key = Err e <-> Get' key = Err e) ->
  sr_LocalOnly config = true \/ (exists model, model ∈ sr_LocalModels config /\ forall prompt, ask model prompt <> None) ->
  isOnlyPlaceholder pattern text = false \/ (1 < length (pattern text))%nat ->
  replaceInString config pattern Get ask order text = replaceInString config pattern Get' ask order text.
Proof.
  intros HGet Hlocal Hembedded. unfold replaceInString. destruct (pattern text) as [|first rest] eqn:P; [reflexivity|]. cbv zeta.
  replace (bool_decide _ || negb _) with true
    by (destruct Hembedded as [->|H]; [by rewrite orb_true_r|by rewrite bool_decide_eq_true_2]).
  unfold intelligentReplace. pose proof (gatherSecrets_keys Get Get' (first :: rest) ∅ ∅ HGet eq_refl) as K.
  destruct (gatherSecrets Get _ ∅) as [s|e], (gatherSecrets Get' _ ∅) as [s'|e']; [|done..|by rewrite K].
  rewrite (firstModel_of_keys text s s' _ K). destruct (firstModel _ _ _ s' _) eqn:F; [reflexivity|].
  destruct Hlocal as [->|(model & Hin & Hask)]; [reflexivity|]. by apply (firstModel_answers text s' _ _ Hin Hask) in F.
Qed.
End Blind.

(** A model that repeats what it is asked, and two stores with the same keys. *)
Definition echo (model prompt : string) : option string := Some prompt.
Definition constStore (value key : string) : Res string string := Ok value.
Definition sortedKeys (m : gmap string string) : list (string * string) := map (fun k => (k, "")) (elements (dom m)).

Lemma local_model_ignores_secrets_witness :
  replaceInString sampleConfig defaultMatcher (constStore "one") echo sortedKeys "k=${SECRET:A}" =
  replaceInString sampleConfig defaultMatcher (constStore "two") echo sortedKeys "k=${SECRET:A}".
Proof.
  assert (O : forall m m' : gmap string string, dom m = dom m' -> map fst (sortedKeys m) = map fst (sortedKeys m')).
  { intros m m' E. unfold sortedKeys. by rewrite E. }
  assert (G : forall key e, constStore "one" key = Err e <-> constStore "two" key = Err e).
  { intros key e. split; intros E; discriminate E. }
  apply (local_model_ignores_secrets sampleConfig defaultMatcher echo sortedKeys O (constStore "one") (constStore "two") "k=${SECRET:A}" G).
  - right. exists "llama3.2". split; [|discriminate]. change (sr_LocalModels sampleConfig) with ["llama3.2"]. by apply list_elem_of_singleton.
  - left. reflexivity.
Defined.
